(* ===== verification/_CoqProject ===== *)
-Q . S2P
Prelude.v
Config.v
Util.v
SessionPackets.v
Mp2Packets.v
RecvBuffer.v
Monitor.v
Scheduler.v
Session.v
SessionSystem.v
SessionManager.v
RaptorTables.v
Raptor.v
Segment.v
Mp2Frames.v
Mp2State.v
Mp2Handlers.v
BlockTransfer.v
BlockReceive.v
BlockHandlers.v
Gf2.v
RaptorCode.v
Elimination.v
RaptorCorrect.v
RaptorTheorems.v
Control.v
NodeTree.v
LinkedList.v
LinkedListRing.v
QuicProtocol.v
QuicFrames.v
QuicFrameCodec.v
QuicAck.v
QuicFrameTheorems.v
QuicSplit.v
QuicHeader.v
QuicPacket.v
QuicKeys.v
QuicKeyUpdate.v
QuicFec.v
QuicFecBuffer.v
QuicFecTheorems.v
QuicFecSender.v
QuicFecSystem.v
QuicFrameSorter.v
QuicFrameSorterQueue.v
QuicFrameSorterGaps.v
QuicFrameSorterPush.v
QuicFrameSorterTheorems.v
FloatExact.v
QuicRtt.v
QuicFlowControl.v
QuicFlowControlTheorems.v
QuicFlowControlSystem.v
QuicFlowControlBounds.v
QuicSendStream.v
QuicSendStreamTheorems.v
QuicReceiveStream.v
QuicReceiveStreamTheorems.v
QuicCongestion.v
QuicCongestionTheorems.v
QuicReceived.v
QuicReceivedTheorems.v
QuicReceivedTracker.v
QuicSent.v
QuicSentHistory.v
QuicSentTheorems.v
QuicSentRuns.v
QuicSentOps.v
QuicSentSystem.v
QuicMtu.v
QuicParameters.v
QuicParametersTheorems.v
QuicStreamsMap.v
QuicStreamsMapTheorems.v
