(* ===== verification/Prelude.v ===== *)
(** * MP2BS: multipath block propagation

    A model of [src/mp2bs-main] and the theorems that make it correct.  The
    program propagates blocks through a tree of nodes, over sessions that use
    several network paths at once.

    ** The program

    - The session layer ([session/]) turns the QUIC streams of several paths
      into one byte stream.  [Session.Write] cuts the bytes into data packets
      with sequence numbers, a scheduler spreads them over the paths by weighted
      round robin, a transmitter per path writes them to the path's stream; at
      the other end a receiver per path parses them and a receive buffer puts
      them back in order for [Session.Read].  A handshake of Hello and Hello ACK
      packets opens the paths.  A monitor measures the throughput and tells the
      scheduler when to use more paths.
    - The block layer ([mp2session/]) runs on sessions.  A node announces a
      block to its children with Block Info packets; a child requests it in
      segments of 2 MiB with Block Request packets, spread over the peers that
      have it by a channel of tokens; a peer answers with Block Data packets of
      1 KiB; the segments reassemble the data, and the application reads it with
      [Mp2ReadBlock].  Received data is forwarded to the node's own children.
      Control messages and the list of nodes travel the same way.
    - [enhanced-quic/] is a fork of quic-go, the transport below the sessions.  A
      connection exchanges protected packets of frames; a stream's data travels in
      STREAM frames that a frame sorter puts back in order; acknowledgments and
      timers find lost packets, whose frames are sent again.  The fork adds
      forward error correction: FEC frames carry redundancy from which lost STREAM
      frames are recovered.
    - [config/] and [util/] hold the constants, the configuration and the integer
      codec.

    ** Files

    - [Prelude]: machine integers ([wrap]), results of Go code ([outcome]: a
      value, an error, a panic), slices with their bounds checks, parsers over
      byte lists ([reader]), tactics and lemmas the other files share.
    - [Config], [Util]: [config/config.go], [config/mp2bs.toml], [util/util.go];
      [WirePacket] is the interface of a packet format: its layout and that
      parsing inverts writing.
    - [SessionPackets], [Mp2Packets]: the packets of both layers, with an
      instance of [WirePacket] for each.
    - [RecvBuffer], [Monitor], [Scheduler]: the files of [session/] of the same
      names; floating-point numbers are IEEE values with their rounding.
    - [Session]: [session/session.go]; each goroutine is a step function on the
      session and the stream it reads or writes.  [SessionSystem] puts two
      sessions and the bytes in transit together and runs the goroutines in
      any interleaving.  [SessionManager]: [session/session_manager.go] and the
      handshake.
    - [Segment]: [mp2session/segment.go] and [block_buffer.go].
    - [Mp2Frames]: how [sessionHandler] cuts the bytes of a session into packets.
    - [Mp2State], [Mp2Handlers]: the state of a node and every function of
      [mp2session.go] and [mp2session_manager.go] on it, in a monad of state,
      panics and effects (packets given to [session.Write], goroutines started).
    - [BlockTransfer], [BlockReceive], [BlockHandlers], [Control], [NodeTree]: the
      theorems about blocks, control messages and node information.  In
      [BlockReceive] a data packet is handled in one step, in [BlockHandlers] in
      the steps of its handler, which shares the list of segments with the reader
      without a mutex.
    - [RaptorTables], [Raptor]: [mp2session/raptor.h] and [raptor.go], the
      forward error correction of the FEC mode, C code and its Go interface.
      [Gf2] is linear algebra over bits, [RaptorCode] says what each loop of the
      code computes in its terms, [Elimination] is about the two Gauss-Jordan
      eliminations, [RaptorCorrect] about encoder and decoder, and
      [RaptorTheorems] has the theorems.
    - [LinkedList], [LinkedListRing]: the linked lists of
      [enhanced-quic/internal/utils], as lists and as pointers.
    - [QuicProtocol], [QuicFrames], [QuicFrameCodec], [QuicAck], [QuicSplit],
      [QuicHeader]: numbers, frames and headers of [internal/protocol] and
      [internal/wire] and their codecs; [QuicFrameTheorems] is about the loop of
      [session.go] over the frames of a packet.
    - [QuicPacket]: how [packet_packer.go] protects a packet and
      [packet_unpacker.go] opens it, against the interfaces [Sealer] and
      [ShortHeaderOpener]; [QuicKeys] is [internal/handshake/updatable_aead.go], an
      instance of them, and [QuicKeyUpdate] two peers that update their keys.
    - [QuicFec]: [enhanced-quic/fec]; [QuicFecBuffer] and [QuicFecTheorems] are
      about the receiver, [QuicFecSender] about the sender, [QuicFecSystem] about
      the receiver with its timers and its decoding goroutine.
    - [QuicFrameSorter]: [frame_sorter.go]; [QuicFrameSorterQueue],
      [QuicFrameSorterGaps], [QuicFrameSorterPush] and [QuicFrameSorterTheorems]
      are about its queue, its gaps, a push, and runs.
    - [FloatExact]: when the floating-point arithmetic of the code is exact.
      [QuicRtt]: [internal/utils/rtt_stats.go].
    - [QuicFlowControl]: [internal/flowcontrol] and [window_update_queue.go], with
      [QuicFlowControlTheorems] on one controller, [QuicFlowControlSystem] on two
      endpoints and the frames between them, [QuicFlowControlBounds] on a receiver
      and any peer.
    - [QuicSendStream], [QuicReceiveStream]: [send_stream.go], [receive_stream.go]
      and the completion of [stream.go]; a blocked [Write] or [Read] is a state
      between two steps.  [QuicSendStreamTheorems] and [QuicReceiveStreamTheorems]
      are about their runs.
    - [QuicReceived]: the received packets of [internal/ackhandler];
      [QuicReceivedTheorems] is about their ranges, [QuicReceivedTracker] about
      acknowledgments.
    - [QuicCongestion]: [internal/congestion], with the interface [SendAlgorithm]
      of a congestion controller and its laws, which [QuicCongestionTheorems]
      proves of the controller of the code.
    - [QuicSent]: the sent packets of [internal/ackhandler], for any controller
      that keeps the laws.  [QuicSentHistory] is about their lists,
      [QuicSentTheorems], [QuicSentRuns] and [QuicSentOps] about single operations,
      [QuicSentSystem] about runs.
    - [QuicMtu]: [mtu_discoverer.go].
    - [QuicParameters]: [internal/wire/transport_parameters.go];
      [QuicParametersTheorems] is about the exchange of parameters and tickets.
    - [QuicStreamsMap]: [streams_map.go] and the maps of incoming and outgoing
      streams; [QuicStreamsMapTheorems] is about both endpoints.

    ** Theorems

    - Session layer: [session_delivers] (the bytes read are the bytes written, in
      order, whatever the paths and the interleaving), on top of
      [recv_buffer_delivers_in_order]; [handshake_completes]; both ask that the
      header of a packet comes in one read of the stream, since the code fails
      otherwise ([split_header_panics], [split_hello_ack_panics]); [scheduler_safe],
      [wrr_turns] (who gets how many packets).
    - Block layer: [block_transfer] and [block_transfer_completes] (what is read
      is a prefix of the block, and reading can always be completed), on top of
      [segment_reassembles]; [removal_during_search] (what a handler without the
      mutex can run into); [requests_cover_block] and
      [fec_peers_partition] (requests and answers); [mp2_framing] (packets
      survive the byte stream); [control_roundtrip]; [set_node_info] (a node in
      the list of nodes).
    - Raptor code: [raptor_systematic] (the source symbols are the first encoding
      symbols), [raptor_decode] (the decoder returns the data, or the received
      symbols do not determine them), [raptor_decode_source] and, for the
      configured sizes and the Go interface, [raptor_blocks].
    - QUIC packets: [long_packet_roundtrip] and [short_packet_roundtrip] (a packet
      is opened to what was packed), [key_update_delivers] (also while keys are
      updated), [payload_total] and [payload_roundtrip] (every payload is parsed or
      refused, and a written one is parsed back), [stream_frame_split],
      [acks_packet].
    - QUIC acknowledgments: [packets_acknowledged] (truthfully and in time) and
      [ack_frame_without_ranges] (where the tracker fails).
    - QUIC sent packets: [sent_packets_accounted] (no frame is lost track of, and
      nothing panics), [ack_processed] (exactly the named packets),
      [loss_timer_live] (the timer is set while packets are outstanding) and
      [loss_timer_spins] (where it fails); [congestion_window_bounds] (for any
      sequence of events); [mtu_search_ends] (the search for the path MTU).
    - QUIC handshake: [transport_parameters_roundtrip] (the peer reads what was
      set) and [transport_parameters_total] (any bytes are refused or read within
      limits).
    - QUIC flow control: [flow_control_sound] (a sender that keeps to its window
      never breaks the receiver's), [flow_control_live] (it is never blocked for
      ever) and [receive_buffer_bounded] (whatever the peer does).
    - QUIC streams of a connection: [stream_limits_sound] (they are opened and
      accepted in order and within limits), [stream_opening_live] (no call waits in
      vain), [cancelled_call_blocks] (where one does), [receive_stream_found].
    - QUIC streams: [send_stream_reliable] and [send_stream_live] (nothing written
      is lost, and it can always be sent), [receive_stream_delivers] (the
      application reads the stream); [frame_sorter_delivers] (the frame sorter refines the stream),
      on top of [linked_list_refines] for its list; [fec_encodes] and
      [fec_recovers] (redundancy is made of every block and lost frames are
      recovered), [fec_timeout_blocks] and [fec_reordering_marks_lost_symbol] (where
      the receiver fails).

    ** Conventions and bounds

    - A mutex makes the operations under it atomic; where the code does not take
      it, the accesses are steps of their own ([BlockHandlers]), one goroutine's
      access at a time.  A call that waits (a full or
      empty channel, a polling loop) is a value [would_block] and is tried again
      later; in a run it leaves everything as it was.
    - A goroutine that loops is one definition per round, so that theorems
      quantify over all interleavings of rounds.
    - What comes from outside the program is an argument: the iteration order of
      maps, random IDs, how many bytes a read of a stream returns, the time, the
      sessions that connecting to an address returns.
    - Loops that end have fuel that a lemma shows to be enough: the number of
      packets of a segment ([advance_inv]), the length of the data
      ([control_loop_run]), the size of the requested range
      ([block_data_loop_run]), the walk of the LT code ([skip_ends]), the bits of
      a number ([bit_positions_spec]), the rows of a matrix ([find_pivot_run]).
    - The C code of the Raptor code has arrays without bounds checks; the model
      panics outside their bounds, and the theorems show that it does not.  They
      need symbol sizes that are multiples of 16, and rows of at least [K] bytes
      rounded up to a multiple of 16, since [vector_xor_mp] works on 16 bytes at a
      time.
    - The exponential back-off of the loss timer is a 64-bit shift that can
      overflow; [loss_timer_live] asks that it has not.  Datagrams are at most [2 ^ 16]
      bytes, where the arithmetic on congestion windows does not overflow.
    - Flow control windows are below [2 ^ 50], where the [float64] and [int64]
      arithmetic on them is exact or rounds without overflow.  The recycling of
      buffers in pools is left out; a finding says where it matters.
    - Sizes of blocks and messages are below [2 ^ 32] minus one packet in the
      theorems, since the code's offsets are 32-bit; sequence numbers of a session
      do not wrap around.

    ** Not modelled

    - Of [enhanced-quic/]: the TLS handshake and the parts of the connection that
      drive the components above (the run loop of [session.go], the packer's
      choice of frames, the server), HTTP/3, and sockets.  Sessions rely on its
      streams being reliable and ordered.
    - The parameter files and experiments in [raptor.go] and its memory
      management.
    - Sockets, TLS, logging, the closing of sessions, the set-up of test
      topologies, the benchmarks of [test/], and [src/ver_v4], a separate
      prototype. *)

From stdpp Require Import base list gmap numbers strings.
From Stdlib Require Import ZArith Lia.

#[global] Open Scope Z_scope.

(** ** Go values

    A machine integer is a [Z]; [wrap w] is the conversion to (or the result of
    unsigned arithmetic at) a [w]-bit unsigned type, [i64] the one to a signed
    64-bit type.  A byte is a [Z] in [0, 256), a byte slice a [list Z]. *)

Definition wrap (w z : Z) : Z := z mod 2 ^ w.

Abbreviation u8 := (wrap 8).
Abbreviation u16 := (wrap 16).
Abbreviation u32 := (wrap 32).
Abbreviation u64 := (wrap 64).

Definition i64 (z : Z) : Z := wrap 64 (z + 2 ^ 63) - 2 ^ 63.

(** [uint w z]: [z] is a value of the [w]-bit unsigned type. *)
Definition uint (w z : Z) : Prop := 0 <= z < 2 ^ w.
#[global] Instance uint_dec w z : Decision (uint w z).
Proof. unfold uint. apply _. Defined.

Abbreviation is_byte := (uint 8).
Abbreviation bytes_ok := (Forall (uint 8)).

(** ** Updates of records

    [r <| get := v |>] is [r] with the field [get] set to [v], and
    [r <| get ::= f |>] with [f] applied to it, for records with an instance of
    [Fields], which lists the fields. *)

Class Fields (R : Type) := fields : R → R.
Class Field {R E : Type} (get : R → E) := update : (E → E) → R → R.
Arguments update {R E} get {_} f r /.

Ltac make_field get :=
  lazymatch type of get with
  | ?R → ?E =>
      let rebuild := constr:(_ : Fields R) in
      let rebuild := eval unfold fields in rebuild in
      let rebuild := eval hnf in rebuild in
      exact (λ (f : E → E) (r : R),
        ltac:(let whole := eval cbv beta in (rebuild r) in
              match whole with context C [get r] => let whole' := context C [f (get r)] in exact whole' end))
  end.
#[global] Hint Extern 1 (Field ?get) => make_field get : typeclass_instances.

Notation "r <| get := v |>" := (update get (λ _, v) r) (get at level 1, v at level 200, format "r  <| get  :=  v |>").
Notation "r <| get ::= f |>" := (update get f r) (get at level 1, f at level 200, format "r  <| get  ::=  f |>").

(** ** Outcomes of Go code

    A call returns a value, returns a non-nil [error], or panics. *)

Inductive go_error : Type :=
| EOF
| UnexpectedEOF
| GoError (msg : string).

Inductive outcome (A : Type) : Type :=
| Ret (a : A)
| Err (e : go_error)
| Panic (msg : string).
Arguments Ret {A} a.
Arguments Err {A} e.
Arguments Panic {A} msg.

#[global] Instance outcome_ret : MRet outcome := @Ret.
#[global] Instance outcome_bind : MBind outcome := λ A B f m,
  match m with
  | Ret a => f a
  | Err e => Err e
  | Panic s => Panic s
  end.

#[global] Instance go_error_eq_dec : EqDecision go_error.
Proof. solve_decision. Defined.

#[global] Instance outcome_eq_dec {A} `{EqDecision A} : EqDecision (outcome A).
Proof. solve_decision. Defined.

(** ** [bytes.Reader] and [bytes.Buffer]

    A [bytes.Reader] is the list of its unread bytes.  A [reader A] consumes a
    prefix of it.  A write to a [bytes.Buffer] is the list of bytes appended. *)

Definition reader (A : Type) : Type := list Z → outcome (A * list Z).

#[global] Instance reader_ret : MRet reader := λ A a r, Ret (a, r).
#[global] Instance reader_bind : MBind reader := λ A B f m r,
  match m r with
  | Ret (a, r') => f a r'
  | Err e => Err e
  | Panic s => Panic s
  end.

Definition rfail {A} (e : go_error) : reader A := λ _, Err e.

(** [Reader.ReadByte]. *)
Definition ReadByte : reader Z := λ r,
  match r with
  | [] => Err EOF
  | b :: r' => Ret (b, r')
  end.

(** [Reader.Len]. *)
Definition ReaderLen : reader Z := λ r, Ret (Z.of_nat (length r), r).

(** [buf := make([]byte, n); r.Read(buf)] with both results ignored: the bytes
    that are there are copied, the rest of the slice keeps its zero value. *)
Definition ReadInto (n : nat) : reader (list Z) := λ r,
  Ret (take n r ++ replicate (n - length r) 0, drop n r).

(** [io.ReadFull(r, buf)] for a [buf] of [n] bytes. *)
Definition ReadFull (n : nat) : reader (list Z) := λ r,
  if (n <=? length r)%nat then Ret (take n r, drop n r)
  else Err (if (length r =? 0)%nat then EOF else UnexpectedEOF).

(** ** Slices

    Indexing out of range panics; [s[lo:hi]] panics unless
    [0 <= lo <= hi <= cap(s)], and the slices of the code sliced this way are
    fresh from [make], so that [cap(s) = len(s)]. *)

Definition zlen {A} (l : list A) : Z := Z.of_nat (length l).

Definition zget {A} (l : list A) (i : Z) : option A :=
  if i <? 0 then None else l !! Z.to_nat i.

Definition index {A} (l : list A) (i : Z) : outcome A :=
  match zget l i with
  | Some x => Ret x
  | None => Panic "index out of range"
  end.

Definition set_index {A} (l : list A) (i : Z) (x : A) : outcome (list A) :=
  if bool_decide (0 <= i < zlen l) then Ret (<[Z.to_nat i:=x]> l)
  else Panic "index out of range".

Definition zslice {A} (l : list A) (lo hi : Z) : list A :=
  take (Z.to_nat hi - Z.to_nat lo) (drop (Z.to_nat lo) l).

Definition slice {A} (l : list A) (lo hi : Z) : outcome (list A) :=
  if bool_decide (0 <= lo <= hi ∧ hi <= zlen l) then Ret (zslice l lo hi)
  else Panic "slice bounds out of range".

(** [splice l i src]: [l] with [src] written over it from position [i]. *)
Definition splice {A} (l : list A) (i : nat) (src : list A) : list A :=
  take i l ++ src ++ drop (i + length src) l.

(** [copy(l[lo:hi], src)]: at most [hi - lo] elements are written. *)
Definition copy_to {A} (l : list A) (lo hi : Z) (src : list A) : outcome (list A) :=
  if bool_decide (0 <= lo <= hi ∧ hi <= zlen l)
  then Ret (splice l (Z.to_nat lo) (take (Z.to_nat (hi - lo)) src))
  else Panic "slice bounds out of range".

Definition is_ret {A} (o : outcome A) : bool :=
  match o with Ret _ => true | _ => false end.

(** ** Tactics *)

(** Linear arithmetic with [/] and [mod] by constants. *)
Ltac zify_div := Z.to_euclidean_division_equations.
Ltac mlia := unfold uint, wrap, i64, zlen in *; zify; zify_div; lia.

(** Case analysis on the test a goal or hypothesis is stuck on. *)
Ltac dcase :=
  match goal with
  | |- context [bool_decide ?P] => destruct (bool_decide_reflect P)
  | |- context [(?a <? ?b)%Z] => destruct (Z.ltb_spec a b)
  | |- context [(?a <=? ?b)%Z] => destruct (Z.leb_spec a b)
  | |- context [(?a =? ?b)%Z] => destruct (Z.eqb_spec a b)
  end.

Create HintDb go.
Create HintDb codec.
Create Rewrite HintDb go.
Create Rewrite HintDb codec.

(** ** Machine integers *)

Lemma wrap_small w z : uint w z → wrap w z = z.
Proof. unfold uint, wrap. intros. by apply Z.mod_small. Qed.

Lemma wrap_uint w z : 0 <= w → uint w (wrap w z).
Proof.
  intros Hw. unfold uint, wrap. apply Z.mod_pos_bound.
  by apply Z.pow_pos_nonneg.
Qed.

Lemma wrap_wrap w z : wrap w (wrap w z) = wrap w z.
Proof. unfold wrap. apply Zmod_mod. Qed.

Lemma wrap_add_l w a b : wrap w (wrap w a + b) = wrap w (a + b).
Proof. unfold wrap. apply Zplus_mod_idemp_l. Qed.

Lemma wrap_add_r w a b : wrap w (a + wrap w b) = wrap w (a + b).
Proof. unfold wrap. apply Zplus_mod_idemp_r. Qed.

Lemma uint_mono w w' z : 0 <= w <= w' → uint w z → uint w' z.
Proof.
  unfold uint. intros Hw Hz.
  pose proof (Z.pow_le_mono_r 2 w w' ltac:(lia) ltac:(lia)). lia.
Qed.

Lemma i64_bounds z : - 2 ^ 63 <= i64 z < 2 ^ 63.
Proof. unfold i64. pose proof (wrap_uint 64 (z + 2 ^ 63)). unfold uint in *. lia. Qed.

Lemma i64_small z : - 2 ^ 63 <= z < 2 ^ 63 → i64 z = z.
Proof. intros H. unfold i64. rewrite wrap_small; unfold uint; lia. Qed.

#[export] Hint Rewrite @wrap_small using (unfold uint in *; lia) : go.
#[export] Hint Resolve wrap_uint wrap_small : go.

(** ** Lists and slices *)

Lemma zlen_nonneg {A} (l : list A) : 0 <= zlen l.
Proof. unfold zlen. lia. Qed.

Lemma zlen_app {A} (l k : list A) : zlen (l ++ k) = zlen l + zlen k.
Proof. unfold zlen. rewrite length_app. lia. Qed.

Lemma zlen_nil {A} : zlen (@nil A) = 0.
Proof. done. Qed.

Lemma zlen_cons {A} (x : A) l : zlen (x :: l) = zlen l + 1.
Proof. unfold zlen. cbn [length]. lia. Qed.

Lemma zlen_0_inv {A} (l : list A) : zlen l = 0 → l = [].
Proof. destruct l; [done|]. unfold zlen. cbn. lia. Qed.

Lemma zget_Some {A} (l : list A) i x :
  zget l i = Some x → 0 <= i < zlen l ∧ l !! Z.to_nat i = Some x.
Proof.
  unfold zget, zlen. dcase; [done|]. intros Hx.
  pose proof (lookup_lt_Some _ _ _ Hx). split; [lia|done].
Qed.

Lemma zget_is_Some {A} (l : list A) i : 0 <= i < zlen l → is_Some (zget l i).
Proof.
  unfold zget, zlen. intros Hi. dcase; [lia|]. apply lookup_lt_is_Some. lia.
Qed.

Lemma zget_nat {A} (l : list A) (n : nat) : zget l (Z.of_nat n) = l !! n.
Proof. unfold zget. dcase; [lia|]. by rewrite Nat2Z.id. Qed.

Lemma index_Ret {A} (l : list A) i x : zget l i = Some x → index l i = Ret x.
Proof. unfold index. by intros ->. Qed.

Lemma index_inv {A} (l : list A) i x : index l i = Ret x → zget l i = Some x.
Proof. unfold index. destruct (zget l i); naive_solver. Qed.

Lemma set_index_Ret {A} (l : list A) i x :
  0 <= i < zlen l → set_index l i x = Ret (<[Z.to_nat i:=x]> l).
Proof. unfold set_index. intros. by rewrite bool_decide_true. Qed.

Lemma length_splice {A} (l : list A) i src :
  (i + length src <= length l)%nat → length (splice l i src) = length l.
Proof.
  unfold splice. intros. rewrite !length_app, length_take, length_drop. lia.
Qed.

Lemma splice_lookup_in {A} (l : list A) i src j :
  (i <= length l)%nat → (i <= j < i + length src)%nat →
  splice l i src !! j = src !! (j - i)%nat.
Proof.
  intros Hl Hj. unfold splice.
  rewrite lookup_app_r by (rewrite length_take; lia).
  rewrite length_take, Nat.min_l by lia.
  rewrite lookup_app_l by lia. done.
Qed.

Lemma splice_lookup_out {A} (l : list A) i src j :
  (i + length src <= length l)%nat → (j < i ∨ i + length src <= j)%nat →
  splice l i src !! j = l !! j.
Proof.
  intros Hl Hj. unfold splice. destruct Hj as [Hj|Hj].
  - rewrite lookup_app_l by (rewrite length_take; lia).
    apply lookup_take_lt. lia.
  - rewrite lookup_app_r by (rewrite length_take; lia).
    rewrite length_take, Nat.min_l by lia.
    rewrite lookup_app_r by lia. rewrite lookup_drop. f_equal. lia.
Qed.

Lemma splice_zero_full {A} (l src : list A) :
  length src = length l → splice l 0 src = src.
Proof.
  intros H. unfold splice. simpl. rewrite drop_ge by lia. by rewrite app_nil_r.
Qed.

Lemma take_app_exact {A} (l k : list A) n : n = length l → take n (l ++ k) = l.
Proof. intros ->. apply take_app_length. Qed.

Lemma drop_app_exact {A} (l k : list A) n : n = length l → drop n (l ++ k) = k.
Proof. intros ->. apply drop_app_length. Qed.

Lemma copy_to_Ret {A} (l : list A) lo hi src :
  0 <= lo → hi = lo + zlen src → hi <= zlen l →
  copy_to l lo hi src = Ret (splice l (Z.to_nat lo) src).
Proof.
  intros Hlo -> Hhi. unfold copy_to. pose proof (zlen_nonneg src).
  rewrite bool_decide_true by lia.
  rewrite take_ge by (unfold zlen; lia). done.
Qed.

(** ** Readers *)

Lemma ReadByte_cons b r : ReadByte (b :: r) = Ret (b, r).
Proof. done. Qed.

Lemma ReadInto_app l r n : n = length l → ReadInto n (l ++ r) = Ret (l, r).
Proof.
  intros ->. unfold ReadInto.
  rewrite take_app_length, drop_app_length, length_app.
  replace (length l - (length l + length r))%nat with 0%nat by lia.
  simpl. by rewrite app_nil_r.
Qed.

Lemma ReadFull_app l r n : n = length l → ReadFull n (l ++ r) = Ret (l, r).
Proof.
  intros ->. unfold ReadFull. rewrite length_app.
  destruct (Nat.leb_spec (length l) (length l + length r)); [|lia].
  by rewrite take_app_length, drop_app_length.
Qed.

Lemma reader_bind_Ret {A B} (m : reader A) (f : A → reader B) r a r' :
  m r = Ret (a, r') → (m ≫= f) r = f a r'.
Proof. intros H. unfold mbind, reader_bind. by rewrite H. Qed.

(** [rbind] runs the next read of a parser on bytes that are known. *)
Ltac rbind lem := erewrite reader_bind_Ret; [|apply lem; auto with codec].

#[export] Hint Rewrite @take_app_length @drop_app_length @zlen_app : go.
