(* ===== verification/Config.v ===== *)
(** * Configuration ([config/config.go])

    The constants of the wire protocol and the [Config] record that
    [CreateMp2SessionManager] fills from a TOML file.  The global variable
    [config.Conf] is an argument of the definitions that read it;
    [mp2bs_toml] is the file the repository ships ([config/mp2bs.toml]). *)

From stdpp Require Import base list strings.
From Stdlib Require Import Floats.SpecFloat.
From S2P Require Import Prelude.

(** Floating-point settings are IEEE values of the source's width. *)
Record Config := {
  CONFIG_USER_WRR_WEIGHT : list Z;
  VERBOSE_MODE : bool;
  PACKET_SIZE : Z;
  HELLO_PACKET : Z;
  HELLO_ACK_PACKET : Z;
  DATA_PACKET : Z;
  GOODBYE_PACKET : Z;
  NIC_NAMES : list string;
  NIC_ADDRS : list string;
  PEER_ADDRS : list string;
  PEER_PORTS : list Z;
  NUM_OF_CHILDS : list Z;
  OFFSET_OF_CHILDS : list Z;
  THROUGHPUT_PERIOD : spec_float;
  THROUGHPUT_WEIGHT : spec_float;
  MULTIPATH_THRESHOLD_THROUGHPUT : spec_float;
  MULTIPATH_THRESHOLD_SEND_COMPLETE_TIME : spec_float;
  CLOSE_TIMEOUT_PERIOD : Z;
}.

(** Packet types of the block layer. *)
Definition BLOCK_FIND_PACKET : Z := 11.
Definition BLOCK_INFO_PACKET : Z := 12.
Definition BLOCK_REQUEST_PACKET : Z := 13.
Definition BLOCK_DATA_PACKET : Z := 14.
Definition BLOCK_DATA_ACK_PACKET : Z := 15.
Definition BLOCK_FIN_PACKET : Z := 16.
Definition CONTROL_PACKET : Z := 17.
Definition NODE_INFO_PACKET : Z := 18.
Definition NODE_INFO_ACK_PACKET : Z := 19.

(** Status of a peer with respect to a block. *)
Definition PEER_NOT_KNOWN : Z := 0.
Definition PEER_HAS_BLOCK : Z := 1.
Definition PEER_HAS_NO_BLOCK : Z := 2.
Definition PEER_DOWNLOADING : Z := 3.

Definition SEGMENT_SIZE : Z := 2 * 1024 * 1024.
Definition PAYLOAD_SIZE : Z := 1024.

Definition FEC_SOURCE_DATA : Z := 0.
Definition FEC_REDUNDANT_DATA : Z := 1.

(** ** The shipped configuration file *)

(** The [binary32] ([binary64]) value closest to the rational [n / d]. *)
Definition f32_of_frac (n d : Z) : spec_float :=
  SFdiv 24 128 (binary_normalize 24 128 n 0 false) (binary_normalize 24 128 d 0 false).
Definition f64_of_frac (n d : Z) : spec_float :=
  SFdiv 53 1024 (binary_normalize 53 1024 n 0 false) (binary_normalize 53 1024 d 0 false).

Definition mp2bs_toml : Config := {|
  CONFIG_USER_WRR_WEIGHT := [5; 2];
  VERBOSE_MODE := false;
  PACKET_SIZE := 1500;
  HELLO_PACKET := 1;
  HELLO_ACK_PACKET := 2;
  DATA_PACKET := 3;
  GOODBYE_PACKET := 4;
  NIC_NAMES := ["ethernet"%string; "ethernet"%string];
  NIC_ADDRS := ["127.0.0.1:5001"%string; "127.0.0.1:5002"%string];
  PEER_ADDRS := ["127.0.0.1:5003"%string];
  PEER_PORTS := [];
  NUM_OF_CHILDS := [];
  OFFSET_OF_CHILDS := [];
  THROUGHPUT_PERIOD := f32_of_frac 1 10;
  THROUGHPUT_WEIGHT := f32_of_frac 1 10;
  MULTIPATH_THRESHOLD_THROUGHPUT := f64_of_frac 10 1;
  MULTIPATH_THRESHOLD_SEND_COMPLETE_TIME := f64_of_frac 2 1;
  CLOSE_TIMEOUT_PERIOD := 200;
|}.

(** Packet types are bytes, the four types of the session layer are distinct
    and the receive buffer holds a full data packet: what the receive loops
    rely on and a configuration file has to provide. *)
Definition conf_ok (c : Config) : bool :=
  bool_decide (uint 8 (HELLO_PACKET c) ∧ uint 8 (HELLO_ACK_PACKET c) ∧
               uint 8 (DATA_PACKET c) ∧ uint 8 (GOODBYE_PACKET c) ∧
               DATA_PACKET c ≠ HELLO_PACKET c ∧ DATA_PACKET c ≠ HELLO_ACK_PACKET c ∧
               1036 <= PACKET_SIZE c < 2 ^ 16).
