(* ===== verification/Util.v ===== *)
(** * Big-endian integers ([util/util.go])

    [ReadUint16], [ReadUint32], [WriteUint16], [WriteUint32], the integer codec
    every packet of the repository is built from, and the class [WirePacket]
    of what a packet format promises to the receive loops. *)

From stdpp Require Import base list strings.
From Stdlib Require Import ZArith Lia.
From S2P Require Import Prelude.

Definition ReadUint16 : reader Z :=
  b1 ← ReadByte;
  b2 ← ReadByte;
  mret (u16 (b2 + u16 (Z.shiftl b1 8))).

Definition ReadUint32 : reader Z :=
  b1 ← ReadByte;
  b2 ← ReadByte;
  b3 ← ReadByte;
  b4 ← ReadByte;
  mret (u32 (u32 (u32 (b4 + u32 (Z.shiftl b3 8)) + u32 (Z.shiftl b2 16)) + u32 (Z.shiftl b1 24))).

Definition WriteUint32 (i : Z) : list Z :=
  [u8 (Z.shiftr i 24); u8 (Z.shiftr i 16); u8 (Z.shiftr i 8); u8 i].

Definition WriteUint16 (i : Z) : list Z := [u8 (Z.shiftr i 8); u8 i].

(** ** Interface of a packet format

    [pkt_write] is the [Write] method, [pkt_parse] the [Parse...Packet]
    function; a valid packet is what [Create...Packet] builds.  The receive
    loops read the type byte, the two length bytes and then [pkt_length - 3]
    more bytes, and parse what they read: [pkt_frame] is why that consumes
    exactly one packet, [pkt_roundtrip] why it yields the packet written. *)
Class WirePacket (P : Type) := {
  pkt_type : P → Z;
  pkt_length : P → Z;
  pkt_write : P → outcome (list Z);
  pkt_parse : reader P;
  pkt_valid : P → Prop;
  pkt_type_byte : ∀ p, pkt_valid p → uint 8 (pkt_type p);
  pkt_length_u16 : ∀ p, pkt_valid p → 3 <= pkt_length p < 2 ^ 16;
  pkt_frame : ∀ p, pkt_valid p → ∃ body,
    pkt_write p = Ret (pkt_type p :: WriteUint16 (pkt_length p) ++ body) ∧
    zlen body = pkt_length p - 3;
  pkt_roundtrip : ∀ p bs r, pkt_valid p → pkt_write p = Ret bs →
    pkt_parse (bs ++ r) = Ret (p, r);
}.

(** ** The integer codec is exact *)

Lemma ReadUint16_Write i r : uint 16 i → ReadUint16 (WriteUint16 i ++ r) = Ret (i, r).
Proof.
  intros Hi. unfold ReadUint16, WriteUint16. simpl.
  unfold mbind, reader_bind, mret, reader_ret; simpl. do 2 f_equal.
  rewrite Z.shiftl_mul_pow2, Z.shiftr_div_pow2 by lia.
  change (2 ^ 8) with 256. mlia.
Qed.

Lemma ReadUint32_Write i r : uint 32 i → ReadUint32 (WriteUint32 i ++ r) = Ret (i, r).
Proof.
  intros Hi. unfold ReadUint32, WriteUint32. simpl.
  unfold mbind, reader_bind, mret, reader_ret; simpl. do 2 f_equal.
  rewrite !Z.shiftl_mul_pow2, !Z.shiftr_div_pow2 by lia.
  change (2 ^ 8) with 256; change (2 ^ 16) with 65536; change (2 ^ 24) with 16777216.
  mlia.
Qed.

Lemma length_WriteUint16 i : length (WriteUint16 i) = 2%nat.
Proof. done. Qed.

Lemma length_WriteUint32 i : length (WriteUint32 i) = 4%nat.
Proof. done. Qed.

Lemma WriteUint16_bytes i : bytes_ok (WriteUint16 i).
Proof. unfold WriteUint16. repeat constructor; apply wrap_uint; lia. Qed.

Lemma WriteUint32_bytes i : bytes_ok (WriteUint32 i).
Proof. unfold WriteUint32. repeat constructor; apply wrap_uint; lia. Qed.

#[export] Hint Resolve ReadUint16_Write ReadUint32_Write ReadByte_cons : codec.

Lemma ReadByte_single b r : ReadByte ([b] ++ r) = Ret (b, r).
Proof. done. Qed.

(** [parse_step] runs one read of a parser on the bytes a writer produced. *)
Ltac parse_step :=
  lazymatch goal with
  | |- mbind _ ReadByte _ = _ =>
      erewrite reader_bind_Ret; [|first [apply ReadByte_single | apply ReadByte_cons]]
  | |- mbind _ ReadUint16 _ = _ =>
      erewrite reader_bind_Ret; [|apply ReadUint16_Write; solve [done | unfold uint in *; lia]]
  | |- mbind _ ReadUint32 _ = _ =>
      erewrite reader_bind_Ret; [|apply ReadUint32_Write; solve [done | unfold uint in *; lia]]
  end.

(** Runs the leading byte and integer reads of a parser. *)
Ltac parse_all := rewrite <-?app_assoc; repeat parse_step.
