(* ===== verification/SessionPackets.v ===== *)
(** * Packets of the multipath session layer ([session/*_packet.go])

    Hello, Hello ACK, Data and Goodbye packets: the record, the [Create]
    function, the [Parse] function and the [Write] method of each, and the
    [WirePacket] instance that discharges the interface of [Util]. *)

From stdpp Require Import base list strings.
From Stdlib Require Import ZArith Lia.
From S2P Require Import Prelude Config Util.

(** ** Data packet *)

Definition DATA_PACKET_HEADER_LEN : Z := 12.
Definition DATA_PACKET_PAYLOAD_SIZE : Z := 1024.

Record DataPacket := {
  dp_Type : Z;
  dp_Length : Z;
  dp_SessionID : Z;
  dp_PathID : Z;
  dp_SeqNumber : Z;
  dp_Payload : list Z;
}.

Definition CreateDataPacket (conf : Config) (sessionID pathID seq : Z)
    (payload : list Z) : DataPacket := {|
  dp_Type := DATA_PACKET conf;
  dp_Length := u16 (DATA_PACKET_HEADER_LEN + zlen payload);
  dp_SessionID := sessionID;
  dp_PathID := u8 pathID;
  dp_SeqNumber := seq;
  dp_Payload := payload;
|}.

(** [packetLegnth-DATA_PACKET_HEADER_LEN] is a 16-bit subtraction. *)
Definition ParseDataPacket : reader DataPacket :=
  packetType ← ReadByte;
  packetLength ← ReadUint16;
  sessionID ← ReadUint32;
  pathID ← ReadByte;
  seqNumber ← ReadUint32;
  payload ← ReadInto (Z.to_nat (u16 (packetLength - DATA_PACKET_HEADER_LEN)));
  mret {| dp_Type := packetType; dp_Length := packetLength; dp_SessionID := sessionID;
          dp_PathID := pathID; dp_SeqNumber := seqNumber; dp_Payload := payload |}.

Definition DataPacket_Write (p : DataPacket) : list Z :=
  [dp_Type p] ++ WriteUint16 (dp_Length p) ++ WriteUint32 (dp_SessionID p) ++
  [dp_PathID p] ++ WriteUint32 (dp_SeqNumber p) ++ dp_Payload p.

Definition DataPacket_valid (p : DataPacket) : Prop :=
  uint 8 (dp_Type p) ∧ uint 16 (dp_Length p) ∧ uint 32 (dp_SessionID p) ∧
  uint 8 (dp_PathID p) ∧ uint 32 (dp_SeqNumber p) ∧
  dp_Length p = DATA_PACKET_HEADER_LEN + zlen (dp_Payload p).

(** ** Goodbye packet *)

Definition GOODBYE_PACKET_HEADER_LEN : Z := 7.

Record GoodbyePacket := {
  gp_Type : Z;
  gp_Length : Z;
  gp_SessionID : Z;
}.

Definition CreateGoodbyePacket (conf : Config) (sessionID : Z) : GoodbyePacket := {|
  gp_Type := GOODBYE_PACKET conf;
  gp_Length := GOODBYE_PACKET_HEADER_LEN;
  gp_SessionID := sessionID;
|}.

Definition ParseGoodbyePacket : reader GoodbyePacket :=
  packetType ← ReadByte;
  packetLength ← ReadUint16;
  sessionID ← ReadUint32;
  mret {| gp_Type := packetType; gp_Length := packetLength; gp_SessionID := sessionID |}.

Definition GoodbyePacket_Write (p : GoodbyePacket) : list Z :=
  [gp_Type p] ++ WriteUint16 (gp_Length p) ++ WriteUint32 (gp_SessionID p).

Definition GoodbyePacket_valid (p : GoodbyePacket) : Prop :=
  uint 8 (gp_Type p) ∧ gp_Length p = GOODBYE_PACKET_HEADER_LEN ∧ uint 32 (gp_SessionID p).

(** ** Hello packet *)

Definition HELLO_PACKET_HEADER_LEN : Z := 8.

Record HelloPacket := {
  hp_Type : Z;
  hp_Length : Z;
  hp_SessionID : Z;
  hp_NumPath : Z;
}.

Definition CreateHelloPacket (conf : Config) (sessionID numPath : Z) : HelloPacket := {|
  hp_Type := HELLO_PACKET conf;
  hp_Length := HELLO_PACKET_HEADER_LEN;
  hp_SessionID := sessionID;
  hp_NumPath := numPath;
|}.

Definition ParseHelloPacket : reader HelloPacket :=
  packetType ← ReadByte;
  packetLength ← ReadUint16;
  sessionID ← ReadUint32;
  numPath ← ReadByte;
  mret {| hp_Type := packetType; hp_Length := packetLength; hp_SessionID := sessionID;
          hp_NumPath := numPath |}.

Definition HelloPacket_Write (p : HelloPacket) : list Z :=
  [hp_Type p] ++ WriteUint16 (hp_Length p) ++ WriteUint32 (hp_SessionID p) ++ [hp_NumPath p].

Definition HelloPacket_valid (p : HelloPacket) : Prop :=
  uint 8 (hp_Type p) ∧ hp_Length p = HELLO_PACKET_HEADER_LEN ∧
  uint 32 (hp_SessionID p) ∧ uint 8 (hp_NumPath p).

(** ** Hello ACK packet *)

Definition HELLO_ACK_PACKET_HEADER_LEN : Z := 8.

Record NicInfo := {
  ni_Type : Z;
  ni_AddrLen : Z;
  ni_Addr : list Z;
}.

Record HelloAckPacket := {
  hap_Type : Z;
  hap_Length : Z;
  hap_SessionID : Z;
  hap_NumPath : Z;
  hap_NicInfos : list NicInfo;
}.

(** [int(nicInfo.AddrLen + 2)]: the addition is done on bytes. *)
Definition nicInfoLen (nicInfos : list NicInfo) : Z :=
  fold_left (λ acc n, acc + u8 (ni_AddrLen n + 2)) nicInfos 0.

Definition CreateHelloAckPacket (conf : Config) (sessionID : Z)
    (nicInfos : list NicInfo) : HelloAckPacket := {|
  hap_Type := HELLO_ACK_PACKET conf;
  hap_Length := u16 (HELLO_ACK_PACKET_HEADER_LEN + nicInfoLen nicInfos);
  hap_SessionID := sessionID;
  hap_NumPath := u8 (zlen nicInfos);
  hap_NicInfos := nicInfos;
|}.

(** [n] successive [r.ReadByte()]. *)
Fixpoint ReadBytes (n : nat) : reader (list Z) :=
  match n with
  | O => mret []
  | S n => b ← ReadByte; bs ← ReadBytes n; mret (b :: bs)
  end.

Fixpoint ParseNicInfos (n : nat) : reader (list NicInfo) :=
  match n with
  | O => mret []
  | S n =>
      ty ← ReadByte;
      addrLen ← ReadByte;
      addr ← ReadBytes (Z.to_nat addrLen);
      nics ← ParseNicInfos n;
      mret ({| ni_Type := ty; ni_AddrLen := addrLen; ni_Addr := addr |} :: nics)
  end.

Definition ParseHelloAckPacket : reader HelloAckPacket :=
  packetType ← ReadByte;
  packetLength ← ReadUint16;
  sessionID ← ReadUint32;
  numPath ← ReadByte;
  nicInfos ← ParseNicInfos (Z.to_nat numPath);
  mret {| hap_Type := packetType; hap_Length := packetLength; hap_SessionID := sessionID;
          hap_NumPath := numPath; hap_NicInfos := nicInfos |}.

(** The inner loop of [Write] panics when [AddrLen] exceeds the address. *)
Definition NicInfo_Write (n : NicInfo) : outcome (list Z) :=
  if bool_decide (ni_AddrLen n <= zlen (ni_Addr n))
  then Ret ([ni_Type n; ni_AddrLen n] ++ take (Z.to_nat (ni_AddrLen n)) (ni_Addr n))
  else Panic "index out of range".

(** The loop [for i := 0; i < int(p.NumPath); i++] over [p.NicInfos[i]]. *)
Fixpoint NicInfos_Write (n : nat) (nics : list NicInfo) : outcome (list Z) :=
  match n, nics with
  | O, _ => Ret []
  | S n, nic :: nics =>
      bs ← NicInfo_Write nic;
      bs' ← NicInfos_Write n nics;
      Ret (bs ++ bs')
  | S n, [] => Panic "index out of range"
  end.

Definition HelloAckPacket_Write (p : HelloAckPacket) : outcome (list Z) :=
  nics ← NicInfos_Write (Z.to_nat (hap_NumPath p)) (hap_NicInfos p);
  Ret ([hap_Type p] ++ WriteUint16 (hap_Length p) ++ WriteUint32 (hap_SessionID p) ++
       [hap_NumPath p] ++ nics).

(** An interface description as [getNicInfo] builds it from an address that
    leaves [AddrLen + 2] a byte. *)
Definition NicInfo_valid (n : NicInfo) : Prop :=
  uint 8 (ni_Type n) ∧ zlen (ni_Addr n) = ni_AddrLen n ∧ 0 <= ni_AddrLen n <= 253.

Definition HelloAckPacket_valid (p : HelloAckPacket) : Prop :=
  uint 8 (hap_Type p) ∧ uint 16 (hap_Length p) ∧ uint 32 (hap_SessionID p) ∧
  uint 8 (hap_NumPath p) ∧ hap_NumPath p = zlen (hap_NicInfos p) ∧
  Forall NicInfo_valid (hap_NicInfos p) ∧
  hap_Length p = HELLO_ACK_PACKET_HEADER_LEN + nicInfoLen (hap_NicInfos p).

(** ** Lemmas on the variable part of a Hello ACK packet *)

Lemma ReadBytes_app l r : ReadBytes (length l) (l ++ r) = Ret (l, r).
Proof.
  induction l as [|b l IH]; [done|]. cbn [length ReadBytes].
  rewrite <-app_comm_cons. parse_step.
  erewrite reader_bind_Ret; [|apply IH]. done.
Qed.

Lemma NicInfo_Write_valid n :
  NicInfo_valid n → NicInfo_Write n = Ret ([ni_Type n; ni_AddrLen n] ++ ni_Addr n).
Proof.
  intros (_ & Hl & Hr). unfold NicInfo_Write.
  rewrite bool_decide_true by lia. rewrite take_ge; [done|]. unfold zlen in *. lia.
Qed.

Lemma nicInfoLen_acc nics a :
  fold_left (λ acc n, acc + u8 (ni_AddrLen n + 2)) nics a = a + nicInfoLen nics.
Proof.
  unfold nicInfoLen. revert a. induction nics as [|n nics IH]; intros a; simpl; [lia|].
  rewrite IH, (IH (0 + _)). lia.
Qed.

Lemma nicInfoLen_cons n nics :
  nicInfoLen (n :: nics) = u8 (ni_AddrLen n + 2) + nicInfoLen nics.
Proof. unfold nicInfoLen at 1. simpl. rewrite nicInfoLen_acc. lia. Qed.

Lemma NicInfos_Write_valid nics :
  Forall NicInfo_valid nics → ∃ bs,
    NicInfos_Write (length nics) nics = Ret bs ∧ zlen bs = nicInfoLen nics ∧
    ∀ r, ParseNicInfos (length nics) (bs ++ r) = Ret (nics, r).
Proof.
  induction 1 as [|n nics Hn _ (bs & Hw & Hlen & Hp)].
  { by exists []. }
  destruct n as [ty al addr]. pose proof Hn as (_ & Hal & Hr). simpl in Hal, Hr.
  exists (([ty; al] ++ addr) ++ bs).
  split; [|split].
  - cbn [length NicInfos_Write]. rewrite (NicInfo_Write_valid _ Hn). simpl.
    unfold mbind, outcome_bind in *. by rewrite Hw.
  - rewrite nicInfoLen_cons, !zlen_app, Hlen, Hal. cbn [ni_AddrLen].
    rewrite wrap_small by (unfold uint; lia). unfold zlen. simpl length. lia.
  - intros r. cbn [length ParseNicInfos]. rewrite <-!app_assoc.
    change ([ty; al] ++ addr ++ bs ++ r) with (ty :: al :: addr ++ bs ++ r).
    do 2 parse_step.
    replace (Z.to_nat al) with (length addr) by (unfold zlen in *; lia).
    erewrite reader_bind_Ret; [|apply ReadBytes_app].
    erewrite reader_bind_Ret; [|apply Hp]. done.
Qed.

(** ** The packets implement the interface *)

#[local] Obligation Tactic := idtac.

#[global] Program Instance DataPacket_wire : WirePacket DataPacket := {|
  pkt_type := dp_Type;
  pkt_length := dp_Length;
  pkt_write := λ p, Ret (DataPacket_Write p);
  pkt_parse := ParseDataPacket;
  pkt_valid := DataPacket_valid;
|}.
Next Obligation. by intros p (? & _). Qed.
Next Obligation.
  intros p (_ & H & _ & _ & _ & Hl). unfold uint, DATA_PACKET_HEADER_LEN in *.
  pose proof (zlen_nonneg (dp_Payload p)). lia.
Qed.
Next Obligation.
  intros p (_ & _ & _ & _ & _ & Hl).
  exists (WriteUint32 (dp_SessionID p) ++ [dp_PathID p] ++ WriteUint32 (dp_SeqNumber p) ++ dp_Payload p).
  split; [done|]. rewrite Hl. unfold DATA_PACKET_HEADER_LEN, zlen. rewrite !length_app. simpl. lia.
Qed.
Next Obligation.
  intros [ty len sid pid seq pl] bs r (H1 & H2 & H3 & H4 & H5 & H6) [= <-].
  cbn in H1, H2, H3, H4, H5, H6. unfold ParseDataPacket, DataPacket_Write.
  cbn [dp_Type dp_Length dp_SessionID dp_PathID dp_SeqNumber dp_Payload]. parse_all.
  erewrite reader_bind_Ret; [|apply ReadInto_app]; [done|].
  unfold DATA_PACKET_HEADER_LEN in *. rewrite wrap_small; unfold uint, zlen in *; lia.
Qed.

Lemma ParseDataPacket_Write p r :
  DataPacket_valid p → ParseDataPacket (DataPacket_Write p ++ r) = Ret (p, r).
Proof. intros Hp. by apply (@pkt_roundtrip _ DataPacket_wire p). Qed.

#[global] Program Instance GoodbyePacket_wire : WirePacket GoodbyePacket := {|
  pkt_type := gp_Type;
  pkt_length := gp_Length;
  pkt_write := λ p, Ret (GoodbyePacket_Write p);
  pkt_parse := ParseGoodbyePacket;
  pkt_valid := GoodbyePacket_valid;
|}.
Next Obligation. by intros p (? & _). Qed.
Next Obligation. intros p (_ & -> & _). unfold GOODBYE_PACKET_HEADER_LEN. lia. Qed.
Next Obligation.
  intros p (_ & Hl & _). exists (WriteUint32 (gp_SessionID p)). split; [done|].
  by rewrite Hl.
Qed.
Next Obligation.
  intros [ty len sid] bs r (H1 & H2 & H3) [= <-]. cbn in H1, H2, H3. subst len.
  unfold ParseGoodbyePacket, GoodbyePacket_Write, GOODBYE_PACKET_HEADER_LEN.
  cbn [gp_Type gp_Length gp_SessionID]. by parse_all.
Qed.

#[global] Program Instance HelloPacket_wire : WirePacket HelloPacket := {|
  pkt_type := hp_Type;
  pkt_length := hp_Length;
  pkt_write := λ p, Ret (HelloPacket_Write p);
  pkt_parse := ParseHelloPacket;
  pkt_valid := HelloPacket_valid;
|}.
Next Obligation. by intros p (? & _). Qed.
Next Obligation. intros p (_ & -> & _). unfold HELLO_PACKET_HEADER_LEN. lia. Qed.
Next Obligation.
  intros p (_ & Hl & _). exists (WriteUint32 (hp_SessionID p) ++ [hp_NumPath p]).
  split; [done|]. by rewrite Hl.
Qed.
Next Obligation.
  intros [ty len sid np] bs r (H1 & H2 & H3 & H4) [= <-]. cbn in H1, H2, H3, H4. subst len.
  unfold ParseHelloPacket, HelloPacket_Write, HELLO_PACKET_HEADER_LEN.
  cbn [hp_Type hp_Length hp_SessionID hp_NumPath]. by parse_all.
Qed.

Lemma HelloAckPacket_Write_valid p :
  HelloAckPacket_valid p → ∃ nics,
    HelloAckPacket_Write p =
      Ret ([hap_Type p] ++ WriteUint16 (hap_Length p) ++ WriteUint32 (hap_SessionID p) ++
           [hap_NumPath p] ++ nics) ∧
    zlen nics = nicInfoLen (hap_NicInfos p) ∧
    ∀ r, ParseNicInfos (Z.to_nat (hap_NumPath p)) (nics ++ r) = Ret (hap_NicInfos p, r).
Proof.
  intros (_ & _ & _ & _ & Hn & Hv & _).
  destruct (NicInfos_Write_valid _ Hv) as (bs & Hw & Hlen & Hp).
  exists bs. unfold HelloAckPacket_Write. rewrite Hn. unfold zlen. rewrite Nat2Z.id, Hw.
  done.
Qed.

#[global] Program Instance HelloAckPacket_wire : WirePacket HelloAckPacket := {|
  pkt_type := hap_Type;
  pkt_length := hap_Length;
  pkt_write := HelloAckPacket_Write;
  pkt_parse := ParseHelloAckPacket;
  pkt_valid := HelloAckPacket_valid;
|}.
Next Obligation. by intros p (? & _). Qed.
Next Obligation.
  intros p Hp. destruct (HelloAckPacket_Write_valid p Hp) as (nics & _ & Hl & _).
  destruct Hp as (_ & H & _ & _ & _ & _ & Hlen).
  unfold uint, HELLO_ACK_PACKET_HEADER_LEN in *.
  pose proof (zlen_nonneg nics). lia.
Qed.
Next Obligation.
  intros p Hp. destruct (HelloAckPacket_Write_valid p Hp) as (nics & Hw & Hl & _).
  destruct Hp as (_ & _ & _ & _ & _ & _ & Hlen).
  exists (WriteUint32 (hap_SessionID p) ++ [hap_NumPath p] ++ nics).
  split; [done|]. rewrite Hlen, <-Hl. unfold HELLO_ACK_PACKET_HEADER_LEN, zlen.
  rewrite !length_app. simpl. lia.
Qed.
Next Obligation.
  intros p bs r Hp Hbs. destruct (HelloAckPacket_Write_valid p Hp) as (nics & Hw & _ & Hr).
  rewrite Hw in Hbs. injection Hbs as <-.
  destruct p as [ty len sid np ni]. destruct Hp as (H1 & H2 & H3 & H4 & _).
  cbn [hap_Type hap_Length hap_SessionID hap_NumPath hap_NicInfos] in *.
  unfold ParseHelloAckPacket. parse_all.
  erewrite reader_bind_Ret; [|apply Hr]. done.
Qed.

(** ** What the [Create] functions build is valid *)

Lemma CreateDataPacket_valid conf sid pid seq pl :
  uint 8 (DATA_PACKET conf) → uint 32 sid → uint 32 seq → zlen pl < 2 ^ 16 - 12 →
  DataPacket_valid (CreateDataPacket conf sid pid seq pl).
Proof.
  intros Ht Hs Hq Hl. pose proof (zlen_nonneg pl).
  unfold DataPacket_valid, CreateDataPacket, DATA_PACKET_HEADER_LEN. simpl.
  repeat split; try apply Ht; try apply Hs; try apply Hq; try (apply wrap_uint; lia).
  rewrite wrap_small; unfold uint; lia.
Qed.

Lemma CreateHelloPacket_valid conf sid np :
  uint 8 (HELLO_PACKET conf) → uint 32 sid → uint 8 np →
  HelloPacket_valid (CreateHelloPacket conf sid np).
Proof. done. Qed.

Lemma CreateGoodbyePacket_valid conf sid :
  uint 8 (GOODBYE_PACKET conf) → uint 32 sid →
  GoodbyePacket_valid (CreateGoodbyePacket conf sid).
Proof. done. Qed.

Lemma nicInfoLen_bound nics :
  Forall NicInfo_valid nics → 0 <= nicInfoLen nics <= 255 * zlen nics.
Proof.
  induction 1 as [|n nics Hn _ IH]; [done|].
  rewrite nicInfoLen_cons. destruct Hn as (_ & _ & Hn).
  rewrite wrap_small by (unfold uint; lia). unfold zlen in *. simpl length. lia.
Qed.

Lemma CreateHelloAckPacket_valid conf sid nics :
  uint 8 (HELLO_ACK_PACKET conf) → uint 32 sid → zlen nics <= 255 →
  Forall NicInfo_valid nics →
  HelloAckPacket_valid (CreateHelloAckPacket conf sid nics).
Proof.
  intros Ht Hs Hn Hv. pose proof (nicInfoLen_bound _ Hv). pose proof (zlen_nonneg nics).
  unfold HelloAckPacket_valid, CreateHelloAckPacket, HELLO_ACK_PACKET_HEADER_LEN. simpl.
  repeat split; try apply Ht; try apply Hs; try (apply wrap_uint; lia); try done;
    rewrite wrap_small; unfold uint; lia.
Qed.
