(* ===== verification/Mp2Packets.v ===== *)
(** * Packets of the block layer ([mp2session/*_packet.go])

    Block Find, Block Info, Block Request, Block Data, Block Data ACK, Block
    FIN, Control, Node Info and Node Info ACK packets, each with its [Create]
    and [Parse] functions, its [Write] method and its [WirePacket] instance. *)

From stdpp Require Import base list strings.
From Stdlib Require Import ZArith Lia.
From S2P Require Import Prelude Config Util.

#[local] Obligation Tactic := idtac.

(** ** Block Find packet *)

Definition BLOCK_FIND_PACKET_HEADER_LEN : Z := 7.

Record BlockFindPacket := {
  bf_Type : Z;
  bf_Length : Z;
  bf_BlockNumber : Z;
}.

Definition CreateBlockFindPacket (blockNumber : Z) : BlockFindPacket := {|
  bf_Type := BLOCK_FIND_PACKET;
  bf_Length := BLOCK_FIND_PACKET_HEADER_LEN;
  bf_BlockNumber := blockNumber;
|}.

Definition ParseBlockFindPacket : reader BlockFindPacket :=
  packetType ← ReadByte;
  packetLength ← ReadUint16;
  blockNumber ← ReadUint32;
  mret {| bf_Type := packetType; bf_Length := packetLength;
          bf_BlockNumber := blockNumber |}.

Definition BlockFindPacket_Write (p : BlockFindPacket) : list Z :=
  [bf_Type p] ++ WriteUint16 (bf_Length p) ++
  WriteUint32 (bf_BlockNumber p).

Definition BlockFindPacket_valid (p : BlockFindPacket) : Prop :=
  bf_Type p = BLOCK_FIND_PACKET ∧ bf_Length p = BLOCK_FIND_PACKET_HEADER_LEN ∧ uint 32 (bf_BlockNumber p).

(** ** Block Info packet *)

Definition BLOCK_INFO_PACKET_HEADER_LEN : Z := 15.

Record BlockInfoPacket := {
  bi_Type : Z;
  bi_Length : Z;
  bi_BlockNumber : Z;
  bi_Status : Z;
  bi_BlockSize : Z;
}.

Definition CreateBlockInfoPacket (blockNumber status blockSize : Z) : BlockInfoPacket := {|
  bi_Type := BLOCK_INFO_PACKET;
  bi_Length := BLOCK_INFO_PACKET_HEADER_LEN;
  bi_BlockNumber := blockNumber;
  bi_Status := status;
  bi_BlockSize := blockSize;
|}.

Definition ParseBlockInfoPacket : reader BlockInfoPacket :=
  packetType ← ReadByte;
  packetLength ← ReadUint16;
  blockNumber ← ReadUint32;
  status ← ReadUint32;
  blockSize ← ReadUint32;
  mret {| bi_Type := packetType; bi_Length := packetLength;
          bi_BlockNumber := blockNumber;
          bi_Status := status;
          bi_BlockSize := blockSize |}.

Definition BlockInfoPacket_Write (p : BlockInfoPacket) : list Z :=
  [bi_Type p] ++ WriteUint16 (bi_Length p) ++
  WriteUint32 (bi_BlockNumber p) ++
  WriteUint32 (bi_Status p) ++
  WriteUint32 (bi_BlockSize p).

Definition BlockInfoPacket_valid (p : BlockInfoPacket) : Prop :=
  bi_Type p = BLOCK_INFO_PACKET ∧ bi_Length p = BLOCK_INFO_PACKET_HEADER_LEN ∧ uint 32 (bi_BlockNumber p) ∧ uint 32 (bi_Status p) ∧ uint 32 (bi_BlockSize p).

(** ** Block Request packet: data numbers [StartDataNumber .. EndDataNumber], both included *)

Definition BLOCK_REQUEST_PACKET_HEADER_LEN : Z := 16.

Record BlockRequestPacket := {
  br_Type : Z;
  br_Length : Z;
  br_BlockNumber : Z;
  br_StartDataNumber : Z;
  br_EndDataNumber : Z;
  br_FecIndex : Z;
}.

Definition CreateBlockRequestPacket (blockNumber startDataNumber endDataNumber fecIndex : Z) : BlockRequestPacket := {|
  br_Type := BLOCK_REQUEST_PACKET;
  br_Length := BLOCK_REQUEST_PACKET_HEADER_LEN;
  br_BlockNumber := blockNumber;
  br_StartDataNumber := startDataNumber;
  br_EndDataNumber := endDataNumber;
  br_FecIndex := fecIndex;
|}.

Definition ParseBlockRequestPacket : reader BlockRequestPacket :=
  packetType ← ReadByte;
  packetLength ← ReadUint16;
  blockNumber ← ReadUint32;
  startDataNumber ← ReadUint32;
  endDataNumber ← ReadUint32;
  fecIndex ← ReadByte;
  mret {| br_Type := packetType; br_Length := packetLength;
          br_BlockNumber := blockNumber;
          br_StartDataNumber := startDataNumber;
          br_EndDataNumber := endDataNumber;
          br_FecIndex := fecIndex |}.

Definition BlockRequestPacket_Write (p : BlockRequestPacket) : list Z :=
  [br_Type p] ++ WriteUint16 (br_Length p) ++
  WriteUint32 (br_BlockNumber p) ++
  WriteUint32 (br_StartDataNumber p) ++
  WriteUint32 (br_EndDataNumber p) ++
  [br_FecIndex p].

Definition BlockRequestPacket_valid (p : BlockRequestPacket) : Prop :=
  br_Type p = BLOCK_REQUEST_PACKET ∧ br_Length p = BLOCK_REQUEST_PACKET_HEADER_LEN ∧ uint 32 (br_BlockNumber p) ∧ uint 32 (br_StartDataNumber p) ∧ uint 32 (br_EndDataNumber p) ∧ uint 8 (br_FecIndex p).

(** ** Block Data ACK packet *)

Definition BLOCK_DATA_ACK_PACKET_HEADER_LEN : Z := 11.

Record BlockDataAckPacket := {
  ba_Type : Z;
  ba_Length : Z;
  ba_BlockNumber : Z;
  ba_LastDataNumber : Z;
}.

Definition CreateBlockDataAckPacket (blockNumber lastDataNumber : Z) : BlockDataAckPacket := {|
  ba_Type := BLOCK_DATA_ACK_PACKET;
  ba_Length := BLOCK_DATA_ACK_PACKET_HEADER_LEN;
  ba_BlockNumber := blockNumber;
  ba_LastDataNumber := lastDataNumber;
|}.

Definition ParseBlockDataAckPacket : reader BlockDataAckPacket :=
  packetType ← ReadByte;
  packetLength ← ReadUint16;
  blockNumber ← ReadUint32;
  lastDataNumber ← ReadUint32;
  mret {| ba_Type := packetType; ba_Length := packetLength;
          ba_BlockNumber := blockNumber;
          ba_LastDataNumber := lastDataNumber |}.

Definition BlockDataAckPacket_Write (p : BlockDataAckPacket) : list Z :=
  [ba_Type p] ++ WriteUint16 (ba_Length p) ++
  WriteUint32 (ba_BlockNumber p) ++
  WriteUint32 (ba_LastDataNumber p).

Definition BlockDataAckPacket_valid (p : BlockDataAckPacket) : Prop :=
  ba_Type p = BLOCK_DATA_ACK_PACKET ∧ ba_Length p = BLOCK_DATA_ACK_PACKET_HEADER_LEN ∧ uint 32 (ba_BlockNumber p) ∧ uint 32 (ba_LastDataNumber p).

(** ** Block FIN packet *)

Definition BLOCK_FIN_PACKET_HEADER_LEN : Z := 11.

Record BlockFinPacket := {
  bx_Type : Z;
  bx_Length : Z;
  bx_SessionID : Z;
  bx_BlockNumber : Z;
}.

Definition CreateBlockFinPacket (sessionID blockNumber : Z) : BlockFinPacket := {|
  bx_Type := BLOCK_FIN_PACKET;
  bx_Length := BLOCK_FIN_PACKET_HEADER_LEN;
  bx_SessionID := sessionID;
  bx_BlockNumber := blockNumber;
|}.

Definition ParseBlockFinPacket : reader BlockFinPacket :=
  packetType ← ReadByte;
  packetLength ← ReadUint16;
  sessionID ← ReadUint32;
  blockNumber ← ReadUint32;
  mret {| bx_Type := packetType; bx_Length := packetLength;
          bx_SessionID := sessionID;
          bx_BlockNumber := blockNumber |}.

Definition BlockFinPacket_Write (p : BlockFinPacket) : list Z :=
  [bx_Type p] ++ WriteUint16 (bx_Length p) ++
  WriteUint32 (bx_SessionID p) ++
  WriteUint32 (bx_BlockNumber p).

Definition BlockFinPacket_valid (p : BlockFinPacket) : Prop :=
  bx_Type p = BLOCK_FIN_PACKET ∧ bx_Length p = BLOCK_FIN_PACKET_HEADER_LEN ∧ uint 32 (bx_SessionID p) ∧ uint 32 (bx_BlockNumber p).

(** ** Node Info ACK packet *)

Definition NODE_INFO_ACK_PACKET_HEADER_LEN : Z := 5.

Record NodeInfoAckPacket := {
  na_Type : Z;
  na_Length : Z;
  na_NumOfInfo : Z;
}.

Definition CreateNodeInfoAckPacket (numOfInfo : Z) : NodeInfoAckPacket := {|
  na_Type := NODE_INFO_ACK_PACKET;
  na_Length := NODE_INFO_ACK_PACKET_HEADER_LEN;
  na_NumOfInfo := numOfInfo;
|}.

Definition ParseNodeInfoAckPacket : reader NodeInfoAckPacket :=
  packetType ← ReadByte;
  packetLength ← ReadUint16;
  numOfInfo ← ReadUint16;
  mret {| na_Type := packetType; na_Length := packetLength;
          na_NumOfInfo := numOfInfo |}.

Definition NodeInfoAckPacket_Write (p : NodeInfoAckPacket) : list Z :=
  [na_Type p] ++ WriteUint16 (na_Length p) ++
  WriteUint16 (na_NumOfInfo p).

Definition NodeInfoAckPacket_valid (p : NodeInfoAckPacket) : Prop :=
  na_Type p = NODE_INFO_ACK_PACKET ∧ na_Length p = NODE_INFO_ACK_PACKET_HEADER_LEN ∧ uint 16 (na_NumOfInfo p).

(** ** Control packet *)

Definition CONTROL_PACKET_HEADER_LEN : Z := 3.

Record ControlPacket := {
  cp_Type : Z;
  cp_Length : Z;
  cp_Data : list Z;
}.

(** The size check compares the length after its conversion to 16 bits. *)
Definition CreateControlPacket (data : list Z) : outcome ControlPacket :=
  let length := u16 (CONTROL_PACKET_HEADER_LEN + zlen data) in
  if CONTROL_PACKET_HEADER_LEN + PAYLOAD_SIZE <? length
  then Panic "packet length is larger than maximum size!"
  else Ret {| cp_Type := CONTROL_PACKET; cp_Length := length; cp_Data := data |}.

Definition ParseControlPacket : reader ControlPacket :=
  packetType ← ReadByte;
  packetLength ← ReadUint16;
  data ← ReadInto (Z.to_nat (u16 (packetLength - CONTROL_PACKET_HEADER_LEN)));
  mret {| cp_Type := packetType; cp_Length := packetLength; cp_Data := data |}.

Definition ControlPacket_Write (p : ControlPacket) : list Z :=
  [cp_Type p] ++ WriteUint16 (cp_Length p) ++ cp_Data p.

Definition ControlPacket_valid (p : ControlPacket) : Prop :=
  cp_Type p = CONTROL_PACKET ∧ cp_Length p = CONTROL_PACKET_HEADER_LEN + zlen (cp_Data p) ∧
  uint 16 (cp_Length p).

(** ** Block Data packet *)

Definition BLOCK_DATA_PACKET_HEADER_LEN : Z := 16.

Record BlockDataPacket := {
  bd_Type : Z;
  bd_Length : Z;
  bd_BlockNumber : Z;
  bd_DataNumber : Z;
  bd_SessionID : Z;
  bd_Redundant : Z;
  bd_Data : list Z;
}.

Definition CreateBlockDataPacket (blockNumber dataNumber sessionID redundant : Z)
    (data : list Z) : outcome BlockDataPacket :=
  let length := u16 (BLOCK_DATA_PACKET_HEADER_LEN + zlen data) in
  if BLOCK_DATA_PACKET_HEADER_LEN + PAYLOAD_SIZE <? length
  then Panic "packet length is larger than maximum size!"
  else Ret {| bd_Type := BLOCK_DATA_PACKET; bd_Length := length;
              bd_BlockNumber := blockNumber; bd_DataNumber := dataNumber;
              bd_SessionID := sessionID; bd_Redundant := redundant; bd_Data := data |}.

Definition ParseBlockDataPacket : reader BlockDataPacket :=
  packetType ← ReadByte;
  packetLength ← ReadUint16;
  blockNumber ← ReadUint32;
  dataNumber ← ReadUint32;
  sessionID ← ReadUint32;
  redundant ← ReadByte;
  data ← ReadInto (Z.to_nat (u16 (packetLength - BLOCK_DATA_PACKET_HEADER_LEN)));
  mret {| bd_Type := packetType; bd_Length := packetLength;
          bd_BlockNumber := blockNumber; bd_DataNumber := dataNumber;
          bd_SessionID := sessionID; bd_Redundant := redundant; bd_Data := data |}.

Definition BlockDataPacket_Write (p : BlockDataPacket) : list Z :=
  [bd_Type p] ++ WriteUint16 (bd_Length p) ++ WriteUint32 (bd_BlockNumber p) ++
  WriteUint32 (bd_DataNumber p) ++ WriteUint32 (bd_SessionID p) ++
  [bd_Redundant p] ++ bd_Data p.

Definition BlockDataPacket_valid (p : BlockDataPacket) : Prop :=
  bd_Type p = BLOCK_DATA_PACKET ∧
  bd_Length p = BLOCK_DATA_PACKET_HEADER_LEN + zlen (bd_Data p) ∧ uint 16 (bd_Length p) ∧
  uint 32 (bd_BlockNumber p) ∧ uint 32 (bd_DataNumber p) ∧ uint 32 (bd_SessionID p) ∧
  uint 8 (bd_Redundant p).

(** ** Node Info packet *)

Definition NODE_INFO_PACKET_HEADER_LEN : Z := 5.

Record NodeInfo := {
  nd_NodeIP : Z;
  nd_Port : Z;
  nd_NumOfChilds : Z;
  nd_OffsetOfChild : Z;
}.

Record NodeInfoPacket := {
  np_Type : Z;
  np_Length : Z;
  np_Reserved : Z;
  np_NodeInfos : list NodeInfo;
}.

Definition CreateNodeInfoPacket (nodeInfos : list NodeInfo) : NodeInfoPacket := {|
  np_Type := NODE_INFO_PACKET;
  np_Length := u16 (NODE_INFO_PACKET_HEADER_LEN + zlen nodeInfos * 8);
  np_Reserved := 0;
  np_NodeInfos := nodeInfos;
|}.

Definition ParseNodeInfo : reader NodeInfo :=
  nodeIP ← ReadUint32;
  port ← ReadUint16;
  numOfChilds ← ReadByte;
  offsetOfChild ← ReadByte;
  mret {| nd_NodeIP := nodeIP; nd_Port := port; nd_NumOfChilds := numOfChilds;
          nd_OffsetOfChild := offsetOfChild |}.

Fixpoint ParseNodeInfos (n : nat) : reader (list NodeInfo) :=
  match n with
  | O => mret []
  | S n => x ← ParseNodeInfo; xs ← ParseNodeInfos n; mret (x :: xs)
  end.

Definition ParseNodeInfoPacket : reader NodeInfoPacket :=
  packetType ← ReadByte;
  packetLength ← ReadUint16;
  reserved ← ReadUint16;
  nodeInfos ← ParseNodeInfos (Z.to_nat (u16 (packetLength - NODE_INFO_PACKET_HEADER_LEN) / 8));
  mret {| np_Type := packetType; np_Length := packetLength; np_Reserved := reserved;
          np_NodeInfos := nodeInfos |}.

Definition NodeInfo_Write (n : NodeInfo) : list Z :=
  WriteUint32 (nd_NodeIP n) ++ WriteUint16 (nd_Port n) ++ [nd_NumOfChilds n; nd_OffsetOfChild n].

Definition NodeInfoPacket_Write (p : NodeInfoPacket) : list Z :=
  [np_Type p] ++ WriteUint16 (np_Length p) ++ WriteUint16 (np_Reserved p) ++
  flat_map NodeInfo_Write (np_NodeInfos p).

Definition NodeInfo_valid (n : NodeInfo) : Prop :=
  uint 32 (nd_NodeIP n) ∧ uint 16 (nd_Port n) ∧ uint 8 (nd_NumOfChilds n) ∧
  uint 8 (nd_OffsetOfChild n).

Definition NodeInfoPacket_valid (p : NodeInfoPacket) : Prop :=
  np_Type p = NODE_INFO_PACKET ∧
  np_Length p = NODE_INFO_PACKET_HEADER_LEN + zlen (np_NodeInfos p) * 8 ∧
  uint 16 (np_Length p) ∧ uint 16 (np_Reserved p) ∧ Forall NodeInfo_valid (np_NodeInfos p).

(** ** The packets implement the interface *)

#[global] Program Instance BlockFindPacket_wire : WirePacket BlockFindPacket := {|
  pkt_type := bf_Type;
  pkt_length := bf_Length;
  pkt_write := λ p, Ret (BlockFindPacket_Write p);
  pkt_parse := ParseBlockFindPacket;
  pkt_valid := BlockFindPacket_valid;
|}.
Next Obligation. by intros p (-> & _). Qed.
Next Obligation. by intros p (_ & -> & _). Qed.
Next Obligation.
  intros p (_ & Hl & _). exists (WriteUint32 (bf_BlockNumber p)).
  split; [done|]. by rewrite Hl.
Qed.
Next Obligation.
  intros [ty len x0] bs r (Ht & Hl & H0) [= <-].
  cbn [bf_Type bf_Length bf_BlockNumber] in *. subst ty len.
  unfold ParseBlockFindPacket, BlockFindPacket_Write, BLOCK_FIND_PACKET_HEADER_LEN.
  cbn [bf_Type bf_Length bf_BlockNumber]. by parse_all.
Qed.

#[global] Program Instance BlockInfoPacket_wire : WirePacket BlockInfoPacket := {|
  pkt_type := bi_Type;
  pkt_length := bi_Length;
  pkt_write := λ p, Ret (BlockInfoPacket_Write p);
  pkt_parse := ParseBlockInfoPacket;
  pkt_valid := BlockInfoPacket_valid;
|}.
Next Obligation. by intros p (-> & _). Qed.
Next Obligation. by intros p (_ & -> & _). Qed.
Next Obligation.
  intros p (_ & Hl & _). exists (WriteUint32 (bi_BlockNumber p) ++ WriteUint32 (bi_Status p) ++ WriteUint32 (bi_BlockSize p)).
  split; [done|]. by rewrite Hl.
Qed.
Next Obligation.
  intros [ty len x0 x1 x2] bs r (Ht & Hl & H0 & H1 & H2) [= <-].
  cbn [bi_Type bi_Length bi_BlockNumber bi_Status bi_BlockSize] in *. subst ty len.
  unfold ParseBlockInfoPacket, BlockInfoPacket_Write, BLOCK_INFO_PACKET_HEADER_LEN.
  cbn [bi_Type bi_Length bi_BlockNumber bi_Status bi_BlockSize]. by parse_all.
Qed.

#[global] Program Instance BlockRequestPacket_wire : WirePacket BlockRequestPacket := {|
  pkt_type := br_Type;
  pkt_length := br_Length;
  pkt_write := λ p, Ret (BlockRequestPacket_Write p);
  pkt_parse := ParseBlockRequestPacket;
  pkt_valid := BlockRequestPacket_valid;
|}.
Next Obligation. by intros p (-> & _). Qed.
Next Obligation. by intros p (_ & -> & _). Qed.
Next Obligation.
  intros p (_ & Hl & _). exists (WriteUint32 (br_BlockNumber p) ++ WriteUint32 (br_StartDataNumber p) ++ WriteUint32 (br_EndDataNumber p) ++ [br_FecIndex p]).
  split; [done|]. by rewrite Hl.
Qed.
Next Obligation.
  intros [ty len x0 x1 x2 x3] bs r (Ht & Hl & H0 & H1 & H2 & H3) [= <-].
  cbn [br_Type br_Length br_BlockNumber br_StartDataNumber br_EndDataNumber br_FecIndex] in *. subst ty len.
  unfold ParseBlockRequestPacket, BlockRequestPacket_Write, BLOCK_REQUEST_PACKET_HEADER_LEN.
  cbn [br_Type br_Length br_BlockNumber br_StartDataNumber br_EndDataNumber br_FecIndex]. by parse_all.
Qed.

#[global] Program Instance BlockDataAckPacket_wire : WirePacket BlockDataAckPacket := {|
  pkt_type := ba_Type;
  pkt_length := ba_Length;
  pkt_write := λ p, Ret (BlockDataAckPacket_Write p);
  pkt_parse := ParseBlockDataAckPacket;
  pkt_valid := BlockDataAckPacket_valid;
|}.
Next Obligation. by intros p (-> & _). Qed.
Next Obligation. by intros p (_ & -> & _). Qed.
Next Obligation.
  intros p (_ & Hl & _). exists (WriteUint32 (ba_BlockNumber p) ++ WriteUint32 (ba_LastDataNumber p)).
  split; [done|]. by rewrite Hl.
Qed.
Next Obligation.
  intros [ty len x0 x1] bs r (Ht & Hl & H0 & H1) [= <-].
  cbn [ba_Type ba_Length ba_BlockNumber ba_LastDataNumber] in *. subst ty len.
  unfold ParseBlockDataAckPacket, BlockDataAckPacket_Write, BLOCK_DATA_ACK_PACKET_HEADER_LEN.
  cbn [ba_Type ba_Length ba_BlockNumber ba_LastDataNumber]. by parse_all.
Qed.

#[global] Program Instance BlockFinPacket_wire : WirePacket BlockFinPacket := {|
  pkt_type := bx_Type;
  pkt_length := bx_Length;
  pkt_write := λ p, Ret (BlockFinPacket_Write p);
  pkt_parse := ParseBlockFinPacket;
  pkt_valid := BlockFinPacket_valid;
|}.
Next Obligation. by intros p (-> & _). Qed.
Next Obligation. by intros p (_ & -> & _). Qed.
Next Obligation.
  intros p (_ & Hl & _). exists (WriteUint32 (bx_SessionID p) ++ WriteUint32 (bx_BlockNumber p)).
  split; [done|]. by rewrite Hl.
Qed.
Next Obligation.
  intros [ty len x0 x1] bs r (Ht & Hl & H0 & H1) [= <-].
  cbn [bx_Type bx_Length bx_SessionID bx_BlockNumber] in *. subst ty len.
  unfold ParseBlockFinPacket, BlockFinPacket_Write, BLOCK_FIN_PACKET_HEADER_LEN.
  cbn [bx_Type bx_Length bx_SessionID bx_BlockNumber]. by parse_all.
Qed.

#[global] Program Instance NodeInfoAckPacket_wire : WirePacket NodeInfoAckPacket := {|
  pkt_type := na_Type;
  pkt_length := na_Length;
  pkt_write := λ p, Ret (NodeInfoAckPacket_Write p);
  pkt_parse := ParseNodeInfoAckPacket;
  pkt_valid := NodeInfoAckPacket_valid;
|}.
Next Obligation. by intros p (-> & _). Qed.
Next Obligation. by intros p (_ & -> & _). Qed.
Next Obligation.
  intros p (_ & Hl & _). exists (WriteUint16 (na_NumOfInfo p)).
  split; [done|]. by rewrite Hl.
Qed.
Next Obligation.
  intros [ty len x0] bs r (Ht & Hl & H0) [= <-].
  cbn [na_Type na_Length na_NumOfInfo] in *. subst ty len.
  unfold ParseNodeInfoAckPacket, NodeInfoAckPacket_Write, NODE_INFO_ACK_PACKET_HEADER_LEN.
  cbn [na_Type na_Length na_NumOfInfo]. by parse_all.
Qed.

#[global] Program Instance ControlPacket_wire : WirePacket ControlPacket := {|
  pkt_type := cp_Type;
  pkt_length := cp_Length;
  pkt_write := λ p, Ret (ControlPacket_Write p);
  pkt_parse := ParseControlPacket;
  pkt_valid := ControlPacket_valid;
|}.
Next Obligation. by intros p (-> & _). Qed.
Next Obligation.
  intros p (_ & Hl & Hu). pose proof (zlen_nonneg (cp_Data p)).
  unfold uint, CONTROL_PACKET_HEADER_LEN in *. lia.
Qed.
Next Obligation.
  intros p (_ & Hl & _). exists (cp_Data p). split; [done|].
  rewrite Hl. unfold CONTROL_PACKET_HEADER_LEN. lia.
Qed.
Next Obligation.
  intros [ty len data] bs r (Ht & Hl & Hu) [= <-]. cbn [cp_Type cp_Length cp_Data] in *.
  unfold ParseControlPacket, ControlPacket_Write. cbn [cp_Type cp_Length cp_Data]. parse_all.
  erewrite reader_bind_Ret; [|apply ReadInto_app]; [done|].
  unfold CONTROL_PACKET_HEADER_LEN in *. rewrite wrap_small; unfold uint, zlen in *; lia.
Qed.

#[global] Program Instance BlockDataPacket_wire : WirePacket BlockDataPacket := {|
  pkt_type := bd_Type;
  pkt_length := bd_Length;
  pkt_write := λ p, Ret (BlockDataPacket_Write p);
  pkt_parse := ParseBlockDataPacket;
  pkt_valid := BlockDataPacket_valid;
|}.
Next Obligation. by intros p (-> & _). Qed.
Next Obligation.
  intros p (_ & Hl & Hu & _). pose proof (zlen_nonneg (bd_Data p)).
  unfold uint, BLOCK_DATA_PACKET_HEADER_LEN in *. lia.
Qed.
Next Obligation.
  intros p (_ & Hl & _).
  exists (WriteUint32 (bd_BlockNumber p) ++ WriteUint32 (bd_DataNumber p) ++
          WriteUint32 (bd_SessionID p) ++ [bd_Redundant p] ++ bd_Data p).
  split; [done|]. rewrite Hl. unfold BLOCK_DATA_PACKET_HEADER_LEN, zlen.
  rewrite !length_app. simpl. lia.
Qed.
Next Obligation.
  intros [ty len bn dn sid red data] bs r (Ht & Hl & Hu & H1 & H2 & H3 & H4) [= <-].
  cbn [bd_Type bd_Length bd_BlockNumber bd_DataNumber bd_SessionID bd_Redundant bd_Data] in *.
  unfold ParseBlockDataPacket, BlockDataPacket_Write.
  cbn [bd_Type bd_Length bd_BlockNumber bd_DataNumber bd_SessionID bd_Redundant bd_Data].
  parse_all. erewrite reader_bind_Ret; [|apply ReadInto_app]; [done|].
  unfold BLOCK_DATA_PACKET_HEADER_LEN in *. rewrite wrap_small; unfold uint, zlen in *; lia.
Qed.

Lemma ParseNodeInfo_Write n r :
  NodeInfo_valid n → ParseNodeInfo (NodeInfo_Write n ++ r) = Ret (n, r).
Proof.
  destruct n as [ip port nc oc]. intros (H1 & H2 & H3 & H4).
  cbn [nd_NodeIP nd_Port nd_NumOfChilds nd_OffsetOfChild] in *.
  unfold ParseNodeInfo, NodeInfo_Write.
  cbn [nd_NodeIP nd_Port nd_NumOfChilds nd_OffsetOfChild].
  change [nc; oc] with ([nc] ++ [oc]). by parse_all.
Qed.

Lemma ParseNodeInfos_Write ns r :
  Forall NodeInfo_valid ns →
  ParseNodeInfos (length ns) (flat_map NodeInfo_Write ns ++ r) = Ret (ns, r).
Proof.
  induction 1 as [|n ns Hn _ IH]; [done|]. cbn [length ParseNodeInfos flat_map].
  rewrite <-app_assoc. erewrite reader_bind_Ret; [|by apply ParseNodeInfo_Write].
  by erewrite reader_bind_Ret; [|apply IH].
Qed.

Lemma zlen_NodeInfos_Write ns : zlen (flat_map NodeInfo_Write ns) = zlen ns * 8.
Proof.
  induction ns as [|n ns IH]; [done|]. cbn [flat_map]. rewrite zlen_app, IH.
  unfold zlen. simpl length. lia.
Qed.

#[global] Program Instance NodeInfoPacket_wire : WirePacket NodeInfoPacket := {|
  pkt_type := np_Type;
  pkt_length := np_Length;
  pkt_write := λ p, Ret (NodeInfoPacket_Write p);
  pkt_parse := ParseNodeInfoPacket;
  pkt_valid := NodeInfoPacket_valid;
|}.
Next Obligation. by intros p (-> & _). Qed.
Next Obligation.
  intros p (_ & Hl & Hu & _). pose proof (zlen_nonneg (np_NodeInfos p)).
  unfold uint, NODE_INFO_PACKET_HEADER_LEN in *. lia.
Qed.
Next Obligation.
  intros p (_ & Hl & _). exists (WriteUint16 (np_Reserved p) ++ flat_map NodeInfo_Write (np_NodeInfos p)).
  split; [done|]. rewrite zlen_app, zlen_NodeInfos_Write, Hl.
  unfold NODE_INFO_PACKET_HEADER_LEN, zlen. simpl length. lia.
Qed.
Next Obligation.
  intros [ty len rs ns] bs r (Ht & Hl & Hu & Hr & Hn) [= <-].
  cbn [np_Type np_Length np_Reserved np_NodeInfos] in *.
  unfold ParseNodeInfoPacket, NodeInfoPacket_Write.
  cbn [np_Type np_Length np_Reserved np_NodeInfos]. parse_all.
  replace (Z.to_nat _) with (length ns).
  - by erewrite reader_bind_Ret; [|by apply ParseNodeInfos_Write].
  - unfold NODE_INFO_PACKET_HEADER_LEN in *. rewrite wrap_small by (unfold uint, zlen in *; lia).
    rewrite Hl. replace (5 + zlen ns * 8 - 5) with (zlen ns * 8) by lia.
    rewrite Z.div_mul by lia. unfold zlen. lia.
Qed.

(** ** The [Create] functions *)

Lemma CreateControlPacket_ok data :
  zlen data <= PAYLOAD_SIZE →
  ∃ p, CreateControlPacket data = Ret p ∧ ControlPacket_valid p ∧ cp_Data p = data.
Proof.
  intros Hd. pose proof (zlen_nonneg data). unfold PAYLOAD_SIZE in *.
  unfold CreateControlPacket, CONTROL_PACKET_HEADER_LEN, PAYLOAD_SIZE.
  rewrite wrap_small by (unfold uint; lia). dcase; [lia|].
  eexists. split; [done|]. split; [|done]. unfold ControlPacket_valid, uint; simpl.
  unfold CONTROL_PACKET_HEADER_LEN. lia.
Qed.

Lemma CreateBlockDataPacket_ok bn dn sid red data :
  uint 32 bn → uint 32 dn → uint 32 sid → uint 8 red → zlen data <= PAYLOAD_SIZE →
  ∃ p, CreateBlockDataPacket bn dn sid red data = Ret p ∧ BlockDataPacket_valid p ∧
    p = {| bd_Type := BLOCK_DATA_PACKET; bd_Length := BLOCK_DATA_PACKET_HEADER_LEN + zlen data;
           bd_BlockNumber := bn; bd_DataNumber := dn; bd_SessionID := sid;
           bd_Redundant := red; bd_Data := data |}.
Proof.
  intros H1 H2 H3 H4 Hd. pose proof (zlen_nonneg data). unfold PAYLOAD_SIZE in *.
  unfold CreateBlockDataPacket, PAYLOAD_SIZE.
  rewrite wrap_small by (unfold uint, BLOCK_DATA_PACKET_HEADER_LEN; lia).
  dcase; [unfold BLOCK_DATA_PACKET_HEADER_LEN in *; lia|].
  eexists. split; [done|]. split; [|done].
  unfold BlockDataPacket_valid; simpl. unfold BLOCK_DATA_PACKET_HEADER_LEN in *.
  repeat split; try apply H1; try apply H2; try apply H3; try apply H4; unfold uint; lia.
Qed.

Lemma CreateNodeInfoPacket_valid ns :
  zlen ns <= 8191 → Forall NodeInfo_valid ns → NodeInfoPacket_valid (CreateNodeInfoPacket ns).
Proof.
  intros Hn Hv. pose proof (zlen_nonneg ns).
  unfold NodeInfoPacket_valid, CreateNodeInfoPacket, NODE_INFO_PACKET_HEADER_LEN; simpl.
  rewrite wrap_small by (unfold uint; lia). repeat split; try done; unfold uint; lia.
Qed.
