(* ===== verification/RecvBuffer.v ===== *)
(** * Reordering receive buffer of a session ([session/recv_buffer.go])

    Data packets of one session arrive over several paths.  [PushPacket] keeps
    the packets that are ahead of [expectedSeqNumber] in [reorderBuffer] and
    appends consecutive payloads to [readBuffer]; [Read] consumes it.

    The specification is the byte stream [stream f n]: the payloads of the
    packets [0 .. n-1] in order, [f] giving the payload sent with each sequence
    number.  [rb_inv] relates a buffer and the bytes read from it so far to the
    set of packets pushed, and every operation preserves it. *)

From stdpp Require Import base list gmap numbers.
From Stdlib Require Import ZArith Lia.
From S2P Require Import Prelude Config Util SessionPackets.

Record RecvBuffer := {
  rb_readSeqNumber : Z;
  rb_recvSeqNumber : Z;
  rb_expectedSeqNumber : Z;
  rb_readBuffer : list Z;
  rb_reorderBuffer : gmap Z DataPacket;
}.

Definition CreateRecvBuffer : RecvBuffer := {|
  rb_readSeqNumber := 0;
  rb_recvSeqNumber := 0;
  rb_expectedSeqNumber := 0;
  rb_readBuffer := [];
  rb_reorderBuffer := ∅;
|}.

(** Appends a payload and advances [expectedSeqNumber]. *)
Definition accept (b : RecvBuffer) (payload : list Z) (reorder : gmap Z DataPacket) : RecvBuffer := {|
  rb_readSeqNumber := rb_readSeqNumber b;
  rb_recvSeqNumber := rb_recvSeqNumber b;
  rb_expectedSeqNumber := u32 (rb_expectedSeqNumber b + 1);
  rb_readBuffer := rb_readBuffer b ++ payload;
  rb_reorderBuffer := reorder;
|}.

(** The loop that moves packets out of [reorderBuffer].  Each round deletes an
    entry, so that the number of entries is enough fuel ([drain_inv]). *)
Fixpoint drain (fuel : nat) (b : RecvBuffer) : RecvBuffer :=
  match fuel with
  | O => b
  | S fuel =>
      match rb_reorderBuffer b !! rb_expectedSeqNumber b with
      | None => b
      | Some oooPacket =>
          drain fuel (accept b (dp_Payload oooPacket)
                        (delete (rb_expectedSeqNumber b) (rb_reorderBuffer b)))
      end
  end.

Definition PushPacket (b : RecvBuffer) (packet : DataPacket) : RecvBuffer :=
  if dp_SeqNumber packet =? rb_expectedSeqNumber b then
    drain (size (rb_reorderBuffer b)) (accept b (dp_Payload packet) (rb_reorderBuffer b))
  else
    {| rb_readSeqNumber := rb_readSeqNumber b;
       rb_recvSeqNumber := rb_recvSeqNumber b;
       rb_expectedSeqNumber := rb_expectedSeqNumber b;
       rb_readBuffer := rb_readBuffer b;
       rb_reorderBuffer := <[dp_SeqNumber packet := packet]> (rb_reorderBuffer b) |}.

(** [Read] into a slice of [bufLen] bytes: the bytes copied (their number is
    the result) and the buffer after the call. *)
Definition RecvBuffer_Read (b : RecvBuffer) (bufLen : nat) : list Z * RecvBuffer :=
  let readBufferLen := length (rb_readBuffer b) in
  if (0 <? readBufferLen)%nat then
    let readLen := if (readBufferLen <? bufLen)%nat then readBufferLen else bufLen in
    (take readLen (rb_readBuffer b),
     {| rb_readSeqNumber := rb_readSeqNumber b;
        rb_recvSeqNumber := rb_recvSeqNumber b;
        rb_expectedSeqNumber := rb_expectedSeqNumber b;
        rb_readBuffer := drop readLen (rb_readBuffer b);
        rb_reorderBuffer := rb_reorderBuffer b |})
  else ([], b).

Definition RecvBuffer_IsEmpty (b : RecvBuffer) : bool :=
  (length (rb_readBuffer b) =? 0)%nat.

Definition RecvBuffer_GetLength (b : RecvBuffer) : Z := zlen (rb_readBuffer b).

(** ** Runs of a buffer *)

Inductive rb_op :=
| OpPush (p : DataPacket)
| OpRead (bufLen : nat).

(** One operation on a buffer and the bytes read from it so far. *)
Definition rb_step (s : RecvBuffer * list Z) (op : rb_op) : RecvBuffer * list Z :=
  let '(b, out) := s in
  match op with
  | OpPush p => (PushPacket b p, out)
  | OpRead n => let '(bs, b') := RecvBuffer_Read b n in (b', out ++ bs)
  end.

Definition rb_run (ops : list rb_op) : RecvBuffer * list Z :=
  fold_left rb_step ops (CreateRecvBuffer, []).

Definition pushed (ops : list rb_op) : list DataPacket :=
  omap (λ op, match op with OpPush p => Some p | OpRead _ => None end) ops.

(** ** Specification *)

Definition stream (f : Z → list Z) (n : Z) : list Z := flat_map f (seqZ 0 n).

(** A packet of the stream [f]; sequence numbers stay below the last 32-bit
    value, so that [expectedSeqNumber] does not wrap. *)
Definition of_stream (f : Z → list Z) (p : DataPacket) : Prop :=
  0 <= dp_SeqNumber p < 2 ^ 32 - 1 ∧ dp_Payload p = f (dp_SeqNumber p).

Section Invariant.
Context (f : Z → list Z).

(** [S] is the set of sequence numbers pushed so far. *)
Record rb_pre (S : Z → Prop) (b : RecvBuffer) (out : list Z) : Prop := {
  pre_range : 0 <= rb_expectedSeqNumber b < 2 ^ 32;
  pre_stream : out ++ rb_readBuffer b = stream f (rb_expectedSeqNumber b);
  pre_below : ∀ k, 0 <= k < rb_expectedSeqNumber b → S k;
  pre_reorder : ∀ k p, rb_reorderBuffer b !! k = Some p → S k ∧ dp_Payload p = f k;
  pre_ahead : ∀ k, S k → rb_expectedSeqNumber b <= k → is_Some (rb_reorderBuffer b !! k);
  pre_bound : ∀ k, S k → 0 <= k < 2 ^ 32 - 1;
}.

Record rb_inv (S : Z → Prop) (b : RecvBuffer) (out : list Z) : Prop := {
  inv_pre : rb_pre S b out;
  inv_least : ¬ S (rb_expectedSeqNumber b);
}.

Lemma stream_succ n : 0 <= n → stream f (n + 1) = stream f n ++ f n.
Proof.
  intros Hn. unfold stream. rewrite seqZ_app by lia.
  rewrite flat_map_app. simpl. by rewrite app_nil_r.
Qed.

(** Accepting the expected payload: the core step of the loop. *)
Lemma accept_pre (S S' : Z → Prop) b out m :
  rb_pre S b out → (∀ k, S k → S' k) → S' (rb_expectedSeqNumber b) →
  (∀ k, S' k → 0 <= k < 2 ^ 32 - 1) →
  (∀ k p, m !! k = Some p → S' k ∧ dp_Payload p = f k) →
  (∀ k, S' k → rb_expectedSeqNumber b < k → is_Some (m !! k)) →
  rb_pre S' (accept b (f (rb_expectedSeqNumber b)) m) out.
Proof.
  intros [Hr Hs Hb _ _ _] HSS He Hbd Hm Hah. pose proof (Hbd _ He).
  assert (u32 (rb_expectedSeqNumber b + 1) = rb_expectedSeqNumber b + 1) as Hw
    by (apply wrap_small; unfold uint; lia).
  split; unfold accept; cbn [rb_expectedSeqNumber rb_readBuffer rb_reorderBuffer];
    rewrite ?Hw; try done.
  - lia.
  - rewrite app_assoc, Hs. symmetry. apply stream_succ. lia.
  - intros k Hk. destruct (decide (k = rb_expectedSeqNumber b)) as [->|]; [done|].
    apply HSS, Hb. lia.
  - intros k HS Hk. apply Hah; [done|lia].
Qed.

(** With an entry per round of fuel the loop ends at a missing packet. *)
Lemma drain_inv S fuel b out :
  rb_pre S b out → (size (rb_reorderBuffer b) <= fuel)%nat →
  rb_inv S (drain fuel b) out.
Proof.
  revert b. induction fuel as [|fuel IH]; intros b Hpre Hsz; simpl.
  - split; [done|]. intros HS.
    destruct (pre_ahead _ _ _ Hpre _ HS) as [p Hp]; [lia|].
    assert (rb_reorderBuffer b = ∅) as Hemp by (apply map_size_empty_inv; lia).
    by rewrite Hemp, lookup_empty in Hp.
  - destruct (rb_reorderBuffer b !! rb_expectedSeqNumber b) as [p|] eqn:Hp.
    + destruct (pre_reorder _ _ _ Hpre _ _ Hp) as [HS ->]. apply IH.
      * apply (accept_pre S S); eauto using pre_bound; intros k.
        -- intros q [_ Hq]%lookup_delete_Some. by eapply pre_reorder.
        -- intros HSk Hk. rewrite lookup_delete_ne by lia.
           eapply pre_ahead; eauto. lia.
      * cbn [accept rb_reorderBuffer]. rewrite map_size_delete_Some by eauto. lia.
    + split; [done|]. intros HS.
      destruct (pre_ahead _ _ _ Hpre _ HS) as [q Hq]; [lia|]. congruence.
Qed.

Lemma CreateRecvBuffer_inv : rb_inv (λ _, False) CreateRecvBuffer [].
Proof.
  split; [|by intros []]. split; simpl; try done; lia.
Qed.

Lemma rb_inv_ext (S S' : Z → Prop) b out :
  rb_inv S b out → (∀ k, S k ↔ S' k) → rb_inv S' b out.
Proof.
  intros [[Hr Hs Hb Hre Hah Hbd] Hl] Hiff. split; [split|]; auto.
  - intros k Hk. by apply Hiff, Hb.
  - intros k p Hk. destruct (Hre _ _ Hk). split; [by apply Hiff|done].
  - intros k HS. apply Hah. by apply Hiff.
  - intros k HS. by apply Hbd, Hiff.
  - by rewrite <-Hiff.
Qed.

Lemma PushPacket_inv S b out p :
  rb_inv S b out → of_stream f p →
  rb_inv (λ k, S k ∨ k = dp_SeqNumber p) (PushPacket b p) out.
Proof.
  intros [Hpre Hl] [Hq Hf]. unfold PushPacket. dcase.
  - rewrite Hf. apply drain_inv; [|done]. replace (dp_SeqNumber p) with (rb_expectedSeqNumber b).
    apply (accept_pre S); auto; intros k.
    + intros [?| ->]; [by eapply pre_bound|lia].
    + intros q Hk. destruct (pre_reorder _ _ _ Hpre _ _ Hk). auto.
    + intros [HS| ->] Hk; [|lia]. eapply pre_ahead; eauto. lia.
  - destruct Hpre as [Hr Hs Hb Hre Hah Hbd].
    split; [split|]; cbn [rb_expectedSeqNumber rb_readBuffer rb_reorderBuffer]; try done.
    + intros k Hk. left. auto.
    + intros k q [[<- <-]|[? Hk]]%lookup_insert_Some; [auto|].
      destruct (Hre _ _ Hk). auto.
    + intros k HS Hk. destruct (decide (k = dp_SeqNumber p)) as [->|].
      * by rewrite lookup_insert_eq.
      * rewrite lookup_insert_ne by done. destruct HS; [by apply Hah|done].
    + intros k [?| ->]; [auto|lia].
    + intros [?|?]; [by apply Hl|congruence].
Qed.

Lemma RecvBuffer_Read_inv S b out n bs b' :
  rb_inv S b out → RecvBuffer_Read b n = (bs, b') → rb_inv S b' (out ++ bs).
Proof.
  intros [[Hr Hs Hb Hre Hah Hbd] Hl] HR. unfold RecvBuffer_Read in HR.
  destruct (0 <? length (rb_readBuffer b))%nat; simplify_eq.
  - split; [split|]; cbn [rb_expectedSeqNumber rb_readBuffer rb_reorderBuffer]; try done.
    rewrite <-app_assoc, take_drop. done.
  - rewrite app_nil_r. by split; [split|].
Qed.

Lemma rb_run_inv ops :
  Forall (of_stream f) (pushed ops) →
  rb_inv (λ k, k ∈ (dp_SeqNumber <$> pushed ops)) (rb_run ops).1 (rb_run ops).2.
Proof.
  induction ops as [|op ops IH] using rev_ind; intros Hf.
  { eapply rb_inv_ext; [apply CreateRecvBuffer_inv|]. intros k. simpl. set_solver. }
  unfold pushed in *. rewrite omap_app in Hf |- *. apply Forall_app in Hf as [Hf Hop].
  specialize (IH Hf). unfold rb_run. rewrite fold_left_app.
  fold (rb_run ops). destruct (rb_run ops) as [b out]. simpl in IH.
  destruct op as [p|n]; simpl.
  - simpl in Hop. apply Forall_cons_1 in Hop as [Hop _]. rewrite fmap_app.
    eapply rb_inv_ext; [by apply PushPacket_inv|]. intros k. simpl. by rewrite elem_of_app, list_elem_of_singleton.
  - rewrite app_nil_r. destruct (RecvBuffer_Read b n) as [bs b'] eqn:HR. simpl.
    by eapply RecvBuffer_Read_inv.
Qed.
End Invariant.

(** The invariant depends on the payloads of the packets pushed only. *)
Lemma rb_inv_payloads (f g : Z → list Z) (S : Z → Prop) b out :
  (∀ k, S k → f k = g k) → rb_inv f S b out → rb_inv g S b out.
Proof.
  intros Hfg [[Hr Hs Hb Hre Hah Hbd] Hl]. split; [split|]; try done.
  - rewrite Hs. unfold stream. rewrite !flat_map_concat_map. f_equal. apply map_ext_in.
    intros k Hk%list_elem_of_In. apply elem_of_seqZ in Hk. apply Hfg, Hb. lia.
  - intros k p Hk. destruct (Hre _ _ Hk) as [HS ->]. auto.
Qed.

(** ** Properties *)

(** C5.  Whatever the order in which the packets of a stream arrive, duplicates
    included, and however reads are interleaved with the arrivals: the bytes
    read so far followed by the bytes ready to be read are the payloads of the
    packets [0 .. e-1] in order, [e] being [expectedSeqNumber], and [e] is the
    least sequence number that has not arrived. *)
Theorem recv_buffer_delivers_in_order (f : Z → list Z) (ops : list rb_op) :
  Forall (of_stream f) (pushed ops) →
  let '(b, out) := rb_run ops in
  out ++ rb_readBuffer b = stream f (rb_expectedSeqNumber b) ∧
  (∀ k, 0 <= k < rb_expectedSeqNumber b → k ∈ (dp_SeqNumber <$> pushed ops)) ∧
  rb_expectedSeqNumber b ∉ (dp_SeqNumber <$> pushed ops).
Proof.
  intros Hf. pose proof (rb_run_inv f ops Hf) as [Hpre Hl].
  destruct (rb_run ops) as [b out]. split_and!; [apply Hpre..|done].
Qed.

Definition pkt (conf : Config) (seq : Z) (payload : list Z) : DataPacket :=
  CreateDataPacket conf 7 0 seq payload.

Lemma recv_buffer_delivers_in_order_witness :
  let f := λ k, [k; k + 10] in
  let ops := [OpPush (pkt mp2bs_toml 1 [1; 11]); OpRead 8; OpPush (pkt mp2bs_toml 0 [0; 10]);
              OpRead 3; OpPush (pkt mp2bs_toml 3 [3; 13]); OpPush (pkt mp2bs_toml 0 [0; 10])] in
  (rb_run ops).2 ++ rb_readBuffer (rb_run ops).1 = stream f 2.
Proof.
  intros f ops.
  assert (Forall (of_stream f) (pushed ops)) as H
    by (repeat constructor; vm_compute; intuition discriminate).
  pose proof (recv_buffer_delivers_in_order f ops H) as Hd.
  destruct (rb_run ops) as [b out] eqn:E. vm_compute in E. simplify_eq.
  destruct Hd as [Hd _]. exact Hd.
Defined.
