(* ===== verification/Monitor.v ===== *)
(** * Throughput monitor of a session ([session/monitor.go])

    [SessionMonitor] measures the send rate and predicts the remaining send
    time; the scheduler compares both with thresholds.  Floating-point values
    are IEEE [binary64] ([binary32] for [float32]) with rounding to nearest
    even, as in Go; instants and durations are nanoseconds.

    The channel sends [m.tpChan <- true] and [m.bsChan <- true] rendezvous with
    the scheduler's goroutine; an operation returns the notification it sends
    and [Scheduler] delivers it. *)

From stdpp Require Import base list numbers.
From Stdlib Require Import ZArith Lia Floats.SpecFloat.
From S2P Require Import Prelude Config.

(** ** Go's floating-point arithmetic *)

Definition f64_of_Z (z : Z) : spec_float := binary_normalize 53 1024 z 0 false.
Definition f32_of_Z (z : Z) : spec_float := binary_normalize 24 128 z 0 false.

(** Rounds a value to the format of precision [prec] and exponent [emax]. *)
Definition f_round (prec emax : Z) (x : spec_float) : spec_float :=
  match x with
  | S754_finite s m e => binary_normalize prec emax (if s then Z.neg m else Z.pos m) e s
  | _ => x
  end.

Definition float32 (x : spec_float) : spec_float := f_round 24 128 x.
Definition float64 (x : spec_float) : spec_float := f_round 53 1024 x.

Definition f64_add := SFadd 53 1024.
Definition f64_mul := SFmul 53 1024.
Definition f64_div := SFdiv 53 1024.
Definition f32_sub := SFsub 24 128.

(** [time.Duration.Seconds]: whole seconds plus the fraction. *)
Definition Seconds (d : Z) : spec_float :=
  f64_add (f64_of_Z (Z.quot d 1000000000))
          (f64_div (f64_of_Z (Z.rem d 1000000000)) (f64_of_Z 1000000000)).

(** [Time.Sub]: the difference, saturated to an [int64]. *)
Definition Sub (t u : Z) : Z := Z.max (- 2 ^ 63) (Z.min (2 ^ 63 - 1) (t - u)).

(** ** The monitor *)

Record SessionMonitor := {
  sm_remainingTime : spec_float;
  sm_avgThroughput : spec_float;
  sm_totalBytes : Z;
  sm_throughput : spec_float;
  sm_startTime : Z;
  sm_prevElapsedTime : Z;
}.

(** The two channels of the monitor. *)
Inductive notification := tpChan | bsChan.

(** [now] is [time.Now()], [since] the value of [time.Since(time.Now())]. *)
Definition CreateSessionMonitor (now since : Z) : SessionMonitor := {|
  sm_remainingTime := f64_of_Z 0;
  sm_avgThroughput := f64_of_Z 0;
  sm_totalBytes := 0;
  sm_throughput := f64_of_Z 0;
  sm_startTime := now;
  sm_prevElapsedTime := since;
|}.

Definition compareThroughput (conf : Config) (m : SessionMonitor) : bool :=
  SFltb (f64_div (sm_avgThroughput m) (f64_of_Z (1000 * 1000)))
        (MULTIPATH_THRESHOLD_THROUGHPUT conf).

Definition compareRemainingTime (conf : Config) (m : SessionMonitor) : bool :=
  SFltb (MULTIPATH_THRESHOLD_SEND_COMPLETE_TIME conf) (sm_remainingTime m).

Definition computeThroughput (conf : Config) (m : SessionMonitor) (sentBytes currentTime : Z) :
    SessionMonitor * option notification :=
  let elapsedTime := Sub currentTime (sm_startTime m) in
  if SFltb (THROUGHPUT_PERIOD conf) (float32 (Seconds elapsedTime)) then
    let throughput := f64_div (f64_mul (f64_of_Z (sm_totalBytes m)) (f64_of_Z 8))
                              (float64 (Seconds (sm_prevElapsedTime m))) in
    let avgThroughput :=
      f64_add (f64_mul (float64 (THROUGHPUT_WEIGHT conf)) (sm_avgThroughput m))
              (f64_mul (float64 (f32_sub (f32_of_Z 1) (THROUGHPUT_WEIGHT conf))) throughput) in
    ({| sm_remainingTime := sm_remainingTime m;
        sm_avgThroughput := avgThroughput;
        sm_totalBytes := sentBytes;
        sm_throughput := throughput;
        sm_startTime := currentTime;
        sm_prevElapsedTime := sm_prevElapsedTime m |}, Some tpChan)
  else
    ({| sm_remainingTime := sm_remainingTime m;
        sm_avgThroughput := sm_avgThroughput m;
        sm_totalBytes := u32 (sm_totalBytes m + sentBytes);
        sm_throughput := sm_throughput m;
        sm_startTime := sm_startTime m;
        sm_prevElapsedTime := elapsedTime |}, None).

Definition computeRemainingTime (m : SessionMonitor) (remainingBytes : Z) :
    SessionMonitor * option notification :=
  ({| sm_remainingTime := f64_div (f64_of_Z remainingBytes) (sm_avgThroughput m);
      sm_avgThroughput := sm_avgThroughput m;
      sm_totalBytes := sm_totalBytes m;
      sm_throughput := sm_throughput m;
      sm_startTime := sm_startTime m;
      sm_prevElapsedTime := sm_prevElapsedTime m |}, Some bsChan).

(** ** Measuring windows *)

(** A sequence of sends, each with its size and instant. *)
Definition measure (conf : Config) (m : SessionMonitor) (sends : list (Z * Z)) : SessionMonitor :=
  fold_left (λ m '(n, t), (computeThroughput conf m n t).1) sends m.

(** An instant inside the measuring period that started at [start]. *)
Definition in_period (conf : Config) (start t : Z) : Prop :=
  SFltb (THROUGHPUT_PERIOD conf) (float32 (Seconds (Sub t start))) = false.

Lemma computeThroughput_in_period conf m n t :
  in_period conf (sm_startTime m) t →
  computeThroughput conf m n t =
    ({| sm_remainingTime := sm_remainingTime m;
        sm_avgThroughput := sm_avgThroughput m;
        sm_totalBytes := u32 (sm_totalBytes m + n);
        sm_throughput := sm_throughput m;
        sm_startTime := sm_startTime m;
        sm_prevElapsedTime := Sub t (sm_startTime m) |}, None).
Proof. unfold computeThroughput, in_period. by intros ->. Qed.

Lemma measure_in_period conf sends m :
  uint 32 (sm_totalBytes m) →
  Forall (λ s, in_period conf (sm_startTime m) s.2) sends →
  sm_totalBytes (measure conf m sends) = u32 (sm_totalBytes m + foldr Z.add 0 sends.*1) ∧
  sm_avgThroughput (measure conf m sends) = sm_avgThroughput m ∧
  sm_startTime (measure conf m sends) = sm_startTime m.
Proof.
  revert m. induction sends as [|[n t] sends IH]; intros m Hm Hp.
  { simpl. rewrite Z.add_0_r, wrap_small by done. done. }
  apply Forall_cons_1 in Hp as [Hn Hp]. unfold measure. cbn [fold_left]. fold (measure conf).
  rewrite computeThroughput_in_period by done. cbn [fst].
  match goal with |- context [fold_left _ sends ?m'] =>
    destruct (IH m') as (Ht & Ha & Hs) end; cbn [sm_startTime sm_totalBytes] in *; try done.
  { apply wrap_uint. lia. }
  unfold measure in *. rewrite Ht, Ha, Hs. split_and!; try done.
  rewrite wrap_add_l. f_equal. rewrite fmap_cons. cbn [foldr fst]. lia.
Qed.

Lemma computeThroughput_note conf m n t m' note :
  computeThroughput conf m n t = (m', note) → note = None ∨ note = Some tpChan.
Proof. unfold computeThroughput. destruct (SFltb _ _); intros [= _ <-]; auto. Qed.

(** ** Properties *)

(**  A measuring window: the sends of one period are added up (modulo
    2^32) without touching the average and without a notification; the first
    send after the period closes the window.  The rate it reports is the bits
    of the window over the time of the window's last send, the average is
    updated with the configured weight, the send itself opens the next window,
    and the scheduler is notified. *)
Theorem throughput_window (conf : Config) (m : SessionMonitor) (sends : list (Z * Z)) (last n t : Z)
    (total := u32 (sm_totalBytes m + foldr Z.add 0 sends.*1 + last)) (tlast : Z) :
  uint 32 (sm_totalBytes m) →
  Forall (λ s, in_period conf (sm_startTime m) s.2) (sends ++ [(last, tlast)]) →
  ¬ in_period conf (sm_startTime m) t →
  let '(m', note) := computeThroughput conf (measure conf m (sends ++ [(last, tlast)])) n t in
  sm_throughput m' = f64_div (f64_mul (f64_of_Z total) (f64_of_Z 8))
                             (float64 (Seconds (Sub tlast (sm_startTime m)))) ∧
  sm_avgThroughput m' =
    f64_add (f64_mul (float64 (THROUGHPUT_WEIGHT conf)) (sm_avgThroughput m))
            (f64_mul (float64 (f32_sub (f32_of_Z 1) (THROUGHPUT_WEIGHT conf))) (sm_throughput m')) ∧
  sm_totalBytes m' = n ∧ sm_startTime m' = t ∧ note = Some tpChan.
Proof.
  intros Hm [Hs Hl]%Forall_app Ht. apply Forall_cons_1 in Hl as [Hl _]. simpl in Hl.
  unfold measure. rewrite fold_left_app. fold (measure conf m sends).
  destruct (measure_in_period conf sends m Hm Hs) as (Htot & Havg & Hst).
  set (m1 := measure conf m sends) in *. cbn [fold_left].
  rewrite (computeThroughput_in_period conf m1 last tlast) by (by rewrite Hst). cbn [fst].
  unfold computeThroughput. cbn [sm_startTime sm_totalBytes sm_prevElapsedTime sm_avgThroughput].
  rewrite Hst. unfold in_period in Ht. apply not_false_iff_true in Ht. rewrite Ht.
  cbn. rewrite Havg, Htot, wrap_add_l. done.
Qed.

Lemma throughput_window_witness :
  let ms := 1000000 in
  let m := CreateSessionMonitor 0 0 in
  let '(m', note) := computeThroughput mp2bs_toml
                       (measure mp2bs_toml m ([(1024, 10 * ms); (1024, 20 * ms)] ++ [(452, 50 * ms)]))
                       1024 (200 * ms) in
  sm_throughput m' = f64_of_Z 400000 ∧ note = Some tpChan.
Proof.
  intros ms m.
  pose proof (throughput_window mp2bs_toml m [(1024, 10 * ms); (1024, 20 * ms)] 452 1024 (200 * ms) (50 * ms)
    ltac:(done)) as H.
  destruct (computeThroughput _ _ _ _) as [m' note].
  destruct H as (Ht & _ & _ & _ & ->).
  - repeat constructor.
  - intros H. vm_compute in H. discriminate.
  - split; [|done]. rewrite Ht. vm_compute. reflexivity.
Defined.
