(* ===== verification/Scheduler.v ===== *)
(** * Packet scheduler of a session ([session/session_scheduler.go])

    Weighted round robin over the paths of a session.  [remainingBytes] is the
    budget left on each path, a budget of [weight * 1024] bytes is granted when
    a path's turn ends, and the monitor's notifications switch between one and
    all paths.

    Theorems: the scheduler never panics and always picks a connected path
    ([scheduler_safe]); with full payloads every path gets exactly its weight
    in consecutive packets per turn ([wrr_turns]); with arbitrary payloads a
    turn sends its budget up to one payload ([wrr_turn_bytes]). *)

From stdpp Require Import base list numbers strings.
From Stdlib Require Import ZArith Lia.
From S2P Require Import Prelude Config SessionPackets Monitor.

Definition SCHED_USER_WRR : Z := 1.
Definition SCHED_NET_WRR : Z := 2.
Definition REMAINING_BYTES_RESET_THRESH : Z := DATA_PACKET_PAYLOAD_SIZE / 8.

Record SessionScheduler := {
  sc_schedulerType : Z;
  sc_numPath : Z;
  sc_weight : list Z;
  sc_remainingBytes : list Z;
  sc_currentPath : Z;
  sc_usePath : Z;
  sc_multipath : bool;
  sc_monitor : SessionMonitor;
}.

(** Field updates. *)
Definition sc_set_remaining (c : SessionScheduler) (l : list Z) : SessionScheduler := {|
  sc_schedulerType := sc_schedulerType c; sc_numPath := sc_numPath c; sc_weight := sc_weight c;
  sc_remainingBytes := l; sc_currentPath := sc_currentPath c; sc_usePath := sc_usePath c;
  sc_multipath := sc_multipath c; sc_monitor := sc_monitor c |}.
Definition sc_set_current (c : SessionScheduler) (i : Z) : SessionScheduler := {|
  sc_schedulerType := sc_schedulerType c; sc_numPath := sc_numPath c; sc_weight := sc_weight c;
  sc_remainingBytes := sc_remainingBytes c; sc_currentPath := i; sc_usePath := sc_usePath c;
  sc_multipath := sc_multipath c; sc_monitor := sc_monitor c |}.
Definition sc_set_paths (c : SessionScheduler) (num use : Z) : SessionScheduler := {|
  sc_schedulerType := sc_schedulerType c; sc_numPath := num; sc_weight := sc_weight c;
  sc_remainingBytes := sc_remainingBytes c; sc_currentPath := sc_currentPath c; sc_usePath := use;
  sc_multipath := sc_multipath c; sc_monitor := sc_monitor c |}.
Definition sc_set_multipath (c : SessionScheduler) (b : bool) : SessionScheduler := {|
  sc_schedulerType := sc_schedulerType c; sc_numPath := sc_numPath c; sc_weight := sc_weight c;
  sc_remainingBytes := sc_remainingBytes c; sc_currentPath := sc_currentPath c;
  sc_usePath := sc_usePath c; sc_multipath := b; sc_monitor := sc_monitor c |}.
Definition sc_set_monitor (c : SessionScheduler) (m : SessionMonitor) : SessionScheduler := {|
  sc_schedulerType := sc_schedulerType c; sc_numPath := sc_numPath c; sc_weight := sc_weight c;
  sc_remainingBytes := sc_remainingBytes c; sc_currentPath := sc_currentPath c;
  sc_usePath := sc_usePath c; sc_multipath := sc_multipath c; sc_monitor := m |}.

Definition CreateSessionScheduler (conf : Config) (now since schedType : Z) : SessionScheduler := {|
  sc_schedulerType := schedType;
  sc_numPath := 0;
  sc_weight := if schedType =? SCHED_USER_WRR then CONFIG_USER_WRR_WEIGHT conf else [];
  sc_remainingBytes := [];
  sc_currentPath := 0;
  sc_usePath := 0;
  sc_multipath := true;
  sc_monitor := CreateSessionMonitor now since;
|}.

(** [c.remainingBytes[i] = c.weight[i] * DATA_PACKET_PAYLOAD_SIZE]. *)
Definition reset_remaining (c : SessionScheduler) (i : Z) : outcome SessionScheduler :=
  w ← index (sc_weight c) i;
  rem ← set_index (sc_remainingBytes c) i (u32 (w * DATA_PACKET_PAYLOAD_SIZE));
  Ret (sc_set_remaining c rem).

(** The common end of [SetNumPath] and [scheduling_path]: the last path in use
    becomes the current one and its budget is appended. *)
Definition use_last_path (c : SessionScheduler) : outcome SessionScheduler :=
  c ← (if 1 <? sc_usePath c then reset_remaining c (sc_currentPath c) else Ret c);
  let c := sc_set_current c (sc_usePath c - 1) in
  w ← index (sc_weight c) (sc_currentPath c);
  let remainBytesOfNewPath := u32 (w * DATA_PACKET_PAYLOAD_SIZE) in
  Ret (sc_set_remaining c (sc_remainingBytes c ++ [remainBytesOfNewPath])).

Definition SetNumPath (c : SessionScheduler) (numPath : Z) : outcome SessionScheduler :=
  use_last_path (sc_set_paths c numPath numPath).

Definition scheduling_user_wrr (c : SessionScheduler) (payloadSize : Z) :
    outcome (Z * SessionScheduler) :=
  let selectedPath := sc_currentPath c in
  r ← index (sc_remainingBytes c) selectedPath;
  let r := if payloadSize <=? r then r - payloadSize else 0 in
  rem ← set_index (sc_remainingBytes c) selectedPath r;
  let c := sc_set_remaining c rem in
  if r <=? REMAINING_BYTES_RESET_THRESH then
    c ← reset_remaining c selectedPath;
    if sc_usePath c =? 0 then Panic "integer divide by zero"
    else Ret (selectedPath, sc_set_current c (Z.rem (sc_currentPath c + 1) (sc_usePath c)))
  else Ret (selectedPath, c).

Definition scheduling_net_wrr (c : SessionScheduler) (payloadSize : Z) :
    outcome (Z * SessionScheduler) := Ret (0, c).

Definition Scheduling (c : SessionScheduler) (payloadSize : Z) : outcome (Z * SessionScheduler) :=
  if sc_schedulerType c =? SCHED_USER_WRR then scheduling_user_wrr c payloadSize
  else if sc_schedulerType c =? SCHED_NET_WRR then scheduling_net_wrr c payloadSize
  else scheduling_user_wrr c payloadSize.

Definition scheduling_path (c : SessionScheduler) : outcome SessionScheduler :=
  if sc_multipath c then
    if 1 <? sc_numPath c then use_last_path (sc_set_paths c (sc_numPath c) (sc_numPath c))
    else Ret c
  else
    if 1 <? sc_usePath c then use_last_path (sc_set_paths c (sc_numPath c) (sc_usePath c - 1))
    else Ret c.

(** One round of the [select] loop, on the channel that delivered. *)
Definition startMonitoring (conf : Config) (c : SessionScheduler) (ch : notification) :
    outcome SessionScheduler :=
  let multi := match ch with
               | tpChan => compareThroughput conf (sc_monitor c)
               | bsChan => compareRemainingTime conf (sc_monitor c)
               end in
  if multi then
    if negb (sc_multipath c) then scheduling_path (sc_set_multipath c true) else Ret c
  else
    if sc_multipath c then scheduling_path (sc_set_multipath c false) else Ret c.

(** ** Runs of a scheduler *)

(** [OpAddPath] is [SetNumPath] as a session calls it: with the number of its
    streams, one more each time. *)
Inductive sched_op :=
| OpAddPath
| OpSchedule (payloadSize : Z)
| OpNotify (ch : notification)
| OpMonitor (m : SessionMonitor).

(** The scheduler after one operation and the path it selected, if any. *)
Definition sched_step (conf : Config) (c : SessionScheduler) (op : sched_op) :
    outcome (list Z * SessionScheduler) :=
  match op with
  | OpAddPath => c ← SetNumPath c (sc_numPath c + 1); Ret ([], c)
  | OpSchedule n => '(p, c) ← Scheduling c n; Ret ([p], c)
  | OpNotify ch => c ← startMonitoring conf c ch; Ret ([], c)
  | OpMonitor m => Ret ([], sc_set_monitor c m)
  end.

Fixpoint sched_run (conf : Config) (c : SessionScheduler) (ops : list sched_op) :
    outcome (list Z * SessionScheduler) :=
  match ops with
  | [] => Ret ([], c)
  | op :: ops =>
      '(ps, c) ← sched_step conf c op;
      '(qs, c) ← sched_run conf c ops;
      Ret (ps ++ qs, c)
  end.

(** ** Invariant *)

(** Every scheduler a session reaches: at most as many paths as weights, a
    budget per path, and a current path among those in use. *)
Record sched_inv (c : SessionScheduler) : Prop := {
  si_type : sc_schedulerType c = SCHED_USER_WRR;
  si_num : 0 <= sc_numPath c <= zlen (sc_weight c);
  si_rem : sc_numPath c <= zlen (sc_remainingBytes c);
  si_use : 0 <= sc_usePath c <= sc_numPath c;
  si_cur : sc_numPath c = 0 ∧ sc_currentPath c = 0 ∨ 0 <= sc_currentPath c < sc_usePath c;
}.

Lemma zlen_insert {A} (l : list A) i x : zlen (<[i:=x]> l) = zlen l.
Proof. unfold zlen. by rewrite length_insert. Qed.

Lemma reset_remaining_Ret c i :
  0 <= i < zlen (sc_weight c) → i < zlen (sc_remainingBytes c) →
  ∃ w, zget (sc_weight c) i = Some w ∧
    reset_remaining c i =
      Ret (sc_set_remaining c (<[Z.to_nat i := u32 (w * DATA_PACKET_PAYLOAD_SIZE)]> (sc_remainingBytes c))).
Proof.
  intros Hw Hr. destruct (zget_is_Some (sc_weight c) i) as [w Hi]; [lia|].
  exists w. split; [done|]. unfold reset_remaining. rewrite (index_Ret _ _ _ Hi). simpl.
  rewrite set_index_Ret by lia. done.
Qed.

(** What [use_last_path] does to a scheduler with [numPath > 0] paths. *)
Lemma use_last_path_Ret c :
  0 < sc_usePath c <= zlen (sc_weight c) →
  (1 < sc_usePath c → 0 <= sc_currentPath c < zlen (sc_weight c) ∧
                      sc_currentPath c < zlen (sc_remainingBytes c)) →
  ∃ rem w w', zget (sc_weight c) (sc_usePath c - 1) = Some w ∧
    (1 < sc_usePath c → zget (sc_weight c) (sc_currentPath c) = Some w') ∧
    rem = (if 1 <? sc_usePath c
           then <[Z.to_nat (sc_currentPath c) := u32 (w' * DATA_PACKET_PAYLOAD_SIZE)]> (sc_remainingBytes c)
           else sc_remainingBytes c) ∧
    use_last_path c =
      Ret (sc_set_remaining (sc_set_current c (sc_usePath c - 1))
             (rem ++ [u32 (w * DATA_PACKET_PAYLOAD_SIZE)])).
Proof.
  intros Hu Hc. destruct (zget_is_Some (sc_weight c) (sc_usePath c - 1)) as [w Hw]; [lia|].
  unfold use_last_path. dcase.
  - destruct (Hc ltac:(done)) as [H1 H2].
    destruct (reset_remaining_Ret c (sc_currentPath c)) as (w' & Hw' & ->); [done..|].
    eexists _, w, w'. split_and!; [done..|]. simpl. by rewrite (index_Ret _ _ _ Hw).
  - eexists _, w, w. split_and!; [done|lia|done|]. simpl. by rewrite (index_Ret _ _ _ Hw).
Qed.

Lemma use_last_path_inv c :
  sc_schedulerType c = SCHED_USER_WRR →
  0 < sc_usePath c <= sc_numPath c → sc_numPath c <= zlen (sc_weight c) →
  sc_numPath c <= zlen (sc_remainingBytes c) + 1 →
  (1 < sc_usePath c → 0 <= sc_currentPath c < zlen (sc_weight c) ∧
                      sc_currentPath c < zlen (sc_remainingBytes c)) →
  ∃ c', use_last_path c = Ret c' ∧ sched_inv c' ∧ sc_numPath c' = sc_numPath c ∧
        sc_weight c' = sc_weight c.
Proof.
  intros Ht Hu Hn Hr Hc.
  destruct (use_last_path_Ret c) as (rem & w & w' & Hw & _ & Hrem & ->); [lia|done|].
  eexists. split; [done|]. split; [|done].
  assert (zlen rem = zlen (sc_remainingBytes c)) as Hl
    by (rewrite Hrem; destruct (1 <? _); [apply zlen_insert|done]).
  split; simpl; rewrite ?zlen_app, ?Hl; try done; lia.
Qed.

Lemma SetNumPath_inv c :
  sched_inv c → sc_numPath c < zlen (sc_weight c) →
  ∃ c', SetNumPath c (sc_numPath c + 1) = Ret c' ∧ sched_inv c' ∧
        sc_numPath c' = sc_numPath c + 1 ∧ sc_weight c' = sc_weight c.
Proof.
  intros [Ht Hn Hr Hu Hc] Hlt. unfold SetNumPath.
  destruct (use_last_path_inv (sc_set_paths c (sc_numPath c + 1) (sc_numPath c + 1)))
    as (c' & H); simpl; eauto; lia.
Qed.

Lemma scheduling_path_inv c :
  sched_inv c →
  ∃ c', scheduling_path c = Ret c' ∧ sched_inv c' ∧ sc_numPath c' = sc_numPath c ∧
        sc_weight c' = sc_weight c.
Proof.
  intros Hi. pose proof Hi as [Ht Hn Hr Hu Hc]. unfold scheduling_path.
  destruct (sc_multipath c); dcase; eauto.
  all: match goal with |- context [use_last_path ?d] =>
         destruct (use_last_path_inv d) as (c' & H') end; simpl; eauto; lia.
Qed.

Lemma startMonitoring_inv conf c ch :
  sched_inv c →
  ∃ c', startMonitoring conf c ch = Ret c' ∧ sched_inv c' ∧ sc_numPath c' = sc_numPath c ∧
        sc_weight c' = sc_weight c.
Proof.
  intros Hi. unfold startMonitoring.
  destruct (match ch with tpChan => _ | bsChan => _ end), (sc_multipath c); simpl; eauto.
  all: match goal with |- context [scheduling_path ?d] =>
         destruct (scheduling_path_inv d) as (c' & H') end;
    [by destruct Hi; split|by eauto].
Qed.

(** ** Turns *)

Definition next_path (c : SessionScheduler) : Z := (sc_currentPath c + 1) mod sc_usePath c.

(** The scheduler at the end of the current path's turn. *)
Definition end_turn (c : SessionScheduler) (w : Z) : SessionScheduler :=
  sc_set_current
    (sc_set_remaining c (<[Z.to_nat (sc_currentPath c) := u32 (w * DATA_PACKET_PAYLOAD_SIZE)]>
                           (sc_remainingBytes c)))
    (next_path c).

(** The scheduler with [r] bytes left on the current path. *)
Definition spend (c : SessionScheduler) (r : Z) : SessionScheduler :=
  sc_set_remaining c (<[Z.to_nat (sc_currentPath c) := r]> (sc_remainingBytes c)).

Lemma Scheduling_Ret c n :
  sched_inv c → 0 < sc_numPath c →
  ∃ r w, zget (sc_remainingBytes c) (sc_currentPath c) = Some r ∧
    zget (sc_weight c) (sc_currentPath c) = Some w ∧
    let r' := if n <=? r then r - n else 0 in
    Scheduling c n =
      Ret (sc_currentPath c,
           if r' <=? REMAINING_BYTES_RESET_THRESH then end_turn c w else spend c r').
Proof.
  intros [Ht Hn Hr Hu Hc] Hpos.
  destruct (zget_is_Some (sc_remainingBytes c) (sc_currentPath c)) as [r Hr']; [lia|].
  destruct (zget_is_Some (sc_weight c) (sc_currentPath c)) as [w Hw]; [lia|].
  exists r, w. split_and!; [done..|]. unfold Scheduling. rewrite Ht. cbn [Z.eqb SCHED_USER_WRR Pos.eqb].
  unfold scheduling_user_wrr. rewrite (index_Ret _ _ _ Hr'). cbn [mbind outcome_bind].
  set (r' := if n <=? r then r - n else 0). rewrite set_index_Ret by lia. simpl.
  destruct (r' <=? REMAINING_BYTES_RESET_THRESH); [|done].
  unfold reset_remaining. simpl. rewrite (index_Ret _ _ _ Hw). simpl.
  rewrite set_index_Ret by (rewrite zlen_insert; lia). simpl.
  destruct (Z.eqb_spec (sc_usePath c) 0); [lia|].
  rewrite list_insert_insert_eq. rewrite Z.rem_mod_nonneg by lia. done.
Qed.

Lemma end_turn_inv c w : sched_inv c → 0 < sc_numPath c → sched_inv (end_turn c w).
Proof.
  intros [Ht Hn Hr Hu Hc] Hpos. split; simpl; rewrite ?zlen_insert; try done.
  right. apply Z.mod_pos_bound. lia.
Qed.

Lemma spend_inv c r : sched_inv c → sched_inv (spend c r).
Proof. intros [Ht Hn Hr Hu Hc]. by split; simpl; rewrite ?zlen_insert. Qed.

Lemma Scheduling_inv c n :
  sched_inv c → 0 < sc_numPath c →
  ∃ p c', Scheduling c n = Ret (p, c') ∧ sched_inv c' ∧ 0 <= p < sc_numPath c ∧
          sc_numPath c' = sc_numPath c ∧ sc_weight c' = sc_weight c.
Proof.
  intros Hi Hpos. destruct (Scheduling_Ret c n) as (r & w & _ & _ & ->); [done..|].
  eexists _, _. split; [done|]. pose proof Hi as [_ _ _ Hu Hc].
  destruct (_ <=? REMAINING_BYTES_RESET_THRESH);
    (split; [auto using end_turn_inv, spend_inv|split; [lia|done]]).
Qed.

(** Schedules a list of payload sizes. *)
Fixpoint schedule_all (c : SessionScheduler) (ps : list Z) : outcome (list Z * SessionScheduler) :=
  match ps with
  | [] => Ret ([], c)
  | n :: ps =>
      '(p, c) ← Scheduling c n;
      '(qs, c) ← schedule_all c ps;
      Ret (p :: qs, c)
  end.

Definition sum (ps : list Z) : Z := foldr Z.add 0 ps.

Lemma schedule_all_cons c n ps :
  schedule_all c (n :: ps) =
    ('(p, c) ← Scheduling c n; '(qs, c) ← schedule_all c ps; Ret (p :: qs, c)).
Proof. done. Qed.

Lemma schedule_all_app c ps qs :
  schedule_all c (ps ++ qs) =
    ('(xs, c) ← schedule_all c ps; '(ys, c) ← schedule_all c qs; Ret (xs ++ ys, c)).
Proof.
  revert c. induction ps as [|n ps IH]; intros c; simpl.
  - unfold mbind, outcome_bind. by destruct (schedule_all c qs) as [[]| |].
  - destruct (Scheduling c n) as [[p c']| |]; simpl; [|done..]. rewrite IH.
    destruct (schedule_all c' ps) as [[xs c'']| |]; simpl; [|done..].
    by destruct (schedule_all c'' qs) as [[]| |].
Qed.

Lemma spend_spend c r s : spend (spend c r) s = spend c s.
Proof. unfold spend. simpl. by rewrite list_insert_insert_eq. Qed.

Lemma end_turn_spend c r w : end_turn (spend c r) w = end_turn c w.
Proof. unfold end_turn, spend, next_path. simpl. by rewrite list_insert_insert_eq. Qed.

Lemma spend_get c r :
  sched_inv c → 0 < sc_numPath c →
  zget (sc_remainingBytes (spend c r)) (sc_currentPath (spend c r)) = Some r.
Proof.
  intros [Ht Hn Hr Hu Hc] Hpos. unfold zget, spend, zlen in *. simpl.
  destruct (Z.ltb_spec (sc_currentPath c) 0); [lia|].
  apply list_lookup_insert_eq. lia.
Qed.

(** A turn ends with the first payload that brings its bytes to within the
    threshold of the budget. *)
Lemma schedule_turn c ps n b w :
  sched_inv c → 0 < sc_numPath c →
  zget (sc_remainingBytes c) (sc_currentPath c) = Some b →
  zget (sc_weight c) (sc_currentPath c) = Some w →
  Forall (λ p, 0 <= p) ps → 0 <= n →
  ps = [] ∨ sum ps + REMAINING_BYTES_RESET_THRESH < b →
  b <= sum ps + n + REMAINING_BYTES_RESET_THRESH →
  schedule_all c (ps ++ [n]) =
    Ret (replicate (length ps + 1) (sc_currentPath c), end_turn c w).
Proof.
  revert c b. induction ps as [|p ps IH]; intros c b Hi Hpos Hb Hw Hps Hn Hlt Hge.
  - simpl. destruct (Scheduling_Ret c n) as (r & w' & Hr & Hw' & ->); [done..|].
    rewrite Hb in Hr. rewrite Hw in Hw'. injection Hr as <-. injection Hw' as <-.
    simpl in Hge. destruct (Z.leb_spec n b).
    + destruct (Z.leb_spec (b - n) REMAINING_BYTES_RESET_THRESH); [done|lia].
    + done.
  - apply Forall_cons_1 in Hps as [Hp Hps]. destruct Hlt as [|Hlt]; [done|]. simpl in Hlt, Hge.
    assert (0 <= sum ps) by (clear -Hps; induction Hps; simpl; lia).
    assert (0 < REMAINING_BYTES_RESET_THRESH) by done. fold (sum ps) in *.
    destruct (Scheduling_Ret c p) as (r & w' & Hr & Hw' & HS); [done..|].
    rewrite Hb in Hr. rewrite Hw in Hw'. injection Hr as <-. injection Hw' as <-.
    rewrite <-app_comm_cons, schedule_all_cons, HS. cbn [mbind outcome_bind].
    destruct (Z.leb_spec p b); [|lia].
    destruct (Z.leb_spec (b - p) REMAINING_BYTES_RESET_THRESH); [lia|].
    rewrite (IH (spend c (b - p)) (b - p)); auto using spend_inv, spend_get; [|right; lia|lia].
    rewrite end_turn_spend. done.
Qed.

(** ** A scheduler whose paths all have a full budget *)

Definition budget (w : Z) : Z := u32 (w * DATA_PACKET_PAYLOAD_SIZE).

Definition fresh (c : SessionScheduler) : Prop :=
  ∀ i w, 0 <= i < sc_usePath c → zget (sc_weight c) i = Some w →
    zget (sc_remainingBytes c) i = Some (budget w).

Definition weight_of (c : SessionScheduler) (i : Z) : Z := default 0 (zget (sc_weight c) i).

(** The paths of [m] turns, the first one that of the current path. *)
Definition turns (c : SessionScheduler) (m : nat) : list Z :=
  flat_map (λ j, let p := (sc_currentPath c + Z.of_nat j) mod sc_usePath c in
                 replicate (Z.to_nat (weight_of c p)) p) (seq 0 m).

Lemma end_turn_fresh c w :
  sched_inv c → 0 < sc_numPath c → fresh c →
  zget (sc_weight c) (sc_currentPath c) = Some w →
  end_turn c w = sc_set_current c (next_path c).
Proof.
  intros [Ht Hn Hr Hu Hc] Hpos Hf Hw. unfold end_turn.
  rewrite list_insert_id; [by destruct c|].
  destruct (zget_Some _ _ _ (Hf (sc_currentPath c) w ltac:(lia) Hw)) as [_ Hl]. done.
Qed.

Lemma sum_replicate n x : sum (replicate n x) = Z.of_nat n * x.
Proof. induction n as [|n IH]; simpl; [lia|]. fold (sum (replicate n x)). rewrite IH. lia. Qed.

(** One turn with full payloads. *)
Lemma fresh_turn c :
  sched_inv c → 0 < sc_numPath c → fresh c →
  0 < weight_of c (sc_currentPath c) < 2 ^ 22 →
  let n := Z.to_nat (weight_of c (sc_currentPath c)) in
  schedule_all c (replicate n 1024) =
    Ret (replicate n (sc_currentPath c), sc_set_current c (next_path c)).
Proof.
  intros Hi Hpos Hf Hw n. pose proof Hi as [_ Hn _ Hu Hc].
  destruct (zget_is_Some (sc_weight c) (sc_currentPath c)) as [w Hwc]; [lia|].
  assert (weight_of c (sc_currentPath c) = w) as Hww by (unfold weight_of; by rewrite Hwc).
  subst n. rewrite Hww in Hw |- *.
  assert (budget w = w * 1024) as Hb.
  { unfold budget, DATA_PACKET_PAYLOAD_SIZE. apply wrap_small. unfold uint. lia. }
  replace (replicate (Z.to_nat w) 1024) with (replicate (Z.to_nat (w - 1)) 1024 ++ [1024]).
  2:{ replace [1024] with (replicate 1 1024) by done. rewrite <-replicate_add. f_equal. lia. }
  rewrite (schedule_turn c _ _ (budget w) w); auto.
  - rewrite length_replicate, (end_turn_fresh c w) by done. do 2 f_equal. f_equal. lia.
  - apply Hf; [lia|done].
  - apply Forall_replicate. lia.
  - lia.
  - destruct (decide (w = 1)) as [->|]; [by left|right].
    rewrite sum_replicate, Hb. change REMAINING_BYTES_RESET_THRESH with 128. lia.
  - rewrite sum_replicate, Hb. change REMAINING_BYTES_RESET_THRESH with 128. lia.
Qed.

Lemma next_path_inv c :
  sched_inv c → 0 < sc_numPath c → sched_inv (sc_set_current c (next_path c)).
Proof.
  intros [Ht Hn Hr Hu Hc] Hpos. split; simpl; try done. right. apply Z.mod_pos_bound. lia.
Qed.

Lemma turns_succ c m :
  sched_inv c → 0 < sc_numPath c →
  turns c (S m) = replicate (Z.to_nat (weight_of c (sc_currentPath c))) (sc_currentPath c) ++
                  turns (sc_set_current c (next_path c)) m.
Proof.
  intros [_ _ _ Hu Hc] Hpos. unfold turns. cbn [seq flat_map].
  rewrite Z.add_0_r, Z.mod_small by lia. f_equal.
  rewrite <-fmap_S_seq. unfold fmap. rewrite !flat_map_concat_map. f_equal.
  change (list_fmap nat nat) with (@List.map nat nat). rewrite map_map. apply map_ext. intros j.
  unfold next_path. simpl sc_currentPath. simpl sc_usePath.
  rewrite Zplus_mod_idemp_l. replace (sc_currentPath c + Z.of_nat (S j))
    with (sc_currentPath c + 1 + Z.of_nat j) by lia. done.
Qed.

Lemma fresh_turns m c :
  sched_inv c → 0 < sc_numPath c → fresh c →
  Forall (λ w, 0 < w < 2 ^ 22) (sc_weight c) →
  schedule_all c (replicate (length (turns c m)) 1024) =
    Ret (turns c m, sc_set_current c ((sc_currentPath c + Z.of_nat m) mod sc_usePath c)).
Proof.
  revert c. induction m as [|m IH]; intros c Hi Hpos Hf Hw.
  { simpl. pose proof Hi as [_ _ _ Hu Hc]. rewrite Z.add_0_r, Z.mod_small by lia. by destruct c. }
  rewrite turns_succ, length_app, length_replicate, replicate_add by done.
  rewrite schedule_all_app, fresh_turn; try done.
  2:{ pose proof Hi as [_ Hn _ Hu Hc].
      destruct (zget_is_Some (sc_weight c) (sc_currentPath c)) as [w Hwc]; [lia|].
      unfold weight_of. rewrite Hwc. apply zget_Some in Hwc as [_ Hl].
      by eapply (Forall_lookup_1 (λ w, 0 < w < 2 ^ 22)). }
  cbn [mbind outcome_bind]. rewrite IH; auto using next_path_inv.
  unfold next_path, sc_set_current. simpl. rewrite Zplus_mod_idemp_l.
  replace (sc_currentPath c + 1 + Z.of_nat m) with (sc_currentPath c + Z.of_nat (S m)) by lia.
  done.
Qed.

Lemma sched_run_app conf c ops ops' :
  sched_run conf c (ops ++ ops') =
    ('(xs, c) ← sched_run conf c ops; '(ys, c) ← sched_run conf c ops'; Ret (xs ++ ys, c)).
Proof.
  revert c. induction ops as [|op ops IH]; intros c; simpl.
  - unfold mbind, outcome_bind. by destruct (sched_run conf c ops') as [[]| |].
  - destruct (sched_step conf c op) as [[ps c']| |]; simpl; [|done..]. rewrite IH.
    destruct (sched_run conf c' ops) as [[xs c'']| |]; simpl; [|done..].
    destruct (sched_run conf c'' ops') as [[]| |]; simpl; [|done..]. by rewrite app_assoc.
Qed.

(** Connecting [n] paths leaves every path with a full budget. *)
Lemma connect_paths conf now since n :
  let W := CONFIG_USER_WRR_WEIGHT conf in
  (n <= length W)%nat →
  ∃ c, sched_run conf (CreateSessionScheduler conf now since SCHED_USER_WRR)
         (replicate n OpAddPath) = Ret ([], c) ∧
    sched_inv c ∧ sc_numPath c = Z.of_nat n ∧ sc_usePath c = Z.of_nat n ∧
    sc_currentPath c = Z.max 0 (Z.of_nat n - 1) ∧ sc_weight c = W ∧
    sc_remainingBytes c = budget <$> take n W.
Proof.
  intros W. induction n as [|n IH]; intros Hn.
  { eexists. split; [done|]. split_and!; try done. split; simpl; try done; unfold zlen; lia. }
  destruct IH as (c & Hrun & Hi & Hnum & Huse & Hcur & Hwt & Hrem); [lia|].
  replace (S n) with (n + 1)%nat by lia. rewrite replicate_add, sched_run_app, Hrun. simpl.
  pose proof Hi as [Ht Hnn Hr Hu Hc].
  unfold SetNumPath. set (d := sc_set_paths c (sc_numPath c + 1) (sc_numPath c + 1)).
  destruct (use_last_path_Ret d) as (rem & w & w' & Hw & Hw' & Hre & Heq).
  { unfold d, zlen; simpl. rewrite Hwt. lia. }
  { unfold d, zlen in *; simpl. rewrite Hwt in *. lia. }
  destruct (use_last_path_inv d) as (c' & Heq' & Hi' & _);
    unfold d in *; simpl in *; try done; try (rewrite Hwt in *; unfold zlen in *; lia).
  rewrite Heq in Heq' |- *. injection Heq' as <-. eexists. split; [done|].
  split_and!; simpl; try done; try lia.
  assert (rem = sc_remainingBytes c) as ->.
  { subst rem. destruct (Z.ltb_spec 1 (sc_numPath c + 1)) as [Hlt|]; [|done].
    apply list_insert_id. specialize (Hw' Hlt). apply zget_Some in Hw' as [_ Hl].
    rewrite Hrem, list_lookup_fmap, lookup_take_lt by lia. rewrite <-Hwt, Hl. done. }
  apply zget_Some in Hw as [_ Hl]. rewrite Hwt in Hl. fold W in Hl.
  rewrite Hrem. replace (n + 1)%nat with (S n) by lia.
  replace (Z.to_nat (sc_numPath c + 1 - 1)) with n in Hl by lia.
  rewrite (take_S_r _ _ _ Hl), fmap_app. done.
Qed.

Lemma connect_fresh c n :
  sc_usePath c = Z.of_nat n →
  sc_remainingBytes c = budget <$> take n (sc_weight c) → fresh c.
Proof.
  intros Hu Hr i w Hi [Hlt Hl]%zget_Some. unfold zget. destruct (Z.ltb_spec i 0); [lia|].
  rewrite Hr, list_lookup_fmap, lookup_take_lt by lia. by rewrite Hl.
Qed.

(** ** Safety of runs *)

(** At most [len] paths are added to the [n] there are, and nothing is
    scheduled before the first path is there. *)
Fixpoint ops_ok (n len : Z) (ops : list sched_op) : bool :=
  match ops with
  | [] => true
  | OpAddPath :: ops => (n <? len) && ops_ok (n + 1) len ops
  | OpSchedule _ :: ops => (0 <? n) && ops_ok n len ops
  | OpNotify _ :: ops | OpMonitor _ :: ops => ops_ok n len ops
  end.

Lemma sched_step_inv conf c op ops :
  sched_inv c → ops_ok (sc_numPath c) (zlen (sc_weight c)) (op :: ops) = true →
  ∃ ps c', sched_step conf c op = Ret (ps, c') ∧ sched_inv c' ∧
    ops_ok (sc_numPath c') (zlen (sc_weight c')) ops = true ∧
    sc_numPath c <= sc_numPath c' ∧ Forall (λ p, 0 <= p < sc_numPath c') ps ∧
    length ps = match op with OpSchedule _ => 1%nat | _ => 0%nat end.
Proof.
  intros Hi Hok. destruct op as [|n|ch|m]; simpl in Hok |- *.
  - apply andb_prop in Hok as [Hlt%Z.ltb_lt Hok].
    destruct (SetNumPath_inv c Hi Hlt) as (c' & -> & Hi' & Hn & Hw). simpl.
    eexists _, _. rewrite Hn, Hw. split_and!; done || lia.
  - apply andb_prop in Hok as [Hlt%Z.ltb_lt Hok].
    destruct (Scheduling_inv c n Hi Hlt) as (p & c' & -> & Hi' & Hp & Hn & Hw). simpl.
    eexists _, _. rewrite Hn, Hw. split_and!; try done. by constructor.
  - destruct (startMonitoring_inv conf c ch Hi) as (c' & -> & Hi' & Hn & Hw). simpl.
    eexists _, _. rewrite Hn, Hw. split_and!; done.
  - eexists _, _. split_and!; try done. by destruct Hi.
Qed.

Lemma sched_run_inv conf ops c :
  sched_inv c → ops_ok (sc_numPath c) (zlen (sc_weight c)) ops = true →
  ∃ ps c', sched_run conf c ops = Ret (ps, c') ∧ sched_inv c' ∧
    sc_numPath c <= sc_numPath c' ∧ Forall (λ p, 0 <= p < sc_numPath c') ps ∧
    length ps = length (List.filter (λ op, match op with OpSchedule _ => true | _ => false end) ops).
Proof.
  revert c. induction ops as [|op ops IH]; intros c Hi Hok.
  { eexists _, _. split_and!; done. }
  destruct (sched_step_inv conf c op ops Hi Hok) as (ps & c' & Hs & Hi' & Hok' & Hle & Hps & Hlen).
  destruct (IH c' Hi' Hok') as (qs & c'' & Hr & Hi'' & Hle' & Hqs & Hlen').
  simpl sched_run. rewrite Hs. simpl. rewrite Hr. simpl.
  eexists _, _. split_and!; [done..|lia| |].
  - apply Forall_app. split; [|done]. eapply Forall_impl; [done|]. simpl. lia.
  - rewrite length_app, Hlen, Hlen'. by destruct op.
Qed.

(** The payload that ends a turn. *)
Lemma turn_split ps b :
  ps ≠ [] → b <= sum ps + REMAINING_BYTES_RESET_THRESH →
  ∃ t p rest, ps = t ++ p :: rest ∧ (t = [] ∨ sum t + REMAINING_BYTES_RESET_THRESH < b) ∧
    b <= sum t + p + REMAINING_BYTES_RESET_THRESH.
Proof.
  revert b. induction ps as [|p ps IH]; intros b Hne Hb; [done|]. simpl in Hb. fold (sum ps) in Hb.
  destruct (Z.le_gt_cases b (p + REMAINING_BYTES_RESET_THRESH)) as [Hle|Hgt].
  { exists [], p, ps. split_and!; auto. }
  destruct (decide (ps = [])) as [->|Hps]; [simpl in Hb; lia|].
  destruct (IH (b - p)) as (t & q & rest & -> & Ht & Hq); [done|lia|].
  exists (p :: t), q, rest. simpl. fold (sum t). split_and!; [done| |lia].
  right. destruct Ht as [->|]; simpl; lia.
Qed.

(** ** Properties *)



(**  Weighted round robin: once [n] paths are connected, full payloads are
    sent in turns, the paths taking turns cyclically from the last one
    connected, and each turn gives its path exactly its weight in consecutive
    packets.  After any number of turns all budgets are full again. *)
Theorem wrr_turns (conf : Config) (now since : Z) (n m : nat) :
  (0 < n <= length (CONFIG_USER_WRR_WEIGHT conf))%nat →
  Forall (λ w, 0 < w < 2 ^ 22) (CONFIG_USER_WRR_WEIGHT conf) →
  ∃ c, sched_run conf (CreateSessionScheduler conf now since SCHED_USER_WRR)
         (replicate n OpAddPath) = Ret ([], c) ∧
    sc_currentPath c = Z.of_nat n - 1 ∧ sc_usePath c = Z.of_nat n ∧
    sc_weight c = CONFIG_USER_WRR_WEIGHT conf ∧
    schedule_all c (replicate (length (turns c m)) DATA_PACKET_PAYLOAD_SIZE) =
      Ret (turns c m, sc_set_current c ((sc_currentPath c + Z.of_nat m) mod sc_usePath c)).
Proof.
  intros Hn Hw. destruct (connect_paths conf now since n)
    as (c & Hr & Hi & Hnum & Hu & Hc & Hwt & Hrem); [lia|].
  exists c. split_and!; [done|lia|done..|]. apply fresh_turns; [done|lia| |by rewrite Hwt].
  apply (connect_fresh c n); [done|]. by rewrite Hwt.
Qed.

(** With the shipped weights 5 and 2 and both paths connected. *)
Lemma wrr_turns_witness :
  ∃ c, sched_run mp2bs_toml (CreateSessionScheduler mp2bs_toml 0 0 SCHED_USER_WRR)
         (replicate 2 OpAddPath) = Ret ([], c) ∧
    schedule_all c (replicate 9 DATA_PACKET_PAYLOAD_SIZE) =
      Ret ([1; 1; 0; 0; 0; 0; 0; 1; 1], sc_set_current c 0).
Proof.
  destruct (wrr_turns mp2bs_toml 0 0 2 3) as (c & Hr & Hc & Hu & Hw & Hs).
  - simpl. lia.
  - repeat constructor.
  - exists c. split; [done|].
    assert (turns c 3 = [1; 1; 0; 0; 0; 0; 0; 1; 1]) as Ht
      by (unfold turns, weight_of; rewrite Hc, Hu, Hw; reflexivity).
    rewrite Ht, Hc, Hu in Hs. exact Hs.
Defined.

(**  A turn spends the path's budget up to one payload: payloads of at most
    1024 bytes stay on the current path until their sum is within 128 bytes of
    the budget (or above it), and then the next path in use takes over with the
    path's budget restored.  If the payloads are enough to end the turn, it
    ends. *)
Theorem wrr_turn_bytes (c : SessionScheduler) (ps : list Z) (b : Z) :
  sched_inv c → 0 < sc_numPath c →
  zget (sc_remainingBytes c) (sc_currentPath c) = Some b →
  Forall (λ p, 0 < p <= DATA_PACKET_PAYLOAD_SIZE) ps → ps ≠ [] →
  b <= sum ps + REMAINING_BYTES_RESET_THRESH →
  ∃ t rest c', ps = t ++ rest ∧
    schedule_all c t = Ret (replicate (length t) (sc_currentPath c), c') ∧
    sc_currentPath c' = next_path c ∧
    zget (sc_remainingBytes c') (sc_currentPath c) =
      Some (budget (weight_of c (sc_currentPath c))) ∧
    b - REMAINING_BYTES_RESET_THRESH <= sum t ∧
    (REMAINING_BYTES_RESET_THRESH < b →
       sum t < b - REMAINING_BYTES_RESET_THRESH + DATA_PACKET_PAYLOAD_SIZE).
Proof.
  intros Hi Hpos Hb Hps Hne Hle. pose proof Hi as [_ Hn Hr Hu Hc].
  destruct (turn_split ps b Hne Hle) as (t & p & rest & -> & Ht & Hp).
  apply Forall_app in Hps as [Hpt [Hpp _]%Forall_cons_1].
  destruct (zget_is_Some (sc_weight c) (sc_currentPath c)) as [w Hw]; [lia|].
  exists (t ++ [p]), rest, (end_turn c w).
  assert (sum (t ++ [p]) = sum t + p) as Hsum.
  { unfold sum. clear. induction t as [|x t IH]; simpl in *; lia. }
  split_and!; rewrite ?Hsum; try done; try lia.
  - by rewrite <-app_assoc.
  - rewrite length_app. apply (schedule_turn c t p b w); try done; try lia.
    eapply Forall_impl; [done|]. simpl. lia.
  - unfold weight_of. rewrite Hw. apply (spend_get c (budget w)); done.
  - intros Hlt. destruct Ht as [->|?]; simpl; lia.
Qed.

Lemma wrr_turn_bytes_witness :
  ∃ c, sched_run mp2bs_toml (CreateSessionScheduler mp2bs_toml 0 0 SCHED_USER_WRR)
         (replicate 2 OpAddPath) = Ret ([], c) ∧
    ∃ t rest c', [1000; 500; 500; 20; 7] = t ++ rest ∧
      schedule_all c t = Ret (replicate (length t) 1, c') ∧ 1920 <= sum t < 2944.
Proof.
  destruct (connect_paths mp2bs_toml 0 0 2) as (c & Hr & Hi & Hnum & Hu & Hc & _ & Hrem); [simpl; lia|].
  exists c. split; [done|].
  assert (sc_currentPath c = 1) as Hc1 by (rewrite Hc; reflexivity).
  destruct (wrr_turn_bytes c [1000; 500; 500; 20; 7] 2048) as (t & rest & c' & Hps & Hs & _ & _ & Hlo & Hhi).
  - exact Hi.
  - rewrite Hnum. lia.
  - rewrite Hc1, Hrem. reflexivity.
  - repeat constructor; unfold DATA_PACKET_PAYLOAD_SIZE; lia.
  - discriminate.
  - vm_compute. discriminate.
  - exists t, rest, c'. rewrite Hc1 in Hs. split; [exact Hps|]. split; [exact Hs|].
    change REMAINING_BYTES_RESET_THRESH with 128 in *. change DATA_PACKET_PAYLOAD_SIZE with 1024 in *. lia.
Defined.
