(* ===== verification/Session.v ===== *)
(** * Multipath session ([session/session.go])

    A session spreads the bytes of [Write] over its paths in data packets of at
    most 1024 bytes: the scheduler picks a path, [sendDataPacket] queues the
    packet, one transmitter goroutine per path writes queued packets to the
    path's QUIC stream, one receiver goroutine per path reads packets from it
    and pushes them into the receive buffer, and [Read] consumes that buffer.

    This file has the session's state, its operations, and the steps of its
    goroutines.  A QUIC stream is the FIFO of the bytes in transit; how many
    bytes one [stream.Read] returns is up to the environment.  Mutexes make the
    queue operations atomic; statistics are kept as in the code. *)

From stdpp Require Import base list numbers strings gmap.
From Stdlib Require Import ZArith Lia Floats.SpecFloat.
From S2P Require Import Prelude Config Util SessionPackets RecvBuffer Monitor Scheduler.

Record Session := {
  ss_SessionID : Z;
  ss_numPath : Z;
  ss_streamList : list nat;
  ss_listenAddrList : list (list Z);
  ss_connectedAddrList : list (list Z);
  ss_sequenceNumber : Z;
  ss_sentBytes : list Z;
  ss_recvBytes : list Z;
  ss_throughput : list spec_float;
  ss_scheduler : SessionScheduler;
  ss_recvBuffer : RecvBuffer;
  ss_sendBuffer : list (list DataPacket);
  ss_goodbye : bool;
}.

(** [mutex: make([]sync.Mutex, 2)]. *)
Definition NUM_MUTEX : Z := 2.

Definition CreateSession (conf : Config) (now since sessionID : Z) (addrList : list (list Z)) : Session := {|
  ss_SessionID := sessionID;
  ss_numPath := 0;
  ss_streamList := [];
  ss_listenAddrList := addrList;
  ss_connectedAddrList := [];
  ss_sequenceNumber := 0;
  ss_sentBytes := [];
  ss_recvBytes := [];
  ss_throughput := [];
  ss_scheduler := CreateSessionScheduler conf now since SCHED_USER_WRR;
  ss_recvBuffer := CreateRecvBuffer;
  ss_sendBuffer := [];
  ss_goodbye := false;
|}.

(** Field updates. *)
Definition ss_set_scheduler (s : Session) (c : SessionScheduler) : Session := {|
  ss_SessionID := ss_SessionID s; ss_numPath := ss_numPath s; ss_streamList := ss_streamList s;
  ss_listenAddrList := ss_listenAddrList s; ss_connectedAddrList := ss_connectedAddrList s;
  ss_sequenceNumber := ss_sequenceNumber s; ss_sentBytes := ss_sentBytes s;
  ss_recvBytes := ss_recvBytes s; ss_throughput := ss_throughput s; ss_scheduler := c;
  ss_recvBuffer := ss_recvBuffer s; ss_sendBuffer := ss_sendBuffer s; ss_goodbye := ss_goodbye s |}.
Definition ss_set_send (s : Session) (seq : Z) (sent : list Z) (sb : list (list DataPacket)) : Session := {|
  ss_SessionID := ss_SessionID s; ss_numPath := ss_numPath s; ss_streamList := ss_streamList s;
  ss_listenAddrList := ss_listenAddrList s; ss_connectedAddrList := ss_connectedAddrList s;
  ss_sequenceNumber := seq; ss_sentBytes := sent;
  ss_recvBytes := ss_recvBytes s; ss_throughput := ss_throughput s; ss_scheduler := ss_scheduler s;
  ss_recvBuffer := ss_recvBuffer s; ss_sendBuffer := sb; ss_goodbye := ss_goodbye s |}.
Definition ss_set_recv (s : Session) (recv : list Z) (thr : list spec_float) (b : RecvBuffer)
    (goodbye : bool) : Session := {|
  ss_SessionID := ss_SessionID s; ss_numPath := ss_numPath s; ss_streamList := ss_streamList s;
  ss_listenAddrList := ss_listenAddrList s; ss_connectedAddrList := ss_connectedAddrList s;
  ss_sequenceNumber := ss_sequenceNumber s; ss_sentBytes := ss_sentBytes s;
  ss_recvBytes := recv; ss_throughput := thr; ss_scheduler := ss_scheduler s;
  ss_recvBuffer := b; ss_sendBuffer := ss_sendBuffer s; ss_goodbye := goodbye |}.
Definition ss_set_id (s : Session) (id : Z) : Session := {|
  ss_SessionID := id; ss_numPath := ss_numPath s; ss_streamList := ss_streamList s;
  ss_listenAddrList := ss_listenAddrList s; ss_connectedAddrList := ss_connectedAddrList s;
  ss_sequenceNumber := ss_sequenceNumber s; ss_sentBytes := ss_sentBytes s;
  ss_recvBytes := ss_recvBytes s; ss_throughput := ss_throughput s; ss_scheduler := ss_scheduler s;
  ss_recvBuffer := ss_recvBuffer s; ss_sendBuffer := ss_sendBuffer s; ss_goodbye := ss_goodbye s |}.

(** [AddStream]: the path's number and the session after the call. *)
Definition AddStream (s : Session) (stream : nat) (connectedAddr : list Z) (accepted : bool) :
    outcome (Z * Session) :=
  let s := {|
    ss_SessionID := ss_SessionID s;
    ss_numPath := ss_numPath s + 1;
    ss_streamList := ss_streamList s ++ [stream];
    ss_listenAddrList := ss_listenAddrList s;
    ss_connectedAddrList := ss_connectedAddrList s ++ [connectedAddr];
    ss_sequenceNumber := ss_sequenceNumber s;
    ss_sentBytes := ss_sentBytes s ++ [0];
    ss_recvBytes := ss_recvBytes s ++ [0];
    ss_throughput := ss_throughput s ++ [f64_of_Z 0];
    ss_scheduler := ss_scheduler s;
    ss_recvBuffer := ss_recvBuffer s;
    ss_sendBuffer := ss_sendBuffer s ++ [[]];
    ss_goodbye := ss_goodbye s |} in
  s ← (if accepted then c ← SetNumPath (ss_scheduler s) (ss_numPath s); Ret (ss_set_scheduler s c)
       else Ret s);
  Ret (ss_numPath s - 1, s).

(** ** Sending *)

Definition sendDataPacket (conf : Config) (s : Session) (payload : list Z) (pathID : Z) : outcome Session :=
  let packet := CreateDataPacket conf (ss_SessionID s) pathID (ss_sequenceNumber s) payload in
  if bool_decide (0 <= pathID < NUM_MUTEX) then
    queue ← index (ss_sendBuffer s) pathID;
    sb ← set_index (ss_sendBuffer s) pathID (queue ++ [packet]);
    Ret (ss_set_send s (ss_sequenceNumber s) (ss_sentBytes s) sb)
  else Panic "index out of range".

(** One round of [dataPacketTransmitter]: the packet taken off the queue and
    the bytes given to [stream.Write]; [None] while the queue is empty. *)
Definition dataPacketTransmitter (s : Session) (pathID : Z) : outcome (option (list Z * Session)) :=
  queue ← index (ss_sendBuffer s) pathID;
  match queue with
  | [] => Ret None
  | packet :: queue =>
      if bool_decide (0 <= pathID < NUM_MUTEX) then
        sb ← set_index (ss_sendBuffer s) pathID queue;
        Ret (Some (DataPacket_Write packet, ss_set_send s (ss_sequenceNumber s) (ss_sentBytes s) sb))
      else Panic "index out of range"
  end.

(** The local variables of a running [Write] and where it is: at the loop
    head, at a channel send, before the scheduling of a payload, or before the
    throughput measurement of the payload sent. *)
Inductive write_pc :=
| WHead
| WNotify (ch : notification)
| WSend
| WThroughput (payloadSize : Z).

Record writer := {
  wr_buf : list Z;
  wr_pType : Z;
  wr_start : Z;
  wr_end : Z;
  wr_total : Z;
  wr_pc : write_pc;
}.

Definition wr_goto (w : writer) (pc : write_pc) : writer := {|
  wr_buf := wr_buf w; wr_pType := wr_pType w; wr_start := wr_start w; wr_end := wr_end w;
  wr_total := wr_total w; wr_pc := pc |}.

Definition Write_call (buf : list Z) (pType : Z) : writer := {|
  wr_buf := buf; wr_pType := pType; wr_start := 0; wr_end := 0; wr_total := 0; wr_pc := WHead |}.

Definition monitor_of (s : Session) : SessionMonitor := sc_monitor (ss_scheduler s).
Definition ss_set_monitor (s : Session) (m : SessionMonitor) : Session :=
  ss_set_scheduler s (sc_set_monitor (ss_scheduler s) m).

(** One step of [Write].  [pending] is the notification the scheduler's
    goroutine is handling: a channel send waits until there is none.  The
    writer is [None] when the call has returned; the second component of the
    result is what it returned. *)
Definition Write_step (conf : Config) (now : Z) (s : Session) (pending : option notification) (w : writer) :
    outcome (Session * option notification * (writer + Z)) :=
  match wr_pc w with
  | WHead =>
      if wr_start w <? zlen (wr_buf w) then
        if wr_pType w =? 14 then
          let '(m, _) := computeRemainingTime (monitor_of s) (u32 (zlen (wr_buf w) - wr_end w)) in
          Ret (ss_set_monitor s m, pending, inl (wr_goto w (WNotify bsChan)))
        else Ret (s, pending, inl (wr_goto w WSend))
      else Ret (s, pending, inr (wr_total w))
  | WNotify ch =>
      match pending with
      | Some _ => Ret (s, pending, inl w)
      | None => Ret (s, Some ch, inl (wr_goto w (match ch with bsChan => WSend | tpChan => WHead end)))
      end
  | WSend =>
      let start := wr_start w in
      let end_ := if start + DATA_PACKET_PAYLOAD_SIZE <? zlen (wr_buf w)
                  then start + DATA_PACKET_PAYLOAD_SIZE else zlen (wr_buf w) in
      let payloadSize := u32 (end_ - start) in
      '(pathID, c) ← Scheduling (ss_scheduler s) payloadSize;
      payload ← slice (wr_buf w) start end_;
      s ← sendDataPacket conf (ss_set_scheduler s c) payload pathID;
      sent ← index (ss_sentBytes s) pathID;
      sentBytes ← set_index (ss_sentBytes s) pathID (u32 (sent + payloadSize));
      Ret (ss_set_send s (u32 (ss_sequenceNumber s + 1)) sentBytes (ss_sendBuffer s), pending,
           inl {| wr_buf := wr_buf w; wr_pType := wr_pType w; wr_start := end_; wr_end := end_;
                  wr_total := wr_total w + payloadSize; wr_pc := WThroughput payloadSize |})
  | WThroughput payloadSize =>
      if wr_pType w =? 14 then
        let '(m, note) := computeThroughput conf (monitor_of s) payloadSize now in
        Ret (ss_set_monitor s m, pending,
             inl (wr_goto w (match note with Some ch => WNotify ch | None => WHead end)))
      else Ret (s, pending, inl (wr_goto w WHead))
  end.

(** ** Receiving *)

(** [stream.Read(buf)] for a slice of [n > 0] bytes when bytes are in transit:
    at least one byte and at most [n], [k] being what the environment offers. *)
Definition StreamRead (pipe : list Z) (k n : nat) : list Z * list Z :=
  let m := Nat.min (Nat.max 1 k) n in (take m pipe, drop m pipe).

(** Where a receiver goroutine is: before the three header bytes, or in the
    loop that reads the rest of a packet. *)
Inductive recv_pc :=
| RHeader
| RBody (buf : list Z) (packetType packetLength i : Z).

Record receiver := {
  rv_total : Z;
  rv_count : Z;
  rv_pc : recv_pc;
}.

Definition StartReceiver : receiver := {| rv_total := 0; rv_count := 0; rv_pc := RHeader |}.

Definition handleDataPacket (s : Session) (packet : DataPacket) : Session :=
  ss_set_recv s (ss_recvBytes s) (ss_throughput s) (PushPacket (ss_recvBuffer s) packet) (ss_goodbye s).

Definition handleGoodbyePacket (s : Session) (packet : GoodbyePacket) : Session :=
  ss_set_recv s (ss_recvBytes s) (ss_throughput s) (ss_recvBuffer s) true.

(** An error of a parser makes the receiver panic. *)
Definition or_panic {A} (o : outcome A) : outcome A :=
  match o with Err _ => Panic "parse error" | _ => o end.

(** The switch on the packet type; a Hello packet has an empty case. *)
Definition receiver_dispatch (conf : Config) (s : Session) (pathID packetType : Z) (buf : list Z) :
    outcome Session :=
  if packetType =? HELLO_PACKET conf then Ret s
  else if packetType =? HELLO_ACK_PACKET conf then Panic "Session.receiver(): Error!"
  else if packetType =? DATA_PACKET conf then
    '(packet, _) ← or_panic (ParseDataPacket buf);
    recv ← index (ss_recvBytes s) pathID;
    recvBytes ← set_index (ss_recvBytes s) pathID
                  (u32 (recv + u16 (dp_Length packet - DATA_PACKET_HEADER_LEN)));
    Ret (handleDataPacket (ss_set_recv s recvBytes (ss_throughput s) (ss_recvBuffer s) (ss_goodbye s)) packet)
  else if packetType =? GOODBYE_PACKET conf then
    '(packet, _) ← or_panic (ParseGoodbyePacket buf);
    Ret (handleGoodbyePacket s packet)
  else Panic "Unknown packet type".

(** The end of a loop round, once [i = packetLength]: statistics and dispatch.
    [elapsed] is [time.Since(startTime)]. *)
Definition receiver_packet (conf : Config) (s : Session) (pathID : Z) (rv : receiver)
    (buf : list Z) (packetType i elapsed : Z) : outcome (Session * receiver) :=
  let total := rv_total rv + i in
  let mbps := f64_div (f64_div (f64_mul (f64_of_Z total) (f64_of_Z 8)) (Seconds elapsed))
                      (f64_of_Z (1000 * 1000)) in
  thr ← set_index (ss_throughput s) pathID mbps;
  s ← receiver_dispatch conf (ss_set_recv s (ss_recvBytes s) thr (ss_recvBuffer s) (ss_goodbye s))
        pathID packetType buf;
  Ret (s, {| rv_total := total; rv_count := rv_count rv + 1; rv_pc := RHeader |}).

(** After [i] bytes of a packet: handle it when it is complete, go on reading
    otherwise. *)
Definition receiver_continue (conf : Config) (s : Session) (pathID : Z) (rv : receiver)
    (buf : list Z) (packetType packetLength i elapsed : Z) : outcome (Session * receiver) :=
  if i =? packetLength then receiver_packet conf s pathID rv buf packetType i elapsed
  else Ret (s, {| rv_total := rv_total rv; rv_count := rv_count rv;
                  rv_pc := RBody buf packetType packetLength i |}).

(** One [stream.Read] of [receiver] and what follows it; nothing happens while
    no byte is in transit.  The bounds of [buf[i:packetLength]] are checked
    before the call. *)
Definition receiver_step (conf : Config) (s : Session) (pathID : Z) (rv : receiver)
    (pipe : list Z) (k : nat) (elapsed : Z) : outcome (Session * receiver * list Z) :=
  match rv_pc rv with
  | RHeader =>
      let buf := replicate (Z.to_nat (PACKET_SIZE conf)) 0 in
      if bool_decide (3 <= PACKET_SIZE conf) then
        if bool_decide (pipe = []) then Ret (s, rv, pipe) else
        let '(got, pipe) := StreamRead pipe k 3 in
        buf ← copy_to buf 0 3 got;
        '(packetType, r) ← ReadByte (take 3 buf);
        '(packetLength, _) ← ReadUint16 r;
        '(s, rv) ← receiver_continue conf s pathID rv buf packetType packetLength 3 elapsed;
        Ret (s, rv, pipe)
      else Panic "slice bounds out of range"
  | RBody buf packetType packetLength i =>
      if bool_decide (0 <= i <= packetLength ∧ packetLength <= zlen buf) then
        if bool_decide (pipe = []) then Ret (s, rv, pipe) else
        let '(got, pipe) := StreamRead pipe k (Z.to_nat (packetLength - i)) in
        buf ← copy_to buf i packetLength got;
        '(s, rv) ← receiver_continue conf s pathID rv buf packetType packetLength (i + zlen got) elapsed;
        Ret (s, rv, pipe)
      else Panic "slice bounds out of range"
  end.

(** [Read] and [ReadWithSize]: [None] while the call waits. *)
Definition Read (s : Session) (bufLen : nat) : option (list Z * Session) :=
  if negb (RecvBuffer_IsEmpty (ss_recvBuffer s)) || ss_goodbye s then
    let '(bs, b) := RecvBuffer_Read (ss_recvBuffer s) bufLen in
    Some (bs, ss_set_recv s (ss_recvBytes s) (ss_throughput s) b (ss_goodbye s))
  else None.

Definition ReadWithSize (s : Session) (bufLen : nat) (size : Z) : option (list Z * Session) :=
  if (size <=? RecvBuffer_GetLength (ss_recvBuffer s)) || ss_goodbye s then
    let '(bs, b) := RecvBuffer_Read (ss_recvBuffer s) bufLen in
    Some (bs, ss_set_recv s (ss_recvBytes s) (ss_throughput s) b (ss_goodbye s))
  else None.

(** ** Handshake packets *)

(** Addresses are the bytes of the strings. *)
Definition getNicInfo (s : Session) : list NicInfo :=
  (λ addr, {| ni_Type := 0; ni_AddrLen := u8 (zlen addr); ni_Addr := addr |}) <$> ss_listenAddrList s.

(** The bytes [sendHelloPacket] and [sendHelloAckPacket] give to [sendPacket]. *)
Definition sendHelloPacket (conf : Config) (s : Session) : list Z :=
  HelloPacket_Write (CreateHelloPacket conf (ss_SessionID s) (u8 (zlen (ss_listenAddrList s)))).

Definition sendHelloAckPacket (conf : Config) (s : Session) : outcome (list Z) :=
  HelloAckPacket_Write (CreateHelloAckPacket conf (ss_SessionID s) (getNicInfo s)).

Definition sendGoodbyePacket (conf : Config) (s : Session) : list Z :=
  GoodbyePacket_Write (CreateGoodbyePacket conf (ss_SessionID s)).

(** [handleHelloAckPacket]: the session after it, and the address and local
    interface of the second connection it opens, if any. *)
Definition handleHelloAckPacket (s : Session) (packet : HelloAckPacket) :
    outcome (Session * option (list Z * Z)) :=
  let s := if ss_SessionID s =? 0 then ss_set_id s (hap_SessionID packet) else s in
  c ← SetNumPath (ss_scheduler s) (ss_numPath s);
  let s := ss_set_scheduler s c in
  let listen := zlen (ss_listenAddrList s) in
  if zlen (ss_connectedAddrList s) =? 1 then
    if (hap_NumPath packet =? 2) && (listen =? 1) then
      nic ← index (hap_NicInfos packet) 1; Ret (s, Some (ni_Addr nic, 0))
    else if (hap_NumPath packet =? 1) && (listen =? 2) then
      nic ← index (hap_NicInfos packet) 0; Ret (s, Some (ni_Addr nic, 1))
    else if (hap_NumPath packet =? 2) && (listen =? 2) then
      nic ← index (hap_NicInfos packet) 1; Ret (s, Some (ni_Addr nic, 1))
    else Ret (s, None)
  else Ret (s, None).

(** [receiveHelloAckPacket] on the bytes of the stream: two reads, each of
    which returns what [k1], [k2] offer, the second one not repeated. *)
Definition receiveHelloAckPacket (conf : Config) (s : Session) (pipe : list Z) (k1 k2 : nat) :
    outcome (Session * option (list Z * Z) * list Z) :=
  let buf := replicate (Z.to_nat (PACKET_SIZE conf)) 0 in
  let '(got, pipe) := StreamRead pipe k1 3 in
  buf ← copy_to buf 0 3 got;
  '(packetType, r) ← ReadByte (take 3 buf);
  '(packetLength, _) ← ReadUint16 r;
  let '(got, pipe) := StreamRead pipe k2 (Z.to_nat (packetLength - 3)) in
  buf ← copy_to buf 3 packetLength got;
  if packetType =? HELLO_ACK_PACKET conf then
    '(packet, _) ← or_panic (ParseHelloAckPacket buf);
    '(s, conn) ← handleHelloAckPacket s packet;
    Ret (s, conn, pipe)
  else Panic "Session.receiveHelloAckPacket(): Unknown packet type".
