(* ===== verification/SessionSystem.v ===== *)
(** * Two sessions connected by several paths

    The sending and the receiving end of a multipath session, the bytes in
    transit on each path's stream, and the goroutines of both ends, run in an
    arbitrary interleaving ([sys_step], [sys_run]).  The theorem
    [session_delivers] is the contract of the session layer: whatever the
    interleaving of the paths, no goroutine panics, what the receiver's [Read]
    calls return is a prefix of what was given to [Write], and everything has
    been delivered once nothing is queued or in transit. *)

From stdpp Require Import base list numbers strings gmap.
From Stdlib Require Import ZArith Lia.
From S2P Require Import Prelude Config Util SessionPackets RecvBuffer Monitor Scheduler Session.

Record system := {
  sy_snd : Session;
  sy_rcv : Session;
  sy_pipes : list (list Z);
  sy_recvs : list receiver;
  sy_writer : option writer;
  sy_pending : option notification;
  sy_written : list Z;
  sy_read : list Z;
}.

(** A step of one goroutine or one call of the application. *)
Inductive label :=
| LWrite (buf : list Z) (pType : Z)
| LWriter (now : Z)
| LMonitor
| LTransmit (p : Z)
| LRecvHeader (p : Z) (k : nat) (elapsed : Z)
| LRecvBody (p : Z) (k : nat) (elapsed : Z)
| LRead (bufLen : nat)
| LReadWithSize (bufLen : nat) (size : Z).

Definition at_header (rv : receiver) : bool :=
  match rv_pc rv with RHeader => true | RBody _ _ _ _ => false end.

(** A [stream.Read] of the receiver goroutine of path [p]. *)
Definition receive (conf : Config) (y : system) (p : Z) (pipe : list Z) (rv : receiver)
    (k : nat) (elapsed : Z) : outcome system :=
  '(rcv, rv, pipe) ← receiver_step conf (sy_rcv y) p rv pipe k elapsed;
  Ret {| sy_snd := sy_snd y; sy_rcv := rcv; sy_pipes := <[Z.to_nat p := pipe]> (sy_pipes y);
         sy_recvs := <[Z.to_nat p := rv]> (sy_recvs y); sy_writer := sy_writer y;
         sy_pending := sy_pending y; sy_written := sy_written y; sy_read := sy_read y |}.

(** A label whose goroutine is blocked, elsewhere, or does not exist, leaves the system
    as it is. *)
Definition sys_step (conf : Config) (y : system) (l : label) : outcome system :=
  let snd := sy_snd y in let rcv := sy_rcv y in
  let pipes := sy_pipes y in let recvs := sy_recvs y in
  let wr := sy_writer y in let pend := sy_pending y in
  let written := sy_written y in let rd := sy_read y in
  match l with
  | LWrite buf pType =>
      match wr with
      | Some _ => Ret y
      | None => Ret {| sy_snd := snd; sy_rcv := rcv; sy_pipes := pipes; sy_recvs := recvs;
                       sy_writer := Some (Write_call buf pType); sy_pending := pend;
                       sy_written := written ++ buf; sy_read := rd |}
      end
  | LWriter now =>
      match wr with
      | None => Ret y
      | Some w =>
          '(snd, pend, w) ← Write_step conf now snd pend w;
          Ret {| sy_snd := snd; sy_rcv := rcv; sy_pipes := pipes; sy_recvs := recvs;
                 sy_writer := match w with inl w => Some w | inr _ => None end; sy_pending := pend;
                 sy_written := written; sy_read := rd |}
      end
  | LMonitor =>
      match pend with
      | None => Ret y
      | Some ch =>
          c ← startMonitoring conf (ss_scheduler snd) ch;
          Ret {| sy_snd := ss_set_scheduler snd c; sy_rcv := rcv; sy_pipes := pipes;
                 sy_recvs := recvs; sy_writer := wr; sy_pending := None;
                 sy_written := written; sy_read := rd |}
      end
  | LTransmit p =>
      match zget pipes p with
      | None => Ret y
      | Some pipe =>
          r ← dataPacketTransmitter snd p;
          match r with
          | None => Ret y
          | Some (bs, snd) =>
              Ret {| sy_snd := snd; sy_rcv := rcv; sy_pipes := <[Z.to_nat p := pipe ++ bs]> pipes;
                     sy_recvs := recvs; sy_writer := wr; sy_pending := pend;
                     sy_written := written; sy_read := rd |}
          end
      end
  | LRecvHeader p k elapsed =>
      match zget pipes p, zget recvs p with
      | Some pipe, Some rv => if at_header rv then receive conf y p pipe rv k elapsed else Ret y
      | _, _ => Ret y
      end
  | LRecvBody p k elapsed =>
      match zget pipes p, zget recvs p with
      | Some pipe, Some rv => if at_header rv then Ret y else receive conf y p pipe rv k elapsed
      | _, _ => Ret y
      end
  | LRead n =>
      match Read rcv n with
      | None => Ret y
      | Some (bs, rcv) =>
          Ret {| sy_snd := snd; sy_rcv := rcv; sy_pipes := pipes; sy_recvs := recvs;
                 sy_writer := wr; sy_pending := pend; sy_written := written; sy_read := rd ++ bs |}
      end
  | LReadWithSize n size =>
      match ReadWithSize rcv n size with
      | None => Ret y
      | Some (bs, rcv) =>
          Ret {| sy_snd := snd; sy_rcv := rcv; sy_pipes := pipes; sy_recvs := recvs;
                 sy_writer := wr; sy_pending := pend; sy_written := written; sy_read := rd ++ bs |}
      end
  end.

Fixpoint sys_run (conf : Config) (y : system) (ls : list label) : outcome system :=
  match ls with
  | [] => Ret y
  | l :: ls => y ← sys_step conf y l; sys_run conf y ls
  end.

(** A session to which [n] streams have been added. *)
Fixpoint add_streams (s : Session) (n : nat) : outcome Session :=
  match n with
  | O => Ret s
  | S n => s ← add_streams s n; '(_, s) ← AddStream s n [] true; Ret s
  end.

(** Both ends of a session [id] just after [n] paths have been connected. *)
Definition connected (conf : Config) (now since id : Z) (n : nat) : outcome system :=
  snd ← add_streams (CreateSession conf now since id []) n;
  rcv ← add_streams (CreateSession conf now since id []) n;
  Ret {| sy_snd := snd; sy_rcv := rcv; sy_pipes := replicate n [];
         sy_recvs := replicate n StartReceiver; sy_writer := None; sy_pending := None;
         sy_written := []; sy_read := [] |}.

(** Nothing is queued, in transit or half received, and no [Write] is running. *)
Definition quiescent (y : system) : bool :=
  forallb (λ q, bool_decide (q = [])) (ss_sendBuffer (sy_snd y)) &&
  forallb (λ q, bool_decide (q = [])) (sy_pipes y) &&
  forallb at_header (sy_recvs y) &&
  match sy_writer y with None => true | Some _ => false end.

(** The read of a packet's first three bytes is not split by the stream. *)
Definition header_whole (l : label) : bool :=
  match l with LRecvHeader _ k _ => (3 <=? k)%nat | _ => true end.

(** ** Invariant *)

Definition f_of (payloads : list (list Z)) (k : Z) : list Z := default [] (payloads !! Z.to_nat k).

Lemma stream_concat payloads e :
  0 <= e <= zlen payloads → stream (f_of payloads) e = concat (take (Z.to_nat e) payloads).
Proof.
  intros He. unfold zlen in He. rewrite <-(Z2Nat.id e) at 1 by lia.
  assert (Z.to_nat e <= length payloads)%nat as Hn by lia. clear He.
  induction (Z.to_nat e) as [|n IH]; [done|].
  replace (Z.of_nat (S n)) with (Z.of_nat n + 1) by lia. rewrite stream_succ, IH by lia.
  destruct (lookup_lt_is_Some_2 payloads n) as [x Hx]; [lia|].
  rewrite (take_S_r _ _ _ Hx), concat_app. unfold f_of. rewrite Nat2Z.id, Hx. simpl.
  by rewrite app_nil_r.
Qed.

(** [k] is the sequence number of a packet in one of the lists. *)
Definition carried (k : Z) (L : list (list DataPacket)) : Prop :=
  ∃ p q, L !! p = Some q ∧ k ∈ (dp_SeqNumber <$> q).

Definition wires (pkts : list DataPacket) : list Z := concat (DataPacket_Write <$> pkts).

Section Invariant.
Context (conf : Config) (n : nat).
Context (Hconf : conf_ok conf = true) (Hn : (0 < n <= 2)%nat).

(** A packet of the stream whose payloads are [payloads]. *)
Record pkt_ok (payloads : list (list Z)) (p : DataPacket) : Prop := {
  po_valid : DataPacket_valid p;
  po_type : dp_Type p = DATA_PACKET conf;
  po_len : zlen (dp_Payload p) <= DATA_PACKET_PAYLOAD_SIZE;
  po_payload : payloads !! Z.to_nat (dp_SeqNumber p) = Some (dp_Payload p);
}.

(** A path: the packets queued for it, those in transit, the bytes not yet
    read from its stream and the receiver's position in the first packet. *)
Definition in_transit (infl : list DataPacket) (pipe : list Z) (rv : receiver) : Prop :=
  match rv_pc rv with
  | RHeader => pipe = wires infl
  | RBody buf packetType packetLength i =>
      ∃ pk rest, infl = pk :: rest ∧ packetType = dp_Type pk ∧ packetLength = dp_Length pk ∧
        3 <= i < packetLength ∧ zlen buf = PACKET_SIZE conf ∧
        take (Z.to_nat i) buf = take (Z.to_nat i) (DataPacket_Write pk) ∧
        pipe = drop (Z.to_nat i) (DataPacket_Write pk) ++ wires rest
  end.

Record path_inv payloads (queue infl : list DataPacket) (pipe : list Z) (rv : receiver) : Prop := {
  pi_queue : Forall (pkt_ok payloads) queue;
  pi_infl : Forall (pkt_ok payloads) infl;
  pi_bytes : in_transit infl pipe rv;
}.

(** A session with [n] paths. *)
Record sess_ok (s : Session) : Prop := {
  so_queues : length (ss_sendBuffer s) = n;
  so_sent : length (ss_sentBytes s) = n;
  so_recv : length (ss_recvBytes s) = n;
  so_thr : length (ss_throughput s) = n;
  so_id : uint 32 (ss_SessionID s);
  so_sched : sched_inv (ss_scheduler s);
  so_paths : sc_numPath (ss_scheduler s) = Z.of_nat n;
}.

(** The bytes a running [Write] still has to send. *)
Definition unsent (w : option writer) : list Z :=
  match w with None => [] | Some w => drop (Z.to_nat (wr_start w)) (wr_buf w) end.

Definition writer_ok (w : option writer) : Prop :=
  match w with
  | None => True
  | Some w => 0 <= wr_start w <= zlen (wr_buf w) ∧
      (wr_pc w = WSend ∨ wr_pc w = WNotify bsChan → wr_start w < zlen (wr_buf w))
  end.

Record inv_at (N : Z) (payloads : list (list Z)) (infls : list (list DataPacket))
    (S : Z → Prop) (y : system) : Prop := {
  iv_snd : sess_ok (sy_snd y);
  iv_rcv : sess_ok (sy_rcv y);
  iv_seq : ss_sequenceNumber (sy_snd y) = zlen payloads;
  iv_bound : zlen payloads <= N;
  iv_written : sy_written y = concat payloads ++ unsent (sy_writer y);
  iv_writer : writer_ok (sy_writer y);
  iv_lens : length (sy_pipes y) = n ∧ length (sy_recvs y) = n ∧ length infls = n;
  iv_paths : ∀ p queue infl pipe rv,
    ss_sendBuffer (sy_snd y) !! p = Some queue → infls !! p = Some infl →
    sy_pipes y !! p = Some pipe → sy_recvs y !! p = Some rv →
    path_inv payloads queue infl pipe rv;
  iv_recv : rb_inv (f_of payloads) S (ss_recvBuffer (sy_rcv y)) (sy_read y);
  iv_pushed : ∀ k, S k → 0 <= k < zlen payloads;
  iv_all : ∀ k, 0 <= k < zlen payloads →
    S k ∨ carried k (ss_sendBuffer (sy_snd y)) ∨ carried k infls;
}.

Definition sys_inv (N : Z) (y : system) : Prop :=
  ∃ payloads infls S, inv_at N payloads infls S y.

Lemma conf_facts :
  uint 8 (DATA_PACKET conf) ∧ DATA_PACKET conf ≠ HELLO_PACKET conf ∧
  DATA_PACKET conf ≠ HELLO_ACK_PACKET conf ∧ 1036 <= PACKET_SIZE conf < 2 ^ 16.
Proof. unfold conf_ok in Hconf. apply bool_decide_eq_true in Hconf. tauto. Qed.

(** *** Packets and their bytes *)

Lemma pkt_ok_mono payloads x p : pkt_ok payloads p → pkt_ok (payloads ++ [x]) p.
Proof. intros [Hv Ht Hl Hp]. split; try done. by apply lookup_app_l_Some. Qed.

Lemma path_inv_mono payloads x queue infl pipe rv :
  path_inv payloads queue infl pipe rv → path_inv (payloads ++ [x]) queue infl pipe rv.
Proof.
  intros [Hq Hi Hb]. split; try done; (eapply Forall_impl; [done|apply pkt_ok_mono]).
Qed.

Lemma pkt_ok_length payloads p :
  pkt_ok payloads p →
  zlen (DataPacket_Write p) = dp_Length p ∧ 12 <= dp_Length p <= 1036 ∧
  take 3 (DataPacket_Write p) = dp_Type p :: WriteUint16 (dp_Length p).
Proof.
  intros [(_ & _ & _ & _ & _ & Hl) _ Hle _]. pose proof (zlen_nonneg (dp_Payload p)).
  unfold DATA_PACKET_HEADER_LEN, DATA_PACKET_PAYLOAD_SIZE in *. split_and!; [|lia..|done].
  rewrite Hl. unfold DataPacket_Write. rewrite !zlen_app. unfold zlen. simpl length. lia.
Qed.

Lemma wires_cons p ps : wires (p :: ps) = DataPacket_Write p ++ wires ps.
Proof. done. Qed.

Lemma wires_one p : wires [p] = DataPacket_Write p.
Proof. unfold wires. cbn [fmap list_fmap concat]. apply app_nil_r. Qed.

Lemma wires_app ps qs : wires (ps ++ qs) = wires ps ++ wires qs.
Proof. unfold wires. by rewrite fmap_app, concat_app. Qed.

Lemma wires_nil ps : wires ps = [] → ps = [].
Proof. by destruct ps. Qed.

(** *** The sending side *)

Lemma sendDataPacket_Ret s payload p :
  sess_ok s → 0 <= p < Z.of_nat n →
  ∃ queue, ss_sendBuffer s !! Z.to_nat p = Some queue ∧
    sendDataPacket conf s payload p =
      Ret (ss_set_send s (ss_sequenceNumber s) (ss_sentBytes s)
             (<[Z.to_nat p := queue ++ [CreateDataPacket conf (ss_SessionID s) p (ss_sequenceNumber s) payload]]>
                (ss_sendBuffer s))).
Proof.
  intros Hs Hp. pose proof (so_queues _ Hs).
  destruct (zget_is_Some (ss_sendBuffer s) p) as [queue Hq]; [unfold zlen; lia|].
  exists queue. split; [by apply zget_Some in Hq as [_ ?]|].
  unfold sendDataPacket. rewrite bool_decide_true by (unfold NUM_MUTEX; lia).
  rewrite (index_Ret _ _ _ Hq). simpl. rewrite set_index_Ret by (unfold zlen; lia). done.
Qed.

Lemma carried_insert k L p q x :
  L !! p = Some q → carried k L → carried k (<[p := q ++ x]> L).
Proof.
  intros Hq (p' & q' & Hq' & Hk). pose proof (lookup_lt_Some _ _ _ Hq).
  destruct (decide (p = p')) as [<-|Hne].
  - simplify_eq. exists p, (q ++ x). rewrite list_lookup_insert_eq by done. split; [done|].
    rewrite fmap_app. apply elem_of_app. by left.
  - exists p', q'. by rewrite list_lookup_insert_ne.
Qed.

Lemma carried_new L p q pk :
  L !! p = Some q → carried (dp_SeqNumber pk) (<[p := q ++ [pk]]> L).
Proof.
  intros Hq. exists p, (q ++ [pk]). rewrite list_lookup_insert_eq by (by eapply lookup_lt_Some).
  split; [done|]. rewrite fmap_app. apply elem_of_app. right. by apply list_elem_of_singleton.
Qed.

(** The part of [Write_step] that queues a payload. *)
Lemma Write_send_Ret s pend w now :
  sess_ok s → wr_pc w = WSend → 0 <= wr_start w < zlen (wr_buf w) →
  uint 32 (ss_sequenceNumber s) →
  ∃ p payload queue s' w',
    0 <= p < Z.of_nat n ∧ ss_sendBuffer s !! Z.to_nat p = Some queue ∧
    Write_step conf now s pend w = Ret (s', pend, inl w') ∧ sess_ok s' ∧
    ss_sequenceNumber s' = u32 (ss_sequenceNumber s + 1) ∧
    ss_sendBuffer s' = <[Z.to_nat p := queue ++ [CreateDataPacket conf (ss_SessionID s) p
                                                   (ss_sequenceNumber s) payload]]> (ss_sendBuffer s) ∧
    zlen payload <= DATA_PACKET_PAYLOAD_SIZE ∧
    unsent (Some w) = payload ++ unsent (Some w') ∧ writer_ok (Some w').
Proof.
  intros Hs Hpc Hst Hseq. pose proof Hs as [Hq Hsent Hrecv Hthr Hid Hsch Hnp].
  unfold Write_step. rewrite Hpc.
  set (e := if _ <? _ then _ else zlen (wr_buf w)).
  assert (wr_start w < e <= zlen (wr_buf w) ∧ e - wr_start w <= DATA_PACKET_PAYLOAD_SIZE) as [He Hle].
  { unfold e, DATA_PACKET_PAYLOAD_SIZE. destruct (Z.ltb_spec (wr_start w + 1024) (zlen (wr_buf w))); lia. }
  destruct (Scheduling_inv (ss_scheduler s) (u32 (e - wr_start w))) as
    (p & c' & -> & Hc' & Hp & Hn' & Hw'); [done|lia|].
  cbn [mbind outcome_bind]. unfold slice. rewrite bool_decide_true by lia. cbn [mbind outcome_bind].
  set (payload := zslice (wr_buf w) (wr_start w) e).
  destruct (sendDataPacket_Ret (ss_set_scheduler s c') payload p) as (queue & Hqueue & ->);
    [split; simpl; try done; lia|lia|].
  cbn [mbind outcome_bind]. simpl in Hqueue.
  destruct (zget_is_Some (ss_sentBytes s) p) as [sent Hsp]; [unfold zlen; lia|].
  simpl. rewrite (index_Ret _ _ _ Hsp). simpl. rewrite set_index_Ret by (unfold zlen; lia). simpl.
  eexists p, payload, queue, _, _. split_and!; [lia|lia|done|done| |done|done| | |..].
  - split; simpl; rewrite ?length_insert; try done. lia.
  - unfold payload, zslice, zlen in *. rewrite length_take, length_drop. lia.
  - unfold payload, zslice. simpl.
    rewrite <-(take_drop (Z.to_nat e - Z.to_nat (wr_start w)) (drop (Z.to_nat (wr_start w)) (wr_buf w))) at 1.
    f_equal. rewrite drop_drop. f_equal. lia.
  - simpl. lia.
  - simpl. lia.
  - cbn [wr_pc]. intros [?|?]; discriminate.
Qed.

(** Changes that concern neither the packets nor the bytes left to send. *)
Lemma inv_at_snd N payloads infls S y snd wr pend :
  inv_at N payloads infls S y → sess_ok snd →
  ss_sequenceNumber snd = ss_sequenceNumber (sy_snd y) →
  ss_sendBuffer snd = ss_sendBuffer (sy_snd y) →
  unsent wr = unsent (sy_writer y) → writer_ok wr →
  inv_at N payloads infls S
    {| sy_snd := snd; sy_rcv := sy_rcv y; sy_pipes := sy_pipes y; sy_recvs := sy_recvs y;
       sy_writer := wr; sy_pending := pend; sy_written := sy_written y; sy_read := sy_read y |}.
Proof.
  intros [] Hs Hseq Hsb Hun Hw. split; simpl; rewrite ?Hseq, ?Hsb, ?Hun; done.
Qed.

Lemma sess_ok_sched s c :
  sess_ok s → sched_inv c → sc_numPath c = Z.of_nat n → sess_ok (ss_set_scheduler s c).
Proof. intros []. by split. Qed.

Lemma sess_ok_monitor s m : sess_ok s → sess_ok (ss_set_monitor s m).
Proof. intros Hs. apply sess_ok_sched; [done| |by destruct Hs]. destruct Hs as [? ? ? ? ? [] ?]. by split. Qed.

Lemma inv_at_weaken N N' payloads infls S y :
  inv_at N payloads infls S y → N <= N' → inv_at N' payloads infls S y.
Proof. intros [] Hle. split; try done. lia. Qed.

Lemma CreateDataPacket_pkt_ok payloads id p payload :
  uint 32 id → zlen payloads < 2 ^ 32 → zlen payload <= DATA_PACKET_PAYLOAD_SIZE →
  pkt_ok (payloads ++ [payload]) (CreateDataPacket conf id p (zlen payloads) payload).
Proof.
  intros Hid Hlt Hpl. destruct conf_facts as (Ht & _). unfold DATA_PACKET_PAYLOAD_SIZE in *.
  split; simpl; try done.
  - apply CreateDataPacket_valid; try done; [|lia]. split; [apply zlen_nonneg|done].
  - unfold zlen. rewrite Nat2Z.id. by rewrite lookup_app_r, Nat.sub_diag.
Qed.

(** A payload is queued. *)
Lemma inv_at_queue N payloads infls S y p payload queue snd w :
  inv_at N payloads infls S y → N < 2 ^ 32 - 1 →
  ss_sendBuffer (sy_snd y) !! p = Some queue → sess_ok snd →
  ss_sequenceNumber snd = u32 (ss_sequenceNumber (sy_snd y) + 1) →
  let pk := CreateDataPacket conf (ss_SessionID (sy_snd y)) (Z.of_nat p)
              (ss_sequenceNumber (sy_snd y)) payload in
  ss_sendBuffer snd = <[p := queue ++ [pk]]> (ss_sendBuffer (sy_snd y)) →
  zlen payload <= DATA_PACKET_PAYLOAD_SIZE →
  unsent (sy_writer y) = payload ++ unsent w → writer_ok w →
  inv_at (N + 1) (payloads ++ [payload]) infls S
    {| sy_snd := snd; sy_rcv := sy_rcv y; sy_pipes := sy_pipes y; sy_recvs := sy_recvs y;
       sy_writer := w; sy_pending := sy_pending y; sy_written := sy_written y; sy_read := sy_read y |}.
Proof.
  intros [Hsnd Hrcv Hseq Hb Hwr Hw Hlens Hp Hr Hpu Hall] HN Hq Hs Hseq' pk Hsb Hpl Hun Hwok.
  assert (zlen (payloads ++ [payload]) = zlen payloads + 1) as Hlen by (rewrite zlen_app; done).
  pose proof (zlen_nonneg payloads). pose proof (lookup_lt_Some _ _ _ Hq).
  split; simpl; try done.
  - rewrite Hseq', Hseq, Hlen. apply wrap_small. unfold uint. lia.
  - lia.
  - rewrite Hwr, Hun, concat_app. simpl. by rewrite app_nil_r, <-app_assoc.
  - rewrite Hsb. intros p' q' infl pipe rv Hq' Hi Hpi Hrv.
    apply list_lookup_insert_Some in Hq' as [(<- & <- & _)|[Hne Hq']].
    + destruct (Hp _ _ _ _ _ Hq Hi Hpi Hrv) as [HQ HI HB]. split; [| |done].
      * apply Forall_app. split; [by eapply Forall_impl; [|apply pkt_ok_mono]|].
        constructor; [|done]. unfold pk. rewrite Hseq.
        apply CreateDataPacket_pkt_ok; try done; [|lia]. by destruct Hsnd.
      * by eapply Forall_impl; [|apply pkt_ok_mono].
    + apply path_inv_mono. by eapply Hp.
  - eapply rb_inv_payloads; [|done]. intros k Hk%Hpu. unfold f_of.
    rewrite lookup_app_l by (unfold zlen in Hk; lia). done.
  - intros k Hk%Hpu. lia.
  - rewrite Hsb. intros k Hk. destruct (decide (k = zlen payloads)) as [->|].
    + right. left. rewrite <-Hseq. by apply (carried_new _ _ _ pk).
    + destruct (Hall k) as [|[|]]; [lia|auto| |auto]. right. left. by apply carried_insert.
Qed.

Lemma Write_step_inv N y w now :
  sys_inv N y → N < 2 ^ 32 - 1 → sy_writer y = Some w →
  ∃ y', sys_step conf y (LWriter now) = Ret y' ∧ sys_inv (N + 1) y'.
Proof.
  intros (payloads & infls & S & Hinv) HN Hwr. pose proof Hinv as [Hsnd _ Hseq Hb _ Hw _ _ _ _ _].
  destruct y as [snd rcv pipes recvs wr pend written rd]. simpl in Hwr, Hsnd, Hseq, Hw. subst wr.
  cbn [sys_step sy_snd sy_rcv sy_pipes sy_recvs sy_writer sy_pending sy_written sy_read]. simpl in Hw. destruct Hw as [Hst Hpc].
  assert (∀ snd' pend' wr', sess_ok snd' → ss_sequenceNumber snd' = ss_sequenceNumber snd →
    ss_sendBuffer snd' = ss_sendBuffer snd → unsent wr' = unsent (Some w) → writer_ok wr' →
    sys_inv (N + 1) {| sy_snd := snd'; sy_rcv := rcv; sy_pipes := pipes; sy_recvs := recvs;
      sy_writer := wr'; sy_pending := pend'; sy_written := written; sy_read := rd |}) as Hnop.
  { intros snd' pend' wr' H1 H2 H3 H4 H5. eexists _, _, _.
    apply (inv_at_weaken N); [|lia]. by apply (inv_at_snd _ _ _ _ _ snd' wr' pend' Hinv). }
  unfold Write_step. destruct (wr_pc w) as [|ch| |m] eqn:Epc.
  - destruct (Z.ltb_spec (wr_start w) (zlen (wr_buf w))).
    + destruct (wr_pType w =? 14); simpl; (eexists; split; [done|]); apply Hnop; simpl;
        auto using sess_ok_monitor.
    + simpl. eexists; split; [done|]. apply Hnop; try done. simpl.
      rewrite drop_ge; [done|]. unfold zlen in *. lia.
  - destruct pend as [ch'|]; simpl; (eexists; split; [done|]); apply Hnop; try done; simpl; auto.
    + split; [done|]. by rewrite Epc.
    + split; [done|]. destruct ch; simpl; intros [?|?]; try discriminate. apply Hpc. auto.
  - assert (wr_start w < zlen (wr_buf w)) as Hlt by (apply Hpc; auto).
    destruct (Write_send_Ret snd pend w now) as (p & payload & queue & snd' & w' & Hp & Hq & Hstep & Hs' & Hseq' & Hsb & Hpl & Hun & Hw');
      [done..|lia| |]. { rewrite Hseq. split; [apply zlen_nonneg|lia]. }
    unfold Write_step in Hstep. rewrite Epc in Hstep. rewrite Hstep. simpl.
    eexists. split; [done|]. eexists _, _, _.
    eapply (inv_at_queue _ _ _ _ _ (Z.to_nat p) payload queue snd' (Some w') Hinv); try done.
    simpl. rewrite Z2Nat.id by lia. done.
  - destruct (wr_pType w =? 14).
    + destruct (computeThroughput _ _ _ _) as [m' note] eqn:Eth. simpl. eexists; split; [done|].
      apply Hnop; auto using sess_ok_monitor. simpl. split; [done|].
      apply computeThroughput_note in Eth as [->| ->]; intros [?|?]; discriminate.
    + simpl. eexists; split; [done|]. apply Hnop; auto. simpl. split; [done|].
      intros [?|?]; discriminate.
Qed.

(** *** Transmission *)

Lemma in_transit_app infl pipe rv pk :
  in_transit infl pipe rv → in_transit (infl ++ [pk]) (pipe ++ DataPacket_Write pk) rv.
Proof.
  unfold in_transit. destruct (rv_pc rv) as [|buf ty len i].
  - intros ->. by rewrite wires_app, wires_one.
  - intros (pk' & rest & -> & Hty & Hlen & Hi & Hbuf & Htake & ->).
    exists pk', (rest ++ [pk]). split_and!; try done; try lia.
    by rewrite wires_app, wires_one, <-app_assoc.
Qed.

Lemma carried_move k L M p pk q infl :
  L !! p = Some (pk :: q) → M !! p = Some infl →
  carried k L ∨ carried k M → carried k (<[p := q]> L) ∨ carried k (<[p := infl ++ [pk]]> M).
Proof.
  intros HL HM [(p' & q' & Hq' & Hk)|HkM]; [|right; by apply carried_insert].
  destruct (decide (p = p')) as [<-|Hne].
  - simplify_eq. rewrite fmap_cons in Hk. apply elem_of_cons in Hk as [->|Hk].
    + right. by apply carried_new.
    + left. exists p, q. rewrite list_lookup_insert_eq by (by eapply lookup_lt_Some). done.
  - left. exists p', q'. by rewrite list_lookup_insert_ne.
Qed.

Lemma sess_ok_send s seq sent sb :
  sess_ok s → length sent = n → length sb = n → sess_ok (ss_set_send s seq sent sb).
Proof. intros []. by split. Qed.

Lemma transmit_inv N y p :
  sys_inv N y → ∃ y', sys_step conf y (LTransmit p) = Ret y' ∧ sys_inv N y'.
Proof.
  intros (payloads & infls & S & Hinv).
  pose proof Hinv as [Hsnd Hrcv Hseq Hb Hwr Hw (Hl1 & Hl2 & Hl3) Hp Hr Hpu Hall].
  assert (sys_inv N y) as Hsame by (by exists payloads, infls, S).
  destruct y as [snd rcv pipes recvs wr pend written rd]; simpl in *.
  destruct (zget pipes p) as [pipe|] eqn:Epipe; [|eauto].
  apply zget_Some in Epipe as [Hpr Epipe]. pose proof (so_queues _ Hsnd) as Hsbl. unfold zlen in Hpr.
  destruct (zget_is_Some (ss_sendBuffer snd) p) as [queue Equeue]; [unfold zlen; lia|].
  unfold dataPacketTransmitter. rewrite (index_Ret _ _ _ Equeue). simpl.
  destruct queue as [|pk queue]; [by eauto|]. rewrite bool_decide_true by (unfold NUM_MUTEX; lia).
  rewrite set_index_Ret by (unfold zlen; lia). simpl. eexists. split; [done|].
  apply zget_Some in Equeue as [_ Equeue].
  destruct (lookup_lt_is_Some_2 infls (Z.to_nat p)) as [infl Einfl]; [lia|].
  exists payloads, (<[Z.to_nat p := infl ++ [pk]]> infls), S.
  split; simpl; rewrite ?length_insert; try done.
  - apply sess_ok_send; [done|by destruct Hsnd|by rewrite length_insert].
  - intros p' q' i' pi' rv' Hq' Hi' Hpi' Hrv'. destruct (decide (Z.to_nat p = p')) as [<-|Hne].
    + rewrite list_lookup_insert_eq in Hq' by lia. rewrite list_lookup_insert_eq in Hi' by lia.
      rewrite list_lookup_insert_eq in Hpi' by lia. simplify_eq.
      destruct (Hp _ _ _ _ _ Equeue Einfl Epipe Hrv') as [[Hpk HQ]%Forall_cons_1 HI HB].
      split; [done| |by apply in_transit_app]. apply Forall_app. split; [done|by apply Forall_cons_2].
    + rewrite list_lookup_insert_ne in Hq' by done. rewrite list_lookup_insert_ne in Hi' by done.
      rewrite list_lookup_insert_ne in Hpi' by done. by eapply Hp.
  - intros k Hk. destruct (Hall k Hk) as [|Hc]; [auto|]. right. by apply carried_move.
Qed.

(** *** Reception *)

Lemma conf_dispatch s p pk buf rest payloads :
  pkt_ok payloads pk → sess_ok s → 0 <= p < Z.of_nat n →
  buf = DataPacket_Write pk ++ rest →
  ∃ recv, length recv = n ∧
    receiver_dispatch conf s p (dp_Type pk) buf =
      Ret (ss_set_recv s recv (ss_throughput s) (PushPacket (ss_recvBuffer s) pk) (ss_goodbye s)).
Proof.
  intros Hpk Hs Hp ->. destruct conf_facts as (_ & Hh & Ha & _). pose proof (so_recv _ Hs) as Hrl.
  unfold receiver_dispatch. rewrite (po_type _ _ Hpk).
  rewrite (proj2 (Z.eqb_neq _ _) Hh), (proj2 (Z.eqb_neq _ _) Ha), Z.eqb_refl.
  rewrite ParseDataPacket_Write by apply (po_valid _ _ Hpk).
  simpl. destruct (zget_is_Some (ss_recvBytes s) p) as [x Hx]; [unfold zlen; lia|].
  rewrite (index_Ret _ _ _ Hx). simpl. rewrite set_index_Ret by (unfold zlen; lia). simpl.
  eexists. split; swap 1 2; [done|]. simpl. by rewrite length_insert.
Qed.

Lemma sess_ok_recv s recv thr b g :
  sess_ok s → length recv = n → length thr = n → sess_ok (ss_set_recv s recv thr b g).
Proof. intros []. by split. Qed.

(** A [stream.Read] into [buf[i:i+n]] in the middle of the bytes [W]. *)
Lemma StreamRead_copy W tail buf (i k n' : nat) :
  let m := Nat.min (Nat.max 1 k) n' in
  (i + n' <= length W)%nat → (length W <= length buf)%nat → take i buf = take i W →
  ∃ got buf', StreamRead (drop i W ++ tail) k n' = (got, drop (i + m) W ++ tail) ∧
    zlen got = Z.of_nat m ∧
    copy_to buf (Z.of_nat i) (Z.of_nat (i + n')) got = Ret buf' ∧
    take (i + m) buf' = take (i + m) W ∧ length buf' = length buf.
Proof.
  intros m HW Hbuf Htake. exists (take m (drop i W)), (splice buf i (take m (drop i W))).
  assert (length (take m (drop i W)) = m) as Hm by (rewrite length_take, length_drop; lia).
  unfold StreamRead. fold m. split_and!.
  - rewrite take_app_le by (rewrite length_drop; lia).
    rewrite drop_app_le by (rewrite length_drop; lia). by rewrite drop_drop.
  - unfold zlen. by rewrite Hm.
  - unfold copy_to. rewrite bool_decide_true by (unfold zlen; lia). rewrite Nat2Z.id. do 2 f_equal.
    apply take_ge. lia.
  - unfold splice. rewrite Htake, app_assoc, take_app_exact.
    + apply take_take_drop.
    + rewrite length_app, length_take, Hm. lia.
  - apply length_splice. lia.
Qed.

Definition step_result (infl : list DataPacket) (s : Session)
    (o : outcome (Session * receiver * list Z)) : Prop :=
  ∃ s' rv' pipe' infl', o = Ret (s', rv', pipe') ∧ sess_ok s' ∧ in_transit infl' pipe' rv' ∧
    (infl' = infl ∧ ss_recvBuffer s' = ss_recvBuffer s ∨
     ∃ pk, infl = pk :: infl' ∧ ss_recvBuffer s' = PushPacket (ss_recvBuffer s) pk).

Lemma receiver_header_inv payloads s p rv pk rest k elapsed :
  sess_ok s → pkt_ok payloads pk → rv_pc rv = RHeader → (3 <= k)%nat →
  step_result (pk :: rest) s (receiver_step conf s p rv (wires (pk :: rest)) k elapsed).
Proof.
  intros Hs Hpk Epc Hk. destruct conf_facts as (_ & _ & _ & Hps).
  destruct (pkt_ok_length _ _ Hpk) as (HW & Hlen & Hhd). rewrite wires_cons.
  set (W := DataPacket_Write pk) in *. unfold receiver_step. rewrite Epc.
  rewrite bool_decide_true by lia.
  rewrite bool_decide_false by (by destruct W).
  change (W ++ wires rest) with (drop 0 W ++ wires rest).
  destruct (StreamRead_copy W (wires rest) (replicate (Z.to_nat (PACKET_SIZE conf)) 0) 0 k 3)
    as (got & buf & -> & Hgot & Hcopy & Htake & Hbuf);
    [unfold zlen in HW; lia|rewrite length_replicate; unfold zlen in HW; lia|done|].
  replace (0 + Nat.min (Nat.max 1 k) 3)%nat with 3%nat in * by lia.
  change (Z.of_nat 0) with 0 in Hcopy. change (Z.of_nat (0 + 3)) with 3 in Hcopy.
  rewrite Hcopy. cbn [mbind outcome_bind]. rewrite Htake, Hhd, ReadByte_cons. cbn [mbind outcome_bind].
  rewrite <-(app_nil_r (WriteUint16 _)), ReadUint16_Write by (by destruct Hpk as [(_ & ? & _) _ _ _]).
  cbn [mbind outcome_bind]. unfold receiver_continue. rewrite (proj2 (Z.eqb_neq _ _)) by lia.
  cbn [mbind outcome_bind]. eexists _, _, _, _. split; [done|]. split; [done|]. split; [|by left].
  unfold in_transit. simpl rv_pc. cbv iota. exists pk, rest. split_and!; try done; try lia.
  unfold zlen. rewrite Hbuf, length_replicate. lia.
Qed.

Lemma receiver_body_inv payloads s p rv buf pk rest i k elapsed :
  sess_ok s → 0 <= p < Z.of_nat n → pkt_ok payloads pk →
  rv_pc rv = RBody buf (dp_Type pk) (dp_Length pk) i →
  3 <= i < dp_Length pk → zlen buf = PACKET_SIZE conf →
  take (Z.to_nat i) buf = take (Z.to_nat i) (DataPacket_Write pk) →
  step_result (pk :: rest) s
    (receiver_step conf s p rv (drop (Z.to_nat i) (DataPacket_Write pk) ++ wires rest) k elapsed).
Proof.
  intros Hs Hp Hpk Epc Hi Hbl Htk. destruct conf_facts as (_ & _ & _ & Hps).
  destruct (pkt_ok_length _ _ Hpk) as (HW & Hlen & _). set (W := DataPacket_Write pk) in *.
  unfold receiver_step. rewrite Epc. rewrite bool_decide_true by lia.
  rewrite bool_decide_false.
  2:{ intros [Hd _]%app_nil. apply (f_equal length) in Hd. rewrite length_drop in Hd.
      unfold zlen in HW. cbn [length] in Hd. lia. }
  destruct (StreamRead_copy W (wires rest) buf (Z.to_nat i) k (Z.to_nat (dp_Length pk - i)))
    as (got & buf' & -> & Hgot & Hcopy & Htake & Hbuf); [unfold zlen in *; lia..|done|].
  set (m := Nat.min (Nat.max 1 k) _) in *.
  replace (Z.of_nat (Z.to_nat i)) with i in Hcopy by lia.
  replace (Z.of_nat (Z.to_nat i + Z.to_nat (dp_Length pk - i))) with (dp_Length pk) in Hcopy by lia.
  rewrite Hcopy. cbn [mbind outcome_bind]. rewrite Hgot. unfold receiver_continue.
  destruct (Z.eqb_spec (i + Z.of_nat m) (dp_Length pk)) as [Heq|Hne].
  - unfold receiver_packet. pose proof (so_thr _ Hs).
    rewrite set_index_Ret by (unfold zlen; lia). cbn [mbind outcome_bind].
    rewrite take_ge with (l := W) in Htake by (unfold zlen in HW; lia).
    match goal with |- context [receiver_dispatch _ ?s' _ _ _] =>
      destruct (conf_dispatch s' p pk buf' (drop (Z.to_nat i + m) buf') payloads)
        as (recv & Hrl & ->) end; try done.
    { apply sess_ok_recv; [done|by destruct Hs|]. by rewrite length_insert. }
    { fold W. by rewrite <-Htake, take_drop. }
    cbn [mbind outcome_bind]. eexists _, _, _, rest. split; [done|].
    split; [|split; [|right; by exists pk]].
    + apply sess_ok_recv; [|done|]; simpl; rewrite ?length_insert; [|by destruct Hs].
      apply sess_ok_recv; [done|by destruct Hs|]. by rewrite length_insert.
    + unfold in_transit. simpl rv_pc. cbv iota. rewrite drop_ge; [done|]. unfold zlen in HW. lia.
  - cbn [mbind outcome_bind]. eexists _, _, _, (pk :: rest). split; [done|].
    split; [done|]. split; [|by left]. unfold in_transit. simpl rv_pc. cbv iota. exists pk, rest.
    replace (Z.to_nat (i + Z.of_nat m)) with (Z.to_nat i + m)%nat by lia.
    split_and!; try done; try lia. unfold zlen in *. by rewrite Hbuf.
Qed.

(** A receiver step on a path keeps the path's invariant, and either leaves
    the receive buffer alone or pushes the first packet in transit. *)
Lemma receiver_step_inv payloads s p rv pipe infl k elapsed :
  sess_ok s → 0 <= p < Z.of_nat n → Forall (pkt_ok payloads) infl →
  in_transit infl pipe rv → (at_header rv = true → (3 <= k)%nat) →
  step_result infl s (receiver_step conf s p rv pipe k elapsed).
Proof.
  intros Hs Hp HI HT Hk. destruct conf_facts as (_ & _ & _ & Hps).
  pose proof HT as HT'. unfold in_transit in HT. unfold at_header in Hk.
  destruct (rv_pc rv) as [|buf ty len i] eqn:Epc.
  - destruct infl as [|pk rest].
    { subst pipe. unfold receiver_step. rewrite Epc, !bool_decide_true by (done || lia).
      eexists _, _, _, []. split; [done|]. split_and!; auto. }
    subst pipe. apply Forall_cons_1 in HI as [Hpk _]. apply (receiver_header_inv payloads); auto.
  - destruct HT as (pk & rest & -> & -> & -> & Hi & Hb & Htk & ->).
    apply Forall_cons_1 in HI as [Hpk _]. by apply (receiver_body_inv payloads _ _ _ buf).
Qed.

Lemma carried_head k L p pk q :
  L !! p = Some (pk :: q) → carried k L → k = dp_SeqNumber pk ∨ carried k (<[p := q]> L).
Proof.
  intros HL (p' & q' & Hq' & Hk). destruct (decide (p = p')) as [<-|Hne].
  - simplify_eq. rewrite fmap_cons in Hk. apply elem_of_cons in Hk as [->|Hk]; [by left|].
    right. exists p, q. rewrite list_lookup_insert_eq by (by eapply lookup_lt_Some). done.
  - right. exists p', q'. by rewrite list_lookup_insert_ne.
Qed.

Lemma pkt_ok_of_stream payloads pk :
  pkt_ok payloads pk → zlen payloads <= 2 ^ 32 - 1 →
  of_stream (f_of payloads) pk ∧ dp_SeqNumber pk < zlen payloads.
Proof.
  intros [(_ & _ & _ & _ & Hs & _) _ _ Hp] Hl. apply lookup_lt_Some in Hp as Hlt.
  unfold of_stream, f_of. rewrite Hp. unfold uint, zlen in *. split; [split; [|done]|]; lia.
Qed.

(** Replacing path [p]'s components in the invariant of the paths. *)
Lemma paths_insert payloads (sb infls : list (list DataPacket)) (pipes : list (list Z))
    (recvs : list receiver) p infl' pipe' rv' :
  (∀ p queue infl pipe rv, sb !! p = Some queue → infls !! p = Some infl →
     pipes !! p = Some pipe → recvs !! p = Some rv → path_inv payloads queue infl pipe rv) →
  (∀ queue, sb !! p = Some queue → path_inv payloads queue infl' pipe' rv') →
  ∀ p' queue infl pipe rv, sb !! p' = Some queue → <[p := infl']> infls !! p' = Some infl →
     <[p := pipe']> pipes !! p' = Some pipe → <[p := rv']> recvs !! p' = Some rv →
     path_inv payloads queue infl pipe rv.
Proof.
  intros Hall Hp p' queue infl pipe rv Hq Hi Hpi Hrv.
  apply list_lookup_insert_Some in Hi as [(<- & <- & _)|[Hne Hi]].
  - apply list_lookup_insert_Some in Hpi as [(_ & <- & _)|[? _]]; [|done].
    apply list_lookup_insert_Some in Hrv as [(_ & <- & _)|[? _]]; [|done]. auto.
  - rewrite list_lookup_insert_ne in Hpi by done. rewrite list_lookup_insert_ne in Hrv by done. eauto.
Qed.

Lemma receive_inv N y p pipe rv k elapsed :
  sys_inv N y → N <= 2 ^ 32 - 1 → zget (sy_pipes y) p = Some pipe → zget (sy_recvs y) p = Some rv →
  (at_header rv = true → (3 <= k)%nat) →
  ∃ y', receive conf y p pipe rv k elapsed = Ret y' ∧ sys_inv N y'.
Proof.
  intros (payloads & infls & S & Hinv) HN [Hpr Epipe]%zget_Some [_ Erv]%zget_Some Hk.
  pose proof Hinv as [Hsnd Hrcv Hseq Hb Hwr Hw (Hl1 & Hl2 & Hl3) Hp Hr Hpu Hall].
  unfold zlen in Hpr. pose proof (so_queues _ Hsnd).
  destruct (lookup_lt_is_Some_2 infls (Z.to_nat p)) as [infl Einfl]; [lia|].
  destruct (lookup_lt_is_Some_2 (ss_sendBuffer (sy_snd y)) (Z.to_nat p)) as [queue Equeue]; [lia|].
  destruct (Hp _ _ _ _ _ Equeue Einfl Epipe Erv) as [HQ HI HB].
  destruct (receiver_step_inv payloads (sy_rcv y) p rv pipe infl k elapsed)
    as (s' & rv' & pipe' & infl' & Hstep & Hs' & HB' & Hres); [done|lia|done..|].
  unfold receive. rewrite Hstep. cbn [mbind outcome_bind]. eexists. split; [done|].
  assert (Forall (pkt_ok payloads) infl') as HI'.
  { destruct Hres as [[-> _]|(pk & -> & _)]; [done|]. by apply Forall_cons_1 in HI as [_ ?]. }
  pose proof (paths_insert payloads _ _ _ _ (Z.to_nat p) infl' pipe' rv' Hp) as Hp'.
  destruct Hres as [[-> Hrb]|(pk & -> & Hrb)].
  - exists payloads, (<[Z.to_nat p := infl]> infls), S.
    split; simpl; rewrite ?length_insert, ?Hrb; try done.
    + apply Hp'. intros q Hq. simplify_eq. by split.
    + by rewrite list_insert_id.
  - apply Forall_cons_1 in HI as [Hpk _].
    destruct (pkt_ok_of_stream payloads pk Hpk) as [Hof Hlt]; [lia|].
    exists payloads, (<[Z.to_nat p := infl']> infls), (λ k, S k ∨ k = dp_SeqNumber pk).
    split; simpl; rewrite ?length_insert, ?Hrb; try done.
    + apply Hp'. intros q Hq. simplify_eq. by split.
    + by apply PushPacket_inv.
    + intros j [?| ->]; [auto|]. destruct Hof as [? _]. lia.
    + intros j Hj. destruct (Hall j Hj) as [|[|Hc]]; auto.
      apply (carried_head _ _ _ _ _ Einfl) in Hc as [|]; auto.
Qed.

Lemma read_inv N y bs b :
  sys_inv N y → (∀ k, RecvBuffer_Read (ss_recvBuffer (sy_rcv y)) k = (bs, b) →
  sys_inv N {| sy_snd := sy_snd y;
    sy_rcv := ss_set_recv (sy_rcv y) (ss_recvBytes (sy_rcv y)) (ss_throughput (sy_rcv y)) b
                (ss_goodbye (sy_rcv y));
    sy_pipes := sy_pipes y; sy_recvs := sy_recvs y; sy_writer := sy_writer y;
    sy_pending := sy_pending y; sy_written := sy_written y; sy_read := sy_read y ++ bs |}).
Proof.
  intros (payloads & infls & S & []) k HR. exists payloads, infls, S. split; simpl; try done.
  - by apply sess_ok_recv; [|destruct iv_rcv0..].
  - by eapply RecvBuffer_Read_inv.
Qed.

Lemma sys_step_inv N y l :
  sys_inv N y → N < 2 ^ 32 - 1 → header_whole l = true →
  ∃ y', sys_step conf y l = Ret y' ∧ sys_inv (N + 1) y'.
Proof.
  intros Hinv HN Hl.
  assert (∀ y, sys_inv N y → sys_inv (N + 1) y) as Hweak.
  { intros y' (pl & i & S & H). exists pl, i, S. eapply inv_at_weaken; [done|lia]. }
  destruct l as [buf pType|now| |p|p k e|p k e|k|k size].
  - destruct y as [snd rcv pipes recvs [w|] pend written rd]; simpl; (eexists; split; [done|auto]).
    destruct Hinv as (pl & i & S & []). exists pl, i, S. split; simpl in *; try done; try lia.
    + rewrite iv_written0. by rewrite app_nil_r.
    + split; [pose proof (zlen_nonneg buf); lia|]. intros [?|?]; discriminate.
  - destruct (sy_writer y) as [w|] eqn:Ew; [by eapply Write_step_inv|].
    exists y. split; [|auto]. simpl. by rewrite Ew.
  - destruct (sy_pending y) as [ch|] eqn:Ep.
    2:{ exists y. split; [|auto]. simpl. by rewrite Ep. }
    destruct Hinv as (pl & i & S & Hinv). pose proof (iv_snd _ _ _ _ _ Hinv) as Hsnd.
    destruct (startMonitoring_inv conf (ss_scheduler (sy_snd y)) ch) as (c & Hc & Hci & Hcn & _);
      [by destruct Hsnd|].
    eexists. split; [simpl; rewrite Ep; simpl; rewrite Hc; done|].
    apply Hweak. exists pl, i, S. pose proof (iv_writer _ _ _ _ _ Hinv).
    refine (inv_at_snd _ _ _ _ y _ _ _ Hinv _ _ _ _ _); try done.
    apply sess_ok_sched; [done..|]. rewrite Hcn. by destruct Hsnd.
  - destruct (transmit_inv N y p Hinv) as (y' & ? & ?). eauto.
  - destruct (zget (sy_pipes y) p) as [pipe|] eqn:Epi, (zget (sy_recvs y) p) as [rv|] eqn:Erv.
    2-4: exists y; split; [|auto]; simpl; rewrite ?Epi, ?Erv; done.
    destruct (at_header rv) eqn:Eh.
    2:{ exists y; split; [|auto]; simpl; rewrite ?Epi, ?Erv, ?Eh; done. }
    destruct (receive_inv N y p pipe rv k e) as (y' & Hy' & Hi'); try done; [lia| |].
    { intros _. by apply Nat.leb_le. }
    exists y'; split; [|auto]. simpl. by rewrite Epi, Erv, Eh.
  - destruct (zget (sy_pipes y) p) as [pipe|] eqn:Epi, (zget (sy_recvs y) p) as [rv|] eqn:Erv.
    2-4: exists y; split; [|auto]; simpl; rewrite ?Epi, ?Erv; done.
    destruct (at_header rv) eqn:Eh.
    { exists y; split; [|auto]; simpl; rewrite ?Epi, ?Erv, ?Eh; done. }
    destruct (receive_inv N y p pipe rv k e) as (y' & Hy' & Hi'); try done; [lia|congruence|].
    exists y'; split; [|auto]. simpl. by rewrite Epi, Erv, Eh.
  - destruct (Read (sy_rcv y) k) as [[bs rcv]|] eqn:ER.
    2:{ exists y. split; [|auto]. simpl. by rewrite ER. }
    eexists. split; [simpl; rewrite ER; done|]. apply Hweak.
    unfold Read in ER. destruct (_ || _); [|done].
    destruct (RecvBuffer_Read _ k) as [bs' b] eqn:ERb. simplify_eq. by eapply read_inv.
  - destruct (ReadWithSize (sy_rcv y) k size) as [[bs rcv]|] eqn:ER.
    2:{ exists y. split; [|auto]. simpl. by rewrite ER. }
    eexists. split; [simpl; rewrite ER; done|]. apply Hweak.
    unfold ReadWithSize in ER. destruct (_ || _); [|done].
    destruct (RecvBuffer_Read _ k) as [bs' b] eqn:ERb. simplify_eq. by eapply read_inv.
Qed.
End Invariant.

(** ** Runs from a connected session *)

Lemma sys_run_inv conf n ls y N :
  conf_ok conf = true → (0 < n <= 2)%nat → sys_inv conf n N y →
  forallb header_whole ls = true → N + zlen ls < 2 ^ 32 →
  ∃ y', sys_run conf y ls = Ret y' ∧ sys_inv conf n (N + zlen ls) y'.
Proof.
  intros Hc Hn. revert y N. induction ls as [|l ls IH]; intros y N Hy Hh HN.
  { exists y. split; [done|]. by rewrite Z.add_0_r. }
  simpl in Hh. apply andb_prop in Hh as [Hl Hh].
  assert (zlen (l :: ls) = 1 + zlen ls) as Hlen by (unfold zlen; simpl length; lia).
  pose proof (zlen_nonneg ls).
  destruct (sys_step_inv conf n Hc Hn N y l) as (y' & Hs & Hy'); [done|lia|done|].
  simpl. rewrite Hs. simpl. rewrite Hlen, Z.add_assoc. apply IH; [done|done|lia].
Qed.

Lemma add_streams_ok conf now since id n :
  uint 32 id → (n <= length (CONFIG_USER_WRR_WEIGHT conf))%nat →
  ∃ s, add_streams (CreateSession conf now since id []) n = Ret s ∧ sess_ok n s ∧
    ss_numPath s = Z.of_nat n ∧ ss_sequenceNumber s = 0 ∧ ss_sendBuffer s = replicate n [] ∧
    ss_recvBuffer s = CreateRecvBuffer ∧
    sc_weight (ss_scheduler s) = CONFIG_USER_WRR_WEIGHT conf.
Proof.
  intros Hid. induction n as [|n IH]; intros Hn.
  { eexists. split; [done|]. split_and!; try done. split; simpl; try done.
    split; simpl; try done; unfold zlen; lia. }
  destruct IH as (s & Hs & [H1 H2 H3 H4 H5 H6 H7] & Hnum & Hseq & Hsb & Hrb & Hw); [lia|].
  cbn [add_streams]. rewrite Hs. cbn [mbind outcome_bind]. unfold AddStream. simpl. rewrite Hnum.
  destruct (SetNumPath_inv (ss_scheduler s)) as (c & Hc & Hci & Hcn & Hcw);
    [done|rewrite Hw; unfold zlen; lia|].
  rewrite H7 in Hc. rewrite Hc. simpl. eexists. split; [done|].
  split_and!; simpl; try done; try lia.
  - split; simpl; rewrite ?length_app; simpl; try done; lia.
  - rewrite Hsb, <-replicate_cons_app. done.
  - by rewrite Hcw.
Qed.

Lemma connected_inv conf now since id n :
  uint 32 id → (n <= length (CONFIG_USER_WRR_WEIGHT conf))%nat →
  ∃ y, connected conf now since id n = Ret y ∧ sys_inv conf n 0 y.
Proof.
  intros Hid Hn. destruct (add_streams_ok conf now since id n) as (s & Hs & Hok & _ & Hseq & Hsb & Hrb & _);
    [done..|].
  unfold connected. rewrite Hs. simpl. eexists. split; [done|].
  exists [], (replicate n []), (λ _, False). split; simpl; rewrite ?length_replicate; try done.
  - rewrite Hsb. intros p q i pi rv [-> _]%lookup_replicate [-> _]%lookup_replicate
      [-> _]%lookup_replicate [-> _]%lookup_replicate. by split.
  - rewrite Hrb. apply CreateRecvBuffer_inv.
  - intros k Hk. unfold zlen in Hk. simpl in Hk. lia.
Qed.

Lemma not_carried_nil k L : Forall (λ q, q = []) L → ¬ carried k L.
Proof.
  intros HL (p & q & Hq & Hk). eapply Forall_lookup_1 in HL; [|done]. simpl in HL. subst q.
  by apply elem_of_nil in Hk.
Qed.

Lemma forallb_nil {A} `{∀ q : list A, Decision (q = [])} (L : list (list A)) :
  forallb (λ q, bool_decide (q = [])) L = true → Forall (λ q, q = []) L.
Proof.
  intros HL. apply Forall_forall. intros q Hq%list_elem_of_In.
  eapply forallb_forall in HL; [|done]. by apply bool_decide_eq_true in HL.
Qed.

(** When nothing is queued or in transit, every packet has been pushed. *)
Lemma quiescent_pushed conf n N payloads infls S y :
  inv_at conf n N payloads infls S y → quiescent y = true →
  sy_written y = concat payloads ∧ ∀ k, 0 <= k < zlen payloads → S k.
Proof.
  intros [Hsnd Hrcv Hseq Hb Hwr Hw (Hl1 & Hl2 & Hl3) Hp Hr Hpu Hall] HQ.
  unfold quiescent in HQ. apply andb_prop in HQ as [HQ Hq4]. apply andb_prop in HQ as [HQ Hq3].
  apply andb_prop in HQ as [Hq1%forallb_nil Hq2%forallb_nil].
  destruct (sy_writer y); [done|]. simpl in Hwr. rewrite app_nil_r in Hwr. split; [done|].
  assert (Forall (λ q, q = []) infls) as Hi.
  { apply Forall_lookup. intros p infl Hi. apply lookup_lt_Some in Hi as Hlt.
    pose proof (so_queues _ _ Hsnd) as Hsb.
    destruct (lookup_lt_is_Some_2 (sy_pipes y) p) as [pipe Hpi]; [lia|].
    destruct (lookup_lt_is_Some_2 (sy_recvs y) p) as [rv Hrv]; [lia|].
    destruct (lookup_lt_is_Some_2 (ss_sendBuffer (sy_snd y)) p) as [q Hq]; [lia|].
    destruct (Hp _ _ _ _ _ Hq Hi Hpi Hrv) as [_ _ HB].
    eapply Forall_lookup_1 in Hq2; [|done]. simpl in Hq2. subst pipe.
    eapply forallb_forall in Hq3; [|by eapply list_elem_of_In, list_elem_of_lookup_2].
    unfold at_header in Hq3. unfold in_transit in HB. destruct (rv_pc rv); [|done].
    by apply wires_nil. }
  intros k Hk. destruct (Hall k Hk) as [|[HC|HC]]; [done|..]; exfalso;
    by apply not_carried_nil in HC.
Qed.

(** ** Properties *)

(** A read of one byte where three were asked for: the receiver takes the length of the packet to be zero, and its next read panics. *)
Lemma split_header_panics conf s pathID rv b pipe elapsed :
  3 <= PACKET_SIZE conf → rv_pc rv = RHeader →
  ∃ rv', receiver_step conf s pathID rv (b :: pipe) 1 elapsed = Ret (s, rv', pipe) ∧
    ∀ s' pipe' k elapsed', receiver_step conf s' pathID rv' pipe' k elapsed' = Panic "slice bounds out of range".
Proof.
  intros Hp Hr. unfold receiver_step at 1. rewrite Hr, (bool_decide_eq_true_2 _ Hp). cbn [bool_decide StreamRead take drop Nat.min Nat.max].
  rewrite bool_decide_eq_false_2 by done. set (buf := replicate _ 0).
  assert (∃ l, buf = 0 :: 0 :: 0 :: l) as [l Hl].
  { unfold buf. replace (Z.to_nat (PACKET_SIZE conf)) with (S (S (S (Z.to_nat (PACKET_SIZE conf - 3))))) by lia. by eexists. }
  clearbody buf. subst buf. unfold copy_to. rewrite bool_decide_eq_true_2 by (unfold zlen; cbn [length]; lia).
  eexists. split; [reflexivity|]. intros s' pipe' k elapsed'. unfold receiver_step. cbn [rv_pc]. rewrite bool_decide_eq_false_2; [done|]. intros [[_ H] _]. by apply H.
Qed.


(** Three packets over two paths: the third one, alone on path 0, arrives
    first, in small pieces. *)
Definition demo_labels : list label :=
  [LWrite (replicate 2060 7) 0] ++ replicate 12 (LWriter 0) ++
  [LTransmit 0; LRecvHeader 0 3 1000; LRecvBody 0 5 2000; LRecvBody 0 100 3000;
   LTransmit 1; LTransmit 1; LRecvHeader 1 9 4000; LRecvBody 1 700 5000; LRead 10;
   LRecvBody 1 700 6000; LRead 100; LRecvHeader 1 3 7000; LRecvBody 1 4000 8000; LReadWithSize 4000 100].

