(* ===== verification/SessionManager.v ===== *)
(** * Session manager and handshake ([session/session_manager.go], [session.go])

    A client connects its first path, the server answers the Hello packet with
    a Hello ACK packet that carries the session ID it assigned and the addresses
    it listens on, and the client opens a second path when either side has two
    addresses.  [handshake_completes] shows that both sides end up with the same
    session and the same number of paths, and that this is the number of
    connections the server's [Accept] waits for.

    Address resolution, [quic.Dial] and the listeners are outside the model: a
    connection is a fresh stream between the two sides. *)

From stdpp Require Import base list numbers strings gmap.
From Stdlib Require Import ZArith Lia.
From S2P Require Import Prelude Config Util SessionPackets RecvBuffer Monitor Scheduler Session.

Record SessionManager := {
  sm_numPath : Z;
  sm_listenAddrList : list (list Z);
  sm_sessionMap : gmap Z Session;
}.

Definition CreateSessionManager (addrList : list (list Z)) : SessionManager := {|
  sm_numPath := zlen addrList;
  sm_listenAddrList := addrList;
  sm_sessionMap := ∅;
|}.

(** [receiveHelloPacket] on the bytes of a new stream: the session ID and the
    number of paths, which goes to [numPathChan] when [Accept] waits for it. *)
Definition receiveHelloPacket (conf : Config) (pipe : list Z) (k : nat) : outcome (Z * Z) :=
  let '(got, _) := StreamRead pipe k (Z.to_nat HELLO_PACKET_HEADER_LEN) in
  buf ← copy_to (replicate (Z.to_nat HELLO_PACKET_HEADER_LEN) 0) 0 HELLO_PACKET_HEADER_LEN got;
  '(packetType, _) ← ReadByte buf;
  if packetType =? HELLO_PACKET conf then
    '(packet, _) ← or_panic (ParseHelloPacket buf);
    Ret (hp_SessionID packet, hp_NumPath packet)
  else Panic "SessionManager.receiveHelloPacket(): Unknown initial packet type".

(** One round of [accept]: the manager, the session handed to [Accept], the
    Hello ACK bytes and the number of paths of the Hello packet.  [rand] is the
    value of [rand.Uint32()]. *)
Definition accept (conf : Config) (now since rand : Z) (m : SessionManager) (stream : nat)
    (remoteAddr hello : list Z) (k : nat) : outcome (SessionManager * Z * list Z * Z) :=
  '(sessionID, numPath) ← receiveHelloPacket conf hello k;
  '(sessionID, sess) ←
    (if sessionID =? 0 then Ret (rand, CreateSession conf now since rand (sm_listenAddrList m))
     else match sm_sessionMap m !! sessionID with
          | Some sess => Ret (sessionID, sess)
          | None => Panic "SessionManger.accept(): Received SessionID is not in the session map!"
          end);
  '(newPathID, sess) ← AddStream sess stream remoteAddr true;
  ack ← sendHelloAckPacket conf sess;
  Ret ({| sm_numPath := sm_numPath m; sm_listenAddrList := sm_listenAddrList m;
          sm_sessionMap := <[sessionID := sess]> (sm_sessionMap m) |},
       sessionID, ack, numPath).

(** The number of sessions [Accept] takes from [sessionChan] before it returns
    the last one. *)
Definition Accept_waits (m : SessionManager) (remoteNumPath : Z) : Z :=
  if remoteNumPath <? sm_numPath m then sm_numPath m else remoteNumPath.

(** [Session.Connect] against a server: the client's session, the server, and
    for each connection made the session ID and the number of paths announced.
    The call made by [handleHelloAckPacket] is the recursive one; [k1], [k2]
    and [k3] are what the stream offers to the three reads. *)
Fixpoint Connect (fuel : nat) (conf : Config) (now since rand : Z) (k1 k2 k3 : nat)
    (c : Session) (m : SessionManager) (addr : list Z) (i : Z) :
    outcome (Session * SessionManager * list (Z * Z)) :=
  match fuel with
  | O => Err (GoError "fuel")
  | S fuel =>
      _ ← index (ss_listenAddrList c) i;
      '(_, c) ← AddStream c (length (ss_streamList c)) addr false;
      '(m, sid, ack, numPath) ←
        accept conf now since rand m (length (ss_streamList c)) [] (sendHelloPacket conf c) k1;
      '(c, conn, _) ← receiveHelloAckPacket conf c ack k2 k3;
      match conn with
      | None => Ret (c, m, [(sid, numPath)])
      | Some (addr, i) =>
          '(c, m, conns) ← Connect fuel conf now since rand k1 k2 k3 c m addr i;
          Ret (c, m, (sid, numPath) :: conns)
      end
  end.

(** [SessionManager.Connect]. *)
Definition Manager_Connect (conf : Config) (now since rand : Z) (k1 k2 k3 : nat)
    (listenAddrList : list (list Z)) (m : SessionManager) (addr : list Z) :=
  Connect 2 conf now since rand k1 k2 k3 (CreateSession conf now since 0 listenAddrList) m addr 0.

(** ** Lemmas *)

(** A session with [n] paths, as far as the handshake is concerned. *)
Record hs_ok (W : list Z) (addrs : list (list Z)) (id n : Z) (s : Session) : Prop := {
  hs_id : ss_SessionID s = id;
  hs_num : ss_numPath s = n;
  hs_listen : ss_listenAddrList s = addrs;
  hs_conn : zlen (ss_connectedAddrList s) = n;
  hs_sched : sched_inv (ss_scheduler s);
  hs_paths : sc_numPath (ss_scheduler s) = n;
  hs_weight : sc_weight (ss_scheduler s) = W;
}.

Lemma CreateSession_hs conf now since id addrs :
  hs_ok (CONFIG_USER_WRR_WEIGHT conf) addrs id 0 (CreateSession conf now since id addrs).
Proof. split; try done. split; simpl; try done; unfold zlen; lia. Qed.

Lemma AddStream_true_hs W addrs id n s stream addr :
  hs_ok W addrs id n s → n < zlen W →
  ∃ s', AddStream s stream addr true = Ret (n, s') ∧ hs_ok W addrs id (n + 1) s'.
Proof.
  intros [Hid Hn Hl Hc Hs Hp Hw] Hlt. unfold AddStream. simpl.
  destruct (SetNumPath_inv (ss_scheduler s) Hs) as (c & Hsn & Hci & Hcn & Hcw); [rewrite Hp, Hw; lia|].
  rewrite Hn, <-Hp, Hsn. simpl. eexists. split; [repeat f_equal; lia|].
  split; simpl; try done; try lia; [|by rewrite Hcw].
  rewrite zlen_app, Hc. change (zlen [addr]) with 1. lia.
Qed.

Section Handshake.
Context (conf : Config) (now since rand : Z) (k1 k2 k3 : nat).
Context (Hhello : uint 8 (HELLO_PACKET conf)) (Hack : uint 8 (HELLO_ACK_PACKET conf)).
Context (Hps : 518 <= PACKET_SIZE conf).
Context (Hk1 : (8 <= k1)%nat) (Hk2 : (3 <= k2)%nat) (Hk3 : (515 <= k3)%nat).
Let W := CONFIG_USER_WRR_WEIGHT conf.

(** Addresses a session announces. *)
Definition addrs_ok (l : list (list Z)) : Prop := 0 < zlen l <= 2 ∧ Forall (λ a, zlen a <= 253) l.

Lemma receiveHello c :
  uint 32 (ss_SessionID c) → zlen (ss_listenAddrList c) <= 2 →
  receiveHelloPacket conf (sendHelloPacket conf c) k1 =
    Ret (ss_SessionID c, zlen (ss_listenAddrList c)).
Proof.
  intros Hid Hl. unfold receiveHelloPacket, sendHelloPacket.
  pose proof (zlen_nonneg (ss_listenAddrList c)).
  rewrite wrap_small by (unfold uint; lia).
  set (p := CreateHelloPacket _ _ _).
  assert (HelloPacket_valid p) as Hv by (apply CreateHelloPacket_valid; unfold uint; auto; lia).
  unfold StreamRead. replace (Nat.min (Nat.max 1 k1) (Z.to_nat HELLO_PACKET_HEADER_LEN)) with 8%nat
    by (unfold HELLO_PACKET_HEADER_LEN; lia).
  change (take 8 (HelloPacket_Write p)) with (HelloPacket_Write p).
  change (copy_to _ _ _ _) with (Ret (HelloPacket_Write p)). cbn [mbind outcome_bind].
  pose proof (@pkt_roundtrip _ HelloPacket_wire p _ [] Hv eq_refl) as Hr. rewrite app_nil_r in Hr.
  cbn [pkt_parse HelloPacket_wire] in Hr.
  change (ReadByte (HelloPacket_Write p)) with (@Ret (Z * list Z) (HELLO_PACKET conf, drop 1 (HelloPacket_Write p))).
  cbn [mbind outcome_bind]. rewrite Z.eqb_refl. unfold pkt_parse in Hr. simpl in Hr.
  rewrite Hr. done.
Qed.

Lemma getNicInfo_valid s : addrs_ok (ss_listenAddrList s) →
  Forall NicInfo_valid (getNicInfo s) ∧ zlen (getNicInfo s) = zlen (ss_listenAddrList s).
Proof.
  intros [_ Ha]. unfold getNicInfo. split.
  - apply Forall_fmap. eapply Forall_impl; [done|]. intros a Hl. simpl in Hl. pose proof (zlen_nonneg a).
    unfold compose, NicInfo_valid. simpl. rewrite wrap_small by (unfold uint; lia).
    split_and!; try done; unfold uint; lia.
  - unfold zlen. by rewrite length_fmap.
Qed.

(** The Hello ACK packet of a session is read back by the client. *)
Lemma receiveHelloAck s c :
  uint 32 (ss_SessionID s) → addrs_ok (ss_listenAddrList s) →
  ∃ ack, sendHelloAckPacket conf s = Ret ack ∧
    receiveHelloAckPacket conf c ack k2 k3 =
      ('(c, conn) ← handleHelloAckPacket c (CreateHelloAckPacket conf (ss_SessionID s) (getNicInfo s));
       Ret (c, conn, [])).
Proof.
  intros Hid Ha. destruct (getNicInfo_valid s Ha) as [Hnics Hlen]. destruct Ha as [Hl _].
  set (pk := CreateHelloAckPacket conf (ss_SessionID s) (getNicInfo s)).
  assert (HelloAckPacket_valid pk) as Hv by (apply CreateHelloAckPacket_valid; done || lia).
  destruct (@pkt_frame _ HelloAckPacket_wire pk Hv) as (body & Hw & Hbody).
  cbn [pkt_write pkt_type pkt_length HelloAckPacket_wire] in Hw, Hbody.
  assert (8 <= hap_Length pk <= 518 ∧ uint 16 (hap_Length pk)) as [Hpl Hpl16].
  { pose proof (nicInfoLen_bound _ Hnics). pose proof Hv as (_ & Hu & _ & _ & _ & _ & ->).
    split; [|by destruct Hv as (_ & _ & _ & _ & _ & _ & <-)]. unfold HELLO_ACK_PACKET_HEADER_LEN.
    simpl hap_NicInfos. lia. }
  exists (hap_Type pk :: WriteUint16 (hap_Length pk) ++ body). split; [done|].
  unfold receiveHelloAckPacket, StreamRead.
  replace (Nat.min (Nat.max 1 k2) 3) with 3%nat by lia.
  set (bs := hap_Type pk :: WriteUint16 (hap_Length pk) ++ body) in *.
  change (take 3 bs) with (hap_Type pk :: WriteUint16 (hap_Length pk)). change (drop 3 bs) with body.
  rewrite copy_to_Ret; [|lia|done|unfold zlen; rewrite length_replicate; lia].
  set (zs := replicate _ 0). change (splice zs (Z.to_nat 0) ?l) with (l ++ drop 3 zs).
  cbn [mbind outcome_bind]. rewrite take_app_exact by done. rewrite ReadByte_cons.
  cbn [mbind outcome_bind]. rewrite <-(app_nil_r (WriteUint16 _)) at 1. rewrite ReadUint16_Write by done.
  cbn [mbind outcome_bind].
  replace (Nat.min (Nat.max 1 k3) (Z.to_nat (hap_Length pk - 3))) with (length body) by (unfold zlen in *; lia).
  rewrite take_ge, drop_ge by done.
  rewrite copy_to_Ret; [|lia|lia|].
  2:{ rewrite zlen_app. unfold zlen, zs. rewrite length_drop, length_replicate. simpl length. lia. }
  cbn [mbind outcome_bind]. simpl hap_Type. rewrite Z.eqb_refl.
  assert (splice ((hap_Type pk :: WriteUint16 (hap_Length pk)) ++ drop 3 zs) (Z.to_nat 3) body
          = bs ++ drop (length body) (drop 3 zs)) as Hsp.
  { unfold splice, bs. rewrite take_app_exact by done.
    rewrite drop_app_ge by (simpl; lia).
    by replace (_ - _)%nat with (length body) by (simpl; lia). }
  change (HELLO_ACK_PACKET conf) with (hap_Type pk). rewrite Hsp.
  pose proof (@pkt_roundtrip _ HelloAckPacket_wire pk bs (drop (length body) (drop 3 zs)) Hv Hw) as Hr.
  cbn [pkt_parse HelloAckPacket_wire] in Hr. rewrite Hr. done.
Qed.

Context (la lb : list (list Z)) (Hla : addrs_ok la) (Hlb : addrs_ok lb) (Hrand : uint 32 rand ∧ rand ≠ 0).

(** The server's side before the client's [n]-th further path: nothing for a
    new session, the session with [n] paths otherwise. *)
Definition server_ok (cid n : Z) (m : SessionManager) : Prop :=
  sm_listenAddrList m = lb ∧ sm_numPath m = zlen lb ∧
  (cid = 0 ∧ n = 0 ∨ cid = rand ∧ ∃ srv, sm_sessionMap m !! rand = Some srv ∧ hs_ok W lb rand n srv).

Lemma accept_hs c m cid n stream :
  ss_SessionID c = cid → ss_listenAddrList c = la → server_ok cid n m → n < zlen W →
  ∃ m' srv, accept conf now since rand m stream [] (sendHelloPacket conf c) k1 =
      (ack ← sendHelloAckPacket conf srv; Ret (m', rand, ack, zlen la)) ∧
    hs_ok W lb rand (n + 1) srv ∧ server_ok rand (n + 1) m'.
Proof.
  intros Hid Hl (Hml & Hmn & Hsrv) Hn. unfold accept.
  rewrite receiveHello; [|destruct Hsrv as [[-> _]|[-> _]]; rewrite Hid; done || apply Hrand|].
  2:{ rewrite Hl. apply Hla. }
  cbn [mbind outcome_bind]. rewrite Hid, Hl.
  assert (∃ sess, (if cid =? 0 then Ret (rand, CreateSession conf now since rand (sm_listenAddrList m))
     else match sm_sessionMap m !! cid with
          | Some sess => Ret (cid, sess)
          | None => Panic "SessionManger.accept(): Received SessionID is not in the session map!"
          end) = Ret (rand, sess) ∧ hs_ok W lb rand n sess) as (sess & -> & Hs).
  { destruct Hsrv as [[-> ->]|(-> & srv & Hm & Hs)].
    - eexists. split; [done|]. rewrite Hml. apply CreateSession_hs.
    - exists srv. rewrite (proj2 (Z.eqb_neq _ _)) by apply Hrand. by rewrite Hm. }
  cbn [mbind outcome_bind].
  destruct (AddStream_true_hs W lb rand n sess stream [] Hs Hn) as (srv & -> & Hsrv').
  cbn [mbind outcome_bind]. eexists _, srv. split; [done|]. split; [done|].
  split; [done|]. split; [done|]. right. split; [done|]. exists srv. simpl.
  by rewrite lookup_insert_eq.
Qed.

(** The path the client opens next. *)
Definition needs_second (n : Z) : bool := (n =? 1) && ((zlen la =? 2) || (zlen lb =? 2)).

Lemma handleHelloAck_hs c cid n srv :
  ss_SessionID c = cid → cid = 0 ∨ cid = rand → ss_numPath c = n + 1 → ss_listenAddrList c = la →
  zlen (ss_connectedAddrList c) = n + 1 → sched_inv (ss_scheduler c) →
  sc_numPath (ss_scheduler c) = n → sc_weight (ss_scheduler c) = W → n < zlen W →
  hs_ok W lb rand (n + 1) srv →
  ∃ c' conn, handleHelloAckPacket c (CreateHelloAckPacket conf (ss_SessionID srv) (getNicInfo srv)) = Ret (c', conn) ∧
    hs_ok W la rand (n + 1) c' ∧
    match conn with
    | None => needs_second (n + 1) = false
    | Some (_, i) => needs_second (n + 1) = true ∧ 0 <= i < zlen la
    end.
Proof.
  intros Hid Hc Hn Hl Hconn Hs Hp Hw Hlt [Sid Snum Slisten _ _ _ _].
  assert (zlen (getNicInfo srv) = zlen lb) as Hnl by (unfold getNicInfo, zlen; by rewrite length_fmap, Slisten).
  unfold handleHelloAckPacket. cbn [hap_SessionID hap_NumPath hap_NicInfos CreateHelloAckPacket].
  rewrite Sid, Hid, Hnl. destruct Hla as [Hla' _], Hlb as [Hlb' _].
  rewrite (wrap_small 8) by (unfold uint; lia).
  set (c1 := if cid =? 0 then _ else _).
  assert (ss_SessionID c1 = rand ∧ ss_numPath c1 = n + 1 ∧ ss_listenAddrList c1 = la ∧
          zlen (ss_connectedAddrList c1) = n + 1 ∧ ss_scheduler c1 = ss_scheduler c) as (E1 & E2 & E3 & E4 & E5).
  { unfold c1. destruct Hc as [->| ->]; [simpl; done|].
    rewrite (proj2 (Z.eqb_neq _ _)) by apply Hrand. done. }
  destruct (SetNumPath_inv (ss_scheduler c) Hs) as (sc & Hsn & Hsi & Hsn' & Hsw); [rewrite Hp, Hw; lia|].
  rewrite E5, E2, <-Hp, Hsn. cbn [mbind outcome_bind].
  simpl ss_listenAddrList. simpl ss_connectedAddrList. rewrite E3, E4.
  assert (hs_ok W la rand (sc_numPath (ss_scheduler c) + 1) (ss_set_scheduler c1 sc)) as Hok.
  { split; simpl; try done; try lia. by rewrite Hsw. }
  assert (∀ j, 0 <= j < zlen lb → ∃ x, index (getNicInfo srv) j = Ret x) as Hidx.
  { intros j Hj. destruct (zget_is_Some (getNicInfo srv) j) as [x Hx]; [lia|].
    exists x. by apply index_Ret. }
  unfold needs_second. rewrite Hp in Hok |- *.
  destruct (Z.eqb_spec (n + 1) 1); cbn [andb].
  2:{ eexists _, None. split; [reflexivity|]. done. }
  destruct (Z.eqb_spec (zlen lb) 2), (Z.eqb_spec (zlen la) 1), (Z.eqb_spec (zlen lb) 1),
    (Z.eqb_spec (zlen la) 2); cbn [andb orb]; try lia.
  3: eexists _, None; split; [reflexivity|]; done.
  all: match goal with |- context [index _ ?j] =>
         destruct (Hidx j) as [x ->]; [lia|]; eexists _, (Some (_, _)); (split; [reflexivity|]);
         split; [done|]; split; [done|lia] end.
Qed.

(** One connection: both sides gain a path, and the client goes on exactly when
    a second path is needed. *)
Lemma Connect_hs fuel c m addr i cid n :
  hs_ok W la cid n c → cid = 0 ∨ cid = rand → server_ok cid n m → n < zlen W → 0 <= i < zlen la →
  ∃ c' m' conn, hs_ok W la rand (n + 1) c' ∧ server_ok rand (n + 1) m' ∧
    match conn with
    | None => needs_second (n + 1) = false
    | Some (_, i) => needs_second (n + 1) = true ∧ 0 <= i < zlen la
    end ∧
    Connect (S fuel) conf now since rand k1 k2 k3 c m addr i =
      match conn with
      | None => Ret (c', m', [(rand, zlen la)])
      | Some (addr, i) =>
          '(c, m, conns) ← Connect fuel conf now since rand k1 k2 k3 c' m' addr i;
          Ret (c, m, (rand, zlen la) :: conns)
      end.
Proof.
  intros Hc Hcid Hm Hn Hi. pose proof Hc as [Hid Hnum Hl Hconn Hs Hp Hw].
  cbn [Connect]. destruct (zget_is_Some (ss_listenAddrList c) i) as [x Hx]; [by rewrite Hl|].
  rewrite (index_Ret _ _ _ Hx). cbn [mbind outcome_bind]. unfold AddStream.
  cbn [mbind outcome_bind]. set (c1 := {| ss_SessionID := _ |}).
  destruct (accept_hs c1 m cid n (length (ss_streamList c1))) as (m' & srv & -> & Hsrv & Hm'); [done..|].
  destruct (receiveHelloAck srv c1) as (ack & -> & Hr).
  { rewrite (hs_id _ _ _ _ _ Hsrv). apply Hrand. }
  { by rewrite (hs_listen _ _ _ _ _ Hsrv). }
  cbn [mbind outcome_bind]. rewrite Hr.
  destruct (handleHelloAck_hs c1 cid n srv) as (c' & conn & -> & Hc' & Hconn'); try done.
  { unfold c1. simpl. lia. }
  { unfold c1. simpl. rewrite zlen_app, Hconn. done. }
  cbn [mbind outcome_bind]. exists c', m', conn. split_and!; try done.
Qed.
End Handshake.

(** ** Properties *)

(** A read of one byte of the Hello ACK packet's header: the length is taken to be zero, and the second read panics. *)
Lemma split_hello_ack_panics conf s b pipe k2 :
  3 <= PACKET_SIZE conf → receiveHelloAckPacket conf s (b :: pipe) 1 k2 = Panic "slice bounds out of range".
Proof.
  intros Hp. unfold receiveHelloAckPacket. cbn [StreamRead take drop Nat.min Nat.max]. set (buf := replicate _ 0).
  assert (∃ l, buf = 0 :: 0 :: 0 :: l) as [l Hl].
  { unfold buf. replace (Z.to_nat (PACKET_SIZE conf)) with (S (S (S (Z.to_nat (PACKET_SIZE conf - 3))))) by lia. by eexists. }
  clearbody buf. subst buf. unfold copy_to. rewrite bool_decide_eq_true_2 by (unfold zlen; cbn [length]; lia). reflexivity.
Qed.

(** C9.  The handshake.  A client with one or two local addresses connects to a
    server with one or two addresses: it makes exactly as many connections as
    the larger of the two numbers, which is what the server's [Accept] waits
    for, each one belonging to the session ID the server assigned; afterwards
    both sides have that session ID and that many paths.  The conditions: the stream returns the
    8 bytes of the Hello packet, the 3 bytes of the Hello ACK packet's header and the rest of
    that packet in one read each (the code ignores the number of bytes that these reads return: see
    [split_hello_ack_panics]); addresses have at most 253 bytes; the random session ID is not zero;
    the scheduler has two weights, and packets have 518 bytes or more. *)
Theorem handshake_completes (conf : Config) (now since rand : Z) (k1 k2 k3 : nat)
    (la lb : list (list Z)) (addr : list Z) :
  uint 8 (HELLO_PACKET conf) → uint 8 (HELLO_ACK_PACKET conf) → 518 <= PACKET_SIZE conf →
  (8 <= k1)%nat → (3 <= k2)%nat → (515 <= k3)%nat →
  addrs_ok la → addrs_ok lb → uint 32 rand ∧ rand ≠ 0 →
  2 <= zlen (CONFIG_USER_WRR_WEIGHT conf) →
  ∃ c m srv conns,
    Manager_Connect conf now since rand k1 k2 k3 la (CreateSessionManager lb) addr = Ret (c, m, conns) ∧
    conns = replicate (length conns) (rand, zlen la) ∧
    zlen conns = Z.max (zlen la) (zlen lb) ∧ zlen conns = Accept_waits m (zlen la) ∧
    sm_sessionMap m !! rand = Some srv ∧
    ss_SessionID c = rand ∧ ss_SessionID srv = rand ∧
    ss_numPath c = zlen conns ∧ ss_numPath srv = zlen conns.
Proof.
  intros Hh Ha Hps Hk1 Hk2 Hk3 Hla Hlb Hr HW. pose proof Hla as [Hla' _]. pose proof Hlb as [Hlb' _].
  pose proof (Connect_hs conf now since rand k1 k2 k3 Hh Ha Hps Hk1 Hk2 Hk3 la lb Hla Hlb Hr) as Hstep.
  destruct (Hstep 1%nat (CreateSession conf now since 0 la) (CreateSessionManager lb) addr 0 0 0)
    as (c1 & m1 & conn & Hc1 & Hm1 & Hconn & HC).
  { apply CreateSession_hs. } { by left. } { split_and!; try done. by left. } { lia. } { lia. }
  unfold Manager_Connect. rewrite HC.
  assert (∀ n c m, hs_ok (CONFIG_USER_WRR_WEIGHT conf) la rand n c → server_ok conf rand lb rand n m → n = Z.max (zlen la) (zlen lb) →
    n = Accept_waits m (zlen la) ∧ ss_SessionID c = rand ∧ ss_numPath c = n ∧
    ∃ srv, sm_sessionMap m !! rand = Some srv ∧ ss_SessionID srv = rand ∧ ss_numPath srv = n) as Hfin.
  { intros n c m [Hid Hnum _ _ _ _ _] (_ & Hmn & [[? _]|(_ & srv & Hsrv & [Sid Snum _ _ _ _ _])]) Hmax; [lia|].
    split; [|by eauto 10]. unfold Accept_waits. rewrite Hmn.
    destruct (Z.ltb_spec (zlen la) (zlen lb)); lia. }
  unfold needs_second in Hconn. destruct conn as [[addr' i']|].
  - destruct Hconn as [Hneed Hi'].
    destruct (Hstep 0%nat c1 m1 addr' i' rand 1) as (c2 & m2 & conn2 & Hc2 & Hm2 & Hconn2 & ->); auto; [lia|].
    destruct conn2 as [[]|]; [by destruct Hconn2|]. cbn [mbind outcome_bind].
    destruct (Hfin 2 c2 m2) as (Hw & Hid & Hnum & srv & Hsrv & Sid & Snum); [done..| |].
    { destruct (Z.eqb_spec (zlen la) 2), (Z.eqb_spec (zlen lb) 2); cbn in Hneed; lia. }
    eexists c2, m2, srv, _. split; [reflexivity|].
    split_and!; try done. change (zlen (_ :: [_])) with 2. destruct (Z.eqb_spec (zlen la) 2), (Z.eqb_spec (zlen lb) 2); cbn in Hneed; lia.
  - destruct (Hfin 1 c1 m1) as (Hw & Hid & Hnum & srv & Hsrv & Sid & Snum); [done..| |].
    { destruct (Z.eqb_spec (zlen la) 2), (Z.eqb_spec (zlen lb) 2); cbn in Hconn; try lia; done. }
    eexists c1, m1, srv, _. split; [reflexivity|]. split_and!; try done.
    destruct (Z.eqb_spec (zlen la) 2), (Z.eqb_spec (zlen lb) 2); cbn in Hconn; try done.
    change (zlen [_]) with 1. lia.
Qed.

(** A client with one address and a server with two. *)
Lemma handshake_completes_witness :
  ∃ c m srv conns,
    Manager_Connect mp2bs_toml 0 0 77 8 3 600 [[49; 58; 53]] (CreateSessionManager [[50; 58; 53]; [51; 58; 54]]) [50; 58; 53]
      = Ret (c, m, conns) ∧
    zlen conns = 2 ∧ sm_sessionMap m !! 77 = Some srv ∧ ss_numPath c = 2 ∧ ss_numPath srv = 2.
Proof.
  destruct (handshake_completes mp2bs_toml 0 0 77 8 3 600 [[49; 58; 53]] [[50; 58; 53]; [51; 58; 54]] [50; 58; 53])
    as (c & m & srv & conns & Hc & _ & Hn & _ & Hsrv & _ & _ & Hnc & Hns); try lia.
  - vm_compute. intuition discriminate.
  - vm_compute. intuition discriminate.
  - vm_compute. discriminate.
  - split; [vm_compute; intuition discriminate|]. repeat constructor; vm_compute; discriminate.
  - split; [vm_compute; intuition discriminate|]. repeat constructor; vm_compute; discriminate.
  - vm_compute. intuition discriminate.
  - vm_compute. discriminate.
  - change (Z.max _ _) with 2 in Hn. rewrite Hn in Hnc, Hns.
    exists c, m, srv, conns. split; [exact Hc|]. split; [exact Hn|]. split; [exact Hsrv|].
    split; [exact Hnc|exact Hns].
Defined.
