(* ===== verification/Raptor.v ===== *)
(** * Raptor code ([mp2session/raptor.go])

    The systematic Raptor code of the FEC mode, C code in the preamble of
    [raptor.go] and its Go interface.  [K] source symbols are multiplied with the
    inverse of the code's matrix, extended by LDPC and half symbols, and the
    encoding symbols are sums of these.

    An array is a list; an access outside its bounds, undefined in C, is a panic
    here, and so is a loop that does not end.  A two-dimensional array is the
    list of its rows, [U] the list of its columns.  All integers are small and not
    negative ([Z]); floating-point numbers are IEEE values.  The counters
    [XORENC] and [XORDEC], which nothing reads, and [malloc]'s failures are left
    out.  [VECTOR] and [BITS16] are 1. *)

From stdpp Require Import base list numbers strings.
From Stdlib Require Import ZArith Lia Floats.SpecFloat.
From S2P Require Import Prelude Config Monitor RaptorTables.

(** ** Loops *)

Fixpoint foldO {A B} (f : A → B → outcome B) (l : list A) (b : B) : outcome B :=
  match l with
  | [] => Ret b
  | a :: l => b ← f a b; foldO f l b
  end.

Fixpoint mapO {A B} (f : A → outcome B) (l : list A) : outcome (list B) :=
  match l with
  | [] => Ret []
  | a :: l => b ← f a; bs ← mapO f l; Ret (b :: bs)
  end.

Definition no_end {A} : outcome A := Panic "infinite loop".

(** The rounds [j] of a loop over the bits of [count] in which the bit is 1; the
    loop ends when no bits are left, after a round for each of them
    ([bit_positions_spec]). *)
Fixpoint bits_loop (fuel : nat) (count j : Z) : list Z :=
  match fuel with
  | O => []
  | S fuel =>
      (if count mod 2 =? 1 then [j] else []) ++
      (if count / 2 =? 0 then [] else bits_loop fuel (count / 2) (j + 1))
  end.

Definition bit_positions (count : Z) : list Z := bits_loop (Z.to_nat (Z.log2 count + 1)) count 0.

(** ** Rows of a matrix and symbols *)

Definition zeros (n : Z) : list Z := replicate (Z.to_nat n) 0.

(** [row[b] ^= 1]. *)
Definition toggle (b : Z) (row : list Z) : outcome (list Z) :=
  x ← index row b; set_index row b (Z.lxor x 1).

(** [dst ^= src] byte by byte. *)
Definition xorv (dst src : list Z) : list Z := zip_with Z.lxor dst src.

(** [vector_xor_mp(dst, dst, src, iter_num)]: 16 bytes at a time. *)
Definition vector_xor_mp (dst src : list Z) (iter_num : Z) : outcome (list Z) :=
  let n := 16 * ((iter_num + 15) / 16) in
  d ← slice dst 0 n;
  s ← slice src 0 n;
  Ret (xorv d s ++ drop (Z.to_nat n) dst).

(** [c[t] ^= c[s]] of whole symbols. *)
Definition add_symbol (size s t : Z) (c : list (list Z)) : outcome (list (list Z)) :=
  dst ← index c t;
  src ← index c s;
  dst ← vector_xor_mp dst src size;
  set_index c t dst.

(** ** Parameters *)

Record raptor_params := {
  rp_K : Z;
  rp_SYMBOL_SIZE : Z;
  rp_minCR : spec_float;
  rp_CR : spec_float;
  rp_S : Z;
  rp_H : Z;
  rp_L : Z;
  rp_Lp : Z;
  rp_N : Z;
  rp_M : Z;
  rp_U : list (Z * Z * Z);
  rp_A : list (list Z);
  rp_AI : list (list Z);
  rp_m : list Z;
}.

(** The loop of [Isp_mp] from [i] on. *)
Fixpoint Isp_loop (fuel : nat) (x i : Z) : bool :=
  match fuel with
  | O => true
  | S fuel => if i <? x then if x mod i =? 0 then false else Isp_loop fuel x (i + 1) else true
  end.

Definition Isp_mp (x : Z) : bool := Isp_loop (Z.to_nat x) x 2.

Definition Factor_mp (n : Z) : spec_float :=
  fold_left (λ v i, f64_mul v (f64_of_Z i)) (seqZ 1 n) (f64_of_Z 1).

(** The smallest integer not below a finite value. *)
Definition f_ceil (x : spec_float) : Z :=
  match x with
  | S754_finite s m e => - Z.shiftl (if s then Z.pos m else Z.neg m) e
  | _ => 0
  end.

(** [(int)x]: towards zero. *)
Definition f_int (x : spec_float) : Z :=
  match x with
  | S754_finite s m e => if s then - Z.shiftl (Z.pos m) e else Z.shiftl (Z.pos m) e
  | _ => 0
  end.

(** The macro [round(a)]. *)
Definition round (a : spec_float) : Z := f_int (f64_add a (f64_of_frac 1 2)).

(** [while (cond(x)) x++]. *)
Fixpoint while_inc (fuel : nat) (cond : Z → bool) (x : Z) : outcome Z :=
  if cond x then
    match fuel with
    | O => no_end
    | S fuel => while_inc fuel cond (x + 1)
    end
  else Ret x.

Definition rg_f : list Z := [10241; 491582; 712794; 831695; 948446; 1032189; 1048576].
Definition rg_d : list Z := [1; 2; 3; 4; 10; 11; 40].

Fixpoint rg_loop (l : list (Z * Z)) (v : Z) : outcome Z :=
  match l with
  | [] => Panic "index out of range"
  | (f, d) :: l => if f <=? v then rg_loop l v else Ret d
  end.

Definition rg_mp (v : Z) : outcome Z := rg_loop (zip rg_f rg_d) v.

(** All values are integers below [2 ^ 53], for which the floating-point
    operations of the source are exact. *)
Definition rd_mp (X i m : Z) : outcome Z :=
  v0 ← index V0 ((X + i) mod 256);
  v1 ← index V1 ((X / 256 + i) mod 256);
  let tmp := Z.lxor v0 v1 in
  Ret (tmp - tmp / m * m).

(** The products of the source are 32-bit integers.  They do not overflow for symbol
    indices up to 32775, since [A] and [B] are below 65521; the program has
    20 encoding symbols, and the model is of codes with no more than 32776. *)
Definition triple_mp (K Lp i : Z) : outcome (Z * Z * Z) :=
  let Q := 65521 in
  Jk ← index J K;
  let A := (53591 + Jk * 997) mod Q in
  let B := (10267 * (Jk + 1)) mod Q in
  let Y := (B + i * A) mod Q in
  V ← rd_mp Y 0 1048576;
  d ← rg_mp V;
  a ← rd_mp Y 1 (Lp - 1);
  b ← rd_mp Y 2 Lp;
  Ret (d, 1 + a, b).

Definition TripleCalculate_mp (K Lp M : Z) : outcome (list (Z * Z * Z)) :=
  mapO (triple_mp K Lp) (seqZ 0 M).

(** ** The LT code: which intermediate symbols an encoding symbol is the sum of *)

(** [while (b >= L) b = (b+a)%Lp]; [skip_ends] shows that [Lp] rounds are enough. *)
Fixpoint skip (fuel : nat) (L Lp a b : Z) : outcome Z :=
  if b <? L then Ret b
  else match fuel with
       | O => no_end
       | S fuel => skip fuel L Lp a ((b + a) mod Lp)
       end.

(** The values of [b] in [n] rounds. *)
Fixpoint lt_loop (n : nat) (L Lp a b : Z) : outcome (list Z) :=
  match n with
  | O => Ret []
  | S n =>
      b ← skip (Z.to_nat Lp) L Lp a ((b + a) mod Lp);
      l ← lt_loop n L Lp a b;
      Ret (b :: l)
  end.

Definition lt_indices (L Lp : Z) (u : Z * Z * Z) : outcome (list Z) :=
  let '(d, a, b) := u in
  b ← skip (Z.to_nat Lp) L Lp a b;
  l ← lt_loop (Z.to_nat (Z.min (d - 1) (L - 1))) L Lp a b;
  Ret (b :: l).

(** The row of the matrix for the triple of an encoding symbol. *)
Definition lt_row (L Lp : Z) (U : list (Z * Z * Z)) (i : Z) : outcome (list Z) :=
  u ← index U i;
  idx ← lt_indices L Lp u;
  foldO toggle idx (zeros L).

Definition FindMatrixA_mp (K L Lp : Z) (U : list (Z * Z * Z)) : outcome (list (list Z)) :=
  mapO (lt_row L Lp U) (seqZ 0 K).

Definition FindMatrixAUsingSymbols_mp (ESIs : list Z) (p : raptor_params) : outcome (list (list Z)) :=
  mapO (λ i, esi ← index ESIs i; lt_row (rp_L p) (rp_Lp p) (rp_U p) esi) (seqZ 0 (rp_N p)).

(** ** Half symbols and LDPC symbols *)

(** The numbers with [Hp] ones, in the order of the Gray sequence. *)
Fixpoint gray_loop (fuel : nat) (Hp i : Z) (n : nat) : outcome (list Z) :=
  match n with
  | O => Ret []
  | S n' =>
      match fuel with
      | O => no_end
      | S fuel =>
          let g := Z.lxor i (i / 2) in
          if Hp =? zlen (bit_positions g) then l ← gray_loop fuel Hp (i + 1) n'; Ret (g :: l)
          else gray_loop fuel Hp (i + 1) n
      end
  end.

(** [H] is large enough for the first [2 ^ H] numbers to have the [K + S] it
    looks for. *)
Definition MakeGraySequence_mp (K S H : Z) : outcome (list Z) :=
  gray_loop (Z.to_nat (2 ^ H)) ((H + 1) / 2) 0 (Z.to_nat (K + S)).

Definition half_row (K S H : Z) (m : list Z) (row : list Z) : outcome (list Z) :=
  foldO (λ h row,
    x ← index row (K + S + h);
    if x =? 1 then
      foldO (λ i row, count ← index m i; foldO (λ j row, if j =? h then toggle i row else Ret row) (bit_positions count) row)
        (seqZ 0 (K + S)) row
    else Ret row) (seqZ 0 H) row.

Definition InverseHALF_mp (K S H : Z) (m : list Z) (A : list (list Z)) (RowNum : Z) : outcome (list (list Z)) :=
  mapO (λ as_, row ← index A as_; half_row K S H m row) (seqZ 0 RowNum).

(** The LDPC symbols a symbol [i] contributes to. *)
Definition ldpc_targets (S i : Z) : list Z :=
  let a := 1 + (i / S) mod (S - 1) in
  let b := i mod S in
  let b' := (b + a) mod S in
  [b; b'; (b' + a) mod S].

Definition ldpc_row (K S : Z) (row : list Z) : outcome (list Z) :=
  foldO (λ i row,
    foldO (λ b row, x ← index row (K + b); if x =? 1 then toggle i row else Ret row) (ldpc_targets S i) row)
    (seqZ 0 K) row.

Definition InverseLDPC_mp (K S : Z) (A : list (list Z)) (RowNum : Z) : outcome (list (list Z)) :=
  mapO (λ as_, row ← index A as_; ldpc_row K S row) (seqZ 0 RowNum).

(** ** Matrices *)

(** [while (AA[i][j] == 0) { i++; if (i == n) fail; }]. *)
Fixpoint find_pivot (fuel : nat) (AA : list (list Z)) (n i j : Z) : outcome (option Z) :=
  row ← index AA i;
  x ← index row j;
  if x =? 0 then
    if i + 1 =? n then Ret None
    else match fuel with
         | O => no_end
         | S fuel => find_pivot fuel AA n (i + 1) j
         end
  else Ret (Some i).

(** Row [i] of both matrices [^=] row [j]. *)
Definition add_rows (i j : Z) (M : list (list Z) * list (list Z)) : outcome (list (list Z) * list (list Z)) :=
  let '(AA, AI) := M in
  ai ← index AA i; aj ← index AA j;
  bi ← index AI i; bj ← index AI j;
  AA ← set_index AA i (xorv ai aj);
  AI ← set_index AI i (xorv bi bj);
  Ret (AA, AI).

(** One column of [FindInverseMatrix_mp]. *)
Definition inverse_column (K j : Z) (M : list (list Z) * list (list Z)) :
    outcome (option (list (list Z) * list (list Z))) :=
  pivot ← find_pivot (Z.to_nat K) M.1 K j j;
  match pivot with
  | None => Ret None
  | Some i =>
      M ← (if i =? j then Ret M else add_rows j i M);
      M ← foldO (λ i M,
             row ← index M.1 i;
             x ← index row j;
             if (x =? 1) && negb (i =? j) then add_rows i j M else Ret M) (seqZ 0 K) M;
      Ret (Some M)
  end.

(** The columns from [j] on. *)
Fixpoint inverse_loop (n : nat) (K j : Z) (M : list (list Z) * list (list Z)) : outcome (option (list (list Z))) :=
  match n with
  | O => Ret (Some M.2)
  | S n =>
      r ← inverse_column K j M;
      match r with
      | None => Ret None
      | Some M => inverse_loop n K (j + 1) M
      end
  end.

(** [AI[i][i] = 1]. *)
Definition unit_row (K i : Z) : list Z := <[Z.to_nat i := 1]> (zeros K).

Definition FindInverseMatrix_mp (K : Z) (A : list (list Z)) : outcome (option (list (list Z))) :=
  AA ← mapO (λ i, row ← index A i; slice row 0 K) (seqZ 0 K);
  inverse_loop (Z.to_nat K) K 0 (AA, unit_row K <$> seqZ 0 K).

Definition RaptorInitialization_mp (K SYMBOL_SIZE : Z) (minCR CR : spec_float) : outcome (option raptor_params) :=
  let k := f64_of_Z K in
  X ← while_inc (Z.to_nat (2 * K + 2)) (λ X, X * (X - 1) <? 2 * K) 1;
  let s0 := f_ceil (f64_mul (f64_of_frac 1 100) k) + X in
  S ← while_inc (Z.to_nat s0) (λ S, S <? s0) 1;
  S ← while_inc (Z.to_nat S) (λ S, negb (Isp_mp S)) S;
  H ← while_inc (Z.to_nat (K + S)) (λ H,
        let h := (H + 1) / 2 in
        SFltb (f64_div (Factor_mp H) (f64_mul (Factor_mp h) (Factor_mp (H - h)))) (f64_of_Z (K + S))) 1;
  let L := K + S + H in
  Lp ← while_inc (Z.to_nat L) (λ Lp, negb (Isp_mp Lp)) L;
  let N := round (f64_mul (f64_add (f64_of_Z 1) minCR) k) in
  let M := round (f64_mul (f64_add (f64_of_Z 1) CR) k) in
  U ← TripleCalculate_mp K Lp M;
  A ← FindMatrixA_mp K L Lp U;
  m ← MakeGraySequence_mp K S H;
  A ← InverseHALF_mp K S H m A K;
  A ← InverseLDPC_mp K S A K;
  AI ← FindInverseMatrix_mp K A;
  match AI with
  | None => Ret None
  | Some AI => Ret (Some {|
      rp_K := K; rp_SYMBOL_SIZE := SYMBOL_SIZE; rp_minCR := minCR; rp_CR := CR;
      rp_S := S; rp_H := H; rp_L := L; rp_Lp := Lp; rp_N := N; rp_M := M;
      rp_U := U; rp_A := A; rp_AI := AI; rp_m := m |})
  end.

(** ** Encoding *)

(** The LDPC symbols of [c]. *)
Definition ldpc_symbols (p : raptor_params) (c : list (list Z)) : outcome (list (list Z)) :=
  foldO (λ i c, foldO (λ b c, add_symbol (rp_SYMBOL_SIZE p) i (rp_K p + b) c) (ldpc_targets (rp_S p) i) c)
    (seqZ 0 (rp_K p)) c.

(** The half symbols of [c]. *)
Definition half_symbols (p : raptor_params) (c : list (list Z)) : outcome (list (list Z)) :=
  foldO (λ i c,
    count ← index (rp_m p) i;
    foldO (λ j c, add_symbol (rp_SYMBOL_SIZE p) i (rp_K p + rp_S p + j) c) (bit_positions count) c)
    (seqZ 0 (rp_K p + rp_S p)) c.

(** Encoding symbol [i]: the sum of some of the intermediate symbols. *)
Definition lt_symbol (p : raptor_params) (c : list (list Z)) (i : Z) : outcome (list Z) :=
  u ← index (rp_U p) i;
  idx ← lt_indices (rp_L p) (rp_Lp p) u;
  match idx with
  | [] => Panic "unreachable"
  | b :: idx =>
      e ← index c b;
      foldO (λ b e, s ← index c b; vector_xor_mp e s (rp_SYMBOL_SIZE p)) idx e
  end.

Definition LTCode_mp (p : raptor_params) (c : list (list Z)) (SymNum : Z) : outcome (list (list Z)) :=
  mapO (lt_symbol p c) (seqZ 0 SymNum).

(** The first [K] intermediate symbols. *)
Definition intermediate (p : raptor_params) (data : list (list Z)) : outcome (list (list Z)) :=
  foldO (λ j c,
    foldO (λ i c,
      row ← index (rp_AI p) j;
      x ← index row i;
      if x =? 1 then
        cj ← index c j;
        di ← index data i;
        cj ← vector_xor_mp cj di (rp_SYMBOL_SIZE p);
        set_index c j cj
      else Ret c) (seqZ 0 (rp_K p)) c)
    (seqZ 0 (rp_K p)) (replicate (Z.to_nat (rp_L p)) (zeros (rp_SYMBOL_SIZE p))).

Definition RaptorEncoder2_mp (data : list (list Z)) (p : raptor_params) (num_syms_per_enc_blk : Z) :
    outcome (list (list Z)) :=
  c ← intermediate p data;
  c ← ldpc_symbols p c;
  c ← half_symbols p c;
  LTCode_mp p c num_syms_per_enc_blk.

Definition RaptorEncoder_mp (data : list (list Z)) (p : raptor_params) : outcome (list (list Z)) :=
  c ← intermediate p data;
  c ← ldpc_symbols p c;
  c ← half_symbols p c;
  LTCode_mp p c (rp_M p).

(** ** Decoding *)

(** [ptr = M[j]; M[j] = M[i]; M[i] = ptr]. *)
Definition swap_rows (i j : Z) (M : list (list Z)) : outcome (list (list Z)) :=
  mj ← index M j; mi ← index M i;
  M ← set_index M j mi;
  set_index M i mj.

(** One column of [IntermediateKSymbols_mp]. *)
Definition solve_column (p : raptor_params) (j : Z) (M : list (list Z) * list (list Z)) :
    outcome (option (list (list Z) * list (list Z))) :=
  pivot ← find_pivot (Z.to_nat (rp_N p)) M.1 (rp_N p) j j;
  match pivot with
  | None => Ret None
  | Some i =>
      M ← (if i =? j then Ret M
           else AA ← swap_rows i j M.1; d ← swap_rows i j M.2; Ret (AA, d));
      M ← foldO (λ i M,
             row ← index M.1 i;
             x ← index row j;
             if (x =? 1) && negb (i =? j) then
               AA ← add_symbol (rp_K p) j i M.1;
               d ← add_symbol (rp_SYMBOL_SIZE p) j i M.2;
               Ret (AA, d)
             else Ret M) (seqZ 0 (rp_N p)) M;
      Ret (Some M)
  end.

Fixpoint solve_loop (n : nat) (p : raptor_params) (j : Z) (M : list (list Z) * list (list Z)) :
    outcome (option (list (list Z))) :=
  match n with
  | O => Ret (Some M.2)
  | S n =>
      r ← solve_column p j M;
      match r with
      | None => Ret None
      | Some M => solve_loop n p (j + 1) M
      end
  end.

Definition IntermediateKSymbols_mp (A e : list (list Z)) (p : raptor_params) : outcome (option (list (list Z))) :=
  d ← mapO (λ i, e_i ← index e i; slice e_i 0 (rp_SYMBOL_SIZE p)) (seqZ 0 (rp_N p));
  r ← solve_loop (Z.to_nat (rp_K p)) p 0 (A, d);
  match r with
  | None => Ret None
  | Some d =>
      c ← mapO (index d) (seqZ 0 (rp_K p));
      Ret (Some (c ++ replicate (Z.to_nat (rp_L p - rp_K p)) (zeros (rp_SYMBOL_SIZE p))))
  end.

Definition RaptorDecoder_mp (data : list (list Z)) (dataMap : list Z) (p : raptor_params) :
    outcome (option (list (list Z))) :=
  Anew ← FindMatrixAUsingSymbols_mp dataMap p;
  Anew ← InverseHALF_mp (rp_K p) (rp_S p) (rp_H p) (rp_m p) Anew (rp_N p);
  Anew ← InverseLDPC_mp (rp_K p) (rp_S p) Anew (rp_N p);
  c ← IntermediateKSymbols_mp Anew data p;
  match c with
  | None => Ret None
  | Some c =>
      c ← ldpc_symbols p c;
      c ← half_symbols p c;
      d ← LTCode_mp p c (rp_K p);
      Ret (Some d)
  end.

(** ** Blocks of bytes *)

(** [memcpy] of the [i]-th symbol out of a block. *)
Definition symbol_of (data : list Z) (size i : Z) : outcome (list Z) := slice data (i * size) (i * size + size).

Definition raptor_encoding_mp (p : raptor_params) (src_data : list Z) (sym_size num_src_syms : Z) :
    outcome (list Z) :=
  let num_enc_syms := f_ceil (f64_div (f64_of_Z num_src_syms) (f64_of_frac 8 10)) in
  let num_red_syms := num_enc_syms - num_src_syms in
  src_block ← mapO (symbol_of src_data sym_size) (seqZ 0 num_src_syms);
  enc_block ← RaptorEncoder2_mp src_block p num_enc_syms;
  red ← mapO (λ i, e ← index enc_block (num_src_syms + i); slice e 0 sym_size) (seqZ 0 num_red_syms);
  Ret (concat red).

(** [enc_block] has 160 rows. *)
Definition raptor_decoding2_mp (p : raptor_params) (enc_data : list Z) (symbol_map : list Z)
    (sym_size num_src_syms : Z) : outcome (option (list Z)) :=
  if 160 <? rp_N p then Panic "index out of range" else
  enc_block ← mapO (symbol_of enc_data sym_size) (seqZ 0 (rp_N p));
  dec ← RaptorDecoder_mp enc_block symbol_map p;
  match dec with
  | None => Ret None
  | Some dec =>
      l ← mapO (λ i, d ← index dec i; slice d 0 sym_size) (seqZ 0 num_src_syms);
      Ret (Some (concat l))
  end.

(** ** The Go interface *)

Definition FEC_SYMBOL_SIZE : Z := 1024.
Definition FEC_NUM_SOURCE_SYMBOLS : Z := 16.
Definition FEC_MINIMUM_OVERHEAD : spec_float := f32_of_frac 758 10000.

Record Raptor := {
  rt_raptor_params : raptor_params;
  rt_SymbolSize : Z;
  rt_NumSrcSymbols : Z;
  rt_NumEncSymbols : Z;
  rt_NumSymbolsForDecode : Z;
  rt_MinimumOverhead : spec_float;
  rt_CodeRate : spec_float;
}.

(** [init] for the given values. *)
Definition Raptor_init (NumSrcSymbols SymbolSize : Z) (MinimumOverhead CodeRate : spec_float) : outcome raptor_params :=
  p ← RaptorInitialization_mp NumSrcSymbols SymbolSize (float64 MinimumOverhead) CodeRate;
  match p with
  | None => Panic "Raptor initialization failed!!"
  | Some p => Ret p
  end.

Definition CreateRaptor : outcome Raptor :=
  p ← Raptor_init FEC_NUM_SOURCE_SYMBOLS FEC_SYMBOL_SIZE FEC_MINIMUM_OVERHEAD (f64_of_frac 8 10);
  Ret {| rt_raptor_params := p;
         rt_SymbolSize := FEC_SYMBOL_SIZE;
         rt_NumSrcSymbols := FEC_NUM_SOURCE_SYMBOLS;
         rt_NumEncSymbols := u32 (f_int (SFdiv 24 128 (f32_of_Z FEC_NUM_SOURCE_SYMBOLS) (f32_of_frac 8 10)));
         rt_NumSymbolsForDecode := 18;
         rt_MinimumOverhead := FEC_MINIMUM_OVERHEAD;
         rt_CodeRate := f64_of_frac 8 10 |}.

(** [&data[0]] panics for an empty slice; [C.GoBytes] copies the given number of
    bytes. *)
Definition Encode (r : Raptor) (data : list Z) : outcome (list Z) :=
  _ ← index data 0;
  fecBlock ← raptor_encoding_mp (rt_raptor_params r) data (rt_SymbolSize r) (rt_NumSrcSymbols r);
  slice fecBlock 0 (u32 (rt_SymbolSize r * 4)).

(** A [nil] result is [None]. *)
Definition Decode (r : Raptor) (data : list Z) (symbolMap : list Z) : outcome (option (list Z)) :=
  _ ← index data 0;
  _ ← index symbolMap 0;
  decBlock ← raptor_decoding2_mp (rt_raptor_params r) data symbolMap (rt_SymbolSize r) (rt_NumSrcSymbols r);
  match decBlock with
  | None => Ret None
  | Some decBlock => bs ← slice decBlock 0 (u32 (rt_SymbolSize r * rt_NumSrcSymbols r)); Ret (Some bs)
  end.
