(* ===== verification/Segment.v ===== *)
(** * Segments and block buffers ([mp2session/segment.go], [block_buffer.go])

    A block is requested in segments; the data packets of a segment may arrive
    in any order.  [PushData] stores a packet's bytes at their place, advances
    [expectedDataNumber] over the packets that are there and sets [Complete]
    after the last one; [PopData] hands out the bytes received in order.

    [segment_reassembles] is the contract: whatever the order of arrival, what
    is read is a prefix of the segment's data, bounded by the first packet that
    is missing, and the segment is complete exactly when all packets are there. *)

From stdpp Require Import base list numbers strings.
From Stdlib Require Import ZArith Lia.
From S2P Require Import Prelude Config Raptor.

Record Segment := {
  sg_BlockNumber : Z;
  sg_SessionID : Z;
  sg_Index : Z;
  sg_startDataNumber : Z;
  sg_endDataNumber : Z;
  sg_expectedDataNumber : Z;
  sg_readDataOffset : Z;
  sg_lastRecvDataOffset : Z;
  sg_size : Z;
  sg_Complete : bool;
  sg_Last : bool;
  sg_recvBuffer : list Z;
  sg_recvDataSize : list Z;
  sg_symSize : Z;
  sg_numSrcSymbols : Z;
  sg_numEncSymbols : Z;
  sg_numDataNumber : Z;
  sg_numRedDataNumber : Z;
  sg_startRedDataNumber : Z;
  sg_endRedDataNumber : Z;
  sg_recvRedBuffer : list Z;
  sg_recvRedDataSize : list Z;
  sg_FecFinish : bool;
}.

Definition CreateSegment (blockNumber sessionID idx start end_ segmentSize : Z) (last : bool) : Segment := {|
  sg_BlockNumber := blockNumber;
  sg_SessionID := sessionID;
  sg_Index := idx;
  sg_startDataNumber := start;
  sg_endDataNumber := end_;
  sg_expectedDataNumber := start;
  sg_readDataOffset := 0;
  sg_lastRecvDataOffset := 0;
  sg_size := segmentSize;
  sg_Complete := false;
  sg_Last := last;
  sg_recvBuffer := replicate (Z.to_nat segmentSize) 0;
  sg_recvDataSize := replicate (Z.to_nat (u32 (u32 (end_ - start) + 1))) 0;
  sg_symSize := 0; sg_numSrcSymbols := 0; sg_numEncSymbols := 0;
  sg_numDataNumber := 0; sg_numRedDataNumber := 0;
  sg_startRedDataNumber := 0; sg_endRedDataNumber := 0;
  sg_recvRedBuffer := []; sg_recvRedDataSize := [];
  sg_FecFinish := false;
|}.

(** [uint32(math.Ceil(float64(n)/float64(config.PAYLOAD_SIZE)))]: the division
    by a power of two is exact, so that this is the integer ceiling. *)
Definition ceil_payloads (n : Z) : Z := (n + PAYLOAD_SIZE - 1) / PAYLOAD_SIZE.

Definition CreateSegmentWithRedundant (blockNumber sessionID idx start end_ segmentSize : Z) (last : bool)
    (symSize numSrcSym numEncSym : Z) : Segment :=
  let g := CreateSegment blockNumber sessionID idx start end_ segmentSize last in
  let redundantSize := u32 (symSize * u32 (numEncSym - numSrcSym)) in
  let startRed := u32 (end_ + 1) in
  let endRed := u32 (startRed + ceil_payloads redundantSize - 1) in
  {| sg_BlockNumber := sg_BlockNumber g; sg_SessionID := sg_SessionID g; sg_Index := sg_Index g;
     sg_startDataNumber := sg_startDataNumber g; sg_endDataNumber := sg_endDataNumber g;
     sg_expectedDataNumber := sg_expectedDataNumber g; sg_readDataOffset := sg_readDataOffset g;
     sg_lastRecvDataOffset := sg_lastRecvDataOffset g; sg_size := sg_size g;
     sg_Complete := sg_Complete g; sg_Last := sg_Last g; sg_recvBuffer := sg_recvBuffer g;
     sg_recvDataSize := sg_recvDataSize g;
     sg_symSize := symSize; sg_numSrcSymbols := numSrcSym; sg_numEncSymbols := numEncSym;
     sg_numDataNumber := sg_numDataNumber g; sg_numRedDataNumber := sg_numRedDataNumber g;
     sg_startRedDataNumber := startRed; sg_endRedDataNumber := endRed;
     sg_recvRedBuffer := replicate (Z.to_nat redundantSize) 0;
     sg_recvRedDataSize := replicate (Z.to_nat (u32 (u32 (endRed - startRed) + 1))) 0;
     sg_FecFinish := false |}.

(** Field updates. *)
Definition sg_store (g : Segment) (buf sizes : list Z) (num : Z) : Segment := {|
  sg_BlockNumber := sg_BlockNumber g; sg_SessionID := sg_SessionID g; sg_Index := sg_Index g;
  sg_startDataNumber := sg_startDataNumber g; sg_endDataNumber := sg_endDataNumber g;
  sg_expectedDataNumber := sg_expectedDataNumber g; sg_readDataOffset := sg_readDataOffset g;
  sg_lastRecvDataOffset := sg_lastRecvDataOffset g; sg_size := sg_size g;
  sg_Complete := sg_Complete g; sg_Last := sg_Last g; sg_recvBuffer := buf; sg_recvDataSize := sizes;
  sg_symSize := sg_symSize g; sg_numSrcSymbols := sg_numSrcSymbols g;
  sg_numEncSymbols := sg_numEncSymbols g; sg_numDataNumber := num;
  sg_numRedDataNumber := sg_numRedDataNumber g; sg_startRedDataNumber := sg_startRedDataNumber g;
  sg_endRedDataNumber := sg_endRedDataNumber g; sg_recvRedBuffer := sg_recvRedBuffer g;
  sg_recvRedDataSize := sg_recvRedDataSize g; sg_FecFinish := sg_FecFinish g |}.
Definition sg_store_red (g : Segment) (buf sizes : list Z) (num : Z) : Segment := {|
  sg_BlockNumber := sg_BlockNumber g; sg_SessionID := sg_SessionID g; sg_Index := sg_Index g;
  sg_startDataNumber := sg_startDataNumber g; sg_endDataNumber := sg_endDataNumber g;
  sg_expectedDataNumber := sg_expectedDataNumber g; sg_readDataOffset := sg_readDataOffset g;
  sg_lastRecvDataOffset := sg_lastRecvDataOffset g; sg_size := sg_size g;
  sg_Complete := sg_Complete g; sg_Last := sg_Last g; sg_recvBuffer := sg_recvBuffer g;
  sg_recvDataSize := sg_recvDataSize g;
  sg_symSize := sg_symSize g; sg_numSrcSymbols := sg_numSrcSymbols g;
  sg_numEncSymbols := sg_numEncSymbols g; sg_numDataNumber := sg_numDataNumber g;
  sg_numRedDataNumber := num; sg_startRedDataNumber := sg_startRedDataNumber g;
  sg_endRedDataNumber := sg_endRedDataNumber g; sg_recvRedBuffer := buf;
  sg_recvRedDataSize := sizes; sg_FecFinish := sg_FecFinish g |}.
Definition sg_progress (g : Segment) (expected last : Z) (complete : bool) : Segment := {|
  sg_BlockNumber := sg_BlockNumber g; sg_SessionID := sg_SessionID g; sg_Index := sg_Index g;
  sg_startDataNumber := sg_startDataNumber g; sg_endDataNumber := sg_endDataNumber g;
  sg_expectedDataNumber := expected; sg_readDataOffset := sg_readDataOffset g;
  sg_lastRecvDataOffset := last; sg_size := sg_size g; sg_Complete := complete;
  sg_Last := sg_Last g; sg_recvBuffer := sg_recvBuffer g; sg_recvDataSize := sg_recvDataSize g;
  sg_symSize := sg_symSize g; sg_numSrcSymbols := sg_numSrcSymbols g;
  sg_numEncSymbols := sg_numEncSymbols g; sg_numDataNumber := sg_numDataNumber g;
  sg_numRedDataNumber := sg_numRedDataNumber g; sg_startRedDataNumber := sg_startRedDataNumber g;
  sg_endRedDataNumber := sg_endRedDataNumber g; sg_recvRedBuffer := sg_recvRedBuffer g;
  sg_recvRedDataSize := sg_recvRedDataSize g; sg_FecFinish := sg_FecFinish g |}.
Definition sg_read (g : Segment) (off : Z) (fecFinish : bool) : Segment := {|
  sg_BlockNumber := sg_BlockNumber g; sg_SessionID := sg_SessionID g; sg_Index := sg_Index g;
  sg_startDataNumber := sg_startDataNumber g; sg_endDataNumber := sg_endDataNumber g;
  sg_expectedDataNumber := sg_expectedDataNumber g; sg_readDataOffset := off;
  sg_lastRecvDataOffset := sg_lastRecvDataOffset g; sg_size := sg_size g;
  sg_Complete := sg_Complete g; sg_Last := sg_Last g; sg_recvBuffer := sg_recvBuffer g;
  sg_recvDataSize := sg_recvDataSize g;
  sg_symSize := sg_symSize g; sg_numSrcSymbols := sg_numSrcSymbols g;
  sg_numEncSymbols := sg_numEncSymbols g; sg_numDataNumber := sg_numDataNumber g;
  sg_numRedDataNumber := sg_numRedDataNumber g; sg_startRedDataNumber := sg_startRedDataNumber g;
  sg_endRedDataNumber := sg_endRedDataNumber g; sg_recvRedBuffer := sg_recvRedBuffer g;
  sg_recvRedDataSize := sg_recvRedDataSize g; sg_FecFinish := fecFinish |}.

(** The loop over the packets that are there from [dataIdx] on.  Each round
    passes one entry of [recvDataSize], so that their number is enough fuel
    ([advance_inv]). *)
Fixpoint advance (fuel : nat) (g : Segment) (dataIdx : Z) : outcome Segment :=
  match fuel with
  | O => Ret g
  | S fuel =>
      n ← index (sg_recvDataSize g) dataIdx;
      if 0 <? n then
        let complete := if sg_expectedDataNumber g =? sg_endDataNumber g then true else sg_Complete g in
        let expected := u32 (sg_expectedDataNumber g + 1) in
        let g := sg_progress g expected (u32 (sg_lastRecvDataOffset g + n)) complete in
        let dataIdx := u32 (expected - sg_startDataNumber g) in
        if dataIdx =? zlen (sg_recvDataSize g) then Ret g else advance fuel g dataIdx
      else Ret g
  end.

Definition PushData (g : Segment) (blockNumber dataNumber : Z) (data : list Z) : outcome (bool * Segment) :=
  if (blockNumber =? sg_BlockNumber g) && (sg_startDataNumber g <=? dataNumber) &&
     (dataNumber <=? sg_endDataNumber g) then
    let dataIdx := u32 (dataNumber - sg_startDataNumber g) in
    let startIdx := u32 (dataIdx * PAYLOAD_SIZE) in
    let endIdx := u32 (startIdx + u32 (zlen data)) in
    buf ← copy_to (sg_recvBuffer g) startIdx endIdx data;
    sizes ← set_index (sg_recvDataSize g) dataIdx (u32 (zlen data));
    let g := sg_store g buf sizes (u32 (sg_numDataNumber g + 1)) in
    g ← (if dataNumber =? sg_expectedDataNumber g then advance (length sizes) g dataIdx else Ret g);
    Ret (true, g)
  else Ret (false, g).

Definition PushRedData (g : Segment) (blockNumber dataNumber : Z) (data : list Z) : outcome (bool * Segment) :=
  if (blockNumber =? sg_BlockNumber g) && (sg_startRedDataNumber g <=? dataNumber) &&
     (dataNumber <=? sg_endRedDataNumber g) then
    let dataIdx := u32 (dataNumber - sg_startRedDataNumber g) in
    let startIdx := u32 (dataIdx * PAYLOAD_SIZE) in
    let endIdx := u32 (startIdx + u32 (zlen data)) in
    buf ← copy_to (sg_recvRedBuffer g) startIdx endIdx data;
    sizes ← set_index (sg_recvRedDataSize g) dataIdx (u32 (zlen data));
    Ret (true, sg_store_red g buf sizes (u32 (sg_numRedDataNumber g + 1)))
  else Ret (false, g).

(** [PopData] into a slice of [bufLen] bytes: the bytes copied (their number is
    [readLen]), whether the segment has been read completely, the segment. *)
Definition PopData (g : Segment) (bufLen : Z) : outcome (list Z * bool * Segment) :=
  let bufLen := u32 bufLen in
  if sg_readDataOffset g <? sg_lastRecvDataOffset g then
    let unreadDataSize := sg_lastRecvDataOffset g - sg_readDataOffset g in
    let readLen := if bufLen <? unreadDataSize then bufLen else unreadDataSize in
    bs ← slice (sg_recvBuffer g) (sg_readDataOffset g) (u32 (sg_readDataOffset g + readLen));
    let off := u32 (sg_readDataOffset g + readLen) in
    Ret (bs, off =? sg_size g, sg_read g off (sg_FecFinish g))
  else Ret ([], sg_readDataOffset g =? sg_size g, g).

Definition hasDataToRead (g : Segment) : bool := sg_readDataOffset g <? sg_lastRecvDataOffset g.

Definition FecDecode (g : Segment) (raptor : Raptor) : bool :=
  rt_NumSymbolsForDecode raptor <=? u32 (sg_numDataNumber g + sg_numRedDataNumber g).

(** ** Block buffers: a queue of segments *)

Record BlockBuffer := {
  bb_lastRecvBytes : Z;
  bb_readBytes : Z;
  bb_buffer : list Segment;
}.

Definition CreateBlockBuffer : BlockBuffer := {| bb_lastRecvBytes := 0; bb_readBytes := 0; bb_buffer := [] |}.

Definition bb_set_buffer (b : BlockBuffer) (l : list Segment) : BlockBuffer := {|
  bb_lastRecvBytes := bb_lastRecvBytes b; bb_readBytes := bb_readBytes b; bb_buffer := l |}.

Definition PushSegment (b : BlockBuffer) (g : Segment) : BlockBuffer := bb_set_buffer b (bb_buffer b ++ [g]).

Definition ReadSegment (b : BlockBuffer) : outcome Segment := index (bb_buffer b) 0.

Definition RemoveSegment (b : BlockBuffer) : outcome BlockBuffer :=
  l ← slice (bb_buffer b) 1 (zlen (bb_buffer b)); Ret (bb_set_buffer b l).

Definition BlockBuffer_IsEmpty (b : BlockBuffer) : bool := zlen (bb_buffer b) =? 0.

Definition BlockBuffer_GetLength (b : BlockBuffer) : Z := zlen (bb_buffer b).

(** ** Reassembly of a segment *)

(** The data of the [i]-th packet of a segment. *)
Definition chunk (data : list Z) (i : Z) : list Z :=
  take (Z.to_nat PAYLOAD_SIZE) (drop (Z.to_nat (i * PAYLOAD_SIZE)) data).

Section Reassembly.
Context (data : list Z) (bn start : Z).
Let size := zlen data.
Let num := ceil_payloads size.
Context (Hsize : 0 < size < 2 ^ 32) (Hstart : 0 <= start) (Hend : start + num < 2 ^ 32).

Lemma num_bounds : 0 < num ∧ (num - 1) * PAYLOAD_SIZE < size <= num * PAYLOAD_SIZE.
Proof. unfold num, ceil_payloads, PAYLOAD_SIZE. clear Hend. mlia. Qed.

Lemma zlen_chunk i : 0 <= i < num →
  zlen (chunk data i) = Z.min PAYLOAD_SIZE (size - i * PAYLOAD_SIZE).
Proof.
  intros Hi. pose proof num_bounds. unfold chunk, zlen, size, PAYLOAD_SIZE in *. unfold zlen in *.
  rewrite length_take, length_drop. lia.
Qed.

(** The segment holds the packets [S] and has passed the first [e] of them;
    [out] is what has been read. *)
Record seg_core (S : Z → Prop) (e : Z) (g : Segment) (out : list Z) : Prop := {
  sc_block : sg_BlockNumber g = bn;
  sc_start : sg_startDataNumber g = start;
  sc_end : sg_endDataNumber g = start + num - 1;
  sc_size : sg_size g = size;
  sc_buflen : zlen (sg_recvBuffer g) = size;
  sc_sizes : zlen (sg_recvDataSize g) = num;
  sc_range : ∀ i, S i → 0 <= i < num;
  sc_recv : ∀ i x, sg_recvDataSize g !! Z.to_nat i = Some x → 0 <= i →
    (S i ∧ x = zlen (chunk data i)) ∨ (¬ S i ∧ x = 0);
  sc_bytes : ∀ i (j : nat), S i →
    i * PAYLOAD_SIZE <= Z.of_nat j < Z.min ((i + 1) * PAYLOAD_SIZE) size →
    sg_recvBuffer g !! j = data !! j;
  sc_passed : 0 <= e <= num ∧ sg_expectedDataNumber g = start + e ∧ ∀ i, 0 <= i < e → S i;
  sc_last : sg_lastRecvDataOffset g = Z.min (e * PAYLOAD_SIZE) size;
  sc_complete : sg_Complete g = (e =? num);
  sc_out : 0 <= sg_readDataOffset g <= sg_lastRecvDataOffset g ∧
           out = take (Z.to_nat (sg_readDataOffset g)) data;
}.

Definition seg_inv (S : Z → Prop) (g : Segment) (out : list Z) : Prop :=
  ∃ e, seg_core S e g out ∧ ¬ S e.

Lemma advance_inv S e fuel g out :
  seg_core S e g out → e < num → num - e <= Z.of_nat fuel →
  ∃ g', advance fuel g e = Ret g' ∧ seg_inv S g' out.
Proof.
  pose proof num_bounds as [Hn Hnb]. unfold PAYLOAD_SIZE in *.
  revert e g. induction fuel as [|fuel IH]; intros e g Hc He Hf; [lia|].
  pose proof Hc as [Hb Hs Hen Hsz Hbl Hss Hra Hre Hby (Her & Hex & Hpa) Hla Hco (Hro & Hout)].
  cbn [advance]. destruct (zget_is_Some (sg_recvDataSize g) e) as [x Hx]; [lia|].
  rewrite (index_Ret _ _ _ Hx). cbn [mbind outcome_bind].
  apply zget_Some in Hx as [_ Hx]. destruct (Hre e x Hx ltac:(lia)) as [[HS ->]|[HS ->]].
  2:{ exists g. split; [done|]. by exists e. }
  pose proof (zlen_chunk e ltac:(lia)) as Hck. unfold PAYLOAD_SIZE in Hck.
  destruct (Z.ltb_spec 0 (zlen (chunk data e))); [|lia].
  set (g' := sg_progress g _ _ _). simpl sg_startDataNumber.
  assert (u32 (sg_expectedDataNumber g + 1) = start + (e + 1)) as Hexp.
  { rewrite Hex, wrap_small; unfold uint; lia. }
  assert (u32 (u32 (sg_expectedDataNumber g + 1) - sg_startDataNumber g) = e + 1) as Hidx.
  { rewrite Hexp, Hs, wrap_small; unfold uint; lia. }
  assert (seg_core S (e + 1) g' out) as Hc'.
  { split; simpl; try done.
    - split; [lia|]. split; [done|]. intros i Hi. destruct (decide (i = e)) as [->|]; [done|].
      apply Hpa. lia.
    - rewrite Hla, Hck, wrap_small; unfold uint, PAYLOAD_SIZE; lia.
    - rewrite Hco, Hex, Hen. destruct (Z.eqb_spec (start + e) (start + num - 1)),
        (Z.eqb_spec e num), (Z.eqb_spec (e + 1) num); done || lia.
    - split; [|done]. rewrite Hck, Hla, wrap_small; unfold uint, PAYLOAD_SIZE in *; lia. }
  change (sg_recvDataSize g') with (sg_recvDataSize g).
  change (sg_startDataNumber g') with (sg_startDataNumber g). rewrite Hidx, Hss.
  destruct (Z.eqb_spec (e + 1) num) as [Heq|Hne].
  - exists g'. split; [done|]. exists (e + 1). split; [done|]. intros HS'%Hra. lia.
  - apply IH; [done|lia..].
Qed.

Lemma CreateSegment_inv sid idx last :
  seg_inv (λ _, False) (CreateSegment bn sid idx start (start + num - 1) size last) [].
Proof.
  pose proof num_bounds as [Hn Hnb]. exists 0. split; [|by intros []].
  assert (u32 (u32 (start + num - 1 - start) + 1) = num) as Hnum.
  { rewrite (wrap_small 32 (_ - start)), wrap_small; unfold uint; lia. }
  split; cbn [sg_BlockNumber sg_startDataNumber sg_endDataNumber sg_size sg_recvBuffer
              sg_recvDataSize sg_expectedDataNumber sg_lastRecvDataOffset sg_Complete
              sg_readDataOffset CreateSegment]; rewrite ?Hnum; try done; try lia.
  - unfold zlen. rewrite length_replicate. lia.
  - unfold zlen. rewrite length_replicate. lia.
  - intros i x [-> _]%lookup_replicate. auto.
  - split_and!; lia.
Qed.

(** Storing a packet in its place. *)
Lemma store_core S e g out i buf sizes k :
  seg_core S e g out → 0 <= i < num →
  buf = splice (sg_recvBuffer g) (Z.to_nat (i * PAYLOAD_SIZE)) (chunk data i) →
  sizes = <[Z.to_nat i := zlen (chunk data i)]> (sg_recvDataSize g) →
  seg_core (λ j, S j ∨ j = i) e (sg_store g buf sizes k) out.
Proof.
  pose proof num_bounds as [Hn Hnb]. unfold PAYLOAD_SIZE in *.
  intros [Hb Hs Hen Hsz Hbl Hss Hra Hre Hby (Her & Hex & Hpa) Hla Hco Hout] Hi -> ->.
  pose proof (zlen_chunk i Hi) as Hck. unfold zlen, size, PAYLOAD_SIZE in *.
  assert (length (sg_recvBuffer g) = length data) as Hbl' by (unfold zlen in *; lia).
  split; simpl; rewrite ?length_insert; try done.
  - unfold zlen. rewrite length_splice; unfold zlen in *; lia.
  - unfold zlen. rewrite length_insert. done.
  - intros j [?| ->]; auto.
  - intros j x Hj Hj0. apply list_lookup_insert_Some in Hj as [(Heq & <- & _)|[Hne Hj]].
    + left. replace j with i by lia. auto.
    + destruct (Hre j x Hj Hj0) as [[? ?]|[Hnj ?]]; [by left; auto|]. right. split; [|done].
      intros [?| ->]; done.
  - intros j k' HS Hk'. unfold PAYLOAD_SIZE in *.
    destruct (decide (Z.to_nat (i * 1024) <= k' < Z.to_nat (i * 1024) + length (chunk data i))%nat) as [Hin|Hout'].
    + rewrite splice_lookup_in by lia. unfold chunk, PAYLOAD_SIZE.
      rewrite lookup_take_lt by (unfold zlen in *; lia).
      rewrite lookup_drop. f_equal. lia.
    + rewrite splice_lookup_out by (unfold zlen in *; lia).
      destruct HS as [HS| ->]; [by apply (Hby j)|]. exfalso. unfold zlen in *. lia.
  - split; [done|]. split; [done|]. auto.
Qed.

Lemma PushData_inv S g out i :
  seg_inv S g out → 0 <= i < num →
  ∃ g', PushData g bn (start + i) (chunk data i) = Ret (true, g') ∧
        seg_inv (λ j, S j ∨ j = i) g' out.
Proof.
  pose proof num_bounds as [Hn Hnb]. intros (e & Hc & HSe) Hi.
  pose proof Hc as [Hb Hs Hen Hsz Hbl Hss Hra Hre Hby (Her & Hex & Hpa) Hla Hco Hout].
  pose proof (zlen_chunk i Hi) as Hck. unfold PAYLOAD_SIZE in *.
  unfold PushData. rewrite Hb, Z.eqb_refl, Hs, Hen.
  rewrite (proj2 (Z.leb_le _ _)), (proj2 (Z.leb_le _ _)) by lia. cbn [andb]. unfold PAYLOAD_SIZE.
  replace (u32 (start + i - start)) with i by (rewrite wrap_small; unfold uint; lia).
  rewrite (wrap_small 32 (zlen _)), (wrap_small 32 (i * 1024)), (wrap_small 32 (_ + zlen _))
    by (unfold uint; lia).
  rewrite copy_to_Ret by lia. cbn [mbind outcome_bind]. rewrite set_index_Ret by lia.
  cbn [mbind outcome_bind].
  set (g1 := sg_store g _ _ _).
  assert (seg_core (λ j, S j ∨ j = i) e g1 out) as Hc1 by (apply store_core; done).
  change (sg_expectedDataNumber g1) with (sg_expectedDataNumber g). rewrite Hex.
  destruct (Z.eqb_spec (start + i) (start + e)) as [Heq|Hne].
  - replace i with e in * by lia.
    destruct (advance_inv _ _ (length (<[Z.to_nat e:=zlen (chunk data e)]> (sg_recvDataSize g))) _ _ Hc1)
      as (g' & -> & Hg'); [lia| |by eauto].
    rewrite length_insert. unfold zlen in *. lia.
  - exists g1. split; [done|]. exists e. split; [done|]. intros [?| ->]; [done|lia].
Qed.

(** Data of another block or another segment is refused. *)
Lemma PushData_other g blockNumber dataNumber d S out :
  seg_inv S g out → (blockNumber ≠ bn ∨ dataNumber < start ∨ start + num <= dataNumber) →
  PushData g blockNumber dataNumber d = Ret (false, g).
Proof.
  intros (e & [Hb Hs Hen _ _ _ _ _ _ _ _ _ _] & _) Hno. unfold PushData. rewrite Hb, Hs, Hen.
  destruct (Z.eqb_spec blockNumber bn), (Z.leb_spec start dataNumber),
    (Z.leb_spec dataNumber (start + num - 1)); simpl; done || lia.
Qed.

Lemma seg_prefix S e g out :
  seg_core S e g out → ∀ j : nat, (Z.of_nat j < sg_lastRecvDataOffset g) →
  sg_recvBuffer g !! j = data !! j.
Proof.
  intros [Hb Hs Hen Hsz Hbl Hss Hra Hre Hby (Her & Hex & Hpa) Hla Hco Hout] j Hj.
  unfold PAYLOAD_SIZE in *. apply (Hby (Z.of_nat j / 1024)); unfold PAYLOAD_SIZE.
  - apply Hpa. zify_div. lia.
  - zify_div. lia.
Qed.

Lemma seg_slice S e g out a b :
  seg_core S e g out → 0 <= a <= b → b <= sg_lastRecvDataOffset g →
  slice (sg_recvBuffer g) a b = Ret (drop (Z.to_nat a) (take (Z.to_nat b) data)).
Proof.
  intros Hc Ha Hb. pose proof (seg_prefix _ _ _ _ Hc) as Hp.
  pose proof Hc as [_ _ _ _ Hbl _ _ _ _ _ Hla _ _].
  unfold slice. rewrite bool_decide_true by lia. f_equal. unfold zslice.
  rewrite <-skipn_firstn_comm.
  replace (Z.to_nat a + (Z.to_nat b - Z.to_nat a))%nat with (Z.to_nat b) by lia. f_equal.
  apply list_eq. intros j. destruct (decide (j < Z.to_nat b)%nat).
  - rewrite !lookup_take_lt by done. apply Hp. lia.
  - by rewrite !lookup_take_ge by lia.
Qed.

Lemma PopData_inv S g out n :
  seg_inv S g out → 0 <= n < 2 ^ 32 →
  ∃ bs fin g', PopData g n = Ret (bs, fin, g') ∧ seg_inv S g' (out ++ bs) ∧
    (fin = true ↔ out ++ bs = data) ∧
    zlen (out ++ bs) = Z.min (zlen out + n) (sg_lastRecvDataOffset g).
Proof.
  intros (e & Hc & HSe) Hn.
  pose proof Hc as [Hb Hs Hen Hsz Hbl Hss Hra Hre Hby (Her & Hex & Hpa) Hla Hco (Hro & Hout)].
  assert (sg_lastRecvDataOffset g <= size) as Hls by (unfold PAYLOAD_SIZE in *; lia).
  assert (∀ r, 0 <= r <= size → zlen (take (Z.to_nat r) data) = r) as Hzt.
  { intros r Hr. unfold zlen, size in *. rewrite length_take. unfold zlen in *. lia. }
  assert (∀ r, 0 <= r <= size → (r =? size) = true ↔ take (Z.to_nat r) data = data) as Hfin.
  { intros r Hr. rewrite Z.eqb_eq. split; [intros ->; apply take_ge; unfold size, zlen; lia|].
    intros Ht. rewrite <-(Hzt r Hr), Ht. done. }
  unfold PopData. rewrite (wrap_small 32 n) by (unfold uint; lia).
  destruct (Z.ltb_spec (sg_readDataOffset g) (sg_lastRecvDataOffset g)) as [Hlt|Hge].
  - set (len := if n <? _ then _ else _).
    assert (len = Z.min n (sg_lastRecvDataOffset g - sg_readDataOffset g)) as Hlen.
    { unfold len. destruct (Z.ltb_spec n (sg_lastRecvDataOffset g - sg_readDataOffset g)); lia. }
    rewrite (wrap_small 32 (sg_readDataOffset g + len)) by (unfold uint; lia).
    rewrite (seg_slice S e g out) by (done || lia). cbn [mbind outcome_bind].
    assert (out ++ drop (Z.to_nat (sg_readDataOffset g)) (take (Z.to_nat (sg_readDataOffset g + len)) data)
            = take (Z.to_nat (sg_readDataOffset g + len)) data) as Happ.
    { rewrite Hout. etrans; [|apply (take_drop (Z.to_nat (sg_readDataOffset g)))].
      f_equal. rewrite take_take. f_equal. lia. }
    eexists _, _, _. split; [done|]. rewrite Happ, Hsz. split; [|split; [apply Hfin; lia|]].
    + exists e. split; [|done]. split; simpl; try done. split; [lia|done].
    + rewrite Hzt, Hout, Hzt by lia. lia.
  - eexists _, _, _. split; [done|]. rewrite app_nil_r, Hsz. split; [by exists e|].
    split; rewrite Hout; [apply Hfin; lia|]. rewrite Hzt by lia. lia.
Qed.
End Reassembly.

(** ** Runs of a segment *)

Inductive seg_op :=
| SPush (blockNumber dataNumber : Z) (d : list Z)
| SPop (bufLen : Z).

Fixpoint seg_run (g : Segment) (ops : list seg_op) : outcome (list Z * Segment) :=
  match ops with
  | [] => Ret ([], g)
  | SPush b dn d :: ops => '(_, g) ← PushData g b dn d; seg_run g ops
  | SPop n :: ops => '(bs, _, g) ← PopData g n; '(out, g) ← seg_run g ops; Ret (bs ++ out, g)
  end.

(** A packet of the segment carries its chunk of the data; other packets are
    arbitrary. *)
Definition seg_op_ok (data : list Z) (bn start : Z) (op : seg_op) : Prop :=
  match op with
  | SPush b dn d => b = bn → start <= dn < start + ceil_payloads (zlen data) → d = chunk data (dn - start)
  | SPop n => uint 32 n
  end.

(** The packets of the segment among the operations. *)
Definition received (bn start num : Z) (ops : list seg_op) (i : Z) : Prop :=
  ∃ d, SPush bn (start + i) d ∈ ops ∧ 0 <= i < num.

Lemma seg_run_inv data bn start ops S g out :
  let num := ceil_payloads (zlen data) in
  0 < zlen data < 2 ^ 32 → 0 <= start → start + num < 2 ^ 32 →
  seg_inv data bn start S g out → Forall (seg_op_ok data bn start) ops →
  ∃ out' g' S', seg_run g ops = Ret (out', g') ∧ seg_inv data bn start S' g' (out ++ out') ∧
    ∀ i, S' i ↔ S i ∨ received bn start num ops i.
Proof.
  intros num Hd Hs He. revert S g out. induction ops as [|op ops IH]; intros S g out Hi Hok.
  { eexists _, _, S. split; [done|]. rewrite app_nil_r. split; [done|].
    intros i. split; [auto|]. intros [|(d & Hd' & _)]; [done|]. by apply elem_of_nil in Hd'. }
  apply Forall_cons_1 in Hok as [Hop Hok]. destruct op as [b dn d|n]; cbn [seg_run].
  - destruct (decide (b = bn ∧ start <= dn < start + num)) as [[-> Hdn]|Hno].
    + rewrite (Hop eq_refl Hdn). destruct (PushData_inv data bn start Hd Hs He S g out (dn - start))
        as (g' & Hp & Hi'); [done|unfold num in *; lia|].
      replace (start + (dn - start)) with dn in Hp by lia. rewrite Hp. cbn [mbind outcome_bind].
      destruct (IH _ _ _ Hi' Hok) as (out' & g'' & S' & -> & Hi'' & HS'').
      eexists _, _, S'. split; [done|]. split; [done|]. intros i. rewrite HS''. unfold received.
      setoid_rewrite elem_of_cons. split.
      * intros [[?| ->]|(d' & ? & ?)]; [auto| |by eauto 6]. right. eexists. split; [|lia].
        left. f_equal. lia.
      * intros [?|(d' & [Heq|?] & ?)]; [auto| |by eauto 6]. left. right. injection Heq. lia.
    + rewrite (PushData_other data bn start g b dn d S out Hi) by (unfold num in *; lia).
      cbn [mbind outcome_bind]. destruct (IH _ _ _ Hi Hok) as (out' & g' & S' & -> & Hi' & HS').
      eexists _, _, S'. split; [done|]. split; [done|]. intros i. rewrite HS'. unfold received.
      setoid_rewrite elem_of_cons. split; [intros [|(d' & ? & ?)]; eauto 6|].
      intros [?|(d' & [Heq|?] & ?)]; [auto| |by eauto 6]. exfalso. apply Hno. injection Heq. lia.
  - destruct (PopData_inv data bn start Hd S g out n) as (bs & fin & g' & -> & Hi' & _); [done..|].
    cbn [mbind outcome_bind]. destruct (IH _ _ _ Hi' Hok) as (out' & g'' & S' & -> & Hi'' & HS'').
    cbn [mbind outcome_bind]. eexists _, _, S'. split; [done|]. rewrite app_assoc. split; [done|].
    intros i. rewrite HS''. unfold received. setoid_rewrite elem_of_cons.
    split; intros [?|(d' & Hd' & ?)]; [by auto|by eauto 6|by auto|].
    destruct Hd' as [|]; [done|by eauto 6].
Qed.

(** ** Properties *)

(** C6.  A segment reassembles its data.  The packets of the segment may arrive
    in any order and more than once, between packets of other blocks and
    segments, and reads may come at any time.  Nothing panics; what has been
    read is a prefix of the data; the packets before [expectedDataNumber] have
    arrived and that one has not; exactly the bytes of those packets are
    available; and [Complete] is set when, and only when, every packet of the
    segment has arrived. *)
Theorem segment_reassembles (data : list Z) (bn sid idx start : Z) (last : bool) (ops : list seg_op) :
  let size := zlen data in
  let num := ceil_payloads size in
  0 < size < 2 ^ 32 → 0 <= start → start + num < 2 ^ 32 →
  Forall (seg_op_ok data bn start) ops →
  ∃ out g, seg_run (CreateSegment bn sid idx start (start + num - 1) size last) ops = Ret (out, g) ∧
    let e := sg_expectedDataNumber g - start in
    out = take (length out) data ∧ zlen out = sg_readDataOffset g ∧
    (∀ i, 0 <= i < e → received bn start num ops i) ∧ ¬ received bn start num ops e ∧
    sg_lastRecvDataOffset g = Z.min (e * PAYLOAD_SIZE) size ∧
    (sg_Complete g = true ↔ ∀ i, 0 <= i < num → received bn start num ops i).
Proof.
  intros size num Hd Hs He Hok.
  destruct (seg_run_inv data bn start ops _ _ _ Hd Hs He (CreateSegment_inv data bn start Hd Hs He sid idx last) Hok)
    as (out & g & S & Hrun & (e & Hc & HSe) & HS).
  exists out, g. split; [done|].
  pose proof Hc as [Hb Hst Hen Hsz Hbl Hss Hra Hre Hby (Her & Hex & Hpa) Hla Hco (Hro & Hout)].
  rewrite Hex. replace (start + e - start) with e by lia. simpl in Hout.
  assert (zlen out = sg_readDataOffset g) as Hlen.
  { rewrite Hout. unfold zlen, PAYLOAD_SIZE in *. rewrite length_take. lia. }
  assert (∀ i, S i ↔ received bn start num ops i) as HS' by (intros i; rewrite HS; tauto).
  split_and!; try done.
  - rewrite Hout at 1. f_equal. unfold zlen in Hlen. lia.
  - intros i Hi. by apply HS', Hpa.
  - by rewrite <-HS'.
  - rewrite Hco, Z.eqb_eq. split.
    + intros -> i Hi. by apply HS', Hpa.
    + intros Hall. destruct (decide (e = num)) as [|Hne]; [done|]. exfalso.
      apply HSe, HS', Hall. unfold num, size in *. lia.
Qed.

Lemma segment_reassembles_witness :
  let data := replicate 1030 5 in
  ∃ out g, seg_run (CreateSegment 9 1 0 2 3 1030 true)
             [SPush 9 3 (replicate 6 5); SPop 100; SPush 8 2 [1]; SPush 9 2 (replicate 1024 5); SPop 3] = Ret (out, g) ∧
    out = take (length out) data ∧ sg_lastRecvDataOffset g = Z.min ((sg_expectedDataNumber g - 2) * 1024) 1030.
Proof.
  intros data.
  destruct (segment_reassembles data 9 1 0 2 true
    [SPush 9 3 (replicate 6 5); SPop 100; SPush 8 2 [1]; SPush 9 2 (replicate 1024 5); SPop 3])
    as (out & g & Hr & Ho & _ & _ & _ & Hl & _).
  - vm_compute. auto.
  - lia.
  - vm_compute. auto.
  - repeat apply Forall_cons_2; [..|apply Forall_nil_2];
      [intros _ _|unfold seg_op_ok, uint; lia|intros [=]|intros _ _|unfold seg_op_ok, uint; lia];
      vm_compute; reflexivity.
  - exists out, g. split; [exact Hr|]. split; [exact Ho|exact Hl].
Defined.
