(* ===== verification/Mp2Frames.v ===== *)
(** * Packet framing of the block layer ([mp2session/mp2session.go])

    [sessionHandler] reads the byte stream of a session packet by packet: three
    bytes with type and length, the rest of the packet, and [parsePacket]
    dispatches on the type.  The nine packet types form one type [Mp2Packet]
    that implements the [WirePacket] interface, and [mp2_framing] shows that
    the packets a peer sends are the packets the handler sees, however the
    stream is cut by the arrival of data. *)

From stdpp Require Import base list numbers strings.
From Stdlib Require Import ZArith Lia.
From S2P Require Import Prelude Config Util Mp2Packets.

Inductive Mp2Packet :=
| PBlockFind (p : BlockFindPacket)
| PBlockInfo (p : BlockInfoPacket)
| PBlockRequest (p : BlockRequestPacket)
| PBlockData (p : BlockDataPacket)
| PBlockDataAck (p : BlockDataAckPacket)
| PBlockFin (p : BlockFinPacket)
| PControl (p : ControlPacket)
| PNodeInfo (p : NodeInfoPacket)
| PNodeInfoAck (p : NodeInfoAckPacket).

(** The switch of [parsePacket], up to the call of the handler; an error of a
    parser is a panic. *)
Definition parse_as {P} (f : P → Mp2Packet) (o : outcome (P * list Z)) : outcome (Mp2Packet * list Z) :=
  match o with
  | Ret (p, r) => Ret (f p, r)
  | Err _ => Panic "parse error"
  | Panic m => Panic m
  end.

Definition parse_packet (packetType : Z) (packet : list Z) : outcome (Mp2Packet * list Z) :=
  if packetType =? BLOCK_FIND_PACKET then parse_as PBlockFind (ParseBlockFindPacket packet)
  else if packetType =? BLOCK_INFO_PACKET then parse_as PBlockInfo (ParseBlockInfoPacket packet)
  else if packetType =? BLOCK_REQUEST_PACKET then parse_as PBlockRequest (ParseBlockRequestPacket packet)
  else if packetType =? BLOCK_DATA_PACKET then parse_as PBlockData (ParseBlockDataPacket packet)
  else if packetType =? BLOCK_DATA_ACK_PACKET then parse_as PBlockDataAck (ParseBlockDataAckPacket packet)
  else if packetType =? BLOCK_FIN_PACKET then parse_as PBlockFin (ParseBlockFinPacket packet)
  else if packetType =? CONTROL_PACKET then parse_as PControl (ParseControlPacket packet)
  else if packetType =? NODE_INFO_PACKET then parse_as PNodeInfo (ParseNodeInfoPacket packet)
  else if packetType =? NODE_INFO_ACK_PACKET then parse_as PNodeInfoAck (ParseNodeInfoAckPacket packet)
  else Panic "Mp2Session.parsePacket(): Unknown packet type".

(** One round of [sessionHandler] on the bytes [avail] ready to be read from
    the session, [goodbye] being the session's flag. *)
Inductive frame :=
| Waiting
| Closed
| Frame (p : Mp2Packet) (rest : list Z).

Definition read_frame (conf : Config) (goodbye : bool) (avail : list Z) : outcome frame :=
  let buf := replicate (Z.to_nat (PACKET_SIZE conf)) 0 in
  if (3 <=? zlen avail) || goodbye then
    buf ← copy_to buf 0 3 (take 3 avail);
    let avail := drop 3 avail in
    '(packetType, r) ← ReadByte (take 3 buf);
    '(packetLength, _) ← ReadUint16 r;
    if (packetType =? 0) && (packetLength =? 0) then Ret Closed
    else if bool_decide (3 <= packetLength <= zlen buf) then
      if (u16 (packetLength - 3) <=? zlen avail) || goodbye then
        let got := take (Z.to_nat (packetLength - 3)) avail in
        buf ← copy_to buf 3 packetLength got;
        '(p, _) ← parse_packet packetType buf;
        Ret (Frame p (drop (length got) avail))
      else Ret Waiting
    else Panic "slice bounds out of range"
  else Ret Waiting.

(** The packets handled until the handler waits for more bytes, and the bytes
    left; each packet takes at least three bytes. *)
Fixpoint read_frames (fuel : nat) (conf : Config) (avail : list Z) : outcome (list Mp2Packet * list Z) :=
  match fuel with
  | O => Ret ([], avail)
  | S fuel =>
      fr ← read_frame conf false avail;
      match fr with
      | Frame p rest => '(ps, rest) ← read_frames fuel conf rest; Ret (p :: ps, rest)
      | _ => Ret ([], avail)
      end
  end.

(** ** [Mp2Packet] implements the packet interface *)

Definition packet_Write (p : Mp2Packet) : outcome (list Z) :=
  match p with
  | PBlockFind p => pkt_write p
  | PBlockInfo p => pkt_write p
  | PBlockRequest p => pkt_write p
  | PBlockData p => pkt_write p
  | PBlockDataAck p => pkt_write p
  | PBlockFin p => pkt_write p
  | PControl p => pkt_write p
  | PNodeInfo p => pkt_write p
  | PNodeInfoAck p => pkt_write p
  end.

Definition packet_type (p : Mp2Packet) : Z :=
  match p with
  | PBlockFind p => pkt_type p
  | PBlockInfo p => pkt_type p
  | PBlockRequest p => pkt_type p
  | PBlockData p => pkt_type p
  | PBlockDataAck p => pkt_type p
  | PBlockFin p => pkt_type p
  | PControl p => pkt_type p
  | PNodeInfo p => pkt_type p
  | PNodeInfoAck p => pkt_type p
  end.

Definition packet_length (p : Mp2Packet) : Z :=
  match p with
  | PBlockFind p => pkt_length p
  | PBlockInfo p => pkt_length p
  | PBlockRequest p => pkt_length p
  | PBlockData p => pkt_length p
  | PBlockDataAck p => pkt_length p
  | PBlockFin p => pkt_length p
  | PControl p => pkt_length p
  | PNodeInfo p => pkt_length p
  | PNodeInfoAck p => pkt_length p
  end.

Definition packet_valid (p : Mp2Packet) : Prop :=
  match p with
  | PBlockFind p => pkt_valid p
  | PBlockInfo p => pkt_valid p
  | PBlockRequest p => pkt_valid p
  | PBlockData p => pkt_valid p
  | PBlockDataAck p => pkt_valid p
  | PBlockFin p => pkt_valid p
  | PControl p => pkt_valid p
  | PNodeInfo p => pkt_valid p
  | PNodeInfoAck p => pkt_valid p
  end.

(** A parse after a look at the type byte. *)
Definition ParsePacket : reader Mp2Packet := λ r,
  match r with
  | [] => Err EOF
  | packetType :: _ => parse_packet packetType r
  end.

#[local] Obligation Tactic := idtac.

(** The parser selected by the type byte reads back the packet. *)
Lemma parse_packet_roundtrip {P} `{WirePacket P} (f : P → Mp2Packet) (ty : Z) (p : P) bs r :
  pkt_valid p → pkt_write p = Ret bs → pkt_type p = ty →
  (∀ l, parse_packet ty l = parse_as f (pkt_parse l)) →
  ParsePacket (bs ++ r) = Ret (f p, r).
Proof.
  intros Hv Hw Hty Hp. destruct (pkt_frame p Hv) as (body & Hb & _).
  rewrite Hb in Hw. injection Hw as <-. simpl. rewrite Hty, Hp.
  assert (pkt_parse ((pkt_type p :: WriteUint16 (pkt_length p) ++ body) ++ r) = Ret (p, r)) as Hr
    by (by apply pkt_roundtrip).
  simpl in Hr. rewrite <-Hty, Hr. done.
Qed.

#[global] Program Instance Mp2Packet_wire : WirePacket Mp2Packet := {|
  pkt_type := packet_type;
  pkt_length := packet_length;
  pkt_write := packet_Write;
  pkt_parse := ParsePacket;
  pkt_valid := packet_valid;
|}.
Next Obligation. intros []; apply pkt_type_byte. Qed.
Next Obligation. intros []; apply pkt_length_u16. Qed.
Next Obligation. intros []; apply pkt_frame. Qed.
Next Obligation.
  intros p bs r Hv Hw. destruct p; simpl in Hv, Hw;
    (eapply (parse_packet_roundtrip _ _ _ _ r); [exact Hv|exact Hw|apply Hv|reflexivity]).
Qed.

(** ** Reading frames *)

Lemma splice_after {A} (a l b : list A) : splice (a ++ l) (length a) b = a ++ b ++ drop (length b) l.
Proof. unfold splice. rewrite take_app_length, drop_app_add. done. Qed.

Section Framing.
Context (conf : Config) (Hconf : 3 <= PACKET_SIZE conf).

(** The bytes of a valid packet that fits the handler's buffer. *)
Definition framed (p : Mp2Packet) (bs : list Z) : Prop :=
  packet_valid p ∧ packet_Write p = Ret bs ∧ packet_length p <= PACKET_SIZE conf.

Lemma framed_split p bs :
  framed p bs → ∃ body, bs = packet_type p :: WriteUint16 (packet_length p) ++ body ∧
    zlen body = packet_length p - 3 ∧ 3 <= packet_length p < 2 ^ 16.
Proof.
  intros (Hv & Hw & _). destruct (@pkt_frame _ Mp2Packet_wire p Hv) as (body & Hb & Hl).
  simpl in Hb, Hl. rewrite Hw in Hb. injection Hb as ->. exists body. split; [done|].
  split; [done|]. apply (@pkt_length_u16 _ Mp2Packet_wire p Hv).
Qed.

(** Reading the header: the buffer afterwards starts with the three bytes. *)
Lemma read_header ty len r :
  uint 16 len → (3 <= length r)%nat → take 3 r = ty :: WriteUint16 len →
  ∃ buf, copy_to (replicate (Z.to_nat (PACKET_SIZE conf)) 0) 0 3 (take 3 r) = Ret ((ty :: WriteUint16 len) ++ buf) ∧
    zlen ((ty :: WriteUint16 len) ++ buf) = PACKET_SIZE conf.
Proof.
  intros Hlen Hr Htake. exists (drop 3 (replicate (Z.to_nat (PACKET_SIZE conf)) 0)).
  rewrite Htake. split.
  - rewrite copy_to_Ret; [|lia|done|unfold zlen; rewrite length_replicate; lia].
    done.
  - rewrite zlen_app. unfold zlen. rewrite length_drop, length_replicate. simpl length. lia.
Qed.

Lemma read_frame_whole p bs r :
  framed p bs → read_frame conf false (bs ++ r) = Ret (Frame p r).
Proof.
  intros Hf. destruct (framed_split p bs Hf) as (body & -> & Hbody & Hlen).
  pose proof Hf as (Hv & Hw & Hle). set (ty := packet_type p) in *. set (len := packet_length p) in *.
  unfold read_frame. rewrite orb_false_r.
  assert (uint 16 len) as Hlen16 by (unfold uint; lia).
  set (bs := (ty :: WriteUint16 len ++ body) ++ r).
  assert (take 3 bs = ty :: WriteUint16 len ∧ drop 3 bs = body ++ r ∧ 3 <= zlen bs) as (Ht & Hd & Hz).
  { split_and!; try done. unfold bs, zlen. simpl. lia. }
  rewrite (proj2 (Z.leb_le _ _) Hz).
  destruct (read_header ty len bs Hlen16) as (buf & -> & Hbuf); [unfold zlen in Hz; lia|done|].
  cbn [mbind outcome_bind]. rewrite take_app_exact by done. rewrite ReadByte_cons.
  cbn [mbind outcome_bind]. rewrite <-(app_nil_r (WriteUint16 len)) at 1.
  rewrite ReadUint16_Write by done. cbn [mbind outcome_bind].
  rewrite (proj2 (Z.eqb_neq len 0)), andb_false_r by lia. rewrite bool_decide_true by lia.
  rewrite Hd, orb_false_r, wrap_small by (unfold uint; lia).
  rewrite zlen_app, (proj2 (Z.leb_le _ _)) by (pose proof (zlen_nonneg r); lia).
  rewrite take_app_exact by (unfold zlen in Hbody; lia).
  rewrite copy_to_Ret by lia. cbn [mbind outcome_bind].
  change (Z.to_nat 3) with (length (ty :: WriteUint16 len)). rewrite splice_after.
  pose proof (@pkt_roundtrip _ Mp2Packet_wire p _ (drop (length body) buf) Hv Hw) as Hrt.
  simpl in Hrt. simpl app. rewrite Hrt. cbn [mbind outcome_bind].
  rewrite drop_app_exact by done. done.
Qed.

Lemma read_frame_part p bs part x :
  framed p bs → bs = part ++ x → x ≠ [] → read_frame conf false part = Ret Waiting.
Proof.
  intros Hf Hsplit Hx. destruct (framed_split p bs Hf) as (body & Hb & Hbody & Hlen).
  pose proof Hf as (Hv & Hw & Hle). set (ty := packet_type p) in *. set (len := packet_length p) in *.
  unfold read_frame. rewrite orb_false_r. destruct (Z.leb_spec 3 (zlen part)) as [H3|]; [|done].
  assert (zlen part < len) as Hshort.
  { assert (zlen bs = len) as <- by (rewrite Hb; unfold zlen in *; simpl; lia).
    rewrite Hsplit, zlen_app. destruct x; [done|]. unfold zlen. simpl. lia. }
  assert (take 3 part = ty :: WriteUint16 len) as Ht.
  { rewrite <-(take_app_le part x 3) by (unfold zlen in H3; lia). rewrite <-Hsplit, Hb. done. }
  assert (uint 16 len) as Hlen16 by (unfold uint; lia).
  destruct (read_header ty len part Hlen16) as (buf & -> & Hbuf); [unfold zlen in H3; lia|done|].
  cbn [mbind outcome_bind]. rewrite take_app_exact by done. rewrite ReadByte_cons.
  cbn [mbind outcome_bind]. rewrite <-(app_nil_r (WriteUint16 len)) at 1.
  rewrite ReadUint16_Write by done. cbn [mbind outcome_bind].
  rewrite (proj2 (Z.eqb_neq len 0)), andb_false_r by lia. rewrite bool_decide_true by lia.
  rewrite orb_false_r, wrap_small by (unfold uint; lia).
  rewrite (proj2 (Z.leb_gt _ _)); [done|]. unfold zlen in *. rewrite length_drop. lia.
Qed.
End Framing.

(** ** Properties *)


