(* ===== verification/Mp2State.v ===== *)
(** * State of a node of the block layer ([mp2session/mp2session.go],
    [mp2session_manager.go])

    A node has one [Mp2SessionManager] with the blocks it sends and receives and
    a map of [Mp2Session]s (the connection to its parent, to its children, and
    for pulling blocks).  This file has both records, channels, and the monad
    [M] in which the handlers of the next file are written: state of the node,
    packets sent and goroutines started as effects, panics, and blocking.

    An [Mp2Session] points to its manager and the manager's map to the sessions:
    the shared objects are the entries of [mm_mp2sessionMap], looked up by the
    session's key at every use. *)

From stdpp Require Import base list numbers strings gmap pretty.
From Stdlib Require Import ZArith Lia.
From S2P Require Import Prelude Config Util Mp2Packets Segment Mp2Frames.

(** ** Buffered channels *)

Record chan (A : Type) := mk_chan { ch_cap : nat; ch_buf : list A }.
Arguments mk_chan {A} _ _.
Arguments ch_cap {A} _.
Arguments ch_buf {A} _.

Definition make_chan {A} (cap : nat) : chan A := mk_chan cap [].

(** A send waits while the buffer is full, a receive while it is empty. *)
Definition chan_send {A} (c : chan A) (x : A) : option (chan A) :=
  if (length (ch_buf c) <? ch_cap c)%nat then Some (mk_chan (ch_cap c) (ch_buf c ++ [x])) else None.

Definition chan_recv {A} (c : chan A) : option (A * chan A) :=
  match ch_buf c with
  | [] => None
  | x :: l => Some (x, mk_chan (ch_cap c) l)
  end.

(** ** Sessions and their manager *)

(** [sessionMap]'s values are the sessions of the layer below; this layer only
    uses which session IDs are there. *)
Record Mp2Session := {
  ms_sessionMap : gset Z;
  ms_blockOwners : gmap Z Z;
  ms_blockNumber : Z;
  ms_controlRecvBuffer : list ControlPacket;
  ms_sem : option (chan Z);
  ms_key : Z;
  ms_goodbye : bool;
  ms_firstSegment : bool;
  ms_noTimeoutChan : chan bool;
}.

Definition ms_set_sessionMap (r : Mp2Session) (x : gset Z) : Mp2Session := {|
  ms_sessionMap := x; ms_blockOwners := ms_blockOwners r; ms_blockNumber := ms_blockNumber r;
  ms_controlRecvBuffer := ms_controlRecvBuffer r; ms_sem := ms_sem r; ms_key := ms_key r;
  ms_goodbye := ms_goodbye r; ms_firstSegment := ms_firstSegment r;
  ms_noTimeoutChan := ms_noTimeoutChan r |}.
Definition ms_set_blockOwners (r : Mp2Session) (x : gmap Z Z) : Mp2Session := {|
  ms_sessionMap := ms_sessionMap r; ms_blockOwners := x; ms_blockNumber := ms_blockNumber r;
  ms_controlRecvBuffer := ms_controlRecvBuffer r; ms_sem := ms_sem r; ms_key := ms_key r;
  ms_goodbye := ms_goodbye r; ms_firstSegment := ms_firstSegment r;
  ms_noTimeoutChan := ms_noTimeoutChan r |}.
Definition ms_set_blockNumber (r : Mp2Session) (x : Z) : Mp2Session := {|
  ms_sessionMap := ms_sessionMap r; ms_blockOwners := ms_blockOwners r; ms_blockNumber := x;
  ms_controlRecvBuffer := ms_controlRecvBuffer r; ms_sem := ms_sem r; ms_key := ms_key r;
  ms_goodbye := ms_goodbye r; ms_firstSegment := ms_firstSegment r;
  ms_noTimeoutChan := ms_noTimeoutChan r |}.
Definition ms_set_controlRecvBuffer (r : Mp2Session) (x : list ControlPacket) : Mp2Session := {|
  ms_sessionMap := ms_sessionMap r; ms_blockOwners := ms_blockOwners r;
  ms_blockNumber := ms_blockNumber r; ms_controlRecvBuffer := x; ms_sem := ms_sem r;
  ms_key := ms_key r; ms_goodbye := ms_goodbye r; ms_firstSegment := ms_firstSegment r;
  ms_noTimeoutChan := ms_noTimeoutChan r |}.
Definition ms_set_sem (r : Mp2Session) (x : option (chan Z)) : Mp2Session := {|
  ms_sessionMap := ms_sessionMap r; ms_blockOwners := ms_blockOwners r;
  ms_blockNumber := ms_blockNumber r; ms_controlRecvBuffer := ms_controlRecvBuffer r;
  ms_sem := x; ms_key := ms_key r; ms_goodbye := ms_goodbye r;
  ms_firstSegment := ms_firstSegment r; ms_noTimeoutChan := ms_noTimeoutChan r |}.
Definition ms_set_key (r : Mp2Session) (x : Z) : Mp2Session := {|
  ms_sessionMap := ms_sessionMap r; ms_blockOwners := ms_blockOwners r;
  ms_blockNumber := ms_blockNumber r; ms_controlRecvBuffer := ms_controlRecvBuffer r;
  ms_sem := ms_sem r; ms_key := x; ms_goodbye := ms_goodbye r;
  ms_firstSegment := ms_firstSegment r; ms_noTimeoutChan := ms_noTimeoutChan r |}.
Definition ms_set_firstSegment (r : Mp2Session) (x : bool) : Mp2Session := {|
  ms_sessionMap := ms_sessionMap r; ms_blockOwners := ms_blockOwners r;
  ms_blockNumber := ms_blockNumber r; ms_controlRecvBuffer := ms_controlRecvBuffer r;
  ms_sem := ms_sem r; ms_key := ms_key r; ms_goodbye := ms_goodbye r; ms_firstSegment := x;
  ms_noTimeoutChan := ms_noTimeoutChan r |}.
Definition ms_set_noTimeoutChan (r : Mp2Session) (x : chan bool) : Mp2Session := {|
  ms_sessionMap := ms_sessionMap r; ms_blockOwners := ms_blockOwners r;
  ms_blockNumber := ms_blockNumber r; ms_controlRecvBuffer := ms_controlRecvBuffer r;
  ms_sem := ms_sem r; ms_key := ms_key r; ms_goodbye := ms_goodbye r;
  ms_firstSegment := ms_firstSegment r; ms_noTimeoutChan := x |}.

Record Mp2SessionManager := {
  mm_peerId : Z;
  mm_peerPushMode : bool;
  mm_peerModeStatus : string;
  mm_myAddr : list string;
  mm_childAddr : list string;
  mm_allAddr : list string;
  mm_blockList : gmap Z Z;
  mm_receivedBlockChannel : chan Z;
  mm_mp2IdFromParent : Z;
  mm_mp2IdToChildren : Z;
  mm_mp2IdForPull : Z;
  mm_mp2sessionMap : gmap Z Mp2Session;
  mm_blockNumChannel : gmap Z (chan Z);
  mm_blockInfoChannel : gmap Z (chan BlockInfoPacket);
  mm_sendBuffer : list Z;
  mm_recvBuffer : gmap Z BlockBuffer;
  mm_goodbye : bool;
  mm_timeoutFlag : gmap Z bool;
  mm_nodeInfoChan : chan bool;
  mm_nodeInfoFlag : gmap Z bool;
  mm_stopSendCond : Z;
  mm_blockFinishFlag : gmap Z (chan bool);
}.

Definition mm_set_peerPushMode (r : Mp2SessionManager) (x : bool) : Mp2SessionManager := {|
  mm_peerId := mm_peerId r; mm_peerPushMode := x; mm_peerModeStatus := mm_peerModeStatus r;
  mm_myAddr := mm_myAddr r; mm_childAddr := mm_childAddr r; mm_allAddr := mm_allAddr r;
  mm_blockList := mm_blockList r; mm_receivedBlockChannel := mm_receivedBlockChannel r;
  mm_mp2IdFromParent := mm_mp2IdFromParent r; mm_mp2IdToChildren := mm_mp2IdToChildren r;
  mm_mp2IdForPull := mm_mp2IdForPull r; mm_mp2sessionMap := mm_mp2sessionMap r;
  mm_blockNumChannel := mm_blockNumChannel r; mm_blockInfoChannel := mm_blockInfoChannel r;
  mm_sendBuffer := mm_sendBuffer r; mm_recvBuffer := mm_recvBuffer r; mm_goodbye := mm_goodbye r;
  mm_timeoutFlag := mm_timeoutFlag r; mm_nodeInfoChan := mm_nodeInfoChan r;
  mm_nodeInfoFlag := mm_nodeInfoFlag r; mm_stopSendCond := mm_stopSendCond r;
  mm_blockFinishFlag := mm_blockFinishFlag r |}.
Definition mm_set_peerModeStatus (r : Mp2SessionManager) (x : string) : Mp2SessionManager := {|
  mm_peerId := mm_peerId r; mm_peerPushMode := mm_peerPushMode r; mm_peerModeStatus := x;
  mm_myAddr := mm_myAddr r; mm_childAddr := mm_childAddr r; mm_allAddr := mm_allAddr r;
  mm_blockList := mm_blockList r; mm_receivedBlockChannel := mm_receivedBlockChannel r;
  mm_mp2IdFromParent := mm_mp2IdFromParent r; mm_mp2IdToChildren := mm_mp2IdToChildren r;
  mm_mp2IdForPull := mm_mp2IdForPull r; mm_mp2sessionMap := mm_mp2sessionMap r;
  mm_blockNumChannel := mm_blockNumChannel r; mm_blockInfoChannel := mm_blockInfoChannel r;
  mm_sendBuffer := mm_sendBuffer r; mm_recvBuffer := mm_recvBuffer r; mm_goodbye := mm_goodbye r;
  mm_timeoutFlag := mm_timeoutFlag r; mm_nodeInfoChan := mm_nodeInfoChan r;
  mm_nodeInfoFlag := mm_nodeInfoFlag r; mm_stopSendCond := mm_stopSendCond r;
  mm_blockFinishFlag := mm_blockFinishFlag r |}.
Definition mm_set_childAddr (r : Mp2SessionManager) (x : list string) : Mp2SessionManager := {|
  mm_peerId := mm_peerId r; mm_peerPushMode := mm_peerPushMode r;
  mm_peerModeStatus := mm_peerModeStatus r; mm_myAddr := mm_myAddr r; mm_childAddr := x;
  mm_allAddr := mm_allAddr r; mm_blockList := mm_blockList r;
  mm_receivedBlockChannel := mm_receivedBlockChannel r;
  mm_mp2IdFromParent := mm_mp2IdFromParent r; mm_mp2IdToChildren := mm_mp2IdToChildren r;
  mm_mp2IdForPull := mm_mp2IdForPull r; mm_mp2sessionMap := mm_mp2sessionMap r;
  mm_blockNumChannel := mm_blockNumChannel r; mm_blockInfoChannel := mm_blockInfoChannel r;
  mm_sendBuffer := mm_sendBuffer r; mm_recvBuffer := mm_recvBuffer r; mm_goodbye := mm_goodbye r;
  mm_timeoutFlag := mm_timeoutFlag r; mm_nodeInfoChan := mm_nodeInfoChan r;
  mm_nodeInfoFlag := mm_nodeInfoFlag r; mm_stopSendCond := mm_stopSendCond r;
  mm_blockFinishFlag := mm_blockFinishFlag r |}.
Definition mm_set_allAddr (r : Mp2SessionManager) (x : list string) : Mp2SessionManager := {|
  mm_peerId := mm_peerId r; mm_peerPushMode := mm_peerPushMode r;
  mm_peerModeStatus := mm_peerModeStatus r; mm_myAddr := mm_myAddr r;
  mm_childAddr := mm_childAddr r; mm_allAddr := x; mm_blockList := mm_blockList r;
  mm_receivedBlockChannel := mm_receivedBlockChannel r;
  mm_mp2IdFromParent := mm_mp2IdFromParent r; mm_mp2IdToChildren := mm_mp2IdToChildren r;
  mm_mp2IdForPull := mm_mp2IdForPull r; mm_mp2sessionMap := mm_mp2sessionMap r;
  mm_blockNumChannel := mm_blockNumChannel r; mm_blockInfoChannel := mm_blockInfoChannel r;
  mm_sendBuffer := mm_sendBuffer r; mm_recvBuffer := mm_recvBuffer r; mm_goodbye := mm_goodbye r;
  mm_timeoutFlag := mm_timeoutFlag r; mm_nodeInfoChan := mm_nodeInfoChan r;
  mm_nodeInfoFlag := mm_nodeInfoFlag r; mm_stopSendCond := mm_stopSendCond r;
  mm_blockFinishFlag := mm_blockFinishFlag r |}.
Definition mm_set_blockList (r : Mp2SessionManager) (x : gmap Z Z) : Mp2SessionManager := {|
  mm_peerId := mm_peerId r; mm_peerPushMode := mm_peerPushMode r;
  mm_peerModeStatus := mm_peerModeStatus r; mm_myAddr := mm_myAddr r;
  mm_childAddr := mm_childAddr r; mm_allAddr := mm_allAddr r; mm_blockList := x;
  mm_receivedBlockChannel := mm_receivedBlockChannel r;
  mm_mp2IdFromParent := mm_mp2IdFromParent r; mm_mp2IdToChildren := mm_mp2IdToChildren r;
  mm_mp2IdForPull := mm_mp2IdForPull r; mm_mp2sessionMap := mm_mp2sessionMap r;
  mm_blockNumChannel := mm_blockNumChannel r; mm_blockInfoChannel := mm_blockInfoChannel r;
  mm_sendBuffer := mm_sendBuffer r; mm_recvBuffer := mm_recvBuffer r; mm_goodbye := mm_goodbye r;
  mm_timeoutFlag := mm_timeoutFlag r; mm_nodeInfoChan := mm_nodeInfoChan r;
  mm_nodeInfoFlag := mm_nodeInfoFlag r; mm_stopSendCond := mm_stopSendCond r;
  mm_blockFinishFlag := mm_blockFinishFlag r |}.
Definition mm_set_receivedBlockChannel (r : Mp2SessionManager) (x : chan Z) : Mp2SessionManager := {|
  mm_peerId := mm_peerId r; mm_peerPushMode := mm_peerPushMode r;
  mm_peerModeStatus := mm_peerModeStatus r; mm_myAddr := mm_myAddr r;
  mm_childAddr := mm_childAddr r; mm_allAddr := mm_allAddr r; mm_blockList := mm_blockList r;
  mm_receivedBlockChannel := x; mm_mp2IdFromParent := mm_mp2IdFromParent r;
  mm_mp2IdToChildren := mm_mp2IdToChildren r; mm_mp2IdForPull := mm_mp2IdForPull r;
  mm_mp2sessionMap := mm_mp2sessionMap r; mm_blockNumChannel := mm_blockNumChannel r;
  mm_blockInfoChannel := mm_blockInfoChannel r; mm_sendBuffer := mm_sendBuffer r;
  mm_recvBuffer := mm_recvBuffer r; mm_goodbye := mm_goodbye r;
  mm_timeoutFlag := mm_timeoutFlag r; mm_nodeInfoChan := mm_nodeInfoChan r;
  mm_nodeInfoFlag := mm_nodeInfoFlag r; mm_stopSendCond := mm_stopSendCond r;
  mm_blockFinishFlag := mm_blockFinishFlag r |}.
Definition mm_set_mp2IdFromParent (r : Mp2SessionManager) (x : Z) : Mp2SessionManager := {|
  mm_peerId := mm_peerId r; mm_peerPushMode := mm_peerPushMode r;
  mm_peerModeStatus := mm_peerModeStatus r; mm_myAddr := mm_myAddr r;
  mm_childAddr := mm_childAddr r; mm_allAddr := mm_allAddr r; mm_blockList := mm_blockList r;
  mm_receivedBlockChannel := mm_receivedBlockChannel r; mm_mp2IdFromParent := x;
  mm_mp2IdToChildren := mm_mp2IdToChildren r; mm_mp2IdForPull := mm_mp2IdForPull r;
  mm_mp2sessionMap := mm_mp2sessionMap r; mm_blockNumChannel := mm_blockNumChannel r;
  mm_blockInfoChannel := mm_blockInfoChannel r; mm_sendBuffer := mm_sendBuffer r;
  mm_recvBuffer := mm_recvBuffer r; mm_goodbye := mm_goodbye r;
  mm_timeoutFlag := mm_timeoutFlag r; mm_nodeInfoChan := mm_nodeInfoChan r;
  mm_nodeInfoFlag := mm_nodeInfoFlag r; mm_stopSendCond := mm_stopSendCond r;
  mm_blockFinishFlag := mm_blockFinishFlag r |}.
Definition mm_set_mp2IdToChildren (r : Mp2SessionManager) (x : Z) : Mp2SessionManager := {|
  mm_peerId := mm_peerId r; mm_peerPushMode := mm_peerPushMode r;
  mm_peerModeStatus := mm_peerModeStatus r; mm_myAddr := mm_myAddr r;
  mm_childAddr := mm_childAddr r; mm_allAddr := mm_allAddr r; mm_blockList := mm_blockList r;
  mm_receivedBlockChannel := mm_receivedBlockChannel r;
  mm_mp2IdFromParent := mm_mp2IdFromParent r; mm_mp2IdToChildren := x;
  mm_mp2IdForPull := mm_mp2IdForPull r; mm_mp2sessionMap := mm_mp2sessionMap r;
  mm_blockNumChannel := mm_blockNumChannel r; mm_blockInfoChannel := mm_blockInfoChannel r;
  mm_sendBuffer := mm_sendBuffer r; mm_recvBuffer := mm_recvBuffer r; mm_goodbye := mm_goodbye r;
  mm_timeoutFlag := mm_timeoutFlag r; mm_nodeInfoChan := mm_nodeInfoChan r;
  mm_nodeInfoFlag := mm_nodeInfoFlag r; mm_stopSendCond := mm_stopSendCond r;
  mm_blockFinishFlag := mm_blockFinishFlag r |}.
Definition mm_set_mp2IdForPull (r : Mp2SessionManager) (x : Z) : Mp2SessionManager := {|
  mm_peerId := mm_peerId r; mm_peerPushMode := mm_peerPushMode r;
  mm_peerModeStatus := mm_peerModeStatus r; mm_myAddr := mm_myAddr r;
  mm_childAddr := mm_childAddr r; mm_allAddr := mm_allAddr r; mm_blockList := mm_blockList r;
  mm_receivedBlockChannel := mm_receivedBlockChannel r;
  mm_mp2IdFromParent := mm_mp2IdFromParent r; mm_mp2IdToChildren := mm_mp2IdToChildren r;
  mm_mp2IdForPull := x; mm_mp2sessionMap := mm_mp2sessionMap r;
  mm_blockNumChannel := mm_blockNumChannel r; mm_blockInfoChannel := mm_blockInfoChannel r;
  mm_sendBuffer := mm_sendBuffer r; mm_recvBuffer := mm_recvBuffer r; mm_goodbye := mm_goodbye r;
  mm_timeoutFlag := mm_timeoutFlag r; mm_nodeInfoChan := mm_nodeInfoChan r;
  mm_nodeInfoFlag := mm_nodeInfoFlag r; mm_stopSendCond := mm_stopSendCond r;
  mm_blockFinishFlag := mm_blockFinishFlag r |}.
Definition mm_set_mp2sessionMap (r : Mp2SessionManager) (x : gmap Z Mp2Session) : Mp2SessionManager := {|
  mm_peerId := mm_peerId r; mm_peerPushMode := mm_peerPushMode r;
  mm_peerModeStatus := mm_peerModeStatus r; mm_myAddr := mm_myAddr r;
  mm_childAddr := mm_childAddr r; mm_allAddr := mm_allAddr r; mm_blockList := mm_blockList r;
  mm_receivedBlockChannel := mm_receivedBlockChannel r;
  mm_mp2IdFromParent := mm_mp2IdFromParent r; mm_mp2IdToChildren := mm_mp2IdToChildren r;
  mm_mp2IdForPull := mm_mp2IdForPull r; mm_mp2sessionMap := x;
  mm_blockNumChannel := mm_blockNumChannel r; mm_blockInfoChannel := mm_blockInfoChannel r;
  mm_sendBuffer := mm_sendBuffer r; mm_recvBuffer := mm_recvBuffer r; mm_goodbye := mm_goodbye r;
  mm_timeoutFlag := mm_timeoutFlag r; mm_nodeInfoChan := mm_nodeInfoChan r;
  mm_nodeInfoFlag := mm_nodeInfoFlag r; mm_stopSendCond := mm_stopSendCond r;
  mm_blockFinishFlag := mm_blockFinishFlag r |}.
Definition mm_set_blockNumChannel (r : Mp2SessionManager) (x : gmap Z (chan Z)) : Mp2SessionManager := {|
  mm_peerId := mm_peerId r; mm_peerPushMode := mm_peerPushMode r;
  mm_peerModeStatus := mm_peerModeStatus r; mm_myAddr := mm_myAddr r;
  mm_childAddr := mm_childAddr r; mm_allAddr := mm_allAddr r; mm_blockList := mm_blockList r;
  mm_receivedBlockChannel := mm_receivedBlockChannel r;
  mm_mp2IdFromParent := mm_mp2IdFromParent r; mm_mp2IdToChildren := mm_mp2IdToChildren r;
  mm_mp2IdForPull := mm_mp2IdForPull r; mm_mp2sessionMap := mm_mp2sessionMap r;
  mm_blockNumChannel := x; mm_blockInfoChannel := mm_blockInfoChannel r;
  mm_sendBuffer := mm_sendBuffer r; mm_recvBuffer := mm_recvBuffer r; mm_goodbye := mm_goodbye r;
  mm_timeoutFlag := mm_timeoutFlag r; mm_nodeInfoChan := mm_nodeInfoChan r;
  mm_nodeInfoFlag := mm_nodeInfoFlag r; mm_stopSendCond := mm_stopSendCond r;
  mm_blockFinishFlag := mm_blockFinishFlag r |}.
Definition mm_set_blockInfoChannel (r : Mp2SessionManager) (x : gmap Z (chan BlockInfoPacket)) : Mp2SessionManager := {|
  mm_peerId := mm_peerId r; mm_peerPushMode := mm_peerPushMode r;
  mm_peerModeStatus := mm_peerModeStatus r; mm_myAddr := mm_myAddr r;
  mm_childAddr := mm_childAddr r; mm_allAddr := mm_allAddr r; mm_blockList := mm_blockList r;
  mm_receivedBlockChannel := mm_receivedBlockChannel r;
  mm_mp2IdFromParent := mm_mp2IdFromParent r; mm_mp2IdToChildren := mm_mp2IdToChildren r;
  mm_mp2IdForPull := mm_mp2IdForPull r; mm_mp2sessionMap := mm_mp2sessionMap r;
  mm_blockNumChannel := mm_blockNumChannel r; mm_blockInfoChannel := x;
  mm_sendBuffer := mm_sendBuffer r; mm_recvBuffer := mm_recvBuffer r; mm_goodbye := mm_goodbye r;
  mm_timeoutFlag := mm_timeoutFlag r; mm_nodeInfoChan := mm_nodeInfoChan r;
  mm_nodeInfoFlag := mm_nodeInfoFlag r; mm_stopSendCond := mm_stopSendCond r;
  mm_blockFinishFlag := mm_blockFinishFlag r |}.
Definition mm_set_sendBuffer (r : Mp2SessionManager) (x : list Z) : Mp2SessionManager := {|
  mm_peerId := mm_peerId r; mm_peerPushMode := mm_peerPushMode r;
  mm_peerModeStatus := mm_peerModeStatus r; mm_myAddr := mm_myAddr r;
  mm_childAddr := mm_childAddr r; mm_allAddr := mm_allAddr r; mm_blockList := mm_blockList r;
  mm_receivedBlockChannel := mm_receivedBlockChannel r;
  mm_mp2IdFromParent := mm_mp2IdFromParent r; mm_mp2IdToChildren := mm_mp2IdToChildren r;
  mm_mp2IdForPull := mm_mp2IdForPull r; mm_mp2sessionMap := mm_mp2sessionMap r;
  mm_blockNumChannel := mm_blockNumChannel r; mm_blockInfoChannel := mm_blockInfoChannel r;
  mm_sendBuffer := x; mm_recvBuffer := mm_recvBuffer r; mm_goodbye := mm_goodbye r;
  mm_timeoutFlag := mm_timeoutFlag r; mm_nodeInfoChan := mm_nodeInfoChan r;
  mm_nodeInfoFlag := mm_nodeInfoFlag r; mm_stopSendCond := mm_stopSendCond r;
  mm_blockFinishFlag := mm_blockFinishFlag r |}.
Definition mm_set_recvBuffer (r : Mp2SessionManager) (x : gmap Z BlockBuffer) : Mp2SessionManager := {|
  mm_peerId := mm_peerId r; mm_peerPushMode := mm_peerPushMode r;
  mm_peerModeStatus := mm_peerModeStatus r; mm_myAddr := mm_myAddr r;
  mm_childAddr := mm_childAddr r; mm_allAddr := mm_allAddr r; mm_blockList := mm_blockList r;
  mm_receivedBlockChannel := mm_receivedBlockChannel r;
  mm_mp2IdFromParent := mm_mp2IdFromParent r; mm_mp2IdToChildren := mm_mp2IdToChildren r;
  mm_mp2IdForPull := mm_mp2IdForPull r; mm_mp2sessionMap := mm_mp2sessionMap r;
  mm_blockNumChannel := mm_blockNumChannel r; mm_blockInfoChannel := mm_blockInfoChannel r;
  mm_sendBuffer := mm_sendBuffer r; mm_recvBuffer := x; mm_goodbye := mm_goodbye r;
  mm_timeoutFlag := mm_timeoutFlag r; mm_nodeInfoChan := mm_nodeInfoChan r;
  mm_nodeInfoFlag := mm_nodeInfoFlag r; mm_stopSendCond := mm_stopSendCond r;
  mm_blockFinishFlag := mm_blockFinishFlag r |}.
Definition mm_set_goodbye (r : Mp2SessionManager) (x : bool) : Mp2SessionManager := {|
  mm_peerId := mm_peerId r; mm_peerPushMode := mm_peerPushMode r;
  mm_peerModeStatus := mm_peerModeStatus r; mm_myAddr := mm_myAddr r;
  mm_childAddr := mm_childAddr r; mm_allAddr := mm_allAddr r; mm_blockList := mm_blockList r;
  mm_receivedBlockChannel := mm_receivedBlockChannel r;
  mm_mp2IdFromParent := mm_mp2IdFromParent r; mm_mp2IdToChildren := mm_mp2IdToChildren r;
  mm_mp2IdForPull := mm_mp2IdForPull r; mm_mp2sessionMap := mm_mp2sessionMap r;
  mm_blockNumChannel := mm_blockNumChannel r; mm_blockInfoChannel := mm_blockInfoChannel r;
  mm_sendBuffer := mm_sendBuffer r; mm_recvBuffer := mm_recvBuffer r; mm_goodbye := x;
  mm_timeoutFlag := mm_timeoutFlag r; mm_nodeInfoChan := mm_nodeInfoChan r;
  mm_nodeInfoFlag := mm_nodeInfoFlag r; mm_stopSendCond := mm_stopSendCond r;
  mm_blockFinishFlag := mm_blockFinishFlag r |}.
Definition mm_set_timeoutFlag (r : Mp2SessionManager) (x : gmap Z bool) : Mp2SessionManager := {|
  mm_peerId := mm_peerId r; mm_peerPushMode := mm_peerPushMode r;
  mm_peerModeStatus := mm_peerModeStatus r; mm_myAddr := mm_myAddr r;
  mm_childAddr := mm_childAddr r; mm_allAddr := mm_allAddr r; mm_blockList := mm_blockList r;
  mm_receivedBlockChannel := mm_receivedBlockChannel r;
  mm_mp2IdFromParent := mm_mp2IdFromParent r; mm_mp2IdToChildren := mm_mp2IdToChildren r;
  mm_mp2IdForPull := mm_mp2IdForPull r; mm_mp2sessionMap := mm_mp2sessionMap r;
  mm_blockNumChannel := mm_blockNumChannel r; mm_blockInfoChannel := mm_blockInfoChannel r;
  mm_sendBuffer := mm_sendBuffer r; mm_recvBuffer := mm_recvBuffer r; mm_goodbye := mm_goodbye r;
  mm_timeoutFlag := x; mm_nodeInfoChan := mm_nodeInfoChan r;
  mm_nodeInfoFlag := mm_nodeInfoFlag r; mm_stopSendCond := mm_stopSendCond r;
  mm_blockFinishFlag := mm_blockFinishFlag r |}.
Definition mm_set_nodeInfoChan (r : Mp2SessionManager) (x : chan bool) : Mp2SessionManager := {|
  mm_peerId := mm_peerId r; mm_peerPushMode := mm_peerPushMode r;
  mm_peerModeStatus := mm_peerModeStatus r; mm_myAddr := mm_myAddr r;
  mm_childAddr := mm_childAddr r; mm_allAddr := mm_allAddr r; mm_blockList := mm_blockList r;
  mm_receivedBlockChannel := mm_receivedBlockChannel r;
  mm_mp2IdFromParent := mm_mp2IdFromParent r; mm_mp2IdToChildren := mm_mp2IdToChildren r;
  mm_mp2IdForPull := mm_mp2IdForPull r; mm_mp2sessionMap := mm_mp2sessionMap r;
  mm_blockNumChannel := mm_blockNumChannel r; mm_blockInfoChannel := mm_blockInfoChannel r;
  mm_sendBuffer := mm_sendBuffer r; mm_recvBuffer := mm_recvBuffer r; mm_goodbye := mm_goodbye r;
  mm_timeoutFlag := mm_timeoutFlag r; mm_nodeInfoChan := x; mm_nodeInfoFlag := mm_nodeInfoFlag r;
  mm_stopSendCond := mm_stopSendCond r; mm_blockFinishFlag := mm_blockFinishFlag r |}.
Definition mm_set_nodeInfoFlag (r : Mp2SessionManager) (x : gmap Z bool) : Mp2SessionManager := {|
  mm_peerId := mm_peerId r; mm_peerPushMode := mm_peerPushMode r;
  mm_peerModeStatus := mm_peerModeStatus r; mm_myAddr := mm_myAddr r;
  mm_childAddr := mm_childAddr r; mm_allAddr := mm_allAddr r; mm_blockList := mm_blockList r;
  mm_receivedBlockChannel := mm_receivedBlockChannel r;
  mm_mp2IdFromParent := mm_mp2IdFromParent r; mm_mp2IdToChildren := mm_mp2IdToChildren r;
  mm_mp2IdForPull := mm_mp2IdForPull r; mm_mp2sessionMap := mm_mp2sessionMap r;
  mm_blockNumChannel := mm_blockNumChannel r; mm_blockInfoChannel := mm_blockInfoChannel r;
  mm_sendBuffer := mm_sendBuffer r; mm_recvBuffer := mm_recvBuffer r; mm_goodbye := mm_goodbye r;
  mm_timeoutFlag := mm_timeoutFlag r; mm_nodeInfoChan := mm_nodeInfoChan r; mm_nodeInfoFlag := x;
  mm_stopSendCond := mm_stopSendCond r; mm_blockFinishFlag := mm_blockFinishFlag r |}.
Definition mm_set_stopSendCond (r : Mp2SessionManager) (x : Z) : Mp2SessionManager := {|
  mm_peerId := mm_peerId r; mm_peerPushMode := mm_peerPushMode r;
  mm_peerModeStatus := mm_peerModeStatus r; mm_myAddr := mm_myAddr r;
  mm_childAddr := mm_childAddr r; mm_allAddr := mm_allAddr r; mm_blockList := mm_blockList r;
  mm_receivedBlockChannel := mm_receivedBlockChannel r;
  mm_mp2IdFromParent := mm_mp2IdFromParent r; mm_mp2IdToChildren := mm_mp2IdToChildren r;
  mm_mp2IdForPull := mm_mp2IdForPull r; mm_mp2sessionMap := mm_mp2sessionMap r;
  mm_blockNumChannel := mm_blockNumChannel r; mm_blockInfoChannel := mm_blockInfoChannel r;
  mm_sendBuffer := mm_sendBuffer r; mm_recvBuffer := mm_recvBuffer r; mm_goodbye := mm_goodbye r;
  mm_timeoutFlag := mm_timeoutFlag r; mm_nodeInfoChan := mm_nodeInfoChan r;
  mm_nodeInfoFlag := mm_nodeInfoFlag r; mm_stopSendCond := x;
  mm_blockFinishFlag := mm_blockFinishFlag r |}.
Definition mm_set_blockFinishFlag (r : Mp2SessionManager) (x : gmap Z (chan bool)) : Mp2SessionManager := {|
  mm_peerId := mm_peerId r; mm_peerPushMode := mm_peerPushMode r;
  mm_peerModeStatus := mm_peerModeStatus r; mm_myAddr := mm_myAddr r;
  mm_childAddr := mm_childAddr r; mm_allAddr := mm_allAddr r; mm_blockList := mm_blockList r;
  mm_receivedBlockChannel := mm_receivedBlockChannel r;
  mm_mp2IdFromParent := mm_mp2IdFromParent r; mm_mp2IdToChildren := mm_mp2IdToChildren r;
  mm_mp2IdForPull := mm_mp2IdForPull r; mm_mp2sessionMap := mm_mp2sessionMap r;
  mm_blockNumChannel := mm_blockNumChannel r; mm_blockInfoChannel := mm_blockInfoChannel r;
  mm_sendBuffer := mm_sendBuffer r; mm_recvBuffer := mm_recvBuffer r; mm_goodbye := mm_goodbye r;
  mm_timeoutFlag := mm_timeoutFlag r; mm_nodeInfoChan := mm_nodeInfoChan r;
  mm_nodeInfoFlag := mm_nodeInfoFlag r; mm_stopSendCond := mm_stopSendCond r;
  mm_blockFinishFlag := x |}.

(** ** Effects and the monad of the handlers *)

(** A packet given to [session.Write] of a session, or a goroutine started. *)
Inductive effect :=
| Sent (sessionID : Z) (p : Mp2Packet)
| GoBlockRequest (key blockNumber blockSize offset : Z)
| GoFecBlockRequest (key blockNumber blockSize : Z)
| GoBlockData (key sessionID blockNumber startDataNumber endDataNumber fecIndex : Z)
| GoBlockRedData (key sessionID blockNumber startDataNumber endDataNumber fecIndex : Z)
| GoTimer (key : Z)
| GoHandler (key sessionID : Z)
| GoReceiveBlockInfo (mp2ID : Z)
| CloseSession (sessionID : Z).

(** The goroutine waits at a channel operation or in a polling loop. *)
Definition would_block : go_error := GoError "would block".

Definition M (A : Type) : Type := Mp2SessionManager → outcome (A * Mp2SessionManager * list effect).

#[global] Instance M_ret : MRet M := λ A a p, Ret (a, p, []).
#[global] Instance M_bind : MBind M := λ A B f m p,
  match m p with
  | Ret (a, p1, es1) =>
      match f a p1 with
      | Ret (b, p2, es2) => Ret (b, p2, es1 ++ es2)
      | Err e => Err e
      | Panic s => Panic s
      end
  | Err e => Err e
  | Panic s => Panic s
  end.

Definition getM : M Mp2SessionManager := λ p, Ret (p, p, []).
Definition putM (p : Mp2SessionManager) : M unit := λ _, Ret (tt, p, []).
Definition modifyM (f : Mp2SessionManager → Mp2SessionManager) : M unit := λ p, Ret (tt, f p, []).
Definition emit (e : effect) : M unit := λ p, Ret (tt, p, [e]).
Definition lift {A} (o : outcome A) : M A := λ p,
  match o with Ret a => Ret (a, p, []) | Err e => Err e | Panic s => Panic s end.
Definition blocked {A} : M A := λ _, Err would_block.
Definition nil_pointer {A} : M A := λ _, Panic "nil pointer dereference".
Definition panicM {A} (msg : string) : M A := λ _, Panic msg.
Definition diverges {A} : M A := λ _, Err (GoError "diverges").
Definition of_option {A} (k : M A) (o : option A) : M A :=
  match o with Some a => mret a | None => k end.

(** The session with a key; a field access through a missing entry panics. *)
Definition getS (key : Z) : M Mp2Session :=
  p ← getM; of_option nil_pointer (mm_mp2sessionMap p !! key).
Definition modifyS (key : Z) (f : Mp2Session → Mp2Session) : M unit :=
  s ← getS key; modifyM (λ p, mm_set_mp2sessionMap p (<[key := f s]> (mm_mp2sessionMap p))).

(** The block buffer of a block. *)
Definition getB (blockNumber : Z) : M BlockBuffer :=
  p ← getM; of_option nil_pointer (mm_recvBuffer p !! blockNumber).
Definition putB (blockNumber : Z) (b : BlockBuffer) : M unit :=
  modifyM (λ p, mm_set_recvBuffer p (<[blockNumber := b]> (mm_recvBuffer p))).

(** A send on a channel of a map; a missing entry is a nil channel. *)
Definition send_on {A} (get : Mp2SessionManager → gmap Z (chan A))
    (set : Mp2SessionManager → gmap Z (chan A) → Mp2SessionManager) (key : Z) (x : A) : M unit :=
  p ← getM;
  c ← of_option blocked (get p !! key);
  c ← of_option blocked (chan_send c x);
  putM (set p (<[key := c]> (get p))).

Definition recv_on {A} (get : Mp2SessionManager → gmap Z (chan A))
    (set : Mp2SessionManager → gmap Z (chan A) → Mp2SessionManager) (key : Z) : M A :=
  p ← getM;
  c ← of_option blocked (get p !! key);
  '(x, c) ← of_option blocked (chan_recv c);
  putM (set p (<[key := c]> (get p)));; mret x.

(** A loop over the elements of a list. *)
Fixpoint for_each {A} (l : list A) (f : A → M unit) : M unit :=
  match l with
  | [] => mret tt
  | x :: l => f x;; for_each l f
  end.
