(* ===== verification/Mp2Handlers.v ===== *)
(** * Handlers of the block layer ([mp2session/mp2session.go],
    [mp2session_manager.go])

    Every function of [Mp2Session] and [Mp2SessionManager] that changes the
    node's state or sends packets, in the monad of [Mp2State].  A goroutine
    that loops over channel operations ([sendBlockRequest],
    [sendFecBlockRequest], [timer], [Mp2ReceiveBlockInfo]) is its start and one
    definition per round.  Where Go's [range] visits a map, the order of the
    keys is an argument; so are the random IDs, the sessions that
    [SessionManager.Connect] returns and the flag [config.FEC_MODE]. *)

From stdpp Require Import base list numbers strings gmap pretty.
From Stdlib Require Import ZArith Lia Ascii.
From S2P Require Import Prelude Config Util Mp2Packets Raptor Segment Mp2Frames Mp2State.

(** ** Sending packets *)

Definition sendPacket (key sessionID : Z) (p : Mp2Packet) : M unit :=
  s ← getS key;
  if bool_decide (sessionID ∈ ms_sessionMap s) then emit (Sent sessionID p) else nil_pointer.

Definition sendBlockFindPacket (key sessionID blockNumber : Z) : M unit :=
  sendPacket key sessionID (PBlockFind (CreateBlockFindPacket blockNumber)).

Definition sendBlockInfoPacket (key sessionID blockNumber blockSize status : Z) : M unit :=
  sendPacket key sessionID (PBlockInfo (CreateBlockInfoPacket blockNumber status blockSize)).

Definition sendBlockRequestPacket (key sessionID blockNumber startDataNumber endDataNumber fecIndex : Z) : M unit :=
  sendPacket key sessionID
    (PBlockRequest (CreateBlockRequestPacket blockNumber startDataNumber endDataNumber fecIndex)).

Definition sendBlockDataPacket (key sessionID blockNumber dataNumber redundant : Z) (data : list Z) : M unit :=
  packet ← lift (CreateBlockDataPacket blockNumber dataNumber sessionID redundant data);
  sendPacket key sessionID (PBlockData packet).

Definition sendBlockDataAckPacket (key sessionID blockNumber lastDataNumber : Z) : M unit :=
  sendPacket key sessionID (PBlockDataAck (CreateBlockDataAckPacket blockNumber lastDataNumber)).

Definition sendBlockFinPacket (key sessionID : Z) : M unit :=
  s ← getS key;
  sendPacket key sessionID (PBlockFin (CreateBlockFinPacket sessionID (ms_blockNumber s))).

Definition sendControlPacket (key sessionID : Z) (data : list Z) : M unit :=
  packet ← lift (CreateControlPacket data);
  sendPacket key sessionID (PControl packet).

Definition sendNodeInfoPacket (key sessionID : Z) (nodeInfos : list NodeInfo) : M unit :=
  sendPacket key sessionID (PNodeInfo (CreateNodeInfoPacket nodeInfos)).

Definition sendNodeInfoAckPacket (key sessionID numOfInfo : Z) : M unit :=
  sendPacket key sessionID (PNodeInfoAck (CreateNodeInfoAckPacket numOfInfo)).

(** ** Creating sessions *)

Definition AddSession (s : Mp2Session) (sessionID : Z) : Mp2Session :=
  ms_set_blockOwners (ms_set_sessionMap s ({[sessionID]} ∪ ms_sessionMap s))
    (<[sessionID := PEER_NOT_KNOWN]> (ms_blockOwners s)).

(** [key] is the manager's, set by the callers right after the call. *)
Definition CreateMp2Session (sess : option Z) (key : Z) : Mp2Session :=
  let s := {| ms_sessionMap := ∅; ms_blockOwners := ∅; ms_blockNumber := 0;
              ms_controlRecvBuffer := []; ms_sem := None; ms_key := key; ms_goodbye := false;
              ms_firstSegment := true; ms_noTimeoutChan := make_chan 1 |} in
  match sess with
  | Some id => AddSession s id
  | None => s
  end.

Definition CreateMp2SessionManager (conf : Config) (peerID : Z) : Mp2SessionManager := {|
  mm_peerId := peerID;
  mm_peerPushMode := true;
  mm_peerModeStatus := "";
  mm_myAddr := NIC_ADDRS conf;
  mm_childAddr := [];
  mm_allAddr := [];
  mm_blockList := ∅;
  mm_receivedBlockChannel := make_chan 1;
  mm_mp2IdFromParent := 0;
  mm_mp2IdToChildren := 0;
  mm_mp2IdForPull := 0;
  mm_mp2sessionMap := ∅;
  mm_blockNumChannel := ∅;
  mm_blockInfoChannel := ∅;
  mm_sendBuffer := [];
  mm_recvBuffer := ∅;
  mm_goodbye := false;
  mm_timeoutFlag := ∅;
  mm_nodeInfoChan := make_chan 1;
  mm_nodeInfoFlag := ∅;
  mm_stopSendCond := 0;
  mm_blockFinishFlag := ∅;
|}.

(** The channels of a new mp2session, and the session under its key. *)
Definition register (mp2ID : Z) (s : Mp2Session) : M unit :=
  modifyM (λ p, mm_set_blockNumChannel p (<[mp2ID := make_chan 1]> (mm_blockNumChannel p)));;
  modifyM (λ p, mm_set_blockInfoChannel p (<[mp2ID := make_chan 1]> (mm_blockInfoChannel p)));;
  modifyM (λ p, mm_set_blockFinishFlag p (<[mp2ID := make_chan 1]> (mm_blockFinishFlag p)));;
  modifyM (λ p, mm_set_mp2sessionMap p (<[mp2ID := s]> (mm_mp2sessionMap p))).

(** The first session connected creates the mp2session, the others join it. *)
Definition join (mp2ID sessionID : Z) : M unit :=
  p ← getM;
  match mm_mp2sessionMap p !! mp2ID with
  | None => register mp2ID (CreateMp2Session (Some sessionID) mp2ID)
  | Some _ => modifyS mp2ID (λ s, AddSession s sessionID)
  end;;
  emit (GoHandler mp2ID sessionID).

Definition HandlerStart (key sessionID : Z) : M unit := emit (GoHandler key sessionID).

(** What connecting to a list of addresses gets from outside: the random ID of
    the mp2session, the ID of the session that [SessionManager.Connect] returns
    in round [i] of the loop, and the value of [rand.Intn(10)] in that round. *)
Record connect_env := {
  ce_mp2ID : Z;
  ce_connect : nat → string → Z;
  ce_rand : nat → Z;
}.

Definition Mp2ConnectToChildren (env : connect_env) : M Z :=
  p ← getM;
  for_each (imap pair (mm_childAddr p)) (λ '(i, addr),
    join (ce_mp2ID env) (ce_connect env i addr);;
    modifyM (λ p, if mm_peerId p =? 1
                  then mm_set_stopSendCond p (u32 (u32 (u32 (ce_rand env i) * 1024) * 1024)) else p));;
  mret (ce_mp2ID env).

Definition Mp2Connect (TopAddr : string) (env : connect_env) : M unit :=
  modifyM (λ p, mm_set_childAddr p (mm_childAddr p ++ [TopAddr]));;
  id ← Mp2ConnectToChildren env;
  modifyM (λ p, mm_set_mp2IdToChildren p id).

Definition Mp2Accept (sessionID mp2ID : Z) : M Z :=
  register mp2ID (CreateMp2Session (Some sessionID) mp2ID);;
  HandlerStart mp2ID sessionID;;
  mret mp2ID.

(** ** Control packets *)

(** [[]byte(s)]. *)
Fixpoint bytes_of_string (s : string) : list Z :=
  match s with
  | EmptyString => []
  | String c s => Z.of_nat (nat_of_ascii c) :: bytes_of_string s
  end.

Definition PUSH_MODE : list Z := bytes_of_string "Push Mode".
Definition PULL_MODE : list Z := bytes_of_string "Pull Mode".

(** The loop of [WriteControl] from [offset] on; each round takes at least one
    byte, so that the length of the buffer is enough fuel ([control_loop_run]).
    [order] lists the keys of [sessionMap] as [range] visits them. *)
Fixpoint control_loop (fuel : nat) (key : Z) (order : list Z) (buf : list Z) (offset : Z) : M unit :=
  match fuel with
  | O => mret tt
  | S fuel =>
      let buf_len := u32 (zlen buf) in
      if offset <? buf_len then
        let size := if u32 (offset + PAYLOAD_SIZE) <=? buf_len then PAYLOAD_SIZE
                    else u32 (buf_len - offset) in
        data ← lift (slice buf offset (u32 (offset + size)));
        for_each order (λ sessionID, sendControlPacket key sessionID data);;
        control_loop fuel key order buf (u32 (offset + size))
      else mret tt
  end.

Definition WriteControl (key : Z) (order : list Z) (buf : list Z) : M unit :=
  control_loop (length buf) key order buf 0.

(** [copy(buf, packet.Data)] into a slice of [bufLen] bytes: the bytes copied
    and [len(packet.Data)], which is what is returned. *)
Definition ReadControl (key : Z) (bufLen : nat) : M (list Z * Z) :=
  s ← getS key;
  match ms_controlRecvBuffer s with
  | [] => if ms_goodbye s then mret ([], 0) else blocked
  | packet :: rest =>
      modifyS key (λ s, ms_set_controlRecvBuffer s rest);;
      mret (take bufLen (cp_Data packet), zlen (cp_Data packet))
  end.

Definition handleControlPacket (key : Z) (packet : ControlPacket) : M unit :=
  modifyS key (λ s, ms_set_controlRecvBuffer s (ms_controlRecvBuffer s ++ [packet])).

Definition Mp2WriteControl (buf : list Z) (mp2ID : Z) (order : list Z) : M unit :=
  WriteControl mp2ID order buf.

Definition Mp2ReadControl (bufLen : nat) (mp2ID : Z) : M (list Z * Z) := ReadControl mp2ID bufLen.

(** ** Announcing blocks *)

Definition BlockInfo (key : Z) (order : list Z) (blockNumber blockSize status : Z) : M unit :=
  modifyS key (λ s, ms_set_blockNumber s blockNumber);;
  for_each order (λ sessionID, sendBlockInfoPacket key sessionID blockNumber blockSize status).

(** The loop compares [blockNumber] with the values of [blockList]. *)
Definition Mp2SendBlockInfo (mp2ID : Z) (order : list Z) (blockNumber blockSize : Z) : M unit :=
  p ← getM;
  let status := if bool_decide (blockNumber ∈ (map_to_list (mm_blockList p)).*2)
                then PEER_HAS_BLOCK else PEER_HAS_NO_BLOCK in
  BlockInfo mp2ID order blockNumber blockSize status.

Definition FindBlock (key sessionID blockNumber : Z) : M unit :=
  modifyS key (λ s, ms_set_blockNumber s blockNumber);;
  modifyS key (λ s, ms_set_blockOwners s (<[sessionID := PEER_NOT_KNOWN]> (ms_blockOwners s)));;
  sendBlockFindPacket key sessionID blockNumber.

Definition Mp2FindBlock (order : list Z) (blockNumber : Z) : M unit :=
  p ← getM;
  for_each order (λ sessionID, FindBlock (mm_mp2IdForPull p) sessionID blockNumber).

Definition recv_nodeInfo : M unit :=
  p ← getM;
  '(_, c) ← of_option blocked (chan_recv (mm_nodeInfoChan p));
  putM (mm_set_nodeInfoChan p c).

Definition send_nodeInfo : M unit :=
  p ← getM;
  c ← of_option blocked (chan_send (mm_nodeInfoChan p) true);
  putM (mm_set_nodeInfoChan p c).

Definition AddSendBuffer (buf : list Z) : M unit :=
  modifyM (λ p, mm_set_sendBuffer p (mm_sendBuffer p ++ buf)).

(** [Mp2SendBlock] of a file with the given contents, read in pieces. *)
Definition Mp2SendBlock (order : list Z) (pieces : list (list Z)) (blockNumber : Z) : M unit :=
  let blockSize := u32 (zlen (concat pieces)) in
  modifyM (λ p, mm_set_blockList p (<[blockNumber := blockSize]> (mm_blockList p)));;
  recv_nodeInfo;;
  p ← getM;
  Mp2SendBlockInfo (mm_mp2IdToChildren p) order blockNumber blockSize;;
  for_each pieces AddSendBuffer;;
  send_nodeInfo.

(** One round of [Mp2ReceiveBlockInfo]. *)
Definition Mp2ReceiveBlockInfo (mp2ID : Z) (order : list Z) : M unit :=
  packet ← recv_on mm_blockInfoChannel mm_set_blockInfoChannel mp2ID;
  modifyM (λ p, mm_set_blockList p (<[bi_BlockNumber packet := bi_BlockSize packet]> (mm_blockList p)));;
  p ← getM;
  c ← of_option blocked (chan_send (mm_receivedBlockChannel p) (bi_BlockNumber packet));
  putM (mm_set_receivedBlockChannel p c);;
  if negb (mm_mp2IdToChildren p =? 0) then
    recv_nodeInfo;;
    Mp2SendBlockInfo (mm_mp2IdToChildren p) order (bi_BlockNumber packet) (bi_BlockSize packet);;
    send_nodeInfo
  else mret tt.

Definition Mp2ReceiveBlockFind (mp2ID : Z) : M Z := recv_on mm_blockNumChannel mm_set_blockNumChannel mp2ID.

Definition Mp2GetBlockInfo : M (Z * Z) :=
  p ← getM;
  '(blockNumber, c) ← of_option blocked (chan_recv (mm_receivedBlockChannel p));
  putM (mm_set_receivedBlockChannel p c);;
  mret (blockNumber, default 0 (mm_blockList p !! blockNumber)).

(** ** Receiving blocks *)

Definition AddRecvBuffer (g : Segment) : M unit :=
  b ← getB (sg_BlockNumber g);
  putB (sg_BlockNumber g) (PushSegment b g).

(** [Mp2ReadBlock] into a slice of [bufLen] bytes: the bytes read (their number
    is returned).  The call waits while there is no segment, or while the first
    one has nothing to read; after a time-out it looks for the first segment
    again, as every attempt does here. *)
Definition Mp2ReadBlock (bufLen blockNumber : Z) : M (list Z) :=
  b ← getB blockNumber;
  p ← getM;
  bs ← (match bb_buffer b with
        | [] => if mm_goodbye p then mret [] else blocked
        | segment :: rest =>
            if hasDataToRead segment then
              '(bs, complete, segment') ← lift (PopData segment bufLen);
              if (complete : bool) then
                (if sg_Last segment then modifyM (λ p, mm_set_goodbye p true) else mret tt);;
                b' ← lift (RemoveSegment (bb_set_buffer b (segment' :: rest)));
                putB blockNumber b';; mret bs
              else putB blockNumber (bb_set_buffer b (segment' :: rest));; mret bs
            else blocked
        end);
  b ← getB blockNumber;
  putB blockNumber {| bb_lastRecvBytes := bb_lastRecvBytes b;
                      bb_readBytes := u32 (bb_readBytes b + zlen bs);
                      bb_buffer := bb_buffer b |};;
  modifyM (λ p, mm_set_peerModeStatus p
    (if mm_peerPushMode p then "Push Mode: Download from parent!"
     else "Pull Mode: Download from pull node(s)!"));;
  mret bs.

(** ** Requesting a block *)

(** The keys with a status, in the order of [range]. *)
Definition owners_with (status : Z) (owners : gmap Z Z) (order : list Z) : list Z :=
  List.filter (λ id, bool_decide (owners !! id = Some status)) order.

(** The next segment to request from [offset] on: its size, first and last data
    number and whether it is the last one. *)
Definition next_segment (blockSize offset : Z) : Z * Z * Z * bool :=
  let size := if SEGMENT_SIZE <=? u32 (blockSize - offset) then SEGMENT_SIZE
              else u32 (blockSize - offset) in
  let startDataNumber := offset / PAYLOAD_SIZE in
  let numData := u32 (ceil_payloads size) in
  let endDataNumber := u32 (u32 (startDataNumber + numData) - 1) in
  (size, startDataNumber, endDataNumber, u32 (offset + size) =? blockSize).

(** Fills a channel; the sends of the start of [sendBlockRequest]. *)
Fixpoint fill {A} (c : chan A) (l : list A) : M (chan A) :=
  match l with
  | [] => mret c
  | x :: l => c ← of_option blocked (chan_send c x); fill c l
  end.

Definition sendBlockRequest_start (key : Z) (order : list Z) : M unit :=
  s ← getS key;
  let peers := owners_with PEER_HAS_BLOCK (ms_blockOwners s) order in
  sem ← fill (make_chan (length peers)) peers;
  modifyS key (λ s, ms_set_sem s (Some sem)).

Definition recv_sem (key : Z) : M Z :=
  s ← getS key;
  sem ← of_option blocked (ms_sem s);
  '(id, sem) ← of_option blocked (chan_recv sem);
  modifyS key (λ s, ms_set_sem s (Some sem));; mret id.

(** A round of the loop of [sendBlockRequest]: [None] at the end of the loop,
    the new [offset] and [idx] otherwise. *)
Definition sendBlockRequest_round (key blockNumber blockSize offset idx : Z) : M (option (Z * Z)) :=
  if offset <? blockSize then
    selectedSessionID ← recv_sem key;
    let '(size, startDataNumber, endDataNumber, lastSegment) := next_segment blockSize offset in
    modifyS key (λ s, ms_set_blockOwners s (<[selectedSessionID := PEER_DOWNLOADING]> (ms_blockOwners s)));;
    AddRecvBuffer (CreateSegment blockNumber selectedSessionID idx startDataNumber endDataNumber size lastSegment);;
    sendBlockRequestPacket key selectedSessionID blockNumber startDataNumber endDataNumber 0;;
    mret (Some (u32 (offset + size), u32 (idx + 1)))
  else mret None.

(** FEC mode: one peer at a time gets a token, all peers get the request.
    [raptor] is [s.raptor], which [CreateRaptor] makes in this mode. *)
Definition sendFecBlockRequest_start (key : Z) (order : list Z) : M unit :=
  s ← getS key;
  let peers := owners_with PEER_HAS_BLOCK (ms_blockOwners s) order in
  sem ← fill (make_chan 1) (take 1 peers);
  modifyS key (λ s, ms_set_sem s (Some sem)).

Fixpoint fec_requests (key blockNumber startDataNumber endDataNumber fecIdx : Z) (peers : list Z) : M unit :=
  match peers with
  | [] => mret tt
  | sessionID :: peers =>
      sendBlockRequestPacket key sessionID blockNumber startDataNumber endDataNumber (u8 fecIdx);;
      fec_requests key blockNumber startDataNumber endDataNumber (u32 (fecIdx + 1)) peers
  end.

Definition sendFecBlockRequest_round (raptor : Raptor) (key numPeers : Z)
    (order : list Z) (blockNumber blockSize offset fecIdx : Z) : M (option (Z * Z)) :=
  if offset <? blockSize then
    selectedSessionID ← recv_sem key;
    let '(size, startDataNumber, endDataNumber, lastSegment) := next_segment blockSize offset in
    AddRecvBuffer (CreateSegmentWithRedundant blockNumber selectedSessionID fecIdx startDataNumber
                     endDataNumber size lastSegment (rt_SymbolSize raptor) (rt_NumSrcSymbols raptor) (rt_NumEncSymbols raptor));;
    s ← getS key;
    let peers := owners_with PEER_HAS_BLOCK (ms_blockOwners s) order in
    let fecIdx := u32 (numPeers * 10) in
    fec_requests key blockNumber startDataNumber endDataNumber fecIdx peers;;
    mret (Some (u32 (offset + size), u32 (fecIdx + zlen peers)))
  else mret None.

(** ** Serving a request *)

(** [fecIndex] encodes the number of peers and the index of this one. *)
Definition fec_peers (fecIndex : Z) : Z * Z :=
  let numPeers := fecIndex / 10 in
  (numPeers, u8 (fecIndex - u8 (numPeers * 10))).

(** In FEC mode a peer sends the data numbers of its residue only. *)
Definition fec_skip (fec : bool) (fecIndex dataNumber : Z) : outcome bool :=
  let '(numPeers, peerIdx) := fec_peers fecIndex in
  if fec then
    if numPeers =? 0 then Panic "integer divide by zero"
    else Ret (negb (dataNumber mod numPeers =? peerIdx))
  else Ret false.

(** The loop of [sendBlockData]; a range of [n] data numbers takes [n] rounds.
    It runs out of fuel only if the end is the last 32-bit value, for which the
    loop of the source does not end either. *)
Fixpoint block_data_loop (fuel : nat) (fec : bool) (key sessionID blockNumber dataNumber endDataNumber fecIndex : Z) : M unit :=
  if dataNumber <=? endDataNumber then
    match fuel with
    | O => diverges
    | S fuel =>
        skip ← lift (fec_skip fec fecIndex dataNumber);
        (if (skip : bool) then mret tt
         else
           p ← getM;
           let bufLen := u32 (zlen (mm_sendBuffer p)) in
           let offset := u32 (dataNumber * PAYLOAD_SIZE) in
           let size := if u32 (offset + PAYLOAD_SIZE) <=? bufLen then PAYLOAD_SIZE else u32 (bufLen - offset) in
           data ← lift (slice (mm_sendBuffer p) offset (u32 (offset + size)));
           sendBlockDataPacket key sessionID blockNumber dataNumber FEC_SOURCE_DATA data);;
        block_data_loop fuel fec key sessionID blockNumber (u32 (dataNumber + 1)) endDataNumber fecIndex
    end
  else mret tt.

Definition sendBlockData (fec : bool) (key sessionID blockNumber startDataNumber endDataNumber fecIndex : Z) : M unit :=
  p ← getM;
  let lastOffset := u32 (endDataNumber * PAYLOAD_SIZE) in
  if u32 (zlen (mm_sendBuffer p)) <? lastOffset then blocked else
  s ← getS key;
  (if ms_firstSegment s && (0 <? mm_stopSendCond p) then modifyS key (λ s, ms_set_firstSegment s false) else mret tt);;
  s ← getS key;
  stop ← (if negb (ms_firstSegment s) then
            b ← getB (ms_blockNumber s);
            mret (mm_stopSendCond p <=? bb_lastRecvBytes b)
          else mret false);
  if (stop : bool) then mret tt
  else block_data_loop (Z.to_nat (endDataNumber - startDataNumber + 1)) fec key sessionID blockNumber
         startDataNumber endDataNumber fecIndex.

(** The redundant data of a segment; [Encode]'s result has no capacity beyond
    its length. *)
Fixpoint red_data_loop (fuel : nat) (fec : bool) (redundant : list Z)
    (key sessionID blockNumber startRedDataNumber dataNumber endRedDataNumber fecIndex : Z) : M unit :=
  if dataNumber <=? endRedDataNumber then
    match fuel with
    | O => diverges
    | S fuel =>
        skip ← lift (fec_skip fec fecIndex dataNumber);
        (if (skip : bool) then mret tt
         else
           let redOffset := u32 (u32 (dataNumber - startRedDataNumber) * PAYLOAD_SIZE) in
           data ← lift (slice redundant redOffset (u32 (redOffset + PAYLOAD_SIZE)));
           sendBlockDataPacket key sessionID blockNumber dataNumber FEC_REDUNDANT_DATA data);;
        red_data_loop fuel fec redundant key sessionID blockNumber startRedDataNumber
          (u32 (dataNumber + 1)) endRedDataNumber fecIndex
    end
  else mret tt.

Definition sendBlockRedData (raptor : Raptor) (fec : bool)
    (key sessionID blockNumber startDataNumber endDataNumber fecIndex : Z) : M unit :=
  p ← getM;
  let bufLen := u32 (zlen (mm_sendBuffer p)) in
  let offset := u32 (startDataNumber * PAYLOAD_SIZE) in
  let size := if u32 (offset + SEGMENT_SIZE) <=? bufLen then SEGMENT_SIZE else u32 (bufLen - offset) in
  src ← lift (slice (mm_sendBuffer p) offset (u32 (offset + size)));
  srcBlock ← lift (copy_to (replicate (Z.to_nat SEGMENT_SIZE) 0) 0 SEGMENT_SIZE src);
  redundant ← lift (Encode raptor srcBlock);
  if bool_decide (redundant = []) then panicM "Raptor Encode Fail!" else
  let startRedDataNumber := u32 (endDataNumber + 1) in
  let endRedDataNumber := u32 (endDataNumber + ceil_payloads (zlen redundant)) in
  red_data_loop (Z.to_nat (endRedDataNumber - startRedDataNumber + 1)) fec redundant
    key sessionID blockNumber startRedDataNumber startRedDataNumber endRedDataNumber fecIndex.

(** ** Packet handlers *)

Definition handleBlockFindPacket (key : Z) (packet : BlockFindPacket) : M unit :=
  s ← getS key;
  send_on mm_blockNumChannel mm_set_blockNumChannel (ms_key s) (bf_BlockNumber packet).

Definition has_answered (status : Z) : bool :=
  (status =? PEER_HAS_BLOCK) || (status =? PEER_HAS_NO_BLOCK).

(** The status in the packet is not looked at. *)
Definition handleBlockInfoPacket (fec : bool) (key : Z) (packet : BlockInfoPacket) (sessionID : Z) : M unit :=
  modifyS key (λ s, ms_set_blockNumber s (bi_BlockNumber packet));;
  modifyS key (λ s, ms_set_blockOwners s (<[sessionID := PEER_HAS_BLOCK]> (ms_blockOwners s)));;
  s ← getS key;
  let cnt := length (List.filter has_answered (map_to_list (ms_blockOwners s)).*2) in
  if (cnt =? size (ms_blockOwners s))%nat then
    send_on mm_blockInfoChannel mm_set_blockInfoChannel (ms_key s) packet;;
    p ← getM;
    (match mm_recvBuffer p !! ms_blockNumber s with
     | None => putB (ms_blockNumber s) CreateBlockBuffer
     | Some _ => mret tt
     end);;
    b ← getB (ms_blockNumber s);
    emit (if fec then GoFecBlockRequest key (bi_BlockNumber packet) (bi_BlockSize packet)
          else GoBlockRequest key (bi_BlockNumber packet) (bi_BlockSize packet) (bb_lastRecvBytes b));;
    emit (GoTimer key)
  else mret tt.

Definition handleBlockRequestPacket (fec : bool) (key : Z) (packet : BlockRequestPacket) (sessionID : Z) : M unit :=
  emit (GoBlockData key sessionID (br_BlockNumber packet) (br_StartDataNumber packet)
          (br_EndDataNumber packet) (br_FecIndex packet));;
  if fec then
    emit (GoBlockRedData key sessionID (br_BlockNumber packet) (br_StartDataNumber packet)
            (br_EndDataNumber packet) (br_FecIndex packet))
  else mret tt.

(** The segment a data packet belongs to. *)
Definition segment_matches (packet : BlockDataPacket) (g : Segment) : bool :=
  if bd_Redundant packet =? FEC_SOURCE_DATA then
    (bd_BlockNumber packet =? sg_BlockNumber g) && (sg_startDataNumber g <=? bd_DataNumber packet) &&
    (bd_DataNumber packet <=? sg_endDataNumber g)
  else
    (bd_BlockNumber packet =? sg_BlockNumber g) && (sg_startRedDataNumber g <=? bd_DataNumber packet) &&
    (bd_DataNumber packet <=? sg_endRedDataNumber g).

Fixpoint find_segment (packet : BlockDataPacket) (l : list Segment) : option (nat * Segment) :=
  match l with
  | [] => None
  | g :: l =>
      if segment_matches packet g then Some (0%nat, g)
      else '(i, g) ← find_segment packet l; Some (S i, g)
  end.

(** The segment is an object shared with the block buffer: the buffer's entry
    is updated.  The whole handler in one step; the source takes no mutex for the
    search, and [BlockHandlers] has its accesses as steps of their own. *)
Definition handleBlockDataPacket (key : Z) (packet : BlockDataPacket) : M unit :=
  s ← getS key;
  b ← getB (ms_blockNumber s);
  match find_segment packet (bb_buffer b) with
  | None => mret tt
  | Some (i, segment) =>
      '(_, segment) ←
        lift (if bd_Redundant packet =? FEC_SOURCE_DATA
              then PushData segment (bd_BlockNumber packet) (bd_DataNumber packet) (bd_Data packet)
              else PushRedData segment (bd_BlockNumber packet) (bd_DataNumber packet) (bd_Data packet));
      (if bd_Redundant packet =? FEC_SOURCE_DATA then AddSendBuffer (bd_Data packet) else mret tt);;
      let last := if bd_Redundant packet =? FEC_SOURCE_DATA
                  then u32 (bb_lastRecvBytes b + u32 (zlen (bd_Data packet))) else bb_lastRecvBytes b in
      let put g := putB (ms_blockNumber s) {| bb_lastRecvBytes := last; bb_readBytes := bb_readBytes b;
                                              bb_buffer := <[i := g]> (bb_buffer b) |} in
      put segment;;
      if sg_Complete segment && negb (sg_FecFinish segment) then
        sem ← of_option blocked (ms_sem s);
        sem ← of_option blocked (chan_send sem (sg_SessionID segment));
        modifyS key (λ s, ms_set_sem s (Some sem));;
        put (sg_read segment (sg_readDataOffset segment) true)
      else mret tt
  end.

Definition handleBlockDataAckPacket (key : Z) (packet : BlockDataAckPacket) : M unit := mret tt.

Definition handleBlockFinPacket (key : Z) (packet : BlockFinPacket) : M unit :=
  s ← getS key;
  send_on mm_blockFinishFlag mm_set_blockFinishFlag (ms_key s) true.

(** ** Node information *)

(** [util.Int2ip]: dotted decimal. *)
Definition Int2ip (ipInt : Z) : string :=
  match WriteUint32 ipInt with
  | [a; b; c; d] => (pretty a +:+ "." +:+ pretty b +:+ "." +:+ pretty c +:+ "." +:+ pretty d)%string
  | _ => ""%string
  end.

(** [strings.Split(s, ":")]. *)
Fixpoint Split (s : string) : list string :=
  match s with
  | EmptyString => [""%string]
  | String c s =>
      if decide (c = ":"%char) then ""%string :: Split s
      else match Split s with
           | [] => [String c ""]
           | x :: l => String c x :: l
           end
  end.

Definition digit (c : Ascii.ascii) : option Z :=
  let n := Z.of_nat (Ascii.nat_of_ascii c) in
  if (48 <=? n) && (n <=? 57) then Some (n - 48) else None.

(** The loop of [ParseUint]: a value that does not fit into 16 bits ends it. *)
Fixpoint digits (s : string) (acc : Z) : option Z :=
  match s with
  | EmptyString => Some acc
  | String c s =>
      d ← digit c;
      let n := acc * 10 + d in
      if n <? 2 ^ 16 then digits s n else Some (2 ^ 16 - 1)
  end.

(** [strconv.ParseInt(s, 10, 16)] with the error ignored: 0 for bad syntax, the
    nearest 16-bit signed value when out of range. *)
Definition ParseInt16 (s : string) : Z :=
  let num s := match s with EmptyString => None | _ => digits s 0 end in
  match s with
  | String c r =>
      if decide (c = "-"%char) then
        match num r with Some n => if n <=? 2 ^ 15 then - n else - 2 ^ 15 | None => 0 end
      else
        match num (if decide (c = "+"%char) then r else s) with
        | Some n => if n <? 2 ^ 15 then n else 2 ^ 15 - 1
        | None => 0
        end
  | EmptyString => 0
  end.

(** Does an address of the configuration name this node? *)
Definition is_me (nodeInfo : NodeInfo) (nicInfo : string) : outcome bool :=
  let ip := Split nicInfo in
  port ← index ip 1;
  host ← index ip 0;
  Ret (bool_decide (Int2ip (nd_NodeIP nodeInfo) = host) && (nd_Port nodeInfo =? u16 (ParseInt16 port))).

(** The inner loop stops at the first match, the outer one goes on. *)
Fixpoint any_me (nodeInfo : NodeInfo) (nics : list string) : outcome bool :=
  match nics with
  | [] => Ret false
  | nic :: nics => b ← is_me nodeInfo nic; if (b : bool) then Ret true else any_me nodeInfo nics
  end.

Fixpoint find_me (nics : list string) (infos : list NodeInfo) (idx myIdx : Z) : outcome Z :=
  match infos with
  | [] => Ret myIdx
  | info :: infos => b ← any_me info nics; find_me nics infos (idx + 1) (if (b : bool) then idx else myIdx)
  end.

Definition node_addr (n : NodeInfo) : string := (Int2ip (nd_NodeIP n) +:+ ":" +:+ pretty (nd_Port n))%string.

(** The addresses of [n] nodes from index [i] on; the index is a byte. *)
Fixpoint child_addrs (infos : list NodeInfo) (i : Z) (n : nat) : outcome (list string) :=
  match n with
  | O => Ret []
  | S n => info ← index infos i; l ← child_addrs infos (u8 (i + 1)) n; Ret (node_addr info :: l)
  end.

Definition Mp2SetNodeInfo (conf : Config) (nodeInfos : list NodeInfo) : M unit :=
  myIdx ← lift (find_me (NIC_ADDRS conf) nodeInfos 0 0);
  me ← lift (index nodeInfos myIdx);
  (if negb (nd_NumOfChilds me =? 0) then
     let firstChildIdx := nd_OffsetOfChild me in
     let endChildIdx := u8 (firstChildIdx + nd_NumOfChilds me) in
     addrs ← lift (child_addrs nodeInfos firstChildIdx (Z.to_nat (endChildIdx - firstChildIdx)));
     modifyM (λ p, mm_set_childAddr p (mm_childAddr p ++ addrs))
   else mret tt);;
  modifyM (λ p, mm_set_allAddr p (mm_allAddr p ++ (node_addr <$> delete (Z.to_nat myIdx) nodeInfos))).

Definition Mp2SendNodeInfo (nodeInfos : list NodeInfo) (env : connect_env) (order1 order2 : list Z) : M unit :=
  p ← getM;
  if bool_decide (mm_childAddr p = []) then mret tt
  else
    id ← Mp2ConnectToChildren env;
    modifyM (λ p, mm_set_mp2IdToChildren p id);;
    Mp2WriteControl PUSH_MODE id order1;;
    for_each order2 (λ sessionID,
      modifyM (λ p, mm_set_nodeInfoFlag p (<[sessionID := false]> (mm_nodeInfoFlag p)));;
      sendNodeInfoPacket id sessionID nodeInfos).

Definition handleNodeInfoPacket (conf : Config) (key : Z) (packet : NodeInfoPacket) (sessionID : Z)
    (env : connect_env) (order1 order2 : list Z) : M unit :=
  Mp2SetNodeInfo conf (np_NodeInfos packet);;
  Mp2SendNodeInfo (np_NodeInfos packet) env order1 order2;;
  sendNodeInfoAckPacket key sessionID (u16 (zlen (np_NodeInfos packet))).

(** All flags are set when every child has answered. *)
Definition handleNodeInfoAckPacket (sessionID : Z) : M unit :=
  modifyM (λ p, mm_set_nodeInfoFlag p (<[sessionID := true]> (mm_nodeInfoFlag p)));;
  p ← getM;
  if forallb (λ f : bool, f) (map_to_list (mm_nodeInfoFlag p)).*2 then
    match ch_buf (mm_nodeInfoChan p) with
    | [] => send_nodeInfo
    | _ => mret tt
    end
  else mret tt.

(** ** Pull mode and time-outs *)

(** The loop skips the address with index 1. *)
Definition Mp2ConnectForPull (blockNumber : Z) (env : connect_env) (order1 order2 order3 : list Z) : M unit :=
  p ← getM;
  for_each (imap pair (mm_allAddr p)) (λ '(idx, addr),
    if (idx =? 1)%nat then mret tt else join (ce_mp2ID env) (ce_connect env idx addr));;
  modifyM (λ p, mm_set_mp2IdForPull p (ce_mp2ID env));;
  modifyM (λ p, mm_set_peerPushMode p false);;
  Mp2WriteControl PULL_MODE (ce_mp2ID env) order1;;
  p ← getM;
  send_on mm_blockFinishFlag mm_set_blockFinishFlag (mm_mp2IdFromParent p) true;;
  for_each order2 (sendBlockFinPacket (mm_mp2IdFromParent p));;
  Mp2FindBlock order3 blockNumber.

(** [timer]: the start, an arrival on [noTimeoutChan], and a time-out.  The
    result says whether the loop goes on and the new [firstTimeout]; the
    time-out waits until all received bytes have been read. *)
Definition set_timeout (key : Z) (flag : bool) : M unit :=
  s ← getS key;
  modifyM (λ p, mm_set_timeoutFlag p (<[ms_blockNumber s := flag]> (mm_timeoutFlag p))).

Definition timer_start (key : Z) : M unit := set_timeout key false.

Definition timer_noTimeout (key : Z) : M unit :=
  s ← getS key;
  '(_, c) ← of_option blocked (chan_recv (ms_noTimeoutChan s));
  modifyS key (λ s, ms_set_noTimeoutChan s c);;
  set_timeout key false.

Definition timer_timeout (key : Z) (firstTimeout : bool) (order : list Z)
    (env : connect_env) (order1 order2 order3 : list Z) : M (bool * bool) :=
  s ← getS key;
  b ← getB (ms_blockNumber s);
  p ← getM;
  if bb_lastRecvBytes b =? default 0 (mm_blockList p !! ms_blockNumber s) then
    send_on mm_blockFinishFlag mm_set_blockFinishFlag (ms_key s) true;;
    for_each order (sendBlockFinPacket key);;
    mret (false, firstTimeout)
  else if firstTimeout then
    if bb_readBytes b <? bb_lastRecvBytes b then blocked
    else
      putB (ms_blockNumber s) (bb_set_buffer b []);;
      set_timeout key true;;
      Mp2ConnectForPull (ms_blockNumber s) env order1 order2 order3;;
      mret (true, false)
  else mret (true, firstTimeout).

(** ** Dispatch of a parsed packet *)

Definition parsePacket (fec : bool) (conf : Config) (env : connect_env) (order1 order2 : list Z)
    (key sessionID : Z) (packet : Mp2Packet) : M unit :=
  match packet with
  | PBlockFind packet => handleBlockFindPacket key packet
  | PBlockInfo packet => handleBlockInfoPacket fec key packet sessionID
  | PBlockRequest packet => handleBlockRequestPacket fec key packet sessionID
  | PBlockData packet =>
      s ← getS key;
      c ← of_option blocked (chan_send (ms_noTimeoutChan s) true);
      modifyS key (λ s, ms_set_noTimeoutChan s c);;
      handleBlockDataPacket key packet
  | PBlockDataAck packet => handleBlockDataAckPacket key packet
  | PBlockFin packet => handleBlockFinPacket key packet
  | PControl packet => handleControlPacket key packet
  | PNodeInfo packet =>
      handleNodeInfoPacket conf key packet sessionID env order1 order2
  | PNodeInfoAck packet => handleNodeInfoAckPacket sessionID
  end.

(** ** Listening and closing *)

(** [strings.Contains]. *)
Fixpoint Contains (l pat : list Z) : bool :=
  bool_decide (pat `prefix_of` l) ||
  match l with
  | [] => false
  | _ :: l => Contains l pat
  end.

(** [Mp2Listen] after [Mp2Accept]: the control packet decides what the new
    connection is for.  [buf] is not cleared between connections; the result
    is its contents and whether the pull branch goes on with
    [Mp2Listen_pull]. *)
Definition Mp2Listen_mode (mp2Id : Z) (buf : list Z) : M (list Z * bool) :=
  '(bs, _) ← Mp2ReadControl (length buf) mp2Id;
  let buf := splice buf 0 bs in
  if Contains buf PUSH_MODE then
    modifyM (λ p, mm_set_mp2IdFromParent p mp2Id);;
    emit (GoReceiveBlockInfo mp2Id);; mret (buf, false)
  else if Contains buf PULL_MODE then
    modifyM (λ p, mm_set_mp2IdForPull p mp2Id);; mret (buf, true)
  else mret (buf, false).

Definition Mp2Listen_pull (order : list Z) : M unit :=
  p ← getM;
  blockNumber ← Mp2ReceiveBlockFind (mm_mp2IdForPull p);
  p ← getM;
  match mm_blockList p !! blockNumber with
  | Some blockSize => Mp2SendBlockInfo (mm_mp2IdForPull p) order blockNumber blockSize
  | None => mret tt
  end.

(** [Mp2Session.Close]. *)
Definition Mp2Session_Close (key : Z) (order : list Z) : M unit :=
  _ ← getS key; for_each order (λ sessionID, emit (CloseSession sessionID)).

(** One of the three parts of [Mp2Close]: nothing without a finish channel,
    otherwise wait for it (unless [now]) and close the sessions. *)
Definition close_connection (mp2ID : Z) (now : bool) (order : list Z) : M unit :=
  p ← getM;
  match mm_blockFinishFlag p !! mp2ID with
  | None => mret tt
  | Some _ =>
      (if now then mret tt
       else _ ← recv_on mm_blockFinishFlag mm_set_blockFinishFlag mp2ID; mret tt);;
      Mp2Session_Close mp2ID order
  end.

Definition Mp2Close (order1 order2 order3 : list Z) : M unit :=
  p ← getM;
  close_connection (mm_mp2IdFromParent p) (mm_peerId p =? 0) order1;;
  close_connection (mm_mp2IdToChildren p) false order2;;
  close_connection (mm_mp2IdForPull p) false order3.
