(* ===== verification/BlockTransfer.v ===== *)
(** * Transfer of a block

    The receiver requests a block in segments of at most 2 MiB from the peers
    that have it, and the peers serve the requests from their send buffers.

    - [requests_cover_block]: the requests cover the block without gap or overlap.
    - [request_served]: a peer answers a request with exactly the data packets of
      the segment.
    - [fec_peers_partition]: in FEC mode the peers share the data packets of a
      segment without overlap. *)

From stdpp Require Import base list numbers strings gmap.
From Stdlib Require Import ZArith Lia.
From S2P Require Import Prelude Config Util Mp2Packets Segment Mp2Frames Mp2State Mp2Handlers.

(** ** Running the monad *)

Lemma bind_run {A B} (m : M A) (f : A → M B) p a p1 es :
  m p = Ret (a, p1, es) →
  (m ≫= f) p = match f a p1 with
               | Ret (b, p2, es2) => Ret (b, p2, es ++ es2)
               | Err e => Err e
               | Panic s => Panic s
               end.
Proof. unfold mbind, M_bind. by intros ->. Qed.

Lemma bind_pure {A B} (m : M A) (f : A → M B) p a p1 :
  m p = Ret (a, p1, []) → (m ≫= f) p = f a p1.
Proof.
  intros H. rewrite (bind_run _ _ _ _ _ _ H). by destruct (f a p1) as [[[]]| |].
Qed.

Lemma getS_run key p s : mm_mp2sessionMap p !! key = Some s → getS key p = Ret (s, p, []).
Proof. intros H. unfold getS. rewrite (bind_pure _ _ _ p p) by done. by rewrite H. Qed.

Lemma modifyS_run key f p s :
  mm_mp2sessionMap p !! key = Some s →
  modifyS key f p = Ret (tt, mm_set_mp2sessionMap p (<[key := f s]> (mm_mp2sessionMap p)), []).
Proof. intros H. unfold modifyS. by rewrite (bind_pure _ _ _ s p) by (by apply getS_run). Qed.

Lemma getB_run bn p b : mm_recvBuffer p !! bn = Some b → getB bn p = Ret (b, p, []).
Proof. intros H. unfold getB. rewrite (bind_pure _ _ _ p p) by done. by rewrite H. Qed.

Lemma sendPacket_run key sid pk p s :
  mm_mp2sessionMap p !! key = Some s → sid ∈ ms_sessionMap s →
  sendPacket key sid pk p = Ret (tt, p, [Sent sid pk]).
Proof.
  intros H Hs. unfold sendPacket. rewrite (bind_pure _ _ _ s p) by (by apply getS_run).
  by rewrite bool_decide_true.
Qed.

(** ** The segments of a block *)

(** The segments requested from [offset] on. *)
Fixpoint segments (fuel : nat) (blockSize offset : Z) : list (Z * Z * Z * Z * bool) :=
  match fuel with
  | O => []
  | S fuel =>
      if offset <? blockSize then
        let '(size, start, end_, last) := next_segment blockSize offset in
        (offset, size, start, end_, last) :: segments fuel blockSize (u32 (offset + size))
      else []
  end.

(** What [next_segment] computes, without the machine arithmetic. *)
Lemma next_segment_eq blockSize offset :
  0 <= offset < blockSize → blockSize < 2 ^ 32 → offset mod PAYLOAD_SIZE = 0 →
  let size := Z.min SEGMENT_SIZE (blockSize - offset) in
  next_segment blockSize offset =
    (size, offset / PAYLOAD_SIZE, offset / PAYLOAD_SIZE + ceil_payloads size - 1, offset + size =? blockSize) ∧
  0 < size ∧ u32 (offset + size) = offset + size ∧
  (offset + size < blockSize → (offset + size) mod PAYLOAD_SIZE = 0) ∧
  0 < ceil_payloads size ∧ offset / PAYLOAD_SIZE + ceil_payloads size < 2 ^ 23.
Proof.
  intros Ho Hb Hm size. unfold next_segment. unfold SEGMENT_SIZE, PAYLOAD_SIZE, ceil_payloads in *.
  unfold PAYLOAD_SIZE in *.
  assert (u32 (blockSize - offset) = blockSize - offset) as -> by (apply wrap_small; unfold uint; lia).
  assert ((if 2 * 1024 * 1024 <=? blockSize - offset then 2 * 1024 * 1024 else blockSize - offset) = size) as ->.
  { unfold size. destruct (Z.leb_spec (2 * 1024 * 1024) (blockSize - offset)); lia. }
  assert (0 < size <= 2097152 ∧ size <= blockSize - offset ∧ (size = 2097152 ∨ size = blockSize - offset)) as Hs by (unfold size; lia).
  assert (u32 (offset + size) = offset + size) as Hw by (apply wrap_small; unfold uint; lia).
  rewrite Hw. generalize dependent size. intros size Hs Hw.
  split_and!; try lia; try (zify_div; lia).
  rewrite (wrap_small 32 ((size + 1024 - 1) / 1024)) by (unfold uint; zify_div; lia).
  rewrite (wrap_small 32 (offset / 1024 + _)) by (unfold uint; zify_div; lia).
  rewrite wrap_small by (unfold uint; zify_div; lia). done.
Qed.

(** Requests that cover [lo .. hi) one after the other, the last one marked. *)
Fixpoint covers (lo : Z) (l : list (Z * Z * Z * Z * bool)) (hi : Z) : Prop :=
  match l with
  | [] => lo = hi
  | (offset, size, start, end_, last) :: l =>
      offset = lo ∧ 0 < size <= SEGMENT_SIZE ∧ start = lo / PAYLOAD_SIZE ∧
      end_ = start + ceil_payloads size - 1 ∧ last = bool_decide (l = []) ∧ covers (lo + size) l hi
  end.

Definition asks_for (d : Z) (r : Z * Z * Z * Z * bool) : bool :=
  let '(_, _, start, end_, _) := r in (start <=? d) && (d <=? end_).

Lemma segments_step fuel blockSize offset :
  0 <= offset < blockSize → blockSize < 2 ^ 32 → offset mod PAYLOAD_SIZE = 0 →
  let size := Z.min SEGMENT_SIZE (blockSize - offset) in
  segments (S fuel) blockSize offset =
    (offset, size, offset / PAYLOAD_SIZE, offset / PAYLOAD_SIZE + ceil_payloads size - 1,
     offset + size =? blockSize) :: segments fuel blockSize (offset + size).
Proof.
  intros Ho Hb Hm size. destruct (next_segment_eq blockSize offset Ho Hb Hm) as (Heq & _ & Hw & _).
  cbn [segments]. destruct (Z.ltb_spec offset blockSize); [|lia]. rewrite Heq. by rewrite Hw.
Qed.

Lemma segments_done fuel blockSize offset : blockSize <= offset → segments fuel blockSize offset = [].
Proof. intros H. destruct fuel; [done|]. simpl. destruct (Z.ltb_spec offset blockSize); [lia|done]. Qed.

(** Data numbers below [offset] are not asked for again. *)
Lemma asks_for_above fuel blockSize offset d :
  0 <= offset → blockSize < 2 ^ 32 → (offset < blockSize → offset mod PAYLOAD_SIZE = 0) →
  d * PAYLOAD_SIZE < offset →
  List.filter (asks_for d) (segments fuel blockSize offset) = [].
Proof.
  revert offset. induction fuel as [|fuel IH]; intros offset Ho Hb Hm Hd; [done|].
  destruct (Z.lt_ge_cases offset blockSize) as [Hlt|]; [|by rewrite segments_done].
  specialize (Hm Hlt). rewrite segments_step by done. set (size := Z.min _ _).
  destruct (next_segment_eq blockSize offset) as (_ & Hs & _ & Hmod & _); [done..|]. fold size in Hs, Hmod.
  cbn [List.filter asks_for]. rewrite IH; [|lia|done| |lia].
  - unfold PAYLOAD_SIZE in *. destruct (Z.leb_spec (offset / 1024) d); [|done].
    exfalso. zify_div. lia.
  - auto.
Qed.

Lemma segments_cover fuel blockSize offset :
  0 <= offset <= blockSize → blockSize < 2 ^ 32 → (offset < blockSize → offset mod PAYLOAD_SIZE = 0) →
  blockSize - offset <= Z.of_nat fuel →
  covers offset (segments fuel blockSize offset) blockSize ∧
  ∀ d, offset <= d * PAYLOAD_SIZE < blockSize →
    length (List.filter (asks_for d) (segments fuel blockSize offset)) = 1%nat.
Proof.
  revert offset. induction fuel as [|fuel IH]; intros offset Ho Hb Hm Hf.
  { replace offset with blockSize by lia. split; [done|]. lia. }
  destruct (Z.lt_ge_cases offset blockSize) as [Hlt|Hge].
  2:{ rewrite segments_done by done. replace offset with blockSize by lia. split; [done|lia]. }
  specialize (Hm Hlt). destruct (next_segment_eq blockSize offset) as (_ & Hs & _ & Hmod & _); [lia..|done|].
  rewrite segments_step by (done || lia). set (size := Z.min _ _) in *.
  assert (size <= SEGMENT_SIZE ∧ size <= blockSize - offset) as [Hs1 Hs2] by (unfold size; lia).
  destruct (IH (offset + size)) as [HC HN]; [lia|done|by auto|lia|]. split.
  - simpl. split_and!; try done; try lia.
    destruct (Z.eqb_spec (offset + size) blockSize) as [Heq|Hne].
    + rewrite Heq, segments_done by lia. done.
    + rewrite bool_decide_false; [done|]. intros Hnil. rewrite Hnil in HC. simpl in HC. lia.
  - intros d Hd. cbn [List.filter asks_for].
    assert (offset / PAYLOAD_SIZE <= d) as Hle by (unfold PAYLOAD_SIZE in *; zify_div; lia).
    rewrite (proj2 (Z.leb_le _ _) Hle). cbn [andb].
    destruct (Z.lt_ge_cases (d * PAYLOAD_SIZE) (offset + size)) as [Hin|Hout].
    + rewrite (proj2 (Z.leb_le _ _)).
      2:{ unfold ceil_payloads, PAYLOAD_SIZE in *. zify_div. lia. }
      rewrite asks_for_above; [done|lia|done|auto|done].
    + rewrite (proj2 (Z.leb_gt _ _)); [apply HN; lia|].
      specialize (Hmod ltac:(lia)). unfold ceil_payloads, PAYLOAD_SIZE in *. zify_div. lia.
Qed.

(** ** Properties of requests *)

(** C10.  The requests of a block cover it exactly: starting from a multiple of
    the payload size they follow each other without gap up to the end of the
    block, none is larger than a segment, only the last one is marked as such,
    and every data number of the rest of the block is asked for by exactly one
    request.  [blockSize - offset] rounds are enough. *)
Theorem requests_cover_block (blockSize offset : Z) (fuel : nat) :
  0 <= offset <= blockSize → blockSize < 2 ^ 32 → offset mod PAYLOAD_SIZE = 0 →
  blockSize - offset <= Z.of_nat fuel →
  covers offset (segments fuel blockSize offset) blockSize ∧
  ∀ d, offset / PAYLOAD_SIZE <= d < ceil_payloads blockSize →
    length (List.filter (asks_for d) (segments fuel blockSize offset)) = 1%nat.
Proof.
  intros Ho Hb Hm Hf. destruct (segments_cover fuel blockSize offset) as [HC HN]; [done..|].
  split; [done|]. intros d Hd. apply HN. unfold ceil_payloads, PAYLOAD_SIZE in *. zify_div. lia.
Qed.

Lemma requests_cover_block_witness :
  covers 1024 (segments (Z.to_nat 6000000) 5000000 1024) 5000000 ∧
  length (List.filter (asks_for 4000) (segments (Z.to_nat 6000000) 5000000 1024)) = 1%nat.
Proof.
  destruct (requests_cover_block 5000000 1024 (Z.to_nat 6000000)) as [HC HN]; [lia..|reflexivity|lia|].
  split; [exact HC|]. apply HN. vm_compute. intuition discriminate.
Defined.

(** ** Serving a request *)

(** The data packet of data number [d] of a block. *)
Definition data_packet (bn sid d : Z) (data : list Z) : BlockDataPacket := {|
  bd_Type := BLOCK_DATA_PACKET; bd_Length := BLOCK_DATA_PACKET_HEADER_LEN + zlen data;
  bd_BlockNumber := bn; bd_DataNumber := d; bd_SessionID := sid;
  bd_Redundant := FEC_SOURCE_DATA; bd_Data := data |}.

(** The data numbers of a range a peer sends: all of them, or in FEC mode those
    of its residue. *)
Definition serves (fec : bool) (fecIndex d : Z) : bool :=
  negb fec || (d mod (fecIndex / 10) =? u8 (fecIndex - u8 (fecIndex / 10 * 10))).

Lemma fec_skip_Ret fec fecIndex d :
  (fec = true → 10 <= fecIndex) → fec_skip fec fecIndex d = Ret (negb (serves fec fecIndex d)).
Proof.
  intros Hf. unfold fec_skip, fec_peers, serves. destruct fec; [|done].
  specialize (Hf eq_refl). destruct (Z.eqb_spec (fecIndex / 10) 0) as [H|]; [|done].
  zify_div. lia.
Qed.

(** The slice of the send buffer for a data number. *)
Lemma chunk_slice blk d :
  0 <= d → d * PAYLOAD_SIZE < zlen blk → zlen blk < 2 ^ 32 - PAYLOAD_SIZE →
  let offset := u32 (d * PAYLOAD_SIZE) in
  let size := if u32 (offset + PAYLOAD_SIZE) <=? u32 (zlen blk) then PAYLOAD_SIZE
              else u32 (u32 (zlen blk) - offset) in
  slice blk offset (u32 (offset + size)) = Ret (chunk blk d).
Proof.
  intros Hd Hl Hb offset size. unfold PAYLOAD_SIZE in *.
  assert (offset = d * 1024) as Ho by (apply wrap_small; unfold uint; lia).
  assert (size = Z.min 1024 (zlen blk - d * 1024)) as Hs.
  { unfold size. rewrite Ho, !(wrap_small 32) by (unfold uint; lia).
    destruct (Z.leb_spec (d * 1024 + 1024) (zlen blk)); lia. }
  rewrite Hs, Ho, (wrap_small 32) by (unfold uint; lia).
  unfold slice. rewrite bool_decide_true by lia. f_equal. unfold zslice, chunk, PAYLOAD_SIZE.
  destruct (Z.le_gt_cases 1024 (zlen blk - d * 1024)).
  - f_equal. lia.
  - rewrite !take_ge; [done|..]; rewrite length_drop; unfold zlen in *; lia.
Qed.

Section Serving.
Context (p : Mp2SessionManager) (s : Mp2Session) (key sid bn fecIndex : Z) (fec : bool).
Context (Hs : mm_mp2sessionMap p !! key = Some s) (Hsid : sid ∈ ms_sessionMap s).
Context (Hbn : uint 32 bn) (Hsid32 : uint 32 sid) (Hfec : fec = true → 10 <= fecIndex).
Let blk := mm_sendBuffer p.
Context (Hblk : zlen blk < 2 ^ 32 - PAYLOAD_SIZE).

Definition answers (ds : list Z) : list effect :=
  (λ d, Sent sid (PBlockData (data_packet bn sid d (chunk blk d)))) <$>
    List.filter (serves fec fecIndex) ds.

Lemma zlen_chunk_le data d : zlen (chunk data d) <= PAYLOAD_SIZE.
Proof. unfold chunk, zlen, PAYLOAD_SIZE. rewrite length_take. lia. Qed.

Lemma block_data_loop_run fuel d end_ :
  0 <= d → end_ * PAYLOAD_SIZE < zlen blk → end_ - d + 1 <= Z.of_nat fuel →
  block_data_loop fuel fec key sid bn d end_ fecIndex p = Ret (tt, p, answers (seqZ d (end_ - d + 1))).
Proof.
  revert d. induction fuel as [|fuel IH]; intros d Hd He Hf; cbn [block_data_loop].
  { destruct (Z.leb_spec d end_); [lia|]. by rewrite seqZ_nil by lia. }
  destruct (Z.leb_spec d end_) as [Hle|]; [|by rewrite seqZ_nil by lia].
  rewrite (bind_pure _ _ _ (negb (serves fec fecIndex d)) p) by (by rewrite fec_skip_Ret).
  assert (u32 (d + 1) = d + 1) as Hw.
  { apply wrap_small. unfold uint, PAYLOAD_SIZE in *. lia. }
  rewrite seqZ_cons, Hw by lia. replace (Z.pred (end_ - d + 1)) with (end_ - (d + 1) + 1) by lia.
  change (Z.succ d) with (d + 1). specialize (IH (d + 1) ltac:(lia) He ltac:(lia)).
  unfold answers in *. cbn [List.filter]. destruct (serves fec fecIndex d); cbn [negb].
  2:{ by rewrite (bind_pure _ _ _ tt p) by done. }
  destruct (CreateBlockDataPacket_ok bn d sid FEC_SOURCE_DATA (chunk blk d)) as (pk & Hpk & _ & ->);
    [done|unfold uint, PAYLOAD_SIZE in *; lia|done|done|apply zlen_chunk_le|].
  rewrite (bind_run _ _ _ tt p [Sent sid (PBlockData (data_packet bn sid d (chunk blk d)))]).
  { rewrite IH. done. }
  rewrite (bind_pure _ _ _ p p) by done. cbv zeta. fold blk.
  rewrite (bind_pure _ _ _ (chunk blk d) p).
  2:{ pose proof (chunk_slice blk d Hd) as Hc. cbv zeta in Hc. unfold lift.
      rewrite Hc; [done| |done]. unfold PAYLOAD_SIZE in *. lia. }
  unfold sendBlockDataPacket. rewrite (bind_pure _ _ _ (data_packet bn sid d (chunk blk d)) p)
    by (unfold lift; by rewrite Hpk).
  by apply (sendPacket_run _ _ _ _ s).
Qed.
End Serving.

(**  A peer that has the block answers a request with exactly the data
    packets of the requested range, in order, each carrying its 1024 bytes of
    the block (fewer at the end of the block); in FEC mode with those whose
    data number belongs to the peer.  The node's state does not change. *)
Theorem request_served (p : Mp2SessionManager) (s : Mp2Session) (key sid bn start end_ fecIndex : Z) (fec : bool) :
  mm_mp2sessionMap p !! key = Some s → sid ∈ ms_sessionMap s → uint 32 bn → uint 32 sid →
  (fec = true → 10 <= fecIndex) →
  zlen (mm_sendBuffer p) < 2 ^ 32 - PAYLOAD_SIZE →
  ms_firstSegment s = true → mm_stopSendCond p = 0 →
  0 <= start <= end_ → end_ * PAYLOAD_SIZE < zlen (mm_sendBuffer p) →
  sendBlockData fec key sid bn start end_ fecIndex p =
    Ret (tt, p, answers p sid bn fecIndex fec (seqZ start (end_ - start + 1))).
Proof.
  intros Hs Hsid Hbn Hsid32 Hfec Hblk Hfirst Hstop Hr He.
  unfold sendBlockData. rewrite (bind_pure _ _ _ p p) by done.
  destruct (Z.ltb_spec (u32 (zlen (mm_sendBuffer p))) (u32 (end_ * PAYLOAD_SIZE))) as [Hlt|_].
  { exfalso. unfold PAYLOAD_SIZE in *. rewrite !wrap_small in Hlt by (unfold uint; lia). lia. }
  rewrite (bind_pure _ _ _ s p) by (by apply getS_run).
  rewrite Hfirst, Hstop. cbn [andb Z.ltb Z.compare].
  rewrite (bind_pure _ _ _ tt p) by done. rewrite (bind_pure _ _ _ s p) by (by apply getS_run).
  rewrite Hfirst. cbn [negb]. rewrite (bind_pure _ _ _ false p) by done.
  apply (block_data_loop_run p s); try done; lia.
Qed.

(** A node with one session, to which the bytes of a block have been added. *)
Definition demo_node (blk : list Z) : Mp2SessionManager :=
  match (Mp2Accept 7 100;; AddSendBuffer blk) (CreateMp2SessionManager mp2bs_toml 1) with
  | Ret (_, p, _) => p
  | _ => CreateMp2SessionManager mp2bs_toml 1
  end.

Lemma request_served_witness :
  ∃ es, sendBlockData false 100 7 5 1 2 0 (demo_node (replicate 2500 3)) =
          Ret (tt, demo_node (replicate 2500 3), es) ∧
    es = [Sent 7 (PBlockData (data_packet 5 7 1 (replicate 1024 3)));
          Sent 7 (PBlockData (data_packet 5 7 2 (replicate 452 3)))].
Proof.
  eexists. split.
  - eapply (request_served (demo_node (replicate 2500 3)) (CreateMp2Session (Some 7) 100) 100 7 5 1 2 0 false).
    + reflexivity.
    + apply (bool_decide_unpack _). reflexivity.
    + unfold uint; lia.
    + unfold uint; lia.
    + discriminate.
    + vm_compute. reflexivity.
    + reflexivity.
    + reflexivity.
    + lia.
    + vm_compute. reflexivity.
  - vm_compute. reflexivity.
Defined.

Lemma filter_seqZ_one a n x : a <= x < a + n → List.filter (λ i, x =? i) (seqZ a n) = [x].
Proof.
  intros Hx. assert (0 <= n) as Hn by lia. revert a Hx. pattern n. apply natlike_ind; [lia| |done].
  clear n Hn. intros n Hn IH a Hx. rewrite seqZ_cons by lia. replace (Z.pred (Z.succ n)) with n by lia.
  cbn [List.filter]. destruct (Z.eqb_spec x a) as [->|Hne].
  - f_equal. clear IH Hx. destruct (List.filter _ _) as [|y l] eqn:E; [done|].
    assert (y ∈ seqZ (Z.succ a) n ∧ (a =? y) = true) as [Hy Heq].
    { rewrite list_elem_of_In. apply (filter_In (λ i, a =? i)). rewrite E. by left. }
    apply elem_of_seqZ in Hy. lia.
  - apply IH. lia.
Qed.

(**  In FEC mode with up to ten peers the requests sent to the peers divide
    the data numbers among them: each data number is sent by exactly one peer,
    the one whose position is its remainder. *)
Theorem fec_peers_partition (numPeers d : Z) :
  1 <= numPeers <= 10 → 0 <= d →
  List.filter (λ i, serves true (u8 (u32 (numPeers * 10) + i)) d) (seqZ 0 numPeers) = [d mod numPeers].
Proof.
  intros Hn Hd. pose proof (Z.mod_pos_bound d numPeers ltac:(lia)).
  rewrite <-(filter_seqZ_one 0 numPeers (d mod numPeers)) by lia.
  apply filter_ext_in. intros i Hi%list_elem_of_In. apply elem_of_seqZ in Hi. unfold serves. cbn [negb orb].
  rewrite (wrap_small 32), (wrap_small 8 (numPeers * 10 + i)) by (unfold uint; lia).
  replace ((numPeers * 10 + i) / 10) with numPeers by (zify_div; lia).
  rewrite (wrap_small 8 (numPeers * 10)), wrap_small by (unfold uint; lia).
  f_equal. lia.
Qed.

Lemma fec_peers_partition_witness :
  List.filter (λ i, serves true (u8 (u32 (3 * 10) + i)) 17) (seqZ 0 3) = [2].
Proof. apply (fec_peers_partition 3 17); lia. Defined.
