(* ===== verification/BlockReceive.v ===== *)
(** * Receiving a block

    The receiving node of a block transfer: rounds of [sendBlockRequest], data
    packets of the block arriving in any order (more than once, before or after
    their segment is there), and reads of the application, in any interleaving.
    A packet is handled in one step here.
    The segments in the block buffer are consecutive pieces of the block; the
    tokens in the semaphore channel and the unfinished segments together are as
    many as there are peers, so that returning a token never blocks. *)

From stdpp Require Import base list numbers strings gmap.
From Stdlib Require Import ZArith Lia.
From S2P Require Import Prelude Config Util Mp2Packets Segment Mp2Frames Mp2State Mp2Handlers BlockTransfer.

(** The node, the loop variables of [sendBlockRequest], and the bytes read. *)
Record rx := { rx_node : Mp2SessionManager; rx_offset : Z; rx_idx : Z; rx_out : list Z }.

Inductive rx_op :=
| RxRequest
| RxData (sid d : Z) (data : list Z)
| RxRead (bufLen : Z).

(** An operation that would block leaves everything as it is. *)
Definition rx_try {A} (r : rx) (m : M A) (f : A → Mp2SessionManager → rx) : outcome rx :=
  match m (rx_node r) with
  | Ret (a, p, _) => Ret (f a p)
  | Err e => if decide (e = would_block) then Ret r else Err e
  | Panic msg => Panic msg
  end.

Lemma rx_try_bind {A B} r (m : M A) (k : A → M B) f a :
  m (rx_node r) = Ret (a, rx_node r, []) → rx_try r (m ≫= k) f = rx_try r (k a) f.
Proof. intros H. unfold rx_try. by rewrite (bind_pure _ _ _ _ _ H). Qed.

Lemma lift_run {A} (o : outcome A) (a : A) p : o = Ret a → lift o p = Ret (a, p, []).
Proof. by intros ->. Qed.

Definition rx_step (key bn blockSize : Z) (r : rx) (op : rx_op) : outcome rx :=
  match op with
  | RxRequest =>
      rx_try r (sendBlockRequest_round key bn blockSize (rx_offset r) (rx_idx r)) (λ next p,
        match next with
        | Some (offset, idx) => {| rx_node := p; rx_offset := offset; rx_idx := idx; rx_out := rx_out r |}
        | None => {| rx_node := p; rx_offset := rx_offset r; rx_idx := rx_idx r; rx_out := rx_out r |}
        end)
  | RxData sid d data =>
      rx_try r (handleBlockDataPacket key (data_packet bn sid d data)) (λ _ p,
        {| rx_node := p; rx_offset := rx_offset r; rx_idx := rx_idx r; rx_out := rx_out r |})
  | RxRead n =>
      rx_try r (Mp2ReadBlock n bn) (λ bs p,
        {| rx_node := p; rx_offset := rx_offset r; rx_idx := rx_idx r; rx_out := rx_out r ++ bs |})
  end.

Fixpoint rx_run (key bn blockSize : Z) (r : rx) (ops : list rx_op) : outcome rx :=
  match ops with
  | [] => Ret r
  | op :: ops => r ← rx_step key bn blockSize r op; rx_run key bn blockSize r ops
  end.

(** Data packets are those of the block [blk]. *)
Definition rx_op_ok (blk : list Z) (op : rx_op) : Prop :=
  match op with
  | RxRequest => True
  | RxData _ d data => 0 <= d ∧ d * PAYLOAD_SIZE < zlen blk ∧ data = chunk blk d
  | RxRead n => uint 32 n
  end.

(** ** Segments of the block *)

(** What the operations on a segment leave alone. *)
Definition same_frame (g g' : Segment) : Prop :=
  sg_SessionID g' = sg_SessionID g ∧ sg_Last g' = sg_Last g ∧ sg_FecFinish g' = sg_FecFinish g ∧
  sg_size g' = sg_size g.

Lemma advance_frame fuel g i g' : advance fuel g i = Ret g' → same_frame g g'.
Proof.
  revert g i. induction fuel as [|fuel IH]; intros g i H; cbn [advance] in H; [by simplify_eq|].
  destruct (index (sg_recvDataSize g) i) as [n| |]; cbn [mbind outcome_bind] in H; try done.
  destruct (0 <? n); [|by simplify_eq]. destruct (_ =? zlen _); [by simplify_eq|].
  apply IH in H. done.
Qed.

Lemma PushData_frame g bn d data b g' : PushData g bn d data = Ret (b, g') → same_frame g g'.
Proof.
  unfold PushData. destruct (_ && _); [|intros; by simplify_eq].
  destruct (copy_to _ _ _ _) as [buf| |]; cbn [mbind outcome_bind]; try done.
  destruct (set_index _ _ _) as [sizes| |]; cbn [mbind outcome_bind]; try done.
  destruct (_ =? sg_expectedDataNumber _).
  - destruct (advance _ _ _) as [g''| |] eqn:E; cbn [mbind outcome_bind]; try done.
    apply advance_frame in E. intros [= _ <-]. exact E.
  - by intros [= _ <-].
Qed.

Lemma PopData_frame g n bs fin g' :
  PopData g n = Ret (bs, fin, g') → same_frame g g' ∧ sg_Complete g' = sg_Complete g.
Proof.
  unfold PopData. destruct (_ <? _); [|intros; by simplify_eq].
  destruct (slice _ _ _) as [x| |]; cbn [mbind outcome_bind]; try done. intros; by simplify_eq.
Qed.

(** Setting [FecFinish] does not concern the reassembly. *)
Lemma seg_inv_finish data bn start S g out :
  seg_inv data bn start S g out →
  seg_inv data bn start S (sg_read g (sg_readDataOffset g) true) out.
Proof. intros (e & [] & HSe). exists e. split; [|done]. by split. Qed.

Lemma insert_middle {A} (l1 l2 : list A) x y : <[length l1 := y]> (l1 ++ x :: l2) = l1 ++ y :: l2.
Proof. rewrite insert_app_r_alt by lia. by rewrite Nat.sub_diag. Qed.

Section Block.
Context (blk : list Z) (bn key : Z) (peers : gset Z).
Let size := zlen blk.
Context (Hsize : 0 < size < 2 ^ 32 - PAYLOAD_SIZE).

(** A segment with the bytes of the block from [lo] on, of which [gout] has
    been read. *)
Record seg_base (lo : Z) (g : Segment) (gout : list Z) : Prop := {
  so_size : 0 < sg_size g <= SEGMENT_SIZE ∧ lo + sg_size g <= size;
  so_lo : 0 <= lo ∧ lo mod PAYLOAD_SIZE = 0;
  so_inv : ∃ S, seg_inv (zslice blk lo (lo + sg_size g)) bn (lo / PAYLOAD_SIZE) S g gout;
  so_end : (lo + sg_size g) mod PAYLOAD_SIZE = 0 ∨ lo + sg_size g = size;
  so_last : sg_Last g = (lo + sg_size g =? size);
  so_fin : sg_FecFinish g = true → sg_Complete g = true;
  so_sid : sg_SessionID g ∈ peers;
}.

(** A segment in the buffer: some of it is unread. *)
Record seg_ok (lo : Z) (g : Segment) (gout : list Z) : Prop := {
  so_base : seg_base lo g gout;
  so_unread : zlen gout < sg_size g;
}.

(** Consecutive segments from [lo] to [hi]; only the first has been read from. *)
Fixpoint segs_ok (lo : Z) (l : list Segment) (hi : Z) (gout : list Z) : Prop :=
  match l with
  | [] => lo = hi ∧ gout = []
  | g :: l => seg_ok lo g gout ∧ segs_ok (lo + sg_size g) l hi []
  end.

Definition unfinished (l : list Segment) : nat := length (List.filter (λ g, negb (sg_FecFinish g)) l).

(** [k] of the segments that were removed from the buffer have not returned their token yet. *)
Record node_ok (k : nat) (p : Mp2SessionManager) (offset : Z) (out : list Z) (s : Mp2Session) (b : BlockBuffer)
    (lo : Z) (gout : list Z) (sem : chan Z) : Prop := {
  no_session : mm_mp2sessionMap p !! key = Some s;
  no_block : ms_blockNumber s = bn;
  no_peers : peers ⊆ ms_sessionMap s;
  no_buffer : mm_recvBuffer p !! bn = Some b;
  no_segs : segs_ok lo (bb_buffer b) offset gout;
  no_offset : 0 <= lo <= offset ∧ offset <= size ∧ (offset < size → offset mod PAYLOAD_SIZE = 0);
  no_out : out = take (Z.to_nat lo) blk ++ gout;
  no_sem : ms_sem s = Some sem;
  no_tokens : (length (ch_buf sem) + unfinished (bb_buffer b) + k)%nat = ch_cap sem;
  no_ids : ∀ id, id ∈ ch_buf sem → id ∈ peers;
  no_goodbye : mm_goodbye p = (lo =? size);
}.

(** A handler that has run to its end has returned the token of a complete segment. *)
Definition settled (g : Segment) : Prop := sg_FecFinish g = sg_Complete g.

Definition rx_inv (n : nat) (r : rx) : Prop :=
  ∃ s b lo gout sem, node_ok 0 (rx_node r) (rx_offset r) (rx_out r) s b lo gout sem ∧ Forall settled (bb_buffer b) ∧ ch_cap sem = n.

(** The first segment in the buffer, and whether a read finds data in it. *)
Definition first_seg (r : rx) : option Segment := b ← mm_recvBuffer (rx_node r) !! bn; head (bb_buffer b).

Definition readable (r : rx) : Prop := ∃ g, first_seg r = Some g ∧ hasDataToRead g = true.

(** *** Lemmas on the list of segments *)

Lemma segs_ok_app lo l hi gout g :
  segs_ok lo l hi gout → seg_ok hi g [] → segs_ok lo (l ++ [g]) (hi + sg_size g) gout.
Proof.
  revert lo gout. induction l as [|g' l IH]; intros lo gout Hl Hg; simpl in *.
  - destruct Hl as [-> ->]. done.
  - destruct Hl. split; [done|]. by apply IH.
Qed.

(** A segment in the middle can be replaced by a later state of itself. *)
Lemma segs_ok_middle lo l1 g l2 hi gout :
  segs_ok lo (l1 ++ g :: l2) hi gout →
  ∃ lo' gout', seg_ok lo' g gout' ∧
    ∀ g', sg_size g' = sg_size g → seg_ok lo' g' gout' → segs_ok lo (l1 ++ g' :: l2) hi gout.
Proof.
  revert lo gout. induction l1 as [|g1 l1 IH]; intros lo gout H; simpl in *.
  - destruct H as [Hg Hl]. exists lo, gout. split; [done|]. intros g' Hs Hg'. by rewrite Hs.
  - destruct H as [Hg1 Hl]. destruct (IH _ _ Hl) as (lo' & gout' & Hg & Hrep).
    exists lo', gout'. split; [done|]. auto.
Qed.

Lemma unfinished_app l k : unfinished (l ++ k) = (unfinished l + unfinished k)%nat.
Proof. unfold unfinished. by rewrite List.filter_app, length_app. Qed.

Lemma unfinished_cons g l : unfinished (g :: l) = ((if sg_FecFinish g then 0 else 1) + unfinished l)%nat.
Proof. unfold unfinished. simpl. by destruct (sg_FecFinish g). Qed.

Lemma find_segment_split pk l i g :
  find_segment pk l = Some (i, g) →
  segment_matches pk g = true ∧ ∃ l1 l2, l = l1 ++ g :: l2 ∧ length l1 = i.
Proof.
  revert i. induction l as [|g' l IH]; intros i H; [done|]. cbn [find_segment] in H.
  destruct (segment_matches pk g') eqn:E.
  - simplify_eq. split; [done|]. by exists [], l.
  - destruct (find_segment pk l) as [[j g'']|] eqn:E'; [|done]. cbn in H. simplify_eq.
    destruct (IH j eq_refl) as [Hm (l1 & l2 & -> & <-)]. split; [done|]. by exists (g' :: l1), l2.
Qed.

Lemma zlen_zslice lo hi : 0 <= lo <= hi → hi <= size → zlen (zslice blk lo hi) = hi - lo.
Proof.
  intros Hl Hh. unfold zslice, size, zlen in *. rewrite length_take, length_drop. lia.
Qed.

(** *** A round of the request loop *)

Lemma recv_sem_run p s sem id q :
  mm_mp2sessionMap p !! key = Some s → ms_sem s = Some sem → ch_buf sem = id :: q →
  recv_sem key p =
    Ret (id, mm_set_mp2sessionMap p (<[key := ms_set_sem s (Some (mk_chan (ch_cap sem) q))]> (mm_mp2sessionMap p)), []).
Proof.
  intros Hs Hsem Hq. unfold recv_sem. rewrite (bind_pure _ _ _ s p) by (by apply getS_run).
  rewrite Hsem. rewrite (bind_pure _ _ _ sem p) by done.
  rewrite (bind_pure _ _ _ (id, mk_chan (ch_cap sem) q) p) by (unfold chan_recv; by rewrite Hq).
  cbv beta iota. by rewrite (bind_pure _ _ _ tt _ (modifyS_run key _ p s Hs)).
Qed.

Lemma recv_sem_block p s sem :
  mm_mp2sessionMap p !! key = Some s → ms_sem s = Some sem → ch_buf sem = [] →
  recv_sem key p = Err would_block.
Proof.
  intros Hs Hsem Hq. unfold recv_sem. rewrite (bind_pure _ _ _ s p) by (by apply getS_run).
  rewrite Hsem. rewrite (bind_pure _ _ _ sem p) by done. unfold chan_recv. by rewrite Hq.
Qed.

Lemma bind_err {A B} (m : M A) (f : A → M B) p e : m p = Err e → (m ≫= f) p = Err e.
Proof. unfold mbind, M_bind. by intros ->. Qed.

(** The segment of the next request. *)
Lemma new_segment_ok offset id idx :
  0 <= offset < size → offset mod PAYLOAD_SIZE = 0 → id ∈ peers →
  let '(sz, start, end_, last) := next_segment size offset in
  let g := CreateSegment bn id idx start end_ sz last in
  seg_ok offset g [] ∧ sg_size g = sz ∧ sg_FecFinish g = false ∧
  u32 (offset + sz) = offset + sz ∧ offset + sz <= size ∧
  (offset + sz < size → (offset + sz) mod PAYLOAD_SIZE = 0).
Proof.
  intros Ho Hm Hid. destruct (next_segment_eq size offset) as (-> & Hs & Hw & Hmod & Hc & Hb);
    [done|unfold PAYLOAD_SIZE in *; lia|done|].
  set (sz := Z.min SEGMENT_SIZE (size - offset)) in *.
  assert (sz <= SEGMENT_SIZE ∧ sz <= size - offset) as [Hs1 Hs2] by (unfold sz; lia).
  split_and!; try done; try lia. split; [|unfold zlen; simpl; lia]. split; simpl; try done; try lia.
  exists (λ _, False).
  assert (zlen (zslice blk offset (offset + sz)) = sz) as Hz by (rewrite zlen_zslice; lia).
  pose proof (CreateSegment_inv (zslice blk offset (offset + sz)) bn (offset / PAYLOAD_SIZE)) as Hinv.
  rewrite Hz in Hinv. apply Hinv.
  - unfold SEGMENT_SIZE in *. lia.
  - unfold PAYLOAD_SIZE. zify_div. lia.
  - lia.
Qed.

(** A round of the loop: nothing happens, or a segment is added. *)
Lemma request_node k r s b lo gout sem :
  node_ok k (rx_node r) (rx_offset r) (rx_out r) s b lo gout sem →
  ∃ r' s' b' sem', rx_step key bn size r RxRequest = Ret r' ∧ rx_out r' = rx_out r ∧
    node_ok k (rx_node r') (rx_offset r') (rx_out r') s' b' lo gout sem' ∧ ch_cap sem' = ch_cap sem ∧
    (bb_buffer b' = bb_buffer b ∧ (ch_buf sem = [] ∨ size <= rx_offset r) ∨ ∃ g, bb_buffer b' = bb_buffer b ++ [g] ∧ settled g).
Proof.
  intros Hok. pose proof Hok as [Hs Hbn Hpe Hb Hsg Ho Hout Hsem Htok Hids Hgb].
  unfold rx_step, rx_try, sendBlockRequest_round.
  destruct (Z.ltb_spec (rx_offset r) size) as [Hlt|Hge].
  2:{ eexists _, s, b, sem. split; [reflexivity|]. split_and!; try done. left. auto. }
  destruct (ch_buf sem) as [|id q] eqn:Eq.
  { erewrite bind_err by (by eapply recv_sem_block). rewrite decide_True by done.
    exists r, s, b, sem. split_and!; try done. left. auto. }
  rewrite (bind_pure _ _ _ _ _ (recv_sem_run _ _ _ _ _ Hs Hsem Eq)).
  set (s1 := ms_set_sem s _). set (p1 := mm_set_mp2sessionMap (rx_node r) _).
  assert (id ∈ peers) as Hid by (apply Hids; left).
  pose proof (new_segment_ok (rx_offset r) id (rx_idx r)) as Hnew.
  destruct (next_segment size (rx_offset r)) as [[[sz start] end_] last].
  destruct Hnew as (Hg & Hsz & Hfin & Hw & Hle & Hmod); [lia|tauto|done|].
  set (g := CreateSegment bn id (rx_idx r) start end_ sz last) in *.
  assert (mm_mp2sessionMap p1 !! key = Some s1) as Hs1 by (simpl; by rewrite lookup_insert_eq).
  rewrite (bind_pure _ _ _ tt _ (modifyS_run key _ p1 s1 Hs1)).
  set (s2 := ms_set_blockOwners s1 _). set (p2 := mm_set_mp2sessionMap p1 _).
  assert (mm_mp2sessionMap p2 !! key = Some s2) as Hs2 by (simpl; by rewrite lookup_insert_eq).
  set (p3 := mm_set_recvBuffer p2 (<[bn := PushSegment b g]> (mm_recvBuffer p2))).
  rewrite (bind_pure _ _ _ tt p3).
  2:{ unfold AddRecvBuffer. change (sg_BlockNumber g) with bn.
      by rewrite (bind_pure _ _ _ b p2) by (by apply getB_run). }
  erewrite bind_run by (eapply (sendPacket_run key id _ p3 s2 Hs2); by apply Hpe).
  cbn [mret M_ret]. eexists _, s2, (PushSegment b g), (mk_chan (ch_cap sem) q). split; [reflexivity|]. rewrite Hw.
  split; [done|]. split; [|split; [done|right; by exists g]].
  destruct (so_size _ _ _ (so_base _ _ _ Hg)) as [Hgs _]. rewrite Hsz in Hgs. split; simpl; try done.
  - by rewrite lookup_insert_eq.
  - rewrite <-Hsz. by apply segs_ok_app.
  - split; [lia|]. split; [lia|auto].
  - rewrite unfinished_app, unfinished_cons, Hfin. simpl in *. unfold unfinished at 2. simpl. lia.
  - intros id' Hid'. apply Hids. by right.
Qed.

Lemma request_inv n r :
  rx_inv n r → ∃ r', rx_step key bn size r RxRequest = Ret r' ∧ rx_inv n r' ∧ rx_out r' = rx_out r ∧
    ((0 < n)%nat → rx_offset r < size → first_seg r = None → is_Some (first_seg r')).
Proof.
  intros (s & b & lo & gout & sem & Hok & Hset & Hcap).
  destruct (request_node 0 r s b lo gout sem Hok) as (r' & s' & b' & sem' & Hstep & Hout & Hok' & Hcap' & Hbuf).
  exists r'. split; [done|]. unfold first_seg. rewrite (no_buffer _ _ _ _ _ _ _ _ _ Hok), (no_buffer _ _ _ _ _ _ _ _ _ Hok'). cbn [mbind option_bind].
  split; [|split; [done|]].
  - exists s', b', lo, gout, sem'. split; [done|]. split; [|congruence].
    destruct Hbuf as [[-> _]|(g & -> & Hg)]; [done|]. apply Forall_app. split; [done|by apply Forall_singleton].
  - intros Hn Hlt Hf. destruct Hbuf as [[_ [Hq|Hge]]|(g & -> & _)]; [|lia|by destruct (bb_buffer b)].
    destruct (bb_buffer b) eqn:E; [|done]. pose proof (no_tokens _ _ _ _ _ _ _ _ _ Hok) as Ht. rewrite E, Hq in Ht. unfold unfinished in Ht. simpl in Ht. lia.
Qed.

(** *** Arrival of a data packet *)

Lemma chunk_zslice lo hi i :
  0 <= lo → lo mod PAYLOAD_SIZE = 0 → 0 <= i → lo + i * PAYLOAD_SIZE < hi → hi <= size →
  (hi mod PAYLOAD_SIZE = 0 ∨ hi = size) →
  chunk (zslice blk lo hi) i = chunk blk (lo / PAYLOAD_SIZE + i).
Proof.
  intros Hlo Hm Hi Hlt Hh Hend. unfold chunk, zslice, PAYLOAD_SIZE in *.
  rewrite skipn_firstn_comm, drop_drop, take_take.
  replace (Z.to_nat lo + Z.to_nat (i * 1024))%nat with (Z.to_nat ((lo / 1024 + i) * 1024)) by (zify_div; lia).
  destruct Hend as [Hend| ->].
  - f_equal. zify_div. lia.
  - set (k := Z.to_nat ((lo / 1024 + i) * 1024)). unfold size, zlen in *.
    destruct (decide (1024 <= length blk - k)%nat).
    + f_equal. subst k. zify_div. lia.
    + rewrite !take_ge; [done|..]; rewrite length_drop; subst k; zify_div; lia.
Qed.

(** [Complete] says that all packets of the segment are there. *)
Lemma seg_inv_complete data start S g out :
  seg_inv data bn start S g out →
  sg_Complete g = true ↔ ∀ i, 0 <= i < ceil_payloads (zlen data) → S i.
Proof.
  intros (e & [_ _ _ _ _ _ Hra _ _ (Her & _ & Hpa) _ Hco _] & HSe). rewrite Hco, Z.eqb_eq. split.
  - intros -> i Hi. by apply Hpa.
  - intros Hall. destruct (decide (e = ceil_payloads (zlen data))) as [|Hne]; [done|].
    exfalso. apply HSe, Hall. lia.
Qed.

(** The bytes read are counted by [readDataOffset]. *)
Lemma seg_inv_read data start S g out :
  seg_inv data bn start S g out →
  sg_readDataOffset g = zlen out ∧ sg_readDataOffset g <= sg_lastRecvDataOffset g.
Proof.
  intros (e & [_ _ _ _ _ _ _ _ _ _ Hla _ (Hro & ->)] & _). split; [|lia].
  unfold zlen in *. rewrite length_take. lia.
Qed.

(** The packet that is expected next makes the data grow. *)
Lemma seg_inv_next data start S g g' out d :
  seg_inv data bn start S g out → seg_inv data bn start (λ j, S j ∨ j = d - start) g' out →
  d = sg_expectedDataNumber g → 0 <= d - start < ceil_payloads (zlen data) → hasDataToRead g' = true.
Proof.
  intros Hg Hg' -> Hd. destruct (seg_inv_read _ _ _ _ _ Hg) as [Hr Hl].
  destruct (seg_inv_read _ _ _ _ _ Hg') as [Hr' _]. unfold hasDataToRead. rewrite Hr', <-Hr, Z.ltb_lt.
  destruct Hg as (e & [_ _ _ _ _ _ _ _ _ (Her & Hex & Hpa) Hla _ _] & _).
  destruct Hg' as (e' & [_ _ _ _ _ _ _ _ _ (Her' & _ & Hpa') Hla' _ _] & HSe').
  assert (e < e').
  { destruct (Z.lt_trichotomy e e') as [|[<-|Hlt]]; [done|exfalso; apply HSe'; right; lia|].
    exfalso. apply HSe'. left. apply Hpa. lia. }
  rewrite Hla'. rewrite Hla in Hl. unfold ceil_payloads, PAYLOAD_SIZE in *. zify_div. lia.
Qed.

Lemma segment_matches_source sid d data g :
  segment_matches (data_packet bn sid d data) g =
    (bn =? sg_BlockNumber g) && (sg_startDataNumber g <=? d) && (d <=? sg_endDataNumber g).
Proof. done. Qed.

(** The segment as it is left in the buffer: [FecFinish] is set when the
    segment is complete. *)
Definition returns (g : Segment) : bool := sg_Complete g && negb (sg_FecFinish g).

Definition stored (g : Segment) : Segment := if returns g then sg_read g (sg_readDataOffset g) true else g.

Definition put_seg (b : BlockBuffer) (i : nat) (data : list Z) (g : Segment) : BlockBuffer :=
  {| bb_lastRecvBytes := u32 (bb_lastRecvBytes b + u32 (zlen data));
     bb_readBytes := bb_readBytes b; bb_buffer := <[i := g]> (bb_buffer b) |}.

(** A data packet of the block given to a segment, which takes it if it is one of its own. *)
Lemma PushData_base lo g gout d sid :
  seg_base lo g gout →
  ∃ g', PushData g bn d (chunk blk d) = Ret (segment_matches (data_packet bn sid d (chunk blk d)) g, g') ∧ same_frame g g' ∧ seg_base lo g' gout ∧
    (segment_matches (data_packet bn sid d (chunk blk d)) g = true → d = sg_expectedDataNumber g → hasDataToRead g' = true).
Proof.
  intros Hg. rewrite segment_matches_source. destruct (_ && _ && _) eqn:Hm.
  2:{ exists g. split; [unfold PushData; by rewrite Hm|]. split; [done|]. by split. }
  apply andb_prop in Hm as [Hm Hd2%Z.leb_le]. apply andb_prop in Hm as [_ Hd1%Z.leb_le].
  pose proof Hg as [[Hsz1 Hsz2] [Hlo Hlm] [S Hinv] Hend Hlast Hfin Hsid].
  assert (zlen (zslice blk lo (lo + sg_size g)) = sg_size g) as Hz by (rewrite zlen_zslice; lia).
  pose proof Hinv as (e & [_ Hst Hen _ _ _ _ _ _ _ _ _ _] & _).
  rewrite Hst in Hd1. rewrite Hen, Hz in Hd2.
  assert (ceil_payloads (sg_size g) <= 2048 ∧ lo / PAYLOAD_SIZE < 2 ^ 22 ∧
          (d - lo / PAYLOAD_SIZE) * PAYLOAD_SIZE < sg_size g ∧ 0 <= lo / PAYLOAD_SIZE) as (Hc1 & Hc2 & Hc3 & Hc4).
  { unfold ceil_payloads, SEGMENT_SIZE, PAYLOAD_SIZE in *. zify_div. lia. }
  destruct (PushData_inv (zslice blk lo (lo + sg_size g)) bn (lo / PAYLOAD_SIZE)
    ltac:(rewrite Hz; unfold SEGMENT_SIZE in *; lia) Hc4 ltac:(rewrite Hz; lia) S g gout (d - lo / PAYLOAD_SIZE) Hinv)
    as (g' & Hp & Hinv'); [rewrite Hz; lia|].
  rewrite chunk_zslice in Hp by (done || lia).
  replace (lo / PAYLOAD_SIZE + (d - lo / PAYLOAD_SIZE)) with d in Hp by lia.
  exists g'. split; [done|]. pose proof (PushData_frame _ _ _ _ _ _ Hp) as Hfr. split; [done|].
  destruct Hfr as (Hf1 & Hf2 & Hf3 & Hf4). split.
  - split; rewrite ?Hf1, ?Hf2, ?Hf3, ?Hf4; try done; [by eexists|]. intros Hc%Hfin.
    apply (seg_inv_complete _ _ _ _ _ Hinv'). intros i Hi. left. by apply (proj1 (seg_inv_complete _ _ _ _ _ Hinv) Hc).
  - intros _ Hd. apply (seg_inv_next _ _ _ _ _ _ _ Hinv Hinv'); [done|rewrite Hz; lia].
Qed.

(** The token of a complete segment is returned. *)
Lemma finish_base lo g gout : seg_base lo g gout → sg_Complete g = true → seg_base lo (sg_read g (sg_readDataOffset g) true) gout.
Proof. intros [H1 H2 [S H3] H4 H5 H6 H7] Hc. split; try done. eexists. by apply seg_inv_finish. Qed.

Lemma PushData_ok lo g gout d sid :
  seg_ok lo g gout → segment_matches (data_packet bn sid d (chunk blk d)) g = true → settled g →
  ∃ g', PushData g bn d (chunk blk d) = Ret (true, g') ∧ same_frame g g' ∧
    (d = sg_expectedDataNumber g → hasDataToRead g' = true) ∧ seg_ok lo (stored g') gout ∧ settled (stored g').
Proof.
  intros [Hg Hun] Hm Hset. destruct (PushData_base lo g gout d sid Hg) as (g' & Hp & Hfr & Hg' & Hnext). rewrite Hm in Hp.
  exists g'. split; [done|]. split; [done|]. split; [auto|]. pose proof Hfr as (Hf1 & Hf2 & Hf3 & Hf4).
  unfold stored, returns, settled in *. destruct (sg_Complete g') eqn:Ec, (sg_FecFinish g') eqn:Ef; cbn [negb andb].
  - split; [split; [done|by rewrite Hf4]|congruence].
  - split; [split; [by apply finish_base|simpl; by rewrite Hf4]|done].
  - pose proof (so_fin _ _ _ Hg' Ef). congruence.
  - split; [split; [done|by rewrite Hf4]|congruence].
Qed.

(** What [handleBlockDataPacket] leaves: the data in the send buffer, the
    segment in its place, the token of the peer back when the segment is
    complete. *)
Lemma data_run p s b sem sid d data i g g' :
  mm_mp2sessionMap p !! key = Some s → ms_blockNumber s = bn → mm_recvBuffer p !! bn = Some b →
  ms_sem s = Some sem → find_segment (data_packet bn sid d data) (bb_buffer b) = Some (i, g) →
  PushData g bn d data = Ret (true, g') →
  (returns g' = true → length (ch_buf sem) < ch_cap sem)%nat →
  ∃ p', handleBlockDataPacket key (data_packet bn sid d data) p = Ret (tt, p', []) ∧
    mm_recvBuffer p' !! bn = Some (put_seg b i data (stored g')) ∧ mm_goodbye p' = mm_goodbye p ∧
    mm_mp2sessionMap p' !! key =
      Some (if returns g' then ms_set_sem s (Some (mk_chan (ch_cap sem) (ch_buf sem ++ [sg_SessionID g']))) else s).
Proof.
  intros Hs Hbn Hb Hsem Hf Hp Hroom. unfold handleBlockDataPacket.
  rewrite (bind_pure _ _ _ s _ (getS_run _ _ _ Hs)), Hbn, (bind_pure _ _ _ b _ (getB_run _ _ _ Hb)), Hf.
  cbn [bd_Redundant bd_BlockNumber bd_DataNumber bd_Data data_packet].
  change (FEC_SOURCE_DATA =? FEC_SOURCE_DATA) with true. cbv iota.
  rewrite (bind_pure _ _ _ _ _ (lift_run _ _ _ Hp)). cbv beta iota.
  rewrite (bind_pure _ _ _ tt _ eq_refl), (bind_pure _ _ _ tt _ eq_refl).
  fold (put_seg b i data g') (put_seg b i data (sg_read g' (sg_readDataOffset g') true)).
  set (p2 := mm_set_recvBuffer _ _). fold (returns g'). unfold stored. destruct (returns g').
  2:{ exists p2. split; [done|]. simpl. by rewrite lookup_insert_eq. }
  rewrite Hsem, (bind_pure _ _ _ sem p2) by done.
  rewrite (bind_pure _ _ _ (mk_chan (ch_cap sem) (ch_buf sem ++ [sg_SessionID g'])) p2).
  2:{ unfold chan_send. destruct (Nat.ltb_spec (length (ch_buf sem)) (ch_cap sem)); [done|]. specialize (Hroom eq_refl). lia. }
  rewrite (bind_pure _ _ _ tt _ (modifyS_run key _ p2 s Hs)).
  eexists. split; [reflexivity|]. simpl. by rewrite !lookup_insert_eq.
Qed.

Lemma data_inv n r sid d :
  rx_inv n r →
  ∃ r', rx_step key bn size r (RxData sid d (chunk blk d)) = Ret r' ∧ rx_inv n r' ∧ rx_out r' = rx_out r ∧
    (∀ g, first_seg r = Some g → segment_matches (data_packet bn sid d (chunk blk d)) g = true →
          d = sg_expectedDataNumber g → readable r').
Proof.
  intros (s & b & lo & gout & sem & Hok & Hset & Hcap).
  pose proof Hok as [Hs Hbn Hpe Hb Hsg Ho Hout Hsem Htok Hids Hgb].
  unfold readable, first_seg. rewrite Hb. cbn [mbind option_bind]. unfold rx_step, rx_try.
  destruct (find_segment (data_packet bn sid d (chunk blk d)) (bb_buffer b)) as [[i g]|] eqn:Ef.
  2:{ exists r. split; [|split; [by exists s, b, lo, gout, sem|]].
      - unfold handleBlockDataPacket.
        rewrite (bind_pure _ _ _ s _ (getS_run _ _ _ Hs)), Hbn, (bind_pure _ _ _ b _ (getB_run _ _ _ Hb)), Ef.
        by destruct r.
      - split; [done|]. intros g Hg Hm. destruct (bb_buffer b); [done|]. simplify_eq/=. by rewrite Hm in Ef. }
  pose proof Ef as (Hm & l1 & l2 & Hl & <-)%find_segment_split. rewrite Hl in *.
  destruct (segs_ok_middle _ _ _ _ _ _ Hsg) as (lo' & gout' & Hg & Hrep).
  pose proof Hset as [Hset1 [Hsetg Hset2]%Forall_cons]%Forall_app.
  destruct (PushData_ok lo' g gout' d sid Hg Hm Hsetg) as (g' & Hp & (Hf1 & Hf2 & Hf3 & Hf4) & Hnext & Hok' & Hsetg').
  rewrite unfinished_app, unfinished_cons in Htok.
  destruct (data_run _ _ _ _ sid d _ _ _ _ Hs Hbn Hb Hsem ltac:(rewrite Hl; exact Ef) Hp) as (p' & -> & Hb' & Hgb' & Hs').
  { unfold returns. rewrite Hf3. intros [_ Hfin%negb_true_iff]%andb_prop. rewrite Hfin in Htok. lia. }
  eexists. split; [reflexivity|]. cbn [rx_node rx_out]. rewrite Hb'. split.
  2:{ split; [done|]. intros g0 Hg0 Hm0 Hd. exists (stored g'). destruct l1; simpl in *; simplify_eq.
      - rewrite Hl. split; [done|]. unfold stored. destruct (returns g'); by apply Hnext.
      - by rewrite Hm0 in Ef. }
  exists (if returns g' then ms_set_sem s (Some (mk_chan (ch_cap sem) (ch_buf sem ++ [sg_SessionID g']))) else s),
    (put_seg b (length l1) (chunk blk d) (stored g')), lo, gout,
    (if returns g' then mk_chan (ch_cap sem) (ch_buf sem ++ [sg_SessionID g']) else sem).
  split; [|split; [|by destruct (returns g')]].
  2:{ cbn [put_seg bb_buffer]. rewrite Hl, insert_middle. apply Forall_app. split; [done|]. by constructor. }
  split; cbn [rx_node rx_offset rx_out put_seg bb_buffer]; rewrite ?Hl, ?insert_middle; try done.
  - by destruct (returns g').
  - by destruct (returns g').
  - apply Hrep; [|done]. unfold stored. by destruct (returns g').
  - by destruct (returns g').
  - rewrite unfinished_app, unfinished_cons. unfold stored. destruct (returns g') eqn:Er.
    + unfold returns in Er. apply andb_prop in Er as [_ Er%negb_true_iff]. rewrite Hf3 in Er. rewrite Er in Htok.
      simpl. rewrite length_app. simpl. lia.
    + rewrite Hf3. done.
  - destruct (returns g'); [|done]. intros id [?|Hid]%elem_of_app; [auto|].
    apply list_elem_of_singleton in Hid as ->. rewrite Hf1. by destruct Hg as [[] _].
  - by rewrite Hgb'.
Qed.

(** *** A read of the application *)

(** The bookkeeping at the end of [Mp2ReadBlock] keeps the invariant. *)
Lemma node_ok_status u p offset out s b lo gout sem k st :
  node_ok u p offset out s b lo gout sem →
  let b' := {| bb_lastRecvBytes := bb_lastRecvBytes b; bb_readBytes := k; bb_buffer := bb_buffer b |} in
  node_ok u (mm_set_peerModeStatus (mm_set_recvBuffer p (<[bn := b']> (mm_recvBuffer p))) st)
    offset out s b' lo gout sem.
Proof. intros []. split; simpl; try done. by rewrite lookup_insert_eq. Qed.

Lemma take_zslice lo hi : 0 <= lo <= hi → take (Z.to_nat lo) blk ++ zslice blk lo hi = take (Z.to_nat hi) blk.
Proof.
  intros H. unfold zslice. rewrite take_take_drop. f_equal. lia.
Qed.

(** Reading from the first segment: the rest of it stays in the buffer, or it
    has been read completely and is removed. *)
Lemma pop_first u p offset out s b lo gout sem g rest k :
  node_ok u p offset out s b lo gout sem → bb_buffer b = g :: rest → uint 32 k →
  ∃ bs fin g', PopData g k = Ret (bs, fin, g') ∧ (hasDataToRead g = true → 0 < k → 0 < zlen bs) ∧ same_frame g g' ∧ sg_Complete g' = sg_Complete g ∧
    seg_base lo g' (gout ++ bs) ∧
    if (fin : bool) then sg_Complete g = true ∧
      node_ok (u + unfinished [g]) (mm_set_recvBuffer (if sg_Last g then mm_set_goodbye p true else p)
                 (<[bn := bb_set_buffer b rest]> (mm_recvBuffer p)))
        offset (out ++ bs) s (bb_set_buffer b rest) (lo + sg_size g) [] sem
    else
      node_ok u (mm_set_recvBuffer p (<[bn := bb_set_buffer b (g' :: rest)]> (mm_recvBuffer p)))
        offset (out ++ bs) s (bb_set_buffer b (g' :: rest)) lo (gout ++ bs) sem.
Proof.
  intros [Hs Hbn Hpe Hb Hsg Ho Hout Hsem Htok Hids Hgb] Hbuf Hk. rewrite Hbuf in Hsg, Htok.
  destruct Hsg as [[Hg Hun] Hrest]. pose proof Hg as [[Hsz1 Hsz2] [Hlo Hlm] [S Hinv] Hend Hlast Hfin Hsid].
  assert (zlen (zslice blk lo (lo + sg_size g)) = sg_size g) as Hz by (rewrite zlen_zslice; lia).
  destruct (PopData_inv (zslice blk lo (lo + sg_size g)) bn (lo / PAYLOAD_SIZE)
    ltac:(rewrite Hz; unfold SEGMENT_SIZE in *; lia) S g gout k Hinv Hk)
    as (bs & fin & g' & Hp & Hinv' & Hdone & Hlen).
  destruct (PopData_frame _ _ _ _ _ Hp) as ((Hf1 & Hf2 & Hf3 & Hf4) & Hf5).
  exists bs, fin, g'. split; [done|]. split.
  { destruct (seg_inv_read _ _ _ _ _ Hinv) as [Hr _]. unfold hasDataToRead. rewrite Z.ltb_lt, Hr.
    unfold zlen in *. rewrite length_app in Hlen. lia. }
  split; [done|]. split; [done|].
  assert (seg_base lo g' (gout ++ bs)) as Hg' by (split; rewrite ?Hf1, ?Hf2, ?Hf3, ?Hf4, ?Hf5; try done; by eexists).
  split; [done|]. rewrite unfinished_cons in Htok. destruct fin.
  - assert (gout ++ bs = zslice blk lo (lo + sg_size g)) as Hall by (by apply Hdone). split.
    { destruct Hinv as (e & [_ _ _ _ _ _ _ _ _ (Her & _) Hla Hco _] & _).
      rewrite Hco, Z.eqb_eq. rewrite Hall, Hz in Hlen. rewrite Hz in *.
      unfold ceil_payloads, PAYLOAD_SIZE in *. zify_div. lia. }
    assert (lo + sg_size g <= offset) as Hle.
    { clear -Hrest. revert Hrest. generalize (lo + sg_size g). induction rest as [|g2 rest IH]; intros lo2 H; simpl in H.
      - lia.
      - destruct H as [[[[? ?] ? ? ? ? ? ?] ?] H]. specialize (IH _ H). lia. }
    split; simpl; try done; try lia.
    + by destruct (sg_Last g).
    + by rewrite lookup_insert_eq.
    + rewrite Hout, <-app_assoc, Hall, app_nil_r. apply take_zslice. lia.
    + rewrite unfinished_cons. unfold unfinished at 2. simpl. lia.
    + rewrite Hlast. destruct (Z.eqb_spec (lo + sg_size g) size); simpl; [done|].
      rewrite Hgb. apply Z.eqb_neq. lia.
  - split; simpl; try done.
    + by rewrite lookup_insert_eq.
    + split; [|by rewrite Hf4]. split; [done|]. rewrite Hf4.
      destruct Hinv' as (e & [_ _ _ Hs' Hbl _ _ _ _ _ Hla _ (Hro & Hgo)] & _). rewrite Hz in *.
      destruct (decide (zlen (gout ++ bs) < sg_size g)) as [|Hge]; [done|]. exfalso.
      assert (false = true) as Hbad; [|done]. apply Hdone. rewrite Hgo. apply take_ge.
      rewrite Hgo in Hge. unfold zlen in *. rewrite length_take in Hge. lia.
    + rewrite Hout. by rewrite app_assoc.
    + rewrite unfinished_cons, Hf3. lia.
Qed.

(** The end of [Mp2ReadBlock] after a read that left [bs] and the node [p]. *)
Definition read_end (bs : list Z) : M (list Z) :=
  b ← getB bn;
  putB bn {| bb_lastRecvBytes := bb_lastRecvBytes b;
             bb_readBytes := u32 (bb_readBytes b + zlen bs); bb_buffer := bb_buffer b |};;
  modifyM (λ p, mm_set_peerModeStatus p
    (if mm_peerPushMode p then "Push Mode: Download from parent!"%string
     else "Pull Mode: Download from pull node(s)!"%string));;
  mret bs.

Lemma read_end_ok u p offset out s b lo gout sem bs :
  node_ok u p offset out s b lo gout sem →
  ∃ p' b', read_end bs p = Ret (bs, p', []) ∧ node_ok u p' offset out s b' lo gout sem ∧ bb_buffer b' = bb_buffer b.
Proof.
  intros Hok. unfold read_end. rewrite (bind_pure _ _ _ b p) by (apply getB_run; by destruct Hok).
  eexists _, _. split; [reflexivity|]. split; [by apply node_ok_status|done].
Qed.

Lemma RemoveSegment_cons (b : BlockBuffer) g rest :
  RemoveSegment (bb_set_buffer b (g :: rest)) = Ret (bb_set_buffer b rest).
Proof.
  unfold RemoveSegment, slice. cbn [bb_buffer bb_set_buffer].
  rewrite bool_decide_true by (unfold zlen; simpl; lia). cbn [mbind outcome_bind]. do 2 f_equal.
  unfold zslice. rewrite take_ge; [done|]. rewrite length_drop. unfold zlen. lia.
Qed.

(** The state after a read of [bs]. *)
Definition rx_read (r : rx) (bs : list Z) (p : Mp2SessionManager) : rx :=
  {| rx_node := p; rx_offset := rx_offset r; rx_idx := rx_idx r; rx_out := rx_out r ++ bs |}.

Lemma read_end_try u r (m : M (list Z)) bs p s b lo gout sem :
  m (rx_node r) = Ret (bs, p, []) → node_ok u p (rx_offset r) (rx_out r ++ bs) s b lo gout sem →
  ∃ r' b', rx_try r (m ≫= read_end) (rx_read r) = Ret r' ∧ rx_offset r' = rx_offset r ∧ rx_out r' = rx_out r ++ bs ∧
    node_ok u (rx_node r') (rx_offset r') (rx_out r') s b' lo gout sem ∧ bb_buffer b' = bb_buffer b.
Proof.
  intros Hm Hok. unfold rx_try. rewrite (bind_pure _ _ _ _ _ Hm).
  destruct (read_end_ok _ _ _ _ _ _ _ _ _ bs Hok) as (p' & b' & -> & Hok' & Hb').
  eexists _, b'. split; [reflexivity|]. by split_and!.
Qed.

Lemma read_blocked r (m : M (list Z)) : m (rx_node r) = Err would_block → rx_try r (m ≫= read_end) (rx_read r) = Ret r.
Proof. intros Hm. unfold rx_try. by rewrite (bind_err _ _ _ _ Hm), decide_True. Qed.

(** The read from the first segment. *)
Definition read_first (k : Z) (b : BlockBuffer) (g : Segment) (rest : list Segment) : M (list Z) :=
  '(bs, complete, g') ← lift (PopData g k);
  if (complete : bool) then
    (if sg_Last g then modifyM (λ p, mm_set_goodbye p true) else mret tt);;
    b' ← lift (RemoveSegment (bb_set_buffer b (g' :: rest)));
    putB bn b';; mret bs
  else putB bn (bb_set_buffer b (g' :: rest));; mret bs.

(** A read leaves the buffer with its first segment as it was read from, or without it. *)
Definition read_from (k : Z) (u u' : nat) (l l' : list Segment) : Prop :=
  u' = u ∧ length l' = length l ∧ (Forall settled l → Forall settled l') ∨
  ∃ g bs g' lo gout, l = g :: l' ∧ u' = (u + unfinished [g])%nat ∧ sg_Complete g = true ∧
    PopData g k = Ret (bs, true, g') ∧ same_frame g g' ∧ seg_base lo g' gout.

Lemma read_first_ok u p offset out s b lo gout sem g rest k :
  node_ok u p offset out s b lo gout sem → bb_buffer b = g :: rest → uint 32 k →
  ∃ bs p' b' lo' gout' u', read_first k b g rest p = Ret (bs, p', []) ∧
    node_ok u' p' offset (out ++ bs) s b' lo' gout' sem ∧ (hasDataToRead g = true → 0 < k → 0 < zlen bs) ∧
    read_from k u u' (g :: rest) (bb_buffer b').
Proof.
  intros Hok Hbuf Hk.
  destruct (pop_first _ _ _ _ _ _ _ _ _ g rest k Hok Hbuf Hk) as (bs & fin & g' & Hp & Hpos & Hfr & Hco & Hg' & Hres).
  exists bs. unfold read_first. rewrite (bind_pure _ _ _ _ _ (lift_run _ _ _ Hp)). cbv beta iota.
  destruct fin.
  - destruct Hres as [Hc Hres]. set (p' := if sg_Last g then mm_set_goodbye p true else p) in *.
    rewrite (bind_pure _ _ _ tt p') by (unfold p'; by destruct (sg_Last g)).
    rewrite (bind_pure _ _ _ (bb_set_buffer b rest) p') by (apply lift_run, RemoveSegment_cons).
    eexists _, _, _, _, _. split; [reflexivity|].
    assert (mm_recvBuffer p' = mm_recvBuffer p) as -> by (unfold p'; by destruct (sg_Last g)). split; [exact Hres|]. split; [done|].
    right. by exists g, bs, g', lo, (gout ++ bs).
  - eexists _, _, _, _, _. split; [reflexivity|]. split; [exact Hres|]. split; [done|left]. split_and!; try done.
    intros [Hs ?]%Forall_cons. constructor; [|done]. unfold settled in *. destruct Hfr as (_ & _ & -> & _). congruence.
Qed.

Lemma read_node u r s b lo gout sem k :
  node_ok u (rx_node r) (rx_offset r) (rx_out r) s b lo gout sem → uint 32 k →
  ∃ r' bs b' lo' gout' u', rx_step key bn size r (RxRead k) = Ret r' ∧ rx_offset r' = rx_offset r ∧ rx_out r' = rx_out r ++ bs ∧
    node_ok u' (rx_node r') (rx_offset r') (rx_out r') s b' lo' gout' sem ∧ (readable r → 0 < k → 0 < zlen bs) ∧
    read_from k u u' (bb_buffer b) (bb_buffer b').
Proof.
  intros Hok Hk. unfold readable, first_seg.
  pose proof (no_buffer _ _ _ _ _ _ _ _ _ Hok) as Hb. rewrite Hb. cbn [mbind option_bind rx_step].
  fold (rx_read r). unfold Mp2ReadBlock. fold read_end.
  rewrite (rx_try_bind _ _ _ _ b) by (by apply getB_run).
  rewrite (rx_try_bind _ _ _ _ (rx_node r)) by done.
  assert (∀ (b' : BlockBuffer), bb_buffer b' = bb_buffer b → read_from k u u (bb_buffer b) (bb_buffer b')) as Hsame.
  { intros b' ->. by left. }
  destruct (bb_buffer b) as [|g rest] eqn:Ebuf.
  - assert (∃ r' b', rx_try r ((if mm_goodbye (rx_node r) then mret [] else blocked) ≫= read_end) (rx_read r) = Ret r' ∧
      rx_offset r' = rx_offset r ∧ rx_out r' = rx_out r ++ [] ∧ node_ok u (rx_node r') (rx_offset r') (rx_out r') s b' lo gout sem ∧
      bb_buffer b' = []) as (r' & b' & ? & ? & ? & ? & ?).
    { destruct (mm_goodbye (rx_node r)).
      - destruct (read_end_try u r (mret []) [] (rx_node r) s b lo gout sem) as (r' & b' & ? & ? & ? & ? & Hb'); [done|by rewrite app_nil_r|].
        exists r', b'. rewrite Hb', Ebuf. done.
      - exists r, b. rewrite (read_blocked r blocked eq_refl), app_nil_r. done. }
    exists r', [], b', lo, gout, u. split_and!; try done; [by intros (? & ? & _)|auto].
  - destruct (hasDataToRead g) eqn:Eg.
    + destruct (read_first_ok _ _ _ _ _ _ _ _ _ _ _ _ Hok Ebuf Hk) as (bs & p & b1 & lo' & gout' & u' & Hrun & Hok' & Hpos & Hfrom).
      destruct (read_end_try u' r _ _ _ _ _ _ _ _ Hrun Hok') as (r' & b' & ? & ? & ? & ? & Hb').
      exists r', bs, b', lo', gout', u'. rewrite Hb'. split_and!; auto.
    + rewrite (read_blocked r blocked eq_refl). exists r, [], b, lo, gout, u. rewrite app_nil_r.
      split_and!; try done; [|auto]. intros (? & [= <-] & Hd). by rewrite Eg in Hd.
Qed.

Lemma read_block_inv n r k :
  rx_inv n r → uint 32 k →
  ∃ r' bs, rx_step key bn size r (RxRead k) = Ret r' ∧ rx_inv n r' ∧ rx_out r' = rx_out r ++ bs ∧
    (readable r → 0 < k → 0 < zlen bs).
Proof.
  intros (s & b & lo & gout & sem & Hok & Hset & Hcap) Hk.
  destruct (read_node 0 r s b lo gout sem k Hok Hk) as (r' & bs & b' & lo' & gout' & u' & Hstep & _ & Hout & Hok' & Hpos & Hfrom).
  exists r', bs. split; [done|]. split; [|by split]. destruct Hfrom as [(-> & _ & Hs)|(g & ? & g' & ? & ? & Hl & Hu & Hc & _ & _ & _)].
  - exists s, b', lo', gout', sem. auto.
  - rewrite Hl in Hset. apply Forall_cons in Hset as [Hg Hset]. assert (u' = 0%nat) as ->.
    { rewrite Hu, unfinished_cons. unfold settled in Hg. by rewrite Hg, Hc. }
    exists s, b', lo', gout', sem. auto.
Qed.

Lemma rx_run_inv n ops r :
  rx_inv n r → Forall (rx_op_ok blk) ops →
  ∃ r', rx_run key bn size r ops = Ret r' ∧ rx_inv n r'.
Proof.
  revert r. induction ops as [|op ops IH]; intros r Hr Hops; [by eauto|].
  apply Forall_cons_1 in Hops as [Hop Hops]. cbn [rx_run].
  assert (∃ r', rx_step key bn size r op = Ret r' ∧ rx_inv n r') as (r' & -> & Hr').
  { destruct op as [|sid d data|k].
    - destruct (request_inv n r Hr) as (r' & ? & ? & _). by eauto.
    - destruct Hop as (_ & _ & ->). destruct (data_inv n r sid d Hr) as (r' & ? & ? & _). by eauto.
    - destruct (read_block_inv n r k Hr Hop) as (r' & bs & ? & ? & _). by eauto. }
  cbn [mbind outcome_bind]. by apply IH.
Qed.

(** *** What has been read *)

Lemma node_ok_out u p offset out s b lo gout sem :
  node_ok u p offset out s b lo gout sem →
  out `prefix_of` blk ∧ zlen out = lo + zlen gout ∧
  match bb_buffer b with
  | [] => gout = [] ∧ lo = offset
  | g :: _ => seg_ok lo g gout ∧ zlen out < size
  end.
Proof.
  intros [Hs Hbn Hpe Hb Hsg Ho Hout Hsem Htok Hids Hgb].
  assert (zlen (take (Z.to_nat lo) blk) = lo) as Hlo by (unfold size, zlen in *; rewrite length_take; lia).
  assert (zlen out = lo + zlen gout) as Hz.
  { rewrite Hout. unfold zlen in *. rewrite length_app. lia. }
  destruct (bb_buffer b) as [|g l]; simpl in Hsg.
  - destruct Hsg as [-> ->]. split; [|done]. rewrite Hout, app_nil_r. apply prefix_take.
  - destruct Hsg as [Hg _]. split; [|split; [done|split; [done|]]]; destruct Hg as [[[Hsz1 Hsz2] _ [S Hinv] _ _ _ _] Hun]; [|lia].
    destruct Hinv as (e & [_ _ _ _ _ _ _ _ _ _ _ _ (Hro & Hgo)] & _).
    rewrite Hout, Hgo. trans (take (Z.to_nat (lo + sg_size g)) blk); [|apply prefix_take].
    rewrite <-(take_zslice lo (lo + sg_size g)) by lia. apply prefix_app, prefix_take.
Qed.

Lemma node_ok_prefix u p offset out s b lo gout sem :
  node_ok u p offset out s b lo gout sem → out `prefix_of` blk ∧ (mm_goodbye p = true ↔ out = blk).
Proof.
  intros Hok. pose proof (node_ok_out _ _ _ _ _ _ _ _ _ Hok) as (Hpre & Hz & Hbuf).
  split; [done|]. rewrite (no_goodbye _ _ _ _ _ _ _ _ _ Hok), Z.eqb_eq. split.
  - intros ->. apply prefix_length_eq; [done|]. unfold size, zlen in *. lia.
  - intros Hout. destruct (bb_buffer b) as [|g l].
    + destruct Hbuf as [-> _]. rewrite Hout in Hz. unfold size. unfold zlen in *. simpl in Hz. lia.
    + destruct Hbuf as [_ Hlt]. rewrite Hout in Hlt. unfold size in Hlt. lia.
Qed.

Lemma rx_inv_out n r :
  rx_inv n r → rx_out r `prefix_of` blk ∧ (mm_goodbye (rx_node r) = true ↔ rx_out r = blk).
Proof. intros (s & b & lo & gout & sem & Hok & _). by eapply node_ok_prefix. Qed.

(** *** Progress *)

Lemma rx_run_app r l1 l2 r' :
  rx_run key bn size r l1 = Ret r' → rx_run key bn size r (l1 ++ l2) = rx_run key bn size r' l2.
Proof.
  revert r. induction l1 as [|op l1 IH]; intros r H; simpl in *; [by simplify_eq|].
  destruct (rx_step key bn size r op); simpl in *; try done. by apply IH.
Qed.

Definition reaches (n : nat) (r : rx) (P : rx → Prop) : Prop :=
  ∃ ops r', Forall (rx_op_ok blk) ops ∧ rx_run key bn size r ops = Ret r' ∧ rx_inv n r' ∧ P r'.

Lemma reaches_here n r (P : rx → Prop) : rx_inv n r → P r → reaches n r P.
Proof. intros ??. by exists [], r. Qed.

Lemma reaches_op n r op r' (P : rx → Prop) :
  rx_op_ok blk op → rx_step key bn size r op = Ret r' → rx_inv n r' → P r' → reaches n r P.
Proof. intros ? Hs ??. exists [op], r'. simpl. rewrite Hs. simpl. eauto. Qed.

Lemma reaches_trans n r (P Q : rx → Prop) :
  reaches n r P → (∀ r', rx_inv n r' → P r' → reaches n r' Q) → reaches n r Q.
Proof.
  intros (ops & r1 & Hops & Hrun & Hr1 & HP) Hk. destruct (Hk r1 Hr1 HP) as (ops' & r2 & Hops' & Hrun' & Hr2 & HQ).
  exists (ops ++ ops'), r2. rewrite (rx_run_app _ _ _ _ Hrun). split_and!; try done. by apply Forall_app.
Qed.

(** A request makes a segment when there is none. *)
Lemma reaches_segment n r :
  (0 < n)%nat → rx_inv n r → rx_out r ≠ blk →
  reaches n r (λ r', rx_out r' = rx_out r ∧ is_Some (first_seg r')).
Proof.
  intros Hn Hr Hne. destruct (first_seg r) eqn:Ef; [by apply reaches_here; eauto|].
  destruct (request_inv n r Hr) as (r' & Hstep & Hr' & Hout & Hseg).
  eapply reaches_op; [|exact Hstep|done|split; [done|apply Hseg; try done]]; [done|].
  pose proof (rx_inv_out n r Hr) as [Hpre _]. destruct Hr as (s & b & lo & gout & sem & Hok & _).
  pose proof (node_ok_out _ _ _ _ _ _ _ _ _ Hok) as (_ & Hz & Hbuf).
  unfold first_seg in Ef. rewrite (no_buffer _ _ _ _ _ _ _ _ _ Hok) in Ef. simpl in Ef.
  destruct (bb_buffer b); [|done]. destruct Hbuf as [-> Hlo].
  destruct (no_offset _ _ _ _ _ _ _ _ _ Hok) as (_ & Hle & _).
  destruct (decide (rx_offset r = size)); [|lia]. exfalso. apply Hne.
  apply prefix_length_eq; [done|]. unfold size, zlen in *. simpl in Hz. lia.
Qed.

(** The packet the first segment waits for makes it readable. *)
Lemma reaches_readable n r :
  rx_inv n r → is_Some (first_seg r) → reaches n r (λ r', rx_out r' = rx_out r ∧ readable r').
Proof.
  intros Hr [g Hg]. destruct (hasDataToRead g) eqn:Eg; [by apply reaches_here; [done|split; [done|exists g]]|].
  destruct (data_inv n r (sg_SessionID g) (sg_expectedDataNumber g) Hr) as (r' & Hstep & Hr' & Hout & Hread).
  destruct Hr as (s & b & lo & gout & sem & Hok & _).
  pose proof (node_ok_out _ _ _ _ _ _ _ _ _ Hok) as (_ & _ & Hbuf).
  pose proof Hg as Hg'. unfold first_seg in Hg'. rewrite (no_buffer _ _ _ _ _ _ _ _ _ Hok) in Hg'. simpl in Hg'.
  destruct (bb_buffer b) as [|g0 l]; [done|]. injection Hg' as ->.
  destruct Hbuf as [[[[Hsz1 Hsz2] [Hlo Hlm] [S Hinv] _ _ _ _] Hun] _].
  destruct (seg_inv_read _ _ _ _ _ Hinv) as [Hrd _]. unfold hasDataToRead in Eg. apply Z.ltb_ge in Eg.
  destruct Hinv as (e & [Hbn Hst Hen _ _ _ _ _ _ (Her & Hex & _) Hla _ _] & _).
  rewrite zlen_zslice in Hen, Her, Hla by lia. replace (lo + sg_size g - lo) with (sg_size g) in * by lia.
  assert (0 <= e < ceil_payloads (sg_size g) ∧ e * PAYLOAD_SIZE < sg_size g) as [He He'].
  { unfold ceil_payloads, PAYLOAD_SIZE in *. zify_div. lia. }
  eapply reaches_op; [|exact Hstep|done|split; [done|eapply Hread; [done| |done]]].
  - simpl. rewrite Hex. unfold PAYLOAD_SIZE in *. fold size. split_and!; [zify_div; lia..|done].
  - rewrite segment_matches_source, Hbn, Z.eqb_refl, Hex, Hst, Hen. simpl.
    apply andb_true_intro. split; apply Z.leb_le; lia.
Qed.

Lemma reaches_block n r : (0 < n)%nat → rx_inv n r → reaches n r (λ r', rx_out r' = blk).
Proof.
  intros Hn. remember (length blk - length (rx_out r))%nat as m eqn:Hm. revert r Hm.
  induction (lt_wf m) as [m _ IH]. intros r -> Hr.
  destruct (decide (rx_out r = blk)) as [|Hne]; [by apply reaches_here|].
  eapply reaches_trans; [by apply reaches_segment|]. intros r1 Hr1 [Ho1 Hs1].
  eapply reaches_trans; [by apply reaches_readable|]. intros r2 Hr2 [Ho2 Hs2].
  destruct (read_block_inv n r2 1 Hr2 ltac:(unfold uint; lia)) as (r3 & bs & Hstep & Hr3 & Ho3 & Hpos).
  eapply (reaches_trans _ _ (λ r', r' = r3)); [by eapply reaches_op; [|exact Hstep|..]; simpl; unfold uint; auto; lia|].
  intros r' _ ->. apply (IH (length blk - length (rx_out r3))%nat); [|done|done].
  destruct (rx_inv_out _ _ Hr3) as [Hpre%prefix_length _]. specialize (Hpos Hs2 eq_refl).
  rewrite Ho3, Ho2, Ho1, length_app in *. unfold zlen in Hpos. lia.
Qed.
End Block.

(** ** The start of a transfer *)

Lemma fill_run {A} (l : list A) c p :
  (length (ch_buf c) + length l <= ch_cap c)%nat →
  fill c l p = Ret (mk_chan (ch_cap c) (ch_buf c ++ l), p, []).
Proof.
  revert c. induction l as [|x l IH]; intros c Hc; simpl in *.
  - rewrite app_nil_r. by destruct c.
  - rewrite (bind_pure _ _ _ (mk_chan (ch_cap c) (ch_buf c ++ [x])) p).
    + rewrite IH; simpl; [by rewrite <-app_assoc|rewrite length_app; simpl; lia].
    + unfold chan_send. destruct (Nat.ltb_spec (length (ch_buf c)) (ch_cap c)); [done|lia].
Qed.

(** A node that is ready to receive the block [bn] on the Mp2 session [key]
    from the peers in [order]. *)
Record rx_ready (p : Mp2SessionManager) (key bn : Z) (order : list Z) (s : Mp2Session) (b : BlockBuffer) : Prop := {
  rr_session : mm_mp2sessionMap p !! key = Some s;
  rr_block : ms_blockNumber s = bn;
  rr_peers : Forall (λ id, id ∈ ms_sessionMap s) order;
  rr_buffer : mm_recvBuffer p !! bn = Some b;
  rr_empty : bb_buffer b = [];
  rr_goodbye : mm_goodbye p = false;
}.

Definition rx_start (p : Mp2SessionManager) : rx := {| rx_node := p; rx_offset := 0; rx_idx := 0; rx_out := [] |}.

Lemma start_inv blk p key bn order s b :
  0 < zlen blk → rx_ready p key bn order s b →
  ∃ p0, sendBlockRequest_start key order p = Ret (tt, p0, []) ∧
    rx_inv blk bn key (list_to_set order) (length (owners_with PEER_HAS_BLOCK (ms_blockOwners s) order)) (rx_start p0).
Proof.
  intros Hlen [Hs Hbn Hpe Hb He Hg]. unfold sendBlockRequest_start.
  rewrite (bind_pure _ _ _ s p) by (by apply getS_run).
  set (peers := owners_with _ _ _). rewrite (bind_pure _ _ _ _ _ (fill_run peers (make_chan (length peers)) p ltac:(done))).
  rewrite (modifyS_run _ _ _ _ Hs). eexists. split; [reflexivity|].
  exists (ms_set_sem s (Some (mk_chan (length peers) peers))), b, 0, [], (mk_chan (length peers) peers).
  split; [|split; [by rewrite He|done]]. split; simpl; rewrite ?He; try done.
  - by rewrite lookup_insert_eq.
  - intros id Hid%elem_of_list_to_set. by apply (proj1 (Forall_forall _ _) Hpe).
  - split; [lia|]. split; [lia|]. by intros.
  - unfold unfinished. simpl. lia.
  - intros id Hid. rewrite elem_of_list_to_set. unfold peers, owners_with in Hid.
    rewrite list_elem_of_In, filter_In, <-list_elem_of_In in Hid. tauto.
  - rewrite Hg. by destruct (zlen blk).
Qed.

(** C3. Receiving a block never gets stuck.  With at least one peer that has
    the block, from every state that requests, arrivals and reads can lead to,
    there is a continuation after which the application has read the whole
    block.  A data packet is handled in one step, which is how its handler runs when
    nothing comes between its accesses. *)
Theorem block_transfer_completes blk p key bn order s b ops :
  0 < zlen blk < 2 ^ 32 - PAYLOAD_SIZE → rx_ready p key bn order s b →
  owners_with PEER_HAS_BLOCK (ms_blockOwners s) order ≠ [] → Forall (rx_op_ok blk) ops →
  ∃ p0 r ops' r', sendBlockRequest_start key order p = Ret (tt, p0, []) ∧
    rx_run key bn (zlen blk) (rx_start p0) ops = Ret r ∧
    Forall (rx_op_ok blk) ops' ∧ rx_run key bn (zlen blk) r ops' = Ret r' ∧ rx_out r' = blk.
Proof.
  intros Hsize Hp Hne Hops. destruct (start_inv blk p key bn order s b) as (p0 & Hstart & Hinv); [lia|done|].
  destruct (rx_run_inv _ _ _ _ Hsize _ ops _ Hinv Hops) as (r & Hrun & Hr).
  assert (0 < length (owners_with PEER_HAS_BLOCK (ms_blockOwners s) order))%nat as Hn.
  { destruct (owners_with _ _ _); [done|simpl; lia]. }
  destruct (reaches_block _ _ _ _ Hsize _ _ Hn Hr) as (ops' & r' & ? & ? & _ & ?).
  exists p0, r, ops', r'. by split_and!.
Qed.

(** *** A concrete transfer *)

(** A node with one peer, session 7, that has announced block 5. *)
Definition demo_receiver : Mp2SessionManager :=
  let m := Mp2Accept 7 100;;
           modifyS 100 (λ s, ms_set_blockOwners (ms_set_blockNumber s 5) {[7 := PEER_HAS_BLOCK]});;
           putB 5 CreateBlockBuffer in
  match m (CreateMp2SessionManager mp2bs_toml 1) with
  | Ret (_, p, _) => p
  | _ => CreateMp2SessionManager mp2bs_toml 1
  end.

Definition demo_block : list Z := replicate 1024 1 ++ replicate 500 2.

Definition demo_ops : list rx_op :=
  [RxRead 2000; RxRequest; RxData 7 1 (chunk demo_block 1); RxRead 2000; RxData 7 0 (chunk demo_block 0);
   RxRead 600; RxData 7 0 (chunk demo_block 0); RxRead 2000; RxRequest].

Definition demo_session : Mp2Session :=
  match mm_mp2sessionMap demo_receiver !! 100 with
  | Some s => s
  | None => CreateMp2Session None 0
  end.

Lemma demo_ready : rx_ready demo_receiver 100 5 [7] demo_session CreateBlockBuffer.
Proof.
  split; try reflexivity. constructor; [|constructor]. apply (bool_decide_unpack _). reflexivity.
Qed.

Lemma demo_ops_ok : Forall (rx_op_ok demo_block) demo_ops.
Proof.
  repeat constructor; simpl; unfold uint; try lia.
Qed.

Lemma block_transfer_completes_witness :
  ∃ p0 r ops' r', sendBlockRequest_start 100 [7] demo_receiver = Ret (tt, p0, []) ∧
    rx_run 100 5 (zlen demo_block) (rx_start p0) demo_ops = Ret r ∧
    Forall (rx_op_ok demo_block) ops' ∧ rx_run 100 5 (zlen demo_block) r ops' = Ret r' ∧ rx_out r' = demo_block.
Proof.
  apply (block_transfer_completes demo_block demo_receiver 100 5 [7] demo_session CreateBlockBuffer demo_ops).
  - vm_compute. split; reflexivity.
  - exact demo_ready.
  - vm_compute. discriminate.
  - exact demo_ops_ok.
Defined.

(** The operations of the example read the whole block. *)
Lemma demo_transfer_reads :
  match sendBlockRequest_start 100 [7] demo_receiver with
  | Ret (_, p0, _) =>
      match rx_run 100 5 (zlen demo_block) (rx_start p0) demo_ops with
      | Ret r => bool_decide (rx_out r = demo_block) && mm_goodbye (rx_node r)
      | _ => false
      end
  | _ => false
  end = true.
Proof. vm_compute. reflexivity. Qed.
