(* ===== verification/BlockHandlers.v ===== *)
(** * Handlers of data packets beside the reader

    [handleBlockDataPacket] looks for the segment of a packet without taking
    [mutexForBuffer], which [Mp2ReadBlock] holds when it removes a segment and
    [AddRecvBuffer] when it adds one.  Here the handlers of several data packets run
    beside the request loop and the reader, one access of the shared block buffer at a time:
    every round of the search reads the length of the buffer and then the
    segment at its index up to four times.  A segment that was removed may still be
    held by a handler; a segment is known by its number in the sequence of all segments of the block,
    since they are added at the end of the buffer and removed at its beginning. *)

From stdpp Require Import base list numbers strings gmap.
From Stdlib Require Import ZArith Lia.
From S2P Require Import Prelude Config Util Mp2Packets Segment Mp2Frames Mp2State Mp2Handlers BlockTransfer BlockReceive.

(** ** The steps of a handler *)

(** Before the comparison of the index with the length, before the accesses to the segment at the index (for the
    number of the block, for the first and the last data number, and to take it), with a segment
    before the data is stored, before the segment's token is returned, and at the end. *)
Inductive handler_pc :=
| SLength (i : Z)
| SBlock (i : Z)
| SFirst (i : Z)
| SLast (i : Z)
| STake (i : Z)
| SStore (a : nat)
| SFinish (a : nat)
| SDone.

Record handler := mk_handler { h_packet : BlockDataPacket; h_pc : handler_pc }.

Definition first_number (packet : BlockDataPacket) (g : Segment) : Z :=
  if bd_Redundant packet =? FEC_SOURCE_DATA then sg_startDataNumber g else sg_startRedDataNumber g.

Definition last_number (packet : BlockDataPacket) (g : Segment) : Z :=
  if bd_Redundant packet =? FEC_SOURCE_DATA then sg_endDataNumber g else sg_endRedDataNumber g.

(** One access of the search in the buffer [l], from which [removed] segments have been removed so far. *)
Definition search_step (packet : BlockDataPacket) (removed : nat) (l : list Segment) (pc : handler_pc) : outcome handler_pc :=
  match pc with
  | SLength i => Ret (if i <? zlen l then SBlock i else SDone)
  | SBlock i => g ← index l i; Ret (if bd_BlockNumber packet =? sg_BlockNumber g then SFirst i else SLength (i + 1))
  | SFirst i => g ← index l i; Ret (if first_number packet g <=? bd_DataNumber packet then SLast i else SLength (i + 1))
  | SLast i => g ← index l i; Ret (if bd_DataNumber packet <=? last_number packet g then STake i else SLength (i + 1))
  | STake i => _ ← index l i; Ret (SStore (removed + Z.to_nat i))
  | _ => Ret pc
  end.

(** The segment with number [a] is stored into; the segments that were removed are the argument and the result. *)
Definition store_packet (key : Z) (packet : BlockDataPacket) (a : nat) (removed : list Segment) : M (list Segment) :=
  s ← getS key;
  b ← getB (ms_blockNumber s);
  segment ← of_option nil_pointer ((removed ++ bb_buffer b) !! a);
  '(_, segment) ←
    lift (if bd_Redundant packet =? FEC_SOURCE_DATA
          then PushData segment (bd_BlockNumber packet) (bd_DataNumber packet) (bd_Data packet)
          else PushRedData segment (bd_BlockNumber packet) (bd_DataNumber packet) (bd_Data packet));
  (if bd_Redundant packet =? FEC_SOURCE_DATA then AddSendBuffer (bd_Data packet) else mret tt);;
  let last := if bd_Redundant packet =? FEC_SOURCE_DATA
              then u32 (bb_lastRecvBytes b + u32 (zlen (bd_Data packet))) else bb_lastRecvBytes b in
  let segments := <[a := segment]> (removed ++ bb_buffer b) in
  putB (ms_blockNumber s) {| bb_lastRecvBytes := last; bb_readBytes := bb_readBytes b; bb_buffer := drop (length removed) segments |};;
  mret (take (length removed) segments).

Definition finish_packet (key : Z) (a : nat) (removed : list Segment) : M (list Segment) :=
  s ← getS key;
  b ← getB (ms_blockNumber s);
  segment ← of_option nil_pointer ((removed ++ bb_buffer b) !! a);
  if sg_Complete segment && negb (sg_FecFinish segment) then
    sem ← of_option blocked (ms_sem s);
    sem ← of_option blocked (chan_send sem (sg_SessionID segment));
    modifyS key (λ s, ms_set_sem s (Some sem));;
    let segments := <[a := sg_read segment (sg_readDataOffset segment) true]> (removed ++ bb_buffer b) in
    putB (ms_blockNumber s) (bb_set_buffer b (drop (length removed) segments));;
    mret (take (length removed) segments)
  else mret removed.

(** ** The node with its handlers *)

Record fx := mk_fx { fx_rx : rx; fx_removed : list Segment; fx_handlers : list handler }.

Inductive fx_op :=
| FxRequest
| FxArrive (sid d : Z) (data : list Z)
| FxHandle (j : nat)
| FxRead (bufLen : Z).

Definition fx_op_ok (blk : list Z) (op : fx_op) : Prop :=
  match op with
  | FxArrive _ d data => 0 <= d ∧ d * PAYLOAD_SIZE < zlen blk ∧ data = chunk blk d
  | FxRead n => uint 32 n
  | _ => True
  end.

Definition segments_in (bn : Z) (r : rx) : list Segment := from_option bb_buffer [] (mm_recvBuffer (rx_node r) !! bn).

(** The segment that a read into [n] bytes removed, as it left it. *)
Definition removed_by (bn n : Z) (r r' : rx) : list Segment :=
  if (length (segments_in bn r') <? length (segments_in bn r))%nat then
    match segments_in bn r with
    | g :: _ => match PopData g n with Ret (_, _, g') => [g'] | _ => [] end
    | [] => []
    end
  else [].

(** The handler number [j] after a step that leaves the node [p] and the removed segments. *)
Definition fx_update (f : fx) (j : nat) (h : handler) (pc : handler_pc) (p : Mp2SessionManager) (removed : list Segment) : fx :=
  let r := fx_rx f in
  mk_fx {| rx_node := p; rx_offset := rx_offset r; rx_idx := rx_idx r; rx_out := rx_out r |} removed
    (<[j := mk_handler (h_packet h) pc]> (fx_handlers f)).

(** A step that would block leaves everything as it is. *)
Definition fx_try (f : fx) (m : M (list Segment)) (k : Mp2SessionManager → list Segment → fx) : outcome fx :=
  match m (rx_node (fx_rx f)) with
  | Ret (removed, p, _) => Ret (k p removed)
  | Err e => if decide (e = would_block) then Ret f else Err e
  | Panic msg => Panic msg
  end.

Definition handle_step (key : Z) (f : fx) (j : nat) (h : handler) : outcome fx :=
  match h_pc h with
  | SStore a => fx_try f (store_packet key (h_packet h) a (fx_removed f)) (fx_update f j h (SFinish a))
  | SFinish a => fx_try f (finish_packet key a (fx_removed f)) (fx_update f j h SDone)
  | pc =>
      '(b, p, _) ← (s ← getS key; getB (ms_blockNumber s)) (rx_node (fx_rx f));
      pc ← search_step (h_packet h) (length (fx_removed f)) (bb_buffer b) pc;
      Ret (fx_update f j h pc p (fx_removed f))
  end.

Definition fx_step (key bn blockSize : Z) (f : fx) (op : fx_op) : outcome fx :=
  match op with
  | FxRequest => r ← rx_step key bn blockSize (fx_rx f) RxRequest; Ret (mk_fx r (fx_removed f) (fx_handlers f))
  | FxArrive sid d data => Ret (mk_fx (fx_rx f) (fx_removed f) (fx_handlers f ++ [mk_handler (data_packet bn sid d data) (SLength 0)]))
  | FxHandle j => match fx_handlers f !! j with Some h => handle_step key f j h | None => Ret f end
  | FxRead n =>
      r ← rx_step key bn blockSize (fx_rx f) (RxRead n);
      Ret (mk_fx r (fx_removed f ++ removed_by bn n (fx_rx f) r) (fx_handlers f))
  end.

Fixpoint fx_run (key bn blockSize : Z) (f : fx) (ops : list fx_op) : outcome fx :=
  match ops with
  | [] => Ret f
  | op :: ops => f ← fx_step key bn blockSize f op; fx_run key bn blockSize f ops
  end.

Definition fx_start (p : Mp2SessionManager) : fx := mk_fx (rx_start p) [] [].

(** A handler between the comparison with the length and its last access at that index. *)
Definition accessing (h : handler) : option Z :=
  match h_pc h with SBlock i | SFirst i | SLast i | STake i => Some i | _ => None end.

(** No read removes a segment while a handler is there. *)
Fixpoint fx_calm (key bn blockSize : Z) (f : fx) (ops : list fx_op) : bool :=
  match ops with
  | [] => true
  | op :: ops =>
      match fx_step key bn blockSize f op with
      | Ret f' => (bool_decide (length (fx_removed f') = length (fx_removed f)) || bool_decide (Forall (λ h, accessing h = None) (fx_handlers f))) &&
                  fx_calm key bn blockSize f' ops
      | _ => true
      end
  end.

(** ** Invariant *)

(** An update in a list that is cut at a place. *)
Lemma insert_cut {A} (l k : list A) a x y :
  (l ++ k) !! a = Some x →
  let m := <[a := y]> (l ++ k) in
  (∃ l1 l2, l = l1 ++ x :: l2 ∧ take (length l) m = l1 ++ y :: l2 ∧ drop (length l) m = k) ∨
  (∃ k1 k2, k = k1 ++ x :: k2 ∧ take (length l) m = l ∧ drop (length l) m = k1 ++ y :: k2).
Proof.
  intros H m. apply lookup_app_Some in H as [H|[Hle H]].
  - left. apply list_elem_of_split_length in H as (l1 & l2 & -> & ->). exists l1, l2. split; [done|]. unfold m.
    rewrite insert_app_l by (rewrite length_app; simpl; lia). rewrite insert_middle.
    assert (length (l1 ++ x :: l2) = length (l1 ++ y :: l2)) as -> by (by rewrite !length_app).
    by rewrite take_app_length, drop_app_length.
  - right. apply list_elem_of_split_length in H as (k1 & k2 & -> & Hlen). exists k1, k2. split; [done|]. unfold m.
    rewrite insert_app_r_alt by done. rewrite Hlen, insert_middle. by rewrite take_app_length, drop_app_length.
Qed.

Section Handlers.
Context (blk : list Z) (bn key : Z) (peers : gset Z).
Let size := zlen blk.
Context (Hsize : 0 < size < 2 ^ 32 - PAYLOAD_SIZE).

Local Abbreviation base := (seg_base blk bn peers).
Local Abbreviation ok := (node_ok blk bn key peers).

(** A handler of a packet of the block that holds one of the first [m] segments. *)
Definition handler_ok (m : nat) (h : handler) : Prop :=
  (∃ sid d, h_packet h = data_packet bn sid d (chunk blk d)) ∧
  match h_pc h with
  | SLength i | SBlock i | SFirst i | SLast i | STake i => 0 <= i
  | SStore a | SFinish a => (a < m)%nat
  | SDone => True
  end.

Record fx_ok (n : nat) (f : fx) (s : Mp2Session) (b : BlockBuffer) (lo : Z) (gout : list Z) (sem : chan Z) : Prop := {
  fo_node : ok (unfinished (fx_removed f)) (rx_node (fx_rx f)) (rx_offset (fx_rx f)) (rx_out (fx_rx f)) s b lo gout sem;
  fo_cap : ch_cap sem = n;
  fo_removed : Forall (λ g, ∃ lo gout, base lo g gout) (fx_removed f);
  fo_handlers : Forall (handler_ok (length (fx_removed f) + length (bb_buffer b))) (fx_handlers f);
}.

Definition fx_inv (n : nat) (f : fx) : Prop := ∃ s b lo gout sem, fx_ok n f s b lo gout sem.

(** No handler is about to access a segment beyond the end of the buffer. *)
Definition fx_safe (f : fx) : Prop := Forall (λ h, ∀ i, accessing h = Some i → i < zlen (segments_in bn (fx_rx f))) (fx_handlers f).

Lemma segments_in_ok u r out offset s b lo gout sem : ok u (rx_node r) offset out s b lo gout sem → segments_in bn r = bb_buffer b.
Proof. intros Hok. unfold segments_in. by rewrite (no_buffer _ _ _ _ _ _ _ _ _ _ _ _ _ Hok). Qed.

Lemma handler_ok_mono m m' h : (m ≤ m')%nat → handler_ok m h → handler_ok m' h.
Proof. intros Hm [Hp Hpc]. split; [done|]. destruct (h_pc h); try done; lia. Qed.

(** A segment is replaced by a later state of itself, in the buffer or among those that were removed. *)
Lemma replace_segment removed (l : list Segment) lo hi gout a g g' :
  segs_ok blk bn peers lo l hi gout → Forall (λ g, ∃ lo gout, base lo g gout) removed → (removed ++ l) !! a = Some g →
  sg_size g' = sg_size g → (∀ lo gout, base lo g gout → base lo g' gout) →
  let m := <[a := g']> (removed ++ l) in
  let removed' := take (length removed) m in
  let l' := drop (length removed) m in
  segs_ok blk bn peers lo l' hi gout ∧ Forall (λ g, ∃ lo gout, base lo g gout) removed' ∧ length removed' = length removed ∧ length l' = length l ∧
  (unfinished removed' + unfinished l' + unfinished [g] = unfinished removed + unfinished l + unfinished [g'])%nat.
Proof.
  intros Hl Hr Ha Hsz Hbase m removed' l'. rewrite !(unfinished_cons _ []).
  destruct (insert_cut removed l a g g' Ha) as [(l1 & l2 & Er & Et & Ed)|(l1 & l2 & El & Et & Ed)]; fold m in Et, Ed; fold removed' in Et; fold l' in Ed; rewrite Et, Ed.
  - split; [done|]. rewrite Er in Hr |- *. apply Forall_app in Hr as [Hr1 [(lo1 & go1 & Hg) Hr2]%Forall_cons].
    split; [apply Forall_app; split; [done|constructor; eauto]|]. rewrite !length_app, !unfinished_app, !unfinished_cons. cbn [length]. lia.
  - rewrite El in Hl |- *. destruct (segs_ok_middle _ _ _ _ _ _ _ _ _ Hl) as (lo1 & go1 & [Hg Hun] & Hrep).
    split; [apply Hrep; [done|]; split; [by apply Hbase|by rewrite Hsz]|]. split; [done|]. rewrite !length_app, !unfinished_app, !unfinished_cons. cbn [length]. lia.
Qed.

(** The result of a step of handler [j]. *)
Definition stepped (n : nat) (f : fx) (j : nat) (h : handler) (pc : handler_pc) (len : nat) (f' : fx) : Prop :=
  fx_inv n f' ∧ fx_handlers f' = <[j := mk_handler (h_packet h) pc]> (fx_handlers f) ∧
  length (fx_removed f') = length (fx_removed f) ∧ length (segments_in bn (fx_rx f')) = len.

Lemma handlers_update m (l : list handler) j h pc : Forall (handler_ok m) l → l !! j = Some h → handler_ok m (mk_handler (h_packet h) pc) →
  Forall (handler_ok m) (<[j := mk_handler (h_packet h) pc]> l).
Proof. intros Hl Hj Hpc. by apply Forall_insert. Qed.

(** The segment a handler holds. *)
Lemma held_segment n f s b lo gout sem j h a : fx_ok n f s b lo gout sem → fx_handlers f !! j = Some h → h_pc h = SStore a ∨ h_pc h = SFinish a →
  (a < length (fx_removed f) + length (bb_buffer b))%nat ∧ ∃ g, (fx_removed f ++ bb_buffer b) !! a = Some g.
Proof.
  intros [_ _ _ Hh] Hj Hpc. rewrite Forall_lookup in Hh. destruct (Hh j h Hj) as [_ Ha].
  assert (a < length (fx_removed f) + length (bb_buffer b))%nat as Hlt by (by destruct Hpc as [E|E]; rewrite E in Ha). split; [done|].
  apply lookup_lt_is_Some. by rewrite length_app.
Qed.

Lemma store_ok n f s b lo gout sem j h a :
  fx_ok n f s b lo gout sem → fx_handlers f !! j = Some h → h_pc h = SStore a →
  ∃ f', handle_step key f j h = Ret f' ∧ stepped n f j h (SFinish a) (length (bb_buffer b)) f'.
Proof.
  intros Hf Hj Hpc. destruct (held_segment _ _ _ _ _ _ _ _ _ _ Hf Hj (or_introl Hpc)) as (Hlt & g & Hg).
  destruct Hf as [Hok Hcap Hrem Hh]. pose proof Hok as [Hs Hbn Hpe Hb Hsg Ho Hout Hsem Htok Hids Hgb].
  pose proof Hh as Hh'. rewrite Forall_lookup in Hh'. destruct (Hh' j h Hj) as [(sid & d & Hpk) _].
  unfold handle_step. rewrite Hpc, Hpk. unfold fx_try, store_packet.
  rewrite (bind_pure _ _ _ s _ (getS_run _ _ _ Hs)), Hbn, (bind_pure _ _ _ b _ (getB_run _ _ _ Hb)), Hg.
  rewrite (bind_pure _ _ _ g (rx_node (fx_rx f))) by done.
  cbn [bd_Redundant bd_BlockNumber bd_DataNumber bd_Data data_packet]. change (FEC_SOURCE_DATA =? FEC_SOURCE_DATA) with true. cbv iota.
  assert (∃ g' r, PushData g bn d (chunk blk d) = Ret (r, g') ∧ same_frame g g' ∧ ∀ lo gout, base lo g gout → base lo g' gout) as (g' & r & Hp & Hfr & Hbase).
  { assert (∃ lo1 go1, base lo1 g go1) as (lo1 & go1 & H1).
    { apply lookup_app_Some in Hg as [Hg|[_ Hg]]; [rewrite Forall_lookup in Hrem; by eapply Hrem|].
      apply list_elem_of_split_length in Hg as (l1 & l2 & El & _). rewrite El in Hsg. destruct (segs_ok_middle _ _ _ _ _ _ _ _ _ Hsg) as (? & ? & [? _] & _). eauto. }
    destruct (PushData_base blk bn peers Hsize lo1 g go1 d sid H1) as (g' & Hp & Hfr & _). exists g', (segment_matches (data_packet bn sid d (chunk blk d)) g).
    split; [done|]. split; [done|]. intros lo2 go2 H2. destruct (PushData_base blk bn peers Hsize lo2 g go2 d sid H2) as (g2 & Hp2 & _ & Hg2 & _). rewrite Hp in Hp2. by injection Hp2 as <-. }
  pose proof Hfr as (Hf1 & Hf2 & Hf3 & Hf4).
  rewrite (bind_pure _ _ _ _ _ (lift_run _ _ _ Hp)). cbv beta iota. rewrite (bind_pure _ _ _ tt _ eq_refl), (bind_pure _ _ _ tt _ eq_refl).
  destruct (replace_segment (fx_removed f) (bb_buffer b) lo (rx_offset (fx_rx f)) gout a g g' Hsg Hrem Hg Hf4 Hbase) as (Hsg' & Hrem' & Hlr & Hll & Hun).
  rewrite !(unfinished_cons _ []), Hf3 in Hun. eexists. split; [reflexivity|]. unfold stepped. cbn [fx_handlers fx_removed fx_rx fx_update].
  split; [|split; [done|split; [exact Hlr|]]].
  - match goal with |- context [<[bn := ?x]> _] => exists s, x, lo, gout, sem end.
    split; cbn [fx_rx fx_removed fx_handlers fx_update rx_node rx_offset rx_out].
    + split; try done; [simpl; by rewrite lookup_insert_eq|]. cbn [bb_buffer]. lia.
    + done.
    + exact Hrem'.
    + cbn [bb_buffer]. rewrite Hlr, Hll. apply handlers_update; [done|done|]. split; [by exists sid, d|done].
  - unfold segments_in. simpl. rewrite lookup_insert_eq. exact Hll.
Qed.

Lemma finish_ok n f s b lo gout sem j h a :
  fx_ok n f s b lo gout sem → fx_handlers f !! j = Some h → h_pc h = SFinish a →
  ∃ f', handle_step key f j h = Ret f' ∧ stepped n f j h SDone (length (bb_buffer b)) f'.
Proof.
  intros Hf Hj Hpc. destruct (held_segment _ _ _ _ _ _ _ _ _ _ Hf Hj (or_intror Hpc)) as (Hlt & g & Hg).
  pose proof Hf as [Hok Hcap Hrem Hh]. pose proof Hok as [Hs Hbn Hpe Hb Hsg Ho Hout Hsem Htok Hids Hgb].
  assert (handler_ok (length (fx_removed f) + length (bb_buffer b)) (mk_handler (h_packet h) SDone)) as Hdone.
  { rewrite Forall_lookup in Hh. destruct (Hh j h Hj) as [Hpk _]. by split. }
  unfold handle_step. rewrite Hpc. unfold fx_try, finish_packet.
  rewrite (bind_pure _ _ _ s _ (getS_run _ _ _ Hs)), Hbn, (bind_pure _ _ _ b _ (getB_run _ _ _ Hb)), Hg.
  rewrite (bind_pure _ _ _ g (rx_node (fx_rx f))) by done. destruct (sg_Complete g && negb (sg_FecFinish g)) eqn:Ec.
  2:{ eexists. split; [reflexivity|]. unfold stepped. cbn [fx_handlers fx_removed fx_rx fx_update]. split; [|split_and!; [done..|]].
      - exists s, b, lo, gout, sem. split; try done. by apply handlers_update.
      - unfold segments_in. simpl. by rewrite Hb. }
  apply andb_prop in Ec as [Ec Ef%negb_true_iff]. set (g' := sg_read g (sg_readDataOffset g) true).
  destruct (replace_segment (fx_removed f) (bb_buffer b) lo (rx_offset (fx_rx f)) gout a g g' Hsg Hrem Hg eq_refl) as (Hsg' & Hrem' & Hlr & Hll & Hun).
  { intros lo1 go1 H1. by apply finish_base. }
  rewrite !(unfinished_cons _ []), Ef in Hun. change (sg_FecFinish g') with true in Hun. cbv iota in Hun.
  rewrite Hsem, (bind_pure _ _ _ sem (rx_node (fx_rx f))) by done.
  rewrite (bind_pure _ _ _ (mk_chan (ch_cap sem) (ch_buf sem ++ [sg_SessionID g])) (rx_node (fx_rx f))).
  2:{ unfold chan_send. destruct (Nat.ltb_spec (length (ch_buf sem)) (ch_cap sem)); [done|]. lia. }
  rewrite (bind_pure _ _ _ tt _ (modifyS_run key _ _ s Hs)). eexists. split; [reflexivity|].
  unfold stepped. cbn [fx_handlers fx_removed fx_rx fx_update]. split; [|split; [done|split; [exact Hlr|]]].
  - match goal with |- context [<[bn := ?x]> _] => exists (ms_set_sem s (Some (mk_chan (ch_cap sem) (ch_buf sem ++ [sg_SessionID g])))), x, lo, gout,
      (mk_chan (ch_cap sem) (ch_buf sem ++ [sg_SessionID g])) end.
    split; cbn [fx_rx fx_removed fx_handlers fx_update rx_node rx_offset rx_out].
    + split; try done; [simpl; by rewrite lookup_insert_eq|simpl; by rewrite lookup_insert_eq|..].
      * cbn [bb_buffer bb_set_buffer ch_buf ch_cap]. rewrite length_app. cbn [length]. lia.
      * intros id [?|Hid]%elem_of_app; [by apply Hids|]. apply list_elem_of_singleton in Hid as ->.
        apply lookup_app_Some in Hg as [Hg|[_ Hg]].
        -- rewrite Forall_lookup in Hrem. destruct (Hrem _ _ Hg) as (? & ? & []). done.
        -- apply list_elem_of_split_length in Hg as (l1 & l2 & El & _). rewrite El in Hsg. destruct (segs_ok_middle _ _ _ _ _ _ _ _ _ Hsg) as (? & ? & [[] _] & _). done.
    + done.
    + exact Hrem'.
    + cbn [bb_buffer bb_set_buffer]. rewrite Hlr, Hll. by apply handlers_update.
  - unfold segments_in. simpl. rewrite lookup_insert_eq. exact Hll.
Qed.

Lemma index_cases {A} (l : list A) i : 0 <= i → (∃ x, index l i = Ret x ∧ i < zlen l) ∨ index l i = Panic "index out of range" ∧ zlen l <= i.
Proof.
  intros Hi. destruct (decide (i < zlen l)) as [Hlt|Hge].
  - left. destruct (zget_is_Some l i) as [x Hx]; [done|]. exists x. by rewrite (index_Ret _ _ _ Hx).
  - right. split; [|lia]. unfold index. destruct (zget l i) eqn:E; [|done]. apply zget_Some in E. lia.
Qed.

(** A step of the search ends well, or the handler accesses a segment beyond the end of the buffer. *)
Lemma search_ok n f s b lo gout sem j h :
  fx_ok n f s b lo gout sem → fx_handlers f !! j = Some h → (∀ a, h_pc h ≠ SStore a) → (∀ a, h_pc h ≠ SFinish a) →
  (∃ f' pc, handle_step key f j h = Ret f' ∧ stepped n f j h pc (length (bb_buffer b)) f' ∧
     ∀ i, accessing (mk_handler (h_packet h) pc) = Some i → i < zlen (bb_buffer b)) ∨
  handle_step key f j h = Panic "index out of range" ∧ ∃ i, accessing h = Some i ∧ zlen (bb_buffer b) <= i.
Proof.
  intros Hf Hj Hn1 Hn2. pose proof Hf as [Hok Hcap Hrem Hh]. pose proof Hok as [Hs Hbn Hpe Hb Hsg Ho Hout Hsem Htok Hids Hgb].
  pose proof Hh as Hh'. rewrite Forall_lookup in Hh'. destruct (Hh' j h Hj) as [Hpk Hpos].
  assert (handle_step key f j h = (pc ← search_step (h_packet h) (length (fx_removed f)) (bb_buffer b) (h_pc h);
            Ret (fx_update f j h pc (rx_node (fx_rx f)) (fx_removed f)))) as ->.
  { unfold handle_step. rewrite (bind_pure _ _ _ s _ (getS_run _ _ _ Hs)), Hbn, (getB_run _ _ _ Hb).
    destruct (h_pc h) as [i|i|i|i|i|a|a|]; try done; [by destruct (Hn1 a)|by destruct (Hn2 a)]. }
  assert (∀ pc, handler_ok (length (fx_removed f) + length (bb_buffer b)) (mk_handler (h_packet h) pc) →
            stepped n f j h pc (length (bb_buffer b)) (fx_update f j h pc (rx_node (fx_rx f)) (fx_removed f))) as Hst.
  { intros pc Hpc. split; [|split_and!; try done; unfold segments_in; simpl; by rewrite Hb].
    exists s, b, lo, gout, sem. split; try done. by apply handlers_update. }
  assert (∀ pc, handler_ok (length (fx_removed f) + length (bb_buffer b)) (mk_handler (h_packet h) pc) →
            (∀ i, accessing (mk_handler (h_packet h) pc) = Some i → i < zlen (bb_buffer b)) →
            ∃ f' pc', Ret (fx_update f j h pc (rx_node (fx_rx f)) (fx_removed f)) = Ret f' ∧ stepped n f j h pc' (length (bb_buffer b)) f' ∧
              ∀ i, accessing (mk_handler (h_packet h) pc') = Some i → i < zlen (bb_buffer b)) as Hleft.
  { intros pc H1 H2. eexists _, pc. split; [reflexivity|]. split; [by apply Hst|done]. }
  unfold accessing at 2. destruct (h_pc h) as [i|i|i|i|i|a|a|] eqn:Epc; cbn [search_step].
  1: { left. apply Hleft; destruct (Z.ltb_spec i (zlen (bb_buffer b))); [by split..|intros ? [=]; lia|done]. }
  5: by destruct (Hn1 a).
  5: by destruct (Hn2 a).
  5: { left. apply Hleft; [by split|done]. }
  all: destruct (index_cases (bb_buffer b) i Hpos) as [(g & -> & Hi)|[-> Hi]]; cbn [mbind outcome_bind]; [left; apply Hleft|right; by eauto].
  1-6: match goal with |- context [if ?c then _ else _] => destruct c end; first [split; [done|cbn; lia]|intros ? [=]; lia].
  - split; [done|]. cbn. unfold zlen in Hi. lia.
  - done.
Qed.

(** What a step of handler [j] does to the others. *)
Lemma stepped_safe n f j h pc f' :
  stepped n f j h pc (length (segments_in bn (fx_rx f))) f' →
  (∀ i, accessing (mk_handler (h_packet h) pc) = Some i → i < zlen (segments_in bn (fx_rx f))) → fx_safe f → fx_safe f'.
Proof.
  intros (_ & Hh & _ & Hlen) Hpc Hsafe. unfold fx_safe in *. rewrite Hh. assert (zlen (segments_in bn (fx_rx f')) = zlen (segments_in bn (fx_rx f))) as ->.
  { unfold zlen. by rewrite Hlen. }
  by apply Forall_insert.
Qed.

Lemma fx_handle_ok n f j :
  fx_inv n f →
  match fx_step key bn size f (FxHandle j) with
  | Ret f' => fx_inv n f' ∧ (fx_safe f → fx_safe f')
  | Panic msg => msg = "index out of range" ∧ ¬ fx_safe f
  | Err _ => False
  end.
Proof.
  intros Hinv. pose proof Hinv as (s & b & lo & gout & sem & Hf). cbn [fx_step]. destruct (fx_handlers f !! j) as [h|] eqn:Hj; [|by split].
  pose proof (segments_in_ok _ _ _ _ _ _ _ _ _ (fo_node _ _ _ _ _ _ _ Hf)) as Hseg.
  assert (∀ pc f', (∀ i, accessing (mk_handler (h_packet h) pc) = Some i → i < zlen (bb_buffer b)) → stepped n f j h pc (length (bb_buffer b)) f' →
    fx_inv n f' ∧ (fx_safe f → fx_safe f')) as Hret.
  { intros pc f' Hpc Hst. split; [by destruct Hst|]. rewrite <- Hseg in *. by eapply stepped_safe. }
  destruct (h_pc h) as [i|i|i|i|i|a|a|] eqn:Epc.
  6: { destruct (store_ok _ _ _ _ _ _ _ _ _ _ Hf Hj Epc) as (f' & -> & Hst). eapply Hret; [|exact Hst]. intros ? [=]. }
  6: { destruct (finish_ok _ _ _ _ _ _ _ _ _ _ Hf Hj Epc) as (f' & -> & Hst). eapply Hret; [|exact Hst]. intros ? [=]. }
  all: destruct (search_ok _ _ _ _ _ _ _ _ _ Hf Hj) as [(f' & pc & -> & Hst & Hpc)|(-> & k & Hk & Hge)]; [by intros a; rewrite Epc..|by eapply Hret|].
  all: split; [done|]; unfold fx_safe; rewrite Hseg, Forall_lookup; intros Hsafe; specialize (Hsafe j h Hj k Hk); lia.
Qed.

Lemma fx_read_ok n f k :
  fx_inv n f → uint 32 k →
  ∃ f', fx_step key bn size f (FxRead k) = Ret f' ∧ fx_inv n f' ∧ fx_handlers f' = fx_handlers f ∧
    (length (fx_removed f') + length (segments_in bn (fx_rx f')) = length (fx_removed f) + length (segments_in bn (fx_rx f)))%nat.
Proof.
  intros (s & b & lo & gout & sem & [Hok Hcap Hrem Hh]) Hk. cbn [fx_step].
  destruct (read_node blk bn key peers Hsize _ _ _ _ _ _ _ k Hok Hk) as (r' & bs & b' & lo' & gout' & u' & Hstep & _ & _ & Hok' & _ & Hfrom).
  fold size in Hstep. rewrite Hstep. cbn [mbind outcome_bind]. eexists. split; [reflexivity|]. cbn [fx_handlers fx_removed fx_rx].
  unfold removed_by. rewrite (segments_in_ok _ _ _ _ _ _ _ _ _ Hok), (segments_in_ok _ _ _ _ _ _ _ _ _ Hok').
  destruct Hfrom as [(-> & Hlen & _)|(g & bs' & g' & lo1 & go1 & Hl & -> & _ & Hpop & (_ & _ & Hfin & _) & Hbase)].
  - rewrite Hlen, Nat.ltb_irrefl. split; [|by rewrite app_nil_r]. exists s, b', lo', gout', sem. split; cbn [fx_handlers fx_removed fx_rx]; rewrite ?app_nil_r; try done. by rewrite Hlen.
  - rewrite Hl. cbn [length]. rewrite (proj2 (Nat.ltb_lt _ _)) by lia. rewrite Hpop. split; [|split; [done|rewrite length_app; cbn [length]; lia]].
    exists s, b', lo', gout', sem. split; cbn [fx_handlers fx_removed fx_rx].
    + rewrite unfinished_app, (unfinished_cons g' []), Hfin, <- (unfinished_cons g []). exact Hok'.
    + done.
    + apply Forall_app. split; [done|]. apply Forall_singleton. eauto.
    + rewrite Hl in Hh. rewrite length_app. eapply Forall_impl; [exact Hh|]. intros h. apply handler_ok_mono. cbn [length]. lia.
Qed.

Lemma fx_step_ok n f op :
  fx_inv n f → fx_op_ok blk op →
  match fx_step key bn size f op with
  | Ret f' => fx_inv n f' ∧
      (fx_safe f → length (fx_removed f') = length (fx_removed f) ∨ Forall (λ h, accessing h = None) (fx_handlers f) → fx_safe f')
  | Panic msg => msg = "index out of range" ∧ ¬ fx_safe f
  | Err _ => False
  end.
Proof.
  intros Hinv Hop. destruct op as [|sid d data|j|k].
  - destruct Hinv as (s & b & lo & gout & sem & [Hok Hcap Hrem Hh]). cbn [fx_step].
    destruct (request_node blk bn key peers Hsize _ _ _ _ _ _ _ Hok) as (r' & s' & b' & sem' & Hstep & _ & Hok' & Hcap' & Hbuf). fold size in Hstep. rewrite Hstep. cbn [mbind outcome_bind].
    assert (length (bb_buffer b) ≤ length (bb_buffer b'))%nat as Hlen by (destruct Hbuf as [[-> _]|(g & -> & _)]; [done|rewrite length_app; lia]). split.
    + exists s', b', lo, gout, sem'. split; cbn [fx_handlers fx_removed fx_rx]; try done; [congruence|].
      eapply Forall_impl; [exact Hh|]. intros h. apply handler_ok_mono. lia.
    + unfold fx_safe. cbn [fx_handlers fx_rx]. rewrite (segments_in_ok _ _ _ _ _ _ _ _ _ Hok), (segments_in_ok _ _ _ _ _ _ _ _ _ Hok').
      intros Hsafe _. eapply Forall_impl; [exact Hsafe|]. cbn. intros h Hi i Ha. specialize (Hi i Ha). unfold zlen in *. lia.
  - destruct Hop as (_ & _ & ->). destruct Hinv as (s & b & lo & gout & sem & [Hok Hcap Hrem Hh]). cbn [fx_step]. split.
    + exists s, b, lo, gout, sem. split; cbn [fx_handlers fx_removed fx_rx]; try done. apply Forall_app. split; [done|]. apply Forall_singleton. split; [by eauto|done].
    + intros Hsafe _. unfold fx_safe. cbn [fx_handlers fx_rx]. apply Forall_app. split; [done|]. by apply Forall_singleton.
  - pose proof (fx_handle_ok n f j Hinv) as H. destruct (fx_step key bn size f (FxHandle j)); try done. destruct H as [H1 H2]. split; [done|]. intros Hs _. by apply H2.
  - destruct (fx_read_ok n f k Hinv Hop) as (f' & -> & Hinv' & Hh & Hlen). split; [done|]. intros Hsafe Hcalm. unfold fx_safe. rewrite Hh.
    destruct Hcalm as [Heq|Hnone].
    + eapply Forall_impl; [exact Hsafe|]. cbn. intros h Hi i Ha. specialize (Hi i Ha). unfold zlen in *. lia.
    + eapply Forall_impl; [exact Hnone|]. cbn. intros h Hn i Ha. congruence.
Qed.

Lemma fx_run_ok n ops : ∀ f,
  fx_inv n f → Forall (fx_op_ok blk) ops →
  match fx_run key bn size f ops with
  | Ret f' => fx_inv n f'
  | Panic msg => msg = "index out of range" ∧ (fx_safe f → fx_calm key bn size f ops = false)
  | Err _ => False
  end.
Proof.
  induction ops as [|op ops IH]; intros f Hf Hops; [done|]. apply Forall_cons in Hops as [Hop Hops]. cbn [fx_run fx_calm].
  pose proof (fx_step_ok n f op Hf Hop) as Hstep. destruct (fx_step key bn size f op) as [f'| |msg]; cbn [mbind outcome_bind]; [|done|].
  - destruct Hstep as [Hf' Hsafe]. specialize (IH f' Hf' Hops). destruct (fx_run key bn size f' ops) as [f2| |msg]; try done.
    destruct IH as [-> IH]. split; [done|]. intros Hs. destruct (_ || _) eqn:Ec; [|done]. cbn [andb]. apply IH, Hsafe; [done|].
    apply orb_true_iff in Ec as [Ec%bool_decide_eq_true|Ec%bool_decide_eq_true]; auto.
  - destruct Hstep as [-> Hun]. split; [done|]. intros Hs. by destruct Hun.
Qed.

(** What happens to a handler when a read removes a segment.  If it is about to look at the last segment, where its packet may belong, it
    ends, and the packet is lost; if it has already compared the index of that segment with the length, it panics. *)
Theorem removal_during_search n f k f' j h :
  fx_inv n f → uint 32 k → fx_step key bn size f (FxRead k) = Ret f' → length (fx_removed f') ≠ length (fx_removed f) →
  fx_handlers f !! j = Some h →
  let last := zlen (segments_in bn (fx_rx f)) - 1 in
  (h_pc h = SLength last → fx_step key bn size f' (FxHandle j) = Ret (fx_update f' j h SDone (rx_node (fx_rx f')) (fx_removed f'))) ∧
  (accessing h = Some last → fx_step key bn size f' (FxHandle j) = Panic "index out of range").
Proof.
  intros Hf Hk Hr Hne Hj last. destruct (fx_read_ok n f k Hf Hk) as (f1 & Hr1 & (s & b & lo & gout & sem & Hok) & Hh & Hlen). rewrite Hr in Hr1. injection Hr1 as <-.
  pose proof (fo_node _ _ _ _ _ _ _ Hok) as Hnode. pose proof (segments_in_ok _ _ _ _ _ _ _ _ _ Hnode) as Hseg. rewrite Hseg in Hlen.
  pose proof Hnode as [Hs Hbn _ Hb _ _ _ _ _ _ _].
  assert (zlen (bb_buffer b) <= last) as Hlast.
  { unfold last, zlen.
    assert (length (fx_removed f) ≤ length (fx_removed f'))%nat; [|lia]. revert Hr. cbn [fx_step]. destruct (rx_step _ _ _ _ _); cbn [mbind outcome_bind]; [|done..].
    intros [= <-]. cbn [fx_removed]. rewrite length_app. lia. }
  cbn [fx_step]. rewrite Hh, Hj. unfold handle_step. rewrite (bind_pure _ _ _ s _ (getS_run _ _ _ Hs)), Hbn, (getB_run _ _ _ Hb). split.
  - intros ->. cbn [mbind outcome_bind search_step]. by rewrite (proj2 (Z.ltb_ge _ _)).
  - unfold accessing. intros Ha. destruct (h_pc h) as [i|i|i|i|i|a|a|]; try done; injection Ha as ->; cbn [mbind outcome_bind search_step];
      (destruct (index_cases (bb_buffer b) last) as [(x & _ & ?)|[-> _]]; [pose proof (zlen_nonneg (bb_buffer b)); lia|lia|done]).
Qed.
End Handlers.

(** ** A handler that runs alone *)

Lemma fx_run_app key bn blockSize l1 l2 : ∀ f f', fx_run key bn blockSize f l1 = Ret f' → fx_run key bn blockSize f (l1 ++ l2) = fx_run key bn blockSize f' l2.
Proof.
  induction l1 as [|op l1 IH]; intros f f' H; simpl in *; [by simplify_eq|]. destruct (fx_step key bn blockSize f op); simpl in *; try done. by apply IH.
Qed.

Section Alone.
Context (key bn blockSize : Z) (removed : list Segment) (hs : list handler) (j : nat) (pk : BlockDataPacket) (s : Mp2Session).
Hypothesis Hj : (j < length hs)%nat.

(** Handler [j] is at [pc]. *)
Definition at_pc (r : rx) (pc : handler_pc) : fx := mk_fx r removed (<[j := mk_handler pk pc]> hs).

(** [f] leads to [f'] by steps of handler [j]. *)
Definition alone (f f' : fx) : Prop := ∃ m, fx_run key bn blockSize f (replicate m (FxHandle j)) = Ret f'.

Lemma alone_trans f g h : alone f g → alone g h → alone f h.
Proof. intros [m Hm] [m' Hm']. exists (m + m')%nat. rewrite replicate_add. by rewrite (fx_run_app _ _ _ _ _ _ _ Hm). Qed.

Lemma alone_step r pc f' : handle_step key (at_pc r pc) j (mk_handler pk pc) = Ret f' → alone (at_pc r pc) f'.
Proof. intros H. exists 1%nat. cbn [replicate fx_run fx_step]. unfold at_pc at 1. cbn [fx_handlers]. by rewrite list_lookup_insert_eq, H. Qed.

Lemma update_at_pc r h pc pc' p removed' : h_packet h = pk →
  fx_update (at_pc r pc) j h pc' p removed' = mk_fx {| rx_node := p; rx_offset := rx_offset r; rx_idx := rx_idx r; rx_out := rx_out r |} removed' (<[j := mk_handler pk pc']> hs).
Proof. intros <-. unfold fx_update, at_pc. cbn [fx_rx fx_handlers]. by rewrite list_insert_insert_eq. Qed.

Section Search.
Context (r : rx) (b : BlockBuffer).
Hypothesis Hs : mm_mp2sessionMap (rx_node r) !! key = Some s.
Hypothesis Hb : mm_recvBuffer (rx_node r) !! ms_blockNumber s = Some b.

Lemma alone_access pc pc' : (∀ a, pc ≠ SStore a) → (∀ a, pc ≠ SFinish a) →
  search_step pk (length removed) (bb_buffer b) pc = Ret pc' → alone (at_pc r pc) (at_pc r pc').
Proof.
  intros Hn1 Hn2 H. apply alone_step. unfold handle_step. cbn [h_pc h_packet].
  rewrite (bind_pure _ _ _ s _ (getS_run _ _ _ Hs)), (getB_run _ _ _ Hb). cbn [mbind outcome_bind fx_removed at_pc].
  assert (fx_update (at_pc r pc) j (mk_handler pk pc) pc' (rx_node r) removed = at_pc r pc') as E by (rewrite update_at_pc by done; by destruct r).
  destruct pc as [i|i|i|i|i|a|a|]; try (rewrite H; cbn [mbind outcome_bind]; by rewrite E); [by destruct (Hn1 a)|by destruct (Hn2 a)].
Qed.

Lemma matches_numbers g : segment_matches pk g =
  (bd_BlockNumber pk =? sg_BlockNumber g) && (first_number pk g <=? bd_DataNumber pk) && (bd_DataNumber pk <=? last_number pk g).
Proof. unfold segment_matches, first_number, last_number. by destruct (bd_Redundant pk =? FEC_SOURCE_DATA). Qed.

(** A round of the search. *)
Lemma alone_round pre g l : bb_buffer b = pre ++ g :: l →
  alone (at_pc r (SLength (zlen pre))) (at_pc r (if segment_matches pk g then SStore (length removed + length pre) else SLength (zlen pre + 1))).
Proof.
  intros Hl. assert (index (bb_buffer b) (zlen pre) = Ret g) as Hi.
  { apply index_Ret. unfold zlen. rewrite zget_nat, Hl. by apply list_lookup_middle. }
  eapply alone_trans; [apply (alone_access _ (SBlock (zlen pre))); try done|].
  { cbn. rewrite (proj2 (Z.ltb_lt _ _)); [done|]. rewrite Hl. unfold zlen. rewrite length_app. simpl. lia. }
  rewrite matches_numbers. destruct (_ =? _) eqn:E1; cbn [andb].
  2: { apply alone_access; try done. cbn [search_step]. rewrite Hi. cbn [mbind outcome_bind]. by rewrite E1. }
  eapply alone_trans; [apply (alone_access _ (SFirst (zlen pre))); try done; cbn [search_step]; rewrite Hi; cbn [mbind outcome_bind]; by rewrite E1|].
  destruct (first_number pk g <=? _) eqn:E2; cbn [andb].
  2: { apply alone_access; try done. cbn [search_step]. rewrite Hi. cbn [mbind outcome_bind]. by rewrite E2. }
  eapply alone_trans; [apply (alone_access _ (SLast (zlen pre))); try done; cbn [search_step]; rewrite Hi; cbn [mbind outcome_bind]; by rewrite E2|].
  destruct (_ <=? last_number pk g) eqn:E3.
  2: { apply alone_access; try done. cbn [search_step]. rewrite Hi. cbn [mbind outcome_bind]. by rewrite E3. }
  eapply alone_trans; [apply (alone_access _ (STake (zlen pre))); try done; cbn [search_step]; rewrite Hi; cbn [mbind outcome_bind]; by rewrite E3|].
  apply alone_access; try done. cbn [search_step]. rewrite Hi. cbn [mbind outcome_bind]. unfold zlen. by rewrite Nat2Z.id.
Qed.

Lemma alone_search l : ∀ pre, bb_buffer b = pre ++ l →
  alone (at_pc r (SLength (zlen pre)))
    (at_pc r (match find_segment pk l with Some (i, _) => SStore (length removed + (length pre + i)) | None => SDone end)).
Proof.
  induction l as [|g l IH]; intros pre Hl.
  - apply alone_access; try done. cbn. rewrite Hl, app_nil_r. by rewrite Z.ltb_irrefl.
  - eapply alone_trans; [by apply (alone_round pre g l)|]. cbn [find_segment]. destruct (segment_matches pk g).
    + exists 0%nat. cbn. by rewrite Nat.add_0_r.
    + replace (zlen pre + 1) with (zlen (pre ++ [g])) by (rewrite zlen_app; done).
      destruct (IH (pre ++ [g])) as [m Hm]; [by rewrite <- app_assoc|]. exists m. rewrite Hm. do 2 f_equal.
      destruct (find_segment pk l) as [[i x]|]; [|done]. cbn. f_equal. rewrite length_app. cbn [length]. lia.
Qed.
End Search.
End Alone.

Lemma insert_drop {A} (l k : list A) i x : drop (length l) (<[(length l + i)%nat := x]> (l ++ k)) = <[i := x]> k ∧ take (length l) (<[(length l + i)%nat := x]> (l ++ k)) = l.
Proof. rewrite insert_app_r. by rewrite drop_app_length, take_app_length. Qed.

Lemma bind_nil {A B} (o : Mp2SessionManager → option A) (k : A → M B) p x : o p = None → ((p ← getM; of_option nil_pointer (o p)) ≫= k) p ≠ Ret x.
Proof. intros H. unfold mbind, M_bind, getM. by rewrite H. Qed.

(** Run from its beginning to its end without interruption, a handler does what [handleBlockDataPacket] does, as one step. *)
Theorem handler_uninterrupted key bn blockSize r removed hs j pk p' es :
  (j < length hs)%nat → handleBlockDataPacket key pk (rx_node r) = Ret (tt, p', es) →
  alone key bn blockSize j (at_pc removed hs j pk r (SLength 0))
    (at_pc removed hs j pk {| rx_node := p'; rx_offset := rx_offset r; rx_idx := rx_idx r; rx_out := rx_out r |} SDone).
Proof.
  intros Hj. unfold handleBlockDataPacket. destruct (mm_mp2sessionMap (rx_node r) !! key) as [s|] eqn:Hs.
  2: { intros E. by apply (bind_nil (λ p, mm_mp2sessionMap p !! key)) in E. }
  rewrite (bind_pure _ _ _ s _ (getS_run _ _ _ Hs)). destruct (mm_recvBuffer (rx_node r) !! ms_blockNumber s) as [b|] eqn:Hb.
  2: { intros E. by apply (bind_nil (λ p, mm_recvBuffer p !! ms_blockNumber s)) in E. }
  rewrite (bind_pure _ _ _ b _ (getB_run _ _ _ Hb)). pose proof (alone_search key bn blockSize removed hs j pk s Hj r b Hs Hb (bb_buffer b) [] eq_refl) as Hsearch.
  destruct (find_segment pk (bb_buffer b)) as [[i g]|] eqn:Hfind.
  2: { intros [= <- _]. by destruct r. }
  pose proof Hfind as (_ & l1 & l2 & Hl & Hi)%find_segment_split. change (length [] + i)%nat with i in Hsearch.
  set (push := if bd_Redundant pk =? FEC_SOURCE_DATA then _ else PushRedData _ _ _ _). destruct push as [[ok g']| |] eqn:Hpush; [|done..].
  rewrite (bind_pure _ _ _ (ok, g') (rx_node r) eq_refl). cbv beta iota.
  set (src := bd_Redundant pk =? FEC_SOURCE_DATA) in *. set (p1 := if src then mm_set_sendBuffer (rx_node r) (mm_sendBuffer (rx_node r) ++ bd_Data pk) else rx_node r).
  rewrite (bind_pure _ _ _ tt p1) by (unfold p1; by destruct src). set (last := if src then _ else _).
  set (put g := {| bb_lastRecvBytes := last; bb_readBytes := bb_readBytes b; bb_buffer := <[i := g]> (bb_buffer b) |}).
  set (p2 := mm_set_recvBuffer p1 (<[ms_blockNumber s := put g']> (mm_recvBuffer p1))). rewrite (bind_pure _ _ _ tt p2 eq_refl).
  set (a := (length removed + i)%nat) in *. set (r2 := {| rx_node := p2; rx_offset := rx_offset r; rx_idx := rx_idx r; rx_out := rx_out r |}).
  destruct (insert_drop removed (bb_buffer b) i g') as [Ed Et]. fold a in Ed, Et.
  assert (alone key bn blockSize j (at_pc removed hs j pk r (SStore a)) (at_pc removed hs j pk r2 (SFinish a))) as Hstore.
  { apply alone_step; [done|]. unfold handle_step, fx_try, store_packet. cbn [h_pc h_packet fx_removed fx_rx at_pc]. fold src.
    rewrite (bind_pure _ _ _ s _ (getS_run _ _ _ Hs)), (bind_pure _ _ _ b _ (getB_run _ _ _ Hb)).
    rewrite (bind_pure _ _ _ g (rx_node r)) by (unfold a; rewrite lookup_app_r, Nat.add_comm, Nat.add_sub, Hl, <- Hi, list_lookup_middle by (lia || done); done).
    fold push. rewrite Hpush, (bind_pure _ _ _ (ok, g') (rx_node r) eq_refl). cbv beta iota. rewrite (bind_pure _ _ _ tt p1) by (unfold p1; by destruct src).
    fold last. rewrite Ed, Et. rewrite (bind_pure _ _ _ tt p2 eq_refl). cbn [mret M_ret]. by rewrite update_at_pc. }
  assert (mm_mp2sessionMap p2 !! key = Some s) as Hs2 by (unfold p2, p1; by destruct src).
  assert (mm_recvBuffer p2 !! ms_blockNumber s = Some (put g')) as Hb2 by (apply lookup_insert_eq).
  intros Hrest. eapply alone_trans; [exact Hsearch|]. eapply alone_trans; [exact Hstore|]. apply alone_step; [done|].
  unfold handle_step, fx_try, finish_packet. cbn [h_pc h_packet fx_removed fx_rx at_pc].
  rewrite (bind_pure _ _ _ s _ (getS_run _ _ _ Hs2)), (bind_pure _ _ _ _ _ (getB_run _ _ _ Hb2)).
  assert (i < length (bb_buffer b))%nat as Hlt by (rewrite Hl, length_app, Hi; cbn [length]; lia).
  rewrite (bind_pure _ _ _ g' (rx_node r2)) by (unfold a; rewrite lookup_app_r, Nat.add_comm, Nat.add_sub by lia; cbn [put bb_buffer]; by rewrite list_lookup_insert_eq).
  destruct (sg_Complete g' && negb (sg_FecFinish g')).
  2: { injection Hrest as <- _. cbn [mret M_ret]. by rewrite update_at_pc. }
  destruct (ms_sem s) as [sem|]; [|done]. rewrite (bind_pure _ _ _ sem p2 eq_refl) in Hrest. rewrite (bind_pure _ _ _ sem (rx_node r2) eq_refl).
  destruct (chan_send sem (sg_SessionID g')) as [sem'|]; [|done]. rewrite (bind_pure _ _ _ sem' p2 eq_refl) in Hrest. rewrite (bind_pure _ _ _ sem' (rx_node r2) eq_refl).
  rewrite (bind_pure _ _ _ tt _ (modifyS_run key _ p2 s Hs2)) in Hrest. rewrite (bind_pure _ _ _ tt _ (modifyS_run key _ (rx_node r2) s Hs2)).
  cbn [put bb_buffer]. destruct (insert_drop removed (<[i := g']> (bb_buffer b)) i (sg_read g' (sg_readDataOffset g') true)) as [Ed2 Et2]. fold a in Ed2, Et2.
  rewrite Ed2, Et2, list_insert_insert_eq. injection Hrest as <- _. erewrite (bind_pure _ _ _ tt) by reflexivity. cbn [mret M_ret]. by rewrite update_at_pc.
Qed.

(** ** Properties *)

Lemma fx_start_inv blk p key bn order s b :
  0 < zlen blk → rx_ready p key bn order s b →
  ∃ p0, sendBlockRequest_start key order p = Ret (tt, p0, []) ∧
    fx_inv blk bn key (list_to_set order) (length (owners_with PEER_HAS_BLOCK (ms_blockOwners s) order)) (fx_start p0).
Proof.
  intros Hlen Hp. destruct (start_inv blk p key bn order s b Hlen Hp) as (p0 & Hstart & (s0 & b0 & lo & gout & sem & Hok & _ & Hcap)).
  exists p0. split; [done|]. exists s0, b0, lo, gout, sem. by split.
Qed.

(** C2. Receiving a block is safe.  A node whose block buffer is empty starts [sendBlockRequest] for a block; then rounds of the request loop,
    data packets of the block (in any order, repeated, early or late), reads of the application and the steps of the packets' handlers follow in any
    interleaving; the handlers look for their segment without the mutex, one access of the shared buffer at a time.
    No operation fails, the bytes read are always a prefix of the block, and the node's goodbye flag is set exactly when the whole
    block has been read; the only panic is that of a handler which accesses a segment beyond the end of the buffer, and there is none
    unless a read removes a segment while a handler is between its comparison of an index with the length and its accesses at that index. *)
Theorem block_transfer blk p key bn order s b ops :
  0 < zlen blk < 2 ^ 32 - PAYLOAD_SIZE → rx_ready p key bn order s b → Forall (fx_op_ok blk) ops →
  ∃ p0, sendBlockRequest_start key order p = Ret (tt, p0, []) ∧
    match fx_run key bn (zlen blk) (fx_start p0) ops with
    | Ret f => rx_out (fx_rx f) `prefix_of` blk ∧ (mm_goodbye (rx_node (fx_rx f)) = true ↔ rx_out (fx_rx f) = blk)
    | Panic msg => msg = "index out of range" ∧ fx_calm key bn (zlen blk) (fx_start p0) ops = false
    | Err _ => False
    end.
Proof.
  intros Hsize Hp Hops. destruct (fx_start_inv blk p key bn order s b) as (p0 & Hstart & Hinv); [lia|done|]. exists p0. split; [done|].
  pose proof (fx_run_ok blk bn key _ Hsize _ ops _ Hinv Hops) as Hrun. destruct (fx_run key bn (zlen blk) (fx_start p0) ops) as [f| |msg]; [|done|].
  - destruct Hrun as (s1 & b1 & lo & gout & sem & [Hok _ _ _]). by apply (node_ok_prefix _ _ _ _ Hsize _ _ _ _ _ _ _ _ _ Hok).
  - destruct Hrun as [-> Hcalm]. split; [done|]. apply Hcalm. apply Forall_nil_2.
Qed.

(** *** A concrete transfer *)

(** Both packets come, with their handlers' steps, and are read in two pieces between which the first packet comes again. *)
Definition demo_fx_ops : list fx_op :=
  [FxRequest; FxArrive 7 1 (chunk demo_block 1); FxHandle 0; FxArrive 7 0 (chunk demo_block 0); FxHandle 1] ++
  (FxHandle <$> [0; 1; 0; 1; 1; 0; 0; 1; 0; 1; 0; 1]%nat) ++
  [FxRead 600; FxArrive 7 0 (chunk demo_block 0)] ++ (FxHandle <$> replicate 7 2%nat) ++ [FxRead 2000; FxRequest].

Lemma demo_fx_ops_ok : Forall (fx_op_ok demo_block) demo_fx_ops.
Proof. repeat constructor; simpl; unfold uint; try lia. Qed.

Lemma block_transfer_witness :
  ∃ p0 f, sendBlockRequest_start 100 [7] demo_receiver = Ret (tt, p0, []) ∧ fx_run 100 5 (zlen demo_block) (fx_start p0) demo_fx_ops = Ret f ∧
    rx_out (fx_rx f) `prefix_of` demo_block ∧ (mm_goodbye (rx_node (fx_rx f)) = true ↔ rx_out (fx_rx f) = demo_block).
Proof.
  destruct (block_transfer demo_block demo_receiver 100 5 [7] demo_session CreateBlockBuffer demo_fx_ops) as (p0 & Hstart & Hrun);
    [vm_compute; split; reflexivity|exact demo_ready|exact demo_fx_ops_ok|]. exists p0.
  assert (match sendBlockRequest_start 100 [7] demo_receiver with
          | Ret (_, p0, _) => is_ret (fx_run 100 5 (zlen demo_block) (fx_start p0) demo_fx_ops)
          | _ => false
          end = true) as Hret by (vm_compute; reflexivity).
  rewrite Hstart in Hret. destruct (fx_run 100 5 (zlen demo_block) (fx_start p0) demo_fx_ops) as [f| |]; [|discriminate..].
  exists f. split; [exact Hstart|]. split; [reflexivity|exact Hrun].
Defined.

(** The operations of the example read the whole block.  When the last read comes while the handler of the repeated packet
    looks at the segment, the handler panics. *)
Definition demo_race : list fx_op := take 20 demo_fx_ops ++ [FxRead 2000; FxHandle 2].

Lemma demo_fx_reads :
  match sendBlockRequest_start 100 [7] demo_receiver with
  | Ret (_, p0, _) =>
      match fx_run 100 5 (zlen demo_block) (fx_start p0) demo_fx_ops with
      | Ret f => bool_decide (rx_out (fx_rx f) = demo_block) && mm_goodbye (rx_node (fx_rx f)) && fx_calm 100 5 (zlen demo_block) (fx_start p0) demo_fx_ops
      | _ => false
      end &&
      match fx_run 100 5 (zlen demo_block) (fx_start p0) demo_race with
      | Panic msg => bool_decide (msg = "index out of range"%string) && negb (fx_calm 100 5 (zlen demo_block) (fx_start p0) demo_race)
      | _ => false
      end
  | _ => false
  end = true.
Proof. vm_compute. reflexivity. Qed.
