(* ===== verification/Gf2.v ===== *)
(** * Linear algebra over GF(2)

    Vectors of bits (rows of a matrix) and of symbols (equally long byte lists
    under [xorv]), their product [dot], and Gauss-Jordan elimination on systems
    of equations, as the Raptor code uses them. *)

From stdpp Require Import base list numbers.
From Stdlib Require Import ZArith Lia.
From S2P Require Import Prelude Raptor.

Abbreviation bits := (Forall (λ x : Z, x = 0 ∨ x = 1)).

(** ** Sums of vectors *)

Lemma length_xorv a b n : length a = n → length b = n → length (xorv a b) = n.
Proof. intros Ha Hb. unfold xorv. rewrite length_zip_with. lia. Qed.

Lemma xorv_cons x a y b : xorv (x :: a) (y :: b) = Z.lxor x y :: xorv a b.
Proof. done. Qed.

Lemma xorv_comm a b : xorv a b = xorv b a.
Proof.
  revert b. induction a as [|x a IH]; intros [|y b]; try done. by rewrite !xorv_cons, Z.lxor_comm, IH.
Qed.

Lemma xorv_assoc a b c : xorv (xorv a b) c = xorv a (xorv b c).
Proof.
  revert b c. induction a as [|x a IH]; intros [|y b] [|z c]; try done. by rewrite !xorv_cons, Z.lxor_assoc, IH.
Qed.

Lemma xorv_zeros_r a : xorv a (replicate (length a) 0) = a.
Proof. induction a as [|x a IH]; [done|]. cbn [length replicate]. by rewrite xorv_cons, Z.lxor_0_r, IH. Qed.

Lemma xorv_zeros_l n a : length a = n → xorv (replicate n 0) a = a.
Proof. intros <-. by rewrite xorv_comm, xorv_zeros_r. Qed.

Lemma xorv_self a : xorv a a = replicate (length a) 0.
Proof. induction a as [|x a IH]; [done|]. cbn [length replicate]. by rewrite xorv_cons, Z.lxor_nilpotent, IH. Qed.

Lemma xorv_cancel a b n : length a = n → length b = n → xorv (xorv a b) b = a.
Proof. intros Ha Hb. rewrite xorv_assoc, xorv_self, Hb, <-Ha. apply xorv_zeros_r. Qed.

Lemma xorv_swap a b c : xorv (xorv a b) c = xorv (xorv a c) b.
Proof. by rewrite !xorv_assoc, (xorv_comm b). Qed.

Lemma xorv_inj_l a b c n : length a = n → length b = n → length c = n → xorv a c = xorv b c → a = b.
Proof.
  intros Ha Hb Hc H. rewrite <-(xorv_cancel a c n), H by done. by apply (xorv_cancel b c n).
Qed.

Lemma xorv_eq_zeros a b n : length a = n → length b = n → xorv a b = replicate n 0 → a = b.
Proof.
  intros Ha Hb H. apply (xorv_inj_l a b b n); [done..|]. by rewrite H, xorv_self, Hb.
Qed.

Lemma bits_xorv a b : bits a → bits b → bits (xorv a b).
Proof.
  intros Ha. revert b. induction Ha as [|x a Hx Ha IH]; intros b Hb; [constructor|].
  destruct Hb as [|y b Hy Hb]; [constructor|]. rewrite xorv_cons. constructor; [|by apply IH].
  destruct Hx as [-> | ->], Hy as [-> | ->]; auto.
Qed.

Lemma bits_zeros n : bits (replicate n 0).
Proof. apply Forall_replicate. by left. Qed.

Lemma lookup_xorv a b i x y : a !! i = Some x → b !! i = Some y → xorv a b !! i = Some (Z.lxor x y).
Proof. intros Ha Hb. unfold xorv. rewrite lookup_zip_with, Ha. simpl. by rewrite Hb. Qed.

(** ** The product of a row and a vector of symbols *)

Fixpoint dot (n : nat) (r : list Z) (c : list (list Z)) : list Z :=
  match r, c with
  | x :: r, s :: c => if x =? 1 then xorv s (dot n r c) else dot n r c
  | _, _ => replicate n 0
  end.

Abbreviation syms n := (Forall (λ s : list Z, length s = n)).

Section Dot.
Context (n : nat).
Implicit Types (r : list Z) (c : list (list Z)).

Lemma length_dot r c : syms n c → length (dot n r c) = n.
Proof.
  intros Hc. revert r. induction Hc as [|s c Hs Hc IH]; intros [|x r]; simpl; try apply length_replicate.
  destruct (x =? 1); [by apply length_xorv|done].
Qed.

Lemma dot_xorv_row r r' c :
  bits r → bits r' → length r = length r' → syms n c → dot n (xorv r r') c = xorv (dot n r c) (dot n r' c).
Proof.
  intros Hr. revert r' c. induction Hr as [|x r Hx Hr IH]; intros [|y r'] c Hr' Hl Hc; try done.
  { simpl. symmetry. apply xorv_zeros_l, length_replicate. }
  apply Forall_cons_1 in Hr' as [Hy Hr']. destruct Hc as [|s c Hs Hc].
  { simpl. symmetry. apply xorv_zeros_l, length_replicate. }
  rewrite xorv_cons. cbn [dot]. rewrite (IH r' c) by (done || (simpl in Hl; lia)).
  pose proof (length_dot r c Hc). pose proof (length_dot r' c Hc).
  destruct Hx as [-> | ->], Hy as [-> | ->]; simpl.
  - done.
  - by rewrite <-xorv_assoc, (xorv_comm s), xorv_assoc.
  - by rewrite xorv_assoc.
  - by rewrite (xorv_comm s), xorv_assoc, <-(xorv_assoc s s), xorv_self, Hs, xorv_zeros_l.
Qed.

Lemma dot_xorv_symbols r c c' :
  length c = length c' → syms n c → syms n c' →
  dot n r (zip_with xorv c c') = xorv (dot n r c) (dot n r c').
Proof.
  intros Hl Hc. revert r c' Hl. induction Hc as [|s c Hs Hc IH]; intros [|x r] [|s' c'] Hl Hc';
    try done; try (symmetry; apply xorv_zeros_l, length_replicate).
  apply Forall_cons_1 in Hc' as [Hs' Hc']. cbn [zip_with dot]. rewrite IH by (done || (simpl in Hl; lia)).
  destruct (x =? 1); [|done]. rewrite !xorv_assoc. f_equal. rewrite <-!xorv_assoc. by rewrite (xorv_comm s').
Qed.

Lemma dot_zeros k c : syms n c → dot n (replicate k 0) c = replicate n 0.
Proof. revert c. induction k as [|k IH]; intros [|s c] Hc; try done. simpl. apply IH. by inversion Hc. Qed.

Lemma dot_zero_symbols r k : dot n r (replicate k (replicate n 0)) = replicate n 0.
Proof.
  revert r. induction k as [|k IH]; intros [|x r]; try done. simpl. rewrite IH.
  destruct (x =? 1); [|done]. apply xorv_zeros_l, length_replicate.
Qed.

Lemma dot_app r r' c c' :
  length r = length c → syms n c → syms n c' →
  dot n (r ++ r') (c ++ c') = xorv (dot n r c) (dot n r' c').
Proof.
  intros Hl Hc Hc'. revert r Hl. induction Hc as [|s c Hs Hc IH]; intros [|x r] Hl; try done.
  { symmetry. apply xorv_zeros_l. by apply length_dot. }
  cbn [app dot]. rewrite IH by (simpl in Hl; lia). destruct (x =? 1); [|done]. by rewrite xorv_assoc.
Qed.

(** The entries beyond the symbols do not count. *)
Lemma dot_take r c k : (length c <= k)%nat → dot n (take k r) c = dot n r c.
Proof.
  revert r k. induction c as [|s c IH]; intros [|x r] [|k] Hk; simpl in *; try done; try lia.
  by rewrite IH by lia.
Qed.

(** A row with a single one. *)
Definition unit (k i : nat) : list Z := <[i := 1]> (replicate k 0).

Lemma dot_unit k i c s : c !! i = Some s → (i < k)%nat → syms n c → dot n (unit k i) c = s.
Proof.
  unfold unit. revert k c. induction i as [|i IH]; intros [|k] [|s' c] Hs Hi Hc; simpl in *; try done; try lia.
  - simplify_eq. apply Forall_cons_1 in Hc as [Hs Hc]. rewrite dot_zeros by done. rewrite <-Hs. apply xorv_zeros_r.
  - apply IH; [done|lia|by inversion Hc].
Qed.

(** *** Updates *)

(** [row[b] ^= 1]. *)
Definition flip (b : nat) (r : list Z) : list Z := alter (λ x, Z.lxor x 1) b r.

Lemma bits_flip b r : bits r → bits (flip b r).
Proof. intros Hr. apply Forall_alter; [done|]. intros x _ [-> | ->]; auto. Qed.

Lemma length_flip b r : length (flip b r) = length r.
Proof. apply length_alter. Qed.

Lemma dot_flip b r c s :
  bits r → c !! b = Some s → (b < length r)%nat → syms n c → dot n (flip b r) c = xorv (dot n r c) s.
Proof.
  intros Hr. revert b c. induction Hr as [|x r Hx Hr IH]; intros [|b] [|s' c] Hs Hb Hc; simpl in *; try done; try lia.
  - simplify_eq. apply Forall_cons_1 in Hc as [Hs Hc]. pose proof (length_dot r c Hc).
    destruct Hx as [-> | ->]; simpl.
    + apply xorv_comm.
    + rewrite (xorv_comm s). symmetry. by apply (xorv_cancel _ _ n).
  - apply Forall_cons_1 in Hc as [_ Hc]. rewrite (IH b c) by (done || lia).
    destruct (x =? 1); [|done]. by rewrite xorv_assoc.
Qed.

Lemma dot_add r c t s d :
  c !! t = Some d → (t < length r)%nat →
  dot n r (<[t := xorv d s]> c) = if (default 0 (r !! t) =? 1) then xorv (dot n r c) s else dot n r c.
Proof.
  revert c t. induction r as [|x r IH]; intros [|s' c] [|t] Hd Ht; simpl in *; try done; try lia.
  - simplify_eq. destruct (x =? 1); [|done]. by rewrite !xorv_assoc, (xorv_comm s).
  - rewrite IH by (done || lia). destruct (default 0 (r !! t) =? 1), (x =? 1); try done. by rewrite xorv_assoc.
Qed.

End Dot.

Lemma Forall_zip_xorv (P : list Z → Prop) c c' :
  (∀ a b, P a → P b → P (xorv a b)) → Forall P c → Forall P c' → Forall P (zip_with xorv c c').
Proof.
  intros HP Hc. revert c'. induction Hc as [|a c Ha Hc IH]; intros c' Hc'; [done|].
  destruct Hc' as [|b c' Hb Hc']; [done|]. simpl. constructor; auto.
Qed.

(** Sums of bytes are bytes. *)

Lemma byte_lxor x y : is_byte x → is_byte y → is_byte (Z.lxor x y).
Proof.
  unfold uint. intros Hx Hy. assert (0 <= Z.lxor x y) by (apply Z.lxor_nonneg; lia). split; [done|].
  apply Z.bounded_iff_bits_nonneg; [done|done|]. intros l Hl. rewrite Z.lxor_spec.
  rewrite (proj1 (Z.bounded_iff_bits_nonneg 8 x ltac:(done) ltac:(lia)) ltac:(lia) l Hl).
  by rewrite (proj1 (Z.bounded_iff_bits_nonneg 8 y ltac:(done) ltac:(lia)) ltac:(lia) l Hl).
Qed.

Lemma bytes_xorv a b : bytes_ok a → bytes_ok b → bytes_ok (xorv a b).
Proof.
  intros Ha. revert b. induction Ha as [|x a Hx Ha IH]; intros b Hb; [done|].
  destruct Hb as [|y b Hy Hb]; [done|]. rewrite xorv_cons. constructor; [by apply byte_lxor|by apply IH].
Qed.

Lemma bytes_zeros n : bytes_ok (replicate n 0).
Proof. by apply Forall_replicate. Qed.

Lemma bytes_dot n r c : Forall bytes_ok c → bytes_ok (dot n r c).
Proof.
  intros Hc. revert r. induction Hc as [|s c Hs Hc IH]; intros [|x r]; simpl; try apply bytes_zeros.
  destruct (x =? 1); [|done]. apply bytes_xorv; [done|apply IH].
Qed.

(** ** Adding symbols to symbols

    [(s, t)] adds symbol [s] to symbol [t]; on a row it adds entry [t] to entry
    [s].  The two are adjoint with respect to [dot]. *)

Definition op_sym (o : nat * nat) (c : list (list Z)) : list (list Z) :=
  match c !! o.1, c !! o.2 with
  | Some src, Some dst => <[o.2 := xorv dst src]> c
  | _, _ => c
  end.

Definition op_row (o : nat * nat) (r : list Z) : list Z :=
  if default 0 (r !! o.2) =? 1 then flip o.1 r else r.

Definition ops_sym (ops : list (nat * nat)) (c : list (list Z)) : list (list Z) :=
  fold_left (λ c o, op_sym o c) ops c.

Definition ops_row (ops : list (nat * nat)) (r : list Z) : list Z :=
  fold_left (λ r o, op_row o r) ops r.

Lemma length_op_sym o c : length (op_sym o c) = length c.
Proof.
  unfold op_sym. destruct (c !! o.1), (c !! o.2); try done. apply length_insert.
Qed.

Lemma length_ops_sym ops c : length (ops_sym ops c) = length c.
Proof.
  unfold ops_sym. revert c. induction ops as [|o ops IH]; intros c; [done|]. simpl. by rewrite IH, length_op_sym.
Qed.

Lemma syms_op_sym n o c : syms n c → syms n (op_sym o c).
Proof.
  intros Hc. unfold op_sym. destruct (c !! o.1) as [a|] eqn:Ea; [|done].
  destruct (c !! o.2) as [b|] eqn:Eb; [|done]. apply Forall_insert; [done|].
  apply length_xorv; by eapply (Forall_lookup_1 _ _ _ _ Hc).
Qed.

Lemma syms_ops_sym n ops c : syms n c → syms n (ops_sym ops c).
Proof.
  unfold ops_sym. revert c. induction ops as [|o ops IH]; intros c Hc; [done|]. simpl. by apply IH, syms_op_sym.
Qed.

Lemma length_op_row o r : length (op_row o r) = length r.
Proof. unfold op_row. destruct (_ =? 1); [apply length_flip|done]. Qed.

Lemma length_ops_row ops r : length (ops_row ops r) = length r.
Proof.
  unfold ops_row. revert r. induction ops as [|o ops IH]; intros r; [done|]. simpl. by rewrite IH, length_op_row.
Qed.

Lemma bits_op_row o r : bits r → bits (op_row o r).
Proof. intros Hr. unfold op_row. destruct (_ =? 1); [by apply bits_flip|done]. Qed.

Lemma bits_ops_row ops r : bits r → bits (ops_row ops r).
Proof.
  unfold ops_row. revert r. induction ops as [|o ops IH]; intros r Hr; [done|]. simpl. by apply IH, bits_op_row.
Qed.

Lemma ops_sym_app ops ops' c : ops_sym (ops ++ ops') c = ops_sym ops' (ops_sym ops c).
Proof. apply fold_left_app. Qed.

Lemma ops_row_app ops ops' r : ops_row (ops ++ ops') r = ops_row ops' (ops_row ops r).
Proof. apply fold_left_app. Qed.

Lemma dot_op n o r c :
  bits r → length r = length c → syms n c → (o.1 < length c)%nat → (o.2 < length c)%nat →
  dot n (op_row o r) c = dot n r (op_sym o c).
Proof.
  intros Hr Hl Hc Hs Ht. unfold op_row, op_sym.
  destruct (lookup_lt_is_Some_2 c o.1 Hs) as [a Ha]. destruct (lookup_lt_is_Some_2 c o.2 Ht) as [b Hb].
  rewrite Ha, Hb. rewrite (dot_add n r c o.2 a b Hb) by lia.
  destruct (default 0 (r !! o.2) =? 1); [|done]. apply dot_flip; [done|done|lia|done].
Qed.

Lemma dot_ops n ops r c :
  bits r → length r = length c → syms n c →
  Forall (λ o, o.1 < length c ∧ o.2 < length c)%nat ops →
  dot n (ops_row ops r) c = dot n r (ops_sym (reverse ops) c).
Proof.
  intros Hr Hl Hc Hops. revert r Hr Hl. induction Hops as [|o ops [Ho1 Ho2] Hops IH]; intros r Hr Hl; [done|].
  rewrite reverse_cons, ops_sym_app. cbn [ops_row fold_left]. fold (ops_row ops (op_row o r)).
  rewrite IH; [|by apply bits_op_row|by rewrite length_op_row].
  pose proof (length_ops_sym (reverse ops) c) as Hlen.
  apply dot_op; rewrite ?Hlen; try done. by apply syms_ops_sym.
Qed.

(** Additions whose sources are not targets commute. *)
Lemma op_sym_comm o o' c :
  o.1 ≠ o'.2 → o'.1 ≠ o.2 → op_sym o (op_sym o' c) = op_sym o' (op_sym o c).
Proof.
  intros H1 H2. unfold op_sym.
  destruct (c !! o'.1) as [a'|] eqn:Ea', (c !! o'.2) as [b'|] eqn:Eb',
    (c !! o.1) as [a|] eqn:Ea, (c !! o.2) as [b|] eqn:Eb;
    rewrite ?Ea', ?Eb', ?Ea, ?Eb; try done; rewrite ?list_lookup_insert_ne, ?Ea, ?Ea', ?Eb, ?Eb' by done; try done;
    destruct (decide (o.2 = o'.2)) as [He|Hne];
    rewrite ?He in *; simplify_eq; rewrite ?list_lookup_insert_ne, ?list_lookup_insert_eq, ?Eb, ?Eb'
      by (done || by eapply lookup_lt_Some); try done.
  - rewrite list_lookup_insert_ne, Ea' by done. by rewrite !list_insert_insert_eq, xorv_swap.
  - rewrite Ea'. by rewrite list_insert_insert_ne.
Qed.

Lemma ops_sym_perm (X : nat) ops ops' c :
  Forall (λ o, o.1 < X ∧ X <= o.2)%nat ops → ops ≡ₚ ops' → ops_sym ops c = ops_sym ops' c.
Proof.
  intros Hops Hp. revert c Hops. unfold ops_sym. induction Hp as [|o l l' Hp IH|o o' l|l1 l2 l3 Hp1 IH1 Hp2 IH2]; intros c Hops.
  - done.
  - simpl. apply IH. by inversion Hops.
  - simpl. apply Forall_cons_1 in Hops as [? Hops]. apply Forall_cons_1 in Hops as [? _].
    rewrite op_sym_comm by lia. done.
  - rewrite IH1 by done. apply IH2. by rewrite <-Hp1.
Qed.

(** Two nested loops in either order. *)
Lemma flat_map_swap {A B C} (f : A → B → list C) (la : list A) (lb : list B) :
  flat_map (λ a, flat_map (λ b, f a b) lb) la ≡ₚ flat_map (λ b, flat_map (λ a, f a b) la) lb.
Proof.
  assert (∀ (g h : B → list C) l, flat_map (λ b, g b ++ h b) l ≡ₚ flat_map g l ++ flat_map h l) as Happ.
  { intros g h l. induction l as [|b l IH]; [done|]. simpl. rewrite IH, <-!(assoc_L (++)). f_equiv.
    rewrite !(assoc_L (++)). f_equiv. apply Permutation_app_comm. }
  induction la as [|a la IH]; simpl.
  - induction lb as [|b lb IHb]; [done|]. simpl. exact IHb.
  - rewrite IH, Happ. done.
Qed.

(** ** Systems of equations

    An equation [(a, b)] says that the product of the row [a] with the unknowns is
    [f b]; [f] is additive on the right-hand sides that are [ok]. *)

Section Systems.
Context (K n : nat) (ok : list Z → Prop) (f : list Z → list Z).
Context (Hok : ∀ b b', ok b → ok b' → ok (xorv b b')).
Context (Hf : ∀ b b', ok b → ok b' → f (xorv b b') = xorv (f b) (f b')).
Context (Hfl : ∀ b, ok b → length (f b) = n).

Definition eq_wf (e : list Z * list Z) : Prop := length e.1 = K ∧ bits e.1 ∧ ok e.2.
Definition solves (c : list (list Z)) (e : list Z * list Z) : Prop := dot n e.1 c = f e.2.

Definition add_eq (e e' : list Z * list Z) : list Z * list Z := (xorv e.1 e'.1, xorv e.2 e'.2).

(** Equation [i] plus equation [j]. *)
Definition addr (i j : nat) (sys : list (list Z * list Z)) : list (list Z * list Z) :=
  match sys !! i, sys !! j with
  | Some e, Some e' => <[i := add_eq e e']> sys
  | _, _ => sys
  end.

Definition entry (sys : list (list Z * list Z)) (i j : nat) : Z :=
  from_option (λ e : list Z * list Z, default 0 (e.1 !! j)) 0 (sys !! i).

(** Column [k] is that of the unit matrix. *)
Definition unit_col (sys : list (list Z * list Z)) (k : nat) : Prop :=
  ∀ i e, sys !! i = Some e → e.1 !! k = Some (if decide (i = k) then 1 else 0).

Lemma add_eq_wf e e' : eq_wf e → eq_wf e' → eq_wf (add_eq e e').
Proof.
  intros (Hl & Hb & Ho) (Hl' & Hb' & Ho'). split; [by apply length_xorv|]. split; [by apply bits_xorv|by apply Hok].
Qed.

Lemma solves_add c e e' :
  syms n c → eq_wf e → eq_wf e' → solves c e' → solves c (add_eq e e') ↔ solves c e.
Proof.
  intros Hc (Hl & Hb & Ho) (Hl' & Hb' & Ho') Hs'. unfold solves, add_eq in *. simpl.
  rewrite dot_xorv_row, Hf, Hs' by (done || congruence). split; [|by intros ->].
  apply (xorv_inj_l _ _ _ n); auto. by apply length_dot.
Qed.

Lemma length_addr i j sys : length (addr i j sys) = length sys.
Proof. unfold addr. destruct (sys !! i), (sys !! j); try done. apply length_insert. Qed.

Lemma addr_wf i j sys : Forall eq_wf sys → Forall eq_wf (addr i j sys).
Proof.
  intros Hs. unfold addr. destruct (sys !! i) eqn:Ei, (sys !! j) eqn:Ej; try done.
  apply Forall_insert; [done|]. apply add_eq_wf; by eapply Forall_lookup_1.
Qed.

Lemma addr_lookup i j sys i' :
  (i < length sys)%nat → (j < length sys)%nat →
  addr i j sys !! i' = if decide (i' = i) then (e ← sys !! i; e' ← sys !! j; Some (add_eq e e')) else sys !! i'.
Proof.
  intros Hi Hj. unfold addr. destruct (lookup_lt_is_Some_2 sys i Hi) as [e He].
  destruct (lookup_lt_is_Some_2 sys j Hj) as [e' He']. rewrite He, He'.
  destruct (decide (i' = i)) as [->|]; [by rewrite list_lookup_insert_eq|by rewrite list_lookup_insert_ne].
Qed.

(** Adding an equation to another one does not change the solutions. *)
Lemma addr_solves c i j sys :
  syms n c → Forall eq_wf sys → i ≠ j → Forall (solves c) (addr i j sys) ↔ Forall (solves c) sys.
Proof.
  intros Hc Hs Hij. unfold addr. destruct (sys !! i) as [e|] eqn:Ei; [|done].
  destruct (sys !! j) as [e'|] eqn:Ej; [|done].
  pose proof (Forall_lookup_1 _ _ _ _ Hs Ei) as He. pose proof (Forall_lookup_1 _ _ _ _ Hs Ej) as He'.
  rewrite !Forall_lookup. split; intros H k x Hk.
  - assert (solves c e') as Hj by (apply (H j); by rewrite list_lookup_insert_ne).
    destruct (decide (k = i)) as [->|Hne].
    + assert (x = e) as -> by congruence. apply (solves_add c e e' Hc He He' Hj). apply (H i).
      apply list_lookup_insert_eq. by eapply lookup_lt_Some.
    + apply (H k). by rewrite list_lookup_insert_ne.
  - destruct (decide (k = i)) as [->|Hne].
    + rewrite list_lookup_insert_eq in Hk by (by eapply lookup_lt_Some). simplify_eq.
      apply solves_add; eauto.
    + rewrite list_lookup_insert_ne in Hk by done. eauto.
Qed.

(** *** Clearing a column *)

Definition clear1 (j i : nat) (sys : list (list Z * list Z)) : list (list Z * list Z) :=
  if (entry sys i j =? 1) && negb (i =? j)%nat then addr i j sys else sys.

Definition clear (j : nat) (sys : list (list Z * list Z)) : list (list Z * list Z) :=
  fold_left (λ sys i, clear1 j i sys) (seq 0 (length sys)) sys.

(** The state of the loop when the rows before [m] are done. *)
Record clearing (sys0 : list (list Z * list Z)) (j m : nat) (e : list Z * list Z) (sys : list (list Z * list Z)) : Prop := {
  cl_wf : Forall eq_wf sys;
  cl_len : length sys = length sys0;
  cl_sol : ∀ c, syms n c → Forall (solves c) sys ↔ Forall (solves c) sys0;
  cl_pivot : sys !! j = Some e;
  cl_cols : ∀ k, (k < j)%nat → unit_col sys k;
  cl_done : ∀ i, (i < m)%nat → i ≠ j → entry sys i j = 0;
}.

Lemma clear1_step sys0 j m e sys :
  clearing sys0 j m e sys → e.1 !! j = Some 1 → (m < length sys0)%nat →
  clearing sys0 j (S m) e (clear1 j m sys).
Proof.
  intros [Hwf Hlen Hsol Hpiv Hcols Hdone] He Hm. unfold clear1.
  destruct (decide (m = j)) as [->|Hne].
  { rewrite Nat.eqb_refl, andb_false_r. split; try done. intros i Hi Hij. apply Hdone; lia. }
  rewrite (proj2 (Nat.eqb_neq m j)), andb_true_r by done.
  destruct (lookup_lt_is_Some_2 sys m ltac:(lia)) as [x Hx].
  pose proof (Forall_lookup_1 _ _ _ _ Hwf Hx) as (Hxl & Hxb & _).
  assert (j < K)%nat as HjK.
  { pose proof (Forall_lookup_1 _ _ _ _ Hwf Hpiv) as (Hl & _). rewrite <-Hl. by eapply lookup_lt_Some. }
  destruct (lookup_lt_is_Some_2 x.1 j ltac:(lia)) as [y Hy].
  assert (entry sys m j = y) as Hent by (unfold entry; rewrite Hx; simpl; by rewrite Hy).
  pose proof (lookup_lt_Some _ _ _ Hpiv) as Hj.
  destruct (Z.eqb_spec (entry sys m j) 1) as [H1|H1].
  - pose proof (λ i, addr_lookup m j sys i ltac:(lia) Hj) as Hlook.
    split.
    + by apply addr_wf.
    + by rewrite length_addr.
    + intros c Hc. rewrite addr_solves by done. by apply Hsol.
    + rewrite Hlook, decide_False by done. done.
    + intros k Hk i z Hz. rewrite Hlook in Hz. destruct (decide (i = m)) as [->|]; [|by apply (Hcols k Hk)].
      rewrite Hx, Hpiv in Hz. simpl in Hz. simplify_eq. simpl.
      rewrite (lookup_xorv _ _ _ _ _ (Hcols k Hk m x Hx) (Hcols k Hk j e Hpiv)).
      rewrite (decide_False (P := j = k)) by lia. by rewrite Z.lxor_0_r.
    + intros i Hi Hij. unfold entry. rewrite Hlook. destruct (decide (i = m)) as [->|].
      * rewrite Hx, Hpiv. simpl. rewrite Hent in H1. rewrite H1 in Hy. by rewrite (lookup_xorv _ _ _ _ _ Hy He).
      * apply Hdone; [lia|done].
  - split; try done. intros i Hi Hij. destruct (decide (i = m)) as [->|]; [|apply Hdone; [lia|done]].
    rewrite Hent in *. destruct (Forall_lookup_1 _ _ _ _ Hxb Hy) as [|]; congruence.
Qed.

Lemma clear_spec j e sys :
  Forall eq_wf sys → (∀ k, (k < j)%nat → unit_col sys k) → sys !! j = Some e → e.1 !! j = Some 1 →
  Forall eq_wf (clear j sys) ∧ length (clear j sys) = length sys ∧
  (∀ c, syms n c → Forall (solves c) (clear j sys) ↔ Forall (solves c) sys) ∧
  ∀ k, (k < S j)%nat → unit_col (clear j sys) k.
Proof.
  intros Hwf Hcols Hpiv He.
  assert (∀ m, (m <= length sys)%nat →
    clearing sys j m e (fold_left (λ sys i, clear1 j i sys) (seq 0 m) sys)) as Hloop.
  { induction m as [|m IH]; intros Hm; [by split; try done; lia|].
    rewrite seq_S, fold_left_app. cbn [fold_left]. apply clear1_step; [apply IH; lia|done|lia]. }
  specialize (Hloop (length sys) ltac:(done)). fold (clear j sys) in Hloop.
  destruct Hloop as [Hwf' Hlen Hsol Hpiv' Hcols' Hdone]. split_and!; try done.
  intros k Hk. destruct (decide (k = j)) as [->|]; [|apply Hcols'; lia].
  intros i x Hx. destruct (decide (i = j)) as [->|Hne]; [congruence|].
  pose proof (Forall_lookup_1 _ _ _ _ Hwf' Hx) as (Hxl & _).
  pose proof (Forall_lookup_1 _ _ _ _ Hwf' Hpiv') as (Hel & _).
  destruct (lookup_lt_is_Some_2 x.1 j) as [y Hy].
  { rewrite Hxl, <-Hel. by eapply lookup_lt_Some. }
  pose proof (Hdone i ltac:(rewrite <-Hlen; by eapply lookup_lt_Some) Hne) as H0.
  unfold entry in H0. rewrite Hx in H0. simpl in H0. rewrite Hy in *. simpl in H0. by subst.
Qed.

(** *** The solution *)

Lemma unit_cols_row sys i e :
  Forall eq_wf sys → (∀ k, (k < K)%nat → unit_col sys k) → sys !! i = Some e → (i < K)%nat → e.1 = unit K i.
Proof.
  intros Hwf Hcols He Hi. pose proof (Forall_lookup_1 _ _ _ _ Hwf He) as (Hl & _).
  apply list_eq. intros k. unfold unit. destruct (decide (k < K)%nat) as [Hk|Hk].
  - rewrite (Hcols k Hk i e He). destruct (decide (i = k)) as [->|].
    + by rewrite list_lookup_insert_eq by (by rewrite length_replicate).
    + rewrite list_lookup_insert_ne by done. symmetry. by apply lookup_replicate_2.
  - rewrite !lookup_ge_None_2; [done|rewrite length_insert, length_replicate; lia|lia].
Qed.

Lemma solved c sys i e s :
  Forall eq_wf sys → (∀ k, (k < K)%nat → unit_col sys k) → Forall (solves c) sys → syms n c →
  sys !! i = Some e → (i < K)%nat → c !! i = Some s → f e.2 = s.
Proof.
  intros Hwf Hcols Hsol Hc He Hi Hs. pose proof (Forall_lookup_1 _ _ _ _ Hsol He) as H. unfold solves in H.
  rewrite (unit_cols_row sys i e) in H by done. rewrite <-H. by apply dot_unit.
Qed.

(** *** No pivot

    When the columns before [j] are unit columns and no row from [j] on has an
    entry in column [j], the unknowns are not determined: [kernel] solves the
    homogeneous system. *)

Definition kernel (j : nat) (sys : list (list Z * list Z)) (s : list Z) : list (list Z) :=
  ((λ k, if entry sys k j =? 1 then s else replicate n 0) <$> seq 0 j) ++
  s :: replicate (K - S j) (replicate n 0).

Lemma kernel_syms j sys s : length s = n → syms n (kernel j sys s).
Proof.
  intros Hs. apply Forall_app. split; [|constructor; [done|apply Forall_replicate, length_replicate]].
  apply Forall_fmap, Forall_forall. intros k _. simpl. destruct (_ =? 1); [done|apply length_replicate].
Qed.

Lemma length_kernel j sys s : (j < K)%nat → length (kernel j sys s) = K.
Proof. intros Hj. unfold kernel. rewrite length_app, length_fmap, length_seq. simpl. rewrite length_replicate. lia. Qed.

Lemma take_unit_row sys j i e :
  Forall eq_wf sys → (∀ k, (k < j)%nat → unit_col sys k) → sys !! i = Some e → (j <= K)%nat →
  take j e.1 = if decide (i < j)%nat then unit j i else replicate j 0.
Proof.
  intros Hwf Hcols He Hj. pose proof (Forall_lookup_1 _ _ _ _ Hwf He) as (Hl & _).
  apply list_eq. intros k. destruct (decide (k < j)%nat) as [Hk|Hk].
  - rewrite lookup_take_lt, (Hcols k Hk i e He) by done. destruct (decide (i < j)%nat), (decide (i = k)) as [->|Hne]; try lia.
    + unfold unit. by rewrite list_lookup_insert_eq by (by rewrite length_replicate).
    + unfold unit. rewrite list_lookup_insert_ne by done. symmetry. by apply lookup_replicate_2.
    + symmetry. by apply lookup_replicate_2.
  - rewrite !lookup_ge_None_2; [done| |rewrite length_take; lia].
    destruct (decide _); unfold unit; rewrite ?length_insert, length_replicate; lia.
Qed.

Lemma kernel_solves sys j s :
  Forall eq_wf sys → (∀ k, (k < j)%nat → unit_col sys k) → (j < K)%nat → length s = n →
  (∀ i, (j <= i)%nat → entry sys i j = 0) →
  Forall (λ e, dot n e.1 (kernel j sys s) = replicate n 0) sys.
Proof.
  intros Hwf Hcols HjK Hs Hzero. apply Forall_lookup. intros i e He.
  pose proof (Forall_lookup_1 _ _ _ _ Hwf He) as (Hl & _).
  destruct (lookup_lt_is_Some_2 e.1 j ltac:(lia)) as [v Hv].
  assert (entry sys i j = v) as Hent by (unfold entry; rewrite He; simpl; by rewrite Hv).
  rewrite <-(take_drop_middle _ _ _ Hv), (take_unit_row sys j i e) by (done || lia).
  unfold kernel. set (Y := _ <$> seq 0 j). assert (length Y = j) as HY by (unfold Y; by rewrite length_fmap, length_seq).
  pose proof (kernel_syms j sys s Hs) as Hk. unfold kernel in Hk. fold Y in Hk.
  apply Forall_app in Hk as [HYs Hrest].
  rewrite dot_app; [|destruct (decide _); unfold unit; rewrite ?length_insert, length_replicate; lia|done|done].
  cbn [dot]. rewrite dot_zero_symbols.
  assert (xorv s (replicate n 0) = s) as Hs0 by (rewrite <-Hs; apply xorv_zeros_r). rewrite Hs0.
  destruct (decide (i < j)%nat) as [Hi|Hi].
  - rewrite (dot_unit n j i Y (if v =? 1 then s else replicate n 0)); [|..|done|done].
    + destruct (v =? 1); [by rewrite xorv_self, Hs|]. by rewrite xorv_zeros_l by apply length_replicate.
    + unfold Y. rewrite list_lookup_fmap, lookup_seq_lt by done. simpl. by rewrite Hent.
  - rewrite dot_zeros by done. rewrite <-Hent, Hzero by lia. simpl. by rewrite xorv_zeros_l by apply length_replicate.
Qed.
End Systems.
