(* ===== verification/RaptorCode.v ===== *)
(** * The Raptor code, step by step

    Each loop of [Raptor] as an operation of [Gf2]: the LDPC and half symbols
    ([ext]) and their counterpart on the rows of the matrix ([eff]), the LT code,
    and Gauss-Jordan elimination. *)

From stdpp Require Import base list numbers.
From Stdlib Require Import ZArith Lia Zdivisibility.
From S2P Require Import Prelude Config Monitor RaptorTables Raptor Gf2.

(** ** Loops *)

Lemma mapO_run {A B} (f : A → outcome B) (g : A → B) l :
  (∀ a, a ∈ l → f a = Ret (g a)) → mapO f l = Ret (g <$> l).
Proof.
  induction l as [|a l IH]; intros H; [done|]. cbn [mapO]. rewrite (H a) by left. cbn [mbind outcome_bind].
  rewrite IH by (intros; apply H; by right). done.
Qed.

Lemma mapO_inv {A B} (f : A → outcome B) l bs :
  mapO f l = Ret bs → Forall2 (λ a b, f a = Ret b) l bs.
Proof.
  revert bs. induction l as [|a l IH]; intros bs H; cbn [mapO] in H; [by simplify_eq|].
  destruct (f a) as [b| |] eqn:E; cbn [mbind outcome_bind] in H; try done.
  destruct (mapO f l) as [bs'| |]; cbn [mbind outcome_bind] in H; try done. simplify_eq. constructor; auto.
Qed.

(** A loop that acts on its state by the operations [g a] of its rounds. *)
Lemma foldO_flat {A B O} (act : list O → B → B) (I : B → Prop) (f : A → B → outcome B) (g : A → list O) l b :
  (∀ b, act [] b = b) → (∀ x y b, act (x ++ y) b = act y (act x b)) → (∀ x b, I b → I (act x b)) →
  (∀ a b, a ∈ l → I b → f a b = Ret (act (g a) b)) → I b →
  foldO f l b = Ret (act (flat_map g l) b).
Proof.
  intros Hnil Happ HI Hf. revert b. induction l as [|a l IH]; intros b Hb; cbn [foldO flat_map]; [by rewrite Hnil|].
  rewrite Hf by (done || left). cbn [mbind outcome_bind]. rewrite Happ. apply IH; [|by apply HI].
  intros; apply Hf; [by right|done].
Qed.

Lemma index_to_nat {A} (l : list A) (i : Z) x : 0 <= i → l !! Z.to_nat i = Some x → index l i = Ret x.
Proof. intros Hi Hx. apply index_Ret. unfold zget. destruct (Z.ltb_spec i 0); [lia|done]. Qed.

Lemma index_in {A} (l : list A) (i : Z) :
  0 <= i < zlen l → ∃ x, l !! Z.to_nat i = Some x ∧ index l i = Ret x.
Proof.
  intros Hi. destruct (lookup_lt_is_Some_2 l (Z.to_nat i)) as [x Hx]; [unfold zlen in *; lia|].
  exists x. split; [done|]. apply index_to_nat; [lia|done].
Qed.

Lemma seqZ_nat n : seqZ 0 (Z.of_nat n) = Z.of_nat <$> seq 0 n.
Proof. unfold seqZ. rewrite Nat2Z.id. apply list_fmap_ext. intros. lia. Qed.

Lemma seqZ_split n j : 0 <= j < n → seqZ 0 n = seqZ 0 j ++ j :: seqZ (j + 1) (n - j - 1).
Proof.
  intros Hj. replace n with (j + (n - j)) at 1 by lia. rewrite seqZ_app by lia. f_equal.
  rewrite seqZ_cons by lia. rewrite Z.add_0_l. repeat f_equal; lia.
Qed.

Lemma drop_cons_inv {A} (l : list A) i x r : drop i l = x :: r → l !! i = Some x ∧ drop (S i) l = r.
Proof.
  intros H. split.
  - by rewrite <-(Nat.add_0_r i), <-lookup_drop, H.
  - by rewrite <-Nat.add_1_r, <-drop_drop, H.
Qed.

(** A copy of the first [n] rows, each changed by [f]. *)
Lemma map_rows_run {A B} (l : list A) (f : A → outcome B) (g : A → B) n :
  zlen l = n → (∀ a, a ∈ l → f a = Ret (g a)) →
  mapO (λ i, a ← index l i; f a) (seqZ 0 n) = Ret (g <$> l).
Proof.
  intros <- Hf. unfold zlen. rewrite seqZ_nat.
  assert (∀ k l', l = take k l ++ l' → length (take k l) = k →
    mapO (λ i, a ← index l i; f a) (Z.of_nat <$> seq k (length l')) = Ret (g <$> l')) as Hgen.
  { intros k l'. revert k. induction l' as [|x l' IH]; intros k Hl Hk; [done|]. cbn [length seq fmap list_fmap mapO].
    assert (l !! k = Some x) as Hx by (rewrite Hl, lookup_app_r, Hk, Nat.sub_diag by lia; done).
    rewrite (index_to_nat l (Z.of_nat k) x) by (rewrite ?Nat2Z.id; done || lia).
    cbn [mbind outcome_bind]. rewrite Hf by (by eapply list_elem_of_lookup_2). cbn [mbind outcome_bind].
    fold (Z.of_nat <$> seq (S k) (length l')). rewrite IH; [done|..].
    - rewrite (take_S_r _ _ x Hx), <-app_assoc. done.
    - rewrite (take_S_r _ _ x Hx), length_app, Hk. simpl. lia. }
  by apply (Hgen 0%nat l).
Qed.

Lemma mapO_ext {A B} (f g : A → outcome B) l : (∀ a, a ∈ l → f a = g a) → mapO f l = mapO g l.
Proof.
  induction l as [|a l IH]; intros H; [done|]. cbn [mapO]. rewrite (H a) by left.
  rewrite IH by (intros; apply H; by right). done.
Qed.

(** A copy of the first [n] of more rows. *)
Lemma take_rows_run {A B} (l : list A) (f : A → outcome B) (g : A → B) n :
  0 <= n <= zlen l → (∀ a, a ∈ take (Z.to_nat n) l → f a = Ret (g a)) →
  mapO (λ i, a ← index l i; f a) (seqZ 0 n) = Ret (g <$> take (Z.to_nat n) l).
Proof.
  intros Hn Hf. rewrite <-(map_rows_run (take (Z.to_nat n) l) f g n); [|unfold zlen in *; rewrite length_take; lia|done].
  apply mapO_ext. intros i Hi%elem_of_seqZ. unfold index, zget. destruct (Z.ltb_spec i 0); [done|].
  by rewrite lookup_take_lt by lia.
Qed.

Lemma slice_full {A} (l : list A) n : zlen l = n → slice l 0 n = Ret l.
Proof.
  intros <-. unfold slice, zslice, zlen. rewrite bool_decide_true by lia. by rewrite Nat2Z.id, Nat.sub_0_r, drop_0, firstn_all.
Qed.

(** ** Bits *)

Lemma bits_loop_spec fuel count j0 j :
  0 <= count < 2 ^ Z.of_nat fuel → j ∈ bits_loop fuel count j0 ↔ j0 <= j ∧ Z.testbit count (j - j0) = true.
Proof.
  revert count j0. induction fuel as [|fuel IH]; intros count j0 Hc.
  { simpl in Hc. assert (count = 0) as -> by lia. simpl. rewrite Z.bits_0, elem_of_nil. split; [done|by intros [_ ?]]. }
  cbn [bits_loop]. rewrite elem_of_app. rewrite Nat2Z.inj_succ, Z.pow_succ_r in Hc by lia.
  pose proof (Z.bit0_eqb count) as H0.
  assert (∀ k, 0 <= k → Z.testbit count (k + 1) = Z.testbit (count / 2) k) as HS.
  { intros k Hk. by rewrite <-Z.div2_div, Z.div2_spec, Z.shiftr_spec. }
  assert (j ∈ (if count / 2 =? 0 then [] else bits_loop fuel (count / 2) (j0 + 1)) ↔
          j0 + 1 <= j ∧ Z.testbit (count / 2) (j - (j0 + 1)) = true) as Hrec.
  { destruct (Z.eqb_spec (count / 2) 0) as [->|].
    - rewrite Z.bits_0, elem_of_nil. split; [done|by intros [_ ?]].
    - apply IH. zify_div. lia. }
  rewrite Hrec. assert (j ∈ (if count mod 2 =? 1 then [j0] else []) ↔ j = j0 ∧ Z.testbit count 0 = true) as ->.
  { rewrite H0. destruct (count mod 2 =? 1); rewrite ?list_elem_of_singleton, ?elem_of_nil.
    - split; [done|by intros [? _]].
    - split; [done|by intros [_ ?]]. }
  destruct (decide (j = j0)) as [->|Hne].
  - rewrite Z.sub_diag. split; [intros [[_ ?]|[? _]]; [done|lia]|]. intros [_ ?]. by left.
  - split.
    + intros [[? _]|[Hj Hb]]; [done|]. split; [lia|]. replace (j - j0) with (j - (j0 + 1) + 1) by lia.
      by rewrite HS by lia.
    + intros [Hj Hb]. right. split; [lia|]. replace (j - j0) with (j - (j0 + 1) + 1) in Hb by lia.
      by rewrite HS in Hb by lia.
Qed.

(** The fuel of [bit_positions] is enough: it finds all bits. *)
Lemma bit_positions_spec count j :
  0 <= count → j ∈ bit_positions count ↔ 0 <= j ∧ Z.testbit count j = true.
Proof.
  intros Hc. unfold bit_positions. rewrite bits_loop_spec; [by rewrite Z.sub_0_r|].
  split; [done|]. destruct (decide (count = 0)) as [->|]; [done|].
  pose proof (Z.log2_nonneg count). rewrite Z2Nat.id by lia. apply Z.log2_spec. lia.
Qed.

Lemma bit_positions_bound count H j : 0 <= count < 2 ^ H → j ∈ bit_positions count → 0 <= j < H.
Proof.
  intros Hc Hj. apply bit_positions_spec in Hj as [Hj Hb]; [|lia]. split; [done|].
  destruct (Z.lt_ge_cases j H) as [|Hge]; [done|]. exfalso.
  destruct (decide (count = 0)) as [->|]; [by rewrite Z.bits_0 in Hb|].
  assert (Z.log2 count < H) by (apply Z.log2_lt_pow2; lia).
  rewrite Z.bits_above_log2 in Hb by lia. done.
Qed.

(** ** The walk of the LT code ends *)

Section Walk.
Context (L Lp a : Z) (Hprime : Z.prime Lp) (HL : 0 < L <= Lp) (Ha : 0 < a < Lp).

(** Adding [a] reaches every residue, zero in particular. *)
Lemma walk_zero b : 0 <= b < Lp → ∃ k, 0 <= k < Lp ∧ (b + k * a) mod Lp = 0.
Proof.
  intros Hb. assert (Z.coprime Lp a) as Hrel.
  { apply Z.coprime_prime_l; [done|]. intros Hd. apply Z.divide_pos_le in Hd; lia. }
  destruct (Z.Bezout_coprime _ _ Hrel) as (v & u & Huv). exists ((- b * u) mod Lp).
  split; [apply Z.mod_pos_bound; lia|].
  rewrite <-Z.add_mod_idemp_r, Z.mul_mod_idemp_l, Z.add_mod_idemp_r by lia.
  replace (b + - b * u * a) with (b * v * Lp + (b - b * (v * Lp + u * a))) by ring.
  rewrite Huv. replace (b * v * Lp + (b - b * 1)) with (b * v * Lp) by ring. apply Z.mod_mul. lia.
Qed.

Lemma skip_run fuel b k :
  0 <= b < Lp → 0 <= k <= Z.of_nat fuel → (b + k * a) mod Lp < L →
  ∃ b', skip fuel L Lp a b = Ret b' ∧ 0 <= b' < L.
Proof.
  revert b k. induction fuel as [|fuel IH]; intros b k Hb Hk Hlt; cbn [skip].
  - assert (k = 0) as -> by lia. rewrite Z.mul_0_l, Z.add_0_r, Z.mod_small in Hlt by lia.
    rewrite (proj2 (Z.ltb_lt b L)) by lia. exists b. split; [done|lia].
  - destruct (Z.ltb_spec b L) as [|Hge]; [exists b; split; [done|lia]|].
    assert (k ≠ 0) as Hk0.
    { intros ->. rewrite Z.mul_0_l, Z.add_0_r, Z.mod_small in Hlt; lia. }
    apply (IH _ (k - 1)); [apply Z.mod_pos_bound; lia|lia|].
    rewrite Z.add_mod_idemp_l by lia. replace (b + a + (k - 1) * a) with (b + k * a) by ring. done.
Qed.

Lemma skip_ends b : 0 <= b < Lp → ∃ b', skip (Z.to_nat Lp) L Lp a b = Ret b' ∧ 0 <= b' < L.
Proof.
  intros Hb. destruct (walk_zero b Hb) as (k & Hk & H0). apply (skip_run _ b k Hb); lia.
Qed.

Lemma lt_loop_run n b :
  0 <= b < L → ∃ l, lt_loop n L Lp a b = Ret l ∧ Forall (λ b, 0 <= b < L) l.
Proof.
  revert b. induction n as [|n IH]; intros b Hb; cbn [lt_loop]; [by exists []|].
  destruct (skip_ends ((b + a) mod Lp)) as (b' & -> & Hb'); [apply Z.mod_pos_bound; lia|].
  cbn [mbind outcome_bind]. destruct (IH b' Hb') as (l & -> & Hl). exists (b' :: l). by auto.
Qed.

Lemma lt_indices_run d b :
  0 <= b < Lp → ∃ b0 l, lt_indices L Lp (d, a, b) = Ret (b0 :: l) ∧ Forall (λ b, 0 <= b < L) (b0 :: l).
Proof.
  intros Hb. unfold lt_indices. destruct (skip_ends b Hb) as (b' & -> & Hb'). cbn [mbind outcome_bind].
  destruct (lt_loop_run (Z.to_nat (Z.min (d - 1) (L - 1))) b' Hb') as (l & -> & Hl).
  exists b', l. by auto.
Qed.
End Walk.

(** ** Operations on rows and symbols *)

Lemma toggle_run b row : 0 <= b < zlen row → toggle b row = Ret (flip (Z.to_nat b) row).
Proof.
  intros Hb. unfold toggle. destruct (index_in row b Hb) as (x & Hx & ->). cbn [mbind outcome_bind].
  unfold set_index. rewrite bool_decide_true by done. f_equal. unfold flip.
  apply list_eq. intros k. destruct (decide (k = Z.to_nat b)) as [->|].
  - rewrite list_lookup_insert_eq, list_lookup_alter_eq, Hx by (by eapply lookup_lt_Some). done.
  - by rewrite list_lookup_insert_ne, list_lookup_alter_ne by done.
Qed.

(** With [n] bytes rounded up to a multiple of 16, the first [n] bytes of the
    result are the sum. *)
Lemma vector_xor_take dst src n :
  0 <= n → 16 * ((n + 15) / 16) <= zlen dst → zlen src = zlen dst →
  ∃ r, vector_xor_mp dst src n = Ret r ∧ length r = length dst ∧
    take (Z.to_nat n) r = xorv (take (Z.to_nat n) dst) (take (Z.to_nat n) src).
Proof.
  intros Hn Hd Hs. unfold vector_xor_mp, slice. set (k := 16 * ((n + 15) / 16)) in *.
  assert (n <= k) as Hnk by (unfold k; zify_div; lia).
  rewrite !bool_decide_true by lia. cbn [mbind outcome_bind]. eexists. split; [reflexivity|].
  unfold zslice. rewrite Nat.sub_0_r, !drop_0. unfold zlen in *. split.
  - rewrite length_app, length_drop. rewrite (length_xorv _ _ (Z.to_nat k)); [lia|rewrite length_take; lia..].
  - rewrite take_app_le by (rewrite (length_xorv _ _ (Z.to_nat k)); rewrite ?length_take; lia).
    unfold xorv. rewrite zip_with_take, !take_take. repeat f_equal; lia.
Qed.

Lemma vector_xor_run dst src n :
  zlen dst = n → zlen src = n → n mod 16 = 0 → vector_xor_mp dst src n = Ret (xorv dst src).
Proof.
  intros Hd Hs Hm. assert (16 * ((n + 15) / 16) = n) as Hn by (zify_div; lia).
  destruct (vector_xor_take dst src n) as (r & -> & Hl & Ht); [unfold zlen in *; lia..|].
  f_equal. unfold zlen in *. by rewrite !take_ge in Ht by lia.
Qed.

(** The state of the symbols: [L] of them, each of the symbol size. *)
Definition symbols_ok (L size : Z) (c : list (list Z)) : Prop := zlen c = L ∧ syms (Z.to_nat size) c.

Definition row_ok (L : Z) (r : list Z) : Prop := zlen r = L ∧ bits r.

Lemma ops_sym_ok L size ops c : symbols_ok L size c → symbols_ok L size (ops_sym ops c).
Proof. intros [Hl Hs]. split; [unfold zlen in *; by rewrite length_ops_sym|by apply syms_ops_sym]. Qed.

Lemma ops_row_ok L ops r : row_ok L r → row_ok L (ops_row ops r).
Proof. intros [Hl Hs]. split; [unfold zlen in *; by rewrite length_ops_row|by apply bits_ops_row]. Qed.

Lemma add_symbol_run L size s t c :
  symbols_ok L size c → 0 <= size → size mod 16 = 0 → 0 <= s < L → 0 <= t < L →
  add_symbol size s t c = Ret (ops_sym [(Z.to_nat s, Z.to_nat t)] c).
Proof.
  intros [Hl Hs] Hsz Hm Hs' Ht. unfold add_symbol. rewrite <-Hl in *.
  destruct (index_in c t Ht) as (dst & Hdst & ->). destruct (index_in c s Hs') as (src & Hsrc & ->).
  cbn [mbind outcome_bind].
  pose proof (Forall_lookup_1 _ _ _ _ Hs Hdst) as H1. pose proof (Forall_lookup_1 _ _ _ _ Hs Hsrc) as H2. simpl in H1, H2.
  rewrite vector_xor_run by (unfold zlen; done || lia). cbn [mbind outcome_bind]. unfold set_index.
  rewrite bool_decide_true by done. unfold ops_sym, op_sym. simpl. by rewrite Hsrc, Hdst.
Qed.

(** ** LDPC and half symbols *)

Lemma ldpc_targets_bound S i b : 2 <= S → b ∈ ldpc_targets S i → 0 <= b < S.
Proof.
  intros HS. unfold ldpc_targets. rewrite !elem_of_cons, elem_of_nil.
  intros [-> |[-> |[-> |[]]]]; apply Z.mod_pos_bound; lia.
Qed.

Lemma m_index (m : list Z) i : 0 <= i < zlen m → index m i = Ret (default 0 (m !! Z.to_nat i)).
Proof. intros Hi. destruct (index_in m i Hi) as (x & Hx & ->). by rewrite Hx. Qed.

Section Extension.
Context (K S H size : Z) (m : list Z).
Context (HK : 0 < K) (HS : 2 <= S) (HH : 0 <= H) (Hsize : 0 <= size) (Hmod : size mod 16 = 0).
Context (Hm : zlen m = K + S) (Hbits : Forall (λ x, 0 <= x < 2 ^ H) m).
Let L := K + S + H.

Definition ldpc_ops : list (nat * nat) :=
  flat_map (λ i, flat_map (λ b, [(Z.to_nat i, Z.to_nat (K + b))]) (ldpc_targets S i)) (seqZ 0 K).

Definition m_bits (i : Z) : list Z := bit_positions (default 0 (m !! Z.to_nat i)).

Definition half_ops : list (nat * nat) :=
  flat_map (λ i, flat_map (λ j, [(Z.to_nat i, Z.to_nat (K + S + j))]) (m_bits i)) (seqZ 0 (K + S)).

(** In [InverseHALF_mp] the loop over the half symbols is the outer one. *)
Definition half_ops_of (h : Z) : list (nat * nat) :=
  flat_map (λ i, flat_map (λ j, if j =? h then [(Z.to_nat i, Z.to_nat (K + S + h))] else []) (m_bits i))
    (seqZ 0 (K + S)).

Definition half_row_ops : list (nat * nat) := flat_map half_ops_of (seqZ 0 H).

Lemma m_bits_bound i j : j ∈ m_bits i → 0 <= j < H.
Proof.
  unfold m_bits. destruct (m !! Z.to_nat i) as [x|] eqn:Ex; simpl.
  - apply bit_positions_bound. by apply (Forall_lookup_1 _ _ _ _ Hbits Ex).
  - intros Hj. change (j ∈ @nil Z) in Hj. by apply elem_of_nil in Hj.
Qed.

Lemma in_ldpc_ops o : o ∈ ldpc_ops → (o.1 < Z.to_nat K ∧ Z.to_nat K <= o.2 < Z.to_nat L)%nat.
Proof.
  unfold ldpc_ops. rewrite list_elem_of_In, in_flat_map. intros (i & Hi & Ho).
  apply in_flat_map in Ho as (b & Hb & Ho). destruct Ho as [<-|[]]. simpl.
  rewrite <-list_elem_of_In in Hi, Hb. apply elem_of_seqZ in Hi. apply ldpc_targets_bound in Hb; [|done]. unfold L. lia.
Qed.

Lemma in_half_ops o : o ∈ half_ops → (o.1 < Z.to_nat (K + S) ∧ Z.to_nat (K + S) <= o.2 < Z.to_nat L)%nat.
Proof.
  unfold half_ops. rewrite list_elem_of_In, in_flat_map. intros (i & Hi & Ho).
  apply in_flat_map in Ho as (j & Hj & Ho). destruct Ho as [<-|[]]. simpl.
  rewrite <-list_elem_of_In in Hi, Hj. apply elem_of_seqZ in Hi. apply m_bits_bound in Hj. unfold L. lia.
Qed.

(** Both orders of the loops make the same additions. *)
Lemma half_row_ops_perm : half_row_ops ≡ₚ half_ops.
Proof.
  unfold half_row_ops, half_ops_of, half_ops. rewrite flat_map_swap.
  assert (∀ l, (∀ i, i ∈ l → i ∈ seqZ 0 (K + S)) →
    flat_map (λ i, flat_map (λ h, flat_map (λ j, if j =? h then [(Z.to_nat i, Z.to_nat (K + S + h))] else [])
       (m_bits i)) (seqZ 0 H)) l ≡ₚ
    flat_map (λ i, flat_map (λ j, [(Z.to_nat i, Z.to_nat (K + S + j))]) (m_bits i)) l) as Hgen; [|by apply Hgen].
  induction l as [|i l IH]; intros Hl; [done|]. cbn [flat_map]. rewrite IH by (intros; apply Hl; by right).
  f_equiv. rewrite flat_map_swap. pose proof (m_bits_bound i) as Hb.
  induction (m_bits i) as [|j js IHj]; [done|]. cbn [flat_map]. rewrite IHj by (intros; apply Hb; by right).
  f_equiv. assert (0 <= j < H) as Hj by (apply Hb; left). clear -Hj. revert Hj. generalize (K + S) as k. intros k Hj.
  rewrite (seqZ_split H j Hj).
  assert (∀ l, j ∉ l → flat_map (λ h, if j =? h then [(Z.to_nat i, Z.to_nat (k + h))] else []) l = []) as Hnil.
  { induction l as [|h l IHl]; intros Hni; [done|]. apply not_elem_of_cons in Hni as [Hne Hni]. simpl.
    destruct (Z.eqb_spec j h); [done|]. by apply IHl. }
  rewrite flat_map_app. cbn [flat_map]. rewrite Z.eqb_refl, !Hnil; [done|..]; rewrite elem_of_seqZ; lia.
Qed.

Lemma ldpc_row_run row : row_ok L row → ldpc_row K S row = Ret (ops_row ldpc_ops row).
Proof.
  intros Hrow. unfold ldpc_row, ldpc_ops.
  apply (foldO_flat ops_row (row_ok L)); [done|apply ops_row_app|apply ops_row_ok| |done].
  intros i r Hi Hr. apply elem_of_seqZ in Hi.
  apply (foldO_flat ops_row (row_ok L)); [done|apply ops_row_app|apply ops_row_ok| |done].
  clear r Hr. intros b r Hb [Hl Hr]. apply ldpc_targets_bound in Hb; [|done].
  destruct (index_in r (K + b)) as (x & Hx & ->); [unfold L in *; lia|]. cbn [mbind outcome_bind].
  unfold ops_row, op_row. simpl. rewrite Hx. simpl. destruct (x =? 1); [|done].
  apply toggle_run. unfold L in *. lia.
Qed.

(** Additions of one entry are done if it is set. *)
Lemma ops_row_target (t : nat) ops r :
  Forall (λ o : nat * nat, o.2 = t ∧ o.1 ≠ t) ops →
  ops_row ops r = if default 0 (r !! t) =? 1 then fold_left (λ r o, flip o.1 r) ops r else r.
Proof.
  intros Hops. revert r. induction Hops as [|o ops [Ho2 Ho1] Hops IH]; intros r; [by destruct (_ =? 1)|].
  unfold ops_row in *. cbn [fold_left]. rewrite IH. unfold op_row. rewrite Ho2.
  destruct (default 0 (r !! t) =? 1) eqn:E; [|by rewrite E]. unfold flip.
  rewrite list_lookup_alter_ne by done. by rewrite E.
Qed.

Lemma half_row_run row : row_ok L row → half_row K S H m row = Ret (ops_row half_row_ops row).
Proof.
  intros Hrow. unfold half_row, half_row_ops.
  apply (foldO_flat ops_row (row_ok L)); [done|apply ops_row_app|apply ops_row_ok| |done].
  clear row Hrow. intros h r Hh [Hl Hr]. apply elem_of_seqZ in Hh.
  destruct (index_in r (K + S + h)) as (x & Hx & ->); [unfold L in *; lia|]. cbn [mbind outcome_bind].
  rewrite (ops_row_target (Z.to_nat (K + S + h))).
  2:{ apply Forall_forall. intros o. unfold half_ops_of. rewrite in_flat_map. intros (i & Hi & Ho).
      apply in_flat_map in Ho as (j & _ & Ho). rewrite <-list_elem_of_In in Hi. apply elem_of_seqZ in Hi.
      destruct (j =? h); [|done]. destruct Ho as [<-|[]]. simpl. lia. }
  rewrite Hx. simpl. destruct (x =? 1); [|done].
  apply (foldO_flat (λ ops r, fold_left (λ r o, flip o.1 r) ops r) (λ r, zlen r = L)); [done|..|done].
  { intros. apply fold_left_app. }
  { intros ops. unfold zlen. induction ops as [|o ops IH]; intros r' Hr'; [done|]. simpl. apply IH. by rewrite length_flip. }
  intros i r' Hi Hr'. apply elem_of_seqZ in Hi. rewrite m_index by lia. cbn [mbind outcome_bind]. fold (m_bits i).
  apply (foldO_flat (λ ops r, fold_left (λ r o, flip o.1 r) ops r) (λ r, zlen r = L)); [done|..|done].
  { intros. apply fold_left_app. }
  { intros ops. unfold zlen. induction ops as [|o ops IH]; intros r'' Hr''; [done|]. simpl. apply IH. by rewrite length_flip. }
  intros j r'' _ Hr''. destruct (j =? h); [|done]. simpl. apply toggle_run. unfold L in *. lia.
Qed.

(** *** The contract *)

Definition ext (c : list (list Z)) : list (list Z) := ops_sym half_ops (ops_sym ldpc_ops c).
Definition eff (r : list Z) : list Z := ops_row ldpc_ops (ops_row half_row_ops r).

(** The row [eff r] gives on the symbols what [r] gives on the extended symbols. *)
Lemma dot_ext r c :
  row_ok L r → symbols_ok L size c → dot (Z.to_nat size) (eff r) c = dot (Z.to_nat size) r (ext c).
Proof.
  intros [Hrl Hr] [Hcl Hc]. unfold eff, ext. rewrite <-ops_row_app.
  assert (Forall (λ o, o.1 < length c ∧ o.2 < length c)%nat (half_row_ops ++ ldpc_ops)) as Hin.
  { apply Forall_app. split; apply Forall_forall; intros o Ho%list_elem_of_In.
    - rewrite half_row_ops_perm in Ho. apply in_half_ops in Ho. unfold zlen in *. lia.
    - apply in_ldpc_ops in Ho. unfold zlen in *. lia. }
  rewrite (dot_ops _ _ _ _ Hr) by (done || (unfold zlen in *; lia)).
  rewrite reverse_app, ops_sym_app. f_equal.
  rewrite (ops_sym_perm (Z.to_nat K) (reverse ldpc_ops) ldpc_ops); [|..|apply reverse_Permutation].
  2:{ apply Forall_forall. intros o Ho%list_elem_of_In. rewrite elem_of_reverse in Ho. apply in_ldpc_ops in Ho. lia. }
  apply (ops_sym_perm (Z.to_nat (K + S))); [|by rewrite reverse_Permutation, half_row_ops_perm].
  apply Forall_forall. intros o Ho%list_elem_of_In. rewrite elem_of_reverse in Ho. rewrite half_row_ops_perm in Ho. apply in_half_ops in Ho. lia.
Qed.

Lemma eff_ok r : row_ok L r → row_ok L (eff r).
Proof. intros Hr. by apply ops_row_ok, ops_row_ok. Qed.

Lemma ext_ok c : symbols_ok L size c → symbols_ok L size (ext c).
Proof. intros Hc. by apply ops_sym_ok, ops_sym_ok. Qed.
End Extension.
