(* ===== verification/Elimination.v ===== *)
(** * Gauss-Jordan elimination in the Raptor code

    [FindInverseMatrix_mp] and [IntermediateKSymbols_mp] both go through the
    columns, look for a pivot, bring it to the diagonal and clear the rest of the
    column.  They differ in how rows are added and moved.  This file shows for
    both that the solutions of the system stay the same, that a successful run
    ends with the unit matrix, and that without a pivot the unknowns are not
    determined. *)

From stdpp Require Import base list numbers.
From Stdlib Require Import ZArith Lia.
From S2P Require Import Prelude Raptor Gf2 RaptorCode.

Abbreviation matrices := (list (list Z) * list (list Z))%type.
Abbreviation system := (list (list Z * list Z)).

(** The two matrices of the code hold the system [sys] of equations in [K]
    unknowns; the rows of the first one are [W] long. *)
Record holds (K W : nat) (M : matrices) (sys : system) : Prop := {
  ho_rows : sys.*1 = (take K <$> M.1);
  ho_rhs : sys.*2 = M.2;
  ho_width : Forall (λ row, length row = W) M.1;
}.

Lemma holds_length K W M sys : holds K W M sys → length M.1 = length sys ∧ length M.2 = length sys.
Proof.
  intros [Hr Hs _]. apply (f_equal length) in Hr, Hs. rewrite !length_fmap in Hr. rewrite length_fmap in Hs. lia.
Qed.

Lemma holds_lookup K W M sys i e :
  holds K W M sys → sys !! i = Some e →
  ∃ row, M.1 !! i = Some row ∧ e.1 = take K row ∧ length row = W ∧ M.2 !! i = Some e.2.
Proof.
  intros [Hr Hs Hw] He.
  assert (sys.*1 !! i = Some e.1) as H1 by (by rewrite list_lookup_fmap, He).
  assert (sys.*2 !! i = Some e.2) as H2 by (by rewrite list_lookup_fmap, He).
  rewrite Hr, list_lookup_fmap in H1. rewrite Hs in H2.
  destruct (M.1 !! i) as [row|] eqn:E; [|done]. simpl in H1. injection H1 as <-.
  exists row. split_and!; try done. by apply (Forall_lookup_1 _ _ _ _ Hw E).
Qed.

(** The entry the code reads. *)
Lemma holds_entry K W M sys i j e :
  holds K W M sys → sys !! i = Some e → (j < K)%nat → (K <= W)%nat →
  ∃ row, index M.1 (Z.of_nat i) = Ret row ∧ index row (Z.of_nat j) = Ret (entry sys i j) ∧
    e.1 !! j = Some (entry sys i j).
Proof.
  intros Hh He Hj HW. destruct (holds_lookup _ _ _ _ _ _ Hh He) as (row & Hrow & Hex & Hl & _).
  destruct (lookup_lt_is_Some_2 row j ltac:(lia)) as [x Hx].
  assert (e.1 !! j = Some x) as Hx' by (rewrite Hex; by rewrite lookup_take_lt).
  assert (entry sys i j = x) as -> by (unfold entry; rewrite He; simpl; by rewrite Hx').
  exists row. split_and!; [apply index_to_nat; rewrite ?Nat2Z.id; done || lia|
    apply index_to_nat; rewrite ?Nat2Z.id; done || lia|done].
Qed.

(** ** Looking for a pivot *)

Lemma find_pivot_run K W M sys j fuel i :
  holds K W M sys → (j < K)%nat → (K <= W)%nat → (i < length sys)%nat → (length sys <= i + S fuel)%nat →
  ∃ r, find_pivot fuel M.1 (zlen sys) (Z.of_nat i) (Z.of_nat j) = Ret r ∧
    match r with
    | Some i' => ∃ k, i' = Z.of_nat k ∧ (i <= k < length sys)%nat ∧ entry sys k j ≠ 0 ∧
                   ∀ k', (i <= k' < k)%nat → entry sys k' j = 0
    | None => ∀ k, (i <= k)%nat → entry sys k j = 0
    end.
Proof.
  intros Hh Hj HW. revert i. induction fuel as [|fuel IH]; intros i Hi Hf;
    destruct (lookup_lt_is_Some_2 sys i Hi) as [e He];
    destruct (holds_entry _ _ _ _ _ _ _ Hh He Hj HW) as (row & Hrow & Hx & _);
    cbn [find_pivot]; rewrite Hrow; cbn [mbind outcome_bind]; rewrite Hx; cbn [mbind outcome_bind];
    destruct (Z.eqb_spec (entry sys i j) 0) as [H0|H0];
    try (exists (Some (Z.of_nat i)); split; [done|]; exists i; split_and!; [done|lia|lia|done|intros; lia]).
  - unfold zlen. rewrite (proj2 (Z.eqb_eq _ _)) by lia. exists None. split; [done|]. intros k Hk.
    destruct (decide (k = i)) as [->|]; [done|]. unfold entry. by rewrite lookup_ge_None_2 by lia.
  - destruct (Z.eqb_spec (Z.of_nat i + 1) (zlen sys)) as [He'|Hne]; unfold zlen in *.
    + exists None. split; [done|]. intros k Hk.
      destruct (decide (k = i)) as [->|]; [done|]. unfold entry. by rewrite lookup_ge_None_2 by lia.
    + replace (Z.of_nat i + 1) with (Z.of_nat (S i)) by lia.
      destruct (IH (S i) ltac:(lia) ltac:(lia)) as (r & -> & Hr). exists r. split; [done|].
      destruct r as [i'|].
      * destruct Hr as (k & -> & Hk & Hnz & Hz). exists k. split_and!; [done|lia|lia|done|].
        intros k' Hk'. destruct (decide (k' = i)) as [->|]; [done|]. apply Hz. lia.
      * intros k Hk. destruct (decide (k = i)) as [->|]; [done|]. apply Hr. lia.
Qed.

(** ** Clearing a column *)

Section Clear.
Context (K W : nat) (ok : list Z → Prop) (HKW : (K <= W)%nat).
Context (Hok : ∀ b b', ok b → ok b' → ok (xorv b b')).
Context (add : Z → Z → matrices → outcome matrices).
Context (Hadd : ∀ i j M sys, holds K W M sys → Forall (eq_wf K ok) sys → i ≠ j →
  (i < length sys)%nat → (j < length sys)%nat →
  ∃ M', add (Z.of_nat i) (Z.of_nat j) M = Ret M' ∧ holds K W M' (addr i j sys)).

Definition clear_loop (j : Z) (l : list Z) (M : matrices) : outcome matrices :=
  foldO (λ i M,
    row ← index M.1 i;
    x ← index row j;
    if (x =? 1) && negb (i =? j) then add i j M else Ret M) l M.

Lemma clear_loop_run M sys j :
  holds K W M sys → Forall (eq_wf K ok) sys → (j < K)%nat → (j < length sys)%nat →
  ∃ M', clear_loop (Z.of_nat j) (seqZ 0 (zlen sys)) M = Ret M' ∧ holds K W M' (clear j sys).
Proof.
  intros Hh Hwf HjK Hj. unfold clear_loop, clear, zlen. rewrite seqZ_nat.
  assert (∀ l M sys', (∀ i, i ∈ l → i < length sys')%nat → (j < length sys')%nat →
    holds K W M sys' → Forall (eq_wf K ok) sys' →
    ∃ M', foldO (λ i M, row ← index M.1 i; x ← index row (Z.of_nat j);
            if (x =? 1) && negb (i =? Z.of_nat j) then add i (Z.of_nat j) M else Ret M) (Z.of_nat <$> l) M = Ret M' ∧
          holds K W M' (fold_left (λ sys i, clear1 j i sys) l sys')) as Hgen.
  2:{ apply Hgen; try done. intros i. rewrite elem_of_seq. lia. }
  clear M sys Hh Hwf Hj. induction l as [|i l IH]; intros M sys Hl Hj Hh Hwf; [by exists M|].
  cbn [fmap list_fmap foldO fold_left].
  destruct (lookup_lt_is_Some_2 sys i ltac:(apply Hl; left)) as [e He].
  destruct (holds_entry _ _ _ _ _ _ _ Hh He HjK HKW) as (row & -> & Hx & _).
  cbn [mbind outcome_bind]. rewrite Hx. cbn [mbind outcome_bind].
  assert ((Z.of_nat i =? Z.of_nat j) = (i =? j)%nat) as ->.
  { destruct (Z.eqb_spec (Z.of_nat i) (Z.of_nat j)), (Nat.eqb_spec i j); lia || done. }
  unfold clear1 at 2. destruct ((entry sys i j =? 1) && negb (i =? j)%nat) eqn:E.
  - apply andb_prop in E as [_ Hij%negb_true_iff%Nat.eqb_neq].
    destruct (Hadd i j M sys Hh Hwf Hij ltac:(apply Hl; left) Hj) as (M' & -> & Hh'). cbn [mbind outcome_bind].
    apply IH; rewrite ?length_addr; try done; [|by apply addr_wf].
    intros i' Hi'. apply Hl. by right.
  - cbn [mbind outcome_bind]. apply IH; try done. intros i' Hi'. apply Hl. by right.
Qed.
End Clear.

(** ** The state between two columns *)

(** Additive functions from right-hand sides to symbols of length [n]. *)
Record rhs_map (ok : list Z → Prop) (n : nat) (f : list Z → list Z) : Prop := {
  rm_add : ∀ b b', ok b → ok b' → f (xorv b b') = xorv (f b) (f b');
  rm_len : ∀ b, ok b → length (f b) = n;
}.

(** The same solutions, whatever the right-hand sides stand for. *)
Definition same_solutions (ok : list Z → Prop) (sys sys' : system) : Prop :=
  ∀ n f c, rhs_map ok n f → syms n c → Forall (solves n f c) sys ↔ Forall (solves n f c) sys'.

Lemma same_solutions_trans ok sys1 sys2 sys3 :
  same_solutions ok sys1 sys2 → same_solutions ok sys2 sys3 → same_solutions ok sys1 sys3.
Proof. intros H1 H2 n f c Hf Hc. by rewrite (H1 n f c), (H2 n f c). Qed.

Record progress (K W : nat) (ok : list Z → Prop) (sys0 : system) (j : nat) (M : matrices) (sys : system) : Prop := {
  pr_holds : holds K W M sys;
  pr_wf : Forall (eq_wf K ok) sys;
  pr_len : length sys = length sys0;
  pr_cols : ∀ k, (k < j)%nat → unit_col sys k;
  pr_same : same_solutions ok sys sys0;
}.

(** The result of the elimination: the right-hand sides of a solved system, or
    a column without a pivot. *)
Definition gauss_result (K W : nat) (ok : list Z → Prop) (sys0 : system) (r : option (list (list Z))) : Prop :=
  match r with
  | Some rhs => ∃ M sys, progress K W ok sys0 K M sys ∧ rhs = M.2
  | None => ∃ j M sys, (j < K)%nat ∧ progress K W ok sys0 j M sys ∧ ∀ i, (j <= i)%nat → entry sys i j = 0
  end.

Section Column.
Context (K W : nat) (ok : list Z → Prop) (HKW : (K <= W)%nat).
Context (Hok : ∀ b b', ok b → ok b' → ok (xorv b b')).
Context (add : Z → Z → matrices → outcome matrices).
Context (Hadd : ∀ i j M sys, holds K W M sys → Forall (eq_wf K ok) sys → i ≠ j →
  (i < length sys)%nat → (j < length sys)%nat →
  ∃ M', add (Z.of_nat i) (Z.of_nat j) M = Ret M' ∧ holds K W M' (addr i j sys)).

Lemma addr_same sys i j : Forall (eq_wf K ok) sys → i ≠ j → same_solutions ok (addr i j sys) sys.
Proof. intros Hwf Hij n f c [Hf Hl] Hc. by apply (addr_solves K n ok f). Qed.

(** With a pivot on the diagonal, clearing the column is a step forward. *)
Lemma clear_progress sys0 j M sys e :
  progress K W ok sys0 j M sys → sys !! j = Some e → e.1 !! j = Some 1 →
  ∃ M' sys', clear_loop add (Z.of_nat j) (seqZ 0 (zlen sys)) M = Ret M' ∧ progress K W ok sys0 (S j) M' sys'.
Proof.
  intros [Hh Hwf Hlen Hcols Hsame] He H1. pose proof (lookup_lt_Some _ _ _ He) as Hj.
  assert (j < K)%nat as HjK.
  { pose proof (Forall_lookup_1 _ _ _ _ Hwf He) as (Hl & _). rewrite <-Hl. by eapply lookup_lt_Some. }
  destruct (clear_loop_run K W ok HKW Hok add Hadd M sys j Hh Hwf HjK Hj) as (M' & Hrun & Hh').
  exists M', (clear j sys). split; [done|].
  assert (∀ n f, rhs_map ok n f → Forall (eq_wf K ok) (clear j sys) ∧ length (clear j sys) = length sys ∧
    (∀ c, syms n c → Forall (solves n f c) (clear j sys) ↔ Forall (solves n f c) sys) ∧
    ∀ k, (k < S j)%nat → unit_col (clear j sys) k) as Hspec.
  { intros n f [Hf Hl]. by apply (clear_spec K n ok f Hok Hf Hl j e). }
  destruct (Hspec 0%nat (λ _, [])) as (Hwf' & Hlen' & _ & Hcols'); [by split|].
  split; try done; [by rewrite Hlen'|].
  eapply same_solutions_trans; [|exact Hsame]. intros n f c Hf Hc. by apply (Hspec n f Hf).
Qed.

(** Row [j] plus a row [i] below it with an entry in column [j] has a pivot. *)
Lemma pivot_add sys0 j M sys i :
  progress K W ok sys0 j M sys → (j < K)%nat → (j < i < length sys)%nat →
  entry sys i j ≠ 0 → entry sys j j = 0 →
  ∃ M' e, add (Z.of_nat j) (Z.of_nat i) M = Ret M' ∧ progress K W ok sys0 j M' (addr j i sys) ∧
    addr j i sys !! j = Some e ∧ e.1 !! j = Some 1.
Proof.
  intros [Hh Hwf Hlen Hcols Hsame] HjK Hi Hnz Hz.
  destruct (Hadd j i M sys Hh Hwf ltac:(lia) ltac:(lia) ltac:(lia)) as (M' & Hrun & Hh').
  destruct (lookup_lt_is_Some_2 sys j ltac:(lia)) as [ej Hej].
  destruct (lookup_lt_is_Some_2 sys i ltac:(lia)) as [ei Hei].
  pose proof (addr_lookup j i sys j ltac:(lia) ltac:(lia)) as Hl. rewrite decide_True, Hej, Hei in Hl by done. simpl in Hl.
  exists M', (add_eq ej ei). split; [done|]. split; [|split; [done|]].
  - split; try done; [by apply addr_wf|by rewrite length_addr|..|].
    + intros k Hk i' e' He'. rewrite addr_lookup in He' by lia.
      destruct (decide (i' = j)) as [->|]; [|by apply (Hcols k Hk)].
      rewrite Hej, Hei in He'. simpl in He'. simplify_eq. simpl.
      rewrite (lookup_xorv _ _ _ _ _ (Hcols k Hk j ej Hej) (Hcols k Hk i ei Hei)).
      by rewrite !decide_False by lia.
    + eapply same_solutions_trans; [|exact Hsame]. apply addr_same; [done|lia].
  - destruct (holds_entry _ _ _ _ _ _ _ Hh Hej HjK HKW) as (_ & _ & _ & Hxj).
    destruct (holds_entry _ _ _ _ _ _ _ Hh Hei HjK HKW) as (_ & _ & _ & Hxi).
    simpl. rewrite (lookup_xorv _ _ _ _ _ Hxj Hxi), Hz.
    pose proof (Forall_lookup_1 _ _ _ _ Hwf Hei) as (_ & Hb & _).
    destruct (Forall_lookup_1 _ _ _ _ Hb Hxi) as [|H1]; [done|]. by rewrite H1.
Qed.

(** Exchanging row [j] and a row below it with an entry in column [j]. *)
Definition swap (i j : nat) (sys : system) : system :=
  match sys !! i, sys !! j with
  | Some ei, Some ej => <[i := ej]> (<[j := ei]> sys)
  | _, _ => sys
  end.

Lemma swap_perm i j sys : swap i j sys ≡ₚ sys.
Proof.
  unfold swap. destruct (sys !! i) as [ei|] eqn:Ei; [|done]. destruct (sys !! j) as [ej|] eqn:Ej; [|done].
  by apply Permutation_insert_swap.
Qed.

Lemma swap_same sys i j : same_solutions ok (swap i j sys) sys.
Proof. intros n f c _ _. by rewrite swap_perm. Qed.

Lemma swap_lookup sys i j k ei ej :
  sys !! i = Some ei → sys !! j = Some ej →
  swap i j sys !! k = if decide (k = i) then Some ej else if decide (k = j) then Some ei else sys !! k.
Proof.
  intros Hi Hj. unfold swap. rewrite Hi, Hj.
  pose proof (lookup_lt_Some _ _ _ Hi). pose proof (lookup_lt_Some _ _ _ Hj).
  destruct (decide (k = i)) as [->|]; [by rewrite list_lookup_insert_eq by (by rewrite length_insert)|].
  rewrite list_lookup_insert_ne by done.
  destruct (decide (k = j)) as [->|]; [by rewrite list_lookup_insert_eq|by rewrite list_lookup_insert_ne].
Qed.

Lemma pivot_swap sys0 j M sys i M' :
  progress K W ok sys0 j M sys → (j < K)%nat → (j < i < length sys)%nat → entry sys i j ≠ 0 →
  holds K W M' (swap i j sys) →
  ∃ e, progress K W ok sys0 j M' (swap i j sys) ∧ swap i j sys !! j = Some e ∧ e.1 !! j = Some 1.
Proof.
  intros [Hh Hwf Hlen Hcols Hsame] HjK Hi Hnz Hh'.
  destruct (lookup_lt_is_Some_2 sys j ltac:(lia)) as [ej Hej].
  destruct (lookup_lt_is_Some_2 sys i ltac:(lia)) as [ei Hei].
  pose proof (λ k, swap_lookup sys i j k ei ej Hei Hej) as Hl.
  exists ei. split; [|split].
  - split; try done.
    + by rewrite swap_perm.
    + by rewrite swap_perm.
    + intros k Hk i' e' He'. rewrite Hl in He'.
      destruct (decide (i' = i)) as [->|]; [simplify_eq|destruct (decide (i' = j)) as [->|]; [simplify_eq|]].
      * rewrite (Hcols k Hk j e' Hej). by rewrite !decide_False by lia.
      * rewrite (Hcols k Hk i e' Hei). by rewrite !decide_False by lia.
      * by apply (Hcols k Hk).
    + eapply same_solutions_trans; [|exact Hsame]. apply swap_same.
  - rewrite Hl, decide_False, decide_True by lia. done.
  - destruct (holds_entry _ _ _ _ _ _ _ Hh Hei HjK HKW) as (_ & _ & _ & Hxi). rewrite Hxi.
    pose proof (Forall_lookup_1 _ _ _ _ Hwf Hei) as (_ & Hb & _).
    destruct (Forall_lookup_1 _ _ _ _ Hb Hxi) as [|H1]; [done|]. by rewrite H1.
Qed.

(** A pivot that is on the diagonal already. *)
Lemma pivot_here j M sys :
  holds K W M sys → Forall (eq_wf K ok) sys → (j < K)%nat → (j < length sys)%nat → entry sys j j ≠ 0 →
  ∃ e, sys !! j = Some e ∧ e.1 !! j = Some 1.
Proof.
  intros Hh Hwf HjK Hj Hnz. destruct (lookup_lt_is_Some_2 sys j Hj) as [e He]. exists e. split; [done|].
  destruct (holds_entry _ _ _ _ _ _ _ Hh He HjK HKW) as (_ & _ & _ & Hx). rewrite Hx.
  pose proof (Forall_lookup_1 _ _ _ _ Hwf He) as (_ & Hb & _).
  destruct (Forall_lookup_1 _ _ _ _ Hb Hx) as [|H1]; [done|]. by rewrite H1.
Qed.
End Column.

(** ** Going through the columns *)

Section Columns.
Context (K W : nat) (ok : list Z → Prop) (sys0 : system).
Context (column : Z → matrices → outcome (option matrices)).
Context (Hcolumn : ∀ j M sys, (j < K)%nat → progress K W ok sys0 j M sys →
  ∃ r, column (Z.of_nat j) M = Ret r ∧
    match r with
    | Some M' => ∃ sys', progress K W ok sys0 (S j) M' sys'
    | None => ∀ i, (j <= i)%nat → entry sys i j = 0
    end).

Fixpoint columns (n : nat) (j : Z) (M : matrices) : outcome (option (list (list Z))) :=
  match n with
  | O => Ret (Some M.2)
  | S n => r ← column j M; match r with None => Ret None | Some M => columns n (j + 1) M end
  end.

Lemma columns_run n j M sys :
  (j + n = K)%nat → progress K W ok sys0 j M sys →
  ∃ r, columns n (Z.of_nat j) M = Ret r ∧ gauss_result K W ok sys0 r.
Proof.
  revert j M sys. induction n as [|n IH]; intros j M sys Hj Hpr; cbn [columns].
  - assert (j = K) as -> by lia. exists (Some M.2). split; [done|]. by exists M, sys.
  - destruct (Hcolumn j M sys ltac:(lia) Hpr) as ([M'|] & -> & Hr); cbn [mbind outcome_bind].
    + destruct Hr as (sys' & Hpr'). replace (Z.of_nat j + 1) with (Z.of_nat (S j)) by lia.
      apply (IH (S j) M' sys'); [lia|done].
    + exists None. split; [done|]. exists j, M, sys. split; [lia|done].
Qed.
End Columns.

(** What the result says of the solutions. *)
Lemma gauss_unique K W ok sys0 rhs n f c :
  gauss_result K W ok sys0 (Some rhs) → (K <= length sys0)%nat → rhs_map ok n f → syms n c → length c = K →
  Forall (solves n f c) sys0 → f <$> take K rhs = c.
Proof.
  intros (M & sys & [Hh Hwf Hlen Hcols Hsame] & ->) HK Hf Hc Hcl Hsol.
  destruct (holds_length _ _ _ _ Hh) as [_ Hl2].
  apply list_eq_same_length with (n := K); [done|rewrite length_fmap, length_take; lia|].
  intros i x y Hi. rewrite list_lookup_fmap, lookup_take_lt by done. intros Hx Hy.
  destruct (lookup_lt_is_Some_2 sys i ltac:(lia)) as [e He].
  destruct (holds_lookup _ _ _ _ _ _ Hh He) as (_ & _ & _ & _ & Hr). rewrite Hr in Hx. simplify_eq/=.
  eapply (solved _ n ok f); try done. by apply Hsame.
Qed.

(** A square system is solved by the right-hand sides. *)
Lemma gauss_solution K W ok sys0 rhs n f :
  gauss_result K W ok sys0 (Some rhs) → length sys0 = K → rhs_map ok n f →
  Forall ok rhs ∧ length rhs = K ∧ Forall (solves n f (f <$> rhs)) sys0.
Proof.
  intros (M & sys & [Hh Hwf Hlen Hcols Hsame] & ->) HK Hf.
  destruct (holds_length _ _ _ _ Hh) as [_ Hl2].
  assert (Forall ok M.2) as Hoks.
  { rewrite <-(ho_rhs _ _ _ _ Hh). apply Forall_fmap. eapply Forall_impl; [|exact Hwf]. by intros e (_ & _ & ?). }
  split; [done|]. split; [lia|].
  assert (syms n (f <$> M.2)) as Hs.
  { apply Forall_fmap. eapply Forall_impl; [|exact Hoks]. intros b Hb. by apply (rm_len _ _ _ Hf). }
  apply Hsame; [done|done|]. apply Forall_lookup. intros i e He. pose proof (lookup_lt_Some _ _ _ He).
  unfold solves. rewrite (unit_cols_row K ok sys i e) by (done || lia).
  destruct (holds_lookup _ _ _ _ _ _ Hh He) as (_ & _ & _ & _ & Hr).
  apply dot_unit; [by rewrite list_lookup_fmap, Hr|lia|done].
Qed.

(** Without a pivot, another vector of symbols has the same products. *)
Lemma gauss_kernel K W ok sys0 n s :
  gauss_result K W ok sys0 None → length s = n →
  ∃ z, syms n z ∧ length z = K ∧ s ∈ z ∧ Forall (λ x, x = s ∨ x = replicate n 0) z ∧
    Forall (λ e, dot n e.1 z = replicate n 0) sys0.
Proof.
  intros (j & M & sys & Hj & [Hh Hwf Hlen Hcols Hsame] & Hz) Hs.
  exists (kernel K n j sys s). split; [by apply kernel_syms|]. split; [by apply length_kernel|].
  split; [unfold kernel; apply elem_of_app; right; left|]. split.
  { unfold kernel. apply Forall_app. split; [|constructor; [by left|apply Forall_replicate; by right]].
    apply Forall_fmap, Forall_forall. intros i _. simpl. destruct (_ =? 1); auto. }
  apply (Hsame n (λ _, replicate n 0)); [|by apply kernel_syms|by eapply kernel_solves].
  split; [|intros; apply length_replicate]. intros. by rewrite xorv_zeros_l by apply length_replicate.
Qed.

(** ** The two ways of adding rows *)

Lemma holds_insert K W M sys i row b :
  holds K W M sys → length row = W → holds K W (<[i := row]> M.1, <[i := b]> M.2) (<[i := (take K row, b)]> sys).
Proof.
  intros [Hr Hs Hw] Hl. split; simpl.
  - by rewrite !list_fmap_insert, Hr.
  - by rewrite list_fmap_insert, Hs.
  - by apply Forall_insert.
Qed.

Lemma holds_index K W M sys i :
  holds K W M sys → (i < length sys)%nat →
  ∃ row b, index M.1 (Z.of_nat i) = Ret row ∧ index M.2 (Z.of_nat i) = Ret b ∧
    sys !! i = Some (take K row, b) ∧ length row = W.
Proof.
  intros Hh Hi. destruct (lookup_lt_is_Some_2 sys i Hi) as [[r b] He].
  destruct (holds_lookup _ _ _ _ _ _ Hh He) as (row & Hrow & Hex & Hl & Hb). simpl in *. subst r.
  exists row, b. split_and!; [apply index_to_nat; rewrite ?Nat2Z.id; done || lia..|done|done].
Qed.

Lemma set_index_nat {A} (l : list A) i x : (i < length l)%nat → set_index l (Z.of_nat i) x = Ret (<[i := x]> l).
Proof. intros Hi. unfold set_index, zlen. rewrite bool_decide_true by lia. by rewrite Nat2Z.id. Qed.

Lemma add_rows_run K ok i j M sys :
  holds K K M sys → Forall (eq_wf K ok) sys → i ≠ j → (i < length sys)%nat → (j < length sys)%nat →
  ∃ M', add_rows (Z.of_nat i) (Z.of_nat j) M = Ret M' ∧ holds K K M' (addr i j sys).
Proof.
  intros Hh _ _ Hi Hj. destruct (holds_length _ _ _ _ Hh) as [Hl1 Hl2].
  destruct (holds_index _ _ _ _ _ Hh Hi) as (ri & bi & Hri & Hbi & Hei & Hli).
  destruct (holds_index _ _ _ _ _ Hh Hj) as (rj & bj & Hrj & Hbj & Hej & Hlj).
  exists (<[i := xorv ri rj]> M.1, <[i := xorv bi bj]> M.2). split.
  - unfold add_rows. destruct M as [AA AI]; cbn [fst snd] in *.
    rewrite Hri, Hrj, Hbi, Hbj. cbn [mbind outcome_bind]. by rewrite !set_index_nat by lia.
  - unfold addr. rewrite Hei, Hej. unfold add_eq; cbn [fst snd]. rewrite !take_ge by lia.
    rewrite <-(take_ge (xorv ri rj) K) at 2 by (rewrite (length_xorv _ _ K); lia).
    apply holds_insert; [done|by apply length_xorv].
Qed.

Definition add_both (p : raptor_params) (i j : Z) (M : matrices) : outcome matrices :=
  AA ← add_symbol (rp_K p) j i M.1;
  d ← add_symbol (rp_SYMBOL_SIZE p) j i M.2;
  Ret (AA, d).

Lemma swap_both_run K W i j M sys :
  holds K W M sys → (i < length sys)%nat → (j < length sys)%nat →
  ∃ AA d, swap_rows (Z.of_nat i) (Z.of_nat j) M.1 = Ret AA ∧ swap_rows (Z.of_nat i) (Z.of_nat j) M.2 = Ret d ∧
    holds K W (AA, d) (swap i j sys).
Proof.
  intros Hh Hi Hj. destruct (holds_length _ _ _ _ Hh) as [Hl1 Hl2].
  destruct (holds_index _ _ _ _ _ Hh Hi) as (ri & bi & Hri & Hbi & Hei & Hli).
  destruct (holds_index _ _ _ _ _ Hh Hj) as (rj & bj & Hrj & Hbj & Hej & Hlj).
  exists (<[i := rj]> (<[j := ri]> M.1)), (<[i := bj]> (<[j := bi]> M.2)). unfold swap_rows.
  rewrite Hri, Hrj, Hbi, Hbj. cbn [mbind outcome_bind].
  do 2 (rewrite !set_index_nat by (rewrite ?length_insert; lia); cbn [mbind outcome_bind]).
  split; [done|]. split; [done|]. unfold swap. rewrite Hei, Hej.
  apply (holds_insert K W (<[j := ri]> M.1, <[j := bi]> M.2)); [by apply holds_insert|done].
Qed.
Section Both.
Context (p : raptor_params) (K W n : nat).
Context (HK : rp_K p = Z.of_nat K) (Hn : rp_SYMBOL_SIZE p = Z.of_nat n).
Context (Hmod : rp_SYMBOL_SIZE p mod 16 = 0) (HW : 16 * ((rp_K p + 15) / 16) <= Z.of_nat W).
Abbreviation size_ok := (λ b : list Z, length b = n).

Lemma add_both_run i j M sys :
  holds K W M sys → Forall (eq_wf K size_ok) sys → i ≠ j → (i < length sys)%nat → (j < length sys)%nat →
  ∃ M', add_both p (Z.of_nat i) (Z.of_nat j) M = Ret M' ∧ holds K W M' (addr i j sys).
Proof.
  intros Hh Hwf _ Hi Hj. destruct (holds_length _ _ _ _ Hh) as [Hl1 Hl2].
  destruct (holds_index _ _ _ _ _ Hh Hi) as (ri & bi & Hri & Hbi & Hei & Hli).
  destruct (holds_index _ _ _ _ _ Hh Hj) as (rj & bj & Hrj & Hbj & Hej & Hlj).
  pose proof (Forall_lookup_1 _ _ _ _ Hwf Hei) as (_ & _ & Hwi). simpl in Hwi.
  pose proof (Forall_lookup_1 _ _ _ _ Hwf Hej) as (_ & _ & Hwj). simpl in Hwj.
  destruct (vector_xor_take ri rj (rp_K p)) as (r & Hr & Hrl & Hrt); [unfold zlen; lia..|].
  exists (<[i := r]> M.1, <[i := xorv bi bj]> M.2). split.
  - unfold add_both, add_symbol. rewrite Hri, Hrj, Hbi, Hbj. cbn [mbind outcome_bind].
    rewrite Hr. cbn [mbind outcome_bind]. rewrite set_index_nat by lia. cbn [mbind outcome_bind].
    rewrite vector_xor_run by (unfold zlen; lia || done). cbn [mbind outcome_bind].
    by rewrite set_index_nat by lia.
  - unfold addr. rewrite Hei, Hej. unfold add_eq; cbn [fst snd].
    replace (Z.to_nat (rp_K p)) with K in Hrt by lia. rewrite <-Hrt.
    apply holds_insert; [done|lia].
Qed.

End Both.

(** ** [FindInverseMatrix_mp] *)

Lemma inverse_columns K k z M : inverse_loop k K z M = columns (inverse_column K) k z M.
Proof.
  revert z M. induction k as [|k IH]; intros z M; [done|]. cbn [inverse_loop columns].
  destruct (inverse_column K z M) as [[M'|]| |]; cbn [mbind outcome_bind]; done.
Qed.

Section Inverse.
Context (K : nat) (ok : list Z → Prop) (sys0 : system) (Hlen0 : length sys0 = K).
Context (Hok : ∀ b b', ok b → ok b' → ok (xorv b b')).

Lemma inverse_column_run j M sys :
  (j < K)%nat → progress K K ok sys0 j M sys →
  ∃ r, inverse_column (Z.of_nat K) (Z.of_nat j) M = Ret r ∧
    match r with
    | Some M' => ∃ sys', progress K K ok sys0 (S j) M' sys'
    | None => ∀ i, (j <= i)%nat → entry sys i j = 0
    end.
Proof.
  intros HjK Hpr. pose proof (pr_holds _ _ _ _ _ _ _ Hpr) as Hh. pose proof (pr_len _ _ _ _ _ _ _ Hpr) as Hlen.
  assert (Z.of_nat K = zlen sys) as HKz by (unfold zlen; lia). unfold inverse_column. rewrite Nat2Z.id.
  destruct (find_pivot_run K K M sys j K j Hh HjK ltac:(lia) ltac:(lia) ltac:(lia)) as (r & Hrun & Hr).
  rewrite HKz, Hrun. cbn [mbind outcome_bind]. destruct r as [i'|]; [|by exists None].
  destruct Hr as (i & -> & Hi & Hnz & Hz).
  assert (∃ M1 sys1 e, (if Z.of_nat i =? Z.of_nat j then Ret M else add_rows (Z.of_nat j) (Z.of_nat i) M) = Ret M1 ∧
    progress K K ok sys0 j M1 sys1 ∧ sys1 !! j = Some e ∧ e.1 !! j = Some 1) as (M1 & sys1 & e & -> & Hpr1 & He & H1).
  { destruct (Z.eqb_spec (Z.of_nat i) (Z.of_nat j)) as [Hij|Hij].
    - assert (i = j) as -> by lia. exists M, sys.
      destruct (pivot_here K K ok ltac:(lia) j M sys Hh (pr_wf _ _ _ _ _ _ _ Hpr) HjK ltac:(lia) Hnz) as (e & He & H1).
      by exists e.
    - destruct (pivot_add K K ok ltac:(lia) Hok add_rows (add_rows_run K ok) sys0 j M sys i Hpr HjK ltac:(lia) Hnz
        (Hz j ltac:(lia))) as (M1 & e & Hadd & Hpr1 & He). by exists M1, (addr j i sys), e. }
  cbn [mbind outcome_bind]. replace (zlen sys) with (zlen sys1)
    by (unfold zlen; rewrite (pr_len _ _ _ _ _ _ _ Hpr1); lia).
  destruct (clear_progress K K ok ltac:(lia) Hok add_rows (add_rows_run K ok) sys0 j M1 sys1 e Hpr1 He H1)
    as (M2 & sys2 & Hclear & Hpr2).
  unfold clear_loop in Hclear. rewrite Hclear. cbn [mbind outcome_bind]. exists (Some M2). split; [done|by exists sys2].
Qed.

Lemma inverse_loop_run M :
  progress K K ok sys0 0 M sys0 →
  ∃ r, inverse_loop K (Z.of_nat K) 0 M = Ret r ∧ gauss_result K K ok sys0 r.
Proof.
  intros Hpr. destruct (columns_run K K ok sys0 _ inverse_column_run K 0 M sys0 eq_refl Hpr) as (r & Hrun & Hr).
  exists r. split; [|done]. by rewrite <-Hrun, <-inverse_columns.
Qed.
End Inverse.

(** ** [IntermediateKSymbols_mp] *)

Lemma solve_columns p k z M : solve_loop k p z M = columns (solve_column p) k z M.
Proof.
  revert z M. induction k as [|k IH]; intros z M; [done|]. cbn [solve_loop columns].
  destruct (solve_column p z M) as [[M'|]| |]; cbn [mbind outcome_bind]; done.
Qed.

Section Solve.
Context (p : raptor_params) (K W n : nat) (sys0 : system).
Context (HK : rp_K p = Z.of_nat K) (HN : rp_N p = zlen sys0) (Hn : rp_SYMBOL_SIZE p = Z.of_nat n).
Context (Hmod : rp_SYMBOL_SIZE p mod 16 = 0) (HW : 16 * ((rp_K p + 15) / 16) <= Z.of_nat W).
Context (HKN : (K <= length sys0)%nat).
Abbreviation size_ok := (λ b : list Z, length b = n).

Lemma solve_column_run j M sys :
  (j < K)%nat → progress K W size_ok sys0 j M sys →
  ∃ r, solve_column p (Z.of_nat j) M = Ret r ∧
    match r with
    | Some M' => ∃ sys', progress K W size_ok sys0 (S j) M' sys'
    | None => ∀ i, (j <= i)%nat → entry sys i j = 0
    end.
Proof.
  assert (K <= W)%nat as HKW by (zify_div; lia).
  assert (∀ b b', size_ok b → size_ok b' → size_ok (xorv b b')) as Hok by (intros; by apply length_xorv).
  pose proof (add_both_run p K W n HK Hn Hmod HW) as Hadd.
  intros HjK Hpr. pose proof (pr_holds _ _ _ _ _ _ _ Hpr) as Hh. pose proof (pr_len _ _ _ _ _ _ _ Hpr) as Hlen.
  assert (rp_N p = zlen sys) as HNz by (unfold zlen in *; lia). unfold solve_column.
  destruct (find_pivot_run K W M sys j (Z.to_nat (rp_N p)) j Hh HjK HKW ltac:(lia) ltac:(unfold zlen in *; lia)) as (r & Hrun & Hr).
  rewrite HNz in *. rewrite Hrun. cbn [mbind outcome_bind]. destruct r as [i'|]; [|by exists None].
  destruct Hr as (i & -> & Hi & Hnz & Hz).
  assert (∃ M1 sys1 e, (if Z.of_nat i =? Z.of_nat j then Ret M
      else AA ← swap_rows (Z.of_nat i) (Z.of_nat j) M.1; d ← swap_rows (Z.of_nat i) (Z.of_nat j) M.2; Ret (AA, d)) = Ret M1 ∧
    progress K W size_ok sys0 j M1 sys1 ∧ sys1 !! j = Some e ∧ e.1 !! j = Some 1) as (M1 & sys1 & e & -> & Hpr1 & He & H1).
  { destruct (Z.eqb_spec (Z.of_nat i) (Z.of_nat j)) as [Hij|Hij].
    - assert (i = j) as -> by lia. exists M, sys.
      destruct (pivot_here K W size_ok HKW j M sys Hh (pr_wf _ _ _ _ _ _ _ Hpr) HjK ltac:(lia) Hnz) as (e & He & H1).
      by exists e.
    - destruct (swap_both_run K W i j M sys Hh ltac:(lia) ltac:(lia)) as (AA & d & -> & -> & Hh').
      destruct (pivot_swap K W size_ok HKW sys0 j M sys i (AA, d) Hpr HjK ltac:(lia) Hnz Hh') as (e & Hpr1 & He).
      by exists (AA, d), (swap i j sys), e. }
  cbn [mbind outcome_bind]. replace (zlen sys) with (zlen sys1)
    by (unfold zlen; rewrite (pr_len _ _ _ _ _ _ _ Hpr1); lia).
  destruct (clear_progress K W size_ok HKW Hok (add_both p) Hadd sys0 j M1 sys1 e Hpr1 He H1)
    as (M2 & sys2 & Hclear & Hpr2).
  unfold clear_loop, add_both in Hclear. rewrite Hclear. cbn [mbind outcome_bind]. exists (Some M2). split; [done|by exists sys2].
Qed.

Lemma solve_loop_run M :
  progress K W size_ok sys0 0 M sys0 →
  ∃ r, solve_loop K p 0 M = Ret r ∧ gauss_result K W size_ok sys0 r.
Proof.
  intros Hpr. destruct (columns_run K W size_ok sys0 _ solve_column_run K 0 M sys0 eq_refl Hpr) as (r & Hrun & Hr).
  exists r. split; [|done]. by rewrite <-Hrun, <-solve_columns.
Qed.
End Solve.
