(* ===== verification/RaptorCorrect.v ===== *)
(** * The Raptor code is correct

    The encoder is systematic, and the decoder gives the source symbols back from
    any received encoding symbols that determine them; it fails only when they
    do not.  The theorems hold for every parameter set that [RaptorInitialization_mp]
    makes ([params_ok]). *)

From stdpp Require Import base list numbers strings.
From Stdlib Require Import ZArith Lia Zdivisibility Floats.SpecFloat.
From S2P Require Import Prelude Config Monitor RaptorTables Raptor Gf2 RaptorCode Elimination.

(** What the rest relies on of a parameter set. *)
Record params_ok (p : raptor_params) : Prop := {
  po_K : 0 < rp_K p;
  po_S : 2 <= rp_S p;
  po_H : 0 <= rp_H p;
  po_L : rp_L p = rp_K p + rp_S p + rp_H p;
  po_prime : Z.prime (rp_Lp p);
  po_Lp : rp_L p <= rp_Lp p;
  po_U : Forall (λ u : Z * Z * Z, 0 < u.1.2 < rp_Lp p ∧ 0 <= u.2 < rp_Lp p) (rp_U p);
  po_UK : rp_K p <= zlen (rp_U p);
  po_m : zlen (rp_m p) = rp_K p + rp_S p;
  po_mbits : Forall (λ x, 0 <= x < 2 ^ rp_H p) (rp_m p);
  po_A : ∃ A0 A1, FindMatrixA_mp (rp_K p) (rp_L p) (rp_Lp p) (rp_U p) = Ret A0 ∧
           InverseHALF_mp (rp_K p) (rp_S p) (rp_H p) (rp_m p) A0 (rp_K p) = Ret A1 ∧
           InverseLDPC_mp (rp_K p) (rp_S p) A1 (rp_K p) = Ret (rp_A p);
  po_AI : FindInverseMatrix_mp (rp_K p) (rp_A p) = Ret (Some (rp_AI p));
}.

(** Symbols are processed 16 bytes at a time, and so are the rows in the decoder. *)
Record sizes_ok (p : raptor_params) : Prop := {
  so_size : 0 < rp_SYMBOL_SIZE p;
  so_mod : rp_SYMBOL_SIZE p mod 16 = 0;
}.

Section Code.
Context (p : raptor_params) (Hp : params_ok p) (Hsz : sizes_ok p).
Let K := rp_K p.
Let L := rp_L p.
Let n := Z.to_nat (rp_SYMBOL_SIZE p).
Abbreviation row_ok := (row_ok (rp_L p)).
Abbreviation symbols_ok := (symbols_ok (rp_L p) (rp_SYMBOL_SIZE p)).

Definition p_ext : list (list Z) → list (list Z) := ext (rp_K p) (rp_S p) (rp_m p).
Definition p_eff : list Z → list Z := eff (rp_K p) (rp_S p) (rp_H p) (rp_m p).

(** ** Extension *)

Lemma ldpc_symbols_run c : symbols_ok c → ldpc_symbols p c = Ret (ops_sym (ldpc_ops (rp_K p) (rp_S p)) c).
Proof.
  destruct Hp, Hsz. intros Hc. unfold ldpc_symbols, ldpc_ops.
  apply (foldO_flat ops_sym symbols_ok); [done|apply ops_sym_app|apply ops_sym_ok| |done].
  intros i c' Hi Hc'. apply elem_of_seqZ in Hi.
  apply (foldO_flat ops_sym symbols_ok); [done|apply ops_sym_app|apply ops_sym_ok| |done].
  intros b c'' Hb Hc''. apply ldpc_targets_bound in Hb; [|done].
  apply (add_symbol_run (rp_L p)); lia || done.
Qed.

Lemma half_symbols_run c : symbols_ok c → half_symbols p c = Ret (ops_sym (half_ops (rp_K p) (rp_S p) (rp_m p)) c).
Proof.
  destruct Hp, Hsz. intros Hc. unfold half_symbols, half_ops.
  apply (foldO_flat ops_sym symbols_ok); [done|apply ops_sym_app|apply ops_sym_ok| |done].
  intros i c' Hi Hc'. apply elem_of_seqZ in Hi.
  rewrite m_index by lia. cbn [mbind outcome_bind]. fold (m_bits (rp_m p) i).
  apply (foldO_flat ops_sym symbols_ok); [done|apply ops_sym_app|apply ops_sym_ok| |done].
  intros j c'' Hj Hc''. apply (m_bits_bound (rp_H p)) in Hj; [|done].
  apply (add_symbol_run (rp_L p)); lia || done.
Qed.

Lemma p_eff_run row :
  row_ok row → ∃ r1, half_row (rp_K p) (rp_S p) (rp_H p) (rp_m p) row = Ret r1 ∧
    row_ok r1 ∧ ldpc_row (rp_K p) (rp_S p) r1 = Ret (p_eff row) ∧ row_ok (p_eff row).
Proof.
  destruct Hp as [HK HS HH HL _ _ _ _ Hm Hmb _ _]. rewrite HL. intros Hrow.
  exists (ops_row (half_row_ops (rp_K p) (rp_S p) (rp_H p) (rp_m p)) row).
  split; [by apply half_row_run|]. split; [by apply ops_row_ok|].
  split; [by rewrite (ldpc_row_run _ _ (rp_H p)) by (done || by apply ops_row_ok)|by apply eff_ok].
Qed.

Lemma p_dot_ext r c : row_ok r → symbols_ok c → dot n (p_eff r) c = dot n r (p_ext c).
Proof.
  destruct Hp as [HK HS HH HL _ _ _ _ Hm Hmb _ _]. rewrite HL. intros Hr Hc. by apply dot_ext.
Qed.

(** ** The LT code *)

Lemma dot_flips idx r c :
  Forall (λ b, 0 <= b < rp_L p) idx → row_ok r → symbols_ok c →
  dot n (fold_left (λ r b, flip (Z.to_nat b) r) idx r) c =
    fold_left (λ e b, xorv e (c !!! Z.to_nat b)) idx (dot n r c).
Proof.
  intros Hidx Hr [Hcl Hc]. revert r Hr. induction Hidx as [|b idx Hb Hidx IH]; intros r [Hrl Hr]; [done|]. cbn [fold_left].
  rewrite IH by (split; [unfold zlen in *; by rewrite length_flip|by apply bits_flip]). f_equal.
  apply dot_flip; [done|..|unfold zlen in *; lia|done]. apply list_lookup_lookup_total_lt. unfold zlen in *. lia.
Qed.

(** Row [i] of the matrix says which intermediate symbols encoding symbol [i] is
    the sum of. *)
Lemma lt_run i :
  0 <= i < zlen (rp_U p) → ∃ r, lt_row (rp_L p) (rp_Lp p) (rp_U p) i = Ret r ∧ row_ok r ∧
    ∀ c, symbols_ok c → lt_symbol p c i = Ret (dot n r c).
Proof.
  destruct Hp as [HK HS HH HL Hpr HLp HU _ _ _ _ _]. intros Hi. unfold lt_row, lt_symbol.
  destruct (index_in (rp_U p) i Hi) as ([[d a] b] & Hu & ->). cbn [mbind outcome_bind].
  pose proof (Forall_lookup_1 _ _ _ _ HU Hu) as [Ha Hb]. simpl in Ha, Hb.
  destruct (lt_indices_run (rp_L p) (rp_Lp p) a Hpr ltac:(lia) Ha d b Hb) as (b0 & l & -> & Hidx).
  cbn [mbind outcome_bind]. exists (fold_left (λ r b, flip (Z.to_nat b) r) (b0 :: l) (zeros (rp_L p))).
  assert (row_ok (zeros (rp_L p))) as Hz.
  { split; [unfold zlen, zeros; rewrite length_replicate; lia|apply bits_zeros]. }
  split; [|split].
  - assert (∀ idx r, Forall (λ b, 0 <= b < rp_L p) idx → zlen r = rp_L p →
      foldO toggle idx r = Ret (fold_left (λ r b, flip (Z.to_nat b) r) idx r)) as Hgen; [|apply Hgen; [done|apply Hz]].
    clear. induction idx as [|b idx IH]; intros r Hidx Hr; [done|]. apply Forall_cons_1 in Hidx as [Hb Hidx].
    cbn [foldO fold_left]. rewrite toggle_run by lia. cbn [mbind outcome_bind]. apply IH; [done|].
    unfold zlen in *. by rewrite length_flip.
  - assert (∀ (idx : list Z) r, row_ok r → row_ok (fold_left (λ r b, flip (Z.to_nat b) r) idx r)) as Hgen; [|by apply Hgen].
    clear. induction idx as [|b idx IH]; intros r [Hl Hr]; [done|]. cbn [fold_left]. apply IH.
    split; [unfold zlen in *; by rewrite length_flip|by apply bits_flip].
  - intros c Hc. rewrite dot_flips by done. pose proof Hc as [Hcl Hcs].
    apply Forall_cons_1 in Hidx as [Hb0 Hl].
    destruct (index_in c b0 ltac:(lia)) as (e & He & ->). cbn [mbind outcome_bind fold_left].
    unfold zeros. rewrite dot_zeros by done. rewrite (list_lookup_total_correct _ _ _ He).
    pose proof (Forall_lookup_1 _ _ _ _ Hcs He) as Hel. simpl in Hel.
    rewrite xorv_zeros_l by done. clear b0 Hb0 He. revert e Hel. induction Hl as [|b1 l Hb1 Hl IH]; intros e Hel; [done|].
    cbn [foldO fold_left]. destruct (index_in c b1 ltac:(lia)) as (s & Hs & ->). cbn [mbind outcome_bind].
    pose proof (Forall_lookup_1 _ _ _ _ Hcs Hs) as Hsl. simpl in Hsl. rewrite (list_lookup_total_correct _ _ _ Hs).
    destruct Hsz. rewrite vector_xor_run by (unfold zlen; done || lia). cbn [mbind outcome_bind].
    apply IH. by apply length_xorv.
Qed.

(** ** The matrix *)

(** Row [i] of the matrix over the [L] intermediate symbols. *)
Definition p_row (i : Z) : list Z :=
  match lt_row (rp_L p) (rp_Lp p) (rp_U p) i with Ret r => r | _ => [] end.

(** The same over the first [K] intermediate symbols, which determine the rest. *)
Definition p_gen (i : Z) : list Z := take (Z.to_nat (rp_K p)) (p_eff (p_row i)).

(** The first [K] intermediate symbols, before the others are computed. *)
Definition pad (c0 : list (list Z)) : list (list Z) :=
  c0 ++ replicate (Z.to_nat (rp_L p - rp_K p)) (zeros (rp_SYMBOL_SIZE p)).

Abbreviation in_range i := (0 <= i < zlen (rp_U p)).

(** [K] symbols. *)
Definition source_ok (d : list (list Z)) : Prop := zlen d = rp_K p ∧ syms n d.

Lemma p_row_run i :
  in_range i → lt_row (rp_L p) (rp_Lp p) (rp_U p) i = Ret (p_row i) ∧ row_ok (p_row i) ∧
    ∀ c, symbols_ok c → lt_symbol p c i = Ret (dot n (p_row i) c).
Proof. intros Hi. unfold p_row. by destruct (lt_run i Hi) as (r & -> & Hr). Qed.

Lemma p_gen_ok i : in_range i → length (p_gen i) = Z.to_nat (rp_K p) ∧ bits (p_gen i).
Proof.
  intros Hi. destruct (p_row_run i Hi) as (_ & Hr & _). destruct (p_eff_run _ Hr) as (_ & _ & _ & _ & [Hl Hb]).
  destruct Hp. unfold p_gen. rewrite length_take. split; [unfold zlen in *; lia|by apply Forall_take].
Qed.

Lemma length_zeros k : length (zeros k) = Z.to_nat k.
Proof. apply length_replicate. Qed.

Lemma pad_ok c0 : source_ok c0 → symbols_ok (pad c0).
Proof.
  intros [Hl Hc]. destruct Hp. unfold pad. split.
  - unfold zlen in *. rewrite length_app, length_replicate. lia.
  - apply Forall_app. split; [done|]. apply Forall_replicate. apply length_zeros.
Qed.

(** Encoding symbol [i] is the product of its row and the first [K] intermediate symbols. *)
Lemma lt_encode i c0 :
  in_range i → source_ok c0 → lt_symbol p (p_ext (pad c0)) i = Ret (dot n (p_gen i) c0).
Proof.
  intros Hi Hc0. destruct (p_row_run i Hi) as (_ & Hr & Hsym). pose proof (pad_ok _ Hc0) as Hpad.
  rewrite Hsym by (by apply ops_sym_ok, ops_sym_ok). f_equal.
  rewrite <-p_dot_ext by done. destruct (p_eff_run _ Hr) as (_ & _ & _ & _ & [Hl _]). destruct Hc0 as [Hcl Hc].
  unfold p_gen, pad. rewrite <-(take_drop (Z.to_nat (rp_K p)) (p_eff (p_row i))) at 1.
  destruct Hp. unfold zlen in *.
  rewrite dot_app; [|rewrite length_take; lia|done|apply Forall_replicate, length_zeros].
  unfold zeros. rewrite dot_zero_symbols. rewrite xorv_comm. apply xorv_zeros_l. by apply length_dot.
Qed.

Lemma rows_run idx N :
  Forall (λ i, in_range i) idx → zlen idx = N →
  ∃ A1, InverseHALF_mp (rp_K p) (rp_S p) (rp_H p) (rp_m p) (p_row <$> idx) N = Ret A1 ∧
    InverseLDPC_mp (rp_K p) (rp_S p) A1 N = Ret ((λ i, p_eff (p_row i)) <$> idx).
Proof.
  intros Hidx HN. destruct Hp as [HK HS HH HL _ _ _ _ Hm Hmb _ _].
  set (h := ops_row (half_row_ops (rp_K p) (rp_S p) (rp_H p) (rp_m p))).
  assert (∀ r, r ∈ p_row <$> idx → row_ok r) as Hrows.
  { intros r (i & -> & Hi)%list_elem_of_fmap. rewrite Forall_forall in Hidx.
    by apply p_row_run, Hidx. }
  exists (h <$> (p_row <$> idx)). split.
  - apply map_rows_run; [unfold zlen in *; by rewrite length_fmap|]. intros r Hr. apply Hrows in Hr.
    rewrite HL in Hr. by apply half_row_run.
  - unfold InverseLDPC_mp. rewrite (map_rows_run _ _ (ops_row (ldpc_ops (rp_K p) (rp_S p)))).
    + f_equal. by rewrite <-!list_fmap_compose.
    + unfold zlen in *. by rewrite !length_fmap.
    + intros r' (r & -> & Hr)%list_elem_of_fmap. apply Hrows in Hr. rewrite HL in Hr.
      apply (ldpc_row_run _ _ (rp_H p)); try done. by apply ops_row_ok.
Qed.

(** *** Its inverse *)

Abbreviation k := (Z.to_nat (rp_K p)).
Abbreviation src_ok := (λ b : list Z, length b = k ∧ bits b).

(** The equations of the source symbols; the right-hand sides select one of them. *)
Definition src_system : system := (λ i, (p_gen i, unit_row (rp_K p) i)) <$> seqZ 0 (rp_K p).

Lemma length_src_system : length src_system = k.
Proof. unfold src_system. by rewrite length_fmap, length_seqZ. Qed.

Lemma source_range i : i ∈ seqZ 0 (rp_K p) → in_range i.
Proof. intros Hi%elem_of_seqZ. destruct Hp. lia. Qed.

Lemma rp_A_eq : rp_A p = (λ i, p_eff (p_row i)) <$> seqZ 0 (rp_K p).
Proof.
  destruct (po_A _ Hp) as (A0 & A1 & HA0 & HA1 & HA). destruct Hp.
  unfold FindMatrixA_mp in HA0. rewrite (mapO_run _ p_row) in HA0
    by (intros i Hi; apply p_row_run, source_range, Hi). injection HA0 as <-.
  destruct (rows_run (seqZ 0 (rp_K p)) (rp_K p)) as (A1' & HA1' & HA').
  - apply Forall_forall. apply source_range.
  - unfold zlen. rewrite length_seqZ. lia.
  - rewrite HA1 in HA1'. injection HA1' as <-. rewrite HA in HA'. by injection HA'.
Qed.

Lemma unit_row_ok i : src_ok (unit_row (rp_K p) i).
Proof.
  unfold unit_row, zeros. split; [by rewrite length_insert, length_replicate|].
  apply Forall_insert; [apply bits_zeros|by right].
Qed.

Lemma src_system_start :
  progress k k src_ok src_system 0 (src_system.*1, src_system.*2) src_system.
Proof.
  split; [| |done|lia|by intros n' f c].
  - assert (∀ e, e ∈ src_system → length e.1 = k) as Hw.
    { intros e (i & -> & Hi)%list_elem_of_fmap. by apply p_gen_ok, source_range. }
    split; simpl; [|done|].
    + rewrite <-list_fmap_compose. apply list_fmap_ext. intros i e He%list_elem_of_lookup_2. simpl.
      rewrite take_ge; [done|]. by rewrite Hw.
    + apply Forall_fmap, Forall_forall. intros e He. by apply Hw.
  - apply Forall_fmap, Forall_forall. intros i Hi. destruct (p_gen_ok i (source_range i Hi)).
    split; [done|split; [done|apply unit_row_ok]].
Qed.

Lemma inverse_run : gauss_result k k src_ok src_system (Some (rp_AI p)).
Proof.
  pose proof (po_AI _ Hp) as HAI. unfold FindInverseMatrix_mp in HAI.
  assert (rp_K p = Z.of_nat k) as HKk by (destruct Hp; lia).
  rewrite (map_rows_run _ _ (take k)) in HAI.
  - cbn [mbind outcome_bind] in HAI.
    replace (take k <$> rp_A p) with src_system.*1 in HAI
      by (rewrite rp_A_eq; unfold src_system; by rewrite <-!list_fmap_compose).
    replace (unit_row (rp_K p) <$> seqZ 0 (rp_K p)) with src_system.*2 in HAI
      by (unfold src_system; by rewrite <-list_fmap_compose).
    destruct (inverse_loop_run k src_ok src_system length_src_system) with (M := (src_system.*1, src_system.*2))
      as (r & Hrun & Hr).
    + intros b b' [Hl Hb] [Hl' Hb']. split; [by apply length_xorv|by apply bits_xorv].
    + apply src_system_start.
    + rewrite <-HKk, HAI in Hrun. by injection Hrun as <-.
  - rewrite rp_A_eq. unfold zlen. rewrite length_fmap, length_seqZ. lia.
  - intros row Hrow. rewrite rp_A_eq in Hrow. apply list_elem_of_fmap in Hrow as (i & -> & Hi).
    destruct (p_row_run i (source_range i Hi)) as (_ & Hr & _).
    destruct (p_eff_run _ Hr) as (_ & _ & _ & _ & [Hl _]). destruct Hp.
    unfold slice, zslice. rewrite bool_decide_true by lia. by rewrite Nat.sub_0_r, drop_0.
Qed.

(** Reading a right-hand side for the data [d]. *)
Lemma src_rhs d : source_ok d → rhs_map src_ok n (λ b, dot n b d).
Proof.
  intros [Hl Hd]. split; [|intros; by apply length_dot].
  intros b b' [Hb Hbb] [Hb' Hbb']. apply dot_xorv_row; try done. by rewrite Hb, Hb'.
Qed.

Lemma src_solves c d :
  source_ok d →
  Forall (solves n (λ b, dot n b d) c) src_system ↔ (λ i, dot n (p_gen i) c) <$> seqZ 0 (rp_K p) = d.
Proof.
  intros [Hl Hd]. unfold src_system. rewrite Forall_fmap.
  assert (∀ i s, 0 <= i < rp_K p → d !! Z.to_nat i = Some s → dot n (unit_row (rp_K p) i) d = s) as Hu.
  { intros i s Hi Hs. apply (dot_unit n k (Z.to_nat i)); [done|lia|done]. }
  split.
  - intros H. apply list_eq_same_length with (n := k); [unfold zlen in *; lia|by rewrite length_fmap, length_seqZ|].
    intros i x y Hi. rewrite list_lookup_fmap. rewrite (lookup_seqZ_lt 0 (rp_K p) i) by lia. rewrite Z.add_0_l. simpl. intros [= <-] Hy.
    rewrite Forall_forall in H. specialize (H (Z.of_nat i)). unfold solves in H. simpl in H. rewrite H.
    + apply Hu; [lia|by rewrite Nat2Z.id].
    + apply elem_of_seqZ. lia.
  - intros H. apply Forall_forall. intros i Hi%elem_of_seqZ. unfold solves. simpl.
    symmetry. apply Hu; [lia|]. rewrite <-H, list_lookup_fmap, lookup_seqZ_lt by lia. simpl. f_equal.
    f_equal. f_equal. lia.
Qed.

(** ** The encoder *)

(** The first [K] intermediate symbols of the data. *)
Definition inter (d : list (list Z)) : list (list Z) := (λ row, dot n row d) <$> rp_AI p.

(** Encoding symbol [i] of the data. *)
Definition code (d : list (list Z)) (i : Z) : list Z := dot n (p_gen i) (inter d).

Lemma AI_ok : Forall src_ok (rp_AI p) ∧ zlen (rp_AI p) = rp_K p.
Proof.
  destruct (gauss_solution k k src_ok src_system (rp_AI p) 0 (λ _, []) inverse_run length_src_system) as (H1 & H2 & _).
  - by split.
  - destruct Hp. split; [done|]. unfold zlen. lia.
Qed.

Lemma inter_ok d : source_ok d → source_ok (inter d).
Proof.
  intros [Hl Hd]. destruct AI_ok as [_ HAI]. unfold inter. split; [unfold zlen in *; by rewrite length_fmap|].
  apply Forall_fmap, Forall_forall. intros row _. by apply length_dot.
Qed.

(** The source symbols are the first encoding symbols. *)
Lemma code_source d : source_ok d → code d <$> seqZ 0 (rp_K p) = d.
Proof.
  intros Hd. apply src_solves; [done|].
  by apply (gauss_solution k k src_ok src_system (rp_AI p) n (λ b, dot n b d) inverse_run length_src_system), src_rhs.
Qed.

(** The intermediate symbols are determined by the source symbols. *)
Lemma inter_unique c d :
  source_ok c → source_ok d → (λ i, dot n (p_gen i) c) <$> seqZ 0 (rp_K p) = d → inter d = c.
Proof.
  intros [Hcl Hc] Hd H. destruct AI_ok as [_ HAI]. destruct Hp.
  rewrite <-(gauss_unique k k src_ok src_system (rp_AI p) n (λ b, dot n b d) c inverse_run); try done.
  - by rewrite take_ge by (unfold zlen in *; lia).
  - by rewrite length_src_system.
  - by apply src_rhs.
  - unfold zlen in *; lia.
  - by apply src_solves.
Qed.

(** The inner loop adds the data that row [j] of the inverse selects to symbol [j]. *)
Lemma intermediate_inner (row : list Z) (d : list (list Z)) j i r d' c cj :
  index (rp_AI p) (Z.of_nat j) = Ret row → (length r = length d')%nat → syms n d' →
  drop i row = r → drop i d = d' → c !! j = Some cj → length cj = n →
  foldO (λ i c, row ← index (rp_AI p) (Z.of_nat j); x ← index row i;
    if x =? 1 then cj ← index c (Z.of_nat j); di ← index d i;
      cj ← vector_xor_mp cj di (rp_SYMBOL_SIZE p); set_index c (Z.of_nat j) cj else Ret c)
    (Z.of_nat <$> seq i (length r)) c = Ret (<[j := xorv cj (dot n r d')]> c).
Proof.
  intros Hrow. match goal with |- context [foldO ?f] => set (F := f) end.
  revert i d' c cj. induction r as [|x r IH]; intros i [|s d'] c cj Hlen Hd Hr Hd' Hcj Hl; try done.
  { cbn [length seq fmap list_fmap foldO dot]. rewrite xorv_comm, xorv_zeros_l by done. by rewrite list_insert_id. }
  apply Forall_cons_1 in Hd as [Hs Hd]. injection Hlen as Hlen.
  apply drop_cons_inv in Hr as [Hx Hr]. apply drop_cons_inv in Hd' as [Hsd Hd'].
  assert (F (Z.of_nat i) c = Ret (if x =? 1 then <[j := xorv cj s]> c else c)) as HF.
  { unfold F. rewrite Hrow. cbn [mbind outcome_bind]. rewrite (index_to_nat row _ x) by (rewrite ?Nat2Z.id; done || lia).
    cbn [mbind outcome_bind]. destruct (x =? 1); [|done].
    rewrite (index_to_nat c _ cj), (index_to_nat d _ s) by (rewrite ?Nat2Z.id; done || lia). cbn [mbind outcome_bind].
    destruct Hsz. rewrite vector_xor_run by (unfold zlen; unfold n in *; done || lia). cbn [mbind outcome_bind].
    by rewrite set_index_nat by (by eapply lookup_lt_Some). }
  cbn [length seq fmap list_fmap foldO dot]. rewrite HF. cbn [mbind outcome_bind].
  fold (Z.of_nat <$> seq (S i) (length r)). destruct (x =? 1); [|by apply IH].
  rewrite (IH (S i) d' _ (xorv cj s)); try done; [by rewrite list_insert_insert_eq, xorv_assoc|
    by rewrite list_lookup_insert_eq by (by eapply lookup_lt_Some)|by apply length_xorv].
Qed.

Lemma intermediate_run d : source_ok d → intermediate p d = Ret (pad (inter d)).
Proof.
  intros [Hl Hd]. destruct AI_ok as [HAI HAIl]. unfold intermediate, pad, inter.
  assert (∀ rows j done, drop j (rp_AI p) = rows → length done = j → (j + length rows = k)%nat →
    foldO (λ j c, foldO (λ i c, row ← index (rp_AI p) j; x ← index row i;
      if x =? 1 then cj ← index c j; di ← index d i;
        cj ← vector_xor_mp cj di (rp_SYMBOL_SIZE p); set_index c j cj else Ret c) (seqZ 0 (rp_K p)) c)
      (Z.of_nat <$> seq j (length rows)) (done ++ replicate (Z.to_nat (rp_L p) - j) (zeros (rp_SYMBOL_SIZE p))) =
    Ret (done ++ ((λ row, dot n row d) <$> rows) ++ replicate (Z.to_nat (rp_L p - rp_K p)) (zeros (rp_SYMBOL_SIZE p)))) as Hgen.
  2:{ destruct Hp. etransitivity; [|apply (Hgen (rp_AI p) 0%nat []); [done|done|unfold zlen in *; lia]].
      rewrite Nat.sub_0_r. f_equal. rewrite <-seqZ_nat. f_equal. unfold zlen in *. lia. }
  match goal with |- context [foldO ?f] => set (F := f) end.
  destruct Hp. induction rows as [|row rows IH]; intros j done Hrows Hdone Hj.
  { simpl in Hj. cbn [length seq fmap list_fmap foldO app]. repeat f_equal. lia. }
  cbn [length] in Hj. apply drop_cons_inv in Hrows as [Hrow Hrows].
  pose proof (Forall_lookup_1 _ _ _ _ HAI Hrow) as [Hrl _].
  assert (seqZ 0 (rp_K p) = Z.of_nat <$> seq 0 (length row)) as Hseq by (rewrite <-seqZ_nat; f_equal; lia).
  set (c := done ++ _). assert (c !! j = Some (zeros (rp_SYMBOL_SIZE p))) as Hcj.
  { unfold c. rewrite lookup_app_r, Hdone, Nat.sub_diag by lia. apply lookup_replicate. split; [done|lia]. }
  assert (F (Z.of_nat j) c = Ret (<[j := dot n row d]> c)) as HF.
  { unfold F. rewrite Hseq. rewrite <-(xorv_zeros_l n (dot n row d)) by (by apply length_dot).
    apply (intermediate_inner row d j 0 row d); try done; [|unfold zlen in *; lia|apply length_zeros].
    apply index_to_nat; [lia|by rewrite Nat2Z.id]. }
  cbn [length seq fmap list_fmap foldO]. rewrite HF. cbn [mbind outcome_bind].
  fold (Z.of_nat <$> seq (S j) (length rows)). unfold c.
  replace (Z.to_nat (rp_L p) - j)%nat with (S (Z.to_nat (rp_L p) - S j)) by lia. cbn [replicate].
  rewrite insert_app_r_alt, Hdone, Nat.sub_diag by lia. cbn [insert list_insert].
  rewrite cons_middle, app_assoc, IH; [by rewrite <-app_assoc|done|rewrite length_app; simpl; lia|lia].
Qed.

Lemma extend_run c :
  symbols_ok c → ∃ c1, ldpc_symbols p c = Ret c1 ∧ half_symbols p c1 = Ret (p_ext c).
Proof.
  intros Hc. exists (ops_sym (ldpc_ops (rp_K p) (rp_S p)) c). split; [by apply ldpc_symbols_run|].
  rewrite half_symbols_run by (by apply ops_sym_ok). done.
Qed.

Lemma lt_code_run d num :
  source_ok d → num <= zlen (rp_U p) → LTCode_mp p (p_ext (pad (inter d))) num = Ret (code d <$> seqZ 0 num).
Proof.
  intros Hd Hnum. apply mapO_run. intros i Hi%elem_of_seqZ. apply lt_encode; [lia|by apply inter_ok].
Qed.

Lemma encoder_run d num :
  source_ok d → num <= zlen (rp_U p) → RaptorEncoder2_mp d p num = Ret (code d <$> seqZ 0 num).
Proof.
  intros Hd Hnum. unfold RaptorEncoder2_mp. rewrite intermediate_run by done. cbn [mbind outcome_bind].
  destruct (extend_run (pad (inter d))) as (c1 & -> & H1); [by apply pad_ok, inter_ok|].
  cbn [mbind outcome_bind]. rewrite H1. by apply lt_code_run.
Qed.

(** ** The decoder *)

Abbreviation size_ok := (λ b : list Z, length b = n).

(** The equations of the received symbols. *)
Definition recv_system (d : list (list Z)) (idx : list Z) : system := (λ i, (p_gen i, code d i)) <$> idx.

Lemma code_len d i : source_ok d → length (code d i) = n.
Proof. intros Hd. apply length_dot. by apply inter_ok. Qed.

Lemma recv_start d idx :
  source_ok d → Forall (λ i, in_range i) idx →
  progress k (Z.to_nat (rp_L p)) size_ok (recv_system d idx) 0
    ((λ i, p_eff (p_row i)) <$> idx, code d <$> idx) (recv_system d idx).
Proof.
  intros Hd Hidx. split; [| |done|lia|by intros n' f c].
  - split; simpl; unfold recv_system; [by rewrite <-!list_fmap_compose..|].
    apply Forall_fmap. eapply Forall_impl; [exact Hidx|]. intros i Hi. simpl.
    destruct (p_row_run i Hi) as (_ & Hr & _). destruct (p_eff_run _ Hr) as (_ & _ & _ & _ & [Hl _]).
    unfold zlen in *. lia.
  - apply Forall_fmap. eapply Forall_impl; [exact Hidx|]. intros i Hi. simpl.
    destruct (p_gen_ok i Hi). split; [done|]. split; [done|]. by apply code_len.
Qed.

(** The received symbols are those of other data as well. *)
Definition ambiguous (d : list (list Z)) (idx : list Z) : Prop :=
  ∃ d', source_ok d' ∧ (Forall bytes_ok d → Forall bytes_ok d') ∧ d' ≠ d ∧ code d' <$> idx = code d <$> idx.

Lemma recv_ambiguous d idx W :
  source_ok d → gauss_result k W size_ok (recv_system d idx) None → ambiguous d idx.
Proof.
  intros Hd Hg. set (s := 1 :: replicate (n - 1) 0). destruct (inter_ok d Hd) as [Hil His].
  assert (0 < n)%nat as Hn by (destruct Hsz; unfold n; lia).
  assert (length s = n) as Hs by (unfold s; simpl; rewrite length_replicate; lia).
  destruct (gauss_kernel _ _ _ _ n s Hg Hs) as (z & Hz & Hzl & Hin & Hzv & Hsol).
  set (c := zip_with xorv (inter d) z).
  assert (length c = k) as Hcl by (unfold c; rewrite length_zip_with; unfold zlen in *; lia).
  assert (source_ok c) as Hc.
  { destruct Hp. split; [unfold zlen; lia|]. apply (Forall_zip_xorv size_ok); try done.
    intros. by apply length_xorv. }
  assert (∀ i, dot n (p_gen i) c = xorv (code d i) (dot n (p_gen i) z)) as Hdot.
  { intros i. apply dot_xorv_symbols; [unfold zlen in *; lia|done|done]. }
  set (d' := (λ i, dot n (p_gen i) c) <$> seqZ 0 (rp_K p)).
  assert (source_ok d') as Hd'.
  { destruct Hp. unfold d'. split; [unfold zlen; rewrite length_fmap, length_seqZ; lia|].
    apply Forall_fmap, Forall_forall. intros i _. apply length_dot, Hc. }
  assert (inter d' = c) as Hinter by (by apply inter_unique).
  exists d'. split; [done|]. split; [|split].
  - intros Hb. apply Forall_fmap, Forall_forall. intros i _. apply bytes_dot.
    apply Forall_zip_xorv; [apply bytes_xorv|..].
    + apply Forall_fmap, Forall_forall. intros row _. by apply bytes_dot.
    + eapply Forall_impl; [exact Hzv|]. intros x [-> | ->]; [|apply bytes_zeros].
      constructor; [done|apply bytes_zeros].
  - intros Heq. rewrite Heq in Hinter. apply list_elem_of_lookup in Hin as [j Hj].
    destruct (lookup_lt_is_Some_2 (inter d) j) as [x Hx];
      [pose proof (lookup_lt_Some _ _ _ Hj); unfold zlen in *; lia|].
    assert (c !! j = Some (xorv x s)) as Hcj by (unfold c; by rewrite lookup_zip_with, Hx, Hj).
    rewrite <-Hinter, Hx in Hcj. injection Hcj as Hxs.
    pose proof (Forall_lookup_1 _ _ _ _ His Hx) as Hxl. simpl in Hxl.
    assert (s = replicate n 0) as Hs0.
    { apply (xorv_inj_l _ _ x n); [done|apply length_replicate|done|].
      rewrite xorv_zeros_l by done. by rewrite xorv_comm. }
    unfold s in Hs0. destruct n; [lia|]. simpl in Hs0. done.
  - apply list_fmap_ext. intros j i Hji. unfold code at 1. rewrite Hinter, Hdot.
    unfold recv_system in Hsol. rewrite Forall_fmap in Hsol. pose proof (Forall_lookup_1 _ _ _ _ Hsol Hji) as H0.
    simpl in H0. rewrite H0, xorv_comm. apply xorv_zeros_l. by apply code_len.
Qed.

Context (Hfit : 16 * ((rp_K p + 15) / 16) <= rp_L p).

Lemma solve_run d idx :
  source_ok d → Forall (λ i, in_range i) idx → zlen idx = rp_N p → rp_K p <= rp_N p →
  ∃ r, solve_loop k p 0 ((λ i, p_eff (p_row i)) <$> idx, code d <$> idx) = Ret r ∧
    match r with
    | Some rhs => rp_K p <= zlen rhs ∧ take k rhs = inter d
    | None => ambiguous d idx
    end.
Proof.
  intros Hd Hidx HN HKN. pose proof Hp as [HK HS HH HL _ _ _ _ _ _ _ _]. destruct Hsz.
  assert (length (recv_system d idx) = length idx) as Hlen by (unfold recv_system; by rewrite length_fmap).
  destruct (solve_loop_run p k (Z.to_nat (rp_L p)) n (recv_system d idx)) with
    (M := ((λ i, p_eff (p_row i)) <$> idx, code d <$> idx)) as (r & Hrun & Hr);
    [lia|unfold zlen in *; lia|unfold n; lia|done|lia|unfold zlen in *; lia|by apply recv_start|].
  exists r. split; [done|]. destruct r as [rhs|]; [|by eapply recv_ambiguous].
  destruct (inter_ok d Hd) as [Hil His].
  assert (id <$> take k rhs = inter d) as Heq.
  { apply (gauss_unique k (Z.to_nat (rp_L p)) size_ok (recv_system d idx) rhs n); try done.
    - unfold zlen in *. lia.
    - unfold zlen in *. lia.
    - apply Forall_fmap, Forall_forall. done. }
  rewrite list_fmap_id in Heq. split; [|done]. apply (f_equal length) in Heq. rewrite length_take in Heq.
  unfold zlen in *. lia.
Qed.

(** The decoder gives the data or the received symbols do not determine them. *)
Lemma decoder_run d received dataMap :
  source_ok d → rp_K p <= rp_N p <= zlen dataMap → rp_N p <= zlen received →
  Forall (λ i, in_range i) (take (Z.to_nat (rp_N p)) dataMap) →
  take (Z.to_nat (rp_N p)) received = code d <$> take (Z.to_nat (rp_N p)) dataMap →
  ∃ r, RaptorDecoder_mp received dataMap p = Ret r ∧
    match r with
    | Some d' => d' = d
    | None => ambiguous d (take (Z.to_nat (rp_N p)) dataMap)
    end.
Proof.
  intros Hd HN Hrl Hidx Hrec. pose proof Hp as [HK HS HH HL _ _ _ HUK _ _ _ _]. set (idx := take _ dataMap) in *.
  assert (zlen idx = rp_N p) as Hil by (unfold idx, zlen in *; rewrite length_take; lia).
  unfold RaptorDecoder_mp, FindMatrixAUsingSymbols_mp.
  rewrite (take_rows_run dataMap _ p_row); [|lia|].
  2:{ intros i Hi. apply p_row_run. rewrite Forall_forall in Hidx. by apply Hidx. }
  cbn [mbind outcome_bind]. fold idx. destruct (rows_run idx (rp_N p) Hidx Hil) as (A1 & -> & HA1).
  cbn [mbind outcome_bind]. rewrite HA1. cbn [mbind outcome_bind]. unfold IntermediateKSymbols_mp.
  rewrite (take_rows_run received _ id); [|lia|].
  2:{ rewrite Hrec. intros e (i & -> & _)%list_elem_of_fmap. apply slice_full. unfold zlen, id.
      rewrite code_len by done. destruct Hsz. unfold n. lia. }
  cbn [mbind outcome_bind]. rewrite list_fmap_id, Hrec.
  destruct (solve_run d idx Hd Hidx Hil ltac:(lia)) as (r & Hr & Hres).
  change (Z.to_nat (rp_K p)) with k. rewrite Hr.
  cbn [mbind outcome_bind]. destruct r as [rhs|]; [|by exists None]. destruct Hres as [HKr Hrhs].
  assert (mapO (index rhs) (seqZ 0 (rp_K p)) = Ret (take k rhs)) as ->.
  { rewrite (mapO_ext _ (λ i, a ← index rhs i; Ret a)).
    - rewrite (take_rows_run rhs _ id); [by rewrite list_fmap_id|lia|done].
    - intros i Hi. by destruct (index rhs i). }
  cbn [mbind outcome_bind]. rewrite Hrhs. fold (pad (inter d)).
  destruct (extend_run (pad (inter d))) as (c1 & -> & H1); [by apply pad_ok, inter_ok|].
  cbn [mbind outcome_bind]. rewrite H1. cbn [mbind outcome_bind]. rewrite lt_code_run by done.
  cbn [mbind outcome_bind]. rewrite code_source by done. by exists (Some d).
Qed.
End Code.
