(* ===== verification/RaptorTheorems.v ===== *)
(** * The Raptor code: theorems

    [RaptorInitialization_mp] makes a parameter set that meets [params_ok], so
    what [RaptorCorrect] shows holds for every code it makes: the source symbols
    are the first encoding symbols, and the decoder gives the data back unless the
    received symbols are those of other data as well.  The last part is about
    [CreateRaptor], [Encode] and [Decode] with the configured sizes. *)

From stdpp Require Import base list numbers strings.
From Stdlib Require Import ZArith Lia Zdivisibility Floats.SpecFloat.
From S2P Require Import Prelude Config Monitor RaptorTables Raptor Gf2 RaptorCode Elimination RaptorCorrect.

(** ** The parameters *)

Lemma while_inc_spec fuel cond x y : while_inc fuel cond x = Ret y → x <= y ∧ cond y = false.
Proof.
  revert x. induction fuel as [|fuel IH]; intros x; cbn [while_inc]; destruct (cond x) eqn:E; intros H; try done.
  - by simplify_eq.
  - apply IH in H as [? ?]. split; [lia|done].
  - by simplify_eq.
Qed.

(** [Isp_mp] finds every divisor. *)
Lemma Isp_loop_spec fuel x i :
  Isp_loop fuel x i = true → 0 < i → x <= i + Z.of_nat fuel → ∀ j, i <= j < x → x mod j ≠ 0.
Proof.
  revert i. induction fuel as [|fuel IH]; intros i H Hi Hf j Hj; [lia|]. cbn [Isp_loop] in H.
  rewrite (proj2 (Z.ltb_lt i x)) in H by lia. destruct (Z.eqb_spec (x mod i) 0) as [|Hne]; [done|].
  destruct (decide (j = i)) as [->|]; [done|]. apply (IH (i + 1)); [done|lia..].
Qed.

Lemma Isp_prime x : 2 <= x → Isp_mp x = true → Z.prime x.
Proof.
  intros Hx H. split; [lia|]. intros j Hj Hd. apply Z.mod_divide in Hd; [|lia]. revert Hd.
  apply (Isp_loop_spec _ _ _ H); lia.
Qed.

Lemma rd_range X i m v : rd_mp X i m = Ret v → 0 < m → 0 <= v < m.
Proof.
  unfold rd_mp. intros H Hm. destruct (index V0 _) as [v0| |]; cbn [mbind outcome_bind] in H; try done.
  destruct (index V1 _) as [v1| |]; cbn [mbind outcome_bind] in H; try done. simplify_eq.
  pose proof (Z.mod_pos_bound (Z.lxor v0 v1) m Hm) as Hb. rewrite Z.mod_eq in Hb by lia. lia.
Qed.

Lemma triple_range K Lp i u :
  triple_mp K Lp i = Ret u → 2 <= Lp → 0 < u.1.2 < Lp ∧ 0 <= u.2 < Lp.
Proof.
  unfold triple_mp. intros H HL. destruct (index J K) as [Jk| |]; cbn [mbind outcome_bind] in H; try done.
  destruct (rd_mp _ 0 _) as [V| |]; cbn [mbind outcome_bind] in H; try done.
  destruct (rg_mp V) as [d| |]; cbn [mbind outcome_bind] in H; try done.
  destruct (rd_mp _ 1 _) as [a| |] eqn:Ea; cbn [mbind outcome_bind] in H; try done.
  destruct (rd_mp _ 2 _) as [b| |] eqn:Eb; cbn [mbind outcome_bind] in H; try done. simplify_eq. simpl.
  apply rd_range in Ea; [|lia]. apply rd_range in Eb; [|lia]. lia.
Qed.

Lemma gray_range H i : 0 <= i < 2 ^ H → 0 <= H → 0 <= Z.lxor i (i / 2) < 2 ^ H.
Proof.
  intros Hi HH. assert (0 <= i / 2 < 2 ^ H) as Hi2 by (zify_div; lia).
  assert (0 <= Z.lxor i (i / 2)) by (apply Z.lxor_nonneg; lia). split; [done|].
  apply Z.bounded_iff_bits_nonneg; [done|done|]. intros l Hl. rewrite Z.lxor_spec.
  rewrite (proj1 (Z.bounded_iff_bits_nonneg H i HH ltac:(lia)) ltac:(lia) l Hl).
  by rewrite (proj1 (Z.bounded_iff_bits_nonneg H (i / 2) HH ltac:(lia)) ltac:(lia) l Hl).
Qed.

Lemma gray_loop_spec H Hp fuel i n m :
  gray_loop fuel Hp i n = Ret m → 0 <= H → 0 <= i → i + Z.of_nat fuel <= 2 ^ H →
  length m = n ∧ Forall (λ x, 0 <= x < 2 ^ H) m.
Proof.
  revert i n m. induction fuel as [|fuel IH]; intros i [|n] m Hr HH Hi Hf; cbn [gray_loop] in Hr; try by simplify_eq.
  destruct (Hp =? _).
  - destruct (gray_loop fuel Hp (i + 1) n) as [l| |] eqn:E; cbn [mbind outcome_bind] in Hr; try done. simplify_eq.
    apply IH in E as [<- Hl]; [|lia..]. split; [done|]. constructor; [|done]. apply gray_range; lia.
  - apply IH in Hr; [done|lia..].
Qed.

(** The sign of a product of positive values. *)
Lemma f_ceil_round m e l : 0 <= f_ceil (binary_round_aux 53 1024 false m e l).
Proof.
  unfold binary_round_aux. destruct (shr_fexp 53 1024 m e l) as [r1 e1].
  destruct (shr_fexp 53 1024 _ e1 loc_Exact) as [r2 e2]. destruct (shr_m r2) as [|q|q]; try done.
  destruct (e2 <=? 1024 - 53); [|done]. simpl. pose proof (Z.shiftl_neg (Z.neg q) e2) as Hs.
  assert (Z.neg q < 0) as Hq by lia. apply Hs in Hq. lia.
Qed.

Lemma ceil_nonneg K : 0 < K → 0 <= f_ceil (f64_mul (f64_of_frac 1 100) (f64_of_Z K)).
Proof.
  intros HK. destruct K as [|K|K]; [done| |lia]. unfold f64_of_Z. cbn [binary_normalize]. unfold binary_round.
  destruct (shl_align _ _ _) as [mz ez]. unfold binary_round_aux.
  destruct (shr_fexp 53 1024 (Z.pos mz) ez loc_Exact) as [r1 e1].
  destruct (shr_fexp 53 1024 _ e1 loc_Exact) as [r2 e2]. destruct (shr_m r2) as [|q|q]; try done.
  destruct (e2 <=? 1024 - 53); [|done].
  change (0 <= f_ceil (binary_round_aux 53 1024 false (Z.pos (Pos.mul 5764607523034235 q)) (-59 + e2) loc_Exact)).
  apply f_ceil_round.
Qed.

Ltac step H := let E := fresh "E" in
  match type of H with
  | mbind _ ?c = _ => destruct c eqn:E; cbn [mbind outcome_bind] in H; try discriminate H
  end.

Lemma mapO_forall {A B} (f : A → outcome B) (P : B → Prop) l bs :
  mapO f l = Ret bs → (∀ a b, f a = Ret b → P b) → Forall P bs ∧ length bs = length l.
Proof.
  intros H HP. apply mapO_inv in H. split; [|symmetry; by eapply Forall2_length].
  eapply Forall2_Forall_r; [exact H|]. apply Forall_forall. intros a _ b. apply HP.
Qed.

Lemma FindMatrixA_rows K L Lp U A : FindMatrixA_mp K L Lp U = Ret A → 0 < K → K <= zlen U.
Proof.
  intros H HK. apply mapO_inv in H. rewrite (seqZ_split K (K - 1)) in H by lia.
  apply Forall2_app_inv_l in H as (l1 & l2 & _ & H & _). inversion H as [|? ? ? ? Hr]; subst.
  unfold lt_row in Hr. destruct (index U (K - 1)) as [u| |] eqn:E; cbn [mbind outcome_bind] in Hr; try done.
  apply index_inv in E. unfold zget in E. destruct (Z.ltb_spec (K - 1) 0); [done|].
  apply lookup_lt_Some in E. unfold zlen. lia.
Qed.

(** What [RaptorInitialization_mp] makes is what the theorems rely on. *)
Lemma init_params_ok K size minCR CR p :
  RaptorInitialization_mp K size minCR CR = Ret (Some p) → 0 < K →
  params_ok p ∧ rp_K p = K ∧ rp_SYMBOL_SIZE p = size ∧ zlen (rp_U p) = Z.max 0 (rp_M p).
Proof.
  unfold RaptorInitialization_mp. intros H HK.
  destruct (while_inc _ _ 1) as [X| |] eqn:EX in H; cbn [mbind outcome_bind] in H; try discriminate H.
  do 10 step H. destruct a8 as [AI|]; [|discriminate H].
  match type of H with Ret (Some ?q) = _ => assert (p = q) as -> by congruence end. clear H.
  apply while_inc_spec in EX as [HX1 HX]. apply Z.ltb_ge in HX.
  apply while_inc_spec in E as [_ HS0]. apply Z.ltb_ge in HS0. pose proof (ceil_nonneg K HK).
  apply while_inc_spec in E0 as [HS1 HS2]. apply while_inc_spec in E1 as [HH _].
  apply while_inc_spec in E2 as [HLp Hpr]. apply negb_false_iff in Hpr.
  assert (2 <= X) by (destruct (decide (X = 1)) as [->|]; lia).
  apply (mapO_forall _ (λ u, 0 < u.1.2 < a2 ∧ 0 <= u.2 < a2)) in E3 as [HU HUl].
  2:{ intros i u Hu. apply (triple_range _ _ _ _ Hu). lia. }
  pose proof (FindMatrixA_rows _ _ _ _ _ E4 HK) as HUK.
  apply (gray_loop_spec a1) in E5 as [Hml Hmb]; [|lia|done|rewrite Z2Nat.id by lia; lia].
  split; [|split; [done|split; [done|]]]; cbn [rp_U rp_M].
  - split; simpl; try done; try lia.
    + apply Isp_prime; [lia|done].
    + unfold zlen. lia.
    + by exists a4, a6.
  - unfold zlen. rewrite HUl, length_seqZ. lia.
Qed.

(** ** Symbols *)

(** [K] source symbols of the given size. *)
Definition data_ok (K size : Z) (data : list (list Z)) : Prop := zlen data = K ∧ Forall (λ s, zlen s = size) data.

(** The received symbols and the positions of each in the encoding symbols. *)
Definition received_of (e : list (list Z)) (dataMap : list Z) (received : list (list Z)) : Prop :=
  Forall2 (λ i s, zget e i = Some s) dataMap received.

Section Theorems.
Context (K size : Z) (minCR CR : spec_float) (p : raptor_params).
Context (Hinit : RaptorInitialization_mp K size minCR CR = Ret (Some p)).
Context (HK : 0 < K) (Hsize : 0 < size) (Hmod : size mod 16 = 0).

Lemma made_ok : params_ok p ∧ sizes_ok p ∧ rp_K p = K ∧ rp_SYMBOL_SIZE p = size ∧ zlen (rp_U p) = Z.max 0 (rp_M p).
Proof.
  destruct (init_params_ok _ _ _ _ _ Hinit HK) as (Hp & HKp & Hs & HU). split_and!; try done.
  split; by rewrite Hs.
Qed.

Lemma data_source data : data_ok K size data ↔ source_ok p data.
Proof.
  destruct made_ok as (_ & _ & HKp & Hs & _). unfold data_ok, source_ok. rewrite HKp, Hs.
  assert (Forall (λ s, zlen s = size) data ↔ Forall (λ s, length s = Z.to_nat size) data) as ->; [|done].
  rewrite !Forall_forall. unfold zlen. split; intros H s Hin; specialize (H s Hin); lia.
Qed.

Lemma encode_run data num e :
  data_ok K size data → num <= rp_M p → RaptorEncoder2_mp data p num = Ret e → e = code p data <$> seqZ 0 num.
Proof.
  destruct made_ok as (Hp & Hsz & HKp & Hs & HU). intros Hd%data_source Hnum.
  rewrite (encoder_run p Hp Hsz) by (done || lia). intros. by simplify_eq.
Qed.

Lemma code_lookup data num i s :
  zget (code p data <$> seqZ 0 num) i = Some s ↔ 0 <= i < num ∧ s = code p data i.
Proof.
  unfold zget. destruct (Z.ltb_spec i 0); [split; [done|lia]|]. rewrite list_lookup_fmap.
  destruct (decide (i < num)).
  - rewrite lookup_seqZ_lt by lia. rewrite Z2Nat.id, Z.add_0_l by lia. simpl. split; [intros; by simplify_eq|].
    by intros [_ ->].
  - rewrite lookup_seqZ_ge by lia. simpl. split; [done|lia].
Qed.

Lemma received_code data num dataMap received :
  received_of (code p data <$> seqZ 0 num) dataMap received ↔
  Forall (λ i, 0 <= i < num) dataMap ∧ received = code p data <$> dataMap.
Proof.
  unfold received_of. revert received. induction dataMap as [|i dataMap IH]; intros received.
  - split; [intros H; by inversion H|by intros [_ ->]].
  - rewrite Forall_cons. split.
    + intros H. inversion H as [|? s ? l [Hi ->]%code_lookup Hl]; subst. apply IH in Hl as [Hl ->]. done.
    + intros [[Hi Hl] ->]. constructor; [by apply code_lookup|]. by apply IH.
Qed.

Lemma decode_run data num dataMap received :
  16 * ((K + 15) / 16) <= rp_L p → data_ok K size data → num <= rp_M p →
  Forall (λ i, 0 <= i < num) dataMap → K <= rp_N p <= zlen dataMap → rp_N p <= zlen received →
  take (Z.to_nat (rp_N p)) received = code p data <$> take (Z.to_nat (rp_N p)) dataMap →
  ∃ r, RaptorDecoder_mp received dataMap p = Ret r ∧
    match r with
    | Some d => d = data
    | None => ambiguous p data (take (Z.to_nat (rp_N p)) dataMap)
    end.
Proof.
  intros Hfit Hd%data_source Hnum Hidx HN Hrl Hrec. destruct made_ok as (Hp & Hsz & HKp & Hs & HU).
  apply decoder_run; rewrite ?HKp; try done.
  apply Forall_take. eapply Forall_impl; [exact Hidx|]. simpl. lia.
Qed.
End Theorems.

(** ** Blocks *)

Lemma concat_zlen size l : Forall (λ s : list Z, zlen s = size) l → zlen (concat l) = zlen l * size.
Proof.
  unfold zlen. induction 1 as [|s l Hs Hl IH]; [done|]. cbn [concat length]. rewrite length_app, Nat2Z.inj_add, IH, Hs. lia.
Qed.

Lemma split_symbols size n (block : list Z) :
  0 <= size → 0 <= n → zlen block = n * size → ∃ l, block = concat l ∧ data_ok n size l.
Proof.
  intros Hs Hn. rewrite <-(Z2Nat.id n Hn). generalize (Z.to_nat n) as k. clear n Hn. intros k. revert block.
  induction k as [|k IH]; intros block Hl.
  - exists []. split; [|done]. apply nil_length_inv. unfold zlen in Hl. lia.
  - destruct (IH (drop (Z.to_nat size) block)) as (l & Hb & Hll & Hf); [unfold zlen in *; rewrite length_drop; lia|].
    exists (take (Z.to_nat size) block :: l). split; [cbn [concat]; by rewrite <-Hb, take_drop|].
    split; [unfold zlen in *; simpl; lia|]. constructor; [|done]. unfold zlen in *. rewrite length_take. lia.
Qed.

Lemma concat_symbols_inj K size l l' : data_ok K size l → data_ok K size l' → concat l = concat l' → l = l'.
Proof.
  intros [Hl Hf] [Hl' Hf']. rewrite <-Hl in Hl'. clear Hl. revert l' Hl' Hf'. unfold zlen in *.
  induction Hf as [|s l Hs Hf IH]; intros [|s' l'] Hl' Hf' Heq; try done.
  apply Forall_cons in Hf' as [Hs' Hf']. cbn [concat] in Heq. apply app_inj_1 in Heq as [-> Heq]; [|lia].
  f_equal. apply IH; [simpl in Hl'; lia|done|done].
Qed.

Lemma symbol_of_concat size l i s :
  Forall (λ s, zlen s = size) l → zget l i = Some s → symbol_of (concat l) size i = Ret s.
Proof.
  unfold zget. intros Hf. destruct (Z.ltb_spec i 0); [done|]. intros Hs.
  rewrite <-(take_drop_middle _ _ _ Hs) in Hf |- *. set (l1 := take _ l) in *. set (l2 := drop _ l) in *.
  assert (zlen l1 = i) as Hl1.
  { apply lookup_lt_Some in Hs. unfold l1, zlen. rewrite length_take. lia. }
  apply Forall_app in Hf as [Hf1 Hf2]. apply Forall_cons in Hf2 as [Hsl Hf2]. rewrite concat_app. cbn [concat].
  pose proof (concat_zlen _ _ Hf1) as Hc1. rewrite Hl1 in Hc1. unfold symbol_of, slice, zslice.
  unfold zlen in *. rewrite bool_decide_true by (rewrite !length_app; lia).
  rewrite drop_app_length' by lia. rewrite take_app_length' by lia. done.
Qed.

Lemma symbols_run size l n :
  Forall (λ s, zlen s = size) l → 0 <= n <= zlen l →
  mapO (symbol_of (concat l) size) (seqZ 0 n) = Ret (take (Z.to_nat n) l).
Proof.
  intros Hf Hn. rewrite (mapO_ext _ (λ i, a ← index l i; Ret a)).
  - rewrite (take_rows_run l _ id); [by rewrite list_fmap_id|done|done].
  - intros i Hi%elem_of_seqZ. destruct (index_in l i ltac:(lia)) as (s & Hs & ->).
    apply symbol_of_concat; [done|]. unfold zget. destruct (Z.ltb_spec i 0); [lia|done].
Qed.

(** ** The configured code *)

Lemma configured size :
  ∃ p, RaptorInitialization_mp 16 size (float64 FEC_MINIMUM_OVERHEAD) (f64_of_frac 8 10) = Ret (Some p) ∧
    rp_L p = 34 ∧ rp_N p = 17 ∧ rp_M p = 29.
Proof.
  assert (match RaptorInitialization_mp 16 size (float64 FEC_MINIMUM_OVERHEAD) (f64_of_frac 8 10) with
          | Ret (Some p) => (rp_L p, rp_N p, rp_M p) | _ => (0, 0, 0) end = (34, 17, 29)) as H by (vm_compute; reflexivity).
  destruct (RaptorInitialization_mp 16 size (float64 FEC_MINIMUM_OVERHEAD) (f64_of_frac 8 10)) as [[p|]| |]; try done.
  exists p. by simplify_eq.
Qed.

(** [CreateRaptor]'s result. *)
Definition the_raptor (p : raptor_params) : Raptor := {|
  rt_raptor_params := p;
  rt_SymbolSize := 1024;
  rt_NumSrcSymbols := 16;
  rt_NumEncSymbols := 20;
  rt_NumSymbolsForDecode := 18;
  rt_MinimumOverhead := FEC_MINIMUM_OVERHEAD;
  rt_CodeRate := f64_of_frac 8 10 |}.

Record made (p : raptor_params) : Prop := {
  made_eq : RaptorInitialization_mp 16 1024 (float64 FEC_MINIMUM_OVERHEAD) (f64_of_frac 8 10) = Ret (Some p);
}.

Section Configured.
Context (p : raptor_params).
Context (Hmade : made p).
Context (HL : rp_L p = 34) (HN : rp_N p = 17) (HM : rp_M p = 29).

Lemma create_run : CreateRaptor = Ret (the_raptor p).
Proof.
  unfold CreateRaptor, Raptor_init, FEC_NUM_SOURCE_SYMBOLS, FEC_SYMBOL_SIZE. rewrite (made_eq p Hmade). cbn [mbind outcome_bind].
  vm_compute. reflexivity.
Qed.

Lemma config_ok : params_ok p ∧ sizes_ok p ∧ rp_K p = 16 ∧ rp_SYMBOL_SIZE p = 1024 ∧ zlen (rp_U p) = 29.
Proof.
  destruct (made_ok _ _ _ _ _ (made_eq p Hmade) ltac:(lia) ltac:(lia) eq_refl) as (? & ? & ? & ? & HU). rewrite HM in HU. done.
Qed.

Lemma codes_size data l : data_ok 16 1024 data → Forall (λ s, zlen s = 1024) (code p data <$> l).
Proof.
  destruct config_ok as (Hp & Hsz & HK & Hs & _).
  intros Hd%(data_source _ _ _ _ _ (made_eq p Hmade) ltac:(lia) ltac:(lia) eq_refl).
  apply Forall_fmap, Forall_forall. intros i _. simpl. unfold zlen. rewrite code_len by done. by rewrite Hs.
Qed.

(** The redundancy symbols. *)
Definition fec_symbols (data : list (list Z)) : list (list Z) := code p data <$> seqZ 16 4.

Lemma block_code data :
  data_ok 16 1024 data → concat data ++ concat (fec_symbols data) = concat (code p data <$> seqZ 0 20).
Proof.
  destruct config_ok as (Hp & Hsz & HK & Hs & _).
  intros Hd%(data_source _ _ _ _ _ (made_eq p Hmade) ltac:(lia) ltac:(lia) eq_refl).
  rewrite <-(code_source p Hp Hsz data Hd) at 1. rewrite HK. unfold fec_symbols. by rewrite <-concat_app, <-fmap_app.
Qed.

Lemma Encode_run data :
  data_ok 16 1024 data → Encode (the_raptor p) (concat data) = Ret (concat (fec_symbols data)).
Proof.
  intros Hd. pose proof Hd as [Hl Hf]. pose proof (concat_zlen _ _ Hf) as Hcl. rewrite Hl in Hcl.
  pose proof (codes_size data (seqZ 16 4) Hd) as Hfec. pose proof (concat_zlen _ _ Hfec) as Hfl.
  destruct config_ok as (Hp & Hsz & HK & Hs & HU). unfold Encode.
  destruct (index_in (concat data) 0 ltac:(lia)) as (x & _ & ->). cbn [mbind outcome_bind].
  unfold raptor_encoding_mp. cbn [the_raptor rt_raptor_params rt_SymbolSize rt_NumSrcSymbols].
  replace (f_ceil (f64_div (f64_of_Z 16) (f64_of_frac 8 10))) with 20 by (vm_compute; reflexivity).
  rewrite symbols_run by (done || lia). cbn [mbind outcome_bind].
  rewrite take_ge by (unfold zlen in *; lia).
  pose proof Hd as Hd'%(data_source _ _ _ _ _ (made_eq p Hmade) ltac:(lia) ltac:(lia) eq_refl).
  rewrite encoder_run by (done || lia). cbn [mbind outcome_bind].
  rewrite (mapO_run _ (λ i, code p data (16 + i))).
  - cbn [mbind outcome_bind]. change ((λ i, code p data (16 + i)) <$> seqZ 0 (20 - 16)) with (fec_symbols data).
    apply slice_full. done.
  - intros i Hi%elem_of_seqZ. rewrite (index_Ret _ _ (code p data (16 + i))) by (apply code_lookup; split; [lia|done]).
    cbn [mbind outcome_bind]. apply slice_full. unfold zlen. by rewrite code_len, Hs by done.
Qed.

(** Only the first 16 symbols are read. *)
Lemma Encode_take block k :
  16 * 1024 <= k <= zlen block → Encode (the_raptor p) block = Encode (the_raptor p) (take (Z.to_nat k) block).
Proof.
  intros Hk. assert (zlen (take (Z.to_nat k) block) = k) as Hlt by (unfold zlen in *; rewrite length_take; lia).
  unfold Encode. destruct (index_in block 0 ltac:(lia)) as (x & _ & ->).
  destruct (index_in (take (Z.to_nat k) block) 0 ltac:(lia)) as (y & _ & ->). cbn [mbind outcome_bind].
  unfold raptor_encoding_mp. cbn [the_raptor rt_raptor_params rt_SymbolSize rt_NumSrcSymbols].
  rewrite (mapO_ext (symbol_of block 1024) (symbol_of (take (Z.to_nat k) block) 1024)); [reflexivity|].
  intros i Hi%elem_of_seqZ. unfold symbol_of, slice, zslice. rewrite !bool_decide_true by lia.
  rewrite skipn_firstn_comm, take_take. repeat f_equal. lia.
Qed.

(** Only the first 17 symbols matter. *)
Lemma Decode_prefix data symbolMap symbols :
  data_ok 16 1024 data → Forall (λ i, 0 <= i < 20) symbolMap → Forall (λ s, zlen s = 1024) symbols →
  17 <= zlen symbolMap → 17 <= zlen symbols → take 17 symbols = code p data <$> take 17 symbolMap →
  ∃ r, Decode (the_raptor p) (concat symbols) symbolMap = Ret r ∧
    match r with
    | Some d => d = concat data
    | None => ambiguous p data (take 17 symbolMap)
    end.
Proof.
  intros Hd Hidx Hcs Hlen Hsl Hcode. pose proof (concat_zlen _ _ Hcs) as Hcl.
  assert (0 <= 0 < zlen (concat symbols)) as H0 by lia.
  unfold Decode. destruct (index_in _ 0 H0) as (x & _ & ->).
  destruct (index_in symbolMap 0 ltac:(lia)) as (y & _ & ->). cbn [mbind outcome_bind].
  unfold raptor_decoding2_mp. cbn [the_raptor rt_raptor_params rt_SymbolSize rt_NumSrcSymbols]. rewrite HN.
  change (160 <? 17) with false. rewrite symbols_run by (done || lia). cbn [mbind outcome_bind].
  destruct (decode_run 16 1024 _ _ p (made_eq p Hmade) ltac:(lia) ltac:(lia) eq_refl data 20 symbolMap
    (take (Z.to_nat 17) symbols)) as (r & -> & Hres).
  - rewrite HL. vm_compute. discriminate.
  - done.
  - lia.
  - done.
  - lia.
  - rewrite HN. unfold zlen in *. rewrite length_take. lia.
  - rewrite HN, take_take. exact Hcode.
  - rewrite HN in Hres. cbn [mbind outcome_bind]. destruct r as [d|]; [|by exists None]. subst d.
    destruct Hd as [Hl Hf]. rewrite (take_rows_run data _ id); [|lia|].
    2:{ intros s Hs. apply slice_full. rewrite Forall_forall in Hf. apply Hf.
        apply list_elem_of_lookup in Hs as [j Hj]. rewrite lookup_take_Some in Hj. destruct Hj as [Hj _].
        by eapply list_elem_of_lookup_2. }
    cbn [mbind outcome_bind]. rewrite list_fmap_id, take_ge by (unfold zlen in *; lia).
    rewrite slice_full by (rewrite (concat_zlen 1024) by done; by rewrite Hl). cbn [mbind outcome_bind].
    by exists (Some (concat data)).
Qed.

Lemma Decode_run data symbolMap :
  data_ok 16 1024 data → Forall (λ i, 0 <= i < 20) symbolMap → 17 <= zlen symbolMap →
  ∃ r, Decode (the_raptor p) (concat (code p data <$> symbolMap)) symbolMap = Ret r ∧
    match r with
    | Some d => d = concat data
    | None => ambiguous p data (take 17 symbolMap)
    end.
Proof.
  intros Hd Hidx Hlen. apply Decode_prefix; try done.
  - by apply codes_size.
  - unfold zlen in *. by rewrite length_fmap.
  - by rewrite fmap_take.
Qed.

Lemma received_symbols data (Hd : data_ok 16 1024 data) symbolMap symbols :
  Forall2 (λ i s, 0 <= i < 20 ∧ symbol_of (concat (code p data <$> seqZ 0 20)) 1024 i = Ret s) symbolMap symbols ↔
  Forall (λ i, 0 <= i < 20) symbolMap ∧ symbols = code p data <$> symbolMap.
Proof.
  rewrite <-received_code. unfold received_of.
  assert (∀ i s, 0 <= i < 20 ∧ symbol_of (concat (code p data <$> seqZ 0 20)) 1024 i = Ret s ↔
    zget (code p data <$> seqZ 0 20) i = Some s) as Hiff.
  { intros i s. rewrite code_lookup.
    assert (0 <= i < 20 → symbol_of (concat (code p data <$> seqZ 0 20)) 1024 i = Ret (code p data i)) as Hsym.
    { intros Hi. apply symbol_of_concat; [by apply codes_size|]. by apply code_lookup. }
    split; intros [Hi Hs]; (split; [done|]); rewrite Hsym in * by done; congruence. }
  split; intros H; (eapply Forall2_impl; [exact H|]); intros i s; apply Hiff.
Qed.
End Configured.

(** An instance with 16 symbols of 16 bytes: in [ex_map] two source symbols are lost,
    and one comes twice. *)
Definition ex_params : raptor_params :=
  match RaptorInitialization_mp 16 16 (float64 FEC_MINIMUM_OVERHEAD) (f64_of_frac 8 10) with
  | Ret (Some p) => p
  | _ => Build_raptor_params 0 0 S754_nan S754_nan 0 0 0 0 0 0 [] [] [] []
  end.

Definition ex_data : list (list Z) := (λ i, seqZ (3 * i) 16) <$> seqZ 0 16.
Definition ex_code : list (list Z) :=
  match RaptorEncoder2_mp ex_data ex_params 29 with Ret e => e | _ => [] end.

Definition ex_map : list Z := [19; 3; 18; 4; 17; 5; 6; 7; 8; 9; 10; 11; 12; 13; 14; 15; 0; 10].
Definition ex_received : list (list Z) := omap (zget ex_code) ex_map.

Definition ex_map_source : list Z := 17 :: reverse (seqZ 0 16).
Definition ex_received_source : list (list Z) := omap (zget ex_code) ex_map_source.

Lemma ex_init :
  RaptorInitialization_mp 16 16 (float64 FEC_MINIMUM_OVERHEAD) (f64_of_frac 8 10) = Ret (Some ex_params).
Proof. vm_compute. reflexivity. Qed.

Lemma ex_encode : RaptorEncoder2_mp ex_data ex_params 29 = Ret ex_code.
Proof. vm_compute. reflexivity. Qed.

Lemma ex_data_ok : data_ok 16 16 ex_data.
Proof. split; [reflexivity|]. unfold ex_data. apply Forall_fmap, Forall_forall. intros i _. unfold compose, zlen. by rewrite length_seqZ. Qed.

(** The Raptor code is systematic: for every code that [RaptorInitialization_mp]
    makes, the encoder returns the wanted number of encoding symbols, the first [K]
    of which are the source symbols. *)
Theorem raptor_systematic K size minCR CR p data num :
  RaptorInitialization_mp K size minCR CR = Ret (Some p) → 0 < K → 0 < size → size mod 16 = 0 →
  data_ok K size data → K <= num <= rp_M p →
  ∃ e, RaptorEncoder2_mp data p num = Ret e ∧ zlen e = num ∧ take (Z.to_nat K) e = data.
Proof.
  intros Hinit HK Hsize Hmod Hd Hnum.
  destruct (made_ok K size minCR CR p Hinit HK Hsize Hmod) as (Hp & Hsz & HKp & Hs & HU).
  apply (data_source K size minCR CR p Hinit HK Hsize Hmod) in Hd.
  exists (code p data <$> seqZ 0 num). split; [apply encoder_run; done || lia|].
  split; [unfold zlen; rewrite length_fmap, length_seqZ; lia|].
  replace num with (K + (num - K)) by lia. rewrite seqZ_app, fmap_app, take_app_length'; [|rewrite length_fmap, length_seqZ; lia|lia..].
  rewrite <-HKp. by apply code_source.
Qed.

Lemma raptor_systematic_witness :
  ∃ e, RaptorEncoder2_mp ex_data ex_params 20 = Ret e ∧ zlen e = 20 ∧ take 16 e = ex_data.
Proof.
  apply (raptor_systematic 16 16 _ _ ex_params ex_data 20 ex_init);
    [lia|lia|reflexivity|exact ex_data_ok|vm_compute; split; discriminate].
Defined.


(** C4. The decoder returns for any [N] encoding symbols, in any order and with
    any repetitions.  It returns either the source symbols or a failure, and fails
    only when the received symbols do not determine the source symbols: there are
    other ones, bytes again, of which the encoder makes the same received symbols.
    The symbol size is a multiple of 16, and the rows of the matrix are long enough
    for [vector_xor_mp] to add [K] bytes in steps of 16. *)
Theorem raptor_decode K size minCR CR p data num e dataMap received :
  RaptorInitialization_mp K size minCR CR = Ret (Some p) → 0 < K → 0 < size → size mod 16 = 0 →
  16 * ((K + 15) / 16) <= rp_L p → data_ok K size data → num <= rp_M p →
  RaptorEncoder2_mp data p num = Ret e → received_of e dataMap received →
  K <= rp_N p <= zlen dataMap →
  ∃ r, RaptorDecoder_mp received dataMap p = Ret r ∧
    match r with
    | Some d => d = data
    | None => ∃ data' e', data_ok K size data' ∧ (Forall bytes_ok data → Forall bytes_ok data') ∧ data' ≠ data ∧
                RaptorEncoder2_mp data' p num = Ret e' ∧
                received_of e' (take (Z.to_nat (rp_N p)) dataMap) (take (Z.to_nat (rp_N p)) received)
    end.
Proof.
  intros Hinit HK Hsize Hmod Hfit Hd Hnum He Hrec HN.
  destruct (made_ok K size minCR CR p Hinit HK Hsize Hmod) as (Hp & Hsz & HKp & Hs & HU).
  pose proof (data_source K size minCR CR p Hinit HK Hsize Hmod) as Hds.
  apply (encode_run K size minCR CR p Hinit HK Hsize Hmod data num e Hd Hnum) in He as ->.
  apply received_code in Hrec as [Hidx ->].
  destruct (decode_run K size minCR CR p Hinit HK Hsize Hmod data num dataMap (code p data <$> dataMap) Hfit Hd Hnum Hidx HN
    ltac:(unfold zlen in *; rewrite length_fmap; lia) ltac:(by rewrite fmap_take)) as (r & Hr & Hres).
  exists r. split; [done|]. destruct r as [d|]; [done|]. destruct Hres as (d' & Hd' & Hb & Hne & Hsame).
  exists d', (code p d' <$> seqZ 0 num). split; [by apply Hds|]. split; [done|]. split; [done|].
  split; [apply encoder_run; done || lia|]. apply received_code.
  split; [by apply Forall_take|]. by rewrite Hsame, <-fmap_take.
Qed.

Lemma raptor_decode_witness : RaptorDecoder_mp ex_received ex_map ex_params = Ret (Some ex_data).
Proof.
  destruct (raptor_decode 16 16 _ _ ex_params ex_data 29 ex_code ex_map ex_received ex_init) as (r & Hr & Hres).
  - lia.
  - lia.
  - reflexivity.
  - vm_compute. discriminate.
  - exact ex_data_ok.
  - vm_compute. discriminate.
  - exact ex_encode.
  - vm_compute. repeat (constructor; [reflexivity|]). constructor.
  - vm_compute. split; discriminate.
  - rewrite Hr. destruct r as [d|]; [by rewrite Hres|]. clear Hres. vm_compute in Hr. discriminate Hr.
Defined.


(** The decoder succeeds when the source symbols are among the first [N]
    received symbols, whatever their order and whatever the others are. *)
Theorem raptor_decode_source K size minCR CR p data num e dataMap received :
  RaptorInitialization_mp K size minCR CR = Ret (Some p) → 0 < K → 0 < size → size mod 16 = 0 →
  16 * ((K + 15) / 16) <= rp_L p → data_ok K size data → num <= rp_M p →
  RaptorEncoder2_mp data p num = Ret e → received_of e dataMap received →
  K <= rp_N p <= zlen dataMap →
  (∀ i, 0 <= i < K → i ∈ take (Z.to_nat (rp_N p)) dataMap) →
  RaptorDecoder_mp received dataMap p = Ret (Some data).
Proof.
  intros Hinit HK Hsize Hmod Hfit Hd Hnum He Hrec HN Hall.
  destruct (made_ok K size minCR CR p Hinit HK Hsize Hmod) as (Hp & Hsz & HKp & Hs & HU).
  apply (encode_run K size minCR CR p Hinit HK Hsize Hmod data num e Hd Hnum) in He as ->.
  apply received_code in Hrec as [Hidx ->].
  destruct (decode_run K size minCR CR p Hinit HK Hsize Hmod data num dataMap (code p data <$> dataMap) Hfit Hd Hnum Hidx HN
    ltac:(unfold zlen in *; rewrite length_fmap; lia) ltac:(by rewrite fmap_take)) as (r & -> & Hres).
  apply (data_source K size minCR CR p Hinit HK Hsize Hmod) in Hd.
  destruct r as [d|]; [by subst|]. destruct Hres as (d' & Hd' & _ & Hne & Hsame). destruct Hne.
  rewrite <-(code_source p Hp Hsz data Hd), <-(code_source p Hp Hsz d' Hd'), HKp.
  apply list_fmap_ext. intros j i Hji. apply list_elem_of_lookup_2, elem_of_seqZ in Hji.
  assert (i ∈ take (Z.to_nat (rp_N p)) dataMap) as (j' & Hj')%list_elem_of_lookup by (apply Hall; lia).
  apply (f_equal (.!! j')) in Hsame. rewrite !list_lookup_fmap, Hj' in Hsame. by injection Hsame.
Qed.

Lemma raptor_decode_source_witness :
  RaptorDecoder_mp ex_received_source ex_map_source ex_params = Ret (Some ex_data).
Proof.
  apply (raptor_decode_source 16 16 _ _ ex_params ex_data 29 ex_code ex_map_source ex_received_source ex_init).
  - lia.
  - lia.
  - reflexivity.
  - vm_compute. discriminate.
  - exact ex_data_ok.
  - vm_compute. discriminate.
  - exact ex_encode.
  - vm_compute. repeat (constructor; [reflexivity|]). constructor.
  - vm_compute. split; discriminate.
  - intros i Hi. change (i ∈ 17 :: reverse (seqZ 0 16)). right. apply elem_of_reverse, elem_of_seqZ. lia.
Defined.


(** C7. The Go interface with the configured sizes: [CreateRaptor] succeeds;
    [Encode] makes four redundancy symbols of 1024 bytes for every block of 16; and
    [Decode], given any 17 or more of these 20 symbols with their positions, returns
    the block, or [nil] when the first 17 are those of another block as well. *)
Theorem raptor_blocks :
  ∃ r, CreateRaptor = Ret r ∧ rt_NumEncSymbols r = 20 ∧ ∀ block, zlen block = 16 * 1024 →
  ∃ fec, Encode r block = Ret fec ∧ zlen fec = 4 * 1024 ∧
  ∀ symbolMap symbols,
    Forall2 (λ i s, 0 <= i < 20 ∧ symbol_of (block ++ fec) 1024 i = Ret s) symbolMap symbols → 17 <= zlen symbolMap →
    ∃ d, Decode r (concat symbols) symbolMap = Ret d ∧
      match d with
      | Some d => d = block
      | None => ∃ block' fec', zlen block' = 16 * 1024 ∧ block' ≠ block ∧ Encode r block' = Ret fec' ∧
                  Forall2 (λ i s, symbol_of (block' ++ fec') 1024 i = Ret s) (take 17 symbolMap) (take 17 symbols)
      end.
Proof.
  destruct (configured 1024) as (p & Hmade%Build_made & HL & HN & HM). exists (the_raptor p).
  split; [by apply create_run|]. split; [done|]. intros block Hb.
  destruct (split_symbols 1024 16 block) as (data & -> & Hd); [done|done|done|].
  exists (concat (fec_symbols p data)). split; [by apply Encode_run|].
  split; [apply (concat_zlen 1024), (codes_size p Hmade HM); done|].
  rewrite (block_code p Hmade HM) by done. intros symbolMap symbols Hrec Hlen.
  apply (received_symbols p Hmade HM) in Hrec as [Hidx ->]; [|done].
  destruct (Decode_run p Hmade HL HN HM data symbolMap Hd Hidx Hlen) as (r & Hr & Hres).
  exists r. split; [done|]. destruct r as [d|]; [done|]. destruct Hres as (d' & Hd' & _ & Hne & Hsame).
  apply (data_source _ _ _ _ _ (made_eq p Hmade) ltac:(lia) ltac:(lia) eq_refl) in Hd'.
  exists (concat d'), (concat (fec_symbols p d')). split; [|split; [|split]].
  - destruct Hd' as [Hl Hf]. by rewrite (concat_zlen 1024), Hl by done.
  - intros Heq. apply Hne. by apply (concat_symbols_inj 16 1024).
  - by apply Encode_run.
  - rewrite (block_code p Hmade HM) by done. rewrite <-fmap_take, <-Hsame.
    eapply Forall2_impl; [apply (received_symbols p Hmade HM d' Hd'); split; [by apply Forall_take|done]|].
    by intros i s [_ ?].
Qed.

(** What [Encode] makes of a segment depends only on its first 16 symbols, 16
    KiB of the 2 MiB that [sendBlockRedData] passes: two segments that agree there
    have the same redundancy data. *)
Theorem redundancy_covers_first_symbols :
  ∃ r, CreateRaptor = Ret r ∧ ∀ block block',
    zlen block = SEGMENT_SIZE → zlen block' = SEGMENT_SIZE →
    take (Z.to_nat (16 * 1024)) block = take (Z.to_nat (16 * 1024)) block' →
    ∃ fec, Encode r block = Ret fec ∧ Encode r block' = Ret fec.
Proof.
  destruct (configured 1024) as (p & Hmade%Build_made & HL & HN & HM). exists (the_raptor p).
  split; [by apply create_run|]. intros block block' Hb Hb' Heq.
  remember (16 * 1024) as k eqn:Hk. assert (k < SEGMENT_SIZE) as HkS by (subst k; reflexivity).
  assert (zlen (take (Z.to_nat k) block) = 16 * 1024) as Hl by (unfold zlen in *; rewrite length_take; lia).
  destruct (split_symbols 1024 16 (take (Z.to_nat k) block)) as (data & Hdata & Hd); [lia|lia|exact Hl|].
  exists (concat (fec_symbols p data)). rewrite <-(Encode_run p Hmade HM data Hd), <-Hdata.
  split; [|rewrite Heq]; apply Encode_take; lia.
Qed.
