(* ===== verification/Control.v ===== *)
(** * Control messages

    [Mp2WriteControl] cuts a message into control packets of at most
    [PAYLOAD_SIZE] bytes and sends each of them to every session; at the other
    end [handleControlPacket] queues them and [Mp2ReadControl] takes them off the
    queue one by one.  [control_roundtrip] composes the two ends. *)

From stdpp Require Import base list numbers strings gmap.
From Stdlib Require Import ZArith Lia.
From S2P Require Import Prelude Config Util Mp2Packets Segment Mp2Frames Mp2State Mp2Handlers BlockTransfer.

(** The control packet with the given data. *)
Definition control_packet (data : list Z) : ControlPacket := {|
  cp_Type := CONTROL_PACKET; cp_Length := CONTROL_PACKET_HEADER_LEN + zlen data; cp_Data := data |}.

(** The pieces of a message. *)
Definition pieces_from (buf : list Z) (d : Z) : list (list Z) :=
  chunk buf <$> seqZ d (ceil_payloads (zlen buf) - d).

Definition pieces (buf : list Z) : list (list Z) := pieces_from buf 0.

Definition control_effects (order : list Z) (data : list Z) : list effect :=
  (λ sid, Sent sid (PControl (control_packet data))) <$> order.

Lemma CreateControlPacket_Ret data :
  zlen data <= PAYLOAD_SIZE → CreateControlPacket data = Ret (control_packet data).
Proof.
  intros Hd. pose proof (zlen_nonneg data). unfold PAYLOAD_SIZE in *.
  unfold CreateControlPacket, control_packet, CONTROL_PACKET_HEADER_LEN, PAYLOAD_SIZE.
  rewrite wrap_small by (unfold uint; lia). dcase; [lia|done].
Qed.

Lemma concat_pieces_from buf d :
  0 <= d → concat (pieces_from buf d) = drop (Z.to_nat (d * PAYLOAD_SIZE)) buf.
Proof.
  unfold pieces_from. intros Hd. set (n := ceil_payloads (zlen buf) - d).
  destruct (Z.le_gt_cases n 0) as [Hn|Hn].
  { rewrite seqZ_nil by done. simpl. symmetry. apply drop_ge. unfold n, ceil_payloads, PAYLOAD_SIZE, zlen in *. zify_div. lia. }
  assert (ceil_payloads (zlen buf) = d + n) as Heq by (unfold n; lia). clearbody n.
  assert (0 <= n) as Hn0 by lia. clear Hn. revert d Hd Heq. pattern n. apply natlike_ind; [| |done]; clear n Hn0.
  - intros d Hd Heq. simpl. symmetry. apply drop_ge. unfold ceil_payloads, PAYLOAD_SIZE, zlen in *. zify_div. lia.
  - intros n Hn IH d Hd Heq. rewrite seqZ_cons by lia. replace (Z.pred (Z.succ n)) with n by lia.
    cbn [fmap list_fmap concat]. rewrite (IH (Z.succ d)) by lia. unfold chunk, PAYLOAD_SIZE.
    replace (Z.to_nat (Z.succ d * 1024)) with (Z.to_nat (d * 1024) + Z.to_nat 1024)%nat by lia.
    rewrite <-drop_drop. apply take_drop.
Qed.

Section Writing.
Context (p : Mp2SessionManager) (s : Mp2Session) (key : Z) (order : list Z) (buf : list Z).
Context (Hs : mm_mp2sessionMap p !! key = Some s) (Hord : Forall (λ id, id ∈ ms_sessionMap s) order).
Context (Hbuf : zlen buf < 2 ^ 32 - PAYLOAD_SIZE).

Lemma send_all_run data :
  zlen data <= PAYLOAD_SIZE →
  for_each order (λ sessionID, sendControlPacket key sessionID data) p = Ret (tt, p, control_effects order data).
Proof.
  intros Hd. unfold control_effects. induction Hord as [|sid l Hsid Hl IH]; [done|]. cbn [for_each].
  rewrite (bind_run _ _ _ tt p [Sent sid (PControl (control_packet data))]); [by rewrite IH|].
  unfold sendControlPacket. rewrite (bind_pure _ _ _ (control_packet data) p).
  - by apply (sendPacket_run _ _ _ _ s).
  - unfold lift. by rewrite CreateControlPacket_Ret.
Qed.

(** The loop from data number [d] on; a round per piece. *)
Lemma control_loop_run fuel d :
  0 <= d → ceil_payloads (zlen buf) - d <= Z.of_nat fuel →
  control_loop fuel key order buf (Z.min (d * PAYLOAD_SIZE) (zlen buf)) p =
    Ret (tt, p, concat (control_effects order <$> pieces_from buf d)).
Proof.
  pose proof (zlen_nonneg buf) as Hnn. unfold pieces_from.
  revert d. induction fuel as [|fuel IH]; intros d Hd Hf; cbn [control_loop]; [by rewrite seqZ_nil by lia|].
  rewrite (wrap_small 32 (zlen buf)) by (unfold uint, PAYLOAD_SIZE in *; lia).
  destruct (Z.ltb_spec (Z.min (d * PAYLOAD_SIZE) (zlen buf)) (zlen buf)) as [Hlt|Hge].
  2:{ by rewrite seqZ_nil by (unfold ceil_payloads, PAYLOAD_SIZE in *; zify_div; lia). }
  rewrite Z.min_l by lia. assert (d * PAYLOAD_SIZE < zlen buf) as Hd' by lia.
  assert (u32 (d * PAYLOAD_SIZE) = d * PAYLOAD_SIZE) as Hw by (apply wrap_small; unfold uint, PAYLOAD_SIZE in *; lia).
  pose proof (chunk_slice buf d Hd Hd' Hbuf) as Hc. cbv zeta in Hc.
  rewrite Hw, (wrap_small 32 (zlen buf)) in Hc by (unfold uint, PAYLOAD_SIZE in *; lia).
  rewrite (bind_pure _ _ _ (chunk buf d) p) by (unfold lift; by rewrite Hc).
  rewrite (bind_run _ _ _ _ _ _ (send_all_run (chunk buf d) (zlen_chunk_le _ _))).
  set (next := u32 _). assert (next = Z.min (Z.succ d * PAYLOAD_SIZE) (zlen buf)) as ->.
  { unfold next, PAYLOAD_SIZE in *. rewrite (wrap_small 32 (d * 1024 + 1024)) by (unfold uint; lia).
    destruct (Z.leb_spec (d * 1024 + 1024) (zlen buf)); rewrite !wrap_small; unfold uint; try rewrite wrap_small; unfold uint; lia. }
  rewrite IH by lia. rewrite (seqZ_cons d) by (unfold ceil_payloads, PAYLOAD_SIZE in *; zify_div; lia).
  cbn [fmap list_fmap concat]. do 3 f_equal. f_equal. f_equal. f_equal. f_equal. lia.
Qed.

Lemma WriteControl_run :
  WriteControl key order buf p = Ret (tt, p, concat (control_effects order <$> pieces buf)).
Proof.
  unfold WriteControl. pose proof (control_loop_run (length buf) 0 ltac:(done)) as H.
  pose proof (zlen_nonneg buf). rewrite Z.min_l in H by lia. apply H.
  unfold ceil_payloads, zlen, PAYLOAD_SIZE. zify_div. lia.
Qed.
End Writing.

(** ** The other end *)

(** The control packets sent to a session, in order. *)
Definition control_to (sid : Z) (es : list effect) : list ControlPacket :=
  omap (λ e, match e with Sent id (PControl pk) => if id =? sid then Some pk else None | _ => None end) es.

(** [n] reads into a slice of [bufLen] bytes. *)
Fixpoint read_controls (n : nat) (mp2ID : Z) (bufLen : nat) : M (list (list Z * Z)) :=
  match n with
  | O => mret []
  | S n => r ← Mp2ReadControl bufLen mp2ID; rs ← read_controls n mp2ID bufLen; mret (r :: rs)
  end.

Lemma control_to_effects sid order data :
  NoDup order → sid ∈ order → control_to sid (control_effects order data) = [control_packet data].
Proof.
  intros Hnd Hin. unfold control_to, control_effects. induction Hnd as [|x l Hx Hnd IH]; [by apply elem_of_nil in Hin|].
  apply elem_of_cons in Hin. cbn [fmap list_fmap omap list_omap]. destruct (Z.eqb_spec x sid) as [->|Hne].
  - f_equal. clear IH Hin. induction l as [|y l IH]; [done|]. cbn. apply not_elem_of_cons in Hx as [Hy Hl].
    destruct (Z.eqb_spec y sid) as [->|]; [done|]. apply NoDup_cons in Hnd as [_ Hnd]. by apply IH.
  - apply IH. destruct Hin; [congruence|done].
Qed.

Lemma control_to_concat sid order l :
  NoDup order → sid ∈ order → control_to sid (concat (control_effects order <$> l)) = control_packet <$> l.
Proof.
  intros Hnd Hin. induction l as [|data l IH]; [done|]. cbn [fmap list_fmap concat].
  unfold control_to in *. rewrite omap_app, IH. by setoid_rewrite control_to_effects.
Qed.

(** The node after an update of the session with a key. *)
Definition with_session (q : Mp2SessionManager) (key : Z) (t : Mp2Session) : Mp2SessionManager :=
  mm_set_mp2sessionMap q (<[key := t]> (mm_mp2sessionMap q)).

Lemma with_session_lookup q key t : mm_mp2sessionMap (with_session q key t) !! key = Some t.
Proof. apply lookup_insert_eq. Qed.

Lemma handle_controls_run key l q t :
  mm_mp2sessionMap q !! key = Some t →
  ∃ q', for_each l (handleControlPacket key) q = Ret (tt, q', []) ∧
    mm_mp2sessionMap q' !! key = Some (ms_set_controlRecvBuffer t (ms_controlRecvBuffer t ++ l)).
Proof.
  revert q t. induction l as [|pk l IH]; intros q t Ht.
  { exists q. split; [done|]. rewrite Ht, app_nil_r. by destruct t. }
  destruct (IH _ _ (with_session_lookup q key (ms_set_controlRecvBuffer t (ms_controlRecvBuffer t ++ [pk]))))
    as (q' & Hrun & Hq').
  exists q'. cbn [for_each]. unfold handleControlPacket in *.
  rewrite (bind_pure _ _ _ _ _ (modifyS_run _ _ _ _ Ht)). split; [exact Hrun|].
  rewrite Hq'. simpl. by rewrite <-app_assoc.
Qed.

Lemma read_controls_run key bufLen l q t :
  mm_mp2sessionMap q !! key = Some t → ms_controlRecvBuffer t = control_packet <$> l →
  Forall (λ data, length data <= bufLen)%nat l →
  ∃ q', read_controls (length l) key bufLen q = Ret ((λ data, (data, zlen data)) <$> l, q', []) ∧
    mm_mp2sessionMap q' !! key = Some (ms_set_controlRecvBuffer t []).
Proof.
  intros Ht Hc Hl. revert q t Ht Hc. induction Hl as [|data l Hd Hl IH]; intros q t Ht Hc.
  { exists q. split; [done|]. rewrite Ht. destruct t; simpl in *. by subst. }
  destruct (IH _ _ (with_session_lookup q key (ms_set_controlRecvBuffer t (control_packet <$> l))) eq_refl)
    as (q' & Hrun & Hq').
  exists q'. split; [|by rewrite Hq']. cbn [length read_controls]. unfold Mp2ReadControl, ReadControl.
  erewrite bind_pure.
  2:{ rewrite (bind_pure _ _ _ t q) by (by apply getS_run). rewrite Hc. cbn [fmap list_fmap].
      by rewrite (bind_pure _ _ _ _ _ (modifyS_run _ _ _ _ Ht)). }
  rewrite (bind_pure _ _ _ _ _ Hrun). simpl. by rewrite take_ge by done.
Qed.

(** A control message arrives whole.  [Mp2WriteControl] of a message of less
    than 4 GiB (minus one packet) sends control packets to every session and
    changes nothing else; when the packets sent to one session have been handled
    at its other end, as many calls of [Mp2ReadControl] with a buffer of at least
    [PAYLOAD_SIZE] bytes return the pieces, which together are the message, each
    with its length, and leave the queue empty. *)
Theorem control_roundtrip p s key order buf q t key' sid bufLen :
  mm_mp2sessionMap p !! key = Some s → Forall (λ id, id ∈ ms_sessionMap s) order → NoDup order → sid ∈ order →
  zlen buf < 2 ^ 32 - PAYLOAD_SIZE →
  mm_mp2sessionMap q !! key' = Some t → ms_controlRecvBuffer t = [] → PAYLOAD_SIZE <= Z.of_nat bufLen →
  ∃ es q1 rs q2, Mp2WriteControl buf key order p = Ret (tt, p, es) ∧
    for_each (control_to sid es) (handleControlPacket key') q = Ret (tt, q1, []) ∧
    read_controls (length (control_to sid es)) key' bufLen q1 = Ret (rs, q2, []) ∧
    concat rs.*1 = buf ∧ Forall (λ '(data, n), n = zlen data ∧ n <= PAYLOAD_SIZE) rs ∧
    mm_mp2sessionMap q2 !! key' = Some t.
Proof.
  intros Hs Hord Hnd Hin Hbuf Ht Hc Hlen.
  exists (concat (control_effects order <$> pieces buf)). rewrite control_to_concat by done.
  destruct (handle_controls_run key' (control_packet <$> pieces buf) q t Ht) as (q1 & Hq1 & Ht1).
  rewrite Hc in Ht1. destruct (read_controls_run _ bufLen (pieces buf) _ _ Ht1 eq_refl) as (q2 & Hq2 & Ht2).
  { apply Forall_fmap, Forall_forall. intros d _. pose proof (zlen_chunk_le buf d). unfold zlen in *. simpl. lia. }
  eexists q1, _, q2. rewrite length_fmap. split_and!; [by apply (WriteControl_run _ s)|done|exact Hq2|..].
  - rewrite <-list_fmap_compose, list_fmap_id. unfold pieces. by rewrite concat_pieces_from.
  - apply Forall_fmap, Forall_fmap, Forall_forall. intros d _. split; [done|apply zlen_chunk_le].
  - rewrite Ht2. destruct t; simpl in *. by subst.
Qed.

(** A message of two packets between two nodes. *)
Definition demo_end : Mp2SessionManager :=
  match (Mp2Accept 7 100) (CreateMp2SessionManager mp2bs_toml 1) with
  | Ret (_, p, _) => p
  | _ => CreateMp2SessionManager mp2bs_toml 1
  end.

Lemma control_roundtrip_witness :
  ∃ es q1 rs q2, Mp2WriteControl (replicate 1500 9) 100 [7] demo_end = Ret (tt, demo_end, es) ∧
    for_each (control_to 7 es) (handleControlPacket 100) demo_end = Ret (tt, q1, []) ∧
    read_controls (length (control_to 7 es)) 100 2000 q1 = Ret (rs, q2, []) ∧
    concat rs.*1 = replicate 1500 9 ∧ Forall (λ '(data, n), n = zlen data ∧ n <= PAYLOAD_SIZE) rs ∧
    mm_mp2sessionMap q2 !! 100 = Some (CreateMp2Session (Some 7) 100).
Proof.
  apply (control_roundtrip demo_end (CreateMp2Session (Some 7) 100) 100 [7] (replicate 1500 9)
           demo_end (CreateMp2Session (Some 7) 100) 100 7 2000).
  - reflexivity.
  - constructor; [|constructor]. apply (bool_decide_unpack _). reflexivity.
  - apply NoDup_singleton.
  - left.
  - vm_compute. reflexivity.
  - reflexivity.
  - reflexivity.
  - vm_compute. discriminate.
Defined.
