(* ===== verification/NodeTree.v ===== *)
(** * Node information

    The anchor node sends the list of all nodes down the tree; every node finds
    itself in it by its address, remembers the addresses of its children and of
    all other nodes, and forwards the list.  [set_node_info] says what
    [Mp2SetNodeInfo] makes of such a list, down to the parsing of the
    configured address. *)

From stdpp Require Import base list numbers strings gmap pretty.
From Stdlib Require Import ZArith Lia Ascii.
From S2P Require Import Prelude Config Util Mp2Packets Segment Mp2Frames Mp2State Mp2Handlers BlockTransfer.

(** ** Decimal numbers *)

Fixpoint all_digits (s : string) : bool :=
  match s with
  | EmptyString => true
  | String c s => bool_decide (is_Some (digit c)) && all_digits s
  end.

Lemma digit_char (x : N) : (x < 10)%N → digit (pretty_N_char x) = Some (Z.of_N x).
Proof.
  intros Hx. destruct x as [|p]; [done|]. do 4 (try destruct p as [p|p|]); try done; exfalso; lia.
Qed.

Lemma pretty_go_digits (x : N) s : all_digits s = true → all_digits (pretty_N_go x s) = true.
Proof.
  revert s. induction (N.lt_wf_0 x) as [x _ IH]; intros s Hs.
  destruct (decide (x = 0)%N) as [->|Hx]; [by rewrite pretty_N_go_0|].
  rewrite pretty_N_go_step by lia. apply IH; [apply N.div_lt; lia|]. simpl.
  rewrite digit_char by (by apply N.mod_lt). by rewrite bool_decide_true by (by eexists).
Qed.

(** Reading the digits printed gives the number back. *)
Lemma digits_pretty_go (x : N) s :
  (x < 65536)%N → digits (pretty_N_go x s) 0 = digits s (Z.of_N x).
Proof.
  revert s. induction (N.lt_wf_0 x) as [x _ IH]; intros s Hx.
  destruct (decide (x = 0)%N) as [->|Hx0]; [by rewrite pretty_N_go_0|].
  pose proof (N.div_lt x 10 ltac:(lia) ltac:(lia)). pose proof (N.div_mod' x 10).
  rewrite pretty_N_go_step, IH by lia. simpl. rewrite digit_char by (by apply N.mod_lt). simpl.
  replace (Z.of_N (x `div` 10) * 10 + Z.of_N (x `mod` 10)) with (Z.of_N x) by lia.
  change (2 ^ 16) with 65536. destruct (Z.ltb_spec (Z.of_N x) 65536); [done|lia].
Qed.

Lemma pretty_go_nonempty (x : N) s : s ≠ ""%string → pretty_N_go x s ≠ ""%string.
Proof.
  revert s. induction (N.lt_wf_0 x) as [x _ IH]; intros s Hs.
  destruct (decide (x = 0)%N) as [->|Hx]; [by rewrite pretty_N_go_0|].
  rewrite pretty_N_go_step by lia. apply IH; [apply N.div_lt; lia|done].
Qed.

Lemma pretty_digits n : 0 <= n → all_digits (pretty n) = true ∧ pretty n ≠ ""%string.
Proof.
  intros Hn. destruct n as [|p|p]; [done| |lia]. unfold pretty, pretty_Z, pretty, pretty_positive, pretty, pretty_N.
  destruct (decide (N.pos p = 0%N)); [done|]. split; [by apply pretty_go_digits|].
  rewrite pretty_N_go_step by lia. by apply pretty_go_nonempty.
Qed.

Lemma digits_pretty n : uint 16 n → digits (pretty n) 0 = Some n.
Proof.
  unfold uint. intros Hn. destruct n as [|p|p]; [done| |lia].
  unfold pretty, pretty_Z, pretty, pretty_positive, pretty, pretty_N.
  destruct (decide (N.pos p = 0%N)); [done|]. rewrite digits_pretty_go by lia. done.
Qed.

(** [strconv.ParseInt(.., 10, 16)] of a port: ports above 32767 are out of the
    range of a signed 16-bit number and become 32767. *)
Lemma ParseInt16_pretty n : uint 16 n → ParseInt16 (pretty n) = Z.min n (2 ^ 15 - 1).
Proof.
  intros Hn. pose proof (digits_pretty n Hn) as Hd.
  destruct (pretty_digits n) as [Hall Hne]; [unfold uint in Hn; lia|].
  destruct (pretty n) as [|c s] eqn:E; [done|]. simpl in Hall. unfold ParseInt16.
  destruct (decide (c = "-"%char)) as [->|]; [done|]. destruct (decide (c = "+"%char)) as [->|]; [done|].
  rewrite Hd. destruct (Z.ltb_spec n (2 ^ 15)); lia.
Qed.

(** ** Addresses *)

Fixpoint no_char (c : ascii) (s : string) : bool :=
  match s with
  | EmptyString => true
  | String x s => bool_decide (x ≠ c) && no_char c s
  end.

Lemma no_char_app c s t : no_char c (s +:+ t) = no_char c s && no_char c t.
Proof. induction s as [|x s IH]; [done|]. simpl. by rewrite IH, andb_assoc. Qed.

Lemma no_char_digits c s : digit c = None → all_digits s = true → no_char c s = true.
Proof.
  intros Hc. induction s as [|x s IH]; [done|]. simpl. intros [Hx Hs]%andb_prop.
  rewrite IH by done. apply bool_decide_eq_true in Hx as [d Hx]. rewrite bool_decide_true; [done|]. by intros ->; rewrite Hc in Hx.
Qed.

Lemma no_char_pretty c n : digit c = None → 0 <= n → no_char c (pretty n) = true.
Proof. intros Hc Hn. apply no_char_digits; [done|]. by apply pretty_digits. Qed.

(** A separator that does not occur before it cuts the string in one way. *)
Lemma sep_inj c s t s' t' :
  no_char c s = true → no_char c s' = true → s +:+ (String c "" +:+ t) = s' +:+ (String c "" +:+ t') → s = s' ∧ t = t'.
Proof.
  revert s'. induction s as [|x s IH]; intros [|x' s'] Hs Hs' Heq; simpl in *; injection Heq as Hx.
  - done.
  - subst. by rewrite bool_decide_false in Hs' by auto.
  - subst. by rewrite bool_decide_false in Hs by auto.
  - apply andb_prop in Hs as [_ Hs]. apply andb_prop in Hs' as [_ Hs'].
    destruct (IH s' Hs Hs') as [-> ->]; by subst.
Qed.

Lemma Split_none s : no_char ":" s = true → Split s = [s].
Proof.
  induction s as [|x s IH]; [done|]. simpl. intros [Hx Hs]%andb_prop. apply bool_decide_eq_true in Hx.
  rewrite decide_False by done. by rewrite IH.
Qed.

Lemma Split_app s t : no_char ":" s = true → Split (s +:+ (String ":" "" +:+ t)) = s :: Split t.
Proof.
  induction s as [|x s IH]; simpl; [done|]. intros [Hx Hs]%andb_prop. apply bool_decide_eq_true in Hx.
  rewrite decide_False by done. by rewrite IH.
Qed.

Lemma bytes_no_char c l :
  digit c = None → bytes_ok l → Forall (λ b, no_char c (pretty b) = true) l.
Proof.
  intros Hc Hl. eapply Forall_impl; [exact Hl|]. intros b [Hb _]. by apply no_char_pretty.
Qed.

Lemma Int2ip_no_colon ip : no_char ":" (Int2ip ip) = true.
Proof.
  pose proof (bytes_no_char ":" _ eq_refl (WriteUint32_bytes ip)) as H. unfold Int2ip, WriteUint32 in *.
  repeat (apply Forall_cons_1 in H as [? H]). rewrite !no_char_app.
  repeat (apply andb_true_intro; split); done.
Qed.

Lemma WriteUint32_inj a b : uint 32 a → uint 32 b → WriteUint32 a = WriteUint32 b → a = b.
Proof.
  intros Ha Hb Heq. pose proof (ReadUint32_Write a [] Ha) as H. rewrite Heq, ReadUint32_Write in H by done.
  by injection H.
Qed.

Lemma Int2ip_inj a b : uint 32 a → uint 32 b → Int2ip a = Int2ip b → a = b.
Proof.
  intros Ha Hb Heq. apply WriteUint32_inj; [done..|].
  pose proof (bytes_no_char "." _ eq_refl (WriteUint32_bytes a)) as HA.
  pose proof (bytes_no_char "." _ eq_refl (WriteUint32_bytes b)) as HB. unfold Int2ip, WriteUint32 in *.
  repeat (apply Forall_cons_1 in HA as [? HA]). repeat (apply Forall_cons_1 in HB as [? HB]).
  apply sep_inj in Heq as [->%(inj pretty) Heq]; [|done..].
  apply sep_inj in Heq as [->%(inj pretty) Heq]; [|done..].
  apply sep_inj in Heq as [->%(inj pretty) ->%(inj pretty)]; done.
Qed.

(** ** Finding oneself *)

(** A node whose port a configured address can name. *)
Definition node_ok (n : NodeInfo) : Prop := uint 32 (nd_NodeIP n) ∧ uint 16 (nd_Port n).

(** The comparison of a node with the configured address of a node. *)
Lemma is_me_addr n me :
  node_ok n → node_ok me →
  is_me n (node_addr me) =
    Ret (bool_decide (nd_NodeIP n = nd_NodeIP me) && (nd_Port n =? Z.min (nd_Port me) (2 ^ 15 - 1))).
Proof.
  intros [Hn Hnp] [Hm Hmp]. unfold is_me, node_addr.
  assert (0 <= nd_Port me) by (unfold uint in Hmp; lia).
  rewrite Split_app by apply Int2ip_no_colon.
  rewrite Split_none by (by apply no_char_pretty).
  rewrite (index_Ret _ 1 (pretty (nd_Port me))), (index_Ret _ 0 (Int2ip (nd_NodeIP me))) by done.
  cbn [mbind outcome_bind]. f_equal. f_equal.
  - apply bool_decide_ext. split; [by apply Int2ip_inj|by intros ->].
  - rewrite ParseInt16_pretty by done. rewrite wrap_small; [done|]. unfold uint in *. lia.
Qed.

Definition address (n : NodeInfo) : Z * Z := (nd_NodeIP n, nd_Port n).

Lemma any_me_addrs n mine :
  node_ok n → Forall (λ m, node_ok m ∧ nd_Port m < 2 ^ 15) mine →
  any_me n (node_addr <$> mine) = Ret (bool_decide (address n ∈ address <$> mine)).
Proof.
  intros Hn Hm. induction Hm as [|m l [Hm Hp] Hl IH]; [done|]. cbn [fmap list_fmap any_me].
  rewrite is_me_addr by done. cbn [mbind outcome_bind]. rewrite Z.min_l by lia.
  destruct (bool_decide (nd_NodeIP n = nd_NodeIP m) && (nd_Port n =? nd_Port m)) eqn:E.
  - apply andb_prop in E as [E1%bool_decide_eq_true E2%Z.eqb_eq]. rewrite bool_decide_true; [done|].
    unfold address at 1. rewrite E1, E2. left.
  - rewrite IH. f_equal. apply bool_decide_ext. rewrite elem_of_cons. split; [by right|].
    intros [Heq|]; [|done]. injection Heq as E1 E2. rewrite E1, E2, Z.eqb_refl, bool_decide_true in E by done. done.
Qed.

Lemma find_me_run nics l idx my i :
  (∀ j n, l !! j = Some n → any_me n nics = Ret (bool_decide (idx + Z.of_nat j = i))) →
  find_me nics l idx my = Ret (if decide (idx <= i < idx + zlen l) then i else my).
Proof.
  revert idx my. induction l as [|n l IH]; intros idx my H; cbn [find_me].
  { destruct (decide _) as [[? Hlt]|]; [|done]. unfold zlen in Hlt. simpl in Hlt. lia. }
  rewrite (H 0%nat n eq_refl). cbn [mbind outcome_bind]. rewrite (IH (idx + 1)).
  2:{ intros j m Hj. rewrite (H (S j) m Hj). f_equal. apply bool_decide_ext. lia. }
  f_equal. unfold zlen. cbn [length]. destruct (bool_decide (idx + Z.of_nat 0 = i)) eqn:E;
    [apply bool_decide_eq_true in E|apply bool_decide_eq_false in E];
    destruct (decide _), (decide (idx <= i < _)); lia.
Qed.

Lemma child_addrs_run infos k i :
  0 <= i → i + Z.of_nat k <= zlen infos → i + Z.of_nat k < 256 →
  child_addrs infos i k = Ret (node_addr <$> zslice infos i (i + Z.of_nat k)).
Proof.
  revert i. induction k as [|k IH]; intros i Hi Hl Hb; cbn [child_addrs].
  { unfold zslice. by replace (Z.to_nat (i + Z.of_nat 0) - Z.to_nat i)%nat with 0%nat by lia. }
  destruct (zget_is_Some infos i) as [n Hn]; [lia|]. rewrite (index_Ret _ _ _ Hn). cbn [mbind outcome_bind].
  rewrite wrap_small by (unfold uint; lia). rewrite IH by lia. cbn [mbind outcome_bind]. f_equal.
  apply zget_Some in Hn as [_ Hn]. unfold zslice.
  replace (Z.to_nat (i + Z.of_nat (S k)) - Z.to_nat i)%nat with (S k) by lia.
  rewrite (drop_S _ _ _ Hn). cbn [take fmap list_fmap]. do 2 f_equal. f_equal; [lia|]. f_equal. lia.
Qed.

(** A node finds itself and its children in the list of nodes.  When exactly
    the node at index [i] has one of the configured addresses (with ports below
    32768), [Mp2SetNodeInfo] appends the addresses of its children, the
    [NumOfChilds] nodes from [OffsetOfChild] on, to [childAddr] and those of
    all other nodes to [allAddr], and changes nothing else. *)
Theorem set_node_info conf infos mine i me p :
  NIC_ADDRS conf = node_addr <$> mine → Forall node_ok infos →
  Forall (λ m, node_ok m ∧ nd_Port m < 2 ^ 15) mine → infos !! i = Some me →
  (∀ j n, infos !! j = Some n → address n ∈ address <$> mine ↔ j = i) →
  0 <= nd_OffsetOfChild me → 0 <= nd_NumOfChilds me →
  nd_OffsetOfChild me + nd_NumOfChilds me <= zlen infos → nd_OffsetOfChild me + nd_NumOfChilds me < 256 →
  Mp2SetNodeInfo conf infos p =
    Ret (tt,
      mm_set_allAddr
        (mm_set_childAddr p (mm_childAddr p ++
           (node_addr <$> zslice infos (nd_OffsetOfChild me) (nd_OffsetOfChild me + nd_NumOfChilds me))))
        (mm_allAddr p ++ (node_addr <$> delete i infos)), []).
Proof.
  intros Hc Hinfos Hmine Hi Huniq Ho Hn Hlen Hb. unfold Mp2SetNodeInfo. rewrite Hc.
  pose proof (lookup_lt_Some _ _ _ Hi) as Hlt.
  rewrite (bind_pure _ _ _ (Z.of_nat i) p).
  2:{ unfold lift. rewrite (find_me_run _ _ _ _ (Z.of_nat i)).
      - rewrite decide_True by (unfold zlen; lia). done.
      - intros j n Hj. rewrite any_me_addrs; [|by eapply Forall_lookup_1|done].
        f_equal. apply bool_decide_ext. rewrite (Huniq j n Hj). lia. }
  rewrite (bind_pure _ _ _ me p).
  2:{ unfold lift. by rewrite (index_Ret _ _ me) by (by rewrite zget_nat). }
  rewrite Nat2Z.id. destruct (Z.eqb_spec (nd_NumOfChilds me) 0) as [Hz|Hz]; cbn [negb].
  { rewrite (bind_pure _ _ _ tt p) by done. rewrite Hz, Z.add_0_r. unfold zslice. rewrite Nat.sub_diag. simpl.
    rewrite app_nil_r. by destruct p. }
  rewrite (wrap_small 8) by (unfold uint; lia).
  replace (nd_OffsetOfChild me + nd_NumOfChilds me - nd_OffsetOfChild me) with (nd_NumOfChilds me) by lia.
  set (addrs := node_addr <$> zslice _ _ _).
  assert (child_addrs infos (nd_OffsetOfChild me) (Z.to_nat (nd_NumOfChilds me)) = Ret addrs) as Hch.
  { rewrite child_addrs_run by lia. by rewrite Z2Nat.id by lia. }
  rewrite (bind_pure _ _ _ tt (mm_set_childAddr p (mm_childAddr p ++ addrs))); [done|].
  by rewrite (bind_pure _ _ _ addrs p) by (unfold lift; by rewrite Hch).
Qed.

(** A port above 32767 is never recognised.  The port of a configured address
    is parsed as a signed 16-bit number, so that a node whose own port is 32768
    or more does not find itself, and takes the node at index 0 for itself. *)
Theorem high_port_not_found infos me :
  node_ok me → 2 ^ 15 <= nd_Port me → Forall node_ok infos →
  Forall (λ n, address n ≠ (nd_NodeIP me, 2 ^ 15 - 1)) infos →
  find_me [node_addr me] infos 0 0 = Ret 0.
Proof.
  intros Hme Hp Hinfos Hno. rewrite (find_me_run _ _ _ _ (-1)); [done|].
  intros j n Hj. cbn [any_me]. rewrite is_me_addr; [|by eapply Forall_lookup_1|done].
  cbn [mbind outcome_bind]. rewrite Z.min_r by lia. rewrite (bool_decide_false (_ = -1)) by lia.
  destruct (_ && _) eqn:E; [|done]. exfalso.
  apply andb_prop in E as [E1%bool_decide_eq_true E2%Z.eqb_eq].
  apply (Forall_lookup_1 _ _ _ _ Hno Hj). unfold address. by rewrite E1, E2.
Qed.

(** A tree of four nodes: the node at index 1 has the last one as its child. *)
Definition demo_nodes : list NodeInfo :=
  [{| nd_NodeIP := 2130706433; nd_Port := 5000; nd_NumOfChilds := 2; nd_OffsetOfChild := 1 |};
   {| nd_NodeIP := 2130706433; nd_Port := 5001; nd_NumOfChilds := 1; nd_OffsetOfChild := 3 |};
   {| nd_NodeIP := 2130706433; nd_Port := 5002; nd_NumOfChilds := 0; nd_OffsetOfChild := 0 |};
   {| nd_NodeIP := 2130706434; nd_Port := 5001; nd_NumOfChilds := 0; nd_OffsetOfChild := 0 |}].

Definition demo_conf : Config := {|
  CONFIG_USER_WRR_WEIGHT := CONFIG_USER_WRR_WEIGHT mp2bs_toml; VERBOSE_MODE := VERBOSE_MODE mp2bs_toml;
  PACKET_SIZE := PACKET_SIZE mp2bs_toml; HELLO_PACKET := HELLO_PACKET mp2bs_toml;
  HELLO_ACK_PACKET := HELLO_ACK_PACKET mp2bs_toml; DATA_PACKET := DATA_PACKET mp2bs_toml;
  GOODBYE_PACKET := GOODBYE_PACKET mp2bs_toml; NIC_NAMES := NIC_NAMES mp2bs_toml;
  NIC_ADDRS := ["127.0.0.1:5001"; "127.0.0.1:6001"]%string;
  PEER_ADDRS := PEER_ADDRS mp2bs_toml; PEER_PORTS := PEER_PORTS mp2bs_toml;
  NUM_OF_CHILDS := NUM_OF_CHILDS mp2bs_toml; OFFSET_OF_CHILDS := OFFSET_OF_CHILDS mp2bs_toml;
  THROUGHPUT_PERIOD := THROUGHPUT_PERIOD mp2bs_toml; THROUGHPUT_WEIGHT := THROUGHPUT_WEIGHT mp2bs_toml;
  MULTIPATH_THRESHOLD_THROUGHPUT := MULTIPATH_THRESHOLD_THROUGHPUT mp2bs_toml;
  MULTIPATH_THRESHOLD_SEND_COMPLETE_TIME := MULTIPATH_THRESHOLD_SEND_COMPLETE_TIME mp2bs_toml;
  CLOSE_TIMEOUT_PERIOD := CLOSE_TIMEOUT_PERIOD mp2bs_toml |}.

Definition demo_mine : list NodeInfo :=
  [{| nd_NodeIP := 2130706433; nd_Port := 5001; nd_NumOfChilds := 0; nd_OffsetOfChild := 0 |};
   {| nd_NodeIP := 2130706433; nd_Port := 6001; nd_NumOfChilds := 0; nd_OffsetOfChild := 0 |}].

Lemma set_node_info_witness :
  match Mp2SetNodeInfo demo_conf demo_nodes (CreateMp2SessionManager demo_conf 1) with
  | Ret (_, p, _) =>
      mm_childAddr p = ["127.0.0.2:5001"]%string ∧
      mm_allAddr p = ["127.0.0.1:5000"; "127.0.0.1:5002"; "127.0.0.2:5001"]%string
  | _ => False
  end.
Proof.
  rewrite (set_node_info demo_conf demo_nodes demo_mine 1
    {| nd_NodeIP := 2130706433; nd_Port := 5001; nd_NumOfChilds := 1; nd_OffsetOfChild := 3 |}).
  - vm_compute. split; reflexivity.
  - vm_compute. reflexivity.
  - repeat constructor; simpl; lia.
  - repeat constructor; simpl; lia.
  - reflexivity.
  - intros [|[|[|[|j]]]] n; simpl; intros [= <-]; apply (bool_decide_unpack _); vm_compute; exact I.
  - simpl; lia.
  - simpl; lia.
  - vm_compute. discriminate.
  - simpl; lia.
Defined.

Lemma high_port_not_found_witness :
  find_me ["127.0.0.1:40000"]%string
    [{| nd_NodeIP := 2130706433; nd_Port := 5000; nd_NumOfChilds := 1; nd_OffsetOfChild := 1 |};
     {| nd_NodeIP := 2130706433; nd_Port := 40000; nd_NumOfChilds := 0; nd_OffsetOfChild := 0 |}] 0 0 = Ret 0.
Proof.
  apply (high_port_not_found
    [{| nd_NodeIP := 2130706433; nd_Port := 5000; nd_NumOfChilds := 1; nd_OffsetOfChild := 1 |};
     {| nd_NodeIP := 2130706433; nd_Port := 40000; nd_NumOfChilds := 0; nd_OffsetOfChild := 0 |}]
    {| nd_NodeIP := 2130706433; nd_Port := 40000; nd_NumOfChilds := 0; nd_OffsetOfChild := 0 |}).
  - split; split; simpl; lia.
  - simpl. lia.
  - repeat constructor; simpl; lia.
  - repeat constructor; discriminate.
Defined.
