(* ===== verification/LinkedList.v ===== *)
(** * Linked lists ([internal/utils/*_linkedlist.go])

    The lists of intervals, of connection IDs and of packets are copies of Go's
    [container/list].  Here is the list of elements as its clients see it;
    [LinkedListRing] has the pointers and the theorem that they implement it.

    An element is its address, a number.  What [Next], [Front] and the like return is
    [None] for a nil pointer. *)

From stdpp Require Import base list numbers strings gmap.
From Stdlib Require Import ZArith Lia.
From S2P Require Import Prelude.

(** ** The elements of a list *)

Record elist (T : Type) := mk_elist { el_elems : list (nat * T); el_fresh : nat }.
Arguments mk_elist {T}.
Arguments el_elems {T}.
Arguments el_fresh {T}.

Section Elements.
Context {T : Type}.
Implicit Types (l : elist T) (e : nat) (v : T).

Definition nil_pointer {A} : outcome A := Panic "invalid memory address or nil pointer dereference".

Definition empty_elist : elist T := mk_elist [] 1.

Definition elist_Len l : Z := zlen (el_elems l).

Definition elist_Front l : option nat := fst <$> head (el_elems l).

Definition elist_Back l : option nat := fst <$> last (el_elems l).

(** The elements before and from [e] on. *)
Fixpoint split_at (e : nat) (es : list (nat * T)) : option (list (nat * T) * T * list (nat * T)) :=
  match es with
  | [] => None
  | (i, v) :: es =>
      if decide (i = e) then Some ([], v, es)
      else match split_at e es with Some (a, w, b) => Some ((i, v) :: a, w, b) | None => None end
  end.

Definition elist_Next l e : option nat :=
  match split_at e (el_elems l) with Some (_, _, b) => fst <$> head b | None => None end.

Definition elist_Prev l e : option nat :=
  match split_at e (el_elems l) with Some (a, _, _) => fst <$> last a | None => None end.

(** [e.Value]. *)
Definition elist_Value l e : outcome T :=
  match split_at e (el_elems l) with Some (_, v, _) => Ret v | None => nil_pointer end.

Definition elist_set l e v : elist T :=
  match split_at e (el_elems l) with
  | Some (a, _, b) => mk_elist (a ++ (e, v) :: b) (el_fresh l)
  | None => l
  end.

Definition elist_Remove l e : elist T :=
  match split_at e (el_elems l) with
  | Some (a, _, b) => mk_elist (a ++ b) (el_fresh l)
  | None => l
  end.

Definition elist_PushFront l v : elist T := mk_elist ((el_fresh l, v) :: el_elems l) (S (el_fresh l)).

Definition elist_PushBack l v : elist T := mk_elist (el_elems l ++ [(el_fresh l, v)]) (S (el_fresh l)).

Definition elist_InsertBefore l v mark : elist T :=
  match split_at mark (el_elems l) with
  | Some (a, w, b) => mk_elist (a ++ (el_fresh l, v) :: (mark, w) :: b) (S (el_fresh l))
  | None => l
  end.

Definition elist_InsertAfter l v mark : elist T :=
  match split_at mark (el_elems l) with
  | Some (a, w, b) => mk_elist (a ++ (mark, w) :: (el_fresh l, v) :: b) (S (el_fresh l))
  | None => l
  end.

(** Addresses are distinct and below the next one. *)
Record elist_ok l : Prop := {
  elo_nodup : NoDup ((el_elems l).*1);
  elo_fresh : Forall (λ p, 0 < p.1 < el_fresh l)%nat (el_elems l);
}.

Lemma split_at_app a e v b : e ∉ a.*1 → split_at e (a ++ (e, v) :: b) = Some (a, v, b).
Proof.
  induction a as [|[i w] a IH]; intros Hin; cbn [split_at app].
  - by rewrite decide_True.
  - rewrite fmap_cons, not_elem_of_cons in Hin. destruct Hin as [Hne Hin]. cbn [fst] in Hne.
    rewrite decide_False by done. by rewrite IH.
Qed.

Lemma split_at_Some e es a v b : split_at e es = Some (a, v, b) → es = a ++ (e, v) :: b.
Proof.
  revert a. induction es as [|[i w] es IH]; intros a; cbn [split_at]; [done|]. destruct (decide (i = e)) as [->|].
  - by intros [= <- <- <-].
  - destruct (split_at e es) as [[[a' w'] b']|]; [|done]. intros [= <- <- <-]. cbn [app]. f_equal. by apply IH.
Qed.

Lemma split_at_mid l a e v b : elist_ok l → el_elems l = a ++ (e, v) :: b → split_at e (el_elems l) = Some (a, v, b).
Proof.
  intros [Hnd _] E. rewrite E in *. apply split_at_app. rewrite fmap_app, fmap_cons in Hnd.
  apply NoDup_app in Hnd as (_ & Hdis & _). intros Hin. destruct (Hdis e Hin). apply list_elem_of_here.
Qed.

(** [elist_ok] does not depend on the order. *)
Lemma elist_ok_perm es es' fresh : es ≡ₚ es' → elist_ok (mk_elist es fresh) → elist_ok (mk_elist es' fresh).
Proof. intros Hp [Hnd Hf]. cbn [el_elems el_fresh] in *. split; cbn [el_elems el_fresh]; by rewrite <-Hp. Qed.

Lemma elist_ok_fresh l v : elist_ok l → (0 < el_fresh l)%nat → elist_ok (mk_elist ((el_fresh l, v) :: el_elems l) (S (el_fresh l))).
Proof.
  intros [Hnd Hf] H0. split; cbn [el_elems el_fresh].
  - rewrite fmap_cons. constructor; [|done]. intros ([i w] & Hi & Hin)%list_elem_of_fmap. cbn in Hi. rewrite Forall_forall in Hf.
    specialize (Hf _ Hin). cbn in *. lia.
  - constructor; [cbn; lia|]. eapply Forall_impl; [exact Hf|]. cbn. lia.
Qed.

Lemma elist_set_mid l a e v b w : elist_ok l → el_elems l = a ++ (e, v) :: b → elist_set l e w = mk_elist (a ++ (e, w) :: b) (el_fresh l).
Proof. intros Hok E. unfold elist_set. by rewrite (split_at_mid l a e v b Hok E). Qed.

Lemma elist_Remove_mid l a e v b : elist_ok l → el_elems l = a ++ (e, v) :: b → elist_Remove l e = mk_elist (a ++ b) (el_fresh l).
Proof. intros Hok E. unfold elist_Remove. by rewrite (split_at_mid l a e v b Hok E). Qed.

Lemma elist_InsertAfter_mid l a e v b w :
  elist_ok l → el_elems l = a ++ (e, v) :: b →
  elist_InsertAfter l w e = mk_elist (a ++ (e, v) :: (el_fresh l, w) :: b) (S (el_fresh l)).
Proof. intros Hok E. unfold elist_InsertAfter. by rewrite (split_at_mid l a e v b Hok E). Qed.

Lemma elist_Value_mid l a e v b : elist_ok l → el_elems l = a ++ (e, v) :: b → elist_Value l e = Ret v.
Proof. intros Hok E. unfold elist_Value. by rewrite (split_at_mid l a e v b Hok E). Qed.

Lemma elist_Next_mid l a e v b : elist_ok l → el_elems l = a ++ (e, v) :: b → elist_Next l e = fst <$> head b.
Proof. intros Hok E. unfold elist_Next. by rewrite (split_at_mid l a e v b Hok E). Qed.

Lemma elist_Prev_mid l a e v b : elist_ok l → el_elems l = a ++ (e, v) :: b → elist_Prev l e = fst <$> last a.
Proof. intros Hok E. unfold elist_Prev. by rewrite (split_at_mid l a e v b Hok E). Qed.

Lemma elist_ok_set fresh a e v w b : elist_ok (mk_elist (a ++ (e, v) :: b) fresh) → elist_ok (mk_elist (a ++ (e, w) :: b) fresh).
Proof.
  intros [Hnd Hf]. cbn [el_elems el_fresh] in *. split; cbn [el_elems el_fresh]; [by rewrite fmap_app, fmap_cons in *|].
  by rewrite Forall_app, Forall_cons in *.
Qed.

Lemma elist_ok_remove fresh a p b : elist_ok (mk_elist (a ++ p :: b) fresh) → elist_ok (mk_elist (a ++ b) fresh).
Proof.
  intros Hok. apply (elist_ok_perm _ (p :: a ++ b)) in Hok as [Hnd Hf]; [|by rewrite Permutation_middle].
  cbn [el_elems el_fresh] in *. rewrite fmap_cons in Hnd. apply NoDup_cons in Hnd as [_ Hnd]. apply Forall_cons in Hf as [_ Hf]. by split.
Qed.

Lemma elist_ok_middle fresh a w b :
  (0 < fresh)%nat → elist_ok (mk_elist (a ++ b) fresh) → elist_ok (mk_elist (a ++ (fresh, w) :: b) (S fresh)).
Proof.
  intros H0 Hok. apply (elist_ok_fresh _ w) in Hok; [|done]. cbn [el_elems el_fresh] in Hok. eapply elist_ok_perm; [|exact Hok].
  by rewrite <-(Permutation_middle a b).
Qed.

Lemma elist_ok_insert fresh a p w b :
  (0 < fresh)%nat → elist_ok (mk_elist (a ++ p :: b) fresh) → elist_ok (mk_elist (a ++ p :: (fresh, w) :: b) (S fresh)).
Proof.
  intros H0 Hok. replace (a ++ p :: (fresh, w) :: b) with ((a ++ [p]) ++ (fresh, w) :: b) by (by rewrite <-app_assoc).
  apply elist_ok_middle; [done|]. by rewrite <-app_assoc.
Qed.
End Elements.
