(* ===== verification/LinkedListRing.v ===== *)
(** * The pointers of the linked lists ([internal/utils/byteinterval_linkedlist.go])

    The elements of a list in a store, in a ring with the root of the list, and the
    operations as the code has them, one assignment to a field after another.  They
    implement the list of elements of [LinkedList]: the same elements in the same
    order, the same results, and no nil pointer is followed.

    The root of the list is at address 0.  An element points to the list it is in;
    there is one list here, so [n_list] says whether it is in it. *)

From stdpp Require Import base list numbers strings gmap.
From Stdlib Require Import ZArith Lia.
From S2P Require Import Prelude LinkedList.

Section Ring.
Context {T : Type}.

Record node := mk_node { n_next : option nat; n_prev : option nat; n_list : bool; n_Value : option T }.

#[local] Instance node_fields : Fields node := λ n, mk_node (n_next n) (n_prev n) (n_list n) (n_Value n).

Record ring := mk_ring { r_store : gmap nat node; r_len : Z; r_fresh : nat }.

Definition root : nat := 0.

(** [*p], and an assignment to a field of it. *)
Definition deref (h : gmap nat node) (p : option nat) : outcome node :=
  match p ≫= λ p, h !! p with Some n => Ret n | None => nil_pointer end.

Definition assign (h : gmap nat node) (p : option nat) (f : node → node) : outcome (gmap nat node) :=
  match p with
  | Some p => match h !! p with Some n => Ret (<[p := f n]> h) | None => nil_pointer end
  | None => nil_pointer
  end.

Definition Init (r : ring) : outcome ring :=
  h ← assign (r_store r) (Some root) (λ n, n <| n_next := Some root |>);
  h ← assign h (Some root) (λ n, n <| n_prev := Some root |>);
  Ret (mk_ring h 0 (r_fresh r)).

(** [new(List).Init()]. *)
Definition NewList : outcome ring := Init (mk_ring {[root := mk_node None None false None]} 0 1).

Definition Len (r : ring) : Z := r_len r.

Definition Front (r : ring) : outcome (option nat) :=
  if r_len r =? 0 then Ret None else n ← deref (r_store r) (Some root); Ret (n_next n).

Definition Back (r : ring) : outcome (option nat) :=
  if r_len r =? 0 then Ret None else n ← deref (r_store r) (Some root); Ret (n_prev n).

Definition Next (r : ring) (e : nat) : outcome (option nat) :=
  n ← deref (r_store r) (Some e);
  Ret (if n_list n && negb (bool_decide (n_next n = Some root)) then n_next n else None).

Definition Prev (r : ring) (e : nat) : outcome (option nat) :=
  n ← deref (r_store r) (Some e);
  Ret (if n_list n && negb (bool_decide (n_prev n = Some root)) then n_prev n else None).

Definition lazyInit (r : ring) : outcome ring :=
  n ← deref (r_store r) (Some root);
  match n_next n with None => Init r | Some _ => Ret r end.

Definition insert (r : ring) (e at_ : option nat) : outcome ring :=
  a ← deref (r_store r) at_;
  let n := n_next a in
  h ← assign (r_store r) at_ (λ x, x <| n_next := e |>);
  h ← assign h e (λ x, x <| n_prev := at_ |>);
  h ← assign h e (λ x, x <| n_next := n |>);
  h ← assign h n (λ x, x <| n_prev := e |>);
  h ← assign h e (λ x, x <| n_list := true |>);
  Ret (mk_ring h (r_len r + 1) (r_fresh r)).

(** [&Element{Value: v}] is a new address. *)
Definition insertValue (r : ring) (v : T) (at_ : option nat) : outcome (ring * nat) :=
  let e := r_fresh r in
  let r := mk_ring (<[e := mk_node None None false (Some v)]> (r_store r)) (r_len r) (S e) in
  r ← insert r (Some e) at_;
  Ret (r, e).

Definition remove (r : ring) (e : nat) : outcome ring :=
  n ← deref (r_store r) (Some e);
  h ← assign (r_store r) (n_prev n) (λ x, x <| n_next := n_next n |>);
  n ← deref h (Some e);
  h ← assign h (n_next n) (λ x, x <| n_prev := n_prev n |>);
  h ← assign h (Some e) (λ x, x <| n_next := None |>);
  h ← assign h (Some e) (λ x, x <| n_prev := None |>);
  h ← assign h (Some e) (λ x, x <| n_list := false |>);
  Ret (mk_ring h (r_len r - 1) (r_fresh r)).

Definition Remove (r : ring) (e : nat) : outcome ring :=
  n ← deref (r_store r) (Some e);
  if n_list n then remove r e else Ret r.

Definition PushFront (r : ring) (v : T) : outcome (ring * nat) :=
  r ← lazyInit r;
  insertValue r v (Some root).

Definition PushBack (r : ring) (v : T) : outcome (ring * nat) :=
  r ← lazyInit r;
  n ← deref (r_store r) (Some root);
  insertValue r v (n_prev n).

Definition InsertBefore (r : ring) (v : T) (mark : nat) : outcome (ring * option nat) :=
  n ← deref (r_store r) (Some mark);
  if negb (n_list n) then Ret (r, None) else
  '(r, e) ← insertValue r v (n_prev n); Ret (r, Some e).

Definition InsertAfter (r : ring) (v : T) (mark : nat) : outcome (ring * option nat) :=
  n ← deref (r_store r) (Some mark);
  if negb (n_list n) then Ret (r, None) else
  '(r, e) ← insertValue r v (Some mark); Ret (r, Some e).

(** ** The ring as lists of addresses *)

Definition next (h : gmap nat node) (p : nat) : option nat := h !! p ≫= n_next.
Definition prev (h : gmap nat node) (p : nat) : option nat := h !! p ≫= n_prev.
Definition in_list (h : gmap nat node) (p : nat) : option bool := n_list <$> h !! p.
Definition value (h : gmap nat node) (p : nat) : option T := h !! p ≫= n_Value.

Fixpoint linked (h : gmap nat node) (ids : list nat) : Prop :=
  match ids with
  | a :: (b :: _) as ids => next h a = Some b ∧ prev h b = Some a ∧ linked h ids
  | _ => True
  end.

(** Assignments, seen through the fields. *)
Lemma assign_next h p n x :
  h !! p = Some n → ∃ h', assign h (Some p) (λ n, n <| n_next := x |>) = Ret h' ∧ dom h' = dom h ∧
    (∀ q, next h' q = if decide (q = p) then x else next h q) ∧ (∀ q, prev h' q = prev h q) ∧
    (∀ q, in_list h' q = in_list h q) ∧ (∀ q, value h' q = value h q).
Proof.
  intros Hp. unfold assign. rewrite Hp. eexists. split; [reflexivity|]. split; [by rewrite dom_insert_lookup_L by (by eexists)|].
  unfold next, prev, in_list, value. split_and!; intros q; destruct (decide (q = p)) as [->|Hne]; cbn;
    rewrite ?lookup_insert_eq, ?lookup_insert_ne, ?Hp by done; done.
Qed.

Lemma assign_prev h p n x :
  h !! p = Some n → ∃ h', assign h (Some p) (λ n, n <| n_prev := x |>) = Ret h' ∧ dom h' = dom h ∧
    (∀ q, next h' q = next h q) ∧ (∀ q, prev h' q = if decide (q = p) then x else prev h q) ∧
    (∀ q, in_list h' q = in_list h q) ∧ (∀ q, value h' q = value h q).
Proof.
  intros Hp. unfold assign. rewrite Hp. eexists. split; [reflexivity|]. split; [by rewrite dom_insert_lookup_L by (by eexists)|].
  unfold next, prev, in_list, value. split_and!; intros q; destruct (decide (q = p)) as [->|Hne]; cbn;
    rewrite ?lookup_insert_eq, ?lookup_insert_ne, ?Hp by done; done.
Qed.

Lemma assign_list h p n x :
  h !! p = Some n → ∃ h', assign h (Some p) (λ n, n <| n_list := x |>) = Ret h' ∧ dom h' = dom h ∧
    (∀ q, next h' q = next h q) ∧ (∀ q, prev h' q = prev h q) ∧
    (∀ q, in_list h' q = if decide (q = p) then Some x else in_list h q) ∧ (∀ q, value h' q = value h q).
Proof.
  intros Hp. unfold assign. rewrite Hp. eexists. split; [reflexivity|]. split; [by rewrite dom_insert_lookup_L by (by eexists)|].
  unfold next, prev, in_list, value. split_and!; intros q; destruct (decide (q = p)) as [->|Hne]; cbn;
    rewrite ?lookup_insert_eq, ?lookup_insert_ne, ?Hp by done; done.
Qed.

Lemma deref_dom h p : p ∈ dom h → ∃ n, deref h (Some p) = Ret n ∧ h !! p = Some n ∧
  n_next n = next h p ∧ n_prev n = prev h p ∧ Some (n_list n) = in_list h p ∧ n_Value n = value h p.
Proof. intros [n Hn]%elem_of_dom. exists n. unfold deref, next, prev, in_list, value. cbn. rewrite Hn. by split_and!. Qed.

(** Assignments keep the addresses. *)
Ltac dom_same := repeat match goal with H : dom _ = dom _ |- _ => progress rewrite H end.

(** One assignment: its result [h'] and what it changes. *)
Ltac step lem h p x h' :=
  let n := fresh "n" in let Hn := fresh "Hn" in
  let Hd := fresh "Hd" in let H1 := fresh "Hnext" in let H2 := fresh "Hprev" in let H3 := fresh "Hlist" in let H4 := fresh "Hval" in
  destruct (deref_dom h p) as (n & _ & Hn & _); [by dom_same|];
  destruct (lem h p n x Hn) as (h' & -> & Hd & H1 & H2 & H3 & H4); clear n Hn; cbn [mbind outcome_bind].

(** Rewrites with what the assignments before did. *)
Ltac ring_views := repeat match goal with H : ∀ q, _ = _ |- _ => progress rewrite !H end.

Lemma insert_fields h len fr e a n :
  e ∈ dom h → a ∈ dom h → n ∈ dom h → e ≠ a → e ≠ n → next h a = Some n →
  ∃ h', insert (mk_ring h len fr) (Some e) (Some a) = Ret (mk_ring h' (len + 1) fr) ∧ dom h' = dom h ∧
    (∀ q, next h' q = if decide (q = e) then Some n else if decide (q = a) then Some e else next h q) ∧
    (∀ q, prev h' q = if decide (q = n) then Some e else if decide (q = e) then Some a else prev h q) ∧
    (∀ q, in_list h' q = if decide (q = e) then Some true else in_list h q) ∧ (∀ q, value h' q = value h q).
Proof.
  intros He Ha Hn Hea Hen Hnext. unfold insert. cbn [r_store].
  destruct (deref_dom h a Ha) as (x & -> & _ & Hx & _). cbn [mbind outcome_bind]. rewrite Hx, Hnext.
  step assign_next h a (Some e) h1. step assign_prev h1 e (Some a) h2. step assign_next h2 e (Some n) h3. step assign_prev h3 n (Some e) h4.
  step assign_list h4 e true h5.
  exists h5. split; [done|]. split; [congruence|]. split_and!; intros q; ring_views; repeat case_decide; congruence.
Qed.

Lemma remove_fields h len fr e a n :
  e ∈ dom h → a ∈ dom h → n ∈ dom h → e ≠ a → e ≠ n → next h e = Some n → prev h e = Some a →
  ∃ h', remove (mk_ring h len fr) e = Ret (mk_ring h' (len - 1) fr) ∧ dom h' = dom h ∧
    (∀ q, next h' q = if decide (q = e) then None else if decide (q = a) then Some n else next h q) ∧
    (∀ q, prev h' q = if decide (q = e) then None else if decide (q = n) then Some a else prev h q) ∧
    (∀ q, in_list h' q = if decide (q = e) then Some false else in_list h q) ∧ (∀ q, value h' q = value h q).
Proof.
  intros He Ha Hn Hea Hen Hnx Hpv. unfold remove. cbn [r_store].
  destruct (deref_dom h e He) as (x & -> & _ & Hx1 & Hx2 & _). cbn [mbind outcome_bind]. rewrite Hx1, Hx2, Hnx, Hpv.
  step assign_next h a (Some n) h1.
  destruct (deref_dom h1 e ltac:(by dom_same)) as (y & -> & _ & Hy1 & Hy2 & _). cbn [mbind outcome_bind].
  rewrite Hy1, Hy2, Hnext, Hprev, decide_False, Hnx, Hpv by done.
  step assign_prev h1 n (Some a) h2. step assign_next h2 e (@None nat) h3. step assign_prev h3 e (@None nat) h4. step assign_list h4 e false h5.
  exists h5. split; [done|]. split; [congruence|]. split_and!; intros q; ring_views; repeat case_decide; congruence.
Qed.

(** ** Links *)

Lemma linked_app h c X b S :
  linked h (c :: X ++ b :: S) ↔
  linked h (c :: X) ∧ next h (default c (last X)) = Some b ∧ prev h b = Some (default c (last X)) ∧ linked h (b :: S).
Proof.
  revert c. induction X as [|x X IH]; intros c.
  - cbn. tauto.
  - assert (default c (last (x :: X)) = default x (last X)) as -> by (rewrite last_cons; by destruct (last X)).
    change (linked h (c :: (x :: X) ++ b :: S)) with (next h c = Some x ∧ prev h x = Some c ∧ linked h (x :: X ++ b :: S)).
    change (linked h (c :: x :: X)) with (next h c = Some x ∧ prev h x = Some c ∧ linked h (x :: X)). rewrite IH. tauto.
Qed.

Lemma linked_frame h h' l : ∀ a,
  linked h (a :: l) → (∀ x, x ∈ removelast (a :: l) → next h' x = next h x) → (∀ y, y ∈ l → prev h' y = prev h y) → linked h' (a :: l).
Proof.
  induction l as [|b l IH]; intros a Hl Hn Hp; [done|]. destruct Hl as (H1 & H2 & H3). split_and!.
  - rewrite Hn; [done|left].
  - rewrite Hp; [done|left].
  - apply IH; [done| |].
    + intros x Hx. apply Hn. by right.
    + intros y Hy. apply Hp. by right.
Qed.

(** The ring has the elements of the list, in its order. *)
Record represents (r : ring) (l : elist T) : Prop := {
  rp_ok : elist_ok l;
  rp_len : r_len r = elist_Len l;
  rp_fresh : r_fresh r = el_fresh l;
  rp_root : root ∈ dom (r_store r);
  rp_dom : ∀ p, p ∈ dom (r_store r) ↔ (p < el_fresh l)%nat;
  rp_links : linked (r_store r) (root :: (el_elems l).*1 ++ [root]);
  rp_list : ∀ p, p ∈ dom (r_store r) → in_list (r_store r) p = Some (bool_decide (p ∈ (el_elems l).*1));
  rp_value : ∀ e v, (e, v) ∈ el_elems l → e ∈ dom (r_store r) ∧ value (r_store r) e = Some v;
}.

Lemma represents_ids r l p : represents r l → p ∈ (el_elems l).*1 → p ∈ dom (r_store r) ∧ p ≠ root.
Proof.
  intros Hr ([e v] & -> & Hin)%list_elem_of_fmap. destruct (rp_value _ _ Hr e v Hin) as [Hd _]. split; [done|].
  destruct (rp_ok _ _ Hr) as [_ Hf]. rewrite Forall_forall in Hf. specialize (Hf _ Hin). unfold root. cbn in *. lia.
Qed.

Lemma default_last_in {A} (c : A) X : default c (last X) ∈ c :: X.
Proof. destruct (last X) as [y|] eqn:E; cbn; [right; by apply last_Some_elem_of|left]. Qed.

Lemma removelast_default {A} (c : A) X : c :: X = removelast (c :: X) ++ [default c (last X)].
Proof.
  revert c. induction X as [|x X IH]; intros c; [done|]. rewrite last_cons.
  change (removelast (c :: x :: X)) with (c :: removelast (x :: X)). cbn [app]. f_equal.
  rewrite (IH x) at 1. do 2 f_equal. by destruct (last X).
Qed.

(** A place in the ring, between [a] and [b]: the addresses before and after it. *)
Record place (h : gmap nat node) (X Y : list nat) (a b : nat) (S : list nat) : Prop := {
  pl_a : a = default root (last X);
  pl_b : Y ++ [root] = b :: S;
  pl_nodup : NoDup (root :: X ++ Y);
  pl_before : linked h (root :: X);
  pl_after : linked h (b :: S);
}.

(** What changes around the place leaves the rest linked. *)
Lemma place_frame h h' X Y a b S :
  place h X Y a b S → (∀ q, q ≠ a → q ∈ root :: X ++ Y → next h' q = next h q) → (∀ q, q ≠ b → q ∈ root :: X ++ Y → prev h' q = prev h q) →
  linked h' (root :: X) ∧ linked h' (b :: S).
Proof.
  intros [Ha Hb Hnd Hbef Haft] Hn Hp. apply NoDup_cons in Hnd as [Hroot Hnd]. rewrite elem_of_app in Hroot.
  apply NoDup_app in Hnd as (HX & Hdis & HY).
  assert (NoDup (root :: X)) as HndX by (apply NoDup_cons; tauto). assert (NoDup (b :: S)) as HndS.
  { rewrite <-Hb. apply NoDup_app. split_and!; [done| |apply NoDup_singleton]. intros x Hx ->%list_elem_of_singleton. tauto. }
  assert (b ∈ Y ∨ b = root) as HbY.
  { assert (b ∈ Y ++ [root]) as Hin by (rewrite Hb; left). apply elem_of_app in Hin as [?| ->%list_elem_of_singleton]; tauto. }
  split.
  - apply (linked_frame h); [done| |].
    + intros x Hx. rewrite (removelast_default root X) in HndX. apply NoDup_app in HndX as (_ & Hd & _). apply Hn.
      * intros ->. apply (Hd a Hx). rewrite <-Ha. left.
      * assert (x ∈ root :: X) as Hin by (rewrite (removelast_default root X); apply elem_of_app; by left).
        rewrite elem_of_cons, elem_of_app. apply elem_of_cons in Hin. tauto.
    + intros y Hy. apply Hp; [|rewrite elem_of_cons, elem_of_app; tauto]. intros ->. destruct HbY as [HbY| ->]; [by apply (Hdis b)|tauto].
  - apply (linked_frame h); [done| |].
    + rewrite <-Hb, removelast_last. intros x Hx. apply Hn; [|rewrite elem_of_cons, elem_of_app; tauto].
      intros ->. pose proof (default_last_in root X) as [Hin|Hin]%elem_of_cons; rewrite <-Ha in Hin; [rewrite Hin in Hx; tauto|by apply (Hdis a)].
    + intros y Hy. apply NoDup_cons in HndS as [HbS _]. apply Hp; [by intros ->|].
      assert (y ∈ Y ++ [root]) as Hin by (rewrite Hb; by right). rewrite elem_of_cons, elem_of_app.
      apply elem_of_app in Hin as [?| ->%list_elem_of_singleton]; tauto.
Qed.

Lemma represents_nodup r l : represents r l → NoDup (root :: (el_elems l).*1).
Proof.
  intros Hr. apply NoDup_cons. split; [|by destruct (rp_ok _ _ Hr)]. intros Hin. by destruct (represents_ids r l root Hr Hin).
Qed.

Lemma split_ring (Y : list nat) : ∃ b S, Y ++ [root] = b :: S.
Proof. destruct Y as [|y Y]; by eexists _, _. Qed.

(** ** The operations *)

Lemma insertValue_represents r A B fr v :
  represents r (mk_elist (A ++ B) fr) →
  ∃ r', insertValue r v (Some (default root (last A.*1))) = Ret (r', fr) ∧ represents r' (mk_elist (A ++ (fr, v) :: B) (S fr)).
Proof.
  intros Hr. pose proof (represents_nodup _ _ Hr) as Hnd. pose proof (λ p, represents_ids r _ p Hr) as Hids.
  destruct r as [h len fr']. destruct Hr as [Hok Hlen Hfr Hroot Hdom Hlk Hls Hvl]. cbn [r_store r_len r_fresh el_elems el_fresh] in *. subst fr'.
  rewrite fmap_app in *. rewrite <-app_assoc in Hlk. destruct (split_ring B.*1) as (b & S0 & Hb). rewrite Hb in Hlk.
  apply linked_app in Hlk as (Hl1 & Hab & Hba & Hl2). set (a := default root (last A.*1)) in *.
  assert (∀ p, p ∈ root :: A.*1 ++ B.*1 → p ∈ dom h) as Hin by (intros p [->|Hp]%elem_of_cons; [done|by apply Hids]).
  assert (a ∈ root :: A.*1 ++ B.*1) as Ha.
  { pose proof (default_last_in root A.*1) as Hx. fold a in Hx. rewrite elem_of_cons, elem_of_app. apply elem_of_cons in Hx. tauto. }
  assert (b ∈ root :: A.*1 ++ B.*1) as Hbin.
  { assert (b ∈ B.*1 ++ [root]) as Hx by (rewrite Hb; left). rewrite elem_of_cons, elem_of_app. apply elem_of_app in Hx as [?| ->%list_elem_of_singleton]; tauto. }
  assert (∀ p, p ∈ dom h → p ≠ fr) as Hne by (intros p Hp ->; apply Hdom in Hp; lia).
  unfold insertValue. cbn [r_store r_len r_fresh]. set (h0 := <[fr := _]> h).
  assert (∀ q, q ≠ fr → h0 !! q = h !! q) as Hh0 by (intros q Hq; by apply lookup_insert_ne).
  assert (h0 !! fr = Some (mk_node None None false (Some v))) as Hfr0 by apply lookup_insert_eq.
  assert (dom h0 = {[fr]} ∪ dom h) as Hd0 by apply dom_insert_L.
  destruct (insert_fields h0 len (S fr) fr a b) as (h' & -> & Hd & Hn & Hp & Hl & Hv).
  { rewrite Hd0. apply elem_of_union. left. by apply elem_of_singleton. }
  { rewrite Hd0. apply elem_of_union. right. by apply Hin. }
  { rewrite Hd0. apply elem_of_union. right. by apply Hin. }
  { intros Heq. by apply (Hne a); [apply Hin|]. }
  { intros Heq. by apply (Hne b); [apply Hin|]. }
  { unfold next. rewrite Hh0 by (by apply Hne, Hin). done. }
  eexists. split; [reflexivity|]. split; cbn [r_store r_len r_fresh el_elems el_fresh].
  - apply (elist_ok_middle fr A v B); [|done]. apply Hdom in Hroot. lia.
  - rewrite Hlen. unfold elist_Len, zlen. cbn [el_elems]. rewrite !length_app, length_cons. lia.
  - done.
  - rewrite Hd, Hd0. apply elem_of_union. by right.
  - rewrite Hd, Hd0. intros p. rewrite elem_of_union, elem_of_singleton, Hdom. lia.
  - rewrite fmap_app, fmap_cons, <-app_assoc. cbn [fst app]. rewrite Hb.
    destruct (place_frame h h' A.*1 B.*1 a b S0) as [Hl1' Hl2']; [by split| | |].
    { intros q Hq Hin'. rewrite Hn, !decide_False by (done || by apply Hne, Hin). unfold next. by rewrite Hh0 by (by apply Hne, Hin). }
    { intros q Hq Hin'. rewrite Hp, !decide_False by (done || by apply Hne, Hin). unfold prev. by rewrite Hh0 by (by apply Hne, Hin). }
    apply linked_app. fold a. split_and!; [done| | |].
    + rewrite Hn, decide_False, decide_True by (done || by apply Hne, Hin). done.
    + rewrite Hp, decide_False, decide_True by (done || by apply not_eq_sym, Hne, Hin). done.
    + split_and!; [|by rewrite Hp, decide_True|done]. by rewrite Hn, decide_True.
  - rewrite Hd, Hd0. intros p Hp'. rewrite Hl, fmap_app, fmap_cons. cbn [fst]. case_decide as Hpf.
    + subst p. rewrite bool_decide_eq_true_2; [done|]. rewrite elem_of_app, elem_of_cons. tauto.
    + apply elem_of_union in Hp' as [?%elem_of_singleton|Hp']; [done|]. unfold in_list. rewrite Hh0 by done. fold (in_list h p). rewrite Hls by done.
      f_equal. apply bool_decide_ext. rewrite !elem_of_app, elem_of_cons. tauto.
  - intros e w Hin'. rewrite Hd, Hd0, Hv. rewrite elem_of_app, elem_of_cons in Hin'.
    assert ((e, w) = (fr, v) ∨ (e, w) ∈ A ++ B) as [[= -> ->]|HAB] by (rewrite elem_of_app; tauto).
    + split; [apply elem_of_union; left; by apply elem_of_singleton|]. unfold value. by rewrite Hfr0.
    + destruct (Hvl e w HAB) as [He Hev]. split; [apply elem_of_union; by right|]. unfold value. by rewrite Hh0 by (by apply Hne).
Qed.

Lemma remove_represents r A e v B fr :
  represents r (mk_elist (A ++ (e, v) :: B) fr) → ∃ r', remove r e = Ret r' ∧ represents r' (mk_elist (A ++ B) fr).
Proof.
  intros Hr. pose proof (represents_nodup _ _ Hr) as Hnd. pose proof (λ p, represents_ids r _ p Hr) as Hids.
  destruct r as [h len fr']. destruct Hr as [Hok Hlen Hfr Hroot Hdom Hlk Hls Hvl]. cbn [r_store r_len r_fresh el_elems el_fresh] in *. subst fr'.
  rewrite fmap_app, fmap_cons in *. cbn [fst] in *. rewrite <-app_assoc in Hlk. destruct (split_ring B.*1) as (b & S0 & Hb).
  cbn [app] in Hlk. rewrite Hb in Hlk.
  apply linked_app in Hlk as (Hl1 & Hae & Hea & Heb & Hbe & Hl2). set (a := default root (last A.*1)) in *.
  assert (NoDup (e :: root :: A.*1 ++ B.*1)) as Hnd'.
  { eapply NoDup_Permutation_proper; [|exact Hnd]. by rewrite <-(Permutation_middle A.*1 B.*1), (Permutation_swap e root). }
  apply NoDup_cons in Hnd' as [Hefresh Hnd'].
  assert (∀ p, p ∈ root :: A.*1 ++ B.*1 → p ∈ dom h ∧ p ≠ e) as Hin.
  { intros p Hp. split; [|by intros ->]. apply elem_of_cons in Hp as [->|Hp]; [done|]. apply Hids. rewrite elem_of_app, elem_of_cons in *. tauto. }
  assert (a ∈ root :: A.*1 ++ B.*1) as Ha.
  { pose proof (default_last_in root A.*1) as Hx. fold a in Hx. rewrite elem_of_cons, elem_of_app. apply elem_of_cons in Hx. tauto. }
  assert (b ∈ root :: A.*1 ++ B.*1) as Hbin.
  { assert (b ∈ B.*1 ++ [root]) as Hx by (rewrite Hb; left). rewrite elem_of_cons, elem_of_app. apply elem_of_app in Hx as [?| ->%list_elem_of_singleton]; tauto. }
  destruct (remove_fields h len fr e a b) as (h' & -> & Hd & Hn & Hp & Hl & Hv); try done.
  { apply Hids. rewrite elem_of_app, elem_of_cons. tauto. }
  1,2: by apply Hin.
  1,2: by apply not_eq_sym, Hin.
  eexists. split; [reflexivity|]. split; cbn [r_store r_len r_fresh el_elems el_fresh].
  - by eapply elist_ok_remove.
  - rewrite Hlen. unfold elist_Len, zlen. cbn [el_elems]. rewrite !length_app, length_cons. lia.
  - done.
  - by rewrite Hd.
  - by rewrite Hd.
  - rewrite fmap_app, <-app_assoc, Hb.
    destruct (place_frame h h' A.*1 B.*1 a b S0) as [Hl1' Hl2']; [by split| | |].
    { intros q Hq Hin'. by rewrite Hn, !decide_False by (done || by apply Hin). }
    { intros q Hq Hin'. by rewrite Hp, !decide_False by (done || by apply Hin). }
    apply linked_app. fold a. split_and!; [done| | |done].
    + by rewrite Hn, decide_False, decide_True by (done || by apply Hin).
    + by rewrite Hp, decide_False, decide_True by (done || by apply Hin).
  - rewrite Hd. intros p Hp'. rewrite Hl, fmap_app. case_decide as Hpe.
    + subst p. rewrite bool_decide_eq_false_2; [done|]. rewrite elem_of_cons in Hefresh. tauto.
    + rewrite Hls by done. f_equal. apply bool_decide_ext. rewrite !elem_of_app, elem_of_cons. tauto.
  - intros x w Hin'. rewrite Hd, Hv. apply Hvl. rewrite elem_of_app, elem_of_cons in *. tauto.
Qed.

(** Where an element of the list points. *)
Lemma represents_mid r l A e v B :
  represents r l → el_elems l = A ++ (e, v) :: B →
  prev (r_store r) e = Some (default root (last A.*1)) ∧ next (r_store r) e = Some (default root (head B.*1)) ∧
  in_list (r_store r) e = Some true ∧ e ∈ dom (r_store r).
Proof.
  intros Hr E. pose proof (rp_links _ _ Hr) as Hlk. rewrite E, fmap_app, fmap_cons, <-app_assoc in Hlk. cbn [fst app] in Hlk.
  apply linked_app in Hlk as (_ & _ & Hp & Hn). assert (e ∈ (el_elems l).*1) as Hin by (rewrite E, fmap_app, elem_of_app, fmap_cons; right; left).
  destruct (represents_ids r l e Hr Hin) as [Hd _]. split_and!; [done| | |done].
  - by destruct B as [|[i w] B]; destruct Hn.
  - rewrite (rp_list _ _ Hr e Hd). by rewrite bool_decide_eq_true_2.
Qed.

Lemma represents_root r l :
  represents r l → next (r_store r) root = Some (default root (head (el_elems l).*1)) ∧ prev (r_store r) root = Some (default root (last (el_elems l).*1)).
Proof.
  intros Hr. pose proof (rp_links _ _ Hr) as Hlk. split.
  - by destruct (el_elems l) as [|[i w] es]; destruct Hlk.
  - by apply linked_app in Hlk as (_ & _ & Hp & _).
Qed.

(** Whether an address is in the list. *)
Lemma in_elems (l : elist T) e : (∃ A v B, el_elems l = A ++ (e, v) :: B) ∨ ((e ∉ (el_elems l).*1) ∧ split_at e (el_elems l) = None).
Proof.
  destruct (split_at e (el_elems l)) as [[[A v] B]|] eqn:E; [left; exists A, v, B; by apply split_at_Some|right; split; [|done]].
  intros ([i v] & -> & (A & B & HAB)%list_elem_of_split)%list_elem_of_fmap. cbn in E. rewrite HAB in E. clear -E. induction A as [|[j w] A IH]; cbn in E.
  - by rewrite decide_True in E.
  - destruct (decide (j = i)); [done|]. destruct (split_at i (A ++ (i, v) :: B)) as [[[? ?] ?]|] eqn:E'; [done|]. by apply IH.
Qed.

Lemma not_in_list r l e : represents r l → e ∉ (el_elems l).*1 → (e < el_fresh l)%nat → ∃ n, deref (r_store r) (Some e) = Ret n ∧ n_list n = false.
Proof.
  intros Hr Hni Hlt. pose proof (proj2 (rp_dom _ _ Hr e) Hlt) as Hd. destruct (deref_dom _ e Hd) as (n & Hn & _ & _ & _ & Hl & _). exists n. split; [done|].
  rewrite (rp_list _ _ Hr e Hd), bool_decide_eq_false_2 in Hl by done. congruence.
Qed.

(** The operations that change a list. *)
Inductive list_op :=
| OPushFront (v : T)
| OPushBack (v : T)
| OInsertBefore (v : T) (mark : nat)
| OInsertAfter (v : T) (mark : nat)
| ORemove (e : nat).

Definition ring_op (r : ring) (op : list_op) : outcome ring :=
  match op with
  | OPushFront v => '(r, _) ← PushFront r v; Ret r
  | OPushBack v => '(r, _) ← PushBack r v; Ret r
  | OInsertBefore v mark => '(r, _) ← InsertBefore r v mark; Ret r
  | OInsertAfter v mark => '(r, _) ← InsertAfter r v mark; Ret r
  | ORemove e => Remove r e
  end.

Definition elist_op (l : elist T) (op : list_op) : elist T :=
  match op with
  | OPushFront v => elist_PushFront l v
  | OPushBack v => elist_PushBack l v
  | OInsertBefore v mark => elist_InsertBefore l v mark
  | OInsertAfter v mark => elist_InsertAfter l v mark
  | ORemove e => elist_Remove l e
  end.

(** A pointer that is passed is to an element that was made before, in the list or removed from it. *)
Definition op_pointer (l : elist T) (op : list_op) : Prop :=
  match op with
  | OInsertBefore _ e | OInsertAfter _ e | ORemove e => (0 < e < el_fresh l)%nat
  | _ => True
  end.

Lemma lazyInit_represents r l : represents r l → lazyInit r = Ret r.
Proof.
  intros Hr. unfold lazyInit. destruct (deref_dom _ root (rp_root _ _ Hr)) as (n & -> & _ & Hn & _). cbn [mbind outcome_bind].
  by rewrite Hn, (proj1 (represents_root r l Hr)).
Qed.

Lemma ring_op_represents r l op : represents r l → op_pointer l op → ∃ r', ring_op r op = Ret r' ∧ represents r' (elist_op l op).
Proof.
  intros Hr Hop. destruct l as [es fr]. destruct op as [v|v|v e|v e|e]; cbn [ring_op elist_op op_pointer el_fresh] in *.
  - unfold PushFront. rewrite (lazyInit_represents r _ Hr). cbn [mbind outcome_bind].
    destruct (insertValue_represents r [] es fr v Hr) as (r' & E & Hr'). cbn in E. rewrite E. by exists r'.
  - unfold PushBack. rewrite (lazyInit_represents r _ Hr). cbn [mbind outcome_bind].
    destruct (deref_dom _ root (rp_root _ _ Hr)) as (n & -> & _ & _ & Hn & _). cbn [mbind outcome_bind].
    rewrite Hn, (proj2 (represents_root r _ Hr)). cbn [el_elems].
    destruct (insertValue_represents r es [] fr v) as (r' & E & Hr'); [by rewrite app_nil_r|]. rewrite E. by exists r'.
  - unfold InsertBefore, elist_InsertBefore. destruct (in_elems (mk_elist es fr) e) as [(A & w & B & E)|[Hni ->]].
    + rewrite (split_at_mid _ A e w B (rp_ok _ _ Hr) E). cbn [el_elems] in E. subst es.
      destruct (represents_mid r _ A e w B Hr eq_refl) as (Hp & _ & Hl & Hd).
      destruct (deref_dom _ e Hd) as (n & -> & _ & _ & Hn & Hln & _). cbn [mbind outcome_bind]. rewrite Hl in Hln. simplify_eq. rewrite Hln, Hn, Hp. cbn [negb].
      destruct (insertValue_represents r A ((e, w) :: B) fr v Hr) as (r' & -> & Hr'). by exists r'.
    + destruct (not_in_list r _ e Hr Hni ltac:(cbn; lia)) as (n & -> & Hln). cbn [mbind outcome_bind]. rewrite Hln. by exists r.
  - unfold InsertAfter, elist_InsertAfter. destruct (in_elems (mk_elist es fr) e) as [(A & w & B & E)|[Hni ->]].
    + rewrite (split_at_mid _ A e w B (rp_ok _ _ Hr) E). cbn [el_elems] in E. subst es.
      destruct (represents_mid r _ A e w B Hr eq_refl) as (_ & _ & Hl & Hd).
      destruct (deref_dom _ e Hd) as (n & -> & _ & _ & _ & Hln & _). cbn [mbind outcome_bind]. rewrite Hl in Hln. simplify_eq. rewrite Hln. cbn [negb].
      destruct (insertValue_represents r (A ++ [(e, w)]) B fr v) as (r' & E & Hr'); [by rewrite <-app_assoc|].
      rewrite fmap_app, fmap_cons, fmap_nil, last_snoc in E. cbn in E. rewrite E. rewrite <-app_assoc in Hr'. by exists r'.
    + destruct (not_in_list r _ e Hr Hni ltac:(cbn; lia)) as (n & -> & Hln). cbn [mbind outcome_bind]. rewrite Hln. by exists r.
  - unfold Remove, elist_Remove. destruct (in_elems (mk_elist es fr) e) as [(A & w & B & E)|[Hni ->]].
    + rewrite (split_at_mid _ A e w B (rp_ok _ _ Hr) E). cbn [el_elems] in E. subst es.
      destruct (represents_mid r _ A e w B Hr eq_refl) as (_ & _ & Hl & Hd).
      destruct (deref_dom _ e Hd) as (n & -> & _ & _ & _ & Hln & _). cbn [mbind outcome_bind]. rewrite Hl in Hln. simplify_eq. rewrite Hln.
      exact (remove_represents r A e w B fr Hr).
    + destruct (not_in_list r _ e Hr Hni ltac:(cbn; lia)) as (n & -> & Hln). cbn [mbind outcome_bind]. rewrite Hln. by exists r.
Qed.

Fixpoint ring_run (r : ring) (ops : list list_op) : outcome ring :=
  match ops with
  | [] => Ret r
  | op :: ops => r ← ring_op r op; ring_run r ops
  end.

Definition elist_run (l : elist T) (ops : list list_op) : elist T := foldl elist_op l ops.

Fixpoint pointers_ok (l : elist T) (ops : list list_op) : Prop :=
  match ops with
  | [] => True
  | op :: ops => op_pointer l op ∧ pointers_ok (elist_op l op) ops
  end.

Lemma ring_run_represents ops : ∀ r l,
  represents r l → pointers_ok l ops → ∃ r', ring_run r ops = Ret r' ∧ represents r' (elist_run l ops).
Proof.
  induction ops as [|op ops IH]; intros r l Hr Hp; cbn [ring_run elist_run foldl]; [by exists r|]. destruct Hp as [Hop Hp].
  destruct (ring_op_represents r l op Hr Hop) as (r1 & -> & Hr1). exact (IH r1 _ Hr1 Hp).
Qed.

Lemma NewList_represents : ∃ r, NewList = Ret r ∧ represents r empty_elist.
Proof.
  eexists. split; [reflexivity|]. split; cbn [r_store r_len r_fresh el_elems el_fresh empty_elist].
  - split; cbn; [constructor|apply Forall_nil_2].
  - done.
  - done.
  - apply elem_of_dom. by eexists.
  - intros p. rewrite !dom_insert_L, dom_singleton_L, !elem_of_union, !elem_of_singleton. unfold root. lia.
  - done.
  - intros p Hp. assert (p = root) as -> by (rewrite !dom_insert_L, dom_singleton_L, !elem_of_union, !elem_of_singleton in Hp; tauto). done.
  - by intros e v ?%elem_of_nil.
Qed.

Lemma ring_observations r l :
  represents r l →
  Len r = elist_Len l ∧ Front r = Ret (elist_Front l) ∧ Back r = Ret (elist_Back l) ∧
  ∀ e, (0 < e < el_fresh l)%nat → Next r e = Ret (elist_Next l e) ∧ Prev r e = Ret (elist_Prev l e).
Proof.
  intros Hr. destruct (represents_root r l Hr) as [Hrn Hrp].
  destruct (deref_dom _ root (rp_root _ _ Hr)) as (n & Hn & _ & Hn1 & Hn2 & _). split; [apply (rp_len _ _ Hr)|]. split; [|split].
  - unfold Front, elist_Front. rewrite (rp_len _ _ Hr), Hn. cbn [mbind outcome_bind]. rewrite Hn1, Hrn. unfold elist_Len.
    by destruct (el_elems l) as [|[i w] es].
  - unfold Back, elist_Back. rewrite (rp_len _ _ Hr), Hn. cbn [mbind outcome_bind]. rewrite Hn2, Hrp. unfold elist_Len.
    destruct (el_elems l) as [|[i w] es]; [done|]. rewrite fmap_last. destruct (last ((i, w) :: es)) eqn:E; [done|by apply last_None in E].
  - intros e He. unfold Next, Prev, elist_Next, elist_Prev. destruct (in_elems l e) as [(A & w & B & E)|[Hni ->]].
    + rewrite (split_at_mid l A e w B (rp_ok _ _ Hr) E). destruct (represents_mid r l A e w B Hr E) as (Hp & Hx & Hl & Hd).
      destruct (deref_dom _ e Hd) as (m & -> & _ & Hm1 & Hm2 & Hm3 & _). cbn [mbind outcome_bind]. rewrite Hl in Hm3. simplify_eq. rewrite Hm3, Hm1, Hm2, Hp, Hx.
      cbn [andb]. assert (∀ i v, (i, v) ∈ A ∨ (i, v) ∈ B → i ≠ root) as Hroot.
      { intros i v Hi. apply (represents_ids r l i Hr). rewrite E. apply list_elem_of_fmap. exists (i, v). rewrite elem_of_app, elem_of_cons. tauto. }
      split.
      * destruct B as [|[i v] B]; cbn; [done|]. rewrite bool_decide_eq_false_2; [done|]. intros [= Hi]. apply (Hroot i v); [right; left|done].
      * rewrite fmap_last. destruct (last A) as [[i v]|] eqn:EA; cbn; [|done]. rewrite bool_decide_eq_false_2; [done|]. intros [= Hi].
        apply (Hroot i v); [left; by apply last_Some_elem_of|done].
    + destruct (not_in_list r l e Hr Hni ltac:(lia)) as (m & -> & Hm). cbn [mbind outcome_bind]. by rewrite Hm.
Qed.

(** C38. The doubly linked list is a list.  Any sequence of insertions and removals, starting from a new list, with pointers to elements in
    the list or removed from it before, follows no nil pointer; the ring then has the elements and values of the abstract list, and [Len],
    [Front], [Back], [Next] and [Prev] return what they do on that list: [Next] and [Prev] are inverse walks through it, and a removed element
    has no neighbours. *)
Theorem linked_list_refines (ops : list list_op) :
  pointers_ok empty_elist ops →
  ∃ r, (r ← NewList; ring_run r ops) = Ret r ∧ let l := elist_run empty_elist ops in
    Len r = elist_Len l ∧ Front r = Ret (elist_Front l) ∧ Back r = Ret (elist_Back l) ∧
    (∀ e, (0 < e < el_fresh l)%nat → Next r e = Ret (elist_Next l e) ∧ Prev r e = Ret (elist_Prev l e)) ∧
    ∀ e v, (e, v) ∈ el_elems l → n_Value <$> r_store r !! e = Some (Some v).
Proof.
  intros Hp. destruct NewList_represents as (r0 & -> & Hr0). cbn [mbind outcome_bind].
  destruct (ring_run_represents ops r0 _ Hr0 Hp) as (r & -> & Hr). exists r. split; [done|]. set (l := elist_run empty_elist ops) in *.
  destruct (ring_observations r l Hr) as (H1 & H2 & H3 & H4). split_and!; [done..|]. intros e v Hin. destruct (rp_value _ _ Hr e v Hin) as [_ Hv].
  unfold value in Hv. destruct (r_store r !! e); [|done]. cbn in *. by rewrite Hv.
Qed.
End Ring.
Arguments node : clear implicits.
Arguments ring : clear implicits.

(** ** An example: insertions around an element, and its removal *)

Definition example_list_ops : list (@list_op Z) :=
  [OPushFront 7; OPushBack 9; OInsertAfter 8 1%nat; OInsertBefore 6 1%nat; ORemove 1%nat; OInsertAfter 5 1%nat; ORemove 1%nat].

Lemma linked_list_refines_witness :
  pointers_ok empty_elist example_list_ops ∧ el_elems (elist_run empty_elist example_list_ops) = [(4%nat, 6); (3%nat, 8); (2%nat, 9)] ∧
  ∃ r, (r ← NewList; ring_run r example_list_ops) = Ret r ∧ let l := elist_run empty_elist example_list_ops in
    Len r = elist_Len l ∧ Front r = Ret (elist_Front l) ∧ Back r = Ret (elist_Back l) ∧
    (∀ e, (0 < e < el_fresh l)%nat → Next r e = Ret (elist_Next l e) ∧ Prev r e = Ret (elist_Prev l e)) ∧
    ∀ e v, (e, v) ∈ el_elems l → n_Value <$> r_store r !! e = Some (Some v).
Proof.
  assert (pointers_ok empty_elist example_list_ops) as Hp
    by (cbn [pointers_ok op_pointer example_list_ops]; split_and!; first [exact I|apply Nat.ltb_lt; reflexivity]).
  split; [exact Hp|]. split; [reflexivity|]. exact (linked_list_refines example_list_ops Hp).
Defined.
