(* ===== verification/QuicProtocol.v ===== *)
(** * Numbers of the QUIC transport

    [quicvarint/varint.go], [internal/utils/byteorder_big_endian.go] and the
    number types of [internal/protocol]: variable-length integers, packet
    numbers, stream IDs, versions and connection IDs, with the constants the
    other files of the transport use.

    A variable-length integer is below [2 ^ 62], so that its conversions to signed
    64-bit types are the identity and are left out; those of signed values to
    [uint64] are [u64]. *)

From stdpp Require Import base list numbers strings.
From Stdlib Require Import ZArith Lia.
From S2P Require Import Prelude.

(** ** Constants of [internal/protocol] *)

Definition MaxByteCount : Z := 2 ^ 62 - 1.
Definition InvalidByteCount : Z := -1.
Definition InvalidPacketNumber : Z := -1.
Definition MaxPacketBufferSize : Z := 1452.
Definition DefaultAckDelayExponent : Z := 3.
Definition AckDelayExponent : Z := 3.
Definition MaxConnIDLen : Z := 20.
Definition MaxStreamCount : Z := Z.shiftl 1 60.
Definition MaxStreamFrameSorterGaps : Z := 1000.
Definition MinStreamFrameBufferSize : Z := 128.
Definition MinStreamFrameSize : Z := 128.
Definition MaxAckFrameSize : Z := 1000.
Definition MaxNumAckRanges : Z := 32.

(** ** Writing

    A [bytes.Buffer] is written piece by piece; a piece is the bytes it appends,
    or a panic or an error. *)

Fixpoint writes (ws : list (outcome (list Z))) : outcome (list Z) :=
  match ws with
  | [] => Ret []
  | w :: ws => bs ← w; bs' ← writes ws; Ret (bs ++ bs')
  end.

Definition WriteByte (b : Z) : outcome (list Z) := Ret [b].

(** ** Variable-length integers *)

Definition maxVarInt1 : Z := 63.
Definition maxVarInt2 : Z := 16383.
Definition maxVarInt4 : Z := 1073741823.
Definition maxVarInt8 : Z := 4611686018427387903.

Definition quicvarint_Read : reader Z :=
  firstByte ← ReadByte;
  let len := Z.shiftl 1 (Z.shiftr (Z.land firstByte 192) 6) in
  let b1 := Z.land firstByte (255 - 192) in
  if len =? 1 then mret b1 else
  b2 ← ReadByte;
  if len =? 2 then mret (b2 + Z.shiftl b1 8) else
  b3 ← ReadByte;
  b4 ← ReadByte;
  if len =? 4 then mret (b4 + Z.shiftl b3 8 + Z.shiftl b2 16 + Z.shiftl b1 24) else
  b5 ← ReadByte;
  b6 ← ReadByte;
  b7 ← ReadByte;
  b8 ← ReadByte;
  mret (b8 + Z.shiftl b7 8 + Z.shiftl b6 16 + Z.shiftl b5 24 +
        Z.shiftl b4 32 + Z.shiftl b3 40 + Z.shiftl b2 48 + Z.shiftl b1 56).

Definition quicvarint_Write (i : Z) : outcome (list Z) :=
  if i <=? maxVarInt1 then Ret [u8 i]
  else if i <=? maxVarInt2 then Ret [Z.lor (u8 (Z.shiftr i 8)) 64; u8 i]
  else if i <=? maxVarInt4 then
    Ret [Z.lor (u8 (Z.shiftr i 24)) 128; u8 (Z.shiftr i 16); u8 (Z.shiftr i 8); u8 i]
  else if i <=? maxVarInt8 then
    Ret [Z.lor (u8 (Z.shiftr i 56)) 192; u8 (Z.shiftr i 48); u8 (Z.shiftr i 40); u8 (Z.shiftr i 32);
         u8 (Z.shiftr i 24); u8 (Z.shiftr i 16); u8 (Z.shiftr i 8); u8 i]
  else Panic "doesn't fit into 62 bits".

Definition quicvarint_Len (i : Z) : outcome Z :=
  if i <=? maxVarInt1 then Ret 1
  else if i <=? maxVarInt2 then Ret 2
  else if i <=? maxVarInt4 then Ret 4
  else if i <=? maxVarInt8 then Ret 8
  else Panic "value doesn't fit into 62 bits".

Definition quicvarint_WriteWithLen (i length : Z) : outcome (list Z) :=
  if negb (length =? 1) && negb (length =? 2) && negb (length =? 4) && negb (length =? 8)
  then Panic "invalid varint length" else
  l ← quicvarint_Len i;
  if l =? length then quicvarint_Write i
  else if length <? l then Panic "cannot encode"
  else Ret ((if length =? 2 then [64] else if length =? 4 then [128] else if length =? 8 then [192] else []) ++
            replicate (Z.to_nat (length - l - 1)) 0 ++
            ((λ j, u8 (Z.shiftr i (8 * (l - 1 - j)))) <$> seqZ 0 l)).

(** ** Big-endian integers *)

Definition BigEndian_ReadUint32 : reader Z :=
  b4 ← ReadByte;
  b3 ← ReadByte;
  b2 ← ReadByte;
  b1 ← ReadByte;
  mret (b1 + Z.shiftl b2 8 + Z.shiftl b3 16 + Z.shiftl b4 24).

Definition BigEndian_ReadUint24 : reader Z :=
  b3 ← ReadByte;
  b2 ← ReadByte;
  b1 ← ReadByte;
  mret (b1 + Z.shiftl b2 8 + Z.shiftl b3 16).

Definition BigEndian_ReadUint16 : reader Z :=
  b2 ← ReadByte;
  b1 ← ReadByte;
  mret (b1 + Z.shiftl b2 8).

Definition BigEndian_WriteUint32 (i : Z) : list Z :=
  [u8 (Z.shiftr i 24); u8 (Z.shiftr i 16); u8 (Z.shiftr i 8); u8 i].

Definition BigEndian_WriteUint24 (i : Z) : list Z := [u8 (Z.shiftr i 16); u8 (Z.shiftr i 8); u8 i].

Definition BigEndian_WriteUint16 (i : Z) : list Z := [u8 (Z.shiftr i 8); u8 i].

(** The rounds [i], [i + 1], ... of [ReadUintN], [n] of them. *)
Fixpoint ReadUintN_loop (n : nat) (length i res : Z) : reader Z :=
  match n with
  | O => mret res
  | S n =>
      bt ← ReadByte;
      ReadUintN_loop n length (i + 1) (Z.lxor res (u64 (Z.shiftl bt (u8 (u8 (length - 1 - i) * 8)))))
  end.

Definition BigEndian_ReadUintN (length : Z) : reader Z := ReadUintN_loop (Z.to_nat length) length 0 0.

(** ** Packet numbers *)

Definition delta (a b : Z) : Z := if a <? b then b - a else a - b.

Definition closestTo (target a b : Z) : Z := if delta target a <? delta target b then a else b.

(** Packet numbers are below [2 ^ 62], so that nothing overflows. *)
Definition DecodePacketNumber (packetNumberLength lastPacketNumber wirePacketNumber : Z) : Z :=
  let epochDelta :=
    if packetNumberLength =? 1 then Z.shiftl 1 8
    else if packetNumberLength =? 2 then Z.shiftl 1 16
    else if packetNumberLength =? 3 then Z.shiftl 1 24
    else if packetNumberLength =? 4 then Z.shiftl 1 32
    else 0 in
  let epoch := Z.land lastPacketNumber (Z.lnot (epochDelta - 1)) in
  let prevEpochBegin := if epochDelta <? epoch then epoch - epochDelta else 0 in
  let nextEpochBegin := epoch + epochDelta in
  closestTo (lastPacketNumber + 1) (epoch + wirePacketNumber)
    (closestTo (lastPacketNumber + 1) (prevEpochBegin + wirePacketNumber) (nextEpochBegin + wirePacketNumber)).

Definition GetPacketNumberLengthForHeader (packetNumber leastUnacked : Z) : Z :=
  let diff := u64 (packetNumber - leastUnacked) in
  if diff <? Z.shiftl 1 (16 - 1) then 2
  else if diff <? Z.shiftl 1 (24 - 1) then 3
  else 4.

(** ** Streams *)

Inductive StreamType := StreamTypeUni | StreamTypeBidi.
Inductive Perspective := PerspectiveServer | PerspectiveClient.

#[global] Instance StreamType_eq_dec : EqDecision StreamType.
Proof. solve_decision. Defined.
#[global] Instance Perspective_eq_dec : EqDecision Perspective.
Proof. solve_decision. Defined.

Definition Opposite (p : Perspective) : Perspective :=
  match p with PerspectiveServer => PerspectiveClient | PerspectiveClient => PerspectiveServer end.

Definition InvalidStreamID : Z := -1.
Definition InvalidStreamNum : Z := -1.

Definition StreamNum_StreamID (s : Z) (stype : StreamType) (pers : Perspective) : Z :=
  if s =? 0 then InvalidStreamID else
  let first := match stype, pers with
               | StreamTypeBidi, PerspectiveClient => 0
               | StreamTypeBidi, PerspectiveServer => 1
               | StreamTypeUni, PerspectiveClient => 2
               | StreamTypeUni, PerspectiveServer => 3
               end in
  first + 4 * (s - 1).

(** [%] and [/] of Go truncate. *)
Definition StreamID_InitiatedBy (s : Z) : Perspective :=
  if Z.rem s 2 =? 0 then PerspectiveClient else PerspectiveServer.

Definition StreamID_Type (s : Z) : StreamType := if 2 <=? Z.rem s 4 then StreamTypeUni else StreamTypeBidi.

Definition StreamID_StreamNum (s : Z) : Z := Z.quot s 4 + 1.

(** ** Versions *)

Definition Version1 : Z := 1.
Definition VersionDraft29 : Z := 4278190109.
Definition SupportedVersions : list Z := [Version1; VersionDraft29].

Definition IsSupportedVersion (supported : list Z) (v : Z) : bool := existsb (λ t, t =? v) supported.

Definition ChooseSupportedVersion (ours theirs : list Z) : Z * bool :=
  match List.find (λ ourVer, existsb (λ theirVer, ourVer =? theirVer) theirs) ours with
  | Some ourVer => (ourVer, true)
  | None => (0, false)
  end.

(** ** Connection IDs *)

Definition ReadConnectionID (len : Z) : reader (list Z) := λ r,
  if len =? 0 then Ret ([], r) else
  match ReadFull (Z.to_nat len) r with
  | Err UnexpectedEOF => Err EOF
  | res => res
  end.

(** ** Writing and reading variable-length integers *)

Abbreviation is_varint i := (0 <= i <= maxVarInt8).

(** The first byte: two bits of length, six of the number. *)
Lemma first_byte t x :
  0 <= t < 4 → 0 <= x < 64 →
  Z.shiftr (Z.land (Z.lor x (64 * t)) 192) 6 = t ∧ Z.land (Z.lor x (64 * t)) 63 = x ∧ is_byte (Z.lor x (64 * t)).
Proof.
  intros Ht Hx.
  assert (Forall (λ t, Forall (λ x, Z.shiftr (Z.land (Z.lor x (64 * t)) 192) 6 = t ∧
    Z.land (Z.lor x (64 * t)) 63 = x ∧ is_byte (Z.lor x (64 * t))) (seqZ 0 64)) (seqZ 0 4)) as H.
  { apply (bool_decide_unpack _). vm_compute. done. }
  rewrite Forall_forall in H. specialize (H t). rewrite elem_of_seqZ, Forall_forall in H.
  specialize (H ltac:(lia) x). rewrite elem_of_seqZ in H. apply H. lia.
Qed.

Lemma byte_bits b : is_byte b → 0 <= Z.shiftr (Z.land b 192) 6 < 4 ∧ 0 <= Z.land b 63 < 64.
Proof.
  intros Hb. assert (Forall (λ b, 0 <= Z.shiftr (Z.land b 192) 6 < 4 ∧ 0 <= Z.land b 63 < 64) (seqZ 0 256)) as H.
  { apply (bool_decide_unpack _). vm_compute. done. }
  rewrite Forall_forall in H. apply H, elem_of_seqZ. unfold uint in Hb. lia.
Qed.

Ltac shifts :=
  rewrite ?Z.shiftl_mul_pow2, ?Z.shiftr_div_pow2 by lia;
  change (2 ^ 8) with 256; change (2 ^ 16) with 65536; change (2 ^ 24) with 16777216;
  change (2 ^ 32) with 4294967296; change (2 ^ 40) with 1099511627776;
  change (2 ^ 48) with 281474976710656; change (2 ^ 56) with 72057594037927936.

Ltac run_reader := unfold mbind, reader_bind, mret, reader_ret; cbn [ReadByte app].

Lemma quicvarint_Write_Ret i : is_varint i → ∃ bs, quicvarint_Write i = Ret bs ∧ bytes_ok bs ∧ bs ≠ [].
Proof.
  intros Hi. unfold quicvarint_Write, maxVarInt1, maxVarInt2, maxVarInt4, maxVarInt8 in *.
  assert (∀ t k, 0 <= t < 4 → 0 <= k → Z.shiftr i k < 64 → is_byte (Z.lor (u8 (Z.shiftr i k)) (64 * t))) as Hf.
  { intros t k Ht Hk Hs. apply first_byte; [done|]. assert (0 <= Z.shiftr i k) by (apply Z.shiftr_nonneg; lia).
    rewrite wrap_small by (unfold uint; lia). lia. }
  repeat dcase; try lia; eexists; (split; [reflexivity|]); (split; [|done]);
    rewrite ?Forall_cons; split_and?; try (apply wrap_uint; lia); try apply Forall_nil_2.
  - apply (Hf 1 8); [lia|lia|shifts; zify_div; lia].
  - apply (Hf 2 24); [lia|lia|shifts; zify_div; lia].
  - apply (Hf 3 56); [lia|lia|shifts; zify_div; lia].
Qed.

Lemma quicvarint_Read_Write i bs r :
  is_varint i → quicvarint_Write i = Ret bs → quicvarint_Read (bs ++ r) = Ret (i, r).
Proof.
  intros Hi. unfold quicvarint_Write, maxVarInt1, maxVarInt2, maxVarInt4, maxVarInt8 in *.
  assert (∀ t x, 0 <= t < 4 → 0 <= x < 64 → Z.shiftl 1 (Z.shiftr (Z.land (Z.lor x (64 * t)) 192) 6) = 2 ^ t ∧
    Z.land (Z.lor x (64 * t)) 63 = x) as Hf.
  { intros t x Ht Hx. destruct (first_byte t x Ht Hx) as (-> & -> & _). rewrite Z.shiftl_1_l. done. }
  repeat dcase; try lia; intros [= <-]; unfold quicvarint_Read; run_reader;
    change (255 - 192) with 63.
  - rewrite wrap_small by (unfold uint; lia). destruct (Hf 0 i) as [Hl Hb]; [lia..|].
    rewrite Z.mul_0_r, Z.lor_0_r in Hl, Hb. by rewrite Hl, Hb.
  - destruct (Hf 1 (u8 (Z.shiftr i 8))) as [Hl Hb]; [lia|shifts; mlia|]. change (64 * 1) with 64 in *.
    rewrite Hl, Hb. change (2 ^ 1) with 2. cbn [Z.eqb Pos.eqb ReadByte]. do 2 f_equal. shifts. mlia.
  - destruct (Hf 2 (u8 (Z.shiftr i 24))) as [Hl Hb]; [lia|shifts; mlia|]. change (64 * 2) with 128 in *.
    rewrite Hl, Hb. change (2 ^ 2) with 4. cbn [Z.eqb Pos.eqb ReadByte]. do 2 f_equal. shifts. mlia.
  - destruct (Hf 3 (u8 (Z.shiftr i 56))) as [Hl Hb]; [lia|shifts; mlia|]. change (64 * 3) with 192 in *.
    rewrite Hl, Hb. change (2 ^ 3) with 8. cbn [Z.eqb Pos.eqb ReadByte]. do 2 f_equal. shifts. mlia.
Qed.

Lemma quicvarint_Len_Write i bs : quicvarint_Write i = Ret bs → quicvarint_Len i = Ret (zlen bs).
Proof. unfold quicvarint_Write, quicvarint_Len. repeat dcase; intros; by simplify_eq. Qed.

(** What is read is a variable-length integer, whatever the bytes. *)
Lemma quicvarint_Read_range r i r' :
  bytes_ok r → quicvarint_Read r = Ret (i, r') → is_varint i ∧ ∃ bs, r = bs ++ r' ∧ bs ≠ [].
Proof.
  intros Hr. unfold quicvarint_Read, maxVarInt8. run_reader. change (255 - 192) with 63.
  destruct r as [|b1 r]; [done|]. apply Forall_cons in Hr as [Hb1 Hr]. cbn [ReadByte].
  destruct (byte_bits _ Hb1) as [Hl Hx]. set (t := Z.shiftr (Z.land b1 192) 6) in *. set (x := Z.land b1 63) in *.
  rewrite Z.shiftl_1_l. assert (t = 0 ∨ t = 1 ∨ t = 2 ∨ t = 3) as Ht by lia. clear Hl. clearbody t x.
  destruct Ht as [-> |[-> |[-> | ->]]];
    [change (2 ^ 0) with 1|change (2 ^ 1) with 2|change (2 ^ 2) with 4|change (2 ^ 3) with 8]; cbn [Z.eqb Pos.eqb];
    intros H.
  - simplify_eq. split; [lia|]. by exists [b1].
  - destruct r as [|b2 r]; [done|]. cbn [ReadByte] in H. simplify_eq.
    apply Forall_cons in Hr as [Hb2 Hr]. split; [shifts; unfold uint in *; lia|]. by exists [b1; b2].
  - destruct r as [|b2 [|b3 [|b4 r]]]; try done. cbn [ReadByte] in H. simplify_eq.
    rewrite !Forall_cons in Hr. destruct Hr as (Hb2 & Hb3 & Hb4 & Hr).
    split; [shifts; unfold uint in *; lia|]. by exists [b1; b2; b3; b4].
  - destruct r as [|b2 [|b3 [|b4 [|b5 [|b6 [|b7 [|b8 r]]]]]]]; try done. cbn [ReadByte] in H. simplify_eq.
    rewrite !Forall_cons in Hr. destruct Hr as (Hb2 & Hb3 & Hb4 & Hb5 & Hb6 & Hb7 & Hb8 & Hr).
    split; [shifts; unfold uint in *; lia|]. by exists [b1; b2; b3; b4; b5; b6; b7; b8].
Qed.

Lemma quicvarint_Read_WriteWithLen i length bs r :
  is_varint i → quicvarint_WriteWithLen i length = Ret bs →
  quicvarint_Read (bs ++ r) = Ret (i, r) ∧ zlen bs = length.
Proof.
  intros Hi. unfold quicvarint_WriteWithLen.
  destruct (quicvarint_Write_Ret i Hi) as (bs' & Hw & _ & _). pose proof (quicvarint_Len_Write _ _ Hw) as Hlen.
  destruct (_ && _) eqn:Hl; [done|]. rewrite Hlen. cbn [mbind outcome_bind].
  destruct (Z.eqb_spec (zlen bs') length) as [Heq|Hne].
  { rewrite Hw. intros [= <-]. split; [by apply quicvarint_Read_Write|done]. }
  destruct (Z.ltb_spec length (zlen bs')); [done|].
  assert (length = 1 ∨ length = 2 ∨ length = 4 ∨ length = 8) as Hlens by lia.
  unfold quicvarint_Len, maxVarInt1, maxVarInt2, maxVarInt4, maxVarInt8 in *.
  assert ((zlen bs' = 1 ∧ i <= 63) ∨ (zlen bs' = 2 ∧ i <= 16383) ∨ (zlen bs' = 4 ∧ i <= 1073741823) ∨ zlen bs' = 8) as Hcase
    by (revert Hlen; repeat dcase; intros; simplify_eq; lia).
  destruct Hcase as [[Hz Hi']|[[Hz Hi']|[[Hz Hi']|Hz]]]; rewrite Hz in *; destruct Hlens as [-> |[-> |[-> | ->]]]; try lia;
    intros [= <-]; (split; [|done]); unfold quicvarint_Read; run_reader;
    change (255 - 192) with 63;
    match goal with |- context [Z.land ?b 192] =>
      let x := eval vm_compute in (Z.shiftl 1 (Z.shiftr (Z.land b 192) 6)) in
      change (Z.shiftl 1 (Z.shiftr (Z.land b 192) 6)) with x; change (Z.land b 63) with 0 end;
    cbn [Z.eqb Pos.eqb]; change (seqZ 0 1) with [0]; change (seqZ 0 2) with [0; 1]; change (seqZ 0 4) with [0; 1; 2; 3];
    cbn -[wrap Z.add Z.shiftl Z.shiftr]; do 2 f_equal; rewrite ?Z.shiftl_0_l;
    change (8 * (1 - 1 - 0)) with 0; change (8 * (2 - 1 - 0)) with 8; change (8 * (2 - 1 - 1)) with 0;
    change (8 * (4 - 1 - 0)) with 24; change (8 * (4 - 1 - 1)) with 16; change (8 * (4 - 1 - 2)) with 8;
    change (8 * (4 - 1 - 3)) with 0; rewrite Z.shiftr_0_r; shifts; mlia.
Qed.

(** ** Writing and reading fixed-length integers *)

Lemma BigEndian_Uint32 i r : BigEndian_ReadUint32 (BigEndian_WriteUint32 i ++ r) = Ret (u32 i, r).
Proof. unfold BigEndian_ReadUint32, BigEndian_WriteUint32. run_reader. do 2 f_equal. shifts. mlia. Qed.

Lemma BigEndian_Uint24 i r : BigEndian_ReadUint24 (BigEndian_WriteUint24 i ++ r) = Ret (wrap 24 i, r).
Proof. unfold BigEndian_ReadUint24, BigEndian_WriteUint24. run_reader. do 2 f_equal. shifts. mlia. Qed.

Lemma BigEndian_Uint16 i r : BigEndian_ReadUint16 (BigEndian_WriteUint16 i ++ r) = Ret (u16 i, r).
Proof. unfold BigEndian_ReadUint16, BigEndian_WriteUint16. run_reader. do 2 f_equal. shifts. mlia. Qed.

Lemma ReadConnectionID_app c r : ReadConnectionID (zlen c) (c ++ r) = Ret (c, r).
Proof.
  unfold ReadConnectionID, zlen. destruct c as [|x c]; [done|]. rewrite (proj2 (Z.eqb_neq _ _)) by (cbn; lia).
  by rewrite Nat2Z.id, ReadFull_app.
Qed.

(** ** Packet numbers survive truncation *)

Lemma land_lnot_pow2 a k : 0 <= k → Z.land a (Z.lnot (2 ^ k - 1)) = a - a mod 2 ^ k.
Proof.
  intros Hk. rewrite <-Z.ldiff_land. replace (2 ^ k - 1) with (Z.ones k) by (rewrite Z.ones_equiv; lia).
  rewrite Z.ldiff_ones_r, Z.shiftl_mul_pow2, Z.shiftr_div_pow2 by done.
  pose proof (Z.div_mod a (2 ^ k)). assert (0 < 2 ^ k) by (by apply Z.pow_pos_nonneg). lia.
Qed.

Lemma closestTo_spec t a b :
  closestTo t a b = a ∧ Z.abs (t - a) < Z.abs (t - b) ∨ closestTo t a b = b ∧ Z.abs (t - b) <= Z.abs (t - a).
Proof. unfold closestTo, delta. destruct (Z.ltb_spec t a), (Z.ltb_spec t b); dcase; lia. Qed.

(** A packet number less than half a window away from the expected one is
    recovered from its lowest bytes. *)
Lemma decode_packet_number n last pn :
  1 <= n <= 4 → -1 <= last → 0 <= pn → Z.abs (pn - (last + 1)) < 2 ^ (8 * n - 1) →
  DecodePacketNumber n last (pn mod 2 ^ (8 * n)) = pn.
Proof.
  intros Hn Hlast Hpn Hwin. unfold DecodePacketNumber.
  assert ((if n =? 1 then Z.shiftl 1 8 else if n =? 2 then Z.shiftl 1 16
    else if n =? 3 then Z.shiftl 1 24 else if n =? 4 then Z.shiftl 1 32 else 0) = 2 ^ (8 * n)) as ->.
  { assert (n = 1 ∨ n = 2 ∨ n = 3 ∨ n = 4) as [-> |[-> |[-> | ->]]] by lia; done. }
  rewrite land_lnot_pow2 by lia. rewrite Z.pow_sub_r in Hwin by lia. change (2 ^ 1) with 2 in Hwin.
  assert (0 < 2 ^ (8 * n)) as Hpos by (apply Z.pow_pos_nonneg; lia).
  assert (2 ^ (8 * n) mod 2 = 0) as Heven.
  { replace (8 * n) with (8 * n - 1 + 1) by lia. rewrite Z.pow_add_r by lia. apply Z.mod_mul. done. }
  set (D := 2 ^ (8 * n)) in *. clearbody D.
  pose proof (Z.div_mod last D ltac:(lia)) as Hl. pose proof (Z.mod_pos_bound last D Hpos) as Hlm.
  pose proof (Z.div_mod pn D ltac:(lia)) as Hp. pose proof (Z.mod_pos_bound pn D Hpos) as Hpm.
  set (q := last / D) in *. set (a := last mod D) in *. set (q' := pn / D) in *. set (w := pn mod D) in *.
  clearbody q a q' w. subst last pn.
  replace (D * q + a - a) with (D * q) by lia.
  assert (D / 2 * 2 = D) as Hhalf by (zify_div; lia). set (h := D / 2) in *. clearbody h.
  assert (q' = q - 1 ∨ q' = q ∨ q' = q + 1) as Hq.
  { assert (D * (q' - q) < D * 2) as H1 by lia. assert (D * -2 < D * (q' - q)) as H2 by lia.
    apply Z.mul_lt_mono_pos_l in H1, H2; lia. }
  assert (0 <= q' ∧ -1 <= q) as [Hq'0 Hq0] by (split; nia).
  destruct (Z.ltb_spec D (D * q)) as [Hq1|Hq1].
  - destruct (closestTo_spec (D * q + a + 1) (D * q - D + w) (D * q + D + w)) as [[-> ?]|[-> ?]];
      match goal with |- closestTo ?t ?x ?y = _ => destruct (closestTo_spec t x y) as [[-> ?]|[-> ?]] end;
      destruct Hq as [-> |[-> | ->]]; lia.
  - assert (q = -1 ∨ q = 0 ∨ q = 1) as Hq01 by nia.
    destruct (closestTo_spec (D * q + a + 1) (0 + w) (D * q + D + w)) as [[-> ?]|[-> ?]];
      match goal with |- closestTo ?t ?x ?y = _ => destruct (closestTo_spec t x y) as [[-> ?]|[-> ?]] end;
      destruct Hq01 as [-> |[-> | ->]]; destruct Hq as [-> |[-> | ->]]; lia.
Qed.

(** The sender's choice of length is enough for every receiver that has the
    packets the sender knows to be acknowledged and is at most [2 ^ 15 - 2] ahead. *)
Theorem packet_number_length pn leastUnacked last :
  0 <= leastUnacked <= pn → pn - leastUnacked < 2 ^ 31 → leastUnacked - 1 <= last → last - pn < 2 ^ 15 - 1 →
  let n := GetPacketNumberLengthForHeader pn leastUnacked in
  2 <= n <= 4 ∧ DecodePacketNumber n last (pn mod 2 ^ (8 * n)) = pn.
Proof.
  intros Hlu Hdiff Hlast Hahead n. unfold n, GetPacketNumberLengthForHeader.
  rewrite wrap_small by (unfold uint; lia).
  change (Z.shiftl 1 (16 - 1)) with (2 ^ 15). change (Z.shiftl 1 (24 - 1)) with (2 ^ 23).
  repeat dcase; (split; [lia|]); apply decode_packet_number; try lia.
Qed.

Lemma packet_number_length_witness :
  let n := GetPacketNumberLengthForHeader 1000000 999000 in
  2 <= n <= 4 ∧ DecodePacketNumber n 999500 (1000000 mod 2 ^ (8 * n)) = 1000000.
Proof. apply (packet_number_length 1000000 999000 999500); lia. Defined.
