(* ===== verification/QuicFrames.v ===== *)
(** * Frames of the QUIC transport ([internal/wire])

    The frames of a packet's payload, with [Write], [Length] and the parser of each,
    and [frameParser].  A frame is written into a buffer and parsed from the
    decrypted payload of a packet; PADDING frames are single zero bytes that the
    parser skips.  The receiver of a [Write] method is its first argument;
    [reader]s see the unread bytes of the packet.

    The protocol version, which no frame depends on, and the pool that recycles
    the memory of STREAM frames are left out; a frame from the pool has a buffer
    of [MaxPacketBufferSize] bytes. *)

From stdpp Require Import base list numbers strings.
From Stdlib Require Import ZArith Lia.
From S2P Require Import Prelude QuicProtocol.

Definition InfDuration : Z := 2 ^ 63 - 1.

(** Sums of lengths that may panic. *)
Fixpoint sums (ls : list (outcome Z)) : outcome Z :=
  match ls with
  | [] => Ret 0
  | l :: ls => x ← l; y ← sums ls; Ret (x + y)
  end.

(** ** ACK *)

Record AckRange := { ar_Smallest : Z; ar_Largest : Z }.

Definition AckRange_Len (r : AckRange) : Z := ar_Largest r - ar_Smallest r + 1.

Record AckFrame := {
  ack_AckRanges : list AckRange;
  ack_DelayTime : Z;
  ack_ECT0 : Z;
  ack_ECT1 : Z;
  ack_ECNCE : Z;
}.

Definition encodeAckDelay (delay : Z) : Z := u64 (Z.quot delay (1000 * Z.shiftl 1 AckDelayExponent)).

Definition LargestAcked (f : AckFrame) : outcome Z := r ← index (ack_AckRanges f) 0; Ret (ar_Largest r).

Definition LowestAcked (f : AckFrame) : outcome Z :=
  r ← index (ack_AckRanges f) (zlen (ack_AckRanges f) - 1); Ret (ar_Smallest r).

Definition encodeAckRange (f : AckFrame) (i : Z) : outcome (Z * Z) :=
  if i =? 0 then r ← index (ack_AckRanges f) 0; Ret (0, u64 (ar_Largest r - ar_Smallest r))
  else prev ← index (ack_AckRanges f) (i - 1);
       r ← index (ack_AckRanges f) i;
       Ret (u64 (ar_Smallest prev - ar_Largest r - 2), u64 (ar_Largest r - ar_Smallest r)).

(** The rounds [i], [i + 1], ... of the loop, [n] of them. *)
Fixpoint numEncodable_loop (n : nat) (f : AckFrame) (i length : Z) : outcome Z :=
  match n with
  | O => Ret (zlen (ack_AckRanges f))
  | S n =>
      '(gap, len) ← encodeAckRange f i;
      rangeLen ← sums [quicvarint_Len gap; quicvarint_Len len];
      if MaxAckFrameSize <? length + rangeLen then Ret (i - 1)
      else numEncodable_loop n f (i + 1) (length + rangeLen)
  end.

Definition numEncodableAckRanges (f : AckFrame) : outcome Z :=
  largest ← LargestAcked f;
  length ← sums [Ret 1; quicvarint_Len (u64 largest); quicvarint_Len (encodeAckDelay (ack_DelayTime f)); Ret 2];
  numEncodable_loop (pred (List.length (ack_AckRanges f))) f 1 length.

Definition hasECN (f : AckFrame) : bool := (0 <? ack_ECT0 f) || (0 <? ack_ECT1 f) || (0 <? ack_ECNCE f).

Definition write_range (f : AckFrame) (i : Z) : outcome (list Z) :=
  '(gap, len) ← encodeAckRange f i; writes [quicvarint_Write gap; quicvarint_Write len].

Definition AckFrame_Write (f : AckFrame) : outcome (list Z) :=
  largest ← LargestAcked f;
  numRanges ← numEncodableAckRanges f;
  '(_, firstRange) ← encodeAckRange f 0;
  writes ([WriteByte (if hasECN f then 3 else 2); quicvarint_Write (u64 largest);
           quicvarint_Write (encodeAckDelay (ack_DelayTime f)); quicvarint_Write (u64 (numRanges - 1));
           quicvarint_Write firstRange] ++
          (write_range f <$> seqZ 1 (numRanges - 1)) ++
          (if hasECN f then [quicvarint_Write (ack_ECT0 f); quicvarint_Write (ack_ECT1 f); quicvarint_Write (ack_ECNCE f)]
           else [])).

Definition range_length (f : AckFrame) (i : Z) : outcome Z :=
  '(gap, len) ← encodeAckRange f i; sums [quicvarint_Len gap; quicvarint_Len len].

Definition AckFrame_Length (f : AckFrame) : outcome Z :=
  r ← index (ack_AckRanges f) 0;
  numRanges ← numEncodableAckRanges f;
  sums ([Ret 1; quicvarint_Len (u64 (ar_Largest r)); quicvarint_Len (encodeAckDelay (ack_DelayTime f));
         quicvarint_Len (u64 (numRanges - 1)); quicvarint_Len (u64 (ar_Largest r - ar_Smallest r))] ++
        (range_length f <$> seqZ 1 (numRanges - 1)) ++
        (if hasECN f then [quicvarint_Len (ack_ECT0 f); quicvarint_Len (ack_ECT1 f); quicvarint_Len (ack_ECNCE f)] else [])).

Definition HasMissingRanges (f : AckFrame) : bool := 1 <? zlen (ack_AckRanges f).

Fixpoint ranges_descend (last : AckRange) (l : list AckRange) : bool :=
  match l with
  | [] => true
  | r :: l =>
      if ar_Smallest last <=? ar_Smallest r then false
      else if ar_Smallest last <=? ar_Largest r + 1 then false
      else ranges_descend r l
  end.

Definition validateAckRanges (l : list AckRange) : bool :=
  match l with
  | [] => false
  | r :: l' => forallb (λ r, ar_Smallest r <=? ar_Largest r) l && ranges_descend r l'
  end.

(** The rounds from [i] on.  A round reads at least two bytes, so that there are
    fewer rounds than bytes ([ack_blocks_fuel]). *)
Fixpoint ack_blocks (fuel : nat) (i numBlocks smallest : Z) : reader (list AckRange) :=
  if i <? numBlocks then
    match fuel with
    | O => rfail EOF
    | S fuel =>
        gap ← quicvarint_Read;
        if smallest <? gap + 2 then rfail (GoError "invalid ACK ranges") else
        let largest := smallest - gap - 2 in
        ackBlock ← quicvarint_Read;
        if largest <? ackBlock then rfail (GoError "invalid ACK ranges") else
        l ← ack_blocks fuel (i + 1) numBlocks (largest - ackBlock);
        mret ({| ar_Smallest := largest - ackBlock; ar_Largest := largest |} :: l)
    end
  else mret [].

(** [time.Duration(delay*1<<ackDelayExponent) * time.Microsecond]. *)
Definition decodeAckDelay (delay ackDelayExponent : Z) : Z :=
  let delayTime := i64 (i64 (u64 (Z.shiftl delay ackDelayExponent)) * 1000) in
  if delayTime <? 0 then InfDuration else delayTime.

Definition parseAckFrame (ackDelayExponent : Z) : reader AckFrame :=
  typeByte ← ReadByte;
  let ecn := 0 <? Z.land typeByte 1 in
  largestAcked ← quicvarint_Read;
  delay ← quicvarint_Read;
  numBlocks ← quicvarint_Read;
  ackBlock ← quicvarint_Read;
  if largestAcked <? ackBlock then rfail (GoError "invalid first ACK range") else
  let smallest := largestAcked - ackBlock in
  remaining ← ReaderLen;
  l ← ack_blocks (S (Z.to_nat remaining)) 0 numBlocks smallest;
  let ranges := {| ar_Smallest := smallest; ar_Largest := largestAcked |} :: l in
  if validateAckRanges ranges then
    (if ecn then _ ← quicvarint_Read; _ ← quicvarint_Read; _ ← quicvarint_Read; mret tt else mret tt);;
    mret {| ack_AckRanges := ranges; ack_DelayTime := decodeAckDelay delay ackDelayExponent;
            ack_ECT0 := 0; ack_ECT1 := 0; ack_ECNCE := 0 |}
  else rfail (GoError "invalid ACK ranges").

(** [sort.Search] on [[i, j)]: the smallest index for which [f] holds.  The
    interval halves in every round, so that [j - i] rounds are enough. *)
Fixpoint Search (fuel : nat) (f : Z → bool) (i j : Z) : Z :=
  match fuel with
  | O => i
  | S fuel =>
      if i <? j then
        let h := (i + j) / 2 in
        if f h then Search fuel f i h else Search fuel f (h + 1) j
      else i
  end.

Definition AcksPacket (f : AckFrame) (p : Z) : outcome bool :=
  lowest ← LowestAcked f;
  largest ← LargestAcked f;
  if (p <? lowest) || (largest <? p) then Ret false else
  let n := zlen (ack_AckRanges f) in
  let i := Search (Z.to_nat n) (λ i, match zget (ack_AckRanges f) i with
                                     | Some r => ar_Smallest r <=? p
                                     | None => false
                                     end) 0 n in
  r ← index (ack_AckRanges f) i;
  Ret (p <=? ar_Largest r).

(** ** STREAM *)

Record StreamFrame := {
  sf_StreamID : Z;
  sf_Offset : Z;
  sf_Data : list Z;
  sf_Fin : bool;
  sf_DataLenPresent : bool;
}.

Definition StreamFrame_DataLen (f : StreamFrame) : Z := zlen (sf_Data f).

Definition parseStreamFrame : reader StreamFrame :=
  typeByte ← ReadByte;
  let hasOffset := 0 <? Z.land typeByte 4 in
  let fin := 0 <? Z.land typeByte 1 in
  let hasDataLen := 0 <? Z.land typeByte 2 in
  streamID ← quicvarint_Read;
  offset ← (if hasOffset then quicvarint_Read else mret 0);
  dataLen ← (if hasDataLen then quicvarint_Read else ReaderLen);
  if (MinStreamFrameBufferSize <=? dataLen) && (MaxPacketBufferSize <? dataLen) then rfail EOF else
  data ← (if dataLen =? 0 then mret [] else ReadFull (Z.to_nat dataLen));
  if MaxByteCount <? offset + zlen data then rfail (GoError "stream data overflows maximum offset") else
  mret {| sf_StreamID := streamID; sf_Offset := offset; sf_Data := data; sf_Fin := fin;
          sf_DataLenPresent := hasDataLen |}.

Definition StreamFrame_Write (f : StreamFrame) : outcome (list Z) :=
  if (zlen (sf_Data f) =? 0) && negb (sf_Fin f)
  then Err (GoError "StreamFrame: attempting to write empty frame without FIN") else
  let typeByte := 8 in
  let typeByte := if sf_Fin f then Z.lxor typeByte 1 else typeByte in
  let hasOffset := negb (sf_Offset f =? 0) in
  let typeByte := if sf_DataLenPresent f then Z.lxor typeByte 2 else typeByte in
  let typeByte := if hasOffset then Z.lxor typeByte 4 else typeByte in
  writes [WriteByte typeByte; quicvarint_Write (u64 (sf_StreamID f));
          if hasOffset then quicvarint_Write (u64 (sf_Offset f)) else Ret [];
          if sf_DataLenPresent f then quicvarint_Write (u64 (StreamFrame_DataLen f)) else Ret [];
          Ret (sf_Data f)].

Definition StreamFrame_Length (f : StreamFrame) : outcome Z :=
  sums [Ret 1; quicvarint_Len (u64 (sf_StreamID f));
        if sf_Offset f =? 0 then Ret 0 else quicvarint_Len (u64 (sf_Offset f));
        if sf_DataLenPresent f then quicvarint_Len (u64 (StreamFrame_DataLen f)) else Ret 0;
        Ret (StreamFrame_DataLen f)].

Definition StreamFrame_MaxDataLen (f : StreamFrame) (maxSize : Z) : outcome Z :=
  headerLen ← sums [Ret 1; quicvarint_Len (u64 (sf_StreamID f));
                    if sf_Offset f =? 0 then Ret 0 else quicvarint_Len (u64 (sf_Offset f));
                    Ret (if sf_DataLenPresent f then 1 else 0)];
  if maxSize <? headerLen then Ret 0 else
  let maxDataLen := maxSize - headerLen in
  if sf_DataLenPresent f then
    l ← quicvarint_Len (u64 maxDataLen);
    Ret (if l =? 1 then maxDataLen else maxDataLen - 1)
  else Ret maxDataLen.

(** The frame split off, whether splitting was required, and the receiver
    afterwards.  The rest of the data is copied into the pool's buffer. *)
Definition StreamFrame_MaybeSplitOffFrame (f : StreamFrame) (maxSize : Z) :
    outcome (option StreamFrame * bool * StreamFrame) :=
  length ← StreamFrame_Length f;
  if length <=? maxSize then Ret (None, false, f) else
  n ← StreamFrame_MaxDataLen f maxSize;
  if n =? 0 then Ret (None, true, f) else
  if MaxPacketBufferSize <? zlen (sf_Data f) - n then Panic "slice bounds out of range" else
  rest ← slice (sf_Data f) n (zlen (sf_Data f));
  data ← slice (sf_Data f) 0 n;
  Ret (Some {| sf_StreamID := sf_StreamID f; sf_Offset := sf_Offset f; sf_Data := data; sf_Fin := false;
               sf_DataLenPresent := sf_DataLenPresent f |}, true,
       {| sf_StreamID := sf_StreamID f; sf_Offset := sf_Offset f + n; sf_Data := rest; sf_Fin := sf_Fin f;
          sf_DataLenPresent := sf_DataLenPresent f |}).

(** ** CRYPTO *)

Record CryptoFrame := { cf_Offset : Z; cf_Data : list Z }.

Definition parseCryptoFrame : reader CryptoFrame :=
  _ ← ReadByte;
  offset ← quicvarint_Read;
  dataLen ← quicvarint_Read;
  remaining ← ReaderLen;
  if remaining <? dataLen then rfail EOF else
  data ← (if dataLen =? 0 then mret [] else ReadFull (Z.to_nat dataLen));
  mret {| cf_Offset := offset; cf_Data := data |}.

Definition CryptoFrame_Write (f : CryptoFrame) : outcome (list Z) :=
  writes [WriteByte 6; quicvarint_Write (u64 (cf_Offset f)); quicvarint_Write (u64 (zlen (cf_Data f))); Ret (cf_Data f)].

Definition CryptoFrame_Length (f : CryptoFrame) : outcome Z :=
  sums [Ret 1; quicvarint_Len (u64 (cf_Offset f)); quicvarint_Len (u64 (zlen (cf_Data f))); Ret (zlen (cf_Data f))].

Definition CryptoFrame_MaxDataLen (f : CryptoFrame) (maxSize : Z) : outcome Z :=
  headerLen ← sums [Ret 1; quicvarint_Len (u64 (cf_Offset f)); Ret 1];
  if maxSize <? headerLen then Ret 0 else
  let maxDataLen := maxSize - headerLen in
  l ← quicvarint_Len (u64 maxDataLen);
  Ret (if l =? 1 then maxDataLen else maxDataLen - 1).

Definition CryptoFrame_MaybeSplitOffFrame (f : CryptoFrame) (maxSize : Z) :
    outcome (option CryptoFrame * bool * CryptoFrame) :=
  length ← CryptoFrame_Length f;
  if length <=? maxSize then Ret (None, false, f) else
  n ← CryptoFrame_MaxDataLen f maxSize;
  if n =? 0 then Ret (None, true, f) else
  rest ← slice (cf_Data f) n (zlen (cf_Data f));
  data ← slice (cf_Data f) 0 n;
  Ret (Some {| cf_Offset := cf_Offset f; cf_Data := data |}, true, {| cf_Offset := cf_Offset f + n; cf_Data := rest |}).

(** ** Frames with forward error correction data *)

Record FecFrame := {
  fec_StreamID : Z;
  fec_StreamOffset : Z;
  fec_SymbolSize : Z;
  fec_NumOfSymbols : Z;
  fec_FecDataOffset : Z;
  fec_FecDataLength : Z;
  fec_FecTotalLength : Z;
  fec_FecData : list Z;
  fec_Fin : bool;
}.

Definition FecDataLen (f : FecFrame) : Z := zlen (fec_FecData f).

(** The source makes the slice of [FecDataLength] bytes before it knows whether
    they are there; an allocation is not visible here. *)
Definition parseFecFrame : reader FecFrame :=
  typeByte ← ReadByte;
  let fin := 0 <? Z.land typeByte 1 in
  streamID ← quicvarint_Read;
  offset ← quicvarint_Read;
  symbolSize ← quicvarint_Read;
  numOfSymbols ← quicvarint_Read;
  fecDataOffset ← quicvarint_Read;
  fecDataLength ← quicvarint_Read;
  fecTotalLength ← quicvarint_Read;
  let fecDataLength := u32 fecDataLength in
  data ← (if fecDataLength =? 0 then mret [] else ReadFull (Z.to_nat fecDataLength));
  if MaxByteCount <? fecDataOffset + zlen data then rfail (GoError "fec reundant data overflows maximum offset") else
  mret {| fec_StreamID := streamID; fec_StreamOffset := offset; fec_SymbolSize := u32 symbolSize;
          fec_NumOfSymbols := u32 numOfSymbols; fec_FecDataOffset := fecDataOffset;
          fec_FecDataLength := fecDataLength; fec_FecTotalLength := u32 fecTotalLength; fec_FecData := data;
          fec_Fin := fin |}.

Definition FecFrame_Write (f : FecFrame) : outcome (list Z) :=
  if (zlen (fec_FecData f) =? 0) && negb (fec_Fin f)
  then Err (GoError "FECFrame: attempting to write empty frame without FIN") else
  writes [WriteByte 32; quicvarint_Write (u64 (fec_StreamID f)); quicvarint_Write (u64 (fec_StreamOffset f));
          quicvarint_Write (fec_SymbolSize f); quicvarint_Write (fec_NumOfSymbols f);
          quicvarint_Write (u64 (fec_FecDataOffset f)); quicvarint_Write (fec_FecDataLength f);
          quicvarint_Write (fec_FecTotalLength f); Ret (fec_FecData f)].

Definition FecFrame_Length (f : FecFrame) : outcome Z :=
  sums [Ret 1; quicvarint_Len (u64 (fec_StreamID f)); quicvarint_Len (u64 (fec_StreamOffset f));
        quicvarint_Len (u64 (fec_FecDataOffset f)); quicvarint_Len (fec_SymbolSize f);
        quicvarint_Len (fec_NumOfSymbols f); quicvarint_Len (fec_FecDataLength f);
        quicvarint_Len (fec_FecTotalLength f); Ret (FecDataLen f)].

Record FecRespFrame := { fr_StreamID : Z; fr_StreamOffset : Z; fr_PacketLossRate : Z }.

Definition parseFecRespFrame : reader FecRespFrame :=
  _ ← ReadByte;
  streamID ← quicvarint_Read;
  offset ← quicvarint_Read;
  mret {| fr_StreamID := streamID; fr_StreamOffset := offset; fr_PacketLossRate := 0 |}.

Definition FecRespFrame_Write (f : FecRespFrame) : outcome (list Z) :=
  writes [WriteByte 32; quicvarint_Write (u64 (fr_StreamID f)); quicvarint_Write (u64 (fr_StreamOffset f));
          quicvarint_Write (fr_PacketLossRate f)].

(** ** The other frames *)

Record ConnectionCloseFrame := {
  ccf_IsApplicationError : bool;
  ccf_ErrorCode : Z;
  ccf_FrameType : Z;
  ccf_ReasonPhrase : list Z;
}.

Definition parseConnectionCloseFrame : reader ConnectionCloseFrame :=
  typeByte ← ReadByte;
  let isApplicationError := typeByte =? 29 in
  ec ← quicvarint_Read;
  ft ← (if isApplicationError then mret 0 else quicvarint_Read);
  reasonPhraseLen ← quicvarint_Read;
  remaining ← ReaderLen;
  if remaining <? reasonPhraseLen then rfail EOF else
  reasonPhrase ← ReadFull (Z.to_nat reasonPhraseLen);
  mret {| ccf_IsApplicationError := isApplicationError; ccf_ErrorCode := ec; ccf_FrameType := ft;
          ccf_ReasonPhrase := reasonPhrase |}.

Definition ConnectionCloseFrame_Length (f : ConnectionCloseFrame) : outcome Z :=
  sums [Ret 1; quicvarint_Len (ccf_ErrorCode f); quicvarint_Len (zlen (ccf_ReasonPhrase f));
        Ret (zlen (ccf_ReasonPhrase f)); if ccf_IsApplicationError f then Ret 0 else quicvarint_Len (ccf_FrameType f)].

Definition ConnectionCloseFrame_Write (f : ConnectionCloseFrame) : outcome (list Z) :=
  writes [WriteByte (if ccf_IsApplicationError f then 29 else 28); quicvarint_Write (ccf_ErrorCode f);
          if ccf_IsApplicationError f then Ret [] else quicvarint_Write (ccf_FrameType f);
          quicvarint_Write (zlen (ccf_ReasonPhrase f)); Ret (ccf_ReasonPhrase f)].

Record DatagramFrame := { df_DataLenPresent : bool; df_Data : list Z }.

Definition parseDatagramFrame : reader DatagramFrame :=
  typeByte ← ReadByte;
  let dataLenPresent := 0 <? Z.land typeByte 1 in
  remaining ← ReaderLen;
  length ← (if dataLenPresent then
              len ← quicvarint_Read;
              remaining ← ReaderLen;
              if remaining <? len then rfail EOF else mret len
            else mret remaining);
  data ← ReadFull (Z.to_nat length);
  mret {| df_DataLenPresent := dataLenPresent; df_Data := data |}.

Definition DatagramFrame_Write (f : DatagramFrame) : outcome (list Z) :=
  writes [WriteByte (if df_DataLenPresent f then Z.lxor 48 1 else 48);
          if df_DataLenPresent f then quicvarint_Write (zlen (df_Data f)) else Ret []; Ret (df_Data f)].

Definition DatagramFrame_MaxDataLen (f : DatagramFrame) (maxSize : Z) : outcome Z :=
  let headerLen := if df_DataLenPresent f then 2 else 1 in
  if maxSize <? headerLen then Ret 0 else
  let maxDataLen := maxSize - headerLen in
  if df_DataLenPresent f then
    l ← quicvarint_Len (u64 maxDataLen);
    Ret (if l =? 1 then maxDataLen else maxDataLen - 1)
  else Ret maxDataLen.

Definition DatagramFrame_Length (f : DatagramFrame) : outcome Z :=
  sums [Ret 1; Ret (zlen (df_Data f)); if df_DataLenPresent f then quicvarint_Len (zlen (df_Data f)) else Ret 0].

Record NewConnectionIDFrame := {
  nci_SequenceNumber : Z;
  nci_RetirePriorTo : Z;
  nci_ConnectionID : list Z;
  nci_StatelessResetToken : list Z;
}.

(** [io.ReadFull] into an array, with [ErrUnexpectedEOF] turned into [EOF]. *)
Definition ReadArray (n : nat) : reader (list Z) := λ r,
  match ReadFull n r with
  | Err UnexpectedEOF => Err EOF
  | res => res
  end.

Definition parseNewConnectionIDFrame : reader NewConnectionIDFrame :=
  _ ← ReadByte;
  seq ← quicvarint_Read;
  ret ← quicvarint_Read;
  if seq <? ret then rfail (GoError "Retire Prior To value larger than Sequence Number") else
  connIDLen ← ReadByte;
  if MaxConnIDLen <? connIDLen then rfail (GoError "invalid connection ID length") else
  connID ← ReadConnectionID connIDLen;
  token ← ReadArray 16;
  mret {| nci_SequenceNumber := seq; nci_RetirePriorTo := ret; nci_ConnectionID := connID;
          nci_StatelessResetToken := token |}.

Definition NewConnectionIDFrame_Write (f : NewConnectionIDFrame) : outcome (list Z) :=
  let connIDLen := zlen (nci_ConnectionID f) in
  writes [WriteByte 24; quicvarint_Write (nci_SequenceNumber f); quicvarint_Write (nci_RetirePriorTo f);
          if MaxConnIDLen <? connIDLen then Err (GoError "invalid connection ID length") else WriteByte (u8 connIDLen);
          Ret (nci_ConnectionID f); Ret (nci_StatelessResetToken f)].

Definition NewConnectionIDFrame_Length (f : NewConnectionIDFrame) : outcome Z :=
  sums [Ret 1; quicvarint_Len (nci_SequenceNumber f); quicvarint_Len (nci_RetirePriorTo f); Ret 1;
        Ret (zlen (nci_ConnectionID f)); Ret 16].

Definition parseNewTokenFrame : reader (list Z) :=
  _ ← ReadByte;
  tokenLen ← quicvarint_Read;
  remaining ← ReaderLen;
  if remaining <? tokenLen then rfail EOF else
  if tokenLen =? 0 then rfail (GoError "token must not be empty") else
  ReadFull (Z.to_nat tokenLen).

Definition NewTokenFrame_Write (token : list Z) : outcome (list Z) :=
  writes [WriteByte 7; quicvarint_Write (zlen token); Ret token].

Definition NewTokenFrame_Length (token : list Z) : outcome Z :=
  sums [Ret 1; quicvarint_Len (zlen token); Ret (zlen token)].

(** MAX_STREAMS and STREAMS_BLOCKED carry the type of the streams in the type byte. *)
Definition parseMaxStreamsFrame : reader (StreamType * Z) :=
  typeByte ← ReadByte;
  num ← quicvarint_Read;
  if MaxStreamCount <? num then rfail (GoError "exceeds the maximum stream count") else
  mret (if typeByte =? 18 then StreamTypeBidi else StreamTypeUni, num).

Definition MaxStreamsFrame_Write (t : StreamType) (num : Z) : outcome (list Z) :=
  writes [WriteByte (match t with StreamTypeBidi => 18 | StreamTypeUni => 19 end); quicvarint_Write (u64 num)].

Definition parseStreamsBlockedFrame : reader (StreamType * Z) :=
  typeByte ← ReadByte;
  limit ← quicvarint_Read;
  if MaxStreamCount <? limit then rfail (GoError "exceeds the maximum stream count") else
  mret (if typeByte =? 22 then StreamTypeBidi else StreamTypeUni, limit).

Definition StreamsBlockedFrame_Write (t : StreamType) (limit : Z) : outcome (list Z) :=
  writes [WriteByte (match t with StreamTypeBidi => 22 | StreamTypeUni => 23 end); quicvarint_Write (u64 limit)].

Definition parseResetStreamFrame : reader (Z * Z * Z) :=
  _ ← ReadByte; sid ← quicvarint_Read; errorCode ← quicvarint_Read; bo ← quicvarint_Read; mret (sid, errorCode, bo).

Definition ResetStreamFrame_Write (streamID errorCode finalSize : Z) : outcome (list Z) :=
  writes [WriteByte 4; quicvarint_Write (u64 streamID); quicvarint_Write errorCode; quicvarint_Write (u64 finalSize)].

Definition ResetStreamFrame_Length (streamID errorCode finalSize : Z) : outcome Z :=
  sums [Ret 1; quicvarint_Len (u64 streamID); quicvarint_Len errorCode; quicvarint_Len (u64 finalSize)].

Definition parseStopSendingFrame : reader (Z * Z) :=
  _ ← ReadByte; streamID ← quicvarint_Read; errorCode ← quicvarint_Read; mret (streamID, errorCode).

Definition StopSendingFrame_Write (streamID errorCode : Z) : outcome (list Z) :=
  writes [WriteByte 5; quicvarint_Write (u64 streamID); quicvarint_Write errorCode].

Definition StopSendingFrame_Length (streamID errorCode : Z) : outcome Z :=
  sums [Ret 1; quicvarint_Len (u64 streamID); quicvarint_Len errorCode].

Definition parseMaxStreamDataFrame : reader (Z * Z) :=
  _ ← ReadByte; sid ← quicvarint_Read; offset ← quicvarint_Read; mret (sid, offset).

Definition MaxStreamDataFrame_Write (streamID offset : Z) : outcome (list Z) :=
  writes [WriteByte 17; quicvarint_Write (u64 streamID); quicvarint_Write (u64 offset)].

Definition MaxStreamDataFrame_Length (streamID offset : Z) : outcome Z :=
  sums [Ret 1; quicvarint_Len (u64 streamID); quicvarint_Len (u64 offset)].

Definition parseStreamDataBlockedFrame : reader (Z * Z) :=
  _ ← ReadByte; sid ← quicvarint_Read; offset ← quicvarint_Read; mret (sid, offset).

Definition StreamDataBlockedFrame_Write (streamID offset : Z) : outcome (list Z) :=
  writes [WriteByte 21; quicvarint_Write (u64 streamID); quicvarint_Write (u64 offset)].

Definition StreamDataBlockedFrame_Length (streamID offset : Z) : outcome Z :=
  sums [Ret 1; quicvarint_Len (u64 streamID); quicvarint_Len (u64 offset)].

Definition parseMaxDataFrame : reader Z := _ ← ReadByte; quicvarint_Read.
Definition MaxDataFrame_Write (n : Z) : outcome (list Z) := writes [WriteByte 16; quicvarint_Write (u64 n)].
Definition MaxDataFrame_Length (n : Z) : outcome Z := sums [Ret 1; quicvarint_Len (u64 n)].

Definition parseDataBlockedFrame : reader Z := _ ← ReadByte; quicvarint_Read.
Definition DataBlockedFrame_Write (n : Z) : outcome (list Z) := writes [WriteByte 20; quicvarint_Write (u64 n)].
Definition DataBlockedFrame_Length (n : Z) : outcome Z := sums [Ret 1; quicvarint_Len (u64 n)].

Definition parseRetireConnectionIDFrame : reader Z := _ ← ReadByte; quicvarint_Read.
Definition RetireConnectionIDFrame_Write (n : Z) : outcome (list Z) := writes [WriteByte 25; quicvarint_Write n].
Definition RetireConnectionIDFrame_Length (n : Z) : outcome Z := sums [Ret 1; quicvarint_Len n].

Definition MaxStreamsFrame_Length (num : Z) : outcome Z := sums [Ret 1; quicvarint_Len (u64 num)].
Definition StreamsBlockedFrame_Length (limit : Z) : outcome Z := sums [Ret 1; quicvarint_Len (u64 limit)].

Definition parsePathChallengeFrame : reader (list Z) := _ ← ReadByte; ReadArray 8.
Definition PathChallengeFrame_Write (data : list Z) : outcome (list Z) := writes [WriteByte 26; Ret data].

Definition parsePathResponseFrame : reader (list Z) := _ ← ReadByte; ReadArray 8.
Definition PathResponseFrame_Write (data : list Z) : outcome (list Z) := writes [WriteByte 27; Ret data].

Definition parsePingFrame : reader unit := _ ← ReadByte; mret tt.
Definition parseHandshakeDoneFrame : reader unit := _ ← ReadByte; mret tt.

(** ** Any frame *)

Inductive Frame :=
| PingFrame
| Ack (f : AckFrame)
| ResetStreamFrame (StreamID ErrorCode FinalSize : Z)
| StopSendingFrame (StreamID ErrorCode : Z)
| Crypto (f : CryptoFrame)
| NewTokenFrame (Token : list Z)
| Stream (f : StreamFrame)
| MaxDataFrame (MaximumData : Z)
| MaxStreamDataFrame (StreamID MaximumStreamData : Z)
| MaxStreamsFrame (Type_ : StreamType) (MaxStreamNum : Z)
| DataBlockedFrame (MaximumData : Z)
| StreamDataBlockedFrame (StreamID MaximumStreamData : Z)
| StreamsBlockedFrame (Type_ : StreamType) (StreamLimit : Z)
| NewConnectionID (f : NewConnectionIDFrame)
| RetireConnectionIDFrame (SequenceNumber : Z)
| PathChallengeFrame (Data : list Z)
| PathResponseFrame (Data : list Z)
| ConnectionClose (f : ConnectionCloseFrame)
| HandshakeDoneFrame
| Fec (f : FecFrame)
| Datagram (f : DatagramFrame).

Definition Frame_Write (f : Frame) : outcome (list Z) :=
  match f with
  | PingFrame => WriteByte 1
  | Ack f => AckFrame_Write f
  | ResetStreamFrame streamID errorCode finalSize => ResetStreamFrame_Write streamID errorCode finalSize
  | StopSendingFrame streamID errorCode => StopSendingFrame_Write streamID errorCode
  | Crypto f => CryptoFrame_Write f
  | NewTokenFrame token => NewTokenFrame_Write token
  | Stream f => StreamFrame_Write f
  | MaxDataFrame n => MaxDataFrame_Write n
  | MaxStreamDataFrame streamID offset => MaxStreamDataFrame_Write streamID offset
  | MaxStreamsFrame t n => MaxStreamsFrame_Write t n
  | DataBlockedFrame n => DataBlockedFrame_Write n
  | StreamDataBlockedFrame streamID offset => StreamDataBlockedFrame_Write streamID offset
  | StreamsBlockedFrame t n => StreamsBlockedFrame_Write t n
  | NewConnectionID f => NewConnectionIDFrame_Write f
  | RetireConnectionIDFrame n => RetireConnectionIDFrame_Write n
  | PathChallengeFrame data => PathChallengeFrame_Write data
  | PathResponseFrame data => PathResponseFrame_Write data
  | ConnectionClose f => ConnectionCloseFrame_Write f
  | HandshakeDoneFrame => WriteByte 30
  | Fec f => FecFrame_Write f
  | Datagram f => DatagramFrame_Write f
  end.

Definition Frame_Length (f : Frame) : outcome Z :=
  match f with
  | PingFrame | HandshakeDoneFrame => Ret 1
  | Ack f => AckFrame_Length f
  | ResetStreamFrame streamID errorCode finalSize => ResetStreamFrame_Length streamID errorCode finalSize
  | StopSendingFrame streamID errorCode => StopSendingFrame_Length streamID errorCode
  | Crypto f => CryptoFrame_Length f
  | NewTokenFrame token => NewTokenFrame_Length token
  | Stream f => StreamFrame_Length f
  | MaxDataFrame n => MaxDataFrame_Length n
  | MaxStreamDataFrame streamID offset => MaxStreamDataFrame_Length streamID offset
  | MaxStreamsFrame _ n => MaxStreamsFrame_Length n
  | DataBlockedFrame n => DataBlockedFrame_Length n
  | StreamDataBlockedFrame streamID offset => StreamDataBlockedFrame_Length streamID offset
  | StreamsBlockedFrame _ n => StreamsBlockedFrame_Length n
  | NewConnectionID f => NewConnectionIDFrame_Length f
  | RetireConnectionIDFrame n => RetireConnectionIDFrame_Length n
  | PathChallengeFrame _ | PathResponseFrame _ => Ret (1 + 8)
  | ConnectionClose f => ConnectionCloseFrame_Length f
  | Fec f => FecFrame_Length f
  | Datagram f => DatagramFrame_Length f
  end.

Inductive EncryptionLevel := EncryptionInitial | EncryptionHandshake | Encryption0RTT | Encryption1RTT.

#[global] Instance EncryptionLevel_eq_dec : EqDecision EncryptionLevel.
Proof. solve_decision. Defined.

Record frameParser := { fp_ackDelayExponent : Z; fp_supportsDatagrams : bool }.

Definition NewFrameParser (supportsDatagrams : bool) : frameParser :=
  {| fp_ackDelayExponent := 0; fp_supportsDatagrams := supportsDatagrams |}.

Definition SetAckDelayExponent (p : frameParser) (exp : Z) : frameParser :=
  {| fp_ackDelayExponent := exp; fp_supportsDatagrams := fp_supportsDatagrams p |}.

Definition isAllowedAtEncLevel (f : Frame) (encLevel : EncryptionLevel) : bool :=
  match encLevel with
  | EncryptionInitial | EncryptionHandshake =>
      match f with
      | Crypto _ | Ack _ | ConnectionClose _ | PingFrame => true
      | _ => false
      end
  | Encryption0RTT =>
      match f with
      | Crypto _ | Ack _ | ConnectionClose _ | NewTokenFrame _ | PathResponseFrame _ | RetireConnectionIDFrame _ => false
      | _ => true
      end
  | Encryption1RTT => true
  end.

Definition rmap {A B} (f : A → B) (m : reader A) : reader B := a ← m; mret (f a).

(** The parser for a type byte. *)
Definition parse_by_type (p : frameParser) (typeByte : Z) (encLevel : EncryptionLevel) : reader Frame :=
  if Z.land typeByte 248 =? 8 then rmap Stream parseStreamFrame
  else if typeByte =? 1 then rmap (λ _, PingFrame) parsePingFrame
  else if (typeByte =? 2) || (typeByte =? 3) then
    let ackDelayExponent :=
      if bool_decide (encLevel = Encryption1RTT) then fp_ackDelayExponent p else DefaultAckDelayExponent in
    rmap Ack (parseAckFrame ackDelayExponent)
  else if typeByte =? 4 then rmap (λ '(a, b, c), ResetStreamFrame a b c) parseResetStreamFrame
  else if typeByte =? 5 then rmap (λ '(a, b), StopSendingFrame a b) parseStopSendingFrame
  else if typeByte =? 6 then rmap Crypto parseCryptoFrame
  else if typeByte =? 7 then rmap NewTokenFrame parseNewTokenFrame
  else if typeByte =? 16 then rmap MaxDataFrame parseMaxDataFrame
  else if typeByte =? 17 then rmap (λ '(a, b), MaxStreamDataFrame a b) parseMaxStreamDataFrame
  else if (typeByte =? 18) || (typeByte =? 19) then rmap (λ '(a, b), MaxStreamsFrame a b) parseMaxStreamsFrame
  else if typeByte =? 20 then rmap DataBlockedFrame parseDataBlockedFrame
  else if typeByte =? 21 then rmap (λ '(a, b), StreamDataBlockedFrame a b) parseStreamDataBlockedFrame
  else if (typeByte =? 22) || (typeByte =? 23) then rmap (λ '(a, b), StreamsBlockedFrame a b) parseStreamsBlockedFrame
  else if typeByte =? 24 then rmap NewConnectionID parseNewConnectionIDFrame
  else if typeByte =? 25 then rmap RetireConnectionIDFrame parseRetireConnectionIDFrame
  else if typeByte =? 26 then rmap PathChallengeFrame parsePathChallengeFrame
  else if typeByte =? 27 then rmap PathResponseFrame parsePathResponseFrame
  else if (typeByte =? 28) || (typeByte =? 29) then rmap ConnectionClose parseConnectionCloseFrame
  else if typeByte =? 30 then rmap (λ _, HandshakeDoneFrame) parseHandshakeDoneFrame
  else if typeByte =? 32 then rmap Fec parseFecFrame
  else if ((typeByte =? 48) || (typeByte =? 49)) && fp_supportsDatagrams p then rmap Datagram parseDatagramFrame
  else rfail (GoError "unknown frame type").

Definition parseFrame (p : frameParser) (typeByte : Z) (encLevel : EncryptionLevel) : reader Frame :=
  frame ← parse_by_type p typeByte encLevel;
  if isAllowedAtEncLevel frame encLevel then mret frame
  else rfail (GoError "not allowed at encryption level").

(** [None] at the end of the packet. *)
Fixpoint ParseNext (p : frameParser) (encLevel : EncryptionLevel) (r : list Z) : outcome (option Frame * list Z) :=
  match r with
  | [] => Ret (None, [])
  | typeByte :: r' =>
      if typeByte =? 0 then ParseNext p encLevel r'
      else match parseFrame p typeByte encLevel r with
           | Ret (f, r) => Ret (Some f, r)
           | Err _ => Err (GoError "FRAME_ENCODING_ERROR")
           | Panic s => Panic s
           end
  end.

(** ** The payload of a packet *)

Definition IsFrameAckEliciting (f : Frame) : bool :=
  match f with Ack _ | ConnectionClose _ | Fec _ => false | _ => true end.

(** [ackhandler.HasAckElicitingFrames]. *)
Definition HasAckElicitingFrames (fs : list Frame) : bool := existsb IsFrameAckEliciting fs.

(** The frames of a packet and whether one is ack-eliciting: the first loop of
    [handleUnpackedPacket], for a session that is traced; the check that the packet is
    not empty comes before it and the handlers of the frames after it.  Every round takes at
    least a byte, so that the loop ends after as many rounds as there are bytes. *)
Fixpoint parse_frames (fuel : nat) (p : frameParser) (encLevel : EncryptionLevel) (r : list Z) :
    outcome (list Frame * bool) :=
  match fuel with
  | O => Panic "out of fuel"
  | S fuel =>
      '(frame, r) ← ParseNext p encLevel r;
      match frame with
      | None => Ret ([], false)
      | Some frame =>
          '(frames, isAckEliciting) ← parse_frames fuel p encLevel r;
          Ret (frame :: frames, IsFrameAckEliciting frame || isAckEliciting)
      end
  end.

Definition handleUnpackedPacket_frames (p : frameParser) (encLevel : EncryptionLevel) (data : list Z) :
    outcome (list Frame * bool) := parse_frames (S (length data)) p encLevel data.
