(* ===== verification/QuicAck.v ===== *)
(** * ACK frames survive the wire

    The ranges of an ACK frame descend and leave gaps of at least one packet
    ([ranges_ok]).  Written and parsed, they come back, up to the ranges that would
    exceed the maximum size of the frame (none of at most [MaxNumAckRanges] does);
    the delay is rounded down to a multiple of 8 microseconds.  The binary search
    of [AcksPacket] decides membership. *)

From stdpp Require Import base list numbers strings sorting.
From Stdlib Require Import ZArith Lia.
From S2P Require Import Prelude QuicProtocol QuicFrames QuicFrameCodec.

(** ** Valid ranges *)

Definition before (a b : AckRange) : Prop := ar_Largest b + 1 < ar_Smallest a.

Record ranges_ok (l : list AckRange) : Prop := {
  ro_nonempty : l ≠ [];
  ro_range : Forall (λ r, 0 <= ar_Smallest r <= ar_Largest r ∧ ar_Largest r <= maxVarInt8) l;
  ro_descend : StronglySorted before l;
}.

Lemma ranges_descend_spec a l :
  Forall (λ r, ar_Smallest r <= ar_Largest r) (a :: l) →
  ranges_descend a l = true ↔ StronglySorted before (a :: l).
Proof.
  revert a. induction l as [|b l IH]; intros a Hle; cbn [ranges_descend].
  - split; [intros _; repeat constructor|done].
  - apply Forall_cons in Hle as [Ha Hle]. pose proof (IH b Hle) as [IH1 IH2]. apply Forall_cons in Hle as [Hb Hle].
    split.
    + repeat dcase; try done. intros Hd. apply IH1 in Hd as Hs. constructor; [done|].
      constructor; [unfold before; lia|]. apply StronglySorted_inv in Hs as [_ Hall].
      eapply Forall_impl; [exact Hall|]. unfold before. intros. lia.
    + intros [Hs Hall]%StronglySorted_inv. apply Forall_cons in Hall as [Hab _]. unfold before in Hab.
      repeat dcase; try lia. by apply IH2.
Qed.

Lemma validateAckRanges_spec l :
  validateAckRanges l = true ↔
    l ≠ [] ∧ Forall (λ r, ar_Smallest r <= ar_Largest r) l ∧ StronglySorted before l.
Proof.
  destruct l as [|a l]; [split; [done|by intros (? & _)]|]. unfold validateAckRanges.
  rewrite andb_true_iff, forallb_forall.
  assert ((∀ r, In r (a :: l) → (ar_Smallest r <=? ar_Largest r) = true) ↔
          Forall (λ r, ar_Smallest r <= ar_Largest r) (a :: l)) as ->.
  { rewrite List.Forall_forall. split; intros H r Hr; specialize (H r Hr); lia. }
  split.
  - intros [Hf Hd]. split; [done|]. split; [done|]. by apply ranges_descend_spec.
  - intros (_ & Hf & Hs). split; [done|]. by apply ranges_descend_spec.
Qed.

Lemma validate_ranges_ok l : ranges_ok l → validateAckRanges l = true.
Proof.
  intros [Hne Hr Hs]. apply validateAckRanges_spec. split; [done|]. split; [|done].
  eapply Forall_impl; [exact Hr|]. cbn. lia.
Qed.

Lemma StronglySorted_take {A} (R : A → A → Prop) k (l : list A) : StronglySorted R l → StronglySorted R (take k l).
Proof.
  revert k. induction l as [|a l IH]; intros [|k] Hs; try constructor.
  - apply StronglySorted_inv in Hs as [Hs _]. by apply IH.
  - apply StronglySorted_inv in Hs as [_ Ha]. by apply Forall_take.
Qed.

Lemma ranges_ok_take k l : ranges_ok l → (0 < k)%nat → ranges_ok (take k l).
Proof.
  intros [Hne Hr Hs] Hk. split; [destruct l, k; done || lia|by apply Forall_take|by apply StronglySorted_take].
Qed.

(** ** Writing and reading ranges *)

Lemma zget_app_r {A} (l k : list A) i : zlen l <= i → zget (l ++ k) i = zget k (i - zlen l).
Proof.
  intros Hi. unfold zget, zlen in *. destruct (Z.ltb_spec i 0), (Z.ltb_spec (i - Z.of_nat (length l)) 0); try lia.
  rewrite lookup_app_r by lia. f_equal. lia.
Qed.

Lemma index_0 {A} (a : A) l : index (a :: l) 0 = Ret a.
Proof. done. Qed.

Lemma encodeAckRange_next f pre prev r l i :
  ack_AckRanges f = pre ++ prev :: r :: l → i = zlen pre + 1 → ranges_ok (ack_AckRanges f) →
  encodeAckRange f i = Ret (ar_Smallest prev - ar_Largest r - 2, ar_Largest r - ar_Smallest r) ∧
  is_varint (ar_Smallest prev - ar_Largest r - 2) ∧ is_varint (ar_Largest r - ar_Smallest r) ∧
  0 <= ar_Smallest r.
Proof.
  intros Hf -> [_ Hr Hs]. rewrite Hf in Hr, Hs. pose proof (zlen_nonneg pre).
  apply Forall_app in Hr as [_ Hr]. rewrite !Forall_cons in Hr. destruct Hr as (Hp & Hr & _).
  apply StronglySorted_app_1_r, StronglySorted_cons in Hs as [Hb _]. apply Forall_cons in Hb as [Hb _]. unfold before in Hb.
  assert (is_varint (ar_Smallest prev - ar_Largest r - 2) ∧ is_varint (ar_Largest r - ar_Smallest r)) as [Hg Hl] by lia.
  split; [|lia]. unfold encodeAckRange. rewrite (proj2 (Z.eqb_neq _ _)) by lia.
  rewrite Hf. erewrite (index_Ret _ (_ + 1 - 1)); [|rewrite zget_app_r by lia;
    replace (zlen pre + 1 - 1 - zlen pre) with 0 by lia; reflexivity]. cbn [mbind outcome_bind].
  erewrite index_Ret; [|rewrite zget_app_r by lia; replace (zlen pre + 1 - zlen pre) with 1 by lia; reflexivity].
  cbn [mbind outcome_bind]. by rewrite !u64_small.
Qed.

(** The ranges after [prev], [n] of them. *)
Lemma ranges_codec n : ∀ f pre prev l i,
  ack_AckRanges f = pre ++ prev :: l → i = zlen pre + 1 → ranges_ok (ack_AckRanges f) → (n <= length l)%nat →
  ∃ bs, writes (write_range f <$> seqZ i (Z.of_nat n)) = Ret bs ∧
    sums (range_length f <$> seqZ i (Z.of_nat n)) = Ret (zlen bs) ∧ (n <= length bs)%nat ∧
    ∀ fuel j r, (n <= fuel)%nat →
      ack_blocks fuel j (j + Z.of_nat n) (ar_Smallest prev) (bs ++ r) = Ret (take n l, r).
Proof.
  induction n as [|n IH]; intros f pre prev l i Hf Hi Hok Hn.
  - exists []. split; [done|]. split; [done|]. split; [done|]. intros fuel j r _. rewrite Z.add_0_r.
    destruct fuel; cbn [ack_blocks]; by rewrite Z.ltb_irrefl.
  - destruct l as [|a l]; cbn [length] in Hn; [lia|].
    destruct (encodeAckRange_next f pre prev a l i Hf Hi Hok) as (He & Hg & Hl & Ha).
    destruct (IH f (pre ++ [prev]) a l (i + 1)) as (bs & Hw & Hsum & Hlen & Hread).
    { by rewrite <-app_assoc. } { rewrite zlen_app. unfold zlen in *. cbn. lia. } { done. } { lia. }
    rewrite Nat2Z.inj_succ, seqZ_cons by lia. replace (Z.pred (Z.succ (Z.of_nat n))) with (Z.of_nat n) by lia.
    replace (Z.succ i) with (i + 1) by lia. rewrite !fmap_cons. cbn [writes sums]. rewrite Hw, Hsum.
    unfold write_range, range_length. rewrite He. cbn [mbind outcome_bind].
    set (gap := ar_Smallest prev - ar_Largest a - 2) in *. set (len := ar_Largest a - ar_Smallest a) in *.
    field gap. field len. eexists. split; [write_fields; reflexivity|]. split; [|split].
    + write_fields. rewrite !zlen_app. f_equal.
    + rewrite !length_app. assert (bs0 ≠ []); [|destruct bs0; cbn [length]; [done|lia]].
      destruct (quicvarint_Write_Ret gap Hg) as (? & Hw' & _ & Hne). congruence.
    + intros [|fuel] j r Hfuel; [lia|]. cbn [ack_blocks]. destruct (Z.ltb_spec j (j + Z.succ (Z.of_nat n))); [|lia].
      read_fields. destruct (Z.ltb_spec (ar_Smallest prev) (gap + 2)); [lia|]. read_fields.
      replace (ar_Smallest prev - gap - 2) with (ar_Largest a) by lia.
      destruct (Z.ltb_spec (ar_Largest a) len); [lia|].
      replace (ar_Largest a - len) with (ar_Smallest a) by lia.
      erewrite reader_bind_Ret; [|replace (j + Z.succ (Z.of_nat n)) with (j + 1 + Z.of_nat n) by lia; apply Hread; lia].
      by destruct a.
Qed.

(** ** How many ranges are written *)

Lemma numEncodable_loop_spec n : ∀ f pre prev l i len,
  ack_AckRanges f = pre ++ prev :: l → i = zlen pre + 1 → n = length l → ranges_ok (ack_AckRanges f) →
  ∃ k, numEncodable_loop n f i len = Ret k ∧ i - 1 <= k <= zlen (ack_AckRanges f) ∧
    (len + 16 <= MaxAckFrameSize → i <= k) ∧
    (len + 16 * Z.of_nat n <= MaxAckFrameSize → k = zlen (ack_AckRanges f)).
Proof.
  induction n as [|n IH]; intros f pre prev l i len Hf Hi Hl Hok.
  - destruct l; [|done]. exists (zlen (ack_AckRanges f)). split; [done|]. rewrite Hf, zlen_app. unfold zlen. cbn [length].
    unfold zlen in *. lia.
  - destruct l as [|a l]; cbn [length] in Hl; [done|].
    destruct (encodeAckRange_next f pre prev a l i Hf Hi Hok) as (He & Hg & Hln & Ha).
    cbn [numEncodable_loop]. rewrite He. cbn [mbind outcome_bind].
    field (ar_Smallest prev - ar_Largest a - 2). field (ar_Largest a - ar_Smallest a). write_fields.
    pose proof (quicvarint_Len_bounds _ _ Hl0). pose proof (quicvarint_Len_bounds _ _ Hl1).
    assert (zlen (ack_AckRanges f) = i + 1 + zlen l) as Hz.
    { rewrite Hf, zlen_app, Hi. unfold zlen. cbn [length]. lia. }
    pose proof (zlen_nonneg l). set (m := zlen bs + (zlen bs0 + 0)) in *.
    destruct (Z.ltb_spec MaxAckFrameSize (len + m)).
    + exists (i - 1). split; [done|]. lia.
    + destruct (IH f (pre ++ [prev]) a l (i + 1) (len + m)) as (k & -> & Hk & Hk1 & Hk2).
      { by rewrite <-app_assoc. } { rewrite zlen_app, Hi. done. } { lia. } { done. }
      exists k. split; [done|]. lia.
Qed.

Lemma encodeAckDelay_small d : 0 <= d <= InfDuration → encodeAckDelay d = d / 8000 ∧ is_varint (d / 8000).
Proof.
  unfold InfDuration, encodeAckDelay, AckDelayExponent, maxVarInt8. intros Hd.
  change (1000 * Z.shiftl 1 3) with 8000. rewrite Z.quot_div_nonneg by lia.
  assert (0 <= d / 8000 <= 4611686018427387903) by (zify_div; lia). split; [|done].
  apply wrap_small. unfold uint. lia.
Qed.

(** At least one range is written, and all of at most [MaxNumAckRanges]. *)
Lemma numEncodableAckRanges_spec f :
  ranges_ok (ack_AckRanges f) → 0 <= ack_DelayTime f <= InfDuration →
  ∃ k, numEncodableAckRanges f = Ret k ∧ 1 <= k <= zlen (ack_AckRanges f) ∧
    (zlen (ack_AckRanges f) <= MaxNumAckRanges → k = zlen (ack_AckRanges f)).
Proof.
  intros Hok Hd. destruct (encodeAckDelay_small _ Hd) as [He Hv]. unfold numEncodableAckRanges, LargestAcked.
  rewrite He. destruct (ack_AckRanges f) as [|a l] eqn:Hf; [by destruct Hok|].
  assert (is_varint (ar_Largest a)) as Ha.
  { destruct Hok as [_ Hr _]. apply Forall_cons in Hr as [Hr _]. lia. }
  rewrite index_0. cbn [mbind outcome_bind]. rewrite u64_small by done. field (ar_Largest a). field (ack_DelayTime f / 8000).
  pose proof (quicvarint_Len_bounds _ _ Hl). pose proof (quicvarint_Len_bounds _ _ Hl0).
  destruct (numEncodable_loop_spec (length l) f [] a l 1 (1 + (zlen bs + (zlen bs0 + (2 + 0))))) as (k & Hk & Hk1 & Hk2 & Hk3).
  { by rewrite Hf. } { done. } { done. } { by rewrite Hf. }
  rewrite Hf in *. exists k. write_fields. split; [exact Hk|].
  unfold MaxAckFrameSize, MaxNumAckRanges, zlen in *. cbn [length] in *. lia.
Qed.

(** ** The frame *)

Record ack_frame_ok (f : AckFrame) : Prop := {
  afo_ranges : ranges_ok (ack_AckRanges f);
  afo_delay : 0 <= ack_DelayTime f <= InfDuration;
  afo_ecn : is_varint (ack_ECT0 f) ∧ is_varint (ack_ECT1 f) ∧ is_varint (ack_ECNCE f);
}.

(** What a receiver with the given exponent gets. *)
Definition ack_received (exponent : Z) (f : AckFrame) : AckFrame :=
  {| ack_AckRanges :=
       match numEncodableAckRanges f with
       | Ret k => take (Z.to_nat k) (ack_AckRanges f)
       | _ => ack_AckRanges f
       end;
     ack_DelayTime := decodeAckDelay (encodeAckDelay (ack_DelayTime f)) exponent;
     ack_ECT0 := 0; ack_ECT1 := 0; ack_ECNCE := 0 |}.

Lemma writes_nil_ecn (b : bool) e0 e1 e2 :
  is_varint e0 → is_varint e1 → is_varint e2 →
  ∃ bs, writes (if b then [quicvarint_Write e0; quicvarint_Write e1; quicvarint_Write e2] else []) = Ret bs ∧
    sums (if b then [quicvarint_Len e0; quicvarint_Len e1; quicvarint_Len e2] else []) = Ret (zlen bs) ∧
    ∀ r, (if b then _ ← quicvarint_Read; _ ← quicvarint_Read; _ ← quicvarint_Read; mret tt else mret tt) (bs ++ r) =
         Ret (tt, r).
Proof.
  intros H0 H1 H2. field e0. field e1. field e2. destruct b; [|by exists []].
  eexists. split; [write_fields; reflexivity|]. split; [write_fields; f_equal; rewrite !zlen_app; done|].
  intros r. read_fields. done.
Qed.

Lemma ranges_count a l :
  Forall (λ r, 0 <= ar_Smallest r <= ar_Largest r ∧ ar_Largest r <= maxVarInt8) (a :: l) →
  StronglySorted before (a :: l) → zlen l <= ar_Smallest a.
Proof.
  revert a. induction l as [|b l IH]; intros a [Ha Hr]%Forall_cons [Hb Hs]%StronglySorted_cons; [exact (proj1 (proj1 Ha))|].
  pose proof (IH b Hr Hs). apply Forall_cons in Hr as [Hb' _]. apply Forall_cons in Hb as [Hab _].
  unfold zlen, before in *. cbn [length] in *. lia.
Qed.

Lemma AckFrame_codec exponent f :
  ack_frame_ok f →
  codec (AckFrame_Write f) (AckFrame_Length f) (parseAckFrame exponent) (ack_received exponent f) (λ _, True).
Proof.
  intros [Hok Hd (H0 & H1 & H2)]. destruct (numEncodableAckRanges_spec f Hok Hd) as (k & Hk & Hk1 & _).
  destruct (encodeAckDelay_small _ Hd) as [He Hv].
  destruct (ack_AckRanges f) as [|a l] eqn:Hf; [by destruct Hok|].
  assert (0 <= ar_Smallest a <= ar_Largest a ∧ ar_Largest a <= maxVarInt8) as [Ha Ha'].
  { destruct Hok as [_ Hr _]. by apply Forall_cons in Hr as [Hr _]. }
  assert (zlen (a :: l) = 1 + zlen l) as Hz by (unfold zlen; cbn [length]; lia).
  destruct (ranges_codec (Z.to_nat (k - 1)) f [] a l 1) as (rs & Hrw & Hrl & Hrlen & Hrr);
    [by rewrite Hf|done|by rewrite Hf|unfold zlen in *; lia|].
  rewrite Z2Nat.id in Hrw, Hrl, Hrr by lia.
  destruct (writes_nil_ecn (hasECN f) (ack_ECT0 f) (ack_ECT1 f) (ack_ECNCE f) H0 H1 H2) as (es & Hew & Hel & Her).
  unfold AckFrame_Write, AckFrame_Length, ack_received, LargestAcked, encodeAckRange. rewrite Hk, Hf, He, Z.eqb_refl, !index_0.
  cbn [mbind outcome_bind]. rewrite !writes_app, !sums_app, Hrw, Hrl, Hew, Hel.
  pose proof (ranges_count a l (ro_range _ Hok) (ro_descend _ Hok)).
  rewrite !u64_small by lia. field (ar_Largest a). field (ack_DelayTime f / 8000). field (k - 1).
  field (ar_Largest a - ar_Smallest a). unfold codec. eexists. split; [write_fields; reflexivity|].
  split; [write_fields; f_equal; rewrite !zlen_app; unfold zlen; cbn [length]; lia|].
  intros r _. unfold parseAckFrame. read_fields.
  destruct (Z.ltb_spec (ar_Largest a) (ar_Largest a - ar_Smallest a)); [lia|].
  replace (ar_Largest a - (ar_Largest a - ar_Smallest a)) with (ar_Smallest a) by lia. read_fields.
  erewrite reader_bind_Ret; [|apply (Hrr _ 0); unfold zlen; rewrite !length_app; lia].
  assert ({| ar_Smallest := ar_Smallest a; ar_Largest := ar_Largest a |} :: take (Z.to_nat (k - 1)) l
    = take (Z.to_nat k) (a :: l)) as ->.
  { replace (Z.to_nat k) with (S (Z.to_nat (k - 1))) by lia. by destruct a. }
  rewrite validate_ranges_ok by (apply ranges_ok_take; [done|lia]).
  assert ((0 <? Z.land (if hasECN f then 3 else 2) 1) = hasECN f) as -> by (by destruct (hasECN f)).
  by erewrite reader_bind_Ret by apply Her.
Qed.

(** With the exponent that [Write] uses, the delay is rounded down by less than 8
    microseconds. *)
Lemma ack_delay_rounded d :
  0 <= d <= InfDuration →
  decodeAckDelay (encodeAckDelay d) AckDelayExponent = d / 8000 * 8000.
Proof.
  intros Hd. destruct (encodeAckDelay_small d Hd) as [-> Hv]. unfold decodeAckDelay, AckDelayExponent, InfDuration in *.
  rewrite Z.shiftl_mul_pow2 by lia. change (2 ^ 3) with 8.
  rewrite (wrap_small 64) by (unfold uint; zify_div; lia).
  rewrite (i64_small (_ * 8)) by (zify_div; lia). rewrite i64_small by (zify_div; lia).
  destruct (Z.ltb_spec (d / 8000 * 8 * 1000) 0); zify_div; lia.
Qed.

(** ** What an ACK frame loses on the wire *)

(** The number of bytes of a variable-length integer. *)
Definition varint_size (x : Z) : Z := if x <? 2 ^ 6 then 1 else if x <? 2 ^ 14 then 2 else if x <? 2 ^ 30 then 4 else 8.

Lemma varint_size_Len x : is_varint x → quicvarint_Len x = Ret (varint_size x).
Proof.
  intros Hx. unfold quicvarint_Len, varint_size, maxVarInt1, maxVarInt2, maxVarInt4.
  destruct (Z.leb_spec x 63), (Z.ltb_spec x (2 ^ 6)); try lia; [done|].
  destruct (Z.leb_spec x 16383), (Z.ltb_spec x (2 ^ 14)); try lia; [done|].
  destruct (Z.leb_spec x 1073741823), (Z.ltb_spec x (2 ^ 30)); try lia; [done|].
  by rewrite (proj2 (Z.leb_le _ _)) by apply Hx.
Qed.

(** The bytes of the ranges after [prev]. *)
Fixpoint ranges_size (prev : AckRange) (l : list AckRange) : Z :=
  match l with
  | [] => 0
  | r :: l => varint_size (ar_Smallest prev - ar_Largest r - 2) + varint_size (ar_Largest r - ar_Smallest r) + ranges_size r l
  end.

(** The bytes that are reckoned for a frame with the first [k] ranges: the type, the largest number, the delay, two bytes for
    the number of ranges, and the ranges after the first. *)
Definition ack_size (f : AckFrame) (k : nat) : Z :=
  match take k (ack_AckRanges f) with
  | [] => 0
  | r :: l => 1 + varint_size (ar_Largest r) + varint_size (ack_DelayTime f / 8000) + 2 + ranges_size r l
  end.

(** What the receiver of a frame [f] gets, when it multiplies the delay by two to the given exponent: the ranges with the largest
    numbers, all of them if there are at most [MaxNumAckRanges], and otherwise all but one of those that fit into the maximum size; the
    delay in whole units of 8 microseconds; and no ECN counts. *)
Record ack_carried (exponent : Z) (f g : AckFrame) : Prop := {
  ac_ranges : ∃ k, ack_AckRanges g = take k (ack_AckRanges f) ∧ (1 <= k <= length (ack_AckRanges f))%nat ∧
    ((k < length (ack_AckRanges f))%nat → MaxNumAckRanges < zlen (ack_AckRanges f) ∧ MaxAckFrameSize < ack_size f (k + 2));
  ac_delay : 0 <= exponent → ack_DelayTime f / 8000 * 2 ^ exponent * 1000 <= InfDuration →
    ack_DelayTime g = ack_DelayTime f / 8000 * 2 ^ exponent * 1000;
  ac_ecn : ack_ECT0 g = 0 ∧ ack_ECT1 g = 0 ∧ ack_ECNCE g = 0;
}.

Lemma numEncodable_loop_cut n : ∀ f pre prev l i len,
  ack_AckRanges f = pre ++ prev :: l → i = zlen pre + 1 → n = length l → ranges_ok (ack_AckRanges f) →
  ∃ k, numEncodable_loop n f i len = Ret k ∧
    (k = zlen (ack_AckRanges f) ∨ ∃ j : nat, k = i - 1 + Z.of_nat j ∧ MaxAckFrameSize < len + ranges_size prev (take (S j) l)).
Proof.
  induction n as [|n IH]; intros f pre prev l i len Hf Hi Hl Hok; [eexists; split; [done|by left]|].
  destruct l as [|a l]; cbn [length] in Hl; [done|].
  destruct (encodeAckRange_next f pre prev a l i Hf Hi Hok) as (He & Hg & Hln & Ha).
  cbn [numEncodable_loop]. rewrite He. cbn [mbind outcome_bind sums]. rewrite !varint_size_Len by done. cbn [mbind outcome_bind].
  set (m := _ + (_ + 0)). destruct (Z.ltb_spec MaxAckFrameSize (len + m)) as [Hm|Hm].
  - eexists. split; [done|right]. exists 0%nat. split; [lia|]. change (take 1 (a :: l)) with [a]. cbn [ranges_size]. unfold m in Hm. lia.
  - destruct (IH f (pre ++ [prev]) a l (i + 1) (len + m)) as (k & -> & Hk).
    { by rewrite <-app_assoc. } { rewrite zlen_app, Hi. done. } { lia. } { done. }
    exists k. split; [done|]. destruct Hk as [?|(j & -> & Hj)]; [by left|right]. exists (S j). split; [lia|].
    change (take (S (S j)) (a :: l)) with (a :: take (S j) l). cbn [ranges_size]. unfold m in Hj. lia.
Qed.

Lemma ack_received_carried exponent f : ack_frame_ok f → ack_carried exponent f (ack_received exponent f).
Proof.
  intros [Hok Hd _]. destruct (encodeAckDelay_small _ Hd) as [He Hv]. split; [| |done]; cbn [ack_received ack_AckRanges ack_DelayTime].
  - destruct (numEncodableAckRanges_spec f Hok Hd) as (k & Hk & Hk1 & Hall). rewrite Hk. exists (Z.to_nat k).
    split; [done|]. split; [unfold zlen in Hk1; lia|]. intros Hlt.
    assert (k ≠ zlen (ack_AckRanges f)) as Hne by (unfold zlen; lia).
    split; [lia|]. revert Hk. unfold numEncodableAckRanges, LargestAcked, ack_size. rewrite He.
    destruct (ack_AckRanges f) as [|a l] eqn:Hf; [by destruct Hok|]. assert (is_varint (ar_Largest a)) as Ha.
    { destruct Hok as [_ Hr _]. apply Forall_cons in Hr as [Hr _]. lia. }
    rewrite index_0. cbn [mbind outcome_bind sums]. rewrite u64_small, !varint_size_Len by done. cbn [mbind outcome_bind].
    destruct (numEncodable_loop_cut (length l) f [] a l 1 (1 + (varint_size (ar_Largest a) + (varint_size (ack_DelayTime f / 8000) + (2 + 0)))))
      as (k' & E & Hk'); [by rewrite Hf|done|done|by rewrite Hf|].
    cbn [length Nat.pred]. rewrite E. intros [= ->]. destruct Hk' as [->|(j & -> & Hj)]; [by rewrite Hf in Hne|].
    replace (Z.to_nat (1 - 1 + Z.of_nat j) + 2)%nat with (S (S j)) by lia. change (take (S (S j)) (a :: l)) with (a :: take (S j) l). cbv iota beta. lia.
  - intros He0 Hinf. rewrite He. unfold decodeAckDelay. rewrite Z.shiftl_mul_pow2 by done. unfold InfDuration in *.
    assert (0 <= ack_DelayTime f / 8000 * 2 ^ exponent) by (apply Z.mul_nonneg_nonneg; [apply Hv|by apply Z.pow_nonneg]).
    rewrite (wrap_small 64) by (unfold uint; lia). rewrite (i64_small (_ * 2 ^ _)) by lia. rewrite i64_small by lia.
    destruct (Z.ltb_spec (ack_DelayTime f / 8000 * 2 ^ exponent * 1000) 0); lia.
Qed.

Lemma quicvarint_Read_shorter r x r' : quicvarint_Read r = Ret (x, r') → (length r' < length r)%nat.
Proof.
  unfold quicvarint_Read. run_reader.
  destruct r as [|b1 [|b2 [|b3 [|b4 [|b5 [|b6 [|b7 [|b8 r]]]]]]]]; cbn [ReadByte];
    repeat match goal with |- context [if ?b then _ else _] => destruct b end; cbn [ReadByte];
    intros; simplify_eq; cbn [length]; lia.
Qed.

(** More fuel than bytes changes nothing: the bound of [parseAckFrame] is enough. *)
Lemma ack_blocks_fuel fuel : ∀ fuel' i n smallest r,
  (length r < fuel)%nat → (length r < fuel')%nat →
  ack_blocks fuel i n smallest r = ack_blocks fuel' i n smallest r.
Proof.
  induction fuel as [|fuel IH]; intros [|fuel'] i n smallest r Hf Hf'; try lia. cbn [ack_blocks].
  destruct (Z.ltb_spec i n); [|done]. unfold mbind, reader_bind.
  destruct (quicvarint_Read r) as [[gap r1]| |] eqn:H1; [|done..]. apply quicvarint_Read_shorter in H1.
  destruct (_ <? _); [done|]. destruct (quicvarint_Read r1) as [[blk r2]| |] eqn:H2; [|done..].
  apply quicvarint_Read_shorter in H2. destruct (_ <? _); [done|].
  by rewrite (IH fuel') by lia.
Qed.

(** ** Membership *)

Lemma Search_spec fuel : ∀ f i j,
  i <= j → j - i <= Z.of_nat fuel → (∀ x y, i <= x <= y → y < j → f x = true → f y = true) →
  let k := Search fuel f i j in
  i <= k <= j ∧ (∀ x, i <= x < k → f x = false) ∧ (k < j → f k = true).
Proof.
  induction fuel as [|fuel IH]; intros f i j Hij Hfuel Hmono; cbn [Search]; cbv zeta.
  { split; [lia|]. split; intros; lia. }
  destruct (Z.ltb_spec i j) as [Hlt|Hge]; [|split; [lia|split; intros; lia]].
  assert (i <= (i + j) / 2 < j) as Hh by (zify_div; lia). set (h := (i + j) / 2) in *. clearbody h.
  destruct (f h) eqn:Hfh.
  - destruct (IH f i h) as (Hk & Hlo & Hhi); [lia|lia|intros; eapply Hmono; eauto; lia|].
    split; [lia|]. split; [done|]. intros _. destruct (decide (Search fuel f i h = h)) as [->|]; [done|]. apply Hhi. lia.
  - destruct (IH f (h + 1) j) as (Hk & Hlo & Hhi); [lia|lia|intros; eapply Hmono; eauto; lia|].
    split; [lia|]. split; [|done]. intros x Hx. destruct (decide (x <= h)) as [Hxh|]; [|apply Hlo; lia].
    destruct (f x) eqn:Hfx; [|done]. rewrite (Hmono x h) in Hfh; done || lia.
Qed.

Definition acked (l : list AckRange) (p : Z) : Prop := Exists (λ r, ar_Smallest r <= p <= ar_Largest r) l.

Lemma before_lookup l i j a b :
  StronglySorted before l → zget l i = Some a → zget l j = Some b → i < j → before a b.
Proof.
  intros Hs Ha Hb Hij. apply zget_Some in Ha as (? & Ha), Hb as (? & Hb).
  rewrite <-(take_drop (Z.to_nat j) l) in Hs. eapply StronglySorted_app_1_elem_of; [exact Hs| |].
  - apply list_elem_of_lookup. exists (Z.to_nat i). rewrite lookup_take_lt by lia. done.
  - apply list_elem_of_lookup. exists 0%nat. rewrite lookup_drop, Nat.add_0_r. done.
Qed.

Lemma zget_elem {A} (l : list A) x : x ∈ l → ∃ i, zget l i = Some x.
Proof. intros (i & Hi)%list_elem_of_lookup. exists (Z.of_nat i). by rewrite zget_nat. Qed.

Lemma ranges_zget l i r :
  ranges_ok l → zget l i = Some r → 0 <= ar_Smallest r <= ar_Largest r.
Proof.
  intros [_ Hr _] (_ & Hi)%zget_Some. rewrite Forall_forall in Hr. apply Hr. by eapply list_elem_of_lookup_2.
Qed.

Lemma ranges_extent l top bot i r :
  ranges_ok l → zget l 0 = Some top → zget l (zlen l - 1) = Some bot → zget l i = Some r →
  ar_Smallest bot <= ar_Smallest r ∧ ar_Largest r <= ar_Largest top.
Proof.
  intros Hok Htop Hbot Hi. pose proof (ro_descend l Hok) as Hs.
  pose proof (ranges_zget _ _ _ Hok Hi). pose proof (zget_Some _ _ _ Hi) as [Hib _].
  pose proof (ranges_zget _ _ _ Hok Htop). pose proof (ranges_zget _ _ _ Hok Hbot). split.
  - destruct (decide (i = zlen l - 1)) as [->|]; [simplify_eq; lia|].
    pose proof (before_lookup l i (zlen l - 1) r bot Hs Hi Hbot). unfold before in *. lia.
  - destruct (decide (i = 0)) as [->|]; [simplify_eq; lia|].
    pose proof (before_lookup l 0 i top r Hs Htop Hi). unfold before in *. lia.
Qed.

Lemma AcksPacket_spec f p :
  ranges_ok (ack_AckRanges f) → ∃ b, AcksPacket f p = Ret b ∧ (b = true ↔ acked (ack_AckRanges f) p).
Proof.
  intros Hok. set (l := ack_AckRanges f) in *. pose proof (ro_descend l Hok) as Hs.
  assert (0 < zlen l) as Hn by (destruct Hok as [Hne _ _]; destruct l; [done|unfold zlen; cbn [length]; lia]).
  destruct (zget_is_Some l 0) as [top Htop]; [lia|]. destruct (zget_is_Some l (zlen l - 1)) as [bot Hbot]; [lia|].
  unfold AcksPacket, LowestAcked, LargestAcked. fold l. rewrite (index_Ret _ _ _ Htop), (index_Ret _ _ _ Hbot).
  cbn [mbind outcome_bind].
  pose proof (λ i r, ranges_extent l top bot i r Hok Htop Hbot) as Hext.
  destruct ((p <? ar_Smallest bot) || (ar_Largest top <? p)) eqn:Hout.
  - exists false. split; [done|]. split; [done|]. intros (r & Hr & Hp)%Exists_exists.
    destruct (zget_elem _ _ Hr) as [i Hi]. pose proof (Hext i r Hi). lia.
  - match goal with |- context [Search ?n ?g 0 ?m] => destruct (Search_spec n g 0 m) as (Hk & Hlo & Hhi) end.
    { lia. } { lia. }
    { intros x y Hxy Hy. destruct (zget_is_Some l x) as [a Ha]; [lia|]. destruct (zget_is_Some l y) as [b Hb]; [lia|].
      rewrite Ha, Hb. destruct (decide (x = y)) as [->|]; [congruence|].
      pose proof (before_lookup l x y a b Hs Ha Hb). pose proof (ranges_zget _ _ _ Hok Hb). unfold before in *. lia. }
    match goal with |- context [Search ?n ?g ?a ?m] => set (k := Search n g a m) in * end. clearbody k.
    assert (k < zlen l) as Hkn.
    { destruct (decide (k = zlen l)) as [->|]; [|lia]. specialize (Hlo (zlen l - 1)). rewrite Hbot in Hlo. lia. }
    destruct (zget_is_Some l k) as [r Hr]; [lia|]. rewrite (index_Ret _ _ _ Hr). cbn [mbind outcome_bind].
    eexists. split; [reflexivity|]. specialize (Hhi Hkn). rewrite Hr in Hhi.
    unfold acked. rewrite Exists_exists. split.
    + intros Hle. exists r. split; [|lia]. apply zget_Some in Hr as [_ Hr]. by eapply list_elem_of_lookup_2.
    + intros (r' & Hr' & Hp). destruct (zget_elem _ _ Hr') as [j Hj]. pose proof (zget_Some _ _ _ Hj) as [Hjb _].
      destruct (decide (j < k)) as [Hjk|]; [specialize (Hlo j); rewrite Hj in Hlo; lia|].
      destruct (decide (j = k)) as [->|]; [simplify_eq; lia|].
      pose proof (before_lookup l k j r r' Hs Hr Hj). unfold before in *. lia.
Qed.

(** C34. The binary search of [AcksPacket] is equivalent to looking for the packet number in every range. *)
Theorem acks_packet f p :
  ranges_ok (ack_AckRanges f) → ∃ b, AcksPacket f p = Ret b ∧ (b = true ↔ acked (ack_AckRanges f) p).
Proof. apply AcksPacket_spec. Qed.

Lemma acks_packet_witness :
  let f := {| ack_AckRanges := [{| ar_Smallest := 7; ar_Largest := 9 |}; {| ar_Smallest := 2; ar_Largest := 3 |}];
              ack_DelayTime := 0; ack_ECT0 := 0; ack_ECT1 := 0; ack_ECNCE := 0 |} in
  ∃ b, AcksPacket f 3 = Ret b ∧ (b = true ↔ acked (ack_AckRanges f) 3).
Proof.
  intros f. apply (acks_packet f 3). split; [done|repeat constructor; cbn; unfold maxVarInt8; lia|].
  repeat constructor; unfold before; cbn; lia.
Defined.
