(* ===== verification/QuicFrameTheorems.v ===== *)
(** * The frames of a packet

    [frame_ok] is the type of frames: the bounds of their fields.  A frame of it is
    written and parsed back ([received]), and every frame the parser accepts is of
    it.  The parser never panics, whatever the bytes, and every frame takes at
    least one of them. *)

From stdpp Require Import base list numbers strings sorting.
From Stdlib Require Import ZArith Lia.
From S2P Require Import Prelude QuicProtocol QuicFrames QuicFrameCodec QuicAck.

(** ** Frames within bounds *)

Definition frame_ok (f : Frame) : Prop :=
  match f with
  | PingFrame | HandshakeDoneFrame => True
  | Ack f => ack_frame_ok f
  | ResetStreamFrame sid code size => is_varint sid ∧ is_varint code ∧ is_varint size
  | StopSendingFrame sid code => is_varint sid ∧ is_varint code
  | Crypto f => is_varint (cf_Offset f) ∧ is_size (cf_Data f)
  | NewTokenFrame token => is_size token ∧ token ≠ []
  | Stream f => stream_frame_ok f
  | MaxDataFrame n | DataBlockedFrame n | RetireConnectionIDFrame n => is_varint n
  | MaxStreamDataFrame sid n | StreamDataBlockedFrame sid n => is_varint sid ∧ is_varint n
  | MaxStreamsFrame _ n | StreamsBlockedFrame _ n => 0 <= n <= MaxStreamCount
  | NewConnectionID f =>
      0 <= nci_RetirePriorTo f <= nci_SequenceNumber f ∧ nci_SequenceNumber f <= maxVarInt8 ∧
      zlen (nci_ConnectionID f) <= MaxConnIDLen ∧ length (nci_StatelessResetToken f) = 16%nat
  | PathChallengeFrame data | PathResponseFrame data => length data = 8%nat
  | ConnectionClose f =>
      is_varint (ccf_ErrorCode f) ∧ is_varint (ccf_FrameType f) ∧ is_size (ccf_ReasonPhrase f) ∧
      (ccf_IsApplicationError f = true → ccf_FrameType f = 0)
  | Fec f => fec_frame_ok f
  | Datagram f => is_size (df_Data f)
  end.

(** STREAM and FEC frames without data are written only with Fin. *)
Definition writable (f : Frame) : Prop :=
  match f with
  | Stream f => sf_Data f = [] → sf_Fin f = true
  | Fec f => fec_FecData f = [] → fec_Fin f = true
  | _ => True
  end.

(** Frames without a length end the packet. *)
Definition delimited (f : Frame) (r : list Z) : Prop :=
  match f with
  | Stream f => sf_DataLenPresent f = true ∨ r = []
  | Datagram f => df_DataLenPresent f = true ∨ r = []
  | _ => True
  end.

(** Whether the receiver lets the frame pass. *)
Definition accepted (p : frameParser) (encLevel : EncryptionLevel) (f : Frame) : Prop :=
  isAllowedAtEncLevel f encLevel = true ∧
  match f with Datagram _ => fp_supportsDatagrams p = true | _ => True end.

Definition ack_exponent (p : frameParser) (encLevel : EncryptionLevel) : Z :=
  if bool_decide (encLevel = Encryption1RTT) then fp_ackDelayExponent p else DefaultAckDelayExponent.

Definition received (p : frameParser) (encLevel : EncryptionLevel) (f : Frame) : Frame :=
  match f with
  | Ack f => Ack (ack_received (ack_exponent p encLevel) f)
  | Fec f => Fec (fec_received f)
  | _ => f
  end.

(** ** The parser of a frame's type byte *)

Definition frame_codec (p : frameParser) (encLevel : EncryptionLevel) (f : Frame) : Prop :=
  ∃ t bs, Frame_Write f = Ret (t :: bs) ∧ t ≠ 0 ∧ Frame_Length f = Ret (zlen (t :: bs)) ∧
    ∀ r, delimited f r → parse_by_type p t encLevel (t :: bs ++ r) = Ret (received p encLevel f, r).

Lemma rmap_codec {A} p encLevel f (c : A → Frame) (pa : reader A) a t :
  codec (Frame_Write f) (Frame_Length f) pa a (delimited f) →
  (∀ bs, Frame_Write f = Ret bs → head bs = Some t) → t ≠ 0 →
  parse_by_type p t encLevel = rmap c pa → c a = received p encLevel f →
  frame_codec p encLevel f.
Proof.
  intros (bs & Hw & Hl & Hr) Hhd Ht Hp Hc. specialize (Hhd bs Hw). destruct bs as [|t' bs]; [done|].
  injection Hhd as ->. exists t, bs. split_and!; try done. intros r Hd. rewrite Hp. unfold rmap.
  erewrite reader_bind_Ret; [|apply (Hr r Hd)]. by rewrite Hc.
Qed.

Lemma writes_head b ws bs : writes (WriteByte b :: ws) = Ret bs → head bs = Some b.
Proof. unfold WriteByte. cbn [writes mbind outcome_bind]. destruct (writes ws); cbn; intros; by simplify_eq. Qed.

Ltac frame_case lem :=
  eapply rmap_codec;
  [apply lem; tauto|intros ? Hx; by eapply writes_head|done|reflexivity|done].

Lemma StreamFrame_Write_head f bs :
  StreamFrame_Write f = Ret bs → ∃ t, head bs = Some t ∧ Z.land t 248 = 8.
Proof.
  unfold StreamFrame_Write. destruct (_ && _); [done|]. intros H. eexists. split; [eapply writes_head, H|].
  by destruct (sf_Fin f), (sf_DataLenPresent f), (negb _).
Qed.

Lemma FecFrame_Write_head f bs : FecFrame_Write f = Ret bs → head bs = Some 32.
Proof. unfold FecFrame_Write. destruct (_ && _); [done|]. apply writes_head. Qed.

Lemma AckFrame_Write_head f bs : AckFrame_Write f = Ret bs → head bs = Some (if hasECN f then 3 else 2).
Proof.
  unfold AckFrame_Write. destruct (LargestAcked f); [|done..]. cbn [mbind outcome_bind].
  destruct (numEncodableAckRanges f); [|done..]. cbn [mbind outcome_bind].
  destruct (encodeAckRange f 0) as [[? ?]| |]; [|done..]. apply writes_head.
Qed.

Lemma frame_codec_ok p encLevel f :
  frame_ok f → writable f → match f with Datagram _ => fp_supportsDatagrams p = true | _ => True end →
  frame_codec p encLevel f.
Proof.
  intros Hok Hw Hdg. destruct f; cbn [frame_ok writable] in *.
  - by exists 1, [].
  - eapply (rmap_codec _ _ _ Ack); [by apply (AckFrame_codec (ack_exponent p encLevel))|apply AckFrame_Write_head| | |done];
      by destruct (hasECN f).
  - frame_case ResetStreamFrame_codec.
  - frame_case StopSendingFrame_codec.
  - frame_case CryptoFrame_codec.
  - frame_case NewTokenFrame_codec.
  - destruct (StreamFrame_codec f Hok Hw) as (bs & Hbs & Hc). destruct (StreamFrame_Write_head f bs Hbs) as (t & Ht & H8).
    eapply (rmap_codec _ _ _ Stream); [by exists bs|cbn; by intros ? [= <-]%(eq_trans (eq_sym Hbs))| | |done].
    + by intros ->.
    + unfold parse_by_type. by rewrite H8.
  - frame_case MaxDataFrame_codec.
  - frame_case MaxStreamDataFrame_codec.
  - destruct Type_; frame_case MaxStreamsFrame_codec.
  - frame_case DataBlockedFrame_codec.
  - frame_case StreamDataBlockedFrame_codec.
  - destruct Type_; frame_case StreamsBlockedFrame_codec.
  - frame_case NewConnectionIDFrame_codec.
  - frame_case RetireConnectionIDFrame_codec.
  - frame_case PathChallengeFrame_codec.
  - frame_case PathResponseFrame_codec.
  - eapply (rmap_codec _ _ _ ConnectionClose); [apply ConnectionCloseFrame_codec; tauto|intros ? Hx; by eapply writes_head| | |done];
      by destruct (ccf_IsApplicationError f).
  - by exists 30, [].
  - eapply (rmap_codec _ _ _ Fec); [by apply FecFrame_codec|apply FecFrame_Write_head|done|reflexivity|done].
  - eapply (rmap_codec _ _ _ Datagram); [by apply DatagramFrame_codec|intros ? Hx; by eapply writes_head| | |done];
      destruct (df_DataLenPresent f); try done; unfold parse_by_type; by rewrite Hdg.
Qed.

Lemma received_allowed p encLevel f encLevel' :
  isAllowedAtEncLevel (received p encLevel f) encLevel' = isAllowedAtEncLevel f encLevel'.
Proof. by destruct f. Qed.

Lemma ParseNext_padding p encLevel n r : ParseNext p encLevel (replicate n 0 ++ r) = ParseNext p encLevel r.
Proof. by induction n. Qed.

Lemma ParseNext_frame p encLevel f t bs r :
  Frame_Write f = Ret (t :: bs) → t ≠ 0 → isAllowedAtEncLevel f encLevel = true →
  parse_by_type p t encLevel (t :: bs ++ r) = Ret (received p encLevel f, r) →
  ParseNext p encLevel ((t :: bs) ++ r) = Ret (Some (received p encLevel f), r).
Proof.
  intros _ Ht Ha Hp. cbn [ParseNext app]. rewrite (proj2 (Z.eqb_neq _ _)) by done. unfold parseFrame.
  erewrite reader_bind_Ret by exact Hp. by rewrite received_allowed, Ha.
Qed.

(** A frame is written in as many bytes as [Length] says and read back from
    them, after any number of PADDING frames. *)
Lemma frame_roundtrip p encLevel f n r :
  frame_ok f → writable f → accepted p encLevel f → delimited f r →
  ∃ bs, Frame_Write f = Ret bs ∧ Frame_Length f = Ret (zlen bs) ∧
    ParseNext p encLevel (replicate n 0 ++ bs ++ r) = Ret (Some (received p encLevel f), r).
Proof.
  intros Hok Hw [Ha Hdg] Hd. destruct (frame_codec_ok p encLevel f Hok Hw Hdg) as (t & bs & Hwr & Ht & Hl & Hp).
  exists (t :: bs). split_and!; [done..|]. rewrite ParseNext_padding. eapply ParseNext_frame; eauto.
Qed.

(** ** What the parser accepts

    [parses p P]: from any bytes of a packet, [p] reads a value of [P] and leaves a
    suffix, or fails; it does not panic. *)

Definition packet (r : list Z) : Prop := bytes_ok r ∧ zlen r <= maxVarInt8.

Definition parses {A} (p : reader A) (P : A → Prop) : Prop :=
  ∀ r, packet r →
    match p r with
    | Ret (a, r') => P a ∧ ∃ bs, r = bs ++ r'
    | Err _ => True
    | Panic _ => False
    end.

Lemma packet_suffix bs r : packet (bs ++ r) → packet r.
Proof.
  intros [Hb Hl]. apply Forall_app in Hb as [_ Hb]. split; [done|]. rewrite zlen_app in Hl. pose proof (zlen_nonneg bs). lia.
Qed.

Lemma parses_bind {A B} (m : reader A) (k : A → reader B) P Q :
  parses m P → (∀ a, P a → parses (k a) Q) → parses (mbind k m) Q.
Proof.
  intros Hm Hk r Hr. unfold mbind, reader_bind. specialize (Hm r Hr). destruct (m r) as [[a r']| |]; [|done..].
  destruct Hm as [Ha [bs ->]]. specialize (Hk a Ha r' (packet_suffix _ _ Hr)). destruct (k a r') as [[b r'']| |]; [|done..].
  destruct Hk as [Hb [bs' ->]]. split; [done|]. exists (bs ++ bs'). by rewrite app_assoc.
Qed.

Lemma parses_ret {A} (a : A) (P : A → Prop) : P a → parses (mret a) P.
Proof. intros Ha r _. cbn. split; [done|]. by exists []. Qed.

Lemma parses_fail {A} e (P : A → Prop) : parses (rfail e) P.
Proof. by intros r _. Qed.

Lemma parses_impl {A} (p : reader A) (P Q : A → Prop) : parses p P → (∀ a, P a → Q a) → parses p Q.
Proof. intros Hp HPQ r Hr. specialize (Hp r Hr). destruct (p r) as [[a r']| |]; [|done..]. destruct Hp. auto. Qed.

Lemma parses_byte : parses ReadByte is_byte.
Proof. intros [|b r] Hr; [done|]. destruct Hr as [Hb _]. apply Forall_cons in Hb as [Hb _]. cbn. split; [done|]. by exists [b]. Qed.

Lemma parses_varint : parses quicvarint_Read (λ i, is_varint i).
Proof.
  intros r [Hr Hl]. destruct (quicvarint_Read r) as [[i r']| |s] eqn:H; [|done|].
  - destruct (quicvarint_Read_range r i r' Hr H) as (Hi & bs & -> & _). split; [done|]. by exists bs.
  - revert H. unfold quicvarint_Read. run_reader.
    destruct r as [|b1 [|b2 [|b3 [|b4 [|b5 [|b6 [|b7 [|b8 r]]]]]]]]; cbn [ReadByte];
      repeat match goal with |- context [if ?b then _ else _] => destruct b end; cbn [ReadByte]; done.
Qed.

Lemma parses_len : parses ReaderLen (λ n, 0 <= n <= maxVarInt8).
Proof. intros r [_ Hl]. unfold zlen in Hl. cbn. split; [lia|]. by exists []. Qed.

Lemma parses_full n : parses (ReadFull n) (λ d, length d = n).
Proof.
  intros r _. unfold ReadFull. destruct (Nat.leb_spec n (length r)); [|done].
  split; [by apply length_take_le|]. exists (take n r). by rewrite take_drop.
Qed.

Lemma parses_array n : parses (ReadArray n) (λ d, length d = n).
Proof.
  intros r Hr. unfold ReadArray. pose proof (parses_full n r Hr) as H.
  destruct (ReadFull n r) as [[? ?]|e|]; [done| |done]. by destruct e.
Qed.

Lemma parses_connection_id n : 0 <= n → parses (ReadConnectionID n) (λ d, zlen d = n).
Proof.
  intros Hn r Hr. unfold ReadConnectionID. destruct (Z.eqb_spec n 0) as [->|]; [by split; [|exists []]|].
  pose proof (parses_full (Z.to_nat n) r Hr) as H.
  destruct (ReadFull (Z.to_nat n) r) as [[d ?]|e|]; [|by destruct e|done]. destruct H as [H ?]. split; [unfold zlen; lia|done].
Qed.

(** The same, for parsers that take the first byte: what is left is a suffix of
    the other bytes. *)
Definition parses_more {A} (p : reader A) (P : A → Prop) : Prop :=
  ∀ b r, packet (b :: r) →
    match p (b :: r) with
    | Ret (a, r') => P a ∧ ∃ bs, r = bs ++ r'
    | Err _ => True
    | Panic _ => False
    end.

Lemma parses_more_byte {A} (k : Z → reader A) P :
  (∀ b, is_byte b → parses (k b) P) → parses_more (mbind k ReadByte) P.
Proof.
  intros Hk b r Hr. change (mbind k ReadByte (b :: r)) with (k b r). apply Hk; [|exact (packet_suffix [b] r Hr)].
  destruct Hr as [Hb _]. by apply Forall_cons in Hb as [Hb _].
Qed.

Lemma parses_more_bind {A B} (m : reader A) (k : A → reader B) P Q :
  parses_more m P → (∀ a, P a → parses (k a) Q) → parses_more (mbind k m) Q.
Proof.
  intros Hm Hk b r Hr. unfold mbind, reader_bind. specialize (Hm b r Hr). destruct (m (b :: r)) as [[a r']| |]; [|done..].
  destruct Hm as [Ha [bs ->]]. specialize (Hk a Ha r' (packet_suffix (b :: bs) _ Hr)).
  destruct (k a r') as [[x r'']| |]; [|done..]. destruct Hk as [Hx [bs' ->]]. split; [done|].
  exists (bs ++ bs'). by rewrite app_assoc.
Qed.

Lemma parses_rmap {A} (f : A → Frame) (p : reader A) (P : Frame → Prop) :
  parses_more p (λ a, P (f a)) → parses_more (rmap f p) P.
Proof. intros Hp. unfold rmap. eapply parses_more_bind; [exact Hp|]. intros a Ha. by apply parses_ret. Qed.

Lemma parses_ret_bind {A B} (a : A) (k : A → reader B) Q : parses (k a) Q → parses (mbind k (mret a)) Q.
Proof. intros H r Hr. by apply H. Qed.

(** One step of a parser; the conditions of the code become hypotheses. *)
Ltac parses_step :=
  cbv zeta;
  lazymatch goal with
  | |- parses (mbind _ (if ?b then _ else _)) _ => destruct b eqn:?
  | |- parses (mbind _ (mret _)) _ => apply parses_ret_bind
  | |- parses (mbind _ _) _ =>
      eapply parses_bind;
      [first [apply parses_byte | apply parses_varint | apply parses_len | apply parses_full | apply parses_array
             | apply parses_connection_id]|]; cbn beta; try (intros ? ?)
  | |- parses (if ?b then _ else _) _ => destruct b eqn:?
  | |- parses (mret _) _ => apply parses_ret
  | |- parses (rfail _) _ => apply parses_fail
  end.

Ltac parses_first := apply parses_more_byte; intros a H; cbn beta.

Ltac parses_steps := repeat parses_step; cbn [frame_ok]; split_and?; try done; try (unfold zlen, uint in *; cbn; lia).

Lemma parses_stream : parses_more parseStreamFrame (λ f, frame_ok (Stream f)).
Proof.
  unfold parseStreamFrame. parses_first. parses_steps;
    split; cbn [sf_StreamID sf_Offset sf_Data sf_Fin sf_DataLenPresent]; unfold zlen in *; cbn in *; try lia;
    unfold MaxPacketBufferSize, MinStreamFrameBufferSize in *; try lia; by apply Z.ltb_ge.
Qed.

Lemma parses_fec : parses_more parseFecFrame (λ f, frame_ok (Fec f)).
Proof.
  unfold parseFecFrame. parses_first. parses_steps;
    split; cbn [fec_StreamID fec_StreamOffset fec_SymbolSize fec_NumOfSymbols fec_FecDataOffset fec_FecDataLength
      fec_FecTotalLength fec_FecData fec_Fin]; try (apply wrap_uint; lia); try lia.
  - by apply Z.eqb_eq in Heqb as ->.
  - assert (zlen a7 = u32 a5) as ->; [|split; [done|apply wrap_uint; lia]].
    pose proof (wrap_uint 32 a5). unfold zlen, uint in *. lia.
Qed.

Abbreviation range_ok r := (0 <= ar_Smallest r <= ar_Largest r ∧ ar_Largest r <= maxVarInt8).

Lemma parses_ack_blocks fuel : ∀ i n smallest,
  is_varint smallest → parses (ack_blocks fuel i n smallest) (Forall (λ r, range_ok r)).
Proof.
  induction fuel as [|fuel IH]; intros i n smallest Hs; cbn [ack_blocks].
  - destruct (_ <? _); [apply parses_fail|apply parses_ret; constructor].
  - destruct (_ <? _); [|apply parses_ret; constructor]. repeat parses_step.
    eapply parses_bind; [apply IH; lia|]. intros l Hl. apply parses_ret. apply Forall_cons. split; [cbn; lia|done].
Qed.

Lemma decodeAckDelay_bounds d e : 0 <= decodeAckDelay d e <= InfDuration.
Proof.
  unfold decodeAckDelay, InfDuration. match goal with |- context [i64 (?x * 1000)] => pose proof (i64_bounds (x * 1000)) end.
  dcase; lia.
Qed.

Lemma parses_ack e : parses_more (parseAckFrame e) (λ f, frame_ok (Ack f)).
Proof.
  unfold parseAckFrame. parses_first. repeat parses_step; (eapply parses_bind; [apply parses_ack_blocks; lia|]); intros l Hl;
    repeat parses_step;
    try (apply (parses_bind _ _ (λ _, True)); [repeat parses_step; exact I|intros ? _; apply parses_ret]);
    match goal with H : validateAckRanges _ = true |- _ => apply validateAckRanges_spec in H as (Hne & _ & Hs) end;
    (split; cbn [ack_AckRanges ack_DelayTime ack_ECT0 ack_ECT1 ack_ECNCE]; [|apply decodeAckDelay_bounds|unfold maxVarInt8; lia]);
    (split; [done| |done]); apply Forall_cons; (split; [cbn; lia|done]).
Qed.

Lemma parses_new_token : parses_more parseNewTokenFrame (λ t, frame_ok (NewTokenFrame t)).
Proof.
  unfold parseNewTokenFrame. parses_first. repeat parses_step. eapply parses_impl; [apply parses_full|].
  intros t Ht. cbn beta in Ht. cbn [frame_ok]. unfold zlen. split; [lia|]. intros ->. cbn [length] in Ht. lia.
Qed.

Lemma parse_by_type_ok p t encLevel : parses_more (parse_by_type p t encLevel) frame_ok.
Proof.
  unfold parse_by_type.
  repeat match goal with |- parses_more (if ?b then _ else _) _ => destruct b; [apply parses_rmap|] end; try done.
  - apply parses_stream.
  - unfold parsePingFrame. parses_first. parses_steps.
  - apply parses_ack.
  - unfold parseResetStreamFrame. parses_first. parses_steps.
  - unfold parseStopSendingFrame. parses_first. parses_steps.
  - unfold parseCryptoFrame. parses_first. parses_steps.
  - apply parses_new_token.
  - unfold parseMaxDataFrame. parses_first. parses_steps. apply parses_varint.
  - unfold parseMaxStreamDataFrame. parses_first. parses_steps.
  - unfold parseMaxStreamsFrame. parses_first. parses_steps.
  - unfold parseDataBlockedFrame. parses_first. parses_steps. apply parses_varint.
  - unfold parseStreamDataBlockedFrame. parses_first. parses_steps.
  - unfold parseStreamsBlockedFrame. parses_first. parses_steps.
  - unfold parseNewConnectionIDFrame. parses_first. parses_steps.
  - unfold parseRetireConnectionIDFrame. parses_first. parses_steps. apply parses_varint.
  - unfold parsePathChallengeFrame. parses_first. parses_steps. apply parses_array.
  - unfold parsePathResponseFrame. parses_first. parses_steps. apply parses_array.
  - unfold parseConnectionCloseFrame. parses_first. parses_steps.
  - unfold parseHandshakeDoneFrame. parses_first. parses_steps.
  - apply parses_fec.
  - unfold parseDatagramFrame. parses_first. parses_step. apply (parses_bind _ _ (λ n, is_varint n)); [|intros ? ?]; parses_steps.
Qed.

Lemma parseFrame_ok p t encLevel : parses_more (parseFrame p t encLevel) (λ f, frame_ok f ∧ isAllowedAtEncLevel f encLevel = true).
Proof.
  unfold parseFrame. eapply parses_more_bind; [apply parse_by_type_ok|]. intros f Hf.
  destruct (isAllowedAtEncLevel f encLevel) eqn:?; [by apply parses_ret|apply parses_fail].
Qed.

(** Every frame the parser accepts is within bounds and allowed at the
    encryption level, and takes at least a byte; no packet makes the parser panic. *)
Lemma parse_next_packet p encLevel r :
  packet r →
  match ParseNext p encLevel r with
  | Ret (Some f, r') => frame_ok f ∧ isAllowedAtEncLevel f encLevel = true ∧ ∃ bs, r = bs ++ r' ∧ bs ≠ []
  | Ret (None, r') => r' = [] ∧ Forall (λ b, b = 0) r
  | Err e => e = GoError "FRAME_ENCODING_ERROR"
  | Panic _ => False
  end.
Proof.
  intros Hr. induction r as [|t r IH]; [by cbn|]. cbn [ParseNext].
  destruct (Z.eqb_spec t 0) as [->|Ht].
  - specialize (IH (packet_suffix [0] r Hr)). destruct (ParseNext p encLevel r) as [[[f|] r']| |]; [|by destruct IH; auto|done..].
    destruct IH as (Hf & Ha & bs & -> & _). split; [done|]. split; [done|]. by exists (0 :: bs).
  - pose proof (parseFrame_ok p t encLevel t r Hr) as H. destruct (parseFrame p t encLevel (t :: r)) as [[f r']| |]; [|done..].
    destruct H as [[Hf Ha] [bs ->]]. split; [done|]. split; [done|]. by exists (t :: bs).
Qed.

(** ** The payload of a packet *)

(** Only the last frame may leave out its length. *)
Fixpoint delimited_all (fs : list Frame) : Prop :=
  match fs with
  | [] => True
  | [_] => True
  | f :: fs => (∀ r, delimited f r) ∧ delimited_all fs
  end.

Lemma delimited_nil f : delimited f [].
Proof. destruct f; cbn; auto. Qed.

Lemma delimited_cons f fs r : delimited_all (f :: fs) → (fs = [] → r = []) → delimited f r ∧ delimited_all fs.
Proof.
  intros Hd Hr. destruct fs as [|g fs]; [rewrite Hr by done; split; [apply delimited_nil|done]|].
  destruct Hd as [Hf Hfs]. by split.
Qed.

Lemma received_eliciting p encLevel f : IsFrameAckEliciting (received p encLevel f) = IsFrameAckEliciting f.
Proof. by destruct f. Qed.

Lemma parse_frames_written p encLevel fs :
  Forall (λ f, frame_ok f ∧ writable f ∧ accepted p encLevel f) fs → delimited_all fs →
  ∃ bs, writes (Frame_Write <$> fs) = Ret bs ∧ sums (Frame_Length <$> fs) = Ret (zlen bs) ∧ (length fs <= length bs)%nat ∧
    ∀ fuel, (length fs < fuel)%nat →
      parse_frames fuel p encLevel bs = Ret (received p encLevel <$> fs, HasAckElicitingFrames fs).
Proof.
  induction fs as [|f fs IH]; intros Hfs Hd.
  - exists []. split_and!; try done. intros [|fuel]; cbn [length]; [lia|done].
  - apply Forall_cons in Hfs as [(Hok & Hw & Ha) Hfs].
    assert (delimited_all fs) as Hd' by (destruct fs; [done|by destruct Hd]).
    destruct (IH Hfs Hd') as (bs & Hbs & Hsum & Hlen & Hparse).
    assert (fs = [] → bs = []) as Hnil by (intros ->; cbn in Hbs; by injection Hbs).
    destruct (frame_codec_ok p encLevel f Hok Hw (proj2 Ha)) as (t & b & Hwr & Ht & Hl & Hp).
    exists ((t :: b) ++ bs). rewrite !fmap_cons. cbn [writes sums]. rewrite Hwr, Hl, Hbs, Hsum. cbn [mbind outcome_bind].
    split; [done|]. split; [by rewrite zlen_app|]. split; [rewrite length_app; cbn [length]; lia|].
    intros [|fuel] Hfuel; cbn [length] in Hfuel; [lia|]. cbn [parse_frames].
    rewrite (ParseNext_frame p encLevel f t b bs Hwr Ht (proj1 Ha) (Hp bs (proj1 (delimited_cons f fs bs Hd Hnil)))).
    cbn [mbind outcome_bind]. rewrite Hparse by lia. cbn [mbind outcome_bind]. by rewrite received_eliciting.
Qed.

(** What the receiver gets of a frame: an ACK frame as [ack_carried] says, a FEC frame with its Fin flag cleared, any other frame as it is. *)
Definition carried (p : frameParser) (encLevel : EncryptionLevel) (f g : Frame) : Prop :=
  match f with
  | Ack f => ∃ g', g = Ack g' ∧ ack_carried (ack_exponent p encLevel) f g'
  | Fec f => g = Fec {| fec_StreamID := fec_StreamID f; fec_StreamOffset := fec_StreamOffset f; fec_SymbolSize := fec_SymbolSize f;
      fec_NumOfSymbols := fec_NumOfSymbols f; fec_FecDataOffset := fec_FecDataOffset f; fec_FecDataLength := fec_FecDataLength f;
      fec_FecTotalLength := fec_FecTotalLength f; fec_FecData := fec_FecData f; fec_Fin := false |}
  | _ => g = f
  end.

Lemma received_carried p encLevel f : frame_ok f → carried p encLevel f (received p encLevel f).
Proof. intros Hf. destruct f; try done. eexists. split; [done|]. by apply ack_received_carried. Qed.


Lemma parse_frames_total fuel p encLevel : ∀ r,
  packet r → (length r < fuel)%nat →
  match parse_frames fuel p encLevel r with
  | Ret (fs, _) => Forall (λ f, frame_ok f ∧ isAllowedAtEncLevel f encLevel = true) fs ∧ (length fs <= length r)%nat
  | Err e => e = GoError "FRAME_ENCODING_ERROR"
  | Panic _ => False
  end.
Proof.
  induction fuel as [|fuel IH]; intros r Hr Hf; [lia|]. cbn [parse_frames].
  pose proof (parse_next_packet p encLevel r Hr) as H. destruct (ParseNext p encLevel r) as [[[f|] r']|e|s]; cbn [mbind outcome_bind].
  - destruct H as (Hok & Ha & bs & -> & Hne). rewrite length_app in Hf.
    assert (0 < length bs)%nat by (destruct bs; cbn; done || lia).
    specialize (IH r' (packet_suffix _ _ Hr) ltac:(lia)).
    destruct (parse_frames fuel p encLevel r') as [[fs b]|e|s]; cbn [mbind outcome_bind]; [|done..].
    destruct IH as [Hfs Hl]. split; [by constructor|]. rewrite length_app. cbn [length]. lia.
  - split; [constructor|cbn; lia].
  - done.
  - done.
Qed.

(** C32. The loop over a packet's frames ends, whatever its bytes, without a panic:
    it returns frames that are within bounds and allowed at the encryption level, or
    the error that closes the connection. *)
Theorem payload_total p encLevel data :
  bytes_ok data → zlen data <= maxVarInt8 →
  match handleUnpackedPacket_frames p encLevel data with
  | Ret (fs, _) => Forall (λ f, frame_ok f ∧ isAllowedAtEncLevel f encLevel = true) fs ∧ (length fs <= length data)%nat
  | Err e => e = GoError "FRAME_ENCODING_ERROR"
  | Panic _ => False
  end.
Proof. intros. apply parse_frames_total; [done|lia]. Qed.

Lemma payload_total_witness :
  match handleUnpackedPacket_frames {| fp_ackDelayExponent := 3; fp_supportsDatagrams := false |} Encryption1RTT [0; 1; 16; 64; 200; 30] with
  | Ret (fs, _) => Forall (λ f, frame_ok f ∧ isAllowedAtEncLevel f Encryption1RTT = true) fs ∧ (length fs <= 6)%nat
  | Err e => e = GoError "FRAME_ENCODING_ERROR"
  | Panic _ => False
  end.
Proof. apply (payload_total _ _ [0; 1; 16; 64; 200; 30]); [repeat constructor; cbn; lia|done]. Defined.

Definition example_frames : list Frame :=
  [MaxStreamDataFrame 4 70000;
   Stream {| sf_StreamID := 4; sf_Offset := 1000; sf_Data := [1; 2; 3]; sf_Fin := true; sf_DataLenPresent := false |}].

Lemma example_frames_ok p encLevel :
  encLevel = Encryption0RTT ∨ encLevel = Encryption1RTT →
  Forall (λ f, frame_ok f ∧ writable f ∧ accepted p encLevel f) example_frames.
Proof.
  intros [-> | ->]; repeat constructor; cbn; unfold maxVarInt8, MaxByteCount, MaxPacketBufferSize, zlen; cbn [length]; try lia; done.
Qed.

