(* ===== verification/QuicSplit.v ===== *)
(** * Splitting frames

    [MaybeSplitOffFrame] of STREAM and CRYPTO frames: a frame that does not fit is
    split into one that does and a rest, or left alone when not even a byte of data
    fits.  Nothing of the stream is lost or sent twice.  The encoding of the data's
    length depends on the length, so that the sizes need care. *)

From stdpp Require Import base list numbers strings.
From Stdlib Require Import ZArith Lia.
From S2P Require Import Prelude QuicProtocol QuicFrames QuicFrameCodec.

(** The data that fits next to [header] bytes and an encoded length. *)
Definition fitting (l maxDataLen : Z) : Z := if l =? 1 then maxDataLen else maxDataLen - 1.

(** Packets are far below [2 ^ 14] bytes, so that lengths take one or two bytes. *)
Lemma fitting_spec header maxSize l :
  header + 1 <= maxSize <= maxVarInt2 → 0 <= header → quicvarint_Len (maxSize - (header + 1)) = Ret l →
  let n := fitting l (maxSize - (header + 1)) in
  0 <= n <= maxSize - (header + 1) ∧ (∃ ln, quicvarint_Len n = Ret ln ∧ header + ln + n <= maxSize) ∧
  ∀ dl ln, 0 <= dl → quicvarint_Len dl = Ret ln → maxSize < header + ln + dl → n < dl.
Proof.
  unfold fitting, quicvarint_Len, maxVarInt1, maxVarInt2, maxVarInt4, maxVarInt8. intros Hm Hh Hl.
  destruct (Z.leb_spec (maxSize - (header + 1)) 63); [injection Hl as <-|
    destruct (Z.leb_spec (maxSize - (header + 1)) 16383); [injection Hl as <-|lia]]; cbn [Z.eqb Pos.eqb].
  - split; [lia|]. split.
    + exists 1. destruct (Z.leb_spec (maxSize - (header + 1)) 63); [|lia]. split; [done|lia].
    + intros dl ln Hdl. repeat dcase; intros; simplify_eq; lia.
  - split; [lia|]. split.
    + destruct (Z.leb_spec (maxSize - (header + 1) - 1) 63); [exists 1; split; [done|lia]|].
      destruct (Z.leb_spec (maxSize - (header + 1) - 1) 16383); [exists 2; split; [done|lia]|lia].
    + intros dl ln Hdl. repeat dcase; intros; simplify_eq; lia.
Qed.

(** [take] and [drop] as slices. *)
Lemma slice_split {A} (l : list A) n :
  0 <= n <= zlen l → slice l 0 n = Ret (take (Z.to_nat n) l) ∧ slice l n (zlen l) = Ret (drop (Z.to_nat n) l).
Proof.
  intros Hn. unfold slice, zslice. rewrite !bool_decide_eq_true_2 by (pose proof (zlen_nonneg l); lia).
  change (Z.to_nat 0) with 0%nat. rewrite Nat.sub_0_r, drop_0. split; [done|].
  rewrite take_ge; [done|]. rewrite length_drop. unfold zlen. lia.
Qed.

(** ** STREAM frames *)

Definition stream_header (f : StreamFrame) : outcome Z :=
  sums [Ret 1; quicvarint_Len (u64 (sf_StreamID f)); if sf_Offset f =? 0 then Ret 0 else quicvarint_Len (u64 (sf_Offset f))].

Lemma stream_header_Ret f : stream_frame_ok f → ∃ h, stream_header f = Ret h ∧ 2 <= h <= 17.
Proof.
  intros [Hid Ho He _]. unfold stream_header. pose proof (zlen_nonneg (sf_Data f)).
  rewrite !u64_small by (done || (unfold MaxByteCount, maxVarInt8 in *; lia)).
  assert (is_varint (sf_Offset f)) as Hv by (unfold MaxByteCount, maxVarInt8 in *; lia).
  field (sf_StreamID f). field (sf_Offset f). pose proof (quicvarint_Len_bounds _ _ Hl). pose proof (quicvarint_Len_bounds _ _ Hl0).
  destruct (sf_Offset f =? 0); write_fields; eexists; (split; [reflexivity|lia]).
Qed.

(** The length of a frame with given data, and of its header as [MaxDataLen] counts it. *)
Lemma StreamFrame_Length_header f h :
  stream_header f = Ret h →
  StreamFrame_Length f =
    (if sf_DataLenPresent f then l ← quicvarint_Len (u64 (zlen (sf_Data f))); Ret (h + l + zlen (sf_Data f))
     else Ret (h + zlen (sf_Data f))) ∧
  ∀ maxSize, StreamFrame_MaxDataLen f maxSize =
    (let header := h + (if sf_DataLenPresent f then 1 else 0) in
     if maxSize <? header then Ret 0
     else if sf_DataLenPresent f then l ← quicvarint_Len (u64 (maxSize - header)); Ret (fitting l (maxSize - header))
     else Ret (maxSize - header)).
Proof.
  unfold stream_header, StreamFrame_Length, StreamFrame_MaxDataLen, StreamFrame_DataLen, fitting. cbn [sums].
  destruct (quicvarint_Len (u64 (sf_StreamID f))) as [a| |]; [|done..]. cbn [mbind outcome_bind].
  destruct (if sf_Offset f =? 0 then Ret 0 else quicvarint_Len (u64 (sf_Offset f))) as [b| |]; [|done..].
  cbn [mbind outcome_bind]. intros [= <-]. split.
  - destruct (sf_DataLenPresent f); cbn [mbind outcome_bind]; [|f_equal; lia].
    destruct (quicvarint_Len (u64 (zlen (sf_Data f)))); cbn [mbind outcome_bind]; [f_equal; lia|done..].
  - intros maxSize. cbv zeta. replace (1 + (a + (b + ((if sf_DataLenPresent f then 1 else 0) + 0))))
      with (1 + (a + (b + 0)) + (if sf_DataLenPresent f then 1 else 0)) by (destruct (sf_DataLenPresent f); lia). done.
Qed.

(** What fits is less than the data, and does fit. *)
Lemma StreamFrame_MaxDataLen_spec f h maxSize len :
  stream_frame_ok f → stream_header f = Ret h → 2 <= h → maxSize <= maxVarInt2 →
  StreamFrame_Length f = Ret len → maxSize < len →
  ∃ n, StreamFrame_MaxDataLen f maxSize = Ret n ∧ 0 <= n ∧ (n = 0 ∨ n < zlen (sf_Data f)) ∧
    (0 < n → ∃ ln, (if sf_DataLenPresent f then quicvarint_Len n else Ret 0) = Ret ln ∧ h + ln + n <= maxSize).
Proof.
  intros Hok Hh H2 Hm Hlen Hlt. destruct (StreamFrame_Length_header f h Hh) as [Hl Hmax]. rewrite Hmax. rewrite Hl in Hlen.
  clear Hl Hmax. cbv zeta. pose proof (zlen_nonneg (sf_Data f)) as Hd.
  assert (is_varint (zlen (sf_Data f))) as Hv.
  { destruct Hok. unfold MaxPacketBufferSize, maxVarInt8 in *. lia. }
  destruct (Z.ltb_spec maxSize (h + (if sf_DataLenPresent f then 1 else 0))) as [Hs|Hs].
  { exists 0. split; [done|]. split; [lia|]. split; [by left|]. lia. }
  rewrite u64_small in Hlen by done. destruct (sf_DataLenPresent f).
  - assert (is_varint (maxSize - (h + 1))) as Hv' by (unfold maxVarInt2, maxVarInt8 in *; lia).
    rewrite u64_small by done. field (maxSize - (h + 1)). rewrite Hl. cbn [mbind outcome_bind].
    destruct (fitting_spec h maxSize (zlen bs)) as ([Hn Hn'] & (ln & Hln & Hfit) & Hless); [lia|lia|done|].
    eexists. split; [reflexivity|]. split; [done|]. split; [right|by exists ln].
    destruct (quicvarint_Len (zlen (sf_Data f))) as [l| |] eqn:Hdl; [|done..]. injection Hlen as <-. by eapply Hless.
  - injection Hlen as <-. exists (maxSize - (h + 0)). split; [done|]. split; [lia|]. split; [right; lia|].
    exists 0. split; [done|lia].
Qed.

Lemma StreamFrame_Length_Ret f : stream_frame_ok f → ∃ len, StreamFrame_Length f = Ret len.
Proof.
  intros Hok. destruct (stream_header_Ret f Hok) as (h & Hh & _). destruct (StreamFrame_Length_header f h Hh) as [-> _].
  assert (is_varint (zlen (sf_Data f))) as Hv.
  { apply size_varint. destruct Hok. unfold MaxPacketBufferSize, maxVarInt8 in *. lia. }
  rewrite u64_small by done. field (zlen (sf_Data f)). rewrite Hl. destruct (sf_DataLenPresent f); eexists; reflexivity.
Qed.

(** [f] is split into [g], of at most [maxSize] bytes, and the rest [f']. *)
Record stream_split_into (f g f' : StreamFrame) (maxSize : Z) : Prop := {
  ssi_data : sf_Data g ++ sf_Data f' = sf_Data f;
  ssi_progress : sf_Data g ≠ [];
  ssi_rest : sf_Data f' ≠ [];
  ssi_offset : sf_Offset g = sf_Offset f ∧ sf_Offset f' = sf_Offset f + zlen (sf_Data g);
  ssi_id : sf_StreamID g = sf_StreamID f ∧ sf_StreamID f' = sf_StreamID f;
  ssi_fin : sf_Fin g = false ∧ sf_Fin f' = sf_Fin f;
  ssi_present : sf_DataLenPresent g = sf_DataLenPresent f ∧ sf_DataLenPresent f' = sf_DataLenPresent f;
  ssi_ok : stream_frame_ok g ∧ stream_frame_ok f';
  ssi_fits : ∃ len, StreamFrame_Length g = Ret len ∧ len <= maxSize;
}.

Lemma nonempty_zlen {A} (l : list A) : 0 < zlen l → l ≠ [].
Proof. intros H ->. done. Qed.

Lemma stream_split_at f h n maxSize ln :
  stream_frame_ok f → stream_header f = Ret h → 0 < n < zlen (sf_Data f) →
  (if sf_DataLenPresent f then quicvarint_Len n else Ret 0) = Ret ln → h + ln + n <= maxSize →
  stream_split_into f
    {| sf_StreamID := sf_StreamID f; sf_Offset := sf_Offset f; sf_Data := take (Z.to_nat n) (sf_Data f); sf_Fin := false;
       sf_DataLenPresent := sf_DataLenPresent f |}
    {| sf_StreamID := sf_StreamID f; sf_Offset := sf_Offset f + n; sf_Data := drop (Z.to_nat n) (sf_Data f);
       sf_Fin := sf_Fin f; sf_DataLenPresent := sf_DataLenPresent f |} maxSize.
Proof.
  intros [Hid Ho He Hs] Hh Hn Hln Hfit.
  assert (zlen (take (Z.to_nat n) (sf_Data f)) = n) as Hzt by (unfold zlen in *; rewrite length_take_le; lia).
  assert (zlen (drop (Z.to_nat n) (sf_Data f)) = zlen (sf_Data f) - n) as Hzd by (unfold zlen in *; rewrite length_drop; lia).
  split; cbn [sf_StreamID sf_Offset sf_Data sf_Fin sf_DataLenPresent]; try done.
  - by rewrite take_drop.
  - apply nonempty_zlen. lia.
  - apply nonempty_zlen. lia.
  - by rewrite Hzt.
  - split; split; cbn [sf_StreamID sf_Offset sf_Data]; rewrite ?Hzt, ?Hzd; lia.
  - exists (h + ln + n). split; [|done]. edestruct StreamFrame_Length_header as [-> _]; [exact Hh|].
    cbn [sf_Data sf_DataLenPresent]. rewrite Hzt. destruct (sf_DataLenPresent f).
    + rewrite u64_small, Hln by (unfold MaxPacketBufferSize, maxVarInt8 in *; lia). done.
    + injection Hln as <-. f_equal. lia.
Qed.

Lemma StreamFrame_MaybeSplitOffFrame_spec f maxSize :
  stream_frame_ok f → maxSize <= maxVarInt2 →
  ∃ new split f' len, StreamFrame_MaybeSplitOffFrame f maxSize = Ret (new, split, f') ∧ StreamFrame_Length f = Ret len ∧
    (split = true ↔ maxSize < len) ∧
    match new with
    | None => f' = f ∧ (split = true → StreamFrame_MaxDataLen f maxSize = Ret 0)
    | Some g => split = true ∧ stream_split_into f g f' maxSize
    end.
Proof.
  intros Hok Hm. destruct (stream_header_Ret f Hok) as (h & Hh & Hh1 & _).
  destruct (StreamFrame_Length_Ret f Hok) as [len Hlen].
  unfold StreamFrame_MaybeSplitOffFrame. rewrite Hlen. cbn [mbind outcome_bind].
  destruct (Z.leb_spec len maxSize) as [Hle|Hlt].
  { exists None, false, f, len. split_and!; try done. lia. }
  destruct (StreamFrame_MaxDataLen_spec f h maxSize len Hok Hh Hh1 Hm Hlen Hlt) as (n & Hn & Hn0 & Hnd & Hfit).
  rewrite Hn. cbn [mbind outcome_bind]. destruct (Z.eqb_spec n 0) as [->|Hne].
  { exists None, true, f, len. split_and!; try done. }
  assert (0 < n < zlen (sf_Data f)) as Hlt' by (destruct Hnd; [done|lia]). destruct Hfit as (ln & Hln & Hfit); [lia|].
  rewrite (proj2 (Z.ltb_ge _ _)) by (destruct Hok; lia).
  destruct (slice_split (sf_Data f) n) as [-> ->]; [lia|]. cbn [mbind outcome_bind].
  do 4 eexists. split; [reflexivity|]. split; [done|]. split; [done|]. split; [done|]. by eapply stream_split_at.
Qed.

(** [MaybeSplitOffFrame] does what it promises: the frame fits; or it is split into
    one that fits and a rest, whose data make up the frame's; or not a byte fits. *)
Theorem stream_frame_split f maxSize :
  stream_frame_ok f → maxSize <= maxVarInt2 →
  ∃ new split f' len, StreamFrame_MaybeSplitOffFrame f maxSize = Ret (new, split, f') ∧ StreamFrame_Length f = Ret len ∧
    (split = true ↔ maxSize < len) ∧
    match new with
    | None => f' = f ∧ (split = true → StreamFrame_MaxDataLen f maxSize = Ret 0)
    | Some g => split = true ∧ stream_split_into f g f' maxSize
    end.
Proof. apply StreamFrame_MaybeSplitOffFrame_spec. Qed.

Lemma stream_frame_split_witness :
  let f := {| sf_StreamID := 4; sf_Offset := 1000; sf_Data := replicate 100 7; sf_Fin := true; sf_DataLenPresent := true |} in
  ∃ new split f' len, StreamFrame_MaybeSplitOffFrame f 40 = Ret (new, split, f') ∧ StreamFrame_Length f = Ret len ∧
    (split = true ↔ 40 < len) ∧
    match new with
    | None => f' = f ∧ (split = true → StreamFrame_MaxDataLen f 40 = Ret 0)
    | Some g => split = true ∧ stream_split_into f g f' 40
    end.
Proof.
  intros f. apply (stream_frame_split f 40); [|done].
  split; cbn; unfold maxVarInt8, MaxByteCount, MaxPacketBufferSize, zlen; cbn [length]; lia.
Defined.
