(* ===== verification/QuicHeader.v ===== *)
(** * Packet headers ([internal/wire/header.go], [extended_header.go],
    [version_negotiation.go])

    A packet starts with a header, of which the receiver parses the part that is
    not protected first ([ParsePacket]) and the packet number after the protection
    has been removed ([ParseExtended]).  [Type_] is [None] in short headers, where
    the field keeps its zero value.  Random bytes of a Version Negotiation packet
    are arguments. *)

From stdpp Require Import base list numbers strings.
From Stdlib Require Import ZArith Lia.
From S2P Require Import Prelude QuicProtocol QuicFrames QuicFrameCodec.

Inductive PacketType := PacketTypeInitial | PacketTypeRetry | PacketTypeHandshake | PacketType0RTT.

#[global] Instance PacketType_eq_dec : EqDecision PacketType.
Proof. solve_decision. Defined.

Inductive KeyPhaseBit := KeyPhaseUndefined | KeyPhaseZero | KeyPhaseOne.

#[global] Instance KeyPhaseBit_eq_dec : EqDecision KeyPhaseBit.
Proof. solve_decision. Defined.

Record Header := {
  h_IsLongHeader : bool;
  h_typeByte : Z;
  h_Type : option PacketType;
  h_Version : Z;
  h_SrcConnectionID : list Z;
  h_DestConnectionID : list Z;
  h_Length : Z;
  h_Token : list Z;
  h_parsedLen : Z;
}.

(** [data[lo:hi]] of a slice that is long enough. *)
Definition ParseConnectionID (data : list Z) (shortHeaderConnIDLen : Z) : outcome (list Z) :=
  if zlen data =? 0 then Err EOF else
  b0 ← index data 0;
  let isLongHeader := 0 <? Z.land b0 128 in
  if negb isLongHeader then
    if zlen data <? shortHeaderConnIDLen + 1 then Err EOF else slice data 1 (1 + shortHeaderConnIDLen)
  else if zlen data <? 6 then Err EOF else
  destConnIDLen ← index data 5;
  if zlen data <? 6 + destConnIDLen then Err EOF else slice data 6 (6 + destConnIDLen).

Definition IsVersionNegotiationPacket (b : list Z) : bool :=
  match b with
  | b0 :: b1 :: b2 :: b3 :: b4 :: _ => (0 <? Z.land b0 128) && (b1 =? 0) && (b2 =? 0) && (b3 =? 0) && (b4 =? 0)
  | _ => false
  end.

(** [binary.BigEndian.Uint32]. *)
Definition BigEndian_Uint32_of (b1 b2 b3 b4 : Z) : Z := b4 + Z.shiftl b3 8 + Z.shiftl b2 16 + Z.shiftl b1 24.

Definition Is0RTTPacket (b : list Z) : bool :=
  match b with
  | b0 :: b1 :: b2 :: b3 :: b4 :: _ =>
      if Z.land b0 128 =? 0 then false
      else if negb (IsSupportedVersion SupportedVersions (BigEndian_Uint32_of b1 b2 b3 b4)) then false
      else Z.shiftr (Z.land b0 48) 4 =? 1
  | _ => false
  end.

(** [b.Seek(n, io.SeekCurrent)] forward. *)
Definition Seek (n : Z) : reader unit := λ r, Ret (tt, drop (Z.to_nat n) r).

Definition packet_type (typeByte : Z) : PacketType :=
  let t := Z.shiftr (Z.land typeByte 48) 4 in
  if t =? 0 then PacketTypeInitial else if t =? 1 then PacketType0RTT
  else if t =? 2 then PacketTypeHandshake else PacketTypeRetry.

(** The header, and whether the error is [ErrUnsupportedVersion], with which the
    header is returned too. *)
Definition parseLongHeader (typeByte : Z) : reader (Header * bool) :=
  v ← BigEndian_ReadUint32;
  if negb (v =? 0) && (Z.land typeByte 64 =? 0) then rfail (GoError "not a QUIC packet") else
  destConnIDLen ← ReadByte;
  dest ← ReadConnectionID destConnIDLen;
  srcConnIDLen ← ReadByte;
  src ← ReadConnectionID srcConnIDLen;
  let h t len token :=
    {| h_IsLongHeader := true; h_typeByte := typeByte; h_Type := t; h_Version := v; h_SrcConnectionID := src;
       h_DestConnectionID := dest; h_Length := len; h_Token := token; h_parsedLen := 0 |} in
  if v =? 0 then mret (h None 0 [], false) else
  if negb (IsSupportedVersion SupportedVersions v) then mret (h None 0 [], true) else
  let t := packet_type typeByte in
  if bool_decide (t = PacketTypeRetry) then
    remaining ← ReaderLen;
    let tokenLen := remaining - 16 in
    if tokenLen <=? 0 then rfail EOF else
    token ← ReadFull (Z.to_nat tokenLen);
    Seek 16;;
    mret (h (Some t) 0 token, false)
  else
  token ← (if bool_decide (t = PacketTypeInitial) then
             tokenLen ← quicvarint_Read;
             remaining ← ReaderLen;
             if remaining <? tokenLen then rfail EOF else ReadFull (Z.to_nat tokenLen)
           else mret []);
  pl ← quicvarint_Read;
  mret (h (Some t) pl token, false).

Definition parseShortHeader (typeByte shortHeaderConnIDLen : Z) : reader Header :=
  dest ← ReadConnectionID shortHeaderConnIDLen;
  mret {| h_IsLongHeader := false; h_typeByte := typeByte; h_Type := None; h_Version := 0; h_SrcConnectionID := [];
          h_DestConnectionID := dest; h_Length := 0; h_Token := []; h_parsedLen := 0 |}.

Definition parseHeaderImpl (shortHeaderConnIDLen : Z) : reader (Header * bool) :=
  typeByte ← ReadByte;
  if negb (0 <? Z.land typeByte 128) then
    if Z.land typeByte 64 =? 0 then rfail (GoError "not a QUIC packet") else
    h ← parseShortHeader typeByte shortHeaderConnIDLen;
    mret (h, false)
  else parseLongHeader typeByte.

Definition set_parsedLen (h : Header) (n : Z) : Header :=
  {| h_IsLongHeader := h_IsLongHeader h; h_typeByte := h_typeByte h; h_Type := h_Type h; h_Version := h_Version h;
     h_SrcConnectionID := h_SrcConnectionID h; h_DestConnectionID := h_DestConnectionID h; h_Length := h_Length h;
     h_Token := h_Token h; h_parsedLen := n |}.

Definition parseHeader (shortHeaderConnIDLen : Z) : reader (Header * bool) :=
  startLen ← ReaderLen;
  '(h, unsupported) ← parseHeaderImpl shortHeaderConnIDLen;
  if (unsupported : bool) then mret (h, true) else
  len ← ReaderLen;
  mret (set_parsedLen h (startLen - len), false).

(** The header, the packet and the packets that follow it in the datagram; or the
    header of a version that is not supported. *)
Inductive parsed_packet :=
| Parsed (hdr : Header) (data rest : list Z)
| Unsupported (hdr : Header).

Definition ParsePacket (data : list Z) (shortHeaderConnIDLen : Z) : outcome parsed_packet :=
  p ← parseHeader shortHeaderConnIDLen data;
  let '(hdr, unsupported, _) := p in
  if (unsupported : bool) then Ret (Unsupported hdr) else
  if h_IsLongHeader hdr then
    if zlen data <? h_parsedLen hdr + h_Length hdr then Err (GoError "packet length is smaller than the expected length") else
    let packetLen := h_parsedLen hdr + h_Length hdr in
    rest ← slice data packetLen (zlen data);
    data ← slice data 0 packetLen;
    Ret (Parsed hdr data rest)
  else Ret (Parsed hdr data []).

(** ** Extended headers *)

Record ExtendedHeader := {
  eh_Header : Header;
  eh_typeByte : Z;
  eh_KeyPhase : KeyPhaseBit;
  eh_PacketNumberLen : Z;
  eh_PacketNumber : Z;
  eh_parsedLen : Z;
}.

Definition readPacketNumber (len : Z) : reader Z :=
  if len =? 1 then ReadByte
  else if len =? 2 then BigEndian_ReadUint16
  else if len =? 3 then BigEndian_ReadUint24
  else if len =? 4 then BigEndian_ReadUint32
  else rfail (GoError "invalid packet number length").

(** The header and whether its reserved bits are valid; the header is returned in
    both cases. *)
Definition ParseExtended (h : Header) : reader (ExtendedHeader * bool) :=
  startLen ← ReaderLen;
  typeByte ← ReadByte;
  Seek (h_parsedLen h - 1);;
  let pnLen := Z.land typeByte 3 + 1 in
  pn ← readPacketNumber pnLen;
  let kp := if h_IsLongHeader h then KeyPhaseUndefined else if 0 <? Z.land typeByte 4 then KeyPhaseOne else KeyPhaseZero in
  let reservedBitsValid := if h_IsLongHeader h then Z.land typeByte 12 =? 0 else Z.land typeByte 24 =? 0 in
  len ← ReaderLen;
  mret ({| eh_Header := h; eh_typeByte := typeByte; eh_KeyPhase := kp; eh_PacketNumberLen := pnLen; eh_PacketNumber := pn;
           eh_parsedLen := startLen - len |}, reservedBitsValid).

Definition writePacketNumber (h : ExtendedHeader) : outcome (list Z) :=
  let pn := eh_PacketNumber h in
  let len := eh_PacketNumberLen h in
  if len =? 1 then Ret [u8 pn]
  else if len =? 2 then Ret (BigEndian_WriteUint16 pn)
  else if len =? 3 then Ret (BigEndian_WriteUint24 pn)
  else if len =? 4 then Ret (BigEndian_WriteUint32 pn)
  else Err (GoError "invalid packet number length").

Definition type_bits_of (t : option PacketType) : Z :=
  match t with
  | Some PacketType0RTT => 1
  | Some PacketTypeHandshake => 2
  | Some PacketTypeRetry => 3
  | _ => 0
  end.

Definition writeLongHeader (eh : ExtendedHeader) : outcome (list Z) :=
  let h := eh_Header eh in
  let firstByte := Z.lor 192 (Z.shiftl (type_bits_of (h_Type h)) 4) in
  let retry := bool_decide (h_Type h = Some PacketTypeRetry) in
  let firstByte := if retry then firstByte else Z.lor firstByte (u8 (eh_PacketNumberLen eh - 1)) in
  let invariant_part :=
    [WriteByte firstByte; Ret (BigEndian_WriteUint32 (h_Version h)); WriteByte (u8 (zlen (h_DestConnectionID h)));
     Ret (h_DestConnectionID h); WriteByte (u8 (zlen (h_SrcConnectionID h))); Ret (h_SrcConnectionID h)] in
  if retry then writes (invariant_part ++ [Ret (h_Token h)])
  else writes (invariant_part ++
         (if bool_decide (h_Type h = Some PacketTypeInitial)
          then [quicvarint_Write (zlen (h_Token h)); Ret (h_Token h)] else []) ++
         [quicvarint_WriteWithLen (u64 (h_Length h)) 2; writePacketNumber eh]).

Definition writeShortHeader (eh : ExtendedHeader) : outcome (list Z) :=
  let typeByte := Z.lor 64 (u8 (eh_PacketNumberLen eh - 1)) in
  let typeByte := if bool_decide (eh_KeyPhase eh = KeyPhaseOne) then Z.lor typeByte (Z.shiftl 1 2) else typeByte in
  writes [WriteByte typeByte; Ret (h_DestConnectionID (eh_Header eh)); writePacketNumber eh].

Definition ExtendedHeader_Write (eh : ExtendedHeader) : outcome (list Z) :=
  let h := eh_Header eh in
  if MaxConnIDLen <? zlen (h_DestConnectionID h) then Err (GoError "invalid connection ID length") else
  if MaxConnIDLen <? zlen (h_SrcConnectionID h) then Err (GoError "invalid connection ID length") else
  if h_IsLongHeader h then writeLongHeader eh else writeShortHeader eh.

Definition GetLength (eh : ExtendedHeader) : outcome Z :=
  let h := eh_Header eh in
  if h_IsLongHeader h then
    let length := 1 + 4 + 1 + zlen (h_DestConnectionID h) + 1 + zlen (h_SrcConnectionID h) + eh_PacketNumberLen eh + 2 in
    if bool_decide (h_Type h = Some PacketTypeInitial) then
      l ← quicvarint_Len (zlen (h_Token h)); Ret (length + l + zlen (h_Token h))
    else Ret length
  else Ret (1 + zlen (h_DestConnectionID h) + eh_PacketNumberLen eh).

(** ** Version negotiation *)

Fixpoint read_versions (n : nat) : reader (list Z) :=
  match n with
  | O => mret []
  | S n => v ← BigEndian_ReadUint32; vs ← read_versions n; mret (v :: vs)
  end.

(** A header of an unsupported version is an error here. *)
Definition ParseVersionNegotiationPacket : reader (Header * list Z) :=
  '(hdr, unsupported) ← parseHeader 0;
  if (unsupported : bool) then rfail (GoError "unsupported version") else
  remaining ← ReaderLen;
  if remaining =? 0 then rfail (GoError "Version Negotiation packet has empty version list") else
  if negb (remaining mod 4 =? 0) then rfail (GoError "Version Negotiation packet has a version list with an invalid length") else
  versions ← read_versions (Z.to_nat (remaining / 4));
  mret (hdr, versions).

(** [rnd] are four random bytes as a number. *)
Definition generateReservedVersion (rnd : Z) : Z := Z.land (Z.lor rnd 168430090) 4210752250.

Definition GetGreasedVersions (rnd_pos rnd : Z) (supported : list Z) : list Z :=
  let randPos := Z.to_nat (rnd_pos mod (zlen supported + 1)) in
  take randPos supported ++ [generateReservedVersion rnd] ++ drop randPos supported.

Definition ComposeVersionNegotiation (rnd_pos rnd rnd_type : Z) (destConnID srcConnID versions : list Z) : list Z :=
  let greasedVersions := GetGreasedVersions rnd_pos rnd versions in
  [Z.lor rnd_type 128] ++ BigEndian_WriteUint32 0 ++ [u8 (zlen destConnID)] ++ destConnID ++
  [u8 (zlen srcConnID)] ++ srcConnID ++ concat (BigEndian_WriteUint32 <$> greasedVersions).

(** ** First bytes

    Header protection changes the lowest four bits of the first byte of a long
    header and the lowest five of a short one. *)

Definition long_first (t n : Z) : Z := Z.lor (Z.lor 192 (Z.shiftl t 4)) (n - 1).

Definition short_first (kp : bool) (n : Z) : Z :=
  if kp then Z.lor (Z.lor 64 (n - 1)) (Z.shiftl 1 2) else Z.lor 64 (n - 1).

Lemma long_first_masked t n m :
  0 <= t < 4 → 1 <= n <= 4 → is_byte m →
  let fb := Z.lxor (long_first t n) (Z.land m 15) in
  (0 <? Z.land fb 128) = true ∧ Z.land fb 64 ≠ 0 ∧ Z.shiftr (Z.land fb 48) 4 = t ∧ is_byte fb.
Proof.
  intros Ht Hn Hm.
  assert (Forall (λ t, Forall (λ n, Forall (λ m, (0 <? Z.land (Z.lxor (long_first t n) (Z.land m 15)) 128) = true ∧
    Z.land (Z.lxor (long_first t n) (Z.land m 15)) 64 ≠ 0 ∧
    Z.shiftr (Z.land (Z.lxor (long_first t n) (Z.land m 15)) 48) 4 = t ∧ is_byte (Z.lxor (long_first t n) (Z.land m 15)))
    (seqZ 0 256)) (seqZ 1 4)) (seqZ 0 4)) as H by (apply (bool_decide_unpack _); vm_compute; done).
  rewrite Forall_forall in H. specialize (H t). rewrite elem_of_seqZ, Forall_forall in H.
  specialize (H ltac:(lia) n). rewrite elem_of_seqZ, Forall_forall in H.
  specialize (H ltac:(lia) m). rewrite elem_of_seqZ in H. apply H. unfold uint in Hm. lia.
Qed.

Lemma long_first_bits t n :
  0 <= t < 4 → 1 <= n <= 4 → Z.land (long_first t n) 3 + 1 = n ∧ Z.land (long_first t n) 12 = 0.
Proof.
  intros Ht Hn. assert (Forall (λ t, Forall (λ n, Z.land (long_first t n) 3 + 1 = n ∧ Z.land (long_first t n) 12 = 0)
    (seqZ 1 4)) (seqZ 0 4)) as H by (apply (bool_decide_unpack _); vm_compute; done).
  rewrite Forall_forall in H. specialize (H t). rewrite elem_of_seqZ, Forall_forall in H.
  specialize (H ltac:(lia) n). rewrite elem_of_seqZ in H. apply H. lia.
Qed.

Lemma short_first_masked kp n m :
  1 <= n <= 4 → is_byte m →
  let fb := Z.lxor (short_first kp n) (Z.land m 31) in
  (0 <? Z.land fb 128) = false ∧ Z.land fb 64 ≠ 0 ∧ is_byte fb.
Proof.
  intros Hn Hm.
  assert (Forall (λ n, Forall (λ m, (0 <? Z.land (Z.lxor (short_first kp n) (Z.land m 31)) 128) = false ∧
    Z.land (Z.lxor (short_first kp n) (Z.land m 31)) 64 ≠ 0 ∧ is_byte (Z.lxor (short_first kp n) (Z.land m 31)))
    (seqZ 0 256)) (seqZ 1 4)) as H
    by (apply (bool_decide_unpack _); destruct kp; vm_compute; done).
  rewrite Forall_forall in H. specialize (H n). rewrite elem_of_seqZ, Forall_forall in H.
  specialize (H ltac:(lia) m). rewrite elem_of_seqZ in H. apply H. unfold uint in Hm. lia.
Qed.

Lemma short_first_bits kp n :
  1 <= n <= 4 →
  Z.land (short_first kp n) 3 + 1 = n ∧ (0 <? Z.land (short_first kp n) 4) = kp ∧ Z.land (short_first kp n) 24 = 0.
Proof.
  intros Hn. assert (Forall (λ n, Z.land (short_first kp n) 3 + 1 = n ∧ (0 <? Z.land (short_first kp n) 4) = kp ∧
    Z.land (short_first kp n) 24 = 0) (seqZ 1 4)) as H by (apply (bool_decide_unpack _); destruct kp; vm_compute; done).
  rewrite Forall_forall in H. specialize (H n). rewrite elem_of_seqZ in H. apply H. lia.
Qed.

(** ** Long headers *)

Record long_header_ok (eh : ExtendedHeader) : Prop := {
  lho_long : h_IsLongHeader (eh_Header eh) = true;
  lho_type : ∃ t, h_Type (eh_Header eh) = Some t ∧ t ≠ PacketTypeRetry;
  lho_version : h_Version (eh_Header eh) ∈ SupportedVersions;
  lho_dest : zlen (h_DestConnectionID (eh_Header eh)) <= MaxConnIDLen;
  lho_src : zlen (h_SrcConnectionID (eh_Header eh)) <= MaxConnIDLen;
  lho_token : is_size (h_Token (eh_Header eh));
  lho_no_token : h_Type (eh_Header eh) ≠ Some PacketTypeInitial → h_Token (eh_Header eh) = [];
  lho_length : 0 <= h_Length (eh_Header eh) <= maxVarInt2;
  lho_pn_len : 1 <= eh_PacketNumberLen eh <= 4;
}.

Lemma writePacketNumber_Ret eh :
  1 <= eh_PacketNumberLen eh <= 4 →
  ∃ bs, writePacketNumber eh = Ret bs ∧ zlen bs = eh_PacketNumberLen eh ∧ bytes_ok bs ∧
    ∀ r, readPacketNumber (eh_PacketNumberLen eh) (bs ++ r) =
           Ret (eh_PacketNumber eh mod 2 ^ (8 * eh_PacketNumberLen eh), r).
Proof.
  intros Hn. unfold writePacketNumber, readPacketNumber. set (n := eh_PacketNumberLen eh) in *. clearbody n.
  set (pn := eh_PacketNumber eh).
  assert (n = 1 ∨ n = 2 ∨ n = 3 ∨ n = 4) as [-> |[-> |[-> | ->]]] by lia; cbn [Z.eqb Pos.eqb]; eexists;
    (split; [reflexivity|]); (split; [done|]);
    (split; [unfold BigEndian_WriteUint16, BigEndian_WriteUint24, BigEndian_WriteUint32; rewrite ?Forall_cons; split_and?;
       try (apply wrap_uint; lia); apply Forall_nil_2|]); intros r.
  - done.
  - apply BigEndian_Uint16.
  - apply BigEndian_Uint24.
  - apply BigEndian_Uint32.
Qed.

Lemma u64_2 x : 0 <= x <= maxVarInt2 → u64 x = x.
Proof. unfold maxVarInt2. intros. apply wrap_small. unfold uint. lia. Qed.

Lemma length_field x :
  0 <= x <= maxVarInt2 → ∃ bs, quicvarint_WriteWithLen (u64 x) 2 = Ret bs ∧ zlen bs = 2 ∧ ∀ r, quicvarint_Read (bs ++ r) = Ret (x, r).
Proof.
  intros Hx. rewrite u64_2 by done. assert (∃ bs, quicvarint_WriteWithLen x 2 = Ret bs) as [bs Hbs].
  { unfold quicvarint_WriteWithLen, quicvarint_Len. cbn [Z.eqb Pos.eqb negb andb].
    destruct (Z.leb_spec x maxVarInt1); cbn [mbind outcome_bind Z.eqb Pos.eqb Z.ltb Z.compare Pos.compare Pos.compare_cont].
    - eexists; reflexivity.
    - destruct (Z.leb_spec x maxVarInt2); [|lia]. cbn [mbind outcome_bind Z.eqb Pos.eqb]. unfold quicvarint_Write.
      destruct (x <=? maxVarInt1), (x <=? maxVarInt2) eqn:?; try lia; eexists; reflexivity. }
  exists bs. split; [done|]. unfold maxVarInt2 in Hx.
  assert (is_varint x) as Hv by (unfold maxVarInt8; lia).
  split; [exact (proj2 (quicvarint_Read_WriteWithLen x 2 bs [] Hv Hbs))|].
  intros r. exact (proj1 (quicvarint_Read_WriteWithLen x 2 bs r Hv Hbs)).
Qed.

(** The header the receiver gets, with the first byte it saw. *)
Definition seen_header (h : Header) (fb len : Z) : Header :=
  {| h_IsLongHeader := h_IsLongHeader h; h_typeByte := fb; h_Type := h_Type h; h_Version := h_Version h;
     h_SrcConnectionID := h_SrcConnectionID h; h_DestConnectionID := h_DestConnectionID h; h_Length := h_Length h;
     h_Token := h_Token h; h_parsedLen := len |}.

Lemma id_len (c : list Z) : zlen c <= MaxConnIDLen → u8 (zlen c) = zlen c.
Proof. intros Hc. apply wrap_small. pose proof (zlen_nonneg c). unfold uint, MaxConnIDLen in *. lia. Qed.

Lemma packet_type_bits fb t : Z.shiftr (Z.land fb 48) 4 = type_bits_of (Some t) → packet_type fb = t.
Proof. intros H. unfold packet_type. rewrite H. by destruct t. Qed.

Lemma supported_version v :
  v ∈ SupportedVersions → u32 v = v ∧ (v =? 0) = false ∧ IsSupportedVersion SupportedVersions v = true.
Proof.
  unfold SupportedVersions. rewrite !elem_of_cons. intros [-> |[-> |H]]; [done..|]. by apply not_elem_of_nil in H.
Qed.

(** The token of an Initial packet. *)
Definition token_part (h : Header) : list (outcome (list Z)) :=
  if bool_decide (h_Type h = Some PacketTypeInitial) then [quicvarint_Write (zlen (h_Token h)); Ret (h_Token h)] else [].

Lemma token_part_read h t :
  h_Type h = Some t → is_size (h_Token h) → (h_Type h ≠ Some PacketTypeInitial → h_Token h = []) →
  ∃ bs, writes (token_part h) = Ret bs ∧
    (if bool_decide (h_Type h = Some PacketTypeInitial) then quicvarint_Len (zlen (h_Token h)) else Ret 0) =
      Ret (zlen bs - zlen (h_Token h)) ∧
    ∀ r, (if bool_decide (t = PacketTypeInitial) then
            tokenLen ← quicvarint_Read;
            remaining ← ReaderLen;
            if remaining <? tokenLen then rfail EOF else ReadFull (Z.to_nat tokenLen)
          else mret []) (bs ++ r) = Ret (h_Token h, r).
Proof.
  intros Ht Hs%size_varint Hno. unfold token_part. rewrite Ht in *. destruct (decide (t = PacketTypeInitial)) as [->|Hne].
  - rewrite !bool_decide_eq_true_2 by done. field (zlen (h_Token h)). eexists. split; [write_fields; reflexivity|].
    split; [rewrite Hl; f_equal; rewrite app_nil_r, zlen_app; lia|]. intros r. read_fields. rewrite remaining_ok.
    apply ReadFull_app. unfold zlen. lia.
  - rewrite !bool_decide_eq_false_2 by congruence. exists []. rewrite Hno by congruence. by split_and!.
Qed.

(** The bytes between the first byte and the packet number. *)
Definition long_mid (h : Header) (token length : list Z) : list Z :=
  BigEndian_WriteUint32 (h_Version h) ++ [zlen (h_DestConnectionID h)] ++ h_DestConnectionID h ++
  [zlen (h_SrcConnectionID h)] ++ h_SrcConnectionID h ++ token ++ length.

Lemma parseLongHeader_written h t token length fb r :
  h_IsLongHeader h = true → h_Type h = Some t → t ≠ PacketTypeRetry → h_Version h ∈ SupportedVersions →
  Z.land fb 64 ≠ 0 → packet_type fb = t →
  (∀ r, (if bool_decide (t = PacketTypeInitial) then
            tokenLen ← quicvarint_Read;
            remaining ← ReaderLen;
            if remaining <? tokenLen then rfail EOF else ReadFull (Z.to_nat tokenLen)
          else mret []) (token ++ r) = Ret (h_Token h, r)) →
  (∀ r, quicvarint_Read (length ++ r) = Ret (h_Length h, r)) →
  parseLongHeader fb (long_mid h token length ++ r) = Ret ((seen_header h fb 0, false), r).
Proof.
  intros Hlong Ht Hretry Hv Hfb Hpt Htok Hlen. destruct (supported_version _ Hv) as (Hv32 & Hv0 & Hvs).
  unfold parseLongHeader, long_mid. rewrite <-!app_assoc.
  erewrite reader_bind_Ret by apply BigEndian_Uint32. rewrite Hv32, Hv0. cbn [negb].
  rewrite (proj2 (Z.eqb_neq _ _)) by done. cbn [andb].
  erewrite reader_bind_Ret by reflexivity. erewrite reader_bind_Ret by apply ReadConnectionID_app.
  erewrite reader_bind_Ret by reflexivity. erewrite reader_bind_Ret by apply ReadConnectionID_app.
  cbv zeta. rewrite Hvs, Hpt. cbn [negb]. rewrite (bool_decide_eq_false_2 (t = PacketTypeRetry)) by done.
  erewrite reader_bind_Ret by apply Htok. erewrite reader_bind_Ret by apply Hlen.
  unfold seen_header. by rewrite Hlong, Ht.
Qed.

Lemma long_header_written eh :
  long_header_ok eh →
  let h := eh_Header eh in
  let t := type_bits_of (h_Type h) in
  ∃ mid pn, ExtendedHeader_Write eh = Ret ([long_first t (eh_PacketNumberLen eh)] ++ mid ++ pn) ∧
    GetLength eh = Ret (zlen ([long_first t (eh_PacketNumberLen eh)] ++ mid ++ pn)) ∧ writePacketNumber eh = Ret pn ∧
    ∀ fb connIDLen r, (0 <? Z.land fb 128) = true → Z.land fb 64 ≠ 0 → Z.shiftr (Z.land fb 48) 4 = t →
      parseHeader connIDLen ([fb] ++ mid ++ r) = Ret ((seen_header h fb (1 + zlen mid), false), r).
Proof.
  intros [Hlong [t [Ht Hretry]] Hv Hd Hs Htok Hno Hlen Hpn] h tb. fold h in Hlong, Ht, Hv, Hd, Hs, Htok, Hno, Hlen.
  destruct (writePacketNumber_Ret eh Hpn) as (pn & Hwpn & Hzpn & _ & _).
  destruct (length_field (h_Length h) Hlen) as (lf & Hwl & Hzl & Hrl).
  destruct (token_part_read h t Ht Htok Hno) as (tk & Hwt & Hlt & Hrt).
  exists (long_mid h tk lf), pn. split; [|split; [|split; [done|]]].
  - unfold ExtendedHeader_Write, writeLongHeader. fold h. fold (token_part h).
    rewrite (proj2 (Z.ltb_ge MaxConnIDLen (zlen (h_DestConnectionID h)))), (proj2 (Z.ltb_ge MaxConnIDLen (zlen (h_SrcConnectionID h)))) by done.
    rewrite Hlong. cbv zeta. rewrite (bool_decide_eq_false_2 (h_Type h = Some PacketTypeRetry)) by congruence.
    rewrite !writes_app, Hwt. unfold WriteByte. cbn [writes mbind outcome_bind]. rewrite Hwl, Hwpn. cbn [mbind outcome_bind].
    rewrite !id_len by done. rewrite (wrap_small 8 (eh_PacketNumberLen eh - 1)) by (unfold uint; lia).
    unfold long_mid. by rewrite ?app_nil_r, <-!app_assoc.
  - unfold GetLength. fold h. rewrite Hlong. rewrite !zlen_app, Hzpn. unfold long_mid. rewrite !zlen_app, Hzl.
    change (zlen (BigEndian_WriteUint32 (h_Version h))) with 4.
    destruct (decide (h_Type h = Some PacketTypeInitial)).
    + rewrite bool_decide_eq_true_2 in Hlt |- * by done. rewrite Hlt. cbn [mbind outcome_bind]. f_equal. unfold zlen in *. cbn [length]. lia.
    + rewrite bool_decide_eq_false_2 in Hlt |- * by done. injection Hlt as Hlt. rewrite Hno in Hlt by done.
      f_equal. unfold zlen in *. cbn [length] in *. lia.
  - intros fb n r Hfb Hfb' Hfbt. unfold parseHeader. rewrite len_bind. unfold parseHeaderImpl.
    assert (packet_type fb = t) as Hpt by (apply packet_type_bits; unfold tb in Hfbt; by rewrite <-Ht).
    erewrite reader_bind_Ret; [|rewrite byte_bind, Hfb; by apply (parseLongHeader_written h t)].
    cbn iota. rewrite len_bind, !zlen_app. replace (zlen [fb] + (zlen (long_mid h tk lf) + zlen r) - zlen r) with (1 + zlen (long_mid h tk lf)); [done|].
    change (zlen [fb]) with 1. lia.
Qed.

(** ** Short headers *)

Record short_header_ok (eh : ExtendedHeader) : Prop := {
  sho_short : eh_Header eh = {| h_IsLongHeader := false; h_typeByte := 0; h_Type := None; h_Version := 0;
                                h_SrcConnectionID := []; h_DestConnectionID := h_DestConnectionID (eh_Header eh);
                                h_Length := 0; h_Token := []; h_parsedLen := 0 |};
  sho_dest : zlen (h_DestConnectionID (eh_Header eh)) <= MaxConnIDLen;
  sho_key_phase : eh_KeyPhase eh ≠ KeyPhaseUndefined;
  sho_pn_len : 1 <= eh_PacketNumberLen eh <= 4;
}.

Definition key_phase_one (eh : ExtendedHeader) : bool := bool_decide (eh_KeyPhase eh = KeyPhaseOne).

Lemma short_header_written eh :
  short_header_ok eh →
  let h := eh_Header eh in
  let fb0 := short_first (key_phase_one eh) (eh_PacketNumberLen eh) in
  ∃ pn, ExtendedHeader_Write eh = Ret ([fb0] ++ h_DestConnectionID h ++ pn) ∧
    GetLength eh = Ret (zlen ([fb0] ++ h_DestConnectionID h ++ pn)) ∧ writePacketNumber eh = Ret pn ∧
    ∀ fb r, (0 <? Z.land fb 128) = false → Z.land fb 64 ≠ 0 →
      parseHeader (zlen (h_DestConnectionID h)) ([fb] ++ h_DestConnectionID h ++ r) =
        Ret ((seen_header h fb (1 + zlen (h_DestConnectionID h)), false), r).
Proof.
  intros [Hh Hd _ Hpn] h fb0. fold h in Hh, Hd. destruct (writePacketNumber_Ret eh Hpn) as (pn & Hwpn & Hzpn & _ & _).
  exists pn. split; [|split; [|split; [done|]]].
  - unfold ExtendedHeader_Write, writeShortHeader. fold h. rewrite (proj2 (Z.ltb_ge _ _)) by done.
    rewrite Hh. cbn [h_SrcConnectionID h_IsLongHeader h_DestConnectionID]. change (MaxConnIDLen <? zlen []) with false. cbn iota.
    rewrite (wrap_small 8 (eh_PacketNumberLen eh - 1)) by (unfold uint; lia).
    unfold WriteByte. cbn [writes mbind outcome_bind]. rewrite Hwpn. cbn [mbind outcome_bind]. by rewrite app_nil_r.
  - unfold GetLength. fold h. rewrite Hh. cbn [h_IsLongHeader h_DestConnectionID]. rewrite !zlen_app, Hzpn.
    change (zlen [fb0]) with 1. f_equal. lia.
  - intros fb r Hfb Hfb'. unfold parseHeader, parseHeaderImpl. rewrite len_bind.
    erewrite reader_bind_Ret; [|rewrite byte_bind, Hfb; cbn [negb]; rewrite (proj2 (Z.eqb_neq _ _)) by done;
      erewrite reader_bind_Ret; [reflexivity|unfold parseShortHeader; erewrite reader_bind_Ret by apply ReadConnectionID_app; reflexivity]].
    cbn iota. rewrite len_bind, !zlen_app. change (zlen [fb]) with 1.
    replace (1 + (zlen (h_DestConnectionID h) + zlen r) - zlen r) with (1 + zlen (h_DestConnectionID h)) by lia.
    assert (h_IsLongHeader h = false ∧ h_Type h = None ∧ h_Version h = 0 ∧ h_SrcConnectionID h = [] ∧ h_Length h = 0 ∧
      h_Token h = []) as (E1 & E2 & E3 & E4 & E5 & E6) by (rewrite Hh; done).
    unfold seen_header. by rewrite E1, E2, E3, E4, E5, E6.
Qed.

(** ** The packet number, once the protection is removed *)

Lemma ParseExtended_written eh h fb mid pn r :
  writePacketNumber eh = Ret pn → 1 <= eh_PacketNumberLen eh <= 4 → Z.land fb 3 + 1 = eh_PacketNumberLen eh →
  h_parsedLen h = 1 + zlen mid →
  ParseExtended h ([fb] ++ mid ++ pn ++ r) =
    Ret (({| eh_Header := h; eh_typeByte := fb;
             eh_KeyPhase := if h_IsLongHeader h then KeyPhaseUndefined
                            else if 0 <? Z.land fb 4 then KeyPhaseOne else KeyPhaseZero;
             eh_PacketNumberLen := eh_PacketNumberLen eh;
             eh_PacketNumber := eh_PacketNumber eh mod 2 ^ (8 * eh_PacketNumberLen eh);
             eh_parsedLen := zlen ([fb] ++ mid ++ pn) |},
           if h_IsLongHeader h then Z.land fb 12 =? 0 else Z.land fb 24 =? 0), r).
Proof.
  intros Hw Hn Hfb Hlen. unfold ParseExtended. rewrite len_bind, byte_bind.
  destruct (writePacketNumber_Ret eh Hn) as (pn' & Hw' & _ & _ & Hr). assert (pn' = pn) as -> by congruence.
  erewrite (reader_bind_Ret (Seek _)); [|unfold Seek; rewrite drop_app_exact; [reflexivity|unfold zlen in Hlen; lia]].
  rewrite Hfb. erewrite reader_bind_Ret by apply Hr. rewrite len_bind.
  replace (zlen ([fb] ++ mid ++ pn ++ r) - zlen r) with (zlen ([fb] ++ mid ++ pn)) by (rewrite !zlen_app; lia).
  done.
Qed.

(** ** Version negotiation *)

Lemma read_versions_written vs r :
  Forall (uint 32) vs → read_versions (length vs) (concat (BigEndian_WriteUint32 <$> vs) ++ r) = Ret (vs, r).
Proof.
  induction 1 as [|v vs Hv Hvs IH]; [done|]. cbn [length read_versions fmap list_fmap concat]. rewrite <-app_assoc.
  erewrite reader_bind_Ret by apply BigEndian_Uint32. erewrite reader_bind_Ret by exact IH. rewrite wrap_small by done. done.
Qed.

Lemma concat_versions_len vs : zlen (concat (BigEndian_WriteUint32 <$> vs)) = 4 * zlen vs.
Proof.
  induction vs as [|v vs IH]; [done|]. cbn [fmap list_fmap concat]. rewrite zlen_app, IH.
  change (zlen (BigEndian_WriteUint32 v)) with 4. unfold zlen. cbn [length]. lia.
Qed.

Lemma first_byte_long b : is_byte b → (0 <? Z.land (Z.lor b 128) 128) = true.
Proof.
  intros Hb. assert (Forall (λ b, (0 <? Z.land (Z.lor b 128) 128) = true) (seqZ 0 256)) as H
    by (apply (bool_decide_unpack _); vm_compute; done).
  rewrite Forall_forall in H. apply H, elem_of_seqZ. unfold uint in Hb. lia.
Qed.

Lemma greased_version rnd : uint 32 rnd → uint 32 (generateReservedVersion rnd).
Proof.
  intros [H0 H]. unfold generateReservedVersion, uint. split; [apply Z.land_nonneg; lia|].
  change 4210752250 with (Z.land 4210752250 (Z.ones 32)). rewrite Z.land_assoc, Z.land_ones by lia.
  by apply Z.mod_pos_bound.
Qed.

Lemma negotiation_header b dest src r :
  is_byte b → zlen dest <= 255 → zlen src <= 255 →
  parseHeader 0 ([Z.lor b 128] ++ BigEndian_WriteUint32 0 ++ [u8 (zlen dest)] ++ dest ++ [u8 (zlen src)] ++ src ++ r) =
    Ret (({| h_IsLongHeader := true; h_typeByte := Z.lor b 128; h_Type := None; h_Version := 0; h_SrcConnectionID := src;
             h_DestConnectionID := dest; h_Length := 0; h_Token := []; h_parsedLen := 7 + zlen dest + zlen src |}, false), r).
Proof.
  intros Hb Hd Hs. unfold parseHeader, parseHeaderImpl. rewrite len_bind.
  erewrite reader_bind_Ret; [|rewrite byte_bind, first_byte_long by done; cbn [negb]; unfold parseLongHeader;
    erewrite reader_bind_Ret by apply BigEndian_Uint32; change (u32 0) with 0; cbn [negb andb Z.eqb];
    rewrite !wrap_small by (unfold uint; pose proof (zlen_nonneg dest); pose proof (zlen_nonneg src); lia);
    erewrite reader_bind_Ret by reflexivity; erewrite reader_bind_Ret by apply ReadConnectionID_app;
    erewrite reader_bind_Ret by reflexivity; erewrite reader_bind_Ret by apply ReadConnectionID_app; reflexivity].
  cbn iota. rewrite len_bind. unfold mret, reader_ret, set_parsedLen. do 4 f_equal. rewrite !zlen_app.
  change (zlen (BigEndian_WriteUint32 0)) with 4. unfold zlen. cbn [length]. lia.
Qed.

(** A Version Negotiation packet is recognised, and its versions and connection
    IDs are read back; every version it was composed with is among them. *)
Theorem version_negotiation rnd_pos rnd rnd_type dest src versions :
  is_byte rnd_pos → uint 32 rnd → is_byte rnd_type → zlen dest <= 255 → zlen src <= 255 → Forall (uint 32) versions →
  let b := ComposeVersionNegotiation rnd_pos rnd rnd_type dest src versions in
  IsVersionNegotiationPacket b = true ∧
  ∃ hdr vs, ParseVersionNegotiationPacket b = Ret ((hdr, vs), []) ∧ h_Version hdr = 0 ∧
    h_DestConnectionID hdr = dest ∧ h_SrcConnectionID hdr = src ∧ versions ⊆ vs ∧ zlen vs = zlen versions + 1.
Proof.
  intros Hp Hr Ht Hd Hs Hv b. set (vs := GetGreasedVersions rnd_pos rnd versions).
  assert (0 <= rnd_pos mod (zlen versions + 1) <= zlen versions) as Hpos.
  { pose proof (zlen_nonneg versions). pose proof (Z.mod_pos_bound rnd_pos (zlen versions + 1)). lia. }
  assert (Forall (uint 32) vs) as Hvs.
  { unfold vs, GetGreasedVersions. rewrite !Forall_app. split_and!; [by apply Forall_take|repeat constructor; by apply greased_version|by apply Forall_drop]. }
  assert (zlen vs = zlen versions + 1) as Hl.
  { unfold vs, GetGreasedVersions. unfold zlen in *. rewrite !length_app, length_take, length_drop. cbn [length]. lia. }
  split. { cbn. by rewrite first_byte_long. }
  do 2 eexists. split; [|split; [|split; [|split; [|split; [|exact Hl]]]]].
  - unfold ParseVersionNegotiationPacket, b, ComposeVersionNegotiation. fold vs.
    erewrite reader_bind_Ret by (by apply negotiation_header). cbn iota. rewrite len_bind, concat_versions_len.
    pose proof (zlen_nonneg versions). rewrite (proj2 (Z.eqb_neq _ _)) by lia.
    rewrite Z.mul_comm, Z.mod_mul, Z.div_mul by lia. cbn [negb Z.eqb]. replace (Z.to_nat (zlen vs)) with (length vs) by (unfold zlen; lia).
    erewrite reader_bind_Ret; [reflexivity|]. rewrite <-(app_nil_r (concat _)). by apply read_versions_written.
  - done.
  - done.
  - done.
  - unfold vs, GetGreasedVersions. rewrite <-(take_drop (Z.to_nat (rnd_pos mod (zlen versions + 1))) versions) at 1.
    intros x. rewrite !elem_of_app. tauto.
Qed.

Lemma version_negotiation_witness :
  let b := ComposeVersionNegotiation 5 305419896 200 [1; 2; 3; 4] [9] SupportedVersions in
  IsVersionNegotiationPacket b = true ∧
  ∃ hdr vs, ParseVersionNegotiationPacket b = Ret ((hdr, vs), []) ∧ h_Version hdr = 0 ∧
    h_DestConnectionID hdr = [1; 2; 3; 4] ∧ h_SrcConnectionID hdr = [9] ∧ SupportedVersions ⊆ vs ∧
    zlen vs = zlen SupportedVersions + 1.
Proof.
  apply (version_negotiation 5 305419896 200); [unfold is_byte, uint; lia..|done|done|].
  unfold SupportedVersions. rewrite !Forall_cons. by repeat split.
Defined.
