(* ===== verification/QuicPacket.v ===== *)
(** * Protecting and unprotecting packets

    [internal/handshake/header_protector.go], [aead.go], [packet_unpacker.go] and
    [appendPacket] of [packet_packer.go].  What the packer and the unpacker need of
    a key is an interface of the code and a class here; the sealers and openers of
    long headers are instances, those of short headers are in [QuicKeys].

    AES and ChaCha20 are parameters: an AEAD is its [Seal] and [Open] functions, of
    which the last eight bytes of the nonce, the packet number, are an argument; a
    header protector has the block encryption or the key stream.  The theorem is
    proved for any sealer and opener that [match]: the opener undoes the sealer.

    Packets are byte slices that are changed in place; where the code writes
    through a slice, the model rebuilds the list. *)

From stdpp Require Import base list numbers strings.
From Stdlib Require Import ZArith Lia.
From S2P Require Import Prelude QuicProtocol QuicFrames QuicFrameCodec QuicAck QuicFrameTheorems QuicHeader.

(** ** Interfaces *)

Class Sealer (S : Type) := {
  Seal : S → list Z → Z → list Z → S * list Z;
  EncryptHeader : S → list Z → Z → list Z → outcome (Z * list Z);
  Overhead : S → Z;
}.

Class HeaderDecryptor (O : Type) := DecryptHeader : O → list Z → Z → list Z → outcome (Z * list Z).

Class LongHeaderOpener (O : Type) := {
  lho_DecryptHeader : HeaderDecryptor O;
  lho_DecodePacketNumber : O → Z → Z → Z;
  lho_Open : O → list Z → Z → list Z → O * outcome (list Z);
}.
#[global] Existing Instance lho_DecryptHeader.

(** [Open] also takes the time the packet was received and its key phase. *)
Class ShortHeaderOpener (O : Type) := {
  sho_DecryptHeader : HeaderDecryptor O;
  sho_DecodePacketNumber : O → Z → Z → Z;
  sho_Open : O → list Z → Z → Z → KeyPhaseBit → list Z → O * outcome (list Z);
}.
#[global] Existing Instance sho_DecryptHeader.

(** ** Header protection *)

Inductive headerProtector :=
| aesHeaderProtector (Encrypt : list Z → list Z) (isLongHeader : bool)
| chachaHeaderProtector (keyStream : list Z → Z → list Z) (isLongHeader : bool).

Definition hp_isLongHeader (p : headerProtector) : bool :=
  match p with aesHeaderProtector _ b | chachaHeaderProtector _ b => b end.

(** [binary.LittleEndian.Uint32]. *)
Definition LittleEndian_Uint32 (b : list Z) : Z := foldr (λ x acc, x + 256 * acc) 0 (take 4 b).

(** The mask of a sample: the block it encrypts to, or the key stream whose nonce
    and counter it gives. *)
Definition hp_mask (p : headerProtector) (sample : list Z) : list Z :=
  match p with
  | aesHeaderProtector Encrypt _ => Encrypt sample
  | chachaHeaderProtector keyStream _ => keyStream (drop 4 sample) (LittleEndian_Uint32 sample)
  end.

(** [hdrBytes[j] ^= mask[j+i]] for all [j]. *)
Fixpoint xor_mask (mask : list Z) (i : Z) (hdrBytes : list Z) : outcome (list Z) :=
  match hdrBytes with
  | [] => Ret []
  | b :: hdrBytes => m ← index mask i; rest ← xor_mask mask (i + 1) hdrBytes; Ret (Z.lxor b m :: rest)
  end.

Definition applyMask (isLongHeader : bool) (mask : list Z) (firstByte : Z) (hdrBytes : list Z) : outcome (Z * list Z) :=
  m ← index mask 0;
  hdrBytes ← xor_mask mask 1 hdrBytes;
  Ret (Z.lxor firstByte (Z.land m (if isLongHeader then 15 else 31)), hdrBytes).

Definition hp_apply (p : headerProtector) (sample : list Z) (firstByte : Z) (hdrBytes : list Z) : outcome (Z * list Z) :=
  if negb (zlen sample =? 16) then Panic "invalid sample size"
  else applyMask (hp_isLongHeader p) (hp_mask p sample) firstByte hdrBytes.

(** ** Keys of long headers *)

Record AEAD := {
  aead_Seal : Z → list Z → list Z → list Z;
  aead_Open : Z → list Z → list Z → option (list Z);
  aead_Overhead : Z;
}.

Record longHeaderSealer := { lhs_aead : AEAD; lhs_headerProtector : headerProtector }.

#[global] Instance longHeaderSealer_Sealer : Sealer longHeaderSealer := {|
  Seal s src pn ad := (s, aead_Seal (lhs_aead s) (u64 pn) src ad);
  EncryptHeader s := hp_apply (lhs_headerProtector s);
  Overhead s := aead_Overhead (lhs_aead s);
|}.

Record longHeaderOpener := { lhop_aead : AEAD; lhop_headerProtector : headerProtector; lhop_highestRcvdPN : Z }.

Definition ErrDecryptionFailed : go_error := GoError "decryption failed".

Definition longHeaderOpener_Open (o : longHeaderOpener) (src : list Z) (pn : Z) (ad : list Z) :
    longHeaderOpener * outcome (list Z) :=
  match aead_Open (lhop_aead o) (u64 pn) src ad with
  | Some dec => ({| lhop_aead := lhop_aead o; lhop_headerProtector := lhop_headerProtector o;
                    lhop_highestRcvdPN := Z.max (lhop_highestRcvdPN o) pn |}, Ret dec)
  | None => (o, Err ErrDecryptionFailed)
  end.

#[global] Instance longHeaderOpener_Opener : LongHeaderOpener longHeaderOpener := {|
  lho_DecryptHeader o := hp_apply (lhop_headerProtector o);
  lho_DecodePacketNumber o wirePN wirePNLen := DecodePacketNumber wirePNLen (lhop_highestRcvdPN o) wirePN;
  lho_Open := longHeaderOpener_Open;
|}.

(** ** Packing *)

Record payload := { p_frames : list Frame; p_ack : option AckFrame; p_length : Z }.

Definition set_Length (eh : ExtendedHeader) (len : Z) : ExtendedHeader :=
  let h := eh_Header eh in
  {| eh_Header := {| h_IsLongHeader := h_IsLongHeader h; h_typeByte := h_typeByte h; h_Type := h_Type h;
                     h_Version := h_Version h; h_SrcConnectionID := h_SrcConnectionID h;
                     h_DestConnectionID := h_DestConnectionID h; h_Length := len; h_Token := h_Token h;
                     h_parsedLen := h_parsedLen h |};
     eh_typeByte := eh_typeByte eh; eh_KeyPhase := eh_KeyPhase eh; eh_PacketNumberLen := eh_PacketNumberLen eh;
     eh_PacketNumber := eh_PacketNumber eh; eh_parsedLen := eh_parsedLen eh |}.

Definition write_payload (p : payload) (paddingLen : Z) : outcome (list Z) :=
  writes ([match p_ack p with Some ack => AckFrame_Write ack | None => Ret [] end;
           Ret (if 0 <? paddingLen then replicate (Z.to_nat paddingLen) 0 else [])] ++ (Frame_Write <$> p_frames p)).

(** Short payloads are padded so that there is enough for the header protection. *)
Definition padding_len (p : payload) (pnLen padding : Z) : Z :=
  (if p_length p <? 4 - pnLen then 4 - pnLen - p_length p else 0) + padding.

(** [buffer] holds the packets that are coalesced with this one; its capacity is
    [MaxPacketBufferSize].  [popped] is the number [PopPacketNumber] returns. *)
Definition appendPacket {S} `{Sealer S} (maxPacketSize popped : Z) (buffer : list Z) (header : ExtendedHeader) (p : payload)
    (padding : Z) (sealer : S) (isMTUProbePacket : bool) : outcome (S * ExtendedHeader * list Z) :=
  let pnLen := eh_PacketNumberLen header in
  let paddingLen := padding_len p pnLen padding in
  let header :=
    if h_IsLongHeader (eh_Header header) then set_Length header (pnLen + Overhead sealer + p_length p + paddingLen)
    else header in
  hdr ← ExtendedHeader_Write header;
  data ← write_payload p paddingLen;
  let hdrOffset := zlen buffer in
  let payloadOffset := hdrOffset + zlen hdr in
  let bufLen := payloadOffset + zlen data in
  if negb (zlen data - paddingLen =? p_length p) then Err (GoError "PacketPacker BUG: payload size inconsistent") else
  if negb isMTUProbePacket && (maxPacketSize <? bufLen + Overhead sealer)
  then Err (GoError "PacketPacker BUG: packet too large") else
  if MaxPacketBufferSize <? bufLen + Overhead sealer then Panic "slice bounds out of range" else
  let '(sealer, sealed) := Seal sealer data (eh_PacketNumber header) hdr in
  let raw := buffer ++ hdr ++ sealed in
  let pnOffset := payloadOffset - pnLen in
  sample ← slice raw (pnOffset + 4) (pnOffset + 4 + 16);
  firstByte ← index raw hdrOffset;
  pnBytes ← slice raw pnOffset payloadOffset;
  '(firstByte, pnBytes) ← EncryptHeader sealer sample firstByte pnBytes;
  let raw := splice (splice raw (Z.to_nat hdrOffset) [firstByte]) (Z.to_nat pnOffset) pnBytes in
  if negb (popped =? eh_PacketNumber header)
  then Err (GoError "packetPacker BUG: Peeked and Popped packet numbers do not match")
  else Ret (sealer, header, raw).

(** ** Unpacking *)

(** The header, whether its reserved bits are valid, and the packet with the header
    unprotected. *)
Definition unpackHeader {O} `{HeaderDecryptor O} (hd : O) (hdr : Header) (data : list Z) :
    outcome (ExtendedHeader * bool * list Z) :=
  let hdrLen := h_parsedLen hdr in
  if zlen data <? hdrLen + 4 + 16 then Err (GoError "Packet too small") else
  origPNBytes ← slice data hdrLen (hdrLen + 4);
  sample ← slice data (hdrLen + 4) (hdrLen + 4 + 16);
  firstByte ← index data 0;
  '(firstByte, pnBytes) ← DecryptHeader hd sample firstByte origPNBytes;
  let data := splice (splice data 0 [firstByte]) (Z.to_nat hdrLen) pnBytes in
  '(res, _) ← ParseExtended hdr data;
  let '(extHdr, reservedBitsValid) := res in
  let data :=
    if negb (eh_PacketNumberLen extHdr =? 4)
    then splice data (Z.to_nat (eh_parsedLen extHdr)) (drop (Z.to_nat (eh_PacketNumberLen extHdr)) origPNBytes)
    else data in
  Ret (extHdr, reservedBitsValid, data).

Definition set_PacketNumber (eh : ExtendedHeader) (pn : Z) : ExtendedHeader :=
  {| eh_Header := eh_Header eh; eh_typeByte := eh_typeByte eh; eh_KeyPhase := eh_KeyPhase eh;
     eh_PacketNumberLen := eh_PacketNumberLen eh; eh_PacketNumber := pn; eh_parsedLen := eh_parsedLen eh |}.

Definition ErrInvalidReservedBits : go_error := GoError "invalid reserved bits".

(** The opener changes even when the reserved bits are invalid in the end. *)
Definition unpackLongHeaderPacket {O} `{LongHeaderOpener O} (opener : O) (hdr : Header) (data : list Z) :
    O * outcome (ExtendedHeader * list Z) :=
  match unpackHeader opener hdr data with
  | Ret (extHdr, valid, data) =>
      let extHdrLen := eh_parsedLen extHdr in
      let pn := lho_DecodePacketNumber opener (eh_PacketNumber extHdr) (eh_PacketNumberLen extHdr) in
      let extHdr := set_PacketNumber extHdr pn in
      let '(opener, res) := lho_Open opener (drop (Z.to_nat extHdrLen) data) pn (take (Z.to_nat extHdrLen) data) in
      (opener, decrypted ← res; if valid : bool then Ret (extHdr, decrypted) else Err ErrInvalidReservedBits)
  | Err e => (opener, Err e)
  | Panic s => (opener, Panic s)
  end.

Definition unpackShortHeaderPacket {O} `{ShortHeaderOpener O} (opener : O) (hdr : Header) (rcvTime : Z) (data : list Z) :
    O * outcome (ExtendedHeader * list Z) :=
  match unpackHeader opener hdr data with
  | Ret (extHdr, valid, data) =>
      let pn := sho_DecodePacketNumber opener (eh_PacketNumber extHdr) (eh_PacketNumberLen extHdr) in
      let extHdr := set_PacketNumber extHdr pn in
      let extHdrLen := eh_parsedLen extHdr in
      let '(opener, res) :=
        sho_Open opener (drop (Z.to_nat extHdrLen) data) rcvTime pn (eh_KeyPhase extHdr) (take (Z.to_nat extHdrLen) data) in
      (opener, decrypted ← res; if valid : bool then Ret (extHdr, decrypted) else Err ErrInvalidReservedBits)
  | Err e => (opener, Err e)
  | Panic s => (opener, Panic s)
  end.

(** Where the keys come from: [Get*Opener] of the crypto setup, an error when the
    keys are not available. *)
Record CryptoSetup (LO SO : Type) := {
  cs_GetInitialOpener : outcome LO;
  cs_GetHandshakeOpener : outcome LO;
  cs_Get0RTTOpener : outcome LO;
  cs_Get1RTTOpener : outcome SO;
}.
Arguments cs_GetInitialOpener {LO SO}.
Arguments cs_GetHandshakeOpener {LO SO}.
Arguments cs_Get0RTTOpener {LO SO}.
Arguments cs_Get1RTTOpener {LO SO}.

Record unpackedPacket := {
  up_packetNumber : Z;
  up_hdr : ExtendedHeader;
  up_encryptionLevel : EncryptionLevel;
  up_data : list Z;
}.

(** The packet, and the setup with the opener that was used. *)
Definition Unpack {LO SO} `{LongHeaderOpener LO} `{ShortHeaderOpener SO} (cs : CryptoSetup LO SO) (hdr : Header) (rcvTime : Z)
    (data : list Z) : CryptoSetup LO SO * outcome unpackedPacket :=
  let unpacked encLevel (res : outcome (ExtendedHeader * list Z)) :=
    '(extHdr, decrypted) ← res;
    Ret {| up_packetNumber := eh_PacketNumber extHdr; up_hdr := extHdr; up_encryptionLevel := encLevel; up_data := decrypted |} in
  let long (get : outcome LO) encLevel (put : LO → CryptoSetup LO SO) :=
    match get with
    | Ret opener => let '(opener, res) := unpackLongHeaderPacket opener hdr data in (put opener, unpacked encLevel res)
    | Err e => (cs, Err e)
    | Panic s => (cs, Panic s)
    end in
  match h_Type hdr with
  | Some PacketTypeInitial =>
      long (cs_GetInitialOpener cs) EncryptionInitial (λ o,
        {| cs_GetInitialOpener := Ret o; cs_GetHandshakeOpener := cs_GetHandshakeOpener cs;
           cs_Get0RTTOpener := cs_Get0RTTOpener cs; cs_Get1RTTOpener := cs_Get1RTTOpener cs |})
  | Some PacketTypeHandshake =>
      long (cs_GetHandshakeOpener cs) EncryptionHandshake (λ o,
        {| cs_GetInitialOpener := cs_GetInitialOpener cs; cs_GetHandshakeOpener := Ret o;
           cs_Get0RTTOpener := cs_Get0RTTOpener cs; cs_Get1RTTOpener := cs_Get1RTTOpener cs |})
  | Some PacketType0RTT =>
      long (cs_Get0RTTOpener cs) Encryption0RTT (λ o,
        {| cs_GetInitialOpener := cs_GetInitialOpener cs; cs_GetHandshakeOpener := cs_GetHandshakeOpener cs;
           cs_Get0RTTOpener := Ret o; cs_Get1RTTOpener := cs_Get1RTTOpener cs |})
  | _ =>
      if h_IsLongHeader hdr then (cs, Err (GoError "unknown packet type")) else
      match cs_Get1RTTOpener cs with
      | Ret opener =>
          let '(opener, res) := unpackShortHeaderPacket opener hdr rcvTime data in
          ({| cs_GetInitialOpener := cs_GetInitialOpener cs; cs_GetHandshakeOpener := cs_GetHandshakeOpener cs;
              cs_Get0RTTOpener := cs_Get0RTTOpener cs; cs_Get1RTTOpener := Ret opener |}, unpacked Encryption1RTT res)
      | Err e => (cs, Err e)
      | Panic s => (cs, Panic s)
      end
  end.

(** ** Masks *)

Lemma xor_mask_Ret mask : ∀ bs i,
  0 <= i → i + zlen bs <= zlen mask → ∃ bs', xor_mask mask i bs = Ret bs' ∧ length bs' = length bs ∧ xor_mask mask i bs' = Ret bs.
Proof.
  induction bs as [|b bs IH]; intros i Hi Hl; [by exists []|].
  assert (zlen (b :: bs) = 1 + zlen bs) as Hz by (unfold zlen; cbn [length]; lia).
  pose proof (zlen_nonneg bs). destruct (zget_is_Some mask i) as [m Hm]; [lia|].
  destruct (IH (i + 1)) as (bs' & Hx & Hlen & Hx'); [lia|lia|].
  exists (Z.lxor b m :: bs'). cbn [xor_mask length]. rewrite (index_Ret _ _ _ Hm). cbn [mbind outcome_bind].
  rewrite Hx, Hx'. cbn [mbind outcome_bind]. rewrite Z.lxor_assoc, Z.lxor_nilpotent, Z.lxor_0_r. by rewrite Hlen.
Qed.

Lemma xor_mask_app mask : ∀ a i b,
  xor_mask mask i (a ++ b) = (x ← xor_mask mask i a; y ← xor_mask mask (i + zlen a) b; Ret (x ++ y)).
Proof.
  induction a as [|x a IH]; intros i b; cbn [app xor_mask].
  - cbn [mbind outcome_bind]. replace (i + zlen []) with i by (unfold zlen; cbn; lia). by destruct (xor_mask mask i b).
  - rewrite IH. replace (i + zlen (x :: a)) with (i + 1 + zlen a) by (unfold zlen; cbn [length]; lia).
    destruct (index mask i); cbn [mbind outcome_bind]; [|done..].
    destruct (xor_mask mask (i + 1) a); cbn [mbind outcome_bind]; [|done..].
    by destruct (xor_mask mask (i + 1 + zlen a) b).
Qed.

Lemma splice_mid {A} (a x b y : list A) n :
  n = length a → length x = length y → splice (a ++ x ++ b) n y = a ++ y ++ b.
Proof.
  intros -> Hl. unfold splice. rewrite take_app_length, <-Hl.
  rewrite drop_app_ge by lia. replace (length a + length x - length a)%nat with (length x) by lia. by rewrite drop_app_length.
Qed.

Lemma slice_mid {A} (a x b : list A) lo hi :
  lo = zlen a → hi = zlen a + zlen x → slice (a ++ x ++ b) lo hi = Ret x.
Proof.
  intros -> ->. unfold slice, zslice. rewrite bool_decide_eq_true_2.
  - rewrite drop_app_exact by (unfold zlen; lia). rewrite take_app_exact by (unfold zlen; lia). done.
  - pose proof (zlen_nonneg a). pose proof (zlen_nonneg x). pose proof (zlen_nonneg b). rewrite !zlen_app. lia.
Qed.

(** The header as [ParseExtended] returns it for a packet that starts with [fb], [mid]
    and [pn]. *)
Definition parsed_extended (eh : ExtendedHeader) (h : Header) (fb : Z) (mid pn : list Z) : ExtendedHeader :=
  {| eh_Header := h; eh_typeByte := fb;
     eh_KeyPhase := if h_IsLongHeader h then KeyPhaseUndefined else if 0 <? Z.land fb 4 then KeyPhaseOne else KeyPhaseZero;
     eh_PacketNumberLen := eh_PacketNumberLen eh;
     eh_PacketNumber := eh_PacketNumber eh mod 2 ^ (8 * eh_PacketNumberLen eh);
     eh_parsedLen := zlen ([fb] ++ mid ++ pn) |}.

(** The bytes after the packet number: up to the sample, the sample and the rest. *)
Lemma sealed_split n (sealed : list Z) :
  1 <= n <= 4 → 20 - n <= zlen sealed →
  ∃ s1 smp s2, sealed = s1 ++ smp ++ s2 ∧ zlen s1 = 4 - n ∧ zlen smp = 16.
Proof.
  intros Hn Hl. exists (take (Z.to_nat (4 - n)) sealed), (take 16 (drop (Z.to_nat (4 - n)) sealed)),
    (drop 16 (drop (Z.to_nat (4 - n)) sealed)).
  rewrite take_drop, take_drop. unfold zlen in *. rewrite !length_take, length_drop. split; [done|]. lia.
Qed.

Section Unprotect.
Context {O : Type} `{HeaderDecryptor O} (o : O) (isLong : bool) (mask : list Z) (m0 : Z).
Context (eh : ExtendedHeader) (h : Header) (fb0 : Z) (mid pn pn1 s1 smp s2 : list Z).

Let fb1 := Z.lxor fb0 (Z.land m0 (if isLong then 15 else 31)).

Hypothesis Hdecrypt : ∀ fb bs, DecryptHeader o smp fb bs = applyMask isLong mask fb bs.
Hypothesis Hmask : 5 <= zlen mask.
Hypothesis Hm0 : index mask 0 = Ret m0.
Hypothesis Hpn : writePacketNumber eh = Ret pn.
Hypothesis Hpn1 : xor_mask mask 1 pn = Ret pn1.
Hypothesis Hn : 1 <= eh_PacketNumberLen eh <= 4.
Hypothesis Hs1 : zlen s1 = 4 - eh_PacketNumberLen eh.
Hypothesis Hsmp : zlen smp = 16.
Hypothesis Hfb : Z.land fb0 3 + 1 = eh_PacketNumberLen eh.
Hypothesis Hlen : h_parsedLen h = 1 + zlen mid.

Lemma pn_len : zlen pn = eh_PacketNumberLen eh.
Proof. destruct (writePacketNumber_Ret eh Hn) as (pn' & Hw & Hz & _). congruence. Qed.

Lemma pn1_unmask : zlen pn1 = eh_PacketNumberLen eh ∧ xor_mask mask 1 pn1 = Ret pn.
Proof.
  pose proof pn_len as Hz. destruct (xor_mask_Ret mask pn 1) as (pn' & Hx & Hl & Hx'); [lia|lia|].
  assert (pn' = pn1) as -> by congruence. unfold zlen in *. split; [lia|done].
Qed.

Lemma unpackHeader_protected :
  unpackHeader o h ([fb1] ++ mid ++ pn1 ++ s1 ++ smp ++ s2) =
    Ret (parsed_extended eh h fb0 mid pn, if h_IsLongHeader h then Z.land fb0 12 =? 0 else Z.land fb0 24 =? 0,
         [fb0] ++ mid ++ pn ++ s1 ++ smp ++ s2).
Proof.
  destruct pn1_unmask as [Hz1 Hx1]. pose proof pn_len as Hz. unfold unpackHeader. rewrite Hlen.
  assert (zlen (pn1 ++ s1) = 4) as H4 by (rewrite zlen_app; lia).
  rewrite (proj2 (Z.ltb_ge _ _)) by (pose proof (zlen_nonneg s2); rewrite !zlen_app, Hsmp; change (zlen [fb1]) with 1; rewrite zlen_app in H4; lia).
  assert (slice ([fb1] ++ mid ++ pn1 ++ s1 ++ smp ++ s2) (1 + zlen mid) (1 + zlen mid + 4) = Ret (pn1 ++ s1)) as ->.
  { replace ([fb1] ++ mid ++ pn1 ++ s1 ++ smp ++ s2) with (([fb1] ++ mid) ++ (pn1 ++ s1) ++ smp ++ s2) by (by rewrite <-!app_assoc).
    apply slice_mid; rewrite ?H4, ?zlen_app; change (zlen [fb1]) with 1; lia. }
  assert (slice ([fb1] ++ mid ++ pn1 ++ s1 ++ smp ++ s2) (1 + zlen mid + 4) (1 + zlen mid + 4 + 16) = Ret smp) as ->.
  { replace ([fb1] ++ mid ++ pn1 ++ s1 ++ smp ++ s2) with (([fb1] ++ mid ++ pn1 ++ s1) ++ smp ++ s2) by (by rewrite <-!app_assoc).
    apply slice_mid; rewrite ?Hsmp, ?zlen_app; rewrite zlen_app in H4; change (zlen [fb1]) with 1; lia. }
  cbn [mbind outcome_bind]. change (index ([fb1] ++ mid ++ pn1 ++ s1 ++ smp ++ s2) 0) with (Ret fb1 : outcome Z).
  cbn [mbind outcome_bind]. rewrite Hdecrypt. unfold applyMask. rewrite Hm0. cbn [mbind outcome_bind].
  destruct (xor_mask_Ret mask s1 (1 + zlen pn1)) as (g & Hg & Hgl & _); [lia|lia|].
  rewrite xor_mask_app, Hx1, Hg. cbn [mbind outcome_bind].
  assert (Z.lxor fb1 (Z.land m0 (if isLong then 15 else 31)) = fb0) as ->
    by (unfold fb1; by rewrite Z.lxor_assoc, Z.lxor_nilpotent, Z.lxor_0_r).
  change (splice ([fb1] ++ mid ++ pn1 ++ s1 ++ smp ++ s2) 0 [fb0]) with ([fb0] ++ mid ++ pn1 ++ s1 ++ smp ++ s2).
  replace ([fb0] ++ mid ++ pn1 ++ s1 ++ smp ++ s2) with (([fb0] ++ mid) ++ (pn1 ++ s1) ++ smp ++ s2) by (by rewrite <-!app_assoc).
  rewrite splice_mid by (unfold zlen in *; rewrite ?length_app in *; cbn [length]; lia).
  replace (([fb0] ++ mid) ++ (pn ++ g) ++ smp ++ s2) with ([fb0] ++ mid ++ pn ++ g ++ smp ++ s2) by (by rewrite <-!app_assoc).
  rewrite (ParseExtended_written eh h fb0 mid pn) by done. cbn [mbind outcome_bind eh_PacketNumberLen eh_parsedLen]. f_equal.
  unfold parsed_extended. f_equal.
  destruct (Z.eqb_spec (eh_PacketNumberLen eh) 4) as [E|E]; cbn [negb].
  - assert (s1 = [] ∧ g = []) as [-> ->] by (unfold zlen in *; split; apply nil_length_inv; lia). done.
  - rewrite drop_app_exact by (unfold zlen in *; lia).
    replace ([fb0] ++ mid ++ pn ++ g ++ smp ++ s2) with (([fb0] ++ mid ++ pn) ++ g ++ smp ++ s2) by (by rewrite <-!app_assoc).
    rewrite splice_mid by (unfold zlen; lia || done). by rewrite <-!app_assoc.
Qed.
End Unprotect.

(** ** A packed packet *)

Section Protect.
Context {S : Type} `{Sealer S} (s : S) (isLong : bool) (mask : list Z) (m0 : Z).
Context (header : ExtendedHeader) (p : payload) (padding maxPacketSize : Z) (buffer : list Z) (isMTUProbePacket : bool).
Context (fb0 : Z) (mid pn pn1 data s1 smp s2 : list Z).

Let n := eh_PacketNumberLen header.
Let final := if h_IsLongHeader (eh_Header header)
             then set_Length header (n + Overhead s + p_length p + padding_len p n padding) else header.
Let hdr := [fb0] ++ mid ++ pn.
Let fb1 := Z.lxor fb0 (Z.land m0 (if isLong then 15 else 31)).

Hypothesis Hhdr : ExtendedHeader_Write final = Ret hdr.
Hypothesis Hdata : write_payload p (padding_len p n padding) = Ret data.
Hypothesis Hlen : zlen data = p_length p + padding_len p n padding.
Hypothesis Hmax : zlen buffer + zlen hdr + zlen data + Overhead s <= Z.min maxPacketSize MaxPacketBufferSize.
Hypothesis Hn : 1 <= n <= 4.
Hypothesis Hpn : zlen pn = n.
Hypothesis Hsealed : (Seal s data (eh_PacketNumber final) hdr).2 = s1 ++ smp ++ s2.
Hypothesis Hs1 : zlen s1 = 4 - n.
Hypothesis Hsmp : zlen smp = 16.
Hypothesis Hencrypt : ∀ fb bs, EncryptHeader (Seal s data (eh_PacketNumber final) hdr).1 smp fb bs = applyMask isLong mask fb bs.
Hypothesis Hm0 : index mask 0 = Ret m0.
Hypothesis Hpn1 : xor_mask mask 1 pn = Ret pn1.
Hypothesis Hpn1l : length pn1 = length pn.

Lemma appendPacket_protected :
  appendPacket maxPacketSize (eh_PacketNumber final) buffer header p padding s isMTUProbePacket =
    Ret ((Seal s data (eh_PacketNumber final) hdr).1, final, buffer ++ [fb1] ++ mid ++ pn1 ++ s1 ++ smp ++ s2).
Proof.
  unfold appendPacket. cbv zeta. fold n. fold final. rewrite Hhdr, Hdata. cbn [mbind outcome_bind].
  rewrite (proj2 (Z.eqb_eq _ _)) by lia. cbn [negb].
  rewrite (proj2 (Z.ltb_ge maxPacketSize _)) by lia. rewrite andb_false_r.
  rewrite (proj2 (Z.ltb_ge MaxPacketBufferSize _)) by lia.
  destruct (Seal s data (eh_PacketNumber final) hdr) as [s' sealed] eqn:Hseal. cbn [fst snd] in *. subst sealed.
  assert (zlen hdr = 1 + zlen mid + n) as Hh by (unfold hdr; rewrite !zlen_app; change (zlen [fb0]) with 1; lia).
  assert (slice (buffer ++ hdr ++ s1 ++ smp ++ s2) (zlen buffer + zlen hdr - n + 4) (zlen buffer + zlen hdr - n + 4 + 16) = Ret smp) as ->.
  { replace (buffer ++ hdr ++ s1 ++ smp ++ s2) with ((buffer ++ hdr ++ s1) ++ smp ++ s2) by (by rewrite <-!app_assoc).
    apply slice_mid; rewrite !zlen_app, ?Hsmp; lia. }
  cbn [mbind outcome_bind].
  assert (index (buffer ++ hdr ++ s1 ++ smp ++ s2) (zlen buffer) = Ret fb0) as ->.
  { apply index_Ret. rewrite zget_app_r, Z.sub_diag by lia. done. }
  cbn [mbind outcome_bind].
  assert (slice (buffer ++ hdr ++ s1 ++ smp ++ s2) (zlen buffer + zlen hdr - n) (zlen buffer + zlen hdr) = Ret pn) as ->.
  { replace (buffer ++ hdr ++ s1 ++ smp ++ s2) with ((buffer ++ [fb0] ++ mid) ++ pn ++ s1 ++ smp ++ s2)
      by (unfold hdr; by rewrite <-!app_assoc).
    apply slice_mid; rewrite !zlen_app; change (zlen [fb0]) with 1; lia. }
  cbn [mbind outcome_bind]. rewrite Hencrypt. unfold applyMask. rewrite Hm0. cbn [mbind outcome_bind]. rewrite Hpn1.
  cbn [mbind outcome_bind]. fold fb1. rewrite Z.eqb_refl. cbn [negb]. do 2 f_equal. unfold hdr.
  rewrite <-!app_assoc, (splice_mid buffer [fb0]) by (unfold zlen; lia || done).
  replace (buffer ++ [fb1] ++ mid ++ pn ++ s1 ++ smp ++ s2) with ((buffer ++ [fb1] ++ mid) ++ pn ++ s1 ++ smp ++ s2)
    by (by rewrite <-!app_assoc).
  rewrite splice_mid; [by rewrite <-!app_assoc| |done].
  unfold hdr in Hh. rewrite Hh. unfold zlen in *. rewrite !length_app. cbn [length]. lia.
Qed.
End Protect.

(** ** Payloads *)

Definition payload_frames (p : payload) : list Frame :=
  match p_ack p with Some ack => [Ack ack] | None => [] end ++ p_frames p.

Record payload_ok (fp : frameParser) (encLevel : EncryptionLevel) (p : payload) : Prop := {
  po_frames : Forall (λ f, frame_ok f ∧ writable f ∧ accepted fp encLevel f) (payload_frames p);
  po_delimited : delimited_all (p_frames p);
  po_length : sums (Frame_Length <$> payload_frames p) = Ret (p_length p);
}.

Lemma parse_frames_padding fuel fp encLevel n bs :
  (0 < fuel)%nat → parse_frames fuel fp encLevel (replicate n 0 ++ bs) = parse_frames fuel fp encLevel bs.
Proof. destruct fuel; [lia|]. intros _. cbn [parse_frames]. by rewrite ParseNext_padding. Qed.

Lemma padding_bytes n : 0 <= n → (if 0 <? n then replicate (Z.to_nat n) 0 else []) = replicate (Z.to_nat n) 0.
Proof. intros Hn. destruct (Z.ltb_spec 0 n); [done|]. by replace n with 0 by lia. Qed.

(** ACK, padding, frames: what is written is what the receiver reads. *)
Lemma payload_written fp encLevel p padLen :
  payload_ok fp encLevel p → 0 <= padLen →
  ∃ data, write_payload p padLen = Ret data ∧ zlen data = p_length p + padLen ∧
    handleUnpackedPacket_frames fp encLevel data =
      Ret (received fp encLevel <$> payload_frames p, HasAckElicitingFrames (payload_frames p)).
Proof.
  intros [Hfs Hd Hlen] Hpad. unfold write_payload, payload_frames in *. rewrite padding_bytes by done.
  apply Forall_app in Hfs as [Hack Hfs].
  destruct (parse_frames_written fp encLevel (p_frames p) Hfs Hd) as (bs & Hbs & Hsum & Hle & Hparse).
  rewrite fmap_app, sums_app, Hsum in Hlen. rewrite writes_app, Hbs.
  destruct (p_ack p) as [ack|].
  - apply Forall_cons in Hack as [(Hok & Hw & Ha) _].
    destruct (frame_codec_ok fp encLevel (Ack ack) Hok Hw (proj2 Ha)) as (t & b & Hwr & Ht & Hl & Hp).
    cbn [fmap list_fmap sums] in Hlen. rewrite Hl in Hlen. cbn [mbind outcome_bind] in Hlen. injection Hlen as <-.
    cbn [Frame_Write] in Hwr. rewrite Hwr. cbn [writes mbind outcome_bind]. eexists. split; [reflexivity|].
    rewrite app_nil_r, <-!app_assoc. split; [rewrite !zlen_app; unfold zlen; rewrite length_replicate; lia|].
    unfold handleUnpackedPacket_frames. cbn [parse_frames].
    rewrite (ParseNext_frame fp encLevel (Ack ack) t b _ Hwr Ht (proj1 Ha) (Hp _ I)). cbn [mbind outcome_bind].
    rewrite parse_frames_padding, Hparse by (rewrite !length_app; cbn [length]; lia). done.
  - cbn [fmap list_fmap sums mbind outcome_bind] in Hlen. injection Hlen as <-.
    cbn [writes mbind outcome_bind]. eexists. split; [reflexivity|]. rewrite app_nil_r, app_nil_l.
    split; [rewrite !zlen_app; unfold zlen; rewrite length_replicate; lia|].
    unfold handleUnpackedPacket_frames. rewrite parse_frames_padding, Hparse by (rewrite ?length_app; lia). done.
Qed.

Lemma padding_len_nonneg p n padding :
  0 <= padding → 1 <= n <= 4 →
  0 <= padding_len p n padding ∧ 4 - n <= p_length p + padding_len p n padding.
Proof. intros Hp Hn. unfold padding_len. dcase; lia. Qed.

(** ** Sealers and openers that match *)

Record mask_matching {S O} `{Sealer S} `{HeaderDecryptor O} (s : S) (o : O) (isLong : bool) (pn : Z) : Prop := {
  mm_mask : ∃ mask : list Z → list Z, ∀ smp, zlen smp = 16 →
    5 <= zlen (mask smp) ∧ bytes_ok (mask smp) ∧
    (∀ data ad fb bs, EncryptHeader (Seal s data pn ad).1 smp fb bs = applyMask isLong (mask smp) fb bs) ∧
    (∀ fb bs, DecryptHeader o smp fb bs = applyMask isLong (mask smp) fb bs);
  mm_len : ∀ data ad, zlen (Seal s data pn ad).2 = zlen data + Overhead s;
  mm_overhead : 16 <= Overhead s;
}.

(** The header as it is written: a long header has the packet's length. *)
Definition final_header {S} `{Sealer S} (s : S) (header : ExtendedHeader) (p : payload) (padding : Z) : ExtendedHeader :=
  let n := eh_PacketNumberLen header in
  if h_IsLongHeader (eh_Header header)
  then set_Length header (n + Overhead s + p_length p + padding_len p n padding) else header.

(** The packet [appendPacket] makes, and what [unpackHeader] makes of it. *)
Lemma packet_protected {S O} `{Sealer S} `{HeaderDecryptor O} (s : S) (o : O) isLong header p padding maxPacketSize buffer
    isMTUProbePacket fb0 mid pn data :
  let n := eh_PacketNumberLen header in
  let final := final_header s header p padding in
  mask_matching s o isLong (eh_PacketNumber header) → 1 <= n <= 4 → 0 <= padding →
  ExtendedHeader_Write final = Ret ([fb0] ++ mid ++ pn) → writePacketNumber header = Ret pn →
  write_payload p (padding_len p n padding) = Ret data → zlen data = p_length p + padding_len p n padding →
  zlen buffer + zlen ([fb0] ++ mid ++ pn) + zlen data + Overhead s <= Z.min maxPacketSize MaxPacketBufferSize →
  Z.land fb0 3 + 1 = n →
  ∃ m0 pn1, is_byte m0 ∧ zlen pn1 = n ∧
    let sealed := (Seal s data (eh_PacketNumber header) ([fb0] ++ mid ++ pn)).2 in
    let fb1 := Z.lxor fb0 (Z.land m0 (if isLong then 15 else 31)) in
    appendPacket maxPacketSize (eh_PacketNumber header) buffer header p padding s isMTUProbePacket =
      Ret ((Seal s data (eh_PacketNumber header) ([fb0] ++ mid ++ pn)).1, final, buffer ++ [fb1] ++ mid ++ pn1 ++ sealed) ∧
    ∀ h, h_parsedLen h = 1 + zlen mid →
      unpackHeader o h ([fb1] ++ mid ++ pn1 ++ sealed) =
        Ret (parsed_extended header h fb0 mid pn, if h_IsLongHeader h then Z.land fb0 12 =? 0 else Z.land fb0 24 =? 0,
             [fb0] ++ mid ++ pn ++ sealed).
Proof.
  intros n final [(mask & Hmask) Hlen Hover] Hn Hpad Hhdr Hpn Hdata Hdl Hmax Hfb.
  destruct (padding_len_nonneg p n padding Hpad Hn) as [_ Hmin].
  assert (eh_PacketNumber final = eh_PacketNumber header) as Hfpn.
  { unfold final, final_header. by destruct (h_IsLongHeader _). }
  destruct (sealed_split n (Seal s data (eh_PacketNumber header) ([fb0] ++ mid ++ pn)).2) as (s1 & smp & s2 & Hs & Hs1 & Hsmp);
    [done|rewrite Hlen; lia|].
  destruct (Hmask smp Hsmp) as (Hm5 & Hmb & Henc & Hdec).
  destruct (zget_is_Some (mask smp) 0) as [m0 Hm0]; [lia|]. apply index_Ret in Hm0 as Hm0'.
  assert (zlen pn = n) as Hpl by (unfold n; destruct (writePacketNumber_Ret header Hn) as (? & ? & ? & _); congruence).
  destruct (xor_mask_Ret (mask smp) pn 1) as (pn1 & Hx & Hxl & Hx'); [lia|lia|].
  exists m0, pn1. split. { apply zget_Some in Hm0 as [_ Hm0]. rewrite Forall_forall in Hmb. by eapply Hmb, list_elem_of_lookup_2. }
  split; [unfold zlen in *; lia|]. cbv zeta. rewrite Hs. split.
  - rewrite <-Hfpn. rewrite <-Hfpn in Hs, Henc.
    eapply (appendPacket_protected s isLong (mask smp) m0); try done.
  - intros h Hh. by apply (unpackHeader_protected o isLong (mask smp) m0 header h fb0 mid pn pn1 s1 smp s2).
Qed.

Lemma set_Length_ok eh len : long_header_ok eh → 0 <= len <= maxVarInt2 → long_header_ok (set_Length eh len).
Proof. intros [] Hlen. by split. Qed.

Lemma ParsePacket_long pkt rest connIDLen h r :
  parseHeader connIDLen (pkt ++ rest) = Ret ((h, false), r) → h_IsLongHeader h = true →
  h_parsedLen h + h_Length h = zlen pkt → ParsePacket (pkt ++ rest) connIDLen = Ret (Parsed h pkt rest).
Proof.
  intros Hp Hl Hlen. unfold ParsePacket. rewrite Hp. cbn [mbind outcome_bind]. rewrite Hl, Hlen.
  pose proof (zlen_nonneg pkt). pose proof (zlen_nonneg rest). rewrite (proj2 (Z.ltb_ge _ _)) by (rewrite zlen_app; lia).
  assert (slice (pkt ++ rest) (zlen pkt) (zlen (pkt ++ rest)) = Ret rest) as ->.
  { rewrite <-(app_nil_r (pkt ++ rest)), <-app_assoc. apply slice_mid; [done|]. rewrite app_nil_r, zlen_app. lia. }
  cbn [mbind outcome_bind]. assert (slice (pkt ++ rest) 0 (zlen pkt) = Ret pkt) as -> by (by apply (slice_mid [] pkt rest)).
  done.
Qed.

Lemma split_header {A} (a b c d : list A) :
  drop (Z.to_nat (zlen (a ++ b ++ c))) (a ++ b ++ c ++ d) = d ∧ take (Z.to_nat (zlen (a ++ b ++ c))) (a ++ b ++ c ++ d) = a ++ b ++ c.
Proof.
  replace (a ++ b ++ c ++ d) with ((a ++ b ++ c) ++ d) by (by rewrite <-!app_assoc).
  split; [apply drop_app_exact|apply take_app_exact]; unfold zlen; lia.
Qed.

(** C29. A packet with a long header: what was packed is unpacked.  The packet starts
    after those it is coalesced with and ends where its length says, so that the
    packets after it are left for the next round; the header, the packet number and
    the frames are those of the sender. *)
Theorem long_packet_roundtrip {S O} `{Sealer S} `{LongHeaderOpener O} (s : S) (o : O) fp encLevel header p padding
    maxPacketSize buffer isMTUProbePacket headerLen :
  let n := eh_PacketNumberLen header in
  let pn := eh_PacketNumber header in
  long_header_ok header → payload_ok fp encLevel p → 0 <= padding → GetLength header = Ret headerLen →
  zlen buffer + headerLen + p_length p + padding_len p n padding + Overhead s <= Z.min maxPacketSize MaxPacketBufferSize →
  mask_matching s o true pn →
  (∀ data ad, ∃ o', lho_Open o (Seal s data pn ad).2 pn ad = (o', Ret data)) →
  lho_DecodePacketNumber o (pn mod 2 ^ (8 * n)) n = pn →
  ∃ s' header' pkt,
    appendPacket maxPacketSize pn buffer header p padding s isMTUProbePacket = Ret (s', header', buffer ++ pkt) ∧
    ∀ rest connIDLen, ∃ h o' eh data,
      ParsePacket (pkt ++ rest) connIDLen = Ret (Parsed h pkt rest) ∧
      h_Type h = h_Type (eh_Header header) ∧ h_DestConnectionID h = h_DestConnectionID (eh_Header header) ∧
      h_SrcConnectionID h = h_SrcConnectionID (eh_Header header) ∧ h_Token h = h_Token (eh_Header header) ∧
      unpackLongHeaderPacket o h pkt = (o', Ret (eh, data)) ∧ eh_PacketNumber eh = pn ∧
      handleUnpackedPacket_frames fp encLevel data =
        Ret (received fp encLevel <$> payload_frames p, HasAckElicitingFrames (payload_frames p)).
Proof.
  intros n pn Hok Hpay Hpad Hgl Hmax Hmm Hopen Hdec. pose proof (lho_pn_len _ Hok) as Hn. pose proof (lho_long _ Hok) as Hlong.
  destruct (padding_len_nonneg p n padding Hpad Hn) as [Hpl _].
  destruct (payload_written fp encLevel p (padding_len p n padding) Hpay Hpl) as (data & Hdata & Hdl & Hframes).
  set (len := n + Overhead s + p_length p + padding_len p n padding).
  assert (final_header s header p padding = set_Length header len) as Hfinal by (unfold final_header; by rewrite Hlong).
  pose proof (mm_overhead _ _ _ _ Hmm). pose proof (zlen_nonneg data). pose proof (zlen_nonneg buffer).
  assert (0 <= headerLen) as Hgl0.
  { destruct (long_header_written _ Hok) as (? & ? & _ & Hgl' & _). rewrite Hgl in Hgl'. injection Hgl' as ->. apply zlen_nonneg. }
  assert (0 <= len <= maxVarInt2) as Hlen by (unfold len, maxVarInt2, MaxPacketBufferSize in *; lia).
  destruct (long_header_written _ (set_Length_ok _ len Hok Hlen)) as (mid & pnb & Hwr & Hgl' & Hwpn & Hparse).
  cbn [eh_Header eh_PacketNumberLen set_Length h_Type] in Hwr, Hgl', Hparse.
  set (t := type_bits_of (h_Type (eh_Header header))) in *. set (fb0 := long_first t (eh_PacketNumberLen header)) in *.
  assert (0 <= t < 4) as Ht by (unfold t; destruct (h_Type _) as [[]|]; cbn; lia).
  change (GetLength (set_Length header len)) with (GetLength header) in Hgl'. rewrite Hgl in Hgl'.
  assert (headerLen = zlen ([fb0] ++ mid ++ pnb)) as Hhl by congruence.
  destruct (long_first_bits t n Ht Hn) as [Hfb3 Hfb12].
  destruct (packet_protected s o true header p padding maxPacketSize buffer isMTUProbePacket fb0 mid pnb data)
    as (m0 & pn1 & Hm0 & Hpn1 & Happend & Hunpack); try done; [by rewrite Hfinal|lia|].
  set (sealed := (Seal s data (eh_PacketNumber header) ([fb0] ++ mid ++ pnb)).2) in *. cbn iota in Happend, Hunpack.
  set (fb1 := Z.lxor fb0 (Z.land m0 15)) in *.
  destruct (long_first_masked t n m0 Ht Hn Hm0) as (Hb128 & Hb64 & Hbt & _).
  do 3 eexists. split; [exact Happend|]. intros rest connIDLen.
  specialize (Hparse fb1 connIDLen (pn1 ++ sealed ++ rest) Hb128 Hb64 Hbt).
  set (h := seen_header _ fb1 (1 + zlen mid)) in Hparse. specialize (Hunpack h eq_refl).
  destruct (Hopen data ([fb0] ++ mid ++ pnb)) as [o' Ho].
  exists h, o'. do 2 eexists. split; [|split; [done|split; [done|split; [done|split; [done|split; [|split; [|exact Hframes]]]]]]].
  - apply (ParsePacket_long _ _ _ _ (pn1 ++ sealed ++ rest)).
    + rewrite <-!app_assoc. exact Hparse.
    + done.
    + change (1 + zlen mid + len = zlen ([fb1] ++ mid ++ pn1 ++ sealed)). rewrite !zlen_app. unfold sealed.
      rewrite (mm_len _ _ _ _ Hmm), Hdl, Hpn1. change (zlen [fb1]) with 1. unfold len. lia.
  - unfold unpackLongHeaderPacket. rewrite Hunpack. cbn [parsed_extended eh_parsedLen eh_PacketNumber eh_PacketNumberLen].
    fold n. fold pn. rewrite Hdec. destruct (split_header [fb0] mid pnb sealed) as [-> ->].
    rewrite (Ho : lho_Open o sealed pn ([fb0] ++ mid ++ pnb) = (o', Ret data)). cbn [mbind outcome_bind].
    change (h_IsLongHeader h) with (h_IsLongHeader (eh_Header header)). rewrite Hlong, (Hfb12 : Z.land fb0 12 = 0). reflexivity.
  - done.
Qed.

(** C30. A packet with a short header, which takes the rest of the datagram: the same,
    with the key phase. *)
Theorem short_packet_roundtrip {S O} `{Sealer S} `{ShortHeaderOpener O} (s : S) (o : O) fp header p padding
    maxPacketSize buffer isMTUProbePacket headerLen rcvTime :
  let n := eh_PacketNumberLen header in
  let pn := eh_PacketNumber header in
  short_header_ok header → payload_ok fp Encryption1RTT p → 0 <= padding → GetLength header = Ret headerLen →
  zlen buffer + headerLen + p_length p + padding_len p n padding + Overhead s <= Z.min maxPacketSize MaxPacketBufferSize →
  mask_matching s o false pn →
  (∀ data ad, ∃ o', sho_Open o (Seal s data pn ad).2 rcvTime pn (eh_KeyPhase header) ad = (o', Ret data)) →
  sho_DecodePacketNumber o (pn mod 2 ^ (8 * n)) n = pn →
  ∃ s' header' pkt,
    appendPacket maxPacketSize pn buffer header p padding s isMTUProbePacket = Ret (s', header', buffer ++ pkt) ∧
    ∃ h o' eh data,
      ParsePacket pkt (zlen (h_DestConnectionID (eh_Header header))) = Ret (Parsed h pkt []) ∧
      h_Type h = None ∧ h_DestConnectionID h = h_DestConnectionID (eh_Header header) ∧
      unpackShortHeaderPacket o h rcvTime pkt = (o', Ret (eh, data)) ∧
      eh_PacketNumber eh = pn ∧ eh_KeyPhase eh = eh_KeyPhase header ∧
      handleUnpackedPacket_frames fp Encryption1RTT data =
        Ret (received fp Encryption1RTT <$> payload_frames p, HasAckElicitingFrames (payload_frames p)).
Proof.
  intros n pn Hok Hpay Hpad Hgl Hmax Hmm Hopen Hdec. pose proof (sho_pn_len _ Hok) as Hn.
  assert (h_IsLongHeader (eh_Header header) = false ∧ h_Type (eh_Header header) = None) as [Hshort Htype]
    by (by rewrite (sho_short _ Hok)).
  destruct (padding_len_nonneg p n padding Hpad Hn) as [Hpl _].
  destruct (payload_written fp Encryption1RTT p (padding_len p n padding) Hpay Hpl) as (data & Hdata & Hdl & Hframes).
  assert (final_header s header p padding = header) as Hfinal by (unfold final_header; by rewrite Hshort).
  destruct (short_header_written _ Hok) as (pnb & Hwr & Hgl' & Hwpn & Hparse).
  set (fb0 := short_first (key_phase_one header) (eh_PacketNumberLen header)) in *. set (dest := h_DestConnectionID (eh_Header header)) in *.
  rewrite Hgl in Hgl'. assert (headerLen = zlen ([fb0] ++ dest ++ pnb)) as Hhl by congruence.
  destruct (short_first_bits (key_phase_one header) n Hn) as (Hfb3 & Hfb4 & Hfb24).
  destruct (packet_protected s o false header p padding maxPacketSize buffer isMTUProbePacket fb0 dest pnb data)
    as (m0 & pn1 & Hm0 & Hpn1 & Happend & Hunpack); try done; [by rewrite Hfinal|lia|].
  set (sealed := (Seal s data (eh_PacketNumber header) ([fb0] ++ dest ++ pnb)).2) in *. cbn iota in Happend, Hunpack.
  set (fb1 := Z.lxor fb0 (Z.land m0 31)) in *.
  destruct (short_first_masked (key_phase_one header) n m0 Hn Hm0) as (Hb128 & Hb64 & _).
  do 3 eexists. split; [exact Happend|]. specialize (Hparse fb1 (pn1 ++ sealed) Hb128 Hb64).
  set (h := seen_header _ fb1 (1 + zlen dest)) in Hparse. specialize (Hunpack h eq_refl).
  assert (h_IsLongHeader h = false) as Hhs by done. rewrite Hhs in Hunpack.
  assert ((if 0 <? Z.land fb0 4 then KeyPhaseOne else KeyPhaseZero) = eh_KeyPhase header) as Hkp.
  { rewrite (Hfb4 : (0 <? Z.land fb0 4) = _). pose proof (sho_key_phase _ Hok). unfold key_phase_one. by destruct (eh_KeyPhase header). }
  destruct (Hopen data ([fb0] ++ dest ++ pnb)) as [o' Ho].
  exists h, o'. do 2 eexists. split; [|split; [done|split; [done|split; [|split; [|split; [|exact Hframes]]]]]].
  - unfold ParsePacket. rewrite Hparse. cbn [mbind outcome_bind]. by rewrite Hhs.
  - unfold unpackShortHeaderPacket. rewrite Hunpack. unfold set_PacketNumber.
    cbn [parsed_extended eh_parsedLen eh_PacketNumber eh_PacketNumberLen eh_KeyPhase].
    fold n. fold pn. rewrite Hdec, Hhs, Hkp. destruct (split_header [fb0] dest pnb sealed) as [-> ->].
    rewrite (Ho : sho_Open o sealed rcvTime pn (eh_KeyPhase header) ([fb0] ++ dest ++ pnb) = (o', Ret data)). cbn [mbind outcome_bind].
    rewrite (Hfb24 : Z.land fb0 24 = 0). reflexivity.
  - done.
  - done.
Qed.

(** ** Witnesses

    A cipher for examples: the tag is the length of the secret and 15 zeros. *)

Definition example_AEAD (secret : list Z) : AEAD := {|
  aead_Seal n src ad := [zlen secret] ++ src ++ replicate 15 0;
  aead_Open n c ad :=
    match c with
    | t :: c => if t =? zlen secret then Some (take (length c - 15) c) else None
    | [] => None
    end;
  aead_Overhead := 16;
|}.

Definition example_protector (isLong : bool) : headerProtector := aesHeaderProtector (λ _, replicate 16 90) isLong.

Lemma example_opens secret n src ad : aead_Open (example_AEAD secret) n (aead_Seal (example_AEAD secret) n src ad) ad = Some src.
Proof.
  cbn [example_AEAD aead_Open aead_Seal app]. rewrite Z.eqb_refl, length_app, length_replicate. f_equal. apply take_app_exact. lia.
Qed.

Lemma example_len secret n src ad : zlen (aead_Seal (example_AEAD secret) n src ad) = zlen src + 16.
Proof. cbn [example_AEAD aead_Seal app]. unfold zlen. cbn [length]. rewrite length_app, length_replicate. lia. Qed.

Definition example_payload : payload := {| p_frames := example_frames; p_ack := None; p_length := 13 |}.

Lemma example_payload_ok fp encLevel :
  encLevel = Encryption0RTT ∨ encLevel = Encryption1RTT → payload_ok fp encLevel example_payload.
Proof. intros H. split; [by apply example_frames_ok|by split|done]. Qed.

Definition example_header (isLong : bool) : ExtendedHeader := {|
  eh_Header := {| h_IsLongHeader := isLong; h_typeByte := 0; h_Type := if isLong then Some PacketType0RTT else None;
                  h_Version := if isLong then Version1 else 0; h_SrcConnectionID := if isLong then [9] else [];
                  h_DestConnectionID := [1; 2; 3; 4]; h_Length := 0; h_Token := []; h_parsedLen := 0 |};
  eh_typeByte := 0; eh_KeyPhase := if isLong then KeyPhaseUndefined else KeyPhaseZero; eh_PacketNumberLen := 2;
  eh_PacketNumber := 70000; eh_parsedLen := 0 |}.

Lemma long_packet_roundtrip_witness :
  let s := {| lhs_aead := example_AEAD [5]; lhs_headerProtector := example_protector true |} in
  let o := {| lhop_aead := example_AEAD [5]; lhop_headerProtector := example_protector true; lhop_highestRcvdPN := 69990 |} in
  let fp := {| fp_ackDelayExponent := 3; fp_supportsDatagrams := false |} in
  ∃ s' header' pkt, appendPacket 1252 70000 [] (example_header true) example_payload 0 s false = Ret (s', header', pkt) ∧
    ∃ h o' eh data, ParsePacket (pkt ++ [1; 2]) 4 = Ret (Parsed h pkt [1; 2]) ∧
      unpackLongHeaderPacket o h pkt = (o', Ret (eh, data)) ∧ eh_PacketNumber eh = 70000 ∧
      handleUnpackedPacket_frames fp Encryption0RTT data = Ret (example_frames, true).
Proof.
  intros s o fp.
  destruct (long_packet_roundtrip s o fp Encryption0RTT (example_header true) example_payload 0 1252 [] false 16)
    as (s' & h' & pkt & Hpack & Hun).
  - split; try done; [by exists PacketType0RTT|]. cbn. apply list_elem_of_In. vm_compute. tauto.
  - apply example_payload_ok. by left.
  - done.
  - reflexivity.
  - vm_compute. discriminate.
  - split.
    + exists (λ _, replicate 16 90). intros smp Hs. split; [done|]. split; [repeat constructor; cbn; lia|].
      cbn [Seal EncryptHeader longHeaderSealer_Sealer fst DecryptHeader lho_DecryptHeader longHeaderOpener_Opener].
      unfold hp_apply. by rewrite Hs.
    + intros. apply (example_len [5]).
    + done.
  - intros data ad. eexists. cbn [lho_Open longHeaderOpener_Opener Seal longHeaderSealer_Sealer snd].
    unfold longHeaderOpener_Open. cbn [lhop_aead lhs_aead s o]. rewrite example_opens. reflexivity.
  - reflexivity.
  - exists s', h', pkt. split; [exact Hpack|].
    destruct (Hun [1; 2] 4) as (h & o' & eh & data & H1 & _ & _ & _ & _ & H2 & H3 & H4). by exists h, o', eh, data.
Defined.

Record example_opener := { eo_aead : AEAD }.

#[global] Instance example_opener_Opener : ShortHeaderOpener example_opener := {|
  sho_DecryptHeader o := hp_apply (example_protector false);
  sho_DecodePacketNumber o wirePN wirePNLen := DecodePacketNumber wirePNLen 69990 wirePN;
  sho_Open o src t pn kp ad := (o, match aead_Open (eo_aead o) (u64 pn) src ad with Some dec => Ret dec | None => Err ErrDecryptionFailed end);
|}.

Lemma short_packet_roundtrip_witness :
  let s := {| lhs_aead := example_AEAD [5]; lhs_headerProtector := example_protector false |} in
  let o := {| eo_aead := example_AEAD [5] |} in
  let fp := {| fp_ackDelayExponent := 3; fp_supportsDatagrams := false |} in
  ∃ s' header' pkt, appendPacket 1252 70000 [] (example_header false) example_payload 0 s false = Ret (s', header', pkt) ∧
    ∃ h o' eh data, ParsePacket pkt 4 = Ret (Parsed h pkt []) ∧
      unpackShortHeaderPacket o h 0 pkt = (o', Ret (eh, data)) ∧ eh_PacketNumber eh = 70000 ∧
      handleUnpackedPacket_frames fp Encryption1RTT data = Ret (example_frames, true).
Proof.
  intros s o fp.
  destruct (short_packet_roundtrip s o fp (example_header false) example_payload 0 1252 [] false 7 0)
    as (s' & h' & pkt & Hpack & h & o' & eh & data & H1 & _ & _ & H2 & H3 & _ & H4).
  - by split.
  - apply example_payload_ok. by right.
  - done.
  - reflexivity.
  - vm_compute. discriminate.
  - split.
    + exists (λ _, replicate 16 90). intros smp Hs. split; [done|]. split; [repeat constructor; cbn; lia|].
      cbn [Seal EncryptHeader longHeaderSealer_Sealer fst DecryptHeader sho_DecryptHeader example_opener_Opener].
      unfold hp_apply. by rewrite Hs.
    + intros. apply (example_len [5]).
    + done.
  - intros data ad. eexists. cbn [sho_Open example_opener_Opener Seal longHeaderSealer_Sealer snd].
    cbn [eo_aead lhs_aead s o]. rewrite example_opens. reflexivity.
  - reflexivity.
  - exists s', h', pkt. split; [exact Hpack|]. by exists h, o', eh, data.
Defined.
