(* ===== verification/QuicKeys.v ===== *)
(** * Key updates ([internal/handshake/updatable_aead.go])

    The keys of 1-RTT packets.  Both sides derive key after key from their traffic
    secrets; a bit of the header tells in which phase a packet was sealed.  A side
    moves to the next phase on its own once the peer has acknowledged a packet of
    the current one, and follows a peer that has moved.

    The cipher suite is a parameter: [createAEAD] and [newHeaderProtector] make keys
    from a secret, [next_secret] is the derivation of the next secret.  Times are
    nanoseconds and 0 is the zero time.  Counters of packets do not overflow, since
    packet numbers are below [2 ^ 62].  Logging and tracing are left out. *)

From stdpp Require Import base list numbers strings.
From Stdlib Require Import ZArith Lia.
From S2P Require Import Prelude QuicProtocol QuicFrames QuicHeader QuicPacket.

Definition KeyUpdateInterval : Z := 100 * 1000.
Definition InvalidPacketLimitAES : Z := 2 ^ 52.
Definition InvalidPacketLimitChaCha : Z := 2 ^ 36.

Definition KeyPhase_Bit (p : Z) : KeyPhaseBit := if p mod 2 =? 0 then KeyPhaseZero else KeyPhaseOne.

Record updatableAEAD := mk_updatableAEAD {
  ua_keyPhase : Z;
  ua_largestAcked : Z;
  ua_firstPacketNumber : Z;
  ua_handshakeConfirmed : bool;
  ua_keyUpdateInterval : Z;
  ua_invalidPacketLimit : Z;
  ua_invalidPacketCount : Z;
  ua_prevRcvAEADExpiry : Z;
  ua_prevRcvAEAD : option AEAD;
  ua_firstRcvdWithCurrentKey : Z;
  ua_firstSentWithCurrentKey : Z;
  ua_highestRcvdPN : Z;
  ua_numRcvdWithCurrentKey : Z;
  ua_numSentWithCurrentKey : Z;
  ua_rcvAEAD : AEAD;
  ua_sendAEAD : AEAD;
  ua_aeadOverhead : Z;
  ua_nextRcvAEAD : AEAD;
  ua_nextSendAEAD : AEAD;
  ua_nextRcvTrafficSecret : list Z;
  ua_nextSendTrafficSecret : list Z;
  ua_headerDecrypter : headerProtector;
  ua_headerEncrypter : headerProtector;
}.

#[global] Instance updatableAEAD_fields : Fields updatableAEAD := λ a,
  mk_updatableAEAD (ua_keyPhase a) (ua_largestAcked a) (ua_firstPacketNumber a) (ua_handshakeConfirmed a)
    (ua_keyUpdateInterval a) (ua_invalidPacketLimit a) (ua_invalidPacketCount a) (ua_prevRcvAEADExpiry a)
    (ua_prevRcvAEAD a) (ua_firstRcvdWithCurrentKey a) (ua_firstSentWithCurrentKey a) (ua_highestRcvdPN a)
    (ua_numRcvdWithCurrentKey a) (ua_numSentWithCurrentKey a) (ua_rcvAEAD a) (ua_sendAEAD a) (ua_aeadOverhead a) (ua_nextRcvAEAD a)
    (ua_nextSendAEAD a) (ua_nextRcvTrafficSecret a) (ua_nextSendTrafficSecret a) (ua_headerDecrypter a) (ua_headerEncrypter a).

Definition ErrKeysDropped : go_error := GoError "CryptoSetup: keys were already dropped".
Definition KeyUpdateError : go_error := GoError "keys updated too quickly".
Definition AEADLimitReached : go_error := GoError "AEAD limit reached".

(** ** Operations *)

Section Operations.
Context (createAEAD : list Z → AEAD) (getNextTrafficSecret : list Z → list Z) (newHeaderProtector : list Z → bool → headerProtector).
Context (invalidPacketLimit : Z).

(** [newUpdatableAEAD], then [SetReadKey] and [SetWriteKey], the order of the client. *)
Definition newUpdatableAEAD (rcvTrafficSecret sendTrafficSecret : list Z) : updatableAEAD := {|
  ua_keyPhase := 0;
  ua_largestAcked := InvalidPacketNumber;
  ua_firstPacketNumber := InvalidPacketNumber;
  ua_handshakeConfirmed := false;
  ua_keyUpdateInterval := KeyUpdateInterval;
  ua_invalidPacketLimit := invalidPacketLimit;
  ua_invalidPacketCount := 0;
  ua_prevRcvAEADExpiry := 0;
  ua_prevRcvAEAD := None;
  ua_firstRcvdWithCurrentKey := InvalidPacketNumber;
  ua_firstSentWithCurrentKey := InvalidPacketNumber;
  ua_highestRcvdPN := 0;
  ua_numRcvdWithCurrentKey := 0;
  ua_numSentWithCurrentKey := 0;
  ua_rcvAEAD := createAEAD rcvTrafficSecret;
  ua_sendAEAD := createAEAD sendTrafficSecret;
  ua_aeadOverhead := aead_Overhead (createAEAD rcvTrafficSecret);
  ua_nextRcvAEAD := createAEAD (getNextTrafficSecret rcvTrafficSecret);
  ua_nextSendAEAD := createAEAD (getNextTrafficSecret sendTrafficSecret);
  ua_nextRcvTrafficSecret := getNextTrafficSecret rcvTrafficSecret;
  ua_nextSendTrafficSecret := getNextTrafficSecret sendTrafficSecret;
  ua_headerDecrypter := newHeaderProtector rcvTrafficSecret false;
  ua_headerEncrypter := newHeaderProtector sendTrafficSecret false;
|}.

Definition rollKeys (a : updatableAEAD) : updatableAEAD :=
  let a := match ua_prevRcvAEAD a with Some _ => a <| ua_prevRcvAEADExpiry := 0 |> | None => a end in
  let nextRcv := getNextTrafficSecret (ua_nextRcvTrafficSecret a) in
  let nextSend := getNextTrafficSecret (ua_nextSendTrafficSecret a) in
  a <| ua_keyPhase ::= Z.add 1 |>
    <| ua_firstRcvdWithCurrentKey := InvalidPacketNumber |>
    <| ua_firstSentWithCurrentKey := InvalidPacketNumber |>
    <| ua_numRcvdWithCurrentKey := 0 |>
    <| ua_numSentWithCurrentKey := 0 |>
    <| ua_prevRcvAEAD := Some (ua_rcvAEAD a) |>
    <| ua_rcvAEAD := ua_nextRcvAEAD a |>
    <| ua_sendAEAD := ua_nextSendAEAD a |>
    <| ua_nextRcvTrafficSecret := nextRcv |>
    <| ua_nextSendTrafficSecret := nextSend |>
    <| ua_nextRcvAEAD := createAEAD nextRcv |>
    <| ua_nextSendAEAD := createAEAD nextSend |>.

(** [pto] is [rttStats.PTO(true)]. *)
Definition startKeyDropTimer (pto now : Z) (a : updatableAEAD) : updatableAEAD :=
  a <| ua_prevRcvAEADExpiry := now + 3 * pto |>.

Definition drop_expired (rcvTime : Z) (a : updatableAEAD) : updatableAEAD :=
  match ua_prevRcvAEAD a with
  | Some _ =>
      if negb (ua_prevRcvAEADExpiry a =? 0) && (ua_prevRcvAEADExpiry a <? rcvTime)
      then a <| ua_prevRcvAEAD := None |> <| ua_prevRcvAEADExpiry := 0 |> else a
  | None => a
  end.

Definition aead_open (k : AEAD) (pn : Z) (src ad : list Z) : outcome (list Z) :=
  match aead_Open k (u64 pn) src ad with Some dec => Ret dec | None => Err ErrDecryptionFailed end.

Definition open (pto : Z) (a : updatableAEAD) (src : list Z) (rcvTime pn : Z) (kp : KeyPhaseBit) (ad : list Z) :
    updatableAEAD * outcome (list Z) :=
  let a := drop_expired rcvTime a in
  if negb (bool_decide (kp = KeyPhase_Bit (ua_keyPhase a))) then
    if (0 <? ua_keyPhase a) && (ua_firstRcvdWithCurrentKey a =? InvalidPacketNumber) || (pn <? ua_firstRcvdWithCurrentKey a) then
      match ua_prevRcvAEAD a with
      | None => (a, Err ErrKeysDropped)
      | Some prev => (a, aead_open prev pn src ad)
      end
    else
      match aead_open (ua_nextRcvAEAD a) pn src ad with
      | Ret dec =>
          if (0 <? ua_keyPhase a) && (ua_firstSentWithCurrentKey a =? InvalidPacketNumber) then (a, Err KeyUpdateError)
          else (startKeyDropTimer pto rcvTime (rollKeys a) <| ua_firstRcvdWithCurrentKey := pn |>, Ret dec)
      | err => (a, err)
      end
  else
    match aead_open (ua_rcvAEAD a) pn src ad with
    | Ret dec =>
        let a := a <| ua_numRcvdWithCurrentKey ::= Z.add 1 |> in
        let a :=
          if ua_firstRcvdWithCurrentKey a =? InvalidPacketNumber then
            (if 0 <? ua_keyPhase a then startKeyDropTimer pto rcvTime a else a) <| ua_firstRcvdWithCurrentKey := pn |>
          else a in
        (a, Ret dec)
    | err => (a, err)
    end.

Definition updatableAEAD_Open (pto : Z) (a : updatableAEAD) (src : list Z) (rcvTime pn : Z) (kp : KeyPhaseBit) (ad : list Z) :
    updatableAEAD * outcome (list Z) :=
  let '(a, res) := open pto a src rcvTime pn kp ad in
  match res with
  | Ret dec => (a <| ua_highestRcvdPN ::= Z.max pn |>, Ret dec)
  | Err e =>
      if bool_decide (e = ErrDecryptionFailed) then
        let a := a <| ua_invalidPacketCount ::= Z.add 1 |> in
        (a, Err (if ua_invalidPacketLimit a <=? ua_invalidPacketCount a then AEADLimitReached else e))
      else (a, Err e)
  | Panic s => (a, Panic s)
  end.

Definition updatableAEAD_Seal (a : updatableAEAD) (src : list Z) (pn : Z) (ad : list Z) : updatableAEAD * list Z :=
  let a := if ua_firstSentWithCurrentKey a =? InvalidPacketNumber then a <| ua_firstSentWithCurrentKey := pn |> else a in
  let a := if ua_firstPacketNumber a =? InvalidPacketNumber then a <| ua_firstPacketNumber := pn |> else a in
  (a <| ua_numSentWithCurrentKey ::= Z.add 1 |>, aead_Seal (ua_sendAEAD a) (u64 pn) src ad).

Definition SetLargestAcked (a : updatableAEAD) (pn : Z) : outcome updatableAEAD :=
  if negb (ua_firstSentWithCurrentKey a =? InvalidPacketNumber) && (ua_firstSentWithCurrentKey a <=? pn) &&
     (ua_numRcvdWithCurrentKey a =? 0)
  then Err (GoError "received ACK for key phase, but peer didn't update keys")
  else Ret (a <| ua_largestAcked := pn |>).

Definition SetHandshakeConfirmed (a : updatableAEAD) : updatableAEAD := a <| ua_handshakeConfirmed := true |>.

Definition updateAllowed (a : updatableAEAD) : bool :=
  if negb (ua_handshakeConfirmed a) then false
  else (ua_keyPhase a =? 0) ||
       (negb (ua_firstSentWithCurrentKey a =? InvalidPacketNumber) && negb (ua_largestAcked a =? InvalidPacketNumber) &&
        (ua_firstSentWithCurrentKey a <=? ua_largestAcked a)).

Definition shouldInitiateKeyUpdate (a : updatableAEAD) : bool :=
  if negb (updateAllowed a) then false
  else (ua_keyUpdateInterval a <=? ua_numRcvdWithCurrentKey a) || (ua_keyUpdateInterval a <=? ua_numSentWithCurrentKey a).

Definition KeyPhase (a : updatableAEAD) : updatableAEAD * KeyPhaseBit :=
  let a := if shouldInitiateKeyUpdate a then rollKeys a else a in (a, KeyPhase_Bit (ua_keyPhase a)).

End Operations.

#[global] Instance updatableAEAD_Sealer : Sealer updatableAEAD := {|
  Seal := updatableAEAD_Seal;
  EncryptHeader a := hp_apply (ua_headerEncrypter a);
  Overhead := ua_aeadOverhead;
|}.

#[global] Instance updatableAEAD_Opener createAEAD getNextTrafficSecret pto : ShortHeaderOpener updatableAEAD := {|
  sho_DecryptHeader a := hp_apply (ua_headerDecrypter a);
  sho_DecodePacketNumber a wirePN wirePNLen := DecodePacketNumber wirePNLen (ua_highestRcvdPN a) wirePN;
  sho_Open := updatableAEAD_Open createAEAD getNextTrafficSecret pto;
|}.

(** ** Two peers

    [key s i] is the key of phase [i] for the traffic secret [s].  A key opens what
    it sealed, and nothing that another phase's key sealed. *)

Section Peers.
Context (createAEAD : list Z → AEAD) (getNextTrafficSecret : list Z → list Z) (newHeaderProtector : list Z → bool → headerProtector).
Context (invalidPacketLimit : Z).

Definition key (s : list Z) (i : Z) : AEAD := createAEAD (Nat.iter (Z.to_nat i) getNextTrafficSecret s).

Definition keys_open (s : list Z) : Prop :=
  ∀ i n src ad, 0 <= i → aead_Open (key s i) n (aead_Seal (key s i) n src ad) ad = Some src.

Definition keys_authenticate (s : list Z) : Prop :=
  ∀ i j n src ad, 0 <= i → 0 <= j → i ≠ j → aead_Open (key s j) n (aead_Seal (key s i) n src ad) ad = None.

(** A packet on its way, with the phase it was sealed in. *)
Record sealed_packet := {
  sp_pn : Z;
  sp_kp : KeyPhaseBit;
  sp_ad : list Z;
  sp_data : list Z;
  sp_src : list Z;
  sp_phase : Z;
}.

Record peer := {
  pe_aead : updatableAEAD;
  pe_sent : list sealed_packet;
  pe_opened : list Z;
}.

(** What [x] can do while the other peer is [y]: send a packet with a new number;
    get a packet the other has sent, late, twice or never; get an acknowledgment of a
    packet the other has opened; learn that the handshake is confirmed. *)
Inductive peer_step (x y : peer) : peer → Prop :=
| send_packet src ad pn a kp a' c :
    Forall (λ p, sp_pn p < pn) (pe_sent x) → 0 <= pn →
    KeyPhase createAEAD getNextTrafficSecret (pe_aead x) = (a, kp) → updatableAEAD_Seal a src pn ad = (a', c) →
    peer_step x y {| pe_aead := a';
                     pe_sent := {| sp_pn := pn; sp_kp := kp; sp_ad := ad; sp_data := c; sp_src := src;
                                   sp_phase := ua_keyPhase a |} :: pe_sent x;
                     pe_opened := pe_opened x |}
| get_packet p pto t a res :
    p ∈ pe_sent y →
    updatableAEAD_Open createAEAD getNextTrafficSecret pto (pe_aead x) (sp_data p) t (sp_pn p) (sp_kp p) (sp_ad p) = (a, res) →
    peer_step x y {| pe_aead := a; pe_sent := pe_sent x;
                     pe_opened := match res with Ret _ => sp_pn p :: pe_opened x | _ => pe_opened x end |}
| get_ack pn a :
    pn ∈ pe_opened y → SetLargestAcked (pe_aead x) pn = Ret a →
    peer_step x y {| pe_aead := a; pe_sent := pe_sent x; pe_opened := pe_opened x |}
| confirm_handshake :
    peer_step x y {| pe_aead := SetHandshakeConfirmed (pe_aead x); pe_sent := pe_sent x; pe_opened := pe_opened x |}.

Inductive peers_step : peer * peer → peer * peer → Prop :=
| left_step x y x' : peer_step x y x' → peers_step (x, y) (x', y)
| right_step x y y' : peer_step y x y' → peers_step (x, y) (x, y').

Definition new_peer (rcv send : list Z) : peer :=
  {| pe_aead := newUpdatableAEAD createAEAD getNextTrafficSecret newHeaderProtector invalidPacketLimit rcv send;
     pe_sent := []; pe_opened := [] |}.

End Peers.
