(* ===== verification/QuicKeyUpdate.v ===== *)
(** * Key updates never lose a packet

    Two peers that send, lose, reorder and duplicate packets, acknowledge them and
    update their keys stay within one phase of each other, and whatever state they
    are in, the next packet either sends is opened by the other. *)

From stdpp Require Import base list numbers strings relations.
From Stdlib Require Import ZArith Lia.
From S2P Require Import Prelude QuicProtocol QuicFrames QuicHeader QuicPacket QuicKeys.

Abbreviation phase x := (ua_keyPhase (pe_aead x)).
Abbreviation first_rcvd x := (ua_firstRcvdWithCurrentKey (pe_aead x)).
Abbreviation first_sent x := (ua_firstSentWithCurrentKey (pe_aead x)).
Abbreviation largest_acked x := (ua_largestAcked (pe_aead x)).

Lemma KeyPhase_Bit_next i : KeyPhase_Bit (i + 1) ≠ KeyPhase_Bit i.
Proof.
  unfold KeyPhase_Bit. destruct (Z.eqb_spec (i mod 2) 0), (Z.eqb_spec ((i + 1) mod 2) 0); try done; zify_div; lia.
Qed.

Lemma KeyPhase_Bit_prev i : KeyPhase_Bit (i - 1) ≠ KeyPhase_Bit i.
Proof. pose proof (KeyPhase_Bit_next (i - 1)) as H. replace (i - 1 + 1) with i in H by lia. congruence. Qed.

Section Proofs.
Context (createAEAD : list Z → AEAD) (getNextTrafficSecret : list Z → list Z).
Local Abbreviation key := (key createAEAD getNextTrafficSecret).
Local Abbreviation secret s i := (Nat.iter (Z.to_nat i) getNextTrafficSecret s).
Local Abbreviation rollKeys := (rollKeys createAEAD getNextTrafficSecret).
Local Abbreviation open := (open createAEAD getNextTrafficSecret).

(** ** One side's keys *)

Record keys_inv (rcv send : list Z) (a : updatableAEAD) : Prop := {
  ki_phase : 0 <= ua_keyPhase a;
  ki_rcv : ua_rcvAEAD a = key rcv (ua_keyPhase a);
  ki_next : ua_nextRcvAEAD a = key rcv (ua_keyPhase a + 1);
  ki_next_secret : ua_nextRcvTrafficSecret a = secret rcv (ua_keyPhase a + 1);
  ki_send : ua_sendAEAD a = key send (ua_keyPhase a);
  ki_next_send : ua_nextSendAEAD a = key send (ua_keyPhase a + 1);
  ki_next_send_secret : ua_nextSendTrafficSecret a = secret send (ua_keyPhase a + 1);
  ki_prev : ∀ k, ua_prevRcvAEAD a = Some k → 1 <= ua_keyPhase a ∧ k = key rcv (ua_keyPhase a - 1);
  ki_prev_none : ua_prevRcvAEAD a = None → ua_prevRcvAEADExpiry a = 0;
  ki_unconfirmed : ua_firstRcvdWithCurrentKey a = -1 → 0 < ua_keyPhase a →
    ua_prevRcvAEAD a ≠ None ∧ ua_prevRcvAEADExpiry a = 0;
  ki_num : ua_numRcvdWithCurrentKey a ≠ 0 → ua_firstRcvdWithCurrentKey a ≠ -1;
  ki_num_nonneg : 0 <= ua_numRcvdWithCurrentKey a;
}.

Lemma secret_next s i : 0 <= i → getNextTrafficSecret (secret s i) = secret s (i + 1).
Proof. intros Hi. replace (Z.to_nat (i + 1)) with (S (Z.to_nat i)) by lia. done. Qed.

Lemma rollKeys_inv rcv send a : keys_inv rcv send a → keys_inv rcv send (rollKeys a).
Proof.
  intros [Hp Hr Hn Hns Hs Hnse Hnss Hpr Hpn Hu Hnum Hnn]. unfold rollKeys, QuicKeys.rollKeys.
  assert (key rcv (1 + ua_keyPhase a + 1) = createAEAD (getNextTrafficSecret (ua_nextRcvTrafficSecret a)) ∧
          key send (1 + ua_keyPhase a + 1) = createAEAD (getNextTrafficSecret (ua_nextSendTrafficSecret a)) ∧
          getNextTrafficSecret (ua_nextRcvTrafficSecret a) = secret rcv (1 + ua_keyPhase a + 1) ∧
          getNextTrafficSecret (ua_nextSendTrafficSecret a) = secret send (1 + ua_keyPhase a + 1)) as (E1 & E2 & E3 & E4).
  { unfold key, QuicKeys.key. rewrite Hns, Hnss, !secret_next by lia. replace (1 + ua_keyPhase a + 1) with (ua_keyPhase a + 1 + 1) by lia. done. }
  destruct (ua_prevRcvAEAD a) eqn:Hprev; split; cbn; try lia; try done;
    rewrite ?(Z.add_comm 1 (ua_keyPhase a)) in *; try done; try (by rewrite Hn); try (by rewrite Hnse).
  - intros k [= <-]. replace (ua_keyPhase a + 1 - 1) with (ua_keyPhase a) by lia. split; [lia|done].
  - intros k [= <-]. replace (ua_keyPhase a + 1 - 1) with (ua_keyPhase a) by lia. split; [lia|done].
  - intros _ _. split; [done|]. by apply Hpn.
Qed.

Lemma drop_expired_inv rcv send t a : keys_inv rcv send a → keys_inv rcv send (drop_expired t a).
Proof.
  intros Hk. unfold drop_expired. destruct (ua_prevRcvAEAD a) eqn:Hprev; [|done]. destruct (_ && _) eqn:Hexp; [|done].
  destruct Hk as [Hp Hr Hn Hns Hs Hnse Hnss Hpr Hpn Hu Hnum Hnn]. split; cbn; try done. intros Hf H0.
  destruct (Hu Hf H0). lia.
Qed.

(** ** One direction: [x] sends to [y] with the traffic secret [s] *)

Definition sealed_ok (s : list Z) (x : peer) (p : sealed_packet) : Prop :=
  0 <= sp_pn p ∧ 0 <= sp_phase p <= phase x ∧ sp_kp p = KeyPhase_Bit (sp_phase p) ∧
  sp_data p = aead_Seal (key s (sp_phase p)) (u64 (sp_pn p)) (sp_src p) (sp_ad p).

Record dir_inv (s : list Z) (x y : peer) : Prop := {
  di_sent : ∀ p, p ∈ pe_sent x → sealed_ok s x p;
  di_current : ∀ p, p ∈ pe_sent x → sp_phase p = phase x ↔ first_sent x ≠ -1 ∧ first_sent x <= sp_pn p;
  di_first_sent : first_sent x ≠ -1 → ∃ p, p ∈ pe_sent x ∧ sp_pn p = first_sent x;
  di_opened : ∀ pn, pn ∈ pe_opened y → ∃ p, p ∈ pe_sent x ∧ sp_pn p = pn ∧ sp_phase p <= phase y ∧
    (sp_phase p = phase y → first_rcvd y ≠ -1);
  di_first : first_rcvd y ≠ -1 → ∃ p, p ∈ pe_sent x ∧ sp_pn p = first_rcvd y ∧ sp_phase p = phase y;
  di_acked : largest_acked x ≠ -1 → largest_acked x ∈ pe_opened y;
  di_confirmed : first_sent x ≠ -1 → first_sent x <= largest_acked x → first_rcvd x ≠ -1;
  di_ahead : phase x <= phase y + 1;
  di_ready : phase x = phase y + 1 → 0 < phase y → first_rcvd y ≠ -1 ∧ first_sent y ≠ -1;
}.

(** [x] sends with the secret [sx] and [y] with [sy]. *)
Record peers_inv (sx sy : list Z) (x y : peer) : Prop := {
  pi_x : keys_inv sy sx (pe_aead x);
  pi_y : keys_inv sx sy (pe_aead y);
  pi_xy : dir_inv sx x y;
  pi_yx : dir_inv sy y x;
}.

Lemma peers_inv_sym sx sy x y : peers_inv sx sy x y → peers_inv sy sx y x.
Proof. intros []. by split. Qed.

Definition with_aead (x : peer) (a : updatableAEAD) : peer :=
  {| pe_aead := a; pe_sent := pe_sent x; pe_opened := pe_opened x |}.

(** What a side that may update knows: the peer has reached its phase. *)
Lemma updateAllowed_caught_up sx sy x y :
  peers_inv sx sy x y → updateAllowed (pe_aead x) = true → 0 < phase x →
  phase x <= phase y ∧ (phase x = phase y → first_rcvd y ≠ -1 ∧ first_sent y ≠ -1).
Proof.
  intros [Hx Hy Hxy Hyx] Hup Hpos. unfold updateAllowed, InvalidPacketNumber in Hup.
  destruct (ua_handshakeConfirmed (pe_aead x)); [|done]. cbn [negb] in Hup.
  assert (first_sent x ≠ -1 ∧ largest_acked x ≠ -1 ∧ first_sent x <= largest_acked x) as (Hfs & Hla & Hle) by lia.
  destruct (di_opened _ _ _ Hxy _ (di_acked _ _ _ Hxy Hla)) as (p & Hp & Hpn & Hph & Hf).
  assert (sp_phase p = phase x) as Hpx by (apply (di_current _ _ _ Hxy p Hp); lia).
  split; [lia|]. intros Heq. split; [apply Hf; lia|].
  pose proof (di_confirmed _ _ _ Hxy Hfs Hle) as Hr. destruct (di_first _ _ _ Hyx Hr) as (q & Hq & Hqn & Hqp).
  apply (di_current _ _ _ Hyx q Hq). lia.
Qed.

Lemma rollKeys_phase a : ua_keyPhase (rollKeys a) = ua_keyPhase a + 1 ∧
  ua_firstRcvdWithCurrentKey (rollKeys a) = -1 ∧ ua_firstSentWithCurrentKey (rollKeys a) = -1 ∧
  ua_largestAcked (rollKeys a) = ua_largestAcked a.
Proof. unfold rollKeys, QuicKeys.rollKeys. destruct (ua_prevRcvAEAD a); cbn; (split; [lia|done]). Qed.

Lemma rollKeys_prev a : ua_prevRcvAEAD (rollKeys a) ≠ None ∧ ua_numRcvdWithCurrentKey (rollKeys a) = 0.
Proof. done. Qed.

(** The numbers [opened] are of packets of [y] of at most the phase of [a]; the first
    one received in that phase is one of them. *)
Record receive_inv (x y : peer) (a : updatableAEAD) (opened : list Z) : Prop := {
  ri_opened : ∀ pn, pn ∈ opened → ∃ p, p ∈ pe_sent y ∧ sp_pn p = pn ∧ sp_phase p <= ua_keyPhase a ∧
    (sp_phase p = ua_keyPhase a → ua_firstRcvdWithCurrentKey a ≠ -1);
  ri_first : ua_firstRcvdWithCurrentKey a ≠ -1 →
    ∃ p, p ∈ pe_sent y ∧ sp_pn p = ua_firstRcvdWithCurrentKey a ∧ sp_phase p = ua_keyPhase a;
  ri_mono : pe_opened x ⊆ opened;
}.

(** [x] moves to the next phase, on its own or after the peer. *)
Lemma next_phase_inv sx sy x y a opened :
  peers_inv sx sy x y → keys_inv sy sx a → receive_inv x y a opened →
  ua_keyPhase a = phase x + 1 → ua_firstSentWithCurrentKey a = -1 → ua_largestAcked a = largest_acked x →
  phase x <= phase y → (phase x = phase y → 0 < phase x → first_rcvd y ≠ -1 ∧ first_sent y ≠ -1) →
  peers_inv sx sy {| pe_aead := a; pe_sent := pe_sent x; pe_opened := opened |} y.
Proof.
  intros [Hx Hy [S C B O F A K H R] [S' C' B' O' F' A' K' H' R']] Ha [Ro Rf Rm] Ep Es El Hle Hready.
  split; [done|done|split|split]; cbn [pe_aead pe_sent pe_opened]; rewrite ?Ep, ?Es, ?El; try done.
  - intros p Hp. destruct (S p Hp) as (? & ? & ? & ?). unfold sealed_ok. cbn [pe_aead]. rewrite Ep. split_and!; done || lia.
  - intros p Hp. destruct (S p Hp) as (_ & ? & _). lia.
  - lia.
  - intros Heq Hpos. apply Hready; lia.
  - intros pn Hpn. destruct (Ro pn Hpn) as (p & ? & ? & ? & ?). exists p. rewrite <-Ep. done.
  - intros Hf. destruct (Rf Hf) as (p & ? & ? & ?). exists p. rewrite <-Ep. done.
  - intros Hl. by apply Rm, A'.
  - lia.
  - lia.
Qed.

(** [x] stays in its phase and sends nothing. *)
Lemma same_phase_inv sx sy x y a opened :
  peers_inv sx sy x y → keys_inv sy sx a → receive_inv x y a opened →
  ua_keyPhase a = phase x → ua_firstSentWithCurrentKey a = first_sent x → ua_largestAcked a = largest_acked x →
  (first_rcvd x ≠ -1 → ua_firstRcvdWithCurrentKey a ≠ -1) →
  peers_inv sx sy {| pe_aead := a; pe_sent := pe_sent x; pe_opened := opened |} y.
Proof.
  intros [Hx Hy [S C B O F A K H R] [S' C' B' O' F' A' K' H' R']] Ha [Ro Rf Rm] Ep Es El Hfr.
  split; [done|done|split|split]; cbn [pe_aead pe_sent pe_opened]; rewrite ?Ep, ?Es, ?El; try done.
  - intros p Hp. destruct (S p Hp) as (? & ? & ? & ?). unfold sealed_ok. cbn [pe_aead]. rewrite Ep. split_and!; done || lia.
  - intros Hfs Hla. apply Hfr. by apply K.
  - intros pn Hpn. destruct (Ro pn Hpn) as (p & ? & ? & ? & ?). exists p. rewrite <-Ep. done.
  - intros Hf. destruct (Rf Hf) as (p & ? & ? & ?). exists p. rewrite <-Ep. done.
  - intros Hl. by apply Rm, A'.
  - intros Heq Hpos. destruct (R' Heq Hpos). split; [by apply Hfr|done].
Qed.

Lemma KeyPhase_inv sx sy x y a kp :
  peers_inv sx sy x y → KeyPhase createAEAD getNextTrafficSecret (pe_aead x) = (a, kp) →
  kp = KeyPhase_Bit (ua_keyPhase a) ∧ peers_inv sx sy {| pe_aead := a; pe_sent := pe_sent x; pe_opened := pe_opened x |} y.
Proof.
  intros Hi. unfold KeyPhase. intros [= <- <-]. split; [done|].
  destruct (shouldInitiateKeyUpdate (pe_aead x)) eqn:Hs; [|by destruct x].
  assert (updateAllowed (pe_aead x) = true) as Hup.
  { unfold shouldInitiateKeyUpdate in Hs. by destruct (updateAllowed (pe_aead x)). }
  pose proof (rollKeys_phase (pe_aead x)) as (Ep & Ef & Es & El).
  pose proof (ki_phase _ _ _ (pi_x _ _ _ _ Hi)). pose proof (ki_phase _ _ _ (pi_y _ _ _ _ Hi)).
  assert (0 < phase x → phase x <= phase y ∧ (phase x = phase y → first_rcvd y ≠ -1 ∧ first_sent y ≠ -1)) as Hcu
    by (intros; by eapply updateAllowed_caught_up).
  apply next_phase_inv; try done.
  - apply rollKeys_inv, Hi.
  - split; [|by rewrite Ef|done]. intros pn Hpn. destruct (di_opened _ _ _ (pi_yx _ _ _ _ Hi) pn Hpn) as (p & Hp & ? & ? & _).
    exists p. rewrite Ep. split_and!; try done; lia.
  - destruct (decide (0 < phase x)); [by apply Hcu|lia].
  - intros Heq Hpos. by apply Hcu.
Qed.

Lemma Seal_inv sx sy x y src pn ad a c :
  peers_inv sx sy x y → Forall (λ p, sp_pn p < pn) (pe_sent x) → 0 <= pn →
  updatableAEAD_Seal (pe_aead x) src pn ad = (a, c) →
  let p := {| sp_pn := pn; sp_kp := KeyPhase_Bit (phase x); sp_ad := ad; sp_data := c; sp_src := src; sp_phase := phase x |} in
  peers_inv sx sy {| pe_aead := a; pe_sent := p :: pe_sent x; pe_opened := pe_opened x |} y.
Proof.
  intros [Hx Hy [S C B O F A K H R] [S' C' B' O' F' A' K' H' R']] Hfresh H0 Hseal p. rewrite Forall_forall in Hfresh.
  unfold updatableAEAD_Seal, InvalidPacketNumber in Hseal.
  assert (ua_keyPhase a = phase x ∧ ua_firstRcvdWithCurrentKey a = first_rcvd x ∧ ua_largestAcked a = largest_acked x ∧
    ua_firstSentWithCurrentKey a = (if first_sent x =? -1 then pn else first_sent x) ∧ keys_inv sy sx a ∧
    c = aead_Seal (ua_sendAEAD (pe_aead x)) (u64 pn) src ad) as (Ep & Ef & El & Es & Ha & Hc).
  { destruct (first_sent x =? -1) eqn:E1; cbn in Hseal; destruct (ua_firstPacketNumber (pe_aead x) =? -1); cbn in Hseal;
      injection Hseal as <- <-; cbn; rewrite ?E1; split_and!; try done; destruct Hx; by split. }
  rewrite (ki_send _ _ _ Hx) in Hc.
  assert (largest_acked x < pn) as Hla.
  { destruct (decide (largest_acked x = -1)) as [->|Hne]; [lia|]. destruct (O _ (A Hne)) as (q & Hq & <- & _). by apply Hfresh. }
  assert (∀ q, q ∈ p :: pe_sent x → q = p ∨ q ∈ pe_sent x) as Hcons by (intros q; apply elem_of_cons).
  assert (∀ q, q ∈ pe_sent x → q ∈ p :: pe_sent x) as Hin by (intros q ?; by apply elem_of_cons; right).
  split; [done|done|split|split]; cbn [pe_aead pe_sent pe_opened]; rewrite ?Ep, ?Ef, ?El, ?Es; try done.
  - intros q [-> |Hq]%Hcons; unfold sealed_ok; cbn [pe_aead]; rewrite Ep.
    + cbn. pose proof (ki_phase _ _ _ Hx). split_and!; done || lia.
    + by apply S.
  - intros q [-> |Hq]%Hcons.
    + cbn. destruct (Z.eqb_spec (first_sent x) (-1)); [lia|]. split; [|done]. intros _. split; [done|].
      destruct B as (q & Hq & <-); [done|]. specialize (Hfresh q Hq). lia.
    + destruct (Z.eqb_spec (first_sent x) (-1)) as [E|E]; [|by apply C]. rewrite (C q Hq). specialize (Hfresh q Hq). lia.
  - intros Hne. destruct (Z.eqb_spec (first_sent x) (-1)); [exists p; split; [by apply elem_of_cons; left|done]|].
    destruct B as (q & ? & ?); [done|]. exists q. split; [by apply Hin|done].
  - intros n Hn. destruct (O n Hn) as (q & ? & ? & ? & ?). exists q. split; [by apply Hin|done].
  - intros Hf. destruct (F Hf) as (q & ? & ? & ?). exists q. split; [by apply Hin|done].
  - destruct (Z.eqb_spec (first_sent x) (-1)); [lia|]. apply K.
  - intros Heq Hpos. destruct (R' Heq Hpos). split; [done|]. destruct (first_sent x =? -1); [lia|done].
Qed.

Lemma receive_refl sx sy x y : peers_inv sx sy x y → receive_inv x y (pe_aead x) (pe_opened x).
Proof. intros [_ _ _ []]. by split. Qed.

Lemma SetLargestAcked_inv sx sy x y pn a :
  peers_inv sx sy x y → pn ∈ pe_opened y → SetLargestAcked (pe_aead x) pn = Ret a →
  peers_inv sx sy {| pe_aead := a; pe_sent := pe_sent x; pe_opened := pe_opened x |} y.
Proof.
  intros [Hx Hy [S C B O F A K H R] [S' C' B' O' F' A' K' H' R']] Hpn. unfold SetLargestAcked, InvalidPacketNumber.
  destruct (_ && _) eqn:Hc; [done|]. intros [= <-]. pose proof (ki_num _ _ _ Hx) as Hnum.
  split; [destruct Hx; by split|done|split|split]; cbn; try done. intros Hfs Hle. apply Hnum. lia.
Qed.

(** Fields the invariant does not depend on. *)
Lemma count_inv sx sy x y f g :
  peers_inv sx sy x y →
  peers_inv sx sy {| pe_aead := (pe_aead x) <| ua_invalidPacketCount ::= f |> <| ua_highestRcvdPN ::= g |>; pe_sent := pe_sent x;
                     pe_opened := pe_opened x |} y.
Proof.
  intros Hi. apply same_phase_inv; try done; [destruct (pi_x _ _ _ _ Hi); by split|].
  destruct (receive_refl _ _ _ _ Hi). by split.
Qed.

Lemma aead_open_phase s i p y :
  keys_open createAEAD getNextTrafficSecret s → keys_authenticate createAEAD getNextTrafficSecret s →
  sealed_ok s y p → 0 <= i →
  aead_open (key s i) (sp_pn p) (sp_data p) (sp_ad p) = if i =? sp_phase p then Ret (sp_src p) else Err ErrDecryptionFailed.
Proof.
  intros Ho Ha (Hpn & Hph & _ & Hd) Hi. unfold aead_open. rewrite Hd. destruct (Z.eqb_spec i (sp_phase p)) as [->|Hne].
  - by rewrite Ho.
  - by rewrite Ha by lia.
Qed.

Lemma drop_expired_same t a :
  ua_keyPhase (drop_expired t a) = ua_keyPhase a ∧
  ua_firstRcvdWithCurrentKey (drop_expired t a) = ua_firstRcvdWithCurrentKey a ∧
  ua_firstSentWithCurrentKey (drop_expired t a) = ua_firstSentWithCurrentKey a ∧
  ua_largestAcked (drop_expired t a) = ua_largestAcked a.
Proof. unfold drop_expired. destruct (ua_prevRcvAEAD a); [|done]. by destruct (_ && _). Qed.

#[local] Opaque QuicKeys.rollKeys drop_expired.

(** The keys are dropped: nothing else changes. *)
Lemma drop_expired_peers sx sy x y t :
  peers_inv sx sy x y →
  peers_inv sx sy {| pe_aead := drop_expired t (pe_aead x); pe_sent := pe_sent x; pe_opened := pe_opened x |} y.
Proof.
  intros Hi. destruct (drop_expired_same t (pe_aead x)) as (Ep & Ef & Es & El). apply same_phase_inv; try done.
  - apply drop_expired_inv, Hi.
  - destruct (receive_refl _ _ _ _ Hi). split; rewrite ?Ep, ?Ef; done.
  - by rewrite Ef.
Qed.

(** One more packet is opened, of the current phase or an earlier one. *)
Lemma opened_cons sx sy x y p :
  peers_inv sx sy x y → p ∈ pe_sent y → sp_phase p < phase x →
  peers_inv sx sy {| pe_aead := pe_aead x; pe_sent := pe_sent x; pe_opened := sp_pn p :: pe_opened x |} y.
Proof.
  intros Hi Hp Hlt. apply same_phase_inv; try done; [apply Hi|]. destruct (receive_refl _ _ _ _ Hi) as [Ro Rf Rm].
  split; [|done|by apply list_subseteq_cons]. intros n [-> |Hn]%elem_of_cons; [|by apply Ro].
  exists p. split_and!; try done; lia.
Qed.

(** The peer has moved, [x] follows: [a] is the state after [rollKeys]. *)
Lemma followed_inv sx sy x y p pto t a :
  peers_inv sx sy x y → p ∈ pe_sent y → sp_phase p = phase x + 1 → keys_inv sy sx a →
  ua_keyPhase a = phase x + 1 → ua_firstSentWithCurrentKey a = -1 → ua_largestAcked a = largest_acked x →
  ua_prevRcvAEAD a ≠ None → ua_numRcvdWithCurrentKey a = 0 →
  peers_inv sx sy {| pe_aead := startKeyDropTimer pto t a <| ua_firstRcvdWithCurrentKey := sp_pn p |>;
                     pe_sent := pe_sent x; pe_opened := sp_pn p :: pe_opened x |} y.
Proof.
  intros H0 Hp Hph Hk Ep Es El Hprev Hnum. destruct (receive_refl _ _ _ _ H0) as [Ro Rf Rm].
  destruct (di_sent _ _ _ (pi_yx _ _ _ _ H0) p Hp) as (Hpn & Hle & _).
  apply (next_phase_inv sx sy x y _ (sp_pn p :: pe_opened x)); try assumption.
  - destruct Hk as [? ? ? ? ? ? ? Hpr Hpn' _ _ ?]. split; cbn; try assumption; intros; lia || congruence.
  - split; cbn.
    + intros n Hn. rewrite Ep. apply elem_of_cons in Hn as [-> |Hn]; [exists p; split_and!; assumption || reflexivity || lia|].
      destruct (Ro n Hn) as (q & ? & ? & ? & _). exists q. split_and!; assumption || lia.
    + intros _. exists p. rewrite Ep. split_and!; assumption || reflexivity.
    + intros n Hn. apply elem_of_cons. right. exact Hn.
  - lia.
  - lia.
Qed.

(** A packet of the current phase. *)
Definition received_current (pto t pn : Z) (a : updatableAEAD) : updatableAEAD :=
  let a := a <| ua_numRcvdWithCurrentKey ::= Z.add 1 |> in
  if ua_firstRcvdWithCurrentKey a =? InvalidPacketNumber then
    (if 0 <? ua_keyPhase a then startKeyDropTimer pto t a else a) <| ua_firstRcvdWithCurrentKey := pn |>
  else a.

Lemma received_current_keys rcv send pto t pn a :
  keys_inv rcv send a → 0 <= pn →
  let a' := received_current pto t pn a in
  ua_keyPhase a' = ua_keyPhase a ∧ ua_firstSentWithCurrentKey a' = ua_firstSentWithCurrentKey a ∧
  ua_largestAcked a' = ua_largestAcked a ∧ ua_firstRcvdWithCurrentKey a' ≠ -1 ∧
  (ua_firstRcvdWithCurrentKey a' = pn ∨ ua_firstRcvdWithCurrentKey a' = ua_firstRcvdWithCurrentKey a) ∧ keys_inv rcv send a'.
Proof.
  intros [? ? ? ? ? ? ? Hpr Hpn' Hu ? ?] Hpn. unfold received_current, InvalidPacketNumber. cbn.
  destruct (Z.eqb_spec (ua_firstRcvdWithCurrentKey a) (-1)) as [E|E]; [destruct (Z.ltb_spec 0 (ua_keyPhase a))|];
    cbn; (split; [reflexivity|]); (split; [reflexivity|]); (split; [reflexivity|]); (split; [lia|]); (split; [auto|]);
    split; cbn; try assumption; try lia; try (intros; lia). intros Hn. destruct (Hu E); [lia|]. by rewrite Hn in *.
Qed.

Lemma received_current_inv sx sy x y p pto t :
  peers_inv sx sy x y → p ∈ pe_sent y → sp_phase p = phase x →
  peers_inv sx sy {| pe_aead := received_current pto t (sp_pn p) (pe_aead x); pe_sent := pe_sent x;
                     pe_opened := sp_pn p :: pe_opened x |} y.
Proof.
  intros H0 Hp Hph. destruct (receive_refl _ _ _ _ H0) as [Ro Rf Rm].
  destruct (di_sent _ _ _ (pi_yx _ _ _ _ H0) p Hp) as (Hpn & Hle & _).
  destruct (received_current_keys sy sx pto t (sp_pn p) (pe_aead x) (pi_x _ _ _ _ H0) Hpn) as (Ep & Es & El & Ef & Ef' & Hk').
  set (a' := received_current pto t (sp_pn p) (pe_aead x)) in *. clearbody a'.
  apply (same_phase_inv sx sy x y a' (sp_pn p :: pe_opened x)); try assumption.
  - split.
    + intros n Hn. rewrite Ep. apply elem_of_cons in Hn as [-> |Hn]; [exists p; split_and!; auto; lia|].
      destruct (Ro n Hn) as (q & ? & ? & ? & ?). exists q. split_and!; auto.
    + intros _. rewrite Ep. destruct Ef' as [Heq|Heq]; rewrite Heq in *; [exists p; auto|apply Rf, Ef].
    + intros n Hn. apply elem_of_cons. right. exact Hn.
  - intros _. exact Ef.
Qed.

Definition opened_after {A} (x : peer) (p : sealed_packet) (res : outcome A) : list Z :=
  match res with Ret _ => sp_pn p :: pe_opened x | _ => pe_opened x end.

Section Open.
Context (sx sy : list Z) (x y : peer) (p : sealed_packet) (pto t : Z).
Hypothesis Hopen : keys_open createAEAD getNextTrafficSecret sy.
Hypothesis Hauth : keys_authenticate createAEAD getNextTrafficSecret sy.
Hypothesis Hi : peers_inv sx sy x y.
Hypothesis Hp : p ∈ pe_sent y.

Let a0 := drop_expired t (pe_aead x).
Let x0 := {| pe_aead := a0; pe_sent := pe_sent x; pe_opened := pe_opened x |}.

Lemma x0_inv : peers_inv sx sy x0 y.
Proof. by apply drop_expired_peers. Qed.

Lemma p_ok : sealed_ok sy y p.
Proof. by apply (di_sent _ _ _ (pi_yx _ _ _ _ Hi)). Qed.

(** A packet of the next phase. *)
Lemma open_next_inv :
  sp_phase p = phase x0 + 1 →
  peers_inv sx sy {| pe_aead := startKeyDropTimer pto t (rollKeys a0) <| ua_firstRcvdWithCurrentKey := sp_pn p |>;
                     pe_sent := pe_sent x; pe_opened := sp_pn p :: pe_opened x |} y.
Proof.
  intros Hph. destruct (rollKeys_phase a0) as (Ep & Ef & Es & El). destruct (rollKeys_prev a0) as [Hprev Hnum].
  pose proof (rollKeys_inv _ _ _ (pi_x _ _ _ _ x0_inv)) as Hk. change (pe_aead x0) with a0 in Hk.
  apply (followed_inv sx sy x0 y p pto t (rollKeys a0)); assumption || exact x0_inv.
Qed.

Lemma open_inv a res :
  open pto (pe_aead x) (sp_data p) t (sp_pn p) (sp_kp p) (sp_ad p) = (a, res) →
  peers_inv sx sy {| pe_aead := a; pe_sent := pe_sent x; pe_opened := opened_after x p res |} y.
Proof.
  pose proof x0_inv as H0. pose proof (pi_x _ _ _ _ H0) as Hk. pose proof p_ok as Hpo. change (pe_aead x0) with a0 in Hk.
  unfold open, QuicKeys.open. fold a0. cbv zeta. pose proof (ki_phase _ _ _ Hk) as Hk0.
  rewrite (ki_rcv _ _ _ Hk), (ki_next _ _ _ Hk).
  rewrite !(aead_open_phase sy _ p y Hopen Hauth Hpo) by lia.
  destruct (negb _).
  - destruct (_ || _).
    + destruct (ua_prevRcvAEAD a0) as [prev|] eqn:Hprev; [|by intros [= <- <-]].
      destruct (ki_prev _ _ _ Hk _ Hprev) as [H1 ->]. rewrite (aead_open_phase sy _ p y Hopen Hauth Hpo) by lia.
      destruct (Z.eqb_spec (ua_keyPhase a0 - 1) (sp_phase p)) as [E|E]; intros [= <- <-]; [|exact H0].
      apply (opened_cons sx sy x0 y p H0 Hp). change (phase x0) with (ua_keyPhase a0). lia.
    + destruct (Z.eqb_spec (ua_keyPhase a0 + 1) (sp_phase p)) as [E|E]; [|intros [= <- <-]; exact H0].
      destruct (_ && _); intros [= <- <-]; [exact H0|]. apply open_next_inv. symmetry. exact E.
  - destruct (Z.eqb_spec (ua_keyPhase a0) (sp_phase p)) as [E|E]; intros [= <- <-]; [|exact H0].
    apply (received_current_inv sx sy x0 y p pto t H0 Hp). symmetry. exact E.
Qed.

End Open.

Local Abbreviation Open := (updatableAEAD_Open createAEAD getNextTrafficSecret).

Lemma Open_inv sx sy x y p pto t a res :
  keys_open createAEAD getNextTrafficSecret sy → keys_authenticate createAEAD getNextTrafficSecret sy →
  peers_inv sx sy x y → p ∈ pe_sent y →
  Open pto (pe_aead x) (sp_data p) t (sp_pn p) (sp_kp p) (sp_ad p) = (a, res) →
  peers_inv sx sy {| pe_aead := a; pe_sent := pe_sent x; pe_opened := opened_after x p res |} y.
Proof.
  intros Hopen Hauth Hi Hp. unfold updatableAEAD_Open.
  destruct (QuicKeys.open _ _ pto (pe_aead x) (sp_data p) t (sp_pn p) (sp_kp p) (sp_ad p)) as [a1 r1] eqn:H1.
  pose proof (open_inv sx sy x y p pto t Hopen Hauth Hi Hp a1 r1 H1) as H2.
  destruct r1 as [dec|e|s].
  - intros [= <- <-]. exact (count_inv sx sy _ y (λ n, n) _ H2).
  - destruct (bool_decide _); intros [= <- <-]; [|exact H2]. exact (count_inv sx sy _ y _ (λ n, n) H2).
  - intros [= <- <-]. exact H2.
Qed.

(** A packet of [x]'s current phase that is newer than all others is opened by [y]:
    [x] is in the same phase, one ahead, or one behind. *)
Lemma newest_opened sx sy x y p pto t :
  keys_open createAEAD getNextTrafficSecret sx → keys_authenticate createAEAD getNextTrafficSecret sx →
  peers_inv sx sy x y → p ∈ pe_sent x → sp_phase p = phase x → Forall (λ q, sp_pn q <= sp_pn p) (pe_sent x) →
  ∃ b, Open pto (pe_aead y) (sp_data p) t (sp_pn p) (sp_kp p) (sp_ad p) = (b, Ret (sp_src p)).
Proof.
  intros Hopen Hauth Hi Hp Hph Hnew. rewrite Forall_forall in Hnew.
  pose proof (peers_inv_sym _ _ _ _ Hi) as Hi'. pose proof (drop_expired_peers _ _ _ _ t Hi') as H0.
  pose proof (pi_x _ _ _ _ H0) as Hk. cbn [pe_aead] in Hk. destruct (drop_expired_same t (pe_aead y)) as (Ep & Ef & Es & El).
  destruct (di_sent _ _ _ (pi_xy _ _ _ _ Hi) p Hp) as (Hpn & Hle & Hkp & Hdata).
  assert (sealed_ok sx x p) as Hpo by done. pose proof (di_ahead _ _ _ (pi_xy _ _ _ _ Hi)) as Hax.
  pose proof (di_ahead _ _ _ (pi_yx _ _ _ _ Hi)) as Hay. pose proof (di_first _ _ _ (pi_xy _ _ _ _ Hi)) as Hfirst.
  pose proof (di_ready _ _ _ (pi_xy _ _ _ _ Hi)) as Hready.
  unfold updatableAEAD_Open, QuicKeys.open, InvalidPacketNumber.
  set (a := drop_expired t (pe_aead y)) in *. clearbody a. cbv zeta. pose proof (ki_phase _ _ _ Hk) as Hk0.
  rewrite (ki_rcv _ _ _ Hk), (ki_next _ _ _ Hk), !(aead_open_phase sx _ p x Hopen Hauth Hpo), Hkp by lia.
  rewrite <-Ep, <-Ef, <-Es in *.
  assert (sp_phase p = ua_keyPhase a ∨ sp_phase p = ua_keyPhase a + 1 ∨ sp_phase p = ua_keyPhase a - 1) as [E|[E|E]] by lia;
    rewrite E.
  - rewrite bool_decide_eq_true_2, Z.eqb_refl by done. cbn [negb]. eexists. reflexivity.
  - rewrite bool_decide_eq_false_2 by apply KeyPhase_Bit_next. cbn [negb].
    rewrite (proj2 (Z.ltb_ge (sp_pn p) _)).
    2: { destruct (decide (ua_firstRcvdWithCurrentKey a = -1)) as [->|Hne]; [lia|].
         destruct (Hfirst Hne) as (q & Hq & <- & _). by apply Hnew. }
    rewrite orb_false_r, Z.eqb_refl.
    assert ((0 <? ua_keyPhase a) && (ua_firstRcvdWithCurrentKey a =? -1) = false ∧
            (0 <? ua_keyPhase a) && (ua_firstSentWithCurrentKey a =? -1) = false) as [-> ->].
    { destruct (Z.ltb_spec 0 (ua_keyPhase a)); [|done]. destruct Hready; [lia|lia|]. cbn [andb]. lia. }
    eexists. reflexivity.
  - rewrite bool_decide_eq_false_2 by apply KeyPhase_Bit_prev. cbn [negb].
    assert (ua_firstRcvdWithCurrentKey a = -1) as Hf.
    { destruct (decide (ua_firstRcvdWithCurrentKey a = -1)) as [|Hne]; [done|]. destruct (Hfirst Hne) as (q & Hq & _ & Hqp).
      destruct (di_sent _ _ _ (pi_xy _ _ _ _ Hi) q Hq) as (_ & ? & _). lia. }
    rewrite Hf, Z.eqb_refl, (proj2 (Z.ltb_lt 0 _)) by lia. cbn [andb orb].
    destruct (ki_unconfirmed _ _ _ Hk Hf) as [Hprev _]; [lia|]. destruct (ua_prevRcvAEAD a) as [k|] eqn:Hk1; [|done].
    destruct (ki_prev _ _ _ Hk _ Hk1) as [_ ->]. rewrite (aead_open_phase sx _ p x Hopen Hauth Hpo), E, Z.eqb_refl by lia.
    eexists. reflexivity.
Qed.

Section Reachable.
Context (newHeaderProtector : list Z → bool → headerProtector) (invalidPacketLimit : Z) (sx sy : list Z).
Hypothesis Hopenx : keys_open createAEAD getNextTrafficSecret sx.
Hypothesis Hopeny : keys_open createAEAD getNextTrafficSecret sy.
Hypothesis Hauthx : keys_authenticate createAEAD getNextTrafficSecret sx.
Hypothesis Hauthy : keys_authenticate createAEAD getNextTrafficSecret sy.

Local Abbreviation new_peer := (new_peer createAEAD getNextTrafficSecret newHeaderProtector invalidPacketLimit).

Lemma new_keys_inv rcv send :
  keys_inv rcv send (newUpdatableAEAD createAEAD getNextTrafficSecret newHeaderProtector invalidPacketLimit rcv send).
Proof. split; cbn; try reflexivity; try lia; done. Qed.

Lemma new_dir_inv s x y :
  pe_sent x = [] → pe_opened y = [] → first_rcvd y = -1 → first_sent x = -1 → largest_acked x = -1 → phase x = 0 → phase y = 0 →
  dir_inv s x y.
Proof.
  intros E1 E2 E3 E4 E5 E6 E7. split; rewrite ?E1, ?E2, ?E3, ?E4, ?E5, ?E6, ?E7; try done; try lia;
    intros ? H; by apply not_elem_of_nil in H.
Qed.

Lemma new_peers_inv : peers_inv sx sy (new_peer sy sx) (new_peer sx sy).
Proof. split; [apply new_keys_inv..| |]; by apply new_dir_inv. Qed.

Lemma peer_step_inv s1 s2 x y x' :
  keys_open createAEAD getNextTrafficSecret s2 → keys_authenticate createAEAD getNextTrafficSecret s2 →
  peers_inv s1 s2 x y → peer_step createAEAD getNextTrafficSecret x y x' → peers_inv s1 s2 x' y.
Proof.
  intros Hopen Hauth Hi Hstep. inversion Hstep as [src ad pn a kp a' c Hfresh H0 Hkp Hseal|p pto t a res Hp Ho|pn a Hpn Ha|]; subst.
  - destruct (KeyPhase_inv _ _ _ _ _ _ Hi Hkp) as [-> Hi']. by eapply (Seal_inv s1 s2 _ y src pn ad a' c Hi').
  - by eapply Open_inv.
  - by eapply SetLargestAcked_inv.
  - apply same_phase_inv; try done; [destruct (pi_x _ _ _ _ Hi); by split|]. destruct (receive_refl _ _ _ _ Hi). by split.
Qed.

Lemma peers_reachable_inv xy :
  rtc (peers_step createAEAD getNextTrafficSecret) (new_peer sy sx, new_peer sx sy) xy → peers_inv sx sy xy.1 xy.2.
Proof.
  apply (rtc_ind_r (λ xy, peers_inv sx sy xy.1 xy.2)); [apply new_peers_inv|].
  intros [x y] xy' _ Hstep Hi. inversion Hstep as [? ? x' Hs|? ? y' Hs]; subst; cbn [fst snd] in *.
  - by eapply peer_step_inv.
  - apply peers_inv_sym. apply peers_inv_sym in Hi. by eapply peer_step_inv.
Qed.

(** C31. In every state that two peers reach, whatever packets are lost, delayed or
    delivered twice, they are at most one key phase apart, and the next packet that
    one sends, with a new number, is opened by the other: key updates never leave a
    connection without matching keys. *)
Theorem key_update_delivers x y src ad pn a kp a' c pto t :
  rtc (peers_step createAEAD getNextTrafficSecret) (new_peer sy sx, new_peer sx sy) (x, y) →
  Forall (λ p, sp_pn p < pn) (pe_sent x) → 0 <= pn →
  KeyPhase createAEAD getNextTrafficSecret (pe_aead x) = (a, kp) → updatableAEAD_Seal a src pn ad = (a', c) →
  Z.abs (phase x - phase y) <= 1 ∧ ∃ b, Open pto (pe_aead y) c t pn kp ad = (b, Ret src).
Proof.
  intros Hr Hfresh H0 Hkp Hseal. pose proof (peers_reachable_inv _ Hr) as Hi. cbn [fst snd] in Hi.
  split; [pose proof (di_ahead _ _ _ (pi_xy _ _ _ _ Hi)); pose proof (di_ahead _ _ _ (pi_yx _ _ _ _ Hi)); lia|].
  destruct (KeyPhase_inv _ _ _ _ _ _ Hi Hkp) as [-> Hi'].
  pose proof (Seal_inv sx sy _ y src pn ad a' c Hi' Hfresh H0 Hseal) as Hi2. cbn [pe_aead pe_sent pe_opened] in Hi2.
  destruct (newest_opened sx sy _ y {| sp_pn := pn; sp_kp := KeyPhase_Bit (ua_keyPhase a); sp_ad := ad; sp_data := c; sp_src := src;
    sp_phase := ua_keyPhase a |} pto t Hopenx Hauthx Hi2) as [b Hb].
  - apply elem_of_cons. by left.
  - cbn. unfold updatableAEAD_Seal in Hseal. by repeat (destruct (_ =? _) in Hseal); injection Hseal as <- _.
  - apply Forall_cons. split; [done|]. eapply Forall_impl; [exact Hfresh|]. cbn. lia.
  - by exists b.
Qed.

End Reachable.

End Proofs.

(** ** Witness: a packet has been sent and opened, then comes another. *)

Definition example_next (s : list Z) : list Z := 0 :: s.

Lemma example_keys s i : 0 <= i → key example_AEAD example_next s i = example_AEAD (replicate (Z.to_nat i) 0 ++ s).
Proof.
  intros _. unfold key. f_equal. induction (Z.to_nat i) as [|n IH]; [done|].
  change (0 :: Nat.iter n example_next s = 0 :: replicate n 0 ++ s). by rewrite IH.
Qed.

Lemma example_keys_open s : keys_open example_AEAD example_next s.
Proof. intros i n src ad Hi. rewrite example_keys by done. apply example_opens. Qed.

Lemma example_keys_authenticate s : keys_authenticate example_AEAD example_next s.
Proof.
  intros i j n src ad Hi Hj Hij. rewrite !example_keys by done. cbn [example_AEAD aead_Open aead_Seal app].
  rewrite (proj2 (Z.eqb_neq _ _)); [done|]. unfold zlen. rewrite !length_app, !length_replicate. lia.
Qed.

Lemma key_update_delivers_witness :
  let new := new_peer example_AEAD example_next (λ _, example_protector) InvalidPacketLimitAES in
  let a0 := pe_aead (new [2] [1]) in
  let '(a1, c) := updatableAEAD_Seal a0 [7] 0 [8] in
  let p := {| sp_pn := 0; sp_kp := KeyPhaseZero; sp_ad := [8]; sp_data := c; sp_src := [7]; sp_phase := 0 |} in
  let '(b1, _) := updatableAEAD_Open example_AEAD example_next 0 (pe_aead (new [1] [2])) c 5 0 KeyPhaseZero [8] in
  let x := {| pe_aead := a1; pe_sent := [p]; pe_opened := [] |} in
  let y := {| pe_aead := b1; pe_sent := []; pe_opened := [0] |} in
  let '(a2, c2) := updatableAEAD_Seal a1 [9] 1 [8] in
  Z.abs (phase x - phase y) <= 1 ∧
  ∃ b, updatableAEAD_Open example_AEAD example_next 0 b1 c2 6 1 KeyPhaseZero [8] = (b, Ret [9]).
Proof.
  intros new a0. destruct (updatableAEAD_Seal a0 [7] 0 [8]) as [a1 c] eqn:Hs1. intros p.
  destruct (updatableAEAD_Open _ _ _ _ _ _ _ _ _) as [b1 r] eqn:Ho. intros x y.
  destruct (updatableAEAD_Seal a1 [9] 1 [8]) as [a2 c2] eqn:Hs2.
  assert (KeyPhase example_AEAD example_next a1 = (a1, KeyPhaseZero)) as Hkp
    by (vm_compute in Hs1; injection Hs1 as <- _; reflexivity).
  apply (key_update_delivers example_AEAD example_next (λ _, example_protector) InvalidPacketLimitAES [1] [2]
    (example_keys_open _) (example_keys_open _) (example_keys_authenticate _) (example_keys_authenticate _)
    x y [9] [8] 1 a1 KeyPhaseZero a2 c2 0 6).
  - eapply rtc_l; [apply left_step|eapply rtc_once, right_step].
    + by apply (send_packet example_AEAD example_next (new [2] [1]) (new [1] [2]) [7] [8] 0 a0 KeyPhaseZero a1 c).
    + assert (y = {| pe_aead := b1; pe_sent := []; pe_opened := match r with Ret _ => [0] | _ => [] end |}) as ->.
      { vm_compute in Hs1. injection Hs1 as _ <-. vm_compute in Ho. by injection Ho as _ <-. }
      apply (get_packet example_AEAD example_next (new [1] [2]) x p 0 5 b1 r); [by apply list_elem_of_singleton|done].
  - by repeat constructor.
  - done.
  - exact Hkp.
  - exact Hs2.
Defined.
