(* ===== verification/QuicFec.v ===== *)
(** * Forward error correction of streams ([enhanced-quic/fec])

    The sender's FEC handler collects the data of a stream in blocks of 16 symbols
    and sends four redundancy symbols for each ([PushToEncode]).  The receiver
    collects the symbols of a block in a [FecBuffer]; when enough have come, or when
    a timer expires, the decoding goroutine makes STREAM frames of the symbols that
    are missing and puts them on [FecChan], from where they go to the stream.

    The C code of [fec/raptor.go] is the text of [mp2session/raptor.go] with other
    names, so that the functions of [Raptor] model it.

    [FecHandler] is the whole state of a handler, the contents of its channels
    included.  A buffer stays in [decQueue] until the goroutine is done with it, so
    that the pointers on the channels are keys of [decQueue].  The operations run
    under the handler's mutex and are modelled as atomic.  That a channel of 50
    elements is full is left out. *)

From stdpp Require Import base list numbers strings gmap.
From Stdlib Require Import ZArith Lia Floats.SpecFloat.
From S2P Require Import Prelude Config Monitor RaptorTables Raptor QuicProtocol QuicFrames.

(** ** Raptor *)

Definition raptor_encoding := raptor_encoding_mp.
Definition raptor_decoding2 := raptor_decoding2_mp.

Definition fec_SymbolSizes : list Z := [1024].
Definition NumberOfSrcSymbolSize : list Z := [16].
Definition MinimumOverhead : spec_float := f32_of_frac 758 10000.
Definition CodeRate : spec_float := f64_of_frac 8 10.

(** The only parameter set. *)
Definition RaptorInit : outcome raptor_params :=
  s ← index fec_SymbolSizes 0;
  k ← index NumberOfSrcSymbolSize 0;
  p ← RaptorInitialization_mp k s (float64 MinimumOverhead) CodeRate;
  match p with
  | None => Panic "Raptor initialization failed!!"
  | Some p => Ret p
  end.

(** [&data[0]] panics for an empty slice; [C.GoBytes] copies the given number of bytes. *)
Definition RaptorEncode (r : raptor_params) (data : list Z) (symSize numSrcSyms : Z) : outcome (list Z) :=
  _ ← index data 0;
  fecBlock ← raptor_encoding r data symSize numSrcSyms;
  s ← index fec_SymbolSizes 0;
  slice fecBlock 0 (u32 (s * 4)).

Definition RaptorDecode (r : raptor_params) (data symbolMap : list Z) (symSize numSrcSyms : Z) : outcome (option (list Z)) :=
  _ ← index data 0;
  _ ← index symbolMap 0;
  decBlock ← raptor_decoding2 r data symbolMap symSize numSrcSyms;
  match decBlock with
  | None => Ret None
  | Some decBlock =>
      s ← index fec_SymbolSizes 0;
      k ← index NumberOfSrcSymbolSize 0;
      bs ← slice decBlock 0 (u32 (s * k)); Ret (Some bs)
  end.

(** ** The buffer of a block *)

(** [fb_timer]: the goroutine of the timer is in its [select], where it waits for the timer and for [timerStop]. *)
Record FecBuffer := mk_FecBuffer {
  fb_symbolSize : Z;
  fb_numSrcSymbols : Z;
  fb_numEncSymbols : Z;
  fb_recvSizeForDecode : Z;
  fb_srcBlockSize : Z;
  fb_streamID : Z;
  fb_startStreamOffset : Z;
  fb_endStreamOffset : Z;
  fb_nextFrameOffset : Z;
  fb_streamFrameDataLength : Z;
  fb_fecFrameDataLength : Z;
  fb_oobStreamFrameQueue : list StreamFrame;
  fb_oobFecFrameQueue : list FecFrame;
  fb_encBlock : list Z;
  fb_bufferMap : list Z;
  fb_timer : bool;
  fb_decodeStarted : bool;
  fb_packetNumberMap : gmap Z Z;
}.

#[global] Instance FecBuffer_fields : Fields FecBuffer := λ b,
  mk_FecBuffer (fb_symbolSize b) (fb_numSrcSymbols b) (fb_numEncSymbols b) (fb_recvSizeForDecode b) (fb_srcBlockSize b)
    (fb_streamID b) (fb_startStreamOffset b) (fb_endStreamOffset b) (fb_nextFrameOffset b) (fb_streamFrameDataLength b)
    (fb_fecFrameDataLength b) (fb_oobStreamFrameQueue b) (fb_oobFecFrameQueue b) (fb_encBlock b) (fb_bufferMap b)
    (fb_timer b) (fb_decodeStarted b) (fb_packetNumberMap b).

Definition FecBuffer_Init (streamID startOffset symSize numSrcSyms : Z) : FecBuffer :=
  let numEncSymbols := u32 (f_int (SFdiv 24 128 (f32_of_Z numSrcSyms) (f32_of_frac 8 10))) in
  let srcBlockSize := u32 (symSize * numSrcSyms) in {|
  fb_symbolSize := symSize;
  fb_numSrcSymbols := numSrcSyms;
  fb_numEncSymbols := numEncSymbols;
  fb_recvSizeForDecode := u32 (symSize * 18);
  fb_srcBlockSize := srcBlockSize;
  fb_streamID := streamID;
  fb_startStreamOffset := startOffset;
  fb_endStreamOffset := startOffset + srcBlockSize - 1;
  fb_nextFrameOffset := startOffset;
  fb_streamFrameDataLength := 0;
  fb_fecFrameDataLength := 0;
  fb_oobStreamFrameQueue := [];
  fb_oobFecFrameQueue := [];
  fb_encBlock := replicate (Z.to_nat (u32 (symSize * numEncSymbols))) 0;
  fb_bufferMap := replicate (Z.to_nat numEncSymbols) 0;
  fb_timer := true;
  fb_decodeStarted := false;
  fb_packetNumberMap := ∅;
|}.

(** The symbols from [i] to [endSymIndex] get the remaining bytes. *)
Fixpoint buffer_map_loop (fuel : nat) (symbolSize i endSymIndex remainingLength : Z) (bufferMap : list Z) : outcome (list Z) :=
  match fuel with
  | O => Ret bufferMap
  | S fuel =>
      if endSymIndex <? i then Ret bufferMap else
      x ← index bufferMap i;
      let diff := u32 (symbolSize - x) in
      if diff <=? remainingLength then
        bufferMap ← set_index bufferMap i (u32 (x + diff));
        buffer_map_loop fuel symbolSize (i + 1) endSymIndex (remainingLength - diff) bufferMap
      else set_index bufferMap i (u32 (x + u32 remainingLength))
  end.

Definition setBufferMap (b : FecBuffer) (startOffset endOffset : Z) : outcome FecBuffer :=
  let startSymIndex := u32 (startOffset - fb_startStreamOffset b) / fb_symbolSize b in
  let endSymIndex := u32 (endOffset - fb_startStreamOffset b) / fb_symbolSize b in
  let remainingLength := endOffset - startOffset in
  let endSymIndex := if endSymIndex =? zlen (fb_bufferMap b) then u32 (endSymIndex - 1) else endSymIndex in
  bufferMap ← buffer_map_loop (Z.to_nat (endSymIndex - startSymIndex + 1)) (fb_symbolSize b) startSymIndex endSymIndex
                remainingLength (fb_bufferMap b);
  Ret (b <| fb_bufferMap := bufferMap |>).

(** [sort.Slice]; the order of frames with the same offset is that of a stable sort. *)
Fixpoint insert_by {A} (key : A → Z) (x : A) (l : list A) : list A :=
  match l with
  | [] => [x]
  | y :: l => if key x <=? key y then x :: y :: l else y :: insert_by key x l
  end.

Definition sort_by {A} (key : A → Z) (l : list A) : list A := foldr (insert_by key) [] l.

(** The loop over an out-of-order queue: the offset behind the frames that follow
    on [next], and the queue from the first that does not, if there is one. *)
Fixpoint advance_queue {A} (offset len : A → Z) (next : Z) (queue : list A) : Z * option (list A) :=
  match queue with
  | [] => (next, None)
  | f :: queue' =>
      if offset f =? next then advance_queue offset len (offset f + len f) queue' else (next, Some queue)
  end.

Definition PushStreamFrame (b : FecBuffer) (streamFrame : StreamFrame) (packetNumber : Z) : outcome FecBuffer :=
  let startOffset := sf_Offset streamFrame in
  let endOffset := startOffset + StreamFrame_DataLen streamFrame - 1 in
  if (startOffset <? fb_nextFrameOffset b) && (endOffset <? fb_nextFrameOffset b) then Ret b else
  let prevNextFrameOffset := fb_nextFrameOffset b in
  b ← (if startOffset =? fb_nextFrameOffset b then
         let startPos := startOffset - fb_startStreamOffset b in
         let endPos := startPos + StreamFrame_DataLen streamFrame in
         encBlock ← copy_to (fb_encBlock b) startPos endPos (sf_Data streamFrame);
         let '(next, queue) := advance_queue sf_Offset StreamFrame_DataLen (endOffset + 1) (fb_oobStreamFrameQueue b) in
         Ret (b <| fb_encBlock := encBlock |> <| fb_nextFrameOffset := next |>
                <| fb_oobStreamFrameQueue := default (fb_oobStreamFrameQueue b) queue |>)
       else if fb_nextFrameOffset b <? startOffset then
         Ret (b <| fb_oobStreamFrameQueue := sort_by sf_Offset (fb_oobStreamFrameQueue b ++ [streamFrame]) |>)
       else Ret b);
  let b := b <| fb_streamFrameDataLength ::= Z.add (StreamFrame_DataLen streamFrame) |> in
  b ← setBufferMap b prevNextFrameOffset (fb_nextFrameOffset b);
  Ret (b <| fb_packetNumberMap ::= <[sf_Offset streamFrame := packetNumber]> |>).

Definition PushFecFrame (b : FecBuffer) (fecFrame : FecFrame) : outcome FecBuffer :=
  let offset f := fb_endStreamOffset b + 1 + fec_FecDataOffset f in
  let startOffset := offset fecFrame in
  let endOffset := startOffset + FecDataLen fecFrame - 1 in
  if (startOffset <? fb_nextFrameOffset b) && (endOffset <? fb_nextFrameOffset b) then Ret b else
  let prevnextFrameOffset := fb_nextFrameOffset b in
  b ← (if startOffset =? fb_nextFrameOffset b then
         let startPos := startOffset - fb_startStreamOffset b in
         let endPos := startPos + FecDataLen fecFrame in
         encBlock ← copy_to (fb_encBlock b) startPos endPos (fec_FecData fecFrame);
         let '(next, queue) := advance_queue offset FecDataLen (endOffset + 1) (fb_oobFecFrameQueue b) in
         Ret (b <| fb_encBlock := encBlock |> <| fb_nextFrameOffset := next |>
                <| fb_oobFecFrameQueue := default (fb_oobFecFrameQueue b) queue |>)
       else if fb_nextFrameOffset b <? startOffset then
         Ret (b <| fb_oobFecFrameQueue := sort_by fec_FecDataOffset (fb_oobFecFrameQueue b ++ [fecFrame]) |>)
       else Ret b);
  let b := b <| fb_fecFrameDataLength ::= Z.add (FecDataLen fecFrame) |> in
  setBufferMap b prevnextFrameOffset (fb_nextFrameOffset b).

(** A frame of an out-of-order queue that starts at [startOffset]. *)
Definition place_frame (startOffset : Z) (data : list Z) (b : FecBuffer) : outcome FecBuffer :=
  let startPos := startOffset - fb_startStreamOffset b in
  let endPos := startPos + zlen data in
  encBlock ← copy_to (fb_encBlock b) startPos endPos data;
  setBufferMap (b <| fb_encBlock := encBlock |>) startOffset (startOffset + zlen data).

(** One round of the loop over [bufferMap]: the number of symbols found, their
    indices and data, and the number of symbols lost. *)
Definition gather_symbol (b : FecBuffer) (i : Z) (st : Z * list Z * list Z * Z) : outcome (Z * list Z * list Z * Z) :=
  let '(idx, symbolMap, encBlock2, lost) := st in
  x ← index (fb_bufferMap b) i;
  if x =? fb_symbolSize b then
    symbolMap ← set_index symbolMap idx (u32 i);
    symbol ← slice (fb_encBlock b) (i * fb_symbolSize b) (i * fb_symbolSize b + fb_symbolSize b);
    encBlock2 ← copy_to encBlock2 (idx * fb_symbolSize b) (idx * fb_symbolSize b + fb_symbolSize b) symbol;
    Ret (idx + 1, symbolMap, encBlock2, lost)
  else Ret (idx, symbolMap, encBlock2, lost + 1).

(** The data and the indices of the symbols received, padded with zeros, and the
    number of symbols lost. *)
Definition GetEncodeBlock (b : FecBuffer) : outcome (FecBuffer * (list Z * list Z * Z)) :=
  b ← foldO (λ f b, place_frame (sf_Offset f) (sf_Data f) b) (fb_oobStreamFrameQueue b) b;
  b ← foldO (λ f b, place_frame (fb_endStreamOffset b + 1 + fec_FecDataOffset f) (fec_FecData f) b)
        (fb_oobFecFrameQueue b) b;
  '(idx, symbolMap, encBlock2, lost) ←
    foldO (gather_symbol b) (seqZ 0 (zlen (fb_bufferMap b)))
      (0, replicate (Z.to_nat (fb_numEncSymbols b)) 0,
       replicate (Z.to_nat (u32 (fb_symbolSize b * fb_numEncSymbols b))) 0, 0);
  Ret (b, (encBlock2, symbolMap, lost)).

Definition FecBuffer_Length (b : FecBuffer) : Z := fb_streamFrameDataLength b + fb_fecFrameDataLength b.

(** The channels of the decoding goroutine. *)
Inductive fec_event := streamFin | enoughRecv | timeout | final.
#[global] Instance fec_event_eq_dec : EqDecision fec_event.
Proof. solve_decision. Defined.

(** The event that is sent, if any. *)
Definition CheckDecodingPossible (b : FecBuffer) (fin : bool) : FecBuffer * option fec_event :=
  if fb_decodeStarted b then (b, None) else
  let started ev := (b <| fb_decodeStarted := true |>, Some ev) in
  if fb_srcBlockSize b <=? fb_streamFrameDataLength b then started streamFin
  else if fb_recvSizeForDecode b <=? fb_streamFrameDataLength b + fb_fecFrameDataLength b then started enoughRecv
  else if fin then started final
  else (b, None).

(** ** The handler *)

(** [fh_alreadyDecQueue] has the stream ID and the end of each block.
    [fh_recovered] is the global [FecRecoveredPacketList]. *)
Record FecHandler := mk_FecHandler {
  fh_symbolSize : Z;
  fh_numSrcSymbols : Z;
  fh_srcBlockSize : Z;
  fh_fecDataLength : Z;
  fh_encQueue : list Z;
  fh_transmissionQueue : list FecFrame;
  fh_decQueue : gmap Z FecBuffer;
  fh_alreadyDecQueue : gmap Z (Z * Z);
  fh_startOffset : Z;
  fh_endOffset : Z;
  fh_nextBlockOffset : Z;
  fh_raptor : raptor_params;
  fh_recvBytes : Z;
  fh_events : list (fec_event * Z);
  fh_FecChan : list StreamFrame;
  fh_FecChanFinal : bool;
  fh_recovered : list Z;
}.

#[global] Instance FecHandler_fields : Fields FecHandler := λ f,
  mk_FecHandler (fh_symbolSize f) (fh_numSrcSymbols f) (fh_srcBlockSize f) (fh_fecDataLength f) (fh_encQueue f)
    (fh_transmissionQueue f) (fh_decQueue f) (fh_alreadyDecQueue f) (fh_startOffset f) (fh_endOffset f)
    (fh_nextBlockOffset f) (fh_raptor f) (fh_recvBytes f) (fh_events f) (fh_FecChan f) (fh_FecChanFinal f) (fh_recovered f).

Definition NewFecHandler : outcome FecHandler :=
  p ← RaptorInit;
  Ret {| fh_symbolSize := 1024;
         fh_numSrcSymbols := 16;
         fh_srcBlockSize := u32 (1024 * 16);
         fh_fecDataLength := 1024;
         fh_encQueue := [];
         fh_transmissionQueue := [];
         fh_decQueue := ∅;
         fh_alreadyDecQueue := ∅;
         fh_startOffset := 0;
         fh_endOffset := 0;
         fh_nextBlockOffset := 0;
         fh_raptor := p;
         fh_recvBytes := 0;
         fh_events := [];
         fh_FecChan := [];
         fh_FecChanFinal := false;
         fh_recovered := [] |}.

(** *** Encoding *)

(** The frames of [fecBlock]; every round takes [fecDataLength] bytes of it. *)
Fixpoint fec_frames (fuel : nat) (f : FecHandler) (streamID totalLength fecDataOffset : Z) (fecBlock : list Z) :
    outcome (list FecFrame) :=
  match fuel with
  | O => Ret []
  | S fuel =>
      data ← slice fecBlock 0 (fh_fecDataLength f);
      rest ← slice fecBlock (fh_fecDataLength f) (zlen fecBlock);
      let frame := {| fec_StreamID := streamID; fec_StreamOffset := fh_startOffset f; fec_SymbolSize := fh_symbolSize f;
                      fec_NumOfSymbols := fh_numSrcSymbols f; fec_FecDataOffset := fecDataOffset;
                      fec_FecDataLength := fh_fecDataLength f; fec_FecTotalLength := totalLength;
                      fec_FecData := data; fec_Fin := zlen rest =? 0 |} in
      if zlen rest =? 0 then Ret [frame]
      else frames ← fec_frames fuel f streamID totalLength (fecDataOffset + fh_fecDataLength f) rest; Ret (frame :: frames)
  end.

Definition pushToTransmissionQueue (f : FecHandler) (fecBlock : list Z) (streamID : Z) : outcome FecHandler :=
  frames ← fec_frames (S (length fecBlock)) f streamID (u32 (zlen fecBlock)) 0 fecBlock;
  Ret (f <| fh_transmissionQueue ::= λ q, q ++ frames |>).

Definition PushToEncode (f : FecHandler) (frame : StreamFrame) : outcome FecHandler :=
  let f := f <| fh_startOffset := if zlen (fh_encQueue f) =? 0 then sf_Offset frame else fh_endOffset f |> in
  let f := f <| fh_encQueue ::= λ q, q ++ sf_Data frame |> in
  if fh_srcBlockSize f <=? zlen (fh_encQueue f) then
    srcBlock ← slice (fh_encQueue f) 0 (fh_srcBlockSize f);
    fecBlock ← RaptorEncode (fh_raptor f) srcBlock (fh_symbolSize f) (fh_numSrcSymbols f);
    rest ← slice (fh_encQueue f) (fh_srcBlockSize f) (zlen (fh_encQueue f));
    let f := f <| fh_encQueue := rest |> <| fh_endOffset := sf_Offset frame + StreamFrame_DataLen frame |> in
    pushToTransmissionQueue f fecBlock (sf_StreamID frame)
  else Ret f.

Definition PopFecFrame (f : FecHandler) (maxBytes : Z) : FecHandler * option FecFrame :=
  match fh_transmissionQueue f with
  | [] => (f, None)
  | fecFrame :: queue =>
      if fec_SymbolSize fecFrame <=? maxBytes then (f <| fh_transmissionQueue := queue |>, Some fecFrame) else (f, None)
  end.

Definition GetFecTransmissionQueueLen (f : FecHandler) : Z := zlen (fh_transmissionQueue f).

(** *** Decoding *)

(** The key of the buffer for [offset], which is created if there is none; [None]
    when its block has been decoded.  The keys are in no particular order. *)
Definition getOrCreateFecBuffer (f : FecHandler) (streamID offset : Z) : FecHandler * option Z :=
  if fh_nextBlockOffset f <=? offset then
    match find (λ kb : Z * FecBuffer, (fb_streamID kb.2 =? streamID) && (fb_startStreamOffset kb.2 <=? offset) &&
                       (offset <=? fb_endStreamOffset kb.2)) (map_to_list (fh_decQueue f)) with
    | Some (k, _) => (f, Some k)
    | None =>
        if existsb (λ ke : Z * (Z * Z), (ke.2.1 =? streamID) && (ke.1 <=? offset) && (offset <=? ke.2.2))
             (map_to_list (fh_alreadyDecQueue f))
        then (f, None)
        else
          let startOffset := offset / fh_srcBlockSize f * fh_srcBlockSize f in
          let b := FecBuffer_Init streamID startOffset (fh_symbolSize f) (fh_numSrcSymbols f) in
          (f <| fh_decQueue ::= <[startOffset := b]> |>, Some startOffset)
    end
  else (f, None).

(** The buffer at [k] after the frame was pushed, and the check whether it can be decoded. *)
Definition push_to_buffer (f : FecHandler) (k : Z) (push : FecBuffer → outcome FecBuffer) (fin : bool) : outcome FecHandler :=
  match fh_decQueue f !! k with
  | None => Ret f
  | Some b =>
      b ← push b;
      let '(b, event) := CheckDecodingPossible b fin in
      Ret (f <| fh_decQueue ::= <[k := b]> |>
             <| fh_events ::= λ es, es ++ match event with Some ev => [(ev, k)] | None => [] end |>)
  end.

Definition PushStreamFrameToDecode (f : FecHandler) (streamFrame : StreamFrame) (packetNumber : Z) : outcome FecHandler :=
  match getOrCreateFecBuffer f (sf_StreamID streamFrame) (sf_Offset streamFrame) with
  | (f, None) => Ret f
  | (f, Some k) => push_to_buffer f k (λ b, PushStreamFrame b streamFrame packetNumber) (sf_Fin streamFrame)
  end.

Definition PushFecFrameToDecode (f : FecHandler) (fecFrame : FecFrame) : outcome FecHandler :=
  match getOrCreateFecBuffer f (fec_StreamID fecFrame) (fec_StreamOffset fecFrame) with
  | (f, None) => Ret f
  | (f, Some k) => push_to_buffer f k (λ b, PushFecFrame b fecFrame) false
  end.

(** The timer of the buffer at [k] expires: its goroutine sends the buffer and ends. *)
Definition timer_expires (f : FecHandler) (k : Z) : FecHandler :=
  match fh_decQueue f !! k with
  | Some b =>
      if fb_timer b then
        f <| fh_decQueue ::= <[k := b <| fb_timer := false |> <| fb_decodeStarted := true |>]> |>
          <| fh_events ::= λ es, es ++ [(timeout, k)] |>
      else f
  | None => f
  end.

(** The frame of symbol [j] of a decoded block. *)
Definition recovered_frame (f : FecHandler) (b : FecBuffer) (decBlock : list Z) (j : Z) : outcome StreamFrame :=
  let startPos := u32 (u32 j * fh_symbolSize f) in
  let endPos := u32 (startPos + fh_symbolSize f) in
  data ← slice decBlock startPos endPos;
  Ret {| sf_StreamID := fb_streamID b; sf_Offset := fb_startStreamOffset b + u32 (u32 j * fh_symbolSize f);
         sf_Data := data; sf_Fin := false; sf_DataLenPresent := false |}.

(** [j] from [i] up to the symbol that was received. *)
Definition push_lost (f : FecHandler) (b : FecBuffer) (decBlock : list Z) (prevPacketNumber prevIdx i upto : Z) : outcome FecHandler :=
  foldO (λ j f,
    frame ← recovered_frame f b decBlock j;
    Ret (f <| fh_FecChan ::= λ c, c ++ [frame] |> <| fh_recovered ::= λ l, l ++ [prevPacketNumber + (j - prevIdx)] |>))
    (seqZ i (Z.min upto (fh_numSrcSymbols f) - i)) f.

Fixpoint push_received_loop (indices : list Z) (decBlock symbolMap : list Z) (b : FecBuffer) (prevPacketNumber prevIdx nextIdx : Z)
    (f : FecHandler) : outcome FecHandler :=
  match indices with
  | [] => Ret f
  | i :: indices =>
      s ← index symbolMap i;
      if negb (s =? nextIdx) then
        f ← push_lost f b decBlock prevPacketNumber prevIdx i s;
        push_received_loop indices decBlock symbolMap b prevPacketNumber prevIdx (u32 (s + 1)) f
      else
        let offset := fb_startStreamOffset b + u32 (u32 i * fh_symbolSize f) in
        push_received_loop indices decBlock symbolMap b (default 0 (fb_packetNumberMap b !! offset)) i (u32 (s + 1)) f
  end.

Definition pushReceiveStreamFrameQueue (f : FecHandler) (decBlock symbolMap : list Z) (b : FecBuffer) : outcome FecHandler :=
  push_received_loop (seqZ 0 (fh_numSrcSymbols f)) decBlock symbolMap b 0 0 0 f.

(** Skips the blocks that have been decoded already. *)
Fixpoint skip_decoded (fuel : nat) (next : Z) (q : gmap Z (Z * Z)) : Z * gmap Z (Z * Z) :=
  match fuel with
  | O => (next, q)
  | S fuel =>
      match q !! next with
      | Some (_, endStreamOffset) => skip_decoded fuel (endStreamOffset + 1) (delete next q)
      | None => (next, q)
      end
  end.

Definition update_next_block (f : FecHandler) (b : FecBuffer) : outcome FecHandler :=
  if fb_startStreamOffset b =? fh_nextBlockOffset f then
    let '(next, q) := skip_decoded (size (fh_alreadyDecQueue f)) (fb_endStreamOffset b + 1) (fh_alreadyDecQueue f) in
    Ret (f <| fh_nextBlockOffset := next |> <| fh_alreadyDecQueue := q |>)
  else if fh_nextBlockOffset f <? fb_startStreamOffset b then
    Ret (f <| fh_alreadyDecQueue ::= <[fb_startStreamOffset b := (fb_streamID b, fb_endStreamOffset b)]> |>)
  else Panic "fecBuffer.startStreamOffset < f.nextBlockOffset".

(** [b.timerStop <- true]: the channel has no buffer, so that the send waits until the
    goroutine of the timer receives; [None] when that goroutine is not in its [select]. *)
Definition Destroy (b : FecBuffer) : option FecBuffer := if fb_timer b then Some (b <| fb_timer := false |>) else None.

(** A round that receives the buffer at [k] from the channel of [ev], up to [Destroy]; the mutex is held then.  The buffer that is destroyed
    is the one that was received, and the flag says that the goroutine ends after the round. *)
Definition decode_body (f : FecHandler) (ev : fec_event) (k : Z) : outcome (FecHandler * FecBuffer * bool) :=
  match fh_decQueue f !! k with
  | None => Panic "invalid memory address or nil pointer dereference"
  | Some b =>
      let streamRecvComplete := match ev with streamFin | final => true | _ => false end in
      let fin := bool_decide (ev = final) in
      let f := if fin then f <| fh_FecChanFinal := true |> else f in
      f ← update_next_block f b;
      let f := f <| fh_recvBytes ::= λ n, u32 (n + fh_srcBlockSize f) |> in
      f ← (if streamRecvComplete : bool then Ret f else
             '(b, (encBlock, symbolMap, lost)) ← GetEncodeBlock b;
             decBlock ← RaptorDecode (fh_raptor f) encBlock symbolMap (fh_symbolSize f) (fh_numSrcSymbols f);
             match decBlock with
             | Some decBlock => pushReceiveStreamFrameQueue f decBlock symbolMap b
             | None => Ret f
             end);
      let f := f <| fh_decQueue ::= delete (fb_startStreamOffset b) |> in
      Ret (f, b, fin)
  end.

(** What a round of the decoding goroutine ends with; [Blocked] when [Destroy] waits, with the mutex held. *)
Inductive fec_round := Continue (f : FecHandler) | Finished (f : FecHandler) | Blocked (f : FecHandler).

Definition decode_round (f : FecHandler) (ev : fec_event) (k : Z) : outcome fec_round :=
  '(f, b, fin) ← decode_body f ev k;
  Ret (match Destroy b with
       | Some _ => if fin : bool then Finished f else Continue f
       | None => Blocked f
       end).
