(* ===== verification/QuicFecBuffer.v ===== *)
(** * What a FEC buffer holds

    The data are the 20 encoding symbols of a block.  The first [n] source symbols
    come in order, the next one is lost, and the others come in any order without
    repetition: then [GetEncodeBlock] returns the symbols received and their
    indices.  ([QuicFecTheorems] shows that the buffer needs this.) *)

From stdpp Require Import base list numbers strings gmap.
From Stdlib Require Import ZArith Lia.
From S2P Require Import Prelude Config Monitor RaptorTables Raptor RaptorCode RaptorTheorems QuicProtocol QuicFrames QuicFec.

(** ** Lists of symbols *)

Lemma splice_concat size (l : list (list Z)) i x :
  Forall (λ s, zlen s = size) l → zlen x = size → 0 <= i < zlen l →
  splice (concat l) (Z.to_nat (i * size)) x = concat (<[Z.to_nat i := x]> l).
Proof.
  intros Hf Hx Hi. destruct (lookup_lt_is_Some_2 l (Z.to_nat i)) as [y Hy]; [unfold zlen in *; lia|].
  assert (zlen y = size) as Hyl by (by eapply Forall_lookup_1 in Hf).
  rewrite insert_take_drop by (apply lookup_lt_Some in Hy; done). rewrite <-(take_drop_middle _ _ _ Hy) at 1.
  rewrite !concat_app. cbn [concat].
  assert (zlen (concat (take (Z.to_nat i) l)) = i * size) as Hl.
  { rewrite (concat_zlen size) by (by apply Forall_take). unfold zlen in *. rewrite length_take. lia. }
  unfold splice. rewrite take_app_length' by (unfold zlen in *; lia). f_equal. f_equal.
  rewrite drop_app_ge by (unfold zlen in *; lia). rewrite drop_app_length'; [done|]. unfold zlen in *. lia.
Qed.

Lemma concat_replicate {A} n m (x : A) : concat (replicate n (replicate m x)) = replicate (n * m) x.
Proof. induction n as [|n IH]; [done|]. cbn [replicate concat Nat.mul]. by rewrite IH, replicate_add. Qed.

Lemma sort_by_Permutation {A} (key : A → Z) l : sort_by key l ≡ₚ l.
Proof.
  induction l as [|x l IH]; [done|]. cbn [sort_by foldr]. fold (sort_by key l). rewrite <-IH at 2.
  generalize (sort_by key l). clear. induction l as [|y l IH]; [done|]. cbn [insert_by]. destruct (key x <=? key y); [done|].
  rewrite IH. apply Permutation_swap.
Qed.

Lemma foldO_app {A B} (f : A → B → outcome B) l k b : foldO f (l ++ k) b = (b ← foldO f l b; foldO f k b).
Proof. revert b. induction l as [|a l IH]; intros b; [done|]. cbn [foldO app]. destruct (f a b); cbn [mbind outcome_bind]; [apply IH|done..]. Qed.

Lemma foldO_ext_inv {A B} (I : B → Prop) (f g : A → B → outcome B) l b :
  I b → (∀ a b, I b → f a b = g a b ∧ ∀ b', g a b = Ret b' → I b') → foldO f l b = foldO g l b.
Proof.
  intros Hb Hfg. revert b Hb. induction l as [|a l IH]; intros b Hb; [done|]. cbn [foldO].
  destruct (Hfg a b Hb) as [-> Hi]. destruct (g a b); cbn [mbind outcome_bind]; [apply IH; auto|done..].
Qed.

(** ** Marking symbols *)

(** [R]: the symbols that are there. *)
Definition marks (R : list Z) : list Z := (λ i, if bool_decide (i ∈ R) then 1024 else 0) <$> seqZ 0 20.

Lemma marks_lookup R i : 0 <= i < 20 → zget (marks R) i = Some (if bool_decide (i ∈ R) then 1024 else 0).
Proof.
  intros Hi. unfold zget. rewrite (proj2 (Z.ltb_ge _ _)) by lia. unfold marks. rewrite list_lookup_fmap, lookup_seqZ_lt by lia.
  cbn. by replace (0 + Z.of_nat (Z.to_nat i)) with i by lia.
Qed.

Lemma marks_len R : zlen (marks R) = 20.
Proof. unfold marks, zlen. by rewrite length_fmap, length_seqZ. Qed.

Lemma fmap_seqZ_insert {A} (f g : Z → A) i n :
  0 <= i < n → (∀ j, 0 <= j < n → j ≠ i → f j = g j) → <[Z.to_nat i := g i]> (f <$> seqZ 0 n) = g <$> seqZ 0 n.
Proof.
  intros Hi Hfg. apply list_eq. intros j. destruct (decide (j = Z.to_nat i)) as [->|Hj].
  - rewrite list_lookup_insert_eq by (rewrite length_fmap, length_seqZ; lia).
    rewrite list_lookup_fmap, lookup_seqZ_lt by lia. cbn. do 2 f_equal. lia.
  - rewrite list_lookup_insert_ne by done. rewrite !list_lookup_fmap.
    destruct (decide (Z.of_nat j < n)).
    + rewrite lookup_seqZ_lt by lia. cbn. f_equal. apply Hfg; lia.
    + by rewrite lookup_seqZ_ge by lia.
Qed.

Lemma marks_insert R i : 0 <= i < 20 → <[Z.to_nat i := 1024]> (marks R) = marks (i :: R).
Proof.
  intros Hi. unfold marks.
  rewrite <-(fmap_seqZ_insert (λ i, if bool_decide (i ∈ R) then 1024 else 0) (λ j, if bool_decide (j ∈ i :: R) then 1024 else 0) i 20 Hi).
  - by rewrite bool_decide_eq_true_2 by apply list_elem_of_here.
  - intros j _ Hj. by rewrite (bool_decide_ext (j ∈ R) (j ∈ i :: R)) by (rewrite elem_of_cons; tauto).
Qed.

Lemma marks_ext R R' : (∀ i, 0 <= i < 20 → i ∈ R ↔ i ∈ R') → marks R = marks R'.
Proof.
  intros H. apply list_fmap_ext. intros ? i Hi%list_elem_of_lookup_2%elem_of_seqZ. by rewrite (bool_decide_ext (i ∈ R) (i ∈ R')) by (apply H; lia).
Qed.

Lemma marks_set R i x : 0 <= i < 20 → zget (marks R) i = Some x → set_index (marks R) i x = Ret (marks R).
Proof.
  intros Hi Hx. unfold set_index. rewrite bool_decide_true by (rewrite marks_len; lia). f_equal. apply list_insert_id.
  unfold zget in Hx. by rewrite (proj2 (Z.ltb_ge _ _)) in Hx by lia.
Qed.

(** A symbol that was not there is marked; the loop looks at the next symbol too
    and leaves it as it is. *)
Lemma buffer_map_symbol R i :
  0 <= i < 20 → i ∉ R →
  let e := if i + 1 =? 20 then 19 else i + 1 in
  buffer_map_loop (Z.to_nat (e - i + 1)) 1024 i e 1024 (marks R) = Ret (marks (i :: R)).
Proof.
  intros Hi HR. pose proof (marks_lookup R i Hi) as Hl. rewrite bool_decide_eq_false_2 in Hl by done.
  assert (∀ fuel e, i <= e → buffer_map_loop (S fuel) 1024 i e 1024 (marks R) = buffer_map_loop fuel 1024 (i + 1) e 0 (marks (i :: R))) as Hstep.
  { intros fuel e He. cbn [buffer_map_loop]. rewrite (proj2 (Z.ltb_ge _ _)) by lia. rewrite (index_Ret _ _ _ Hl).
    cbn [mbind outcome_bind]. change (u32 (1024 - 0)) with 1024. change (1024 <=? 1024) with true. cbn iota.
    change (u32 (0 + 1024)) with 1024. rewrite set_index_Ret by (rewrite marks_len; lia). cbn [mbind outcome_bind].
    by rewrite marks_insert. }
  cbv zeta. destruct (Z.eqb_spec (i + 1) 20).
  - replace (Z.to_nat (19 - i + 1)) with 1%nat by lia. rewrite Hstep by lia. done.
  - replace (Z.to_nat (i + 1 - i + 1)) with 2%nat by lia. rewrite Hstep by lia. cbn [buffer_map_loop].
    rewrite (proj2 (Z.ltb_ge _ _)) by lia. assert (0 <= i + 1 < 20) as Hi1 by lia.
    pose proof (marks_lookup (i :: R) (i + 1) Hi1) as Hl1. rewrite (index_Ret _ _ _ Hl1). cbn [mbind outcome_bind].
    destruct (bool_decide _); cbn [u32]; [change (u32 (1024 - 1024)) with 0|change (u32 (1024 - 0)) with 1024]; cbn [Z.leb Z.compare].
    + rewrite marks_set by done. done.
    + by rewrite marks_set.
Qed.

(** Nothing is marked when no byte is new. *)
Lemma buffer_map_none R n :
  0 <= n < 20 → n ∉ R → buffer_map_loop (Z.to_nat (n - n + 1)) 1024 n n 0 (marks R) = Ret (marks R).
Proof.
  intros Hn HR. pose proof (marks_lookup R n Hn) as Hl. rewrite bool_decide_eq_false_2 in Hl by done.
  replace (Z.to_nat (n - n + 1)) with 1%nat by lia. cbn [buffer_map_loop]. rewrite (proj2 (Z.ltb_ge _ _)) by lia.
  rewrite (index_Ret _ _ _ Hl). cbn [mbind outcome_bind]. change (u32 (1024 - 0)) with 1024. cbn [Z.leb Z.compare].
  change (u32 (0 + u32 0)) with 0. by rewrite (marks_set R n 0 Hn Hl).
Qed.

(** ** The buffer of a block *)

Section Buffer.
Context (sym : Z → list Z) (s sid : Z) (sf : Z → StreamFrame) (ff : Z → FecFrame).
Hypothesis Hsym : ∀ i, 0 <= i < 20 → zlen (sym i) = 1024.
Hypothesis Hs : 0 <= s.
Hypothesis Hsf : ∀ i, 0 <= i < 16 → sf_Offset (sf i) = s + 1024 * i ∧ sf_Data (sf i) = sym i.
Hypothesis Hff : ∀ i, 16 <= i < 20 → fec_FecDataOffset (ff i) = 1024 * (i - 16) ∧ fec_FecData (ff i) = sym i.

(** The 20 symbols, zeros for those that are not there. *)
Definition slots (R : list Z) : list (list Z) :=
  (λ i, if bool_decide (i ∈ R) then sym i else replicate 1024 0) <$> seqZ 0 20.

Lemma slots_size R : Forall (λ x, zlen x = 1024) (slots R).
Proof.
  apply Forall_fmap, Forall_forall. intros i Hi%elem_of_seqZ. unfold compose. destruct (bool_decide _); [apply Hsym; lia|].
  unfold zlen. by rewrite length_replicate.
Qed.

Lemma slots_len R : zlen (slots R) = 20.
Proof. unfold slots, zlen. by rewrite length_fmap, length_seqZ. Qed.

Lemma slots_ext R R' : (∀ i, 0 <= i < 20 → i ∈ R ↔ i ∈ R') → slots R = slots R'.
Proof.
  intros H. apply list_fmap_ext. intros ? i Hi%list_elem_of_lookup_2%elem_of_seqZ. by rewrite (bool_decide_ext (i ∈ R) (i ∈ R')) by (apply H; lia).
Qed.

Lemma slots_insert R i : 0 <= i < 20 → <[Z.to_nat i := sym i]> (slots R) = slots (i :: R).
Proof.
  intros Hi. unfold slots.
  rewrite <-(fmap_seqZ_insert (λ i, if bool_decide (i ∈ R) then sym i else replicate 1024 0)
    (λ j, if bool_decide (j ∈ i :: R) then sym j else replicate 1024 0) i 20 Hi).
  - by rewrite bool_decide_eq_true_2 by apply list_elem_of_here.
  - intros j _ Hj. by rewrite (bool_decide_ext (j ∈ R) (j ∈ i :: R)) by (rewrite elem_of_cons; tauto).
Qed.

Lemma slots_lookup R i : i ∈ R → 0 <= i < 20 → zget (slots R) i = Some (sym i).
Proof.
  intros HR Hi. unfold zget. rewrite (proj2 (Z.ltb_ge _ _)) by lia. unfold slots. rewrite list_lookup_fmap, lookup_seqZ_lt by lia.
  cbn [fmap option_fmap option_map]. replace (0 + Z.of_nat (Z.to_nat i)) with i by lia. by rewrite bool_decide_eq_true_2.
Qed.

Lemma copy_symbol R i :
  0 <= i < 20 → copy_to (concat (slots R)) (1024 * i) (1024 * i + 1024) (sym i) = Ret (concat (slots (i :: R))).
Proof.
  intros Hi. rewrite copy_to_Ret.
  - rewrite (Z.mul_comm 1024 i). rewrite (splice_concat 1024) by (apply slots_size || by apply Hsym || by rewrite slots_len).
    by rewrite slots_insert.
  - lia.
  - rewrite Hsym by done. done.
  - rewrite (concat_zlen 1024 _ (slots_size R)), slots_len. lia.
Qed.

(** What does not change. *)
Record block_of (b : FecBuffer) : Prop := {
  bo_symbolSize : fb_symbolSize b = 1024;
  bo_numEnc : fb_numEncSymbols b = 20;
  bo_recvSize : fb_recvSizeForDecode b = 18432;
  bo_srcBlockSize : fb_srcBlockSize b = 16384;
  bo_streamID : fb_streamID b = sid;
  bo_start : fb_startStreamOffset b = s;
  bo_end : fb_endStreamOffset b = s + 16383;
  bo_timer : fb_timer b = true;
}.

(** The symbols [R] are in place. *)
Record holds (b : FecBuffer) (R : list Z) : Prop := {
  ho_block : block_of b;
  ho_encBlock : fb_encBlock b = concat (slots R);
  ho_bufferMap : fb_bufferMap b = marks R;
}.

Lemma setBufferMap_symbol b R i :
  block_of b → fb_bufferMap b = marks R → 0 <= i < 20 → i ∉ R →
  setBufferMap b (s + 1024 * i) (s + 1024 * i + 1024) = Ret (b <| fb_bufferMap := marks (i :: R) |>).
Proof.
  intros Hb Hm Hi HR. unfold setBufferMap. rewrite (bo_start b Hb), (bo_symbolSize b Hb), Hm, marks_len.
  replace (s + 1024 * i - s) with (1024 * i) by lia. replace (s + 1024 * i + 1024 - s) with (1024 * (i + 1)) by lia.
  rewrite (wrap_small 32 (1024 * i)), (wrap_small 32 (1024 * (i + 1))) by (unfold uint; lia).
  rewrite (Z.mul_comm 1024 i), (Z.mul_comm 1024 (i + 1)), !Z.div_mul by lia.
  replace (s + i * 1024 + 1024 - (s + i * 1024)) with 1024 by lia.
  assert ((if i + 1 =? 20 then u32 (i + 1 - 1) else i + 1) = (if i + 1 =? 20 then 19 else i + 1)) as ->.
  { destruct (Z.eqb_spec (i + 1) 20); [|done]. by replace (i + 1 - 1) with 19 by lia. }
  pose proof (buffer_map_symbol R i Hi HR) as Hbm. cbv zeta in Hbm. by rewrite Hbm.
Qed.

Lemma setBufferMap_none b R n :
  block_of b → fb_bufferMap b = marks R → 0 <= n < 20 → n ∉ R →
  setBufferMap b (s + 1024 * n) (s + 1024 * n) = Ret (b <| fb_bufferMap := marks R |>).
Proof.
  intros Hb Hm Hn HR. unfold setBufferMap. rewrite (bo_start b Hb), (bo_symbolSize b Hb), Hm, marks_len.
  replace (s + 1024 * n - s) with (1024 * n) by lia. rewrite Z.sub_diag.
  rewrite !wrap_small by (unfold uint; lia). rewrite (Z.mul_comm 1024 n), !Z.div_mul by lia.
  rewrite (proj2 (Z.eqb_neq n 20)) by lia. by rewrite buffer_map_none.
Qed.

Lemma place_symbol b R i :
  holds b R → 0 <= i < 20 → i ∉ R →
  place_frame (s + 1024 * i) (sym i) b =
    Ret (b <| fb_encBlock := concat (slots (i :: R)) |> <| fb_bufferMap := marks (i :: R) |>).
Proof.
  intros [Hb He Hm] Hi HR. unfold place_frame. rewrite (bo_start b Hb), He, Hsym by done.
  replace (s + 1024 * i - s) with (1024 * i) by lia. rewrite copy_symbol by done. cbn [mbind outcome_bind].
  rewrite (setBufferMap_symbol _ R) by (done || by destruct Hb). done.
Qed.

Lemma place_holds b R i :
  holds b R → holds (b <| fb_encBlock := concat (slots (i :: R)) |> <| fb_bufferMap := marks (i :: R) |>) (i :: R).
Proof. intros [[] _ _]. by repeat split. Qed.

(** ** Arrivals *)

(** The first [n] symbols came in order, [ls] and [lf] later. *)
Record buffer_inv (b : FecBuffer) (n : Z) (ls lf : list Z) : Prop := {
  bi_holds : holds b (seqZ 0 n);
  bi_n : 0 <= n < 16;
  bi_next : fb_nextFrameOffset b = s + 1024 * n;
  bi_stream : fb_oobStreamFrameQueue b ≡ₚ sf <$> ls;
  bi_fec : fb_oobFecFrameQueue b ≡ₚ ff <$> lf;
  bi_ls : NoDup ls ∧ Forall (λ i, n < i < 16) ls;
  bi_lf : NoDup lf ∧ Forall (λ i, 16 <= i < 20) lf;
  bi_streamLen : fb_streamFrameDataLength b = 1024 * (n + zlen ls);
  bi_fecLen : fb_fecFrameDataLength b = 1024 * zlen lf;
}.


Ltac buffer_fields :=
  cbn [fb_symbolSize fb_numSrcSymbols fb_numEncSymbols fb_recvSizeForDecode fb_srcBlockSize fb_streamID fb_startStreamOffset
    fb_endStreamOffset fb_nextFrameOffset fb_streamFrameDataLength fb_fecFrameDataLength fb_oobStreamFrameQueue fb_oobFecFrameQueue
    fb_encBlock fb_bufferMap fb_timer fb_decodeStarted fb_packetNumberMap update].

Lemma buffer_inv_new : buffer_inv (FecBuffer_Init sid s 1024 16) 0 [] [].
Proof.
  assert (u32 (f_int (SpecFloat.SFdiv 24 128 (f32_of_Z 16) (f32_of_frac 8 10))) = 20) as HE by (vm_compute; reflexivity).
  unfold FecBuffer_Init. rewrite HE. change (u32 (1024 * 16)) with 16384. change (u32 (1024 * 18)) with 18432.
  split; buffer_fields.
  - split; [split; buffer_fields; done || lia| |by buffer_fields].
    buffer_fields. change (u32 (1024 * 20)) with 20480.
    replace (slots (seqZ 0 0)) with (replicate 20 (replicate 1024 0)).
    + assert (Z.to_nat 20480 = 20 * 1024)%nat as -> by lia. by rewrite concat_replicate.
    + apply (replicate_as_elem_of (replicate 1024 0) 20). unfold slots. split; [by rewrite length_fmap, length_seqZ|].
      intros x (i & -> & _)%list_elem_of_fmap. by rewrite bool_decide_eq_false_2 by (change (seqZ 0 0) with (@nil Z); apply not_elem_of_nil).
  - lia.
  - lia.
  - done.
  - done.
  - split; [constructor|done].
  - split; [constructor|done].
  - done.
  - done.
Qed.

Lemma push_in_order b n pn :
  buffer_inv b n [] [] → n + 1 < 16 →
  ∃ b', PushStreamFrame b (sf n) pn = Ret b' ∧ buffer_inv b' (n + 1) [] [] ∧ fb_decodeStarted b' = fb_decodeStarted b.
Proof.
  intros [[Hb He Hm] Hn Hnext Hs0 Hf0 _ _ Hsl Hfl] Hn1. destruct (Hsf n Hn) as [Ho Hd]. unfold PushStreamFrame, StreamFrame_DataLen.
  rewrite Ho, Hd, Hsym, Hnext by lia. rewrite Z.ltb_irrefl, Z.eqb_refl. cbn [andb]. rewrite (bo_start b Hb), He.
  replace (s + 1024 * n - s) with (1024 * n) by lia. rewrite copy_symbol by lia. cbn [mbind outcome_bind].
  apply Permutation_nil_r in Hs0. rewrite Hs0. cbn [advance_queue default].
  replace (s + 1024 * n + 1024 - 1 + 1) with (s + 1024 * n + 1024) by lia.
  assert (n ∉ seqZ 0 n) as Hnin by (intros H%elem_of_seqZ; lia). cbn [mbind outcome_bind]. buffer_fields.
  erewrite (setBufferMap_symbol _ (seqZ 0 n)); [|by destruct Hb|done|lia|done]. cbn [mbind outcome_bind].
  eexists. split; [reflexivity|]. split; [|done].
  assert (∀ i, 0 <= i < 20 → i ∈ n :: seqZ 0 n ↔ i ∈ seqZ 0 (n + 1)) as Hext.
  { intros i Hi. rewrite elem_of_cons, !elem_of_seqZ. lia. }
  rewrite (slots_ext _ _ Hext), (marks_ext _ _ Hext).
  split; buffer_fields; try done; try lia.
  - split; [by destruct Hb|done..].
  - by repeat constructor.
  - by repeat constructor.
Qed.

Lemma push_stream_later b n ls lf i pn :
  buffer_inv b n ls lf → n < i < 16 → i ∉ ls →
  ∃ b', PushStreamFrame b (sf i) pn = Ret b' ∧ buffer_inv b' n (i :: ls) lf ∧ fb_decodeStarted b' = fb_decodeStarted b.
Proof.
  intros [[Hb He Hm] Hn Hnext Hs0 Hf0 [Hnd Hls] Hlf Hsl Hfl] Hi Hin. assert (0 <= i < 16) as Hi0 by lia.
  destruct (Hsf i Hi0) as [Ho Hd]. unfold PushStreamFrame, StreamFrame_DataLen. rewrite Ho, Hd, Hsym, Hnext by lia.
  rewrite (proj2 (Z.ltb_ge (s + 1024 * i) (s + 1024 * n))), (proj2 (Z.eqb_neq (s + 1024 * i) (s + 1024 * n))),
    (proj2 (Z.ltb_lt (s + 1024 * n) (s + 1024 * i))) by lia. cbn [andb mbind outcome_bind]. buffer_fields. rewrite Hnext.
  erewrite (setBufferMap_none _ (seqZ 0 n)); [|by destruct Hb|done|lia|intros H%elem_of_seqZ; lia]. cbn [mbind outcome_bind].
  eexists. split; [reflexivity|]. split; [|done]. split; buffer_fields; try done.
  - split; [by destruct Hb|done|done].
  - rewrite sort_by_Permutation, Hs0, Permutation_app_comm. done.
  - split; [by constructor|by constructor].
  - rewrite Hsl. unfold zlen. cbn [length]. lia.
Qed.

Lemma push_fec_later b n ls lf i :
  buffer_inv b n ls lf → 16 <= i < 20 → i ∉ lf →
  ∃ b', PushFecFrame b (ff i) = Ret b' ∧ buffer_inv b' n ls (i :: lf) ∧ fb_decodeStarted b' = fb_decodeStarted b.
Proof.
  intros [[Hb He Hm] Hn Hnext Hs0 Hf0 Hls [Hnd Hlf] Hsl Hfl] Hi Hin.
  destruct (Hff i Hi) as [Ho Hd]. unfold PushFecFrame, FecDataLen. rewrite Ho, Hd, Hsym, Hnext, (bo_end b Hb) by lia.
  rewrite (proj2 (Z.ltb_ge (s + 16383 + 1 + 1024 * (i - 16)) (s + 1024 * n))),
    (proj2 (Z.eqb_neq (s + 16383 + 1 + 1024 * (i - 16)) (s + 1024 * n))),
    (proj2 (Z.ltb_lt (s + 1024 * n) (s + 16383 + 1 + 1024 * (i - 16)))) by lia.
  cbn [andb mbind outcome_bind]. buffer_fields. rewrite Hnext.
  erewrite (setBufferMap_none _ (seqZ 0 n)); [|by destruct Hb|done|lia|intros H%elem_of_seqZ; lia].
  eexists. split; [reflexivity|]. split; [|done]. split; buffer_fields; try done.
  - split; [by destruct Hb|done|done].
  - rewrite sort_by_Permutation, Hf0, Permutation_app_comm. done.
  - split; [by constructor|by constructor].
  - rewrite Hfl. unfold zlen. cbn [length]. lia.
Qed.

(** ** What goes to the decoder *)

Lemma place_frames {A} (offset : A → Z) (data : A → list Z) (fr : Z → A) (end_ : Z) l : ∀ b R,
  holds b R → NoDup l → Forall (λ i, 0 <= i < 20 ∧ (i ∉ R) ∧ offset (fr i) = s + 1024 * i ∧ data (fr i) = sym i) l →
  ∃ b', foldO (λ f b, place_frame (offset f) (data f) b) (fr <$> l) b = Ret b' ∧ holds b' (reverse l ++ R) ∧
    fb_oobFecFrameQueue b' = fb_oobFecFrameQueue b ∧ fb_packetNumberMap b' = fb_packetNumberMap b.
Proof.
  induction l as [|i l IH]; intros b R Hb Hnd Hl; [by exists b|].
  apply NoDup_cons in Hnd as [Hi Hnd]. apply Forall_cons in Hl as [(Hir & HiR & Ho & Hd) Hl].
  rewrite fmap_cons. cbn [foldO]. rewrite Ho, Hd, (place_symbol b R i Hb Hir HiR). cbn [mbind outcome_bind].
  destruct (IH _ (i :: R) (place_holds b R i Hb) Hnd) as (b' & Hf & Hb' & Hq & Hp).
  - apply Forall_forall. intros j Hj. rewrite Forall_forall in Hl. destruct (Hl j Hj) as (? & HjR & ? & ?).
    split_and!; [lia|lia| |done|done]. rewrite elem_of_cons. intros [->|]; done.
  - exists b'. split; [done|]. split; [|done]. by rewrite reverse_cons, <-app_assoc.
Qed.

(** The symbols received, in order. *)
Definition received_of_block (R : list Z) : list Z := filter (.∈ R) (seqZ 0 20).

(** The state of the loop that gathers the symbols, after those of [r]. *)
Definition gathered (r : list Z) (lost : Z) : Z * list Z * list Z * Z :=
  (zlen r, r ++ replicate (20 - length r) 0, concat ((sym <$> r) ++ replicate (20 - length r) (replicate 1024 0)), lost).

Lemma gather_symbol_run b R r lost i :
  holds b R → 0 <= i < 20 → Forall (λ i, 0 <= i < 20) r → (length r < 20)%nat →
  gather_symbol b i (gathered r lost) =
    Ret (if bool_decide (i ∈ R) then gathered (r ++ [i]) lost else gathered r (lost + 1)).
Proof.
  intros [Hb He Hm] Hi Hr Hl. unfold gather_symbol, gathered. rewrite Hm, (index_Ret _ _ _ (marks_lookup R i Hi)), (bo_symbolSize b Hb).
  cbn [mbind outcome_bind]. destruct (bool_decide_reflect (i ∈ R)) as [HR|HR]; cbn [Z.eqb Pos.eqb]; [|done].
  replace (20 - length r)%nat with (S (20 - length (r ++ [i])))%nat by (rewrite length_app; cbn [length]; lia).
  set (k := (20 - length (r ++ [i]))%nat). rewrite !(replicate_S k).
  rewrite set_index_Ret by (rewrite zlen_app; unfold zlen; cbn [length]; rewrite length_replicate; lia). cbn [mbind outcome_bind].
  rewrite He. pose proof (symbol_of_concat 1024 (slots R) i (sym i) (slots_size R) (slots_lookup R i HR Hi)) as Hslot.
  unfold symbol_of in Hslot. rewrite Hslot. cbn [mbind outcome_bind].
  assert (Forall (λ x, zlen x = 1024) ((sym <$> r) ++ replicate 1024 0 :: replicate k (replicate 1024 0))) as Hsz.
  { rewrite Forall_app, Forall_fmap. split; [eapply Forall_impl; [exact Hr|intros x Hx; apply Hsym, Hx]|].
    constructor; [|apply Forall_replicate]; unfold zlen; by rewrite length_replicate. }
  assert (zlen ((sym <$> r) ++ replicate 1024 0 :: replicate k (replicate 1024 0)) = zlen r + 1 + Z.of_nat k) as Hzl.
  { unfold zlen. rewrite length_app, length_fmap. cbn [length]. rewrite length_replicate. lia. }
  rewrite copy_to_Ret; [|unfold zlen; lia|by rewrite Hsym|rewrite (concat_zlen 1024 _ Hsz), Hzl; unfold zlen; lia].
  rewrite (splice_concat 1024) by (done || by apply Hsym || (rewrite Hzl; unfold zlen; lia)). cbn [mbind outcome_bind].
  f_equal. unfold zlen. rewrite !Nat2Z.id, !insert_app_r_alt by (rewrite ?length_fmap; lia).
  rewrite length_fmap, !Nat.sub_diag. cbn [insert list_insert]. rewrite fmap_app, <-!app_assoc, length_app. cbn [length].
  rewrite wrap_small by (unfold uint; lia). by rewrite Nat2Z.inj_add.
Qed.

Lemma gather_run b R : holds b R → ∀ l r lost,
  Forall (λ i, 0 <= i < 20) l → Forall (λ i, 0 <= i < 20) r → (length r + length l <= 20)%nat →
  foldO (gather_symbol b) l (gathered r lost) =
    Ret (gathered (r ++ filter (.∈ R) l) (lost + zlen (filter (.∉ R) l))).
Proof.
  intros Hb. induction l as [|i l IH]; intros r lost Hl Hr Hlen; cbn [foldO].
  - rewrite !filter_nil, app_nil_r. repeat f_equal. unfold zlen. cbn [length]. lia.
  - apply Forall_cons in Hl as [Hi Hl]. cbn [length] in Hlen. rewrite (gather_symbol_run b R) by (done || lia).
    cbn [mbind outcome_bind]. rewrite !filter_cons. destruct (bool_decide_reflect (i ∈ R)).
    + rewrite IH; [|done|by rewrite Forall_app, Forall_singleton|rewrite length_app; cbn [length]; lia].
      rewrite (decide_True (P := i ∈ R)), (decide_False (P := i ∉ R)) by tauto. by rewrite <-app_assoc.
    + rewrite IH by (done || lia). rewrite (decide_False (P := i ∈ R)), (decide_True (P := i ∉ R)) by tauto.
      f_equal. f_equal. unfold zlen. cbn [length]. lia.
Qed.

Lemma fmap_Permutation_ex {A} (fr : Z → A) k l : k ≡ₚ fr <$> l → ∃ l', k = fr <$> l' ∧ l' ≡ₚ l.
Proof. intros (l' & -> & Hp)%Permutation_map_inv. by exists l'. Qed.

Lemma place_frame_block b b' o d : place_frame o d b = Ret b' → block_of b → block_of b'.
Proof.
  unfold place_frame, setBufferMap. destruct (copy_to _ _ _ _); cbn [mbind outcome_bind]; [|done..].
  destruct (buffer_map_loop _ _ _ _ _ _); cbn [mbind outcome_bind]; [|done..]. intros [= <-] []. by split.
Qed.

Lemma get_encode_block b n ls lf :
  buffer_inv b n ls lf →
  let r := received_of_block (seqZ 0 n ++ ls ++ lf) in
  ∃ b' lost, GetEncodeBlock b =
      Ret (b', (concat ((sym <$> r) ++ replicate (20 - length r) (replicate 1024 0)), r ++ replicate (20 - length r) 0, lost)) ∧
    block_of b' ∧ fb_packetNumberMap b' = fb_packetNumberMap b.
Proof.
  intros [Hb Hn Hnext Hs0 Hf0 [Hsnd Hls] [Hfnd Hlf] Hsl Hfl] r.
  destruct (fmap_Permutation_ex _ _ _ Hs0) as (ls' & Hq & Hps). destruct (fmap_Permutation_ex _ _ _ Hf0) as (lf' & Hqf & Hpf).
  rewrite <-Hps in Hsnd, Hls. rewrite <-Hpf in Hfnd, Hlf. unfold GetEncodeBlock. rewrite Hq.
  destruct (place_frames sf_Offset sf_Data sf 0 ls' b (seqZ 0 n) Hb Hsnd) as (b1 & Hf1 & Hb1 & Hq1 & Hp1).
  { apply Forall_forall. intros i Hi. rewrite Forall_forall in Hls. pose proof (Hls i Hi). destruct (Hsf i ltac:(lia)).
    split_and!; [lia|lia| |done|done]. rewrite elem_of_seqZ. lia. }
  rewrite Hf1. cbn [mbind outcome_bind]. rewrite Hq1, Hqf.
  destruct (place_frames (λ f, s + 16383 + 1 + fec_FecDataOffset f) fec_FecData ff 0 lf' b1 _ Hb1 Hfnd) as (b2 & Hf2 & Hb2 & _ & Hp2).
  { apply Forall_forall. intros i Hi. rewrite Forall_forall in Hlf, Hls. pose proof (Hlf i Hi). destruct (Hff i ltac:(lia)).
    split_and!; [lia|lia| |lia|done]. rewrite elem_of_app, elem_of_reverse, elem_of_seqZ. intros [Hi'%Hls|]; lia. }
  assert (foldO (λ f b, place_frame (fb_endStreamOffset b + 1 + fec_FecDataOffset f) (fec_FecData f) b) (ff <$> lf') b1 = Ret b2) as ->.
  { rewrite <-Hf2. apply foldO_ext_inv with (I := block_of); [apply (ho_block _ _ Hb1)|]. intros f b0 Hb0.
    rewrite (bo_end b0 Hb0). split; [done|]. intros b' Hpl. by eapply place_frame_block. }
  cbn [mbind outcome_bind]. rewrite (ho_bufferMap _ _ Hb2), marks_len.
  rewrite (bo_numEnc b2 (ho_block _ _ Hb2)), (bo_symbolSize b2 (ho_block _ _ Hb2)).
  assert ((0, replicate (Z.to_nat 20) 0, replicate (Z.to_nat (u32 (1024 * 20))) 0, 0) = gathered [] 0) as ->.
  { unfold gathered. cbn [length zlen fmap list_fmap app]. rewrite concat_replicate.
    change (u32 (1024 * 20)) with 20480. by assert (Z.to_nat 20480 = 20 * 1024)%nat as -> by lia. }
  rewrite (gather_run b2 _ Hb2); [|by apply Forall_seqZ|constructor|by rewrite length_seqZ].
  cbn [mbind outcome_bind app]. exists b2. eexists. split; [|split; [apply (ho_block _ _ Hb2)|by rewrite Hp2]].
  unfold gathered. assert (filter (.∈ reverse lf' ++ reverse ls' ++ seqZ 0 n) (seqZ 0 20) = r) as ->; [|reflexivity].
  apply list_filter_iff. intros i. rewrite !elem_of_app, !elem_of_reverse, Hps, Hpf. tauto.
Qed.
End Buffer.
