(* ===== verification/QuicFecTheorems.v ===== *)
(** * Recovery of lost stream data

    The receiver's side of the FEC handler: what it puts on [FecChan] for a block
    of which enough symbols have come are the symbols of the sender, and all that
    are missing are among them, unless the decoder cannot tell the block from
    another.  Then where the code falls short: reordered frames, the timer, and
    frames that are not checked. *)

From stdpp Require Import base list numbers strings gmap.
From Stdlib Require Import ZArith Lia.
From S2P Require Import Prelude Config Monitor RaptorTables Raptor RaptorCode RaptorCorrect RaptorTheorems.
From S2P Require Import QuicProtocol QuicFrames QuicFec QuicFecBuffer.

(** ** Raptor *)

Lemma RaptorInit_run p : made p → RaptorInit = Ret p.
Proof.
  intros [Hp]. unfold RaptorInit. change (index NumberOfSrcSymbolSize 0) with (Ret 16 : outcome Z).
  change (index fec_SymbolSizes 0) with (Ret 1024 : outcome Z). cbn [mbind outcome_bind].
  change MinimumOverhead with FEC_MINIMUM_OVERHEAD. change CodeRate with (f64_of_frac 8 10). by rewrite Hp.
Qed.

#[local] Opaque RaptorInit.

Lemma RaptorEncode_Encode p data : RaptorEncode p data 1024 16 = Encode (the_raptor p) data.
Proof. reflexivity. Qed.

Lemma RaptorDecode_Decode p data symbolMap : RaptorDecode p data symbolMap 1024 16 = Decode (the_raptor p) data symbolMap.
Proof.
  unfold RaptorDecode, Decode. destruct (index data 0); [|done..]. cbn [mbind outcome_bind].
  destruct (index symbolMap 0); [|done..]. cbn [mbind outcome_bind]. reflexivity.
Qed.

(** ** Frames of recovered symbols *)

Definition recovered (sid s : Z) (sym : Z → list Z) (j : Z) : StreamFrame :=
  {| sf_StreamID := sid; sf_Offset := s + 1024 * j; sf_Data := sym j; sf_Fin := false; sf_DataLenPresent := false |}.

(** [f'] is [f] with frames on [FecChan] and some packet numbers. *)
Definition delivers (f f' : FecHandler) (frames : list StreamFrame) : Prop :=
  ∃ pns, f' = f <| fh_FecChan ::= λ c, c ++ frames |> <| fh_recovered ::= λ l, l ++ pns |>.

Lemma delivers_nil f : delivers f f [].
Proof. exists []. destruct f. cbn. by rewrite !app_nil_r. Qed.

Lemma delivers_app f g h a b : delivers f g a → delivers g h b → delivers f h (a ++ b).
Proof. intros [x ->] [y ->]. exists (x ++ y). destruct f. cbn. by rewrite !app_assoc. Qed.

Section Deliver.
Context (sid s : Z) (data : list (list Z)) (b : FecBuffer).
Hypothesis Hdata : data_ok 16 1024 data.
Hypothesis Hsid : fb_streamID b = sid.
Hypothesis Hstart : fb_startStreamOffset b = s.

Let sym (j : Z) : list Z := default [] (zget data j).

Lemma recovered_frame_run f j :
  fh_symbolSize f = 1024 → 0 <= j < 16 → recovered_frame f b (concat data) j = Ret (recovered sid s sym j).
Proof.
  intros Hf Hj. destruct Hdata as [Hl Hsz]. unfold recovered_frame. rewrite Hf, Hsid, Hstart.
  rewrite (wrap_small 32 j) by (unfold uint; lia). rewrite (wrap_small 32 (j * 1024)) by (unfold uint; lia).
  rewrite (wrap_small 32 (j * 1024 + 1024)) by (unfold uint; lia).
  destruct (zget_is_Some data j) as [x Hx]; [lia|]. pose proof (symbol_of_concat 1024 data j x Hsz Hx) as Hs.
  unfold symbol_of in Hs. rewrite Hs. cbn [mbind outcome_bind]. unfold recovered, sym. rewrite Hx. do 2 f_equal. lia.
Qed.

Lemma push_lost_run prev idx l : ∀ f,
  fh_symbolSize f = 1024 → Forall (λ j, 0 <= j < 16) l →
  ∃ f', foldO (λ j f, frame ← recovered_frame f b (concat data) j;
      Ret (f <| fh_FecChan ::= λ c, c ++ [frame] |> <| fh_recovered ::= λ l, l ++ [prev + (j - idx)] |>)) l f = Ret f' ∧
    delivers f f' (recovered sid s sym <$> l).
Proof.
  induction l as [|j l IH]; intros f Hf Hl; [exists f; split; [done|apply delivers_nil]|].
  apply Forall_cons in Hl as [Hj Hl]. cbn [foldO]. rewrite recovered_frame_run by done. cbn [mbind outcome_bind].
  destruct (IH (f <| fh_FecChan ::= λ c, c ++ [recovered sid s sym j] |> <| fh_recovered ::= λ l, l ++ [prev + (j - idx)] |>))
    as (f' & -> & Hd); [by destruct f|done|].
  exists f'. split; [done|]. rewrite fmap_cons. refine (delivers_app _ _ _ [_] _ _ Hd). by exists [prev + (j - idx)].
Qed.

Lemma delivers_fixed f f' frames : delivers f f' frames → fh_symbolSize f' = fh_symbolSize f ∧ fh_numSrcSymbols f' = fh_numSrcSymbols f.
Proof. intros [? ->]. by destruct f. Qed.

(** Symbol [j] is delivered when it lies between the place [i] of a symbol of the map
    and that symbol, and the symbol is not the successor of the previous one. *)
Lemma push_received_run symbolMap m : ∀ k f prev idx next,
  k + Z.of_nat m = 16 → 0 <= k → fh_symbolSize f = 1024 → fh_numSrcSymbols f = 16 →
  16 <= zlen symbolMap → Forall (λ i, 0 <= i < 20) symbolMap →
  (next = if k =? 0 then 0 else default 0 (zget symbolMap (k - 1)) + 1) →
  ∃ f' js, push_received_loop (seqZ k (Z.of_nat m)) (concat data) symbolMap b prev idx next f = Ret f' ∧
    delivers f f' (recovered sid s sym <$> js) ∧ Forall (λ j, 0 <= j < 16) js ∧
    ∀ i j x, k <= i < 16 → zget symbolMap i = Some x → x ≠ (if i =? 0 then 0 else default 0 (zget symbolMap (i - 1)) + 1) →
      i <= j < x → j < 16 → j ∈ js.
Proof.
  induction m as [|m IH]; intros k f prev idx next Hk Hk0 Hf1 Hf2 Hlen Hmap Hnext.
  { exists f, []. split; [done|]. split; [apply delivers_nil|]. split; [done|]. intros; lia. }
  destruct (zget_is_Some symbolMap k) as [x Hx]; [lia|].
  assert (0 <= x < 20) as Hxr. { rewrite Forall_forall in Hmap. apply Hmap. apply zget_Some in Hx as [_ Hx]. by eapply list_elem_of_lookup_2. }
  rewrite seqZ_cons by lia. replace (Z.pred (Z.of_nat (S m))) with (Z.of_nat m) by lia. cbn [push_received_loop].
  rewrite (index_Ret _ _ _ Hx). cbn [mbind outcome_bind]. rewrite (wrap_small 32 (x + 1)) by (unfold uint; lia).
  assert (x + 1 = if Z.succ k =? 0 then 0 else default 0 (zget symbolMap (Z.succ k - 1)) + 1) as Hn'.
  { rewrite (proj2 (Z.eqb_neq _ _)) by lia. replace (Z.succ k - 1) with k by lia. by rewrite Hx. }
  destruct (Z.eqb_spec x next) as [Hxn|Hxn]; cbn [negb].
  - edestruct (IH (Z.succ k) f) as (f' & js & Hrun & Hd & Hjs & Hall); [lia|lia|done|done|done|done|exact Hn'|].
    exists f', js. split; [exact Hrun|]. split; [done|]. split; [done|]. intros i j y Hi Hy Hne Hj Hj16.
    destruct (decide (i = k)) as [->|]; [congruence|]. apply (Hall i j y); [lia|done..].
  - unfold push_lost. rewrite Hf2.
    destruct (push_lost_run prev idx (seqZ k (Z.min x 16 - k)) f Hf1) as (f1 & -> & Hd1).
    { apply Forall_forall. intros j Hj%elem_of_seqZ. lia. }
    cbn [mbind outcome_bind]. destruct (delivers_fixed _ _ _ Hd1) as [E1 E2].
    edestruct (IH (Z.succ k) f1) as (f' & js & Hrun & Hd & Hjs & Hall); [lia|lia|by rewrite E1|by rewrite E2|done|done|exact Hn'|].
    exists f', (seqZ k (Z.min x 16 - k) ++ js). split; [exact Hrun|]. rewrite fmap_app. split; [by eapply delivers_app|].
    split. { apply Forall_app. split; [|done]. apply Forall_forall. intros j Hj%elem_of_seqZ. lia. }
    intros i j y Hi Hy Hne Hj Hj16. rewrite elem_of_app, elem_of_seqZ. destruct (decide (i = k)) as [->|]; [left|right; apply (Hall i j y); [lia|done..]].
    simplify_eq. lia.
Qed.
End Deliver.

(** ** Every lost symbol is found *)

Lemma first_above (r : list Z) j :
  Exists (λ x, j < x) r → ∃ a x c, r = a ++ x :: c ∧ Forall (λ y, y <= j) a ∧ j < x.
Proof.
  induction r as [|y r IH]; intros Hex; [by apply Exists_nil in Hex|]. destruct (decide (j < y)).
  - by exists [], y, r.
  - apply Exists_cons in Hex as [|(a & x & c & -> & Ha & Hx)%IH]; [lia|]. exists (y :: a), x, c. split; [done|].
    split; [|done]. constructor; [lia|done].
Qed.

Lemma NoDup_below (a : list Z) j : NoDup a → Forall (λ y, 0 <= y < j) a → 0 <= j → zlen a <= j.
Proof.
  intros Hnd Ha Hj. unfold zlen. assert (length a <= length (seqZ 0 j))%nat as Hl.
  { apply submseteq_length, NoDup_submseteq; [done|]. intros y Hy. rewrite Forall_forall in Ha. apply elem_of_seqZ. pose proof (Ha y Hy). lia. }
  rewrite length_seqZ in Hl. lia.
Qed.

Lemma lost_found R pad j :
  let r := received_of_block R in
  (17 <= length r)%nat → 0 <= j < 16 → j ∉ R →
  ∃ i x, 0 <= i < 16 ∧ zget (r ++ pad) i = Some x ∧ x ≠ (if i =? 0 then 0 else default 0 (zget (r ++ pad) (i - 1)) + 1) ∧ i <= j < x.
Proof.
  intros r Hlen Hj HR. assert (NoDup r) as Hnd by (apply NoDup_filter, NoDup_seqZ).
  assert (∀ y, y ∈ r → 0 <= y ∧ y ≠ j) as Hr. { intros y [Hy1 Hy2%elem_of_seqZ]%list_elem_of_filter. split; [lia|]. by intros ->. }
  assert (Exists (λ x, j < x) r) as Hex.
  { destruct (decide (Exists (λ x, j < x) r)) as [|Hno]; [done|]. apply not_Exists_Forall in Hno; [|apply _].
    assert (zlen r <= j); [|unfold zlen in *; lia]. apply NoDup_below; [done| |lia]. apply Forall_forall. intros y Hy.
    rewrite Forall_forall in Hno. pose proof (Hno y Hy). pose proof (Hr y Hy). cbn in *. lia. }
  apply first_above in Hex as (a & x & c & Hsplit & Ha & Hx). rewrite Hsplit in Hnd, Hr.
  assert (zlen a <= j) as Hal.
  { apply NoDup_below; [by apply NoDup_app in Hnd as [? _]| |lia]. apply Forall_forall. intros y Hy. rewrite Forall_forall in Ha.
    pose proof (Ha y Hy). destruct (Hr y) as [? ?]; [apply elem_of_app; by left|]. lia. }
  exists (zlen a), x. rewrite Hsplit, <-app_assoc. cbn [app]. pose proof (zlen_nonneg a). split; [lia|].
  split. { unfold zlen. rewrite zget_nat. by rewrite list_lookup_middle. }
  split; [|lia]. destruct (Z.eqb_spec (zlen a) 0) as [|Hne]; [lia|].
  destruct a as [|y a' _] using rev_ind; [done|]. rewrite <-app_assoc, zlen_app. cbn [app].
  replace (zlen a' + zlen [y] - 1) with (Z.of_nat (length a')) by (unfold zlen; cbn [length]; lia).
  rewrite zget_nat, list_lookup_middle by done. cbn [default].
  apply Forall_app in Ha as [_ Ha]. apply Forall_cons in Ha as [Ha _]. destruct (Hr y) as [_ Hyj]; [|cbn in *; lia].
  rewrite <-app_assoc. apply elem_of_app. right. apply list_elem_of_here.
Qed.

(** ** The handler *)

Definition block_size : Z := 16384.

(** The handler of stream [sid]: buffers and decoded blocks are aligned and lie
    behind the blocks that are done. *)
Record handler_inv (sid : Z) (f : FecHandler) : Prop := {
  hi_symbolSize : fh_symbolSize f = 1024;
  hi_numSrc : fh_numSrcSymbols f = 16;
  hi_srcBlockSize : fh_srcBlockSize f = block_size;
  hi_raptor : made (fh_raptor f);
  hi_next : 0 <= fh_nextBlockOffset f ∧ fh_nextBlockOffset f mod block_size = 0;
  hi_dec : ∀ k b, fh_decQueue f !! k = Some b →
    k mod block_size = 0 ∧ fh_nextBlockOffset f <= k ∧
    fb_startStreamOffset b = k ∧ fb_endStreamOffset b = k + block_size - 1 ∧ fb_streamID b = sid;
  hi_already : ∀ k e, fh_alreadyDecQueue f !! k = Some e →
    k mod block_size = 0 ∧ fh_nextBlockOffset f < k ∧ e = (sid, k + block_size - 1);
  hi_disjoint : ∀ k, is_Some (fh_decQueue f !! k) → fh_alreadyDecQueue f !! k = None;
}.

Lemma NewFecHandler_inv sid : ∃ f, NewFecHandler = Ret f ∧ handler_inv sid f.
Proof.
  destruct (configured 1024) as (p & Hmade%Build_made & HL & HN & HM). unfold NewFecHandler. rewrite (RaptorInit_run p Hmade).
  cbn [mbind outcome_bind]. eexists. split; [reflexivity|]. split; cbn [fh_symbolSize fh_numSrcSymbols fh_srcBlockSize
    fh_raptor fh_nextBlockOffset fh_decQueue fh_alreadyDecQueue]; try reflexivity; [exact Hmade|split; [lia|reflexivity]|..];
    intros k; rewrite lookup_empty; by intros [].
Qed.

(** The block of an offset. *)
Definition block_start (offset : Z) : Z := offset / block_size * block_size.

Lemma block_start_unique k offset :
  k mod block_size = 0 → k <= offset <= k + block_size - 1 ↔ block_start offset = k.
Proof. unfold block_start, block_size. intros. split; intros; zify_div; lia. Qed.

(** [getOrCreateFecBuffer] finds the buffer of the offset's block, or makes it. *)
Lemma getOrCreate_spec sid f offset :
  handler_inv sid f → 0 <= offset →
  let k := block_start offset in
  getOrCreateFecBuffer f sid offset =
    match fh_decQueue f !! k with
    | Some _ => (f, Some k)
    | None =>
        if (fh_nextBlockOffset f <=? k) && bool_decide (fh_alreadyDecQueue f !! k = None)
        then (f <| fh_decQueue ::= <[k := FecBuffer_Init sid k 1024 16]> |>, Some k) else (f, None)
    end.
Proof.
  intros Hi Ho k. destruct (hi_next sid f Hi) as [Hn0 Hn]. unfold getOrCreateFecBuffer. rewrite (hi_srcBlockSize sid f Hi).
  assert ((fh_nextBlockOffset f <=? offset) = (fh_nextBlockOffset f <=? k)) as ->.
  { unfold k, block_start, block_size in *. apply eq_true_iff_eq. rewrite !Z.leb_le. zify_div. lia. }
  destruct (Z.leb_spec (fh_nextBlockOffset f) k) as [Hnk|Hnk]; cbn [andb].
  2:{ destruct (fh_decQueue f !! k) eqn:Hk; [|done]. destruct (hi_dec sid f Hi k _ Hk) as (_ & ? & _). lia. }
  destruct (find _ _) as [[k' b]|] eqn:Hfind.
  - apply find_some in Hfind as [Hin Hb]. apply list_elem_of_In, elem_of_map_to_list in Hin. cbn [fst snd] in Hb.
    destruct (hi_dec sid f Hi k' b Hin) as (Hk' & _ & Hst & Hen & _). rewrite Hst, Hen in Hb.
    assert (k = k') as <- by (apply block_start_unique; [done|lia]). by rewrite Hin.
  - destruct (fh_decQueue f !! k) as [b|] eqn:Hk.
    { destruct (hi_dec sid f Hi k b Hk) as (Hkm & _ & Hst & Hen & Hsid).
      eapply find_none in Hfind; [|apply list_elem_of_In, elem_of_map_to_list, Hk]. cbn [fst snd] in Hfind.
      rewrite Hst, Hen, Hsid, Z.eqb_refl in Hfind. assert (k <= offset <= k + block_size - 1) by (by apply block_start_unique). lia. }
    destruct (existsb _ _) eqn:Hex.
    + apply existsb_exists in Hex as ([k' e] & Hin & Hb). apply list_elem_of_In, elem_of_map_to_list in Hin. cbn [fst snd] in Hb.
      destruct (hi_already sid f Hi k' e Hin) as (Hk' & _ & ->). cbn [fst snd] in Hb.
      assert (k = k') as <- by (apply block_start_unique; [done|lia]). by rewrite bool_decide_eq_false_2 by congruence.
    + rewrite bool_decide_eq_true_2; [by rewrite (hi_symbolSize sid f Hi), (hi_numSrc sid f Hi)|].
      destruct (fh_alreadyDecQueue f !! k) as [e|] eqn:Hk2; [exfalso|done]. destruct (hi_already sid f Hi k e Hk2) as (Hkm & _ & ->).
      apply not_true_iff_false in Hex. apply Hex. apply existsb_exists. exists (k, (sid, k + block_size - 1)).
      split; [by apply list_elem_of_In, elem_of_map_to_list|]. cbn [fst snd].
      assert (k <= offset <= k + block_size - 1) by (by apply block_start_unique). lia.
Qed.

(** ** The frames of a block arrive *)

(** A frame with symbol [i] of the block at [s]. *)
Record stream_symbol (sid s : Z) (sym : Z → list Z) (i : Z) (f : StreamFrame) : Prop := {
  ss_id : sf_StreamID f = sid;
  ss_offset : sf_Offset f = s + 1024 * i;
  ss_data : sf_Data f = sym i;
  ss_fin : sf_Fin f = false;
}.

Record fec_symbol (sid s : Z) (sym : Z → list Z) (i : Z) (f : FecFrame) : Prop := {
  fs_id : fec_StreamID f = sid;
  fs_stream : 0 <= fec_StreamOffset f ∧ block_start (fec_StreamOffset f) = s;
  fs_offset : fec_FecDataOffset f = 1024 * (i - 16);
  fs_data : fec_FecData f = sym i;
}.

(** The frame of symbol [i] arrives, in a packet with the number [pn i]. *)
Definition arrive (sf : Z → StreamFrame) (ff : Z → FecFrame) (pn : Z → Z) (i : Z) (f : FecHandler) : outcome FecHandler :=
  if i <? 16 then PushStreamFrameToDecode f (sf i) (pn i) else PushFecFrameToDecode f (ff i).

Section Arrivals.
Context (sid s : Z) (sym : Z → list Z) (sf : Z → StreamFrame) (ff : Z → FecFrame) (pn : Z → Z) (f0 : FecHandler).
Hypothesis Hsym : ∀ i, 0 <= i < 20 → zlen (sym i) = 1024.
Hypothesis Hs : s mod block_size = 0.
Hypothesis Hsf : ∀ i, 0 <= i < 16 → stream_symbol sid s sym i (sf i).
Hypothesis Hff : ∀ i, 16 <= i < 20 → fec_symbol sid s sym i (ff i).
Hypothesis Hinv : handler_inv sid f0.
Hypothesis Hnext : fh_nextBlockOffset f0 <= s.
Hypothesis Hdec : fh_decQueue f0 !! s = None.
Hypothesis Halready : fh_alreadyDecQueue f0 !! s = None.

Local Abbreviation inv := (buffer_inv sym s sid sf ff).

Definition enough (n : Z) (ls lf : list Z) : bool := 18 <=? n + zlen ls + zlen lf.

Record arriving (f : FecHandler) (b : FecBuffer) (n : Z) (ls lf : list Z) : Prop := {
  ar_handler : f = f0 <| fh_decQueue ::= <[s := b]> |>
                      <| fh_events ::= λ es, es ++ if enough n ls lf then [(enoughRecv, s)] else [] |>;
  ar_buffer : inv b n ls lf;
  ar_started : fb_decodeStarted b = enough n ls lf;
}.

Lemma s_nonneg : 0 <= s.
Proof. destruct (hi_next sid f0 Hinv). lia. Qed.

Lemma arriving_dec f b n ls lf : arriving f b n ls lf → fh_decQueue f = <[s := b]> (fh_decQueue f0).
Proof. by intros [-> _ _]. Qed.

Lemma arriving_inv f b n ls lf : arriving f b n ls lf → handler_inv sid f.
Proof.
  intros Ha. pose proof (arriving_dec _ _ _ _ _ Ha) as Hd. destruct Ha as [Hf Hb _].
  assert (fh_symbolSize f = fh_symbolSize f0 ∧ fh_numSrcSymbols f = fh_numSrcSymbols f0 ∧ fh_srcBlockSize f = fh_srcBlockSize f0 ∧
    fh_raptor f = fh_raptor f0 ∧ fh_nextBlockOffset f = fh_nextBlockOffset f0 ∧ fh_alreadyDecQueue f = fh_alreadyDecQueue f0)
    as (E1 & E2 & E3 & E4 & E5 & E6) by (rewrite Hf; by destruct f0).
  destruct Hinv as [H1 H2 H3 H4 H5 H6 H7 H8]. split; rewrite ?E1, ?E2, ?E3, ?E4, ?E5, ?E6, ?Hd; try assumption.
  - intros k b'. rewrite lookup_insert_Some. intros [[<- <-]|[_ Hk]]; [|by apply H6].
    destruct (bi_holds _ _ _ _ _ _ _ _ _ Hb) as [[] _ _]. split; [done|]. split; [done|]. unfold block_size. split_and!; lia.
  - intros k. rewrite lookup_insert_is_Some. intros [<-|[_ Hk]]; [done|]. by apply H8.
Qed.

Lemma block_offset i : 0 <= i < 16 → 0 <= s + 1024 * i ∧ block_start (s + 1024 * i) = s.
Proof.
  intros Hi. pose proof s_nonneg. split; [lia|]. apply block_start_unique; [done|]. unfold block_size. lia.
Qed.

(** Nothing has come, or the buffer is there. *)
Definition state (f : FecHandler) (n : Z) (ls lf : list Z) : Prop :=
  f = f0 ∧ n = 0 ∧ ls = [] ∧ lf = [] ∨ ∃ b, arriving f b n ls lf.

Lemma open_buffer f n ls lf offset :
  state f n ls lf → 0 <= offset → block_start offset = s →
  ∃ f' b, getOrCreateFecBuffer f sid offset = (f', Some s) ∧ arriving f' b n ls lf.
Proof.
  intros [(-> & -> & -> & ->)|[b Hb]] Ho Hk.
  - rewrite (getOrCreate_spec sid) by done. cbv zeta. rewrite Hk, Hdec, Halready.
    rewrite (proj2 (Z.leb_le _ _)), bool_decide_eq_true_2 by done. cbn [andb]. eexists _, _. split; [reflexivity|].
    split; [|apply (buffer_inv_new sym s sid sf ff); apply s_nonneg|done]. destruct f0. cbn. by rewrite app_nil_r.
  - pose proof (arriving_inv _ _ _ _ _ Hb) as Hi. rewrite (getOrCreate_spec sid) by done. cbv zeta.
    rewrite Hk, (arriving_dec _ _ _ _ _ Hb), lookup_insert_eq. by exists f, b.
Qed.

Lemma stream_count b n ls lf : inv b n ls lf → n + zlen ls <= 15.
Proof.
  intros Hb. destruct (bi_ls _ _ _ _ _ _ _ _ _ Hb) as [Hnd Hls]. pose proof (bi_n _ _ _ _ _ _ _ _ _ Hb).
  assert (zlen ((λ i, i - (n + 1)) <$> ls) <= 15 - n) as Hl.
  { apply NoDup_below; [|rewrite Forall_fmap; eapply Forall_impl; [exact Hls|cbn; lia]|lia].
    apply NoDup_fmap_2; [intros x y; lia|done]. }
  unfold zlen in *. rewrite length_fmap in Hl. lia.
Qed.

(** A pushed symbol: the decoder is told once, when there are enough. *)
Lemma push_step f b push b' n ls lf n' ls' lf' :
  arriving f b n ls lf → push b = Ret b' → inv b' n' ls' lf' → fb_decodeStarted b' = fb_decodeStarted b →
  n' + zlen ls' + zlen lf' = n + zlen ls + zlen lf + 1 →
  ∃ f', push_to_buffer f s push false = Ret f' ∧ state f' n' ls' lf'.
Proof.
  intros Ha Hpush Hb' Hst Htot. unfold push_to_buffer. rewrite (arriving_dec _ _ _ _ _ Ha), lookup_insert_eq, Hpush.
  cbn [mbind outcome_bind]. destruct Ha as [Hf Hb Hstb]. pose proof (stream_count _ _ _ _ Hb') as Hc.
  unfold CheckDecodingPossible. destruct (bi_holds _ _ _ _ _ _ _ _ _ Hb') as [[] _ _].
  rewrite Hst, Hstb, bo_recvSize, bo_srcBlockSize, (bi_streamLen _ _ _ _ _ _ _ _ _ Hb'), (bi_fecLen _ _ _ _ _ _ _ _ _ Hb').
  rewrite (proj2 (Z.leb_gt 16384 _)) by lia.
  assert ((18432 <=? 1024 * (n' + zlen ls') + 1024 * zlen lf') = enough n' ls' lf') as ->.
  { unfold enough. apply eq_true_iff_eq. rewrite !Z.leb_le. lia. }
  assert (enough n ls lf = true → enough n' ls' lf' = true) as Hmono by (unfold enough; rewrite !Z.leb_le; lia).
  assert (∀ ev b2, inv b2 n' ls' lf' → fb_decodeStarted b2 = enough n' ls' lf' →
    (if enough n ls lf then [(enoughRecv, s)] else []) ++ ev = (if enough n' ls' lf' then [(enoughRecv, s)] else []) →
    ∃ f', Ret (f <| fh_decQueue ::= <[s := b2]> |> <| fh_events ::= λ es, es ++ ev |>) = Ret f' ∧ state f' n' ls' lf') as Hnew.
  { intros ev b2 Hb2 Hs2 Hev. eexists. split; [reflexivity|]. right. exists b2. split; [|done|done]. subst f. rewrite <-Hev.
    destruct f0. cbn. by rewrite insert_insert_eq, app_assoc. }
  destruct (enough n ls lf); [rewrite Hmono in * by done|destruct (enough n' ls' lf')]; apply Hnew; try done; try congruence.
  destruct Hb' as [[Hbo ? ?]]. by split.
Qed.

Lemma arrive_in_order f n :
  state f n [] [] → 0 <= n → n + 1 < 16 → ∃ f', arrive sf ff pn n f = Ret f' ∧ state f' (n + 1) [] [].
Proof.
  intros Hf Hn Hn1. unfold arrive. rewrite (proj2 (Z.ltb_lt _ _)) by lia. unfold PushStreamFrameToDecode.
  destruct (Hsf n) as [-> Ho Hd ->]; [lia|]. destruct (block_offset n) as [Hb0 Hbs]; [lia|]. rewrite Ho.
  destruct (open_buffer f n [] [] (s + 1024 * n) Hf Hb0 Hbs) as (f' & b & -> & Ha).
  destruct (push_in_order sym s sid sf ff Hsym) with (b := b) (n := n) (pn := pn n) as (b' & Hp & Hb' & Hst);
    [intros i Hi; by destruct (Hsf i Hi)|apply (ar_buffer _ _ _ _ _ Ha)|done|].
  apply (push_step f' b (λ b, PushStreamFrame b (sf n) (pn n)) b' n [] [] (n + 1) [] [] Ha Hp Hb' Hst). unfold zlen. cbn [length]. lia.
Qed.

Lemma arrive_later f n ls lf i :
  state f n ls lf → n < i < 20 → 0 <= n → i ∉ ls ++ lf →
  ∃ f' ls' lf', arrive sf ff pn i f = Ret f' ∧ state f' n ls' lf' ∧ ls' ++ lf' ≡ₚ i :: ls ++ lf.
Proof.
  intros Hf Hi Hn Hin. unfold arrive. apply not_elem_of_app in Hin as [Hin1 Hin2]. destruct (Z.ltb_spec i 16) as [Hi16|Hi16].
  - unfold PushStreamFrameToDecode. destruct (Hsf i) as [-> Ho Hd ->]; [lia|]. destruct (block_offset i) as [Hb0 Hbs]; [lia|].
    rewrite Ho. destruct (open_buffer f n ls lf (s + 1024 * i) Hf Hb0 Hbs) as (f' & b & -> & Ha).
    destruct (push_stream_later sym s sid sf ff Hsym) with (b := b) (n := n) (ls := ls) (lf := lf) (i := i) (pn := pn i) as (b' & Hp & Hb' & Hst);
      [intros j Hj; by destruct (Hsf j Hj)|apply (ar_buffer _ _ _ _ _ Ha)|lia|done|].
    destruct (push_step f' b (λ b, PushStreamFrame b (sf i) (pn i)) b' n ls lf n (i :: ls) lf Ha Hp Hb' Hst) as (f2 & Hp2 & Hs2);
      [unfold zlen; cbn [length]; lia|].
    exists f2, (i :: ls), lf. by rewrite Hp2.
  - unfold PushFecFrameToDecode. destruct (Hff i) as [-> [Hb0 Hbs] Ho Hd]; [lia|].
    destruct (open_buffer f n ls lf _ Hf Hb0 Hbs) as (f' & b & -> & Ha).
    destruct (push_fec_later sym s sid sf ff Hsym) with (b := b) (n := n) (ls := ls) (lf := lf) (i := i) as (b' & Hp & Hb' & Hst);
      [intros j Hj; by destruct (Hff j Hj)|apply (ar_buffer _ _ _ _ _ Ha)|lia|done|].
    destruct (push_step f' b (λ b, PushFecFrame b (ff i)) b' n ls lf n ls (i :: lf) Ha Hp Hb' Hst) as (f2 & Hp2 & Hs2);
      [unfold zlen; cbn [length]; lia|].
    exists f2, ls, (i :: lf). rewrite Hp2. split; [done|]. split; [done|]. by rewrite Permutation_middle.
Qed.

Lemma arrive_prefix n : 0 <= n < 16 → ∃ f, foldO (arrive sf ff pn) (seqZ 0 n) f0 = Ret f ∧ state f n [] [].
Proof.
  intros Hn. rewrite <-(Z2Nat.id n) by lia. assert (Z.to_nat n < 16)%nat as Hm by lia. revert Hm. generalize (Z.to_nat n) as m. clear n Hn.
  induction m as [|m IH]; intros Hm; [exists f0; split; [done|by left]|].
  destruct IH as (f & Hf & Hst); [lia|]. destruct (arrive_in_order f (Z.of_nat m) Hst) as (f' & Hf' & Hst'); [lia|lia|].
  exists f'. replace (Z.of_nat (S m)) with (Z.of_nat m + 1) by lia. rewrite seqZ_app by lia. rewrite foldO_app, Hf.
  cbn [mbind outcome_bind]. change (seqZ (0 + Z.of_nat m) 1) with [0 + Z.of_nat m]. cbn [foldO]. rewrite Z.add_0_l, Hf'. done.
Qed.

Lemma arrive_rest n rest : 0 <= n → ∀ f ls lf,
  state f n ls lf → NoDup (rest ++ ls ++ lf) → Forall (λ i, n < i < 20) rest →
  ∃ f' ls' lf', foldO (arrive sf ff pn) rest f = Ret f' ∧ state f' n ls' lf' ∧ ls' ++ lf' ≡ₚ rest ++ ls ++ lf.
Proof.
  intros Hn. induction rest as [|i rest IH]; intros f ls lf Hf Hnd Hr; [by exists f, ls, lf|].
  apply Forall_cons in Hr as [Hi Hr]. cbn [app] in Hnd. apply NoDup_cons in Hnd as [Hin Hnd].
  destruct (arrive_later f n ls lf i Hf Hi Hn) as (f1 & ls1 & lf1 & H1 & Hst1 & Hp1).
  { intros H. apply Hin, elem_of_app. by right. }
  destruct (IH f1 ls1 lf1 Hst1) as (f2 & ls2 & lf2 & H2 & Hst2 & Hp2); [|done|].
  { rewrite Hp1, <-Permutation_middle. by constructor. }
  exists f2, ls2, lf2. cbn [foldO app]. rewrite H1. cbn [mbind outcome_bind]. split; [done|]. split; [done|].
  by rewrite Hp2, Hp1, <-Permutation_middle.
Qed.
End Arrivals.

(** ** A round of the decoder *)

Lemma skip_decoded_spec sid (D : Z → Prop) fuel : ∀ next q,
  (∀ k e, q !! k = Some e → k mod block_size = 0 ∧ next <= k ∧ e = (sid, k + block_size - 1)) →
  (∀ k, D k → k mod block_size = 0 ∧ next <= k ∧ q !! k = None) →
  next mod block_size = 0 → (size q <= fuel)%nat →
  let '(next', q') := skip_decoded fuel next q in
  next' mod block_size = 0 ∧ next <= next' ∧ (∀ k e, q' !! k = Some e → q !! k = Some e ∧ next' < k) ∧ (∀ k, D k → next' <= k).
Proof.
  induction fuel as [|fuel IH]; intros next q Hq HD Hal Hsz; cbn [skip_decoded].
  - assert (q = ∅) as -> by (apply map_size_empty_iff; lia). split_and!; [done|lia|intros k e; by rewrite lookup_empty|]. intros k Hk. by apply HD.
  - destruct (q !! next) as [[x e]|] eqn:Hn.
    + destruct (Hq _ _ Hn) as (_ & _ & [= -> ->]). replace (next + block_size - 1 + 1) with (next + block_size) by lia.
      specialize (IH (next + block_size) (delete next q)).
      destruct (skip_decoded fuel (next + block_size) (delete next q)) as [n' q'].
      assert (∀ k, k mod block_size = 0 → next <= k → k ≠ next → next + block_size <= k) as Hstep.
      { unfold block_size in *. intros k Hk Hle Hne. zify_div. lia. }
      destruct IH as (Ha' & Hle & Hq' & HD').
      * intros k e' [Hne Hk]%lookup_delete_Some. destruct (Hq _ _ Hk) as (? & ? & ->). split_and!; [done|auto|done].
      * intros k Hk. destruct (HD k Hk) as (? & ? & Hnone). split; [done|]. split; [apply Hstep; [done|done|congruence]|].
        rewrite lookup_delete_None. by right.
      * unfold block_size in *. zify_div. lia.
      * rewrite map_size_delete, Hn. lia.
      * split; [done|]. split; [unfold block_size in *; lia|]. split; [|done].
        intros k e' Hk. destruct (Hq' k e' Hk) as [[_ ?]%lookup_delete_Some ?]. done.
    + split_and!; [done|lia| |intros k Hk; by apply HD]. intros k e Hk. split; [done|].
      destruct (Hq _ _ Hk) as (_ & ? & _). assert (k ≠ next) by congruence. lia.
Qed.

Ltac handler_fields :=
  cbn [fh_symbolSize fh_numSrcSymbols fh_srcBlockSize fh_fecDataLength fh_encQueue fh_transmissionQueue fh_decQueue
    fh_alreadyDecQueue fh_startOffset fh_endOffset fh_nextBlockOffset fh_raptor fh_recvBytes fh_events fh_FecChan fh_FecChanFinal
    fh_recovered update].

(** The fields that [update_next_block] leaves alone. *)
Definition same_blocks (f f' : FecHandler) : Prop :=
  fh_symbolSize f' = fh_symbolSize f ∧ fh_numSrcSymbols f' = fh_numSrcSymbols f ∧ fh_srcBlockSize f' = fh_srcBlockSize f ∧
  fh_raptor f' = fh_raptor f ∧ fh_decQueue f' = fh_decQueue f ∧ fh_FecChan f' = fh_FecChan f ∧ fh_events f' = fh_events f.

Lemma update_next_block_run sid f k b :
  handler_inv sid f → fh_decQueue f !! k = Some b →
  ∃ f', update_next_block f b = Ret f' ∧ same_blocks f f' ∧ handler_inv sid (f' <| fh_decQueue ::= delete k |>).
Proof.
  intros Hi Hk. destruct (hi_dec sid f Hi k b Hk) as (Hkm & Hnk & Hst & Hen & Hid). unfold update_next_block. rewrite Hst, Hen, Hid.
  destruct Hi as [H1 H2 H3 H4 H5 H6 H7 H8]. destruct (Z.eqb_spec k (fh_nextBlockOffset f)) as [Hkn|Hkn].
  - pose proof (skip_decoded_spec sid (λ k', k' ≠ k ∧ is_Some (fh_decQueue f !! k')) (size (fh_alreadyDecQueue f)) (k + block_size)
      (fh_alreadyDecQueue f)) as Hskip.
    assert (∀ k', k' mod block_size = 0 → k <= k' → k' ≠ k → k + block_size <= k') as Hstep.
    { unfold block_size in *. intros k' Hk' Hle Hne. zify_div. lia. }
    replace (k + block_size - 1 + 1) with (k + block_size) by lia.
    destruct (skip_decoded _ _ _) as [n' q']. destruct Hskip as (Ha & Hle & Hq & HD).
    + intros k' e Hk'. destruct (H7 k' e Hk') as (? & ? & ->). split_and!; [done|apply Hstep; [done|lia..]|done].
    + intros k' [Hne [b' Hb']]. destruct (H6 k' b' Hb') as (? & ? & _). split_and!; [done|apply Hstep; [done|lia|done]|].
      apply H8. by exists b'.
    + unfold block_size in *. zify_div. lia.
    + done.
    + eexists. split; [reflexivity|]. split; [by destruct f|].
      split; handler_fields; try assumption.
      * split; [unfold block_size in *; lia|done].
      * intros k' b' [Hne Hb']%lookup_delete_Some. destruct (H6 k' b' Hb') as (? & _ & ?). split; [done|]. split; [|done].
        apply HD. by split; [congruence|exists b'].
      * intros k' e Hk'. destruct (Hq k' e Hk') as [Hk'' ?]. destruct (H7 k' e Hk'') as (? & _ & ?). done.
      * intros k' [b' [Hne Hb']%lookup_delete_Some]. destruct (q' !! k') as [e|] eqn:He; [|done].
        apply Hq in He as [He _]. rewrite H8 in He by (by exists b'). done.
  - rewrite (proj2 (Z.ltb_lt _ _)) by lia. eexists. split; [reflexivity|]. split; [by destruct f|].
    split; handler_fields; try assumption.
    + intros k' b' [_ Hb']%lookup_delete_Some. by apply H6.
    + intros k' e [[<- <-]|[_ He]]%lookup_insert_Some; [split_and!; [done|lia|done]|by apply H7].
    + intros k' [b' [Hne Hb']%lookup_delete_Some]. rewrite lookup_insert_None. split; [apply H8; by exists b'|done].
Qed.

Lemma handler_inv_ext sid f f' :
  handler_inv sid f → fh_symbolSize f' = fh_symbolSize f → fh_numSrcSymbols f' = fh_numSrcSymbols f →
  fh_srcBlockSize f' = fh_srcBlockSize f → fh_raptor f' = fh_raptor f → fh_nextBlockOffset f' = fh_nextBlockOffset f →
  fh_decQueue f' = fh_decQueue f → fh_alreadyDecQueue f' = fh_alreadyDecQueue f → handler_inv sid f'.
Proof. intros [] E1 E2 E3 E4 E5 E6 E7. split; rewrite ?E1, ?E2, ?E3, ?E4, ?E5, ?E6, ?E7; assumption. Qed.

(** Symbol [i] of a source block and its redundancy data. *)
Definition block_symbol (block fec : list Z) (i : Z) : list Z := zslice (block ++ fec) (i * 1024) (i * 1024 + 1024).

Lemma block_symbols p block fec :
  made p → zlen block = 16384 → RaptorEncode p block 1024 16 = Ret fec →
  rp_L p = 34 → rp_N p = 17 → rp_M p = 29 →
  ∃ data, data_ok 16 1024 data ∧ block = concat data ∧ (∀ i, 0 <= i < 20 → block_symbol block fec i = code p data i) ∧
    ∀ i, 0 <= i < 16 → default [] (zget data i) = code p data i.
Proof.
  intros Hmade Hl Henc HL HN HM. destruct (split_symbols 1024 16 block) as (data & -> & Hd); [lia|lia|done|].
  rewrite RaptorEncode_Encode, (Encode_run p Hmade HM) in Henc by done. injection Henc as <-.
  exists data. split; [done|]. split; [done|]. split.
  - intros i Hi. unfold block_symbol. rewrite (block_code p Hmade HM) by done.
    pose proof (symbol_of_concat 1024 (code p data <$> seqZ 0 20) i (code p data i) (codes_size p Hmade HM data _ Hd)) as Hs.
    rewrite code_lookup in Hs. specialize (Hs (conj Hi eq_refl)). unfold symbol_of, slice in Hs.
    destruct (bool_decide _); [by injection Hs|done].
  - intros i Hi. destruct (config_ok p Hmade HM) as (Hp & Hsz & HK & Hs & _).
    pose proof Hd as Hd'%(data_source _ _ _ _ _ (made_eq p Hmade) ltac:(lia) ltac:(lia) eq_refl).
    rewrite <-(code_source p Hp Hsz data Hd') at 1. rewrite HK.
    assert (zget (code p data <$> seqZ 0 16) i = Some (code p data i)) as -> by (by apply code_lookup). done.
Qed.

(** The 17 symbols of [R] with the smallest indices are the same for another block. *)
Definition undetermined (p : raptor_params) (block fec : list Z) (R : list Z) : Prop :=
  ∃ block' fec', zlen block' = 16384 ∧ block' ≠ block ∧ RaptorEncode p block' 1024 16 = Ret fec' ∧
    Forall (λ i, block_symbol block' fec' i = block_symbol block fec i) (take 17 (received_of_block R)).

Lemma decode_received p block fec R pad :
  made p → zlen block = 16384 → RaptorEncode p block 1024 16 = Ret fec → (17 <= length (received_of_block R))%nat →
  (length (received_of_block R) + pad = 20)%nat →
  let r := received_of_block R in
  ∃ d, RaptorDecode p (concat ((block_symbol block fec <$> r) ++ replicate pad (replicate 1024 0))) (r ++ replicate pad 0) 1024 16 = Ret d ∧
    match d with Some d => d = block | None => undetermined p block fec R end.
Proof.
  intros Hmade Hl Henc Hlen Hpad r.
  destruct (configured 1024) as (p' & Hp' & HL & HN & HM). assert (p' = p) as -> by (destruct Hmade; congruence). clear Hp'.
  destruct (block_symbols p block fec Hmade Hl Henc HL HN HM) as (data & Hd & -> & Hsym & _).
  assert (Forall (λ i, 0 <= i < 20) r) as Hr. { apply Forall_forall. intros i [_ Hi%elem_of_seqZ]%list_elem_of_filter. lia. }
  assert (block_symbol (concat data) fec <$> r = code p data <$> r) as ->.
  { apply list_fmap_ext. intros ? i Hi%list_elem_of_lookup_2. apply Hsym. rewrite Forall_forall in Hr. by apply Hr. }
  rewrite RaptorDecode_Decode.
  destruct (Decode_prefix p Hmade HL HN HM data (r ++ replicate pad 0) ((code p data <$> r) ++ replicate pad (replicate 1024 0)))
    as (d & Hdec & Hres).
  - done.
  - rewrite Forall_app. split; [done|]. apply Forall_replicate. lia.
  - rewrite Forall_app. split; [by apply codes_size|]. apply Forall_replicate. unfold zlen. by rewrite length_replicate.
  - unfold zlen, r. rewrite length_app. lia.
  - unfold zlen, r. rewrite length_app, length_fmap. lia.
  - rewrite !take_app_le by (rewrite ?length_fmap; done). by rewrite fmap_take.
  - exists d. split; [exact Hdec|]. destruct d as [d|]; [done|]. destruct Hres as (d' & Hd' & _ & Hne & Hsame).
    rewrite take_app_le in Hsame by done.
    apply (data_source _ _ _ _ _ (made_eq p Hmade) ltac:(lia) ltac:(lia) eq_refl) in Hd'.
    assert (zlen (concat d') = 16384) as Hl' by (destruct Hd' as [Hl1 Hf1]; by rewrite (concat_zlen 1024), Hl1 by done).
    pose proof (Encode_run p Hmade HM d' Hd') as Henc'. rewrite <-RaptorEncode_Encode in Henc'.
    exists (concat d'), (concat (fec_symbols p d')). split; [done|].
    split; [intros Heq; apply Hne; by apply (concat_symbols_inj 16 1024)|]. split; [done|].
    destruct (block_symbols p _ _ Hmade Hl' Henc' HL HN HM) as (d2 & Hd2 & Heq & Hsym' & _).
    apply (concat_symbols_inj 16 1024) in Heq as <-; [|done|done].
    apply Forall_forall. intros i Hi. assert (0 <= i < 20) as Hi20.
    { rewrite Forall_forall in Hr. apply Hr. apply list_elem_of_lookup in Hi as [j Hj]. apply lookup_take_Some in Hj as [Hj _]. by eapply list_elem_of_lookup_2. }
    rewrite Hsym, Hsym' by done. apply list_elem_of_lookup in Hi as [j Hj]. apply (f_equal (.!! j)) in Hsame.
    rewrite !list_lookup_fmap in Hsame. unfold r in Hsame. rewrite Hj in Hsame. by injection Hsame.
Qed.

Lemma received_count R : NoDup R → Forall (λ i, 0 <= i < 20) R → (length R <= length (received_of_block R) <= 20)%nat.
Proof.
  intros Hnd HR. split.
  - apply submseteq_length, NoDup_submseteq; [done|]. intros i Hi. apply list_elem_of_filter. split; [done|].
    rewrite Forall_forall in HR. apply elem_of_seqZ. pose proof (HR i Hi). lia.
  - etrans; [apply length_filter|]. by rewrite length_seqZ.
Qed.

Lemma received_ext R R' : (∀ i, i ∈ R ↔ i ∈ R') → received_of_block R = received_of_block R'.
Proof. intros H. apply list_filter_iff. intros i. apply H. Qed.

(** The round that gets a buffer with enough symbols. *)
Lemma decode_round_run sid s block fec sf ff f0 f1 b n ls lf :
  let sym := block_symbol block fec in
  let R := seqZ 0 n ++ ls ++ lf in
  arriving sid s sym sf ff f0 f1 b n ls lf → handler_inv sid f1 → fh_decQueue f0 !! s = None → 0 <= s →
  zlen block = 16384 → RaptorEncode (fh_raptor f0) block 1024 16 = Ret fec →
  (∀ i, 0 <= i < 20 → zlen (sym i) = 1024) →
  (∀ i, 0 <= i < 16 → stream_symbol sid s sym i (sf i)) → (∀ i, 16 <= i < 20 → fec_symbol sid s sym i (ff i)) →
  (17 <= length (received_of_block R) <= 20)%nat →
  ∃ f2 js, decode_round f1 enoughRecv s = Ret (Continue f2) ∧ handler_inv sid f2 ∧ fh_decQueue f2 = fh_decQueue f0 ∧
    fh_FecChan f2 = fh_FecChan f0 ++ (recovered sid s sym <$> js) ∧ Forall (λ j, 0 <= j < 16) js ∧
    ((∀ j, 0 <= j < 16 → j ∉ R → j ∈ js) ∨ js = [] ∧ undetermined (fh_raptor f0) block fec R).
Proof.
  intros sym R Ha Hi1 Hdec Hs0 Hl Henc Hsym Hsf Hff Hcount. assert (fh_decQueue f1 = <[s := b]> (fh_decQueue f0)) as Hd1 by (eapply arriving_dec; exact Ha).
  destruct Ha as [Hf1 Hb _]. pose proof (bi_holds _ _ _ _ _ _ _ _ _ Hb) as [Hbo _ _].
  assert (fh_decQueue f1 !! s = Some b) as Hk by (by rewrite Hd1, lookup_insert_eq).
  destruct (update_next_block_run sid f1 s b Hi1 Hk) as (f2 & Hup & (E1 & E2 & E3 & E4 & E5 & E6 & _) & Hi2).
  assert (fh_FecChan f1 = fh_FecChan f0 ∧ fh_raptor f1 = fh_raptor f0) as [HFC Hrap] by (rewrite Hf1; by destruct f0).
  unfold decode_round, decode_body. rewrite Hk. cbn [bool_decide]. rewrite bool_decide_eq_false_2 by done. cbn iota. rewrite Hup. cbn [mbind outcome_bind].
  set (f3 := f2 <| fh_recvBytes ::= λ n, u32 (n + fh_srcBlockSize f2) |>).
  destruct (get_encode_block sym s sid sf ff Hsym) with (b := b) (n := n) (ls := ls) (lf := lf) as (b' & lost & -> & Hbo' & _);
    [intros i Hi; by destruct (Hsf i Hi)|intros i Hi; by destruct (Hff i Hi)|done|]. cbn [mbind outcome_bind]. fold R.
  assert (fh_raptor f3 = fh_raptor f0 ∧ fh_symbolSize f3 = 1024 ∧ fh_numSrcSymbols f3 = 16) as (-> & Hs3 & Hn3).
  { unfold f3. handler_fields. rewrite E4, E1, E2. split_and!; [done|apply Hi1|apply Hi1]. }
  rewrite Hs3, Hn3. assert (made (fh_raptor f0)) as Hmade by (rewrite <-Hrap; apply Hi1).
  destruct (decode_received (fh_raptor f0) block fec R (20 - length (received_of_block R)) Hmade Hl Henc) as (d & Hdecode & Hres); [lia|lia|].
  fold sym in Hdecode. rewrite Hdecode.  cbn [mbind outcome_bind]. rewrite (bo_start _ _ _ Hbo).
  assert (∀ f4 js, delivers f3 f4 (recovered sid s sym <$> js) →
    handler_inv sid (f4 <| fh_decQueue ::= delete s |>) ∧ fh_decQueue (f4 <| fh_decQueue ::= delete s |>) = fh_decQueue f0 ∧
    fh_FecChan (f4 <| fh_decQueue ::= delete s |>) = fh_FecChan f0 ++ (recovered sid s sym <$> js)) as Hfin.
  { intros f4 js [pns ->]. unfold f3. handler_fields. split; [by apply (handler_inv_ext sid _ _ Hi2)|].
    rewrite E5, E6, Hd1, HFC. split; [by apply delete_insert_id|done]. }
  destruct d as [d|].
  - subst d. destruct (configured 1024) as (p' & Hp' & HL & HN & HM). assert (p' = fh_raptor f0) as -> by (destruct Hmade; congruence). clear Hp'.
    destruct (block_symbols _ block fec Hmade Hl Henc HL HN HM) as (data & Hdok & -> & Hsymc & Hsrc).
    unfold pushReceiveStreamFrameQueue. rewrite Hn3.
    destruct (push_received_run sid s data b' Hdok (bo_streamID _ _ _ Hbo') (bo_start _ _ _ Hbo')
      (received_of_block R ++ replicate (20 - length (received_of_block R)) 0) 16 0 f3 0 0 0) as (f4 & js & Hpush & Hdel & Hjs & Hall);
      [done|done|done|done|unfold zlen; rewrite length_app; lia| |done|].
    { rewrite Forall_app. split; [|apply Forall_replicate; lia]. apply Forall_forall. intros i [_ Hi%elem_of_seqZ]%list_elem_of_filter. lia. }
    change (Z.of_nat 16) with 16 in Hpush. rewrite Hpush. cbn [mbind outcome_bind].
    assert (recovered sid s (λ j, default [] (zget data j)) <$> js = recovered sid s sym <$> js) as Heq.
    { apply list_fmap_ext. intros ? j Hj%list_elem_of_lookup_2. rewrite Forall_forall in Hjs. specialize (Hjs j Hj). unfold recovered.
      rewrite Hsrc by lia. unfold sym. by rewrite Hsymc by lia. }
    rewrite Heq in Hdel. destruct (Hfin f4 js Hdel) as (Hfi & Hfd & Hfc).
    unfold Destroy. rewrite (bo_timer _ _ _ Hbo). eexists _, js. split; [reflexivity|]. split; [done|]. split; [done|]. split; [done|]. split; [done|]. left. intros j Hj HjR.
    destruct (lost_found R (replicate (20 - length (received_of_block R)) 0) j) as (i & x & Hi & Hx & Hne & Hij); [lia|done|done|].
    apply (Hall i j x); [lia|done|done|lia|lia].
  - cbn [mbind outcome_bind]. destruct (Hfin f3 [] (delivers_nil f3)) as (Hfi & Hfd & Hfc).
    unfold Destroy. rewrite (bo_timer _ _ _ Hbo). eexists _, []. split; [reflexivity|]. split; [done|]. split; [done|]. split; [done|]. split; [done|]. by right.
Qed.

(** C36. Recovery of a block at [s] whose redundancy data are [fec].  The first [n]
    symbols arrive in order, the next one is lost, and of the others any arrive, in
    any order; at least 18 of the 20 symbols arrive, and the block's timer does not expire meanwhile.  Then the decoder is told once, and its
    round hands only frames with the sender's data to the stream, and a frame for
    every source symbol that is lost, unless the 17 received symbols with the smallest indices are those
    of another block as well: then it hands on nothing, even if the symbols after them would determine the block, since they are not tried. *)
Theorem fec_recovers f sid s block fec sf ff pn n rest :
  handler_inv sid f → s mod block_size = 0 → fh_nextBlockOffset f <= s →
  fh_decQueue f !! s = None → fh_alreadyDecQueue f !! s = None →
  zlen block = block_size → RaptorEncode (fh_raptor f) block 1024 16 = Ret fec →
  (∀ i, 0 <= i < 16 → stream_symbol sid s (block_symbol block fec) i (sf i)) →
  (∀ i, 16 <= i < 20 → fec_symbol sid s (block_symbol block fec) i (ff i)) →
  0 <= n < 16 → NoDup rest → Forall (λ i, n < i < 20) rest → 18 <= n + zlen rest →
  ∃ f1 f2 js,
    foldO (arrive sf ff pn) (seqZ 0 n ++ rest) f = Ret f1 ∧
    fh_events f1 = fh_events f ++ [(enoughRecv, s)] ∧ fh_FecChan f1 = fh_FecChan f ∧
    decode_round f1 enoughRecv s = Ret (Continue f2) ∧ handler_inv sid f2 ∧ fh_decQueue f2 = fh_decQueue f ∧
    fh_FecChan f2 = fh_FecChan f ++ (recovered sid s (block_symbol block fec) <$> js) ∧ Forall (λ j, 0 <= j < 16) js ∧
    ((∀ j, 0 <= j < 16 → j ∉ seqZ 0 n ++ rest → j ∈ js) ∨
     js = [] ∧ undetermined (fh_raptor f) block fec (seqZ 0 n ++ rest)).
Proof.
  intros Hi Hs Hnext Hdec Hal Hl Henc Hsf Hff Hn Hnd Hrest Hcount.
  assert (∀ i, 0 <= i < 20 → zlen (block_symbol block fec i) = 1024) as Hsym.
  { destruct (configured 1024) as (p' & Hp' & HL & HN & HM). pose proof (hi_raptor sid f Hi) as Hmade.
    assert (p' = fh_raptor f) as -> by (destruct Hmade; congruence). clear Hp'.
    destruct (block_symbols _ block fec Hmade Hl Henc HL HN HM) as (data & Hd & _ & Hsymc & _). intros i Hi20. rewrite Hsymc by done.
    pose proof (codes_size _ Hmade HM data [i] Hd) as Hc. by apply Forall_cons in Hc as [? _]. }
  destruct (arrive_prefix sid s _ sf ff pn f Hsym Hs Hsf Hi Hnext Hdec Hal n Hn) as (fa & Hfa & Hsta).
  destruct (arrive_rest sid s _ sf ff pn f Hsym Hs Hsf Hff Hi Hnext Hdec Hal n rest ltac:(lia) fa [] [] Hsta)
    as (f1 & ls & lf & Hf1 & Hst & Hperm); [by rewrite !app_nil_r|done|]. rewrite !app_nil_r in Hperm.
  assert (zlen ls + zlen lf = zlen rest) as Hlen by (apply Permutation_length in Hperm; rewrite length_app in Hperm; unfold zlen; lia).
  destruct Hst as [(_ & -> & -> & ->)|[b Ha]]; [unfold zlen in *; cbn in *; lia|].
  assert (Forall (λ i, 0 <= i < 20) (seqZ 0 n ++ rest)) as HR.
  { rewrite Forall_app. split; [apply Forall_seqZ|eapply Forall_impl; [exact Hrest|]]; cbn; lia. }
  assert (NoDup (seqZ 0 n ++ rest)) as HndR.
  { apply NoDup_app. split; [apply NoDup_seqZ|]. split; [|done]. intros i Hin%elem_of_seqZ Hir. rewrite Forall_forall in Hrest.
    pose proof (Hrest i Hir). lia. }
  assert (∀ i, i ∈ seqZ 0 n ++ ls ++ lf ↔ i ∈ seqZ 0 n ++ rest) as Hext by (intros i; by rewrite Hperm).
  pose proof (received_count _ HndR HR) as Hrc. rewrite length_app, length_seqZ in Hrc.
  assert (handler_inv sid f1) as Hi1 by (eapply arriving_inv; [..|exact Ha]; assumption).
  destruct (hi_next sid f Hi) as [Hn0 _]. assert (0 <= s) as Hs0 by lia.
  destruct (decode_round_run sid s block fec sf ff f f1 b n ls lf Ha Hi1 Hdec Hs0 Hl Henc Hsym Hsf Hff)
    as (f2 & js & Hround & Hi2 & Hd2 & Hc2 & Hjs & Hres); [rewrite (received_ext _ _ Hext); unfold zlen in Hcount; lia|].
  exists f1, f2, js. rewrite foldO_app, Hfa. cbn [mbind outcome_bind]. split; [exact Hf1|].
  assert (fh_events f1 = fh_events f ++ [(enoughRecv, s)] ∧ fh_FecChan f1 = fh_FecChan f) as [-> ->].
  { destruct Ha as [-> _ _]. unfold enough. by rewrite (proj2 (Z.leb_le _ _)) by lia. }
  split_and!; [reflexivity|reflexivity|exact Hround|exact Hi2|exact Hd2|exact Hc2|exact Hjs|]. unfold undetermined in *.
  rewrite <-(received_ext _ _ Hext). destruct Hres as [Hres|Hres]; [left|right; exact Hres]. intros j Hj HjR. apply Hres; [exact Hj|].
  by rewrite Hext.
Qed.

(** Witness: the first block of a stream, of which symbol 3 is lost. *)

Definition example_stream_frame (sid s : Z) (sym : Z → list Z) (i : Z) : StreamFrame :=
  {| sf_StreamID := sid; sf_Offset := s + 1024 * i; sf_Data := sym i; sf_Fin := false; sf_DataLenPresent := true |}.

Definition example_fec_frame (sid s : Z) (sym : Z → list Z) (i : Z) : FecFrame :=
  {| fec_StreamID := sid; fec_StreamOffset := s; fec_SymbolSize := 1024; fec_NumOfSymbols := 16;
     fec_FecDataOffset := 1024 * (i - 16); fec_FecDataLength := 1024; fec_FecTotalLength := 4096; fec_FecData := sym i;
     fec_Fin := i =? 19 |}.

Lemma fec_recovers_witness :
  ∃ f fec f1 f2 js, NewFecHandler = Ret f ∧
    let sym := block_symbol (replicate (Z.to_nat 16384) 7) fec in
    foldO (arrive (example_stream_frame 4 0 sym) (example_fec_frame 4 0 sym) id) (seqZ 0 3 ++ seqZ 4 16) f = Ret f1 ∧
    decode_round f1 enoughRecv 0 = Ret (Continue f2) ∧ fh_FecChan f2 = recovered 4 0 sym <$> js ∧ Forall (λ j, 0 <= j < 16) js.
Proof.
  destruct (NewFecHandler_inv 4) as (f & Hf & Hi).
  assert (fh_nextBlockOffset f = 0 ∧ fh_decQueue f = ∅ ∧ fh_alreadyDecQueue f = ∅ ∧ fh_FecChan f = []) as (E1 & E2 & E3 & E4).
  { revert Hf. unfold NewFecHandler. destruct RaptorInit; [|discriminate..]. cbn [mbind outcome_bind]. intros [= <-]. done. }
  set (block := replicate (Z.to_nat 16384) 7).
  assert (zlen block = block_size) as Hl by (unfold zlen, block; rewrite length_replicate, Z2Nat.id by lia; reflexivity).
  assert (∃ fec, RaptorEncode (fh_raptor f) block 1024 16 = Ret fec) as [fec Henc].
  { destruct (configured 1024) as (p' & Hp' & HL & HN & HM). pose proof (hi_raptor 4 f Hi) as Hmade.
    assert (p' = fh_raptor f) as -> by (destruct Hmade; congruence). clear Hp'.
    destruct (split_symbols 1024 16 block) as (data & Hb & Hd); [lia|lia|exact Hl|].
    exists (concat (fec_symbols (fh_raptor f) data)). rewrite RaptorEncode_Encode, Hb. by apply Encode_run. }
  destruct (fec_recovers f 4 0 block fec (example_stream_frame 4 0 (block_symbol block fec))
    (example_fec_frame 4 0 (block_symbol block fec)) id 3 (seqZ 4 16)) as (f1 & f2 & js & H1 & _ & _ & H2 & _ & _ & H3 & H4 & _).
  - exact Hi.
  - reflexivity.
  - rewrite E1. lia.
  - by rewrite E2.
  - by rewrite E3.
  - exact Hl.
  - exact Henc.
  - intros i Hi'. by split.
  - intros i Hi'. split; [reflexivity|split; [cbn; lia|reflexivity]|reflexivity|reflexivity].
  - lia.
  - apply NoDup_seqZ.
  - apply Forall_seqZ. lia.
  - unfold zlen. rewrite length_seqZ. lia.
  - exists f, fec, f1, f2, js. rewrite E4 in H3. split; [exact Hf|]. split; [exact H1|]. split; [exact H2|]. split; [exact H3|exact H4].
Defined.
