(* ===== verification/QuicFecSender.v ===== *)
(** * The sender of redundancy data, and the limits of the receiver

    [fec_encodes]: the frames of the transmission queue carry the redundancy symbols
    of the stream's blocks, as [fec_recovers] wants them, however the stream is cut
    into frames.

    Then what the receiver does not do: a block whose timer expires stops the
    decoding goroutine for good, with the mutex held; frames that are out of order
    and then made up for leave marks of symbols that have not come. *)

From stdpp Require Import base list numbers strings gmap.
From Stdlib Require Import ZArith Lia.
From S2P Require Import Prelude Config Monitor RaptorTables Raptor RaptorCode RaptorCorrect RaptorTheorems.
From S2P Require Import QuicProtocol QuicFrames QuicFec QuicFecBuffer QuicFecTheorems.

(** ** The frames of a redundancy block *)

Lemma slice_app {A} (a c : list A) : slice (a ++ c) 0 (zlen a) = Ret a ∧ slice (a ++ c) (zlen a) (zlen (a ++ c)) = Ret c.
Proof.
  unfold slice, zslice. pose proof (zlen_nonneg a). pose proof (zlen_nonneg c). rewrite !bool_decide_eq_true_2 by (rewrite zlen_app; lia).
  change (Z.to_nat 0) with 0%nat. rewrite Nat.sub_0_r, drop_0. split.
  - by rewrite take_app_exact by (unfold zlen; lia).
  - rewrite drop_app_exact by (unfold zlen; lia). rewrite take_ge; [done|]. unfold zlen. rewrite length_app. lia.
Qed.

Lemma fec_frames_run f sid total l : ∀ fuel offset,
  fh_fecDataLength f = 1024 → l ≠ [] → Forall (λ x, zlen x = 1024) l → (length l <= fuel)%nat →
  ∃ frames, fec_frames fuel f sid total offset (concat l) = Ret frames ∧ length frames = length l ∧
    ∀ i fr, frames !! i = Some fr → fec_StreamID fr = sid ∧ fec_StreamOffset fr = fh_startOffset f ∧
      fec_FecDataOffset fr = offset + 1024 * Z.of_nat i ∧ l !! i = Some (fec_FecData fr).
Proof.
  induction l as [|x l IH]; intros fuel offset Hf Hne Hl Hfuel; [done|]. destruct fuel as [|fuel]; [cbn in Hfuel; lia|].
  apply Forall_cons in Hl as [Hx Hl]. cbn [fec_frames concat]. rewrite Hf. destruct (slice_app x (concat l)) as [Hs1 Hs2].
  rewrite Hx in Hs1, Hs2. rewrite Hs1, Hs2. cbn [mbind outcome_bind]. pose proof (concat_zlen 1024 l Hl) as Hcl.
  destruct l as [|y l].
  - cbn [concat]. eexists. split; [reflexivity|]. split; [done|]. intros [|i] fr Hi; [|done]. injection Hi as <-. cbn. split_and!; [done|done|lia|done].
  - rewrite (proj2 (Z.eqb_neq (zlen (concat (y :: l))) 0)) by (rewrite Hcl; unfold zlen; cbn [length]; lia).
    destruct (IH fuel (offset + 1024)) as (frames & -> & Hlen & Hfr); [done|done|done|cbn in *; lia|].
    cbn [mbind outcome_bind]. eexists. split; [reflexivity|]. split; [cbn [length]; by rewrite Hlen|].
    intros [|i] fr Hi; cbn [lookup list_lookup] in Hi.
    + injection Hi as <-. cbn. split_and!; [done|done|lia|done].
    + destruct (Hfr i fr Hi) as (? & ? & -> & ?). split_and!; [done|done|lia|done].
Qed.

(** ** The stream's blocks *)

(** Block [k] of a stream. *)
Definition stream_block (stream : list Z) (k : Z) : list Z := zslice stream (k * block_size) (k * block_size + block_size).

(** The frames sent for block [k]: its four redundancy symbols. *)
Definition block_frames (p : raptor_params) (sid : Z) (stream : list Z) (k : Z) (frames : list FecFrame) : Prop :=
  ∃ fec, RaptorEncode p (stream_block stream k) 1024 16 = Ret fec ∧ length frames = 4%nat ∧
    ∀ i fr, frames !! i = Some fr →
      fec_symbol sid (k * block_size) (block_symbol (stream_block stream k) fec) (16 + Z.of_nat i) fr.

(** After the data of [stream]. *)
Record sender_inv (p : raptor_params) (sid : Z) (f : FecHandler) (stream : list Z) : Prop := {
  si_symbolSize : fh_symbolSize f = 1024;
  si_numSrc : fh_numSrcSymbols f = 16;
  si_srcBlockSize : fh_srcBlockSize f = block_size;
  si_fecDataLength : fh_fecDataLength f = 1024;
  si_raptor : fh_raptor f = p;
  si_encQueue : fh_encQueue f = drop (Z.to_nat (block_start (zlen stream))) stream;
  si_endOffset : 0 <= fh_endOffset f ∧ block_start (fh_endOffset f) = block_start (zlen stream);
  si_queue : ∃ groups, fh_transmissionQueue f = concat groups ∧ zlen groups = zlen stream / block_size ∧
    ∀ k g, groups !! k = Some g → block_frames p sid stream (Z.of_nat k) g;
}.

Lemma stream_block_app stream data k :
  0 <= k → (k + 1) * block_size <= zlen stream → stream_block (stream ++ data) k = stream_block stream k.
Proof.
  intros Hk Hl. unfold stream_block, zslice, zlen, block_size in *. rewrite drop_app_le by lia. rewrite take_app_le; [done|].
  rewrite length_drop. lia.
Qed.

Lemma RaptorEncode_block p block : made p → zlen block = block_size →
  ∃ l, RaptorEncode p block 1024 16 = Ret (concat l) ∧ Forall (λ x, zlen x = 1024) l ∧ length l = 4%nat ∧
    ∀ i x, l !! i = Some x → x = block_symbol block (concat l) (16 + Z.of_nat i).
Proof.
  intros Hmade Hl. destruct (configured 1024) as (p' & Hp' & HL & HN & HM). assert (p' = p) as -> by (destruct Hmade; congruence). clear Hp'.
  destruct (split_symbols 1024 16 block) as (data & Hb & Hd); [lia|lia|exact Hl|].
  assert (RaptorEncode p block 1024 16 = Ret (concat (fec_symbols p data))) as Henc
    by (rewrite RaptorEncode_Encode, Hb; by apply Encode_run).
  exists (fec_symbols p data). split; [done|]. split; [by apply codes_size|]. split; [by unfold fec_symbols; rewrite length_fmap, length_seqZ|].
  destruct (block_symbols p block _ Hmade Hl Henc HL HN HM) as (data' & Hd' & Heq & Hsym & _).
  rewrite Hb in Heq. apply (concat_symbols_inj 16 1024) in Heq as <-; [|done|done].
  intros i x Hx. unfold fec_symbols in Hx. rewrite list_lookup_fmap in Hx. apply fmap_Some in Hx as (j & Hj & ->).
  apply lookup_seqZ in Hj as [-> Hj]. symmetry. apply Hsym. lia.
Qed.

Lemma block_start_bounds t : 0 <= t → block_start t <= t < block_start t + block_size ∧ 0 <= block_start t ∧ block_start t = t / block_size * block_size.
Proof. unfold block_start, block_size. intros. zify_div. lia. Qed.

Lemma block_start_at t q : q mod block_size = 0 → q <= t < q + block_size → block_start t = q ∧ t / block_size = q / block_size.
Proof. intros Hq Ht. split; [apply block_start_unique; [done|lia]|]. unfold block_size in *. zify_div. lia. Qed.

Lemma block_start_mod t : block_start t mod block_size = 0.
Proof. unfold block_start. by apply Z.mod_mul. Qed.

Ltac fec_fields :=
  cbn [fh_symbolSize fh_numSrcSymbols fh_srcBlockSize fh_fecDataLength fh_encQueue fh_transmissionQueue fh_decQueue
    fh_alreadyDecQueue fh_startOffset fh_endOffset fh_nextBlockOffset fh_raptor fh_recvBytes fh_events fh_FecChan fh_FecChanFinal
    fh_recovered update].

Lemma groups_app p sid stream data groups :
  (∀ k g, groups !! k = Some g → block_frames p sid stream (Z.of_nat k) g) → zlen groups = zlen stream / block_size →
  ∀ k g, groups !! k = Some g → block_frames p sid (stream ++ data) (Z.of_nat k) g.
Proof.
  intros Hg Hlen k g Hk. pose proof (lookup_lt_Some _ _ _ Hk). pose proof (zlen_nonneg stream). specialize (Hg k g Hk). unfold block_frames in *.
  rewrite stream_block_app; [done|lia|]. unfold zlen in Hlen at 1. unfold block_size in *. zify_div. lia.
Qed.

(** The redundancy data of the block that [f] has just completed. *)
Lemma push_group p sid f stream k :
  made p → fh_fecDataLength f = 1024 → 0 <= fh_startOffset f → block_start (fh_startOffset f) = k * block_size →
  zlen (stream_block stream k) = block_size →
  ∃ fec group, RaptorEncode p (stream_block stream k) 1024 16 = Ret fec ∧
    pushToTransmissionQueue f fec sid = Ret (f <| fh_transmissionQueue ::= λ q, q ++ group |>) ∧ block_frames p sid stream k group.
Proof.
  intros Hmade Hlen H0 Hst Hb. destruct (RaptorEncode_block p _ Hmade Hb) as (l & Henc & Hsz & Hl4 & Hsym).
  destruct (fec_frames_run f sid (u32 (zlen (concat l))) l (S (length (concat l))) 0) as (group & Hg & Hgl & Hgr).
  - done.
  - by intros ->.
  - done.
  - pose proof (concat_zlen 1024 l Hsz) as Hc. unfold zlen in Hc. lia.
  - exists (concat l), group. split; [done|]. split; [unfold pushToTransmissionQueue; rewrite Hg; done|].
    exists (concat l). split; [done|]. split; [lia|]. intros i fr Hi. destruct (Hgr i fr Hi) as (Hid & Hso & Ho & Hd).
    split; [done|rewrite Hso; done|lia|]. by apply Hsym.
Qed.

(** The queue holds block [k] and what comes after it. *)
Lemma cut_block stream k :
  0 <= k → block_size <= zlen stream - k * block_size →
  let queue := drop (Z.to_nat (k * block_size)) stream in
  slice queue 0 block_size = Ret (stream_block stream k) ∧
  slice queue block_size (zlen stream - k * block_size) = Ret (drop (Z.to_nat (k * block_size + block_size)) stream) ∧
  zlen (stream_block stream k) = block_size.
Proof.
  intros Hk Hl queue. assert (zlen queue = zlen stream - k * block_size) as Hq.
  { unfold queue, zlen in *. rewrite length_drop. unfold block_size in *. lia. }
  unfold slice, zslice, stream_block. rewrite !bool_decide_eq_true_2 by (rewrite Hq; unfold block_size in *; lia).
  change (Z.to_nat 0) with 0%nat. rewrite drop_0, Nat.sub_0_r. unfold zslice. split_and!.
  - do 2 f_equal. unfold block_size in *. lia.
  - f_equal. unfold queue. rewrite drop_drop, take_ge; [f_equal; unfold block_size in *; lia|]. rewrite length_drop. unfold zlen, block_size in *. lia.
  - unfold zlen in *. rewrite length_take, length_drop. unfold block_size in *. lia.
Qed.

Lemma push_to_encode p sid f stream frame :
  made p → sender_inv p sid f stream → sf_StreamID frame = sid → sf_Offset frame = zlen stream → zlen (sf_Data frame) <= block_size →
  ∃ f', PushToEncode f frame = Ret f' ∧ sender_inv p sid f' (stream ++ sf_Data frame).
Proof.
  intros Hmade Hinv Hid Ho Hd. destruct f as [ss ns sb fd eq tq dq aq so eo nb rp rb ev fc fin rc].
  destruct Hinv as [E1 E2 E3 E4 E5 Hq [He0 He] (groups & Htq & Hgl & Hg)].
  cbn [fh_symbolSize fh_numSrcSymbols fh_srcBlockSize fh_fecDataLength fh_encQueue fh_transmissionQueue fh_endOffset fh_raptor] in *.
  subst ss ns sb fd rp. set (data := sf_Data frame) in *.
  pose proof (zlen_nonneg stream) as Ht0. pose proof (zlen_nonneg data) as Hd0. pose proof (block_start_bounds (zlen stream) Ht0) as (Hb & Hb0 & Hbk).
  pose proof (block_start_mod (zlen stream)) as Hmod. set (q := block_start (zlen stream)) in *.
  assert (eq ++ data = drop (Z.to_nat q) (stream ++ data)) as Happ.
  { rewrite Hq, drop_app_le; [done|]. unfold zlen in *. lia. }
  assert (zlen (drop (Z.to_nat q) (stream ++ data)) = zlen stream + zlen data - q) as Hlen.
  { unfold zlen in *. rewrite length_drop, length_app. lia. }
  unfold PushToEncode. fec_fields. fold data. rewrite Happ, Hlen. destruct (Z.leb_spec block_size (zlen stream + zlen data - q)) as [Hful|Hful].
  - set (k := zlen stream / block_size). assert (q = k * block_size) as Hqk by done.
    destruct (cut_block (stream ++ data) k) as (Hs1 & Hs2 & Hbl); [unfold k; apply Z.div_pos; [lia|done]|rewrite zlen_app; lia|].
    rewrite <-Hqk in Hs1, Hs2. rewrite (zlen_app stream data) in Hs2. rewrite Hs1. cbn [mbind outcome_bind].
    set (f2 := mk_FecHandler 1024 16 block_size 1024 (drop (Z.to_nat (q + block_size)) (stream ++ data)) tq dq aq
      (if zlen eq =? 0 then zlen stream else eo) (zlen stream + zlen data) nb p rb ev fc fin rc).
    destruct (push_group p sid f2 (stream ++ data) k Hmade) as (fec & group & -> & Hpush & Hgroup); [done| | |done|].
    { unfold f2. fec_fields. by destruct (Z.eqb_spec (zlen eq) 0). }
    { unfold f2. fec_fields. rewrite <-Hqk. by destruct (Z.eqb_spec (zlen eq) 0). }
    cbn [mbind outcome_bind].
    rewrite Hs2.
    cbn [mbind outcome_bind]. fec_fields. unfold StreamFrame_DataLen. fold data. rewrite Hid, Ho. fold f2.
    destruct (block_start_at (zlen stream + zlen data) (q + block_size)) as [Hq' Hk'].
    { unfold block_size in *. zify_div. lia. } { unfold block_size in *. lia. }
    assert (zlen (groups ++ [group]) = (zlen stream + zlen data) / block_size) as Hgl'.
    { rewrite zlen_app, Hgl, Hk', Hqk. change (zlen [group]) with 1. fold k.
      replace (k * block_size + block_size) with ((k + 1) * block_size) by lia. by rewrite Z.div_mul. }
    exists (f2 <| fh_transmissionQueue ::= λ q, q ++ group |>). split; [exact Hpush|]. unfold f2. split; fec_fields; try done.
    + by rewrite zlen_app, Hq'.
    + rewrite zlen_app. split; [lia|done].
    + exists (groups ++ [group]). rewrite (zlen_app stream data). split; [rewrite Htq, concat_app; cbn [concat]; by rewrite app_nil_r|]. split; [done|].
      intros k' g [Hk''|[Hk'' Hg']]%lookup_app_Some; [by eapply groups_app|]. apply list_lookup_singleton_Some in Hg' as [Hk0 <-].
      replace (Z.of_nat k') with k; [done|]. unfold zlen in Hgl. unfold k, zlen. lia.
  - destruct (block_start_at (zlen stream + zlen data) q Hmod ltac:(lia)) as [Hq' Hk'].
    destruct (block_start_at (zlen stream) q Hmod ltac:(lia)) as [_ Hk''].
    eexists. split; [reflexivity|]. split; fec_fields; try done.
    + by rewrite zlen_app, Hq'.
    + by rewrite zlen_app, Hq'.
    + exists groups. rewrite zlen_app, Hk', <-Hk''. split; [done|]. split; [done|]. by apply groups_app.
Qed.

(** Frames that follow one another from [offset]. *)
Fixpoint contiguous (offset : Z) (fs : list StreamFrame) : Prop :=
  match fs with
  | [] => True
  | f :: fs => sf_Offset f = offset ∧ contiguous (offset + StreamFrame_DataLen f) fs
  end.

Lemma push_all p sid : made p → ∀ fs f stream,
  sender_inv p sid f stream → contiguous (zlen stream) fs →
  Forall (λ fr, sf_StreamID fr = sid ∧ StreamFrame_DataLen fr <= block_size) fs →
  ∃ f', foldO (λ fr f, PushToEncode f fr) fs f = Ret f' ∧ sender_inv p sid f' (stream ++ concat (sf_Data <$> fs)).
Proof.
  intros Hmade. induction fs as [|fr fs IH]; intros f stream Hf Hc Hfs; [exists f; by rewrite app_nil_r|].
  destruct Hc as [Ho Hc]. apply Forall_cons in Hfs as [[Hid Hl] Hfs].
  destruct (push_to_encode p sid f stream fr Hmade Hf Hid Ho Hl) as (f1 & H1 & Hf1).
  destruct (IH f1 (stream ++ sf_Data fr) Hf1) as (f2 & H2 & Hf2); [by rewrite zlen_app|done|].
  exists f2. cbn [foldO]. rewrite H1. cbn [mbind outcome_bind]. split; [done|]. rewrite fmap_cons. cbn [concat]. by rewrite app_assoc.
Qed.

(** C37. However a stream is cut into frames, of at most a block each: the handler
    encodes every complete block of the stream once, in order, and queues four FEC
    frames for it, with its redundancy symbols and an offset that leads the receiver
    to its block.  Nothing panics. *)
Theorem fec_encodes sid fs :
  contiguous 0 fs → Forall (λ fr, sf_StreamID fr = sid ∧ StreamFrame_DataLen fr <= block_size) fs →
  ∃ f0 f groups, NewFecHandler = Ret f0 ∧ foldO (λ fr f, PushToEncode f fr) fs f0 = Ret f ∧
    let stream := concat (sf_Data <$> fs) in
    fh_transmissionQueue f = concat groups ∧ zlen groups = zlen stream / block_size ∧
    ∀ k g, groups !! k = Some g → block_frames (fh_raptor f) sid stream (Z.of_nat k) g.
Proof.
  intros Hc Hfs. destruct (configured 1024) as (p & Hmade%Build_made & HL & HN & HM).
  unfold NewFecHandler. rewrite (RaptorInit_run p Hmade). cbn [mbind outcome_bind].
  match goal with |- context [Ret ?f0 = Ret _] => set (f0' := f0) end.
  assert (sender_inv p sid f0' []) as H0.
  { split; unfold f0'; fec_fields; try reflexivity; [split; [lia|reflexivity]|]. by exists []. }
  destruct (push_all p sid Hmade fs f0' [] H0 Hc Hfs) as (f & Hf & [_ _ _ _ Hp _ _ (groups & Hq & Hl & Hg)]).
  exists f0', f, groups. rewrite Hp. done.
Qed.

Lemma fec_encodes_witness :
  let fs := (λ i, {| sf_StreamID := 4; sf_Offset := 1000 * i; sf_Data := replicate (Z.to_nat 1000) i; sf_Fin := false;
                     sf_DataLenPresent := true |}) <$> seqZ 0 17 in
  ∃ f0 f groups, NewFecHandler = Ret f0 ∧ foldO (λ fr f, PushToEncode f fr) fs f0 = Ret f ∧
    fh_transmissionQueue f = concat groups ∧ zlen groups = zlen (concat (sf_Data <$> fs)) / block_size ∧
    ∀ k g, groups !! k = Some g → block_frames (fh_raptor f) 4 (concat (sf_Data <$> fs)) (Z.of_nat k) g.
Proof.
  intros fs. apply (fec_encodes 4 fs).
  - vm_compute. repeat split.
  - apply Forall_fmap, Forall_forall. intros i _. cbn [compose sf_StreamID]. split; [reflexivity|].
    unfold StreamFrame_DataLen, zlen. cbn [sf_Data]. rewrite length_replicate. unfold block_size. lia.
Defined.

(** ** Limits of the receiver *)

(** Symbols 1 and 0 of a block arrive, in this order, and no other.  The buffer
    keeps the first in its queue after the gap is closed and marks its bytes again
    when it is decoded, as those of the next symbol: the decoder is told that symbol
    2 is there, with zeros for data, and that 17 of 20 symbols are lost. *)
Theorem fec_reordering_marks_lost_symbol x y :
  let frame i v := {| sf_StreamID := 4; sf_Offset := i * 1024; sf_Data := replicate (Z.to_nat 1024) v; sf_Fin := false;
                      sf_DataLenPresent := true |} in
  ∃ b1 b2 b3 encBlock symbolMap,
    PushStreamFrame (FecBuffer_Init 4 0 1024 16) (frame 1 y) 1 = Ret b1 ∧ PushStreamFrame b1 (frame 0 x) 0 = Ret b2 ∧
    GetEncodeBlock b2 = Ret (b3, (encBlock, symbolMap, 17)) ∧ take 3 symbolMap = [0; 1; 2] ∧
    symbol_of encBlock 1024 2 = Ret (replicate (Z.to_nat 1024) 0).
Proof.
  intros frame.
  assert ((b1 ← PushStreamFrame (FecBuffer_Init 4 0 1024 16) (frame 1 y) 1; b2 ← PushStreamFrame b1 (frame 0 x) 0;
           '(_, (encBlock, symbolMap, lost)) ← GetEncodeBlock b2; symbol ← symbol_of encBlock 1024 2;
           Ret (take 3 symbolMap, symbol, lost)) = Ret ([0; 1; 2], replicate (Z.to_nat 1024) 0, 17)) as H by (vm_compute; reflexivity).
  destruct (PushStreamFrame (FecBuffer_Init 4 0 1024 16) (frame 1 y) 1) as [b1| |]; [|discriminate..]. cbn [mbind outcome_bind] in H.
  destruct (PushStreamFrame b1 (frame 0 x) 0) as [b2| |] eqn:H2; [|discriminate..]. cbn [mbind outcome_bind] in H.
  destruct (GetEncodeBlock b2) as [[b3 [[encBlock symbolMap] lost]]| |] eqn:H3; [|discriminate..]. cbn [mbind outcome_bind] in H.
  destruct (symbol_of encBlock 1024 2) as [symbol| |] eqn:H4; [|discriminate..]. injection H as Hm Hs Hl.
  exists b1, b2, b3, encBlock, symbolMap. by rewrite H3, Hl, Hm, H4, Hs.
Qed.
