(* ===== verification/QuicFecSystem.v ===== *)
(** * The decoder, its timers and the mutex

    The receiving side of the forward error correction as a system of goroutines: frames
    of a stream are pushed, the timers of the blocks' buffers expire, and the decoding
    goroutine receives buffers, decodes them with the mutex of the handler held and
    destroys them.  A frame that is pushed takes the mutex. *)

From stdpp Require Import base list numbers strings gmap.
From Stdlib Require Import ZArith Lia.
From S2P Require Import Prelude Raptor RaptorTheorems QuicProtocol QuicFrames QuicFec QuicFecBuffer QuicFecTheorems.

(** What the decoding goroutine does: it waits in its [select], it has decoded a buffer and is in [Destroy], with the mutex held, or it has ended. *)
Inductive decoder_state := Waiting | Destroying (b : FecBuffer) (fin : bool) | Ended.

Record fec_system := mk_fec { dc_f : FecHandler; dc_state : decoder_state }.

Definition mutex_held (d : decoder_state) : bool := match d with Destroying _ _ => true | _ => false end.

(** A buffer whose timer has expired: the goroutine sends the buffer and ends. *)
Definition expired (b : FecBuffer) : FecBuffer := b <| fb_timer := false |> <| fb_decodeStarted := true |>.

(** Frames of stream [sid], whose handler this is.  A channel delivers the first of its values; [select] takes any channel. *)
Inductive fec_step (sid : Z) : fec_system → fec_system → Prop :=
| step_stream f d frame pn f' : mutex_held d = false → sf_StreamID frame = sid → 0 <= sf_Offset frame →
    PushStreamFrameToDecode f frame pn = Ret f' → fec_step sid (mk_fec f d) (mk_fec f' d)
| step_fec f d frame f' : mutex_held d = false → fec_StreamID frame = sid → 0 <= fec_StreamOffset frame →
    PushFecFrameToDecode f frame = Ret f' → fec_step sid (mk_fec f d) (mk_fec f' d)
| step_timer f d k : fec_step sid (mk_fec f d) (mk_fec (timer_expires f k) d)
| step_timer_destroying f b fin : fb_timer b = true →
    fec_step sid (mk_fec f (Destroying b fin)) (mk_fec (f <| fh_events ::= λ es, es ++ [(timeout, fb_startStreamOffset b)] |>) (Destroying (expired b) fin))
| step_receive f l1 ev k l2 f' b fin : fh_events f = l1 ++ (ev, k) :: l2 → Forall (λ e, e.1 ≠ ev) l1 →
    decode_body (f <| fh_events := l1 ++ l2 |>) ev k = Ret (f', b, fin) → fec_step sid (mk_fec f Waiting) (mk_fec f' (Destroying b fin))
| step_destroy f b (fin : bool) b' : Destroy b = Some b' → fec_step sid (mk_fec f (Destroying b fin)) (mk_fec f (if fin then Ended else Waiting)).

Definition fec_reachable (sid : Z) (s : fec_system) : Prop := ∃ f, NewFecHandler = Ret f ∧ rtc (fec_step sid) (mk_fec f Waiting) s.

(** ** What the operations leave alone *)

Definition same_id (b b' : FecBuffer) : Prop :=
  fb_timer b' = fb_timer b ∧ fb_startStreamOffset b' = fb_startStreamOffset b ∧ fb_endStreamOffset b' = fb_endStreamOffset b ∧ fb_streamID b' = fb_streamID b.

Lemma setBufferMap_id b x y b' : setBufferMap b x y = Ret b' → same_id b b'.
Proof. unfold setBufferMap. destruct (buffer_map_loop _ _ _ _ _ _); cbn [mbind outcome_bind]; [|done..]. by intros [= <-]. Qed.

Lemma same_id_trans b1 b2 b3 : same_id b1 b2 → same_id b2 b3 → same_id b1 b3.
Proof. intros (A1 & A2 & A3 & A4) (B1 & B2 & B3 & B4). split_and!; congruence. Qed.

(** The part of a push that places the frame or queues it. *)
Ltac placed_id m b :=
  assert (∀ b1, m = Ret b1 → same_id b b1) as Hm;
  [unfold m; intros b1; destruct (_ =? _);
     [destruct (copy_to _ _ _ _); cbn [mbind outcome_bind]; [|done..]; destruct (advance_queue _ _ _ _); by intros [= <-]
     |destruct (_ <? _); by intros [= <-]]|];
  clearbody m; destruct m as [b1| |]; cbn [mbind outcome_bind]; [|done..]; specialize (Hm b1 eq_refl).

Lemma PushStreamFrame_id b frame pn b' : PushStreamFrame b frame pn = Ret b' → same_id b b'.
Proof.
  unfold PushStreamFrame. destruct (_ && _); [by intros [= <-]|].
  match goal with |- context [mbind _ (if ?c then ?x else ?y)] => set (m := if c then x else y) end. placed_id m b.
  destruct (setBufferMap _ _ _) as [b2| |] eqn:E; cbn [mbind outcome_bind]; [|done..]. apply setBufferMap_id in E. intros [= <-].
  exact (same_id_trans _ _ _ Hm E).
Qed.

Lemma PushFecFrame_id b frame b' : PushFecFrame b frame = Ret b' → same_id b b'.
Proof.
  unfold PushFecFrame. destruct (_ && _); [by intros [= <-]|].
  match goal with |- context [mbind _ (if ?c then ?x else ?y)] => set (m := if c then x else y) end. placed_id m b.
  intros E%setBufferMap_id. exact (same_id_trans _ _ _ Hm E).
Qed.

Lemma CheckDecodingPossible_id b fin : same_id b (CheckDecodingPossible b fin).1 ∧ (CheckDecodingPossible b fin).2 ≠ Some timeout.
Proof. unfold CheckDecodingPossible. by repeat case_match. Qed.

(** The buffers that are there stay, with their timers, and no timeout is sent. *)
Definition keeps (f f' : FecHandler) : Prop :=
  (∀ k b, fh_decQueue f !! k = Some b → ∃ b', fh_decQueue f' !! k = Some b' ∧ fb_timer b' = fb_timer b) ∧
  (∀ k, (timeout, k) ∈ fh_events f' → (timeout, k) ∈ fh_events f).

Lemma push_to_buffer_keeps sid f k push fin f' : handler_inv sid f → (∀ b b', push b = Ret b' → same_id b b') →
  push_to_buffer f k push fin = Ret f' → handler_inv sid f' ∧ keeps f f'.
Proof.
  intros Hi Hpush. unfold push_to_buffer. destruct (fh_decQueue f !! k) as [b|] eqn:Hk; [|intros [= <-]; split; [done|by split; eauto]].
  destruct (push b) as [b1| |] eqn:E; cbn [mbind outcome_bind]; [|done..]. apply Hpush in E as (E1 & E2 & E3 & E4).
  destruct (CheckDecodingPossible_id b1 fin) as [(C1 & C2 & C3 & C4) Hev]. destruct (CheckDecodingPossible b1 fin) as [b2 event].
  cbn [fst snd] in *. intros [= <-]. split.
  - destruct Hi as [H1 H2 H3 H4 H5 H6 H7 H8]. split; handler_fields; try done.
    + intros j c. rewrite lookup_insert_Some. intros [[<- <-]|[_ Hc]]; [|by apply H6]. destruct (H6 _ _ Hk) as (A1 & A2 & A3 & A4 & A5).
      split_and!; try done; congruence.
    + intros j. rewrite lookup_insert_is_Some. intros [<-|[_ Hj]]; apply H8; eauto.
  - split; handler_fields.
    + intros j c Hc. rewrite lookup_insert. destruct (decide (k = j)) as [<-|]; [|eauto]. exists b2. split; [done|]. congruence.
    + intros j. rewrite elem_of_app. intros [?|Hj]; [done|]. destruct event as [ev|]; [|by apply elem_of_nil in Hj].
      apply list_elem_of_singleton in Hj. by injection Hj as <- _.
Qed.

Lemma getOrCreate_keeps sid f offset : handler_inv sid f → 0 <= offset →
  handler_inv sid (getOrCreateFecBuffer f sid offset).1 ∧ keeps f (getOrCreateFecBuffer f sid offset).1.
Proof.
  intros Hi Ho. rewrite (getOrCreate_spec sid f offset Hi Ho). cbv zeta. set (k := block_start offset).
  destruct (fh_decQueue f !! k) as [b|] eqn:Hk; cbn [fst]; [split; [done|by split; eauto]|].
  destruct (_ && _) eqn:E; cbn [fst]; [|split; [done|by split; eauto]]. apply andb_true_iff in E as [E1%Z.leb_le E2%bool_decide_eq_true].
  assert (k mod block_size = 0) as Hkm by (unfold k, block_start, block_size; zify_div; lia). split.
  - destruct Hi as [H1 H2 H3 H4 H5 H6 H7 H8]. split; handler_fields; try done.
    + intros j c. rewrite lookup_insert_Some. intros [[<- <-]|[_ Hc]]; [|by apply H6]. by split_and!.
    + intros j. rewrite lookup_insert_is_Some. intros [<-|[_ Hj]]; [done|by apply H8].
  - split; handler_fields; [|done]. intros j c Hc. rewrite lookup_insert_ne by congruence. eauto.
Qed.

Lemma buffers_keep_trans f g h : keeps f g → keeps g h → keeps f h.
Proof.
  intros [F1 F2] [G1 G2]. split; [|auto]. intros k b Hb. destruct (F1 k b Hb) as (b' & Hb' & E). destruct (G1 k b' Hb') as (b'' & ? & ?).
  exists b''. split; [done|congruence].
Qed.

Lemma push_keeps sid f offset push fin f' : handler_inv sid f → 0 <= offset → (∀ b b', push b = Ret b' → same_id b b') →
  match getOrCreateFecBuffer f sid offset with (f, None) => Ret f | (f, Some k) => push_to_buffer f k push fin end = Ret f' →
  handler_inv sid f' ∧ keeps f f'.
Proof.
  intros Hi Ho Hpush. destruct (getOrCreate_keeps sid f offset Hi Ho) as [Hi1 Hk1]. destruct (getOrCreateFecBuffer f sid offset) as [f1 [k|]]; cbn [fst] in *.
  - intros E. destruct (push_to_buffer_keeps sid f1 k push fin f' Hi1 Hpush E). split; [done|]. by eapply buffers_keep_trans.
  - by intros [= <-].
Qed.

(** Recovered frames go to the channel of the stream, and nothing else changes. *)
Lemma push_lost_delivers f b decBlock p prev i upto f' : push_lost f b decBlock p prev i upto = Ret f' → ∃ frames, delivers f f' frames.
Proof.
  unfold push_lost. generalize (seqZ i (Z.min upto (fh_numSrcSymbols f) - i)). intros l. revert f. induction l as [|j l IH]; intros f; cbn [foldO].
  - intros [= <-]. exists []. apply delivers_nil.
  - destruct (recovered_frame f b decBlock j) as [frame| |]; cbn [mbind outcome_bind]; [|done..]. intros E. destruct (IH _ E) as (frames & pns & ->).
    exists (frame :: frames), ((p + (j - prev)) :: pns). destruct f. cbn. by rewrite <- !app_assoc.
Qed.

Lemma delivers_trans f g h l1 l2 : delivers f g l1 → delivers g h l2 → delivers f h (l1 ++ l2).
Proof. intros [p ->] [q ->]. exists (p ++ q). destruct f. cbn. by rewrite !app_assoc. Qed.

Lemma push_received_delivers indices decBlock symbolMap b : ∀ p prev next f f',
  push_received_loop indices decBlock symbolMap b p prev next f = Ret f' → ∃ frames, delivers f f' frames.
Proof.
  induction indices as [|i indices IH]; intros p prev next f f'; cbn [push_received_loop]; [intros [= <-]; exists []; apply delivers_nil|].
  destruct (index symbolMap i) as [s| |]; cbn [mbind outcome_bind]; [|done..]. destruct (negb _); [|by apply IH].
  destruct (push_lost f b decBlock p prev i s) as [f1| |] eqn:E; cbn [mbind outcome_bind]; [|done..]. apply push_lost_delivers in E as [l1 E].
  intros H. destruct (IH _ _ _ _ _ H) as [l2 H2]. exists (l1 ++ l2). by eapply delivers_trans.
Qed.

(** A round of the decoder up to [Destroy]. *)
Lemma decode_body_spec sid f ev k f' b fin : handler_inv sid f → decode_body f ev k = Ret (f', b, fin) →
  fh_decQueue f !! k = Some b ∧ handler_inv sid f' ∧ fh_decQueue f' = delete k (fh_decQueue f) ∧ fh_events f' = fh_events f.
Proof.
  intros Hi. unfold decode_body. destruct (fh_decQueue f !! k) as [b1|] eqn:Hk; [|done].
  set (f0 := if bool_decide (ev = final) then f <| fh_FecChanFinal := true |> else f).
  assert (handler_inv sid f0 ∧ fh_decQueue f0 = fh_decQueue f ∧ fh_events f0 = fh_events f) as (Hi0 & Hd0 & He0).
  { unfold f0. destruct (bool_decide _); [|done]. split; [by apply (handler_inv_ext sid f)|done]. }
  clearbody f0. destruct (update_next_block_run sid f0 k b1 Hi0) as (f1 & -> & (E1 & E2 & E3 & E4 & E5 & E6 & E7) & Hi1); [by rewrite Hd0|].
  cbn [mbind outcome_bind]. match goal with |- context [mbind _ ?m] => set (m0 := m) end.
  assert (∀ f2, m0 = Ret f2 → ∃ frames, delivers (f1 <| fh_recvBytes ::= λ n, u32 (n + fh_srcBlockSize f1) |>) f2 frames) as Hm.
  { unfold m0. intros f2. destruct ev; try (intros [= <-]; eexists; apply delivers_nil).
    all: destruct (GetEncodeBlock b1) as [[b2 [[enc map] lost]]| |]; cbn [mbind outcome_bind]; [|done..].
    all: destruct (RaptorDecode _ _ _ _ _) as [[d|]| |]; cbn [mbind outcome_bind]; try done; [apply push_received_delivers|intros [= <-]; eexists; apply delivers_nil]. }
  clearbody m0. destruct m0 as [f2| |]; cbn [mbind outcome_bind]; [|done..]. destruct (Hm f2 eq_refl) as (frames & pns & ->). intros [= <- <- <-].
  destruct (hi_dec sid f0 Hi0 k b1) as (_ & _ & Hst & _); [by rewrite Hd0|]. rewrite Hst. split; [done|].
  split; [|split; handler_fields; congruence]. by apply (handler_inv_ext sid _ _ Hi1).
Qed.

(** ** Buffers whose timer has expired *)

(** A timeout that waits in the channel is that of a buffer whose timer goroutine is gone. *)
Definition timeouts_ok (f : FecHandler) : Prop :=
  ∀ k, (timeout, k) ∈ fh_events f → ∃ b, fh_decQueue f !! k = Some b ∧ fb_timer b = false.

Definition fec_inv (sid : Z) (s : fec_system) : Prop :=
  handler_inv sid (dc_f s) ∧
  match dc_state s with
  | Waiting => timeouts_ok (dc_f s)
  | Destroying b _ => fb_timer b = true → timeouts_ok (dc_f s)
  | Ended => True
  end.

Lemma keeps_timeouts f f' : keeps f f' → timeouts_ok f → timeouts_ok f'.
Proof. intros [K1 K2] Ht k Hk. destruct (Ht k (K2 k Hk)) as (b & Hb & E). destruct (K1 k b Hb) as (b' & ? & ?). exists b'. split; [done|congruence]. Qed.

Lemma timer_expires_keeps sid f k : handler_inv sid f →
  handler_inv sid (timer_expires f k) ∧ (timeouts_ok f → timeouts_ok (timer_expires f k)) ∧ fh_FecChan (timer_expires f k) = fh_FecChan f ∧
  fh_nextBlockOffset (timer_expires f k) = fh_nextBlockOffset f ∧ dom (fh_decQueue (timer_expires f k)) = dom (fh_decQueue f).
Proof.
  intros Hi. unfold timer_expires. destruct (fh_decQueue f !! k) as [b|] eqn:Hk; [|done]. destruct (fb_timer b); [|done]. split_and!; try done.
  - destruct Hi as [H1 H2 H3 H4 H5 H6 H7 H8]. split; handler_fields; try done.
    + intros j c. rewrite lookup_insert_Some. intros [[<- <-]|[_ Hc]]; [exact (H6 _ _ Hk)|by apply H6].
    + intros j. rewrite lookup_insert_is_Some. intros [<-|[_ Hj]]; apply H8; eauto.
  - intros Ht j. handler_fields. rewrite elem_of_app, list_elem_of_singleton, lookup_insert. intros [Hj|Hj].
    + destruct (decide (k = j)) as [<-|]; [by eexists|by apply Ht].
    + injection Hj as ->. rewrite decide_True by done. by eexists.
  - handler_fields. rewrite dom_insert_L. apply elem_of_dom_2 in Hk. by apply subseteq_union_1_L, singleton_subseteq_l.
Qed.

Lemma fec_step_inv sid s s' : fec_inv sid s → fec_step sid s s' → fec_inv sid s'.
Proof.
  intros [Hi Hs] H. destruct H as [f d frame pn f' Hd Hid Ho E|f d frame f' Hd Hid Ho E|f d k|f b fin Hb|f l1 ev k l2 f' b fin Hev Hl1 E|f b fin b' E]; cbn [dc_f dc_state] in *.
  - unfold PushStreamFrameToDecode in E. rewrite Hid in E. destruct (push_keeps sid f _ _ _ f' Hi Ho (λ b b', PushStreamFrame_id b frame pn b') E) as [Hi' Hk].
    split; [done|]. destruct d; cbn [dc_f dc_state] in *; [by eapply keeps_timeouts|done..].
  - unfold PushFecFrameToDecode in E. rewrite Hid in E. destruct (push_keeps sid f _ _ _ f' Hi Ho (λ b b', PushFecFrame_id b frame b') E) as [Hi' Hk].
    split; [done|]. destruct d; cbn [dc_f dc_state] in *; [by eapply keeps_timeouts|done..].
  - destruct (timer_expires_keeps sid f k Hi) as (Hi' & Ht & _). split; [done|]. destruct d; cbn [dc_f dc_state] in *; auto.
  - split; [by apply (handler_inv_ext sid f)|done].
  - apply (decode_body_spec sid) in E as (Hk & Hi' & Hd & He); [|by apply (handler_inv_ext sid f)]. split; [done|]. cbn [dc_f dc_state] in *.
    intros Hb j. rewrite He, Hd. handler_fields. intros Hj. change (fh_decQueue f !! k = Some b) in Hk. destruct (Hs j) as (c & Hc & Ec).
    { rewrite Hev. apply elem_of_app in Hj as [Hj|Hj]; apply elem_of_app; [by left|right; by right]. }
    exists c. split; [|done]. change (delete k (fh_decQueue f) !! j = Some c). rewrite lookup_delete_ne; [done|]. intros <-. congruence.
  - revert E. unfold Destroy. destruct (fb_timer b) eqn:Hb; [|done]. intros _. split; [done|]. destruct fin; [done|by apply Hs].
Qed.

Lemma fec_reachable_inv sid s : fec_reachable sid s → fec_inv sid s.
Proof.
  intros (f & Hf & H). assert (fec_inv sid (mk_fec f Waiting)) as H0.
  { destruct (NewFecHandler_inv sid) as (f' & Hf' & Hi). rewrite Hf in Hf'. injection Hf' as <-. split; [done|]. cbn [dc_state dc_f].
    revert Hf. unfold NewFecHandler. destruct RaptorInit; cbn [mbind outcome_bind]; [|done..]. intros [= <-] k Hk. by apply elem_of_nil in Hk. }
  induction H as [|x y z Hxy _ IH]; [done|]. apply IH. by eapply fec_step_inv.
Qed.

(** A decoder that waits in [Destroy] for a goroutine that is gone waits for ever. *)
Lemma destroying_stuck sid f b fin s' : handler_inv sid f → fb_timer b = false → rtc (fec_step sid) (mk_fec f (Destroying b fin)) s' →
  dc_state s' = Destroying b fin ∧ fh_FecChan (dc_f s') = fh_FecChan f ∧ fh_nextBlockOffset (dc_f s') = fh_nextBlockOffset f ∧
  dom (fh_decQueue (dc_f s')) = dom (fh_decQueue f).
Proof.
  intros Hi Hb H. remember (mk_fec f (Destroying b fin)) as s eqn:Es. revert f Hi Es.
  induction H as [s|x y z Hxy _ IH]; intros f Hi ->; [done|]. inversion Hxy as [? ? ? ? ? Hd|? ? ? ? Hd|? ? k|? ? ? Hb'|?|? ? ? ? E]; subst; try done.
  - destruct (timer_expires_keeps sid f k Hi) as (Hi' & _ & E1 & E2 & E3). destruct (IH _ Hi' eq_refl) as (-> & -> & -> & ->). done.
  - congruence.
  - unfold Destroy in E. by rewrite Hb in E.
Qed.

(** C39. A timeout stops the forward error correction of the stream for ever.  In every state that the frames of a stream, the timers
    and the decoder reach, when the decoder waits and receives a buffer from the channel of timeouts, or any buffer
    whose timer has expired, and gets through decoding it, then it waits in [Destroy] for the goroutine of the timer, which has ended: in every state after
    that it is still there and holds the mutex, so that no frame can be pushed any more, and no recovered frame is delivered. *)
Theorem fec_timeout_blocks sid f l1 ev k l2 f' b fin :
  fec_reachable sid (mk_fec f Waiting) → fh_events f = l1 ++ (ev, k) :: l2 →
  ev = timeout ∨ (∃ b0, fh_decQueue f !! k = Some b0 ∧ fb_timer b0 = false) →
  decode_body (f <| fh_events := l1 ++ l2 |>) ev k = Ret (f', b, fin) →
  ∀ s', rtc (fec_step sid) (mk_fec f' (Destroying b fin)) s' →
    dc_state s' = Destroying b fin ∧ mutex_held (dc_state s') = true ∧ Destroy b = None ∧
    fh_FecChan (dc_f s') = fh_FecChan f' ∧ fh_nextBlockOffset (dc_f s') = fh_nextBlockOffset f' ∧ dom (fh_decQueue (dc_f s')) = dom (fh_decQueue f').
Proof.
  intros [Hi Ht]%fec_reachable_inv Hev Hexp E s' H. cbn [dc_f dc_state] in *.
  apply (decode_body_spec sid) in E as (Hk & Hi' & _ & _); [|by apply (handler_inv_ext sid f)]. change (fh_decQueue f !! k = Some b) in Hk.
  assert (fb_timer b = false) as Hb.
  { destruct Hexp as [->|(b0 & Hb0 & ?)]; [|congruence]. destruct (Ht k) as (c & Hc & ?); [|congruence]. rewrite Hev. apply elem_of_app. right. left. }
  destruct (destroying_stuck sid f' b fin s' Hi' Hb H) as (E1 & E2 & E3 & E4). rewrite E1. unfold Destroy. rewrite Hb. by split_and!.
Qed.

(** A byte of the stream arrives, and nothing more until the timer expires; the decoder receives the timeout. *)
Definition ex_fec_frame : StreamFrame := {| sf_StreamID := 4; sf_Offset := 0; sf_Data := [1]; sf_Fin := false; sf_DataLenPresent := true |}.

Lemma fec_timeout_blocks_witness : ∃ f1 f2 b,
  fec_reachable 4 (mk_fec (timer_expires f1 0) Waiting) ∧ fh_events (timer_expires f1 0) = [(timeout, 0)] ∧
  decode_body ((timer_expires f1 0) <| fh_events := [] |>) timeout 0 = Ret (f2, b, false) ∧
  ∀ s', rtc (fec_step 4) (mk_fec f2 (Destroying b false)) s' → dc_state s' = Destroying b false ∧ fh_FecChan (dc_f s') = [].
Proof.
  assert (match (f0 ← NewFecHandler; PushStreamFrameToDecode f0 ex_fec_frame 0) with
          | Ret f1 => bool_decide (fh_events (timer_expires f1 0) = [(timeout, 0)]) &&
              match decode_body ((timer_expires f1 0) <| fh_events := [] |>) timeout 0 with Ret (f2, _, false) => bool_decide (fh_FecChan f2 = []) | _ => false end
          | _ => false
          end = true) as H by (vm_compute; reflexivity).
  destruct NewFecHandler as [f0| |] eqn:H0; [|discriminate..]. cbn [mbind outcome_bind] in H.
  destruct (PushStreamFrameToDecode f0 ex_fec_frame 0) as [f1| |] eqn:H1; [|discriminate..]. apply andb_prop in H as [Hev%bool_decide_eq_true H].
  destruct (decode_body ((timer_expires f1 0) <| fh_events := [] |>) timeout 0) as [[[f2 b] [|]]| |] eqn:H2; [discriminate| |discriminate..].
  apply bool_decide_eq_true in H. exists f1, f2, b.
  assert (fec_reachable 4 (mk_fec (timer_expires f1 0) Waiting)) as Hr.
  { exists f0. split; [exact H0|]. eapply rtc_l; [apply (step_stream 4 f0 Waiting ex_fec_frame 0 f1 eq_refl eq_refl ltac:(done) H1)|]. apply rtc_once, step_timer. }
  split; [exact Hr|]. split; [exact Hev|]. split; [exact H2|]. intros s' Hs'.
  destruct (fec_timeout_blocks 4 (timer_expires f1 0) [] timeout 0 [] f2 b false Hr Hev (or_introl eq_refl) H2 s' Hs') as (E1 & _ & _ & E4 & _).
  split; [exact E1|]. by rewrite E4.
Defined.
