(* ===== verification/QuicFrameSorter.v ===== *)
(** * The frame sorter ([frame_sorter.go])

    Puts the data of a stream's frames in order, whatever order they come in and
    however they overlap.  [gaps] are the parts of the stream that have not come, in
    order; the queue has what has come and was not read.

    A callback [DoneCb], which recycles the memory of a frame, is a number, and
    [fs_done] lists the callbacks in the order they were called.  The loops delete
    an entry of the queue or a gap in each round, which bounds the rounds. *)

From stdpp Require Import base list numbers strings gmap.
From Stdlib Require Import ZArith Lia.
From S2P Require Import Prelude LinkedList QuicProtocol.

Record ByteInterval := { bi_Start : Z; bi_End : Z }.

Record frameSorterEntry := { fse_Data : list Z; fse_DoneCb : option nat }.

Record frameSorter := mk_frameSorter {
  fs_queue : gmap Z frameSorterEntry;
  fs_readPos : Z;
  fs_gaps : elist ByteInterval;
  fs_done : list nat;
}.

#[global] Instance frameSorter_fields : Fields frameSorter := λ s,
  mk_frameSorter (fs_queue s) (fs_readPos s) (fs_gaps s) (fs_done s).

Definition newFrameSorter : frameSorter := {|
  fs_queue := ∅;
  fs_readPos := 0;
  fs_gaps := elist_PushFront empty_elist {| bi_Start := 0; bi_End := MaxByteCount |};
  fs_done := [];
|}.

Definition call (cb : option nat) (s : frameSorter) : frameSorter :=
  match cb with Some c => s <| fs_done ::= λ l, l ++ [c] |> | None => s end.

(** The loop over the elements of the list. *)
Fixpoint findStartGap (gaps : list (nat * ByteInterval)) (offset : Z) : outcome (nat * bool) :=
  match gaps with
  | [] => Panic "no gap found"
  | (gap, v) :: gaps =>
      if (bi_Start v <=? offset) && (offset <=? bi_End v) then Ret (gap, true)
      else if offset <? bi_Start v then Ret (gap, false)
      else findStartGap gaps offset
  end.

(** The loop from [startGap] on, the first element of [gaps]. *)
Fixpoint findEndGap_loop (l : elist ByteInterval) (gaps : list (nat * ByteInterval)) (offset : Z) : outcome (option nat * bool) :=
  match gaps with
  | [] => Panic "no gap found"
  | (gap, v) :: gaps =>
      if (bi_Start v <=? offset) && (offset <? bi_End v) then Ret (Some gap, true)
      else if offset <? bi_Start v then Ret (elist_Prev l gap, false)
      else findEndGap_loop l gaps offset
  end.

Definition findEndGap (l : elist ByteInterval) (startGap : nat) (offset : Z) : outcome (option nat * bool) :=
  match split_at startGap (el_elems l) with
  | Some (_, v, b) => findEndGap_loop l ((startGap, v) :: b) offset
  | None => Panic "no gap found"
  end.

Fixpoint deleteConsecutive_loop (fuel : nat) (s : frameSorter) (pos : Z) : frameSorter :=
  match fuel with
  | O => s
  | S fuel =>
      match fs_queue s !! pos with
      | None => s
      | Some oldEntry =>
          deleteConsecutive_loop fuel (call (fse_DoneCb oldEntry) (s <| fs_queue ::= delete pos |>)) (pos + zlen (fse_Data oldEntry))
      end
  end.

Definition deleteConsecutive (s : frameSorter) (pos : Z) : frameSorter :=
  deleteConsecutive_loop (size (fs_queue s)) s pos.

(** How the loop over the entries at [start] ends. *)
Inductive replaced :=
| Duplicate
| Replaced (s : frameSorter) (pos : Z) (hasReplacedAtLeastOne wasCut : bool).

(** [wasCut]: the new frame ends at [pos], where a longer entry starts. *)
Fixpoint replace_loop (fuel : nat) (s : frameSorter) (pos end_ : Z) (hasReplacedAtLeastOne : bool) : replaced :=
  match fuel with
  | O => Replaced s pos hasReplacedAtLeastOne false
  | S fuel =>
      match fs_queue s !! pos with
      | None => Replaced s pos hasReplacedAtLeastOne false
      | Some oldEntry =>
          let oldEntryLen := zlen (fse_Data oldEntry) in
          if (oldEntryLen <? end_ - pos) || (hasReplacedAtLeastOne && (end_ - pos =? oldEntryLen)) then
            replace_loop fuel (call (fse_DoneCb oldEntry) (s <| fs_queue ::= delete pos |>)) (pos + oldEntryLen) end_ true
          else if negb hasReplacedAtLeastOne then Duplicate
          else Replaced s pos true true
      end
  end.

(** The gaps from [gap] on that end before [endGapStart]. *)
Fixpoint remove_gaps (fuel : nat) (s : frameSorter) (gap : option nat) (endGapStart : Z) : outcome frameSorter :=
  match fuel with
  | O => Ret s
  | S fuel =>
      match gap with
      | None => nil_pointer
      | Some g =>
          v ← elist_Value (fs_gaps s) g;
          if bi_End v <? endGapStart then
            let nextGap := elist_Next (fs_gaps s) g in
            let s := deleteConsecutive s (bi_End v) in
            remove_gaps fuel (s <| fs_gaps ::= λ l, elist_Remove l g |>) nextGap endGapStart
          else Ret s
      end
  end.

Definition set_Start (l : elist ByteInterval) (gap : nat) (x : Z) : outcome (elist ByteInterval) :=
  v ← elist_Value l gap; Ret (elist_set l gap {| bi_Start := x; bi_End := bi_End v |}).

Definition set_End (l : elist ByteInterval) (gap : nat) (x : Z) : outcome (elist ByteInterval) :=
  v ← elist_Value l gap; Ret (elist_set l gap {| bi_Start := bi_Start v; bi_End := x |}).

Definition errDuplicateStreamData : go_error := GoError "duplicate stream data".
Definition errTooManyGaps : go_error := GoError "too many gaps in received data".

(** The update of [startGap]: the new state, and whether its end was moved. *)
Definition update_startGap (s : frameSorter) (startGap : nat) (v : ByteInterval) (start end_ : Z) (hasReplacedAtLeastOne : bool) :
    outcome (frameSorter * bool) :=
  if start <=? bi_Start v then
    if bi_End v <=? end_ then Ret (s <| fs_gaps ::= λ l, elist_Remove l startGap |>, false)
    else gaps ← set_Start (fs_gaps s) startGap end_; Ret (s <| fs_gaps := gaps |>, false)
  else if negb hasReplacedAtLeastOne then
    gaps ← set_End (fs_gaps s) startGap start; Ret (s <| fs_gaps := gaps |>, true)
  else Ret (s, false).

(** The update of [endGap], for a frame that ends at [end_]. *)
Definition update_endGap (s : frameSorter) (startGap endGap : nat) (startGapEqualsEndGap adjustedStartGapEnd : bool)
    (startGapEnd endGapEnd end_ : Z) : outcome frameSorter :=
  if end_ =? endGapEnd then
    Ret (if negb startGapEqualsEndGap then s <| fs_gaps ::= λ l, elist_Remove l endGap |> else s)
  else if startGapEqualsEndGap && adjustedStartGapEnd then
    Ret (s <| fs_gaps ::= λ l, elist_InsertAfter l {| bi_Start := end_; bi_End := startGapEnd |} startGap |>)
  else if negb startGapEqualsEndGap then
    gaps ← set_Start (fs_gaps s) endGap end_; Ret (s <| fs_gaps := gaps |>)
  else Ret s.

(** The end of [push], from the cut at the start of the gap on. *)
Definition push_frame (s : frameSorter) (data : list Z) (start end_ : Z) (startGap endGap : nat) (startV endV : ByteInterval)
    (startsInGap endsInGap hasReplacedAtLeastOne wasCut : bool) (startGapNext : option nat) (doneCb : option nat) :
    outcome (frameSorter * option go_error) :=
  let startGapEqualsEndGap := bool_decide (startGap = endGap) in
  '(data, start, wasCut) ←
    (if negb startsInGap && negb hasReplacedAtLeastOne then
       data ← slice data (bi_Start startV - start) (zlen data); Ret (data, bi_Start startV, true)
     else Ret (data, start, wasCut));
  '(s, adjustedStartGapEnd) ← update_startGap s startGap startV start end_ hasReplacedAtLeastOne;
  s ← (if negb startGapEqualsEndGap then
         let s := deleteConsecutive s (bi_End startV) in
         remove_gaps (S (length (el_elems (fs_gaps s)))) s startGapNext (bi_Start endV)
       else Ret s);
  '(data, end_, wasCut) ←
    (if negb endsInGap && negb (start =? bi_End endV) && (bi_End endV <? end_) then
       data ← slice data 0 (bi_End endV - start); Ret (data, bi_End endV, true)
     else Ret (data, end_, wasCut));
  s ← update_endGap s startGap endGap startGapEqualsEndGap adjustedStartGapEnd (bi_End startV) (bi_End endV) end_;
  let '(s, doneCb) := if wasCut && (zlen data <? MinStreamFrameBufferSize) then (call doneCb s, None) else (s, doneCb) in
  if MaxStreamFrameSorterGaps <? elist_Len (fs_gaps s) then Ret (s, Some errTooManyGaps) else
  Ret (s <| fs_queue ::= <[start := {| fse_Data := data; fse_DoneCb := doneCb |}]> |>, None).

Definition push (s : frameSorter) (data : list Z) (offset : Z) (doneCb : option nat) : outcome (frameSorter * option go_error) :=
  let duplicate := Ret (s, Some errDuplicateStreamData) in
  if zlen data =? 0 then duplicate else
  let start := offset in
  let end_ := offset + zlen data in
  front ← (match elist_Front (fs_gaps s) with Some g => elist_Value (fs_gaps s) g | None => nil_pointer end);
  if end_ <=? bi_Start front then duplicate else
  '(startGap, startsInGap) ← findStartGap (el_elems (fs_gaps s)) start;
  '(endGap, endsInGap) ← findEndGap (fs_gaps s) startGap end_;
  startV ← elist_Value (fs_gaps s) startGap;
  let startGapEqualsEndGap := bool_decide (Some startGap = endGap) in
  match endGap with
  | None => nil_pointer
  | Some endGap =>
      endV ← elist_Value (fs_gaps s) endGap;
      if (startGapEqualsEndGap && (end_ <=? bi_Start startV)) ||
         (negb startGapEqualsEndGap && (bi_Start endV <=? bi_End startV) && (end_ <=? bi_Start startV))
      then duplicate else
      let startGapNext := elist_Next (fs_gaps s) startGap in
      match replace_loop (S (size (fs_queue s))) s start end_ false with
      | Duplicate => duplicate
      | Replaced s pos hasReplacedAtLeastOne wasCut =>
          '(data, end_) ← (if wasCut : bool then data ← slice data 0 (pos - start); Ret (data, pos) else Ret (data, end_));
          push_frame s data start end_ startGap endGap startV endV startsInGap endsInGap hasReplacedAtLeastOne wasCut startGapNext doneCb
      end
  end.

Definition Push (s : frameSorter) (data : list Z) (offset : Z) (doneCb : option nat) : outcome (frameSorter * option go_error) :=
  '(s, err) ← push s data offset doneCb;
  if bool_decide (err = Some errDuplicateStreamData) then Ret (call doneCb s, None) else Ret (s, err).

Definition Pop (s : frameSorter) : outcome (frameSorter * (Z * option (list Z) * option nat)) :=
  match fs_queue s !! fs_readPos s with
  | None => Ret (s, (fs_readPos s, None, None))
  | Some entry =>
      let offset := fs_readPos s in
      let s := s <| fs_queue ::= delete offset |> <| fs_readPos := offset + zlen (fse_Data entry) |> in
      front ← (match elist_Front (fs_gaps s) with Some g => elist_Value (fs_gaps s) g | None => nil_pointer end);
      if bi_End front <=? fs_readPos s then Panic "frame sorter BUG: read position higher than a gap"
      else Ret (s, (offset, Some (fse_Data entry), fse_DoneCb entry))
  end.

Definition HasMoreData (s : frameSorter) : bool := 0 <? Z.of_nat (size (fs_queue s)).
