(* ===== verification/QuicFrameSorterQueue.v ===== *)
(** * The queue of the frame sorter

    The stream, the gaps and the entries of the queue; what the loops over the
    queue do: replace the entries a new frame covers and delete the entries up to
    the next gap. *)

From stdpp Require Import base list numbers strings gmap sorting.
From Stdlib Require Import ZArith Lia.
From S2P Require Import Prelude LinkedList QuicProtocol QuicFrameSorter.

(** ** Gaps *)

Definition gap_before (g h : nat * ByteInterval) : Prop := bi_End g.2 < bi_Start h.2.

Definition in_gap (gs : list (nat * ByteInterval)) (x : Z) : Prop := Exists (λ g, bi_Start g.2 <= x < bi_End g.2) gs.

#[global] Instance in_gap_dec gs x : Decision (in_gap gs x).
Proof. unfold in_gap. apply _. Defined.

(** In order, apart and not empty; the last one is open. *)
Record gaps_ok (gs : list (nat * ByteInterval)) : Prop := {
  go_sorted : StronglySorted gap_before gs;
  go_nonempty : Forall (λ g, bi_Start g.2 < bi_End g.2) gs;
  go_last : ∃ gs' g, gs = gs' ++ [g] ∧ bi_End g.2 = MaxByteCount;
}.

Lemma in_gap_app gs hs x : in_gap (gs ++ hs) x ↔ in_gap gs x ∨ in_gap hs x.
Proof. apply Exists_app. Qed.

Lemma in_gap_cons g gs x : in_gap (g :: gs) x ↔ bi_Start g.2 <= x < bi_End g.2 ∨ in_gap gs x.
Proof. apply Exists_cons. Qed.

Lemma in_gap_nil x : ¬ in_gap [] x.
Proof. by intros ?%Exists_nil. Qed.

(** What lies around a gap. *)
Lemma gaps_around l1 g l2 :
  gaps_ok (l1 ++ g :: l2) →
  Forall (λ h, bi_End h.2 < bi_Start g.2) l1 ∧ Forall (λ h, bi_End g.2 < bi_Start h.2) l2 ∧ bi_Start g.2 < bi_End g.2 ∧
  Forall (λ h, bi_Start h.2 < bi_End h.2) l1 ∧ Forall (λ h, bi_Start h.2 < bi_End h.2) l2.
Proof.
  intros [Hs Hne _]. apply StronglySorted_app in Hs as (Hx & _ & [_ Hf]%StronglySorted_inv).
  apply Forall_app in Hne as [Hne1 Hne]. apply Forall_cons in Hne as [Hg Hne2]. split_and!; try done.
  apply Forall_forall. intros h Hh. apply (Hx h g); [done|apply list_elem_of_here].
Qed.

Lemma not_in_gap_lt gs x : Forall (λ h, bi_End h.2 <= x) gs → ¬ in_gap gs x.
Proof. intros Hf (h & Hh & Hx)%Exists_exists. rewrite Forall_forall in Hf. specialize (Hf h Hh). cbn in *. lia. Qed.

Lemma not_in_gap_gt gs x : Forall (λ h, x < bi_Start h.2) gs → ¬ in_gap gs x.
Proof. intros Hf (h & Hh & Hx)%Exists_exists. rewrite Forall_forall in Hf. specialize (Hf h Hh). cbn in *. lia. Qed.

(** ** The queue *)

Definition entry_len (e : frameSorterEntry) : Z := zlen (fse_Data e).

(** No entry crosses [x]. *)
Definition boundary (q : gmap Z frameSorterEntry) (x : Z) : Prop := ∀ k e, q !! k = Some e → k < x → k + entry_len e <= x.

Definition cut_queue (q : gmap Z frameSorterEntry) (a b : Z) : gmap Z frameSorterEntry :=
  filter (λ ke : Z * frameSorterEntry, ¬ (a <= ke.1 < b)) q.

Lemma cut_lookup q a b k : cut_queue q a b !! k = if decide (a <= k < b) then None else q !! k.
Proof.
  unfold cut_queue. destruct (decide (a <= k < b)).
  - apply map_lookup_filter_None. right. intros x _. cbn. tauto.
  - destruct (q !! k) eqn:Hk; [apply map_lookup_filter_Some; split; [done|cbn; tauto]|].
    apply map_lookup_filter_None. by left.
Qed.

Lemma cut_empty q a b : b <= a → cut_queue q a b = q.
Proof. intros H. apply map_eq. intros k. rewrite cut_lookup. by rewrite decide_False by lia. Qed.

Lemma cut_cut q a b c : a <= b <= c → cut_queue (cut_queue q a b) b c = cut_queue q a c.
Proof. intros H. apply map_eq. intros k. rewrite !cut_lookup. repeat case_decide; try done; lia. Qed.

Lemma size_delete_lt (c : gmap Z frameSorterEntry) k e : c !! k = Some e → (size (delete k c) < size c)%nat.
Proof.
  intros He. assert (size c ≠ 0)%nat by (intros Hs%map_size_empty_iff; rewrite Hs in He; by rewrite lookup_empty in He).
  rewrite map_size_delete_Some by (by eexists). lia.
Qed.

Section Sorter.
Context (stream : Z → Z).

(** The bytes of the stream from [a] to [b]. *)
Definition segment (a b : Z) : list Z := stream <$> seqZ a (b - a).

Lemma segment_len a b : a <= b → zlen (segment a b) = b - a.
Proof. intros H. unfold segment, zlen. rewrite length_fmap, length_seqZ. lia. Qed.

Lemma segment_app a b c : a <= b <= c → segment a c = segment a b ++ segment b c.
Proof.
  intros H. unfold segment. rewrite <-fmap_app. replace (c - a) with ((b - a) + (c - b)) by lia. rewrite seqZ_app by lia.
  by replace (a + (b - a)) with b by lia.
Qed.

Lemma segment_slice a b x y : a <= x <= y → y <= b → slice (segment a b) (x - a) (y - a) = Ret (segment x y).
Proof.
  intros Hx Hy. rewrite (segment_app a x b), (segment_app x y b) by lia. unfold slice, zslice.
  rewrite bool_decide_eq_true_2 by (rewrite !zlen_app, !segment_len by lia; lia).
  rewrite drop_app_exact by (pose proof (segment_len a x); unfold zlen in *; lia).
  rewrite take_app_exact; [done|]. pose proof (segment_len x y). unfold zlen in *. lia.
Qed.

Lemma segment_take a b y : a <= y <= b → slice (segment a b) 0 (y - a) = Ret (segment a y).
Proof. intros H. rewrite <-(segment_slice a b a y) by lia. by rewrite Z.sub_diag. Qed.

(** [R] is the read position, [G] the bytes that are missing. *)
Record queue_ok (R : Z) (G : Z → Prop) (q : gmap Z frameSorterEntry) : Prop := {
  qo_entry : ∀ k e, q !! k = Some e →
    0 < entry_len e ∧ R <= k ∧ fse_Data e = segment k (k + entry_len e) ∧ ∀ x, k <= x < k + entry_len e → ¬ G x;
  qo_disjoint : ∀ k1 e1 k2 e2, q !! k1 = Some e1 → q !! k2 = Some e2 → k1 < k2 → k1 + entry_len e1 <= k2;
  qo_cover : ∀ x, R <= x < MaxByteCount → ¬ G x → ∃ k e, q !! k = Some e ∧ k <= x < k + entry_len e;
}.

Section Queue.
Context (R : Z) (G : Z → Prop) (q : gmap Z frameSorterEntry).
Hypothesis Hq : queue_ok R G q.

(** A byte at a boundary that is there starts an entry. *)
Lemma entry_at x : R <= x < MaxByteCount → ¬ G x → boundary q x → ∃ e, q !! x = Some e.
Proof.
  intros Hx HG Hb. destruct (qo_cover _ _ _ Hq x Hx HG) as (k & e & Hk & Hkx). destruct (decide (k = x)) as [->|]; [by exists e|].
  pose proof (Hb k e Hk ltac:(lia)). lia.
Qed.

Lemma boundary_next x e : q !! x = Some e → boundary q (x + entry_len e).
Proof.
  intros Hx k e' Hk Hlt. destruct (qo_entry _ _ _ Hq x e Hx) as (? & _ & _ & _).
  destruct (Z.lt_trichotomy k x) as [Hkx|[->|Hkx]].
  - pose proof (qo_disjoint _ _ _ Hq k e' x e Hk Hx Hkx). lia.
  - simplify_eq. lia.
  - pose proof (qo_disjoint _ _ _ Hq x e k e' Hx Hk Hkx). lia.
Qed.

Lemma boundary_entry x e : q !! x = Some e → boundary q x.
Proof. intros Hx k e' Hk Hlt. exact (qo_disjoint _ _ _ Hq k e' x e Hk Hx Hlt). Qed.

Lemma boundary_gap x : G x → boundary q x.
Proof.
  intros HG k e Hk Hlt. destruct (qo_entry _ _ _ Hq k e Hk) as (_ & _ & _ & Hno). destruct (decide (x < k + entry_len e)); [|lia].
  destruct (Hno x); [lia|done].
Qed.

Lemma boundary_after_gap x : G (x - 1) → boundary q x.
Proof.
  intros HG k e Hk Hlt. destruct (qo_entry _ _ _ Hq k e Hk) as (_ & _ & _ & Hno). destruct (decide (x < k + entry_len e)); [|lia].
  destruct (Hno (x - 1)); [lia|done].
Qed.

Lemma cut_delete a x e : a <= x → q !! x = Some e → delete x (cut_queue q a x) = cut_queue q a (x + entry_len e).
Proof.
  intros Ha Hx. destruct (qo_entry _ _ _ Hq x e Hx) as (Hl & _ & _ & _). apply map_eq. intros k.
  destruct (decide (k = x)) as [->|Hne].
  - rewrite lookup_delete_eq, cut_lookup. by rewrite decide_True by lia.
  - rewrite lookup_delete_ne, !cut_lookup by done. destruct (decide (a <= k < x)), (decide (a <= k < x + entry_len e)); try done; try lia.
    destruct (q !! k) as [e'|] eqn:Hk; [|done]. pose proof (qo_disjoint _ _ _ Hq x e k e' Hx Hk ltac:(lia)). lia.
Qed.

(** Replacing what is between two boundaries by one entry. *)
Lemma queue_insert G' a b e :
  boundary q a → boundary q b → R <= a < b → b <= MaxByteCount →
  fse_Data e = segment a b → (∀ x, G' x ↔ G x ∧ ¬ (a <= x < b)) →
  queue_ok R G' (<[a := e]> (cut_queue q a b)).
Proof.
  intros Ha Hb Hab Hm He HG'. assert (entry_len e = b - a) as Hl by (unfold entry_len; rewrite He; apply segment_len; lia).
  assert (∀ k e', <[a := e]> (cut_queue q a b) !! k = Some e' → k = a ∧ e' = e ∨ k ≠ a ∧ q !! k = Some e' ∧ (k + entry_len e' <= a ∨ b <= k)) as Hcase.
  { intros k e' [[<- <-]|[Hne Hk]]%lookup_insert_Some; [by left|right]. rewrite cut_lookup in Hk.
    destruct (decide (a <= k < b)); [done|]. split; [done|]. split; [done|]. destruct (decide (k < a)); [left; by apply (Ha k e')|lia]. }
  split.
  - intros k e' [[-> ->]|(Hne & Hk & Hd)]%Hcase.
    + rewrite Hl. replace (a + (b - a)) with b by lia. split_and!; [lia|lia|done|]. intros x Hx Hg. apply HG' in Hg. lia.
    + destruct (qo_entry _ _ _ Hq k e' Hk) as (? & ? & ? & Hno). split_and!; [done|done|done|]. intros x Hx Hg. apply HG' in Hg as [Hg _].
      by apply (Hno x).
  - intros k1 e1 k2 e2 [[-> ->]|(Hne1 & Hk1 & Hd1)]%Hcase [[-> ->]|(Hne2 & Hk2 & Hd2)]%Hcase Hlt; try lia.
    + destruct (qo_entry _ _ _ Hq k2 e2 Hk2) as (? & _). lia.
    + exact (qo_disjoint _ _ _ Hq k1 e1 k2 e2 Hk1 Hk2 Hlt).
  - intros x Hx Hg. destruct (decide (a <= x < b)).
    { exists a, e. rewrite lookup_insert_eq. split; [done|lia]. }
    destruct (qo_cover _ _ _ Hq x Hx) as (k & e' & Hk & Hkx); [intros HG; apply Hg, HG'; by split|].
    destruct (qo_entry _ _ _ Hq k e' Hk) as (? & _). exists k, e'. split; [|done].
    assert (k + entry_len e' <= a ∨ b <= k) as Hout.
    { destruct (decide (k < a)); [left; by apply (Ha k e')|]. destruct (decide (k < b)); [|lia]. pose proof (Hb k e' Hk ltac:(lia)). lia. }
    rewrite lookup_insert_ne, cut_lookup by lia. by rewrite decide_False by lia.
Qed.

(** ** The loops over the queue *)

(** Where the queue [c] is as [q] is, deleting from [a] on empties it up to the next gap [n]. *)
Lemma delete_loop r gaps n fuel : ∀ c pos d,
  (∀ k, pos <= k <= n → c !! k = q !! k) → boundary q pos → R <= pos <= n → n < MaxByteCount →
  (∀ x, pos <= x < n → ¬ G x) → G n → (size c <= fuel)%nat →
  ∃ d', deleteConsecutive_loop fuel (mk_frameSorter c r gaps d) pos = mk_frameSorter (cut_queue c pos n) r gaps d'.
Proof.
  induction fuel as [|fuel IH]; intros c pos d Hc Hb Hpos Hn Hno HGn Hsz; cbn [deleteConsecutive_loop fs_queue].
  - assert (c = ∅) as -> by (apply map_size_empty_iff; lia). by exists d.
  - rewrite (Hc pos) by lia. destruct (decide (pos = n)) as [->|Hne].
    + destruct (q !! n) as [e|] eqn:Hq'; [|exists d; by rewrite cut_empty by lia].
      destruct (qo_entry _ _ _ Hq n e Hq') as (? & _ & _ & He). destruct (He n); [lia|done].
    + destruct (entry_at pos) as [e He]; [lia|apply Hno; lia|done|]. rewrite He.
      destruct (qo_entry _ _ _ Hq pos e He) as (Hl & _ & _ & HeG).
      assert (pos + entry_len e <= n) as Hle by (destruct (decide (n < pos + entry_len e)); [destruct (HeG n); [lia|done]|lia]).
      destruct (IH (delete pos c) (pos + entry_len e) (match fse_DoneCb e with Some cb => d ++ [cb] | None => d end)) as [d' Hd'].
      * intros k Hk. rewrite lookup_delete_ne by lia. apply Hc. lia.
      * by apply boundary_next.
      * lia.
      * done.
      * intros x Hx. apply Hno. lia.
      * done.
      * pose proof (size_delete_lt c pos e ltac:(rewrite <-He; apply Hc; lia)). lia.
      * exists d'. etransitivity; [|etransitivity; [exact Hd'|]].
        { unfold entry_len. by destruct (fse_DoneCb e). }
        f_equal. apply map_eq. intros k. rewrite !cut_lookup. destruct (decide (k = pos)) as [->|Hk].
        { rewrite lookup_delete_eq. rewrite (decide_True (P := pos <= pos < n)) by lia. by destruct (decide _). }
        rewrite lookup_delete_ne by done. repeat case_decide; try done; try lia. rewrite Hc by lia.
        destruct (q !! k) as [e'|] eqn:Hk'; [|done]. pose proof (qo_disjoint _ _ _ Hq pos e k e' He Hk' ltac:(lia)). lia.
Qed.

Lemma delete_consecutive r gaps n c pos d :
  (∀ k, pos <= k <= n → c !! k = q !! k) ∨ (∀ k, pos <= k <= n → c !! k = None) →
  boundary q pos → R <= pos <= n → n < MaxByteCount → (∀ x, pos <= x < n → ¬ G x) → G n →
  ∃ d', deleteConsecutive (mk_frameSorter c r gaps d) pos = mk_frameSorter (cut_queue c pos n) r gaps d'.
Proof.
  intros [Hc|Hc] Hb Hpos Hn Hno HGn; [by apply delete_loop|]. exists d. unfold deleteConsecutive. cbn [fs_queue].
  assert (cut_queue c pos n = c) as ->.
  { apply map_eq. intros k. rewrite cut_lookup. case_decide; [|done]. by rewrite Hc by lia. }
  destruct (size c); [done|]. cbn [deleteConsecutive_loop fs_queue]. by rewrite Hc by lia.
Qed.

(** What the loop over the entries from the start of the frame on does. *)
Inductive replace_result (r : Z) (gaps : elist ByteInterval) (start end_ : Z) : replaced → Prop :=
| RNone d : q !! start = None → replace_result r gaps start end_ (Replaced (mk_frameSorter q r gaps d) start false false)
| RDuplicate e : q !! start = Some e → end_ <= start + entry_len e → replace_result r gaps start end_ Duplicate
| RReplaced e pos wasCut d :
    q !! start = Some e → start < pos <= end_ → boundary q pos → (∀ x, start <= x < pos → ¬ G x) →
    (if wasCut : bool then ∃ e', q !! pos = Some e' ∧ end_ < pos + entry_len e' else q !! pos = None) →
    replace_result r gaps start end_ (Replaced (mk_frameSorter (cut_queue q start pos) r gaps d) pos true wasCut).

Lemma replace_more r gaps start end_ e fuel : ∀ pos d,
  q !! start = Some e → start < pos <= end_ → boundary q pos → (∀ x, start <= x < pos → ¬ G x) →
  (size (cut_queue q start pos) < fuel)%nat →
  replace_result r gaps start end_ (replace_loop fuel (mk_frameSorter (cut_queue q start pos) r gaps d) pos end_ true).
Proof.
  induction fuel as [|fuel IH]; intros pos d He Hpos Hb Hno Hsz; [lia|]. cbn [replace_loop fs_queue].
  assert (cut_queue q start pos !! pos = q !! pos) as Hlook by (rewrite cut_lookup; by rewrite decide_False by lia).
  rewrite Hlook. destruct (q !! pos) as [e'|] eqn:He'; [|by apply (RReplaced r gaps start end_ e)].
  destruct (qo_entry _ _ _ Hq pos e' He') as (Hl & _ & _ & HeG). cbn [andb negb]. fold (entry_len e').
  destruct (_ || _) eqn:Hcond.
  2: { apply (RReplaced r gaps start end_ e); [done..|]. exists e'. split; [done|].
       apply orb_false_iff in Hcond as [?%Z.ltb_ge ?%Z.eqb_neq]. lia. }
  assert (pos + entry_len e' <= end_) as Hle by (apply orb_true_iff in Hcond as [?%Z.ltb_lt|?%Z.eqb_eq]; lia).
  specialize (IH (pos + entry_len e') (match fse_DoneCb e' with Some cb => d ++ [cb] | None => d end) He ltac:(lia) (boundary_next _ _ He')).
  rewrite <-cut_delete in IH by (lia || done). pose proof (size_delete_lt _ _ _ Hlook).
  assert (∀ x, start <= x < pos + entry_len e' → ¬ G x) as Hno'.
  { intros x Hx. destruct (decide (x < pos)); [apply Hno; lia|apply HeG; lia]. }
  specialize (IH Hno' ltac:(lia)). by destruct (fse_DoneCb e').
Qed.

Lemma replace_run r gaps start end_ d :
  start < end_ → replace_result r gaps start end_ (replace_loop (S (size q)) (mk_frameSorter q r gaps d) start end_ false).
Proof.
  intros Hse. cbn [replace_loop fs_queue]. destruct (q !! start) as [e|] eqn:He; [|by apply RNone].
  destruct (qo_entry _ _ _ Hq start e He) as (Hl & _ & _ & HeG). cbn [andb negb]. rewrite orb_false_r. fold (entry_len e).
  destruct (_ <? _) eqn:Hcond.
  2: { apply Z.ltb_ge in Hcond. apply (RDuplicate r gaps start end_ e); [done|lia]. }
  apply Z.ltb_lt in Hcond. pose proof (cut_delete start start e ltac:(lia) He) as Hcut. rewrite (cut_empty q start start) in Hcut by lia.
  pose proof (size_delete_lt _ _ _ He) as Hsz.
  pose proof (replace_more r gaps start end_ e (size q) (start + entry_len e)
    (match fse_DoneCb e with Some cb => d ++ [cb] | None => d end) He ltac:(lia) (boundary_next _ _ He) HeG) as H.
  rewrite <-Hcut in H. specialize (H Hsz). by destruct (fse_DoneCb e).
Qed.
End Queue.
End Sorter.
