(* ===== verification/QuicFrameSorterGaps.v ===== *)
(** * The gaps of the frame sorter

    How [push] finds the gaps a frame touches and updates them: the gaps that
    remain are the old ones without the bytes of the frame. *)

From stdpp Require Import base list numbers strings gmap sorting.
From Stdlib Require Import ZArith Lia.
From S2P Require Import Prelude LinkedList QuicProtocol QuicFrameSorter QuicFrameSorterQueue.

(** ** Finding gaps *)

Lemma find_start gs offset :
  gaps_ok gs → offset <= MaxByteCount →
  ∃ l1 i v l2, gs = l1 ++ (i, v) :: l2 ∧ Forall (λ g, bi_End g.2 < offset) l1 ∧ offset <= bi_End v ∧
    findStartGap gs offset = Ret (i, bi_Start v <=? offset).
Proof.
  intros [_ Hne (gs' & g & -> & Hg)] Ho. induction gs' as [|[i v] gs' IH].
  - destruct g as [i v]. cbn in Hg. exists [], i, v, []. split_and!; [done|done|lia|]. cbn [app findStartGap].
    destruct (bi_Start v <=? offset) eqn:Hs; [rewrite (proj2 (Z.leb_le _ _)) by lia; done|]. apply Z.leb_gt in Hs. cbn [andb].
    by rewrite (proj2 (Z.ltb_lt _ _)) by lia.
  - cbn [app] in *. apply Forall_cons in Hne as [Hv Hne]. cbn in Hv. cbn [findStartGap].
    destruct (decide (offset <= bi_End v)) as [Hle|Hgt].
    + exists [], i, v, (gs' ++ [g]). split_and!; [done|done|done|]. rewrite (proj2 (Z.leb_le _ (bi_End v))) by done.
      destruct (bi_Start v <=? offset) eqn:Hs; [done|]. apply Z.leb_gt in Hs. cbn [andb]. by rewrite (proj2 (Z.ltb_lt _ _)) by lia.
    + rewrite (proj2 (Z.leb_gt _ (bi_End v))), andb_false_r, (proj2 (Z.ltb_ge _ _)) by lia.
      destruct (IH Hne) as (l1 & i' & v' & l2 & E & Hl1 & Hle & Hf). exists ((i, v) :: l1), i', v', l2. rewrite E in *.
      split_and!; [done|constructor; [cbn; lia|done]|done|done].
Qed.

(** Where the frame ends: in a gap, or between a gap and the next. *)
Inductive end_found (gs : list (nat * ByteInterval)) (offset : Z) : option nat * bool → Prop :=
| EIn a j w b : gs = a ++ (j, w) :: b → bi_Start w <= offset < bi_End w → end_found gs offset (Some j, true)
| EOut a j w h b : gs = a ++ (j, w) :: h :: b → bi_End w <= offset < bi_Start h.2 → end_found gs offset (Some j, false).

Lemma find_end_loop l l1 offset post : ∀ pre,
  elist_ok l → el_elems l = l1 ++ pre ++ post → gaps_ok (l1 ++ pre ++ post) → offset < MaxByteCount → post ≠ [] →
  (∃ pre' g, pre = pre' ++ [g] ∧ bi_End g.2 <= offset) →
  ∃ r, findEndGap_loop l post offset = Ret r ∧ end_found (pre ++ post) offset r.
Proof.
  induction post as [|[i v] post IH]; intros pre Hok E Hgs Ho Hne Hpre; [done|]. cbn [findEndGap_loop].
  destruct (bi_Start v <=? offset) eqn:Hs; [apply Z.leb_le in Hs|apply Z.leb_gt in Hs]; cbn [andb].
  - destruct (offset <? bi_End v) eqn:He; [apply Z.ltb_lt in He|apply Z.ltb_ge in He].
    { exists (Some i, true). split; [done|]. by eapply EIn. }
    rewrite (proj2 (Z.ltb_ge _ _)) by lia. destruct post as [|h post].
    { destruct Hgs as [_ _ (gs' & g & Hg & Hlast)]. rewrite app_assoc in Hg. apply app_inj_tail in Hg as [_ <-]. cbn in Hlast. lia. }
    destruct (IH (pre ++ [(i, v)])) as (r & Hr & Hf); try done; try (by rewrite <-app_assoc).
    { by exists pre, (i, v). }
    exists r. rewrite <-app_assoc in Hf. by split.
  - rewrite (proj2 (Z.ltb_lt _ _)) by done. eexists. split; [done|]. destruct Hpre as (pre' & [j w] & -> & Hw).
    rewrite app_assoc in E. rewrite (elist_Prev_mid l _ _ _ _ Hok E), app_assoc, last_snoc. cbn [fmap option_fmap option_map fst].
    eapply (EOut _ _ pre' j w (i, v) post); [by rewrite <-app_assoc|]. cbn in *. lia.
Qed.

Lemma find_end l l1 i v l2 offset :
  elist_ok l → el_elems l = l1 ++ (i, v) :: l2 → gaps_ok (l1 ++ (i, v) :: l2) → offset < MaxByteCount → bi_Start v <= offset →
  ∃ r, findEndGap l i offset = Ret r ∧ end_found ((i, v) :: l2) offset r.
Proof.
  intros Hok E Hgs Ho Hv. unfold findEndGap. rewrite (split_at_mid l l1 i v l2 Hok E). cbn [findEndGap_loop].
  rewrite (proj2 (Z.leb_le _ _)) by done. cbn [andb]. destruct (offset <? bi_End v) eqn:He; [apply Z.ltb_lt in He|apply Z.ltb_ge in He].
  { exists (Some i, true). split; [done|]. by eapply (EIn _ _ []). }
  rewrite (proj2 (Z.ltb_ge _ _)) by lia. destruct l2 as [|h l2].
  { destruct Hgs as [_ _ (gs' & g & Hg & Hlast)]. apply app_inj_tail in Hg as [_ <-]. cbn in Hlast. lia. }
  apply (find_end_loop l l1 offset (h :: l2) [(i, v)]); try done. by exists [], (i, v).
Qed.

Lemma find_end_before l l1 i v l2 offset :
  elist_ok l → el_elems l = l1 ++ (i, v) :: l2 → offset < bi_Start v → findEndGap l i offset = Ret (elist_Prev l i, false).
Proof.
  intros Hok E Hv. unfold findEndGap. rewrite (split_at_mid l l1 i v l2 Hok E). cbn [findEndGap_loop].
  rewrite (proj2 (Z.leb_gt _ _)) by done. cbn [andb]. by rewrite (proj2 (Z.ltb_lt _ _)) by done.
Qed.

(** ** Replacing gaps *)

(** The new gaps lie where the old ones were. *)
Lemma gaps_replace l1 old l3 new :
  gaps_ok (l1 ++ old ++ l3) → StronglySorted gap_before new → Forall (λ g, bi_Start g.2 < bi_End g.2) new →
  Forall (λ g, Exists (λ h, bi_Start h.2 <= bi_Start g.2) old ∧ Exists (λ h, bi_End g.2 <= bi_End h.2) old) new →
  (l3 = [] → ∃ new' g, new = new' ++ [g] ∧ bi_End g.2 = MaxByteCount) →
  gaps_ok (l1 ++ new ++ l3).
Proof.
  intros [Hs Hne (gs' & g & Hl & Hg)] Hnew Hnne Hin Hlast. rewrite !Forall_app in Hne. destruct Hne as (Hne1 & _ & Hne3).
  apply StronglySorted_app in Hs as (H1 & Hs1 & Hs23). apply StronglySorted_app in Hs23 as (H23 & _ & Hs3).
  rewrite Forall_forall in Hin. split.
  - apply StronglySorted_app_2; [|done|apply StronglySorted_app_2; [|done..]].
    2: { intros x y Hx Hy. destruct (Hin x Hx) as [_ (h & Hh & Hle)%Exists_exists]. specialize (H23 h y Hh Hy). unfold gap_before in *. lia. }
    + intros x y Hx [Hy|Hy]%elem_of_app; [|apply H1; [done|]; apply elem_of_app; by right].
      destruct (Hin y Hy) as [(h & Hh & Hle)%Exists_exists _]. specialize (H1 x h Hx ltac:(apply elem_of_app; by left)).
      unfold gap_before in *. lia.
  - by rewrite !Forall_app.
  - destruct (decide (l3 = [])) as [->|Hne].
    + destruct (Hlast eq_refl) as (new' & g' & -> & Hg'). exists (l1 ++ new'), g'. split; [|done]. by rewrite app_nil_r, app_assoc.
    + destruct (exists_last Hne) as (l3' & g' & ->). exists (l1 ++ new ++ l3'), g'. split; [by rewrite !app_assoc|].
      rewrite !app_assoc in Hl. apply app_inj_tail in Hl as [_ ->]. done.
Qed.

Definition left_gap (i : nat) (v : ByteInterval) (a : Z) : list (nat * ByteInterval) :=
  if bi_Start v <? a then [(i, {| bi_Start := bi_Start v; bi_End := a |})] else [].

Definition right_gap (j : nat) (w : ByteInterval) (b : Z) : list (nat * ByteInterval) :=
  if b <? bi_End w then [(j, {| bi_Start := b; bi_End := bi_End w |})] else [].

Ltac gap_cases :=
  unfold left_gap, right_gap in *;
  repeat match goal with |- context [?a <? ?b] => destruct (Z.ltb_spec a b) end.

(** The gaps [old] that [a] to [b] touches: [v], where it starts, to [w], where it ends. *)
Record touched (old : list (nat * ByteInterval)) (v w : ByteInterval) : Prop := {
  to_first : Exists (λ g, g.2 = v) old;
  to_last : Exists (λ g, g.2 = w) old;
  to_all : Forall (λ g, g.2 = v ∨ g.2 = w ∨ bi_End v < bi_Start g.2 ∧ bi_End g.2 < bi_Start w) old;
  to_order : v = w ∨ bi_End v < bi_Start w;
}.

Lemma gaps_cut l1 old l3 i v j w a b :
  gaps_ok (l1 ++ old ++ l3) → touched old v w → (l3 = [] → bi_End w = MaxByteCount) →
  Forall (λ g, bi_End g.2 < a) l1 → a <= bi_End v → bi_Start w <= b <= bi_End w → a < b < MaxByteCount →
  gaps_ok (l1 ++ (left_gap i v a ++ right_gap j w b) ++ l3) ∧
  ∀ x, in_gap (l1 ++ (left_gap i v a ++ right_gap j w b) ++ l3) x ↔ in_gap (l1 ++ old ++ l3) x ∧ ¬ (a <= x < b).
Proof.
  intros Hgs [Hv Hw Hall Hord] Hlast Hl1 Ha Hb Hab.
  assert (Forall (λ g, bi_Start g.2 < bi_End g.2) old) as Hne by (destruct Hgs as [_ Hne _]; by apply Forall_app in Hne as [_ [? _]%Forall_app]).
  rewrite Forall_forall in Hall, Hne. apply Exists_exists in Hv as ([iv v'] & Hv & Hv'), Hw as ([iw w'] & Hw & Hw'). cbn in Hv', Hw'. subst v' w'.
  pose proof (Hne _ Hv) as Hvne. pose proof (Hne _ Hw) as Hwne. cbn [snd] in Hvne, Hwne.
  assert (Forall (λ h, bi_End w < bi_Start h.2) l3) as Hl3.
  { destruct Hgs as [Hs _ _]. apply StronglySorted_app in Hs as (_ & _ & Hs). apply StronglySorted_app in Hs as (Hs & _ & _).
    apply Forall_forall. intros h Hh. exact (Hs _ _ Hw Hh). }
  split.
  - assert (bi_Start v <= bi_Start w ∧ bi_End v <= bi_End w) by (destruct Hord as [->|]; lia).
    eapply gaps_replace; [exact Hgs| | | |].
    + gap_cases; cbn [app]; repeat constructor. unfold gap_before. cbn. lia.
    + gap_cases; cbn [app]; repeat (apply Forall_cons; split; [cbn; lia|]); apply Forall_nil_2.
    + assert (∀ x, bi_Start v <= x → Exists (λ h, bi_Start h.2 <= x) old) as H1 by (intros; apply Exists_exists; by exists (iv, v)).
      assert (∀ x, x <= bi_End w → Exists (λ h, x <= bi_End h.2) old) as H2 by (intros; apply Exists_exists; by exists (iw, w)).
      gap_cases; cbn [app]; repeat (apply Forall_cons; split; [cbn; split; [apply H1|apply H2]; lia|]); apply Forall_nil_2.
    + intros ->. specialize (Hlast eq_refl). eexists (left_gap i v a), _. unfold right_gap.
      rewrite (proj2 (Z.ltb_lt _ _)) by lia. split; [done|]. cbn. done.
  - assert (∀ x, in_gap l1 x → x < a) as Hx1.
    { intros x (g & Hg & Hx)%Exists_exists. rewrite Forall_forall in Hl1. specialize (Hl1 g Hg). cbn in *. lia. }
    assert (∀ x, in_gap l3 x → bi_End w < x) as Hx3.
    { intros x (g & Hg & Hx)%Exists_exists. rewrite Forall_forall in Hl3. specialize (Hl3 g Hg). cbn in *. lia. }
    assert (∀ x, in_gap (left_gap i v a ++ right_gap j w b) x ↔ bi_Start v <= x < a ∨ b <= x < bi_End w) as Hx2.
    { intros x. gap_cases; cbn [app]; rewrite ?in_gap_cons; cbn; pose proof (in_gap_nil x); intuition lia. }
    assert (∀ x, in_gap old x ↔ bi_Start v <= x < bi_End v ∨ bi_Start w <= x < bi_End w ∨ in_gap old x) as Hxo.
    { intros x. split; [tauto|]. intros [Hx|[Hx|Hx]]; [| |done]; apply Exists_exists; [by exists (iv, v)|by exists (iw, w)]. }
    assert (∀ x, in_gap old x → bi_Start v <= x < bi_End v ∨ bi_Start w <= x < bi_End w ∨ bi_End v < x < bi_Start w) as Hxm.
    { intros x (g & Hg & Hx)%Exists_exists. destruct (Hall g Hg) as [Hgv|[Hgw|?]]; [rewrite Hgv in Hx; tauto|rewrite Hgw in Hx; tauto|lia]. }
    intros x. rewrite (in_gap_app l1 (_ ++ _)), (in_gap_app (_ ++ _) l3), (in_gap_app l1 (old ++ l3)), (in_gap_app old l3), Hx2.
    specialize (Hx1 x). specialize (Hx3 x). specialize (Hxo x). specialize (Hxm x).
    assert (bi_End v = bi_End w ∧ bi_Start v = bi_Start w ∨ bi_End v < bi_Start w) as Hvw by (destruct Hord as [->|]; tauto).
    split.
    + intros [?|[[?|?]|?]]; (split; [|intuition lia]); [tauto|right; left; apply Hxo; lia|right; left; apply Hxo; lia|tauto].
    + intros [[?|[Ho|?]] Hn]; [tauto| |tauto]. right. left. specialize (Hxm Ho). lia.
Qed.

(** ** The updates of the gaps *)

Lemma bi_eta v : {| bi_Start := bi_Start v; bi_End := bi_End v |} = v.
Proof. by destruct v. Qed.

Lemma set_Start_mid l a e v b x :
  elist_ok l → el_elems l = a ++ (e, v) :: b →
  set_Start l e x = Ret (mk_elist (a ++ (e, {| bi_Start := x; bi_End := bi_End v |}) :: b) (el_fresh l)).
Proof.
  intros Hok E. unfold set_Start. rewrite (elist_Value_mid l a e v b Hok E). cbn [mbind outcome_bind].
  by rewrite (elist_set_mid l a e v b _ Hok E).
Qed.

Lemma set_End_mid l a e v b x :
  elist_ok l → el_elems l = a ++ (e, v) :: b →
  set_End l e x = Ret (mk_elist (a ++ (e, {| bi_Start := bi_Start v; bi_End := x |}) :: b) (el_fresh l)).
Proof.
  intros Hok E. unfold set_End. rewrite (elist_Value_mid l a e v b Hok E). cbn [mbind outcome_bind].
  by rewrite (elist_set_mid l a e v b _ Hok E).
Qed.

Section Updates.
Context (c : gmap Z frameSorterEntry) (r : Z) (d : list nat).

(** The frame starts at [a] in the gap, or where it ends, and goes on to its end. *)
Lemma update_start_through l1 i v l2 fr a end_ replaced :
  let l := mk_elist (l1 ++ (i, v) :: l2) fr in
  elist_ok l → bi_End v <= end_ → a <= bi_End v → (bi_Start v < a → replaced = true → a = bi_End v) →
  elist_ok (mk_elist (l1 ++ left_gap i v a ++ l2) fr) ∧
  update_startGap (mk_frameSorter c r l d) i v a end_ replaced =
    Ret (mk_frameSorter c r (mk_elist (l1 ++ left_gap i v a ++ l2) fr) d, (bi_Start v <? a) && negb replaced).
Proof.
  intros l Hok Hend Ha Hr. unfold update_startGap, left_gap. cbn [fs_gaps].
  destruct (Z.ltb_spec (bi_Start v) a) as [Hlt|Hge].
  - rewrite (proj2 (Z.leb_gt _ _)) by lia. cbn [app andb]. split; [by eapply elist_ok_set|]. destruct replaced; cbn [negb].
    + rewrite (Hr Hlt eq_refl), bi_eta. done.
    + by rewrite (set_End_mid l l1 i v l2).
  - rewrite (proj2 (Z.leb_le _ _)) by lia. rewrite (proj2 (Z.leb_le _ _)) by lia. cbn [app andb]. split; [by eapply elist_ok_remove|].
    transitivity (Ret (mk_frameSorter c r (elist_Remove l i) d, false)); [done|]. by rewrite (elist_Remove_mid l l1 i v l2).
Qed.

(** The end of the frame, [b], is in the gap [w] or is its end. *)
Lemma update_end_apart la j w l3 fr i adjusted x b :
  let l := mk_elist (la ++ (j, w) :: l3) fr in
  elist_ok l → b <= bi_End w →
  elist_ok (mk_elist (la ++ right_gap j w b ++ l3) fr) ∧
  update_endGap (mk_frameSorter c r l d) i j false adjusted x (bi_End w) b =
    Ret (mk_frameSorter c r (mk_elist (la ++ right_gap j w b ++ l3) fr) d).
Proof.
  intros l Hok Hb. unfold update_endGap, right_gap. cbn [fs_gaps negb andb].
  destruct (Z.ltb_spec b (bi_End w)) as [Hlt|Hge].
  - rewrite (proj2 (Z.eqb_neq _ _)) by lia. split; [by eapply elist_ok_set|]. by rewrite (set_Start_mid l la j w l3).
  - rewrite (proj2 (Z.eqb_eq _ _)) by lia. cbn [app]. split; [by eapply elist_ok_remove|].
    transitivity (Ret (mk_frameSorter c r (elist_Remove l j) d)); [done|]. by rewrite (elist_Remove_mid l la j w l3).
Qed.

(** A frame inside the gap [v] leaves what is before and after it. *)
Lemma update_inside l1 i v l3 fr a b replaced :
  let l := mk_elist (l1 ++ (i, v) :: l3) fr in
  elist_ok l → a < b < bi_End v → (bi_Start v < a → replaced = false) →
  ∃ j fr' s adjusted,
    elist_ok (mk_elist (l1 ++ (left_gap i v a ++ right_gap j v b) ++ l3) fr') ∧
    update_startGap (mk_frameSorter c r l d) i v a b replaced = Ret (s, adjusted) ∧
    update_endGap s i i true adjusted (bi_End v) (bi_End v) b =
      Ret (mk_frameSorter c r (mk_elist (l1 ++ (left_gap i v a ++ right_gap j v b) ++ l3) fr') d).
Proof.
  intros l Hok Hb Hr. unfold update_startGap, update_endGap, left_gap, right_gap. cbn [fs_gaps negb].
  rewrite (proj2 (Z.ltb_lt b _)) by lia. rewrite (proj2 (Z.eqb_neq b _)) by lia.
  destruct (Z.ltb_spec (bi_Start v) a) as [Hlt|Hge].
  - rewrite (Hr Hlt), (proj2 (Z.leb_gt a _)) by lia. cbn [negb]. rewrite (set_End_mid l l1 i v l3) by done. cbn [mbind outcome_bind].
    exists fr, (S fr). eexists _, _. split; [|split; [done|]].
    + apply (elist_ok_insert fr l1 (i, _) _ l3); [|by eapply elist_ok_set]. destruct Hok as [_ Hf]. cbn in Hf.
      apply Forall_app in Hf as [_ [Hf _]%Forall_cons]. cbn in Hf. lia.
    + cbn [andb]. set (l' := mk_elist _ _).
      transitivity (Ret (mk_frameSorter c r (elist_InsertAfter l' {| bi_Start := b; bi_End := bi_End v |} i) d)); [done|].
      rewrite (elist_InsertAfter_mid l' l1 i {| bi_Start := bi_Start v; bi_End := a |} l3); [done|by eapply elist_ok_set|done].
  - rewrite (proj2 (Z.leb_le a _)) by lia. rewrite (proj2 (Z.leb_gt (bi_End v) b)) by lia. rewrite (set_Start_mid l l1 i v l3) by done.
    cbn [mbind outcome_bind]. exists i, fr. eexists _, _. split; [|split; [done|]]; [by eapply elist_ok_set|done].
Qed.
End Updates.
