(* ===== verification/QuicFrameSorterPush.v ===== *)
(** * Pushing a frame into the sorter, and reading the stream from it *)

From stdpp Require Import base list numbers strings gmap sorting.
From Stdlib Require Import ZArith Lia.
From S2P Require Import Prelude LinkedList QuicProtocol QuicFrameSorter QuicFrameSorterQueue QuicFrameSorterGaps.

Section Push.
Context (stream : Z → Z).

(** No byte is missing between two gaps. *)
Lemma between_gaps pre g h post x : gaps_ok (pre ++ g :: h :: post) → bi_End g.2 <= x < bi_Start h.2 → ¬ in_gap (pre ++ g :: h :: post) x.
Proof.
  intros Hgs Hx. destruct (gaps_around _ _ _ Hgs) as (Hpre & Hpost & Hg & _ & _).
  replace (pre ++ g :: h :: post) with ((pre ++ [g]) ++ h :: post) in Hgs by (by rewrite <-app_assoc).
  destruct (gaps_around _ _ _ Hgs) as (_ & Hpost' & Hh & _ & _). rewrite in_gap_app, !in_gap_cons.
  intros [H|[H|[H|H]]]; [|lia|lia|].
  - apply (not_in_gap_lt pre x) in H; [done|]. eapply Forall_impl; [exact Hpre|]. cbn. lia.
  - apply (not_in_gap_gt post x) in H; [done|]. eapply Forall_impl; [exact Hpost'|]. cbn. lia.
Qed.

Lemma in_gap_here pre g post x : bi_Start g.2 <= x < bi_End g.2 → in_gap (pre ++ g :: post) x.
Proof. intros Hx. apply in_gap_app. right. apply in_gap_cons. by left. Qed.

Lemma last_gap gs g : g ∈ gs → gaps_ok gs → bi_End g.2 <= MaxByteCount.
Proof.
  intros (l1 & l2 & ->)%list_elem_of_split Hgs. destruct (gaps_around _ _ _ Hgs) as (_ & Hl2 & _ & _ & Hne2).
  destruct Hgs as [_ _ (gs' & h & E & Hh)]. destruct (decide (l2 = [])) as [->|Hne].
  - apply app_inj_tail in E as [_ ->]. lia.
  - destruct (exists_last Hne) as (l2' & h' & ->). rewrite app_comm_cons, app_assoc in E. apply app_inj_tail in E as [_ ->].
    apply Forall_app in Hl2 as [_ [Hl2 _]%Forall_cons]. apply Forall_app in Hne2 as [_ [Hne2 _]%Forall_cons]. lia.
Qed.

(** Where the first of the gaps starts. *)
Definition gaps_start (gs : list (nat * ByteInterval)) (x : Z) : Z := match gs with g :: _ => bi_Start g.2 | [] => x end.

Lemma gaps_start_bounds pre i v mid j w l3 :
  gaps_ok (pre ++ (i, v) :: mid ++ (j, w) :: l3) → bi_End v < gaps_start mid (bi_Start w) <= bi_Start w.
Proof.
  intros Hgs. destruct (gaps_around _ _ _ Hgs) as (_ & Hpost & Hv & _ & Hne). cbn [snd] in Hpost, Hv.
  destruct mid as [|h mid]; cbn [app gaps_start] in *; apply Forall_cons in Hpost as [Hh Hpost]; cbn in Hh; [lia|]. split; [lia|].
  replace (pre ++ (i, v) :: h :: mid ++ (j, w) :: l3) with ((pre ++ (i, v) :: h :: mid) ++ (j, w) :: l3) in Hgs by (by rewrite <-app_assoc).
  destruct (gaps_around _ _ _ Hgs) as (Hall & _). apply Forall_app in Hall as [_ [_ [Hh' _]%Forall_cons]%Forall_cons].
  apply Forall_cons in Hne as [Hne _]. cbn in Hh', Hne. lia.
Qed.

Lemma gaps_start_head mid j w l3 :
  ∃ h post, mid ++ (j, w) :: l3 = h :: post ∧ bi_Start h.2 = gaps_start mid (bi_Start w).
Proof. destruct mid as [|h mid]; [by exists (j, w), l3|by exists h, (mid ++ (j, w) :: l3)]. Qed.

Section Frame.
Context (R : Z) (gs : list (nat * ByteInterval)) (q : gmap Z frameSorterEntry).
Hypothesis Hq : queue_ok stream R (in_gap gs) q.
Hypothesis Hgs : gaps_ok gs.
Hypothesis HR : ∀ x, in_gap gs x → R <= x.

Lemma no_entry k : in_gap gs k → q !! k = None.
Proof.
  intros Hk. destruct (q !! k) as [e|] eqn:He; [|done]. destruct (qo_entry _ _ _ _ Hq k e He) as (? & _ & _ & Hno).
  destruct (Hno k); [lia|done].
Qed.

(** Deleting from the end of a gap to the next gap. *)
Lemma delete_between pre g h post c gaps d :
  gs = pre ++ g :: h :: post →
  (∀ k, bi_End g.2 <= k <= bi_Start h.2 → c !! k = q !! k) ∨ (∀ k, bi_End g.2 <= k <= bi_Start h.2 → c !! k = None) →
  ∃ d', deleteConsecutive (mk_frameSorter c R gaps d) (bi_End g.2) =
    mk_frameSorter (cut_queue c (bi_End g.2) (bi_Start h.2)) R gaps d'.
Proof.
  intros -> Hc. destruct (gaps_around _ _ _ Hgs) as (_ & Hpost & Hg & _ & _). apply Forall_cons in Hpost as [Hgh _].
  assert (in_gap (pre ++ g :: h :: post) (bi_End g.2 - 1)) as HGg by (apply in_gap_here; lia).
  assert (gaps_ok ((pre ++ [g]) ++ h :: post)) as Hgs' by (by rewrite <-app_assoc).
  destruct (gaps_around _ _ _ Hgs') as (_ & _ & Hh & _ & _).
  pose proof (last_gap _ h ltac:(apply elem_of_app; right; right; left) Hgs).
  eapply (delete_consecutive stream R _ q Hq); [done| | | | |].
  - eapply boundary_after_gap; [exact Hq|done].
  - pose proof (HR _ HGg). lia.
  - lia.
  - intros x Hx. by apply between_gaps.
  - replace (pre ++ g :: h :: post) with ((pre ++ [g]) ++ h :: post) by (by rewrite <-app_assoc). apply in_gap_here. lia.
Qed.

Lemma remove_gaps_run j w l3 fr mid : ∀ pre la c d fuel,
  gs = pre ++ mid ++ (j, w) :: l3 → elist_ok (mk_elist (la ++ mid ++ (j, w) :: l3) fr) → (length mid < fuel)%nat →
  (∀ k, gaps_start mid (bi_Start w) <= k <= bi_Start w → c !! k = q !! k) →
  ∃ d', remove_gaps fuel (mk_frameSorter c R (mk_elist (la ++ mid ++ (j, w) :: l3) fr) d) (fst <$> head (mid ++ (j, w) :: l3)) (bi_Start w) =
      Ret (mk_frameSorter (cut_queue c (gaps_start mid (bi_Start w)) (bi_Start w)) R (mk_elist (la ++ (j, w) :: l3) fr) d') ∧
    elist_ok (mk_elist (la ++ (j, w) :: l3) fr).
Proof.
  induction mid as [|[i v] mid IH]; intros pre la c d [|fuel] E Hok Hf Hc; [cbn in Hf; lia| |cbn in Hf; lia|]; cbn [app] in *.
  - cbn [head fmap option_fmap option_map fst snd remove_gaps fs_gaps gaps_start].
    rewrite (elist_Value_mid _ la j w l3) by done. cbn [mbind outcome_bind]. rewrite cut_empty by lia.
    subst gs. destruct (gaps_around _ _ _ Hgs) as (_ & _ & Hw & _ & _). cbn [snd] in Hw. rewrite (proj2 (Z.ltb_ge _ _)) by lia.
    exists d. by split.
  - cbn [head fmap option_fmap option_map fst snd remove_gaps fs_gaps gaps_start] in *.
    rewrite (elist_Value_mid _ la i v (mid ++ (j, w) :: l3)), (elist_Next_mid _ la i v (mid ++ (j, w) :: l3)) by done. cbn [mbind outcome_bind].
    pose proof Hgs as Hgs'. rewrite E in Hgs'. destruct (gaps_around _ _ _ Hgs') as (_ & Hpost & Hv & _ & Hne). cbn [snd] in Hpost, Hv.
    pose proof (gaps_start_bounds _ _ _ _ _ _ _ Hgs') as [Hm1 Hm2].
    rewrite (proj2 (Z.ltb_lt _ _)) by lia.
    destruct (gaps_start_head mid j w l3) as (h & post & Eh & Hh).
    destruct (delete_between pre (i, v) h post c (mk_elist (la ++ (i, v) :: mid ++ (j, w) :: l3) fr) d) as [d1 Hd1].
    { by rewrite E, Eh. }
    { left. cbn [snd]. intros k Hk. rewrite Hh in Hk. apply Hc. lia. }
    cbn [snd] in Hd1. rewrite Hd1, Hh.
    destruct (IH (pre ++ [(i, v)]) la (cut_queue c (bi_End v) (gaps_start mid (bi_Start w))) d1 fuel) as (d' & Hd' & Hok').
    { by rewrite E, <-app_assoc. }
    { by eapply elist_ok_remove. }
    { cbn in Hf. lia. }
    { intros k Hk. rewrite cut_lookup, decide_False by lia. apply Hc. lia. }
    pose proof (elist_Remove_mid _ la i v (mid ++ (j, w) :: l3) Hok eq_refl) as Hrem. cbn [el_fresh] in Hrem. rewrite <-Hrem in Hd'.
    exists d'. split; [|done]. etransitivity; [exact Hd'|].
    do 2 f_equal. apply map_eq. intros k. rewrite !cut_lookup. repeat case_decide; try done; try lia. rewrite Hc by lia.
    apply no_entry. rewrite E. apply in_gap_here. cbn. lia.
Qed.

(** The end of [push_frame]. *)
Definition finish (s : frameSorter) (data : list Z) (start : Z) (wasCut : bool) (doneCb : option nat) : outcome (frameSorter * option go_error) :=
  let '(s, doneCb) := if wasCut && (zlen data <? MinStreamFrameBufferSize) then (call doneCb s, None) else (s, doneCb) in
  if MaxStreamFrameSorterGaps <? elist_Len (fs_gaps s) then Ret (s, Some errTooManyGaps) else
  Ret (s <| fs_queue ::= <[start := {| fse_Data := data; fse_DoneCb := doneCb |}]> |>, None).

Lemma finish_run c gaps d data start wasCut doneCb :
  ∃ d' cb, finish (mk_frameSorter c R gaps d) data start wasCut doneCb =
    if MaxStreamFrameSorterGaps <? elist_Len gaps then Ret (mk_frameSorter c R gaps d', Some errTooManyGaps)
    else Ret (mk_frameSorter (<[start := {| fse_Data := data; fse_DoneCb := cb |}]> c) R gaps d', None).
Proof.
  unfold finish. destruct (_ && _); [|by exists d, doneCb]. destruct doneCb as [cb|]; [by exists (d ++ [cb]), None|by exists d, None].
Qed.

(** The cuts of the frame at the start and at the end of the gaps. *)
Lemma cut_start start end_ a v (inG hr wc : bool) :
  a = (if negb inG && negb hr then bi_Start v else start) → start <= a <= end_ →
  (if negb inG && negb hr then
     data ← slice (segment stream start end_) (bi_Start v - start) (zlen (segment stream start end_)); Ret (data, bi_Start v, true)
   else Ret (segment stream start end_, start, wc)) =
  Ret (segment stream a end_, a, (if negb inG && negb hr then true else wc)).
Proof.
  intros Ha Hle. destruct (negb inG && negb hr); [|by rewrite Ha]. rewrite <-Ha, segment_len, segment_slice by lia. done.
Qed.

Lemma cut_end a end_ w (eG wc : bool) :
  (if eG then end_ < bi_End w else bi_End w <= end_) → a < bi_End w → a <= end_ →
  ∃ wc', (if negb eG && negb (a =? bi_End w) && (bi_End w <? end_) then
     data ← slice (segment stream a end_) 0 (bi_End w - a); Ret (data, bi_End w, true)
   else Ret (segment stream a end_, end_, wc)) = Ret (segment stream a (Z.min end_ (bi_End w)), Z.min end_ (bi_End w), wc').
Proof.
  intros HeG Haw Hae. destruct eG; cbn [negb andb]; [exists wc; by rewrite Z.min_l by lia|].
  rewrite (proj2 (Z.eqb_neq _ _)) by lia. cbn [negb andb]. rewrite Z.min_r by lia. destruct (Z.ltb_spec (bi_End w) end_).
  - exists true. by rewrite segment_take by lia.
  - exists wc. by replace end_ with (bi_End w) by lia.
Qed.

(** A frame that starts in or at a gap and ends in or after another. *)
Lemma push_frame_apart l1 i v mid j w l3 fr c d start end_ a hr inG eG wc cb :
  let gaps := mk_elist gs fr in
  let m := gaps_start mid (bi_Start w) in
  gs = l1 ++ (i, v) :: mid ++ (j, w) :: l3 → elist_ok gaps → start < end_ →
  a = (if negb inG && negb hr then bi_Start v else start) → start <= a <= bi_End v → (bi_Start v < a → hr = true → a = bi_End v) →
  bi_Start w <= end_ → (if eG : bool then end_ < bi_End w else bi_End w <= end_) →
  (∀ k, bi_End v <= k <= m → c !! k = q !! k) ∨ (∀ k, bi_End v <= k <= m → c !! k = None) → (∀ k, m <= k <= bi_Start w → c !! k = q !! k) →
  ∃ wc' d' gaps',
    push_frame (mk_frameSorter c R gaps d) (segment stream start end_) start end_ i j v w inG eG hr wc (fst <$> head (mid ++ (j, w) :: l3)) cb =
      finish (mk_frameSorter (cut_queue c (bi_End v) (bi_Start w)) R gaps' d') (segment stream a (Z.min end_ (bi_End w))) a wc' cb ∧
    el_elems gaps' = l1 ++ (left_gap i v a ++ right_gap j w (Z.min end_ (bi_End w))) ++ l3 ∧ elist_ok gaps'.
Proof.
  intros gaps m E Hok Hse Ha Hav Hr Hw HeG Hc1 Hc2. unfold push_frame.
  pose proof Hgs as Hgs'. rewrite E in Hgs'.
  destruct (gaps_around _ _ _ Hgs') as (_ & Hpost & Hv & _ & _). cbn [snd] in Hpost, Hv.
  pose proof (gaps_start_bounds _ _ _ _ _ _ _ Hgs') as Hm. fold m in Hm.
  assert (bi_Start w < bi_End w) as Hwne.
  { destruct Hgs' as [_ Hne _]. apply Forall_app in Hne as [_ [_ [_ [Hne _]%Forall_cons]%Forall_app]%Forall_cons]. done. }
  assert (i ≠ j) as Hij.
  { destruct Hok as [Hnd _]. unfold gaps in Hnd. cbn [el_elems] in Hnd. rewrite E, fmap_app, fmap_cons, fmap_app, fmap_cons in Hnd. cbn [fst] in Hnd.
    apply NoDup_app in Hnd as (_ & _ & [Hni _]%NoDup_cons). rewrite elem_of_app, elem_of_cons in Hni. tauto. }
  rewrite bool_decide_eq_false_2 by done.
  rewrite (cut_start start end_ a v inG hr wc Ha) by lia.
  cbn [mbind outcome_bind]. unfold gaps. rewrite E.
  destruct (update_start_through c R d l1 i v (mid ++ (j, w) :: l3) fr a end_ hr) as [Hok1 ->]; [by rewrite <-E|lia|lia|done|].
  cbn [negb mbind outcome_bind]. destruct (gaps_start_head mid j w l3) as (h & post & Eh & Hh).
  destruct (delete_between l1 (i, v) h post c (mk_elist (l1 ++ left_gap i v a ++ mid ++ (j, w) :: l3) fr) d) as [d1 Hd1].
  { by rewrite E, Eh. }
  { by rewrite Hh. }
  cbn [snd] in Hd1. rewrite Hd1, Hh. fold m. cbn [fs_gaps].
  destruct (remove_gaps_run j w l3 fr mid (l1 ++ [(i, v)]) (l1 ++ left_gap i v a) (cut_queue c (bi_End v) m) d1
    (S (length (el_elems (mk_elist (l1 ++ left_gap i v a ++ mid ++ (j, w) :: l3) fr))))) as (d2 & Hd2 & Hok2).
  { by rewrite E, <-app_assoc. }
  { by rewrite <-app_assoc. }
  { cbn [el_elems]. rewrite !length_app. lia. }
  { fold m. intros k Hk. rewrite cut_lookup, decide_False by lia. by apply Hc2. }
  rewrite <-!app_assoc in Hd2. rewrite Hd2. cbn [mbind outcome_bind]. fold m. rewrite cut_cut by lia.
  destruct (cut_end a end_ w eG (if negb inG && negb hr then true else wc) HeG) as [wc' ->]; [lia|lia|]. cbn [mbind outcome_bind].
  destruct (update_end_apart (cut_queue c (bi_End v) (bi_Start w)) R d2 (l1 ++ left_gap i v a) j w l3 fr i
    ((bi_Start v <? a) && negb hr) (bi_End v) (Z.min end_ (bi_End w))) as [Hok3 He]; [done|lia|].
  rewrite <-!app_assoc in He. rewrite He. cbn [mbind outcome_bind]. exists wc', d2. eexists. split; [reflexivity|].
  cbn [el_elems]. rewrite <-!app_assoc in *. by split.
Qed.

(** A frame inside one gap. *)
Lemma push_frame_same l1 i v l3 fr c d start end_ a hr inG eG wc next cb :
  let gaps := mk_elist gs fr in
  gs = l1 ++ (i, v) :: l3 → elist_ok gaps →
  a = (if negb inG && negb hr then bi_Start v else start) → start <= a < end_ → a < bi_End v → (bi_Start v < a → hr = false) →
  (if eG : bool then end_ < bi_End v else bi_End v <= end_) →
  ∃ wc' d' gaps' j,
    push_frame (mk_frameSorter c R gaps d) (segment stream start end_) start end_ i i v v inG eG hr wc next cb =
      finish (mk_frameSorter c R gaps' d') (segment stream a (Z.min end_ (bi_End v))) a wc' cb ∧
    el_elems gaps' = l1 ++ (left_gap i v a ++ right_gap j v (Z.min end_ (bi_End v))) ++ l3 ∧ elist_ok gaps'.
Proof.
  intros gaps E Hok Ha Hav Hv Hr HeG. unfold push_frame. rewrite bool_decide_eq_true_2 by done.
  rewrite (cut_start start end_ a v inG hr wc Ha) by lia. cbn [mbind outcome_bind negb].
  destruct (cut_end a end_ v eG (if negb inG && negb hr then true else wc) HeG) as [wc' Hcut]; [lia|lia|].
  destruct eG.
  - rewrite Z.min_l in * by lia. unfold gaps in *. rewrite E in *.
    destruct (update_inside c R d l1 i v l3 fr a end_ hr) as (j & fr' & s & adjusted & Hok' & -> & Hend); [done|lia|done|].
    cbn [mbind outcome_bind]. rewrite Hcut. cbn [mbind outcome_bind]. rewrite Hend. cbn [mbind outcome_bind].
    exists wc', d. eexists _, j. split; [reflexivity|]. by split.
  - rewrite Z.min_r in * by lia. unfold gaps in *. rewrite E in *.
    destruct (update_start_through c R d l1 i v l3 fr a end_ hr) as [Hok1 ->]; [done|lia|lia|by intros Hlt Hhr; rewrite (Hr Hlt) in Hhr|].
    cbn [mbind outcome_bind]. rewrite Hcut. cbn [mbind outcome_bind]. unfold update_endGap. rewrite Z.eqb_refl. cbn [mbind outcome_bind negb].
    exists wc', d. eexists _, i. split; [reflexivity|]. unfold right_gap. rewrite Z.ltb_irrefl, app_nil_r. by split.
Qed.

(** A frame that starts where the gap ends and was cut before the next gap. *)
Lemma push_frame_old i v gaps c d start end_ wc next cb :
  start = bi_End v → bi_Start v < start < end_ →
  push_frame (mk_frameSorter c R gaps d) (segment stream start end_) start end_ i i v v true false true wc next cb =
    finish (mk_frameSorter c R gaps d) (segment stream start end_) start wc cb.
Proof.
  intros -> Hv. unfold push_frame, update_startGap, update_endGap. rewrite bool_decide_eq_true_2 by done. cbn [negb andb mbind outcome_bind].
  rewrite (proj2 (Z.leb_gt _ _)) by lia. cbn [negb andb mbind outcome_bind]. rewrite Z.eqb_refl. cbn [negb andb mbind outcome_bind].
  rewrite (proj2 (Z.eqb_neq _ _)) by lia. reflexivity.
Qed.

(** ** The frame is stored *)

Record sorter_inv (s : frameSorter) : Prop := {
  si_list : elist_ok (fs_gaps s);
  si_gaps : gaps_ok (el_elems (fs_gaps s));
  si_read : ∀ x, in_gap (el_elems (fs_gaps s)) x → fs_readPos s <= x;
  si_queue : queue_ok stream (fs_readPos s) (in_gap (el_elems (fs_gaps s))) (fs_queue s);
}.

(** What [push] promises for a frame from [start] to [end_]. *)
Definition stored (start end_ : Z) (s' : frameSorter) (err : option go_error) : Prop :=
  match err with
  | None => sorter_inv s' ∧ fs_readPos s' = R ∧ ∀ x, in_gap (el_elems (fs_gaps s')) x ↔ in_gap gs x ∧ ¬ (start <= x < end_)
  | Some e => e = errTooManyGaps ∧ MaxStreamFrameSorterGaps < elist_Len (fs_gaps s')
  end.

Lemma finish_stored start end_ a b c gaps d wc cb :
  R <= a < b → b < MaxByteCount → boundary q a → boundary q b → c = cut_queue q a b →
  elist_ok gaps → gaps_ok (el_elems gaps) → (∀ x, in_gap (el_elems gaps) x ↔ in_gap gs x ∧ ¬ (a <= x < b)) →
  (∀ x, in_gap gs x → start <= x < end_ ↔ a <= x < b) →
  ∃ s' err, finish (mk_frameSorter c R gaps d) (segment stream a b) a wc cb = Ret (s', err) ∧ stored start end_ s' err.
Proof.
  intros Hab Hb Hba Hbb -> Hok Hgs' Hin Hx. destruct (finish_run (cut_queue q a b) gaps d (segment stream a b) a wc cb) as (d' & cb' & ->).
  destruct (Z.ltb_spec MaxStreamFrameSorterGaps (elist_Len gaps)) as [Hlen|Hlen]; eexists _, _; (split; [reflexivity|]); [by split|].
  split; [|split; [done|]].
  - split; cbn [fs_gaps fs_readPos fs_queue]; [done|done| |].
    + intros x [Hg _]%Hin. by apply HR.
    + by eapply (queue_insert stream R _ q Hq); [..|lia| |].
  - cbn [fs_gaps]. intros x. rewrite Hin. split; intros [Hg Hn]; (split; [done|]); by rewrite (Hx x Hg) in *.
Qed.

(** ** The cases *)

Section Cases.
Context (l1 : list (nat * ByteInterval)) (i : nat) (v : ByteInterval) (l2 : list (nat * ByteInterval)) (fr : nat) (start end_ : Z).
Hypothesis E : gs = l1 ++ (i, v) :: l2.
Hypothesis Hok : elist_ok (mk_elist gs fr).
Hypothesis Hl1 : Forall (λ g, bi_End g.2 < start) l1.
Hypothesis Hv : start <= bi_End v.
Hypothesis Hse : start < end_ < MaxByteCount.
Hypothesis Hend : bi_Start v < end_.

Lemma gap_v x : bi_Start v <= x < bi_End v → in_gap gs x.
Proof. intros Hx. rewrite E. by apply in_gap_here. Qed.

Lemma v_nonempty : bi_Start v < bi_End v.
Proof. pose proof Hgs as Hgs'. rewrite E in Hgs'. destruct (gaps_around _ _ _ Hgs') as (_ & _ & H & _). done. Qed.

(** No byte is missing between the start of the frame and the gap. *)
Lemma before_v x : start <= x < bi_Start v → ¬ in_gap gs x.
Proof.
  intros Hx. pose proof Hgs as Hgs'. rewrite E in Hgs' |- *. destruct (gaps_around _ _ _ Hgs') as (_ & Hpost & Hne & _). cbn [snd] in *.
  rewrite in_gap_app, in_gap_cons. cbn [snd]. intros [H|[H|H]]; [|lia|].
  - apply (not_in_gap_lt l1 x) in H; [done|]. eapply Forall_impl; [exact Hl1|]. cbn. lia.
  - apply (not_in_gap_gt l2 x) in H; [done|]. eapply Forall_impl; [exact Hpost|]. cbn. lia.
Qed.

(** The next gap, if the frame starts at the end of the gap. *)
Lemma after_v : bi_End v < MaxByteCount → ∃ h post, l2 = h :: post ∧ bi_End v < bi_Start h.2 ∧ (∀ x, bi_End v <= x < bi_Start h.2 → ¬ in_gap gs x) ∧ in_gap gs (bi_Start h.2).
Proof.
  intros Hlt. pose proof Hgs as Hgs'. rewrite E in Hgs' |- *. destruct (gaps_around _ _ _ Hgs') as (_ & Hpost & Hne & _ & Hne2). cbn [snd] in *.
  destruct l2 as [|h post].
  { destruct Hgs' as [_ _ (gs' & g & Hg & Hl)]. apply app_inj_tail in Hg as [_ <-]. cbn in Hl. lia. }
  exists h, post. apply Forall_cons in Hpost as [Hh _]. apply Forall_cons in Hne2 as [Hne2 _]. split_and!; [done|done| |].
  - intros x Hx. by apply between_gaps.
  - replace (l1 ++ (i, v) :: h :: post) with ((l1 ++ [(i, v)]) ++ h :: post) by (by rewrite <-app_assoc). apply in_gap_here. lia.
Qed.

(** Without an entry at its start, the frame starts before or in the gap. *)
Lemma none_start : q !! start = None → start < bi_End v.
Proof.
  intros Hn. destruct (decide (start = bi_End v)) as [->|]; [|lia]. exfalso. pose proof v_nonempty.
  destruct after_v as (h & post & _ & Hh & Hno & _); [lia|].
  destruct (entry_at stream R _ q Hq (bi_End v)) as [e He]; [|apply Hno; lia| |by rewrite He in Hn].
  - pose proof (HR (bi_End v - 1) (gap_v (bi_End v - 1) ltac:(lia))). lia.
  - eapply boundary_after_gap; [exact Hq|]. apply gap_v. lia.
Qed.

(** With one, it starts before the gap or at its end. *)
Lemma some_start e : q !! start = Some e → R <= start ∧ (start < bi_Start v ∨ start = bi_End v).
Proof.
  intros He. destruct (qo_entry _ _ _ _ Hq start e He) as (Hl & HRs & _ & Hno). split; [done|].
  destruct (decide (start < bi_Start v)); [by left|]. destruct (decide (start = bi_End v)); [by right|].
  destruct (Hno start); [lia|]. apply gap_v. lia.
Qed.

(** The loop that replaces entries stops at a gap or inside a longer entry. *)
Lemma replaced_stop e pos :
  q !! start = Some e → start < pos <= end_ → boundary q pos → (∀ x, start <= x < pos → ¬ in_gap gs x) → q !! pos = None →
  in_gap gs pos ∧ (start < bi_Start v → pos = bi_Start v).
Proof.
  intros He Hpos Hb Hno Hnone. destruct (some_start e He) as [HRs _]. pose proof v_nonempty.
  assert (in_gap gs pos) as Hg.
  { destruct (decide (in_gap gs pos)); [done|]. destruct (entry_at stream R _ q Hq pos) as [e' He']; [lia|done|done|]. by rewrite He' in Hnone. }
  split; [done|]. intros Hlt. destruct (Z.lt_trichotomy pos (bi_Start v)) as [Hp|[Hp|Hp]]; [|done|].
  - destruct (before_v pos); [lia|done].
  - destruct (Hno (bi_Start v)); [lia|]. apply gap_v. lia.
Qed.

Lemma cut_stored old l3 w j a b c gaps d wc cb :
  gs = l1 ++ old ++ l3 → touched old v w → (l3 = [] → bi_End w = MaxByteCount) →
  R <= a → start <= a < b → a <= bi_End v → bi_Start w <= b <= bi_End w → b <= end_ →
  (∀ x, start <= x < a → ¬ in_gap gs x) → (∀ x, b <= x < end_ → ¬ in_gap gs x) → boundary q a → c = cut_queue q a b →
  el_elems gaps = l1 ++ (left_gap i v a ++ right_gap j w b) ++ l3 → elist_ok gaps →
  ∃ s' err, finish (mk_frameSorter c R gaps d) (segment stream a b) a wc cb = Ret (s', err) ∧ stored start end_ s' err.
Proof.
  intros Eo Ht Hlast HRa Hab Hav Hbw Hbe Hna Hnb Hba Hc Eg Hokg.
  assert (∀ x, bi_Start w <= x < bi_End w → in_gap gs x) as Gw.
  { intros x Hx. rewrite Eo. apply in_gap_app. right. apply in_gap_app. left. apply Exists_exists.
    pose proof (to_last _ _ _ Ht) as (g & Hg & <-)%Exists_exists. by exists g. }
  assert (bi_Start w < bi_End w) as Hwne.
  { pose proof (to_last _ _ _ Ht) as (g & Hg & <-)%Exists_exists. destruct Hgs as [_ Hne _]. rewrite Eo in Hne.
    apply Forall_app in Hne as [_ [Hne _]%Forall_app]. rewrite Forall_forall in Hne. by apply Hne. }
  pose proof Hgs as Hgs'. rewrite Eo in Hgs'.
  destruct (gaps_cut l1 old l3 i v j w a b Hgs' Ht Hlast) as [Hgok Hgin]; [|lia|lia|lia|].
  { eapply Forall_impl; [exact Hl1|]. cbn. lia. }
  rewrite <-Eo, <-Eg in *. eapply finish_stored; try done; try lia.
  - destruct (decide (b = bi_End w)) as [->|]; [eapply boundary_after_gap; [exact Hq|]|eapply boundary_gap; [exact Hq|]]; apply Gw; lia.
  - intros x Hx. split; intros Hr; [|lia]. destruct (decide (x < a)); [destruct (Hna x); [lia|done]|].
    destruct (decide (b <= x)); [destruct (Hnb x); [lia|done]|lia].
Qed.

Lemma touched_same : touched [(i, v)] v v.
Proof.
  split; [by apply Exists_exists; exists (i, v); split; [left|]|by apply Exists_exists; exists (i, v); split; [left|]| |by left].
  apply Forall_singleton. by left.
Qed.

Lemma last_same : l2 = [] → bi_End v = MaxByteCount.
Proof. intros ->. rewrite E in Hgs. destruct Hgs as [_ _ (gs' & g & Hg & Hl)]. by apply app_inj_tail in Hg as [_ <-]. Qed.

(** The frame starts in a gap and ends in it, or after it and before the next. *)
Lemma push_same_none eG d wc next cb :
  q !! start = None → (if eG : bool then end_ < bi_End v else bi_End v <= end_) → (∀ x, bi_End v <= x < end_ → ¬ in_gap gs x) →
  ∃ s' err, push_frame (mk_frameSorter q R (mk_elist gs fr) d) (segment stream start end_) start end_ i i v v
    (bi_Start v <=? start) eG false wc next cb = Ret (s', err) ∧ stored start end_ s' err.
Proof.
  intros Hnone HeG Hafter. pose proof (none_start Hnone). pose proof v_nonempty.
  destruct (push_frame_same l1 i v l2 fr q d start end_ (Z.max start (bi_Start v)) false (bi_Start v <=? start) eG wc next cb)
    as (wc' & d' & gaps' & j & -> & Eg & Hok'); try done; try lia.
  { destruct (Z.leb_spec (bi_Start v) start); cbn; lia. }
  assert (in_gap gs (Z.max start (bi_Start v))) as Ga by (apply gap_v; lia).
  eapply (cut_stored [(i, v)] l2); try done; try lia.
  - apply touched_same.
  - apply last_same.
  - by apply HR.
  - intros x Hx. apply before_v. lia.
  - intros x Hx. destruct eG; [lia|]. apply Hafter. lia.
  - eapply boundary_gap; [exact Hq|done].
  - apply map_eq. intros k. rewrite cut_lookup. case_decide; [|done]. apply no_entry, gap_v. destruct eG; lia.
Qed.

(** The frame starts with data that has come. *)
Lemma push_same_replaced eG e pos wc d next cb :
  q !! start = Some e → start < pos <= end_ → boundary q pos → (∀ x, start <= x < pos → ¬ in_gap gs x) →
  (if wc : bool then ∃ e', q !! pos = Some e' ∧ end_ < pos + entry_len e' else q !! pos = None) →
  (if eG : bool then end_ < bi_End v else bi_End v <= end_) → (∀ x, bi_End v <= x < end_ → ¬ in_gap gs x) →
  (bi_End v <= end_ → ¬ in_gap gs end_) →
  ∃ s' err,
    ('(data, end_) ← (if wc : bool then data ← slice (segment stream start end_) 0 (pos - start); Ret (data, pos) else Ret (segment stream start end_, end_));
     push_frame (mk_frameSorter (cut_queue q start pos) R (mk_elist gs fr) d) data start end_ i i v v (bi_Start v <=? start) eG true wc next cb) =
    Ret (s', err) ∧ stored start end_ s' err.
Proof.
  intros He Hpos Hb Hno Hwc HeG Hafter Hafter'. pose proof v_nonempty. destruct (some_start e He) as [HRs [Hlt|Heq]].
  - destruct wc.
    { exfalso. destruct Hwc as (e' & He' & Hlen). destruct (qo_entry _ _ _ _ Hq pos e' He') as (_ & _ & _ & Hno').
      destruct (decide (bi_Start v < pos)); [apply (Hno (bi_Start v))|apply (Hno' (bi_Start v))]; try lia; apply gap_v; lia. }
    destruct (replaced_stop e pos He Hpos Hb Hno Hwc) as [_ Hp]. specialize (Hp Hlt). subst pos. cbn [mbind outcome_bind].
    destruct (push_frame_same l1 i v l2 fr (cut_queue q start (bi_Start v)) d start end_ start true (bi_Start v <=? start) eG false next cb)
      as (wc' & d2 & gaps' & j & -> & Eg & Hok'); try done; try lia.
    { by rewrite andb_false_r. }
    eapply (cut_stored [(i, v)] l2); try done; try lia.
    + apply touched_same.
    + apply last_same.
    + intros x Hx. destruct eG; [lia|]. apply Hafter. lia.
    + eapply boundary_entry; [exact Hq|exact He].
    + apply map_eq. intros k. rewrite !cut_lookup. repeat case_decide; try done; try lia. apply no_entry, gap_v. lia.
  - destruct eG; [lia|]. destruct wc.
    2: { exfalso. destruct (replaced_stop e pos He Hpos Hb Hno Hwc) as [Hg _]. destruct (decide (pos = end_)) as [->|].
         - by apply Hafter'.
         - apply (Hafter pos); [lia|done]. }
    rewrite segment_take by lia. cbn [mbind outcome_bind].
    rewrite (proj2 (Z.leb_le _ _)) by lia. rewrite push_frame_old by lia.
    assert (∀ x, start <= x < pos ∨ start <= x < end_ → ¬ in_gap gs x) as Hno2 by (intros x Hx; apply Hafter; lia).
    eapply finish_stored; try done; try lia.
    + eapply boundary_entry; [exact Hq|exact He].
    + intros x. split; [|tauto]. intros Hg. split; [done|]. intros Hx. by apply (Hno2 x); [left|].
    + intros x Hg. split; intros Hx; destruct (Hno2 x); tauto.
Qed.

Section Apart.
Context (mid : list (nat * ByteInterval)) (j : nat) (w : ByteInterval) (l3 : list (nat * ByteInterval)) (eG : bool).
Hypothesis E2 : l2 = mid ++ (j, w) :: l3.
Hypothesis Hw : bi_Start w <= end_.
Hypothesis HeG : if eG then end_ < bi_End w else bi_End w <= end_.
Hypothesis Hafter : ∀ x, bi_End w <= x < end_ → ¬ in_gap gs x.

Lemma gap_w x : bi_Start w <= x < bi_End w → in_gap gs x.
Proof.
  intros Hx. rewrite E, E2. replace (l1 ++ (i, v) :: mid ++ (j, w) :: l3) with ((l1 ++ (i, v) :: mid) ++ (j, w) :: l3) by (by rewrite <-app_assoc).
  by apply in_gap_here.
Qed.

Lemma touched_apart : touched ((i, v) :: mid ++ [(j, w)]) v w.
Proof.
  pose proof Hgs as Hgs'. rewrite E, E2 in Hgs'. destruct (gaps_around _ _ _ Hgs') as (_ & Hpost & _).
  replace (l1 ++ (i, v) :: mid ++ (j, w) :: l3) with ((l1 ++ (i, v) :: mid) ++ (j, w) :: l3) in Hgs' by (by rewrite <-app_assoc).
  destruct (gaps_around _ _ _ Hgs') as (Hpre & _). apply Forall_app in Hpost as [Hpost [Hvw _]%Forall_cons].
  apply Forall_app in Hpre as [_ [_ Hpre]%Forall_cons]. cbn [snd] in *. rewrite Forall_forall in Hpre, Hpost. split.
  - apply Exists_cons. by left.
  - apply Exists_cons. right. apply Exists_app. right. by apply Exists_cons; left.
  - apply Forall_cons. split; [by left|]. apply Forall_app. split; [|apply Forall_singleton; tauto].
    apply Forall_forall. intros g Hg. right. right. by split; [apply Hpost|apply Hpre].
  - by right.
Qed.

Lemma last_apart : l3 = [] → bi_End w = MaxByteCount.
Proof.
  intros ->. rewrite E, E2 in Hgs. destruct Hgs as [_ _ (gs' & g & Hg & Hl)]. rewrite app_comm_cons, app_assoc in Hg.
  by apply app_inj_tail in Hg as [_ <-].
Qed.

Lemma split_apart : gs = l1 ++ ((i, v) :: mid ++ [(j, w)]) ++ l3.
Proof. rewrite E, E2. cbn [app]. by rewrite <-app_assoc. Qed.

Lemma apart_order : bi_End v < gaps_start mid (bi_Start w) <= bi_Start w ∧ bi_Start w < bi_End w.
Proof.
  pose proof Hgs as Hgs'. rewrite E, E2 in Hgs'. split; [by eapply gaps_start_bounds|].
  destruct Hgs' as [_ Hne _]. by apply Forall_app in Hne as [_ [_ [_ [Hne _]%Forall_cons]%Forall_app]%Forall_cons].
Qed.

Lemma push_apart_none d wc cb :
  q !! start = None →
  ∃ s' err, push_frame (mk_frameSorter q R (mk_elist gs fr) d) (segment stream start end_) start end_ i j v w
    (bi_Start v <=? start) eG false wc (fst <$> head l2) cb = Ret (s', err) ∧ stored start end_ s' err.
Proof.
  intros Hnone. pose proof (none_start Hnone). pose proof v_nonempty. pose proof apart_order as [Ho1 Ho2].
  pose proof E as E'. rewrite E2 in E'. rewrite E2.
  destruct (push_frame_apart l1 i v mid j w l3 fr q d start end_ (Z.max start (bi_Start v)) false (bi_Start v <=? start) eG wc cb)
    as (wc' & d' & gaps' & -> & Eg & Hok'); try done; try lia.
  { destruct (Z.leb_spec (bi_Start v) start); cbn; lia. }
  { by left. }
  assert (in_gap gs (Z.max start (bi_Start v))) as Ga by (apply gap_v; lia).
  eapply (cut_stored ((i, v) :: mid ++ [(j, w)]) l3); try done; try lia.
  - apply split_apart.
  - apply touched_apart.
  - apply last_apart.
  - by apply HR.
  - intros x Hx. apply before_v. lia.
  - intros x Hx. destruct eG; [lia|]. apply Hafter. lia.
  - eapply boundary_gap; [exact Hq|done].
  - apply map_eq. intros k. rewrite !cut_lookup. repeat case_decide; try done; try lia. apply no_entry.
    destruct (decide (k < bi_End v)); [apply gap_v|apply gap_w]; lia.
Qed.

Lemma push_apart_replaced e pos wc d cb :
  q !! start = Some e → start < pos <= end_ → boundary q pos → (∀ x, start <= x < pos → ¬ in_gap gs x) →
  (if wc : bool then ∃ e', q !! pos = Some e' ∧ end_ < pos + entry_len e' else q !! pos = None) →
  ∃ s' err,
    ('(data, end_) ← (if wc : bool then data ← slice (segment stream start end_) 0 (pos - start); Ret (data, pos) else Ret (segment stream start end_, end_));
     push_frame (mk_frameSorter (cut_queue q start pos) R (mk_elist gs fr) d) data start end_ i j v w (bi_Start v <=? start) eG true wc
       (fst <$> head l2) cb) =
    Ret (s', err) ∧ stored start end_ s' err.
Proof.
  intros He Hpos Hb Hno Hwc. pose proof v_nonempty. pose proof apart_order as [Ho1 Ho2]. destruct (some_start e He) as [HRs Hs].
  destruct wc.
  { exfalso. destruct Hwc as (e' & He' & Hlen). destruct (qo_entry _ _ _ _ Hq pos e' He') as (_ & _ & _ & Hno').
    destruct (decide (bi_Start w < pos)); [apply (Hno (bi_Start w))|apply (Hno' (bi_Start w))]; try lia; apply gap_w; lia. }
  destruct (replaced_stop e pos He Hpos Hb Hno Hwc) as [Hg Hp]. pose proof E as E'. rewrite E2 in E'. rewrite E2. cbn [mbind outcome_bind].
  assert (start = bi_End v → pos = gaps_start mid (bi_Start w)) as Hp'.
  { intros Heq. destruct after_v as (h & post & Eh & Hh & Hnh & Hgh); [lia|]. rewrite E2 in Eh.
    destruct (gaps_start_head mid j w l3) as (h' & post' & Eh' & <-). rewrite Eh in Eh'. simplify_eq.
    destruct (Z.lt_trichotomy pos (bi_Start h'.2)) as [Hlt|[?|Hlt]]; [destruct (Hnh pos); [lia|done]|done|].
    destruct (Hno (bi_Start h'.2)); [lia|done]. }
  destruct (push_frame_apart l1 i v mid j w l3 fr (cut_queue q start pos) d start end_ start true (bi_Start v <=? start) eG false cb)
    as (wc' & d' & gaps' & -> & Eg & Hok'); try done; try lia.
  { by rewrite andb_false_r. }
  { destruct Hs as [Hs|Hs]; [left|right]; intros k Hk; rewrite cut_lookup.
    - specialize (Hp Hs). by rewrite decide_False by lia.
    - specialize (Hp' Hs). case_decide; [done|]. replace k with pos by lia. done. }
  { intros k Hk. rewrite cut_lookup. rewrite decide_False; [done|]. destruct Hs as [Hs|Hs]; [specialize (Hp Hs)|specialize (Hp' Hs)]; lia. }
  eapply (cut_stored ((i, v) :: mid ++ [(j, w)]) l3); try done; try lia.
  - apply split_apart.
  - apply touched_apart.
  - apply last_apart.
  - intros x Hx. destruct eG; [lia|]. apply Hafter. lia.
  - eapply boundary_entry; [exact Hq|exact He].
  - apply map_eq. intros k. rewrite !cut_lookup. destruct Hs as [Hs|Hs]; [specialize (Hp Hs)|specialize (Hp' Hs)].
    all: repeat case_decide; try done; try lia; apply no_entry; destruct (decide (k < bi_End v)); [apply gap_v|apply gap_w]; lia.
Qed.
End Apart.
End Cases.
End Frame.
End Push.
