(* ===== verification/QuicFrameSorterTheorems.v ===== *)
(** * The frame sorter delivers the stream

    The frames carry parts of one stream.  Whatever order they come in and however
    they overlap, the gaps are exactly the bytes that have not come, the queue holds
    every byte that has come and was not read exactly once, and [Pop] returns the
    next bytes of the stream.  The sorter never panics; it fails only when there are
    more than [MaxStreamFrameSorterGaps] gaps. *)

From stdpp Require Import base list numbers strings gmap sorting.
From Stdlib Require Import ZArith Lia.
From S2P Require Import Prelude LinkedList QuicProtocol QuicFrameSorter QuicFrameSorterQueue QuicFrameSorterGaps QuicFrameSorterPush.

Section Theorems.
Context (stream : Z → Z).

(** The bytes that have not come. *)
Definition missing (s : frameSorter) (x : Z) : Prop := in_gap (el_elems (fs_gaps s)) x.

(** The gaps where the frame from [start] to [end_] ends, seen from the one it starts in. *)
Inductive ends (l2 : list (nat * ByteInterval)) (i : nat) (v : ByteInterval) (end_ : Z) : nat → ByteInterval → bool → Prop :=
| EndsSame eG : (if eG : bool then end_ < bi_End v else bi_End v <= end_) → ends l2 i v end_ i v eG
| EndsApart mid j w l3 eG : l2 = mid ++ (j, w) :: l3 → bi_Start w <= end_ → (if eG : bool then end_ < bi_End w else bi_End w <= end_) →
    ends l2 i v end_ j w eG.

Lemma end_found_cases l1 i v l2 end_ r :
  gaps_ok (l1 ++ (i, v) :: l2) → end_found ((i, v) :: l2) end_ r →
  ∃ j w eG a b, r = (Some j, eG) ∧ l1 ++ (i, v) :: l2 = a ++ (j, w) :: b ∧ ends l2 i v end_ j w eG ∧
    ∀ x, bi_End w <= x <= end_ → ¬ in_gap (l1 ++ (i, v) :: l2) x.
Proof.
  intros Hgs [a j w b Eab Hw|a j w h b Eab Hw]; rewrite Eab in *.
  - exists j, w, true, (l1 ++ a), b. rewrite <-app_assoc. split_and!; [done|done| |intros x Hx; lia].
    destruct a as [|g a]; cbn [app] in Eab; simplify_eq; [constructor; lia|]. by eapply EndsApart; [done|lia|lia].
  - exists j, w, false, (l1 ++ a), (h :: b). rewrite <-app_assoc. split_and!; [done|done| |].
    + rewrite app_assoc in Hgs. destruct (gaps_around _ _ _ Hgs) as (_ & _ & Hne & _). cbn in Hne.
      destruct a as [|g a]; cbn [app] in Eab; simplify_eq; [constructor; lia|]. by eapply EndsApart; [done|lia|lia].
    + intros x Hx. rewrite app_assoc in *. apply (between_gaps (l1 ++ a) (j, w) h b x Hgs). cbn. lia.
Qed.

(** [push] stores the frame, or finds that all of it has come. *)
Definition pushed (s : frameSorter) (start end_ : Z) (s' : frameSorter) (err : option go_error) : Prop :=
  stored stream (fs_readPos s) (el_elems (fs_gaps s)) start end_ s' err ∨
  err = Some errDuplicateStreamData ∧ s' = s ∧ ∀ x, start <= x < end_ → ¬ missing s x.

Lemma push_found q R gs fr d start end_ l1 i v l2 j w eG cb :
  let s := mk_frameSorter q R (mk_elist gs fr) d in
  sorter_inv stream s → gs = l1 ++ (i, v) :: l2 → Forall (λ g, bi_End g.2 < start) l1 → start <= bi_End v →
  start < end_ < MaxByteCount → bi_Start v < end_ → ends l2 i v end_ j w eG → (∀ x, bi_End w <= x <= end_ → ¬ in_gap gs x) →
  ∃ s' err,
    match replace_loop (S (size q)) s start end_ false with
    | Duplicate => Ret (s, Some errDuplicateStreamData)
    | Replaced s pos hr wc =>
        '(data, end_) ← (if wc : bool then data ← slice (segment stream start end_) 0 (pos - start); Ret (data, pos)
                         else Ret (segment stream start end_, end_));
        push_frame s data start end_ i j v w (bi_Start v <=? start) eG hr wc (fst <$> head l2) cb
    end = Ret (s', err) ∧ pushed s start end_ s' err.
Proof.
  intros s [Hok Hgs HR Hq] E Hl1 Hv Hse Hend Hends Hafter. cbn [fs_gaps el_elems fs_readPos fs_queue] in *.
  assert (∀ o, (∃ s' err, o = Ret (s', err) ∧ stored stream R gs start end_ s' err) → ∃ s' err, o = Ret (s', err) ∧ pushed s start end_ s' err) as Hst.
  { intros o (s' & err & Ho & Hs). exists s', err. split; [done|]. by left. }
  pose proof (replace_run stream R (in_gap gs) q Hq R (mk_elist gs fr) start end_ d ltac:(lia)) as Hrr. fold s in Hrr.
  destruct Hrr as [d' Hnone|e He Hlen|e pos wc d' He Hpos Hb Hno Hwc].
  - cbn [mbind outcome_bind]. apply Hst. destruct Hends as [eG HeG|mid j w l3 eG E2 Hw HeG].
    + eapply push_same_none; try done. intros x Hx. apply Hafter. lia.
    + eapply push_apart_none; try done. intros x Hx. apply Hafter. lia.
  - eexists _, _. split; [reflexivity|]. right. split_and!; [done|done|]. intros x Hx.
    destruct (qo_entry _ _ _ _ Hq start e He) as (_ & _ & _ & Hno). apply Hno. lia.
  - apply Hst. destruct Hends as [eG HeG|mid j w l3 eG E2 Hw HeG].
    + eapply push_same_replaced; try done; intros; apply Hafter; lia.
    + eapply push_apart_replaced; try done. intros x Hx. apply Hafter. lia.
Qed.

Lemma gaps_front gs fr : gaps_ok gs → elist_ok (mk_elist gs fr) →
  ∃ g rest, gs = g :: rest ∧ elist_Front (mk_elist gs fr) = Some g.1 ∧ elist_Value (mk_elist gs fr) g.1 = Ret g.2 ∧
    bi_Start g.2 < bi_End g.2 ∧ ∀ x, in_gap gs x → bi_Start g.2 <= x.
Proof.
  intros Hgs Hok. destruct gs as [|[i v] rest]; [by destruct Hgs as [_ _ ([|? ?] & ? & ? & _)]|]. exists (i, v), rest.
  destruct (gaps_around [] _ _ Hgs) as (_ & Hrest & Hne & _). split_and!; [done|done|by apply (elist_Value_mid _ [] i v rest)|done|].
  intros x [Hx|Hx]%in_gap_cons; [lia|]. destruct (decide (x < bi_Start v)); [|cbn; lia]. cbn in *.
  apply (not_in_gap_gt rest x) in Hx; [done|]. eapply Forall_impl; [exact Hrest|]. cbn. lia.
Qed.

(** A frame that ends before the gap found has come. *)
Lemma push_before gs fr l1 i v l2 start end_ :
  let l := mk_elist gs fr in
  gaps_ok gs → elist_ok l → gs = l1 ++ (i, v) :: l2 → Forall (λ g, bi_End g.2 < start) l1 → start < end_ < MaxByteCount → end_ <= bi_Start v →
  l1 ≠ [] ∨ end_ = bi_Start v →
  (∃ j w eG, findEndGap l i end_ = Ret (Some j, eG) ∧ elist_Value l j = Ret w ∧
    (bool_decide (Some i = Some j) && (end_ <=? bi_Start v) ||
      negb (bool_decide (Some i = Some j)) && (bi_Start w <=? bi_End v) && (end_ <=? bi_Start v)) = true) ∧
  ∀ x, start <= x < end_ → ¬ in_gap gs x.
Proof.
  intros l Hgs Hok -> Hl1 Hse Hv Hcase. split.
  2: { intros x Hx. eapply (before_v _ Hgs l1 i v l2 start); [done|done|lia]. }
  destruct (gaps_around _ _ _ Hgs) as (Hpre & Hpost & Hne & Hne1 & _). cbn [snd] in *.
  rewrite (proj2 (Z.leb_le end_ _)) by lia.
  destruct (decide (end_ = bi_Start v)) as [->|Hlt].
  - exists i, v, true. split_and!; [|by apply (elist_Value_mid l l1 i v l2)|by rewrite bool_decide_eq_true_2].
    unfold findEndGap. rewrite (split_at_mid l l1 i v l2) by done. cbn [findEndGap_loop].
    rewrite Z.leb_refl, (proj2 (Z.ltb_lt _ _)) by lia. done.
  - destruct Hcase as [Hl|]; [|done]. destruct (exists_last Hl) as (l1' & [j w] & ->). exists j, w, false.
    rewrite (find_end_before l (l1' ++ [(j, w)]) i v l2), (elist_Prev_mid l (l1' ++ [(j, w)]) i v l2), last_snoc by (done || lia).
    split_and!; [done| |].
    + apply (elist_Value_mid l l1' j w ((i, v) :: l2)); [done|]. cbn [el_elems l]. by rewrite <-app_assoc.
    + apply Forall_app in Hpre as [_ [Hw _]%Forall_cons]. apply Forall_app in Hne1 as [_ [Hw1 _]%Forall_cons]. cbn in Hw, Hw1.
      rewrite (proj2 (Z.leb_le _ _)) by lia. by destruct (bool_decide _).
Qed.

Lemma push_spec s data offset cb :
  sorter_inv stream s → data = segment stream offset (offset + zlen data) → offset + zlen data < MaxByteCount →
  ∃ s' err, push s data offset cb = Ret (s', err) ∧ pushed s offset (offset + zlen data) s' err.
Proof.
  intros Hinv Hdata Hmax. destruct s as [q R [gs fr] d]. pose proof Hinv as [Hok Hgs HR Hq]. cbn [fs_gaps el_elems fs_readPos fs_queue] in *.
  unfold push. cbn [fs_gaps el_elems fs_queue]. pose proof (zlen_nonneg data). destruct (Z.eqb_spec (zlen data) 0) as [Hz|Hz].
  { eexists _, _. split; [reflexivity|]. right. split_and!; [done..|]. intros x Hx. lia. }
  set (end_ := offset + zlen data) in *. assert (offset < end_) as Hse by lia.
  destruct (gaps_front gs fr Hgs Hok) as (g & rest & Eg & -> & -> & Hgne & Hfront). cbn [mbind outcome_bind].
  destruct (Z.leb_spec end_ (bi_Start g.2)) as [Hle|Hgt].
  { eexists _, _. split; [reflexivity|]. right. split_and!; [done..|]. intros x Hx Hm. specialize (Hfront x Hm). lia. }
  destruct (find_start gs offset Hgs ltac:(lia)) as (l1 & i & v & l2 & E & Hl1 & Hv & ->). cbn [mbind outcome_bind].
  rewrite (elist_Next_mid _ l1 i v l2 Hok E).
  destruct (decide (end_ <= bi_Start v)) as [Hb|Hb].
  - destruct (push_before gs fr l1 i v l2 offset end_ Hgs Hok E Hl1 ltac:(lia) Hb) as [(j & w & eG & -> & Hj & Hcond) Hno].
    { left. intros ->. rewrite Eg in E. simplify_eq/=. lia. }
    cbn [mbind outcome_bind]. rewrite (elist_Value_mid _ l1 i v l2 Hok E), Hj. cbn [mbind outcome_bind]. rewrite Hcond.
    eexists _, _. split; [reflexivity|]. right. by split_and!.
  - destruct (find_end (mk_elist gs fr) l1 i v l2 end_) as (r & -> & Hr); [done|done|by rewrite <-E|lia|lia|].
    pose proof Hgs as Hgs'. rewrite E in Hgs'. destruct (end_found_cases l1 i v l2 end_ r Hgs' Hr) as (j & w & eG & a & b & -> & Eab & Hends & Hafter).
    rewrite <-E in Eab, Hafter. cbn [mbind outcome_bind]. rewrite (elist_Value_mid _ l1 i v l2 Hok E), (elist_Value_mid _ a j w b Hok Eab).
    cbn [mbind outcome_bind]. rewrite (proj2 (Z.leb_gt end_ (bi_Start v))) by lia. rewrite !andb_false_r. cbn [orb].
    rewrite Hdata. eapply push_found; try done; lia.
Qed.

(** ** The operations *)

Lemma inv_call s cb : sorter_inv stream s → sorter_inv stream (call cb s).
Proof. intros [Hok Hgs HR Hq]. destruct cb; [|done]. by split. Qed.

Lemma Push_spec s data offset cb :
  sorter_inv stream s → data = segment stream offset (offset + zlen data) → offset + zlen data < MaxByteCount →
  ∃ s' err, Push s data offset cb = Ret (s', err) ∧
    match err with
    | None => sorter_inv stream s' ∧ fs_readPos s' = fs_readPos s ∧ ∀ x, missing s' x ↔ missing s x ∧ ¬ (offset <= x < offset + zlen data)
    | Some e => e = errTooManyGaps ∧ MaxStreamFrameSorterGaps < elist_Len (fs_gaps s')
    end.
Proof.
  intros Hinv Hdata Hmax. destruct (push_spec s data offset cb Hinv Hdata Hmax) as (s' & err & Hp & [Hst|(-> & -> & Hno)]); unfold Push; rewrite Hp;
    cbn [mbind outcome_bind].
  - rewrite bool_decide_eq_false_2; [by exists s', err|]. intros ->. by destruct Hst as [? _].
  - rewrite bool_decide_eq_true_2 by done. exists (call cb s), None. split; [done|]. split; [by apply inv_call|].
    unfold missing. destruct cb; (split; [done|]); intros x; (split; [|by intros []]); intros Hm; (split; [done|]); intros Hx; by apply (Hno x).
Qed.

Lemma Pop_spec s :
  sorter_inv stream s → 0 <= fs_readPos s →
  ∃ s' data cb, Pop s = Ret (s', (fs_readPos s, data, cb)) ∧ sorter_inv stream s' ∧ (∀ x, missing s' x ↔ missing s x) ∧
    match data with
    | Some data => data = segment stream (fs_readPos s) (fs_readPos s') ∧ fs_readPos s < fs_readPos s' ∧
        (size (fs_queue s') < size (fs_queue s))%nat
    | None => s' = s ∧ missing s (fs_readPos s)
    end.
Proof.
  intros Hinv H0. destruct s as [q R [gs fr] d]. pose proof Hinv as [Hok Hgs HR Hq]. unfold Pop, missing. cbn [fs_gaps el_elems fs_readPos fs_queue] in *.
  assert (boundary q R) as Hb by (intros k e Hk Hlt; destruct (qo_entry _ _ _ _ Hq k e Hk) as (_ & ? & _); lia).
  destruct (q !! R) as [e|] eqn:He.
  - destruct (qo_entry _ _ _ _ Hq R e He) as (Hl & _ & Hd & Hno).
    destruct (gaps_front gs fr Hgs Hok) as (g & rest & Eg & Hf & Hv & Hgne & Hfront).
    assert (in_gap gs (bi_Start g.2)) as Hg by (rewrite Eg; apply in_gap_cons; left; lia).
    assert (∀ x, in_gap gs x → R + entry_len e <= x) as HR'.
    { intros x Hx. specialize (HR x Hx). destruct (decide (x < R + entry_len e)); [destruct (Hno x); [lia|done]|lia]. }
    cbn. rewrite Hf, Hv. cbn. fold (entry_len e). rewrite (proj2 (Z.leb_gt _ _)) by (specialize (HR' _ Hg); lia).
    eexists _, _, _. split; [reflexivity|]. cbn. split; [|split; [done|split_and!; [done|lia|by eapply size_delete_lt]]].
    split; cbn; [done|done|done|]. split.
    + intros k e' [Hne Hk]%lookup_delete_Some. destruct (qo_entry _ _ _ _ Hq k e' Hk) as (? & ? & ? & ?). split_and!; [done| |done|done].
      apply (qo_disjoint _ _ _ _ Hq R e k e' He Hk). lia.
    + intros k1 e1 k2 e2 [_ Hk1]%lookup_delete_Some [_ Hk2]%lookup_delete_Some. exact (qo_disjoint _ _ _ _ Hq k1 e1 k2 e2 Hk1 Hk2).
    + intros x Hx Hg'. destruct (qo_cover _ _ _ _ Hq x) as (k & e' & Hk & Hkx); [lia|done|]. exists k, e'. split; [|done].
      rewrite lookup_delete_ne; [done|]. intros <-. rewrite He in Hk. simplify_eq. lia.
  - eexists _, None, None. split; [reflexivity|]. split; [done|]. split; [done|]. split; [done|].
    destruct (decide (in_gap gs R)); [done|]. exfalso. destruct (go_last _ Hgs) as (gs' & g & Eg & Hg).
    assert (bi_Start g.2 < bi_End g.2) as Hne by (destruct Hgs as [_ Hne _]; rewrite Eg in Hne; by apply Forall_app in Hne as [_ [Hne _]%Forall_cons]).
    assert (R <= MaxByteCount - 1) as HRm by (apply HR; rewrite Eg; apply in_gap_here; lia).
    destruct (entry_at stream R _ q Hq R) as [e He']; [lia|done|done|by rewrite He' in He].
Qed.

Lemma newFrameSorter_inv : sorter_inv stream newFrameSorter ∧ ∀ x, missing newFrameSorter x ↔ 0 <= x < MaxByteCount.
Proof.
  assert (∀ x, in_gap [(1%nat, {| bi_Start := 0; bi_End := MaxByteCount |})] x ↔ 0 <= x < MaxByteCount) as Hin.
  { intros x. rewrite in_gap_cons. cbn. pose proof (in_gap_nil x). tauto. }
  split; [|exact Hin]. split; cbn.
  - split; cbn; [apply NoDup_singleton|apply Forall_singleton; cbn; lia].
  - split; [repeat constructor|by apply Forall_singleton|by exists [], (1%nat, {| bi_Start := 0; bi_End := MaxByteCount |})].
  - intros x Hx%Hin. lia.
  - split; [by intros k e ?|by intros ? ? ? ? ?|]. intros x Hx []. by apply Hin.
Qed.

(** ** Runs *)

Inductive sorter_op :=
| OpPush (data : list Z) (offset : Z) (doneCb : option nat)
| OpPop.

(** A frame carries bytes of the stream. *)
Definition op_ok (op : sorter_op) : Prop :=
  match op with
  | OpPush data offset _ => 0 <= offset ∧ data = segment stream offset (offset + zlen data) ∧ offset + zlen data < MaxByteCount
  | OpPop => True
  end.

(** The bytes that have come. *)
Definition came (ops : list sorter_op) (x : Z) : Prop :=
  Exists (λ op, match op with OpPush data offset _ => offset <= x < offset + zlen data | OpPop => False end) ops.

#[local] Instance came_dec ops x : Decision (came ops x).
Proof. apply Exists_dec. intros [data offset cb|]; apply _. Defined.

(** The stream stops at the first error; [out] is what was read. *)
Fixpoint run_ops (s : frameSorter) (out : list Z) (ops : list sorter_op) : outcome (frameSorter * list Z * option go_error) :=
  match ops with
  | [] => Ret (s, out, None)
  | OpPush data offset cb :: ops =>
      '(s, err) ← Push s data offset cb;
      match err with Some e => Ret (s, out, Some e) | None => run_ops s out ops end
  | OpPop :: ops =>
      '(s, (_, data, _)) ← Pop s;
      run_ops s (out ++ default [] data) ops
  end.

(** Reading until nothing is left. *)
Fixpoint drain (fuel : nat) (s : frameSorter) : outcome (frameSorter * list Z) :=
  match fuel with
  | O => Err (GoError "fuel")
  | S fuel =>
      '(s, (_, data, _)) ← Pop s;
      match data with
      | None => Ret (s, [])
      | Some data => '(s, rest) ← drain fuel s; Ret (s, data ++ rest)
      end
  end.

Lemma run_ops_spec ops : ∀ s out,
  sorter_inv stream s → 0 <= fs_readPos s → out = segment stream 0 (fs_readPos s) → Forall op_ok ops →
  ∃ s' out' err, run_ops s out ops = Ret (s', out', err) ∧
    match err with
    | None => sorter_inv stream s' ∧ 0 <= fs_readPos s' ∧ out' = segment stream 0 (fs_readPos s') ∧
        ∀ x, missing s' x ↔ missing s x ∧ ¬ came ops x
    | Some e => e = errTooManyGaps ∧ MaxStreamFrameSorterGaps < elist_Len (fs_gaps s')
    end.
Proof.
  induction ops as [|op ops IH]; intros s out Hinv H0 Hout Hops; cbn [run_ops].
  { exists s, out, None. split_and!; [done..|]. intros x. split; [|by intros []]. intros Hm. split; [done|]. by intros ?%Exists_nil. }
  apply Forall_cons in Hops as [Hop Hops]. destruct op as [data offset cb|].
  - destruct Hop as (Hoff & Hdata & Hmax). destruct (Push_spec s data offset cb Hinv Hdata Hmax) as (s1 & err & -> & Hs1).
    cbn [mbind outcome_bind]. destruct err as [e|]; [by exists s1, out, (Some e)|]. destruct Hs1 as (Hinv1 & HR1 & Hm1).
    destruct (IH s1 out Hinv1) as (s' & out' & err & -> & Hs'); [lia|by rewrite HR1|done|]. exists s', out', err. split; [done|].
    destruct err; [done|]. destruct Hs' as (? & ? & ? & Hm). split_and!; [done..|]. intros x. unfold came. rewrite Hm, Hm1, Exists_cons. tauto.
  - destruct (Pop_spec s Hinv H0) as (s1 & data & cb & -> & Hinv1 & Hm1 & Hd). cbn [mbind outcome_bind].
    assert (0 <= fs_readPos s1 ∧ out ++ default [] data = segment stream 0 (fs_readPos s1)) as [H1 Hout1].
    { destruct data as [data|]; cbn [default]; [|destruct Hd as [-> _]; by rewrite app_nil_r].
      destruct Hd as (-> & Hlt & _). split; [lia|]. rewrite Hout. cbn. symmetry. apply segment_app. lia. }
    destruct (IH s1 _ Hinv1 H1 Hout1 Hops) as (s' & out' & err & -> & Hs'). exists s', out', err. split; [done|].
    destruct err; [done|]. destruct Hs' as (? & ? & ? & Hm). split_and!; [done..|]. intros x. unfold came. rewrite Hm, Hm1, Exists_cons. tauto.
Qed.

Lemma drain_spec fuel : ∀ s,
  sorter_inv stream s → 0 <= fs_readPos s → (size (fs_queue s) < fuel)%nat →
  ∃ s', drain fuel s = Ret (s', segment stream (fs_readPos s) (fs_readPos s')) ∧ fs_readPos s <= fs_readPos s' ∧
    missing s (fs_readPos s') ∧ ∀ x, missing s x → fs_readPos s' <= x.
Proof.
  induction fuel as [|fuel IH]; intros s Hinv H0 Hsz; [lia|]. cbn [drain].
  destruct (Pop_spec s Hinv H0) as (s1 & data & cb & -> & Hinv1 & Hm1 & Hd). cbn [mbind outcome_bind]. destruct data as [data|].
  - destruct Hd as (-> & Hlt & Hsz1). destruct (IH s1 Hinv1 ltac:(lia) ltac:(lia)) as (s' & -> & Hle & Hm & Hall). cbn [mbind outcome_bind].
    exists s'. split; [by rewrite <-segment_app by lia|]. split; [lia|]. split; [by apply Hm1|]. intros x Hx. by apply Hall, Hm1.
  - destruct Hd as [-> Hm]. exists s. split; [by unfold segment; rewrite Z.sub_diag|]. split_and!; [lia|done|]. intros x Hx. by apply (si_read _ _ Hinv).
Qed.

(** C35. The frame sorter puts a stream in order.  Whatever frames of a stream are pushed, in any order, overlapping and repeated, and
    whenever data is read, no operation panics; the bytes read are the beginning of the stream; and reading until nothing is left gives,
    together with what was read before, exactly the longest beginning of the stream all of whose bytes have come.  The only error is that
    of more than [MaxStreamFrameSorterGaps] gaps. *)
Theorem frame_sorter_delivers ops :
  Forall op_ok ops →
  ∃ s out err, run_ops newFrameSorter [] ops = Ret (s, out, err) ∧
    match err with
    | Some e => e = errTooManyGaps ∧ MaxStreamFrameSorterGaps < elist_Len (fs_gaps s)
    | None => ∃ s' rest n,
        drain (S (size (fs_queue s))) s = Ret (s', rest) ∧ out = segment stream 0 (fs_readPos s) ∧
        out ++ rest = segment stream 0 n ∧ 0 <= n < MaxByteCount ∧ ¬ came ops n ∧ ∀ x, 0 <= x < n → came ops x
    end.
Proof.
  intros Hops. destruct newFrameSorter_inv as [Hinv Hnew].
  destruct (run_ops_spec ops newFrameSorter [] Hinv) as (s & out & err & Hrun & Hs); [cbn; lia|done|done|].
  exists s, out, err. split; [done|]. destruct err as [e|]; [done|]. destruct Hs as (Hinv' & H0 & Hout & Hm).
  destruct (drain_spec (S (size (fs_queue s))) s Hinv' H0 ltac:(lia)) as (s' & Hd & Hle & Hms & Hall).
  exists s', (segment stream (fs_readPos s) (fs_readPos s')), (fs_readPos s'). split; [done|]. split; [done|].
  rewrite Hout, <-segment_app by lia. split; [done|]. apply Hm in Hms as [Hms Hnc]. apply Hnew in Hms. split; [done|]. split; [done|].
  intros x Hx. destruct (came_dec ops x) as [|Hnc']; [done|]. assert (missing s x) as Hmx by (apply Hm; rewrite Hnew; split; [lia|done]).
  specialize (Hall x Hmx). lia.
Qed.
End Theorems.

(** ** An example: the middle first, a frame that overlaps it, and the rest *)

Definition example_stream (x : Z) : Z := x `mod` 256.

Definition example_ops : list sorter_op := [
  OpPush (segment example_stream 4 8) 4 (Some 1%nat); OpPop; OpPush (segment example_stream 0 6) 0 (Some 2%nat);
  OpPush (segment example_stream 6 12) 6 (Some 3%nat); OpPop].

Lemma frame_sorter_delivers_witness :
  Forall (op_ok example_stream) example_ops ∧
  ∃ s out err, run_ops newFrameSorter [] example_ops = Ret (s, out, err) ∧
    match err with
    | Some e => e = errTooManyGaps ∧ MaxStreamFrameSorterGaps < elist_Len (fs_gaps s)
    | None => ∃ s' rest n,
        drain (S (size (fs_queue s))) s = Ret (s', rest) ∧ out = segment example_stream 0 (fs_readPos s) ∧
        out ++ rest = segment example_stream 0 n ∧ 0 <= n < MaxByteCount ∧ ¬ came example_ops n ∧ ∀ x, 0 <= x < n → came example_ops x
    end.
Proof.
  assert (Forall (op_ok example_stream) example_ops) as Hops.
  { unfold example_ops. repeat (apply Forall_cons; split; [by vm_compute|]). apply Forall_nil_2. }
  split; [exact Hops|]. exact (frame_sorter_delivers example_stream example_ops Hops).
Defined.

Lemma example_reads :
  run_ops newFrameSorter [] example_ops ≫= (λ '(s, out, _), Ret (out, fs_done s)) = Ret (segment example_stream 0 4, [2%nat; 3%nat]).
Proof. vm_compute. reflexivity. Qed.
