(* ===== verification/FloatExact.v ===== *)
(** * Exact floating-point results

    A product or a conversion whose exact value has at most 53 significant bits is
    not rounded.  The windows of the flow control and the sizes the configuration
    names are such values. *)

From stdpp Require Import base list numbers.
From Stdlib Require Import ZArith Lia Floats.SpecFloat.
From S2P Require Import Prelude Config Monitor Raptor.

(** Conversion of a floating-point value to an [int64]: towards zero; a value out
    of range, for which the language leaves the result open, gives the most
    negative integer, as on amd64. *)
Definition f_to_i64 (x : spec_float) : Z :=
  match x with
  | S754_zero _ => 0
  | S754_finite _ _ _ => let n := f_int x in if (- 2 ^ 63 <=? n) && (n <? 2 ^ 63) then n else - 2 ^ 63
  | _ => - 2 ^ 63
  end.

Lemma digits2_pos_log2 p : Z.pos (digits2_pos p) = Z.log2 (Z.pos p) + 1.
Proof.
  induction p as [p IH|p IH|]; cbn [digits2_pos]; [| |done].
  - rewrite Pos2Z.inj_succ, IH. change (Z.pos p~1) with (2 * Z.pos p + 1). rewrite Z.log2_succ_double; lia.
  - rewrite Pos2Z.inj_succ, IH. change (Z.pos p~0) with (2 * Z.pos p). rewrite Z.log2_double; lia.
Qed.

Lemma iter_pos_iter {A} (f : A → A) p x : iter_pos f p x = Nat.iter (Pos.to_nat p) f x.
Proof.
  revert x. induction p as [p IH|p IH|]; intros x; cbn [iter_pos]; [| |done].
  - rewrite !IH, Pos2Nat.inj_xI, <- Nat.iter_succ_r, <- Nat.iter_add. f_equal. lia.
  - rewrite !IH, Pos2Nat.inj_xO, <- Nat.iter_add. f_equal. lia.
Qed.

Lemma iter_xO m d : Z.pos (Pos.iter xO m d) = Z.pos m * 2 ^ Z.pos d.
Proof.
  induction d as [|d IH] using Pos.peano_ind; [cbn; lia|].
  rewrite Pos.iter_succ, Pos2Z.inj_succ, Z.pow_succ_r by lia. change (Z.pos (Pos.iter xO m d)~0) with (2 * Z.pos (Pos.iter xO m d)). lia.
Qed.

(** Shifting out zeros is exact. *)
Lemma shr_1_iter n m : 
  Nat.iter n shr_1 (Build_shr_record (Z.pos m * 2 ^ Z.of_nat n) false false) = Build_shr_record (Z.pos m) false false.
Proof.
  induction n as [|n IH]; [by rewrite Z.mul_1_r|].
  rewrite Nat.iter_succ_r. rewrite <- IH. f_equal.
  rewrite Nat2Z.inj_succ, Z.pow_succ_r by lia.
  destruct (Z.pos m * 2 ^ Z.of_nat n) as [|p|p] eqn:E; [lia| |lia].
  replace (Z.pos m * (2 * 2 ^ Z.of_nat n)) with (Z.pos p~0) by lia. done.
Qed.

Lemma shr_fexp_exact m k e :
  0 ≤ k → Z.log2 (Z.pos m) < 53 → -900 ≤ e - k → e ≤ 900 →
  let E := Z.max (e - k) (Z.log2 (Z.pos m) + e - 52) in
  shr_fexp 53 1024 (Z.pos m * 2 ^ k) (e - k) loc_Exact = (Build_shr_record (Z.pos m * 2 ^ (e - E)) false false, E).
Proof.
  intros Hk Hm He1 He2 E.
  pose proof (Z.log2_nonneg (Z.pos m)).
  assert (Zdigits2 (Z.pos m * 2 ^ k) = Z.log2 (Z.pos m) + k + 1) as HD.
  { destruct (Z.pos m * 2 ^ k) as [|p|p] eqn:Ep; [lia| |lia].
    cbn [Zdigits2]. rewrite digits2_pos_log2, <- Ep, Z.log2_mul_pow2 by lia. lia. }
  unfold shr_fexp. rewrite HD. unfold fexp, emin. cbn [shr_record_of_loc].
  assert (Z.max (Z.log2 (Z.pos m) + k + 1 + (e - k) - 53) (3 - 1024 - 53) - (e - k) = Z.log2 (Z.pos m) + e - 52 - (e - k)) as -> by lia.
  destruct (Z.log2 (Z.pos m) + e - 52 - (e - k)) as [|d|d] eqn:Ed; cbn [shr].
  - f_equal; [|lia]. f_equal. f_equal. f_equal. lia.
  - rewrite iter_pos_iter. f_equal; [|lia].
    assert (e - E = k - Z.pos d) as -> by lia.
    assert (0 <= k - Z.pos d) by lia.
    assert (Z.pos m * 2 ^ k = Z.pos (Pos.mul m (Z.to_pos (2 ^ (k - Z.pos d)))) * 2 ^ Z.of_nat (Pos.to_nat d)) as ->.
    { rewrite Pos2Z.inj_mul, Z2Pos.id by lia. rewrite positive_nat_Z, <- Z.mul_assoc, <- Z.pow_add_r by lia. do 2 f_equal. lia. }
    rewrite shr_1_iter. rewrite Pos2Z.inj_mul, Z2Pos.id by lia. done.
  - f_equal; [|lia]. f_equal. f_equal. f_equal. lia.
Qed.

(** A value of at most 53 bits is not rounded. *)
Lemma binary_round_aux_exact s m k e :
  0 ≤ k → Z.log2 (Z.pos m) < 53 → -900 ≤ e - k → e ≤ 900 →
  ∃ M E, binary_round_aux 53 1024 s (Z.pos m * 2 ^ k) (e - k) loc_Exact = S754_finite s M E ∧
    e - k ≤ E ≤ e ∧ Z.pos M = Z.pos m * 2 ^ (e - E).
Proof.
  intros Hk Hm He1 He2. unfold binary_round_aux.
  rewrite (shr_fexp_exact m k e) by done. cbn [shr_m loc_of_shr_record round_nearest_even].
  set (E := Z.max (e - k) (Z.log2 (Z.pos m) + e - 52)).
  assert (e - k ≤ E ≤ e) by (pose proof (Z.log2_nonneg (Z.pos m)); lia).
  pose proof (shr_fexp_exact m (e - E) e) as HS. replace (e - (e - E)) with E in HS by lia.
  rewrite HS by lia. replace (Z.max E (Z.log2 (Z.pos m) + e - 52)) with E by lia. cbn [shr_m].
  destruct (Z.pos m * 2 ^ (e - E)) as [|M|M] eqn:EM; [lia| |lia].
  rewrite (proj2 (Z.leb_le E (1024 - 53))) by lia. eauto.
Qed.

Lemma f64_of_Z_exact m : Z.log2 (Z.pos m) < 53 →
  ∃ M E, f64_of_Z (Z.pos m) = S754_finite false M E ∧ -53 ≤ E ≤ 0 ∧ Z.pos M = Z.pos m * 2 ^ (- E).
Proof.
  intros Hm. pose proof (Z.log2_nonneg (Z.pos m)).
  assert (∃ k, 0 ≤ k ≤ 53 ∧ f64_of_Z (Z.pos m) = binary_round_aux 53 1024 false (Z.pos m * 2 ^ k) (0 - k) loc_Exact) as (k & Hk & ->).
  { unfold f64_of_Z, binary_normalize, binary_round, fexp, emin. rewrite digits2_pos_log2.
    unfold shl_align.
    replace (Z.max (Z.log2 (Z.pos m) + 1 + 0 - 53) (3 - 1024 - 53) - 0) with (Z.log2 (Z.pos m) - 52) by lia.
    destruct (Z.log2 (Z.pos m) - 52) as [|d|d] eqn:Ed; [|lia|].
    - exists 0. split; [lia|]. rewrite Z.mul_1_r. done.
    - exists (Z.pos d). split; [lia|]. rewrite iter_xO. f_equal. lia. }
  destruct (binary_round_aux_exact false m k 0) as (M & E & -> & HE & HM); [lia..|].
  exists M, E. split_and!; [done|lia|lia|]. by rewrite HM.
Qed.

(** The product of an integer below [2 ^ 50] and [3 / 2 ^ j], towards zero. *)
Lemma f_to_i64_mul_3 m c ec j :
  0 ≤ m < 2 ^ 50 → 0 ≤ j ≤ 2 → Z.pos c = 3 * 2 ^ 51 → ec = - j - 51 →
  f_to_i64 (f64_mul (f64_of_Z m) (S754_finite false c ec)) = 3 * m / 2 ^ j.
Proof.
  intros Hm Hj Hc ->. destruct m as [|m|m]; [by rewrite Z.div_0_l by lia| |lia].
  assert (Z.log2 (Z.pos (3 * m)) < 53) by (apply Z.log2_lt_pow2; lia).
  assert (Z.log2 (Z.pos m) < 53) by (apply Z.log2_lt_pow2; lia).
  destruct (f64_of_Z_exact m) as (M & E & -> & HE & HM); [done|].
  unfold f64_mul, SFmul. cbn [xorb].
  assert (Z.pos (M * c) = Z.pos (3 * m) * 2 ^ (51 - E)) as ->.
  { rewrite Pos2Z.inj_mul, HM, Hc. replace (51 - E) with (- E + 51) by lia. rewrite Z.pow_add_r by lia. lia. }
  replace (E + (- j - 51)) with (- j - (51 - E)) by lia.
  destruct (binary_round_aux_exact false (3 * m) (51 - E) (- j)) as (M' & E' & -> & HE' & HM'); [lia..|].
  cbn [f_to_i64 f_int]. rewrite HM'.
  assert (Z.shiftl (Z.pos (3 * m) * 2 ^ (- j - E')) E' = 3 * Z.pos m / 2 ^ j) as ->.
  { rewrite <- Z.shiftl_mul_pow2, Z.shiftl_shiftl by lia. replace (- j - E' + E') with (- j) by lia.
    rewrite Z.shiftl_opp_r, Z.shiftr_div_pow2 by lia. done. }
  assert (0 ≤ 3 * Z.pos m / 2 ^ j) by (apply Z.div_pos; lia).
  assert (3 * Z.pos m / 2 ^ j ≤ 3 * Z.pos m) by (apply Z.div_le_upper_bound; nia).
  rewrite (proj2 (Z.leb_le _ _)), (proj2 (Z.ltb_lt _ _)) by lia. done.
Qed.

(** ** Rounding errors *)

Lemma shr_1_m r : 0 ≤ shr_m r → shr_m (shr_1 r) = shr_m r / 2.
Proof.
  destruct r as [m sr ss]. cbn. intros Hm. destruct m as [|p|p]; [done| |lia]. destruct p as [p|p|]; cbn [shr_1 shr_m]; [| |done].
  - apply (Z.div_unique _ _ _ 1); lia.
  - apply (Z.div_unique _ _ _ 0); lia.
Qed.

Lemma shr_iter_m n r : 0 ≤ shr_m r → shr_m (Nat.iter n shr_1 r) = shr_m r / 2 ^ Z.of_nat n.
Proof.
  intros Hr. induction n as [|n IH]; [by rewrite Z.div_1_r|].
  assert (0 ≤ shr_m r / 2 ^ Z.of_nat n) by (apply Z.div_pos; lia).
  change (Nat.iter (S n) shr_1 r) with (shr_1 (Nat.iter n shr_1 r)). rewrite shr_1_m, IH by (rewrite IH; lia).
  rewrite Z.div_div by lia. f_equal. rewrite Nat2Z.inj_succ, Z.pow_succ_r by lia. lia.
Qed.

Lemma Zdigits2_log2 m : 0 < m → Zdigits2 m = Z.log2 m + 1.
Proof. intros Hm. destruct m as [|p|p]; [lia| |lia]. cbn [Zdigits2]. apply digits2_pos_log2. Qed.

Lemma shr_fexp_near m e l : 0 < m → -900 ≤ e →
  let d := Z.max 0 (Z.log2 m - 52) in
  ∃ r, shr_fexp 53 1024 m e l = (r, e + d) ∧ shr_m r = m / 2 ^ d ∧ (Z.log2 m ≤ 52 → r = shr_record_of_loc m l).
Proof.
  intros Hm He d. assert (shr_m (shr_record_of_loc m l) = m) as Hl by (by destruct l as [|[]]).
  unfold shr_fexp. rewrite Zdigits2_log2 by done. unfold fexp, emin. pose proof (Z.log2_nonneg m).
  destruct (decide (Z.log2 m ≤ 52)) as [Hs|Hs].
  - assert (d = 0) as -> by lia. exists (shr_record_of_loc m l). rewrite Z.add_0_r, Z.div_1_r, Hl.
    split_and!; [|done|done]. unfold shr. destruct (_ - e) eqn:E; [done|lia|done].
  - assert (Z.max (Z.log2 m + 1 + e - 53) (3 - 1024 - 53) - e = d) as -> by lia.
    destruct d as [|p|p] eqn:Ed; [lia| |lia]. eexists. split_and!; [reflexivity| |lia].
    cbn [shr]. rewrite iter_pos_iter, shr_iter_m by (rewrite Hl; lia). by rewrite Hl, positive_nat_Z.
Qed.

Lemma round_nearest_even_near m l : m ≤ round_nearest_even m l ≤ m + 1.
Proof. destruct l as [|[]]; cbn; try lia. destruct (Z.even m); lia. Qed.

(** Rounding changes a value by less than one unit in the last place. *)
Lemma binary_round_aux_near m e : 0 < m → -900 ≤ e → e + Z.log2 m ≤ 900 →
  let d := Z.max 0 (Z.log2 m - 52) in
  ∃ M E, binary_round_aux 53 1024 false m e loc_Exact = S754_finite false M E ∧ e ≤ E ∧ m - 2 ^ d < Z.pos M * 2 ^ (E - e) ≤ m + 2 ^ d.
Proof.
  intros Hm He Hmax d. unfold binary_round_aux. destruct (shr_fexp_near m e loc_Exact Hm He) as (r & -> & Hr & _). fold d in Hr |- *.
  set (q := round_nearest_even (shr_m r) (loc_of_shr_record r)).
  assert (m / 2 ^ d ≤ q ≤ m / 2 ^ d + 1) as Hq by (rewrite <- Hr; apply round_nearest_even_near). clearbody q.
  pose proof (Z.log2_nonneg m). assert (0 < 2 ^ d) by (apply Z.pow_pos_nonneg; lia).
  pose proof (Z.div_mod m (2 ^ d) ltac:(lia)). pose proof (Z.mod_pos_bound m (2 ^ d) ltac:(lia)).
  assert (2 ^ Z.log2 m ≤ m < 2 ^ (Z.log2 m + 1)) as Hlog by (apply Z.log2_spec; lia).
  assert (0 < q) as Hq0.
  { enough (0 < m / 2 ^ d) by lia. apply Z.div_str_pos. split; [lia|]. transitivity (2 ^ Z.log2 m); [apply Z.pow_le_mono_r; lia|lia]. }
  assert (q ≤ 2 ^ 53) as Hq53.
  { enough (m / 2 ^ d < 2 ^ 53) by lia. apply Z.div_lt_upper_bound; [lia|]. rewrite <- Z.pow_add_r by lia.
    apply (Z.lt_le_trans _ (2 ^ (Z.log2 m + 1))); [lia|]. apply Z.pow_le_mono_r; lia. }
  destruct (shr_fexp_near q (e + d) loc_Exact) as (r2 & -> & Hr2 & _); [lia|lia|]. rewrite Hr2.
  set (d2 := Z.max 0 (Z.log2 q - 52)) in *. 
  assert (q = q / 2 ^ d2 * 2 ^ d2 ∧ d2 ≤ 1) as [Hd2 Hd21].
  { destruct (decide (q = 2 ^ 53)) as [->|]; [done|]. assert (Z.log2 q < 53) by (apply Z.log2_lt_pow2; lia).
    assert (d2 = 0) as -> by lia. rewrite Z.div_1_r. lia. }
  assert (0 < q / 2 ^ d2) as Hpos by nia.
  destruct (q / 2 ^ d2) as [|M|M]; [lia| |lia].
  assert (d ≤ Z.log2 m) by lia. rewrite (proj2 (Z.leb_le (e + d + d2) (1024 - 53))) by lia.
  exists M, (e + d + d2). split; [done|]. split; [lia|]. replace (e + d + d2 - e) with (d2 + d) by lia.
  rewrite Z.pow_add_r, Z.mul_assoc, <- Hd2 by lia. nia.
Qed.

(** The product of an integer and a factor [c / 2 ^ 53] below one, towards zero. *)
Lemma f_to_i64_mul_near m c : 0 < m < 2 ^ 49 → 2 ^ 52 ≤ Z.pos c < 2 ^ 53 →
  let r := f_to_i64 (f64_mul (f64_of_Z m) (S754_finite false c (-53))) in
  2 ^ 105 * r ≤ (2 ^ 52 + 1) * (m * Z.pos c) ∧ (2 ^ 52 - 1) * (m * Z.pos c) < 2 ^ 105 * (r + 1).
Proof.
  intros Hm Hc. destruct m as [|m|m]; [lia| |lia].
  destruct (f64_of_Z_exact m) as (M & E & -> & HE & HM); [apply Z.log2_lt_pow2; lia|].
  unfold f64_mul, SFmul. cbn [xorb]. set (P := 2 ^ (- E)) in *. assert (0 < P) by (apply Z.pow_pos_nonneg; lia).
  assert (Z.pos (M * c) = Z.pos m * Z.pos c * P) as Hmx by (rewrite Pos2Z.inj_mul, HM; lia).
  assert (P ≤ 2 ^ 53) by (apply Z.pow_le_mono_r; lia).
  assert (Z.log2 (Z.pos (M * c)) < 155) by (apply Z.log2_lt_pow2; [lia|]; rewrite Hmx; nia).
  destruct (binary_round_aux_near (Z.pos (M * c)) (E + -53)) as (M' & E' & -> & HE' & HV); [lia..|].
  set (d := Z.max 0 (Z.log2 (Z.pos (M * c)) - 52)) in *.
  assert (2 ^ 52 * 2 ^ d ≤ Z.pos (M * c)) as Hd.
  { destruct (Z.log2_spec (Z.pos (M * c)) ltac:(lia)) as [Hl _]. assert (52 ≤ Z.log2 (Z.pos (M * c))) by (apply Z.log2_le_pow2; [lia|]; rewrite Hmx; nia).
    rewrite <- Z.pow_add_r by lia. etrans; [|exact Hl]. apply Z.pow_le_mono_r; lia. }
  set (V := Z.pos M' * 2 ^ (E' - (E + -53))) in *.
  assert (Z.shiftl (Z.pos M') E' = V / (2 ^ 53 * P)) as HS.
  { unfold V, P. rewrite <- Z.shiftl_mul_pow2, <- Z.pow_add_r by lia. replace (53 + - E) with (- (E + -53)) by lia.
    rewrite <- Z.shiftr_div_pow2, Z.shiftr_opp_r, Z.shiftl_shiftl by lia. f_equal. lia. }
  cbn [f_to_i64 f_int]. rewrite HS. rewrite Hmx in *. clearbody V P d. clear HS.
  pose proof (Z.div_mod V (2 ^ 53 * P) ltac:(lia)) as HDM. pose proof (Z.mod_pos_bound V (2 ^ 53 * P) ltac:(lia)) as HMB.
  set (r := V / (2 ^ 53 * P)) in *. clearbody r.
  assert (2 ^ 52 * V ≤ (2 ^ 52 + 1) * (Z.pos m * Z.pos c) * P) by lia.
  assert (0 ≤ r < 2 ^ 63) as Hr by nia.
  rewrite (proj2 (Z.leb_le _ _)), (proj2 (Z.ltb_lt _ _)) by lia. cbn [andb].
  split; nia.
Qed.
