(* ===== verification/QuicRtt.v ===== *)
(** * Round-trip times ([internal/utils/rtt_stats.go])

    Durations are nanoseconds ([int64]).  The smoothed values are computed in
    [float32] microseconds, every operation rounded to nearest even. *)

From stdpp Require Import base list numbers strings.
From Stdlib Require Import ZArith Lia Floats.SpecFloat.
From S2P Require Import Prelude Config Monitor QuicFrames FloatExact.

Definition Microsecond : Z := 1000.
Definition Millisecond : Z := 1000000.
Definition TimerGranularity : Z := Millisecond.

Definition rttAlpha : spec_float := f32_of_frac 1 8.
Definition oneMinusAlpha : spec_float := f32_of_frac 7 8.
Definition rttBeta : spec_float := f32_of_frac 1 4.
Definition oneMinusBeta : spec_float := f32_of_frac 3 4.
Definition defaultInitialRTT : Z := 100 * Millisecond.

Definition MaxDuration (a b : Z) : Z := if b <? a then a else b.
Definition MinDuration (a b : Z) : Z := if b <? a then b else a.
Definition AbsDuration (d : Z) : Z := if 0 <=? d then d else i64 (- d).

Definition f32_mul := SFmul 24 128.
Definition f32_add := SFadd 24 128.

Record RTTStats := mk_RTTStats {
  rtt_hasMeasurement : bool;
  rtt_minRTT : Z;
  rtt_latestRTT : Z;
  rtt_smoothedRTT : Z;
  rtt_meanDeviation : Z;
  rtt_maxAckDelay : Z;
}.

#[global] Instance RTTStats_fields : Fields RTTStats := λ r,
  mk_RTTStats (rtt_hasMeasurement r) (rtt_minRTT r) (rtt_latestRTT r) (rtt_smoothedRTT r) (rtt_meanDeviation r) (rtt_maxAckDelay r).

Definition NewRTTStats : RTTStats := {|
  rtt_hasMeasurement := false; rtt_minRTT := 0; rtt_latestRTT := 0; rtt_smoothedRTT := 0; rtt_meanDeviation := 0; rtt_maxAckDelay := 0
|}.

Definition PTO (r : RTTStats) (includeMaxAckDelay : bool) : Z :=
  if rtt_smoothedRTT r =? 0 then 2 * defaultInitialRTT else
  let pto := i64 (rtt_smoothedRTT r + MaxDuration (i64 (4 * rtt_meanDeviation r)) TimerGranularity) in
  if includeMaxAckDelay then i64 (pto + rtt_maxAckDelay r) else pto.

(** [float32(d / time.Microsecond)]. *)
Definition f32_micros (d : Z) : spec_float := f32_of_Z (Z.quot d Microsecond).

(** [time.Duration(x) * time.Microsecond]. *)
Definition of_micros (x : spec_float) : Z := i64 (f_to_i64 x * Microsecond).

(** The argument [now] of the source is not used. *)
Definition UpdateRTT (r : RTTStats) (sendDelta ackDelay : Z) : RTTStats :=
  if (sendDelta =? InfDuration) || (sendDelta <=? 0) then r else
  let r := if (rtt_minRTT r =? 0) || (sendDelta <? rtt_minRTT r) then r <| rtt_minRTT := sendDelta |> else r in
  let sample := if ackDelay <=? i64 (sendDelta - rtt_minRTT r) then i64 (sendDelta - ackDelay) else sendDelta in
  let r := r <| rtt_latestRTT := sample |> in
  if negb (rtt_hasMeasurement r) then
    r <| rtt_hasMeasurement := true |> <| rtt_smoothedRTT := sample |> <| rtt_meanDeviation := Z.quot sample 2 |>
  else
    let r := r <| rtt_meanDeviation :=
      of_micros (f32_add (f32_mul oneMinusBeta (f32_micros (rtt_meanDeviation r)))
                         (f32_mul rttBeta (f32_micros (AbsDuration (i64 (rtt_smoothedRTT r - sample)))))) |> in
    r <| rtt_smoothedRTT :=
      of_micros (f32_add (f32_mul (f32_micros (rtt_smoothedRTT r)) oneMinusAlpha) (f32_mul (f32_micros sample) rttAlpha)) |>.

Definition SetMaxAckDelay (r : RTTStats) (mad : Z) : RTTStats := r <| rtt_maxAckDelay := mad |>.

Definition SetInitialRTT (r : RTTStats) (t : Z) : outcome RTTStats :=
  if rtt_hasMeasurement r then Panic "initial RTT set after first measurement"
  else Ret (r <| rtt_smoothedRTT := t |> <| rtt_latestRTT := t |>).

Definition OnConnectionMigration (r : RTTStats) : RTTStats :=
  r <| rtt_latestRTT := 0 |> <| rtt_minRTT := 0 |> <| rtt_smoothedRTT := 0 |> <| rtt_meanDeviation := 0 |>.

Definition ExpireSmoothedMetrics (r : RTTStats) : RTTStats :=
  let r := r <| rtt_meanDeviation := MaxDuration (rtt_meanDeviation r) (AbsDuration (i64 (rtt_smoothedRTT r - rtt_latestRTT r))) |> in
  r <| rtt_smoothedRTT := MaxDuration (rtt_smoothedRTT r) (rtt_latestRTT r) |>.

(** ** The minimum *)

Definition valid_sample (d : Z) : Prop := 0 < d < InfDuration.

(** The samples of a connection: the time between sending a packet and its
    acknowledgement, and the delay the peer reports. *)
Definition measure_rtt (r : RTTStats) (samples : list (Z * Z)) : RTTStats :=
  fold_left (λ r '(sendDelta, ackDelay), UpdateRTT r sendDelta ackDelay) samples r.

Lemma UpdateRTT_min r d a : valid_sample d → 0 ≤ a → 0 ≤ rtt_minRTT r →
  let r' := UpdateRTT r d a in
  rtt_minRTT r' = (if rtt_minRTT r =? 0 then d else Z.min (rtt_minRTT r) d) ∧ rtt_minRTT r' ≤ rtt_latestRTT r' ≤ d.
Proof.
  unfold valid_sample, InfDuration. intros Hd Ha Hr. unfold UpdateRTT.
  rewrite (proj2 (Z.eqb_neq d _)), (proj2 (Z.leb_gt d 0)) by (unfold InfDuration; lia). cbn [orb].
  destruct (rtt_minRTT r =? 0) eqn:E1, (d <? rtt_minRTT r) eqn:E2; cbn [orb]; repeat (rewrite ?i64_small by (cbn; lia)); cbn;
    destruct (a <=? _) eqn:E3; destruct (rtt_hasMeasurement r); cbn; repeat (rewrite ?i64_small by lia); lia.
Qed.

(** After the samples [(d_1, a_1), ...] the minimum is the least of the [d_i], and
    no sample corrected by the delay of its acknowledgement is below it. *)
Lemma measure_rtt_min samples d a :
  Forall (λ '(d, a), valid_sample d ∧ 0 ≤ a) (samples ++ [(d, a)]) →
  let r := measure_rtt NewRTTStats (samples ++ [(d, a)]) in
  0 < rtt_minRTT r ∧ (∀ x, x ∈ (samples ++ [(d, a)]).*1 → rtt_minRTT r ≤ x) ∧ rtt_minRTT r ∈ (samples ++ [(d, a)]).*1 ∧
  rtt_minRTT r ≤ rtt_latestRTT r ≤ d.
Proof.
  revert d a. induction samples as [|[d' a'] samples IH] using rev_ind; intros d a HF.
  - apply Forall_singleton in HF as [Hd Ha].
    destruct (UpdateRTT_min NewRTTStats d a) as [Hm Hl]; [done..|]. cbn in Hm.
    cbn [app measure_rtt fold_left fmap list_fmap]. rewrite Hm in Hl |- *. unfold valid_sample in Hd.
    split_and!; [lia| |by apply list_elem_of_singleton|lia..]. intros x Hx. apply list_elem_of_singleton in Hx. cbn in Hx. lia.
  - apply Forall_app in HF as [HF Hlast]. apply Forall_singleton in Hlast as [Hd Ha].
    destruct (IH d' a' HF) as (Hpos & Hle & Hin & _).
    unfold measure_rtt in *. rewrite fold_left_app. cbn [fold_left].
    set (r := fold_left _ _ NewRTTStats) in *.
    destruct (UpdateRTT_min r d a) as [Hm Hl]; [done|done|lia|].
    rewrite (proj2 (Z.eqb_neq (rtt_minRTT r) 0)) in Hm by lia. rewrite Hm in Hl |- *. unfold valid_sample in Hd.
    rewrite fmap_app. cbn [fmap list_fmap].
    split_and!; [lia| | |lia..].
    + intros x [Hx|Hx]%elem_of_app; [specialize (Hle x Hx); lia|]. apply list_elem_of_singleton in Hx. cbn in Hx. lia.
    + destruct (Z.min_spec (rtt_minRTT r) d) as [[_ ->]|[_ ->]]; apply elem_of_app; [by left|right; by apply list_elem_of_singleton].
Qed.
