(* ===== verification/QuicFlowControl.v ===== *)
(** * Flow control ([internal/flowcontrol], [window_update_queue.go])

    How much data a peer may send on a stream and on the connection.  A
    connection's controller is shared by its streams: the operations of a stream's
    controller take and return it.  The RTT statistics, which the connection shares
    too, and the current time are arguments.  An operation that calls back
    ([queueWindowUpdate]) returns whether it does.

    Byte counts are the offsets of a stream, below [2 ^ 62], and sums of as many as
    were received, so that [int64] arithmetic on them does not wrap around. *)

From stdpp Require Import base list numbers strings gmap.
From Stdlib Require Import ZArith Lia Floats.SpecFloat.
From S2P Require Import Prelude Config Monitor Raptor QuicProtocol QuicFrames FloatExact QuicRtt.

(** ** The controller shared by streams and connections *)

(** [1 - WindowUpdateThreshold]. *)
Definition oneMinusThreshold : spec_float := f64_of_frac 3 4.
Definition ConnectionFlowControlMultiplier : spec_float := f64_of_frac 3 2.

Definition MinByteCount (a b : Z) : Z := if a <? b then a else b.

Record baseFlowController := mk_base {
  fc_bytesSent : Z;
  fc_sendWindow : Z;
  fc_lastBlockedAt : Z;
  fc_bytesRead : Z;
  fc_highestReceived : Z;
  fc_receiveWindow : Z;
  fc_receiveWindowSize : Z;
  fc_maxReceiveWindowSize : Z;
  fc_epochStartTime : Z;
  fc_epochStartOffset : Z;
}.

#[global] Instance baseFlowController_fields : Fields baseFlowController := λ c,
  mk_base (fc_bytesSent c) (fc_sendWindow c) (fc_lastBlockedAt c) (fc_bytesRead c) (fc_highestReceived c) (fc_receiveWindow c)
    (fc_receiveWindowSize c) (fc_maxReceiveWindowSize c) (fc_epochStartTime c) (fc_epochStartOffset c).

Definition sendWindowSize (c : baseFlowController) : Z :=
  if fc_sendWindow c <? fc_bytesSent c then 0 else fc_sendWindow c - fc_bytesSent c.

Definition IsNewlyBlocked (c : baseFlowController) : baseFlowController * (bool * Z) :=
  if negb (sendWindowSize c =? 0) || (fc_sendWindow c =? fc_lastBlockedAt c) then (c, (false, 0))
  else (c <| fc_lastBlockedAt := fc_sendWindow c |>, (true, fc_sendWindow c)).

Definition base_AddBytesSent (c : baseFlowController) (n : Z) : baseFlowController := c <| fc_bytesSent ::= λ b, b + n |>.

Definition UpdateSendWindow (c : baseFlowController) (offset : Z) : baseFlowController :=
  if fc_sendWindow c <? offset then c <| fc_sendWindow := offset |> else c.

Definition startNewAutoTuningEpoch (c : baseFlowController) (now : Z) : baseFlowController :=
  c <| fc_epochStartTime := now |> <| fc_epochStartOffset := fc_bytesRead c |>.

Definition addBytesRead (c : baseFlowController) (n now : Z) : baseFlowController :=
  let c := if fc_bytesRead c =? 0 then startNewAutoTuningEpoch c now else c in
  c <| fc_bytesRead ::= λ b, b + n |>.

Definition hasWindowUpdate (c : baseFlowController) : bool :=
  let bytesRemaining := fc_receiveWindow c - fc_bytesRead c in
  bytesRemaining <=? f_to_i64 (f64_mul (f64_of_Z (fc_receiveWindowSize c)) oneMinusThreshold).

Definition maybeAdjustWindowSize (c : baseFlowController) (rttStats : RTTStats) (now : Z) : baseFlowController :=
  let bytesReadInEpoch := fc_bytesRead c - fc_epochStartOffset c in
  if bytesReadInEpoch <=? Z.quot (fc_receiveWindowSize c) 2 then c else
  let rtt := rtt_smoothedRTT rttStats in
  if rtt =? 0 then c else
  let fraction := f64_div (f64_of_Z bytesReadInEpoch) (f64_of_Z (fc_receiveWindowSize c)) in
  let c :=
    if Sub now (fc_epochStartTime c) <? f_to_i64 (f64_mul (f64_mul (f64_of_Z 4) fraction) (f64_of_Z rtt)) then
      c <| fc_receiveWindowSize := MinByteCount (2 * fc_receiveWindowSize c) (fc_maxReceiveWindowSize c) |>
    else c in
  startNewAutoTuningEpoch c now.

Definition getWindowUpdate (c : baseFlowController) (rttStats : RTTStats) (now : Z) : baseFlowController * Z :=
  if negb (hasWindowUpdate c) then (c, 0) else
  let c := maybeAdjustWindowSize c rttStats now in
  let c := c <| fc_receiveWindow := fc_bytesRead c + fc_receiveWindowSize c |> in
  (c, fc_receiveWindow c).

Definition checkFlowControlViolation (c : baseFlowController) : bool := fc_receiveWindow c <? fc_highestReceived c.

(** ** The connection *)

Definition connectionFlowController : Type := baseFlowController.

Definition NewConnectionFlowController (receiveWindow maxReceiveWindow : Z) : connectionFlowController := {|
  fc_bytesSent := 0; fc_sendWindow := 0; fc_lastBlockedAt := 0; fc_bytesRead := 0; fc_highestReceived := 0;
  fc_receiveWindow := receiveWindow; fc_receiveWindowSize := receiveWindow; fc_maxReceiveWindowSize := maxReceiveWindow;
  fc_epochStartTime := 0; fc_epochStartOffset := 0
|}.

Definition IncrementHighestReceived (c : connectionFlowController) (increment : Z) : connectionFlowController * option go_error :=
  let c := c <| fc_highestReceived ::= λ h, h + increment |> in
  (c, if checkFlowControlViolation c then Some (GoError "FLOW_CONTROL_ERROR") else None).

(** The second result: a window update is queued. *)
Definition conn_AddBytesRead (c : connectionFlowController) (n now : Z) : connectionFlowController * bool :=
  let c := addBytesRead c n now in (c, hasWindowUpdate c).

Definition conn_GetWindowUpdate (c : connectionFlowController) (rttStats : RTTStats) (now : Z) : connectionFlowController * Z :=
  getWindowUpdate c rttStats now.

Definition EnsureMinimumWindowSize (c : connectionFlowController) (inc now : Z) : connectionFlowController :=
  if fc_receiveWindowSize c <? inc then
    startNewAutoTuningEpoch (c <| fc_receiveWindowSize := MinByteCount inc (fc_maxReceiveWindowSize c) |>) now
  else c.

Definition conn_Reset (c : connectionFlowController) : outcome connectionFlowController :=
  if (0 <? fc_bytesRead c) || (0 <? fc_highestReceived c) || negb (fc_epochStartTime c =? 0) then
    Err (GoError "flow controller reset after reading data")
  else Ret (c <| fc_bytesSent := 0 |> <| fc_lastBlockedAt := 0 |>).

(** ** A stream *)

Record streamFlowController := mk_stream_fc {
  sc_base : baseFlowController;
  sc_streamID : Z;
  sc_receivedFinalOffset : bool;
}.

#[global] Instance streamFlowController_fields : Fields streamFlowController := λ c,
  mk_stream_fc (sc_base c) (sc_streamID c) (sc_receivedFinalOffset c).

Definition NewStreamFlowController (streamID receiveWindow maxReceiveWindow initialSendWindow : Z) : streamFlowController := {|
  sc_streamID := streamID;
  sc_base := {|
    fc_bytesSent := 0; fc_sendWindow := initialSendWindow; fc_lastBlockedAt := 0; fc_bytesRead := 0; fc_highestReceived := 0;
    fc_receiveWindow := receiveWindow; fc_receiveWindowSize := receiveWindow; fc_maxReceiveWindowSize := maxReceiveWindow;
    fc_epochStartTime := 0; fc_epochStartOffset := 0
  |};
  sc_receivedFinalOffset := false;
|}.

Definition UpdateHighestReceived (c : streamFlowController) (conn : connectionFlowController) (offset : Z) (final : bool) :
    streamFlowController * connectionFlowController * option go_error :=
  let highest := fc_highestReceived (sc_base c) in
  if sc_receivedFinalOffset c && final && negb (offset =? highest) then (c, conn, Some (GoError "FINAL_SIZE_ERROR"))
  else if sc_receivedFinalOffset c && (highest <? offset) then (c, conn, Some (GoError "FINAL_SIZE_ERROR"))
  else
    let c := if final then c <| sc_receivedFinalOffset := true |> else c in
    if offset =? highest then (c, conn, None)
    else if offset <=? highest then (c, conn, if final then Some (GoError "FINAL_SIZE_ERROR") else None)
    else
      let increment := offset - highest in
      let c := c <| sc_base ::= λ b, b <| fc_highestReceived := offset |> |> in
      if checkFlowControlViolation (sc_base c) then (c, conn, Some (GoError "FLOW_CONTROL_ERROR"))
      else let '(conn, err) := IncrementHighestReceived conn increment in (c, conn, err).

Definition shouldQueueWindowUpdate (c : streamFlowController) : bool :=
  negb (sc_receivedFinalOffset c) && hasWindowUpdate (sc_base c).

(** The flags: a window update of the stream (the connection) is queued. *)
Definition AddBytesRead (c : streamFlowController) (conn : connectionFlowController) (n now : Z) :
    streamFlowController * connectionFlowController * (bool * bool) :=
  let c := c <| sc_base ::= λ b, addBytesRead b n now |> in
  let '(conn, queueConn) := conn_AddBytesRead conn n now in
  (c, conn, (shouldQueueWindowUpdate c, queueConn)).

Definition Abandon (c : streamFlowController) (conn : connectionFlowController) (now : Z) : connectionFlowController * bool :=
  let unread := fc_highestReceived (sc_base c) - fc_bytesRead (sc_base c) in
  if 0 <? unread then conn_AddBytesRead conn unread now else (conn, false).

Definition AddBytesSent (c : streamFlowController) (conn : connectionFlowController) (n : Z) :
    streamFlowController * connectionFlowController :=
  (c <| sc_base ::= λ b, base_AddBytesSent b n |>, base_AddBytesSent conn n).

Definition SendWindowSize (c : streamFlowController) (conn : connectionFlowController) : Z :=
  MinByteCount (sendWindowSize (sc_base c)) (sendWindowSize conn).

Definition GetWindowUpdate (c : streamFlowController) (conn : connectionFlowController) (rttStats : RTTStats) (now : Z) :
    streamFlowController * connectionFlowController * Z :=
  if sc_receivedFinalOffset c then (c, conn, 0) else
  let oldWindowSize := fc_receiveWindowSize (sc_base c) in
  let '(b, offset) := getWindowUpdate (sc_base c) rttStats now in
  let conn :=
    if oldWindowSize <? fc_receiveWindowSize b then
      EnsureMinimumWindowSize conn (f_to_i64 (f64_mul (f64_of_Z (fc_receiveWindowSize b)) ConnectionFlowControlMultiplier)) now
    else conn in
  (c <| sc_base := b |>, conn, offset).

(** ** The queue of window updates *)

Record windowUpdateQueue := mk_wuq { wq_queue : gset Z; wq_queuedConn : bool }.

#[global] Instance windowUpdateQueue_fields : Fields windowUpdateQueue := λ q, mk_wuq (wq_queue q) (wq_queuedConn q).

Definition newWindowUpdateQueue : windowUpdateQueue := {| wq_queue := ∅; wq_queuedConn := false |}.

Definition AddStream (q : windowUpdateQueue) (id : Z) : windowUpdateQueue := q <| wq_queue ::= λ s, {[id]} ∪ s |>.
Definition AddConnection (q : windowUpdateQueue) : windowUpdateQueue := q <| wq_queuedConn := true |>.

(** The loop over the queue, in the order [ids]; [streams] has the controllers of
    the streams the getter returns. *)
Fixpoint queue_streams (q : windowUpdateQueue) (ids : list Z) (streams : gmap Z streamFlowController)
    (conn : connectionFlowController) (rttStats : RTTStats) (now : Z) :
    windowUpdateQueue * gmap Z streamFlowController * connectionFlowController * list Frame :=
  match ids with
  | [] => (q, streams, conn, [])
  | id :: ids =>
      let q := q <| wq_queue ::= λ s, s ∖ {[id]} |> in
      match streams !! id with
      | None => queue_streams q ids streams conn rttStats now
      | Some str =>
          let '(str, conn, offset) := GetWindowUpdate str conn rttStats now in
          let streams := <[id := str]> streams in
          let '(q, streams, conn, frames) := queue_streams q ids streams conn rttStats now in
          (q, streams, conn, if offset =? 0 then frames else MaxStreamDataFrame id offset :: frames)
      end
  end.

Definition QueueAll (q : windowUpdateQueue) (order : list Z) (streams : gmap Z streamFlowController)
    (conn : connectionFlowController) (rttStats : RTTStats) (now : Z) :
    windowUpdateQueue * gmap Z streamFlowController * connectionFlowController * list Frame :=
  let '(q, conn, frames) :=
    if wq_queuedConn q then
      let '(conn, offset) := conn_GetWindowUpdate conn rttStats now in
      (q <| wq_queuedConn := false |>, conn, [MaxDataFrame offset])
    else (q, conn, []) in
  let '(q, streams, conn, frames') := queue_streams q order streams conn rttStats now in
  (q, streams, conn, frames ++ frames').
