(* ===== verification/QuicFlowControlTheorems.v ===== *)
(** * Correctness of the flow control

    A connection with any number of streams carries data in one direction: the
    sender's controllers limit what it sends, the receiver's controllers check it
    and grant more as the data is read.  The network may lose, delay, reorder and
    repeat frames, so a step can deliver any frame ever sent.

    The receiver never takes an honest sender for a violator, and a sender whose
    data has all been read is granted more. *)

From stdpp Require Import base list numbers strings gmap.
From Stdlib Require Import ZArith Lia Floats.SpecFloat.
From S2P Require Import Prelude Config Monitor Raptor QuicProtocol QuicFrames FloatExact QuicRtt QuicFlowControl.

(** ** The controller *)

Definition window_ok (c : baseFlowController) : Prop :=
  0 < fc_receiveWindowSize c ≤ fc_maxReceiveWindowSize c ∧ fc_maxReceiveWindowSize c < 2 ^ 50.

Lemma hasWindowUpdate_spec c : window_ok c →
  hasWindowUpdate c = (fc_receiveWindow c - fc_bytesRead c <=? 3 * fc_receiveWindowSize c / 4).
Proof.
  intros [Hs Hm]. unfold hasWindowUpdate. f_equal.
  assert (oneMinusThreshold = S754_finite false 6755399441055744 (-53)) as -> by (vm_compute; reflexivity).
  apply (f_to_i64_mul_3 _ _ _ 2); [lia|lia|done|done].
Qed.

(** What an adjustment of the window's size leaves alone. *)
Definition adjusted (c c' : baseFlowController) : Prop :=
  fc_bytesSent c' = fc_bytesSent c ∧ fc_sendWindow c' = fc_sendWindow c ∧ fc_bytesRead c' = fc_bytesRead c ∧
  fc_highestReceived c' = fc_highestReceived c ∧ fc_receiveWindowSize c ≤ fc_receiveWindowSize c' ∧
  fc_maxReceiveWindowSize c' = fc_maxReceiveWindowSize c ∧ window_ok c'.

Lemma MinByteCount_min a b : MinByteCount a b = Z.min a b.
Proof. unfold MinByteCount. destruct (a <? b) eqn:E; lia. Qed.

Lemma maybeAdjustWindowSize_spec c rtt now : window_ok c →
  adjusted c (maybeAdjustWindowSize c rtt now) ∧ fc_receiveWindow (maybeAdjustWindowSize c rtt now) = fc_receiveWindow c.
Proof.
  intros Hw. unfold maybeAdjustWindowSize, adjusted, window_ok in *.
  repeat case_match; cbn; rewrite ?MinByteCount_min; lia.
Qed.

Lemma getWindowUpdate_spec c rtt now c' off : window_ok c → getWindowUpdate c rtt now = (c', off) →
  adjusted c c' ∧
  if fc_receiveWindow c - fc_bytesRead c <=? 3 * fc_receiveWindowSize c / 4
  then off = fc_receiveWindow c' ∧ fc_receiveWindow c' = fc_bytesRead c + fc_receiveWindowSize c' ∧ fc_receiveWindow c ≤ fc_receiveWindow c'
  else off = 0 ∧ fc_receiveWindow c' = fc_receiveWindow c.
Proof.
  intros Hw. unfold getWindowUpdate. rewrite hasWindowUpdate_spec by done.
  destruct (_ <=? _) eqn:E; cbn [negb]; intros [= <- <-].
  - destruct (maybeAdjustWindowSize_spec c rtt now) as [Ha _]; [done|].
    set (c1 := maybeAdjustWindowSize c rtt now) in *. unfold adjusted, window_ok in *.
    assert (3 * fc_receiveWindowSize c / 4 ≤ fc_receiveWindowSize c) by (apply Z.div_le_upper_bound; lia).
    cbn. lia.
  - unfold adjusted. repeat split; first [apply Hw | lia].
Qed.

Lemma EnsureMinimumWindowSize_spec c inc now : window_ok c →
  adjusted c (EnsureMinimumWindowSize c inc now) ∧ fc_receiveWindow (EnsureMinimumWindowSize c inc now) = fc_receiveWindow c.
Proof.
  intros Hw. unfold EnsureMinimumWindowSize, adjusted, window_ok in *. case_match; cbn; rewrite ?MinByteCount_min; lia.
Qed.

Lemma addBytesRead_spec c n now : 
  let c' := addBytesRead c n now in
  fc_bytesRead c' = fc_bytesRead c + n ∧ fc_highestReceived c' = fc_highestReceived c ∧ fc_receiveWindow c' = fc_receiveWindow c ∧
  fc_receiveWindowSize c' = fc_receiveWindowSize c ∧ fc_maxReceiveWindowSize c' = fc_maxReceiveWindowSize c.
Proof. unfold addBytesRead. case_match; done. Qed.

Lemma adjusted_refl c : window_ok c → adjusted c c.
Proof. intros Hw. unfold adjusted. repeat split; first [apply Hw | lia]. Qed.

(** The update of a stream, as the two controllers see it. *)
Lemma GetWindowUpdate_spec c conn rtt now c' conn' off : window_ok (sc_base c) → window_ok conn →
  GetWindowUpdate c conn rtt now = (c', conn', off) →
  adjusted (sc_base c) (sc_base c') ∧ adjusted conn conn' ∧ fc_receiveWindow conn' = fc_receiveWindow conn ∧
  sc_receivedFinalOffset c' = sc_receivedFinalOffset c ∧
  if negb (sc_receivedFinalOffset c) && (fc_receiveWindow (sc_base c) - fc_bytesRead (sc_base c) <=? 3 * fc_receiveWindowSize (sc_base c) / 4)
  then off = fc_receiveWindow (sc_base c') ∧ fc_receiveWindow (sc_base c') = fc_bytesRead (sc_base c) + fc_receiveWindowSize (sc_base c') ∧
       fc_receiveWindow (sc_base c) ≤ fc_receiveWindow (sc_base c')
  else off = 0 ∧ fc_receiveWindow (sc_base c') = fc_receiveWindow (sc_base c).
Proof.
  intros Hc Hconn. unfold GetWindowUpdate. destruct (sc_receivedFinalOffset c) eqn:EF; cbn [negb andb].
  { intros [= <- <- <-]. split_and!; auto using adjusted_refl. }
  destruct (getWindowUpdate _ _ _) as [b off'] eqn:EG. intros [= <- <- <-].
  apply getWindowUpdate_spec in EG as [Ha Hw]; [|done]. cbn.
  split; [done|].
  destruct (fc_receiveWindowSize (sc_base c) <? fc_receiveWindowSize b);
    [destruct (EnsureMinimumWindowSize_spec conn (f_to_i64 (f64_mul (f64_of_Z (fc_receiveWindowSize b)) ConnectionFlowControlMultiplier)) now Hconn)|];
    auto using adjusted_refl.
Qed.

Lemma sendWindowSize_le c n : fc_bytesSent c ≤ fc_sendWindow c → n ≤ sendWindowSize c → fc_bytesSent c + n ≤ fc_sendWindow c.
Proof. unfold sendWindowSize. case_match; lia. Qed.

(** ** Sums over the streams *)

Definition total (f : streamFlowController → Z) (m : gmap Z streamFlowController) : Z := map_fold (λ _ c n, f c + n) 0 m.

Lemma total_insert_new f m i c : m !! i = None → total f (<[i := c]> m) = f c + total f m.
Proof. intros Hi. unfold total. rewrite map_fold_insert_L; [done|intros; lia|done]. Qed.

Lemma total_insert f m i c c' : m !! i = Some c → total f (<[i := c']> m) = total f m - f c + f c'.
Proof.
  intros Hi. rewrite <- (insert_delete_id m i c Hi) at 2. rewrite <- insert_delete_eq.
  rewrite !total_insert_new by apply lookup_delete_eq. lia.
Qed.

Lemma total_le f g m1 : ∀ m2,
  (∀ i c, m1 !! i = Some c → ∃ c', m2 !! i = Some c' ∧ f c ≤ g c') → (∀ i c, m2 !! i = Some c → 0 ≤ g c) → total f m1 ≤ total g m2.
Proof.
  induction m1 as [|i c m1 Hi IH] using map_ind; intros m2 H12 H2.
  - change (total f ∅) with 0. clear H12. induction m2 as [|i c m2 Hi IH] using map_ind; [done|].
    rewrite total_insert_new by done. pose proof (H2 i c ltac:(by rewrite lookup_insert_eq)).
    enough (0 ≤ total g m2) by lia. apply IH. intros j c' Hj. apply (H2 j). rewrite lookup_insert_ne by congruence. done.
  - destruct (H12 i c) as (c' & Hc' & Hle); [by rewrite lookup_insert_eq|].
    rewrite total_insert_new by done. rewrite <- (insert_delete_id m2 i c' Hc'), total_insert_new by apply lookup_delete_eq.
    enough (total f m1 ≤ total g (delete i m2)) by lia. apply IH.
    + intros j d Hj. destruct (H12 j d) as (d' & Hd' & ?); [rewrite lookup_insert_ne by congruence; done|].
      exists d'. rewrite lookup_delete_ne by congruence. done.
    + intros j d Hj%lookup_delete_Some. destruct Hj; eauto.
Qed.
