(* ===== verification/QuicFlowControlSystem.v ===== *)
(** * Two endpoints under flow control

    The connection of [QuicFlowControlTheorems] as a step relation, its invariant,
    and the two properties: no violation is ever reported, and credit always
    comes. *)

From stdpp Require Import base list numbers strings gmap.
From Stdlib Require Import ZArith Lia.
From S2P Require Import Prelude QuicProtocol QuicFrames QuicRtt QuicFlowControl QuicFlowControlTheorems.

(** ** The system *)

(** The windows of the receiver's configuration. *)
Record flow_config := {
  cfg_streamWindow : Z;
  cfg_maxStreamWindow : Z;
  cfg_connWindow : Z;
  cfg_maxConnWindow : Z;
}.

Definition config_ok (g : flow_config) : Prop :=
  0 < cfg_streamWindow g ≤ cfg_maxStreamWindow g ∧ cfg_maxStreamWindow g < 2 ^ 50 ∧
  0 < cfg_connWindow g ≤ cfg_maxConnWindow g ∧ cfg_maxConnWindow g < 2 ^ 50.

Record flow_state := mk_flow {
  fl_sconn : connectionFlowController;
  fl_sstr : gmap Z streamFlowController;
  fl_fin : gset Z;                         (* streams whose final size the sender has sent *)
  fl_rconn : connectionFlowController;
  fl_rstr : gmap Z streamFlowController;
  fl_abandoned : gset Z;                   (* streams the receiver's application gave up *)
  fl_queue : windowUpdateQueue;
  fl_data : list (Z * Z * bool);           (* stream, end offset and final bit of every frame sent *)
  fl_frames : list Frame;                  (* window updates sent *)
}.

#[global] Instance flow_state_fields : Fields flow_state := λ s,
  mk_flow (fl_sconn s) (fl_sstr s) (fl_fin s) (fl_rconn s) (fl_rstr s) (fl_abandoned s) (fl_queue s) (fl_data s) (fl_frames s).

(** The connection after the handshake: the sender has the receiver's transport
    parameters. *)
Definition flow_init (g : flow_config) (ownWindow ownMax : Z) : flow_state := {|
  fl_sconn := UpdateSendWindow (NewConnectionFlowController ownWindow ownMax) (cfg_connWindow g);
  fl_sstr := ∅;
  fl_fin := ∅;
  fl_rconn := NewConnectionFlowController (cfg_connWindow g) (cfg_maxConnWindow g);
  fl_rstr := ∅;
  fl_abandoned := ∅;
  fl_queue := newWindowUpdateQueue;
  fl_data := [];
  fl_frames := [];
|}.

(** The callbacks of the receiver's controllers: [onHasStreamWindowUpdate] and
    [onHasConnectionWindowUpdate]. *)
Definition notify (q : windowUpdateQueue) (id : Z) (queue : bool * bool) : windowUpdateQueue :=
  let q := if queue.1 then AddStream q id else q in
  if queue.2 then AddConnection q else q.

Inductive flow_step (g : flow_config) : flow_state → flow_state → Prop :=
| step_open s id ownWindow ownMax initialSendWindow :
    fl_sstr s !! id = None →
    flow_step g s (s <| fl_sstr ::= <[id := NewStreamFlowController id ownWindow ownMax (cfg_streamWindow g)]> |>
                     <| fl_rstr ::= <[id := NewStreamFlowController id (cfg_streamWindow g) (cfg_maxStreamWindow g) initialSendWindow]> |>)
| step_send s id c n (fin : bool) c' conn' :
    fl_sstr s !! id = Some c → id ∉ fl_fin s → 0 ≤ n ≤ SendWindowSize c (fl_sconn s) →
    AddBytesSent c (fl_sconn s) n = (c', conn') →
    flow_step g s (s <| fl_sstr ::= <[id := c']> |> <| fl_sconn := conn' |>
                     <| fl_fin ::= λ f, if fin then {[id]} ∪ f else f |>
                     <| fl_data ::= λ l, l ++ [(id, fc_bytesSent (sc_base c'), fin)] |>)
| step_receive s id off fin r r' conn' :
    (id, off, fin) ∈ fl_data s → fl_rstr s !! id = Some r →
    UpdateHighestReceived r (fl_rconn s) off fin = (r', conn', None) →
    flow_step g s (s <| fl_rstr ::= <[id := r']> |> <| fl_rconn := conn' |>)
| step_read s id r n now r' conn' queue :
    fl_rstr s !! id = Some r → id ∉ fl_abandoned s → 0 < n ≤ fc_highestReceived (sc_base r) - fc_bytesRead (sc_base r) →
    AddBytesRead r (fl_rconn s) n now = (r', conn', queue) →
    flow_step g s (s <| fl_rstr ::= <[id := r']> |> <| fl_rconn := conn' |> <| fl_queue ::= λ q, notify q id queue |>)
| step_abandon s id r now conn' queueConn :
    fl_rstr s !! id = Some r → id ∉ fl_abandoned s → sc_receivedFinalOffset r = true →
    Abandon r (fl_rconn s) now = (conn', queueConn) →
    flow_step g s (s <| fl_rconn := conn' |> <| fl_abandoned ::= λ a, {[id]} ∪ a |> <| fl_queue ::= λ q, notify q id (false, queueConn) |>)
| step_queue_all s order rtt now q' rstr' conn' frames :
    order ≡ₚ elements (wq_queue (fl_queue s)) →
    QueueAll (fl_queue s) order (fl_rstr s) (fl_rconn s) rtt now = (q', rstr', conn', frames) →
    flow_step g s (s <| fl_queue := q' |> <| fl_rstr := rstr' |> <| fl_rconn := conn' |> <| fl_frames ::= λ l, l ++ frames |>)
| step_max_data s v :
    MaxDataFrame v ∈ fl_frames s →
    flow_step g s (s <| fl_sconn ::= λ c, UpdateSendWindow c v |>)
| step_max_stream_data s id v c :
    MaxStreamDataFrame id v ∈ fl_frames s → fl_sstr s !! id = Some c →
    flow_step g s (s <| fl_sstr ::= <[id := c <| sc_base ::= λ b, UpdateSendWindow b v |>]> |>).

Inductive flow_reach (g : flow_config) (ownWindow ownMax : Z) : flow_state → Prop :=
| reach_init : flow_reach g ownWindow ownMax (flow_init g ownWindow ownMax)
| reach_step s s' : flow_reach g ownWindow ownMax s → flow_step g s s' → flow_reach g ownWindow ownMax s'.

(** ** The invariant *)

Record stream_ok (g : flow_config) (s : flow_state) (id : Z) (c r : streamFlowController) : Prop := {
  so_sent : 0 ≤ fc_bytesSent (sc_base c) ≤ fc_sendWindow (sc_base c);
  so_window : cfg_streamWindow g ≤ fc_sendWindow (sc_base c) ≤ fc_receiveWindow (sc_base r);
  so_received : 0 ≤ fc_highestReceived (sc_base r) ≤ fc_bytesSent (sc_base c);
  so_final : sc_receivedFinalOffset r = true → id ∈ fl_fin s ∧ fc_highestReceived (sc_base r) = fc_bytesSent (sc_base c);
  so_size : window_ok (sc_base r);
  so_updates v : MaxStreamDataFrame id v ∈ fl_frames s → v ≤ fc_receiveWindow (sc_base r);
  so_granted : fc_receiveWindow (sc_base r) = cfg_streamWindow g ∨ MaxStreamDataFrame id (fc_receiveWindow (sc_base r)) ∈ fl_frames s;
  so_data off fin : (id, off, fin) ∈ fl_data s →
    0 ≤ off ≤ fc_bytesSent (sc_base c) ∧ (fin = true → id ∈ fl_fin s ∧ off = fc_bytesSent (sc_base c));
  so_queued : fc_receiveWindow (sc_base r) ≤ fc_bytesRead (sc_base r) → sc_receivedFinalOffset r = false → id ∈ wq_queue (fl_queue s);
}.

Record conn_ok (g : flow_config) (s : flow_state) : Prop := {
  co_sent : fc_bytesSent (fl_sconn s) = total (λ c, fc_bytesSent (sc_base c)) (fl_sstr s);
  co_limit : fc_bytesSent (fl_sconn s) ≤ fc_sendWindow (fl_sconn s);
  co_window : cfg_connWindow g ≤ fc_sendWindow (fl_sconn s) ≤ fc_receiveWindow (fl_rconn s);
  co_received : fc_highestReceived (fl_rconn s) = total (λ c, fc_highestReceived (sc_base c)) (fl_rstr s);
  co_size : window_ok (fl_rconn s);
  co_updates v : MaxDataFrame v ∈ fl_frames s → v ≤ fc_receiveWindow (fl_rconn s);
  co_granted : fc_receiveWindow (fl_rconn s) = cfg_connWindow g ∨ MaxDataFrame (fc_receiveWindow (fl_rconn s)) ∈ fl_frames s;
  co_queued : fc_receiveWindow (fl_rconn s) ≤ fc_bytesRead (fl_rconn s) → wq_queuedConn (fl_queue s) = true;
}.

(** A stream is not open, and nothing was sent on it, or both controllers agree. *)
Definition stream_case (g : flow_config) (s : flow_state) (id : Z) : Prop :=
  (fl_sstr s !! id = None ∧ fl_rstr s !! id = None ∧ (∀ v, MaxStreamDataFrame id v ∉ fl_frames s) ∧ (∀ off fin, (id, off, fin) ∉ fl_data s)) ∨
  ∃ c r, fl_sstr s !! id = Some c ∧ fl_rstr s !! id = Some r ∧ stream_ok g s id c r.

Record flow_inv (g : flow_config) (s : flow_state) : Prop := {
  fi_conn : conn_ok g s;
  fi_streams id : stream_case g s id;
}.

Lemma flow_init_inv g w m : config_ok g → flow_inv g (flow_init g w m).
Proof.
  intros Hg. unfold config_ok in Hg. split.
  - unfold flow_init, UpdateSendWindow. cbn.
    replace (0 <? cfg_connWindow g) with true by lia.
    split; cbn; first [done | lia | by left | unfold window_ok; cbn; lia | by intros ? ?%not_elem_of_nil].
  - intros id. left. cbn. rewrite !lookup_empty. split_and!; try done; intros; apply not_elem_of_nil.
Qed.

(** A step that leaves a stream alone. *)
Lemma stream_case_mono g s s' id :
  fl_sstr s' !! id = fl_sstr s !! id → fl_rstr s' !! id = fl_rstr s !! id →
  (∀ v, MaxStreamDataFrame id v ∈ fl_frames s' ↔ MaxStreamDataFrame id v ∈ fl_frames s) →
  (∀ off fin, (id, off, fin) ∈ fl_data s' ↔ (id, off, fin) ∈ fl_data s) →
  (id ∈ fl_fin s' ↔ id ∈ fl_fin s) → (id ∈ wq_queue (fl_queue s) → id ∈ wq_queue (fl_queue s')) →
  stream_case g s id → stream_case g s' id.
Proof.
  intros H1 H2 H3 H4 H5 H6. unfold stream_case. rewrite H1, H2. setoid_rewrite H3. setoid_rewrite H4.
  intros [?|(c & r & Hc & Hr & Hok)]; [by left|right]. exists c, r. split_and!; [done..|].
  destruct Hok. split; try done.
  - intros Hf. rewrite H5. auto.
  - intros v. rewrite H3. auto.
  - rewrite H3. done.
  - intros off fin. rewrite H4, H5. auto.
  - auto.
Qed.

(** The common case: data, window updates and final sizes are those before. *)
Lemma stream_case_same g s s' id :
  fl_sstr s' !! id = fl_sstr s !! id → fl_rstr s' !! id = fl_rstr s !! id → fl_frames s' = fl_frames s → fl_data s' = fl_data s →
  fl_fin s' = fl_fin s → (id ∈ wq_queue (fl_queue s) → id ∈ wq_queue (fl_queue s')) → stream_case g s id → stream_case g s' id.
Proof. intros ?? H3 H4 H5 ?. apply stream_case_mono; rewrite ?H3, ?H4, ?H5; done. Qed.

Lemma stream_case_open g s id c : flow_inv g s → fl_sstr s !! id = Some c → ∃ r, fl_rstr s !! id = Some r ∧ stream_ok g s id c r.
Proof.
  intros Hinv Hc. destruct (fi_streams _ _ Hinv id) as [[Hn _]|(c' & r & Hc' & Hr & Hok)]; [congruence|].
  exists r. split; [done|]. congruence.
Qed.

Lemma stream_case_received g s id r : flow_inv g s → fl_rstr s !! id = Some r → ∃ c, fl_sstr s !! id = Some c ∧ stream_ok g s id c r.
Proof.
  intros Hinv Hr. destruct (fi_streams _ _ Hinv id) as [(_ & Hn & _)|(c & r' & Hc & Hr' & Hok)]; [congruence|].
  exists c. split; [done|]. congruence.
Qed.

Ltac other_stream := apply stream_case_same; cbn; rewrite ?lookup_insert_ne by done; try done.

Lemma step_open_inv g s id w m x : config_ok g → flow_inv g s → fl_sstr s !! id = None →
  flow_inv g (s <| fl_sstr ::= <[id := NewStreamFlowController id w m (cfg_streamWindow g)]> |>
                <| fl_rstr ::= <[id := NewStreamFlowController id (cfg_streamWindow g) (cfg_maxStreamWindow g) x]> |>).
Proof.
  intros Hg Hinv Hid. destruct (fi_streams _ _ Hinv id) as [(_ & Hr & Hf & Hd)|(c & r & Hc & _)]; [|congruence].
  split.
  - destruct (fi_conn _ _ Hinv). split; cbn; try done; rewrite total_insert_new by done; cbn; lia.
  - intros j. destruct (decide (j = id)) as [->|Hj].
    + right. eexists _, _. cbn. rewrite !lookup_insert_eq. split; [done|]. split; [done|].
      unfold config_ok in Hg. split; cbn;
        first [done | lia | by left | unfold window_ok; cbn; lia | by intros v ?%Hf | by intros off fin ?%Hd].
    + generalize (fi_streams _ _ Hinv j). other_stream.
Qed.

Lemma step_send_inv g s id c n (fin : bool) c' conn' : flow_inv g s →
  fl_sstr s !! id = Some c → id ∉ fl_fin s → 0 ≤ n ≤ SendWindowSize c (fl_sconn s) → AddBytesSent c (fl_sconn s) n = (c', conn') →
  flow_inv g (s <| fl_sstr ::= <[id := c']> |> <| fl_sconn := conn' |> <| fl_fin ::= λ f, if fin then {[id]} ∪ f else f |>
                <| fl_data ::= λ l, l ++ [(id, fc_bytesSent (sc_base c'), fin)] |>).
Proof.
  intros Hinv Hc Hfin Hn [= <- <-]. unfold SendWindowSize in Hn. rewrite MinByteCount_min in Hn.
  destruct (stream_case_open _ _ _ _ Hinv Hc) as (r & Hr & Hok). split.
  - destruct (fi_conn _ _ Hinv). split; cbn; try done; [rewrite (total_insert _ _ _ c) by done; cbn; lia|].
    apply sendWindowSize_le; lia.
  - intros j. destruct (decide (j = id)) as [->|Hj].
    + right. eexists _, r. cbn. rewrite lookup_insert_eq. split; [done|]. split; [done|].
      destruct Hok as [H1 H2 H3 H4 H5 H6 H7 H8 H9].
      pose proof (sendWindowSize_le (sc_base c) n). split; cbn; try done; try lia.
      * intros Hf. by destruct (H4 Hf).
      * intros off f [Ho|Ho]%elem_of_app.
        { destruct (H8 off f Ho) as [? Hf]. split; [lia|]. intros ->. by destruct (Hf eq_refl). }
        apply list_elem_of_singleton in Ho as [= -> ->]. split; [lia|]. intros ->. split; [apply elem_of_union; left; by apply elem_of_singleton|done].
    + generalize (fi_streams _ _ Hinv j). apply stream_case_mono; cbn; rewrite ?lookup_insert_ne by done; try done.
      * intros off f. rewrite elem_of_app, list_elem_of_singleton. split; [|by left]. intros [?|[= ? ? ?]]; done.
      * destruct fin; [rewrite elem_of_union, elem_of_singleton; tauto|done].
Qed.

(** ** Receiving *)

Lemma UpdateHighestReceived_honest r conn off (fin : bool) :
  let highest := fc_highestReceived (sc_base r) in
  (sc_receivedFinalOffset r = true → off ≤ highest ∧ (fin = true → off = highest)) → (fin = true → highest ≤ off) →
  off ≤ fc_receiveWindow (sc_base r) → fc_highestReceived conn + (Z.max highest off - highest) ≤ fc_receiveWindow conn →
  UpdateHighestReceived r conn off fin =
    (r <| sc_receivedFinalOffset ::= λ f, f || fin |> <| sc_base ::= λ b, b <| fc_highestReceived := Z.max highest off |> |>,
     conn <| fc_highestReceived ::= λ h, h + (Z.max highest off - highest) |>, None).
Proof.
  cbn zeta. intros H1 H2 H3 H4. unfold UpdateHighestReceived, IncrementHighestReceived, checkFlowControlViolation.
  destruct r as [b id [|]]; cbn in *.
  - destruct (H1 eq_refl) as [Hoff Hfin]. rewrite (proj2 (Z.ltb_ge _ _)) by lia.
    rewrite Z.max_l in * by lia. destruct b, conn. cbn in *. rewrite Z.sub_diag, Z.add_0_r.
    destruct fin; cbn.
    + rewrite Hfin, Z.eqb_refl by done. done.
    + destruct (off =? _); [done|]. by rewrite (proj2 (Z.leb_le _ _)) by lia.
  - destruct (off =? _) eqn:E1.
    { apply Z.eqb_eq in E1 as ->. destruct b, conn, fin; cbn; rewrite Z.max_id, Z.sub_diag, Z.add_0_r; done. }
    destruct (off <=? _) eqn:E2.
    { destruct fin; [lia|]. rewrite Z.max_l by lia. destruct b, conn. cbn. rewrite Z.sub_diag, Z.add_0_r. done. }
    rewrite Z.max_r in * by lia. destruct fin; cbn; rewrite !(proj2 (Z.ltb_ge _ _)) by lia; done.
Qed.

(** Every frame an honest sender has sent is accepted. *)
Lemma receive_honest g s id off fin r : flow_inv g s → (id, off, fin) ∈ fl_data s → fl_rstr s !! id = Some r →
  let highest := fc_highestReceived (sc_base r) in
  UpdateHighestReceived r (fl_rconn s) off fin =
    (r <| sc_receivedFinalOffset ::= λ f, f || fin |> <| sc_base ::= λ b, b <| fc_highestReceived := Z.max highest off |> |>,
     (fl_rconn s) <| fc_highestReceived ::= λ h, h + (Z.max highest off - highest) |>, None).
Proof.
  intros Hinv Hd Hr highest. destruct (stream_case_received _ _ _ _ Hinv Hr) as (c & Hc & Hok).
  destruct Hok as [H1 H2 H3 H4 H5 H6 H7 H8 H9]. destruct (H8 off fin Hd) as [Hoff Hfin].
  apply UpdateHighestReceived_honest; fold highest.
  - intros Hf. destruct (H4 Hf) as [_ Hh]. split; [lia|]. intros ->. destruct (Hfin eq_refl). lia.
  - intros ->. destruct (Hfin eq_refl). lia.
  - lia.
  - destruct (fi_conn _ _ Hinv) as [C1 C2 C3 C4 C5 C6 C7 C8].
    set (r' := r <| sc_base ::= λ b, b <| fc_highestReceived := Z.max highest off |> |>).
    assert (total (λ c, fc_highestReceived (sc_base c)) (<[id := r']> (fl_rstr s)) ≤ total (λ c, fc_bytesSent (sc_base c)) (fl_sstr s)) as Ht.
    { apply total_le.
      - intros j d Hj. destruct (decide (j = id)) as [->|Hne].
        + rewrite lookup_insert_eq in Hj. injection Hj as <-. exists c. split; [done|]. cbn. lia.
        + rewrite lookup_insert_ne in Hj by done. destruct (stream_case_received _ _ _ _ Hinv Hj) as (c' & Hc' & Hok').
          exists c'. split; [done|]. apply (so_received _ _ _ _ _ Hok').
      - intros j d Hj. destruct (stream_case_open _ _ _ _ Hinv Hj) as (? & _ & Hok'). apply (so_sent _ _ _ _ _ Hok'). }
    rewrite (total_insert _ _ _ r) in Ht by done. cbn in Ht. lia.
Qed.

Lemma step_receive_inv g s id off fin r r' conn' : flow_inv g s → (id, off, fin) ∈ fl_data s → fl_rstr s !! id = Some r →
  UpdateHighestReceived r (fl_rconn s) off fin = (r', conn', None) →
  flow_inv g (s <| fl_rstr ::= <[id := r']> |> <| fl_rconn := conn' |>).
Proof.
  intros Hinv Hd Hr. rewrite (receive_honest _ _ _ _ _ _ Hinv Hd Hr). intros [= <- <-]. split.
  - destruct (fi_conn _ _ Hinv). split; cbn; try done; try lia. rewrite (total_insert _ _ _ r) by done. cbn. lia.
  - intros j. destruct (decide (j = id)) as [->|Hj]; [|generalize (fi_streams _ _ Hinv j); other_stream].
    destruct (stream_case_received _ _ _ _ Hinv Hr) as (c & Hc & [H1 H2 H3 H4 H5 H6 H7 H8 H9]).
    destruct (H8 off fin Hd) as [Hoff Hfin].
    right. eexists c, _. cbn. rewrite lookup_insert_eq. split; [done|]. split; [done|]. split; cbn; try done; try lia.
    + intros [Hf|Hf]%orb_true_iff; [destruct (H4 Hf)|destruct (Hfin Hf)]; split; (done || lia).
    + intros Hw [Hf _]%orb_false_iff. auto.
Qed.

(** ** Reading *)

#[local] Arguments addBytesRead : simpl never.

(** Reading updates the connection's controller and queues its window update. *)
Lemma conn_read_ok c n now c' queueConn : window_ok c → conn_AddBytesRead c n now = (c', queueConn) →
  fc_highestReceived c' = fc_highestReceived c ∧ fc_receiveWindow c' = fc_receiveWindow c ∧ window_ok c' ∧
  (fc_receiveWindow c' ≤ fc_bytesRead c' → queueConn = true).
Proof.
  intros Hw [= <- <-]. destruct (addBytesRead_spec c n now) as (H1 & H2 & H3 & H4 & H5).
  assert (window_ok (addBytesRead c n now)) as Hw' by (unfold window_ok in *; lia).
  split_and!; [done..|]. intros Hr. rewrite hasWindowUpdate_spec by done. apply Z.leb_le.
  unfold window_ok in Hw'. pose proof (Z.div_pos (3 * fc_receiveWindowSize (addBytesRead c n now)) 4). lia.
Qed.

Lemma notify_queue q id b id' : id' ∈ wq_queue q → id' ∈ wq_queue (notify q id b).
Proof. unfold notify. destruct b as [[|] [|]]; cbn; rewrite ?elem_of_union; auto. Qed.

Lemma notify_stream q id b : b.1 = true → id ∈ wq_queue (notify q id b).
Proof. unfold notify. destruct b as [[|] [|]]; cbn; intros [=]; rewrite elem_of_union; left; by apply elem_of_singleton. Qed.

Lemma notify_conn q id b : wq_queuedConn q = true ∨ b.2 = true → wq_queuedConn (notify q id b) = true.
Proof. unfold notify. destruct b as [[|] [|]]; cbn; intros [?|[=]]; done. Qed.

Lemma step_read_inv g s id r n now r' conn' queue : flow_inv g s →
  fl_rstr s !! id = Some r → 0 < n ≤ fc_highestReceived (sc_base r) - fc_bytesRead (sc_base r) →
  AddBytesRead r (fl_rconn s) n now = (r', conn', queue) →
  flow_inv g (s <| fl_rstr ::= <[id := r']> |> <| fl_rconn := conn' |> <| fl_queue ::= λ q, notify q id queue |>).
Proof.
  intros Hinv Hr Hn. unfold AddBytesRead. destruct (conn_AddBytesRead _ _ _) as [conn1 qc] eqn:EC. intros [= <- <- <-].
  destruct (addBytesRead_spec (sc_base r) n now) as (B1 & B2 & B3 & B4 & B5). split.
  - destruct (fi_conn _ _ Hinv) as [C1 C2 C3 C4 C5 C6 C7 C8].
    apply conn_read_ok in EC as (E1 & E2 & E3 & E4); [|done].
    split; cbn; rewrite ?E1, ?E2; try done.
    + rewrite (total_insert _ _ _ r) by done. cbn. lia.
    + intros Hw. apply notify_conn. right. apply E4. lia.
  - intros j. destruct (decide (j = id)) as [->|Hj].
    2: { generalize (fi_streams _ _ Hinv j). other_stream. apply notify_queue. }
    destruct (stream_case_received _ _ _ _ Hinv Hr) as (c & Hc & [H1 H2 H3 H4 H5 H6 H7 H8 H9]).
    right. eexists c, _. cbn. rewrite lookup_insert_eq. split; [done|]. split; [done|].
    assert (window_ok (addBytesRead (sc_base r) n now)) as Hw' by (unfold window_ok in *; lia).
    split; cbn; rewrite ?B2, ?B3; try done; try lia.
    intros Hw Hf. apply notify_stream. cbn. unfold shouldQueueWindowUpdate. cbn. rewrite Hf, hasWindowUpdate_spec by done. cbn [negb andb].
    unfold window_ok in Hw'. pose proof (Z.div_pos (3 * fc_receiveWindowSize (addBytesRead (sc_base r) n now)) 4). lia.
Qed.

Lemma step_abandon_inv g s id r now conn' queueConn : flow_inv g s → fl_rstr s !! id = Some r →
  Abandon r (fl_rconn s) now = (conn', queueConn) →
  flow_inv g (s <| fl_rconn := conn' |> <| fl_abandoned ::= λ a, {[id]} ∪ a |> <| fl_queue ::= λ q, notify q id (false, queueConn) |>).
Proof.
  intros Hinv Hr HA. split.
  - destruct (fi_conn _ _ Hinv) as [C1 C2 C3 C4 C5 C6 C7 C8]. unfold Abandon in HA. destruct (0 <? _).
    + apply conn_read_ok in HA as (E1 & E2 & E3 & E4); [|done]. split; cbn; rewrite ?E1, ?E2; try done.
      intros Hw. apply notify_conn. right. apply E4. lia.
    + injection HA as <- <-. split; cbn; done.
  - intros j. generalize (fi_streams _ _ Hinv j). other_stream. apply notify_queue.
Qed.

(** ** Window updates *)

(** A connection-level update, as [QueueAll] sends it. *)
Lemma queue_conn_inv g s rtt now conn' off : config_ok g → flow_inv g s → conn_GetWindowUpdate (fl_rconn s) rtt now = (conn', off) →
  flow_inv g (s <| fl_queue ::= λ q, q <| wq_queuedConn := false |> |> <| fl_rconn := conn' |> <| fl_frames ::= λ l, l ++ [MaxDataFrame off] |>) ∧
  (fc_receiveWindow (fl_rconn s) ≤ fc_bytesRead (fl_rconn s) → fc_bytesRead (fl_rconn s) < off).
Proof.
  intros Hg Hinv HG. destruct (fi_conn _ _ Hinv) as [C1 C2 C3 C4 C5 C6 C7 C8].
  apply getWindowUpdate_spec in HG as [(A1 & A2 & A3 & A4 & A5 & A6 & A7) HG]; [|done].
  assert (0 ≤ 3 * fc_receiveWindowSize (fl_rconn s) / 4) by (unfold window_ok in *; apply Z.div_pos; lia).
  assert (∀ v, off ≤ fc_receiveWindow conn' → fc_receiveWindow (fl_rconn s) ≤ fc_receiveWindow conn' →
    MaxDataFrame v ∈ fl_frames s ++ [MaxDataFrame off] → v ≤ fc_receiveWindow conn') as HU.
  { intros v Ho Hle [Hv|Hv]%elem_of_app; [apply C6 in Hv; lia|]. apply list_elem_of_singleton in Hv as [= ->]. done. }
  split; [split|].
  - destruct (_ <=? _) eqn:E; split; cbn; try done; try lia.
    + intros v. apply HU; lia.
    + right. apply elem_of_app. right. apply list_elem_of_singleton. f_equal. lia.
    + unfold window_ok in A7. lia.
    + intros v. unfold config_ok in Hg. apply HU; lia.
    + destruct HG as [_ ->]. destruct C7; [by left|right]. by apply elem_of_app; left.
  - intros j. generalize (fi_streams _ _ Hinv j). apply stream_case_mono; cbn; try done.
    intros v. rewrite elem_of_app, list_elem_of_singleton. split; [|by left]. by intros [?|[=]].
  - intros Hw. unfold window_ok in A7. destruct (_ <=? _) eqn:E; lia.
Qed.

(** A stream-level update. *)
Lemma queue_stream_inv g s id r rtt now r' conn' off : config_ok g → flow_inv g s → fl_rstr s !! id = Some r →
  GetWindowUpdate r (fl_rconn s) rtt now = (r', conn', off) →
  flow_inv g (s <| fl_queue ::= λ q, q <| wq_queue ::= λ w, w ∖ {[id]} |> |> <| fl_rstr ::= <[id := r']> |> <| fl_rconn := conn' |>
                <| fl_frames ::= λ l, l ++ (if off =? 0 then [] else [MaxStreamDataFrame id off]) |>) ∧
  (fc_receiveWindow (sc_base r) ≤ fc_bytesRead (sc_base r) → sc_receivedFinalOffset r = false → fc_bytesRead (sc_base r) < off).
Proof.
  intros Hg Hinv Hr HG. destruct (stream_case_received _ _ _ _ Hinv Hr) as (c & Hc & [H1 H2 H3 H4 H5 H6 H7 H8 H9]).
  destruct (fi_conn _ _ Hinv) as [C1 C2 C3 C4 C5 C6 C7 C8]. unfold config_ok in Hg.
  apply GetWindowUpdate_spec in HG as ((A1 & A2 & A3 & A4 & A5 & A6 & A7) & (B1 & B2 & B3 & B4 & B5 & B6 & B7) & B8 & A8 & HG); [|done..].
  assert (0 ≤ 3 * fc_receiveWindowSize (sc_base r) / 4) by (unfold window_ok in *; apply Z.div_pos; lia).
  assert (off ≤ fc_receiveWindow (sc_base r') ∧ fc_receiveWindow (sc_base r) ≤ fc_receiveWindow (sc_base r') ∧
    (off = fc_receiveWindow (sc_base r') ∧ off ≠ 0 ∨ fc_receiveWindow (sc_base r') = fc_receiveWindow (sc_base r)) ∧
    (sc_receivedFinalOffset r = false → fc_bytesRead (sc_base r) < fc_receiveWindow (sc_base r')) ∧
    (fc_receiveWindow (sc_base r) ≤ fc_bytesRead (sc_base r) → sc_receivedFinalOffset r = false → fc_bytesRead (sc_base r) < off))
    as (K1 & K2 & K3 & K4 & K5).
  { unfold window_ok in *. destruct (sc_receivedFinalOffset r); cbn [negb andb] in HG; [|destruct (_ <=? _) eqn:E]; lia. }
  clear HG. split; [split|done].
  - split; cbn; rewrite ?B3, ?B4, ?B8; try done.
    + rewrite (total_insert _ _ _ r) by done. cbn. lia.
    + intros v [Hv|Hv]%elem_of_app; [by apply C6|]. destruct (off =? 0); [by apply not_elem_of_nil in Hv|].
      by apply list_elem_of_singleton in Hv.
    + destruct C7; [by left|right]. by apply elem_of_app; left.
  - intros j. destruct (decide (j = id)) as [->|Hj].
    + right. exists c, r'. cbn. rewrite lookup_insert_eq. split; [done|]. split; [done|].
      split; cbn; rewrite ?A4, ?A3, ?A8; try done; try lia.
      * intros v [Hv|Hv]%elem_of_app; [apply H6 in Hv; lia|]. destruct (off =? 0); [by apply not_elem_of_nil in Hv|].
        apply list_elem_of_singleton in Hv as [= ->]. done.
      * destruct K3 as [[<- Ho]| ->].
        { right. apply elem_of_app. right. rewrite (proj2 (Z.eqb_neq off 0)) by done. by apply list_elem_of_singleton. }
        destruct H7; [by left|right]. by apply elem_of_app; left.
      * intros Hw Hf. specialize (K4 Hf). lia.
    + generalize (fi_streams _ _ Hinv j). apply stream_case_mono; cbn; rewrite ?lookup_insert_ne by done; try done.
      * intros v. rewrite elem_of_app. split; [|by left]. intros [?|Hv]; [done|].
        destruct (off =? 0); [by apply not_elem_of_nil in Hv|]. by apply list_elem_of_singleton in Hv as [= ? ?].
      * intros Hq. apply elem_of_difference. split; [done|]. by rewrite elem_of_singleton.
Qed.

Lemma queue_streams_inv g ids : ∀ s rtt now q' rstr' conn' frames, config_ok g → flow_inv g s →
  queue_streams (fl_queue s) ids (fl_rstr s) (fl_rconn s) rtt now = (q', rstr', conn', frames) →
  flow_inv g (s <| fl_queue := q' |> <| fl_rstr := rstr' |> <| fl_rconn := conn' |> <| fl_frames ::= λ l, l ++ frames |>).
Proof.
  induction ids as [|id ids IH]; cbn [queue_streams]; intros s rtt now q' rstr' conn' frames Hg Hinv.
  { intros [= <- <- <- <-]. destruct s. cbn in *. rewrite app_nil_r. done. }
  destruct (fl_rstr s !! id) as [r|] eqn:Hr.
  - destruct (GetWindowUpdate _ _ _ _) as [[r1 conn1] off] eqn:EG.
    destruct (queue_streams _ _ _ _ _ _) as [[[q2 rstr2] conn2] frames2] eqn:EQ. intros [= <- <- <- <-].
    destruct (queue_stream_inv _ _ _ _ _ _ _ _ _ Hg Hinv Hr EG) as [Hinv1 _].
    pose proof (IH _ rtt now _ _ _ _ Hg Hinv1 EQ) as Hres. destruct s. cbn in *. revert Hres.
    destruct (off =? 0); rewrite <- app_assoc; done.
  - intros EQ. refine (IH (s <| fl_queue ::= λ q, q <| wq_queue ::= λ w, w ∖ {[id]} |> |>) rtt now _ _ _ _ Hg _ EQ).
    split; [destruct (fi_conn _ _ Hinv); by split|]. intros j. destruct (decide (j = id)) as [->|Hj].
    + destruct (fi_streams _ _ Hinv id) as [H|(c & r & _ & Hr' & _)]; [by left|congruence].
    + generalize (fi_streams _ _ Hinv j). other_stream. intros Hq. apply elem_of_difference. split; [done|]. by rewrite elem_of_singleton.
Qed.

Lemma step_queue_all_inv g s order rtt now q' rstr' conn' frames : config_ok g → flow_inv g s →
  QueueAll (fl_queue s) order (fl_rstr s) (fl_rconn s) rtt now = (q', rstr', conn', frames) →
  flow_inv g (s <| fl_queue := q' |> <| fl_rstr := rstr' |> <| fl_rconn := conn' |> <| fl_frames ::= λ l, l ++ frames |>).
Proof.
  intros Hg Hinv. unfold QueueAll. destruct (wq_queuedConn (fl_queue s)).
  - destruct (conn_GetWindowUpdate _ _ _) as [conn1 off] eqn:EC.
    destruct (queue_streams _ _ _ _ _ _) as [[[q2 rstr2] conn2] frames2] eqn:EQ. intros [= <- <- <- <-].
    destruct (queue_conn_inv _ _ _ _ _ _ Hg Hinv EC) as [Hinv1 _].
    pose proof (queue_streams_inv _ _ _ rtt now _ _ _ _ Hg Hinv1 EQ) as Hres. destruct s. cbn in *. revert Hres.
    rewrite <- app_assoc. done.
  - destruct (queue_streams _ _ _ _ _ _) as [[[q2 rstr2] conn2] frames2] eqn:EQ. intros [= <- <- <- <-].
    apply (queue_streams_inv _ _ _ rtt now _ _ _ _ Hg Hinv EQ).
Qed.

Lemma UpdateSendWindow_spec c v : fc_sendWindow (UpdateSendWindow c v) = Z.max (fc_sendWindow c) v ∧
  fc_bytesSent (UpdateSendWindow c v) = fc_bytesSent c.
Proof. unfold UpdateSendWindow. case_match; cbn; lia. Qed.

Lemma step_max_data_inv g s v : flow_inv g s → MaxDataFrame v ∈ fl_frames s → flow_inv g (s <| fl_sconn ::= λ c, UpdateSendWindow c v |>).
Proof.
  intros Hinv Hv. destruct (UpdateSendWindow_spec (fl_sconn s) v) as [U1 U2]. split.
  - destruct (fi_conn _ _ Hinv) as [C1 C2 C3 C4 C5 C6 C7 C8]. pose proof (C6 v Hv).
    split; cbn [fl_sconn fl_sstr fl_rconn fl_rstr fl_queue fl_frames update]; rewrite ?U1, ?U2; try done; lia.
  - intros j. generalize (fi_streams _ _ Hinv j). other_stream.
Qed.

Lemma step_max_stream_data_inv g s id v c : flow_inv g s → MaxStreamDataFrame id v ∈ fl_frames s → fl_sstr s !! id = Some c →
  flow_inv g (s <| fl_sstr ::= <[id := c <| sc_base ::= λ b, UpdateSendWindow b v |>]> |>).
Proof.
  intros Hinv Hv Hc. destruct (UpdateSendWindow_spec (sc_base c) v) as [U1 U2]. split.
  - destruct (fi_conn _ _ Hinv) as [C1 C2 C3 C4 C5 C6 C7 C8]. split; cbn; try done.
    rewrite (total_insert _ _ _ c) by done. cbn. rewrite U2. lia.
  - intros j. destruct (decide (j = id)) as [->|Hj]; [|generalize (fi_streams _ _ Hinv j); other_stream].
    destruct (stream_case_open _ _ _ _ Hinv Hc) as (r & Hr & [H1 H2 H3 H4 H5 H6 H7 H8 H9]). pose proof (H6 v Hv).
    right. eexists _, r. cbn. rewrite lookup_insert_eq. split; [done|]. split; [done|].
    split; cbn; rewrite ?U1, ?U2; try done; lia.
Qed.

Lemma flow_reach_inv g w m s : config_ok g → flow_reach g w m s → flow_inv g s.
Proof.
  intros Hg. induction 1 as [|s s' _ IH Hstep]; [by apply flow_init_inv|].
  destruct Hstep; eauto using step_open_inv, step_send_inv, step_receive_inv, step_read_inv, step_abandon_inv, step_queue_all_inv,
    step_max_data_inv, step_max_stream_data_inv.
Qed.

(** ** The properties *)

(** C14. The receiver accepts every frame of a sender that keeps to its send window:
    however frames and window updates are lost, delayed, reordered and repeated, the
    flow controllers of the stream and of the connection report neither a flow
    control violation nor an inconsistent final size, and the sender's limits stay
    within what the receiver allows. *)
Theorem flow_control_sound g w m s id off fin :
  config_ok g → flow_reach g w m s → (id, off, fin) ∈ fl_data s →
  ∃ c r, fl_sstr s !! id = Some c ∧ fl_rstr s !! id = Some r ∧
    (UpdateHighestReceived r (fl_rconn s) off fin).2 = None ∧
    fc_bytesSent (sc_base c) ≤ fc_sendWindow (sc_base c) ≤ fc_receiveWindow (sc_base r) ∧
    fc_bytesSent (fl_sconn s) ≤ fc_sendWindow (fl_sconn s) ≤ fc_receiveWindow (fl_rconn s).
Proof.
  intros Hg Hs Hd. pose proof (flow_reach_inv _ _ _ _ Hg Hs) as Hinv.
  destruct (fi_streams _ _ Hinv id) as [(_ & _ & _ & Hn)|(c & r & Hc & Hr & Hok)]; [by destruct (Hn off fin)|].
  exists c, r. rewrite (receive_honest _ _ _ _ _ _ Hinv Hd Hr). split; [done|]. split; [done|]. split; [done|].
  destruct Hok, (fi_conn _ _ Hinv). lia.
Qed.

(** The connection-level update [QueueAll] sends is a MAX_DATA frame. *)
Lemma QueueAll_conn q order streams conn rtt now :
  wq_queuedConn q = true → MaxDataFrame (conn_GetWindowUpdate conn rtt now).2 ∈ (QueueAll q order streams conn rtt now).2.
Proof.
  intros Hq. unfold QueueAll. rewrite Hq. destruct (conn_GetWindowUpdate _ _ _) as [conn1 off].
  destruct (queue_streams _ _ _ _ _ _) as [[[q2 rstr2] conn2] frames2]. cbn. apply elem_of_cons. by left.
Qed.

(** The update of a stream does not depend on the connection's controller. *)
Lemma GetWindowUpdate_offset r conn conn' rtt now : (GetWindowUpdate r conn rtt now).2 = (GetWindowUpdate r conn' rtt now).2.
Proof. unfold GetWindowUpdate. destruct (sc_receivedFinalOffset r); [done|]. by destruct (getWindowUpdate _ _ _). Qed.

Lemma queue_streams_emits ids id r conn0 rtt now : ∀ q streams conn, id ∈ ids → streams !! id = Some r →
  (GetWindowUpdate r conn0 rtt now).2 ≠ 0 → NoDup ids →
  MaxStreamDataFrame id (GetWindowUpdate r conn0 rtt now).2 ∈ (queue_streams q ids streams conn rtt now).2.
Proof.
  induction ids as [|id' ids IH]; intros q streams conn Hid Hr Hoff Hnd; [by apply not_elem_of_nil in Hid|].
  apply NoDup_cons in Hnd as [Hnew Hnd]. cbn [queue_streams]. apply elem_of_cons in Hid as [->|Hid].
  - rewrite Hr. rewrite (GetWindowUpdate_offset _ _ conn) in Hoff |- *.
    destruct (GetWindowUpdate r conn rtt now) as [[r1 conn1] off] eqn:EG. cbn in *.
    destruct (queue_streams _ _ _ _ _ _) as [[[q2 rstr2] conn2] frames2]. cbn.
    rewrite (proj2 (Z.eqb_neq off 0)) by done. apply elem_of_cons. by left.
  - assert (id ≠ id') by (intros ->; done). destruct (streams !! id') as [r'|]; [|by apply IH].
    destruct (GetWindowUpdate r' conn rtt now) as [[r1 conn1] off].
    specialize (IH (q <| wq_queue ::= λ s, s ∖ {[id']} |>) (<[id' := r1]> streams) conn1 Hid).
    destruct (queue_streams _ _ _ _ _ _) as [[[q2 rstr2] conn2] frames2]. cbn in *.
    rewrite lookup_insert_ne in IH by done. specialize (IH Hr Hoff Hnd). destruct (off =? 0); [done|]. apply elem_of_cons. by right.
Qed.

Lemma QueueAll_stream q order streams conn conn0 rtt now id r : order ≡ₚ elements (wq_queue q) → id ∈ wq_queue q → streams !! id = Some r →
  (GetWindowUpdate r conn0 rtt now).2 ≠ 0 →
  MaxStreamDataFrame id (GetWindowUpdate r conn0 rtt now).2 ∈ (QueueAll q order streams conn rtt now).2.
Proof.
  intros Ho Hid Hr Hoff. unfold QueueAll.
  assert (id ∈ order) by (rewrite Ho; by apply elem_of_elements).
  assert (NoDup order) by (rewrite Ho; apply NoDup_elements).
  destruct (wq_queuedConn q); [destruct (conn_GetWindowUpdate _ _ _) as [conn1 off1]|];
    match goal with |- context [queue_streams ?q ?ids ?str ?c rtt now] =>
      pose proof (queue_streams_emits ids id r conn0 rtt now q str c) as HE;
      destruct (queue_streams q ids str c rtt now) as [[[q2 rstr2] conn2] frames2]
    end; cbn in *; [apply elem_of_cons; right|]; auto.
Qed.

Lemma blocked_window c : fc_bytesSent c ≤ fc_sendWindow c → sendWindowSize c = 0 → fc_bytesSent c = fc_sendWindow c.
Proof. unfold sendWindowSize. destruct (_ <? _) eqn:E; lia. Qed.

(** C15. A sender that has used up what the connection (a stream) allows is granted
    more once the receiver has read all that was sent: a MAX_DATA
    (MAX_STREAM_DATA) frame with a higher limit was already sent, or the update is
    queued and the next call of [QueueAll] sends one. *)
Theorem flow_control_live g w m s :
  config_ok g → flow_reach g w m s →
  (sendWindowSize (fl_sconn s) = 0 → fc_bytesRead (fl_rconn s) = fc_bytesSent (fl_sconn s) →
   (∃ v, MaxDataFrame v ∈ fl_frames s ∧ fc_sendWindow (fl_sconn s) < v) ∨
   (∀ order rtt now, ∃ v, MaxDataFrame v ∈ (QueueAll (fl_queue s) order (fl_rstr s) (fl_rconn s) rtt now).2 ∧ fc_sendWindow (fl_sconn s) < v)) ∧
  (∀ id c r, fl_sstr s !! id = Some c → fl_rstr s !! id = Some r → id ∉ fl_fin s →
   sendWindowSize (sc_base c) = 0 → fc_bytesRead (sc_base r) = fc_bytesSent (sc_base c) →
   (∃ v, MaxStreamDataFrame id v ∈ fl_frames s ∧ fc_sendWindow (sc_base c) < v) ∨
   (∀ order rtt now, order ≡ₚ elements (wq_queue (fl_queue s)) →
     ∃ v, MaxStreamDataFrame id v ∈ (QueueAll (fl_queue s) order (fl_rstr s) (fl_rconn s) rtt now).2 ∧ fc_sendWindow (sc_base c) < v)).
Proof.
  intros Hg Hs. pose proof (flow_reach_inv _ _ _ _ Hg Hs) as Hinv. split.
  - destruct (fi_conn _ _ Hinv) as [C1 C2 C3 C4 C5 C6 C7 C8]. intros Hb Hr. pose proof (blocked_window _ C2 Hb) as Hsent.
    destruct (decide (fc_sendWindow (fl_sconn s) < fc_receiveWindow (fl_rconn s))) as [Hlt|Hge].
    { left. destruct C7 as [?|Hv]; [lia|]. by exists (fc_receiveWindow (fl_rconn s)). }
    right. intros order rtt now. eexists. split; [apply QueueAll_conn, C8; lia|].
    destruct (conn_GetWindowUpdate (fl_rconn s) rtt now) as [conn' off] eqn:EG.
    destruct (queue_conn_inv _ _ _ _ _ _ Hg Hinv EG) as [_ Hoff]. cbn. lia.
  - intros id c r Hc Hr Hfin Hb Hread. destruct (stream_case_received _ _ _ _ Hinv Hr) as (c' & Hc' & [H1 H2 H3 H4 H5 H6 H7 H8 H9]).
    assert (c' = c) as -> by congruence. pose proof (blocked_window _ (proj2 H1) Hb) as Hsent.
    assert (sc_receivedFinalOffset r = false) as Hnf by (destruct (sc_receivedFinalOffset r); [by destruct (H4 eq_refl)|done]).
    destruct (decide (fc_sendWindow (sc_base c) < fc_receiveWindow (sc_base r))) as [Hlt|Hge].
    { left. destruct H7 as [?|Hv]; [lia|]. by exists (fc_receiveWindow (sc_base r)). }
    right. intros order rtt now Ho.
    destruct (GetWindowUpdate r (fl_rconn s) rtt now) as [[r' conn'] off] eqn:EG.
    destruct (queue_stream_inv _ _ _ _ _ _ _ _ _ Hg Hinv Hr EG) as [_ Hoff]. specialize (Hoff ltac:(lia) Hnf).
    exists off. split; [|lia].
    pose proof (QueueAll_stream (fl_queue s) order (fl_rstr s) (fl_rconn s) (fl_rconn s) rtt now id r Ho) as HQ.
    rewrite EG in HQ. apply HQ; [apply H9; [lia|done]|done|cbn; lia].
Qed.

(** ** An example: a stream of four bytes, sent, received and read *)

Definition ex_config : flow_config := {| cfg_streamWindow := 4; cfg_maxStreamWindow := 8; cfg_connWindow := 4; cfg_maxConnWindow := 8 |}.
Definition ex_stream : streamFlowController := NewStreamFlowController 0 4 8 4.
Definition ex_sent : streamFlowController := ex_stream <| sc_base ::= λ b, base_AddBytesSent b 4 |>.
Definition ex_received : streamFlowController := ex_stream <| sc_base ::= λ b, b <| fc_highestReceived := 4 |> |>.

Definition ex_open : flow_state :=
  (flow_init ex_config 4 8) <| fl_sstr ::= <[0 := ex_stream]> |> <| fl_rstr ::= <[0 := ex_stream]> |>.
Definition ex_after_send : flow_state :=
  ex_open <| fl_sstr ::= <[0 := ex_sent]> |> <| fl_sconn := base_AddBytesSent (fl_sconn ex_open) 4 |>
          <| fl_fin ::= λ f, f |> <| fl_data ::= λ l, l ++ [(0, 4, false)] |>.
Definition ex_after_receive : flow_state :=
  ex_after_send <| fl_rstr ::= <[0 := ex_received]> |> <| fl_rconn := (IncrementHighestReceived (fl_rconn ex_after_send) 4).1 |>.
Definition ex_read := AddBytesRead ex_received (fl_rconn ex_after_receive) 4 1000.
Definition ex_after_read : flow_state :=
  ex_after_receive <| fl_rstr ::= <[0 := ex_read.1.1]> |> <| fl_rconn := ex_read.1.2 |> <| fl_queue ::= λ q, notify q 0 ex_read.2 |>.

Lemma ex_config_ok : config_ok ex_config.
Proof. unfold config_ok. cbn. lia. Qed.

Lemma ex_reach : flow_reach ex_config 4 8 ex_after_read.
Proof.
  apply (reach_step _ _ _ ex_after_receive); [apply (reach_step _ _ _ ex_after_send); [apply (reach_step _ _ _ ex_open); [apply (reach_step _ _ _ (flow_init ex_config 4 8)); [constructor|]|]|]|].
  - by apply (step_open ex_config (flow_init ex_config 4 8) 0 4 8 4).
  - apply (step_send ex_config ex_open 0 ex_stream 4 false); [done|apply not_elem_of_empty| |done]. vm_compute. split; discriminate.
  - apply (step_receive ex_config ex_after_send 0 4 false ex_stream); [apply list_elem_of_here|done|vm_compute; reflexivity].
  - apply (step_read ex_config ex_after_receive 0 ex_received 4 1000); [done|apply not_elem_of_empty|vm_compute; split; [done|discriminate]|].
    by destruct ex_read as [[? ?] ?] eqn:E.
Qed.

Lemma flow_control_sound_witness : ∃ c r, fl_sstr ex_after_read !! 0 = Some c ∧ fl_rstr ex_after_read !! 0 = Some r ∧
  (UpdateHighestReceived r (fl_rconn ex_after_read) 4 false).2 = None ∧
  fc_bytesSent (sc_base c) ≤ fc_sendWindow (sc_base c) ≤ fc_receiveWindow (sc_base r) ∧
  fc_bytesSent (fl_sconn ex_after_read) ≤ fc_sendWindow (fl_sconn ex_after_read) ≤ fc_receiveWindow (fl_rconn ex_after_read).
Proof. apply (flow_control_sound ex_config 4 8 ex_after_read 0 4 false ex_config_ok ex_reach). apply list_elem_of_here. Defined.

Lemma flow_control_live_witness : flow_reach ex_config 4 8 ex_after_read ∧ ∀ order rtt now, ∃ v,
  MaxDataFrame v ∈ (QueueAll (fl_queue ex_after_read) order (fl_rstr ex_after_read) (fl_rconn ex_after_read) rtt now).2 ∧ 4 < v.
Proof.
  destruct (flow_control_live ex_config 4 8 ex_after_read ex_config_ok ex_reach) as [HC _].
  destruct HC as [(v & Hv & _)|HC]; [vm_compute; reflexivity|vm_compute; reflexivity|by apply not_elem_of_nil in Hv|].
  exact (conj ex_reach HC).
Defined.
