(* ===== verification/QuicFlowControlBounds.v ===== *)
(** * The receiver's memory

    Whatever a peer sends, as long as no error closes the connection the data
    received and not yet read is within the configured windows. *)

From stdpp Require Import base list numbers strings gmap.
From Stdlib Require Import ZArith Lia.
From S2P Require Import Prelude QuicProtocol QuicFrames QuicRtt QuicFlowControl QuicFlowControlTheorems QuicFlowControlSystem.

Record recv_state := mk_recv {
  rv_conn : connectionFlowController;
  rv_streams : gmap Z streamFlowController;
  rv_queue : windowUpdateQueue;
}.

#[global] Instance recv_state_fields : Fields recv_state := λ s, mk_recv (rv_conn s) (rv_streams s) (rv_queue s).

Definition recv_init (g : flow_config) : recv_state := {|
  rv_conn := NewConnectionFlowController (cfg_connWindow g) (cfg_maxConnWindow g);
  rv_streams := ∅;
  rv_queue := newWindowUpdateQueue;
|}.

(** The peer chooses the offsets and the final bits. *)
Inductive recv_step (g : flow_config) : recv_state → recv_state → Prop :=
| recv_open s id initialSendWindow :
    rv_streams s !! id = None →
    recv_step g s (s <| rv_streams ::= <[id := NewStreamFlowController id (cfg_streamWindow g) (cfg_maxStreamWindow g) initialSendWindow]> |>)
| recv_frame s id off fin r r' conn' :
    rv_streams s !! id = Some r → UpdateHighestReceived r (rv_conn s) off fin = (r', conn', None) →
    recv_step g s (s <| rv_streams ::= <[id := r']> |> <| rv_conn := conn' |>)
| recv_read s id r n now r' conn' queue :
    rv_streams s !! id = Some r → 0 < n ≤ fc_highestReceived (sc_base r) - fc_bytesRead (sc_base r) →
    AddBytesRead r (rv_conn s) n now = (r', conn', queue) →
    recv_step g s (s <| rv_streams ::= <[id := r']> |> <| rv_conn := conn' |> <| rv_queue ::= λ q, notify q id queue |>)
| recv_abandon s id r now conn' queueConn :
    rv_streams s !! id = Some r → Abandon r (rv_conn s) now = (conn', queueConn) →
    recv_step g s (s <| rv_conn := conn' |> <| rv_queue ::= λ q, notify q id (false, queueConn) |>)
| recv_queue_all s order rtt now q' streams' conn' frames :
    QueueAll (rv_queue s) order (rv_streams s) (rv_conn s) rtt now = (q', streams', conn', frames) →
    recv_step g s (s <| rv_queue := q' |> <| rv_streams := streams' |> <| rv_conn := conn' |>).

Inductive recv_reach (g : flow_config) : recv_state → Prop :=
| recv_reach_init : recv_reach g (recv_init g)
| recv_reach_step s s' : recv_reach g s → recv_step g s s' → recv_reach g s'.

(** What a controller of maximal window [max] keeps. *)
Definition bounded (max : Z) (c : baseFlowController) : Prop :=
  window_ok c ∧ fc_maxReceiveWindowSize c = max ∧ fc_highestReceived c ≤ fc_receiveWindow c ≤ fc_bytesRead c + max.

Definition recv_inv (g : flow_config) (conn : connectionFlowController) (streams : gmap Z streamFlowController) : Prop :=
  bounded (cfg_maxConnWindow g) conn ∧ fc_highestReceived conn = total (λ c, fc_highestReceived (sc_base c)) streams ∧
  ∀ id r, streams !! id = Some r → bounded (cfg_maxStreamWindow g) (sc_base r).

Lemma recv_inv_insert g conn conn' streams id r r' : recv_inv g conn streams → streams !! id = Some r →
  bounded (cfg_maxConnWindow g) conn' → bounded (cfg_maxStreamWindow g) (sc_base r') →
  fc_highestReceived conn' - fc_highestReceived conn = fc_highestReceived (sc_base r') - fc_highestReceived (sc_base r) →
  recv_inv g conn' (<[id := r']> streams).
Proof.
  intros (Hc & Ht & Hs) Hr Hc' Hr' Hd. split; [done|]. split.
  - rewrite (total_insert _ _ _ r) by done. lia.
  - intros j x Hj. destruct (decide (j = id)) as [->|Hne].
    + rewrite lookup_insert_eq in Hj. by injection Hj as <-.
    + rewrite lookup_insert_ne in Hj by done. by apply (Hs j).
Qed.

Lemma bounded_adjusted max c c' : bounded max c → adjusted c c' →
  fc_receiveWindow c' = fc_receiveWindow c ∨
  fc_receiveWindow c ≤ fc_receiveWindow c' ∧ fc_receiveWindow c' = fc_bytesRead c + fc_receiveWindowSize c' → bounded max c'.
Proof. unfold bounded, adjusted. intros (? & ? & ?) (? & ? & ? & ? & ? & ? & [? ?]) ?. split_and!; [done|lia..]. Qed.

Lemma bounded_getWindowUpdate max c rtt now : bounded max c → bounded max (getWindowUpdate c rtt now).1.
Proof.
  intros Hc. destruct (getWindowUpdate c rtt now) as [c' off] eqn:E. apply getWindowUpdate_spec in E as [Ha E]; [|apply Hc].
  apply (bounded_adjusted max c); [done|done|]. cbn. destruct (_ <=? _); lia.
Qed.

Lemma recv_inv_update g conn streams id r rtt now r' conn' off : recv_inv g conn streams → streams !! id = Some r →
  GetWindowUpdate r conn rtt now = (r', conn', off) → recv_inv g conn' (<[id := r']> streams).
Proof.
  intros Hinv Hr HG. pose proof Hinv as (Hc & _ & Hs). specialize (Hs id r Hr).
  apply GetWindowUpdate_spec in HG as (HA & HB & HW & _ & HG); [|apply Hs|apply Hc].
  apply (recv_inv_insert g conn conn' streams id r r'); [done|done|..].
  - apply (bounded_adjusted _ conn); auto.
  - apply (bounded_adjusted _ (sc_base r)); [done|done|]. destruct (negb _ && _); lia.
  - unfold adjusted in *. lia.
Qed.

Lemma recv_inv_queue_streams g ids rtt now : ∀ q conn streams, recv_inv g conn streams →
  let '(_, streams', conn', _) := queue_streams q ids streams conn rtt now in recv_inv g conn' streams'.
Proof.
  induction ids as [|id ids IH]; cbn [queue_streams]; intros q conn streams Hinv; [done|].
  destruct (streams !! id) as [r|] eqn:Hr; [|by apply IH].
  destruct (GetWindowUpdate r conn rtt now) as [[r1 conn1] off] eqn:EG.
  specialize (IH (q <| wq_queue ::= λ s, s ∖ {[id]} |>) conn1 (<[id := r1]> streams) (recv_inv_update _ _ _ _ _ _ _ _ _ _ Hinv Hr EG)).
  by destruct (queue_streams _ _ _ _ _ _) as [[[q2 streams2] conn2] frames2].
Qed.

Lemma recv_inv_queue_all g q order conn streams rtt now q' streams' conn' frames : recv_inv g conn streams →
  QueueAll q order streams conn rtt now = (q', streams', conn', frames) → recv_inv g conn' streams'.
Proof.
  intros Hinv. pose proof Hinv as (Hc & Ht & Hs). unfold QueueAll, conn_GetWindowUpdate. destruct (wq_queuedConn q).
  - pose proof (bounded_getWindowUpdate _ _ rtt now Hc) as HB. pose proof (getWindowUpdate_spec conn rtt now) as HG.
    destruct (getWindowUpdate _ _ _) as [conn1 off]. specialize (HG _ _ (proj1 Hc) eq_refl) as [(_ & _ & _ & Hh & _) _].
    pose proof (recv_inv_queue_streams g order rtt now (q <| wq_queuedConn := false |>) conn1 streams) as HI.
    destruct (queue_streams _ _ _ _ _ _) as [[[q2 streams2] conn2] frames2]. intros [= <- <- <- _]. apply HI.
    split; [done|]. split; [lia|done].
  - pose proof (recv_inv_queue_streams g order rtt now q conn streams Hinv) as HI.
    destruct (queue_streams _ _ _ _ _ _) as [[[q2 streams2] conn2] frames2]. by intros [= <- <- <- _].
Qed.

Lemma bounded_addBytesRead max c n now : 0 ≤ n → bounded max c → bounded max (addBytesRead c n now).
Proof.
  intros Hn. destruct (addBytesRead_spec c n now) as (H1 & H2 & H3 & H4 & H5). unfold bounded, window_ok. intros (? & ? & ?).
  split_and!; lia.
Qed.

(** An accepted frame. *)
Lemma UpdateHighestReceived_accepted g conn streams id r off fin r' conn' : recv_inv g conn streams → streams !! id = Some r →
  UpdateHighestReceived r conn off fin = (r', conn', None) → recv_inv g conn' (<[id := r']> streams).
Proof.
  intros Hinv Hr HU. pose proof Hinv as (Hc & _ & Hs). specialize (Hs id r Hr).
  assert (bounded (cfg_maxConnWindow g) conn' ∧ bounded (cfg_maxStreamWindow g) (sc_base r') ∧
    fc_highestReceived conn' - fc_highestReceived conn = fc_highestReceived (sc_base r') - fc_highestReceived (sc_base r)) as (? & ? & ?).
  { unfold UpdateHighestReceived, IncrementHighestReceived, checkFlowControlViolation in HU. unfold bounded, window_ok in *.
    repeat case_match; simplify_eq; cbn in *; lia. }
  by apply (recv_inv_insert g conn conn' streams id r r').
Qed.

Lemma recv_reach_inv g s : config_ok g → recv_reach g s → recv_inv g (rv_conn s) (rv_streams s).
Proof.
  intros Hg. unfold config_ok in Hg. induction 1 as [|s s' _ IH Hstep].
  { unfold recv_inv, bounded, window_ok. cbn. split_and!; try lia; [done|]. intros id r Hr. by rewrite lookup_empty in Hr. }
  pose proof IH as (Hc & Ht & Hs). destruct Hstep as [s id x Hid|s id off fin r r' conn' Hr HU|s id r n now r' conn' queue Hr Hn HA|s id r now conn' qc Hr HA|s order rtt now q' streams' conn' frames HQ]; cbn.
  - split; [done|]. rewrite total_insert_new by done. split; [cbn; lia|]. intros j d Hj. destruct (decide (j = id)) as [->|Hne].
    + rewrite lookup_insert_eq in Hj. injection Hj as <-. unfold bounded, window_ok. cbn. lia.
    + rewrite lookup_insert_ne in Hj by done. by apply (Hs j).
  - by apply (UpdateHighestReceived_accepted g (rv_conn s) (rv_streams s) id r off fin).
  - unfold AddBytesRead, conn_AddBytesRead in HA. injection HA as <- <- _.
    apply (recv_inv_insert g (rv_conn s) _ _ id r); [done|done|apply bounded_addBytesRead; [lia|done]|..].
    + cbn. apply bounded_addBytesRead; [lia|by apply (Hs id)].
    + destruct (addBytesRead_spec (sc_base r) n now) as (_ & H2 & _), (addBytesRead_spec (rv_conn s) n now) as (_ & H2' & _).
      cbn -[addBytesRead]. lia.
  - unfold Abandon, conn_AddBytesRead in HA. destruct (0 <? _) eqn:E; injection HA as <- _; [|done].
    destruct (addBytesRead_spec (rv_conn s) (fc_highestReceived (sc_base r) - fc_bytesRead (sc_base r)) now) as (_ & H2 & _).
    split; [apply bounded_addBytesRead; [lia|done]|]. split; [lia|done].
  - by apply (recv_inv_queue_all g (rv_queue s) order (rv_conn s) (rv_streams s) rtt now q' streams' conn' frames).
Qed.

(** C16. Whatever offsets a peer sends, as long as the flow controllers report no
    error, the bytes received and not yet read on a stream are within the maximal
    window of a stream, and those of all streams together that the application
    has neither read nor given up are within that of the connection. *)
Theorem receive_buffer_bounded g s : config_ok g → recv_reach g s →
  (∀ id r, rv_streams s !! id = Some r → fc_highestReceived (sc_base r) - fc_bytesRead (sc_base r) ≤ cfg_maxStreamWindow g) ∧
  total (λ c, fc_highestReceived (sc_base c)) (rv_streams s) - fc_bytesRead (rv_conn s) ≤ cfg_maxConnWindow g.
Proof.
  intros Hg Hs. destruct (recv_reach_inv _ _ Hg Hs) as (Hc & Ht & Hst). split.
  - intros id r Hr. destruct (Hst id r Hr) as (_ & _ & ?). lia.
  - destruct Hc as (_ & _ & ?). lia.
Qed.

Definition ex_recv_open : recv_state := (recv_init ex_config) <| rv_streams ::= <[0 := ex_stream]> |>.
Definition ex_recv : recv_state :=
  ex_recv_open <| rv_streams ::= <[0 := ex_received]> |> <| rv_conn := (IncrementHighestReceived (rv_conn ex_recv_open) 4).1 |>.

Lemma receive_buffer_bounded_witness : fc_highestReceived (sc_base ex_received) - fc_bytesRead (sc_base ex_received) ≤ 8.
Proof.
  refine (proj1 (receive_buffer_bounded ex_config ex_recv ex_config_ok _) 0 ex_received eq_refl).
  apply (recv_reach_step _ ex_recv_open); [apply (recv_reach_step _ (recv_init ex_config)); [constructor|]|].
  - by apply (recv_open ex_config (recv_init ex_config) 0 4).
  - apply (recv_frame ex_config ex_recv_open 0 4 false ex_stream); [done|vm_compute; reflexivity].
Defined.
