(* ===== verification/QuicSendStream.v ===== *)
(** * The sending half of a stream ([send_stream.go], [stream.go])

    [Write] hands the application's data to the stream and waits until it is sent;
    [popStreamFrame] makes the frames of a packet; [frameAcked] and
    [queueRetransmission] tell what became of them.

    The operations run under the stream's mutex.  The flow controllers, which other
    parts of the connection use too, are arguments and results; the calls of the
    stream's sender are listed as events in their order.  [Write] waits for
    [writeChan]: its loop is modelled by its rounds.  [dataForWriting] is never an
    empty non-nil slice, so that the empty list stands for nil.  The memory pool is
    left out but for the size of its buffers; contexts are a flag. *)

From stdpp Require Import base list numbers strings.
From Stdlib Require Import ZArith Lia.
From S2P Require Import Prelude QuicProtocol QuicFrames QuicFlowControl QuicFec.

(** The calls of a [streamSender]. *)
Inductive stream_event :=
| queueControlFrame (f : Frame)
| onHasStreamData (id : Z)
| onStreamCompleted (id : Z).

Record sendStream := mk_sendStream {
  ss_numOutstandingFrames : Z;
  ss_retransmissionQueue : list StreamFrame;
  ss_ctxDone : bool;
  ss_streamID : Z;
  ss_writeOffset : Z;
  ss_cancelWriteErr : option go_error;
  ss_closeForShutdownErr : option go_error;
  ss_closedForShutdown : bool;
  ss_finishedWriting : bool;
  ss_canceledWrite : bool;
  ss_finSent : bool;
  ss_completed : bool;
  ss_dataForWriting : list Z;
  ss_nextFrame : option StreamFrame;
  ss_writeChan : bool;
  ss_deadline : Z;
  ss_fecHandler : FecHandler;
}.

#[global] Instance sendStream_fields : Fields sendStream := λ s,
  mk_sendStream (ss_numOutstandingFrames s) (ss_retransmissionQueue s) (ss_ctxDone s) (ss_streamID s) (ss_writeOffset s)
    (ss_cancelWriteErr s) (ss_closeForShutdownErr s) (ss_closedForShutdown s) (ss_finishedWriting s) (ss_canceledWrite s)
    (ss_finSent s) (ss_completed s) (ss_dataForWriting s) (ss_nextFrame s) (ss_writeChan s) (ss_deadline s) (ss_fecHandler s).

Definition newSendStream (streamID : Z) (fecHandler : FecHandler) : sendStream := {|
  ss_numOutstandingFrames := 0; ss_retransmissionQueue := []; ss_ctxDone := false; ss_streamID := streamID; ss_writeOffset := 0;
  ss_cancelWriteErr := None; ss_closeForShutdownErr := None; ss_closedForShutdown := false; ss_finishedWriting := false;
  ss_canceledWrite := false; ss_finSent := false; ss_completed := false; ss_dataForWriting := []; ss_nextFrame := None;
  ss_writeChan := false; ss_deadline := 0; ss_fecHandler := fecHandler
|}.

Definition errDeadline : go_error := GoError "deadline exceeded".

(** A non-blocking send on a channel of one element. *)
Definition signalWrite (s : sendStream) : sendStream := s <| ss_writeChan := true |>.

(** [f.Data[:n]] of a frame from the pool. *)
Definition pool_slice (n : Z) : outcome unit :=
  if (0 <=? n) && (n <=? MaxPacketBufferSize) then Ret tt else Panic "slice bounds out of range".

(** ** Write *)

Definition canBufferStreamFrame (s : sendStream) : bool :=
  let l := match ss_nextFrame s with Some f => StreamFrame_DataLen f | None => 0 end in
  l + zlen (ss_dataForWriting s) <=? MaxPacketBufferSize.

(** Up to the loop: the stream and, if [Write] returns, what it returns. *)
Definition Write_begin (s : sendStream) (p : list Z) (now : Z) : sendStream * option (Z * option go_error) :=
  if ss_finishedWriting s then (s, Some (0, Some (GoError "write on closed stream")))
  else if ss_canceledWrite s then (s, Some (0, ss_cancelWriteErr s))
  else if bool_decide (is_Some (ss_closeForShutdownErr s)) then (s, Some (0, ss_closeForShutdownErr s))
  else if negb (ss_deadline s =? 0) && negb (now <? ss_deadline s) then (s, Some (0, Some errDeadline))
  else if zlen p =? 0 then (s, Some (0, None))
  else (s <| ss_dataForWriting := p |>, None).

(** What [Write] returns after the loop. *)
Definition write_end (s : sendStream) (p : list Z) (bytesWritten : Z) : Z * option go_error :=
  if bytesWritten =? zlen p then (bytesWritten, None)
  else match ss_closeForShutdownErr s with
       | Some e => (bytesWritten, Some e)
       | None => (bytesWritten, ss_cancelWriteErr s)
       end.

(** The data of [dataForWriting] is moved to [nextFrame]. *)
Definition buffer_data (s : sendStream) : outcome sendStream :=
  match ss_nextFrame s with
  | None =>
      _ ← pool_slice (zlen (ss_dataForWriting s));
      Ret (s <| ss_nextFrame := Some {| sf_StreamID := ss_streamID s; sf_Offset := ss_writeOffset s; sf_Data := ss_dataForWriting s;
                                        sf_Fin := false; sf_DataLenPresent := true |} |>
             <| ss_dataForWriting := [] |>)
  | Some f =>
      _ ← pool_slice (zlen (sf_Data f) + zlen (ss_dataForWriting s));
      Ret (s <| ss_nextFrame := Some {| sf_StreamID := sf_StreamID f; sf_Offset := sf_Offset f; sf_Data := sf_Data f ++ ss_dataForWriting s;
                                        sf_Fin := sf_Fin f; sf_DataLenPresent := sf_DataLenPresent f |} |>
             <| ss_dataForWriting := [] |>)
  end.

(** A round of the loop of [Write p]: the stream, the call of the sender, and what
    [Write] returns; it waits for [writeChan] or the deadline otherwise. *)
Definition Write_round (s : sendStream) (p : list Z) (notifiedSender : bool) (now : Z) :
    outcome (sendStream * list stream_event * option (Z * option go_error)) :=
  let notify := if notifiedSender then [] else [onHasStreamData (ss_streamID s)] in
  if canBufferStreamFrame s && (0 <? zlen (ss_dataForWriting s)) then
    s ← buffer_data s;
    Ret (s, notify, Some (write_end s p (zlen p)))
  else
    let bytesWritten := zlen p - zlen (ss_dataForWriting s) in
    if negb (ss_deadline s =? 0) && negb (now <? ss_deadline s) then
      Ret (s <| ss_dataForWriting := [] |>, [], Some (bytesWritten, Some errDeadline))
    else if (zlen (ss_dataForWriting s) =? 0) || ss_canceledWrite s || ss_closedForShutdown s then
      Ret (s, [], Some (write_end s p bytesWritten))
    else Ret (s, notify, None).

(** The wake-up: the channel is read. *)
Definition Write_wake (s : sendStream) : sendStream := s <| ss_writeChan := false |>.

(** ** Frames *)

Definition getDataForWriting (s : sendStream) (f : StreamFrame) (maxBytes : Z) : outcome (sendStream * StreamFrame) :=
  let with_data d := {| sf_StreamID := sf_StreamID f; sf_Offset := sf_Offset f; sf_Data := d; sf_Fin := sf_Fin f;
                        sf_DataLenPresent := sf_DataLenPresent f |} in
  if zlen (ss_dataForWriting s) <=? maxBytes then
    _ ← pool_slice (zlen (ss_dataForWriting s));
    Ret (signalWrite (s <| ss_dataForWriting := [] |>), with_data (ss_dataForWriting s))
  else
    _ ← pool_slice maxBytes;
    data ← slice (ss_dataForWriting s) 0 maxBytes;
    rest ← slice (ss_dataForWriting s) maxBytes (zlen (ss_dataForWriting s));
    let s := s <| ss_dataForWriting := rest |> in
    Ret (if canBufferStreamFrame s then signalWrite s else s, with_data data).

Definition popNewStreamFrameWithoutBuffer (s : sendStream) (f : StreamFrame) (maxBytes sendWindow : Z) :
    outcome (sendStream * StreamFrame * bool) :=
  maxDataLen ← StreamFrame_MaxDataLen f maxBytes;
  '(s, f) ← (if maxDataLen =? 0 then Ret (s, f) else getDataForWriting s f (MinByteCount maxDataLen sendWindow));
  Ret (s, f, negb (zlen (ss_dataForWriting s) =? 0) || bool_decide (is_Some (ss_nextFrame s)) || ss_finishedWriting s).

Definition popNewStreamFrame (s : sendStream) (maxBytes sendWindow : Z) : outcome (sendStream * option StreamFrame * bool) :=
  match ss_nextFrame s with
  | Some nextFrame =>
      let s := s <| ss_nextFrame := None |> in
      m ← StreamFrame_MaxDataLen nextFrame maxBytes;
      let maxDataLen := MinByteCount sendWindow m in
      '(s, nextFrame) ←
        (if maxDataLen <? StreamFrame_DataLen nextFrame then
           _ ← pool_slice (StreamFrame_DataLen nextFrame - maxDataLen);
           rest ← slice (sf_Data nextFrame) maxDataLen (zlen (sf_Data nextFrame));
           data ← slice (sf_Data nextFrame) 0 maxDataLen;
           Ret (s <| ss_nextFrame := Some {| sf_StreamID := ss_streamID s; sf_Offset := ss_writeOffset s + maxDataLen; sf_Data := rest;
                                             sf_Fin := false; sf_DataLenPresent := true |} |>,
                {| sf_StreamID := sf_StreamID nextFrame; sf_Offset := sf_Offset nextFrame; sf_Data := data;
                   sf_Fin := sf_Fin nextFrame; sf_DataLenPresent := sf_DataLenPresent nextFrame |})
         else Ret (signalWrite s, nextFrame));
      Ret (s, Some nextFrame, bool_decide (is_Some (ss_nextFrame s)) || negb (zlen (ss_dataForWriting s) =? 0))
  | None =>
      let f := {| sf_StreamID := ss_streamID s; sf_Offset := ss_writeOffset s; sf_Data := []; sf_Fin := false; sf_DataLenPresent := true |} in
      '(s, f, hasMoreData) ← popNewStreamFrameWithoutBuffer s f maxBytes sendWindow;
      if (zlen (sf_Data f) =? 0) && negb (sf_Fin f) then Ret (s, None, hasMoreData) else Ret (s, Some f, hasMoreData)
  end.

(** The frame at the head of the queue, or the part of it that fits. *)
Definition maybeGetRetransmission (s : sendStream) (maxBytes : Z) : outcome (sendStream * option StreamFrame * bool) :=
  f ← index (ss_retransmissionQueue s) 0;
  '(newFrame, needsSplit, f) ← StreamFrame_MaybeSplitOffFrame f maxBytes;
  if needsSplit : bool then Ret (s <| ss_retransmissionQueue ::= λ q, f :: tail q |>, newFrame, true)
  else
    let s := s <| ss_retransmissionQueue ::= tail |> in
    Ret (s, Some f, 0 <? zlen (ss_retransmissionQueue s)).

Section SendStream.
Context (FecEnable : bool).

(** A frame that is not a retransmission: the frame, whether there is more data,
    the flow controllers and the events. *)
Definition pop_new (s : sendStream) (fc : streamFlowController) (conn : connectionFlowController) (maxBytes : Z) :
    outcome (sendStream * streamFlowController * connectionFlowController * list stream_event * (option StreamFrame * bool)) :=
  if FecEnable && (0 <? GetFecTransmissionQueueLen (ss_fecHandler s)) then Ret (s, fc, conn, [], (None, true)) else
  if (zlen (ss_dataForWriting s) =? 0) && bool_decide (ss_nextFrame s = None) then
    if ss_finishedWriting s && negb (ss_finSent s) then
      Ret (s <| ss_finSent := true |>, fc, conn, [],
           (Some {| sf_StreamID := ss_streamID s; sf_Offset := ss_writeOffset s; sf_Data := []; sf_Fin := true; sf_DataLenPresent := true |}, false))
    else Ret (s, fc, conn, [], (None, false))
  else
    let sendWindow := SendWindowSize fc conn in
    if sendWindow =? 0 then
      let '(b, (isBlocked, offset)) := IsNewlyBlocked (sc_base fc) in
      if isBlocked then
        Ret (s, fc <| sc_base := b |>, conn, [queueControlFrame (StreamDataBlockedFrame (ss_streamID s) offset)], (None, false))
      else Ret (s, fc <| sc_base := b |>, conn, [], (None, true))
    else
      '(s, f, hasMoreData) ← popNewStreamFrame s maxBytes sendWindow;
      match f with
      | None => Panic "invalid memory address or nil pointer dereference"
      | Some f =>
          let '(s, (fc, conn)) :=
            if 0 <? StreamFrame_DataLen f then (s <| ss_writeOffset ::= λ o, o + StreamFrame_DataLen f |>, AddBytesSent fc conn (StreamFrame_DataLen f))
            else (s, (fc, conn)) in
          let fin := ss_finishedWriting s && (zlen (ss_dataForWriting s) =? 0) && bool_decide (ss_nextFrame s = None) && negb (ss_finSent s) in
          let f := {| sf_StreamID := sf_StreamID f; sf_Offset := sf_Offset f; sf_Data := sf_Data f; sf_Fin := fin;
                      sf_DataLenPresent := sf_DataLenPresent f |} in
          Ret (if fin then s <| ss_finSent := true |> else s, fc, conn, [], (Some f, hasMoreData))
      end.

(** The last flag: the frame is a retransmission. *)
Definition popNewOrRetransmittedStreamFrame (s : sendStream) (fc : streamFlowController) (conn : connectionFlowController) (maxBytes : Z) :
    outcome (sendStream * streamFlowController * connectionFlowController * list stream_event * (option StreamFrame * bool * bool)) :=
  if ss_canceledWrite s || bool_decide (is_Some (ss_closeForShutdownErr s)) then Ret (s, fc, conn, [], (None, false, false)) else
  '(s, f, hasMoreRetransmissions) ←
    (if 0 <? zlen (ss_retransmissionQueue s) then maybeGetRetransmission s maxBytes else Ret (s, None, false));
  match f with
  | Some f => Ret (s, fc, conn, [], (Some f, true, true))
  | None =>
      if hasMoreRetransmissions : bool then Ret (s, fc, conn, [], (None, true, true))
      else
        '(s, fc, conn, events, (f, hasMoreData)) ← pop_new s fc conn maxBytes;
        Ret (s, fc, conn, events, (f, hasMoreData, false))
  end.

(** A STREAM or a FEC frame. *)
Inductive popped := PoppedStream (f : StreamFrame) | PoppedFec (f : FecFrame).

Definition popStreamFrame (s : sendStream) (fc : streamFlowController) (conn : connectionFlowController) (maxBytes : Z) :
    outcome (sendStream * streamFlowController * connectionFlowController * list stream_event * (option popped * bool)) :=
  '(s, fc, conn, events, (f, hasMoreData, retransmission)) ← popNewOrRetransmittedStreamFrame s fc conn maxBytes;
  match f with
  | Some f =>
      let s := s <| ss_numOutstandingFrames ::= λ n, n + 1 |> in
      s ← (if negb retransmission && FecEnable then h ← PushToEncode (ss_fecHandler s) f; Ret (s <| ss_fecHandler := h |>) else Ret s);
      Ret (s, fc, conn, events, (Some (PoppedStream f), hasMoreData))
  | None =>
      if FecEnable && negb retransmission && (0 <? GetFecTransmissionQueueLen (ss_fecHandler s)) then
        let '(h, fecFrame) := PopFecFrame (ss_fecHandler s) maxBytes in
        let s := s <| ss_fecHandler := h |> in
        match fecFrame with
        | Some fecFrame => Ret (signalWrite s, fc, conn, events, (Some (PoppedFec fecFrame), hasMoreData))
        | None => Ret (s, fc, conn, events, (None, hasMoreData))
        end
      else Ret (s, fc, conn, events, (None, hasMoreData))
  end.
End SendStream.

Definition hasData (s : sendStream) : bool := 0 <? zlen (ss_dataForWriting s).

(** ** Acknowledgements, losses and the end of the stream *)

Definition isNewlyCompleted (s : sendStream) : sendStream * bool :=
  let completed := (ss_finSent s || ss_canceledWrite s) && (ss_numOutstandingFrames s =? 0) && (zlen (ss_retransmissionQueue s) =? 0) in
  if completed && negb (ss_completed s) then (s <| ss_completed := true |>, true) else (s, false).

Definition negativeFrames : string := "numOutStandingFrames negative".

Definition frameAcked (s : sendStream) : outcome (sendStream * list stream_event) :=
  if ss_canceledWrite s then Ret (s, []) else
  let s := s <| ss_numOutstandingFrames ::= λ n, n - 1 |> in
  if ss_numOutstandingFrames s <? 0 then Panic negativeFrames else
  let '(s, newlyCompleted) := isNewlyCompleted s in
  Ret (s, if newlyCompleted then [onStreamCompleted (ss_streamID s)] else []).

Definition queueRetransmission (s : sendStream) (f : StreamFrame) : outcome (sendStream * list stream_event) :=
  let sf := {| sf_StreamID := sf_StreamID f; sf_Offset := sf_Offset f; sf_Data := sf_Data f; sf_Fin := sf_Fin f; sf_DataLenPresent := true |} in
  if ss_canceledWrite s then Ret (s, []) else
  let s := s <| ss_retransmissionQueue ::= λ q, q ++ [sf] |> <| ss_numOutstandingFrames ::= λ n, n - 1 |> in
  if ss_numOutstandingFrames s <? 0 then Panic negativeFrames else
  Ret (s, [onHasStreamData (ss_streamID s)]).

Definition Close (s : sendStream) : sendStream * list stream_event * option go_error :=
  if ss_closedForShutdown s then (s, [], None)
  else if ss_canceledWrite s then (s, [], Some (GoError "close called for canceled stream"))
  else (s <| ss_ctxDone := true |> <| ss_finishedWriting := true |>, [onHasStreamData (ss_streamID s)], None).

Definition cancelWriteImpl (s : sendStream) (errorCode : Z) (writeErr : go_error) : sendStream * list stream_event :=
  if ss_canceledWrite s then (s, []) else
  let s := s <| ss_ctxDone := true |> <| ss_canceledWrite := true |> <| ss_cancelWriteErr := Some writeErr |>
             <| ss_numOutstandingFrames := 0 |> <| ss_retransmissionQueue := [] |> in
  let '(s, newlyCompleted) := isNewlyCompleted s in
  (signalWrite s, queueControlFrame (ResetStreamFrame (ss_streamID s) errorCode (ss_writeOffset s)) ::
                  (if newlyCompleted then [onStreamCompleted (ss_streamID s)] else [])).

Definition CancelWrite (s : sendStream) (errorCode : Z) : sendStream * list stream_event :=
  cancelWriteImpl s errorCode (GoError "Write on stream canceled").

Definition handleStopSendingFrame (s : sendStream) (errorCode : Z) : sendStream * list stream_event :=
  cancelWriteImpl s errorCode (GoError "stream canceled").

Definition updateSendWindow (s : sendStream) (fc : streamFlowController) (limit : Z) : streamFlowController * list stream_event :=
  let hasStreamData := negb (zlen (ss_dataForWriting s) =? 0) || bool_decide (is_Some (ss_nextFrame s)) in
  (fc <| sc_base ::= λ b, UpdateSendWindow b limit |>, if hasStreamData then [onHasStreamData (ss_streamID s)] else []).

Definition SetWriteDeadline (s : sendStream) (t : Z) : sendStream := signalWrite (s <| ss_deadline := t |>).

Definition send_closeForShutdown (s : sendStream) (err : go_error) : sendStream :=
  signalWrite (s <| ss_ctxDone := true |> <| ss_closedForShutdown := true |> <| ss_closeForShutdownErr := Some err |>).
