(* ===== verification/QuicSendStreamTheorems.v ===== *)
(** * A send stream loses nothing

    Runs of the sending half of a stream: the application writes, closes or cancels,
    packets take frames, frames are acknowledged or declared lost in any order.
    Every frame carries the bytes written at its offset; until a byte is
    acknowledged, a frame with it is on its way or queued; the stream is completed
    only when everything has been acknowledged. *)

From stdpp Require Import base list numbers strings.
From Stdlib Require Import ZArith Lia.
From S2P Require Import Prelude QuicProtocol QuicFrames QuicFlowControl QuicFlowControlTheorems QuicFec QuicSendStream QuicFrameCodec QuicSplit QuicFecTheorems.

(** ** Runs *)

(** [sy_written]: the bytes the application has handed over; [sy_writer]: the call
    of [Write] under way, whether the sender was notified, and the number of bytes
    handed over before; [sy_inflight], [sy_acked]: the frames on their way and
    those acknowledged; [sy_sent]: every frame. *)
Record send_sys := mk_sys {
  sy_s : sendStream;
  sy_fc : streamFlowController;
  sy_written : list Z;
  sy_writer : option (list Z * bool * Z);
  sy_inflight : list StreamFrame;
  sy_acked : list StreamFrame;
  sy_sent : list StreamFrame;
}.

#[global] Instance send_sys_fields : Fields send_sys := λ y,
  mk_sys (sy_s y) (sy_fc y) (sy_written y) (sy_writer y) (sy_inflight y) (sy_acked y) (sy_sent y).

Definition send_init (id : Z) (h : FecHandler) (receiveWindow maxReceiveWindow initialSendWindow : Z) : send_sys := {|
  sy_s := newSendStream id h;
  sy_fc := NewStreamFlowController id receiveWindow maxReceiveWindow initialSendWindow;
  sy_written := [];
  sy_writer := None;
  sy_inflight := [];
  sy_acked := [];
  sy_sent := [];
|}.

Inductive send_step (FecEnable : bool) : send_sys → send_sys → Prop :=
| send_begin y p now s' r :
    sy_writer y = None → Write_begin (sy_s y) p now = (s', r) →
    send_step FecEnable y match r with
                | Some _ => y <| sy_s := s' |>
                | None => y <| sy_s := s' |> <| sy_written ::= λ w, w ++ p |> <| sy_writer := Some (p, false, zlen (sy_written y)) |>
                end
| send_round y p notified base now s' events r :
    sy_writer y = Some (p, notified, base) → Write_round (sy_s y) p notified now = Ret (s', events, r) →
    send_step FecEnable y match r with
                | Some (n, _) => y <| sy_s := s' |> <| sy_written ::= take (Z.to_nat (base + n)) |> <| sy_writer := None |>
                | None => y <| sy_s := s' |> <| sy_writer := Some (p, true, base) |>
                end
| send_wake y : send_step FecEnable y (y <| sy_s ::= Write_wake |>)
| send_pop y conn maxBytes s' fc' conn' events r more :
    popStreamFrame FecEnable (sy_s y) (sy_fc y) conn maxBytes = Ret (s', fc', conn', events, (r, more)) →
    send_step FecEnable y match r with
                | Some (PoppedStream f) => y <| sy_s := s' |> <| sy_fc := fc' |> <| sy_inflight ::= λ l, l ++ [f] |> <| sy_sent ::= λ l, l ++ [f] |>
                | _ => y <| sy_s := s' |> <| sy_fc := fc' |>
                end
| send_acked y l1 f l2 s' events :
    sy_inflight y = l1 ++ f :: l2 → frameAcked (sy_s y) = Ret (s', events) →
    send_step FecEnable y (y <| sy_s := s' |> <| sy_inflight := l1 ++ l2 |> <| sy_acked ::= λ l, l ++ [f] |>)
| send_lost y l1 f l2 s' events :
    sy_inflight y = l1 ++ f :: l2 → queueRetransmission (sy_s y) f = Ret (s', events) →
    send_step FecEnable y (y <| sy_s := s' |> <| sy_inflight := l1 ++ l2 |>)
| send_close y : send_step FecEnable y (y <| sy_s ::= λ s, (Close s).1.1 |>)
| send_cancel y code : send_step FecEnable y (y <| sy_s ::= λ s, (CancelWrite s code).1 |>)
| send_stop_sending y code : send_step FecEnable y (y <| sy_s ::= λ s, (handleStopSendingFrame s code).1 |>)
| send_window y limit : send_step FecEnable y (y <| sy_fc ::= λ fc, (updateSendWindow (sy_s y) fc limit).1 |>)
| send_deadline y t : send_step FecEnable y (y <| sy_s ::= λ s, SetWriteDeadline s t |>)
| send_shutdown y err : send_step FecEnable y (y <| sy_s ::= λ s, send_closeForShutdown s err |>).

Inductive send_reach (FecEnable : bool) (y0 : send_sys) : send_sys → Prop :=
| send_reach_init : send_reach FecEnable y0 y0
| send_reach_step y y' : send_reach FecEnable y0 y → send_step FecEnable y y' → send_reach FecEnable y0 y'.

(** ** The invariant *)

(** [w] has [data] at offset [off]. *)
Definition at_offset (w : list Z) (off : Z) (data : list Z) : Prop := ∃ a b, w = a ++ data ++ b ∧ zlen a = off.

Definition frame_end (f : StreamFrame) : Z := sf_Offset f + zlen (sf_Data f).
Definition covers (f : StreamFrame) (x : Z) : Prop := sf_Offset f ≤ x < frame_end f.

Definition frame_data (f : option StreamFrame) : list Z := match f with Some f => sf_Data f | None => [] end.
Definition next_data (s : sendStream) : list Z := frame_data (ss_nextFrame s).

Definition frame_ok (y : send_sys) (f : StreamFrame) : Prop :=
  sf_StreamID f = ss_streamID (sy_s y) ∧ at_offset (sy_written y) (sf_Offset f) (sf_Data f) ∧ frame_end f ≤ ss_writeOffset (sy_s y) ∧
  (sf_Fin f = true → ss_finSent (sy_s y) = true ∧ frame_end f = zlen (sy_written y)) ∧ zlen (sf_Data f) ≤ MaxPacketBufferSize.

Definition next_ok (s : sendStream) : Prop :=
  ∀ f, ss_nextFrame s = Some f → sf_StreamID f = ss_streamID s ∧ sf_Offset f = ss_writeOffset s ∧ 0 < zlen (sf_Data f) ≤ MaxPacketBufferSize.

(** The frames that are not done with. *)
Definition kept (y : send_sys) : list StreamFrame := sy_acked y ++ sy_inflight y ++ ss_retransmissionQueue (sy_s y).

Record send_inv (y : send_sys) : Prop := {
  sv_sent : Forall (frame_ok y) (sy_sent y);
  sv_kept : Forall (frame_ok y) (kept y);
  sv_next : next_ok (sy_s y);
  sv_offset : 0 ≤ ss_writeOffset (sy_s y) ≤ zlen (sy_written y);
  sv_content : (ss_canceledWrite (sy_s y) = false ∧ ss_closeForShutdownErr (sy_s y) = None) ∨ is_Some (sy_writer y) →
    ∃ a, sy_written y = a ++ next_data (sy_s y) ++ ss_dataForWriting (sy_s y) ∧ zlen a = ss_writeOffset (sy_s y);
  sv_writer p notified base : sy_writer y = Some (p, notified, base) →
    zlen (sy_written y) = base + zlen p ∧ zlen (ss_dataForWriting (sy_s y)) ≤ zlen p ∧ 0 ≤ base;
  sv_idle : ss_canceledWrite (sy_s y) = false → ss_closeForShutdownErr (sy_s y) = None → sy_writer y = None → ss_dataForWriting (sy_s y) = [];
  sv_fin : ss_finSent (sy_s y) = true → ss_finishedWriting (sy_s y) = true ∧ ss_nextFrame (sy_s y) = None ∧ ss_dataForWriting (sy_s y) = [] ∧
    ss_writeOffset (sy_s y) = zlen (sy_written y);
  sv_cover : ss_canceledWrite (sy_s y) = false →
    (∀ x, 0 ≤ x < ss_writeOffset (sy_s y) → Exists (λ f, covers f x) (kept y)) ∧
    (ss_finSent (sy_s y) = true → Exists (λ f, sf_Fin f = true) (kept y));
  sv_outstanding : ss_canceledWrite (sy_s y) = false → ss_numOutstandingFrames (sy_s y) = zlen (sy_inflight y);
  sv_completed : ss_canceledWrite (sy_s y) = false → ss_completed (sy_s y) = true →
    ss_finSent (sy_s y) = true ∧ sy_inflight y = [] ∧ ss_retransmissionQueue (sy_s y) = [];
  sv_shutdown : ss_closedForShutdown (sy_s y) = true → is_Some (ss_closeForShutdownErr (sy_s y));
  sv_flow : fc_bytesSent (sc_base (sy_fc y)) = ss_writeOffset (sy_s y) ∧ fc_bytesSent (sc_base (sy_fc y)) ≤ fc_sendWindow (sc_base (sy_fc y));
}.

Lemma at_offset_app w off data w' : at_offset w off data → at_offset (w ++ w') off data.
Proof. intros (a & b & -> & <-). exists a, (b ++ w'). by rewrite <- !app_assoc. Qed.

Lemma at_offset_take w off data n : at_offset w off data → off + zlen data ≤ Z.of_nat n → at_offset (take n w) off data.
Proof.
  intros (a & b & -> & <-) Hn. exists a, (take (n - length (a ++ data)) b). split; [|done].
  rewrite app_assoc, take_app, take_ge; [by rewrite <- app_assoc|]. rewrite length_app. unfold zlen in Hn. lia.
Qed.

Lemma at_offset_split w off d1 d2 : at_offset w off (d1 ++ d2) → at_offset w off d1 ∧ at_offset w (off + zlen d1) d2.
Proof.
  intros (a & b & -> & <-). split.
  - exists a, (d2 ++ b). by rewrite <- !app_assoc.
  - exists (a ++ d1), b. rewrite zlen_app, <- !app_assoc. done.
Qed.

Lemma send_init_inv id h w m x : 0 ≤ x → send_inv (send_init id h w m x).
Proof.
  intros Hx. split; cbn; try done; try lia.
  - intros _. by exists [].
  - intros _. split; [intros; lia|done].
Qed.

Lemma frame_ok_mono y y' f : frame_ok y f →
  ss_streamID (sy_s y') = ss_streamID (sy_s y) → ss_writeOffset (sy_s y) ≤ ss_writeOffset (sy_s y') →
  (at_offset (sy_written y) (sf_Offset f) (sf_Data f) → frame_end f ≤ ss_writeOffset (sy_s y) → at_offset (sy_written y') (sf_Offset f) (sf_Data f)) →
  (ss_finSent (sy_s y) = true → ss_finSent (sy_s y') = true ∧ zlen (sy_written y') = zlen (sy_written y)) → frame_ok y' f.
Proof.
  intros (H1 & H2 & H3 & H4 & H5) E1 E2 E3 E4. unfold frame_ok. rewrite E1. split_and!; [done|auto|lia| |done].
  intros Hf. destruct (H4 Hf) as [Hs He]. destruct (E4 Hs) as [? ->]. done.
Qed.

(** ** Write *)

Lemma begin_inv y p now s' r : send_inv y → sy_writer y = None → Write_begin (sy_s y) p now = (s', r) →
  send_inv match r with
           | Some _ => y <| sy_s := s' |>
           | None => y <| sy_s := s' |> <| sy_written ::= λ w, w ++ p |> <| sy_writer := Some (p, false, zlen (sy_written y)) |>
           end.
Proof.
  intros Hinv Hw. unfold Write_begin.
  repeat match goal with |- (if ?b then _ else _) = _ → _ => destruct b eqn:? end;
    intros [= <- <-]; try (destruct y; exact Hinv).
  pose proof Hinv as [V1 V2 V3 V4 V5 V6 V7 V8 V9 V10 V11 V12 V13].
  assert (ss_canceledWrite (sy_s y) = false) as Hc by done.
  assert (ss_closeForShutdownErr (sy_s y) = None) as Hs by (destruct (ss_closeForShutdownErr (sy_s y)); [|done]; rewrite bool_decide_eq_true_2 in *; done).
  assert (ss_finSent (sy_s y) = false) as Hf by (destruct (ss_finSent (sy_s y)); [by destruct (V8 eq_refl) as [? _]; congruence|done]).
  assert (∀ f, frame_ok y f → frame_ok (y <| sy_s ::= λ s, s <| ss_dataForWriting := p |> |> <| sy_written ::= λ w, w ++ p |>
            <| sy_writer := Some (p, false, zlen (sy_written y)) |>) f) as Hok.
  { intros f Hfr. apply (frame_ok_mono y); [done|done|cbn; lia|intros ? _; by apply at_offset_app|congruence]. }
  destruct (V5 (or_introl (conj Hc Hs))) as (a & Ha & Hl). rewrite (V7 Hc Hs Hw), app_nil_r in Ha.
  split; cbn; try done; try congruence.
  - by eapply Forall_impl.
  - by eapply Forall_impl.
  - rewrite zlen_app. pose proof (zlen_nonneg p). lia.
  - intros _. exists a. rewrite Ha, <- app_assoc. done.
  - intros p' n base [= <- <- <-]. rewrite zlen_app. pose proof (zlen_nonneg (sy_written y)). lia.
Qed.

Lemma buffer_data_spec s s' : canBufferStreamFrame s = true → 0 < zlen (ss_dataForWriting s) → next_ok s → buffer_data s = Ret s' →
  ∃ nf, s' = s <| ss_nextFrame := Some nf |> <| ss_dataForWriting := [] |> ∧ next_ok s' ∧ sf_Data nf = next_data s ++ ss_dataForWriting s.
Proof.
  unfold canBufferStreamFrame, buffer_data, pool_slice, next_data, frame_data, StreamFrame_DataLen. intros Hb Hl Hn.
  destruct (ss_nextFrame s) as [f|] eqn:Ef.
  - destruct (Hn f Ef) as (H1 & H2 & H3). case_match; [|done]. cbn. intros [= <-]. eexists. split; [done|]. cbn. split; [|done].
    intros f' [= <-]. cbn. rewrite zlen_app. lia.
  - case_match; [|done]. cbn. intros [= <-]. eexists. split; [done|]. cbn. split; [|done]. intros f' [= <-]. cbn. lia.
Qed.

(** The bytes a returning [Write] has handed over. *)
Lemma take_written y n : send_inv y → ss_writeOffset (sy_s y) ≤ n ≤ zlen (sy_written y) → (ss_finSent (sy_s y) = true → n = zlen (sy_written y)) →
  ∀ f, frame_ok y f → frame_ok (y <| sy_written ::= take (Z.to_nat n) |>) f.
Proof.
  intros Hinv Hn Hfin f Hf. apply (frame_ok_mono y); [done|done|cbn; lia| |].
  - cbn. intros Ha He. apply at_offset_take; [done|]. unfold frame_end in He. pose proof (sv_offset _ Hinv). lia.
  - intros Hs. split; [done|]. cbn. rewrite take_ge; [done|]. specialize (Hfin Hs). unfold zlen in Hfin. lia.
Qed.

(** A [Write] that returns leaves [d] of the data behind, in the stream ([d'])
    if it was canceled. *)
Lemma return_inv y p notified base d' : send_inv y → sy_writer y = Some (p, notified, base) →
  d' = [] ∨ d' = ss_dataForWriting (sy_s y) →
  (ss_canceledWrite (sy_s y) = false → ss_closeForShutdownErr (sy_s y) = None → d' = []) →
  send_inv (y <| sy_s ::= λ s, s <| ss_dataForWriting := d' |> |>
              <| sy_written ::= take (Z.to_nat (base + (zlen p - zlen (ss_dataForWriting (sy_s y))))) |> <| sy_writer := None |>).
Proof.
  intros Hinv Hw Hd Hlive. pose proof Hinv as [V1 V2 V3 V4 V5 V6 V7 V8 V9 V10 V11 V12 V13].
  destruct V5 as (a & Ha & Hl); [right; by eexists|]. destruct (V6 _ _ _ Hw) as (Hlen & Hdp & Hbase).
  set (d := ss_dataForWriting (sy_s y)) in *. set (n := base + (zlen p - zlen d)).
  assert (zlen (sy_written y) = zlen a + zlen (next_data (sy_s y)) + zlen d) as Hz by (rewrite Ha, !zlen_app; lia).
  pose proof (zlen_nonneg d). pose proof (zlen_nonneg (next_data (sy_s y))).
  assert (take (Z.to_nat n) (sy_written y) = a ++ next_data (sy_s y)) as Htake.
  { rewrite Ha, app_assoc, take_app_le, take_ge; [done|..]; rewrite length_app; unfold zlen in *; lia. }
  assert (zlen (take (Z.to_nat n) (sy_written y)) = n) as Htl by (rewrite Htake, zlen_app; lia).
  assert (ss_finSent (sy_s y) = true → n = zlen (sy_written y)) as Hfin.
  { intros Hf. destruct (V8 Hf) as (_ & _ & Hd0 & _). fold d in Hd0. unfold n. rewrite Hd0. change (zlen (@nil Z)) with 0. lia. }
  assert (ss_writeOffset (sy_s y) ≤ n ≤ zlen (sy_written y)) as Hn by lia.
  pose proof (take_written y n Hinv Hn Hfin) as Hok.
  split; cbn; try done.
  - by eapply Forall_impl.
  - by eapply Forall_impl.
  - lia.
  - intros [[Hc Hs]|[? [=]]]. exists a. rewrite (Hlive Hc Hs), Htake, app_nil_r. done.
  - auto.
  - intros Hf. destruct (V8 Hf) as (? & ? & Hd0 & ?). fold d in Hd0. split_and!; [done|done| |].
    + destruct Hd as [Hd|Hd]; congruence.
    + rewrite Htl. specialize (Hfin Hf). lia.
Qed.

Lemma round_inv y p notified base now s' events r : send_inv y → sy_writer y = Some (p, notified, base) →
  Write_round (sy_s y) p notified now = Ret (s', events, r) →
  send_inv match r with
           | Some (n, _) => y <| sy_s := s' |> <| sy_written ::= take (Z.to_nat (base + n)) |> <| sy_writer := None |>
           | None => y <| sy_s := s' |> <| sy_writer := Some (p, true, base) |>
           end.
Proof.
  intros Hinv Hw. pose proof Hinv as [V1 V2 V3 V4 V5 V6 V7 V8 V9 V10 V11 V12 V13].
  destruct (V6 _ _ _ Hw) as (Hlen & Hdp & Hbase). unfold Write_round.
  destruct (canBufferStreamFrame _ && _) eqn:EB; [|destruct (negb _ && negb _) eqn:ED; [|destruct (_ || _ || _) eqn:EX]].
  - apply andb_true_iff in EB as [EB Hd%Z.ltb_lt]. destruct (buffer_data (sy_s y)) as [s1| |] eqn:ES; [|done..].
    intros [= <- <- <-]. unfold write_end. rewrite Z.eqb_refl.
    destruct (buffer_data_spec _ _ EB Hd V3 ES) as (nf & -> & Hn & Hdata).
    destruct V5 as (a & Ha & Hl); [right; by eexists|].
    assert (take (Z.to_nat (base + zlen p)) (sy_written y) = sy_written y) as Ht by (apply take_ge; unfold zlen in *; lia).
    split; cbn; rewrite ?Ht; try done.
    + intros _. exists a. rewrite Hdata, app_nil_r. done.
    + intros Hf. destruct (V8 Hf) as (_ & _ & Hd0 & _). rewrite Hd0 in Hd. done.
  - intros [= <- <- <-]. apply (return_inv y p notified base [] Hinv Hw); auto.
  - intros [= <- <- <-]. pose proof (return_inv y p notified base (ss_dataForWriting (sy_s y)) Hinv Hw) as Hret.
    assert (∃ e, write_end (sy_s y) p (zlen p - zlen (ss_dataForWriting (sy_s y))) = (zlen p - zlen (ss_dataForWriting (sy_s y)), e)) as [e ->].
    { unfold write_end. repeat case_match; eauto. }
    destruct y as [[] ? ? ? ? ? ?]. cbn in *. apply Hret; [by right|]. intros Hc Hs.
    rewrite !orb_true_iff in EX. destruct EX as [[Hd| ->]|Hcl]; [|done|destruct (V12 Hcl); congruence].
    apply Z.eqb_eq in Hd. by apply zlen_0_inv.
  - intros [= <- <- <-]. split; cbn; try done.
    + intros _. apply V5. right. by eexists.
    + intros p' n' base' [= <- <- <-]. eauto.
Qed.

(** ** Frames *)

Lemma slice_parts {A} (l a b : list A) n : slice l 0 n = Ret a → slice l n (zlen l) = Ret b → l = a ++ b ∧ zlen a = n.
Proof.
  unfold slice. case_bool_decide as H1; [|done]. case_bool_decide as H2; [|done]. intros [= <-] [= <-]. unfold zslice, zlen in *.
  rewrite Nat.sub_0_r, drop_0, Nat2Z.id. rewrite (take_ge (drop _ _)) by (rewrite length_drop; lia). split; [by rewrite take_drop|].
  rewrite length_take. lia.
Qed.

Lemma getDataForWriting_spec s f n s' f' : getDataForWriting s f n = Ret (s', f') →
  ∃ d2 ch, s' = s <| ss_dataForWriting := d2 |> <| ss_writeChan := ch |> ∧ ss_dataForWriting s = sf_Data f' ++ d2 ∧
    zlen (sf_Data f') ≤ n ∧ zlen (sf_Data f') ≤ MaxPacketBufferSize ∧
    sf_StreamID f' = sf_StreamID f ∧ sf_Offset f' = sf_Offset f.
Proof.
  unfold getDataForWriting, pool_slice. destruct (_ <=? n) eqn:E; [|]; (case_match; [|done]); cbn [mbind outcome_bind].
  - intros [= <- <-]. exists [], true. cbn. rewrite app_nil_r. split_and!; (done || lia).
  - destruct (slice _ 0 n) as [d1| |] eqn:E1; [|done..]. destruct (slice _ n _) as [d2| |] eqn:E2; [|done..].
    destruct (slice_parts _ _ _ _ E1 E2) as [Hd Hn]. cbn [mbind outcome_bind]. intros [= <- <-].
    exists d2. destruct (canBufferStreamFrame _); eexists; (split; [reflexivity|]); cbn; split_and!; (done || lia).
Qed.

Lemma popNewStreamFrame_spec s maxBytes sendWindow s' f more : next_ok s → 0 ≤ sendWindow →
  popNewStreamFrame s maxBytes sendWindow = Ret (s', Some f, more) →
  ∃ nf d2 ch, s' = s <| ss_nextFrame := nf |> <| ss_dataForWriting := d2 |> <| ss_writeChan := ch |> ∧
    next_data s ++ ss_dataForWriting s = sf_Data f ++ next_data s' ++ ss_dataForWriting s' ∧ zlen (sf_Data f) ≤ sendWindow ∧
    sf_StreamID f = ss_streamID s ∧ sf_Offset f = ss_writeOffset s ∧ next_ok (s' <| ss_writeOffset ::= λ o, o + zlen (sf_Data f) |>) ∧
    zlen d2 ≤ zlen (ss_dataForWriting s) ∧ zlen (sf_Data f) ≤ MaxPacketBufferSize.
Proof.
  intros Hn Hw. unfold popNewStreamFrame, next_data, frame_data. destruct (ss_nextFrame s) as [nf|] eqn:En.
  - destruct (Hn nf En) as (H1 & H2 & H3). destruct (StreamFrame_MaxDataLen nf maxBytes) as [m| |]; [|done..]. cbn [mbind outcome_bind].
    rewrite MinByteCount_min. unfold pool_slice, StreamFrame_DataLen. destruct (_ <? _) eqn:El.
    + case_match; [|done]. cbn [mbind outcome_bind].
      destruct (slice _ (Z.min sendWindow m) _) as [rest| |] eqn:E2; [|done..]. cbn [mbind outcome_bind].
      destruct (slice _ 0 _) as [data| |] eqn:E1; [|done..]. cbn [mbind outcome_bind]. intros [= <- <- <-].
      destruct (slice_parts _ _ _ _ E1 E2) as [Hd Hl].
      eexists _, (ss_dataForWriting s), (ss_writeChan s). split; [reflexivity|]. cbn. rewrite Hd, zlen_app in *. pose proof (zlen_nonneg rest).
      split_and!; [by rewrite <- app_assoc|lia|done|done| |lia|lia]. intros f' [= <-]. cbn. lia.
    + cbn [mbind outcome_bind]. intros [= <- <- <-]. eexists None, (ss_dataForWriting s), true. split; [reflexivity|]. cbn.
      split_and!; [done|lia|done|done|done|lia|lia].
  - unfold popNewStreamFrameWithoutBuffer. destruct (StreamFrame_MaxDataLen _ maxBytes) as [m| |]; [|done..]. cbn [mbind outcome_bind].
    destruct (m =? 0); cbn [mbind outcome_bind]; [done|].
    destruct (getDataForWriting _ _ _) as [[s1 f1]| |] eqn:EG; [|done..]. cbn [mbind outcome_bind].
    apply getDataForWriting_spec in EG as (d2 & ch & -> & Hd & Hl & Hm & Hi & Ho). rewrite MinByteCount_min in Hl.
    case_match; [done|]. intros [= <- <- <-]. exists (ss_nextFrame s), d2, ch. split; [reflexivity|]. cbn. rewrite En. cbn.
    split_and!; [done|lia|done|done| |rewrite Hd, zlen_app; pose proof (zlen_nonneg (sf_Data f1)); lia|done]. intros f' Hf'. cbn in Hf'. congruence.
Qed.

(** A new frame, as [pop_new] takes it from the data. *)
Lemma pop_new_spec fe s fc conn maxBytes s' fc' conn' events r more : next_ok s →
  pop_new fe s fc conn maxBytes = Ret (s', fc', conn', events, (r, more)) →
  fc_sendWindow (sc_base fc') = fc_sendWindow (sc_base fc) ∧
  match r with
  | None => s' = s ∧ fc_bytesSent (sc_base fc') = fc_bytesSent (sc_base fc)
  | Some f => ∃ nf d2 ch,
      s' = s <| ss_nextFrame := nf |> <| ss_dataForWriting := d2 |> <| ss_writeChan := ch |> <| ss_writeOffset ::= λ o, o + zlen (sf_Data f) |>
             <| ss_finSent ::= λ b, b || sf_Fin f |> ∧
      next_data s ++ ss_dataForWriting s = sf_Data f ++ next_data s' ++ ss_dataForWriting s' ∧
      zlen (sf_Data f) ≤ SendWindowSize fc conn `max` 0 ∧ sf_StreamID f = ss_streamID s ∧ sf_Offset f = ss_writeOffset s ∧ next_ok s' ∧
      (sf_Fin f = true → ss_finishedWriting s = true ∧ nf = None ∧ d2 = []) ∧
      (ss_nextFrame s = None → ss_dataForWriting s = [] → ss_finSent s = false) ∧ zlen d2 ≤ zlen (ss_dataForWriting s) ∧
      zlen (sf_Data f) ≤ MaxPacketBufferSize ∧ fc_bytesSent (sc_base fc') = fc_bytesSent (sc_base fc) + zlen (sf_Data f)
  end.
Proof.
  intros Hn. unfold pop_new. destruct (fe && _); [by intros [= <- <- <- _ <- _]|].
  destruct (_ && bool_decide (ss_nextFrame s = None)) eqn:E0.
  { apply andb_true_iff in E0 as [Hd Hnone]. apply bool_decide_eq_true in Hnone. apply Z.eqb_eq in Hd. apply zlen_0_inv in Hd.
    destruct (ss_finishedWriting s && _) eqn:EF; intros [= <- <- <- _ <- _]; [|done]. split; [done|].
    exists None, [], (ss_writeChan s). apply andb_true_iff in EF as [EF EF2%negb_true_iff]. destruct s. cbn in *. subst. cbn. rewrite Z.add_0_r, ?orb_true_r.
    change (zlen []) with 0. unfold MaxPacketBufferSize. split_and!; (done || lia). }
  assert (ss_nextFrame s = None → ss_dataForWriting s = [] → ss_finSent s = false) as HE.
  { intros Hx Hy. rewrite Hx, Hy in E0. done. }
  destruct (SendWindowSize fc conn =? 0) eqn:EW.
  { unfold IsNewlyBlocked. destruct (negb _ || _); intros [= <- <- <- _ <- _]; cbn; [by destruct fc|done]. }
  destruct (popNewStreamFrame s maxBytes _) as [[[s1 [f|]] more1]| |] eqn:EP; [|done..]. cbn [mbind outcome_bind].
  apply popNewStreamFrame_spec in EP as (nf & d2 & ch & -> & Hd & Hl & Hi & Ho & Hn' & Hd2 & Hsz); [|done|].
  2: { unfold SendWindowSize, sendWindowSize. rewrite MinByteCount_min. repeat case_match; lia. }
  set (fin := ss_finishedWriting s && (zlen d2 =? 0) && bool_decide (nf = None) && negb (ss_finSent s)).
  assert (fin = true → ss_finishedWriting s = true ∧ nf = None ∧ d2 = []) as Hfin.
  { unfold fin. rewrite !andb_true_iff, bool_decide_eq_true, Z.eqb_eq. intros [[[? ?%zlen_0_inv] ?] _]. done. }
  intros HR. assert (0 < zlen (sf_Data f) ∨ zlen (sf_Data f) = 0) as Hz by (pose proof (zlen_nonneg (sf_Data f)); lia).
  unfold AddBytesSent, StreamFrame_DataLen in HR.
  destruct Hz as [Hz|Hz]; [rewrite (proj2 (Z.ltb_lt _ _)) in HR by lia|rewrite Hz in HR; cbn [Z.ltb Z.compare] in HR]; cbn in HR; fold fin in HR;
    injection HR as <- <- <- _ <- _; (split; [done|]); exists nf, d2, ch; clearbody fin; destruct fin, s; cbn in *;
    rewrite ?orb_false_r, ?orb_true_r, ?Hz, ?Z.add_0_r in *; split_and!; (done || lia || auto).
Qed.

(** A retransmission: the frame at the head of the queue, a part of it, or nothing
    if not even a byte fits. *)
Definition split_of (f f1 f2 : StreamFrame) : Prop :=
  sf_Data f = sf_Data f1 ++ sf_Data f2 ∧ sf_Offset f1 = sf_Offset f ∧ sf_Offset f2 = sf_Offset f + zlen (sf_Data f1) ∧
  sf_StreamID f1 = sf_StreamID f ∧ sf_StreamID f2 = sf_StreamID f ∧ sf_Fin f1 = false ∧ sf_Fin f2 = sf_Fin f.

Lemma MaybeSplitOffFrame_cases f maxBytes r needsSplit f' : StreamFrame_MaybeSplitOffFrame f maxBytes = Ret (r, needsSplit, f') →
  r = None ∧ f' = f ∨ needsSplit = true ∧ ∃ f1, r = Some f1 ∧ split_of f f1 f'.
Proof.
  unfold StreamFrame_MaybeSplitOffFrame. destruct (StreamFrame_Length f) as [l| |]; [|done..]. cbn [mbind outcome_bind].
  destruct (l <=? maxBytes); [intros [= <- <- <-]; by left|].
  destruct (StreamFrame_MaxDataLen f maxBytes) as [n| |]; [|done..]. cbn [mbind outcome_bind].
  destruct (n =? 0); [intros [= <- <- <-]; by left|]. destruct (_ <? _); [done|].
  destruct (slice _ n _) as [rest| |] eqn:E2; [|done..]. cbn [mbind outcome_bind].
  destruct (slice _ 0 n) as [data| |] eqn:E1; [|done..]. cbn [mbind outcome_bind]. intros [= <- <- <-]. right. split; [done|].
  destruct (slice_parts _ _ _ _ E1 E2) as [Hd Hn]. eexists. split; [reflexivity|]. unfold split_of. cbn. rewrite Hn. done.
Qed.

Lemma maybeGetRetransmission_spec s maxBytes s' r more : maybeGetRetransmission s maxBytes = Ret (s', r, more) →
  ∃ f q, ss_retransmissionQueue s = f :: q ∧
    (r = Some f ∧ s' = s <| ss_retransmissionQueue := q |> ∨
     (∃ f1 f2, r = Some f1 ∧ s' = s <| ss_retransmissionQueue := f2 :: q |> ∧ split_of f f1 f2) ∨
     r = None ∧ s' = s ∧ more = true).
Proof.
  unfold maybeGetRetransmission. destruct s as [? rq]. cbn [ss_retransmissionQueue]. intros HR.
  destruct rq as [|f q]; [discriminate|]. change (index (f :: q) 0) with (Ret f) in HR. cbn [mbind outcome_bind] in HR.
  destruct (StreamFrame_MaybeSplitOffFrame f maxBytes) as [[[r1 needsSplit] f']| |] eqn:E; [|discriminate..]. cbn [mbind outcome_bind] in HR.
  exists f, q. split; [done|].
  destruct (MaybeSplitOffFrame_cases _ _ _ _ _ E) as [[-> ->]|[-> (f1 & -> & Hs)]].
  - destruct needsSplit; injection HR as <- <- <-; cbn; auto.
  - injection HR as <- <- <-. right. left. by exists f1, f'.
Qed.

Lemma split_frame_ok y f f1 f2 : frame_ok y f → split_of f f1 f2 → frame_ok y f1 ∧ frame_ok y f2.
Proof.
  intros (H1 & H2 & H3 & H4 & H5) (S1 & S2 & S3 & S4 & S5 & S6 & S7). unfold frame_ok, frame_end in *.
  rewrite S1, zlen_app in *. destruct (at_offset_split _ _ _ _ H2). pose proof (zlen_nonneg (sf_Data f1)). pose proof (zlen_nonneg (sf_Data f2)).
  rewrite S2, S3, S4, S5, S6, S7. split; split_and!; try done; try lia.
  intros Hf. destruct (H4 Hf). split; [done|lia].
Qed.

Lemma split_covers f f1 f2 x : split_of f f1 f2 → covers f x → covers f1 x ∨ covers f2 x.
Proof.
  intros (S1 & S2 & S3 & _). unfold covers, frame_end. rewrite S1, S2, S3, zlen_app. lia.
Qed.

Lemma retransmit_inv y f f1 q q' : send_inv y → ss_retransmissionQueue (sy_s y) = f :: q → ss_canceledWrite (sy_s y) = false →
  f1 = f ∧ q' = q ∨ (∃ f2, split_of f f1 f2 ∧ q' = f2 :: q) →
  send_inv (y <| sy_s ::= λ s, s <| ss_retransmissionQueue := q' |> <| ss_numOutstandingFrames ::= λ n, n + 1 |> |>
              <| sy_inflight ::= λ l, l ++ [f1] |> <| sy_sent ::= λ l, l ++ [f1] |>).
Proof.
  intros Hinv Hq Hc Hcase. pose proof Hinv as [V1 V2 V3 V4 V5 V6 V7 V8 V9 V10 V11 V12 V13].
  unfold kept in V2, V9. rewrite Hq in V2, V9. rewrite !Forall_app, Forall_cons in V2. destruct V2 as (K1 & K2 & Kf & Kq).
  assert (frame_ok y f1 ∧ Forall (frame_ok y) q') as [Kf1 Kq'].
  { destruct Hcase as [[-> ->]|(f2 & Hs & ->)]; [done|]. destruct (split_frame_ok _ _ _ _ Kf Hs). split; [done|]. by constructor. }
  assert (∀ P : StreamFrame → Prop, (P f → P f1 ∨ ∃ f2, f2 ∈ q' ∧ P f2) →
    Exists P (sy_acked y ++ sy_inflight y ++ f :: q) → Exists P (sy_acked y ++ (sy_inflight y ++ [f1]) ++ q')) as HE.
  { intros P HP. rewrite <- app_assoc. cbn [app]. rewrite !Exists_app, !Exists_cons. intros [?|[?|[Hf|Hr]]]; [auto|auto| |].
    - destruct (HP Hf) as [?|(f2 & ? & ?)]; [auto|]. do 3 right. apply Exists_exists. eauto.
    - do 3 right. destruct Hcase as [[_ ->]|(f2 & _ & ->)]; [done|by constructor]. }
  split; cbn; try done.
  - apply Forall_app. split; [done|]. by constructor.
  - unfold kept. cbn. rewrite !Forall_app. split_and!; try done. by constructor.
  - intros _. destruct (V9 Hc) as [C1 C2]. split.
    + intros x Hx. apply HE; [|by apply C1]. intros Hf. destruct Hcase as [[-> _]|(f2 & Hs & ->)]; [by left|].
      destruct (split_covers _ _ _ _ Hs Hf); [by left|]. right. exists f2. split; [apply list_elem_of_here|done].
    + intros Hf. apply HE; [|by apply C2]. intros HF. destruct Hcase as [[-> _]|(f2 & Hs & ->)]; [by left|]. right.
      exists f2. split; [apply list_elem_of_here|]. destruct Hs as (_ & _ & _ & _ & _ & _ & ->). done.
  - intros _. rewrite zlen_app, V10 by done. done.
  - intros _ Hcomp. destruct (V11 Hc Hcomp) as (_ & _ & HR). congruence.
Qed.

(** A new frame. *)
Lemma new_frame_inv fe y conn maxBytes s' fc' conn' events f more : send_inv y →
  ss_canceledWrite (sy_s y) = false → ss_closeForShutdownErr (sy_s y) = None →
  pop_new fe (sy_s y) (sy_fc y) conn maxBytes = Ret (s', fc', conn', events, (Some f, more)) →
  send_inv (y <| sy_s := s' <| ss_numOutstandingFrames ::= λ n, n + 1 |> |> <| sy_fc := fc' |>
              <| sy_inflight ::= λ l, l ++ [f] |> <| sy_sent ::= λ l, l ++ [f] |>).
Proof.
  intros Hinv Hc Hs HP. pose proof Hinv as [V1 V2 V3 V4 V5 V6 V7 V8 V9 V10 V11 V12 V13].
  apply pop_new_spec in HP as (Hfw & nf & d2 & ch & -> & Hdata & Hlen & Hid & Hoff & Hn & Hfin & Hnf & Hd2 & Hsz & Hsent); [|done].
  destruct (V5 (or_introl (conj Hc Hs))) as (a & Ha & Hl). rewrite Hdata in Ha. unfold next_data in Ha. cbn [ss_dataForWriting ss_nextFrame update] in Ha.
  assert (ss_finSent (sy_s y) = false) as HF.
  { destruct (ss_finSent (sy_s y)) eqn:HF; [|done]. destruct (V8 eq_refl) as (_ & ? & ? & _). auto. }
  rewrite HF in *. pose proof (zlen_nonneg (sf_Data f)) as Hpos.
  set (y' := y <| sy_s := _ |> <| sy_fc := fc' |> <| sy_inflight ::= λ l, l ++ [f] |> <| sy_sent ::= λ l, l ++ [f] |>).
  assert (∀ g, frame_ok y g → frame_ok y' g) as Hok.
  { intros g Hg. apply (frame_ok_mono y); [done|done|cbn; lia|done|]. congruence. }
  assert (zlen (sy_written y) = zlen a + zlen (sf_Data f) + zlen (frame_data nf) + zlen d2) as Hz by (rewrite Ha, !zlen_app; lia).
  assert (frame_ok y' f) as Hf.
  { unfold frame_ok, frame_end. cbn. rewrite Hid, Hoff. split_and!; [done| |lia| |done].
    - exists a, (frame_data nf ++ d2). split; [exact Ha|done].
    - intros HFin. destruct (Hfin HFin) as (_ & -> & ->). rewrite HFin, orb_true_r. split; [done|]. cbn [frame_data] in Hz. rewrite !zlen_nil in Hz. lia. }
  pose proof (zlen_nonneg (frame_data nf)). pose proof (zlen_nonneg d2).
  split; cbn; try done.
  - apply Forall_app. split; [by eapply Forall_impl|by constructor].
  - unfold kept in *. cbn. rewrite !Forall_app in *. destruct V2 as (K1 & K2 & K3).
    split_and!; [by eapply Forall_impl..|by constructor|by eapply Forall_impl].
  - lia.
  - intros _. exists (a ++ sf_Data f). rewrite zlen_app, <- !app_assoc. split; [exact Ha|lia].
  - intros p n base Hw. destruct (V6 _ _ _ Hw) as (? & ? & ?). split_and!; [done|lia|done].
  - intros _ _ Hw. rewrite (V7 Hc Hs Hw), zlen_nil in Hd2. apply zlen_0_inv. lia.
  - rewrite HF. cbn. intros HFin. destruct (Hfin HFin) as (? & -> & ->). split_and!; [done..|]. cbn [frame_data] in Hz. rewrite !zlen_nil in Hz. lia.
  - intros _. destruct (V9 Hc) as [C1 _]. unfold kept in *. rewrite HF. cbn. rewrite <- app_assoc. cbn [app]. split.
    + intros x Hx. rewrite !Exists_app, Exists_cons. destruct (decide (x < ss_writeOffset (sy_s y))).
      * specialize (C1 x). rewrite !Exists_app in C1. destruct C1 as [?|[?|?]]; [lia|auto..].
      * do 2 right. left. unfold covers, frame_end. lia.
    + intros HFin. rewrite !Exists_app, Exists_cons. auto.
  - intros _. rewrite zlen_app, V10 by done. done.
  - intros _ Hcomp. destruct (V11 Hc Hcomp). congruence.
  - destruct V13. rewrite Hfw, Hsent. split; [lia|].
    unfold SendWindowSize in Hlen. rewrite MinByteCount_min in Hlen. apply sendWindowSize_le; [done|].
    assert (0 ≤ sendWindowSize (sc_base (sy_fc y))) by (unfold sendWindowSize; case_match; lia). lia.
Qed.

(** The FEC handler and the channel do not matter. *)
Lemma inv_fec y h ch : send_inv y → send_inv (y <| sy_s ::= λ s, s <| ss_fecHandler := h |> <| ss_writeChan := ch |> |>).
Proof. intros []. by split. Qed.

Lemma inv_fc y fc : send_inv y → fc_bytesSent (sc_base fc) = fc_bytesSent (sc_base (sy_fc y)) →
  fc_sendWindow (sc_base (sy_fc y)) ≤ fc_sendWindow (sc_base fc) → send_inv (y <| sy_fc := fc |>).
Proof. intros [] H1 H2. split; try done. cbn. rewrite H1. lia. Qed.

(** The state after [r] was taken from the stream. *)
Definition after_pop (y : send_sys) (s' : sendStream) (fc' : streamFlowController) (r : option StreamFrame) : send_sys :=
  match r with
  | Some f => y <| sy_s := s' <| ss_numOutstandingFrames ::= λ n, n + 1 |> |> <| sy_fc := fc' |>
                <| sy_inflight ::= λ l, l ++ [f] |> <| sy_sent ::= λ l, l ++ [f] |>
  | None => y <| sy_s := s' |> <| sy_fc := fc' |>
  end.

Lemma pop_new_inv fe y conn maxBytes s' fc' conn' events r more : send_inv y →
  ss_canceledWrite (sy_s y) = false → ss_closeForShutdownErr (sy_s y) = None →
  pop_new fe (sy_s y) (sy_fc y) conn maxBytes = Ret (s', fc', conn', events, (r, more)) → send_inv (after_pop y s' fc' r).
Proof.
  intros Hinv Hc Hs EN. destruct r as [f|]; [by eapply new_frame_inv|].
  apply pop_new_spec in EN as (H1 & -> & H2); [|apply (sv_next _ Hinv)]. unfold after_pop.
  replace (y <| sy_s := sy_s y |>) with y by (by destruct y). apply inv_fc; [done|done|lia].
Qed.

Lemma pop_frame_inv fe y conn maxBytes s' fc' conn' events r more retr : send_inv y →
  popNewOrRetransmittedStreamFrame fe (sy_s y) (sy_fc y) conn maxBytes = Ret (s', fc', conn', events, (r, more, retr)) →
  send_inv (after_pop y s' fc' r).
Proof.
  intros Hinv. unfold popNewOrRetransmittedStreamFrame. destruct (_ || _) eqn:EC.
  { intros [= <- <- <- _ <- _ _]. by destruct y. }
  apply orb_false_iff in EC as [Hc Hs]. apply bool_decide_eq_false in Hs. rewrite <- eq_None_not_Some in Hs.
  destruct (0 <? zlen _) eqn:EQ; cbn [mbind outcome_bind].
  - destruct (maybeGetRetransmission (sy_s y) maxBytes) as [[[s1 r1] more1]| |] eqn:ER; [|done..]. cbn [mbind outcome_bind].
    apply maybeGetRetransmission_spec in ER as (f & q & Hq & [[-> ->]|[(f1 & f2 & -> & -> & Hsp)|(-> & -> & ->)]]); intros [= <- <- <- _ <- _ _].
    + pose proof (retransmit_inv y f f q q Hinv Hq Hc (or_introl (conj eq_refl eq_refl))) as HR. by destruct y.
    + pose proof (retransmit_inv y f f1 q (f2 :: q) Hinv Hq Hc (or_intror (ex_intro _ f2 (conj Hsp eq_refl)))) as HR. by destruct y.
    + by destruct y.
  - destruct (pop_new fe (sy_s y) (sy_fc y) conn maxBytes) as [[[[[s1 fc1] conn1] ev1] [r1 more1]]| |] eqn:EN; [|done..].
    cbn [mbind outcome_bind]. intros [= <- <- <- _ <- _ _]. by eapply pop_new_inv.
Qed.

Lemma pop_inv fe y conn maxBytes s' fc' conn' events r more : send_inv y →
  popStreamFrame fe (sy_s y) (sy_fc y) conn maxBytes = Ret (s', fc', conn', events, (r, more)) →
  send_inv match r with
           | Some (PoppedStream f) => y <| sy_s := s' |> <| sy_fc := fc' |> <| sy_inflight ::= λ l, l ++ [f] |> <| sy_sent ::= λ l, l ++ [f] |>
           | _ => y <| sy_s := s' |> <| sy_fc := fc' |>
           end.
Proof.
  intros Hinv. unfold popStreamFrame.
  destruct (popNewOrRetransmittedStreamFrame _ _ _ _ _) as [[[[[s1 fc1] conn1] ev1] [[r1 more1] retr1]]| |] eqn:EP; [|done..].
  apply (pop_frame_inv _ _ _ _ _ _ _ _ _ _ _ Hinv) in EP. cbn [mbind outcome_bind]. destruct r1 as [f|].
  - destruct (negb retr1 && fe).
    + destruct (PushToEncode _ _) as [h| |]; [|done..]. cbn [mbind outcome_bind]. intros [= <- <- <- _ <- _].
      pose proof (inv_fec _ h (ss_writeChan s1) EP) as HF. by destruct y, s1.
    + cbn [mbind outcome_bind]. intros [= <- <- <- _ <- _]. exact EP.
  - destruct (fe && _ && _); [|by intros [= <- <- <- _ <- _]]. destruct (PopFecFrame _ _) as [h [ff|]]; intros [= <- <- <- _ <- _].
    + pose proof (inv_fec _ h true EP) as HF. by destruct y, s1.
    + pose proof (inv_fec _ h (ss_writeChan s1) EP) as HF. by destruct y, s1.
Qed.

(** ** Acknowledgements and losses *)

Lemma Exists_move (P : StreamFrame → Prop) acked l1 l2 f q :
  Exists P (acked ++ (l1 ++ f :: l2) ++ q) → Exists P ((acked ++ [f]) ++ (l1 ++ l2) ++ q).
Proof. rewrite !Exists_app, !Exists_cons, Exists_nil. tauto. Qed.

Lemma isNewlyCompleted_spec s : ∃ b, (isNewlyCompleted s).1 = s <| ss_completed := b |> ∧
  (b = true → ss_completed s = true ∨ (ss_finSent s || ss_canceledWrite s) = true ∧ ss_numOutstandingFrames s = 0 ∧ ss_retransmissionQueue s = []).
Proof.
  unfold isNewlyCompleted. destruct (_ && negb _) eqn:E; cbn.
  - exists true. split; [done|]. intros _. right. apply andb_true_iff in E as [[[H1 H2%Z.eqb_eq]%andb_true_iff H3%Z.eqb_eq%zlen_0_inv]%andb_true_iff _]. done.
  - exists (ss_completed s). split; [by destruct s|by left].
Qed.

Lemma acked_inv y l1 f l2 s' events : send_inv y → sy_inflight y = l1 ++ f :: l2 → frameAcked (sy_s y) = Ret (s', events) →
  send_inv (y <| sy_s := s' |> <| sy_inflight := l1 ++ l2 |> <| sy_acked ::= λ l, l ++ [f] |>).
Proof.
  intros Hinv Hl. pose proof Hinv as [V1 V2 V3 V4 V5 V6 V7 V8 V9 V10 V11 V12 V13].
  assert (Forall (frame_ok y) ((sy_acked y ++ [f]) ++ (l1 ++ l2) ++ ss_retransmissionQueue (sy_s y))) as V2'.
  { unfold kept in V2. rewrite Hl, !Forall_app, Forall_cons in V2. destruct V2 as (? & (? & ? & ?) & ?). by rewrite !Forall_app, Forall_singleton. }
  unfold frameAcked. destruct (ss_canceledWrite (sy_s y)) eqn:Hc.
  { intros [= <- _]. split; cbn; rewrite ?Hc; done. }
  cbn [ss_numOutstandingFrames update]. destruct (_ <? 0); [done|].
  destruct (isNewlyCompleted_spec ((sy_s y) <| ss_numOutstandingFrames ::= λ n, n - 1 |>)) as (b & Hb & Hcomp).
  destruct (isNewlyCompleted _) as [s1 nc]. cbn in Hb. subst s1. intros [= <- _].
  specialize (V10 eq_refl). rewrite Hl, zlen_app, zlen_cons in V10.
  split; cbn; rewrite ?Hc; try done.
  - intros _. destruct (V9 eq_refl) as [C1 C2]. unfold kept in *. rewrite Hl in C1, C2. cbn. split; intros; apply Exists_move; auto.
  - intros _. rewrite zlen_app. lia.
  - intros _ Hb. destruct (Hcomp Hb) as [Hold|(Hf & Hz & Hq)]; cbn in *.
    + destruct (V11 eq_refl Hold) as (_ & HI & _). rewrite Hl in HI. by destruct l1.
    + rewrite Hc, orb_false_r in Hf. split_and!; [done| |done]. apply zlen_0_inv. rewrite zlen_app. lia.
Qed.

Lemma lost_inv y l1 f l2 s' events : send_inv y → sy_inflight y = l1 ++ f :: l2 → queueRetransmission (sy_s y) f = Ret (s', events) →
  send_inv (y <| sy_s := s' |> <| sy_inflight := l1 ++ l2 |>).
Proof.
  intros Hinv Hl. pose proof Hinv as [V1 V2 V3 V4 V5 V6 V7 V8 V9 V10 V11 V12 V13].
  unfold kept in *. rewrite Hl in *. rewrite !Forall_app, Forall_cons in V2. destruct V2 as (K1 & (K2 & Kf & K3) & K4).
  unfold queueRetransmission. destruct (ss_canceledWrite (sy_s y)) eqn:Hc.
  { intros [= <- _]. split; cbn; rewrite ?Hc; try done. unfold kept. cbn. by rewrite !Forall_app. }
  cbn [ss_numOutstandingFrames update]. destruct (_ <? 0); [done|]. intros [= <- _].
  set (sf := {| sf_StreamID := sf_StreamID f; sf_Offset := sf_Offset f; sf_Data := sf_Data f; sf_Fin := sf_Fin f; sf_DataLenPresent := true |}).
  specialize (V10 eq_refl). rewrite zlen_app, zlen_cons in V10. split; cbn; rewrite ?Hc; try done.
  - unfold kept. cbn. rewrite !Forall_app, Forall_singleton. split_and!; done.
  - intros _. destruct (V9 eq_refl) as [C1 C2]. unfold kept. cbn.
    assert (∀ P : StreamFrame → Prop, (P f → P sf) → Exists P (sy_acked y ++ (l1 ++ f :: l2) ++ ss_retransmissionQueue (sy_s y)) →
      Exists P (sy_acked y ++ (l1 ++ l2) ++ ss_retransmissionQueue (sy_s y) ++ [sf])) as HE.
    { intros P HP. rewrite !Exists_app, !Exists_cons, Exists_nil. tauto. }
    split; intros; apply HE; auto.
  - intros _. rewrite zlen_app. lia.
  - intros _ Hcomp. destruct (V11 eq_refl Hcomp) as (_ & HI & _). by destruct l1.
Qed.

(** ** The other operations *)

Lemma close_inv y : send_inv y → send_inv (y <| sy_s ::= λ s, (Close s).1.1 |>).
Proof.
  intros Hinv. destruct y as [s fc w wr infl ack sent]. cbn. unfold Close.
  destruct (ss_closedForShutdown s) eqn:E1; [exact Hinv|]. destruct (ss_canceledWrite s) eqn:E2; [exact Hinv|].
  destruct Hinv as [V1 V2 V3 V4 V5 V6 V7 V8 V9 V10 V11 V12 V13]. split; cbn in *; try done.
  intros Hf. destruct (V8 Hf) as (_ & ?). done.
Qed.

Lemma cancel_inv y code e : send_inv y → send_inv (y <| sy_s ::= λ s, (cancelWriteImpl s code e).1 |>).
Proof.
  intros Hinv. destruct y as [s fc w wr infl ack sent]. cbn. unfold cancelWriteImpl.
  destruct (ss_canceledWrite s) eqn:E2; [exact Hinv|].
  match goal with |- context [isNewlyCompleted ?s0] => destruct (isNewlyCompleted_spec s0) as (b & Hb & _); destruct (isNewlyCompleted s0) as [s1 nc] end.
  cbn in Hb. subst s1. destruct Hinv as [V1 V2 V3 V4 V5 V6 V7 V8 V9 V10 V11 V12 V13]. split; cbn in *; try done.
  - unfold kept in *. cbn in *. rewrite !Forall_app in *. destruct V2 as (? & ? & _). split_and!; [done|done|constructor].
  - intros [[[=] _]|Hw]. apply V5. by right.
Qed.

Lemma send_step_inv fe y y' : send_inv y → send_step fe y y' → send_inv y'.
Proof.
  intros Hinv Hstep. destruct Hstep as [y p now s1 r Hw HW|y p n base now s1 ev r Hw HW|y|y conn mb s1 fc1 conn1 ev r more HP|y l1 f l2 s1 ev Hl HA|y l1 f l2 s1 ev Hl HL|y|y code|y code|y limit|y t|y err].
  - by eapply begin_inv.
  - by eapply round_inv.
  - destruct Hinv. by split.
  - by eapply pop_inv.
  - by eapply acked_inv.
  - by eapply lost_inv.
  - by apply close_inv.
  - by apply cancel_inv.
  - by apply cancel_inv.
  - destruct y as [s fc w wr infl ack sent]. cbn. unfold updateSendWindow. cbn.
    apply (inv_fc (mk_sys s fc w wr infl ack sent)); [done|..]; cbn; unfold UpdateSendWindow; case_match; cbn; lia.
  - destruct Hinv. by split.
  - destruct Hinv as [V1 V2 V3 V4 V5 V6 V7 V8 V9 V10 V11 V12 V13]. split; cbn; try done.
    intros [[_ [=]]|Hw]. apply V5. by right.
Qed.

Lemma send_reach_inv fe id h w m x y : 0 ≤ x → send_reach fe (send_init id h w m x) y → send_inv y.
Proof. intros Hx. induction 1 as [|y y' _ IH Hs]; [by apply send_init_inv|]. by eapply send_step_inv. Qed.

(** ** Progress *)

(** A frame of at least [MinStreamFrameSize] bytes has room for data. *)
Lemma MaxDataLen_pos f maxBytes : stream_frame_ok f → MinStreamFrameSize ≤ maxBytes ≤ MaxPacketBufferSize →
  ∃ m, StreamFrame_MaxDataLen f maxBytes = Ret m ∧ 0 < m ≤ MaxPacketBufferSize.
Proof.
  unfold MinStreamFrameSize, MaxPacketBufferSize. intros Hok Hm. destruct (stream_header_Ret f Hok) as (h & Hh & Hb).
  destruct (StreamFrame_Length_header f h Hh) as [_ ->]. cbv zeta. rewrite (proj2 (Z.ltb_ge _ _)) by (destruct (sf_DataLenPresent f); lia).
  destruct (sf_DataLenPresent f); [|eexists; split; [reflexivity|lia]].
  assert (is_varint (maxBytes - (h + 1))) as Hv by (unfold maxVarInt8; lia). rewrite u64_small by done.
  destruct (quicvarint_Len (maxBytes - (h + 1))) as [l| |] eqn:El.
  - eexists. split; [reflexivity|]. unfold fitting. case_match; lia.
  - unfold quicvarint_Len in El. by repeat case_match.
  - unfold quicvarint_Len, maxVarInt1, maxVarInt2, maxVarInt4, maxVarInt8 in El. repeat case_match; try done. lia.
Qed.

Lemma slice_total {A} (l : list A) lo hi : 0 ≤ lo ≤ hi → hi ≤ zlen l → ∃ r, slice l lo hi = Ret r ∧ zlen r = hi - lo.
Proof.
  intros H1 H2. unfold slice. rewrite bool_decide_eq_true_2 by done. eexists. split; [done|].
  unfold zslice, zlen in *. rewrite length_take, length_drop. lia.
Qed.

Lemma popNewStreamFrame_live s maxBytes sendWindow : next_ok s → is_varint (ss_streamID s) → 0 ≤ ss_writeOffset s →
  ss_writeOffset s + zlen (next_data s) ≤ MaxByteCount → next_data s ++ ss_dataForWriting s ≠ [] →
  MinStreamFrameSize ≤ maxBytes ≤ MaxPacketBufferSize → 0 < sendWindow →
  ∃ s' f more, popNewStreamFrame s maxBytes sendWindow = Ret (s', Some f, more) ∧ 0 < zlen (sf_Data f).
Proof.
  intros Hn Hid Ho Hmax Hne Hm Hw. unfold popNewStreamFrame, next_data, frame_data in *. destruct (ss_nextFrame s) as [nf|] eqn:En.
  - destruct (Hn nf En) as (H1 & H2 & H3). destruct (MaxDataLen_pos nf maxBytes) as (m & -> & Hm'); [split; rewrite ?H1, ?H2; done || lia|done|].
    cbn [mbind outcome_bind]. rewrite MinByteCount_min. unfold pool_slice, StreamFrame_DataLen. destruct (_ <? _) eqn:El.
    + rewrite (proj2 (andb_true_iff _ _)) by (rewrite !Z.leb_le; lia). cbn [mbind outcome_bind].
      destruct (slice_total (sf_Data nf) (Z.min sendWindow m) (zlen (sf_Data nf))) as (rest & -> & _); [lia|lia|]. cbn [mbind outcome_bind].
      destruct (slice_total (sf_Data nf) 0 (Z.min sendWindow m)) as (data & -> & Hl); [lia|lia|]. cbn [mbind outcome_bind].
      do 3 eexists. split; [reflexivity|]. cbn. lia.
    + do 3 eexists. split; [reflexivity|]. lia.
  - cbn [app] in Hne. unfold popNewStreamFrameWithoutBuffer.
    edestruct (MaxDataLen_pos {| sf_StreamID := ss_streamID s; sf_Offset := ss_writeOffset s; sf_Data := []; sf_Fin := false; sf_DataLenPresent := true |} maxBytes)
      as (m & -> & Hm'); [split; cbn in *; rewrite ?zlen_nil in *; unfold MaxPacketBufferSize; done || lia|done|].
    cbn [mbind outcome_bind]. rewrite (proj2 (Z.eqb_neq m 0)) by lia. rewrite MinByteCount_min. unfold getDataForWriting, pool_slice.
    assert (0 < zlen (ss_dataForWriting s)) as Hd by (destruct (ss_dataForWriting s); [done|rewrite zlen_cons; pose proof (zlen_nonneg l); lia]).
    destruct (_ <=? Z.min m sendWindow) eqn:El.
    + rewrite (proj2 (andb_true_iff _ _)) by (rewrite !Z.leb_le; lia). cbn [mbind outcome_bind sf_Data sf_Fin].
      rewrite (proj2 (Z.eqb_neq _ 0)) by lia. cbn [andb]. do 3 eexists. split; [reflexivity|]. cbn. lia.
    + rewrite (proj2 (andb_true_iff _ _)) by (rewrite !Z.leb_le; lia). cbn [mbind outcome_bind].
      destruct (slice_total (ss_dataForWriting s) 0 (Z.min m sendWindow)) as (data & -> & Hl); [lia|lia|]. cbn [mbind outcome_bind].
      destruct (slice_total (ss_dataForWriting s) (Z.min m sendWindow) (zlen (ss_dataForWriting s))) as (rest & -> & _); [lia|lia|].
      cbn [mbind outcome_bind sf_Data sf_Fin]. rewrite (proj2 (Z.eqb_neq _ 0)) by lia. cbn [andb]. do 3 eexists. split; [reflexivity|]. cbn. lia.
Qed.

(** Something can be sent: a frame that was lost, data within the flow control
    window, or the end of the stream. *)
Definition can_send (s : sendStream) (fc : streamFlowController) (conn : connectionFlowController) : Prop :=
  ss_canceledWrite s = false ∧ ss_closeForShutdownErr s = None ∧
  (ss_retransmissionQueue s ≠ [] ∨
   next_data s ++ ss_dataForWriting s ≠ [] ∧ 0 < SendWindowSize fc conn ∨
   next_data s ++ ss_dataForWriting s = [] ∧ ss_finishedWriting s = true ∧ ss_finSent s = false).

Lemma SendWindowSize_nonneg fc conn : 0 ≤ SendWindowSize fc conn.
Proof. unfold SendWindowSize, sendWindowSize. rewrite MinByteCount_min. repeat case_match; lia. Qed.

Lemma pop_new_live s fc conn maxBytes : next_ok s → is_varint (ss_streamID s) → 0 ≤ ss_writeOffset s →
  ss_writeOffset s + zlen (next_data s) ≤ MaxByteCount → MinStreamFrameSize ≤ maxBytes ≤ MaxPacketBufferSize →
  ∃ s' fc' conn' events r more, pop_new false s fc conn maxBytes = Ret (s', fc', conn', events, (r, more)) ∧
    (next_data s ++ ss_dataForWriting s ≠ [] ∧ 0 < SendWindowSize fc conn ∨
     next_data s ++ ss_dataForWriting s = [] ∧ ss_finishedWriting s = true ∧ ss_finSent s = false →
     ∃ f, r = Some f ∧ (sf_Data f ≠ [] ∨ sf_Fin f = true)).
Proof.
  intros Hn Hid Ho Hmax Hm. unfold pop_new. cbn [andb].
  destruct (_ && bool_decide (ss_nextFrame s = None)) eqn:E0.
  - apply andb_true_iff in E0 as [Hd Hnone]. apply bool_decide_eq_true in Hnone. apply Z.eqb_eq, zlen_0_inv in Hd.
    unfold next_data. rewrite Hnone, Hd. destruct (_ && _) eqn:EF; do 6 eexists; (split; [reflexivity|]); cbn; [eauto|].
    intros [[? _]|(_ & HF & HS)]; [done|]. by rewrite HF, HS in EF.
  - assert (next_data s ++ ss_dataForWriting s ≠ []) as Hne.
    { intros [H1 H2]%app_eq_nil. unfold next_data in H1. destruct (ss_nextFrame s) as [nf|] eqn:En.
      - destruct (Hn nf En) as (_ & _ & H3). cbn [frame_data] in H1. rewrite H1 in H3. by destruct H3.
      - by rewrite H2, bool_decide_eq_true_2 in E0. }
    pose proof (SendWindowSize_nonneg fc conn) as Hw. destruct (SendWindowSize fc conn =? 0) eqn:EW.
    + unfold IsNewlyBlocked. destruct (negb _ || _); do 6 eexists; (split; [reflexivity|]); intros [[_ ?]|[? _]]; (done || lia).
    + destruct (popNewStreamFrame_live s maxBytes (SendWindowSize fc conn)) as (s1 & f & more & -> & Hl); try done; [lia|].
      cbn [mbind outcome_bind]. unfold StreamFrame_DataLen. rewrite (proj2 (Z.ltb_lt 0 _)) by done. cbn zeta.
      destruct (AddBytesSent _ _ _) as [fc1 conn1]. do 6 eexists. split; [reflexivity|]. intros _. eexists. split; [done|]. left. cbn. intros Hnil.
      by rewrite Hnil in Hl.
Qed.

Lemma retransmission_live s maxBytes : Forall stream_frame_ok (ss_retransmissionQueue s) → ss_retransmissionQueue s ≠ [] →
  MinStreamFrameSize ≤ maxBytes ≤ MaxPacketBufferSize → ∃ s' f more, maybeGetRetransmission s maxBytes = Ret (s', Some f, more).
Proof.
  intros HF Hne Hm. unfold maybeGetRetransmission. destruct (ss_retransmissionQueue s) as [|f q]; [done|]. apply Forall_cons in HF as [Hf _].
  change (index (f :: q) 0) with (Ret f). cbn [mbind outcome_bind].
  destruct (StreamFrame_MaybeSplitOffFrame_spec f maxBytes) as (new & split & f' & len & -> & _ & _ & Hnew); [done|unfold MaxPacketBufferSize, maxVarInt2 in *; lia|].
  cbn [mbind outcome_bind]. destruct new as [g|].
  - destruct Hnew as [-> _]. eauto.
  - destruct Hnew as [-> Hz]. destruct split; [|eauto]. destruct (MaxDataLen_pos f maxBytes Hf Hm) as (m & Hm' & ?).
    rewrite Hz in Hm' by done. injection Hm'. lia.
Qed.

(** C12. Every STREAM frame of a stream carries the bytes the application wrote at its
    offset, and a final bit only at their end.  Until it is canceled, a stream loses
    nothing: each byte that was taken from it is in a frame that was acknowledged, is on
    its way, or waits for retransmission; and it is reported as completed only when
    everything written and the final bit have been acknowledged. *)
Theorem send_stream_reliable fe id h w m x y :
  0 ≤ x → send_reach fe (send_init id h w m x) y →
  (∀ f, f ∈ sy_sent y → at_offset (sy_written y) (sf_Offset f) (sf_Data f) ∧ (sf_Fin f = true → frame_end f = zlen (sy_written y))) ∧
  (ss_canceledWrite (sy_s y) = false →
   (∀ x, 0 ≤ x < ss_writeOffset (sy_s y) → Exists (λ f, covers f x) (sy_acked y ++ sy_inflight y ++ ss_retransmissionQueue (sy_s y))) ∧
   (ss_completed (sy_s y) = true →
     (∀ x, 0 ≤ x < zlen (sy_written y) → Exists (λ f, covers f x) (sy_acked y)) ∧ Exists (λ f, sf_Fin f = true) (sy_acked y))).
Proof.
  intros Hx Hy. destruct (send_reach_inv _ _ _ _ _ _ _ Hx Hy) as [V1 V2 V3 V4 V5 V6 V7 V8 V9 V10 V11 V12 V13]. split.
  - intros f Hf. rewrite Forall_forall in V1. destruct (V1 f Hf) as (_ & ? & _ & HF & _). split; [done|]. intros Hfin. by apply HF.
  - intros Hc. destruct (V9 Hc) as [C1 C2]. split; [done|]. intros Hcomp. destruct (V11 Hc Hcomp) as (HF & HI & HQ).
    unfold kept in *. rewrite HI, HQ, !app_nil_r in *. destruct (V8 HF) as (_ & _ & _ & HW). rewrite <- HW. auto.
Qed.

(** The frames of the queue are frames that can be sent. *)
Lemma queue_frames_ok y : send_inv y → is_varint (ss_streamID (sy_s y)) → zlen (sy_written y) ≤ MaxByteCount →
  Forall stream_frame_ok (ss_retransmissionQueue (sy_s y)).
Proof.
  intros Hinv Hid Hmax. destruct Hinv as [V1 V2 V3 V4 V5 V6 V7 V8 V9 V10 V11 V12 V13]. unfold kept in V2. rewrite !Forall_app in V2.
  destruct V2 as (_ & _ & HQ). eapply Forall_impl; [exact HQ|]. intros f (H1 & (a & b & Hw & Hl) & H3 & _ & H5).
  unfold frame_end in H3. pose proof (zlen_nonneg a). split; [by rewrite H1|lia|lia|done].
Qed.

Lemma pop_live y conn maxBytes : send_inv y → is_varint (ss_streamID (sy_s y)) → zlen (sy_written y) ≤ MaxByteCount →
  MinStreamFrameSize ≤ maxBytes ≤ MaxPacketBufferSize →
  ∃ s' fc' conn' events r more, popStreamFrame false (sy_s y) (sy_fc y) conn maxBytes = Ret (s', fc', conn', events, (r, more)) ∧
    (can_send (sy_s y) (sy_fc y) conn → ∃ f, r = Some (PoppedStream f) ∧ (ss_retransmissionQueue (sy_s y) = [] → sf_Data f ≠ [] ∨ sf_Fin f = true)).
Proof.
  intros Hinv Hid Hmax Hm. unfold popStreamFrame, popNewOrRetransmittedStreamFrame, can_send.
  destruct (_ || _) eqn:EC.
  { do 6 eexists. split; [reflexivity|]. intros (Hc & Hs & _). rewrite Hc, Hs in EC. by rewrite bool_decide_eq_false_2 in EC by (by intros []). }
  apply orb_false_iff in EC as [Hc Hs]. apply bool_decide_eq_false in Hs. rewrite <- eq_None_not_Some in Hs.
  destruct (ss_retransmissionQueue (sy_s y)) as [|f q] eqn:Eq.
  - change (0 <? zlen (@nil StreamFrame)) with false. cbn [mbind outcome_bind].
    destruct (pop_new_live (sy_s y) (sy_fc y) conn maxBytes) as (s1 & fc1 & conn1 & ev & r & more & -> & Hr); try done.
    { apply (sv_next _ Hinv). }
    { apply (sv_offset _ Hinv). }
    { destruct (sv_content _ Hinv) as (a & Ha & Hl); [by left|]. rewrite Ha, !zlen_app in Hmax. pose proof (zlen_nonneg (ss_dataForWriting (sy_s y))). lia. }
    cbn [mbind outcome_bind]. destruct r as [f|]; cbn [andb negb mbind outcome_bind]; do 6 eexists; (split; [reflexivity|]).
    + intros (_ & _ & [?|Hcan]); [done|]. destruct (Hr Hcan) as (f' & [= <-] & Hf). eauto.
    + intros (_ & _ & [?|Hcan]); [done|]. by destruct (Hr Hcan) as (f' & [=] & Hf).
  - rewrite (proj2 (Z.ltb_lt _ _)) by (rewrite zlen_cons; pose proof (zlen_nonneg q); lia).
    destruct (retransmission_live (sy_s y) maxBytes) as (s1 & g & more & ->); [by apply queue_frames_ok|by rewrite Eq|done|].
    cbn [andb negb mbind outcome_bind]. do 6 eexists. split; [reflexivity|]. intros _. eexists. split; [reflexivity|done].
Qed.

Lemma Write_round_live y p n base now : send_inv y → sy_writer y = Some (p, n, base) → is_ret (Write_round (sy_s y) p n now) = true.
Proof.
  intros Hinv Hw. unfold Write_round. destruct (_ && _) eqn:EB; [|by repeat case_match].
  apply andb_true_iff in EB as [EB Hd%Z.ltb_lt]. unfold canBufferStreamFrame, buffer_data, pool_slice, StreamFrame_DataLen in *.
  destruct (ss_nextFrame (sy_s y)) as [f|]; [pose proof (zlen_nonneg (sf_Data f))|];
    (rewrite (proj2 (andb_true_iff _ _)) by (rewrite Z.leb_le in *; lia)); done.
Qed.

(** C18. Without forward error correction a stream never gets stuck: as long as it holds
    something that can be sent (lost data, new data within the flow control window, the
    end of the stream), a packet with room for between [MinStreamFrameSize] and
    [MaxPacketBufferSize] bytes gets a frame of it, with data or the end of the stream if
    nothing was lost; acknowledgements and losses of the frames on their way and the
    rounds of [Write] never panic.  (With [FecEnable] the redundancy goes first: a packet that has no
    room for a whole symbol of it gets no frame.) *)
Theorem send_stream_live id h w m x y maxBytes :
  0 ≤ x → send_reach false (send_init id h w m x) y → is_varint (ss_streamID (sy_s y)) → zlen (sy_written y) ≤ MaxByteCount →
  MinStreamFrameSize ≤ maxBytes ≤ MaxPacketBufferSize →
  (∀ conn, ∃ s' fc' conn' events r more, popStreamFrame false (sy_s y) (sy_fc y) conn maxBytes = Ret (s', fc', conn', events, (r, more)) ∧
    (can_send (sy_s y) (sy_fc y) conn → ∃ f, r = Some (PoppedStream f) ∧ (ss_retransmissionQueue (sy_s y) = [] → sf_Data f ≠ [] ∨ sf_Fin f = true))) ∧
  (∀ f, f ∈ sy_inflight y → is_ret (frameAcked (sy_s y)) = true ∧ is_ret (queueRetransmission (sy_s y) f) = true) ∧
  (∀ p n base now, sy_writer y = Some (p, n, base) → is_ret (Write_round (sy_s y) p n now) = true).
Proof.
  intros Hx Hy Hid Hmax Hm. pose proof (send_reach_inv _ _ _ _ _ _ _ Hx Hy) as Hinv. split_and!.
  - intros conn. by apply pop_live.
  - intros f Hf. unfold frameAcked, queueRetransmission. destruct (ss_canceledWrite (sy_s y)) eqn:Hc; [done|].
    pose proof (sv_outstanding _ Hinv Hc) as Ho. apply list_elem_of_split in Hf as (l1 & l2 & Hl).
    rewrite Hl, zlen_app, zlen_cons in Ho. pose proof (zlen_nonneg l1). pose proof (zlen_nonneg l2).
    cbn [ss_numOutstandingFrames update]. rewrite !(proj2 (Z.ltb_ge _ 0)) by (cbn; lia). by destruct (isNewlyCompleted _).
  - intros p n base now Hw. by eapply Write_round_live.
Qed.

(** ** An example: three bytes are written, sent with the final bit, and acknowledged *)

Definition ex_conn : connectionFlowController := UpdateSendWindow (NewConnectionFlowController 100 100) 100.

Definition ex_frame : StreamFrame := {| sf_StreamID := 4; sf_Offset := 0; sf_Data := [1; 2; 3]; sf_Fin := false; sf_DataLenPresent := true |}.
Definition ex_fin : StreamFrame := {| sf_StreamID := 4; sf_Offset := 0; sf_Data := [1; 2; 3]; sf_Fin := true; sf_DataLenPresent := true |}.

Definition ex_s0 (h : FecHandler) : sendStream := newSendStream 4 h.
Definition ex_s1 (h : FecHandler) : sendStream := (ex_s0 h) <| ss_dataForWriting := [1; 2; 3] |>.
Definition ex_s2 (h : FecHandler) : sendStream := (ex_s0 h) <| ss_nextFrame := Some ex_frame |>.
Definition ex_s3 (h : FecHandler) : sendStream := (ex_s2 h) <| ss_ctxDone := true |> <| ss_finishedWriting := true |>.
Definition ex_s4 (h : FecHandler) : sendStream :=
  (ex_s3 h) <| ss_nextFrame := None |> <| ss_writeChan := true |> <| ss_writeOffset := 3 |> <| ss_finSent := true |> <| ss_numOutstandingFrames := 1 |>.
Definition ex_s5 (h : FecHandler) : sendStream := (ex_s4 h) <| ss_numOutstandingFrames := 0 |> <| ss_completed := true |>.

Definition ex_fc : streamFlowController := NewStreamFlowController 4 100 100 100.
Definition ex_fc' : streamFlowController := ex_fc <| sc_base ::= λ b, base_AddBytesSent b 3 |>.

(** The state in which the bytes and the end of the stream wait for a packet. *)
Lemma ex_send_written h : send_reach false (send_init 4 h 100 100 100) (mk_sys (ex_s3 h) ex_fc [1; 2; 3] None [] [] []).
Proof.
  eapply (send_reach_step _ _ (mk_sys (ex_s2 h) ex_fc [1; 2; 3] None [] [] []));
    [eapply (send_reach_step _ _ (mk_sys (ex_s1 h) ex_fc [1; 2; 3] (Some ([1; 2; 3], false, 0)) [] [] []));
      [eapply send_reach_step; [constructor|]|]|].
  - exact (send_begin false (send_init 4 h 100 100 100) [1; 2; 3] 0 (ex_s1 h) None eq_refl eq_refl).
  - exact (send_round false (mk_sys (ex_s1 h) ex_fc [1; 2; 3] (Some ([1; 2; 3], false, 0)) [] [] []) [1; 2; 3] false 0 0 (ex_s2 h)
             [onHasStreamData 4] (Some (3, None)) eq_refl eq_refl).
  - exact (send_close false (mk_sys (ex_s2 h) ex_fc [1; 2; 3] None [] [] [])).
Qed.

Lemma ex_send_run h : send_reach false (send_init 4 h 100 100 100) (mk_sys (ex_s5 h) ex_fc' [1; 2; 3] None [] [ex_fin] [ex_fin]).
Proof.
  eapply (send_reach_step _ _ (mk_sys (ex_s4 h) ex_fc' [1; 2; 3] None [ex_fin] [] [ex_fin])); [eapply send_reach_step; [apply ex_send_written|]|].
  - assert (popStreamFrame false (ex_s3 h) ex_fc ex_conn 1000 =
            Ret (ex_s4 h, ex_fc', base_AddBytesSent ex_conn 3, [], (Some (PoppedStream ex_fin), false))) as HP by (vm_compute; reflexivity).
    exact (send_pop false (mk_sys (ex_s3 h) ex_fc [1; 2; 3] None [] [] []) ex_conn 1000 _ _ _ _ _ _ HP).
  - assert (frameAcked (ex_s4 h) = Ret (ex_s5 h, [onStreamCompleted 4])) as HA by (vm_compute; reflexivity).
    exact (send_acked false (mk_sys (ex_s4 h) ex_fc' [1; 2; 3] None [ex_fin] [] [ex_fin]) [] ex_fin [] _ _ eq_refl HA).
Qed.

Lemma send_stream_reliable_witness : ∃ h y, NewFecHandler = Ret h ∧ send_reach false (send_init 4 h 100 100 100) y ∧
  sy_written y = [1; 2; 3] ∧ (∀ x, 0 ≤ x < 3 → Exists (λ f, covers f x) (sy_acked y)).
Proof.
  destruct (NewFecHandler_inv 4) as (h & Hh & _). pose proof (ex_send_run h) as Hy. eexists h, _. split_and!; [done|exact Hy|done|].
  destruct (send_stream_reliable false 4 h 100 100 100 _ ltac:(lia) Hy) as [_ HR]. by apply HR.
Defined.

(** The three bytes wait, and a packet gets them. *)
Lemma send_stream_live_witness : ∃ h, NewFecHandler = Ret h ∧
  can_send (ex_s3 h) ex_fc ex_conn ∧
  ∃ s' fc' conn' events f more, popStreamFrame false (ex_s3 h) ex_fc ex_conn 1000 = Ret (s', fc', conn', events, (Some (PoppedStream f), more)) ∧
    (sf_Data f ≠ [] ∨ sf_Fin f = true).
Proof.
  destruct (NewFecHandler_inv 4) as (h & Hh & _). exists h. split; [done|].
  assert (can_send (ex_s3 h) ex_fc ex_conn) as Hc by (split_and!; [done..|right; left; split; [done|by vm_compute]]). split; [done|].
  destruct (send_stream_live 4 h 100 100 100 _ 1000 ltac:(lia) (ex_send_written h)) as (HP & _ & _);
    [vm_compute; split; discriminate|vm_compute; discriminate|vm_compute; split; discriminate|].
  destruct (HP ex_conn) as (s' & fc' & conn' & ev & r & more & H & Hr). destruct (Hr Hc) as (f & -> & Hf).
  exists s', fc', conn', ev, f, more. split; [exact H|by apply Hf].
Defined.
