(* ===== verification/QuicReceiveStream.v ===== *)
(** * The receiving half of a stream ([receive_stream.go], [stream.go])

    STREAM frames, and the frames forward error correction recovers, go to the frame
    sorter, from where [Read] takes them in order.

    The operations run under the stream's mutex; [Read] waits for [readChan], and is
    modelled by what it does until it returns or waits.  The flow controllers are
    arguments and results, the calls of the stream's sender are listed as events,
    and the window updates the flow controllers queue as flags.  The clock does not
    advance within an operation. *)

From stdpp Require Import base list numbers strings gmap.
From Stdlib Require Import ZArith Lia.
From S2P Require Import Prelude QuicProtocol QuicFrames QuicFrameSorter QuicRtt QuicFlowControl QuicFec QuicSendStream.

Record receiveStream := mk_receiveStream {
  rs_streamID : Z;
  rs_frameQueue : frameSorter;
  rs_finalOffset : Z;
  rs_currentFrame : option (list Z);
  rs_currentFrameDone : option nat;
  rs_currentFrameIsLast : bool;
  rs_readPosInFrame : Z;
  rs_closeForShutdownErr : option go_error;
  rs_cancelReadErr : option go_error;
  rs_resetRemotelyErr : option go_error;
  rs_closedForShutdown : bool;
  rs_finRead : bool;
  rs_canceledRead : bool;
  rs_resetRemotely : bool;
  rs_readChan : bool;
  rs_deadline : Z;
  rs_fecHandler : FecHandler;
  rs_fecStarted : bool;
}.

#[global] Instance receiveStream_fields : Fields receiveStream := λ s,
  mk_receiveStream (rs_streamID s) (rs_frameQueue s) (rs_finalOffset s) (rs_currentFrame s) (rs_currentFrameDone s)
    (rs_currentFrameIsLast s) (rs_readPosInFrame s) (rs_closeForShutdownErr s) (rs_cancelReadErr s) (rs_resetRemotelyErr s)
    (rs_closedForShutdown s) (rs_finRead s) (rs_canceledRead s) (rs_resetRemotely s) (rs_readChan s) (rs_deadline s)
    (rs_fecHandler s) (rs_fecStarted s).

Definition newReceiveStream (streamID : Z) (fecHandler : FecHandler) : receiveStream := {|
  rs_streamID := streamID; rs_frameQueue := newFrameSorter; rs_finalOffset := MaxByteCount; rs_currentFrame := None;
  rs_currentFrameDone := None; rs_currentFrameIsLast := false; rs_readPosInFrame := 0; rs_closeForShutdownErr := None;
  rs_cancelReadErr := None; rs_resetRemotelyErr := None; rs_closedForShutdown := false; rs_finRead := false;
  rs_canceledRead := false; rs_resetRemotely := false; rs_readChan := false; rs_deadline := 0; rs_fecHandler := fecHandler;
  rs_fecStarted := false
|}.

Definition signalRead (s : receiveStream) : receiveStream := s <| rs_readChan := true |>.

(** ** Read *)

Definition current (s : receiveStream) : list Z := default [] (rs_currentFrame s).

Definition dequeueNextFrame (s : receiveStream) : outcome receiveStream :=
  '(q, (offset, data, done)) ← Pop (call (rs_currentFrameDone s) (rs_frameQueue s));
  Ret (s <| rs_frameQueue := q |> <| rs_currentFrame := data |> <| rs_currentFrameDone := done |>
         <| rs_currentFrameIsLast := rs_finalOffset s <=? offset + zlen (default [] data) |> <| rs_readPosInFrame := 0 |>).

(** What the inner loop of [readImpl] does: it returns an error, ends or waits. *)
Inductive waiting := WaitErr (e : option go_error) | WaitBreak | WaitChan.

Definition read_wait (s : receiveStream) (now : Z) : waiting :=
  if rs_closedForShutdown s then WaitErr (rs_closeForShutdownErr s)
  else if rs_canceledRead s then WaitErr (rs_cancelReadErr s)
  else if rs_resetRemotely s then WaitErr (rs_resetRemotelyErr s)
  else if negb (rs_deadline s =? 0) && negb (now <? rs_deadline s) then WaitErr (Some errDeadline)
  else if bool_decide (is_Some (rs_currentFrame s)) || rs_currentFrameIsLast s then WaitBreak
  else WaitChan.

(** [Read] returns whether the stream is completed, the data and an error, or waits
    for [readChan]; it has read nothing then. *)
Inductive reading := ReadReturn (completed : bool) (data : list Z) (err : option go_error) | ReadWait.

Definition EOF_error : option go_error := Some EOF.

(** The part of a round after the inner loop: the data that is copied. *)
Definition read_copy (s : receiveStream) (fc : streamFlowController) (conn : connectionFlowController) (n : Z) (now : Z) :
    receiveStream * streamFlowController * connectionFlowController * (bool * bool) * list Z :=
  let data := take (Z.to_nat n) (drop (Z.to_nat (rs_readPosInFrame s)) (current s)) in
  let m := zlen data in
  let s := s <| rs_readPosInFrame ::= λ p, p + m |> in
  if negb (rs_resetRemotely s) then
    let '(fc, conn, queue) := AddBytesRead fc conn m now in (s, fc, conn, queue, data)
  else (s, fc, conn, (false, false), data).

(** The rounds of the outer loop for a buffer of [n] bytes, [data] of which are
    filled; [entered]: the round starts at the inner loop, after a wait. *)
Fixpoint read_loop (fuel : nat) (s : receiveStream) (fc : streamFlowController) (conn : connectionFlowController) (n : Z)
    (data : list Z) (entered : bool) (now : Z) :
    outcome (receiveStream * streamFlowController * connectionFlowController * list (bool * bool) * reading) :=
  match fuel with
  | O => Ret (s, fc, conn, [], ReadReturn false data None)
  | S fuel =>
      if negb (zlen data <? n) then Ret (s, fc, conn, [], ReadReturn false data None) else
      s ← (if negb entered && (bool_decide (rs_currentFrame s = None) || (zlen (current s) <=? rs_readPosInFrame s))
           then dequeueNextFrame s else Ret s);
      if negb entered && bool_decide (rs_currentFrame s = None) && (0 <? zlen data)
      then Ret (s, fc, conn, [], ReadReturn false data (rs_closeForShutdownErr s)) else
      match read_wait s now with
      | WaitErr e => Ret (s, fc, conn, [], ReadReturn false data e)
      | WaitChan => Ret (s, fc, conn, [], ReadWait)
      | WaitBreak =>
          if zlen (current s) <? rs_readPosInFrame s
          then Ret (s, fc, conn, [], ReadReturn false data (Some (GoError "BUG: readPosInFrame > frame.DataLen in stream.Read"))) else
          let '(s, fc, conn, queue, new) := read_copy s fc conn (n - zlen data) now in
          let data := data ++ new in
          if (zlen (current s) <=? rs_readPosInFrame s) && rs_currentFrameIsLast s then
            Ret (s <| rs_finRead := true |>, fc, conn, [queue], ReadReturn true data EOF_error)
          else
            '(s, fc, conn, queues, r) ← read_loop fuel s fc conn n data false now;
            Ret (s, fc, conn, queue :: queues, r)
      end
  end.

(** [readImpl] with a buffer of [n] bytes, up to its return or its wait.  A round
    reads at least a byte or returns. *)
Definition readImpl (s : receiveStream) (fc : streamFlowController) (conn : connectionFlowController) (n : Z) (now : Z) :
    outcome (receiveStream * streamFlowController * connectionFlowController * list (bool * bool) * reading) :=
  if rs_finRead s then Ret (s, fc, conn, [], ReadReturn false [] EOF_error)
  else if rs_canceledRead s then Ret (s, fc, conn, [], ReadReturn false [] (rs_cancelReadErr s))
  else if rs_resetRemotely s then Ret (s, fc, conn, [], ReadReturn false [] (rs_resetRemotelyErr s))
  else if rs_closedForShutdown s then Ret (s, fc, conn, [], ReadReturn false [] (rs_closeForShutdownErr s))
  else read_loop (S (Z.to_nat n)) s fc conn n [] false now.

(** A waiting [Read] is woken up: by [readChan] or by its deadline. *)
Definition read_wake (s : receiveStream) (fc : streamFlowController) (conn : connectionFlowController) (n : Z) (signaled : bool) (now : Z) :
    outcome (receiveStream * streamFlowController * connectionFlowController * list (bool * bool) * reading) :=
  let s := if signaled then s <| rs_readChan := false |> else s in
  s ← (if bool_decide (rs_currentFrame s = None) then dequeueNextFrame s else Ret s);
  read_loop (S (Z.to_nat n)) s fc conn n [] true now.

(** The event of a [Read] that completed the stream. *)
Definition read_events (s : receiveStream) (r : reading) : list stream_event :=
  match r with ReadReturn true _ _ => [onStreamCompleted (rs_streamID s)] | _ => [] end.

(** ** Frames *)

Section ReceiveStream.
Context (FecEnable : bool).

(** The results: whether the stream is completed, and an error.  [pn]: the number of
    the packet, for forward error correction ([handleStreamFrameImpl2]); the frames
    of [CloseRemote] come without ([handleStreamFrameImpl]). *)
Definition handleStreamFrameImpl (s : receiveStream) (fc : streamFlowController) (conn : connectionFlowController)
    (frame : StreamFrame) (pn : option Z) (putBack : option nat) :
    outcome (receiveStream * streamFlowController * connectionFlowController * bool * option go_error) :=
  let maxOffset := sf_Offset frame + StreamFrame_DataLen frame in
  let '(fc, conn, err) := UpdateHighestReceived fc conn maxOffset (sf_Fin frame) in
  match err with
  | Some e => Ret (s, fc, conn, false, Some e)
  | None =>
      let newlyRcvdFinalOffset := sf_Fin frame && (rs_finalOffset s =? MaxByteCount) in
      let s := if sf_Fin frame then s <| rs_finalOffset := maxOffset |> else s in
      if rs_canceledRead s then Ret (s, fc, conn, newlyRcvdFinalOffset, None) else
      s ← (match pn with
           | Some pn => if FecEnable then h ← PushStreamFrameToDecode (rs_fecHandler s) frame pn; Ret (s <| rs_fecHandler := h |>) else Ret s
           | None => Ret s
           end);
      '(q, err) ← Push (rs_frameQueue s) (sf_Data frame) (sf_Offset frame) putBack;
      let s := s <| rs_frameQueue := q |> in
      match err with
      | Some e => Ret (s, fc, conn, false, Some e)
      | None => Ret (signalRead s, fc, conn, false, None)
      end
  end.

(** A stream that is completed gives the rest of its data back to the connection. *)
Definition complete (s : receiveStream) (fc : streamFlowController) (conn : connectionFlowController) (completed : bool) (now : Z) :
    connectionFlowController * bool * list stream_event :=
  if completed then let '(conn, queueConn) := Abandon fc conn now in (conn, queueConn, [onStreamCompleted (rs_streamID s)])
  else (conn, false, []).

Definition handleStreamFrame (s : receiveStream) (fc : streamFlowController) (conn : connectionFlowController)
    (frame : StreamFrame) (pn : option Z) (putBack : option nat) (now : Z) :
    outcome (receiveStream * streamFlowController * connectionFlowController * bool * list stream_event * option go_error) :=
  '(s, fc, conn, completed, err) ← handleStreamFrameImpl s fc conn frame pn putBack;
  let '(conn, queueConn, events) := complete s fc conn completed now in
  Ret (s, fc, conn, queueConn, events, err).

Definition handleResetStreamFrameImpl (s : receiveStream) (fc : streamFlowController) (conn : connectionFlowController) (finalSize : Z) :
    receiveStream * streamFlowController * connectionFlowController * bool * option go_error :=
  if rs_closedForShutdown s then (s, fc, conn, false, None) else
  let '(fc, conn, err) := UpdateHighestReceived fc conn finalSize true in
  match err with
  | Some e => (s, fc, conn, false, Some e)
  | None =>
      let newlyRcvdFinalOffset := rs_finalOffset s =? MaxByteCount in
      let s := s <| rs_finalOffset := finalSize |> in
      if rs_resetRemotely s then (s, fc, conn, false, None) else
      let s := s <| rs_resetRemotely := true |> <| rs_resetRemotelyErr := Some (GoError "stream canceled") |> in
      (signalRead s, fc, conn, newlyRcvdFinalOffset, None)
  end.

Definition handleResetStreamFrame (s : receiveStream) (fc : streamFlowController) (conn : connectionFlowController) (finalSize now : Z) :
    receiveStream * streamFlowController * connectionFlowController * bool * list stream_event * option go_error :=
  let '(s, fc, conn, completed, err) := handleResetStreamFrameImpl s fc conn finalSize in
  let '(conn, queueConn, events) := complete s fc conn completed now in
  (s, fc, conn, queueConn, events, err).

(** [go s.pushFecDecodedFrame()] is started once. *)
Definition handleFecFrame (s : receiveStream) (frame : FecFrame) : outcome receiveStream :=
  h ← PushFecFrameToDecode (rs_fecHandler s) frame;
  let s := s <| rs_fecHandler := h |> in
  Ret (if FecEnable && negb (rs_fecStarted s) then s <| rs_fecStarted := true |> else s).

(** A round of [pushFecDecodedFrame] that receives a frame; the flag: it ends. *)
Definition pushFecDecodedFrame (s : receiveStream) (frame : StreamFrame) (putBack : option nat) : outcome (receiveStream * bool) :=
  '(q, err) ← Push (rs_frameQueue s) (sf_Data frame) (sf_Offset frame) putBack;
  let s := s <| rs_frameQueue := q |> in
  match err with
  | Some _ => Ret (s, true)
  | None => Ret (signalRead s, false)
  end.
End ReceiveStream.

(** ** The end of the stream *)

Definition cancelReadImpl (s : receiveStream) (errorCode : Z) : receiveStream * list stream_event * bool :=
  if rs_finRead s || rs_canceledRead s || rs_resetRemotely s then (s, [], false) else
  let s := s <| rs_canceledRead := true |> <| rs_cancelReadErr := Some (GoError "Read on stream canceled") |> in
  (signalRead s, [queueControlFrame (StopSendingFrame (rs_streamID s) errorCode)], negb (rs_finalOffset s =? MaxByteCount)).

Definition CancelRead (s : receiveStream) (fc : streamFlowController) (conn : connectionFlowController) (errorCode now : Z) :
    receiveStream * connectionFlowController * bool * list stream_event :=
  let '(s, events, completed) := cancelReadImpl s errorCode in
  let '(conn, queueConn, events') := complete s fc conn completed now in
  (s, conn, queueConn, events ++ events').

Definition SetReadDeadline (s : receiveStream) (t : Z) : receiveStream := signalRead (s <| rs_deadline := t |>).

Definition receive_closeForShutdown (s : receiveStream) (err : go_error) : receiveStream :=
  signalRead (s <| rs_closedForShutdown := true |> <| rs_closeForShutdownErr := Some err |>).

Definition receive_getWindowUpdate (fc : streamFlowController) (conn : connectionFlowController) (rttStats : RTTStats) (now : Z) :
    streamFlowController * connectionFlowController * Z := GetWindowUpdate fc conn rttStats now.

(** ** Both halves ([stream.go]) *)

(** The completion of a half, as its [uniStreamSender] reports it. *)
Record halves := mk_halves { receiveStreamCompleted : bool; sendStreamCompleted : bool }.

Definition checkIfCompleted (c : halves) (id : Z) : list stream_event :=
  if sendStreamCompleted c && receiveStreamCompleted c then [onStreamCompleted id] else [].

Definition sendHalfCompleted (c : halves) (id : Z) : halves * list stream_event :=
  let c := {| receiveStreamCompleted := receiveStreamCompleted c; sendStreamCompleted := true |} in (c, checkIfCompleted c id).

Definition receiveHalfCompleted (c : halves) (id : Z) : halves * list stream_event :=
  let c := {| receiveStreamCompleted := true; sendStreamCompleted := sendStreamCompleted c |} in (c, checkIfCompleted c id).
