(* ===== verification/QuicReceiveStreamTheorems.v ===== *)
(** * A receive stream delivers the stream

    The frames carry parts of one stream, whose final size is [F].  Whatever frames
    come, in whatever order, and however [Read] is called, the application reads the
    beginning of the stream, and the end of the stream when it has read all of it;
    a byte that is next and has come is never withheld. *)

From stdpp Require Import base list numbers strings gmap.
From Stdlib Require Import ZArith Lia.
From S2P Require Import Prelude LinkedList QuicProtocol QuicFrames QuicFrameSorter QuicFrameSorterQueue QuicFrameSorterGaps QuicFrameSorterPush.
From S2P Require Import QuicFrameSorterTheorems QuicRtt QuicFlowControl QuicFlowControlTheorems QuicFec QuicFecTheorems QuicSendStream QuicReceiveStream.

Section Receive.
Context (stream : Z → Z) (F : Z) (HF : 0 ≤ F < MaxByteCount).

(** ** The invariant *)

Definition read_pos (s : receiveStream) : Z := fs_readPos (rs_frameQueue s).

(** [out] is what the application has read. *)
Record rinv (s : receiveStream) (out : list Z) : Prop := {
  ri_sorter : sorter_inv stream (rs_frameQueue s);
  ri_pos : 0 ≤ rs_readPosInFrame s ≤ zlen (current s) ≤ read_pos s;
  ri_current : current s = segment stream (read_pos s - zlen (current s)) (read_pos s);
  ri_out : out = segment stream 0 (read_pos s - zlen (current s) + rs_readPosInFrame s);
  ri_final : rs_finalOffset s = MaxByteCount ∨ rs_finalOffset s = F;
  ri_below x : 0 ≤ x < MaxByteCount → missing (rs_frameQueue s) x ∨ x < F;
  ri_last : rs_currentFrameIsLast s = true → rs_finalOffset s = F ∧ read_pos s = F;
  ri_fin : rs_finRead s = true → out = segment stream 0 F;
}.

Lemma rinv_out_len s out : rinv s out → zlen out = read_pos s - zlen (current s) + rs_readPosInFrame s.
Proof. intros []. rewrite ri_out0, segment_len; lia. Qed.

Lemma read_pos_le q : sorter_inv stream q → 0 ≤ fs_readPos q → (∀ x, 0 ≤ x < MaxByteCount → missing q x ∨ x < F) → fs_readPos q ≤ F.
Proof.
  intros Hinv H0 Hb. destruct (decide (fs_readPos q ≤ F)) as [|Hgt]; [done|]. exfalso.
  destruct (go_last _ (si_gaps _ _ Hinv)) as (gs' & g & Eg & Hg).
  assert (fs_readPos q ≤ MaxByteCount - 1) as HR.
  { assert (bi_Start g.2 < bi_End g.2) as Hne.
    { destruct (si_gaps _ _ Hinv) as [_ Hne _]. rewrite Eg in Hne. by apply Forall_app in Hne as [_ [Hne _]%Forall_cons]. }
    apply (si_read _ _ Hinv). rewrite Eg. apply in_gap_here. lia. }
  destruct (Hb F) as [Hm|]; [lia| |lia]. apply (si_read _ _ Hinv) in Hm. lia.
Qed.

Lemma newReceiveStream_inv id h : rinv (newReceiveStream id h) [].
Proof.
  destruct (newFrameSorter_inv stream) as [Hinv Hm]. split; cbn; try done; try (by left).
  intros x Hx. left. by apply Hm.
Qed.

(** ** Reading *)

(** The fields [Read] does not change, but for [finRead]. *)
Definition same_rest (s s' : receiveStream) : Prop :=
  rs_finalOffset s' = rs_finalOffset s ∧ rs_closedForShutdown s' = rs_closedForShutdown s ∧ rs_canceledRead s' = rs_canceledRead s ∧
  rs_resetRemotely s' = rs_resetRemotely s ∧ rs_deadline s' = rs_deadline s ∧
  ∀ x, missing (rs_frameQueue s') x ↔ missing (rs_frameQueue s) x.

Lemma same_rest_trans s1 s2 s3 : same_rest s1 s2 → same_rest s2 s3 → same_rest s1 s3.
Proof.
  intros (A1 & A2 & A3 & A4 & A5 & A6) (B1 & B2 & B3 & B4 & B5 & B6). unfold same_rest.
  split_and!; try congruence. intros x. by rewrite B6.
Qed.

Lemma dequeue_spec s out : rinv s out → rs_readPosInFrame s = zlen (current s) →
  ∃ s', dequeueNextFrame s = Ret s' ∧ rinv s' out ∧ same_rest s s' ∧ rs_finRead s' = rs_finRead s ∧
    match rs_currentFrame s' with
    | Some c => 0 < zlen c ∧ rs_readPosInFrame s' = 0
    | None => missing (rs_frameQueue s) (zlen out)
    end ∧ (rs_finalOffset s = F → read_pos s' = F → rs_currentFrameIsLast s' = true).
Proof.
  intros Hinv Hex. pose proof (rinv_out_len _ _ Hinv) as Hlen. destruct Hinv as [R1 R2 R3 R4 R5 R6 R7 R8].
  unfold dequeueNextFrame. set (q := call (rs_currentFrameDone s) (rs_frameQueue s)).
  assert (sorter_inv stream q ∧ fs_readPos q = read_pos s ∧ ∀ x, missing q x ↔ missing (rs_frameQueue s) x) as (Hq & Hp & Hm).
  { unfold q. split; [by apply inv_call|]. unfold read_pos. by destruct (rs_currentFrameDone s). }
  destruct (Pop_spec stream q Hq) as (q' & data & cb & -> & Hq' & Hm' & Hd); [lia|]. cbn [mbind outcome_bind].
  assert (∀ x, 0 ≤ x < MaxByteCount → missing q' x ∨ x < F) as Hbelow by (intros x Hx; rewrite Hm', Hm; auto).
  eexists. split; [reflexivity|]. unfold same_rest, read_pos, current in *. cbn. rewrite Hp in *.
  replace (fs_readPos (rs_frameQueue s) - zlen (default [] (rs_currentFrame s)) + rs_readPosInFrame s) with (fs_readPos (rs_frameQueue s)) in * by lia.
  assert (fs_readPos (rs_frameQueue s) + zlen (default [] data) = fs_readPos q' ∧ 0 ≤ fs_readPos q' ∧
    default [] data = segment stream (fs_readPos (rs_frameQueue s)) (fs_readPos q')) as (Hrp & Hrp0 & Hseg).
  { destruct data as [data|]; cbn [default from_option id].
    - destruct Hd as (Hd & Hlt & _). rewrite Hd at 1. rewrite segment_len by lia. split_and!; [lia|lia|done].
    - destruct Hd as [-> _]. unfold segment. rewrite Hp, Z.sub_diag, zlen_nil. split_and!; [lia|lia|done]. }
  pose proof (read_pos_le q' Hq' Hrp0 Hbelow) as HleF. pose proof (zlen_nonneg (default [] data)).
  split_and!; try done.
  - split; cbn; unfold read_pos, current; cbn; try done; try lia.
    + rewrite <- Hrp at 1. rewrite Z.add_simpl_r. done.
    + rewrite R4. f_equal. lia.
  - intros x. by rewrite Hm'.
  - destruct data as [data|]; [cbn in *; destruct Hd as (_ & Hlt & _); lia|]. destruct Hd as [-> Hmiss]. rewrite Hlen. by apply Hm in Hmiss.
  - intros HfF HrF. apply Z.leb_le. lia.
Qed.

Lemma segment_copy a x b n : a ≤ x ≤ b → 0 ≤ n →
  take (Z.to_nat n) (drop (Z.to_nat (x - a)) (segment stream a b)) = segment stream x (x + Z.min n (b - x)).
Proof.
  intros Hx Hn. pose proof (segment_len stream a x ltac:(lia)) as H1. pose proof (segment_len stream x b ltac:(lia)) as H2. unfold zlen in H1, H2.
  rewrite (segment_app stream a x b), drop_app_length' by lia.
  destruct (decide (n ≤ b - x)).
  - rewrite Z.min_l, (segment_app stream x (x + n) b) by lia. apply take_app_length'.
    pose proof (segment_len stream x (x + n) ltac:(lia)) as H3. unfold zlen in H3. lia.
  - rewrite take_ge by lia. f_equal. lia.
Qed.

(** The data [read_copy] takes. *)
Lemma read_copy_spec s fc conn n now out s' fc' conn' queue new : rinv s out → 0 < n →
  read_copy s fc conn n now = (s', fc', conn', queue, new) →
  s' = s <| rs_readPosInFrame ::= λ p, p + zlen new |> ∧ rinv s' (out ++ new) ∧ zlen new = Z.min n (zlen (current s) - rs_readPosInFrame s).
Proof.
  intros Hinv Hn. pose proof (rinv_out_len _ _ Hinv) as Hlen. destruct Hinv as [R1 R2 R3 R4 R5 R6 R7 R8].
  set (m := Z.min n (zlen (current s) - rs_readPosInFrame s)). unfold read_copy.
  set (data := take _ _).
  assert (data = segment stream (zlen out) (zlen out + m)) as Hdata.
  { pose proof (segment_copy (read_pos s - zlen (current s)) (zlen out) (read_pos s) n ltac:(lia) ltac:(lia)) as E.
    replace (zlen out - (read_pos s - zlen (current s))) with (rs_readPosInFrame s) in E by lia.
    unfold data. rewrite R3, E. f_equal. lia. }
  assert (zlen data = m) as Hm by (rewrite Hdata, segment_len; lia).
  clearbody data. intros HR.
  assert (s' = s <| rs_readPosInFrame ::= λ p, p + zlen data |> ∧ new = data) as [-> ->].
  { destruct (negb _); [destruct (AddBytesRead _ _ _ _) as [[fc1 conn1] q1]|]; by injection HR as <- _ _ _ <-. }
  split; [done|]. split; [|done]. clear HR.
  split; unfold read_pos, current in *; cbn in *; try done; try lia.
  - rewrite Hdata, R4 at 1. rewrite Hlen, Hm. rewrite <- segment_app by lia. f_equal. lia.
  - intros Hf. specialize (R8 Hf). rewrite R8 in Hlen. rewrite segment_len in Hlen by lia.
    assert (read_pos s ≤ F) by (apply read_pos_le; [done|unfold read_pos in *; lia|done]).
    assert (m = 0) by (unfold read_pos in *; lia). rewrite R8, Hdata. replace (zlen out + m) with (zlen out) by lia. unfold segment at 2.
    rewrite Z.sub_diag. apply app_nil_r.
Qed.
(** An error, or the deadline, ends [Read]. *)
Definition blocked (s : receiveStream) (now : Z) : bool :=
  rs_closedForShutdown s || rs_canceledRead s || rs_resetRemotely s || (negb (rs_deadline s =? 0) && negb (now <? rs_deadline s)).

Lemma blocked_same s s' now : same_rest s s' → blocked s' now = blocked s now.
Proof. intros (_ & H1 & H2 & H3 & H4 & _). unfold blocked. by rewrite H1, H2, H3, H4. Qed.

Lemma read_wait_spec s now :
  match read_wait s now with
  | WaitErr _ => blocked s now = true
  | WaitBreak => blocked s now = false ∧ (is_Some (rs_currentFrame s) ∨ rs_currentFrameIsLast s = true)
  | WaitChan => blocked s now = false ∧ rs_currentFrame s = None ∧ rs_currentFrameIsLast s = false
  end.
Proof.
  unfold read_wait, blocked. destruct (rs_closedForShutdown s), (rs_canceledRead s), (rs_resetRemotely s), (negb _ && negb _); try done. cbn.
  destruct (rs_currentFrame s), (rs_currentFrameIsLast s); cbn; eauto.
Qed.

(** Nothing of the current frame is left, and nothing follows. *)
Definition starved (s : receiveStream) (next : Z) : Prop :=
  rs_currentFrame s = None ∧ missing (rs_frameQueue s) next ∧ (rs_finalOffset s = F → read_pos s = F → rs_currentFrameIsLast s = true).

Definition has_more (s : receiveStream) (next : Z) : Prop :=
  (∃ c, rs_currentFrame s = Some c ∧ rs_readPosInFrame s < zlen c) ∨ starved s next.

(** What [Read] promises; [base] was read before. *)
Definition reads (s : receiveStream) (base data : list Z) (n now : Z) (s' : receiveStream) (r : reading) : Prop :=
  same_rest s s' ∧
  match r with
  | ReadReturn completed d e =>
      rinv s' (base ++ d) ∧ data `prefix_of` d ∧ rs_finRead s' = completed ∧ (completed = true → e = EOF_error) ∧
      (d ≠ [] ∨ n ≤ 0 ∨ blocked s now = true ∨ completed = true)
  | ReadWait => data = [] ∧ rinv s' base ∧ rs_finRead s' = false ∧ starved s' (zlen base) ∧ rs_currentFrameIsLast s' = false ∧ blocked s now = false
  end.

Lemma reads_trans s1 s2 base data1 data2 n now s' r : same_rest s1 s2 → data1 `prefix_of` data2 → data2 ≠ [] →
  reads s2 base data2 n now s' r → reads s1 base data1 n now s' r.
Proof.
  intros H12 Hp Hne [Hs Hr]. split; [by eapply same_rest_trans|]. rewrite <- (blocked_same s1 s2) by done. destruct r as [c d e|].
  - destruct Hr as (? & ? & ? & ? & ?). split_and!; try done. by etrans.
  - by destruct Hr as [-> _].
Qed.

(** The first part of a round: the next frame. *)
Lemma read_next s base data (entered : bool) : rinv s (base ++ data) → rs_finRead s = false → (entered = true → has_more s (zlen (base ++ data))) →
  ∃ s', (if negb entered && (bool_decide (rs_currentFrame s = None) || (zlen (current s) <=? rs_readPosInFrame s)) then dequeueNextFrame s else Ret s) = Ret s' ∧
    rinv s' (base ++ data) ∧ same_rest s s' ∧ rs_finRead s' = false ∧ has_more s' (zlen (base ++ data)).
Proof.
  intros Hinv Hf He. destruct (negb entered && _) eqn:E.
  - apply andb_true_iff in E as [_ E]. destruct (dequeue_spec s _ Hinv) as (s' & -> & Hinv' & Hs & Hf' & Hc & Hl).
    { pose proof (ri_pos _ _ Hinv). apply orb_true_iff in E as [E|E]; [|lia]. apply bool_decide_eq_true in E.
      unfold current in *. rewrite E in *. cbn in *. rewrite zlen_nil in *. lia. }
    exists s'. split_and!; [done|done|done|by rewrite Hf'|]. destruct (rs_currentFrame s') as [c|] eqn:Ec.
    + left. exists c. split; [done|]. lia.
    + right. split; [done|]. destruct Hs as (Hfo & _ & _ & _ & _ & Hm). split; [by apply Hm|]. by rewrite Hfo.
  - exists s. split_and!; [done|done|by unfold same_rest|done|]. destruct entered; [by apply He|]. cbn in E.
    apply orb_false_iff in E as [E1 E2]. apply bool_decide_eq_false in E1. left. unfold current in E2.
    destruct (rs_currentFrame s) as [c|]; [|done]. exists c. split; [done|]. cbn in E2. lia.
Qed.
Lemma same_rest_refl s : same_rest s s.
Proof. by unfold same_rest. Qed.

Lemma read_loop_spec fuel : ∀ s fc conn n data entered now base,
  rinv s (base ++ data) → rs_finRead s = false → (entered = true → data = [] ∧ has_more s (zlen (base ++ data))) →
  (Z.to_nat (n - zlen data) < fuel)%nat →
  ∃ s' fc' conn' queues r, read_loop fuel s fc conn n data entered now = Ret (s', fc', conn', queues, r) ∧ reads s base data n now s' r.
Proof.
  induction fuel as [|fuel IH]; intros s fc conn n data entered now base Hinv Hfr Hent Hfuel; [lia|]. cbn [read_loop].
  pose proof (zlen_nonneg data) as Hd0. destruct (zlen data <? n) eqn:En; cbn [negb].
  2: { do 5 eexists. split; [reflexivity|]. split; [apply same_rest_refl|]. split_and!; try done.
       destruct data; [right; left; cbn in *; rewrite zlen_nil in *; lia|by left]. }
  destruct (read_next s base data entered Hinv Hfr) as (s1 & -> & Hinv1 & Hs1 & Hf1 & Hmore); [by intros ?; apply Hent|]. cbn [mbind outcome_bind].
  destruct (negb entered && bool_decide (rs_currentFrame s1 = None) && _) eqn:E1.
  { apply andb_true_iff in E1 as [_ Hpos%Z.ltb_lt]. do 5 eexists. split; [reflexivity|]. split; [done|]. split_and!; try done.
    left. intros ->. done. }
  pose proof (read_wait_spec s1 now) as Hw. rewrite (blocked_same s s1) in Hw by done. destruct (read_wait s1 now) as [e| |].
  - do 5 eexists. split; [reflexivity|]. split; [done|]. split_and!; try done. by do 2 right; left.
  - destruct Hw as [Hb Hcur]. pose proof (ri_pos _ _ Hinv1) as Hpos. rewrite (proj2 (Z.ltb_ge _ _)) by lia.
    destruct (read_copy s1 fc conn (n - zlen data) now) as [[[[s2 fc2] conn2] queue] new] eqn:EC.
    assert (0 < n - zlen data) as Hn0 by lia.
    destruct (read_copy_spec _ _ _ _ _ _ _ _ _ _ _ Hinv1 Hn0 EC) as (-> & Hinv2 & Hnew). rewrite <- app_assoc in Hinv2.
    set (s2 := s1 <| rs_readPosInFrame ::= λ p, p + zlen new |>) in *.
    assert (same_rest s s2) as Hs2 by (eapply same_rest_trans; [exact Hs1|by unfold same_rest]).
    destruct (_ && rs_currentFrameIsLast s2) eqn:EL.
    + apply andb_true_iff in EL as [EL EL2]. do 5 eexists. split; [reflexivity|].
      split; [exact Hs2|]. split_and!; [|by apply prefix_app_r|done|done|by do 3 right].
      destruct Hinv2 as [R1 R2 R3 R4 R5 R6 R7 R8]. split; try done. intros _. destruct (R7 EL2) as [_ HrF].
      cbn. rewrite R4. f_equal. unfold read_pos, current in *. cbn in *. lia.
    + assert (0 < zlen new) as Hnpos.
      { destruct Hmore as [(c & Hc & Hlt)|(Hc & _ & _)].
        - unfold current in Hnew. rewrite Hc in Hnew. cbn in Hnew. lia.
        - destruct Hcur as [Hcur|Hlast]; [rewrite Hc in Hcur; by destruct Hcur|]. exfalso.
          assert (current s1 = []) as E0 by (unfold current; by rewrite Hc). pose proof (zlen_nonneg new).
          change (current s2) with (current s1) in EL. change (rs_currentFrameIsLast s2) with (rs_currentFrameIsLast s1) in EL.
          change (rs_readPosInFrame s2) with (rs_readPosInFrame s1 + zlen new) in EL.
          rewrite E0, Hlast, zlen_nil, andb_true_r in *. lia. }
      destruct (IH s2 fc2 conn2 n (data ++ new) false now base) as (s' & fc' & conn' & queues & r & -> & Hr); [done|done|done|rewrite zlen_app; lia|].
      cbn [mbind outcome_bind]. do 5 eexists. split; [reflexivity|].
      eapply reads_trans; [exact Hs2|by apply prefix_app_r| |exact Hr]. intros [_ Hnil]%app_eq_nil. rewrite Hnil in Hnpos. done.
  - destruct Hw as (Hb & Hc & Hlast). do 5 eexists. split; [reflexivity|]. split; [done|].
    assert (data = []) as ->.
    { destruct entered; [by apply Hent|]. rewrite Hc, bool_decide_eq_true_2 in E1 by done. cbn in E1. apply zlen_0_inv. lia. }
    rewrite app_nil_r in *. split_and!; try done. destruct Hmore as [(c & Hc' & _)|]; [congruence|done].
Qed.

(** [Read] and its wake-up. *)
Lemma readImpl_spec s fc conn n now base : rinv s base →
  ∃ s' fc' conn' queues r, readImpl s fc conn n now = Ret (s', fc', conn', queues, r) ∧
    (rs_finRead s = true ∧ s' = s ∧ r = ReadReturn false [] EOF_error ∨ rs_finRead s = false ∧ reads s base [] n now s' r).
Proof.
  intros Hinv. unfold readImpl. destruct (rs_finRead s) eqn:Ef; [do 5 eexists; split; [reflexivity|by left]|].
  assert (∀ e, blocked s now = true → reads s base [] n now s (ReadReturn false [] e)) as HB.
  { intros e Hb. split; [apply same_rest_refl|]. rewrite app_nil_r. split_and!; try done. by do 2 right; left. }
  unfold blocked in HB.
  destruct (rs_canceledRead s) eqn:Ec; [do 5 eexists; split; [reflexivity|]; right; split; [done|]; apply HB; by rewrite orb_true_r|].
  destruct (rs_resetRemotely s) eqn:Er; [do 5 eexists; split; [reflexivity|]; right; split; [done|]; apply HB; by rewrite orb_true_r|].
  destruct (rs_closedForShutdown s) eqn:Es; [do 5 eexists; split; [reflexivity|]; right; split; [done|]; by apply HB|].
  destruct (read_loop_spec (S (Z.to_nat n)) s fc conn n [] false now base) as (s' & fc' & conn' & queues & r & -> & Hr);
    [by rewrite app_nil_r|done|done|rewrite zlen_nil; lia|]. do 5 eexists. split; [reflexivity|]. by right.
Qed.

Lemma read_wake_spec s fc conn n signaled now base : rinv s base → rs_finRead s = false → rs_currentFrame s = None →
  ∃ s' fc' conn' queues r, read_wake s fc conn n signaled now = Ret (s', fc', conn', queues, r) ∧ reads s base [] n now s' r.
Proof.
  intros Hinv Hf Hc. unfold read_wake. set (s0 := if signaled then _ else s).
  assert (rinv s0 (base ++ []) ∧ same_rest s s0 ∧ rs_finRead s0 = false ∧ rs_currentFrame s0 = None) as (Hinv0 & Hs0 & Hf0 & Hc0).
  { rewrite app_nil_r. unfold s0. destruct signaled; [|by split_and!; try apply same_rest_refl].
    split_and!; [by destruct Hinv|by unfold same_rest|done|done]. }
  destruct (read_next s0 base [] false Hinv0 Hf0) as (s1 & Hn & Hinv1 & Hs1 & Hf1 & Hmore); [done|].
  rewrite Hc0, bool_decide_eq_true_2 in Hn |- * by done. cbn [negb andb orb] in Hn. rewrite Hn. cbn [mbind outcome_bind].
  destruct (read_loop_spec (S (Z.to_nat n)) s1 fc conn n [] true now base) as (s' & fc' & conn' & queues & r & -> & Hr);
    [done|done|done|rewrite zlen_nil; lia|]. do 5 eexists. split; [reflexivity|].
  assert (same_rest s s1) as Hs by (by eapply same_rest_trans). destruct Hr as [Hs' Hr].
  split; [by eapply same_rest_trans|]. by rewrite <- (blocked_same s s1).
Qed.
(** ** Frames *)

Definition in_frame (f : StreamFrame) (x : Z) : Prop := sf_Offset f ≤ x < sf_Offset f + zlen (sf_Data f).

(** A frame of the stream. *)
Definition honest (f : StreamFrame) : Prop :=
  0 ≤ sf_Offset f ∧ sf_Data f = segment stream (sf_Offset f) (sf_Offset f + zlen (sf_Data f)) ∧ sf_Offset f + zlen (sf_Data f) ≤ F ∧
  (sf_Fin f = true → sf_Offset f + zlen (sf_Data f) = F).

(** What an operation other than [Read] keeps. *)
Definition same_read (s s' : receiveStream) : Prop :=
  rs_currentFrame s' = rs_currentFrame s ∧ rs_finRead s' = rs_finRead s ∧ (rs_finalOffset s = F → rs_finalOffset s' = F).

Lemma push_frame_inv s out f cb q : rinv s out → honest f → Push (rs_frameQueue s) (sf_Data f) (sf_Offset f) cb = Ret (q, None) →
  rinv (s <| rs_frameQueue := q |>) out ∧ ∀ x, missing q x ↔ missing (rs_frameQueue s) x ∧ ¬ in_frame f x.
Proof.
  intros Hinv (Hf1 & Hf2 & Hf3 & _) HP. destruct Hinv as [R1 R2 R3 R4 R5 R6 R7 R8].
  destruct (Push_spec stream (rs_frameQueue s) (sf_Data f) (sf_Offset f) cb R1 Hf2 ltac:(lia)) as (q' & err & HP' & Hq).
  rewrite HP' in HP. injection HP as -> ->. destruct Hq as (Hq1 & Hq2 & Hq3). split; [|exact Hq3].
  split; unfold read_pos, current in *; cbn; rewrite ?Hq2; try done. intros x Hx. rewrite Hq3.
  destruct (R6 x Hx) as [Hm|]; [|by right]. destruct (decide (sf_Offset f ≤ x < sf_Offset f + zlen (sf_Data f))); [right; lia|by left].
Qed.

(** The final size is the sender's. *)
Lemma set_final_inv s out : rinv s out → rinv (s <| rs_finalOffset := F |>) out.
Proof. intros [R1 R2 R3 R4 R5 R6 R7 R8]. split; try done; [by right|]. intros Hl. by destruct (R7 Hl). Qed.

Lemma handle_frame_inv fe s fc conn f pn cb now out s' fc' conn' qc events : rinv s out → honest f →
  handleStreamFrame fe s fc conn f pn cb now = Ret (s', fc', conn', qc, events, None) →
  rinv s' out ∧ same_read s s' ∧ (sf_Fin f = true → rs_finalOffset s' = F) ∧ rs_canceledRead s' = rs_canceledRead s ∧
  ∀ x, missing (rs_frameQueue s') x ↔ missing (rs_frameQueue s) x ∧ ¬ (if rs_canceledRead s then False else in_frame f x).
Proof.
  intros Hinv Hf. unfold handleStreamFrame, handleStreamFrameImpl, StreamFrame_DataLen. intros HR.
  destruct (UpdateHighestReceived _ _ _ _) as [[fc1 conn1] [e|]]; [by cbn in HR|].
  set (s1 := if sf_Fin f then s <| rs_finalOffset := sf_Offset f + zlen (sf_Data f) |> else s) in *.
  assert (rinv s1 out ∧ same_read s s1 ∧ (sf_Fin f = true → rs_finalOffset s1 = F) ∧ rs_canceledRead s1 = rs_canceledRead s ∧
    rs_frameQueue s1 = rs_frameQueue s) as (Hinv1 & Hs1 & Hfin1 & Hc1 & Hq1).
  { unfold s1, same_read. destruct (sf_Fin f) eqn:EF; [|by split_and!]. destruct Hf as (_ & _ & _ & Hf). rewrite (Hf EF).
    split_and!; try done. by apply set_final_inv. }
  clearbody s1. destruct (rs_canceledRead s1) eqn:Ec.
  { cbn [mbind outcome_bind] in HR. destruct (complete _ _ _ _ _) as [[? ?] ?]. injection HR as <- _ _ _ _. split_and!; try done; [congruence|].
    intros x. rewrite Hq1, <- Hc1. tauto. }
  match type of HR with context [mbind ?k (match pn with Some _ => _ | None => _ end)] => set (K := k) in HR end.
  assert (∃ h, K (s1 <| rs_fecHandler := h |>) ≫= (λ '(s, fc, conn, completed, err),
    let '(conn, queueConn, events) := complete s fc conn completed now in Ret (s, fc, conn, queueConn, events, err)) =
    Ret (s', fc', conn', qc, events, None)) as [h HR'].
  { destruct pn as [pn|]; [destruct fe; [destruct (PushStreamFrameToDecode _ _ _) as [h| |]; [|done..]; by exists h|]|];
      exists (rs_fecHandler s1); by destruct s1. }
  clear HR. unfold K in HR'. cbn [rs_frameQueue update] in HR'.
  destruct (Push _ _ _ _) as [[q [e|]]| |] eqn:EP; [by cbn in HR'| |done..]. cbn in HR'. injection HR' as <- _ _ _ _.
  destruct (push_frame_inv s1 out f cb q Hinv1 Hf EP) as [[R1 R2 R3 R4 R5 R6 R7 R8] Hm].
  split_and!; [by split|exact Hs1|exact Hfin1|cbn; congruence|]. intros x. cbn. by rewrite Hm, Hq1, <- Hc1.
Qed.
(** ** Runs *)

(** [ra_read]: what the application has read; [ra_waiting]: the buffer of a [Read]
    that waits; [ra_eof]: a [Read] has reported the end; [ra_came]: the frames that
    were accepted; [ra_fin]: one of them had the final bit. *)
Record recv_app := mk_app {
  ra_s : receiveStream;
  ra_read : list Z;
  ra_waiting : option Z;
  ra_eof : bool;
  ra_came : list StreamFrame;
  ra_fin : bool;
}.

#[local] Instance recv_app_fields : Fields recv_app := λ a, mk_app (ra_s a) (ra_read a) (ra_waiting a) (ra_eof a) (ra_came a) (ra_fin a).

Definition app_init (id : Z) (h : FecHandler) : recv_app := mk_app (newReceiveStream id h) [] None false [] false.

(** The state after [Read], with a buffer of [n] bytes, returned or waits. *)
Definition after_read (a : recv_app) (n : Z) (s' : receiveStream) (r : reading) : recv_app :=
  match r with
  | ReadReturn completed d _ => a <| ra_s := s' |> <| ra_read ::= λ l, l ++ d |> <| ra_waiting := None |> <| ra_eof ::= λ b, b || completed |>
  | ReadWait => a <| ra_s := s' |> <| ra_waiting := Some n |>
  end.

Inductive app_step (FecEnable : bool) : recv_app → recv_app → Prop :=
| app_frame a fc conn f pn cb now s' fc' conn' qc events :
    honest f → handleStreamFrame FecEnable (ra_s a) fc conn f pn cb now = Ret (s', fc', conn', qc, events, None) →
    app_step FecEnable a (a <| ra_s := s' |> <| ra_came ::= λ l, if rs_canceledRead (ra_s a) then l else l ++ [f] |>
                            <| ra_fin ::= λ b, b || sf_Fin f |>)
| app_decoded a f cb s' :
    honest f → pushFecDecodedFrame (ra_s a) f cb = Ret (s', false) →
    app_step FecEnable a (a <| ra_s := s' |> <| ra_came ::= λ l, l ++ [f] |>)
| app_fec a f s' :
    handleFecFrame FecEnable (ra_s a) f = Ret s' → app_step FecEnable a (a <| ra_s := s' |>)
| app_reset a fc conn now s' fc' conn' qc events :
    handleResetStreamFrame (ra_s a) fc conn F now = (s', fc', conn', qc, events, None) → app_step FecEnable a (a <| ra_s := s' |>)
| app_read a fc conn n now s' fc' conn' queues r :
    ra_waiting a = None → readImpl (ra_s a) fc conn n now = Ret (s', fc', conn', queues, r) →
    app_step FecEnable a (after_read a n s' r)
| app_wake a fc conn n signaled now s' fc' conn' queues r :
    ra_waiting a = Some n → read_wake (ra_s a) fc conn n signaled now = Ret (s', fc', conn', queues, r) →
    app_step FecEnable a (after_read a n s' r)
| app_cancel a fc conn code now : app_step FecEnable a (a <| ra_s ::= λ s, (CancelRead s fc conn code now).1.1.1 |>)
| app_deadline a t : app_step FecEnable a (a <| ra_s ::= λ s, SetReadDeadline s t |>)
| app_shutdown a err : app_step FecEnable a (a <| ra_s ::= λ s, receive_closeForShutdown s err |>).

Inductive app_reach (FecEnable : bool) (a0 : recv_app) : recv_app → Prop :=
| app_reach_init : app_reach FecEnable a0 a0
| app_reach_step a a' : app_reach FecEnable a0 a → app_step FecEnable a a' → app_reach FecEnable a0 a'.

Record app_inv (a : recv_app) : Prop := {
  ai_inv : rinv (ra_s a) (ra_read a);
  ai_waiting : is_Some (ra_waiting a) → rs_currentFrame (ra_s a) = None ∧ rs_finRead (ra_s a) = false;
  ai_eof : ra_eof a = rs_finRead (ra_s a);
  ai_came x : 0 ≤ x < MaxByteCount → missing (rs_frameQueue (ra_s a)) x ↔ ¬ Exists (λ f, in_frame f x) (ra_came a);
  ai_fin : ra_fin a = true → rs_finalOffset (ra_s a) = F;
}.

(** An operation that leaves the data alone. *)
Lemma app_same a s' : app_inv a → rinv s' (ra_read a) → same_read (ra_s a) s' →
  (∀ x, missing (rs_frameQueue s') x ↔ missing (rs_frameQueue (ra_s a)) x) → app_inv (a <| ra_s := s' |>).
Proof.
  intros [A1 A2 A3 A4 A5] Hinv (H1 & H2 & H3) Hm. split; cbn; try done.
  - rewrite H1, H2. done.
  - by rewrite H2.
  - intros x Hx. by rewrite Hm, A4.
  - auto.
Qed.

Lemma app_frame_inv a s' f (came : bool) fin : app_inv a → rinv s' (ra_read a) → same_read (ra_s a) s' → (fin = true → rs_finalOffset s' = F) →
  (∀ x, missing (rs_frameQueue s') x ↔ missing (rs_frameQueue (ra_s a)) x ∧ ¬ (if came then in_frame f x else False)) →
  app_inv (a <| ra_s := s' |> <| ra_came ::= λ l, if came then l ++ [f] else l |> <| ra_fin ::= λ b, b || fin |>).
Proof.
  intros [A1 A2 A3 A4 A5] Hinv (H1 & H2 & H3) Hfin Hm. split; cbn; try done.
  - rewrite H1, H2. done.
  - by rewrite H2.
  - intros x Hx. rewrite Hm, (A4 x Hx). destruct came; [rewrite Exists_app, Exists_cons, Exists_nil|]; tauto.
  - intros [?|?]%orb_true_iff; auto.
Qed.

Lemma app_read_inv a n now s' r : app_inv a → rs_finRead (ra_s a) = false → reads (ra_s a) (ra_read a) [] n now s' r → app_inv (after_read a n s' r).
Proof.
  intros [A1 A2 A3 A4 A5] Hf [(H1 & _ & _ & _ & _ & Hm) Hr]. destruct r as [c d e|].
  - destruct Hr as (Hinv & _ & Hc & _ & _). split; cbn; try done.
    + rewrite A3, Hf, Hc. done.
    + intros x Hx. by rewrite Hm, A4.
    + rewrite H1. done.
  - destruct Hr as (_ & Hinv & Hc & (Hcur & _) & _). split; cbn; try done.
    + by rewrite Hc, A3, Hf.
    + intros x Hx. by rewrite Hm, A4.
    + rewrite H1. done.
Qed.

Lemma cancel_read_inv s fc conn code now out : rinv s out →
  ∃ s', (CancelRead s fc conn code now).1.1.1 = s' ∧ rinv s' out ∧ same_read s s' ∧ rs_frameQueue s' = rs_frameQueue s.
Proof.
  intros Hinv. unfold CancelRead, cancelReadImpl. destruct (_ || _); cbn [complete]; [by exists s|].
  destruct (complete _ _ _ _ _) as [[? ?] ?]. eexists. split; [reflexivity|]. destruct Hinv. by split_and!.
Qed.

Lemma app_step_inv fe a a' : app_inv a → app_step fe a a' → app_inv a'.
Proof.
  intros Hinv Hstep. pose proof Hinv as [A1 A2 A3 A4 A5].
  destruct Hstep as [a fc conn f pn cb now s' fc' conn' qc ev Hf HR|a f cb s' Hf HR|a f s' HR|a fc conn now s' fc' conn' qc ev HR|a fc conn n now s' fc' conn' qs r Hw HR|a fc conn n sg now s' fc' conn' qs r Hw HR|a fc conn code now|a t|a err].
  - destruct (handle_frame_inv _ _ _ _ _ _ _ _ _ _ _ _ _ _ A1 Hf HR) as (H1 & H2 & H3 & _ & H5).
    pose proof (app_frame_inv a s' f (negb (rs_canceledRead (ra_s a))) (sf_Fin f) Hinv H1 H2 H3) as HI.
    destruct (rs_canceledRead (ra_s a)); apply HI; exact H5.
  - unfold pushFecDecodedFrame in HR. destruct (Push _ _ _ _) as [[q [e|]]| |] eqn:EP; [done| |done..]. cbn in HR. injection HR as <-.
    destruct (push_frame_inv _ _ _ _ _ A1 Hf EP) as [[R1 R2 R3 R4 R5 R6 R7 R8] Hm].
    pose proof (app_frame_inv a (signalRead ((ra_s a) <| rs_frameQueue := q |>)) f true false Hinv) as HI.
    destruct a. cbn in *. rewrite orb_false_r in HI. apply HI; [by split|done|done|exact Hm].
  - unfold handleFecFrame in HR. destruct (PushFecFrameToDecode _ _) as [h| |]; [|done..]. cbn [mbind outcome_bind] in HR.
    injection HR as <-. destruct A1. destruct (fe && _); apply app_same; try done; by split.
  - unfold handleResetStreamFrame, handleResetStreamFrameImpl in HR. destruct (rs_closedForShutdown (ra_s a)).
    { cbn in HR. injection HR as <- _ _ _ _. apply app_same; done. }
    destruct (UpdateHighestReceived _ _ _ _) as [[fc1 conn1] [e|]]; [by cbn in HR|]. pose proof (set_final_inv _ _ A1) as HI.
    destruct (rs_resetRemotely _); cbn in HR.
    + injection HR as <- _ _ _ _. apply app_same; done.
    + destruct (complete _ _ _ _ _) as [[? ?] ?]. injection HR as <- _ _ _ _. destruct HI. by apply app_same.
  - destruct (readImpl_spec (ra_s a) fc conn n now (ra_read a) A1) as (s1 & fc1 & conn1 & q1 & r1 & HE & [(Hfr & -> & ->)|[Hfr Hr]]);
      rewrite HE in HR; injection HR as <- <- <- <- <-; [|by eapply app_read_inv].
    split; cbn; rewrite ?app_nil_r, ?orb_false_r; try done.
  - destruct A2 as [Hc Hf]; [by rewrite Hw|].
    destruct (read_wake_spec (ra_s a) fc conn n sg now (ra_read a) A1 Hf Hc) as (s1 & fc1 & conn1 & q1 & r1 & HE & Hr).
    rewrite HE in HR. injection HR as <- <- <- <- <-. by eapply app_read_inv.
  - destruct (cancel_read_inv (ra_s a) fc conn code now (ra_read a) A1) as (s' & Hs & HI & Hr & Hq).
    pose proof (app_same a s' Hinv HI Hr) as HA. rewrite Hq in HA. destruct a. cbn in *. rewrite Hs. by apply HA.
  - destruct A1. by apply (app_same a (SetReadDeadline (ra_s a) t)).
  - destruct A1. by apply (app_same a (receive_closeForShutdown (ra_s a) err)).
Qed.

Lemma app_reach_inv fe id h a : app_reach fe (app_init id h) a → app_inv a.
Proof.
  induction 1 as [|a a' _ IH Hs]; [|by eapply app_step_inv]. destruct (newFrameSorter_inv stream) as [_ Hm].
  split; cbn; try done; [apply newReceiveStream_inv|]. intros x Hx. rewrite Exists_nil, (Hm x). tauto.
Qed.

Lemma rinv_le s out : rinv s out → zlen out ≤ F.
Proof.
  intros Hinv. pose proof (rinv_out_len _ _ Hinv). destruct Hinv as [R1 R2 R3 R4 R5 R6 R7 R8]. unfold read_pos in *.
  pose proof (read_pos_le _ R1 ltac:(lia) R6). lia.
Qed.

(** A [Read] that nothing blocks returns the next byte if it is there, or the end. *)
Lemma reads_progress s base n now s' r : rinv s base → 0 < n → blocked s now = false → reads s base [] n now s' r →
  (zlen base < F → ¬ missing (rs_frameQueue s) (zlen base) → ∃ completed d e, r = ReadReturn completed d e ∧ d ≠ []) ∧
  (zlen base = F → rs_finalOffset s = F → r = ReadReturn true [] EOF_error).
Proof.
  intros Hinv Hn Hb [(Hfo & _ & _ & _ & _ & Hm) Hr]. destruct r as [c d e|].
  - destruct Hr as (Hinv' & _ & Hc & Hce & Hd). pose proof (rinv_le _ _ Hinv') as Hle. rewrite zlen_app in Hle. split.
    + intros Hlt _. exists c, d, e. split; [done|]. intros ->. destruct Hd as [?|[?|[?|Hcomp]]]; [done|lia|congruence|].
      rewrite app_nil_r in Hinv'. rewrite Hcomp in Hc. rewrite (ri_fin _ _ Hinv' Hc), segment_len in Hlt by lia. lia.
    + intros Heq _. pose proof (zlen_nonneg d). assert (d = []) as -> by (apply zlen_0_inv; lia).
      destruct Hd as [?|[?|[?| ->]]]; [done|lia|congruence|]. by rewrite Hce.
  - destruct Hr as (_ & Hinv' & _ & (Hcur & Hmiss & Hl) & Hlast & _). apply Hm in Hmiss. split; [done|]. intros Heq Hfin. exfalso.
    rewrite Hl in Hlast; [done|congruence|]. pose proof (rinv_out_len _ _ Hinv') as Hlen. pose proof (ri_pos _ _ Hinv') as Hpos.
    unfold read_pos, current in *. rewrite Hcur in *. cbn in *. change (zlen []) with 0 in *. lia.
Qed.

(** C13. Whatever frames of a stream come, in any order, overlapping and repeated, some of
    them recovered by forward error correction, the application reads the beginning of
    the stream, and [Read] reports the end only when all of it has been read.  A
    [Read] never panics; unless an error or a deadline ends it, it returns data if the
    next byte has come, and the end of the stream if all was read and the final bit
    has come. *)
Theorem receive_stream_delivers fe id h a :
  app_reach fe (app_init id h) a →
  ra_read a = segment stream 0 (zlen (ra_read a)) ∧ zlen (ra_read a) ≤ F ∧ (ra_eof a = true → zlen (ra_read a) = F) ∧
  ∀ fc conn n now, 0 < n → blocked (ra_s a) now = false → ra_eof a = false →
    ∃ s' fc' conn' queues r, readImpl (ra_s a) fc conn n now = Ret (s', fc', conn', queues, r) ∧
      (Exists (λ f, in_frame f (zlen (ra_read a))) (ra_came a) → ∃ completed d e, r = ReadReturn completed d e ∧ d ≠ []) ∧
      (zlen (ra_read a) = F → ra_fin a = true → r = ReadReturn true [] EOF_error).
Proof.
  intros Ha. destruct (app_reach_inv _ _ _ _ Ha) as [A1 A2 A3 A4 A5]. pose proof (rinv_le _ _ A1) as Hle.
  pose proof (zlen_nonneg (ra_read a)) as H0. split_and!; [|done|intros He; rewrite A3 in He; rewrite (ri_fin _ _ A1 He), segment_len; lia|].
  { rewrite (rinv_out_len _ _ A1). apply (ri_out _ _ A1). }
  intros fc conn n now Hn Hb He. rewrite A3 in He.
  destruct (readImpl_spec (ra_s a) fc conn n now (ra_read a) A1) as (s' & fc' & conn' & qs & r & HR & [(Hf & _ & _)|[_ Hr]]); [congruence|].
  destruct (reads_progress _ _ _ _ _ _ A1 Hn Hb Hr) as [P1 P2]. do 5 eexists. split; [exact HR|]. split; [|by auto].
  intros Hc. assert (¬ missing (rs_frameQueue (ra_s a)) (zlen (ra_read a))) as Hnm by (rewrite A4 by lia; tauto).
  apply P1; [|done]. by destruct (ri_below _ _ A1 (zlen (ra_read a)) ltac:(lia)).
Qed.
End Receive.

(** ** A run *)

(** A stream of three bytes, in one frame. *)
Definition ex_stream (x : Z) : Z := x + 1.
Definition ex_last : StreamFrame := {| sf_StreamID := 4; sf_Offset := 0; sf_Data := [1; 2; 3]; sf_Fin := true; sf_DataLenPresent := true |}.
Definition ex_recv_fc : streamFlowController := NewStreamFlowController 4 100 100 100.
Definition ex_recv_conn : connectionFlowController := NewConnectionFlowController 100 100.
Definition ex_recv (h : FecHandler) : receiveStream :=
  match handleStreamFrame false (newReceiveStream 4 h) ex_recv_fc ex_recv_conn ex_last None None 0 with
  | Ret (s, _, _, _, _, _) => s
  | _ => newReceiveStream 4 h
  end.

Lemma receive_stream_delivers_witness : ∃ h a, NewFecHandler = Ret h ∧ app_reach ex_stream 3 false (app_init 4 h) a ∧ ra_came a = [ex_last] ∧
  ∃ s' fc' conn' queues completed d e,
    readImpl (ra_s a) ex_recv_fc ex_recv_conn 2 0 = Ret (s', fc', conn', queues, ReadReturn completed d e) ∧ d ≠ [].
Proof.
  destruct (NewFecHandler_inv 4) as (h & Hh & _).
  assert (app_reach ex_stream 3 false (app_init 4 h) (mk_app (ex_recv h) [] None false [ex_last] true)) as Hreach.
  { eapply app_reach_step; [constructor|].
    assert (∃ fc' conn' qc ev, handleStreamFrame false (newReceiveStream 4 h) ex_recv_fc ex_recv_conn ex_last None None 0 =
      Ret (ex_recv h, fc', conn', qc, ev, None)) as (fc' & conn' & qc & ev & HR) by (do 4 eexists; vm_compute; reflexivity).
    refine (app_frame _ _ false (app_init 4 h) _ _ ex_last None None 0 _ _ _ _ _ _ HR).
    split_and!; [vm_compute; discriminate|vm_compute; reflexivity|vm_compute; discriminate|vm_compute; reflexivity]. }
  eexists h, _. split; [exact Hh|]. split; [exact Hreach|]. split; [reflexivity|].
  assert (0 ≤ 3 < MaxByteCount) as H3 by (vm_compute; split; [discriminate|reflexivity]).
  destruct (receive_stream_delivers ex_stream 3 H3 false 4 h _ Hreach) as (_ & _ & _ & HR).
  destruct (HR ex_recv_fc ex_recv_conn 2 0) as (s' & fc' & conn' & qs & r & HE & Hd & _); [lia|vm_compute; reflexivity|reflexivity|].
  destruct Hd as (c & d & e & -> & Hne); [left; vm_compute; split; [discriminate|reflexivity]|].
  exists s', fc', conn', qs, c, d, e. split; [exact HE|exact Hne].
Defined.
