(* ===== verification/QuicCongestion.v ===== *)
(** * Congestion control ([internal/congestion])

    [SendAlgorithm] is the interface of the congestion controllers, [cubicSender]
    the controller of the program, with its hybrid slow start, its cubic function
    and its pacer.  The round-trip times, which the source shares by a pointer,
    and the time are arguments; so is [math.Cbrt].  Tracing is left out. *)

From stdpp Require Import base list numbers strings.
From Stdlib Require Import ZArith Lia Floats.SpecFloat.
From S2P Require Import Prelude Config Monitor Raptor FloatExact QuicProtocol QuicRtt QuicFlowControl.

(** The interface. *)
Class SendAlgorithm (C : Type) := {
  TimeUntilSend : C → RTTStats → Z;
  HasPacingBudget : C → RTTStats → Z → bool;
  OnPacketSent : C → RTTStats → Z → Z → Z → Z → bool → C;
  CanSend : C → Z → bool;
  MaybeExitSlowStart : C → RTTStats → outcome C;
  OnPacketAcked : C → RTTStats → Z → Z → Z → Z → outcome C;
  OnPacketLost : C → Z → Z → Z → C;
  SetMaxDatagramSize : C → Z → outcome C;
  GetCongestionWindow : C → Z;
}.

(** What a client may rely on: in the states [alg_ok size], for datagrams of [size]
    bytes, nothing panics, and the datagrams may grow. *)
Class SendAlgorithmLaws (C : Type) `{SendAlgorithm C} := {
  alg_ok : Z → C → Prop;
  alg_sent size c r t b pn n e : alg_ok size c → alg_ok size (OnPacketSent c r t b pn n e);
  alg_exit size c r : alg_ok size c → ∃ c', MaybeExitSlowStart c r = Ret c' ∧ alg_ok size c';
  alg_acked size c r pn n b t : alg_ok size c → ∃ c', OnPacketAcked c r pn n b t = Ret c' ∧ alg_ok size c';
  alg_lost size c pn n b : alg_ok size c → alg_ok size (OnPacketLost c pn n b);
  alg_resize size c s : alg_ok size c → size ≤ s ≤ 2 ^ 16 → ∃ c', SetMaxDatagramSize c s = Ret c' ∧ alg_ok s c';
}.

Definition InitialPacketSizeIPv4 : Z := 1252.
Definition MaxCongestionWindowPackets : Z := 10000.
Definition MinPacingDelay : Z := Millisecond.
Definition MaxByteCount_of (a b : Z) : Z := if a <? b then b else a.
Definition MaxPacketNumber (a b : Z) : Z := if b <? a then a else b.

(** Integer division panics for the divisor zero. *)
Definition go_div (a b : Z) : outcome Z := if b =? 0 then Panic "integer divide by zero" else Ret (Z.quot a b).

(** ** Bandwidth ([bandwidth.go]) *)

Definition infBandwidth : Z := 2 ^ 64 - 1.
Definition BytesPerSecond : Z := 8.

(** The caller has excluded [delta = 0]. *)
Definition BandwidthFromDelta (bytes delta : Z) : Z := u64 (u64 (u64 bytes * 10 ^ 9) / u64 delta * BytesPerSecond).

(** ** The pacer ([pacer.go]) *)

Definition maxBurstSizePackets : Z := 10.

Record pacer := mk_pacer {
  pc_budgetAtLastSent : Z;
  pc_maxDatagramSize : Z;
  pc_lastSentTime : Z;
}.

#[global] Instance pacer_fields : Fields pacer := λ p, mk_pacer (pc_budgetAtLastSent p) (pc_maxDatagramSize p) (pc_lastSentTime p).

(** The function [getAdjustedBandwidth] that [newPacer] makes; [bandwidth] is the
    value of [getBandwidth]. *)
Definition adjustedBandwidth (bandwidth : Z) : Z := u64 (bandwidth / BytesPerSecond * 5) / 4.

Definition maxBurstSize (p : pacer) (bandwidth : Z) : Z :=
  MaxByteCount_of (Z.quot (i64 (u64 (u64 (MinPacingDelay + TimerGranularity) * adjustedBandwidth bandwidth))) (10 ^ 9))
                  (maxBurstSizePackets * pc_maxDatagramSize p).

Definition newPacer (bandwidth : Z) : pacer :=
  let p := {| pc_budgetAtLastSent := 0; pc_maxDatagramSize := InitialPacketSizeIPv4; pc_lastSentTime := 0 |} in
  p <| pc_budgetAtLastSent := maxBurstSize p bandwidth |>.

Definition Budget (p : pacer) (bandwidth now : Z) : Z :=
  if pc_lastSentTime p =? 0 then maxBurstSize p bandwidth else
  let budget := i64 (pc_budgetAtLastSent p + Z.quot (i64 (i64 (adjustedBandwidth bandwidth) * i64 (now - pc_lastSentTime p))) (10 ^ 9)) in
  MinByteCount (maxBurstSize p bandwidth) budget.

Definition pacer_SentPacket (p : pacer) (bandwidth sendTime size : Z) : pacer :=
  let budget := Budget p bandwidth sendTime in
  let p := if budget <? size then p <| pc_budgetAtLastSent := 0 |> else p <| pc_budgetAtLastSent := budget - size |> in
  p <| pc_lastSentTime := sendTime |>.

(** [time.Duration(math.Ceil(x))]; out of range as in [f_to_i64]. *)
Definition ceil_i64 (x : spec_float) : Z :=
  match x with
  | S754_zero _ => 0
  | S754_finite _ _ _ => let n := f_ceil x in if (- 2 ^ 63 <=? n) && (n <? 2 ^ 63) then n else - 2 ^ 63
  | _ => - 2 ^ 63
  end.

Definition pacer_TimeUntilSend (p : pacer) (bandwidth : Z) : Z :=
  if pc_maxDatagramSize p <=? pc_budgetAtLastSent p then 0 else
  pc_lastSentTime p + MaxDuration MinPacingDelay
    (ceil_i64 (f64_div (f64_mul (f64_of_Z (pc_maxDatagramSize p - pc_budgetAtLastSent p)) (f64_of_Z (10 ^ 9)))
                       (f64_of_Z (adjustedBandwidth bandwidth)))).

Definition pacer_SetMaxDatagramSize (p : pacer) (s : Z) : pacer := p <| pc_maxDatagramSize := s |>.

(** ** Hybrid slow start ([hybrid_slow_start.go]) *)

Definition hybridStartLowWindow : Z := 16.
Definition hybridStartMinSamples : Z := 8.
Definition hybridStartDelayFactorExp : Z := 3.
Definition hybridStartDelayMinThresholdUs : Z := 4000.
Definition hybridStartDelayMaxThresholdUs : Z := 16000.

Record HybridSlowStart := mk_hss {
  hs_endPacketNumber : Z;
  hs_lastSentPacketNumber : Z;
  hs_started : bool;
  hs_currentMinRTT : Z;
  hs_rttSampleCount : Z;
  hs_hystartFound : bool;
}.

#[global] Instance HybridSlowStart_fields : Fields HybridSlowStart := λ s,
  mk_hss (hs_endPacketNumber s) (hs_lastSentPacketNumber s) (hs_started s) (hs_currentMinRTT s) (hs_rttSampleCount s) (hs_hystartFound s).

Definition StartReceiveRound (s : HybridSlowStart) (lastSent : Z) : HybridSlowStart :=
  s <| hs_endPacketNumber := lastSent |> <| hs_currentMinRTT := 0 |> <| hs_rttSampleCount := 0 |> <| hs_started := true |>.

Definition IsEndOfRound (s : HybridSlowStart) (ack : Z) : bool := hs_endPacketNumber s <? ack.

Definition ShouldExitSlowStart (s : HybridSlowStart) (latestRTT minRTT congestionWindow : Z) : HybridSlowStart * bool :=
  let s := if negb (hs_started s) then StartReceiveRound s (hs_lastSentPacketNumber s) else s in
  if hs_hystartFound s then (s, true) else
  let s := s <| hs_rttSampleCount ::= λ n, u32 (n + 1) |> in
  let s := if hs_rttSampleCount s <=? hybridStartMinSamples then
             if (hs_currentMinRTT s =? 0) || (latestRTT <? hs_currentMinRTT s) then s <| hs_currentMinRTT := latestRTT |> else s
           else s in
  let s := if hs_rttSampleCount s =? hybridStartMinSamples then
             let us := Z.shiftr (Z.quot minRTT Microsecond) hybridStartDelayFactorExp in
             let us := Z.min us hybridStartDelayMaxThresholdUs in
             let threshold := Z.max us hybridStartDelayMinThresholdUs * Microsecond in
             if i64 (minRTT + threshold) <? hs_currentMinRTT s then s <| hs_hystartFound := true |> else s
           else s in
  (s, (hybridStartLowWindow <=? congestionWindow) && hs_hystartFound s).

Definition hss_OnPacketSent (s : HybridSlowStart) (packetNumber : Z) : HybridSlowStart := s <| hs_lastSentPacketNumber := packetNumber |>.

Definition hss_OnPacketAcked (s : HybridSlowStart) (ackedPacketNumber : Z) : HybridSlowStart :=
  if IsEndOfRound s ackedPacketNumber then s <| hs_started := false |> else s.

Definition Restart (s : HybridSlowStart) : HybridSlowStart := s <| hs_started := false |> <| hs_hystartFound := false |>.

(** ** The cubic function ([cubic.go]) *)

Definition cubeScale : Z := 40.
Definition cubeCongestionWindowScale : Z := 410.
Definition maxDatagramSize : Z := InitialPacketSizeIPv4.
Definition cubeFactor : Z := 2 ^ cubeScale / cubeCongestionWindowScale / maxDatagramSize.
Definition defaultNumConnections : Z := 1.

Definition f32_div := SFdiv 24 128.

Record Cubic := mk_cubic {
  cu_numConnections : Z;
  cu_epoch : Z;
  cu_lastMaxCongestionWindow : Z;
  cu_ackedBytesCount : Z;
  cu_estimatedTCPcongestionWindow : Z;
  cu_originPointCongestionWindow : Z;
  cu_timeToOriginPoint : Z;
  cu_lastTargetCongestionWindow : Z;
}.

#[global] Instance Cubic_fields : Fields Cubic := λ c,
  mk_cubic (cu_numConnections c) (cu_epoch c) (cu_lastMaxCongestionWindow c) (cu_ackedBytesCount c) (cu_estimatedTCPcongestionWindow c)
    (cu_originPointCongestionWindow c) (cu_timeToOriginPoint c) (cu_lastTargetCongestionWindow c).

Definition cubic_Reset (c : Cubic) : Cubic :=
  c <| cu_epoch := 0 |> <| cu_lastMaxCongestionWindow := 0 |> <| cu_ackedBytesCount := 0 |> <| cu_estimatedTCPcongestionWindow := 0 |>
    <| cu_originPointCongestionWindow := 0 |> <| cu_timeToOriginPoint := 0 |> <| cu_lastTargetCongestionWindow := 0 |>.

Definition NewCubic : Cubic := cubic_Reset (mk_cubic defaultNumConnections 0 0 0 0 0 0 0).

(** [beta()] and [betaLastMax()] for the factors 0.7 and 0.85. *)
Definition cubic_factor (c : Cubic) (factor : spec_float) : spec_float :=
  f32_div (f32_add (f32_sub (f32_of_Z (cu_numConnections c)) (f32_of_Z 1)) factor) (f32_of_Z (cu_numConnections c)).
Definition cubic_beta (c : Cubic) : spec_float := cubic_factor c (f32_of_frac 7 10).
Definition cubic_betaLastMax (c : Cubic) : spec_float := cubic_factor c (f32_of_frac 85 100).

Definition cubic_alpha (c : Cubic) : spec_float :=
  let b := cubic_beta c in let n := f32_of_Z (cu_numConnections c) in
  f32_div (f32_mul (f32_mul (f32_mul (f32_of_Z 3) n) n) (f32_sub (f32_of_Z 1) b)) (f32_add (f32_of_Z 1) b).

Definition OnApplicationLimited (c : Cubic) : Cubic := c <| cu_epoch := 0 |>.

Definition CongestionWindowAfterPacketLoss (c : Cubic) (currentCongestionWindow : Z) : Cubic * Z :=
  let c := if currentCongestionWindow + maxDatagramSize <? cu_lastMaxCongestionWindow c
           then c <| cu_lastMaxCongestionWindow := f_to_i64 (f32_mul (cubic_betaLastMax c) (f32_of_Z currentCongestionWindow)) |>
           else c <| cu_lastMaxCongestionWindow := currentCongestionWindow |> in
  let c := c <| cu_epoch := 0 |> in
  (c, f_to_i64 (f32_mul (f32_of_Z currentCongestionWindow) (cubic_beta c))).

Definition CongestionWindowAfterAck (Cbrt : spec_float → spec_float) (c : Cubic) (ackedBytes currentCongestionWindow delayMin eventTime : Z) : Cubic * Z :=
  let c := c <| cu_ackedBytesCount ::= λ n, n + ackedBytes |> in
  let c := if cu_epoch c =? 0 then
             let c := c <| cu_epoch := eventTime |> <| cu_ackedBytesCount := ackedBytes |>
                        <| cu_estimatedTCPcongestionWindow := currentCongestionWindow |> in
             if cu_lastMaxCongestionWindow c <=? currentCongestionWindow
             then c <| cu_timeToOriginPoint := 0 |> <| cu_originPointCongestionWindow := currentCongestionWindow |>
             else c <| cu_timeToOriginPoint := u32 (f_to_i64 (Cbrt (f64_of_Z (i64 (cubeFactor * (cu_lastMaxCongestionWindow c - currentCongestionWindow)))))) |>
                    <| cu_originPointCongestionWindow := cu_lastMaxCongestionWindow c |>
           else c in
  let elapsedTime := Z.quot (i64 (Z.quot (i64 (eventTime + delayMin - cu_epoch c)) Microsecond * 2 ^ 10)) (1000 * 1000) in
  let offset := i64 (cu_timeToOriginPoint c - elapsedTime) in
  let offset := if offset <? 0 then i64 (- offset) else offset in
  let cube := i64 (i64 (i64 (cubeCongestionWindowScale * offset) * offset) * offset) in
  let delta := Z.shiftr (i64 (cube * maxDatagramSize)) cubeScale in
  let target := if cu_timeToOriginPoint c <? elapsedTime then i64 (cu_originPointCongestionWindow c + delta)
                else i64 (cu_originPointCongestionWindow c - delta) in
  let target := MinByteCount target (currentCongestionWindow + Z.quot (cu_ackedBytesCount c) 2) in
  let c := c <| cu_estimatedTCPcongestionWindow ::= λ w,
    i64 (w + f_to_i64 (f32_div (f32_mul (f32_mul (f32_of_Z (cu_ackedBytesCount c)) (cubic_alpha c)) (f32_of_Z maxDatagramSize))
                               (f32_of_Z (cu_estimatedTCPcongestionWindow c)))) |> in
  let c := c <| cu_ackedBytesCount := 0 |> <| cu_lastTargetCongestionWindow := target |> in
  (c, if target <? cu_estimatedTCPcongestionWindow c then cu_estimatedTCPcongestionWindow c else target).

Definition SetNumConnections (c : Cubic) (n : Z) : Cubic := c <| cu_numConnections := n |>.

(** ** The controller ([cubic_sender.go]) *)

Definition maxBurstPackets : Z := 3.
Definition renoBeta : spec_float := f64_of_frac 7 10.
Definition minCongestionWindowPackets : Z := 2.
Definition initialCongestionWindow : Z := 32.

Record cubicSender := mk_sender {
  cs_hybridSlowStart : HybridSlowStart;
  cs_cubic : Cubic;
  cs_pacer : pacer;
  cs_reno : bool;
  cs_largestSentPacketNumber : Z;
  cs_largestAckedPacketNumber : Z;
  cs_largestSentAtLastCutback : Z;
  cs_lastCutbackExitedSlowstart : bool;
  cs_congestionWindow : Z;
  cs_slowStartThreshold : Z;
  cs_numAckedPackets : Z;
  cs_initialCongestionWindow : Z;
  cs_initialMaxCongestionWindow : Z;
  cs_maxDatagramSize : Z;
}.

#[global] Instance cubicSender_fields : Fields cubicSender := λ c,
  mk_sender (cs_hybridSlowStart c) (cs_cubic c) (cs_pacer c) (cs_reno c) (cs_largestSentPacketNumber c) (cs_largestAckedPacketNumber c)
    (cs_largestSentAtLastCutback c) (cs_lastCutbackExitedSlowstart c) (cs_congestionWindow c) (cs_slowStartThreshold c) (cs_numAckedPackets c)
    (cs_initialCongestionWindow c) (cs_initialMaxCongestionWindow c) (cs_maxDatagramSize c).

Section Sender.
Context (Cbrt : spec_float → spec_float).
Implicit Types (c : cubicSender) (rttStats : RTTStats).

Definition InRecovery c : bool :=
  negb (cs_largestAckedPacketNumber c =? InvalidPacketNumber) && (cs_largestAckedPacketNumber c <=? cs_largestSentAtLastCutback c).

Definition InSlowStart c : bool := cs_congestionWindow c <? cs_slowStartThreshold c.

Definition maxCongestionWindow c : Z := cs_maxDatagramSize c * MaxCongestionWindowPackets.
Definition minCongestionWindow c : Z := cs_maxDatagramSize c * minCongestionWindowPackets.

Definition BandwidthEstimate c rttStats : Z :=
  let srtt := rtt_smoothedRTT rttStats in
  if srtt =? 0 then infBandwidth else BandwidthFromDelta (cs_congestionWindow c) srtt.

(** [newCubicSender] with the arguments of [NewCubicSender]. *)
Definition NewCubicSender rttStats (initialMaxDatagramSize : Z) (reno : bool) : cubicSender :=
  let c := {|
    cs_hybridSlowStart := mk_hss 0 0 false 0 0 false; cs_cubic := NewCubic; cs_pacer := mk_pacer 0 0 0; cs_reno := reno;
    cs_largestSentPacketNumber := InvalidPacketNumber; cs_largestAckedPacketNumber := InvalidPacketNumber;
    cs_largestSentAtLastCutback := InvalidPacketNumber; cs_lastCutbackExitedSlowstart := false;
    cs_congestionWindow := initialCongestionWindow * initialMaxDatagramSize; cs_slowStartThreshold := MaxByteCount;
    cs_numAckedPackets := 0; cs_initialCongestionWindow := initialCongestionWindow * initialMaxDatagramSize;
    cs_initialMaxCongestionWindow := MaxCongestionWindowPackets * initialMaxDatagramSize; cs_maxDatagramSize := initialMaxDatagramSize |} in
  c <| cs_pacer := newPacer (BandwidthEstimate c rttStats) |>.

Definition sender_TimeUntilSend c rttStats : Z := pacer_TimeUntilSend (cs_pacer c) (BandwidthEstimate c rttStats).

Definition sender_HasPacingBudget c rttStats (now : Z) : bool := cs_maxDatagramSize c <=? Budget (cs_pacer c) (BandwidthEstimate c rttStats) now.

(** The argument [bytesInFlight] is not used. *)
Definition sender_OnPacketSent c rttStats (sentTime bytesInFlight packetNumber bytes : Z) (isRetransmittable : bool) : cubicSender :=
  let c := c <| cs_pacer := pacer_SentPacket (cs_pacer c) (BandwidthEstimate c rttStats) sentTime bytes |> in
  if negb isRetransmittable then c else
  c <| cs_largestSentPacketNumber := packetNumber |> <| cs_hybridSlowStart ::= λ s, hss_OnPacketSent s packetNumber |>.

Definition sender_CanSend c (bytesInFlight : Z) : bool := bytesInFlight <? cs_congestionWindow c.

Definition sender_MaybeExitSlowStart c rttStats : outcome cubicSender :=
  if negb (InSlowStart c) then Ret c else
  packets ← go_div (cs_congestionWindow c) (cs_maxDatagramSize c);
  let '(s, exit) := ShouldExitSlowStart (cs_hybridSlowStart c) (rtt_latestRTT rttStats) (rtt_minRTT rttStats) packets in
  let c := c <| cs_hybridSlowStart := s |> in
  Ret (if exit : bool then c <| cs_slowStartThreshold := cs_congestionWindow c |> else c).

Definition isCwndLimited c (bytesInFlight : Z) : bool :=
  let congestionWindow := cs_congestionWindow c in
  if congestionWindow <=? bytesInFlight then true else
  let availableBytes := congestionWindow - bytesInFlight in
  let slowStartLimited := InSlowStart c && (Z.quot congestionWindow 2 <? bytesInFlight) in
  slowStartLimited || (availableBytes <=? maxBurstPackets * cs_maxDatagramSize c).

Definition maybeIncreaseCwnd c rttStats (ackedBytes priorInFlight eventTime : Z) : outcome cubicSender :=
  if negb (isCwndLimited c priorInFlight) then Ret (c <| cs_cubic ::= OnApplicationLimited |>) else
  if maxCongestionWindow c <=? cs_congestionWindow c then Ret c else
  if InSlowStart c then Ret (c <| cs_congestionWindow ::= λ w, w + cs_maxDatagramSize c |>) else
  if cs_reno c then
    let c := c <| cs_numAckedPackets ::= λ n, u64 (n + 1) |> in
    packets ← go_div (cs_congestionWindow c) (cs_maxDatagramSize c);
    Ret (if u64 packets <=? cs_numAckedPackets c
         then c <| cs_congestionWindow ::= λ w, w + cs_maxDatagramSize c |> <| cs_numAckedPackets := 0 |> else c)
  else
    let '(cubic, w) := CongestionWindowAfterAck Cbrt (cs_cubic c) ackedBytes (cs_congestionWindow c) (rtt_minRTT rttStats) eventTime in
    Ret (c <| cs_cubic := cubic |> <| cs_congestionWindow := MinByteCount (maxCongestionWindow c) w |>).

Definition sender_OnPacketAcked c rttStats (ackedPacketNumber ackedBytes priorInFlight eventTime : Z) : outcome cubicSender :=
  let c := c <| cs_largestAckedPacketNumber ::= MaxPacketNumber ackedPacketNumber |> in
  if InRecovery c then Ret c else
  c ← maybeIncreaseCwnd c rttStats ackedBytes priorInFlight eventTime;
  Ret (if InSlowStart c then c <| cs_hybridSlowStart ::= λ s, hss_OnPacketAcked s ackedPacketNumber |> else c).

(** The arguments [lostBytes] and [priorInFlight] are not used. *)
Definition sender_OnPacketLost c (packetNumber lostBytes priorInFlight : Z) : cubicSender :=
  if packetNumber <=? cs_largestSentAtLastCutback c then c else
  let c := c <| cs_lastCutbackExitedSlowstart := InSlowStart c |> in
  let c := if cs_reno c then c <| cs_congestionWindow ::= λ w, f_to_i64 (f64_mul (f64_of_Z w) renoBeta) |>
           else let '(cubic, w) := CongestionWindowAfterPacketLoss (cs_cubic c) (cs_congestionWindow c) in
                c <| cs_cubic := cubic |> <| cs_congestionWindow := w |> in
  let minCwnd := minCongestionWindow c in
  let c := if cs_congestionWindow c <? minCwnd then c <| cs_congestionWindow := minCwnd |> else c in
  c <| cs_slowStartThreshold := cs_congestionWindow c |> <| cs_largestSentAtLastCutback := cs_largestSentPacketNumber c |>
    <| cs_numAckedPackets := 0 |>.

Definition OnRetransmissionTimeout c (packetsRetransmitted : bool) : cubicSender :=
  let c := c <| cs_largestSentAtLastCutback := InvalidPacketNumber |> in
  if negb packetsRetransmitted then c else
  let c := c <| cs_hybridSlowStart ::= Restart |> <| cs_cubic ::= cubic_Reset |> <| cs_slowStartThreshold := Z.quot (cs_congestionWindow c) 2 |> in
  c <| cs_congestionWindow := minCongestionWindow c |>.

Definition sender_OnConnectionMigration c : cubicSender :=
  c <| cs_hybridSlowStart ::= Restart |> <| cs_largestSentPacketNumber := InvalidPacketNumber |>
    <| cs_largestAckedPacketNumber := InvalidPacketNumber |> <| cs_largestSentAtLastCutback := InvalidPacketNumber |>
    <| cs_lastCutbackExitedSlowstart := false |> <| cs_cubic ::= cubic_Reset |> <| cs_numAckedPackets := 0 |>
    <| cs_congestionWindow := cs_initialCongestionWindow c |> <| cs_slowStartThreshold := cs_initialMaxCongestionWindow c |>.

Definition sender_SetMaxDatagramSize c (s : Z) : outcome cubicSender :=
  if s <? cs_maxDatagramSize c then Panic "congestion BUG: decreased max datagram size" else
  let cwndIsMinCwnd := cs_congestionWindow c =? minCongestionWindow c in
  let c := c <| cs_maxDatagramSize := s |> in
  let c := if cwndIsMinCwnd then c <| cs_congestionWindow := minCongestionWindow c |> else c in
  Ret (c <| cs_pacer ::= λ p, pacer_SetMaxDatagramSize p s |>).

Definition cubicSender_SendAlgorithm : SendAlgorithm cubicSender := {|
  TimeUntilSend := sender_TimeUntilSend;
  HasPacingBudget := sender_HasPacingBudget;
  OnPacketSent := sender_OnPacketSent;
  CanSend := sender_CanSend;
  MaybeExitSlowStart := sender_MaybeExitSlowStart;
  OnPacketAcked := sender_OnPacketAcked;
  OnPacketLost := sender_OnPacketLost;
  SetMaxDatagramSize := sender_SetMaxDatagramSize;
  GetCongestionWindow := cs_congestionWindow;
|}.
End Sender.
