(* ===== verification/QuicCongestionTheorems.v ===== *)
(** * The congestion window

    The window of the controller stays between two and about ten thousand packets,
    and a loss cuts it to seven tenths, once per round trip. *)

From stdpp Require Import base list numbers strings.
From Stdlib Require Import ZArith Lia Floats.SpecFloat.
From S2P Require Import Prelude Config Monitor FloatExact QuicProtocol QuicRtt QuicFlowControl QuicCongestion.

(** Reduces the fields of an updated sender. *)
Ltac sender_cbn :=
  cbn [cs_hybridSlowStart cs_cubic cs_pacer cs_reno cs_largestSentPacketNumber
       cs_largestAckedPacketNumber cs_largestSentAtLastCutback cs_lastCutbackExitedSlowstart cs_congestionWindow cs_slowStartThreshold
       cs_numAckedPackets cs_initialCongestionWindow cs_initialMaxCongestionWindow cs_maxDatagramSize update].

(** [float64(w) * 0.7], towards zero, is seven tenths of the window or one less. *)
Lemma reno_decrease w : 0 < w < 2 ^ 40 → 7 * w / 10 - 1 ≤ f_to_i64 (f64_mul (f64_of_Z w) renoBeta) ≤ 7 * w / 10.
Proof.
  intros Hw. assert (renoBeta = S754_finite false 6305039478318694 (-53)) as -> by reflexivity.
  destruct (f_to_i64_mul_near w 6305039478318694) as [H1 H2]; [lia|lia|]. set (r := f_to_i64 _) in *. clearbody r.
  split; [|apply Z.div_le_lower_bound; lia]. enough (7 * w / 10 < r + 2) by lia. apply Z.div_lt_upper_bound; lia.
Qed.

(** What every operation keeps; datagrams are of [mds] bytes, at the start of [mds0]. *)
Record sender_inv (mds0 mds : Z) (c : cubicSender) : Prop := {
  si_reno : cs_reno c = true;
  si_size : cs_maxDatagramSize c = mds ∧ 0 < mds0 ≤ mds ∧ mds ≤ 2 ^ 16;
  si_window : 2 * mds0 ≤ cs_congestionWindow c < (MaxCongestionWindowPackets + 1) * mds;
}.

(** An operation that leaves these fields alone. *)
Lemma sender_inv_same mds0 mds c c' : sender_inv mds0 mds c → cs_reno c' = cs_reno c → cs_maxDatagramSize c' = cs_maxDatagramSize c →
  cs_congestionWindow c' = cs_congestionWindow c → sender_inv mds0 mds c'.
Proof. intros [H1 H2 H3] E1 E2 E3. split; rewrite ?E1, ?E2, ?E3; done. Qed.

Lemma go_div_Ret a b : b ≠ 0 → go_div a b = Ret (Z.quot a b).
Proof. intros Hb. unfold go_div. by rewrite (proj2 (Z.eqb_neq b 0)). Qed.

Lemma NewCubicSender_inv rttStats mds : 0 < mds ≤ 2 ^ 16 → sender_inv mds mds (NewCubicSender rttStats mds true).
Proof. intros Hm. split; cbn; unfold initialCongestionWindow, MaxCongestionWindowPackets; [done|lia|lia]. Qed.

Section Inv.
Context (Cbrt : spec_float → spec_float) (mds0 mds : Z).

Lemma OnPacketSent_inv c rttStats t b pn n e : sender_inv mds0 mds c → sender_inv mds0 mds (sender_OnPacketSent c rttStats t b pn n e).
Proof. intros Hc. apply (sender_inv_same _ _ c); [done|unfold sender_OnPacketSent; by destruct e..]. Qed.

Lemma MaybeExitSlowStart_inv c rttStats : sender_inv mds0 mds c → ∃ c', sender_MaybeExitSlowStart c rttStats = Ret c' ∧ sender_inv mds0 mds c'.
Proof.
  intros Hc. pose proof (si_size _ _ _ Hc). unfold sender_MaybeExitSlowStart. destruct (InSlowStart c); cbn [negb]; [|by exists c].
  rewrite go_div_Ret by lia. cbn [mbind outcome_bind]. destruct (ShouldExitSlowStart _ _ _ _) as [s ex]. eexists. split; [reflexivity|].
  apply (sender_inv_same _ _ c); [done|by destruct ex..].
Qed.

Lemma grow_inv c : sender_inv mds0 mds c → cs_congestionWindow c < maxCongestionWindow c →
  sender_inv mds0 mds (c <| cs_congestionWindow ::= λ w, w + cs_maxDatagramSize c |>).
Proof.
  intros [H1 H2 H3] Hw. unfold maxCongestionWindow, MaxCongestionWindowPackets in *.
  split; cbn; unfold MaxCongestionWindowPackets; [done|done|lia].
Qed.

Lemma maybeIncreaseCwnd_inv c rttStats n b t : sender_inv mds0 mds c →
  ∃ c', maybeIncreaseCwnd Cbrt c rttStats n b t = Ret c' ∧ sender_inv mds0 mds c'.
Proof.
  intros Hc. pose proof (si_size _ _ _ Hc). unfold maybeIncreaseCwnd.
  destruct (negb _); [eexists; split; [reflexivity|by apply (sender_inv_same _ _ c)]|].
  destruct (_ <=? _) eqn:E; [by exists c|]. pose proof (grow_inv c Hc ltac:(lia)) as Hg.
  destruct (InSlowStart c); [by eexists|]. rewrite (si_reno _ _ _ Hc). sender_cbn.
  rewrite go_div_Ret by (cbn; lia). cbn [mbind outcome_bind]. eexists. split; [reflexivity|].
  destruct (u64 _ <=? _); [by apply (sender_inv_same _ _ _ _ Hg)|by apply (sender_inv_same _ _ c)].
Qed.

Lemma OnPacketAcked_inv c rttStats pn n b t : sender_inv mds0 mds c →
  ∃ c', sender_OnPacketAcked Cbrt c rttStats pn n b t = Ret c' ∧ sender_inv mds0 mds c'.
Proof.
  intros Hc. unfold sender_OnPacketAcked. set (c1 := c <| cs_largestAckedPacketNumber ::= _ |>).
  assert (sender_inv mds0 mds c1) as Hc1 by (by apply (sender_inv_same _ _ c)). clearbody c1. destruct (InRecovery c1); [by exists c1|].
  destruct (maybeIncreaseCwnd_inv c1 rttStats n b t Hc1) as (c2 & -> & Hc2). cbn [mbind outcome_bind]. eexists. split; [reflexivity|].
  destruct (InSlowStart c2); [by apply (sender_inv_same _ _ c2)|done].
Qed.

(** A loss: nothing if the window was cut since the packet was sent. *)
Lemma OnPacketLost_spec c pn n b : sender_inv mds0 mds c → cs_largestSentAtLastCutback c < pn →
  let c' := sender_OnPacketLost c pn n b in let w := cs_congestionWindow c in
  (∃ x, 7 * w / 10 - 1 ≤ x ≤ 7 * w / 10 ∧ cs_congestionWindow c' = Z.max x (2 * mds)) ∧
  cs_maxDatagramSize c' = cs_maxDatagramSize c ∧ cs_reno c' = cs_reno c ∧
  cs_largestSentAtLastCutback c' = cs_largestSentPacketNumber c ∧ InSlowStart c' = false.
Proof.
  intros [H1 [H2 H2'] H3] Hpn. unfold MaxCongestionWindowPackets in H3. pose proof (reno_decrease (cs_congestionWindow c) ltac:(lia)) as Hx.
  unfold sender_OnPacketLost. rewrite (proj2 (Z.leb_gt pn _)) by lia. destruct c. cbn in H1, H2, H3, Hx. subst.
  unfold minCongestionWindow, minCongestionWindowPackets, InSlowStart. sender_cbn.
  set (x := f_to_i64 _) in *. clearbody x. destruct (x <? _) eqn:E; sender_cbn; rewrite Z.ltb_irrefl; (split; [exists x; split; [done|lia]|done]).
Qed.

Lemma OnPacketLost_inv c pn n b : sender_inv mds0 mds c → sender_inv mds0 mds (sender_OnPacketLost c pn n b).
Proof.
  intros Hc. destruct (decide (cs_largestSentAtLastCutback c < pn)) as [Hlt|Hge].
  - destruct (OnPacketLost_spec c pn n b Hc Hlt) as ((x & Hx & Hw) & Hm & Hr & _). destruct Hc as [H1 H2 H3].
    split; rewrite ?Hr, ?Hm, ?Hw; [done|done|]. unfold MaxCongestionWindowPackets in *. split; [lia|].
    apply Z.max_lub_lt; [|lia]. apply (Z.le_lt_trans _ (7 * cs_congestionWindow c / 10)); [lia|]. apply Z.div_lt_upper_bound; lia.
  - unfold sender_OnPacketLost. by rewrite (proj2 (Z.leb_le pn _)) by lia.
Qed.

Lemma SetMaxDatagramSize_inv c s : sender_inv mds0 mds c → mds ≤ s ≤ 2 ^ 16 →
  ∃ c', sender_SetMaxDatagramSize c s = Ret c' ∧ sender_inv mds0 s c'.
Proof.
  intros [H1 [H2 H2'] H3] Hs. unfold sender_SetMaxDatagramSize. rewrite (proj2 (Z.ltb_ge s _)) by lia. eexists. split; [reflexivity|].
  unfold minCongestionWindow, minCongestionWindowPackets, MaxCongestionWindowPackets in *.
  destruct (_ =? _); split; cbn; unfold MaxCongestionWindowPackets, minCongestionWindow, minCongestionWindowPackets; cbn; lia || done.
Qed.
End Inv.

(** The controller keeps the promise of its interface. *)
Definition cubicSender_laws (Cbrt : spec_float → spec_float) : @SendAlgorithmLaws cubicSender (cubicSender_SendAlgorithm Cbrt).
Proof.
  refine {| alg_ok mds c := ∃ mds0, sender_inv mds0 mds c |}.
  - intros m c r t b pn n e (m0 & Hc). exists m0. by apply OnPacketSent_inv.
  - intros m c r (m0 & Hc). destruct (MaybeExitSlowStart_inv m0 m c r Hc) as (c' & E & Hc'). eauto.
  - intros m c r pn n b t (m0 & Hc). destruct (OnPacketAcked_inv Cbrt m0 m c r pn n b t Hc) as (c' & E & Hc'). eauto.
  - intros m c pn n b (m0 & Hc). exists m0. by apply OnPacketLost_inv.
  - intros m c s (m0 & Hc) Hs. destruct (SetMaxDatagramSize_inv m0 m c s Hc Hs) as (c' & E & Hc'). eauto.
Defined.

(** ** Runs *)

Inductive sender_event :=
| ev_sent (rttStats : RTTStats) (sentTime bytesInFlight pn bytes : Z) (isRetransmittable : bool)
| ev_acked (rttStats : RTTStats) (pn bytes priorInFlight eventTime : Z)
| ev_lost (pn bytes priorInFlight : Z)
| ev_sample (rttStats : RTTStats)
| ev_size (s : Z).

Definition sender_apply (Cbrt : spec_float → spec_float) (c : cubicSender) (e : sender_event) : outcome cubicSender :=
  match e with
  | ev_sent r t b pn n x => Ret (sender_OnPacketSent c r t b pn n x)
  | ev_acked r pn n b t => sender_OnPacketAcked Cbrt c r pn n b t
  | ev_lost pn n b => Ret (sender_OnPacketLost c pn n b)
  | ev_sample r => sender_MaybeExitSlowStart c r
  | ev_size s => sender_SetMaxDatagramSize c s
  end.

Fixpoint sender_run (Cbrt : spec_float → spec_float) (c : cubicSender) (es : list sender_event) : outcome cubicSender :=
  match es with
  | [] => Ret c
  | e :: es => c ← sender_apply Cbrt c e; sender_run Cbrt c es
  end.

(** The size of the datagrams after the events; it only grows, up to [2 ^ 16]. *)
Fixpoint sizes_grow (mds : Z) (es : list sender_event) : option Z :=
  match es with
  | [] => Some mds
  | ev_size s :: es => if (mds <=? s) && (s <=? 2 ^ 16) then sizes_grow s es else None
  | _ :: es => sizes_grow mds es
  end.

Lemma sender_run_inv Cbrt mds0 es : ∀ mds c mds', sender_inv mds0 mds c → sizes_grow mds es = Some mds' →
  ∃ c', sender_run Cbrt c es = Ret c' ∧ sender_inv mds0 mds' c'.
Proof.
  induction es as [|e es IH]; intros mds c mds' Hc Hg; [cbn in Hg; injection Hg as <-; by exists c|].
  assert (∃ c' mds1, sender_apply Cbrt c e = Ret c' ∧ sender_inv mds0 mds1 c' ∧ sizes_grow mds1 es = Some mds') as (c' & mds1 & HE & Hc' & Hg').
  { destruct e as [r t b pn n x|r pn n b t|pn n b|r|s]; cbn [sender_apply sizes_grow] in *.
    - do 2 eexists. split; [reflexivity|]. split; [by apply OnPacketSent_inv|done].
    - destruct (OnPacketAcked_inv Cbrt mds0 mds c r pn n b t Hc) as (c' & E & Hc'). eauto.
    - do 2 eexists. split; [reflexivity|]. split; [by apply OnPacketLost_inv|done].
    - destruct (MaybeExitSlowStart_inv mds0 mds c r Hc) as (c' & E & Hc'). eauto.
    - destruct (_ && _) eqn:E; [|done]. apply andb_true_iff in E as [E1%Z.leb_le E2%Z.leb_le].
      destruct (SetMaxDatagramSize_inv mds0 mds c s Hc (conj E1 E2)) as (c' & E & Hc'). eauto. }
  cbn [sender_run]. rewrite HE. cbn [mbind outcome_bind]. by eapply IH.
Qed.

(** C22. Whatever packets are sent, acknowledged and lost, whatever round-trip times are
    measured and however the datagrams grow, the congestion controller does not panic
    and its window stays between two datagrams of the initial size and ten thousand and
    one of the present size.  The loss of a packet that was sent since the last cut sets
    the window to seven tenths, rounded down at most one byte too far, but at least
    two datagrams, ends slow start, and no loss of a packet sent until then cuts the
    window again. *)
Theorem congestion_window_bounds Cbrt rttStats mds es mds' :
  0 < mds ≤ 2 ^ 16 → sizes_grow mds es = Some mds' →
  ∃ c, sender_run Cbrt (NewCubicSender rttStats mds true) es = Ret c ∧
    2 * mds ≤ cs_congestionWindow c < 10001 * mds' ∧
    ∀ pn n b, let c' := sender_OnPacketLost c pn n b in
      if cs_largestSentAtLastCutback c <? pn then
        (∃ x, 7 * cs_congestionWindow c / 10 - 1 ≤ x ≤ 7 * cs_congestionWindow c / 10 ∧ cs_congestionWindow c' = Z.max x (2 * mds')) ∧
        InSlowStart c' = false ∧
        ∀ pn' n' b', pn' ≤ cs_largestSentPacketNumber c → sender_OnPacketLost c' pn' n' b' = c'
      else c' = c.
Proof.
  intros Hm Hg. destruct (sender_run_inv Cbrt mds es mds _ mds' (NewCubicSender_inv rttStats mds Hm) Hg) as (c & E & Hc).
  exists c. split; [done|]. split; [exact (si_window _ _ _ Hc)|]. intros pn n b c'. destruct (_ <? pn) eqn:Hpn.
  - destruct (OnPacketLost_spec mds mds' c pn n b Hc ltac:(lia)) as (Hw & _ & _ & Hcut & Hs). split_and!; [done|done|].
    intros pn' n' b' Hpn'. unfold sender_OnPacketLost at 1. unfold c'. rewrite Hcut. by rewrite (proj2 (Z.leb_le pn' _)) by lia.
  - unfold c', sender_OnPacketLost. by rewrite (proj2 (Z.leb_le pn _)) by lia.
Qed.

(** Two packets are sent, the first is lost. *)
Definition ex_events : list sender_event :=
  [ev_sent NewRTTStats 1000 1252 0 1252 true; ev_sent NewRTTStats 2000 2504 1 1252 true; ev_size 1400; ev_lost 0 1252 2504].

Lemma congestion_window_bounds_witness : ∃ c, sender_run id (NewCubicSender NewRTTStats 1252 true) ex_events = Ret c ∧
  2 * 1252 ≤ cs_congestionWindow c < 10001 * 1400 ∧ cs_congestionWindow c = 28044.
Proof.
  destruct (congestion_window_bounds id NewRTTStats 1252 ex_events 1400) as (c & E & H & _); [lia|reflexivity|].
  exists c. split; [exact E|]. split; [exact H|]. vm_compute in E. injection E as <-. reflexivity.
Defined.
