(* ===== verification/QuicReceived.v ===== *)
(** * Received packets ([internal/ackhandler/received_packet_*.go])

    Which packet numbers have come ([receivedPacketHistory]), when to acknowledge
    them ([receivedPacketTracker]), and one tracker per packet number space
    ([receivedPacketHandler]).

    The numbers of packets whose data was recovered by forward error correction are
    in a global variable of the package [fec], here an argument and a result of the
    operations that read and clear it.  Time is in nanoseconds and the zero value of
    [time.Time] is 0; the current time is an argument. *)

From stdpp Require Import base list numbers strings gmap.
From Stdlib Require Import ZArith Lia.
From S2P Require Import Prelude LinkedList QuicProtocol QuicFrames.

(** ** History *)

Record PacketInterval := { pi_Start : Z; pi_End : Z }.

Record receivedPacketHistory := mk_history { rh_ranges : elist PacketInterval; rh_deletedBelow : Z }.

#[global] Instance receivedPacketHistory_fields : Fields receivedPacketHistory := λ h, mk_history (rh_ranges h) (rh_deletedBelow h).

Definition newReceivedPacketHistory : receivedPacketHistory := {| rh_ranges := empty_elist; rh_deletedBelow := 0 |}.

(** The loop from the last element to the first; the list is changed only before the return. *)
Fixpoint add_loop (l : elist PacketInterval) (els : list (nat * PacketInterval)) (p : Z) : outcome (elist PacketInterval * bool) :=
  match els with
  | [] =>
      match elist_Front l with
      | Some front => Ret (elist_InsertBefore l {| pi_Start := p; pi_End := p |} front, true)
      | None => nil_pointer
      end
  | (el, v) :: els =>
      if (pi_Start v <=? p) && (p <=? pi_End v) then Ret (l, false)
      else if pi_End v =? p - 1 then Ret (elist_set l el {| pi_Start := pi_Start v; pi_End := p |}, true)
      else if pi_Start v =? p + 1 then
        let l := elist_set l el {| pi_Start := p; pi_End := pi_End v |} in
        match elist_Prev l el with
        | None => Ret (l, true)
        | Some prev =>
            prevV ← elist_Value l prev;
            if pi_End prevV + 1 =? p then
              Ret (elist_Remove (elist_set l prev {| pi_Start := pi_Start prevV; pi_End := pi_End v |}) el, true)
            else Ret (l, true)
        end
      else if pi_End v <? p then Ret (elist_InsertAfter l {| pi_Start := p; pi_End := p |} el, true)
      else add_loop l els p
  end.

Definition addToRanges (h : receivedPacketHistory) (p : Z) : outcome (receivedPacketHistory * bool) :=
  if elist_Len (rh_ranges h) =? 0 then
    Ret (h <| rh_ranges ::= λ l, elist_PushBack l {| pi_Start := p; pi_End := p |} |>, true)
  else
    '(l, isNew) ← add_loop (rh_ranges h) (rev (el_elems (rh_ranges h))) p;
    Ret (h <| rh_ranges := l |>, isNew).

(** A round removes an element. *)
Fixpoint delete_old (fuel : nat) (l : elist PacketInterval) : outcome (elist PacketInterval) :=
  match fuel with
  | O => Ret l
  | S fuel =>
      if MaxNumAckRanges <? elist_Len l then
        match elist_Front l with
        | Some front => delete_old fuel (elist_Remove l front)
        | None => nil_pointer
        end
      else Ret l
  end.

Definition maybeDeleteOldRanges (h : receivedPacketHistory) : outcome receivedPacketHistory :=
  l ← delete_old (length (el_elems (rh_ranges h))) (rh_ranges h);
  Ret (h <| rh_ranges := l |>).

Definition history_ReceivedPacket (h : receivedPacketHistory) (p : Z) : outcome (receivedPacketHistory * bool) :=
  if p <? rh_deletedBelow h then Ret (h, false) else
  '(h, isNew) ← addToRanges h p;
  h ← maybeDeleteOldRanges h;
  Ret (h, isNew).

(** The loop over the elements from the first on; an element is removed after its successor was read. *)
Fixpoint delete_below (l : elist PacketInterval) (els : list (nat * PacketInterval)) (p : Z) : elist PacketInterval :=
  match els with
  | [] => l
  | (el, v) :: els =>
      if pi_End v <? p then delete_below (elist_Remove l el) els p
      else if (pi_Start v <? p) && (p <=? pi_End v) then elist_set l el {| pi_Start := p; pi_End := pi_End v |}
      else l
  end.

Definition DeleteBelow (h : receivedPacketHistory) (p : Z) : receivedPacketHistory :=
  if p <? rh_deletedBelow h then h else
  h <| rh_deletedBelow := p |> <| rh_ranges := delete_below (rh_ranges h) (el_elems (rh_ranges h)) p |>.

Fixpoint add_recovered (h : receivedPacketHistory) (pns : list Z) : outcome receivedPacketHistory :=
  match pns with
  | [] => Ret h
  | pn :: pns => '(h, _) ← addToRanges h pn; add_recovered h pns
  end.

(** [recovered] is [fec.FecRecoveredPacketList], which is nil afterwards. *)
Definition GetAckRanges (h : receivedPacketHistory) (recovered : list Z) : outcome (receivedPacketHistory * list AckRange) :=
  h ← add_recovered h recovered;
  Ret (h, (λ el, {| ar_Smallest := pi_Start el.2; ar_Largest := pi_End el.2 |}) <$> rev (el_elems (rh_ranges h))).

Definition GetHighestAckRange (h : receivedPacketHistory) : outcome AckRange :=
  if 0 <? elist_Len (rh_ranges h) then
    match elist_Back (rh_ranges h) with
    | Some b => r ← elist_Value (rh_ranges h) b; Ret {| ar_Smallest := pi_Start r; ar_Largest := pi_End r |}
    | None => nil_pointer
    end
  else Ret {| ar_Smallest := 0; ar_Largest := 0 |}.

Fixpoint duplicate_loop (els : list (nat * PacketInterval)) (p : Z) : bool :=
  match els with
  | [] => false
  | (_, v) :: els =>
      if pi_End v <? p then false
      else if (p <=? pi_End v) && (pi_Start v <=? p) then true
      else duplicate_loop els p
  end.

Definition history_IsPotentiallyDuplicate (h : receivedPacketHistory) (p : Z) : bool :=
  if p <? rh_deletedBelow h then true else duplicate_loop (rev (el_elems (rh_ranges h))) p.

(** ** Tracker *)

Inductive ECN := ECNNon | ECT1 | ECT0 | ECNCE.

Definition packetsBeforeAck : Z := 2.
Definition MaxAckDelay : Z := 25 * 1000000.

Record receivedPacketTracker := mk_tracker {
  rt_largestObserved : Z;
  rt_ignoreBelow : Z;
  rt_largestObservedReceivedTime : Z;
  rt_ect0 : Z;
  rt_ect1 : Z;
  rt_ecnce : Z;
  rt_packetHistory : receivedPacketHistory;
  rt_maxAckDelay : Z;
  rt_hasNewAck : bool;
  rt_ackQueued : bool;
  rt_ackElicitingPacketsReceivedSinceLastAck : Z;
  rt_ackAlarm : Z;
  rt_lastAck : option AckFrame;
}.

#[global] Instance receivedPacketTracker_fields : Fields receivedPacketTracker := λ t,
  mk_tracker (rt_largestObserved t) (rt_ignoreBelow t) (rt_largestObservedReceivedTime t) (rt_ect0 t) (rt_ect1 t) (rt_ecnce t)
    (rt_packetHistory t) (rt_maxAckDelay t) (rt_hasNewAck t) (rt_ackQueued t) (rt_ackElicitingPacketsReceivedSinceLastAck t)
    (rt_ackAlarm t) (rt_lastAck t).

Definition newReceivedPacketTracker : receivedPacketTracker := {|
  rt_largestObserved := 0; rt_ignoreBelow := 0; rt_largestObservedReceivedTime := 0; rt_ect0 := 0; rt_ect1 := 0; rt_ecnce := 0;
  rt_packetHistory := newReceivedPacketHistory; rt_maxAckDelay := MaxAckDelay; rt_hasNewAck := false; rt_ackQueued := false;
  rt_ackElicitingPacketsReceivedSinceLastAck := 0; rt_ackAlarm := 0; rt_lastAck := None;
|}.

Definition isMissing (h : receivedPacketTracker) (p : Z) : outcome bool :=
  match rt_lastAck h with
  | None => Ret false
  | Some lastAck =>
      if p <? rt_ignoreBelow h then Ret false else
      largest ← LargestAcked lastAck;
      if p <? largest then acks ← AcksPacket lastAck p; Ret (negb acks) else Ret false
  end.

Definition hasNewMissingPackets (h : receivedPacketTracker) : outcome bool :=
  match rt_lastAck h with
  | None => Ret false
  | Some lastAck =>
      highestRange ← GetHighestAckRange (rt_packetHistory h);
      largest ← LargestAcked lastAck;
      Ret ((largest + 1 <? ar_Smallest highestRange) && (AckRange_Len highestRange =? 1))
  end.

Definition maybeQueueAck (h : receivedPacketTracker) (pn rcvTime : Z) (wasMissing : bool) : outcome receivedPacketTracker :=
  match rt_lastAck h with
  | None => Ret (h <| rt_ackQueued := true |>)
  | Some _ =>
      if rt_ackQueued h then Ret h else
      let h := h <| rt_ackElicitingPacketsReceivedSinceLastAck ::= Z.add 1 |> in
      let h := if wasMissing then h <| rt_ackQueued := true |> else h in
      let h := if packetsBeforeAck <=? rt_ackElicitingPacketsReceivedSinceLastAck h then h <| rt_ackQueued := true |>
               else if rt_ackAlarm h =? 0 then h <| rt_ackAlarm := rcvTime + rt_maxAckDelay h |>
               else h in
      missing ← hasNewMissingPackets h;
      let h := if missing : bool then h <| rt_ackQueued := true |> else h in
      Ret (if rt_ackQueued h then h <| rt_ackAlarm := 0 |> else h)
  end.

Definition tracker_ReceivedPacket (h : receivedPacketTracker) (packetNumber : Z) (ecn : ECN) (rcvTime : Z) (shouldInstigateAck : bool) :
    outcome receivedPacketTracker :=
  if packetNumber <? rt_ignoreBelow h then Ret h else
  missing ← isMissing h packetNumber;
  let h := if rt_largestObserved h <=? packetNumber then
             h <| rt_largestObserved := packetNumber |> <| rt_largestObservedReceivedTime := rcvTime |>
           else h in
  '(history, isNew) ← history_ReceivedPacket (rt_packetHistory h) packetNumber;
  let h := h <| rt_packetHistory := history |> in
  let h := if (isNew : bool) && shouldInstigateAck then h <| rt_hasNewAck := true |> else h in
  h ← (if shouldInstigateAck then maybeQueueAck h packetNumber rcvTime missing else Ret h);
  Ret (match ecn with
       | ECNNon => h
       | ECT0 => h <| rt_ect0 ::= λ n, u64 (n + 1) |>
       | ECT1 => h <| rt_ect1 ::= λ n, u64 (n + 1) |>
       | ECNCE => h <| rt_ecnce ::= λ n, u64 (n + 1) |>
       end).

Definition IgnoreBelow (h : receivedPacketTracker) (p : Z) : receivedPacketTracker :=
  if p <=? rt_ignoreBelow h then h else
  h <| rt_ignoreBelow := p |> <| rt_packetHistory ::= λ hi, DeleteBelow hi p |>.

(** The tracker, the frame, and [fec.FecRecoveredPacketList], which is read only if a frame is made. *)
Definition tracker_GetAckFrame (h : receivedPacketTracker) (recovered : list Z) (now : Z) (onlyIfQueued : bool) :
    outcome (receivedPacketTracker * option AckFrame * list Z) :=
  if negb (rt_hasNewAck h) then Ret (h, None, recovered) else
  if onlyIfQueued && negb (rt_ackQueued h) && ((rt_ackAlarm h =? 0) || (now <? rt_ackAlarm h)) then Ret (h, None, recovered) else
  '(history, ranges) ← GetAckRanges (rt_packetHistory h) recovered;
  let ack := {| ack_AckRanges := ranges; ack_DelayTime := Z.max 0 (now - rt_largestObservedReceivedTime h);
                ack_ECT0 := rt_ect0 h; ack_ECT1 := rt_ect1 h; ack_ECNCE := rt_ecnce h |} in
  Ret (h <| rt_packetHistory := history |> <| rt_lastAck := Some ack |> <| rt_ackAlarm := 0 |> <| rt_ackQueued := false |>
         <| rt_hasNewAck := false |> <| rt_ackElicitingPacketsReceivedSinceLastAck := 0 |>, Some ack, []).

Definition tracker_GetAlarmTimeout (h : receivedPacketTracker) : Z := rt_ackAlarm h.

Definition tracker_IsPotentiallyDuplicate (h : receivedPacketTracker) (pn : Z) : bool :=
  history_IsPotentiallyDuplicate (rt_packetHistory h) pn.

(** ** Handler *)

(** What the handler needs of the sent packets. *)
Class sentPacketTracker (S : Type) := {
  GetLowestPacketNotConfirmedAcked : S → Z;
  spt_ReceivedPacket : S → EncryptionLevel → S;
}.

Definition MinNonZeroTime (a b : Z) : Z := if a =? 0 then b else if b =? 0 then a else Z.min a b.

Section Handler.
Context {S : Type} `{sentPacketTracker S}.

(** [None] is a tracker that was dropped. *)
Record receivedPacketHandler := mk_handler {
  rp_sentPackets : S;
  rp_initialPackets : option receivedPacketTracker;
  rp_handshakePackets : option receivedPacketTracker;
  rp_appDataPackets : receivedPacketTracker;
  rp_lowest1RTTPacket : Z;
}.

#[local] Instance receivedPacketHandler_fields : Fields receivedPacketHandler := λ h,
  mk_handler (rp_sentPackets h) (rp_initialPackets h) (rp_handshakePackets h) (rp_appDataPackets h) (rp_lowest1RTTPacket h).

Definition newReceivedPacketHandler (sentPackets : S) : receivedPacketHandler := {|
  rp_sentPackets := sentPackets;
  rp_initialPackets := Some newReceivedPacketTracker;
  rp_handshakePackets := Some newReceivedPacketTracker;
  rp_appDataPackets := newReceivedPacketTracker;
  rp_lowest1RTTPacket := InvalidPacketNumber;
|}.

(** The handler stays as it is in an error that comes after the sent packets were told. *)
Definition handler_ReceivedPacket (h : receivedPacketHandler) (pn : Z) (ecn : ECN) (encLevel : EncryptionLevel) (rcvTime : Z)
    (shouldInstigateAck : bool) : outcome (receivedPacketHandler * option go_error) :=
  let h := h <| rp_sentPackets ::= λ s, spt_ReceivedPacket s encLevel |> in
  match encLevel with
  | EncryptionInitial =>
      match rp_initialPackets h with
      | None => nil_pointer
      | Some t => t ← tracker_ReceivedPacket t pn ecn rcvTime shouldInstigateAck; Ret (h <| rp_initialPackets := Some t |>, None)
      end
  | EncryptionHandshake =>
      match rp_handshakePackets h with
      | None => nil_pointer
      | Some t => t ← tracker_ReceivedPacket t pn ecn rcvTime shouldInstigateAck; Ret (h <| rp_handshakePackets := Some t |>, None)
      end
  | Encryption0RTT =>
      if negb (rp_lowest1RTTPacket h =? InvalidPacketNumber) && (rp_lowest1RTTPacket h <? pn) then
        Ret (h, Some (GoError "received packet number on a 0-RTT packet after receiving a lower one on a 1-RTT packet"))
      else
        t ← tracker_ReceivedPacket (rp_appDataPackets h) pn ecn rcvTime shouldInstigateAck;
        Ret (h <| rp_appDataPackets := t |>, None)
  | Encryption1RTT =>
      let h := if (rp_lowest1RTTPacket h =? InvalidPacketNumber) || (pn <? rp_lowest1RTTPacket h)
               then h <| rp_lowest1RTTPacket := pn |> else h in
      let t := IgnoreBelow (rp_appDataPackets h) (GetLowestPacketNotConfirmedAcked (rp_sentPackets h)) in
      t ← tracker_ReceivedPacket t pn ecn rcvTime shouldInstigateAck;
      Ret (h <| rp_appDataPackets := t |>, None)
  end.

Definition received_DropPackets (h : receivedPacketHandler) (encLevel : EncryptionLevel) : outcome receivedPacketHandler :=
  match encLevel with
  | EncryptionInitial => Ret (h <| rp_initialPackets := None |>)
  | EncryptionHandshake => Ret (h <| rp_handshakePackets := None |>)
  | Encryption0RTT => Ret h
  | Encryption1RTT => Panic "Cannot drop keys for encryption level"
  end.

Definition received_GetAlarmTimeout (h : receivedPacketHandler) : Z :=
  let alarm o := match o with Some t => tracker_GetAlarmTimeout t | None => 0 end in
  MinNonZeroTime (MinNonZeroTime (alarm (rp_initialPackets h)) (alarm (rp_handshakePackets h))) (tracker_GetAlarmTimeout (rp_appDataPackets h)).

Definition without_delay (ack : AckFrame) : AckFrame :=
  {| ack_AckRanges := ack_AckRanges ack; ack_DelayTime := 0; ack_ECT0 := ack_ECT0 ack; ack_ECT1 := ack_ECT1 ack; ack_ECNCE := ack_ECNCE ack |}.

(** The frame is also the tracker's [lastAck], so that its delay changes there too. *)
Definition handler_GetAckFrame (h : receivedPacketHandler) (recovered : list Z) (now : Z) (encLevel : EncryptionLevel) (onlyIfQueued : bool) :
    outcome (receivedPacketHandler * option AckFrame * list Z) :=
  match encLevel with
  | EncryptionInitial =>
      match rp_initialPackets h with
      | None => Ret (h, None, recovered)
      | Some t =>
          '(t, ack, recovered) ← tracker_GetAckFrame t recovered now onlyIfQueued;
          let t := match ack with Some a => t <| rt_lastAck := Some (without_delay a) |> | None => t end in
          Ret (h <| rp_initialPackets := Some t |>, without_delay <$> ack, recovered)
      end
  | EncryptionHandshake =>
      match rp_handshakePackets h with
      | None => Ret (h, None, recovered)
      | Some t =>
          '(t, ack, recovered) ← tracker_GetAckFrame t recovered now onlyIfQueued;
          let t := match ack with Some a => t <| rt_lastAck := Some (without_delay a) |> | None => t end in
          Ret (h <| rp_handshakePackets := Some t |>, without_delay <$> ack, recovered)
      end
  | Encryption1RTT =>
      '(t, ack, recovered) ← tracker_GetAckFrame (rp_appDataPackets h) recovered now onlyIfQueued;
      Ret (h <| rp_appDataPackets := t |>, ack, recovered)
  | Encryption0RTT => Ret (h, None, recovered)
  end.

Definition handler_IsPotentiallyDuplicate (h : receivedPacketHandler) (pn : Z) (encLevel : EncryptionLevel) : outcome bool :=
  match encLevel with
  | EncryptionInitial =>
      match rp_initialPackets h with Some t => Ret (tracker_IsPotentiallyDuplicate t pn) | None => Panic "unexpected encryption level" end
  | EncryptionHandshake =>
      match rp_handshakePackets h with Some t => Ret (tracker_IsPotentiallyDuplicate t pn) | None => Panic "unexpected encryption level" end
  | Encryption0RTT | Encryption1RTT => Ret (tracker_IsPotentiallyDuplicate (rp_appDataPackets h) pn)
  end.
End Handler.
Arguments receivedPacketHandler : clear implicits.
