(* ===== verification/QuicReceivedTheorems.v ===== *)
(** * Acknowledgments of received packets

    The ranges of the history are the set of packet numbers that have come and
    were not deleted; an ACK frame has exactly them.  Every packet that asks for an
    acknowledgment gets one, at the latest when the timer of the tracker expires. *)

From stdpp Require Import base list numbers strings gmap sorting.
From Stdlib Require Import ZArith Lia.
From S2P Require Import Prelude LinkedList QuicProtocol QuicFrames QuicAck QuicReceived.

(** ** Ranges *)

Definition range_before (g h : nat * PacketInterval) : Prop := pi_End g.2 + 1 < pi_Start h.2.

Definition in_ranges (rs : list (nat * PacketInterval)) (x : Z) : Prop := Exists (λ r, pi_Start r.2 <= x <= pi_End r.2) rs.

#[global] Instance in_ranges_dec rs x : Decision (in_ranges rs x).
Proof. unfold in_ranges. apply _. Defined.

(** In order, apart and not empty. *)
Definition intervals_ok (rs : list (nat * PacketInterval)) : Prop :=
  StronglySorted range_before rs ∧ Forall (λ r, pi_Start r.2 <= pi_End r.2) rs.

Lemma in_ranges_app rs qs x : in_ranges (rs ++ qs) x ↔ in_ranges rs x ∨ in_ranges qs x.
Proof. apply Exists_app. Qed.

Lemma in_ranges_cons r rs x : in_ranges (r :: rs) x ↔ pi_Start r.2 <= x <= pi_End r.2 ∨ in_ranges rs x.
Proof. apply Exists_cons. Qed.

Lemma in_ranges_nil x : ¬ in_ranges [] x.
Proof. by intros ?%Exists_nil. Qed.

Lemma in_ranges_below rs k x : Forall (λ r, pi_End r.2 < k) rs → in_ranges rs x → x < k.
Proof. intros Hf (r & Hr & Hx)%Exists_exists. rewrite Forall_forall in Hf. specialize (Hf r Hr). cbn in *. lia. Qed.

Lemma in_ranges_above rs k x : Forall (λ r, k < pi_Start r.2) rs → in_ranges rs x → k < x.
Proof. intros Hf (r & Hr & Hx)%Exists_exists. rewrite Forall_forall in Hf. specialize (Hf r Hr). cbn in *. lia. Qed.

Lemma intervals_mid pre r post :
  intervals_ok (pre ++ r :: post) ↔
  intervals_ok pre ∧ intervals_ok post ∧ pi_Start r.2 <= pi_End r.2 ∧
  Forall (λ g, pi_End g.2 + 1 < pi_Start r.2) pre ∧ Forall (λ g, pi_End r.2 + 1 < pi_Start g.2) post.
Proof.
  unfold intervals_ok. rewrite StronglySorted_app, Forall_app, Forall_cons. split.
  - intros ((Hx & Hs1 & [Hs2 Hr]%StronglySorted_inv) & Hf1 & Hr' & Hf2). split_and!; try done.
    apply Forall_forall. intros g Hg. apply (Hx g r); [done|left].
  - intros ((Hs1 & Hf1) & (Hs2 & Hf2) & Hr & Hpre & Hpost). rewrite Forall_forall in Hpre. split_and!; try done; [|by constructor].
    intros g h Hg [->|Hh]%elem_of_cons; [by apply Hpre|]. rewrite Forall_forall in Hpost. specialize (Hpre g Hg). specialize (Hpost h Hh).
    unfold range_before. lia.
Qed.

Lemma intervals_nil : intervals_ok [].
Proof. split; [constructor|apply Forall_nil_2]. Qed.

(** Appending and removing at the ends. *)
Lemma intervals_app_l pre post : intervals_ok (pre ++ post) → intervals_ok pre.
Proof. intros [Hs Hf]. apply StronglySorted_app_1_l in Hs. apply Forall_app in Hf as [Hf _]. done. Qed.

Lemma intervals_app_r pre post : intervals_ok (pre ++ post) → intervals_ok post.
Proof. intros [Hs Hf]. apply StronglySorted_app_1_r in Hs. apply Forall_app in Hf as [_ Hf]. done. Qed.

(** ** Adding a packet *)

(** What adding the number [p] to the list of ranges gives. *)
Definition added (l : elist PacketInterval) (p : Z) (l' : elist PacketInterval) (isNew : bool) : Prop :=
  elist_ok l' ∧ intervals_ok (el_elems l') ∧ (∀ x, in_ranges (el_elems l') x ↔ in_ranges (el_elems l) x ∨ x = p) ∧
  isNew = bool_decide (¬ in_ranges (el_elems l) p) ∧ elist_Len l' <= elist_Len l + 1.

Ltac len_lia := unfold elist_Len, zlen; cbn [el_elems]; rewrite ?length_app; cbn [length]; lia.

(** The ranges [old] are replaced by one that has their numbers and [p], which is in none. *)
Lemma added_one l p pre old post i a b fresh :
  el_elems l = pre ++ old ++ post → intervals_ok pre → intervals_ok post → a <= b →
  Forall (λ g, pi_End g.2 + 1 < a) pre → Forall (λ g, b + 1 < pi_Start g.2) post →
  (∀ x, a <= x <= b ↔ in_ranges old x ∨ x = p) → ¬ in_ranges old p →
  elist_ok (mk_elist (pre ++ (i, {| pi_Start := a; pi_End := b |}) :: post) fresh) →
  added l p (mk_elist (pre ++ (i, {| pi_Start := a; pi_End := b |}) :: post) fresh) true.
Proof.
  intros E Hpre Hpost Hab Hfpre Hfpost Hx Hp Hok. unfold added. cbn [el_elems]. split; [done|]. split; [by apply intervals_mid|]. split; [|split].
  - intros x. rewrite E, !in_ranges_app, in_ranges_cons. cbn [snd pi_Start pi_End]. rewrite Hx. tauto.
  - symmetry. apply bool_decide_eq_true_2. rewrite E, !in_ranges_app. specialize (Hx p). assert (a <= p <= b) as Hap by (apply Hx; by right).
    intros [H|[H|H]]; [|done|].
    + apply (in_ranges_below _ a) in H; [lia|]. eapply Forall_impl; [exact Hfpre|]. cbn. lia.
    + apply (in_ranges_above _ b) in H; [lia|]. eapply Forall_impl; [exact Hfpost|]. cbn. lia.
  - unfold elist_Len, zlen. cbn [el_elems]. rewrite E, !length_app. cbn [length]. lia.
Qed.

Lemma intervals_snoc pre r :
  intervals_ok pre → pi_Start r.2 <= pi_End r.2 → Forall (λ g, pi_End g.2 + 1 < pi_Start r.2) pre → intervals_ok (pre ++ [r]).
Proof. intros H1 H2 H3. apply intervals_mid. split_and!; try done. apply intervals_nil. Qed.

(** The number just before a range extends it, and joins it with the range before. *)
Lemma add_extend l p pre el v post :
  elist_ok l → el_elems l = pre ++ (el, v) :: post → intervals_ok (el_elems l) → pi_Start v = p + 1 →
  let l1 := elist_set l el {| pi_Start := p; pi_End := pi_End v |} in
  ∃ l' isNew,
    match elist_Prev l1 el with
    | None => Ret (l1, true)
    | Some prev =>
        prevV ← elist_Value l1 prev;
        if pi_End prevV + 1 =? p then
          Ret (elist_Remove (elist_set l1 prev {| pi_Start := pi_Start prevV; pi_End := pi_End v |}) el, true)
        else Ret (l1, true)
    end = Ret (l', isNew) ∧ added l p l' isNew.
Proof.
  intros Hok E Hiv Hs l1. pose proof Hiv as Hiv'. rewrite E in Hiv'. apply intervals_mid in Hiv' as (Hpre & Hpost & Hv & Hfpre & Hfpost). cbn [snd] in *.
  assert (elist_ok (mk_elist (pre ++ (el, v) :: post) (el_fresh l))) as Hokm by (rewrite <-E; by destruct l).
  assert (l1 = mk_elist (pre ++ (el, {| pi_Start := p; pi_End := pi_End v |}) :: post) (el_fresh l)) as El1 by (by apply elist_set_mid with (v := v)).
  assert (elist_ok l1) as Hok1 by (rewrite El1; by eapply elist_ok_set).
  assert (∀ x, in_ranges [(el, v)] x ↔ pi_Start v <= x <= pi_End v) as Hone.
  { intros x. rewrite in_ranges_cons. cbn. pose proof (in_ranges_nil x). tauto. }
  assert (Forall (λ g, pi_End g.2 + 1 < p) pre → added l p l1 true) as Hkeep.
  { intros Hfp. rewrite El1. eapply (added_one l p pre [(el, v)] post); [done|done|done|lia|done|done| | |by rewrite <-El1].
    - intros x. rewrite Hone. lia.
    - rewrite Hone. lia. }
  rewrite (elist_Prev_mid l1 pre el _ post Hok1) by (by rewrite El1).
  destruct (last pre) as [[prev pv]|] eqn:Hlast; cbn [fmap option_fmap option_map fst].
  - apply last_Some in Hlast as [pre' ->]. apply intervals_mid in Hpre as (Hpre' & _ & Hpv & Hfpre' & _). cbn [snd] in *.
    apply Forall_app in Hfpre as [Hfpre [Hprev _]%Forall_cons]. cbn [snd] in Hprev.
    assert (el_elems l1 = pre' ++ (prev, pv) :: (el, {| pi_Start := p; pi_End := pi_End v |}) :: post) as E1 by (rewrite El1; cbn; by rewrite <-app_assoc).
    rewrite (elist_Value_mid l1 _ _ _ _ Hok1 E1). cbn [mbind outcome_bind]. destruct (Z.eqb_spec (pi_End pv + 1) p) as [Hm|Hm].
    + eexists _, _. split; [reflexivity|]. rewrite (elist_set_mid l1 _ _ _ _ _ Hok1 E1).
      assert (elist_ok (mk_elist (pre' ++ (prev, {| pi_Start := pi_Start pv; pi_End := pi_End v |}) ::
        (el, {| pi_Start := p; pi_End := pi_End v |}) :: post) (el_fresh l1))) as Hok2.
      { eapply elist_ok_set. rewrite <-E1. by destruct l1. }
      rewrite cons_middle, app_assoc in Hok2. rewrite cons_middle, app_assoc, (elist_Remove_mid _ _ el _ post Hok2 eq_refl), <-app_assoc.
      apply elist_ok_remove in Hok2. rewrite <-app_assoc in Hok2.
      eapply (added_one l p pre' [(prev, pv); (el, v)] post); [by rewrite E, <-app_assoc|done|done|lia|done|done| | |done].
      * intros x. rewrite in_ranges_cons, Hone. cbn. lia.
      * rewrite in_ranges_cons, Hone. cbn. lia.
    + eexists _, _. split; [reflexivity|]. apply Hkeep. apply Forall_app. split; [|apply Forall_singleton; cbn; lia].
      eapply Forall_impl; [exact Hfpre'|]. cbn. lia.
  - apply last_None in Hlast as ->. eexists _, _. split; [reflexivity|]. apply Hkeep. apply Forall_nil_2.
Qed.

Lemma add_loop_spec l p els : ∀ post,
  elist_ok l → (0 < el_fresh l)%nat → el_elems l = rev els ++ post → el_elems l ≠ [] → intervals_ok (el_elems l) →
  Forall (λ r, p + 1 < pi_Start r.2) post →
  ∃ l' isNew, add_loop l els p = Ret (l', isNew) ∧ added l p l' isNew.
Proof.
  induction els as [|[el v] els IH]; intros post Hok H0 E Hne Hiv Hpost; cbn [add_loop].
  - cbn in E. destruct l as [es fr]. cbn [el_elems el_fresh] in *. subst es. destruct post as [|[i w] post]; [done|]. cbn [elist_Front el_elems head fmap option_fmap option_map fst].
    eexists _, _. split; [reflexivity|]. unfold elist_InsertBefore. cbn [el_elems el_fresh split_at]. rewrite decide_True by done. cbn [app].
    eapply (added_one _ p [] [] ((i, w) :: post)); [done|apply intervals_nil|done|lia|apply Forall_nil_2|done| |apply in_ranges_nil|by apply (elist_ok_middle fr [])].
    intros x. pose proof (in_ranges_nil x). split; [intros; right; lia|intros [?| ->]; [done|lia]].
  - cbn [rev] in E. rewrite <-app_assoc in E. cbn [app] in E.
    pose proof Hiv as Hiv'. rewrite E in Hiv'. apply intervals_mid in Hiv' as (Hpre & Hpost' & Hv & Hfpre & Hfpost). cbn [snd] in *.
    assert (∀ x, in_ranges [(el, v)] x ↔ pi_Start v <= x <= pi_End v) as Hone.
    { intros x. rewrite in_ranges_cons. cbn. pose proof (in_ranges_nil x). tauto. }
    destruct (Z.leb_spec (pi_Start v) p), (Z.leb_spec p (pi_End v)); cbn [andb].
    { eexists _, _. split; [reflexivity|]. unfold added. split_and!; [done|done| | |lia].
      - intros x. split; [tauto|]. intros [?| ->]; [done|]. rewrite E, in_ranges_app, in_ranges_cons. cbn. tauto.
      - symmetry. apply bool_decide_eq_false_2. intros Hn. apply Hn. rewrite E, in_ranges_app, in_ranges_cons. cbn. tauto. }
    3: lia.
    + destruct (Z.eqb_spec (pi_End v) (p - 1)) as [He|He].
      * eexists _, _. split; [reflexivity|]. rewrite (elist_set_mid l _ el v post _ Hok E).
        eapply (added_one l p _ [(el, v)] post); [done|done|done|lia|done|done| | |].
        -- intros x. rewrite Hone. lia.
        -- rewrite Hone. lia.
        -- eapply elist_ok_set. rewrite <-E. by destruct l.
      * rewrite (proj2 (Z.eqb_neq _ _)), (proj2 (Z.ltb_lt _ _)) by lia. eexists _, _. split; [reflexivity|].
        rewrite (elist_InsertAfter_mid l _ el v post _ Hok E), cons_middle, app_assoc.
        eapply (added_one l p _ [] post); [by rewrite E, <-app_assoc|by apply intervals_snoc|done|lia| |done| |apply in_ranges_nil|].
        -- apply Forall_app. split; [|apply Forall_singleton; cbn; lia]. eapply Forall_impl; [exact Hfpre|]. cbn. lia.
        -- intros x. pose proof (in_ranges_nil x). split; [intros; right; lia|intros [?| ->]; [done|lia]].
        -- rewrite <-app_assoc. apply elist_ok_insert; [done|]. rewrite <-E. by destruct l.
    + rewrite (proj2 (Z.eqb_neq _ _)) by lia. destruct (Z.eqb_spec (pi_Start v) (p + 1)) as [Hs|Hs].
      * exact (add_extend l p (rev els) el v post Hok E Hiv Hs).
      * rewrite (proj2 (Z.ltb_ge _ _)) by lia. apply (IH ((el, v) :: post)); try done. constructor; [cbn; lia|done].
Qed.

(** ** The history *)

Record history_inv (h : receivedPacketHistory) : Prop := {
  hi_list : elist_ok (rh_ranges h);
  hi_fresh : (0 < el_fresh (rh_ranges h))%nat;
  hi_ranges : intervals_ok (el_elems (rh_ranges h));
}.

(** The packet numbers in the history. *)
Definition has (h : receivedPacketHistory) (x : Z) : Prop := in_ranges (el_elems (rh_ranges h)) x.

Lemma added_fresh l p l' isNew : added l p l' isNew → (0 < el_fresh l')%nat.
Proof.
  intros ([_ Hf] & _ & Hx & _ & _). destruct (proj2 (Hx p) ltac:(by right)) as [r rs Hr|r rs Hr]; apply Forall_cons in Hf as [Hf _]; lia.
Qed.

Lemma addToRanges_spec h p :
  history_inv h →
  ∃ h' isNew, addToRanges h p = Ret (h', isNew) ∧ history_inv h' ∧ rh_deletedBelow h' = rh_deletedBelow h ∧
    (∀ x, has h' x ↔ has h x ∨ x = p) ∧ isNew = bool_decide (¬ has h p).
Proof.
  intros [Hok H0 Hiv]. unfold addToRanges, has. destruct h as [l db]. cbn [rh_ranges rh_deletedBelow] in *.
  destruct (Z.eqb_spec (elist_Len l) 0) as [Hlen|Hlen].
  - destruct l as [es fr]. assert (es = []) as -> by (unfold elist_Len, zlen in Hlen; cbn in Hlen; destruct es; [done|cbn in Hlen; lia]).
    eexists _, _. split; [reflexivity|]. cbn. split_and!; [split; cbn|done| |].
    + by apply (elist_ok_middle fr []).
    + lia.
    + apply (intervals_snoc []); [apply intervals_nil|cbn; lia|apply Forall_nil_2].
    + intros x. rewrite in_ranges_cons. cbn. pose proof (in_ranges_nil x). split; [intros [?|?]; [right; lia|done]|intros [?| ->]; [done|left; lia]].
    + done.
  - destruct (add_loop_spec l p (rev (el_elems l)) []) as (l' & isNew & -> & Hadd); [done|done| | |done|apply Forall_nil_2|].
    { by rewrite rev_involutive, app_nil_r. }
    { intros Hn. apply Hlen. unfold elist_Len. by rewrite Hn. }
    cbn [mbind outcome_bind]. eexists _, _. split; [reflexivity|]. cbn. pose proof (added_fresh _ _ _ _ Hadd).
    destruct Hadd as (Hok' & Hiv' & Hx & Hnew & _). split_and!; try done. 
Qed.

Lemma delete_old_spec fuel : ∀ l,
  elist_ok l → (length (el_elems l) <= fuel)%nat →
  ∃ k, delete_old fuel l = Ret (mk_elist (drop k (el_elems l)) (el_fresh l)) ∧ (elist_Len l <= MaxNumAckRanges → k = 0%nat) ∧
    zlen (drop k (el_elems l)) <= MaxNumAckRanges ∧ (el_elems l ≠ [] → drop k (el_elems l) ≠ []).
Proof.
  induction fuel as [|fuel IH]; intros [es fr] Hok Hlen; cbn [delete_old el_elems el_fresh] in *.
  - destruct es; [|cbn in Hlen; lia]. exists 0%nat. by rewrite drop_nil.
  - destruct (Z.ltb_spec MaxNumAckRanges (elist_Len (mk_elist es fr))) as [Hlt|Hge].
    + destruct es as [|[i v] es]; [done|]. cbn [elist_Front el_elems head fmap option_fmap option_map fst].
      rewrite (elist_Remove_mid _ [] i v es Hok eq_refl). cbn [app el_fresh].
      destruct (IH (mk_elist es fr)) as (k & -> & _ & Hk & Hne); [by eapply (elist_ok_remove fr [])|cbn in Hlen |- *; lia|].
      exists (S k). cbn [el_elems el_fresh drop]. split_and!; [done|lia|done|]. intros _. apply Hne. cbn. intros ->. by vm_compute in Hlt.
    + exists 0%nat. by rewrite drop_0.
Qed.

(** The packet makes ranges be forgotten. *)
Definition truncates (h : receivedPacketHistory) (p : Z) : bool :=
  match addToRanges h p with Ret (h1, _) => MaxNumAckRanges <? elist_Len (rh_ranges h1) | _ => false end.

Lemma elist_ok_drop k (l : elist PacketInterval) : elist_ok l → elist_ok (mk_elist (drop k (el_elems l)) (el_fresh l)).
Proof.
  intros [Hnd Hf]. rewrite <-(take_drop k (el_elems l)), fmap_app in Hnd. apply NoDup_app in Hnd as (_ & _ & Hnd).
  split; cbn; [done|by apply Forall_drop].
Qed.

Lemma history_ReceivedPacket_spec h p :
  history_inv h →
  ∃ h' isNew, history_ReceivedPacket h p = Ret (h', isNew) ∧ history_inv h' ∧ rh_deletedBelow h' = rh_deletedBelow h ∧
    isNew = bool_decide (rh_deletedBelow h <= p ∧ ¬ has h p) ∧
    (∀ x, has h' x → has h x ∨ x = p ∧ rh_deletedBelow h <= p) ∧
    (truncates h p = false → ∀ x, has h x ∨ x = p ∧ rh_deletedBelow h <= p → has h' x) ∧
    (rh_deletedBelow h <= p → el_elems (rh_ranges h') ≠ []).
Proof.
  intros Hinv. unfold history_ReceivedPacket, truncates. destruct (Z.ltb_spec p (rh_deletedBelow h)) as [Hlt|Hge].
  - exists h, false. split_and!; try done; [|tauto| |lia].
    + symmetry. apply bool_decide_eq_false_2. lia.
    + intros _ x [?|?]; [done|lia].
  - destruct (addToRanges_spec h p Hinv) as (h1 & isNew & -> & Hinv1 & Hdb & Hx & Hnew). cbn [mbind outcome_bind].
    unfold maybeDeleteOldRanges. destruct (delete_old_spec _ (rh_ranges h1) (hi_list _ Hinv1) (le_n _)) as (k & -> & Hk & _ & Hne).
    cbn [mbind outcome_bind]. eexists _, _. split; [reflexivity|]. destruct h1 as [l1 db1]. cbn in *. destruct Hinv1 as [Hok1 H01 Hiv1]. cbn in *.
    pose proof (take_drop k (el_elems l1)) as Etd. split_and!; [split; cbn|done| | | |].
    + by apply elist_ok_drop.
    + done.
    + eapply intervals_app_r. by rewrite Etd.
    + rewrite Hnew. apply bool_decide_ext. tauto.
    + intros x Hd. assert (has (mk_history l1 db1) x) as H1%Hx by (unfold has; cbn; rewrite <-Etd, in_ranges_app; by right). tauto.
    + intros Hlen%Z.ltb_ge x Hin. rewrite (Hk Hlen), drop_0. apply Hx. tauto.
    + intros _. apply Hne. intros E. assert (has (mk_history l1 db1) p) as Hp by (apply Hx; by right). unfold has in Hp. cbn in Hp.
      rewrite E in Hp. by apply in_ranges_nil in Hp.
Qed.

Lemma delete_below_spec p els : ∀ l,
  elist_ok l → (0 < el_fresh l)%nat → el_elems l = els → intervals_ok els →
  let l' := delete_below l els p in
  elist_ok l' ∧ (0 < el_fresh l')%nat ∧ intervals_ok (el_elems l') ∧ ∀ x, in_ranges (el_elems l') x ↔ in_ranges els x ∧ p <= x.
Proof.
  induction els as [|[i v] els IH]; intros l Hok H0 E Hiv; cbn [delete_below].
  - rewrite E. split_and!; try done. intros x. pose proof (in_ranges_nil x). tauto.
  - pose proof Hiv as Hiv'. apply (intervals_mid []) in Hiv' as (_ & Hiv2 & Hv & _ & Hpost). cbn [snd] in *.
    assert (∀ x, in_ranges els x → pi_End v + 1 < x) as Habove by (intros x; by apply in_ranges_above).
    destruct l as [es fr]. cbn [el_elems el_fresh] in *. subst es. destruct (Z.ltb_spec (pi_End v) p) as [Hlt|Hge].
    + rewrite (elist_Remove_mid _ [] i v els Hok eq_refl). cbn [app el_fresh].
      destruct (IH (mk_elist els fr)) as (Hok' & H0' & Hiv'' & Hx); [by eapply (elist_ok_remove fr [])|done|done|done|].
      split_and!; try done. intros x. rewrite Hx, in_ranges_cons. cbn. split; [tauto|]. intros [[?|?] ?]; [lia|tauto].
    + rewrite (proj2 (Z.leb_le _ _)) by done. rewrite andb_true_r. destruct (Z.ltb_spec (pi_Start v) p) as [Hs|Hs].
      * rewrite (elist_set_mid _ [] i v els _ Hok eq_refl). cbn [app el_fresh el_elems]. split_and!.
        -- by eapply (elist_ok_set fr []).
        -- done.
        -- apply (intervals_mid []). cbn. split_and!; try done; [apply intervals_nil].
        -- intros x. rewrite !in_ranges_cons. cbn. specialize (Habove x). intuition lia.
      * cbn [el_elems]. split_and!; try done. intros x. rewrite !in_ranges_cons. cbn. specialize (Habove x). intuition lia.
Qed.

Lemma DeleteBelow_spec h p :
  history_inv h → rh_deletedBelow h <= p →
  history_inv (DeleteBelow h p) ∧ rh_deletedBelow (DeleteBelow h p) = p ∧ ∀ x, has (DeleteBelow h p) x ↔ has h x ∧ p <= x.
Proof.
  intros [Hok H0 Hiv] Hdb. unfold DeleteBelow, has in *. rewrite (proj2 (Z.ltb_ge _ _)) by done.
  destruct (delete_below_spec p _ (rh_ranges h) Hok H0 eq_refl Hiv) as (Hok' & H0' & Hiv' & Hx). destruct h as [l db]. cbn in *.
  by split_and!.
Qed.

Lemma add_recovered_spec pns : ∀ h,
  history_inv h → ∃ h', add_recovered h pns = Ret h' ∧ history_inv h' ∧ rh_deletedBelow h' = rh_deletedBelow h ∧
    ∀ x, has h' x ↔ has h x ∨ x ∈ pns.
Proof.
  induction pns as [|pn pns IH]; intros h Hinv; cbn [add_recovered].
  - exists h. split_and!; try done. intros x. rewrite elem_of_nil. tauto.
  - destruct (addToRanges_spec h pn Hinv) as (h1 & isNew & -> & Hinv1 & Hdb1 & Hx1 & _). cbn [mbind outcome_bind].
    destruct (IH h1 Hinv1) as (h' & -> & Hinv' & Hdb' & Hx'). exists h'. split_and!; try done; [congruence|].
    intros x. rewrite Hx', Hx1, elem_of_cons. tauto.
Qed.

(** The ranges of an ACK frame. *)
Definition ack_range (el : nat * PacketInterval) : AckRange := {| ar_Smallest := pi_Start el.2; ar_Largest := pi_End el.2 |}.

Lemma acked_ranges rs x : acked (ack_range <$> rev rs) x ↔ in_ranges rs x.
Proof.
  unfold acked, in_ranges. rewrite !Exists_exists. split.
  - intros (r & (el & -> & Hel)%list_elem_of_fmap & Hx). exists el. split; [by apply list_elem_of_In, in_rev, list_elem_of_In|done].
  - intros (el & Hel & Hx). exists (ack_range el). split; [|done]. apply list_elem_of_fmap. exists el. split; [done|].
    apply list_elem_of_In, in_rev. rewrite rev_involutive. by apply list_elem_of_In.
Qed.

Lemma StronglySorted_rev {A} (R : A → A → Prop) (l : list A) : StronglySorted R l → StronglySorted (flip R) (rev l).
Proof.
  induction 1 as [|x l Hs IH Hf]; cbn [rev]; [constructor|]. apply StronglySorted_app_2; [|done|repeat constructor].
  intros y z Hy ->%list_elem_of_singleton. rewrite Forall_forall in Hf. apply Hf. by apply list_elem_of_In, in_rev, list_elem_of_In.
Qed.

Lemma ack_ranges_ok rs :
  intervals_ok rs → rs ≠ [] → (∀ x, in_ranges rs x → 0 <= x <= maxVarInt8) → ranges_ok (ack_range <$> rev rs).
Proof.
  intros [Hs Hf] Hne Hb. rewrite Forall_forall in Hf. split.
  - intros ?%fmap_nil_inv. by destruct rs; [|apply app_eq_nil in H as [_ ?]].
  - apply Forall_fmap, Forall_forall. intros el Hel%list_elem_of_In%in_rev%list_elem_of_In. specialize (Hf el Hel). cbn.
    assert (∀ x, pi_Start el.2 <= x <= pi_End el.2 → 0 <= x <= maxVarInt8) as Hx.
    { intros x Hx. apply Hb, Exists_exists. by exists el. }
    pose proof (Hx (pi_Start el.2)). pose proof (Hx (pi_End el.2)). lia.
  - apply StronglySorted_rev in Hs. clear -Hs. induction Hs as [|x l Hs IH Hf]; [constructor|]. rewrite fmap_cons. constructor; [done|].
    apply Forall_fmap. eapply Forall_impl; [exact Hf|]. intros y Hy. unfold flip, range_before in Hy. unfold compose, before. cbn. lia.
Qed.

(** [IsPotentiallyDuplicate] decides membership. *)
Lemma duplicate_loop_spec rs p : intervals_ok rs → duplicate_loop (rev rs) p = bool_decide (in_ranges rs p).
Proof.
  induction rs as [|[i v] rs IH] using rev_ind; intros Hiv; [done|]. rewrite rev_unit. cbn [duplicate_loop].
  apply intervals_mid in Hiv as (Hiv & _ & Hv & Hpre & _). cbn [snd] in *.
  assert (in_ranges (rs ++ [(i, v)]) p ↔ in_ranges rs p ∨ pi_Start v <= p <= pi_End v) as Hin.
  { rewrite in_ranges_app, in_ranges_cons. cbn. pose proof (in_ranges_nil p). tauto. }
  assert (in_ranges rs p → p + 1 < pi_Start v) as Hlt.
  { intros (g & Hg & Hx)%Exists_exists. rewrite Forall_forall in Hpre. specialize (Hpre g Hg). cbn in *. lia. }
  destruct (Z.ltb_spec (pi_End v) p); [symmetry; apply bool_decide_eq_false_2; rewrite Hin; intuition lia|].
  rewrite (proj2 (Z.leb_le _ _)) by done. destruct (Z.leb_spec (pi_Start v) p); cbn [andb].
  - symmetry. apply bool_decide_eq_true_2, Hin. right. lia.
  - rewrite IH by done. apply bool_decide_ext. rewrite Hin. intuition lia.
Qed.

Lemma history_duplicate_spec h p :
  history_inv h → history_IsPotentiallyDuplicate h p = bool_decide (p < rh_deletedBelow h ∨ has h p).
Proof.
  intros Hinv. unfold history_IsPotentiallyDuplicate. destruct (Z.ltb_spec p (rh_deletedBelow h)).
  - symmetry. apply bool_decide_eq_true_2. by left.
  - rewrite duplicate_loop_spec by apply Hinv. apply bool_decide_ext. unfold has. intuition lia.
Qed.

Lemma GetHighestAckRange_total h : history_inv h → ∃ r, GetHighestAckRange h = Ret r.
Proof.
  intros Hinv. unfold GetHighestAckRange. destruct (Z.ltb_spec 0 (elist_Len (rh_ranges h))) as [Hlt|]; [|by eexists].
  unfold elist_Back. destruct (last (el_elems (rh_ranges h))) as [[i v]|] eqn:Hl.
  - cbn. apply last_Some in Hl as [pre E]. rewrite (elist_Value_mid _ pre i v [] (hi_list _ Hinv) E). cbn. by eexists.
  - apply last_None in Hl. unfold elist_Len in Hlt. by rewrite Hl in Hlt.
Qed.
