(* ===== verification/QuicReceivedTracker.v ===== *)
(** * When received packets are acknowledged

    Runs of a [receivedPacketTracker]: packets come, acknowledgments that the peer
    confirmed are forgotten, ACK frames are asked for.  The ghost state says which
    packets came and which of them wait for an acknowledgment. *)

From stdpp Require Import base list numbers strings gmap sorting.
From Stdlib Require Import ZArith Lia.
From S2P Require Import Prelude LinkedList QuicProtocol QuicFrames QuicAck QuicReceived QuicReceivedTheorems.

Record ghost := mk_ghost {
  g_received : list Z;          (* packets that came, or whose data was recovered *)
  g_pending : list (Z * Z);     (* new packets that ask for an acknowledgment, and when they came *)
  g_now : Z;
  g_truncated : bool;           (* ranges were forgotten *)
}.

Definition pn_ok (pn : Z) : Prop := 0 <= pn <= maxVarInt8.

Definition ghost_receive (t : receivedPacketTracker) (g : ghost) (pn rcvTime : Z) (elicit : bool) : ghost := {|
  g_received := pn :: g_received g;
  g_pending := if elicit && negb (tracker_IsPotentiallyDuplicate t pn) then (pn, rcvTime) :: g_pending g else g_pending g;
  g_now := rcvTime;
  g_truncated := g_truncated g || negb (pn <? rt_ignoreBelow t) && truncates (rt_packetHistory t) pn;
|}.

(** A packet raises the limit below which packets are ignored only if it is above it: it was sent after the
    packets below the limit, which the peer knows to be acknowledged. *)
Inductive treach : receivedPacketTracker → ghost → Prop :=
| treach_new : treach newReceivedPacketTracker (mk_ghost [] [] 0 false)
| treach_receive t g limit pn ecn rcvTime elicit t' :
    treach t g → pn_ok pn → 0 < rcvTime → g_now g <= rcvTime → limit <= rt_ignoreBelow t ∨ limit <= pn →
    tracker_ReceivedPacket (IgnoreBelow t limit) pn ecn rcvTime elicit = Ret t' →
    treach t' (ghost_receive (IgnoreBelow t limit) g pn rcvTime elicit)
| treach_ack t g recovered now onlyIfQueued t' ack recovered' :
    treach t g → Forall pn_ok recovered → tracker_GetAckFrame t recovered now onlyIfQueued = Ret (t', ack, recovered') →
    treach t' (match ack with Some _ => mk_ghost (recovered ++ g_received g) [] (g_now g) (g_truncated g) | None => g end).

Record tracker_inv (t : receivedPacketTracker) (g : ghost) : Prop := {
  ti_history : history_inv (rt_packetHistory t);
  ti_deleted : rh_deletedBelow (rt_packetHistory t) = rt_ignoreBelow t;
  ti_numbers : ∀ x, has (rt_packetHistory t) x → pn_ok x ∧ x ∈ g_received g;
  ti_complete : g_truncated g = false → ∀ x, x ∈ g_received g → rt_ignoreBelow t <= x → has (rt_packetHistory t) x;
  ti_nonempty : rt_hasNewAck t = true → el_elems (rh_ranges (rt_packetHistory t)) ≠ [];
  ti_last : ∀ f, rt_lastAck t = Some f → ranges_ok (ack_AckRanges f);
  ti_delay : rt_maxAckDelay t = MaxAckDelay;
  ti_now : 0 <= g_now g;
  ti_alarm : rt_ackAlarm t ≠ 0 → rt_ackAlarm t <= g_now g + MaxAckDelay;
  ti_pending : g_pending g ≠ [] →
    rt_hasNewAck t = true ∧
    (rt_ackQueued t = true ∨ rt_ackAlarm t ≠ 0 ∧ Forall (λ p, rt_ackAlarm t <= p.2 + MaxAckDelay) (g_pending g));
}.

Lemma LargestAcked_total f : ranges_ok (ack_AckRanges f) → ∃ x, LargestAcked f = Ret x.
Proof. intros [Hne _ _]. unfold LargestAcked. destruct (ack_AckRanges f) as [|r l]; [done|]. rewrite index_0. by eexists. Qed.

Lemma isMissing_total t p : (∀ f, rt_lastAck t = Some f → ranges_ok (ack_AckRanges f)) → ∃ b, isMissing t p = Ret b.
Proof.
  intros Hl. unfold isMissing. destruct (rt_lastAck t) as [f|]; [|by eexists]. specialize (Hl f eq_refl).
  destruct (_ <? _); [by eexists|]. destruct (LargestAcked_total f Hl) as [x ->]. cbn. destruct (_ <? _); [|by eexists].
  destruct (AcksPacket_spec f p Hl) as (b & -> & _). by eexists.
Qed.

Lemma hasNewMissing_total t :
  history_inv (rt_packetHistory t) → (∀ f, rt_lastAck t = Some f → ranges_ok (ack_AckRanges f)) → ∃ b, hasNewMissingPackets t = Ret b.
Proof.
  intros Hh Hl. unfold hasNewMissingPackets. destruct (rt_lastAck t) as [f|]; [|by eexists].
  destruct (GetHighestAckRange_total _ Hh) as [r ->]. destruct (LargestAcked_total f (Hl f eq_refl)) as [x ->]. by eexists.
Qed.

(** Forgetting packets. *)
Lemma IgnoreBelow_inv t g limit pn :
  tracker_inv t g → limit <= rt_ignoreBelow t ∨ limit <= pn →
  let t' := IgnoreBelow t limit in
  history_inv (rt_packetHistory t') ∧ rh_deletedBelow (rt_packetHistory t') = rt_ignoreBelow t' ∧
  rt_ignoreBelow t' = Z.max (rt_ignoreBelow t) limit ∧
  (∀ x, has (rt_packetHistory t') x → has (rt_packetHistory t) x) ∧
  (∀ x, has (rt_packetHistory t) x → rt_ignoreBelow t' <= x → has (rt_packetHistory t') x) ∧
  (pn < rt_ignoreBelow t' → t' = t) ∧
  rt_hasNewAck t' = rt_hasNewAck t ∧ rt_lastAck t' = rt_lastAck t ∧ rt_maxAckDelay t' = rt_maxAckDelay t ∧
  rt_ackAlarm t' = rt_ackAlarm t ∧ rt_ackQueued t' = rt_ackQueued t.
Proof.
  intros [Hh Hd _ _ _ _ _ _ _ _] Hl. unfold IgnoreBelow. destruct (Z.leb_spec limit (rt_ignoreBelow t)).
  - split_and!; try done. lia.
  - destruct (DeleteBelow_spec (rt_packetHistory t) limit Hh) as (Hh' & Hd' & Hx); [lia|]. destruct t. cbn in *.
    split_and!; try done; [lia|..].
    + intros x Hx'%Hx. tauto.
    + intros x Hx' Hle. apply Hx. split; [done|lia].
    + lia.
Qed.

(** What [maybeQueueAck] leaves alone. *)
Definition same_but_ack (t t' : receivedPacketTracker) : Prop :=
  rt_packetHistory t' = rt_packetHistory t ∧ rt_ignoreBelow t' = rt_ignoreBelow t ∧ rt_hasNewAck t' = rt_hasNewAck t ∧
  rt_lastAck t' = rt_lastAck t ∧ rt_maxAckDelay t' = rt_maxAckDelay t.

(** An acknowledgment is queued, or the timer runs. *)
Definition scheduled (t t' : receivedPacketTracker) (rcvTime : Z) : Prop :=
  rt_ackQueued t' = true ∨
  rt_ackAlarm t' ≠ 0 ∧ rt_ackQueued t = false ∧
  (rt_ackAlarm t' = rt_ackAlarm t ∨ rt_ackAlarm t = 0 ∧ rt_ackAlarm t' = rcvTime + rt_maxAckDelay t).

Lemma maybeQueueAck_spec t pn rcvTime missing :
  history_inv (rt_packetHistory t) → (∀ f, rt_lastAck t = Some f → ranges_ok (ack_AckRanges f)) → 0 < rcvTime → 0 < rt_maxAckDelay t →
  ∃ t', maybeQueueAck t pn rcvTime missing = Ret t' ∧ same_but_ack t t' ∧ scheduled t t' rcvTime ∧
    (rt_ackAlarm t' = 0 ∨ rt_ackAlarm t' = rt_ackAlarm t ∨ rt_ackAlarm t' = rcvTime + rt_maxAckDelay t).
Proof.
  intros Hh Hl Ht Hd. unfold maybeQueueAck, same_but_ack, scheduled. destruct (rt_lastAck t) as [f|] eqn:Hlast.
  2: { eexists. split; [reflexivity|]. destruct t. cbn in *. split_and!; try done; [by left|tauto]. }
  destruct (rt_ackQueued t) eqn:Hq; [exists t; split_and!; try done; [by left|tauto]|].
  match goal with |- context [hasNewMissingPackets ?u] => set (t1 := u) end.
  assert (same_but_ack t t1 ∧ (rt_ackAlarm t1 = rt_ackAlarm t ∨ rt_ackAlarm t = 0 ∧ rt_ackAlarm t1 = rcvTime + rt_maxAckDelay t) ∧
    (rt_ackQueued t1 = true ∨ rt_ackAlarm t1 ≠ 0)) as (Hsame & Halarm & Hset).
  { unfold t1, same_but_ack. destruct t. cbn in *. destruct missing; cbn.
    all: repeat (case_match; cbn); split_and!; try done; try tauto; try lia. all: destruct (Z.eqb_spec rt_ackAlarm 0); try done; try lia; try tauto.
    all: try (right; lia). }
  destruct (hasNewMissing_total t1) as [b ->].
  { destruct Hsame as (-> & _). done. }
  { destruct Hsame as (_ & _ & _ & -> & _). by rewrite Hlast. }
  cbn [mbind outcome_bind]. clearbody t1. eexists. split; [reflexivity|]. unfold same_but_ack in Hsame. rewrite Hlast in Hsame.
  destruct t1. destruct Hsame as (H1 & H2 & H3 & H4 & H5). cbn in *.
  destruct b; cbn; [split_and!; try done; [by left|by left]|]. destruct rt_ackQueued; cbn; split_and!; try done; tauto.
Qed.

Lemma tracker_receive_spec t pn ecn rcvTime elicit :
  history_inv (rt_packetHistory t) → (∀ f, rt_lastAck t = Some f → ranges_ok (ack_AckRanges f)) → 0 < rcvTime → 0 < rt_maxAckDelay t →
  rt_ignoreBelow t <= pn →
  ∃ h' isNew t', history_ReceivedPacket (rt_packetHistory t) pn = Ret (h', isNew) ∧ tracker_ReceivedPacket t pn ecn rcvTime elicit = Ret t' ∧
    rt_packetHistory t' = h' ∧ rt_ignoreBelow t' = rt_ignoreBelow t ∧ rt_lastAck t' = rt_lastAck t ∧ rt_maxAckDelay t' = rt_maxAckDelay t ∧
    rt_hasNewAck t' = rt_hasNewAck t || isNew && elicit ∧
    (if elicit then scheduled t t' rcvTime else rt_ackQueued t' = rt_ackQueued t ∧ rt_ackAlarm t' = rt_ackAlarm t) ∧
    (rt_ackAlarm t' = 0 ∨ rt_ackAlarm t' = rt_ackAlarm t ∨ rt_ackAlarm t' = rcvTime + rt_maxAckDelay t).
Proof.
  intros Hh Hl Ht Hd Hpn. destruct (history_ReceivedPacket_spec (rt_packetHistory t) pn Hh) as (h' & isNew & Hr & Hinv' & _). exists h', isNew.
  setoid_rewrite Hr. unfold tracker_ReceivedPacket. rewrite (proj2 (Z.ltb_ge _ _)) by done.
  destruct (isMissing_total t pn Hl) as [missing ->]. cbn [mbind outcome_bind].
  match goal with |- context [history_ReceivedPacket (rt_packetHistory ?u) pn] => set (t1 := u) end.
  assert (same_but_ack t t1 ∧ rt_ackQueued t1 = rt_ackQueued t ∧ rt_ackAlarm t1 = rt_ackAlarm t) as (Hs1 & Hq1 & Ha1).
  { unfold t1, same_but_ack. destruct (_ <=? _); by destruct t. }
  clearbody t1. destruct Hs1 as (Eh & Ei & En & El & Em). rewrite Eh, Hr. cbn [mbind outcome_bind].
  match goal with |- context [if elicit then maybeQueueAck ?u _ _ _ else _] => set (t2 := u) end.
  assert (rt_packetHistory t2 = h' ∧ rt_ignoreBelow t2 = rt_ignoreBelow t ∧ rt_lastAck t2 = rt_lastAck t ∧ rt_maxAckDelay t2 = rt_maxAckDelay t ∧
    rt_hasNewAck t2 = rt_hasNewAck t || isNew && elicit ∧ rt_ackQueued t2 = rt_ackQueued t ∧ rt_ackAlarm t2 = rt_ackAlarm t) as Hs2.
  { unfold t2. destruct t1. cbn in *. subst. destruct (isNew && elicit); cbn; rewrite ?orb_true_r, ?orb_false_r; by split_and!. }
  clearbody t2. destruct Hs2 as (Eh2 & Ei2 & El2 & Em2 & En2 & Eq2 & Ea2).
  assert (∃ t3, (if elicit then maybeQueueAck t2 pn rcvTime missing else Ret t2) = Ret t3 ∧ same_but_ack t2 t3 ∧
    (if elicit then scheduled t2 t3 rcvTime else rt_ackQueued t3 = rt_ackQueued t2 ∧ rt_ackAlarm t3 = rt_ackAlarm t2) ∧
    (rt_ackAlarm t3 = 0 ∨ rt_ackAlarm t3 = rt_ackAlarm t2 ∨ rt_ackAlarm t3 = rcvTime + rt_maxAckDelay t2)) as (t3 & -> & Hs3 & Hsch & Hal).
  { destruct elicit; [|exists t2; split_and!; try done; tauto].
    destruct (maybeQueueAck_spec t2 pn rcvTime missing) as (t3 & ? & ? & ? & ?); [by rewrite Eh2|by rewrite El2|done|by rewrite Em2|]. by exists t3. }
  cbn [mbind outcome_bind]. eexists. split; [reflexivity|]. split; [reflexivity|]. destruct Hs3 as (Eh3 & Ei3 & En3 & El3 & Em3).
  unfold scheduled in *. rewrite <-Eq2, <-Ea2, <-Em2.
  destruct ecn, t3; cbn in *; split_and!; congruence || done.
Qed.

Lemma has_nonempty h x : has h x → el_elems (rh_ranges h) ≠ [].
Proof. unfold has. intros Hx E. rewrite E in Hx. by apply in_ranges_nil in Hx. Qed.

(** The packets that wait are acknowledged in time. *)
Lemma pending_step t t0 t' (isNew elicit : bool) g pn rcvTime :
  (g_pending g ≠ [] → rt_hasNewAck t = true ∧
    (rt_ackQueued t = true ∨ rt_ackAlarm t ≠ 0 ∧ Forall (λ p, rt_ackAlarm t <= p.2 + MaxAckDelay) (g_pending g))) →
  (rt_ackAlarm t ≠ 0 → rt_ackAlarm t <= g_now g + MaxAckDelay) → g_now g <= rcvTime →
  rt_ackAlarm t0 = rt_ackAlarm t → rt_ackQueued t0 = rt_ackQueued t → rt_maxAckDelay t0 = MaxAckDelay →
  (if elicit then scheduled t0 t' rcvTime else rt_ackQueued t' = rt_ackQueued t0 ∧ rt_ackAlarm t' = rt_ackAlarm t0) →
  let pending := if isNew && elicit then (pn, rcvTime) :: g_pending g else g_pending g in
  pending ≠ [] →
  rt_hasNewAck t || isNew && elicit = true ∧
  (rt_ackQueued t' = true ∨ rt_ackAlarm t' ≠ 0 ∧ Forall (λ p, rt_ackAlarm t' <= p.2 + MaxAckDelay) pending).
Proof.
  intros Hpend Halarm Hnow Ea Eq Em Hsch pending Hne. split.
  - unfold pending in Hne. destruct (isNew && elicit); [apply orb_true_r|]. rewrite orb_false_r. by apply Hpend.
  - destruct elicit; [|destruct Hsch as [-> ->]; unfold pending in *; rewrite andb_false_r in *; rewrite Ea, Eq; by apply Hpend].
    destruct Hsch as [?|(Hz & Hq & Hal)]; [by left|right]. split; [done|]. rewrite Ea, Em in Hal. rewrite Eq in Hq.
    assert (Forall (λ p, rt_ackAlarm t' <= p.2 + MaxAckDelay) (g_pending g)) as Hold.
    { destruct (g_pending g) as [|p ps] eqn:Ep; [apply Forall_nil_2|]. destruct (Hpend ltac:(done)) as [_ [?|[Hz' Hf]]]; [congruence|].
      destruct Hal as [->|[? _]]; [done|lia]. }
    unfold pending. destruct (isNew && true); [|done]. constructor; [|done]. cbn.
    destruct Hal as [Hal|[_ Hal]]; rewrite Hal; [|lia]. specialize (Halarm ltac:(congruence)). lia.
Qed.

Lemma tracker_receive_inv t g limit pn ecn rcvTime elicit :
  tracker_inv t g → pn_ok pn → 0 < rcvTime → g_now g <= rcvTime → limit <= rt_ignoreBelow t ∨ limit <= pn →
  ∃ t', tracker_ReceivedPacket (IgnoreBelow t limit) pn ecn rcvTime elicit = Ret t' ∧
    tracker_inv t' (ghost_receive (IgnoreBelow t limit) g pn rcvTime elicit).
Proof.
  intros Hinv Hpn Ht Hnow Hlim. destruct (IgnoreBelow_inv t g limit pn Hinv Hlim) as (Hh0 & Hd0 & Hi0 & Hsub & Hsup & Hsame & En & El & Em & Ea & Eq).
  set (t0 := IgnoreBelow t limit) in *. destruct Hinv as [Hh Hd Hnum Hcomp Hne Hlast Hdelay Hn0 Halarm Hpend].
  assert (tracker_IsPotentiallyDuplicate t0 pn = bool_decide (pn < rt_ignoreBelow t0 ∨ has (rt_packetHistory t0) pn)) as Hdup.
  { unfold tracker_IsPotentiallyDuplicate. rewrite history_duplicate_spec by done. by rewrite Hd0. }
  destruct (decide (pn < rt_ignoreBelow t0)) as [Hlt|Hge].
  - exists t. specialize (Hsame Hlt). rewrite Hsame in *. unfold tracker_ReceivedPacket. rewrite (proj2 (Z.ltb_lt _ _)) by done. split; [done|].
    unfold ghost_receive. rewrite Hdup, bool_decide_eq_true_2, andb_false_r by tauto. rewrite (proj2 (Z.ltb_lt _ _)) by done. rewrite orb_false_r.
    split; cbn; try done.
    + intros x Hx. destruct (Hnum x Hx). split; [done|]. by right.
    + intros Htr x [->|Hx]%elem_of_cons Hle; [lia|]. by apply Hcomp.
    + lia.
    + intros Hz. specialize (Halarm Hz). lia.
  - destruct (tracker_receive_spec t0 pn ecn rcvTime elicit) as (h' & isNew & t' & Hr & -> & Eh' & Ei' & El' & Em' & En' & Hsch & Hal');
      [done|by rewrite El|done|rewrite Em, Hdelay; unfold MaxAckDelay; lia|lia|].
    destruct (history_ReceivedPacket_spec _ pn Hh0) as (h'' & isNew' & Hr' & Hinv' & Hdb' & Hnew & Hin & Hback & Hnonempty). rewrite Hr in Hr'. injection Hr' as <- <-.
    assert (isNew = negb (tracker_IsPotentiallyDuplicate t0 pn)) as Hnew'.
    { rewrite Hnew, Hdup, <-bool_decide_not. apply bool_decide_ext. rewrite Hd0. intuition lia. }
    exists t'. split; [done|]. split; rewrite ?Eh', ?Ei', ?El', ?Em', ?En'; cbn.
    + done.
    + congruence.
    + intros x [Hx|[-> _]]%Hin; [|split; [done|left]]. apply Hsub, Hnum in Hx as [? ?]. split; [done|by right].
    + rewrite (proj2 (Z.ltb_ge _ _)) by lia. intros [Htr Htr']%orb_false_iff x Hx Hle. apply Hback; [done|].
      apply elem_of_cons in Hx as [->|Hx]; [right; lia|left]. apply Hsup; [|done]. apply Hcomp; [done|done|lia].
    + intros _. apply Hnonempty. lia.
    + by rewrite El.
    + by rewrite Em.
    + lia.
    + rewrite Ea, Em, Hdelay in Hal'. intros Hz. destruct (decide (rt_ackAlarm t = 0)); [lia|]. specialize (Halarm ltac:(done)). lia.
    + rewrite <-Hnew', (andb_comm elicit), En. apply (pending_step t t0 t' isNew elicit g pn rcvTime); try done. congruence.
Qed.

Lemma GetAckFrame_spec t g recovered now onlyIfQueued :
  tracker_inv t g → Forall pn_ok recovered →
  ∃ t' ack recovered', tracker_GetAckFrame t recovered now onlyIfQueued = Ret (t', ack, recovered') ∧
    tracker_inv t' (match ack with Some _ => mk_ghost (recovered ++ g_received g) [] (g_now g) (g_truncated g) | None => g end) ∧
    match ack with
    | Some f => ranges_ok (ack_AckRanges f) ∧ ∀ x, acked (ack_AckRanges f) x ↔ has (rt_packetHistory t) x ∨ x ∈ recovered
    | None => rt_hasNewAck t = false ∨ onlyIfQueued = true ∧ rt_ackQueued t = false ∧ (rt_ackAlarm t = 0 ∨ now < rt_ackAlarm t)
    end.
Proof.
  intros Hinv Hrec. unfold tracker_GetAckFrame. destruct (rt_hasNewAck t) eqn:Hn; cbn [negb].
  2: { exists t, None, recovered. split_and!; [done|done|by left]. }
  destruct (onlyIfQueued && _ && _) eqn:Hc.
  { exists t, None, recovered. split_and!; [done|done|right]. apply andb_true_iff in Hc as [[-> Hq]%andb_true_iff Ha].
    apply negb_true_iff in Hq. apply orb_true_iff in Ha as [?%Z.eqb_eq|?%Z.ltb_lt]; split_and!; try done; tauto. }
  destruct Hinv as [Hh Hd Hnum Hcomp Hne Hlast Hdelay Hn0 Halarm Hpend]. specialize (Hne Hn). rewrite Forall_forall in Hrec.
  unfold GetAckRanges. destruct (add_recovered_spec recovered (rt_packetHistory t) Hh) as (h' & -> & Hh' & Hd' & Hx). cbn [mbind outcome_bind].
  assert (ranges_ok (ack_range <$> rev (el_elems (rh_ranges h')))) as Hok.
  { apply ack_ranges_ok; [apply Hh'| |].
    - destruct (el_elems (rh_ranges (rt_packetHistory t))) as [|r rs] eqn:E; [done|]. apply (has_nonempty h' (pi_Start r.2)), Hx. left.
      pose proof (hi_ranges _ Hh) as [_ Hf]. unfold has. rewrite E in *. apply Forall_cons in Hf as [Hr _]. apply in_ranges_cons. left. lia.
    - intros x Hin. apply Hx in Hin as [Hin|Hin]; [by apply Hnum|by apply Hrec]. }
  eexists _, _, _. split; [reflexivity|]. split.
  - destruct t. cbn in *. split; cbn; try done; [congruence|..].
    + intros x [Hin|Hin]%Hx; rewrite elem_of_app; [destruct (Hnum x Hin); tauto|split; [by apply Hrec|tauto]].
    + intros Htr x [Hin|Hin]%elem_of_app Hle; apply Hx; [tauto|left; by apply Hcomp].
    + by intros f [= <-].
  - cbn. split; [done|]. intros x. rewrite acked_ranges. apply Hx.
Qed.

Lemma treach_inv t g : treach t g → tracker_inv t g.
Proof.
  induction 1 as [|t g limit pn ecn rcvTime elicit t' _ IH Hpn Ht Hnow Hlim Hr|t g recovered now oiq t' ack recovered' _ IH Hrec Hr].
  - split; cbn; try done.
    + split; cbn; [split; cbn; [constructor|apply Forall_nil_2]|lia|apply intervals_nil].
    + intros x Hx. by apply in_ranges_nil in Hx.
    + by intros _ x ?%elem_of_nil.
  - destruct (tracker_receive_inv t g limit pn ecn rcvTime elicit IH Hpn Ht Hnow Hlim) as (t1 & Hr1 & Hinv). rewrite Hr in Hr1. by injection Hr1 as <-.
  - destruct (GetAckFrame_spec t g recovered now oiq IH Hrec) as (t1 & ack1 & rec1 & Hr1 & Hinv & _). rewrite Hr in Hr1. by injection Hr1 as <- <- <-.
Qed.

(** C17. Received packets are acknowledged, truthfully and in time.  In every state a tracker reaches, receiving a packet and asking for an
    ACK frame do not fail.  Asked for a frame at a time when a new packet that asks for an acknowledgment came [MaxAckDelay] or longer ago,
    the tracker makes one.  The frame is valid; it acknowledges only packets that came or whose data was recovered; and if no ranges had to
    be forgotten it acknowledges every packet that came and is not below the limit.  The runs are those with packet numbers that a varint can
    hold, times that do not go back, and packets that raise the limit below which packets are ignored only to at most their own number
    (a peer that sends packet numbers out of order can break this condition; what the tracker does then is shown at
    the end of this file). *)
Theorem packets_acknowledged t g recovered now :
  treach t g → Forall pn_ok recovered →
  (∀ limit pn ecn rcvTime elicit, pn_ok pn → 0 < rcvTime → g_now g <= rcvTime → limit <= rt_ignoreBelow t ∨ limit <= pn →
     is_ret (tracker_ReceivedPacket (IgnoreBelow t limit) pn ecn rcvTime elicit)) ∧
  ∃ t' ack recovered', tracker_GetAckFrame t recovered now true = Ret (t', ack, recovered') ∧
    (∀ pn rcvTime, (pn, rcvTime) ∈ g_pending g → rcvTime + MaxAckDelay <= now → is_Some ack) ∧
    ∀ f, ack = Some f →
      validateAckRanges (ack_AckRanges f) = true ∧
      (∀ x, AcksPacket f x = Ret true → x ∈ g_received g ∨ x ∈ recovered) ∧
      (g_truncated g = false → ∀ x, x ∈ g_received g → rt_ignoreBelow t <= x → AcksPacket f x = Ret true).
Proof.
  intros Hreach Hrec. pose proof (treach_inv t g Hreach) as Hinv. split.
  { intros limit pn ecn rcvTime elicit Hpn Ht Hnow Hlim. destruct (tracker_receive_inv t g limit pn ecn rcvTime elicit Hinv Hpn Ht Hnow Hlim) as (t' & -> & _).
    done. }
  destruct (GetAckFrame_spec t g recovered now true Hinv Hrec) as (t' & ack & rec' & -> & _ & Hack). exists t', ack, rec'. split; [done|]. split.
  - intros pn rcvTime Hin Hle. destruct (ti_pending _ _ Hinv) as [Hn Hs]; [intros E; by rewrite E in Hin; apply elem_of_nil in Hin|].
    destruct ack; [done|]. destruct Hack as [?|(_ & Hq & Ha)]; [congruence|]. destruct Hs as [?|[Hz Hf]]; [congruence|].
    rewrite Forall_forall in Hf. specialize (Hf _ Hin). cbn in Hf. lia.
  - intros f ->. destruct Hack as [Hok Hx]. split; [by apply validate_ranges_ok|]. split.
    + intros x Ha. destruct (AcksPacket_spec f x Hok) as (b & Hb & Hiff). rewrite Ha in Hb. injection Hb as <-.
      destruct (proj1 (Hx x) (proj1 Hiff eq_refl)) as [Hin|?]; [|tauto]. left. by apply (ti_numbers _ _ Hinv).
    + intros Htr x Hin Hle. destruct (AcksPacket_spec f x Hok) as (b & -> & Hiff). f_equal. apply Hiff, Hx. left. by apply (ti_complete _ _ Hinv).
Qed.

(** ** Examples *)

Definition or_new (o : outcome receivedPacketTracker) : receivedPacketTracker := match o with Ret t => t | _ => newReceivedPacketTracker end.

Definition after_ack (t : receivedPacketTracker) (now : Z) : receivedPacketTracker :=
  or_new ('(t, _, _) ← tracker_GetAckFrame t [] now true; Ret t).

(** Packet 0 is acknowledged; then packets 3 and 1 come. *)
Definition example_t1 := or_new (tracker_ReceivedPacket (IgnoreBelow newReceivedPacketTracker 0) 0 ECNNon 10 true).
Definition example_t2 := after_ack example_t1 20.
Definition example_t3 := or_new (tracker_ReceivedPacket (IgnoreBelow example_t2 0) 3 ECT0 30 true).
Definition example_t4 := or_new (tracker_ReceivedPacket (IgnoreBelow example_t3 1) 1 ECNNon 40 false).
Definition example_ghost : ghost := mk_ghost [1; 3; 0] [(3, 30)] 40 false.

Lemma example_reached : treach example_t4 example_ghost.
Proof.
  assert (pn_ok 0 ∧ pn_ok 1 ∧ pn_ok 3) as (H0 & H1 & H3) by (unfold pn_ok, maxVarInt8; lia).
  assert (treach example_t1 (mk_ghost [0] [(0, 10)] 10 false)) as Hr1.
  { apply (treach_receive newReceivedPacketTracker (mk_ghost [] [] 0 false) 0 0 ECNNon 10 true example_t1 treach_new H0);
      [lia|cbn; lia|right; lia|vm_compute; reflexivity]. }
  assert (treach example_t2 (mk_ghost [0] [] 10 false)) as Hr2.
  { apply (treach_ack example_t1 (mk_ghost [0] [(0, 10)] 10 false) [] 20 true example_t2
      (Some {| ack_AckRanges := [{| ar_Smallest := 0; ar_Largest := 0 |}]; ack_DelayTime := 10; ack_ECT0 := 0; ack_ECT1 := 0; ack_ECNCE := 0 |})
      [] Hr1 (Forall_nil_2 _)). vm_compute. reflexivity. }
  assert (treach example_t3 (mk_ghost [3; 0] [(3, 30)] 30 false)) as Hr3.
  { apply (treach_receive example_t2 (mk_ghost [0] [] 10 false) 0 3 ECT0 30 true example_t3 Hr2 H3);
      [lia|cbn; lia|right; lia|vm_compute; reflexivity]. }
  apply (treach_receive example_t3 (mk_ghost [3; 0] [(3, 30)] 30 false) 1 1 ECNNon 40 false example_t4 Hr3 H1);
    [lia|cbn; lia|right; lia|vm_compute; reflexivity].
Defined.

Lemma packets_acknowledged_witness :
  treach example_t4 example_ghost ∧ (3, 30) ∈ g_pending example_ghost ∧
  (∀ limit pn ecn rcvTime elicit, pn_ok pn → 0 < rcvTime → 40 <= rcvTime → limit <= rt_ignoreBelow example_t4 ∨ limit <= pn →
     is_ret (tracker_ReceivedPacket (IgnoreBelow example_t4 limit) pn ecn rcvTime elicit)) ∧
  ∃ t' ack recovered', tracker_GetAckFrame example_t4 [2] 26000000 true = Ret (t', ack, recovered') ∧
    (∀ pn rcvTime, (pn, rcvTime) ∈ g_pending example_ghost → rcvTime + MaxAckDelay <= 26000000 → is_Some ack) ∧
    ∀ f, ack = Some f →
      validateAckRanges (ack_AckRanges f) = true ∧
      (∀ x, AcksPacket f x = Ret true → x ∈ g_received example_ghost ∨ x ∈ [2]) ∧
      (g_truncated example_ghost = false → ∀ x, x ∈ g_received example_ghost → rt_ignoreBelow example_t4 <= x → AcksPacket f x = Ret true).
Proof.
  split; [exact example_reached|]. split; [left|].
  apply (packets_acknowledged example_t4 example_ghost [2] 26000000 example_reached).
  apply Forall_singleton. unfold pn_ok, maxVarInt8. lia.
Defined.

(** The forgotten history. *)
Lemma IgnoreBelow_all t g limit :
  tracker_inv t g → (∀ x, x ∈ g_received g → x < limit) → rt_ignoreBelow t < limit →
  el_elems (rh_ranges (rt_packetHistory (IgnoreBelow t limit))) = [].
Proof.
  intros Hinv Hall Hlim. unfold IgnoreBelow. rewrite (proj2 (Z.leb_gt _ _)) by done.
  destruct (DeleteBelow_spec (rt_packetHistory t) limit (ti_history _ _ Hinv)) as (Hh & _ & Hx); [rewrite (ti_deleted _ _ Hinv); lia|].
  change (rt_packetHistory (t <| rt_ignoreBelow := limit |> <| rt_packetHistory ::= λ hi, DeleteBelow hi limit |>))
    with (DeleteBelow (rt_packetHistory t) limit).
  destruct (el_elems (rh_ranges (DeleteBelow (rt_packetHistory t) limit))) as [|r rs] eqn:E; [done|]. exfalso.
  destruct (proj1 (Hx (pi_Start r.2))) as [Hin Hle].
  { pose proof (hi_ranges _ Hh) as [_ Hf]. unfold has. rewrite E in *. apply Forall_cons in Hf as [Hr _]. apply in_ranges_cons. left. lia. }
  apply (ti_numbers _ _ Hinv) in Hin as [_ Hin]. specialize (Hall _ Hin). lia.
Qed.

(** C40. A packet that raises the limit above itself and above all packets that came, while one of them waits for its acknowledgment, makes
    the tracker return an ACK frame without ranges, and computing the length of that frame or writing it panics.  Such a packet carries the
    peer's acknowledgment of a frame that acknowledged the largest number, and has itself a smaller number: a peer that sends its packet
    numbers out of order can do this (packet 5, acknowledged; packet 3; packet 4 with the acknowledgment: the limit becomes 6).  This is why
    the runs in which packets are acknowledged are those where the limit is raised at most to the number of the packet received. *)
Theorem ack_frame_without_ranges t g limit pn ecn rcvTime elicit now onlyIfQueued :
  treach t g → rt_ignoreBelow t < limit → (∀ x, x ∈ g_received g → x < limit) → pn < limit →
  (∃ pn' rcvTime', (pn', rcvTime') ∈ g_pending g ∧ rcvTime' + MaxAckDelay <= now) →
  ∃ t' t'' f, tracker_ReceivedPacket (IgnoreBelow t limit) pn ecn rcvTime elicit = Ret t' ∧
    tracker_GetAckFrame t' [] now onlyIfQueued = Ret (t'', Some f, []) ∧ ack_AckRanges f = [] ∧
    AckFrame_Length f = Panic "index out of range" ∧ AckFrame_Write f = Panic "index out of range".
Proof.
  intros Hreach%treach_inv Hlim Hall Hpn (pn' & r' & Hin & Hdue). pose proof (IgnoreBelow_all t g limit Hreach Hall Hlim) as Hnil.
  destruct (ti_pending _ _ Hreach) as [Hn Hs]; [intros E; rewrite E in Hin; by apply elem_of_nil in Hin|].
  assert (rt_ignoreBelow (IgnoreBelow t limit) = limit ∧ rt_hasNewAck (IgnoreBelow t limit) = true ∧
    rt_ackQueued (IgnoreBelow t limit) = rt_ackQueued t ∧ rt_ackAlarm (IgnoreBelow t limit) = rt_ackAlarm t) as (Hi & Hn' & Hq' & Ha').
  { unfold IgnoreBelow. rewrite (proj2 (Z.leb_gt _ _)) by done. by destruct t. }
  set (t0 := IgnoreBelow t limit) in *. clearbody t0. exists t0. unfold tracker_ReceivedPacket, tracker_GetAckFrame, GetAckRanges.
  rewrite Hi, (proj2 (Z.ltb_lt _ _)), Hn', Hq', Ha' by done. cbn [negb add_recovered mbind outcome_bind]. rewrite Hnil.
  replace (onlyIfQueued && negb (rt_ackQueued t) && ((rt_ackAlarm t =? 0) || (now <? rt_ackAlarm t))) with false.
  - eexists _, _. split; [done|]. split; [reflexivity|]. by split_and!.
  - symmetry. destruct Hs as [->|[Hz Hf]]; [by rewrite andb_false_r|]. rewrite Forall_forall in Hf. specialize (Hf _ Hin). cbn in Hf.
    rewrite (proj2 (Z.eqb_neq _ _)), (proj2 (Z.ltb_ge _ _)) by (done || lia). apply andb_false_r.
Qed.

(** Packet 3 waits for its acknowledgment; packet 2 raises the limit to 4. *)
Lemma ack_frame_without_ranges_witness :
  ∃ t' t'' f, tracker_ReceivedPacket (IgnoreBelow example_t4 4) 2 ECNNon 50 false = Ret t' ∧
    tracker_GetAckFrame t' [] 26000000 true = Ret (t'', Some f, []) ∧ ack_AckRanges f = [] ∧
    AckFrame_Length f = Panic "index out of range" ∧ AckFrame_Write f = Panic "index out of range".
Proof.
  apply (ack_frame_without_ranges example_t4 example_ghost 4 2 ECNNon 50 false 26000000 true example_reached).
  - vm_compute. reflexivity.
  - intros x Hx. cbn in Hx. rewrite !elem_of_cons, elem_of_nil in Hx. lia.
  - lia.
  - exists 3, 30. split; [left|vm_compute; discriminate].
Defined.
