(* ===== verification/QuicSent.v ===== *)
(** * Sent packets ([internal/ackhandler/sent_packet_*.go])

    The packets that were sent and not yet acknowledged, one history per packet
    number space; the detection of lost packets by number and by time; the timer,
    with its probes; the bytes in flight and when a packet may be sent.

    The callbacks [OnAcked] and [OnLost] of the frames are a list of events that an
    operation returns, in the order of the calls.  The callback of a path MTU probe
    calls [SetMaxDatagramSize] of the handler, which [probed] says.  Time is in
    nanoseconds and the zero value of [time.Time] is 0; the current time is an
    argument, and so is the random number that the generator of packet numbers
    draws.  Logging and tracing are left out. *)

From stdpp Require Import base list numbers strings gmap.
From Stdlib Require Import ZArith Lia Floats.SpecFloat.
From S2P Require Import Prelude Config Monitor FloatExact LinkedList QuicProtocol QuicFrames QuicRtt QuicFlowControl QuicCongestion QuicReceived.

(** ** Packet numbers ([packet_number_generator.go]) *)

Inductive packetNumberGenerator :=
| sequentialPacketNumberGenerator (next : Z)
| skippingPacketNumberGenerator (period maxPeriod next nextToSkip : Z).

(** [r] is the random number, at least 0 and below twice the period; the result is
    the number to skip and the next period. *)
Definition generateNewSkip (period maxPeriod next r : Z) : Z * Z := (next + 2 + r, Z.min (2 * period) maxPeriod).

Definition newSkippingPacketNumberGenerator (initial initialPeriod maxPeriod r : Z) : packetNumberGenerator :=
  let '(nextToSkip, period) := generateNewSkip initialPeriod maxPeriod initial r in
  skippingPacketNumberGenerator period maxPeriod initial nextToSkip.

Definition pns_Peek (g : packetNumberGenerator) : Z :=
  match g with sequentialPacketNumberGenerator next | skippingPacketNumberGenerator _ _ next _ => next end.

Definition pns_Pop (g : packetNumberGenerator) (r : Z) : packetNumberGenerator * Z :=
  match g with
  | sequentialPacketNumberGenerator next => (sequentialPacketNumberGenerator (next + 1), next)
  | skippingPacketNumberGenerator period maxPeriod next nextToSkip =>
      let next' := next + 1 in
      if next' =? nextToSkip then
        let '(nextToSkip, period) := generateNewSkip period maxPeriod (next' + 1) r in
        (skippingPacketNumberGenerator period maxPeriod (next' + 1) nextToSkip, next)
      else (skippingPacketNumberGenerator period maxPeriod next' nextToSkip, next)
  end.

Definition SkipPacketInitialPeriod : Z := 256.
Definition SkipPacketMaxPeriod : Z := 128 * 1024.

Inductive SendMode := SendNone | SendAck | SendPTOInitial | SendPTOHandshake | SendPTOAppData | SendAny.

#[global] Instance SendMode_eq_dec : EqDecision SendMode.
Proof. solve_decision. Defined.

Definition packetThreshold : Z := 3.
Definition timeThreshold : spec_float := f64_of_frac 9 8.
Definition amplificationFactor : Z := 3.
Definition minRTTAfterRetry : Z := 5 * Millisecond.
Definition MaxOutstandingSentPackets : Z := 2 * MaxCongestionWindowPackets.
Definition MaxTrackedSentPackets : Z := MaxOutstandingSentPackets * 5 / 4.

Section Sent.
Context {Fr : Type} {C : Type} `{SendAlgorithm C}.

(** ** Packets ([frame.go], [interfaces.go]) *)

(** [fr_OnLost] and [fr_OnAcked]: the callback is not nil. *)
Record Frame := mk_frame { fr_Frame : Fr; fr_OnLost : bool; fr_OnAcked : bool }.

Record Packet := mk_packet {
  p_PacketNumber : Z;
  p_Frames : list Frame;
  p_LargestAcked : Z;
  p_Length : Z;
  p_EncryptionLevel : EncryptionLevel;
  p_SendTime : Z;
  p_IsPathMTUProbePacket : bool;
  p_includedInBytesInFlight : bool;
  p_declaredLost : bool;
  p_skippedPacket : bool;
}.

#[global] Instance Packet_fields : Fields Packet := λ p,
  mk_packet (p_PacketNumber p) (p_Frames p) (p_LargestAcked p) (p_Length p) (p_EncryptionLevel p) (p_SendTime p)
    (p_IsPathMTUProbePacket p) (p_includedInBytesInFlight p) (p_declaredLost p) (p_skippedPacket p).

Inductive frame_event := FrameAcked (f : Fr) | FrameLost (f : Fr).

(** ** History ([sent_packet_history.go]) *)

(** The list has a packet number at most once, so that the number stands for the
    element; the map is the set of its keys. *)
Record sentPacketHistory := mk_sent_history {
  sh_packetList : list Packet;
  sh_packetMap : gset Z;
  sh_highestSent : Z;
}.

#[global] Instance sentPacketHistory_fields : Fields sentPacketHistory := λ h,
  mk_sent_history (sh_packetList h) (sh_packetMap h) (sh_highestSent h).

Definition newSentPacketHistory : sentPacketHistory :=
  {| sh_packetList := []; sh_packetMap := ∅; sh_highestSent := InvalidPacketNumber |}.

Definition skipped (p : Packet) (pn : Z) : Packet :=
  mk_packet pn [] 0 0 (p_EncryptionLevel p) (p_SendTime p) false false false true.

Definition history_PushBack (h : sentPacketHistory) (p : Packet) : sentPacketHistory :=
  h <| sh_packetList ::= λ l, l ++ [p] |> <| sh_packetMap ::= λ m, {[p_PacketNumber p]} ∪ m |>.

Definition history_SentPacket (h : sentPacketHistory) (p : Packet) (isAckEliciting : bool) : outcome sentPacketHistory :=
  if p_PacketNumber p <=? sh_highestSent h then Panic "non-sequential packet number use" else
  let h := fold_left (λ h pn, history_PushBack h (skipped p pn)) (seqZ (sh_highestSent h + 1) (p_PacketNumber p - (sh_highestSent h + 1))) h in
  let h := h <| sh_highestSent := p_PacketNumber p |> in
  Ret (if isAckEliciting then history_PushBack h p else h).

(** [Iterate]: the callback changes its state and the packet ([None]: it removes the
    packet), and says whether to go on. *)
Fixpoint Iterate {S} (cb : S → Packet → outcome (S * option Packet * bool * option go_error)) (s : S) (l : list Packet) :
    outcome (S * list Packet * option go_error) :=
  match l with
  | [] => Ret (s, [], None)
  | p :: l =>
      '(s, p', cont, err) ← cb s p;
      let ps := match p' with Some p => [p] | None => [] end in
      match err with
      | Some e => Ret (s, ps ++ l, Some e)
      | None =>
          if cont : bool then
            '(s, l, err) ← Iterate cb s l;
            Ret (s, ps ++ l, err)
          else Ret (s, ps ++ l, None)
      end
  end.

Definition outstanding (p : Packet) : bool := negb (p_declaredLost p) && negb (p_skippedPacket p) && negb (p_IsPathMTUProbePacket p).

(** The packets before the first outstanding one, it, and the rest. *)
Fixpoint split_outstanding (l : list Packet) : option (list Packet * Packet * list Packet) :=
  match l with
  | [] => None
  | p :: l =>
      if outstanding p then Some ([], p, l)
      else match split_outstanding l with Some (a, q, b) => Some (p :: a, q, b) | None => None end
  end.

Definition FirstOutstanding (h : sentPacketHistory) : option Packet :=
  match split_outstanding (sh_packetList h) with Some (_, p, _) => Some p | None => None end.

Definition history_Len (h : sentPacketHistory) : Z := Z.of_nat (size (sh_packetMap h)).

Definition remove_packet (pn : Z) (l : list Packet) : list Packet := filter (λ p, p_PacketNumber p ≠ pn) l.

Definition history_Remove (h : sentPacketHistory) (pn : Z) : sentPacketHistory * option go_error :=
  if decide (pn ∈ sh_packetMap h)
  then (h <| sh_packetList ::= remove_packet pn |> <| sh_packetMap ::= λ m, m ∖ {[pn]} |>, None)
  else (h, Some (GoError "packet not found in sent packet history")).

Definition HasOutstandingPackets (h : sentPacketHistory) : bool := match FirstOutstanding h with Some _ => true | None => false end.

Fixpoint delete_old_packets (limit : Z) (l : list Packet) (m : gset Z) : list Packet * gset Z :=
  match l with
  | [] => ([], m)
  | p :: l =>
      if limit <? p_SendTime p then (p :: l, m)
      else if negb (p_skippedPacket p) && negb (p_declaredLost p) then
        let '(l, m) := delete_old_packets limit l m in (p :: l, m)
      else delete_old_packets limit l (m ∖ {[p_PacketNumber p]})
  end.

Definition DeleteOldPackets (h : sentPacketHistory) (rttStats : RTTStats) (now : Z) : sentPacketHistory :=
  let maxAge := i64 (3 * PTO rttStats false) in
  let '(l, m) := delete_old_packets (now - maxAge) (sh_packetList h) (sh_packetMap h) in
  h <| sh_packetList := l |> <| sh_packetMap := m |>.

(** ** Handler ([sent_packet_handler.go]) *)

Record packetNumberSpace := mk_space {
  ps_history : sentPacketHistory;
  ps_pns : packetNumberGenerator;
  ps_lossTime : Z;
  ps_lastAckElicitingPacketTime : Z;
  ps_largestAcked : Z;
  ps_largestSent : Z;
}.

#[global] Instance packetNumberSpace_fields : Fields packetNumberSpace := λ s,
  mk_space (ps_history s) (ps_pns s) (ps_lossTime s) (ps_lastAckElicitingPacketTime s) (ps_largestAcked s) (ps_largestSent s).

Definition newPacketNumberSpace (initialPN : Z) (skipPNs : bool) (r : Z) : packetNumberSpace := {|
  ps_history := newSentPacketHistory;
  ps_pns := if skipPNs then newSkippingPacketNumberGenerator initialPN SkipPacketInitialPeriod SkipPacketMaxPeriod r
            else sequentialPacketNumberGenerator initialPN;
  ps_lossTime := 0; ps_lastAckElicitingPacketTime := 0; ps_largestAcked := InvalidPacketNumber; ps_largestSent := InvalidPacketNumber;
|}.

(** [None]: a packet number space that was dropped, a nil pointer. *)
Record sentPacketHandler := mk_sent_handler {
  sp_initialPackets : option packetNumberSpace;
  sp_handshakePackets : option packetNumberSpace;
  sp_appDataPackets : packetNumberSpace;
  sp_peerCompletedAddressValidation : bool;
  sp_bytesReceived : Z;
  sp_bytesSent : Z;
  sp_peerAddressValidated : bool;
  sp_handshakeConfirmed : bool;
  sp_lowestNotConfirmedAcked : Z;
  sp_bytesInFlight : Z;
  sp_congestion : C;
  sp_rttStats : RTTStats;
  sp_ptoCount : Z;
  sp_ptoMode : SendMode;
  sp_numProbesToSend : Z;
  sp_alarm : Z;
  sp_perspective : Perspective;
}.

#[global] Instance sentPacketHandler_fields : Fields sentPacketHandler := λ h,
  mk_sent_handler (sp_initialPackets h) (sp_handshakePackets h) (sp_appDataPackets h) (sp_peerCompletedAddressValidation h) (sp_bytesReceived h)
    (sp_bytesSent h) (sp_peerAddressValidated h) (sp_handshakeConfirmed h) (sp_lowestNotConfirmedAcked h) (sp_bytesInFlight h) (sp_congestion h)
    (sp_rttStats h) (sp_ptoCount h) (sp_ptoMode h) (sp_numProbesToSend h) (sp_alarm h) (sp_perspective h).

(** [congestion] is the controller that [NewCubicSender] makes. *)
Definition newSentPacketHandler (initialPN : Z) (rttStats : RTTStats) (pers : Perspective) (congestion : C) : sentPacketHandler := {|
  sp_initialPackets := Some (newPacketNumberSpace initialPN false 0);
  sp_handshakePackets := Some (newPacketNumberSpace 0 false 0);
  sp_appDataPackets := newPacketNumberSpace 0 false 0;
  sp_peerCompletedAddressValidation := bool_decide (pers = PerspectiveServer);
  sp_bytesReceived := 0; sp_bytesSent := 0;
  sp_peerAddressValidated := bool_decide (pers = PerspectiveClient);
  sp_handshakeConfirmed := false; sp_lowestNotConfirmedAcked := 0; sp_bytesInFlight := 0; sp_congestion := congestion; sp_rttStats := rttStats;
  sp_ptoCount := 0; sp_ptoMode := SendNone; sp_numProbesToSend := 0; sp_alarm := 0; sp_perspective := pers;
|}.

Implicit Types (h : sentPacketHandler) (p : Packet).

Definition getPacketNumberSpace h (encLevel : EncryptionLevel) : option packetNumberSpace :=
  match encLevel with
  | EncryptionInitial => sp_initialPackets h
  | EncryptionHandshake => sp_handshakePackets h
  | Encryption0RTT | Encryption1RTT => Some (sp_appDataPackets h)
  end.

(** The space through its pointer, and a change of it. *)
Definition space h (encLevel : EncryptionLevel) : outcome packetNumberSpace :=
  match getPacketNumberSpace h encLevel with Some s => Ret s | None => nil_pointer end.

Definition set_space h (encLevel : EncryptionLevel) (s : packetNumberSpace) : sentPacketHandler :=
  match encLevel with
  | EncryptionInitial => h <| sp_initialPackets := Some s |>
  | EncryptionHandshake => h <| sp_handshakePackets := Some s |>
  | Encryption0RTT | Encryption1RTT => h <| sp_appDataPackets := s |>
  end.

Definition removeFromBytesInFlight h p : outcome (sentPacketHandler * Packet) :=
  if p_includedInBytesInFlight p then
    if sp_bytesInFlight h <? p_Length p then Panic "negative bytes_in_flight" else
    Ret (h <| sp_bytesInFlight ::= λ b, b - p_Length p |>, p <| p_includedInBytesInFlight := false |>)
  else Ret (h, p).

(** *** The timer *)

Definition isAmplificationLimited h : bool :=
  if sp_peerAddressValidated h then false else amplificationFactor * sp_bytesReceived h <=? sp_bytesSent h.

Definition before_or_zero (t best : Z) : bool := (best =? 0) || (negb (t =? 0) && (t <? best)).

Definition getLossTimeAndSpace h : Z * EncryptionLevel :=
  let best := match sp_initialPackets h with Some s => (ps_lossTime s, EncryptionInitial) | None => (0, EncryptionInitial) end in
  let best := match sp_handshakePackets h with
              | Some s => if before_or_zero (ps_lossTime s) best.1 then (ps_lossTime s, EncryptionHandshake) else best
              | None => best
              end in
  if before_or_zero (ps_lossTime (sp_appDataPackets h)) best.1 then (ps_lossTime (sp_appDataPackets h), Encryption1RTT) else best.

Definition space_outstanding (s : option packetNumberSpace) : bool :=
  match s with Some s => HasOutstandingPackets (ps_history s) | None => false end.

Definition hasOutstandingCryptoPackets h : bool :=
  if space_outstanding (sp_initialPackets h) then true
  else if space_outstanding (sp_handshakePackets h) then true
  else false.

Definition hasOutstandingPackets h : bool :=
  HasOutstandingPackets (ps_history (sp_appDataPackets h)) || hasOutstandingCryptoPackets h.

(** [PTO << ptoCount]. *)
Definition backoff h (includeMaxAckDelay : bool) : Z := i64 (Z.shiftl (PTO (sp_rttStats h) includeMaxAckDelay) (sp_ptoCount h)).

(** [None] for the level: its zero value, which is not a level. *)
Definition getPTOTimeAndSpace h (now : Z) : option (Z * option EncryptionLevel) :=
  if negb (sp_handshakeConfirmed h) && negb (hasOutstandingCryptoPackets h) then
    if sp_peerCompletedAddressValidation h then None else
    let t := now + backoff h false in
    match sp_initialPackets h with Some _ => Some (t, Some EncryptionInitial) | None => Some (t, Some EncryptionHandshake) end
  else
    let best := match sp_initialPackets h with
                | Some s => (if ps_lastAckElicitingPacketTime s =? 0 then 0 else ps_lastAckElicitingPacketTime s + backoff h false, Some EncryptionInitial)
                | None => (0, None)
                end in
    let best := match sp_handshakePackets h with
                | Some s =>
                    if ps_lastAckElicitingPacketTime s =? 0 then best else
                    let t := ps_lastAckElicitingPacketTime s + backoff h false in
                    if before_or_zero t best.1 then (t, Some EncryptionHandshake) else best
                | None => best
                end in
    let last := ps_lastAckElicitingPacketTime (sp_appDataPackets h) in
    Some (if sp_handshakeConfirmed h && negb (last =? 0) then
            let t := last + backoff h true in
            if before_or_zero t best.1 then (t, Some Encryption1RTT) else best
          else best).

Definition setLossDetectionTimer h (now : Z) : sentPacketHandler :=
  let '(lossTime, _) := getLossTimeAndSpace h in
  if negb (lossTime =? 0) then h <| sp_alarm := lossTime |> else
  if isAmplificationLimited h then h <| sp_alarm := 0 |> else
  if negb (hasOutstandingPackets h) && sp_peerCompletedAddressValidation h then h <| sp_alarm := 0 |> else
  match getPTOTimeAndSpace h now with
  | None => h <| sp_alarm := 0 |>
  | Some (ptoTime, _) => h <| sp_alarm := ptoTime |>
  end.

(** *** Packets that are sent *)

Definition drop_packet h p : outcome (sentPacketHandler * option Packet * bool * option go_error) :=
  '(h, p) ← removeFromBytesInFlight h p; Ret (h, Some p, true, None).

(** The callback for 0-RTT packets that were rejected; the map loses their numbers. *)
Definition drop_0rtt (st : sentPacketHandler * gset Z) p : outcome (sentPacketHandler * gset Z * option Packet * bool * option go_error) :=
  let '(h, m) := st in
  if decide (p_EncryptionLevel p = Encryption0RTT) then
    '(h, p) ← removeFromBytesInFlight h p; Ret (h, m ∖ {[p_PacketNumber p]}, None, true, None)
  else Ret (h, m, Some p, false, None).

(** The packets of a space that is dropped are not looked at again. *)
Definition dropPackets h (encLevel : EncryptionLevel) (now : Z) : outcome sentPacketHandler :=
  let h := if bool_decide (sp_perspective h = PerspectiveClient ∧ encLevel = EncryptionHandshake)
           then h <| sp_peerCompletedAddressValidation := true |> else h in
  h ← match encLevel with
      | EncryptionInitial | EncryptionHandshake =>
          s ← space h encLevel;
          '(h, _, _) ← Iterate drop_packet h (sh_packetList (ps_history s));
          Ret (match encLevel with EncryptionInitial => h <| sp_initialPackets := None |> | _ => h <| sp_handshakePackets := None |> end)
      | Encryption0RTT =>
          let s := sp_appDataPackets h in
          '(h, m, l, _) ← Iterate drop_0rtt (h, sh_packetMap (ps_history s)) (sh_packetList (ps_history s));
          Ret (h <| sp_appDataPackets := s <| ps_history ::= λ x, x <| sh_packetList := l |> <| sh_packetMap := m |> |> |>)
      | Encryption1RTT => Panic "Cannot drop keys for encryption level"
      end;
  Ret (setLossDetectionTimer (h <| sp_ptoCount := 0 |> <| sp_numProbesToSend := 0 |> <| sp_ptoMode := SendNone |>) now).

Definition DropPackets h (encLevel : EncryptionLevel) (now : Z) : outcome sentPacketHandler :=
  if decide (sp_perspective h = PerspectiveClient ∧ encLevel = EncryptionInitial) then Ret h else dropPackets h encLevel now.

Definition sent_ReceivedBytes h (n now : Z) : sentPacketHandler :=
  let wasAmplificationLimit := isAmplificationLimited h in
  let h := h <| sp_bytesReceived ::= λ b, b + n |> in
  if wasAmplificationLimit && negb (isAmplificationLimited h) then setLossDetectionTimer h now else h.

Definition sent_ReceivedPacket h (l : EncryptionLevel) (now : Z) : sentPacketHandler :=
  if bool_decide (sp_perspective h = PerspectiveServer ∧ l = EncryptionHandshake) && negb (sp_peerAddressValidated h)
  then setLossDetectionTimer (h <| sp_peerAddressValidated := true |>) now else h.

(** The result is whether the packet asks for an acknowledgment. *)
Definition sentPacketImpl h p : outcome (sentPacketHandler * Packet * bool) :=
  s ← space h (p_EncryptionLevel p);
  let s := s <| ps_largestSent := p_PacketNumber p |> in
  let isAckEliciting := 0 <? zlen (p_Frames p) in
  let '(h, s, p) :=
    if isAckEliciting then
      (h <| sp_bytesInFlight ::= λ b, b + p_Length p |>
         <| sp_numProbesToSend ::= λ n, if 0 <? n then n - 1 else n |>,
       s <| ps_lastAckElicitingPacketTime := p_SendTime p |>, p <| p_includedInBytesInFlight := true |>)
    else (h, s, p) in
  let h := set_space h (p_EncryptionLevel p) s in
  Ret (h <| sp_congestion ::= λ c, OnPacketSent c (sp_rttStats h) (p_SendTime p) (sp_bytesInFlight h) (p_PacketNumber p) (p_Length p) isAckEliciting |>,
       p, isAckEliciting).

Definition SentPacket h p (now : Z) : outcome sentPacketHandler :=
  let h := h <| sp_bytesSent ::= λ b, b + p_Length p |> in
  h ← (if bool_decide (sp_perspective h = PerspectiveClient ∧ p_EncryptionLevel p = EncryptionHandshake ∧ is_Some (sp_initialPackets h))
       then dropPackets h EncryptionInitial now else Ret h);
  '(h, p, isAckEliciting) ← sentPacketImpl h p;
  s ← space h (p_EncryptionLevel p);
  history ← history_SentPacket (ps_history s) p isAckEliciting;
  let h := set_space h (p_EncryptionLevel p) (s <| ps_history := history |>) in
  Ret (if isAckEliciting || negb (sp_peerCompletedAddressValidation h) then setLossDetectionTimer h now else h).

(** *** Acknowledgments *)

Context (probed : Fr → option Z).

(** The callbacks [OnAcked] of the frames of a packet. *)
Fixpoint call_OnAcked (c : C) (fs : list Frame) : outcome (C * list frame_event) :=
  match fs with
  | [] => Ret (c, [])
  | f :: fs =>
      if fr_OnAcked f then
        c ← match probed (fr_Frame f) with Some size => SetMaxDatagramSize c size | None => Ret c end;
        '(c, events) ← call_OnAcked c fs; Ret (c, FrameAcked (fr_Frame f) :: events)
      else call_OnAcked c fs
  end.

(** The loop over the ranges from [ackRangeIndex] on, the lowest first. *)
Fixpoint advance_range (pn : Z) (r : AckRange) (rs : list AckRange) : AckRange * list AckRange :=
  match rs with
  | r' :: rs' => if ar_Largest r <? pn then advance_range pn r' rs' else (r, rs)
  | [] => (r, rs)
  end.

(** The callback that collects the packets a frame acknowledges; its state has the
    present range, the ranges above it, and the packets. *)
Definition ack_callback (ack : AckFrame) (lowestAcked largestAcked : Z) (st : AckRange * list AckRange * list Packet) p :
    outcome (AckRange * list AckRange * list Packet * option Packet * bool * option go_error) :=
  let '(r, rs, acked) := st in
  if p_PacketNumber p <? lowestAcked then Ret (r, rs, acked, Some p, true, None) else
  if largestAcked <? p_PacketNumber p then Ret (r, rs, acked, Some p, false, None) else
  let '(r, rs) := if HasMissingRanges ack then advance_range (p_PacketNumber p) r rs else (r, rs) in
  if HasMissingRanges ack && (p_PacketNumber p <? ar_Smallest r) then Ret (r, rs, acked, Some p, true, None) else
  if HasMissingRanges ack && (ar_Largest r <? p_PacketNumber p) then
    Ret (r, rs, acked, Some p, false, Some (GoError "BUG: ackhandler would have acked wrong packet")) else
  if p_skippedPacket p then
    Ret (r, rs, acked, Some p, false, Some (GoError "received an ACK for skipped packet number")) else
  Ret (r, rs, acked ++ [p], Some p, true, None).

(** The loop over the packets that are acknowledged. *)
Fixpoint remove_acked h (encLevel : EncryptionLevel) (acked : list Packet) : outcome (sentPacketHandler * list frame_event * option go_error) :=
  match acked with
  | [] => Ret (h, [], None)
  | p :: acked =>
      let h := if bool_decide (p_LargestAcked p ≠ InvalidPacketNumber ∧ encLevel = Encryption1RTT)
               then h <| sp_lowestNotConfirmedAcked ::= λ l, MaxPacketNumber l (p_LargestAcked p + 1) |> else h in
      '(c, events) ← call_OnAcked (sp_congestion h) (p_Frames p);
      let h := h <| sp_congestion := c |> in
      s ← space h encLevel;
      let '(history, err) := history_Remove (ps_history s) (p_PacketNumber p) in
      let h := set_space h encLevel (s <| ps_history := history |>) in
      match err with
      | Some e => Ret (h, events, Some e)
      | None => '(h, events', err) ← remove_acked h encLevel acked; Ret (h, events ++ events', err)
      end
  end.

Definition detectAndRemoveAckedPackets h (ack : AckFrame) (encLevel : EncryptionLevel) :
    outcome (sentPacketHandler * list frame_event * list Packet * option go_error) :=
  s ← space h encLevel;
  lowestAcked ← LowestAcked ack;
  largestAcked ← LargestAcked ack;
  match rev (ack_AckRanges ack) with
  | [] => nil_pointer
  | r :: rs =>
      '(_, _, acked, _, err) ← Iterate (ack_callback ack lowestAcked largestAcked) (r, rs, []) (sh_packetList (ps_history s));
      '(h, events, err') ← remove_acked h encLevel acked;
      match err' with
      | Some e => Ret (h, events, [], Some e)
      | None => Ret (h, events, acked, err)
      end
  end.

(** *** Losses *)

(** The callbacks [OnLost] of the frames of a packet. *)
Fixpoint call_OnLost (fs : list Frame) : outcome (list frame_event) :=
  match fs with
  | [] => Ret []
  | f :: fs => if fr_OnLost f then events ← call_OnLost fs; Ret (FrameLost (fr_Frame f) :: events) else nil_pointer
  end.

Definition queueFramesForRetransmission p : outcome (Packet * list frame_event) :=
  if zlen (p_Frames p) =? 0 then Panic "no frames" else
  events ← call_OnLost (p_Frames p);
  Ret (p <| p_Frames := [] |>, events).

Context (FecEnable : bool).

(** The state of the callback of [detectLostPackets]: the handler, the space's loss
    time, the lost packets and the events. *)
Record loss_state := mk_loss { ls_h : sentPacketHandler; ls_lossTime : Z; ls_lost : list Packet; ls_events : list frame_event }.

Definition loss_callback (largestAcked lossDelay lostSendTime priorInFlight : Z) (st : loss_state) p :
    outcome (loss_state * option Packet * bool * option go_error) :=
  let '(mk_loss h lossTime lost events) := st in
  if largestAcked <? p_PacketNumber p then Ret (st, Some p, false, None) else
  if p_declaredLost p || p_skippedPacket p then Ret (st, Some p, true, None) else
  let packetLost := (p_SendTime p <? lostSendTime) || (p_PacketNumber p + packetThreshold <=? largestAcked) in
  if packetLost then
    let p := p <| p_declaredLost := true |> in
    '(h, p) ← removeFromBytesInFlight h p;
    '(p, new) ← queueFramesForRetransmission p;
    let events := events ++ new in
    if FecEnable then Ret (mk_loss h lossTime (lost ++ [p]) events, Some p, true, None)
    else
      let h := if p_IsPathMTUProbePacket p then h
               else h <| sp_congestion ::= λ c, OnPacketLost c (p_PacketNumber p) (p_Length p) priorInFlight |> in
      Ret (mk_loss h lossTime lost events, Some p, true, None)
  else
    let lossTime := if lossTime =? 0 then p_SendTime p + lossDelay else lossTime in
    Ret (mk_loss h lossTime lost events, Some p, true, None).

(** [float64(MaxDuration(LatestRTT, SmoothedRTT))] and the delay after which a packet is lost. *)
Definition loss_delay (rttStats : RTTStats) : spec_float * Z :=
  let maxRTT := f64_of_Z (MaxDuration (rtt_latestRTT rttStats) (rtt_smoothedRTT rttStats)) in
  (maxRTT, MaxDuration (f_to_i64 (f64_mul timeThreshold maxRTT)) TimerGranularity).

Definition detectLostPackets h (now : Z) (encLevel : EncryptionLevel) : outcome (sentPacketHandler * list frame_event * option go_error) :=
  s ← space h encLevel;
  let '(maxRTT, lossDelay) := loss_delay (sp_rttStats h) in
  let lostSendTime := if FecEnable then now + i64 (- lossDelay) else now + i64 (i64 (- lossDelay) - f_to_i64 maxRTT) in
  let priorInFlight := sp_bytesInFlight h in
  '(st, l, err) ← Iterate (loss_callback (ps_largestAcked s) lossDelay lostSendTime priorInFlight) (mk_loss h 0 [] []) (sh_packetList (ps_history s));
  let '(mk_loss h lossTime lost events) := st in
  let h := set_space h encLevel (s <| ps_lossTime := lossTime |> <| ps_history ::= λ x, x <| sh_packetList := l |> |>) in
  let report c p := if p_declaredLost p && negb (p_IsPathMTUProbePacket p) then OnPacketLost c (p_PacketNumber p) (p_Length p) priorInFlight else c in
  let h := if FecEnable && bool_decide (err = None) && (2 <? zlen lost)
           then h <| sp_congestion ::= λ c, fold_left report lost c |> else h in
  Ret (h, events, err).

(** The loop of [ReceivedAck] over the packets that are acknowledged. *)
Fixpoint count_acked h (priorInFlight rcvTime : Z) (acked : list Packet) : outcome (sentPacketHandler * bool) :=
  match acked with
  | [] => Ret (h, false)
  | p :: acked =>
      c ← (if p_includedInBytesInFlight p && negb (p_declaredLost p)
           then OnPacketAcked (sp_congestion h) (sp_rttStats h) (p_PacketNumber p) (p_Length p) priorInFlight rcvTime
           else Ret (sp_congestion h));
      '(h, _) ← removeFromBytesInFlight (h <| sp_congestion := c |>) p;
      '(h, acked1RTT) ← count_acked h priorInFlight rcvTime acked;
      Ret (h, bool_decide (p_EncryptionLevel p = Encryption1RTT) || acked1RTT)
  end.

(** The results: the events, whether a 1-RTT packet was acknowledged, the error. *)
Definition ReceivedAck h (ack : AckFrame) (encLevel : EncryptionLevel) (rcvTime now : Z) :
    outcome (sentPacketHandler * list frame_event * bool * option go_error) :=
  s ← space h encLevel;
  largestAcked ← LargestAcked ack;
  if ps_largestSent s <? largestAcked then Ret (h, [], false, Some (GoError "received ACK for an unsent packet")) else
  let h := set_space h encLevel (s <| ps_largestAcked := MaxPacketNumber (ps_largestAcked s) largestAcked |>) in
  let h := if bool_decide (sp_perspective h = PerspectiveClient ∧ (encLevel = EncryptionHandshake ∨ encLevel = Encryption1RTT))
              && negb (sp_peerCompletedAddressValidation h)
           then setLossDetectionTimer (h <| sp_peerCompletedAddressValidation := true |>) now else h in
  let priorInFlight := sp_bytesInFlight h in
  '(h, events, acked, err) ← detectAndRemoveAckedPackets h ack encLevel;
  match err, last acked with
  | Some e, _ => Ret (h, events, false, Some e)
  | None, None => Ret (h, events, false, None)
  | None, Some p =>
      h ← (if p_PacketNumber p =? largestAcked then
             let ackDelay := if decide (encLevel = Encryption1RTT) then MinDuration (ack_DelayTime ack) (rtt_maxAckDelay (sp_rttStats h)) else 0 in
             let h := h <| sp_rttStats ::= λ r, UpdateRTT r (rcvTime - p_SendTime p) ackDelay |> in
             c ← MaybeExitSlowStart (sp_congestion h) (sp_rttStats h);
             Ret (h <| sp_congestion := c |>)
           else Ret h);
      '(h, lost, err) ← detectLostPackets h rcvTime encLevel;
      match err with
      | Some e => Ret (h, events ++ lost, false, Some e)
      | None =>
          '(h, acked1RTTPacket) ← count_acked h priorInFlight rcvTime acked;
          let h := if sp_peerCompletedAddressValidation h then h <| sp_ptoCount := 0 |> else h in
          let h := h <| sp_numProbesToSend := 0 |> in
          s ← space h encLevel;
          let h := set_space h encLevel (s <| ps_history ::= λ x, DeleteOldPackets x (sp_rttStats h) rcvTime |>) in
          Ret (setLossDetectionTimer h now, events ++ lost, acked1RTTPacket, None)
      end
  end.

(** *** The timer fires, and what to send *)

Definition PopPacketNumber h (encLevel : EncryptionLevel) (r : Z) : outcome (sentPacketHandler * Z) :=
  s ← space h encLevel;
  let '(g, pn) := pns_Pop (ps_pns s) r in
  Ret (set_space h encLevel (s <| ps_pns := g |>), pn).

Definition PeekPacketNumber h (encLevel : EncryptionLevel) : outcome (Z * Z) :=
  s ← space h encLevel;
  let lowestUnacked := match FirstOutstanding (ps_history s) with Some p => p_PacketNumber p | None => ps_largestAcked s + 1 end in
  let pn := pns_Peek (ps_pns s) in
  Ret (pn, GetPacketNumberLengthForHeader pn lowestUnacked).

(** [OnLossDetectionTimeout] without the deferred call. *)
Definition loss_timeout h (now r : Z) : outcome (sentPacketHandler * list frame_event * option go_error) :=
  let '(earliestLossTime, encLevel) := getLossTimeAndSpace h in
  if negb (earliestLossTime =? 0) then detectLostPackets h now encLevel else
  if (sp_bytesInFlight h =? 0) && negb (sp_peerCompletedAddressValidation h) then
    let h := h <| sp_ptoCount ::= λ n, u32 (n + 1) |> <| sp_numProbesToSend ::= λ n, n + 1 |> in
    match sp_initialPackets h, sp_handshakePackets h with
    | Some _, _ => Ret (h <| sp_ptoMode := SendPTOInitial |>, [], None)
    | None, Some _ => Ret (h <| sp_ptoMode := SendPTOHandshake |>, [], None)
    | None, None => Ret (h, [], Some (GoError "PTO fired, but bytes_in_flight is 0 and Initial and Handshake already dropped"))
    end
  else
    match getPTOTimeAndSpace h now with
    | None => Ret (h, [], None)
    | Some (_, None) => Panic "invalid packet number space"
    | Some (_, Some encLevel) =>
        s ← space h encLevel;
        if negb (HasOutstandingPackets (ps_history s)) && negb (sp_peerCompletedAddressValidation h) then Ret (h, [], None) else
        let h := h <| sp_ptoCount ::= λ n, u32 (n + 1) |> <| sp_numProbesToSend ::= λ n, n + 2 |> in
        match encLevel with
        | EncryptionInitial => Ret (h <| sp_ptoMode := SendPTOInitial |>, [], None)
        | EncryptionHandshake => Ret (h <| sp_ptoMode := SendPTOHandshake |>, [], None)
        | Encryption1RTT =>
            '(h, _) ← PopPacketNumber h Encryption1RTT r;
            Ret (h <| sp_ptoMode := SendPTOAppData |>, [], None)
        | Encryption0RTT => Ret (h, [], Some (GoError "PTO timer in unexpected encryption level"))
        end
    end.

Definition OnLossDetectionTimeout h (now r : Z) : outcome (sentPacketHandler * list frame_event * option go_error) :=
  '(h, events, err) ← loss_timeout h now r;
  Ret (setLossDetectionTimer h now, events, err).

Definition tracked h : Z :=
  let len s := match s with Some s => history_Len (ps_history s) | None => 0 end in
  history_Len (ps_history (sp_appDataPackets h)) + len (sp_initialPackets h) + len (sp_handshakePackets h).

Definition sent_SendMode h : SendMode :=
  let numTrackedPackets := tracked h in
  if isAmplificationLimited h then SendNone
  else if MaxTrackedSentPackets <=? numTrackedPackets then SendNone
  else if 0 <? sp_numProbesToSend h then sp_ptoMode h
  else if negb (CanSend (sp_congestion h) (sp_bytesInFlight h)) then SendAck
  else if MaxOutstandingSentPackets <=? numTrackedPackets then SendAck
  else SendAny.

Definition sent_TimeUntilSend h : Z := TimeUntilSend (sp_congestion h) (sp_rttStats h).

Definition sent_HasPacingBudget h (now : Z) : bool := HasPacingBudget (sp_congestion h) (sp_rttStats h) now.

Definition sent_SetMaxDatagramSize h (s : Z) : outcome sentPacketHandler :=
  c ← SetMaxDatagramSize (sp_congestion h) s; Ret (h <| sp_congestion := c |>).

Definition QueueProbePacket h (encLevel : EncryptionLevel) : outcome (sentPacketHandler * list frame_event * bool) :=
  s ← space h encLevel;
  match split_outstanding (sh_packetList (ps_history s)) with
  | None => Ret (h, [], false)
  | Some (a, p, b) =>
      '(p, events) ← queueFramesForRetransmission p;
      '(h, p) ← removeFromBytesInFlight h p;
      let p := p <| p_declaredLost := true |> in
      Ret (set_space h encLevel (s <| ps_history ::= λ x, x <| sh_packetList := a ++ p :: b |> |>), events, true)
  end.

Definition retry_callback (st : Z * list frame_event) p : outcome (Z * list frame_event * option Packet * bool * option go_error) :=
  let '(first, events) := st in
  let first := if first =? 0 then p_SendTime p else first in
  if p_declaredLost p || p_skippedPacket p then Ret (first, events, Some p, true, None) else
  '(p, new) ← queueFramesForRetransmission p;
  Ret (first, events ++ new, Some p, true, None).

Definition ResetForRetry h (now : Z) : outcome (sentPacketHandler * list frame_event) :=
  let h := h <| sp_bytesInFlight := 0 |> in
  initial ← space h EncryptionInitial;
  '(firstPacketSendTime, events, _, _) ← Iterate retry_callback (0, []) (sh_packetList (ps_history initial));
  '(_, events', _, _) ← Iterate retry_callback (0, []) (sh_packetList (ps_history (sp_appDataPackets h)));
  let h := if sp_ptoCount h =? 0
           then h <| sp_rttStats ::= λ r, UpdateRTT r (MaxDuration minRTTAfterRetry (now - firstPacketSendTime)) 0 |> else h in
  let h := h <| sp_initialPackets := Some (newPacketNumberSpace (pns_Pop (ps_pns initial) 0).2 false 0) |>
             <| sp_appDataPackets := newPacketNumberSpace (pns_Pop (ps_pns (sp_appDataPackets h)) 0).2 false 0 |> in
  Ret (h <| sp_alarm := 0 |> <| sp_ptoCount := 0 |>, events ++ events').

Definition SetHandshakeConfirmed h (now : Z) : sentPacketHandler := setLossDetectionTimer (h <| sp_handshakeConfirmed := true |>) now.

(** What the received packets need of the handler. *)
Definition sentPacketHandler_tracker (now : Z) : sentPacketTracker sentPacketHandler := {|
  GetLowestPacketNotConfirmedAcked := sp_lowestNotConfirmedAcked;
  spt_ReceivedPacket h l := sent_ReceivedPacket h l now;
|}.
End Sent.
Arguments Frame : clear implicits.
Arguments Packet : clear implicits.
Arguments frame_event : clear implicits.
Arguments sentPacketHistory : clear implicits.
Arguments packetNumberSpace : clear implicits.
Arguments sentPacketHandler : clear implicits.
Arguments loss_state : clear implicits.
