(* ===== verification/QuicSentHistory.v ===== *)
(** * The history of sent packets

    What the operations of [QuicSent] do to the packets of a packet number space:
    the packets a frame acknowledges are those whose numbers it names, the packets
    declared lost are marked in place, and the bytes in flight are the lengths of the
    packets that count. *)

From stdpp Require Import base list numbers strings gmap sorting.
From Stdlib Require Import ZArith Lia Floats.SpecFloat.
From S2P Require Import Prelude LinkedList QuicProtocol QuicFrames QuicAck QuicRtt QuicCongestion QuicReceived QuicSent.

(** ** Lists *)

Lemma filter_all {A} (P : A → Prop) `{∀ x, Decision (P x)} (l : list A) : Forall P l → filter P l = l.
Proof. induction 1 as [|x l Hx _ IH]; [done|]. by rewrite filter_cons_True, IH. Qed.

Lemma sublist_forall {A} (P : A → Prop) (l k : list A) : l `sublist_of` k → Forall P k → Forall P l.
Proof. induction 1; intros Hk; [done|apply Forall_cons in Hk as [Hx Hk]..]; try constructor; auto. Qed.

Lemma sublist_sorted {A} (R : A → A → Prop) (l k : list A) : l `sublist_of` k → StronglySorted R k → StronglySorted R l.
Proof.
  induction 1 as [|x l k Hs IH|x l k Hs IH]; intros Hk; [done|apply StronglySorted_inv in Hk as [Hk Hx]..]; [|auto].
  constructor; [auto|]. by eapply sublist_forall.
Qed.

Lemma sublist_filter_both {A} (P : A → Prop) `{∀ x, Decision (P x)} (l k : list A) : l `sublist_of` k → filter P l `sublist_of` filter P k.
Proof.
  induction 1 as [|x l k Hs IH|x l k Hs IH]; [done|..]; (destruct (decide (P x)); [rewrite !filter_cons_True by done|rewrite !filter_cons_False by done]);
    first [done|by constructor].
Qed.

Section History.
Context {Fr C : Type} `{Alg : SendAlgorithm C} `{Laws : !SendAlgorithmLaws C}.
Implicit Types (p : Packet Fr) (l : list (Packet Fr)) (h : sentPacketHandler Fr C).

Definition numbers l : list Z := p_PacketNumber <$> l.

(** The frames the packets hold. *)
Definition held l : list (Frame Fr) := l ≫= p_Frames.

(** The bytes of the packets that count as in flight. *)
Definition flight p : Z := if p_includedInBytesInFlight p then p_Length p else 0.
Fixpoint in_flight l : Z := match l with [] => 0 | p :: l => flight p + in_flight l end.

(** A packet in the list: it waits, with its frames, or it was lost or skipped. *)
Definition waits p : bool := negb (p_declaredLost p) && negb (p_skippedPacket p).

Record packet_ok p : Prop := {
  po_length : 0 ≤ p_Length p;
  po_waits : waits p = true → p_Frames p ≠ [] ∧ Forall (λ f, fr_OnLost f = true) (p_Frames p);
  po_done : waits p = false → p_Frames p = [];
  po_flight : p_includedInBytesInFlight p = waits p;
}.

Lemma held_app l1 l2 : held (l1 ++ l2) = held l1 ++ held l2.
Proof. unfold held. by rewrite bind_app. Qed.

Lemma in_flight_app l1 l2 : in_flight (l1 ++ l2) = in_flight l1 + in_flight l2.
Proof. induction l1 as [|p l1 IH]; cbn; [done|]. rewrite IH. lia. Qed.

Lemma flight_nonneg p : packet_ok p → 0 ≤ flight p.
Proof. intros []. unfold flight. destruct (p_includedInBytesInFlight p); lia. Qed.

Lemma in_flight_nonneg l : Forall packet_ok l → 0 ≤ in_flight l.
Proof. induction 1 as [|p l Hp _ IH]; cbn; [done|]. pose proof (flight_nonneg p Hp). lia. Qed.

(** ** Bytes in flight *)

Lemma remove_flight h p : 0 ≤ p_Length p → flight p ≤ sp_bytesInFlight h →
  removeFromBytesInFlight h p = Ret (h <| sp_bytesInFlight := sp_bytesInFlight h - flight p |>, p <| p_includedInBytesInFlight := false |>).
Proof.
  unfold removeFromBytesInFlight, flight. intros Hl Hf. destruct (p_includedInBytesInFlight p) eqn:E.
  - by rewrite (proj2 (Z.ltb_ge _ _)) by lia.
  - rewrite Z.sub_0_r. do 2 f_equal; [by destruct h|by destruct p; cbn in *; subst].
Qed.

Lemma iterate_drop h l : Forall packet_ok l → in_flight l ≤ sp_bytesInFlight h →
  ∃ l', Iterate drop_packet h l = Ret (h <| sp_bytesInFlight := sp_bytesInFlight h - in_flight l |>, l', None).
Proof.
  intros Hl. revert h. induction Hl as [|p l Hp Hl IH]; intros h Hb; cbn [Iterate in_flight] in *.
  - exists []. do 3 f_equal. rewrite Z.sub_0_r. by destruct h.
  - pose proof (in_flight_nonneg l Hl). assert (drop_packet h p = Ret (h <| sp_bytesInFlight := sp_bytesInFlight h - flight p |>, Some (p <| p_includedInBytesInFlight := false |>), true, None)) as ->.
    { unfold drop_packet. by rewrite remove_flight by (destruct Hp; lia). }
    cbn [mbind outcome_bind]. destruct (IH (h <| sp_bytesInFlight := sp_bytesInFlight h - flight p |>)) as (l' & ->); [cbn; lia|].
    cbn [mbind outcome_bind]. eexists. do 3 f_equal. cbn. f_equal. lia.
Qed.

(** The 0-RTT packets at the start. *)
Fixpoint zero_rtt l : list (Packet Fr) :=
  match l with
  | p :: l => if decide (p_EncryptionLevel p = Encryption0RTT) then p :: zero_rtt l else []
  | [] => []
  end.

Lemma iterate_0rtt l : ∀ h m, Forall packet_ok l → in_flight l ≤ sp_bytesInFlight h →
  ∃ b, l = zero_rtt l ++ b ∧ Iterate drop_0rtt (h, m) l =
    Ret (h <| sp_bytesInFlight := sp_bytesInFlight h - in_flight (zero_rtt l) |>, m ∖ list_to_set (numbers (zero_rtt l)), b, None).
Proof.
  induction l as [|p l IH]; intros h m Hl Hb; cbn [Iterate in_flight zero_rtt] in *.
  - exists []. split; [done|]. cbn. rewrite Z.sub_0_r, difference_empty_L. by destruct h.
  - apply Forall_cons in Hl as [Hp Hl]. pose proof (in_flight_nonneg l Hl). 
    assert (drop_0rtt (h, m) p = if decide (p_EncryptionLevel p = Encryption0RTT)
      then Ret (h <| sp_bytesInFlight := sp_bytesInFlight h - flight p |>, m ∖ {[p_PacketNumber p]}, None, true, None)
      else Ret (h, m, Some p, false, None)) as ->.
    { unfold drop_0rtt. by rewrite remove_flight by (destruct Hp; lia). }
    destruct (decide (p_EncryptionLevel p = Encryption0RTT)); cbn [mbind outcome_bind].
    + destruct (IH (h <| sp_bytesInFlight := sp_bytesInFlight h - flight p |>) (m ∖ {[p_PacketNumber p]}) Hl) as (b & E & ->); [cbn; lia|].
      cbn [mbind outcome_bind]. exists b. split; [cbn; by rewrite <- E|]. cbn. do 4 f_equal; [f_equal; lia|apply difference_difference_l_L].
    + exists (p :: l). split; [done|]. cbn. rewrite Z.sub_0_r, difference_empty_L. by destruct h.
Qed.

(** ** Acknowledged packets *)

Definition ascends (a b : AckRange) : Prop := before b a.

Lemma advance_range_spec pn r rs : ∃ dropped r' rs',
  advance_range pn r rs = (r', rs') ∧ r :: rs = dropped ++ r' :: rs' ∧ Forall (λ d, ar_Largest d < pn) dropped ∧ (pn ≤ ar_Largest r' ∨ rs' = []).
Proof.
  revert r. induction rs as [|r2 rs IH]; intros r; cbn [advance_range]; [exists [], r, []; by auto|]. destruct (_ <? _) eqn:E.
  - destruct (IH r2) as (d & r' & rs' & -> & -> & Hd & Hr'). exists (r :: d), r', rs'. split_and!; [done|done| |done]. constructor; [lia|done].
  - exists [], r, (r2 :: rs). split_and!; [done|done|done|left; lia].
Qed.

(** The packets of [l] that the ranges name. *)
Definition named (ranges : list AckRange) l : list (Packet Fr) := filter (λ p, acked ranges (p_PacketNumber p)) l.

Definition increasing l : Prop := StronglySorted (λ p q, p_PacketNumber p < p_PacketNumber q) l.

Lemma acked_app rs1 rs2 pn : acked (rs1 ++ rs2) pn ↔ acked rs1 pn ∨ acked rs2 pn.
Proof. apply Exists_app. Qed.

Lemma not_acked_below rs pn : Forall (λ d, ar_Largest d < pn) rs → ¬ acked rs pn.
Proof. intros Hf He. unfold acked in He. rewrite Exists_exists in He. destruct He as (r & Hr & Hp). rewrite Forall_forall in Hf. specialize (Hf r Hr). lia. Qed.

(** The ranges from the present one on, in the state of the callback, while the packets [l] are to come. *)
Record ranges_left (full : list AckRange) (largest : Z) (r : AckRange) (rs : list AckRange) l : Prop := {
  rl_named p : p ∈ l → acked full (p_PacketNumber p) ↔ acked (r :: rs) (p_PacketNumber p);
  rl_sorted : StronglySorted ascends (r :: rs);
  rl_valid : Forall (λ r, ar_Smallest r ≤ ar_Largest r) (r :: rs);
  rl_last : ar_Largest <$> last (r :: rs) = Some largest;
}.

Lemma ranges_left_tail full largest r rs p l : ranges_left full largest r rs (p :: l) → ranges_left full largest r rs l.
Proof. intros [H1 H2 H3 H4]. split; [|done..]. intros q Hq. apply H1. by right. Qed.

(** Advancing to the range of a packet leaves out only ranges below it. *)
Lemma ranges_left_advance full largest r rs p l d r' rs' :
  increasing (p :: l) → ranges_left full largest r rs (p :: l) → r :: rs = d ++ r' :: rs' → Forall (λ d, ar_Largest d < p_PacketNumber p) d →
  ranges_left full largest r' rs' (p :: l).
Proof.
  intros Hi [H1 H2 H3 H4] E Hd. rewrite E in *. split.
  - intros q Hq. rewrite (H1 q Hq), acked_app. split; [|by right]. intros [Ha|]; [|done]. exfalso. revert Ha. apply not_acked_below.
    eapply Forall_impl; [exact Hd|]. cbn. intros x Hx. apply elem_of_cons in Hq as [->|Hq]; [lia|].
    apply StronglySorted_inv in Hi as [_ Hi]. rewrite Forall_forall in Hi. specialize (Hi q Hq). lia.
  - clear -H2. induction d; [done|]. apply IHd. by inversion H2.
  - by apply Forall_app in H3 as [_ ?].
  - by rewrite last_app_cons in H4.
Qed.

Definition none_skipped l : Prop := Forall (λ p, p_skippedPacket p = false) l.

(** What the loop over the packets collects: all packets the frame names, or those before one whose number was skipped. *)
Definition collects (full : list AckRange) (acc : list (Packet Fr)) l (acked' : list (Packet Fr)) (err : option go_error) : Prop :=
  ∃ new, acked' = acc ++ new ∧ none_skipped new ∧ new `prefix_of` named full l ∧
    (none_skipped (named full l) → err = None ∧ new = named full l) ∧ (err = None → none_skipped (named full l)).

Lemma collects_cons full acc p l acked' err : acked full (p_PacketNumber p) → p_skippedPacket p = false →
  collects full (acc ++ [p]) l acked' err → collects full acc (p :: l) acked' err.
Proof.
  intros Ha Hs (new & -> & H1 & H2 & H3 & H4). exists (p :: new). unfold named in *. rewrite filter_cons_True by done.
  split_and!; [by rewrite <- app_assoc|by constructor|by apply prefix_cons| |intros He; constructor; [done|by apply H4]].
  intros [_ Hn]%Forall_cons. by destruct (H3 Hn) as [-> ->].
Qed.

Lemma collects_skip full acc p l acked' err : ¬ acked full (p_PacketNumber p) →
  collects full acc l acked' err → collects full acc (p :: l) acked' err.
Proof. intros Ha. unfold collects, named. by rewrite filter_cons_False. Qed.

Lemma collects_none full acc l : Forall (λ p, ¬ acked full (p_PacketNumber p)) l → collects full acc l acc None.
Proof.
  intros Hf. assert (named full l = []) as E.
  { induction Hf; [done|]. unfold named in *. by rewrite filter_cons_False. }
  exists []. rewrite E, app_nil_r. split_and!; try done; by constructor.
Qed.

(** One call of the callback. *)
Inductive ack_round (full : list AckRange) (largest : Z) (r : AckRange) (rs : list AckRange) (acc : list (Packet Fr)) p l :
    outcome (AckRange * list AckRange * list (Packet Fr) * option (Packet Fr) * bool * option go_error) → Prop :=
| round_pass r' rs' : ranges_left full largest r' rs' (p :: l) → ¬ acked full (p_PacketNumber p) →
    ack_round full largest r rs acc p l (Ret (r', rs', acc, Some p, true, None))
| round_end : largest < p_PacketNumber p → ack_round full largest r rs acc p l (Ret (r, rs, acc, Some p, false, None))
| round_skipped r' rs' e : acked full (p_PacketNumber p) → p_skippedPacket p = true →
    ack_round full largest r rs acc p l (Ret (r', rs', acc, Some p, false, Some e))
| round_acked r' rs' : ranges_left full largest r' rs' (p :: l) → acked full (p_PacketNumber p) → p_skippedPacket p = false →
    ack_round full largest r rs acc p l (Ret (r', rs', acc ++ [p], Some p, true, None)).

Lemma ack_callback_round ack lowest largest r rs acc p l :
  let full := ack_AckRanges ack in
  (∀ pn, acked full pn → lowest ≤ pn ≤ largest) →
  (HasMissingRanges ack = false → ∀ pn, lowest ≤ pn ≤ largest → acked full pn) →
  increasing (p :: l) → ranges_left full largest r rs (p :: l) →
  ack_round full largest r rs acc p l (ack_callback ack lowest largest (r, rs, acc) p).
Proof.
  intros full Hext Hone Hi Hl. unfold ack_callback.
  destruct (p_PacketNumber p <? lowest) eqn:E1; [constructor; [done|]; intros Ha%Hext; lia|].
  destruct (largest <? p_PacketNumber p) eqn:E2; [constructor; lia|].
  destruct (HasMissingRanges ack) eqn:Em; cbn [andb].
  2: { assert (acked full (p_PacketNumber p)) by (apply Hone; [done|lia]). by destruct (p_skippedPacket p) eqn:Es; constructor. }
  destruct (advance_range_spec (p_PacketNumber p) r rs) as (d & r' & rs' & -> & E & Hd & Hr').
  pose proof (ranges_left_advance _ _ _ _ _ _ _ _ _ Hi Hl E Hd) as Hl'. pose proof Hl' as [H1 H2 H3 H4].
  specialize (H1 p (list_elem_of_here _ _)). apply StronglySorted_inv in H2 as [_ H2].
  destruct (p_PacketNumber p <? ar_Smallest r') eqn:E3.
  { constructor; [done|]. rewrite H1. intros Ha. unfold acked in Ha. apply Exists_cons in Ha as [|Ha]; [lia|].
    rewrite Exists_exists in Ha. destruct Ha as (x & Hx & Hpx). rewrite Forall_forall in H2. specialize (H2 x Hx).
    apply Forall_cons in H3 as [H3 _]. unfold ascends, before in H2. lia. }
  destruct (ar_Largest r' <? p_PacketNumber p) eqn:E4.
  { exfalso. destruct Hr' as [?| ->]; [lia|]. cbn in H4. injection H4 as H4. lia. }
  assert (acked full (p_PacketNumber p)) by (rewrite H1; left; lia). by destruct (p_skippedPacket p) eqn:Es; constructor.
Qed.

Lemma iterate_ack ack lowest largest l : ∀ r rs acc,
  let full := ack_AckRanges ack in
  (∀ pn, acked full pn → lowest ≤ pn ≤ largest) →
  (HasMissingRanges ack = false → ∀ pn, lowest ≤ pn ≤ largest → acked full pn) →
  increasing l → ranges_left full largest r rs l →
  ∃ r' rs' acked' err, Iterate (ack_callback ack lowest largest) (r, rs, acc) l = Ret (r', rs', acked', l, err) ∧ collects full acc l acked' err.
Proof.
  induction l as [|p l IH]; intros r rs acc full Hext Hone Hi Hl; cbn [Iterate].
  { do 4 eexists. split; [reflexivity|by apply collects_none]. }
  pose proof (ack_callback_round ack lowest largest r rs acc p l Hext Hone Hi Hl) as HR. apply StronglySorted_inv in Hi as [Hi Hlt].
  destruct HR as [r' rs' Hl' Hna|Hgt|r' rs' e Ha Hs|r' rs' Hl' Ha Hs]; cbn [mbind outcome_bind].
  - destruct (IH r' rs' acc Hext Hone Hi (ranges_left_tail _ _ _ _ _ _ Hl')) as (r2 & rs2 & a2 & err & -> & HC). do 4 eexists.
    split; [reflexivity|by apply collects_skip].
  - do 4 eexists. split; [reflexivity|]. apply collects_none. constructor; [intros Ha%Hext; lia|].
    eapply Forall_impl; [exact Hlt|]. cbn. intros q Hq Ha%Hext. lia.
  - do 4 eexists. split; [reflexivity|]. exists []. unfold named. rewrite filter_cons_True, app_nil_r by done.
    split_and!; [done|by constructor|apply prefix_nil|intros [Hf _]%Forall_cons; congruence|done].
  - destruct (IH r' rs' (acc ++ [p]) Hext Hone Hi (ranges_left_tail _ _ _ _ _ _ Hl')) as (r2 & rs2 & a2 & err & -> & HC). do 4 eexists.
    split; [reflexivity|by apply collects_cons].
Qed.

(** ** Lost packets *)

Definition FrameLost_of (fs : list (Frame Fr)) : list (frame_event Fr) := (λ f, FrameLost (fr_Frame f)) <$> fs.

Lemma call_OnLost_run fs : Forall (λ f, fr_OnLost f = true) fs → call_OnLost fs = Ret (FrameLost_of fs).
Proof. induction 1 as [|f fs Hf _ IH]; cbn [call_OnLost]; [done|]. rewrite Hf, IH. done. Qed.

Lemma queue_frames_run p : p_Frames p ≠ [] → Forall (λ f, fr_OnLost f = true) (p_Frames p) →
  queueFramesForRetransmission p = Ret (p <| p_Frames := [] |>, FrameLost_of (p_Frames p)).
Proof.
  intros Hne Hf. unfold queueFramesForRetransmission. rewrite (proj2 (Z.eqb_neq (zlen (p_Frames p)) 0)).
  - by rewrite call_OnLost_run.
  - intros E. by apply zlen_0_inv in E.
Qed.

(** A packet that was declared lost. *)
Definition mark p : Packet Fr := p <| p_declaredLost := true |> <| p_includedInBytesInFlight := false |> <| p_Frames := [] |>.

Lemma mark_ok p : packet_ok p → packet_ok (mark p).
Proof. intros []. split; cbn; try done. Qed.

Definition is_lost (largestAcked lostSendTime : Z) p : bool :=
  waits p && (p_PacketNumber p <=? largestAcked) && ((p_SendTime p <? lostSendTime) || (p_PacketNumber p + packetThreshold <=? largestAcked)).

Definition mark_lost (largestAcked lostSendTime : Z) p : Packet Fr := if is_lost largestAcked lostSendTime p then mark p else p.

Definition lost_packets (largestAcked lostSendTime : Z) l : list (Packet Fr) := filter (λ p, is_lost largestAcked lostSendTime p = true) l.

(** The loss time that the loop leaves. *)
Fixpoint first_loss (largestAcked lostSendTime lossDelay lossTime : Z) l : Z :=
  match l with
  | [] => lossTime
  | p :: l =>
      let lossTime := if waits p && (p_PacketNumber p <=? largestAcked) && negb (is_lost largestAcked lostSendTime p) && (lossTime =? 0)
                      then p_SendTime p + lossDelay else lossTime in
      first_loss largestAcked lostSendTime lossDelay lossTime l
  end.

Lemma not_waits_lost la t p : waits p = false → is_lost la t p = false.
Proof. intros E. unfold is_lost. by rewrite E. Qed.

Lemma above_not_lost la t l : Forall (λ p, la < p_PacketNumber p) l →
  (mark_lost la t <$> l) = l ∧ lost_packets la t l = [] ∧ ∀ d lt, first_loss la t d lt l = lt.
Proof.
  induction 1 as [|p l Hp _ (IH1 & IH2 & IH3)]; [done|]. assert ((p_PacketNumber p <=? la) = false) as E by lia.
  assert (is_lost la t p = false) as El by (unfold is_lost; rewrite E, andb_false_r; done).
  split_and!; [rewrite fmap_cons, IH1; unfold mark_lost; by rewrite El|unfold lost_packets in *; rewrite filter_cons_False; [done|congruence]|].
  intros d lt. cbn [first_loss]. rewrite E, andb_false_r. apply IH3.
Qed.

Lemma loss_callback_above fe la d t prior st p : la < p_PacketNumber p → loss_callback fe la d t prior st p = Ret (st, Some p, false, None).
Proof. intros Hp. destruct st as [h lt lost ev]. unfold loss_callback. by rewrite (proj2 (Z.ltb_lt _ _)). Qed.

Definition next_loss (la t d lt : Z) p : Z :=
  if waits p && (p_PacketNumber p <=? la) && negb (is_lost la t p) && (lt =? 0) then p_SendTime p + d else lt.

Lemma loss_callback_stays fe la d t prior h lt lost ev p : p_PacketNumber p ≤ la → is_lost la t p = false →
  loss_callback fe la d t prior (mk_loss h lt lost ev) p = Ret (mk_loss h (next_loss la t d lt p) lost ev, Some p, true, None).
Proof.
  intros Hp Hl. unfold loss_callback, next_loss. rewrite (proj2 (Z.ltb_ge _ _)) by lia. rewrite Hl. unfold is_lost in Hl.
  rewrite (proj2 (Z.leb_le _ _) Hp) in Hl |- *. unfold waits in *. destruct (p_declaredLost p), (p_skippedPacket p); try done. cbn in *. by rewrite Hl.
Qed.

Lemma loss_callback_lost fe size la d t prior h lt lost ev p : packet_ok p → is_lost la t p = true → flight p ≤ sp_bytesInFlight h → alg_ok size (sp_congestion h) →
  ∃ c lost', loss_callback fe la d t prior (mk_loss h lt lost ev) p =
    Ret (mk_loss (h <| sp_bytesInFlight := sp_bytesInFlight h - flight p |> <| sp_congestion := c |>) lt lost' (ev ++ FrameLost_of (p_Frames p)),
         Some (mark p), true, None) ∧ alg_ok size c.
Proof.
  intros Hp Hl Hf Hc. unfold is_lost in Hl. apply andb_true_iff in Hl as [[Hw Hla%Z.leb_le]%andb_true_iff Hl].
  unfold loss_callback. rewrite (proj2 (Z.ltb_ge _ _)) by lia. rewrite Hl. destruct (po_waits p Hp Hw) as [Hne Hfs]. pose proof (po_length p Hp) as Hlen.
  unfold waits in Hw. destruct (p_declaredLost p) eqn:Ed, (p_skippedPacket p) eqn:Es; try done. cbn [orb].
  rewrite remove_flight by (exact Hlen || exact Hf). cbn [mbind outcome_bind]. rewrite queue_frames_run by (exact Hne || exact Hfs). cbn [mbind outcome_bind].
  destruct fe; [|destruct (p_IsPathMTUProbePacket _)].
  1,2: do 2 eexists; split; [reflexivity|done].
  do 2 eexists; split; [reflexivity|by apply alg_lost].
Qed.

Lemma iterate_loss fe size la d t prior l : ∀ h lt lost ev, Forall packet_ok l → increasing l → alg_ok size (sp_congestion h) → in_flight l ≤ sp_bytesInFlight h →
  ∃ c lost', Iterate (loss_callback fe la d t prior) (mk_loss h lt lost ev) l =
    Ret (mk_loss (h <| sp_bytesInFlight := sp_bytesInFlight h - in_flight (lost_packets la t l) |> <| sp_congestion := c |>)
           (first_loss la t d lt l) lost' (ev ++ FrameLost_of (held (lost_packets la t l))), mark_lost la t <$> l, None) ∧ alg_ok size c.
Proof.
  induction l as [|p l IH]; intros h lt lost ev Hl Hi Hc Hb; cbn [Iterate].
  { exists (sp_congestion h), lost. split; [|done]. cbn. rewrite app_nil_r, Z.sub_0_r. by destruct h. }
  apply Forall_cons in Hl as [Hp Hl]. apply StronglySorted_inv in Hi as [Hi Hlt]. cbn [in_flight] in Hb. pose proof (in_flight_nonneg l Hl).
  pose proof (flight_nonneg p Hp) as Hfp. destruct (decide (la < p_PacketNumber p)) as [Hgt|Hle].
  { rewrite loss_callback_above by done. cbn [mbind outcome_bind]. destruct (above_not_lost la t (p :: l)) as (-> & -> & ->).
    { constructor; [lia|]. eapply Forall_impl; [exact Hlt|]. cbn. lia. }
    exists (sp_congestion h), lost. split; [|done]. cbn. rewrite app_nil_r, Z.sub_0_r. by destruct h. }
  rewrite fmap_cons. unfold lost_packets, mark_lost at 1. cbn [first_loss]. destruct (is_lost la t p) eqn:El.
  - destruct (loss_callback_lost fe size la d t prior h lt lost ev p Hp El ltac:(lia) Hc) as (c & lost' & -> & Hc'). cbn [mbind outcome_bind].
    destruct (IH (h <| sp_bytesInFlight := sp_bytesInFlight h - flight p |> <| sp_congestion := c |>) lt lost' (ev ++ FrameLost_of (p_Frames p)) Hl Hi)
      as (c2 & lost2 & -> & Hc2); [done|cbn; lia|]. cbn [mbind outcome_bind]. exists c2, lost2. split; [|done].
    rewrite filter_cons_True by done. cbn [in_flight]. unfold held at 2. cbn [mbind list_bind]. unfold FrameLost_of. rewrite fmap_app, app_assoc.
    rewrite andb_false_r. cbn [andb]. do 4 f_equal. unfold lost_packets. cbn. f_equal. lia.
  - rewrite (loss_callback_stays fe la d t prior h lt lost ev p) by (done || lia). cbn [mbind outcome_bind].
    destruct (IH h (next_loss la t d lt p) lost ev Hl Hi Hc ltac:(lia)) as (c2 & lost2 & -> & Hc2). cbn [mbind outcome_bind]. exists c2, lost2.
    split; [|done]. rewrite filter_cons_False by congruence. unfold next_loss. rewrite El. done.
Qed.
End History.
