(* ===== verification/QuicSentTheorems.v ===== *)
(** * Sent packets: every frame is accounted for

    The invariant of the handler of sent packets, and what each operation does with
    the frames of the packets: a frame that was sent is held in one packet until it is
    reported, once, as acknowledged or as lost, or its keys are dropped. *)

From stdpp Require Import base list numbers strings gmap sorting.
From Stdlib Require Import ZArith Lia Floats.SpecFloat.
From S2P Require Import Prelude LinkedList QuicProtocol QuicFrames QuicAck QuicRtt QuicCongestion QuicReceived QuicSent QuicSentHistory.

Section Handler.
Context {Fr C : Type} `{Alg : SendAlgorithm C} `{Laws : !SendAlgorithmLaws C} (probed : Fr → option Z) (cb : Fr → bool).
Implicit Types (p : Packet Fr) (l : list (Packet Fr)) (h : sentPacketHandler Fr C) (s : packetNumberSpace Fr).

Definition packets s : list (Packet Fr) := sh_packetList (ps_history s).
Definition packets_of (o : option (packetNumberSpace Fr)) : list (Packet Fr) := match o with Some s => packets s | None => [] end.

Definition all_packets h : list (Packet Fr) :=
  packets_of (sp_initialPackets h) ++ packets_of (sp_handshakePackets h) ++ packets (sp_appDataPackets h).

(** A frame knows whether it has a callback for its acknowledgment. *)
Definition frame_ok (f : Frame Fr) : Prop := fr_OnAcked f = cb (fr_Frame f).

Record space_inv s : Prop := {
  sp_ok : Forall packet_ok (packets s);
  sp_frames : Forall frame_ok (held (packets s));
  sp_increasing : increasing (packets s);
  sp_highest : Forall (λ p, p_PacketNumber p ≤ sh_highestSent (ps_history s)) (packets s);
  sp_largest : ps_largestSent s = sh_highestSent (ps_history s);
  sp_map : sh_packetMap (ps_history s) = list_to_set (numbers (packets s));
  sp_acked : ps_largestAcked s ≤ ps_largestSent s;
  sp_times : Forall (λ p, 0 < p_SendTime p) (packets s);
  sp_last0 : 0 ≤ ps_lastAckElicitingPacketTime s;
  sp_last : Exists (λ p, waits p = true) (packets s) → 0 < ps_lastAckElicitingPacketTime s;
  sp_loss : ps_lossTime s ≠ 0 → 0 < ps_lastAckElicitingPacketTime s;
  sp_next : -1 ≤ sh_highestSent (ps_history s) < pns_Peek (ps_pns s);
}.

Definition space_inv_of (o : option (packetNumberSpace Fr)) : Prop := match o with Some s => space_inv s | None => True end.

(** The sizes of the path MTU probes among the frames. *)
Definition probes (fs : list (Frame Fr)) : list Z := omap (λ f, if fr_OnAcked f then probed (fr_Frame f) else None) fs.

Record sent_inv h : Prop := {
  se_initial : space_inv_of (sp_initialPackets h);
  se_handshake : space_inv_of (sp_handshakePackets h);
  se_app : space_inv (sp_appDataPackets h);
  se_flight : sp_bytesInFlight h = in_flight (all_packets h);
  se_alg : ∃ size, alg_ok size (sp_congestion h) ∧ Forall (λ x, size ≤ x ≤ 2 ^ 16) (probes (held (all_packets h)));
  se_probe : (length (probes (held (all_packets h))) ≤ 1)%nat;
}.

(** ** Spaces *)

Lemma space_get h enc s : space h enc = Ret s ↔ getPacketNumberSpace h enc = Some s.
Proof. unfold space. destruct (getPacketNumberSpace h enc); [|done]. split; congruence. Qed.

Lemma get_set_space h enc s s' : getPacketNumberSpace h enc = Some s → getPacketNumberSpace (set_space h enc s') enc = Some s'.
Proof. by destruct enc. Qed.

Lemma set_space_set h enc s s' : set_space (set_space h enc s) enc s' = set_space h enc s'.
Proof. by destruct enc. Qed.

(** The packets of the other spaces. *)
Definition other_packets h enc : list (Packet Fr) :=
  match enc with
  | EncryptionInitial => packets_of (sp_handshakePackets h) ++ packets (sp_appDataPackets h)
  | EncryptionHandshake => packets_of (sp_initialPackets h) ++ packets (sp_appDataPackets h)
  | _ => packets_of (sp_initialPackets h) ++ packets_of (sp_handshakePackets h)
  end.

Definition others_inv h enc : Prop :=
  match enc with
  | EncryptionInitial => space_inv_of (sp_handshakePackets h) ∧ space_inv (sp_appDataPackets h)
  | EncryptionHandshake => space_inv_of (sp_initialPackets h) ∧ space_inv (sp_appDataPackets h)
  | _ => space_inv_of (sp_initialPackets h) ∧ space_inv_of (sp_handshakePackets h)
  end.

Lemma all_packets_get h enc s : getPacketNumberSpace h enc = Some s → all_packets h ≡ₚ packets s ++ other_packets h enc.
Proof.
  unfold all_packets. destruct enc; cbn; [intros ->; done|intros ->; cbn|intros [= <-]..]; [|by rewrite app_assoc, Permutation_app_comm..].
  by rewrite Permutation_app_swap_app.
Qed.

Lemma held_perm l1 l2 : l1 ≡ₚ l2 → held l1 ≡ₚ held l2.
Proof. intros Hp. unfold held. by rewrite Hp. Qed.

Lemma in_flight_perm l1 l2 : l1 ≡ₚ l2 → in_flight l1 = in_flight l2.
Proof. induction 1; cbn; lia. Qed.

Lemma probes_perm fs1 fs2 : fs1 ≡ₚ fs2 → probes fs1 ≡ₚ probes fs2.
Proof. intros Hp. unfold probes. by rewrite Hp. Qed.

Lemma probes_app fs1 fs2 : probes (fs1 ++ fs2) = probes fs1 ++ probes fs2.
Proof. apply omap_app. Qed.

(** The invariant, one space apart; [extra] bytes in flight belong to packets that
    were taken out of it and are still to be counted. *)
Record split_inv h enc s (size extra : Z) : Prop := {
  sl_get : getPacketNumberSpace h enc = Some s;
  sl_space : space_inv s;
  sl_others : others_inv h enc;
  sl_flight : sp_bytesInFlight h = in_flight (packets s) + in_flight (other_packets h enc) + extra;
  sl_extra : 0 ≤ extra;
  sl_alg : alg_ok size (sp_congestion h);
  sl_sizes : Forall (λ x, size ≤ x ≤ 2 ^ 16) (probes (held (packets s)) ++ probes (held (other_packets h enc)));
  sl_probe : (length (probes (held (packets s)) ++ probes (held (other_packets h enc))) ≤ 1)%nat;
}.

Lemma split_inv_of h enc s : sent_inv h → getPacketNumberSpace h enc = Some s → ∃ size, split_inv h enc s size 0.
Proof.
  intros [H1 H2 H3 H4 (size & Hs & H5) H6] Hg. pose proof (all_packets_get h enc s Hg) as Hp. exists size.
  rewrite (in_flight_perm _ _ Hp), in_flight_app in H4. rewrite (probes_perm _ _ (held_perm _ _ Hp)), held_app, probes_app in H5, H6.
  split; try done; try lia; destruct enc; cbn in *; rewrite ?Hg in *; try done; by injection Hg as <-.
Qed.

Lemma split_inv_join h enc s size : split_inv h enc s size 0 → sent_inv h.
Proof.
  intros [H0 H1 H2 H3 _ H4 H5 H6]. pose proof (all_packets_get h enc s H0) as Hp.
  assert (sp_bytesInFlight h = in_flight (all_packets h)) by (rewrite (in_flight_perm _ _ Hp), in_flight_app; lia).
  assert (Forall (λ x, size ≤ x ≤ 2 ^ 16) (probes (held (all_packets h)))) by (rewrite (probes_perm _ _ (held_perm _ _ Hp)), held_app, probes_app; done).
  assert (length (probes (held (all_packets h))) ≤ 1)%nat by (rewrite (probes_perm _ _ (held_perm _ _ Hp)), held_app, probes_app; done).
  destruct enc; cbn in *; destruct H2; split; rewrite ?H0; try done; first [by exists size|by injection H0 as <-].
Qed.

(** The other spaces are the same. *)
Definition same_others h h' enc : Prop :=
  match enc with
  | EncryptionInitial => sp_handshakePackets h' = sp_handshakePackets h ∧ sp_appDataPackets h' = sp_appDataPackets h
  | EncryptionHandshake => sp_initialPackets h' = sp_initialPackets h ∧ sp_appDataPackets h' = sp_appDataPackets h
  | _ => sp_initialPackets h' = sp_initialPackets h ∧ sp_handshakePackets h' = sp_handshakePackets h
  end.

Lemma same_others_refl h enc : same_others h h enc.
Proof. by destruct enc. Qed.

Lemma same_others_trans h1 h2 h3 enc : same_others h1 h2 enc → same_others h2 h3 enc → same_others h1 h3 enc.
Proof. destruct enc; cbn; intros [-> ->] [-> ->]; done. Qed.

Lemma same_others_packets h h' enc : same_others h h' enc → other_packets h' enc = other_packets h enc.
Proof. destruct enc; cbn; intros [-> ->]; done. Qed.

Lemma same_others_inv h h' enc : same_others h h' enc → others_inv h enc → others_inv h' enc.
Proof. destruct enc; cbn; intros [-> ->]; done. Qed.

(** A change of one space that takes the frames [gone] out of it. *)
Lemma split_inv_change h enc s size extra h' s' extra' gone : split_inv h enc s size extra →
  getPacketNumberSpace h' enc = Some s' → same_others h h' enc → space_inv s' → held (packets s) ≡ₚ held (packets s') ++ gone →
  sp_bytesInFlight h' - in_flight (packets s') - extra' = sp_bytesInFlight h - in_flight (packets s) - extra → 0 ≤ extra' → alg_ok size (sp_congestion h') →
  split_inv h' enc s' size extra'.
Proof.
  intros [H0 H1 H2 H3 H4 H5 H6 H7] Hg Hs Hi Hheld Hf He Ha. pose proof (same_others_packets _ _ _ Hs) as Ho.
  rewrite (probes_perm _ _ Hheld), probes_app, <- app_assoc in H6, H7.
  split; rewrite ?Ho; try done; [by eapply same_others_inv|lia| |].
  - apply Forall_app in H6 as [Ha1 H6]. apply Forall_app in H6 as [_ H6]. by apply Forall_app.
  - rewrite length_app, length_app in H7. rewrite length_app. lia.
Qed.

(** ** Packets that are marked or removed *)

Inductive shrinks : list (Packet Fr) → list (Packet Fr) → Prop :=
| shrinks_nil : shrinks [] []
| shrinks_keep p l l' : shrinks l l' → shrinks (p :: l) (p :: l')
| shrinks_mark p l l' : shrinks l l' → shrinks (p :: l) (mark p :: l')
| shrinks_drop p l l' : shrinks l l' → shrinks (p :: l) l'.

Lemma shrinks_refl l : shrinks l l.
Proof. induction l; by constructor. Qed.

Lemma shrinks_app l1 l1' l2 l2' : shrinks l1 l1' → shrinks l2 l2' → shrinks (l1 ++ l2) (l1' ++ l2').
Proof. intros H1 H2. induction H1; cbn; [done|by constructor..]. Qed.

Lemma shrinks_filter (P : Packet Fr → Prop) `{∀ x, Decision (P x)} l : shrinks l (filter P l).
Proof.
  induction l as [|p l IH]; [constructor|]. destruct (decide (P p)); [rewrite filter_cons_True by done|rewrite filter_cons_False by done]; by constructor.
Qed.

Lemma shrinks_ok l l' : shrinks l l' → Forall packet_ok l → Forall packet_ok l'.
Proof. induction 1; intros Hl; [done|apply Forall_cons in Hl as [Hp Hl]..]; try constructor; auto using mark_ok. Qed.

Lemma shrinks_forall (P : Packet Fr → Prop) l l' : (∀ p, P p → P (mark p)) → shrinks l l' → Forall P l → Forall P l'.
Proof. intros HP. induction 1; intros Hl; [done|apply Forall_cons in Hl as [Hp Hl]..]; try constructor; auto. Qed.

Lemma shrinks_increasing l l' : shrinks l l' → increasing l → increasing l'.
Proof.
  induction 1 as [|p l l' Hs IH|p l l' Hs IH|p l l' Hs IH]; intros Hi; [done|apply StronglySorted_inv in Hi as [Hi Hf]..].
  1,2: constructor; [by apply IH|]; by eapply shrinks_forall. by apply IH.
Qed.

Lemma shrinks_frames (P : Frame Fr → Prop) l l' : shrinks l l' → Forall P (held l) → Forall P (held l').
Proof.
  unfold held. induction 1; cbn [mbind list_bind]; intros Hl; [done|apply Forall_app in Hl as [Hp Hl]..]; [apply Forall_app; auto|auto..].
Qed.

Lemma shrinks_waits l l' : shrinks l l' → Exists (λ p, waits p = true) l' → Exists (λ p, waits p = true) l.
Proof.
  induction 1 as [|p l l' Hs IH|p l l' Hs IH|p l l' Hs IH]; intros He; [done|apply Exists_cons in He..|by right; apply IH].
  - destruct He; [by left|right; auto].
  - destruct He as [He|He]; [done|right; auto].
Qed.

Lemma space_inv_shrinks s s' : space_inv s → shrinks (packets s) (packets s') → sh_highestSent (ps_history s') = sh_highestSent (ps_history s) →
  ps_largestSent s' = ps_largestSent s → ps_largestAcked s' ≤ ps_largestSent s → sh_packetMap (ps_history s') = list_to_set (numbers (packets s')) →
  ps_lastAckElicitingPacketTime s' = ps_lastAckElicitingPacketTime s → ps_pns s' = ps_pns s →
  (ps_lossTime s' = ps_lossTime s ∨ (ps_lossTime s' ≠ 0 → Exists (λ p, waits p = true) (packets s))) → space_inv s'.
Proof.
  intros [H1 H2 H3 H4 H5 H6 H7 H8 H9 H10 H11 H12] Hs E1 E2 E3 E4 E5 E6 E7. split; rewrite ?E1, ?E2, ?E5, ?E6; try done.
  - by eapply shrinks_ok.
  - by eapply shrinks_frames.
  - by eapply shrinks_increasing.
  - by eapply shrinks_forall; [|exact Hs|].
  - by eapply shrinks_forall; [|exact Hs|].
  - intros He. apply H10. by eapply shrinks_waits.
  - destruct E7 as [->|E7]; auto.
Qed.

(** ** Losses *)

Lemma first_loss_waits la t d l : ∀ lt, first_loss la t d lt l ≠ 0 → lt ≠ 0 ∨ Exists (λ p, waits p = true) l.
Proof.
  induction l as [|p l IH]; intros lt; cbn [first_loss]; [auto|]. destruct (waits p) eqn:E; cbn [andb]; [by right; left|]. intros [?|?]%IH; [auto|by right; right].
Qed.

Lemma numbers_mark_lost la t l : numbers (mark_lost la t <$> l) = numbers l.
Proof. induction l as [|p l IH]; [done|]. cbn. f_equal; [|done]. unfold mark_lost. by destruct (is_lost la t p). Qed.

Lemma shrinks_mark_lost la t l : shrinks l (mark_lost la t <$> l).
Proof. induction l as [|p l IH]; [constructor|]. cbn. unfold mark_lost at 1. destruct (is_lost la t p); by constructor. Qed.

Lemma flight_mark p : flight (mark p) = 0.
Proof. done. Qed.

Lemma in_flight_mark_lost la t l : in_flight (mark_lost la t <$> l) = in_flight l - in_flight (lost_packets la t l).
Proof.
  unfold lost_packets. induction l as [|p l IH]; [done|]. cbn [fmap list_fmap in_flight]. unfold mark_lost at 1.
  destruct (is_lost la t p) eqn:E; [rewrite filter_cons_True by done|rewrite filter_cons_False by congruence]; cbn [in_flight]; rewrite ?flight_mark;
    change (list_fmap _ _ (mark_lost la t) l) with (mark_lost la t <$> l); rewrite IH; lia.
Qed.

Lemma held_mark_lost la t l : held l ≡ₚ held (mark_lost la t <$> l) ++ held (lost_packets la t l).
Proof.
  unfold lost_packets, held. induction l as [|p l IH]; [done|]. rewrite fmap_cons. unfold mark_lost at 1.
  destruct (is_lost la t p) eqn:E; [rewrite filter_cons_True by done|rewrite filter_cons_False by congruence]; cbn [mbind list_bind] in *; rewrite IH.
  - cbn [mark p_Frames update app]. by rewrite Permutation_app_swap_app.
  - by rewrite app_assoc.
Qed.

Lemma reports_ok size (f : C → Packet Fr → C) lost : (∀ c p, alg_ok size c → alg_ok size (f c p)) → ∀ c, alg_ok size c → alg_ok size (fold_left f lost c).
Proof. intros Hf. induction lost as [|p lost IH]; intros c Hc; [done|]. cbn. auto. Qed.

(** The fields that the packets do not depend on. *)
Definition mode h :=
  (sp_handshakeConfirmed h, sp_peerCompletedAddressValidation h, sp_bytesReceived h, sp_bytesSent h, sp_peerAddressValidated h, sp_perspective h).

Lemma detectLost_run fe h enc s size extra now : split_inv h enc s size extra →
  ∃ h' s' lost, detectLostPackets fe h now enc = Ret (h', FrameLost_of (held lost), None) ∧ split_inv h' enc s' size extra ∧
    held (packets s) ≡ₚ held (packets s') ++ held lost ∧ same_others h h' enc ∧ mode h' = mode h ∧
    numbers (packets s') = numbers (packets s) ∧ lost `sublist_of` packets s.
Proof.
  intros Hinv. pose proof Hinv as [H0 H1 H2 H3 H4 H5 H6 H7]. pose proof H1 as [S1 S2 S3 S4 S5 S6 S7 S8 S9 S10 S11 S12].
  unfold detectLostPackets. rewrite (proj2 (space_get h enc s) H0). cbn [mbind outcome_bind].
  destruct (loss_delay (sp_rttStats h)) as [maxRTT lossDelay]. set (t := if fe then _ else _).
  assert (0 ≤ in_flight (other_packets h enc)) as Hoth.
  { apply in_flight_nonneg. destruct enc; cbn in *; destruct H2 as [O1 O2]; apply Forall_app; split;
      first [by apply sp_ok|by unfold packets_of; destruct (sp_initialPackets h); [apply sp_ok|]|by unfold packets_of; destruct (sp_handshakePackets h); [apply sp_ok|]]. }
  destruct (iterate_loss fe size (ps_largestAcked s) lossDelay t (sp_bytesInFlight h) (packets s) h 0 [] [] S1 S3 H5 ltac:(lia)) as (c & lost' & E & Hc).
  unfold packets in E at 1. rewrite E. cbn [mbind outcome_bind]. clear E.
  set (lost := lost_packets _ _ _). set (report := λ (c : C) (p : Packet Fr), _).
  set (s' := s <| ps_lossTime := _ |> <| ps_history ::= _ |>).
  set (h1 := set_space _ enc s').
  match goal with |- context [if ?b then ?x else h1] => set (h2 := if b then x else h1) end.
  assert (alg_ok size (sp_congestion h2) ∧ sp_bytesInFlight h2 = sp_bytesInFlight h - in_flight lost ∧ getPacketNumberSpace h2 enc = Some s' ∧
    same_others h h2 enc ∧ mode h2 = mode h) as (A1 & A2 & A3 & A4 & A5).
  { assert (alg_ok size (fold_left report lost' c)).
    { apply reports_ok; [|done]. intros c0 p Hc0. unfold report. destruct (p_declaredLost p && _); [by apply alg_lost|done]. }
    unfold h2, h1. destruct (fe && _ && _); destruct enc; cbn; split_and!; done. }
  assert (packets s' = mark_lost (ps_largestAcked s) t <$> packets s) as Hs' by done. clearbody h2.
  exists h2, s', lost. split; [done|]. split; [|rewrite Hs'; split_and!; [apply held_mark_lost|done|done|apply numbers_mark_lost|apply sublist_filter]].
  eapply (split_inv_change h enc s size extra); try done.
  - eapply (space_inv_shrinks s); try done; rewrite ?Hs'; [apply shrinks_mark_lost|by rewrite numbers_mark_lost|].
    right. intros Hne. by apply first_loss_waits in Hne as [|].
  - rewrite Hs'. apply held_mark_lost.
  - rewrite A2, Hs', in_flight_mark_lost. unfold lost. lia.
Qed.

(** ** Acknowledgments *)

Definition FrameAcked_of (fs : list (Frame Fr)) : list (frame_event Fr) := FrameAcked <$> filter (λ f, cb f = true) (fr_Frame <$> fs).

Lemma FrameAcked_of_app fs1 fs2 : FrameAcked_of (fs1 ++ fs2) = FrameAcked_of fs1 ++ FrameAcked_of fs2.
Proof. unfold FrameAcked_of. by rewrite fmap_app, filter_app, fmap_app. Qed.

(** The callbacks of a packet's frames; a probe raises the size of the datagrams. *)
Lemma call_OnAcked_run fs rest : ∀ c size, alg_ok size c → Forall frame_ok fs → Forall (λ x, size ≤ x ≤ 2 ^ 16) (probes fs ++ rest) →
  (length (probes fs ++ rest) ≤ 1)%nat →
  ∃ c' size', call_OnAcked probed c fs = Ret (c', FrameAcked_of fs) ∧ alg_ok size' c' ∧ Forall (λ x, size' ≤ x ≤ 2 ^ 16) rest.
Proof.
  induction fs as [|f fs IH]; intros c size Hc Hf Hs Hn; [by exists c, size|]. apply Forall_cons in Hf as [Hf0 Hf].
  unfold frame_ok in Hf0. cbn [call_OnAcked]. unfold FrameAcked_of. rewrite fmap_cons.
  assert (probes (f :: fs) = match (if fr_OnAcked f then probed (fr_Frame f) else None) with Some x => x :: probes fs | None => probes fs end) as Hp by done.
  rewrite Hp in Hs, Hn. clear Hp. destruct (fr_OnAcked f) eqn:Ea; [rewrite filter_cons_True by done|rewrite filter_cons_False by congruence; by apply (IH c size)].
  destruct (probed (fr_Frame f)) as [x|] eqn:Ep; cbn [mbind outcome_bind].
  - cbn [app] in Hs, Hn. apply Forall_cons in Hs as [Hx Hs]. destruct (alg_resize size c x Hc Hx) as (c1 & -> & Hc1). cbn [mbind outcome_bind].
    assert (probes fs ++ rest = []) as Hnil by (destruct (probes fs ++ rest); [done|cbn in Hn; lia]).
    destruct (IH c1 x Hc1 Hf) as (c' & size' & -> & Hc' & Hr); [by rewrite Hnil|by rewrite Hnil; cbn; lia|]. cbn [mbind outcome_bind]. by exists c', size'.
  - destruct (IH c size Hc Hf Hs Hn) as (c' & size' & -> & Hc' & Hr). cbn [mbind outcome_bind]. by exists c', size'.
Qed.

Lemma increasing_remove l p : increasing l → p ∈ l → l ≡ₚ p :: remove_packet (p_PacketNumber p) l.
Proof.
  intros Hi. induction Hi as [|q l Hi IH Hf]; intros Hp; [by apply not_elem_of_nil in Hp|]. rewrite Forall_forall in Hf. unfold remove_packet in *.
  apply elem_of_cons in Hp as [->|Hp].
  - rewrite filter_cons_False by (intros Hn; by apply Hn). f_equiv.
    assert (filter (λ p, p_PacketNumber p ≠ p_PacketNumber q) l = l) as ->; [|done].
    apply filter_all. apply Forall_forall. intros x Hx. specialize (Hf x Hx). lia.
  - rewrite filter_cons_True; [|specialize (Hf p Hp); cbn in Hf; lia]. rewrite (IH Hp) at 1. constructor.
Qed.

Lemma remove_packet_filter p acked l :
  filter (λ q, p_PacketNumber q ∉ numbers acked) (remove_packet (p_PacketNumber p) l) = filter (λ q, p_PacketNumber q ∉ numbers (p :: acked)) l.
Proof.
  unfold remove_packet. rewrite list_filter_filter. apply list_filter_iff. intros q. unfold numbers. rewrite fmap_cons, not_elem_of_cons. tauto.
Qed.

Lemma sublist_remove p acked l : increasing l → (p :: acked) `sublist_of` l → acked `sublist_of` remove_packet (p_PacketNumber p) l.
Proof.
  intros Hi Hs. assert (remove_packet (p_PacketNumber p) (p :: acked) = acked) as E.
  { assert (increasing (p :: acked)) as Hi' by (by eapply sublist_sorted).
    apply StronglySorted_inv in Hi' as [_ Hf]. unfold remove_packet. rewrite filter_cons_False by (intros Hn; by apply Hn).
    apply filter_all. eapply Forall_impl; [exact Hf|]. cbn. lia. }
  rewrite <- E. by apply sublist_filter_both.
Qed.

(** Taking one acknowledged packet out of a space. *)
Lemma remove_packet_inv h enc s size extra p : split_inv h enc s size extra → p ∈ packets s →
  ∃ c events s' size', call_OnAcked probed (sp_congestion h) (p_Frames p) = Ret (c, events) ∧ events = FrameAcked_of (p_Frames p) ∧
    history_Remove (ps_history s) (p_PacketNumber p) = (ps_history s', None) ∧ s' = s <| ps_history := ps_history s' |> ∧
    packets s' = remove_packet (p_PacketNumber p) (packets s) ∧ packets s ≡ₚ p :: packets s' ∧
    ∀ h', mode h' = mode h → getPacketNumberSpace h' enc = Some s' → same_others h h' enc → sp_congestion h' = c →
      sp_bytesInFlight h' = sp_bytesInFlight h → split_inv h' enc s' size' (extra + flight p).
Proof.
  intros Hinv Hp. pose proof Hinv as [H0 H1 H2 H3 H4 H5 H6 H7]. pose proof H1 as [S1 S2 S3 S4 S5 S6 S7 S8 S9 S10 S11 S12].
  pose proof (increasing_remove _ _ S3 Hp) as Hperm. set (l' := remove_packet (p_PacketNumber p) (packets s)) in *.
  assert (held (packets s) ≡ₚ p_Frames p ++ held l') as Hheld by (by rewrite (held_perm _ _ Hperm)).
  rewrite (probes_perm _ _ Hheld), probes_app, <- app_assoc in H6, H7.
  assert (Forall frame_ok (p_Frames p)) as Hfr by (rewrite Hheld in S2; by apply Forall_app in S2 as [? _]).
  destruct (call_OnAcked_run (p_Frames p) _ (sp_congestion h) size H5 Hfr H6 H7) as (c & size' & -> & Hc & Hsz).
  set (s' := s <| ps_history ::= λ x, x <| sh_packetList := l' |> <| sh_packetMap ::= λ m, m ∖ {[p_PacketNumber p]} |> |>).
  exists c, (FrameAcked_of (p_Frames p)), s', size'. split_and!; try done.
  - unfold history_Remove. rewrite decide_True; [done|]. rewrite S6. apply elem_of_list_to_set. by apply list_elem_of_fmap_2.
  - intros h' Hm Hg Ho Hcong Hb. pose proof (same_others_packets _ _ _ Ho) as Hop. rewrite (in_flight_perm _ _ Hperm) in H3. cbn [in_flight] in H3.
    assert (packets s' = l') as Hl' by done. pose proof (flight_nonneg p ltac:(rewrite Forall_forall in S1; by apply S1)).
    split; rewrite ?Hop, ?Hcong, ?Hl', ?Hb; try done; [|by eapply same_others_inv|lia|lia|rewrite length_app in H7; lia].
    apply (space_inv_shrinks s); try done; [apply shrinks_filter| |by left].
    rewrite Hl'. cbn. rewrite S6. apply set_eq. intros x. rewrite elem_of_difference, !elem_of_list_to_set, elem_of_singleton. unfold numbers.
    rewrite !list_elem_of_fmap. split.
    + intros [(q & -> & Hq) Hne]. exists q. split; [done|]. apply list_elem_of_filter. done.
    + intros (q & -> & [Hne Hq]%list_elem_of_filter). eauto.
Qed.

Lemma remove_acked_run enc acked : ∀ h s size extra, split_inv h enc s size extra → acked `sublist_of` packets s →
  ∃ h' s' size', remove_acked probed h enc acked = Ret (h', FrameAcked_of (held acked), None) ∧
    split_inv h' enc s' size' (extra + in_flight acked) ∧
    packets s' = filter (λ q, p_PacketNumber q ∉ numbers acked) (packets s) ∧ held (packets s) ≡ₚ held (packets s') ++ held acked ∧
    same_others h h' enc ∧ mode h' = mode h.
Proof.
  induction acked as [|p acked IH]; intros h s size extra Hinv Hsub; cbn [remove_acked].
  { exists h, s, size. rewrite Z.add_0_r. split_and!; try done; [|by rewrite app_nil_r|apply same_others_refl].
    symmetry. apply filter_all. apply Forall_forall. intros q _. apply not_elem_of_nil. }
  assert (p ∈ packets s) as Hp by (eapply sublist_subseteq; [exact Hsub|apply list_elem_of_here]).
  set (h1 := if bool_decide _ then _ else h).
  assert (sp_congestion h1 = sp_congestion h ∧ sp_bytesInFlight h1 = sp_bytesInFlight h ∧ getPacketNumberSpace h1 enc = getPacketNumberSpace h enc ∧
    same_others h h1 enc ∧ mode h1 = mode h) as (A1 & A2 & A3 & A4 & A5) by (unfold h1; destruct (bool_decide _), enc; done). clearbody h1.
  destruct (remove_packet_inv h enc s size extra p Hinv Hp) as (c & ev & s1 & size1 & Hcall & -> & Hrem & Hs1 & Hl1 & Hperm & Hnext).
  rewrite A1, Hcall. cbn [mbind outcome_bind]. rewrite (proj2 (space_get _ enc s)) by (rewrite <- (sl_get _ _ _ _ _ Hinv), <- A3; by destruct enc).
  cbn [mbind outcome_bind]. rewrite Hrem, <- Hs1. set (h2 := set_space _ enc s1).
  assert (split_inv h2 enc s1 size1 (extra + flight p)) as Hinv2.
  { apply Hnext; unfold h2; clear -A1 A2 A4 A5; destruct enc; cbn in *; tauto. }
  assert (acked `sublist_of` packets s1) as Hsub1 by (rewrite Hl1; apply sublist_remove; [apply (sp_increasing _ (sl_space _ _ _ _ _ Hinv))|done]).
  assert (same_others h h2 enc ∧ mode h2 = mode h) as [Hso Hmo] by (unfold h2; clear -A4 A5; destruct enc; cbn in *; tauto).
  destruct (IH h2 s1 size1 (extra + flight p) Hinv2 Hsub1) as (h' & s' & size' & -> & Hinv' & Hl' & Hheld & Hso' & Hmo'). cbn [mbind outcome_bind].
  exists h', s', size'. split; [do 3 f_equal; unfold held; cbn [mbind list_bind]; by rewrite FrameAcked_of_app|].
  split; [cbn [in_flight]; by rewrite Z.add_assoc|]. split; [by rewrite Hl', Hl1, remove_packet_filter|].
  split; [|split; [by eapply same_others_trans|by rewrite Hmo']].
  rewrite (held_perm _ _ Hperm). unfold held in *. cbn [mbind list_bind]. rewrite Hheld. by rewrite Permutation_app_swap_app.
Qed.

Lemma count_acked_run size prior t acked : ∀ h, Forall packet_ok acked → alg_ok size (sp_congestion h) → in_flight acked ≤ sp_bytesInFlight h →
  ∃ c b, count_acked h prior t acked = Ret (h <| sp_bytesInFlight := sp_bytesInFlight h - in_flight acked |> <| sp_congestion := c |>, b) ∧ alg_ok size c.
Proof.
  induction acked as [|p acked IH]; intros h Hok Hc Hb; cbn [count_acked in_flight] in *.
  { exists (sp_congestion h), false. split; [|done]. rewrite Z.sub_0_r. by destruct h. }
  apply Forall_cons in Hok as [Hp Hok]. pose proof (in_flight_nonneg acked Hok). pose proof (flight_nonneg p Hp).
  assert (∃ c, (if p_includedInBytesInFlight p && negb (p_declaredLost p) then OnPacketAcked (sp_congestion h) (sp_rttStats h) (p_PacketNumber p) (p_Length p) prior t
    else Ret (sp_congestion h)) = Ret c ∧ alg_ok size c) as (c & -> & Hc1).
  { destruct (_ && _); [by apply alg_acked|by eexists]. }
  cbn [mbind outcome_bind]. rewrite remove_flight by (cbn; destruct Hp; lia). cbn [mbind outcome_bind].
  destruct (IH ((h <| sp_congestion := c |>) <| sp_bytesInFlight := sp_bytesInFlight h - flight p |>)) as (c' & b & HE & Hc'); [done|done|cbn; lia|].
  cbn [sp_bytesInFlight update] in HE |- *. rewrite HE. cbn [mbind outcome_bind]. do 2 eexists. split; [|exact Hc']. do 2 f_equal. cbn. f_equal. lia.
Qed.

(** Old packets that were lost or skipped are forgotten. *)
Lemma delete_old_run limit l : ∀ X, Forall packet_ok l → increasing l → (∀ p, p ∈ l → p_PacketNumber p ∉ X) →
  ∃ l', delete_old_packets limit l (X ∪ list_to_set (numbers l)) = (l', X ∪ list_to_set (numbers l')) ∧
    shrinks l l' ∧ held l' = held l ∧ in_flight l' = in_flight l ∧ l' `sublist_of` l.
Proof.
  induction l as [|p l IH]; intros X Hok Hi HX; cbn [delete_old_packets].
  { exists []. split_and!; try done. constructor. }
  assert (X ∪ list_to_set (numbers (p :: l)) = ({[p_PacketNumber p]} ∪ X) ∪ list_to_set (numbers l)) as EX.
  { unfold numbers. rewrite fmap_cons. cbn. apply set_eq. intros x. rewrite !elem_of_union. tauto. }
  apply Forall_cons in Hok as [Hp Hok]. apply StronglySorted_inv in Hi as [Hi Hf]. rewrite Forall_forall in Hf.
  destruct (limit <? p_SendTime p); [exists (p :: l); split_and!; [done|apply shrinks_refl|done..]|].
  destruct (negb _ && negb _) eqn:Ew.
  - rewrite EX. destruct (IH ({[p_PacketNumber p]} ∪ X) Hok Hi) as (l' & -> & Hs & Hh & Hfl & Hsub).
    { intros q Hq. specialize (Hf q Hq). rewrite not_elem_of_union, not_elem_of_singleton. split; [lia|apply HX; by right]. }
    exists (p :: l'). split_and!; [|by constructor|unfold held in *; cbn [mbind list_bind]; by rewrite Hh|cbn; by rewrite Hfl|by constructor].
    f_equal. unfold numbers. rewrite fmap_cons. cbn. apply set_eq. intros x. rewrite !elem_of_union. tauto.
  - assert (waits p = false) as Hw by (unfold waits; destruct (p_skippedPacket p), (p_declaredLost p); done).
    assert ((X ∪ list_to_set (numbers (p :: l))) ∖ {[p_PacketNumber p]} = X ∪ list_to_set (numbers l)) as ->.
    { unfold numbers. rewrite fmap_cons. cbn. apply set_eq. intros x. rewrite elem_of_difference, !elem_of_union, !elem_of_singleton.
      pose proof (HX p (list_elem_of_here _ _)). split; [tauto|]. intros [Hx|Hx]; (split; [tauto|]); intros ->; [done|].
      apply elem_of_list_to_set, list_elem_of_fmap in Hx as (q & Hq & Hin). specialize (Hf q Hin). lia. }
    destruct (IH X Hok Hi) as (l' & -> & Hs & Hh & Hfl & Hsub); [intros q Hq; apply HX; by right|].
    exists l'. split_and!; [done|by constructor| | |by constructor].
    + rewrite Hh. unfold held. cbn [mbind list_bind]. by rewrite (po_done p Hp Hw).
    + cbn. rewrite Hfl. unfold flight. by rewrite (po_flight p Hp), Hw.
Qed.

Lemma DeleteOldPackets_inv h enc s size extra rtt now : split_inv h enc s size extra →
  let s' := s <| ps_history ::= λ x, DeleteOldPackets x rtt now |> in
  split_inv (set_space h enc s') enc s' size extra ∧ held (packets s') = held (packets s) ∧ packets s' `sublist_of` packets s.
Proof.
  intros Hinv s'. pose proof Hinv as [H0 H1 H2 H3 H4 H5 H6 H7]. pose proof H1 as [S1 S2 S3 S4 S5 S6 S7 S8 S9 S10 S11 S12].
  destruct (delete_old_run (now - i64 (3 * PTO rtt false)) (packets s) ∅ S1 S3) as (l' & E & Hs & Hh & Hf & Hsub); [intros; apply not_elem_of_empty|].
  rewrite !union_empty_l_L in E.
  assert (packets s' = l' ∧ sh_packetMap (ps_history s') = list_to_set (numbers l') ∧ sh_highestSent (ps_history s') = sh_highestSent (ps_history s)) as (E1 & E2 & E3).
  { unfold s', packets, DeleteOldPackets. cbn. rewrite S6. unfold packets in E |- *. by rewrite E. }
  rewrite E1. split_and!; [|done|done]. eapply (split_inv_change h enc s size extra _ s' extra []); try done.
  - by destruct enc.
  - by destruct enc.
  - apply (space_inv_shrinks s); try done; [by rewrite ?E1..|by left].
  - by rewrite E1, app_nil_r, Hh.
  - rewrite E1, Hf. by destruct enc.
  - by destruct enc.
Qed.
End Handler.
