(* ===== verification/QuicSentRuns.v ===== *)
(** * Sent packets: the operations and their runs

    No operation of the handler of sent packets panics, every frame that was sent is
    held, or was reported once, or its keys were dropped; the bytes in flight are
    those of the packets that are held; and as long as packets are outstanding the
    timer is set. *)

From stdpp Require Import base list numbers strings gmap sorting.
From Stdlib Require Import ZArith Lia Floats.SpecFloat.
From S2P Require Import Prelude LinkedList QuicProtocol QuicFrames QuicAck QuicRtt QuicCongestion QuicReceived QuicReceivedTheorems QuicSent QuicSentHistory QuicSentTheorems.

Section Runs.
Context {Fr C : Type} `{Alg : SendAlgorithm C} `{Laws : !SendAlgorithmLaws C} (probed : Fr → option Z) (cb : Fr → bool).
Implicit Types (p : Packet Fr) (l : list (Packet Fr)) (h : sentPacketHandler Fr C) (s : packetNumberSpace Fr).

Local Abbreviation sent_inv := (sent_inv probed cb).
Local Abbreviation split_inv := (split_inv probed cb).
Local Abbreviation space_inv := (space_inv cb).

(** ** The timer *)

(** A packet is outstanding that the timer has to watch. *)
Definition needs_timer h : bool :=
  (sp_handshakeConfirmed h && hasOutstandingPackets h || hasOutstandingCryptoPackets h) && negb (isAmplificationLimited h).

(** The exponential back-off does not overflow. *)
Definition backoff_ok h : Prop := 0 ≤ backoff h false ∧ 0 ≤ backoff h true.

Definition armed h : Prop := backoff_ok h → needs_timer h = true → sp_alarm h ≠ 0.

(** After the handshake a packet number space is there for the timer to probe. *)
Definition last_set (o : option (packetNumberSpace Fr)) : Prop := match o with Some s => ps_lastAckElicitingPacketTime s ≠ 0 | None => False end.
Definition level_known h : Prop :=
  sp_handshakeConfirmed h = true → is_Some (sp_initialPackets h) ∨ last_set (sp_handshakePackets h) ∨ last_set (Some (sp_appDataPackets h)).

Definition timer_inv h : Prop := armed h ∧ (sp_alarm h ≠ 0 → level_known h).

Lemma timer_alarm h now : ∃ a, setLossDetectionTimer h now = h <| sp_alarm := a |>.
Proof.
  unfold setLossDetectionTimer. destruct (getLossTimeAndSpace h) as [t e]. destruct (negb _); [by eexists|]. destruct (isAmplificationLimited h); [by eexists|].
  destruct (_ && _); [by eexists|]. destruct (getPTOTimeAndSpace h now) as [[t' e']|]; by eexists.
Qed.

Lemma outstanding_waits l : split_outstanding l ≠ None → Exists (λ p, waits p = true) l.
Proof.
  induction l as [|p l IH]; cbn [split_outstanding]; [done|]. destruct (outstanding p) eqn:E.
  - intros _. left. unfold outstanding in E. by apply andb_true_iff in E as [E _].
  - intros Hs. right. apply IH. by destruct (split_outstanding l) as [[[? ?] ?]|].
Qed.

Lemma outstanding_last s : space_inv s → HasOutstandingPackets (ps_history s) = true → 0 < ps_lastAckElicitingPacketTime s.
Proof.
  intros Hs. unfold HasOutstandingPackets, FirstOutstanding. intros Ho. apply (sp_last _ _ Hs), outstanding_waits. unfold packets.
  by destruct (split_outstanding _) as [[[? ?] ?]|].
Qed.

(** The earlier of two times that are not zero. *)
Lemma earlier_pos {E} t (e : E) best : 0 < t → 0 ≤ best.1 → 0 < (if before_or_zero t best.1 then (t, e) else best).1.
Proof. intros Ht Hb. unfold before_or_zero. destruct (best.1 =? 0) eqn:Eb; cbn [orb]; [done|]. destruct (negb _ && _); cbn; lia. Qed.

(** When a packet is to be watched, the time of a probe is not zero. *)
Lemma pto_time h now : sent_inv h → backoff_ok h → sp_handshakeConfirmed h && hasOutstandingPackets h || hasOutstandingCryptoPackets h = true →
  ∃ r, getPTOTimeAndSpace h now = Some r ∧ 0 < r.1.
Proof.
  intros [H1 H2 H3 _ _ _] [Hb1 Hb2] Hn. unfold getPTOTimeAndSpace.
  assert (negb (sp_handshakeConfirmed h) && negb (hasOutstandingCryptoPackets h) = false) as ->.
  { destruct (sp_handshakeConfirmed h), (hasOutstandingCryptoPackets h); done. }
  set (best1 := match sp_initialPackets h with Some s => _ | None => _ end).
  set (best2 := match sp_handshakePackets h with Some s => _ | None => _ end).
  assert (0 ≤ best1.1 ∧ (space_outstanding (sp_initialPackets h) = true → 0 < best1.1)) as [B1 B1'].
  { unfold best1. destruct (sp_initialPackets h) as [s|]; cbn in *; [|done]. pose proof (outstanding_last s H1) as HL. pose proof (sp_last0 _ _ H1).
    destruct (ps_lastAckElicitingPacketTime s =? 0) eqn:E; cbn; (split; [lia|intros Ho; specialize (HL Ho); lia]). }
  clearbody best1.
  assert (0 ≤ best2.1 ∧ (hasOutstandingCryptoPackets h = true → 0 < best2.1)) as [B2 B2'].
  { unfold best2, hasOutstandingCryptoPackets. destruct (sp_handshakePackets h) as [s|]; cbn [space_outstanding] in *;
      [|destruct (space_outstanding (sp_initialPackets h)); auto].
    pose proof (outstanding_last s H2) as HL. pose proof (sp_last0 _ _ H2). destruct (ps_lastAckElicitingPacketTime s =? 0) eqn:E.
    - destruct (space_outstanding (sp_initialPackets h)); [auto|]. destruct (HasOutstandingPackets _); [specialize (HL eq_refl); lia|done].
    - pose proof (earlier_pos (ps_lastAckElicitingPacketTime s + backoff h false) (Some EncryptionHandshake) best1 ltac:(lia) B1). lia. }
  clearbody best2. destruct (sp_handshakeConfirmed h) eqn:Ec; cbn [andb].
  - pose proof (sp_last0 _ _ H3). destruct (ps_lastAckElicitingPacketTime (sp_appDataPackets h) =? 0) eqn:E; cbn [negb].
    + eexists. split; [reflexivity|]. apply B2'. unfold hasOutstandingPackets in Hn.
      pose proof (outstanding_last _ H3) as HL. destruct (HasOutstandingPackets _); [specialize (HL eq_refl); lia|]. cbn in Hn. by destruct (hasOutstandingCryptoPackets h).
    + eexists. split; [reflexivity|]. apply earlier_pos; lia.
  - eexists. split; [reflexivity|]. by apply B2'.
Qed.

Lemma needs_outstanding h : sp_handshakeConfirmed h && hasOutstandingPackets h || hasOutstandingCryptoPackets h = true → hasOutstandingPackets h = true.
Proof. unfold hasOutstandingPackets. intros [[_ ?]%andb_true_iff|E]%orb_true_iff; [done|]. by rewrite E, orb_true_r. Qed.

Lemma timer_armed h now : sent_inv h → armed (setLossDetectionTimer h now).
Proof.
  intros Hinv. destruct (timer_alarm h now) as [a Ea]. unfold armed. rewrite Ea. change (needs_timer (h <| sp_alarm := a |>)) with (needs_timer h).
  change (backoff_ok (h <| sp_alarm := a |>)) with (backoff_ok h).
  intros Hb [Hn Hl]%andb_true_iff. pose proof (needs_outstanding h Hn) as Ho. destruct (pto_time h now Hinv Hb Hn) as ([t e] & Ht & Ht0).
  rewrite <- Ea. unfold setLossDetectionTimer. destruct (getLossTimeAndSpace h) as [lt le]. destruct (lt =? 0) eqn:El; cbn [negb]; [|cbn; lia].
  apply negb_true_iff in Hl. rewrite Hl, Ho, Ht. cbn in *. lia.
Qed.

Lemma loss_level h : sent_inv h → (getLossTimeAndSpace h).1 ≠ 0 → is_Some (sp_initialPackets h) ∨ last_set (sp_handshakePackets h) ∨ last_set (Some (sp_appDataPackets h)).
Proof.
  intros [H1 H2 H3 _ _ _] Hne. unfold getLossTimeAndSpace in Hne. destruct (sp_initialPackets h) as [si|]; [by left; eexists|]. right.
  pose proof (sp_loss _ _ H3) as L3. destruct (sp_handshakePackets h) as [sh|]; cbn in *.
  - pose proof (sp_loss _ _ H2) as L2. unfold before_or_zero in *. cbn in *. destruct (ps_lossTime sh =? 0) eqn:E; cbn in *; [|left; lia]. right. lia.
  - right. lia.
Qed.

Lemma pto_level h now r : sent_inv h → getPTOTimeAndSpace h now = Some r → r.1 ≠ 0 → level_known h.
Proof.
  intros [H1 H2 H3 _ _ _]. unfold getPTOTimeAndSpace, level_known. intros E Hr Hc. rewrite Hc in E. cbn [negb andb] in E.
  destruct (sp_initialPackets h) as [si|]; [by left; eexists|]. right. cbn [last_set].
  destruct (decide (ps_lastAckElicitingPacketTime (sp_appDataPackets h) = 0)) as [E0|]; [|by right]. rewrite E0 in E. cbn [negb andb Z.eqb] in E.
  left. destruct (sp_handshakePackets h) as [sh|]; [|by injection E as <-]. cbn in *. intros E1. rewrite E1 in E. cbn in E. by injection E as <-.
Qed.

Lemma timer_known h now : sent_inv h → sp_alarm (setLossDetectionTimer h now) ≠ 0 → level_known (setLossDetectionTimer h now).
Proof.
  intros Hinv Ha. destruct (timer_alarm h now) as [a Ea]. assert (level_known (setLossDetectionTimer h now) ↔ level_known h) as -> by (by rewrite Ea).
  clear Ea a. revert Ha. unfold setLossDetectionTimer. pose proof (loss_level h Hinv) as Hl. destruct (getLossTimeAndSpace h) as [lt le]. cbn [fst] in Hl.
  destruct (lt =? 0) eqn:El; cbn [negb]; [|intros _ _; apply Hl; lia].
  destruct (isAmplificationLimited h); [done|]. destruct (_ && _); [done|]. destruct (getPTOTimeAndSpace h now) as [[t e]|] eqn:Ep; [|done].
  cbn. by apply (pto_level h now (t, e)).
Qed.

(** An operation sets the timer at its end, or leaves the alarm and no more packets to watch. *)
Definition retimed h h' (now : Z) : Prop :=
  (∃ h0, h' = setLossDetectionTimer h0 now) ∨
  (needs_timer h' = true → needs_timer h = true) ∧ sp_alarm h' = sp_alarm h ∧ (∀ b, backoff h' b = backoff h b) ∧ (level_known h → level_known h').

Lemma sent_inv_alarm h a : sent_inv h ↔ sent_inv (h <| sp_alarm := a |>).
Proof. split; intros []; by split. Qed.

Lemma retimed_inv h h' now : retimed h h' now → sent_inv h' → timer_inv h → timer_inv h'.
Proof.
  intros [[h0 ->]|(Hn & Hal & Hb & Hl)] Hinv [Ha Hk].
  - destruct (timer_alarm h0 now) as [a Ea]. rewrite Ea in Hinv. apply sent_inv_alarm in Hinv. split; [by apply timer_armed|by apply timer_known].
  - split; [|rewrite Hal; auto]. unfold armed, backoff_ok. rewrite Hal, !Hb. auto.
Qed.

(** ** Operations *)

(** A server does not wait for its address to be validated, nor does an endpoint without Handshake packets. *)
Definition mode_inv h : Prop := sp_perspective h = PerspectiveServer ∨ sp_handshakePackets h = None → sp_peerCompletedAddressValidation h = true.

(** An operation adds the frames [added] and takes the frames [gone] out. *)
Record moves h h' (added gone : list (Frame Fr)) : Prop := {
  mv_inv : sent_inv h';
  mv_timer : timer_inv h → timer_inv h';
  mv_mode : mode_inv h → mode_inv h';
  mv_held : held (all_packets h) ++ added ≡ₚ held (all_packets h') ++ gone;
}.

Lemma moves_trans h1 h2 h3 a1 a2 g1 g2 : moves h1 h2 a1 g1 → moves h2 h3 a2 g2 → moves h1 h3 (a1 ++ a2) (g1 ++ g2).
Proof.
  intros [I1 T1 M1 H1] [I2 T2 M2 H2]. split; [done|auto|auto|]. rewrite app_assoc, H1, <- app_assoc, (Permutation_app_comm g1 a2), app_assoc, H2, <- app_assoc.
  f_equiv. apply Permutation_app_comm.
Qed.

Lemma others_held h h' enc s s' added gone : getPacketNumberSpace h enc = Some s → getPacketNumberSpace h' enc = Some s' → same_others h h' enc →
  held (packets s) ++ added ≡ₚ held (packets s') ++ gone → held (all_packets h) ++ added ≡ₚ held (all_packets h') ++ gone.
Proof.
  intros Hg Hg' Ho Hp. rewrite (held_perm _ _ (all_packets_get h enc s Hg)), (held_perm _ _ (all_packets_get h' enc s' Hg')), !held_app.
  rewrite (same_others_packets _ _ _ Ho), <- !app_assoc, (Permutation_app_comm _ added), (Permutation_app_comm _ gone), !app_assoc. by rewrite Hp.
Qed.

Definition keeps h h' : Prop :=
  sp_perspective h' = sp_perspective h ∧ (sp_peerCompletedAddressValidation h = true → sp_peerCompletedAddressValidation h' = true).

Lemma keeps_trans h1 h2 h3 : keeps h1 h2 → keeps h2 h3 → keeps h1 h3.
Proof. intros [A1 B1] [A2 B2]. split; [congruence|auto]. Qed.

Lemma mode_keeps h h' : mode h' = mode h → keeps h h'.
Proof. unfold mode. intros E. injection E as _ E1 _ _ _ E2. split; [done|by rewrite E1]. Qed.

Lemma others_mode h h' enc s s' : getPacketNumberSpace h enc = Some s → getPacketNumberSpace h' enc = Some s' → same_others h h' enc →
  keeps h h' → mode_inv h → mode_inv h'.
Proof.
  unfold mode_inv. intros Hg Hg' Ho [Hp Hv] Hm Hc. apply Hv, Hm. destruct Hc as [Hc|Hc]; [left; congruence|right].
  destruct enc; cbn in *; destruct Ho as [O1 O2]; congruence.
Qed.

(** An operation on one space. *)
Lemma others_moves h h' enc s s' now added gone : sent_inv h' → retimed h h' now → getPacketNumberSpace h enc = Some s → getPacketNumberSpace h' enc = Some s' →
  same_others h h' enc → keeps h h' → held (packets s) ++ added ≡ₚ held (packets s') ++ gone → moves h h' added gone.
Proof. intros Hinv Hr Hg Hg' Ho Hk Hp. split; [done|by eapply retimed_inv|by eapply others_mode|by eapply others_held]. Qed.

(** ** Acknowledgments *)

Lemma ack_setup ack l : ranges_ok (ack_AckRanges ack) → ∃ lowest largest r rs,
  LowestAcked ack = Ret lowest ∧ LargestAcked ack = Ret largest ∧ rev (ack_AckRanges ack) = r :: rs ∧
  (∀ pn, acked (ack_AckRanges ack) pn → lowest ≤ pn ≤ largest) ∧
  (HasMissingRanges ack = false → ∀ pn, lowest ≤ pn ≤ largest → acked (ack_AckRanges ack) pn) ∧
  ranges_left (ack_AckRanges ack) largest r rs l ∧ acked (ack_AckRanges ack) largest.
Proof.
  intros Hok. set (rg := ack_AckRanges ack) in *. pose proof Hok as [Hne Hr Hd].
  assert (0 < zlen rg) as Hn by (destruct rg; [done|rewrite zlen_cons; pose proof (zlen_nonneg rg); lia]).
  destruct (zget_is_Some rg 0) as [top Htop]; [lia|]. destruct (zget_is_Some rg (zlen rg - 1)) as [bot Hbot]; [lia|].
  destruct (rev rg) as [|r rs] eqn:Erev; [by apply (f_equal (@rev _)) in Erev; rewrite rev_involutive in Erev|].
  assert (∀ pn, acked rg pn ↔ acked (r :: rs) pn) as Hsame.
  { intros pn. rewrite <- Erev. unfold acked. by rewrite <- (Permutation_rev rg). }
  exists (ar_Smallest bot), (ar_Largest top), r, rs. unfold LowestAcked, LargestAcked. fold rg. rewrite (index_Ret _ _ _ Htop), (index_Ret _ _ _ Hbot).
  apply zget_Some in Htop as Htop'. destruct Htop' as [_ Htop']. pose proof (list_elem_of_lookup_2 _ _ _ Htop') as Hin.
  rewrite Forall_forall in Hr. pose proof (Hr top Hin) as Htr.
  split_and!; [done|done|done| | | |].
  - intros pn Ha. unfold acked in Ha. rewrite Exists_exists in Ha. destruct Ha as (x & Hx & Hpn). destruct (zget_elem _ _ Hx) as [i Hi].
    pose proof (ranges_extent rg top bot i x Hok Htop Hbot Hi). lia.
  - intros Hm pn Hpn. unfold HasMissingRanges in Hm. fold rg in Hm. assert (zlen rg - 1 = 0) as E by lia. rewrite E in Hbot. simplify_eq.
    unfold acked. rewrite Exists_exists. eauto.
  - split.
    + intros p _. apply Hsame.
    + rewrite <- Erev. by apply StronglySorted_rev in Hd.
    + rewrite <- Erev. apply Forall_rev. apply Forall_forall. intros x Hx. specialize (Hr x Hx). lia.
    + rewrite <- Erev. destruct rg as [|x rg']; [done|]. cbn in Htop'. injection Htop' as ->. cbn [rev]. by rewrite last_snoc.
  - unfold acked. rewrite Exists_exists. exists top. split; [done|lia].
Qed.

Lemma detect_acked_run h enc s size ack : split_inv h enc s size 0 → ranges_ok (ack_AckRanges ack) →
  let N := named (ack_AckRanges ack) (packets s) in
  ∃ h' ev a err, detectAndRemoveAckedPackets probed h ack enc = Ret (h', ev, a, err) ∧ (err = None ↔ none_skipped N) ∧ (a = [] → h' = h) ∧
    (err = None → a = N ∧ ev = FrameAcked_of cb (held N) ∧ ∃ s' size', split_inv h' enc s' size' (in_flight N) ∧
      packets s' = filter (λ q, p_PacketNumber q ∉ numbers N) (packets s) ∧ held (packets s) ≡ₚ held (packets s') ++ held N ∧
      same_others h h' enc ∧ mode h' = mode h).
Proof.
  intros Hinv Hok N. destruct (ack_setup ack (packets s) Hok) as (lowest & largest & r & rs & E1 & E2 & E3 & Hext & Hone & Hl & _).
  unfold detectAndRemoveAckedPackets. rewrite (proj2 (space_get h enc s) (sl_get _ _ _ _ _ _ _ Hinv)), E1, E2. cbn [mbind outcome_bind]. rewrite E3.
  pose proof (sl_space _ _ _ _ _ _ _ Hinv) as Hsp.
  destruct (iterate_ack ack lowest largest (packets s) r rs [] Hext Hone (sp_increasing _ _ Hsp) Hl) as (r' & rs' & a & err & E & (new & -> & C1 & C2 & C3 & C4)).
  unfold packets in E at 1. rewrite E. cbn [mbind outcome_bind app]. fold N in C2, C3, C4. clear E.
  assert (new `sublist_of` packets s) as Hsub.
  { destruct C2 as [k Hk]. transitivity N; [rewrite Hk; by apply sublist_inserts_r|apply sublist_filter]. }
  destruct (remove_acked_run probed cb enc new h s size 0 Hinv Hsub) as (h' & s' & size' & E & Hinv' & Hp & Hheld & Hso & Hm). rewrite E. cbn [mbind outcome_bind].
  do 4 eexists. split; [reflexivity|]. split; [split; [done|by intros Hn; apply C3]|]. split; [intros ->; by injection E as ->|]. intros He. specialize (C4 He). destruct (C3 C4) as [_ ->].
  split_and!; [done|done|]. exists s', size'. split_and!; done.
Qed.

(** The fields the invariant is about. *)
Definition core h := (sp_initialPackets h, sp_handshakePackets h, sp_appDataPackets h, sp_bytesInFlight h).

Lemma core_inv h h' enc s size extra : core h' = core h → alg_ok size (sp_congestion h') → split_inv h enc s size extra → split_inv h' enc s size extra.
Proof.
  unfold core. intros Hc Ha [H0 H1 H2 H3 H4 H5 H6 H7]. injection Hc as E1 E2 E3 E4.
  destruct enc; cbn in *; split; cbn; rewrite ?E1, ?E2, ?E3, ?E4; done.
Qed.

Lemma core_others h h' enc : core h' = core h → same_others h h' enc.
Proof. unfold core. intros Hc. injection Hc as E1 E2 E3 E4. by destruct enc. Qed.

Lemma core_timer h now : core (setLossDetectionTimer h now) = core h ∧ sp_congestion (setLossDetectionTimer h now) = sp_congestion h.
Proof. destruct (timer_alarm h now) as [a ->]. done. Qed.

Lemma sent_inv_core h h' : core h' = core h → sp_congestion h' = sp_congestion h → sent_inv h → sent_inv h'.
Proof.
  unfold core. intros Hc Ha [H1 H2 H3 H4 H5 H6]. injection Hc as E1 E2 E3 E4.
  split; unfold all_packets in *; rewrite ?E1, ?E2, ?E3, ?E4, ?Ha; done.
Qed.

Lemma others_flight h enc s size extra : split_inv h enc s size extra → 0 ≤ in_flight (packets s) ∧ 0 ≤ in_flight (other_packets h enc).
Proof.
  intros [H0 H1 H2 _ _ _ _ _]. split; apply in_flight_nonneg; [apply (sp_ok _ _ H1)|].
  assert (∀ o, space_inv_of cb o → Forall packet_ok (packets_of o)) as Ho by (intros [x|] Hx; [apply (sp_ok _ _ Hx)|done]).
  destruct enc; cbn in *; destruct H2 as [O1 O2]; apply Forall_app; (split; [by apply Ho|]); first [by apply Ho|apply (sp_ok _ _ O2)].
Qed.

(** The end of [ReceivedAck]: losses are detected and the acknowledged packets counted. *)
Lemma ack_counts fe h enc s size a prior t now (events : list (frame_event Fr)) : split_inv h enc s size (in_flight a) → Forall packet_ok a →
  ∃ h' s' lost b, ('(h, lost, err) ← detectLostPackets fe h t enc;
      match err with
      | Some e => Ret (h, events ++ lost, false, Some e)
      | None =>
          '(h, acked1RTTPacket) ← count_acked h prior t a;
          let h := if sp_peerCompletedAddressValidation h then h <| sp_ptoCount := 0 |> else h in
          let h := h <| sp_numProbesToSend := 0 |> in
          s ← space h enc;
          let h := set_space h enc (s <| ps_history ::= λ x, DeleteOldPackets x (sp_rttStats h) t |>) in
          Ret (setLossDetectionTimer h now, events ++ lost, acked1RTTPacket, None)
      end) = Ret (h', events ++ FrameLost_of (held lost), b, None) ∧
    sent_inv h' ∧ (∃ h0, h' = setLossDetectionTimer h0 now) ∧ getPacketNumberSpace h' enc = Some s' ∧ same_others h h' enc ∧ mode h' = mode h ∧
    held (packets s) ≡ₚ held (packets s') ++ held lost ∧ numbers (packets s') `sublist_of` numbers (packets s) ∧ lost `sublist_of` packets s.
Proof.
  intros Hinv Ha. destruct (detectLost_run probed cb fe h enc s size _ t Hinv) as (h1 & s1 & lost & -> & Hinv1 & Hheld & Hso & Hm & Hnum & Hsub).
  cbn [mbind outcome_bind]. destruct (others_flight _ _ _ _ _ Hinv1) as [F1 F2]. pose proof (sl_flight _ _ _ _ _ _ _ Hinv1) as Hfl.
  destruct (count_acked_run size prior t a h1 Ha (sl_alg _ _ _ _ _ _ _ Hinv1)) as (c & b & -> & Hc); [lia|]. cbn [mbind outcome_bind].
  set (h2 := h1 <| sp_bytesInFlight := _ |> <| sp_congestion := c |>).
  set (h3 := (if sp_peerCompletedAddressValidation h2 then _ else h2) <| sp_numProbesToSend := 0 |>).
  assert (split_inv h2 enc s1 size 0) as Hinv2.
  { eapply (split_inv_change probed cb h1 enc s1 size _ h2 s1 0 []); try done.
    - rewrite <- (sl_get _ _ _ _ _ _ _ Hinv1). by destruct enc.
    - by destruct enc.
    - apply (sl_space _ _ _ _ _ _ _ Hinv1).
    - by rewrite app_nil_r.
    - unfold h2. cbn [sp_bytesInFlight update]. lia. }
  assert (core h3 = core h2 ∧ sp_congestion h3 = sp_congestion h2 ∧ mode h3 = mode h2) as (C3 & A3 & M3) by (unfold h3; by destruct (sp_peerCompletedAddressValidation h2)).
  assert (split_inv h3 enc s1 size 0) as Hinv3 by (apply (core_inv h2); [done|rewrite A3; apply (sl_alg _ _ _ _ _ _ _ Hinv2)|done]).
  rewrite (proj2 (space_get h3 enc s1) (sl_get _ _ _ _ _ _ _ Hinv3)). cbn [mbind outcome_bind].
  destruct (DeleteOldPackets_inv probed cb h3 enc s1 size 0 (sp_rttStats h3) t Hinv3) as (Hinv4 & Hh4 & Hsub4).
  set (s4 := s1 <| ps_history ::= _ |>) in *. destruct (core_timer (set_space h3 enc s4) now) as [C5 A5].
  do 4 eexists. split; [reflexivity|]. split_and!; [|by eexists| | | | | |exact Hsub].
  - apply (sent_inv_core (set_space h3 enc s4)); [done|done|by eapply split_inv_join].
  - pose proof (sl_get _ _ _ _ _ _ _ Hinv4) as Hg. destruct (timer_alarm (set_space h3 enc s4) now) as [al ->]. exact Hg.
  - eapply same_others_trans; [exact Hso|]. destruct (timer_alarm (set_space h3 enc s4) now) as [al ->]. unfold h3, h2. by destruct (sp_peerCompletedAddressValidation _), enc.
  - destruct (timer_alarm (set_space h3 enc s4) now) as [al ->]. rewrite <- Hm. unfold h3, h2. by destruct (sp_peerCompletedAddressValidation _), enc.
  - by rewrite Hh4.
  - rewrite <- Hnum. by apply fmap_sublist.
Qed.

Lemma largest_acked_inv h enc s size x : split_inv h enc s size 0 → x ≤ ps_largestSent s →
  let s' := s <| ps_largestAcked := MaxPacketNumber (ps_largestAcked s) x |> in split_inv (set_space h enc s') enc s' size 0.
Proof.
  intros Hinv Hx s'. pose proof (sl_space _ _ _ _ _ _ _ Hinv) as Hsp. eapply (split_inv_change probed cb h enc s size 0 _ s' 0 []); try done.
  - by destruct enc.
  - by destruct enc.
  - destruct Hsp. split; try done. cbn. unfold MaxPacketNumber. destruct (_ <? _); lia.
  - by rewrite app_nil_r.
  - by destruct enc.
  - destruct enc; apply (sl_alg _ _ _ _ _ _ _ Hinv).
Qed.

Lemma needs_timer_set h enc s s' : getPacketNumberSpace h enc = Some s → sh_packetList (ps_history s') = sh_packetList (ps_history s) →
  needs_timer (set_space h enc s') = needs_timer h.
Proof.
  intros Hg E. assert (HasOutstandingPackets (ps_history s') = HasOutstandingPackets (ps_history s)) as Ho
    by (unfold HasOutstandingPackets, FirstOutstanding; by rewrite E).
  unfold needs_timer, hasOutstandingPackets, hasOutstandingCryptoPackets, isAmplificationLimited. 
  destruct enc; cbn in *; rewrite ?Hg; cbn; rewrite ?Ho; try done; by injection Hg as ->.
Qed.

(** An acknowledgment: it is refused when it names a packet that was not sent;
    otherwise the packets it names are taken out, their frames reported, and other
    packets may be found lost. *)
Lemma ReceivedAck_run fe h enc s ack t now : sent_inv h → getPacketNumberSpace h enc = Some s → ranges_ok (ack_AckRanges ack) →
  let N := named (ack_AckRanges ack) (packets s) in
  ∃ h' ev b err, ReceivedAck probed fe h ack enc t now = Ret (h', ev, b, err) ∧
    (err = None ↔ (∀ pn, acked (ack_AckRanges ack) pn → pn ≤ ps_largestSent s) ∧ none_skipped N) ∧
    (err = None → ∃ s' lost, moves h h' [] (held N ++ held lost) ∧ getPacketNumberSpace h' enc = Some s' ∧ same_others h h' enc ∧
      ev = FrameAcked_of cb (held N) ++ FrameLost_of (held lost) ∧
      (∀ p, p ∈ packets s' → ¬ acked (ack_AckRanges ack) (p_PacketNumber p)) ∧ lost `sublist_of` packets s).
Proof.
  intros Hsent Hg Hok N. destruct (split_inv_of probed cb h enc s Hsent Hg) as [size Hinv].
  destruct (ack_setup ack (packets s) Hok) as (lowest & largest & r & rs & E1 & E2 & E3 & Hext & _ & _ & Hlarge).
  unfold ReceivedAck. rewrite (proj2 (space_get h enc s) Hg), E2. cbn [mbind outcome_bind].
  destruct (ps_largestSent s <? largest) eqn:Elt.
  { do 4 eexists. split; [reflexivity|]. split; [|done]. split; [done|]. intros [Hall _]. specialize (Hall largest Hlarge). lia. }
  assert (∀ pn, acked (ack_AckRanges ack) pn → pn ≤ ps_largestSent s) as Hall by (intros pn Hpn%Hext; lia).
  set (s1 := s <| ps_largestAcked := MaxPacketNumber (ps_largestAcked s) largest |>). set (h1 := set_space h enc s1).
  assert (split_inv h1 enc s1 size 0) as Hinv1 by (apply largest_acked_inv; [done|lia]).
  set (h2 := if _ && _ then _ else h1).
  assert (core h2 = core h1 ∧ sp_congestion h2 = sp_congestion h1 ∧ (h2 = h1 ∨ ∃ h0, h2 = setLossDetectionTimer h0 now) ∧ keeps h h2) as (C2 & A2 & T2 & M2).
  { assert (keeps h h1) by (unfold h1; by destruct enc). unfold h2. destruct (_ && _); [|by auto].
    set (h0 := h1 <| sp_peerCompletedAddressValidation := true |>). destruct (core_timer h0 now). split_and!; [done|done|by eauto|]. eapply keeps_trans; [exact H|]. 
    destruct (timer_alarm h0 now) as [a ->]. done. }
  assert (same_others h h2 enc) as Hso2 by (eapply same_others_trans; [|by apply core_others]; unfold h1; by destruct enc).
  assert (split_inv h2 enc s1 size 0) as Hinv2 by (apply (core_inv h1); [done|rewrite A2; apply (sl_alg _ _ _ _ _ _ _ Hinv1)|done]). clearbody h2.
  destruct (detect_acked_run h2 enc s1 size ack Hinv2 Hok) as (h3 & ev & a & err & -> & Herr & Hnil & Hres). cbn [mbind outcome_bind].
  change (packets s1) with (packets s) in Herr, Hres. fold N in Herr, Hres.
  destruct err as [e|]; [do 4 eexists; split; [reflexivity|]; split; [|done]; split; [done|]; by intros [_ Hn%Herr]|].
  destruct (Hres eq_refl) as (-> & -> & s3 & size3 & Hinv3 & Hp3 & Hheld3 & Hso3 & Hm3).
  assert (none_skipped N) as Hns by (by apply Herr).
  assert (∀ p, p_PacketNumber p ∈ numbers (packets s3) → ¬ acked (ack_AckRanges ack) (p_PacketNumber p)) as Hgone.
  { rewrite Hp3. intros p (q & Hq & [Hnot Hin]%list_elem_of_filter)%list_elem_of_fmap Ha. apply Hnot. apply list_elem_of_fmap. exists q.
    split; [done|]. apply list_elem_of_filter. by rewrite <- Hq. }
  destruct (last N) as [p|] eqn:El.
  2: { apply last_None in El. assert (h3 = h2) as -> by auto. do 4 eexists. split; [reflexivity|]. split; [done|]. intros _.
    rewrite El in *. exists s3, [].
    assert (same_others h h2 enc) as Hso by (by eapply same_others_trans).
    assert (retimed h h2 now) as Hret.
    { destruct T2 as [-> |[h0 ->]]; [right|left; by eexists]. unfold h1. rewrite (needs_timer_set h enc s s1 Hg) by done. split_and!; [done|by destruct enc..|].
      unfold level_known. destruct enc; cbn in *; [| |injection Hg as <-; exact id..]; rewrite Hg; intros Hl Hc; [by left; eexists|]. exact (Hl Hc). }
    split_and!; [|apply (sl_get _ _ _ _ _ _ _ Hinv3)|done|done| |apply sublist_nil_l].
    { apply (others_moves h h2 enc s s3 now); [by eapply split_inv_join|done|done|apply (sl_get _ _ _ _ _ _ _ Hinv3)|done|done|]. by rewrite app_nil_r, Hheld3. }
    intros q Hq. apply Hgone. by apply list_elem_of_fmap_2. }
  match goal with |- context [if p_PacketNumber p =? largest then ?x else Ret h3] => set (upd := if p_PacketNumber p =? largest then x else Ret h3) end.
  assert (∃ h4, upd = Ret h4 ∧ core h4 = core h3 ∧ alg_ok size3 (sp_congestion h4) ∧ mode h4 = mode h3) as (h4 & -> & C4 & A4 & M4).
  { pose proof (sl_alg _ _ _ _ _ _ _ Hinv3) as A3. unfold upd. destruct (_ =? largest); [|by exists h3].
    match goal with |- context [MaybeExitSlowStart ?c ?r] => destruct (alg_exit size3 c r A3) as (c' & -> & Hc) end.
    cbn [mbind outcome_bind]. eexists. by split_and!. }
  cbn [mbind outcome_bind]. pose proof (core_inv _ _ _ _ _ _ C4 A4 Hinv3) as Hinv4.
  assert (Forall packet_ok N) as HokN by (eapply sublist_forall; [apply sublist_filter|apply (sp_ok _ _ (sl_space _ _ _ _ _ _ _ Hinv))]).
  destruct (ack_counts fe h4 enc s3 size3 N (sp_bytesInFlight h2) t now (FrameAcked_of cb (held N)) Hinv4 HokN)
    as (h5 & s5 & lost & b & E5 & Hs5 & Ht5 & Hg5 & Hso5 & M5 & Hheld5 & Hnum5 & Hsub5).
  do 4 eexists. split; [exact E5|]. split; [done|]. intros _. exists s5, lost.
  assert (same_others h h5 enc) as Hso.
  { eapply same_others_trans; [exact Hso2|]. eapply same_others_trans; [exact Hso3|]. eapply same_others_trans; [by apply core_others|done]. }
  assert (keeps h h5) as Hk by (eapply keeps_trans; [exact M2|apply mode_keeps; congruence]).
  split_and!; [|done|done|done| |].
  - apply (others_moves h h5 enc s s5 now); [done|by left|done|done|done|done|]. rewrite app_nil_r, Hheld3, Hheld5, <- app_assoc. f_equiv. apply Permutation_app_comm.
  - intros q Hq. apply Hgone. eapply sublist_subseteq; [exact Hnum5|]. by apply list_elem_of_fmap_2.
  - etrans; [exact Hsub5|]. rewrite Hp3. apply sublist_filter.
Qed.
End Runs.
