(* ===== verification/QuicSentOps.v ===== *)
(** * Sent packets: the other operations

    Sending a packet, dropping the packets of an encryption level, probes, the timer,
    and the reset after a Retry: none of them panics, and each moves frames as
    [moves] says. *)

From stdpp Require Import base list numbers strings gmap sorting.
From Stdlib Require Import ZArith Lia Floats.SpecFloat.
From S2P Require Import Prelude LinkedList QuicProtocol QuicFrames QuicAck QuicRtt QuicCongestion QuicReceived QuicSent QuicSentHistory QuicSentTheorems QuicSentRuns.

Section Ops.
Context {Fr C : Type} `{Alg : SendAlgorithm C} `{Laws : !SendAlgorithmLaws C} (probed : Fr → option Z) (cb : Fr → bool).
Implicit Types (p : Packet Fr) (l : list (Packet Fr)) (h : sentPacketHandler Fr C) (s : packetNumberSpace Fr).

Local Abbreviation sent_inv := (sent_inv probed cb).
Local Abbreviation split_inv := (split_inv probed cb).
Local Abbreviation space_inv := (space_inv cb).
Local Abbreviation moves := (moves probed cb).

(** ** Outstanding packets *)

Lemma HasOutstanding_exists (x : sentPacketHistory Fr) : HasOutstandingPackets x = true ↔ Exists (λ p, outstanding p = true) (sh_packetList x).
Proof.
  unfold HasOutstandingPackets, FirstOutstanding. induction (sh_packetList x) as [|p l IH]; cbn [split_outstanding]; [by rewrite Exists_nil|].
  rewrite Exists_cons, <- IH. destruct (outstanding p); [by split; [left|]|]. destruct (split_outstanding l) as [[[? ?] ?]|]; (split; [by right|by intros [|]]).
Qed.

Lemma shrinks_outstanding l l' : shrinks l l' → Exists (λ p, outstanding p = true) l' → Exists (λ p, outstanding p = true) l.
Proof.
  induction 1 as [|p l l' Hs IH|p l l' Hs IH|p l l' Hs IH]; intros He; [done|apply Exists_cons in He..|by right; apply IH].
  - destruct He; [by left|right; auto].
  - destruct He as [He|He]; [done|right; auto].
Qed.

(** Fewer packets to watch in every space. *)
Definition watches (o o' : option (packetNumberSpace Fr)) : Prop := space_outstanding o' = true → space_outstanding o = true.

Lemma needs_timer_less h h' : watches (sp_initialPackets h) (sp_initialPackets h') → watches (sp_handshakePackets h) (sp_handshakePackets h') →
  watches (Some (sp_appDataPackets h)) (Some (sp_appDataPackets h')) → sp_handshakeConfirmed h' = sp_handshakeConfirmed h →
  (isAmplificationLimited h = true → isAmplificationLimited h' = true) → needs_timer h' = true → needs_timer h = true.
Proof.
  unfold watches, needs_timer, hasOutstandingPackets, hasOutstandingCryptoPackets. cbn [space_outstanding]. intros W1 W2 W3 -> Ha.
  rewrite !andb_true_iff, !negb_true_iff. intros [Hn Hl]. split; [|destruct (isAmplificationLimited h); [by rewrite Ha in Hl|done]].
  destruct (sp_handshakeConfirmed h), (space_outstanding (sp_initialPackets h')), (space_outstanding (sp_handshakePackets h')), (HasOutstandingPackets (ps_history (sp_appDataPackets h')));
    cbn in *; try done; rewrite ?W1, ?W2, ?W3 by done; cbn; try done; destruct (HasOutstandingPackets _), (space_outstanding (sp_initialPackets h)); done.
Qed.

(** ** Simple operations *)

Lemma moves_timer h h0 now gone : sent_inv h0 → keeps h h0 → (sp_handshakePackets h0 = None → sp_handshakePackets h = None ∨ sp_peerCompletedAddressValidation h0 = true) →
  held (all_packets h) ≡ₚ held (all_packets h0) ++ gone → moves h (setLossDetectionTimer h0 now) [] gone.
Proof.
  intros Hinv [K1 K2] Hm Hp. destruct (timer_alarm h0 now) as [a Ea]. assert (sent_inv (setLossDetectionTimer h0 now)) as Hinv' by (rewrite Ea; by apply sent_inv_alarm).
  split; [done| | |by rewrite app_nil_r, Ea].
  - intros Ht. by eapply (retimed_inv probed cb h); [left; eexists| |].
  - rewrite Ea. unfold mode_inv. cbn. rewrite K1. intros Hi [Hc|Hc]; [auto|]. destruct (Hm Hc); auto.
Qed.

Lemma moves_same h h' : core h' = core h → sp_congestion h' = sp_congestion h → keeps h h' → sent_inv h → (timer_inv h → timer_inv h') → moves h h' [] [].
Proof.
  intros Hc Ha [K1 K2] Hinv Ht. split; [by eapply sent_inv_core|done| |].
  - unfold core in Hc. injection Hc as _ E _ _. unfold mode_inv. rewrite K1, E. auto.
  - unfold core in Hc. injection Hc as E1 E2 E3 _. unfold all_packets. by rewrite E1, E2, E3.
Qed.

Lemma moves_refl h : sent_inv h → moves h h [] [].
Proof. intros. by apply moves_same. Qed.

Lemma ReceivedBytes_run h n now : sent_inv h → moves h (sent_ReceivedBytes h n now) [] [].
Proof.
  intros Hinv. unfold sent_ReceivedBytes. set (h1 := h <| sp_bytesReceived ::= _ |>).
  assert (sent_inv h1) by (by apply (sent_inv_core probed cb h)). destruct (_ && _) eqn:E.
  - apply moves_timer; [done|done|by left|by rewrite app_nil_r].
  - apply moves_same; try done. intros Ht. eapply (retimed_inv probed cb h h1 now); [right|done|done]. split_and!; try done.
    apply needs_timer_less; [exact id|exact id|exact id|done|]. intros Hl. rewrite Hl in E. cbn in E. by apply negb_false_iff in E.
Qed.

Lemma ReceivedPacket_run h (lv : EncryptionLevel) now : sent_inv h → moves h (sent_ReceivedPacket h lv now) [] [].
Proof.
  intros Hinv. unfold sent_ReceivedPacket. destruct (_ && _); [|by apply moves_refl].
  apply moves_timer; [by apply (sent_inv_core probed cb h)|done|by left|by rewrite app_nil_r].
Qed.

Lemma SetHandshakeConfirmed_run h now : sent_inv h → moves h (SetHandshakeConfirmed h now) [] [].
Proof. intros Hinv. apply moves_timer; [by apply (sent_inv_core probed cb h)|done|by left|by rewrite app_nil_r]. Qed.

(** ** Probes *)

Lemma split_outstanding_run l a p b : split_outstanding l = Some (a, p, b) → l = a ++ p :: b ∧ outstanding p = true.
Proof.
  revert a. induction l as [|q l IH]; intros a; cbn [split_outstanding]; [done|]. destruct (outstanding q) eqn:E; [by intros [= <- <- <-]|].
  destruct (split_outstanding l) as [[[a' p'] b']|]; [|done]. intros [= <- <- <-]. by destruct (IH a' eq_refl) as [-> ?].
Qed.

Lemma shrinks_marked a p b : shrinks (a ++ p :: b) (a ++ mark p :: b).
Proof. apply shrinks_app; [apply shrinks_refl|]. apply shrinks_mark, shrinks_refl. Qed.

(** The frames of the first outstanding packet are sent again. *)
Lemma QueueProbePacket_run h enc s : sent_inv h → getPacketNumberSpace h enc = Some s →
  ∃ h' b fs, QueueProbePacket h enc = Ret (h', FrameLost_of fs, b) ∧ moves h h' [] fs ∧ (b = true ↔ HasOutstandingPackets (ps_history s) = true) ∧ (fs = [] → b = false).
Proof.
  intros Hsent Hg. destruct (split_inv_of probed cb h enc s Hsent Hg) as [size Hinv]. unfold QueueProbePacket. rewrite (proj2 (space_get h enc s) Hg). cbn [mbind outcome_bind].
  destruct (split_outstanding (sh_packetList (ps_history s))) as [[[a p] b]|] eqn:E.
  2: { exists h, false, []. split_and!; [done|by apply moves_refl| |done]. unfold HasOutstandingPackets, FirstOutstanding. by rewrite E. }
  destruct (split_outstanding_run _ _ _ _ E) as [El Ho]. pose proof Hinv as [_ H1 _ _ _ Halg _ _]. pose proof H1 as [S1 S2 S3 S4 S5 S6 S7 S8 S9 S10 S11 S12].
  unfold packets in S1. rewrite El in S1. apply Forall_app in S1 as [Sa [Hp Sb]%Forall_cons].
  assert (waits p = true) as Hw by (unfold outstanding in Ho; by apply andb_true_iff in Ho as [? _]). destruct (po_waits p Hp Hw) as [Hne Hfs].
  rewrite queue_frames_run by done. cbn [mbind outcome_bind].
  assert (in_flight (packets s) = in_flight a + flight p + in_flight b) as Hfl by (unfold packets; rewrite El, in_flight_app; cbn; lia).
  pose proof (in_flight_nonneg a Sa). pose proof (in_flight_nonneg b Sb). pose proof (others_flight _ _ _ _ _ _ _ Hinv) as [_ F2]. pose proof (sl_flight _ _ _ _ _ _ _ Hinv).
  rewrite remove_flight; [|apply (po_length p Hp)|change (flight (p <| p_Frames := [] |>)) with (flight p); lia]. cbn [mbind outcome_bind].
  change (flight (p <| p_Frames := [] |>)) with (flight p). change (_ <| p_declaredLost := true |>) with (mark p).
  set (s' := s <| ps_history ::= _ |>). set (h1 := h <| sp_bytesInFlight := _ |>). set (h' := set_space h1 enc s').
  assert (packets s' = a ++ mark p :: b) as Es' by done. assert (shrinks (packets s) (packets s')) as Hsh by (rewrite Es'; unfold packets; rewrite El; apply shrinks_marked).
  assert (held (packets s) ≡ₚ held (packets s') ++ p_Frames p) as Hheld.
  { rewrite Es'. unfold packets. rewrite El, !held_app, <- app_assoc. f_equiv. apply Permutation_app_comm. }
  assert (getPacketNumberSpace h' enc = Some s') as Hg' by (unfold h'; by destruct enc). assert (same_others h h' enc) as Hso by (unfold h'; by destruct enc).
  assert (split_inv h' enc s' size 0) as Hinv'.
  { eapply (split_inv_change probed cb h enc s size 0 h' s' 0 (p_Frames p)); try done.
    - apply (space_inv_shrinks cb s); try done; [|by left]. change (sh_packetMap (ps_history s')) with (sh_packetMap (ps_history s)). rewrite S6, Es'. unfold packets, numbers. by rewrite El, !fmap_app.
    - rewrite Es', Hfl, in_flight_app. cbn [in_flight]. rewrite flight_mark. assert (sp_bytesInFlight h' = sp_bytesInFlight h - flight p) by (unfold h'; by destruct enc). lia.
    - unfold h'. by destruct enc. }
  exists h', true, (p_Frames p). split; [done|]. split; [|split; [unfold HasOutstandingPackets, FirstOutstanding; by rewrite E|by intros ?]].
  eapply (others_moves probed cb h h' enc s s' 0); try done; [by eapply split_inv_join| |unfold h'; by destruct enc|by rewrite app_nil_r].
  right. split_and!; try (unfold h'; by destruct enc).
  - apply needs_timer_less; try (unfold h'; by destruct enc). 
    all: unfold watches; destruct enc; cbn in *; try exact id; rewrite ?Hg; cbn; try (injection Hg as ->); rewrite !HasOutstanding_exists; by apply shrinks_outstanding.
  - unfold level_known, h'. destruct enc; cbn in *; [| |injection Hg as <-; exact id..]; rewrite Hg; intros Hl Hc; [by left; eexists|]. exact (Hl Hc).
Qed.

(** ** Keys that are dropped *)

Lemma sent_inv_drop h h0 gone : sent_inv h → space_inv_of cb (sp_initialPackets h0) → space_inv_of cb (sp_handshakePackets h0) → space_inv (sp_appDataPackets h0) →
  sp_congestion h0 = sp_congestion h → all_packets h ≡ₚ gone ++ all_packets h0 → sp_bytesInFlight h0 = sp_bytesInFlight h - in_flight gone → sent_inv h0.
Proof.
  intros [H1 H2 H3 H4 (size & Ha & H5) H6] I1 I2 I3 Hc Hp Hb. rewrite (probes_perm _ _ _ (held_perm _ _ Hp)), held_app, probes_app in H5, H6.
  rewrite (in_flight_perm _ _ Hp), in_flight_app in H4. split; try done; [lia| |rewrite length_app in H6; lia].
  exists size. rewrite Hc. split; [done|]. by apply Forall_app in H5 as [_ ?].
Qed.

Lemma sent_packets_ok h : sent_inv h → Forall packet_ok (all_packets h).
Proof.
  intros [H1 H2 H3 _ _ _]. unfold all_packets, packets_of. rewrite !Forall_app. split_and!; [|destruct (sp_handshakePackets h) as [x|]; [|done]; apply (sp_ok _ _ H2)|apply (sp_ok _ _ H3)].
  destruct (sp_initialPackets h) as [x|]; [|done]. apply (sp_ok _ _ H1).
Qed.

Lemma sublist_flight h l rest : sent_inv h → all_packets h ≡ₚ l ++ rest → in_flight l ≤ sp_bytesInFlight h.
Proof.
  intros Hinv Hp. pose proof (sent_packets_ok h Hinv) as Hok. rewrite Hp in Hok. apply Forall_app in Hok as [_ Hok].
  rewrite (se_flight _ _ _ Hinv), (in_flight_perm _ _ Hp), in_flight_app. pose proof (in_flight_nonneg rest Hok). lia.
Qed.

Lemma space_inv_suffix s a b : space_inv s → packets s = a ++ b →
  space_inv (s <| ps_history ::= λ x, x <| sh_packetList := b |> <| sh_packetMap := sh_packetMap (ps_history s) ∖ list_to_set (numbers a) |> |>).
Proof.
  intros Hs Hl. apply (space_inv_shrinks cb s); try done; [|apply (sp_acked _ _ Hs)| |by left].
  - rewrite Hl. change (packets (s <| ps_history ::= _ |>)) with b. clear. induction a as [|x a IH]; [apply shrinks_refl|by apply shrinks_drop].
  - change (sh_packetMap (ps_history s) ∖ list_to_set (numbers a) =@{gset Z} list_to_set (numbers b)). rewrite (sp_map _ _ Hs), Hl.
    pose proof (sp_increasing _ _ Hs) as Hi. rewrite Hl in Hi. unfold numbers. rewrite fmap_app. apply set_eq. intros x.
    rewrite elem_of_difference, !elem_of_list_to_set, elem_of_app. split; [tauto|]. intros Hx. split; [by right|]. intros Ha.
    apply list_elem_of_fmap in Hx as (q & -> & Hq). apply list_elem_of_fmap in Ha as (r & Hr & Hr').
    pose proof (StronglySorted_app_1_elem_of _ _ _ r q Hi Hr' Hq) as Hlt. cbn in Hlt. lia.
Qed.

(** The packets that are dropped with the keys of a level. *)
Definition dropped_packets h enc : list (Packet Fr) :=
  match enc with
  | EncryptionInitial => packets_of (sp_initialPackets h)
  | EncryptionHandshake => packets_of (sp_handshakePackets h)
  | Encryption0RTT => zero_rtt (packets (sp_appDataPackets h))
  | Encryption1RTT => []
  end.

Lemma dropPackets_run h enc s now : sent_inv h → getPacketNumberSpace h enc = Some s → enc ≠ Encryption1RTT →
  ∃ h', dropPackets h enc now = Ret h' ∧ (mode_inv h → moves h h' [] (held (dropped_packets h enc))) ∧
    sp_congestion h' = sp_congestion h ∧ (enc = EncryptionInitial → sp_handshakePackets h' = sp_handshakePackets h).
Proof.
  intros Hinv Hg Henc. unfold dropPackets. set (h1 := if bool_decide _ then _ else h).
  assert (core h1 = core h ∧ sp_congestion h1 = sp_congestion h ∧ keeps h h1 ∧
    (sp_perspective h = PerspectiveClient → enc = EncryptionHandshake → sp_peerCompletedAddressValidation h1 = true)) as (C1 & A1 & K1 & P1).
  { unfold h1. case_bool_decide as Hb; [by split_and!|]. split_and!; try done. intros E1 E2. by destruct Hb. }
  pose proof (sent_inv_core probed cb h h1 C1 A1 Hinv) as Hinv1. clearbody h1. pose proof C1 as C1'. unfold core in C1'. injection C1' as E1 E2 E3 E4.
  match goal with |- ∃ h', (?m ≫= _) = _ ∧ _ => set (drop := m) end.
  assert (∃ h2, drop = Ret h2 ∧ sent_inv h2 ∧ all_packets h1 ≡ₚ dropped_packets h enc ++ all_packets h2 ∧ keeps h1 h2 ∧
      sp_congestion h2 = sp_congestion h1 ∧ (enc = EncryptionHandshake ∨ sp_handshakePackets h2 = sp_handshakePackets h1)) as (h2 & -> & Hinv2 & Hp2 & K2 & A2 & N2).
  { unfold drop. clear drop. pose proof Hinv1 as [H1 H2 H3 _ _ _]. pose proof (sent_packets_ok h1 Hinv1) as Hok. destruct enc; cbn [dropped_packets]; [| | |done].
    - cbn in Hg. rewrite <- E1 in Hg |- *. unfold space. cbn [getPacketNumberSpace]. rewrite Hg in H1 |- *. cbn [mbind outcome_bind].
      assert (all_packets h1 ≡ₚ packets s ++ packets_of (sp_handshakePackets h1) ++ packets (sp_appDataPackets h1)) as Hp by (unfold all_packets; by rewrite Hg).
      pose proof (sublist_flight h1 _ _ Hinv1 Hp) as Hf.
      destruct (iterate_drop h1 (packets s) (sp_ok _ _ H1) Hf) as [l' El]. unfold packets in El at 1. rewrite El. cbn [mbind outcome_bind].
      eexists. split; [reflexivity|]. split; [|split_and!; [exact Hp|done|done|by right]].
      by apply (sent_inv_drop h1 _ (packets s)).
    - cbn in Hg. rewrite <- E2 in Hg |- *. unfold space. cbn [getPacketNumberSpace]. rewrite Hg in H2 |- *. cbn [mbind outcome_bind].
      assert (all_packets h1 ≡ₚ packets s ++ packets_of (sp_initialPackets h1) ++ packets (sp_appDataPackets h1)) as Hp by (unfold all_packets; rewrite Hg; by rewrite Permutation_app_swap_app).
      pose proof (sublist_flight h1 _ _ Hinv1 Hp) as Hf.
      destruct (iterate_drop h1 (packets s) (sp_ok _ _ H2) Hf) as [l' El]. unfold packets in El at 1. rewrite El. cbn [mbind outcome_bind].
      eexists. split; [reflexivity|]. split; [|split_and!; [exact Hp|done|done|by left]].
      by apply (sent_inv_drop h1 _ (packets s)).
    - rewrite <- E3. assert (∃ rest, all_packets h1 ≡ₚ packets (sp_appDataPackets h1) ++ rest) as [rest Hp].
      { eexists. unfold all_packets. rewrite app_assoc. apply Permutation_app_comm. }
      pose proof (sublist_flight h1 _ _ Hinv1 Hp) as Hf.
      destruct (iterate_0rtt (packets (sp_appDataPackets h1)) h1 (sh_packetMap (ps_history (sp_appDataPackets h1))) (sp_ok _ _ H3) Hf) as (b & Eb & El).
      unfold packets in El at 1. rewrite El. cbn [mbind outcome_bind]. eexists. split; [reflexivity|].
      match goal with |- sent_inv ?x ∧ _ => set (h2 := x) end. set (a := zero_rtt _) in *.
      assert (all_packets h1 ≡ₚ a ++ all_packets h2) as Hp2.
      { unfold all_packets. change (packets (sp_appDataPackets h2)) with b. rewrite Eb. change (sp_initialPackets h2) with (sp_initialPackets h1).
        change (sp_handshakePackets h2) with (sp_handshakePackets h1). by rewrite (Permutation_app_swap_app _ a b), (Permutation_app_swap_app _ a). }
      split; [|split_and!; [exact Hp2|done|done|by right]]. apply (sent_inv_drop h1 _ a); try done. by apply space_inv_suffix. }
  cbn [mbind outcome_bind]. eexists. split; [reflexivity|]. match goal with |- context [setLossDetectionTimer ?x now] => destruct (timer_alarm x now) as [al Eal] end.
  split; [intros Hm|split; [rewrite Eal; cbn; congruence|intros ->; rewrite Eal; cbn; destruct N2; [done|congruence]]]. clear al Eal.
  apply moves_timer; [by apply (sent_inv_core probed cb h2)|by eapply keeps_trans| |].
  - cbn. intros Hn. destruct K2 as [K2 K2']. destruct K1 as [K1 K1']. destruct N2 as [->|N2]; [|left; congruence]. right. apply K2'.
    destruct (sp_perspective h) eqn:Ep; [|by apply P1]. apply K1', Hm. by left.
  - change (all_packets (h2 <| sp_ptoCount := 0 |> <| sp_numProbesToSend := 0 |> <| sp_ptoMode := SendNone |>)) with (all_packets h2).
    assert (all_packets h = all_packets h1) as -> by (unfold all_packets; by rewrite E1, E2, E3). rewrite (held_perm _ _ Hp2), held_app. apply Permutation_app_comm.
Qed.

(** ** Packet numbers *)

Lemma pns_Pop_spec g r : (pns_Pop g r).2 = pns_Peek g ∧ pns_Peek g < pns_Peek (pns_Pop g r).1.
Proof. destruct g as [next|period mx next skip]; cbn; [lia|]. destruct (_ =? skip); cbn; lia. Qed.

Lemma PopPacketNumber_run h enc s r : sent_inv h → getPacketNumberSpace h enc = Some s →
  let s' := s <| ps_pns := (pns_Pop (ps_pns s) r).1 |> in
  PopPacketNumber h enc r = Ret (set_space h enc s', pns_Peek (ps_pns s)) ∧ moves h (set_space h enc s') [] [].
Proof.
  intros Hinv Hg s'. unfold PopPacketNumber. rewrite (proj2 (space_get h enc s) Hg). cbn [mbind outcome_bind]. destruct (pns_Pop_spec (ps_pns s) r) as [P1 P2].
  rewrite (surjective_pairing (pns_Pop (ps_pns s) r)), P1. split; [done|].
  destruct (split_inv_of probed cb h enc s Hinv Hg) as [size Hs]. set (s2 := s').
  assert (split_inv (set_space h enc s2) enc s2 size 0) as Hs2.
  { eapply (split_inv_change probed cb h enc s size 0 _ s2 0 []); try done; try (by destruct enc).
    - destruct (sl_space _ _ _ _ _ _ _ Hs). split; try done. unfold s2, s'. cbn [ps_pns ps_history update]. lia.
    - by rewrite app_nil_r.
    - destruct enc; apply (sl_alg _ _ _ _ _ _ _ Hs). }
  eapply (others_moves probed cb h _ enc s s2 0); try done; [by eapply split_inv_join| |by destruct enc..]. right. rewrite (needs_timer_set h enc s s2 Hg) by done.
  split_and!; [done|by destruct enc..|]. unfold level_known. destruct enc; cbn in *; [| |injection Hg as <-; exact id..]; rewrite Hg; intros Hl Hc; [by left; eexists|]. exact (Hl Hc).
Qed.

(** ** A packet that is sent *)

Definition skips p (from to : Z) : list (Packet Fr) := skipped p <$> seqZ from (to - from).

Lemma push_skipped p (ns : list Z) : ∀ x : sentPacketHistory Fr,
  fold_left (λ y pn, history_PushBack y (skipped p pn)) ns x =
  x <| sh_packetList ::= λ l, l ++ (skipped p <$> ns) |> <| sh_packetMap ::= λ m, list_to_set ns ∪ m |>.
Proof.
  induction ns as [|n ns IH]; intros x; cbn [fold_left].
  - destruct x as [l m hi]. cbn. by rewrite app_nil_r, union_empty_l_L.
  - rewrite IH. destruct x as [l m hi]. cbn. f_equal; [by rewrite <- app_assoc|]. apply set_eq. intros y. rewrite !elem_of_union, elem_of_singleton. tauto.
Qed.

Lemma skips_in p a b q : q ∈ skips p a b ↔ ∃ n, q = skipped p n ∧ a ≤ n < b.
Proof. unfold skips. rewrite list_elem_of_fmap. split; intros (n & -> & Hn); exists n; rewrite elem_of_seqZ in *; (split; [done|lia]). Qed.

Lemma increasing_seq p (a : Z) (n : nat) : increasing (skipped p <$> seqZ a (Z.of_nat n)).
Proof.
  revert a. induction n as [|n IH]; intros a; [constructor|]. rewrite seqZ_cons by lia. rewrite fmap_cons. replace (Z.pred (Z.of_nat (S n))) with (Z.of_nat n) by lia.
  constructor; [apply IH|]. apply Forall_forall. intros q (m & -> & Hm)%list_elem_of_fmap. apply elem_of_seqZ in Hm. cbn. lia.
Qed.

Lemma increasing_skips p a b : increasing (skips p a b).
Proof.
  unfold skips. destruct (decide (0 ≤ b - a)) as [Hd|]; [rewrite <- (Z2Nat.id (b - a)) by lia; apply increasing_seq|].
  rewrite seqZ_nil by lia. constructor.
Qed.

Lemma increasing_app l1 l2 : increasing l1 → increasing l2 → (∀ p q, p ∈ l1 → q ∈ l2 → p_PacketNumber p < p_PacketNumber q) → increasing (l1 ++ l2).
Proof. intros H1 H2 H. unfold increasing. by apply StronglySorted_app. Qed.

Lemma held_skips p a b : held (skips p a b) = [].
Proof. unfold held, skips. induction (seqZ a (b - a)); [done|]. by cbn. Qed.

Lemma in_flight_skips p a b : in_flight (skips p a b) = 0.
Proof. unfold skips. induction (seqZ a (b - a)) as [|n ns IH]; [done|]. cbn. unfold flight. cbn. exact IH. Qed.

Lemma numbers_skips p a b : numbers (skips p a b) = seqZ a (b - a).
Proof. unfold numbers, skips. rewrite <- list_fmap_compose. induction (seqZ a (b - a)) as [|n ns IH]; [done|]. cbn. by f_equal. Qed.

(** A packet as it is given to [SentPacket]. *)
Record fresh_packet p : Prop := {
  fp_length : 0 ≤ p_Length p;
  fp_time : 0 < p_SendTime p;
  fp_frames : Forall (λ f, fr_OnLost f = true ∧ frame_ok cb f) (p_Frames p);
  fp_flags : p_declaredLost p = false ∧ p_skippedPacket p = false ∧ p_includedInBytesInFlight p = false;
}.

(** The space after the packet [p]. *)
Definition eliciting p : bool := 0 <? zlen (p_Frames p).
Definition pushed s p : list (Packet Fr) :=
  skips p (sh_highestSent (ps_history s) + 1) (p_PacketNumber p) ++ (if eliciting p then [p <| p_includedInBytesInFlight := true |>] else []).
Definition space_sent s p : packetNumberSpace Fr :=
  s <| ps_largestSent := p_PacketNumber p |>
    <| ps_lastAckElicitingPacketTime ::= λ t, if eliciting p then p_SendTime p else t |>
    <| ps_history := mk_sent_history (packets s ++ pushed s p) (list_to_set (numbers (packets s ++ pushed s p))) (p_PacketNumber p) |>.


Lemma pushed_in s p q : q ∈ pushed s p →
  (∃ n, q = skipped p n ∧ sh_highestSent (ps_history s) < n < p_PacketNumber p) ∨ q = p <| p_includedInBytesInFlight := true |> ∧ eliciting p = true.
Proof.
  unfold pushed. intros [Hq|Hq]%elem_of_app.
  - apply skips_in in Hq as (n & -> & Hn). left. exists n. split; [done|lia].
  - destruct (eliciting p); [|by apply not_elem_of_nil in Hq]. apply list_elem_of_singleton in Hq as ->. by right.
Qed.

Lemma history_SentPacket_run s p : space_inv s → sh_highestSent (ps_history s) < p_PacketNumber p →
  history_SentPacket (ps_history s) (if eliciting p then p <| p_includedInBytesInFlight := true |> else p) (eliciting p) = Ret (ps_history (space_sent s p)).
Proof.
  intros Hs Hpn. unfold history_SentPacket. set (p' := if eliciting p then _ else p).
  assert (p_PacketNumber p' = p_PacketNumber p ∧ ∀ n, skipped p' n = skipped p n) as [E1 E2] by (unfold p'; by destruct (eliciting p)).
  rewrite E1, (proj2 (Z.leb_gt _ _)) by lia. rewrite push_skipped. f_equal. pose proof (sp_map _ _ Hs) as Hm. unfold space_sent, pushed, packets, numbers, skips in *.
  destruct (ps_history s) as [l m hi]. cbn in *. rewrite Hm. clear Hm Hs. rewrite (list_fmap_ext _ (skipped p)) by done.
  rewrite !fmap_app, <- list_fmap_compose, (list_fmap_ext (p_PacketNumber ∘ skipped p) id) by done. rewrite list_fmap_id.
  unfold p', history_PushBack. destruct (eliciting p); cbn; (match goal with |- mk_sent_history ?a ?b _ = mk_sent_history ?a' ?b' _ => assert (a = a') as ->; [|assert (b = b') as ->; [|done]] end).
  1: by rewrite <- app_assoc. 2: by rewrite app_nil_r.
  1,2: apply set_eq; intros y; rewrite ?elem_of_union, !elem_of_list_to_set, ?elem_of_singleton, !elem_of_app, ?list_elem_of_singleton, ?elem_of_nil; tauto.
Qed.

Lemma pushed_ok s p : fresh_packet p → Forall packet_ok (pushed s p).
Proof.
  intros [F1 F2 F3 (F4 & F5 & F6)]. apply Forall_forall. intros q [(n & -> & _)|[-> He]]%pushed_in; [by split|].
  unfold eliciting in He. split; unfold waits; cbn; rewrite ?F4, ?F5; try done. intros _. split.
  - intros E. by rewrite E in He.
  - eapply Forall_impl; [exact F3|]. by intros f [? _].
Qed.

Lemma held_pushed s p : held (pushed s p) = p_Frames p.
Proof.
  unfold pushed. rewrite held_app, held_skips. unfold eliciting. destruct (0 <? zlen (p_Frames p)) eqn:E; cbn; [by rewrite app_nil_r|].
  symmetry. apply zlen_0_inv. pose proof (zlen_nonneg (p_Frames p)). lia.
Qed.

Lemma in_flight_pushed s p : in_flight (pushed s p) = if eliciting p then p_Length p else 0.
Proof. unfold pushed. rewrite in_flight_app, in_flight_skips. destruct (eliciting p); cbn; [|done]. unfold flight. cbn. lia. Qed.

Lemma space_sent_inv s p : space_inv s → fresh_packet p → sh_highestSent (ps_history s) < p_PacketNumber p < pns_Peek (ps_pns s) → space_inv (space_sent s p).
Proof.
  intros Hs Hf Hpn. pose proof Hs as [S1 S2 S3 S4 S5 S6 S7 S8 S9 S10 S11 S12]. pose proof Hf as [F1 F2 F3 (F4 & F5 & F6)].
  assert (packets (space_sent s p) = packets s ++ pushed s p) as E by done.
  assert (0 < ps_lastAckElicitingPacketTime s → 0 < ps_lastAckElicitingPacketTime (space_sent s p)) as Hlast by (unfold space_sent; cbn; destruct (eliciting p); lia).
  split; rewrite ?E; try done.
  - apply Forall_app. split; [done|by apply pushed_ok].
  - rewrite held_app, held_pushed. apply Forall_app. split; [done|]. eapply Forall_impl; [exact F3|]. by intros f [_ ?].
  - rewrite Forall_forall in S4. apply increasing_app; [done| |].
    + unfold pushed. apply increasing_app; [apply increasing_skips|destruct (eliciting p); repeat constructor|].
      intros x y (n & -> & Hn)%skips_in Hy. destruct (eliciting p); [|by apply not_elem_of_nil in Hy]. apply list_elem_of_singleton in Hy as ->. cbn. lia.
    + intros x y Hx%S4 [(n & -> & Hn)|[-> _]]%pushed_in; cbn in *; lia.
  - apply Forall_app. split; [eapply Forall_impl; [exact S4|]; cbn; lia|]. apply Forall_forall. intros q [(n & -> & Hn)|[-> _]]%pushed_in; cbn; lia.
  - cbn. lia.
  - apply Forall_app. split; [done|]. apply Forall_forall. by intros q [(n & -> & Hn)|[-> _]]%pushed_in.
  - unfold space_sent. cbn. destruct (eliciting p); lia.
  - intros [He|He]%Exists_app; [auto|]. apply Exists_exists in He as (q & [(n & -> & _)|[-> He]]%pushed_in & Hw); [done|]. unfold space_sent. cbn. by rewrite He.
  - cbn [space_sent ps_lossTime update]. auto.
  - cbn. lia.
Qed.

(** When a packet may be sent: its space is there, and at most one path MTU probe is under way, for
    datagrams that are not smaller than now. *)
Record sendable h p : Prop := {
  sd_space : is_Some (getPacketNumberSpace h (p_EncryptionLevel p));
  sd_fresh : fresh_packet p;
  sd_probe : (length (probes probed (p_Frames p) ++ probes probed (held (all_packets h))) ≤ 1)%nat;
  sd_size : probes probed (p_Frames p) ≠ [] →
    ∃ size, alg_ok size (sp_congestion h) ∧ Forall (λ x, size ≤ x ≤ 2 ^ 16) (probes probed (p_Frames p));
}.

(** A space that takes the frames [fs] in. *)
Lemma split_inv_add h enc s fs h' s' (f : C → C) : sent_inv h → getPacketNumberSpace h enc = Some s → (∀ size c, alg_ok size c → alg_ok size (f c)) →
  (length (probes probed fs ++ probes probed (held (all_packets h))) ≤ 1)%nat →
  (probes probed fs ≠ [] → ∃ size, alg_ok size (sp_congestion h) ∧ Forall (λ x, size ≤ x ≤ 2 ^ 16) (probes probed fs)) →
  getPacketNumberSpace h' enc = Some s' → same_others h h' enc → space_inv s' → held (packets s') = held (packets s) ++ fs →
  sp_bytesInFlight h' - in_flight (packets s') = sp_bytesInFlight h - in_flight (packets s) → sp_congestion h' = f (sp_congestion h) → sent_inv h'.
Proof.
  intros Hinv Hg Hf Hn Hs Hg' Ho Hi Hh Hb Hc. destruct (split_inv_of probed cb h enc s Hinv Hg) as [size [H0 H1 H2 H3 H4 H5 H6 H7]].
  rewrite (probes_perm _ _ _ (held_perm _ _ (all_packets_get h enc s Hg))), held_app, probes_app, length_app in Hn.
  assert (∃ size', alg_ok size' (sp_congestion h) ∧ Forall (λ x, size' ≤ x ≤ 2 ^ 16) (probes probed fs) ∧ Forall (λ x, size' ≤ x ≤ 2 ^ 16) (probes probed (held (packets s)) ++ probes probed (held (other_packets h enc))))
    as (size' & Ha & Hs1 & Hs2).
  { destruct (probes probed fs) as [|x l] eqn:E; [by exists size|]. destruct (Hs ltac:(done)) as (size' & Ha & Hx). exists size'. split_and!; [done|done|].
    destruct (probes probed (held (packets s)) ++ _); [done|cbn in Hn; lia]. }
  pose proof (same_others_packets _ _ _ Ho) as Hop. apply Forall_app in Hs2 as [Hs2 Hs3].
  eapply (split_inv_join probed cb h' enc s' size'). split; rewrite ?Hop; try done; [by eapply same_others_inv|lia|rewrite Hc; auto| |];
    rewrite Hh, probes_app; [rewrite !Forall_app; auto|rewrite !length_app in *; lia].
Qed.

Lemma sent_core h s now p : sent_inv h → getPacketNumberSpace h (p_EncryptionLevel p) = Some s → sendable h p →
  sh_highestSent (ps_history s) < p_PacketNumber p < pns_Peek (ps_pns s) →
  ∃ h', ('(h, p, isAckEliciting) ← sentPacketImpl h p;
     s ← space h (p_EncryptionLevel p);
     history ← history_SentPacket (ps_history s) p isAckEliciting;
     let h := set_space h (p_EncryptionLevel p) (s <| ps_history := history |>) in
     Ret (if isAckEliciting || negb (sp_peerCompletedAddressValidation h) then setLossDetectionTimer h now else h)) = Ret h' ∧ moves h h' (p_Frames p) [].
Proof.
  intros Hinv Hg [_ Hf Hn Hsz] Hpn. set (enc := p_EncryptionLevel p) in *. unfold sentPacketImpl. fold enc. rewrite (proj2 (space_get h enc s) Hg). cbn [mbind outcome_bind].
  fold (eliciting p). destruct (split_inv_of probed cb h enc s Hinv Hg) as [size Hsp]. pose proof (sl_space _ _ _ _ _ _ _ Hsp) as Hs.
  pose proof (history_SentPacket_run s p Hs ltac:(lia)) as Hh. set (s' := space_sent s p).
  set (f := λ c : C, OnPacketSent c (sp_rttStats h) (p_SendTime p) (sp_bytesInFlight h + if eliciting p then p_Length p else 0) (p_PacketNumber p) (p_Length p) (eliciting p)).
  set (h2 := set_space (h <| sp_bytesInFlight ::= λ b, b + if eliciting p then p_Length p else 0 |>
    <| sp_numProbesToSend ::= λ n, if eliciting p && (0 <? n) then n - 1 else n |> <| sp_congestion ::= f |>) enc s').
  assert (getPacketNumberSpace h2 enc = Some s') as Hg2 by (by destruct enc). assert (same_others h h2 enc) as Ho by (by destruct enc).
  assert (held (packets s') = held (packets s) ++ p_Frames p) as Hheld by (change (packets s') with (packets s ++ pushed s p); by rewrite held_app, held_pushed).
  assert (sent_inv h2) as Hinv2.
  { apply (split_inv_add h enc s (p_Frames p) h2 s' f); try done; [intros; by apply alg_sent|by apply space_sent_inv| |by destruct enc].
    change (packets s') with (packets s ++ pushed s p). rewrite in_flight_app, in_flight_pushed.
    assert (sp_bytesInFlight h2 = sp_bytesInFlight h + if eliciting p then p_Length p else 0) as -> by (by destruct enc). lia. }
  exists (if eliciting p || negb (sp_peerCompletedAddressValidation h2) then setLossDetectionTimer h2 now else h2). split.
  { destruct (eliciting p) eqn:Ee; cbn [mbind outcome_bind]; change (p_EncryptionLevel (p <| p_includedInBytesInFlight := true |>)) with enc; fold enc.
    all: rewrite (proj2 (space_get _ enc ((space_sent s p) <| ps_history := ps_history s |>))) by (unfold space_sent; rewrite Ee; by destruct enc); cbn [mbind outcome_bind].
    all: change (ps_history ((space_sent s p) <| ps_history := ps_history s |>)) with (ps_history s); rewrite Hh; cbn [mbind outcome_bind].
    all: match goal with |- context [negb (sp_peerCompletedAddressValidation ?x)] => assert (x = h2) as ->; [|done] end.
    all: unfold h2, f, s'; clear -Ee; unfold space_sent; rewrite Ee; destruct h, enc; cbn; rewrite ?Z.add_0_r; reflexivity. }
  assert (keeps h h2) as Hk by (by destruct enc).
  assert (held (packets s) ++ p_Frames p ≡ₚ held (packets s') ++ []) as Hp by (by rewrite Hheld, app_nil_r).
  destruct (_ || _) eqn:Eb.
  - destruct (timer_alarm h2 now) as [a Ea]. eapply (others_moves probed cb h _ enc s s' now); try done; rewrite ?Ea; try done; [by apply sent_inv_alarm|left; by exists h2; rewrite Ea|by destruct enc..].
  - eapply (others_moves probed cb h _ enc s s' now); try done. right. apply orb_false_iff in Eb as [Ee _].
    assert (packets s' = packets s ++ skips p (sh_highestSent (ps_history s) + 1) (p_PacketNumber p)) as Es'.
    { change (packets s') with (packets s ++ pushed s p). unfold pushed. by rewrite Ee, app_nil_r. }
    split_and!; [|by destruct enc..|].
    + assert (HasOutstandingPackets (ps_history s') = true → HasOutstandingPackets (ps_history s) = true) as Hw.
      { rewrite !HasOutstanding_exists. change (sh_packetList (ps_history s')) with (packets s'). rewrite Es'. intros [He|He]%Exists_app; [done|].
        apply Exists_exists in He as (q & (n & -> & _)%skips_in & Hq). done. }
      apply needs_timer_less; try (by destruct enc). all: unfold watches; destruct enc; cbn in *; try exact id; rewrite ?Hg; cbn; try (injection Hg as ->); exact Hw.
    + assert (ps_lastAckElicitingPacketTime s' = ps_lastAckElicitingPacketTime s) as El by (unfold s', space_sent; cbn; by rewrite Ee).
      unfold level_known, h2. destruct enc; cbn in *; rewrite ?El; [rewrite Hg|rewrite Hg|injection Hg as <-; exact id..]; intros Hl Hc; [by left; eexists|]. exact (Hl Hc).
Qed.

(** The client gives up its Initial packets when it sends its first Handshake packet. *)
Definition gives_up h enc : list (Packet Fr) :=
  if bool_decide (sp_perspective h = PerspectiveClient ∧ enc = EncryptionHandshake) then packets_of (sp_initialPackets h) else [].

Lemma SentPacket_run h s p now : sent_inv h → mode_inv h → getPacketNumberSpace h (p_EncryptionLevel p) = Some s → sendable h p →
  sh_highestSent (ps_history s) < p_PacketNumber p < pns_Peek (ps_pns s) →
  ∃ h', SentPacket h p now = Ret h' ∧ moves h h' (p_Frames p) (held (gives_up h (p_EncryptionLevel p))).
Proof.
  intros Hinv Hm Hg Hsd Hpn. unfold SentPacket. set (h0 := h <| sp_bytesSent ::= _ |>).
  assert (moves h h0 [] []) as M0.
  { apply moves_same; try done. pose proof (fp_length _ (sd_fresh _ _ Hsd)). intros Ht. eapply (retimed_inv probed cb h h0 now); [right|by apply (sent_inv_core probed cb h)|done].
    split_and!; try done. apply needs_timer_less; [exact id|exact id|exact id|done|].
    unfold isAmplificationLimited, h0. cbn. destruct (sp_peerAddressValidated h); [done|]. intros Hl%Z.leb_le. apply Z.leb_le. lia. }
  assert (∃ h1, (if bool_decide (sp_perspective h0 = PerspectiveClient ∧ p_EncryptionLevel p = EncryptionHandshake ∧ is_Some (sp_initialPackets h0))
       then dropPackets h0 EncryptionInitial now else Ret h0) = Ret h1 ∧ moves h0 h1 [] (held (gives_up h (p_EncryptionLevel p))) ∧
     sp_congestion h1 = sp_congestion h ∧ getPacketNumberSpace h1 (p_EncryptionLevel p) = Some s) as (h1 & -> & M1 & A1 & Hg1).
  { case_bool_decide as Hb.
    - destruct Hb as (Hp & He & [si Hsi]). destruct (dropPackets_run h0 EncryptionInitial si now (mv_inv _ _ _ _ _ _ M0) Hsi ltac:(done)) as (h1 & -> & M1 & A1 & Hh).
      exists h1. split; [done|]. split; [|split; [done|]].
      + unfold gives_up. rewrite bool_decide_true by done. by apply M1, M0.
      + rewrite He in Hg |- *. cbn in *. by rewrite Hh.
    - exists h0. split; [done|]. split; [|split; [done|by destruct (p_EncryptionLevel p)]].
      unfold gives_up. case_bool_decide as Hb'; [|apply moves_refl, M0]. destruct Hb' as [Hp He]. change (sp_initialPackets h) with (sp_initialPackets h0).
      destruct (sp_initialPackets h0) eqn:Ei; [|apply moves_refl, M0]. exfalso. by apply Hb. }
  cbn [mbind outcome_bind]. assert (sendable h1 p) as Hsd1.
  { destruct Hsd as [_ Hf Hn Hsz]. split; [by eexists|done| |by rewrite A1]. pose proof (mv_held _ _ _ _ _ _ M1) as Hp. rewrite app_nil_r in Hp. 
    change (all_packets h0) with (all_packets h) in Hp. rewrite (probes_perm _ _ _ Hp), probes_app, !length_app in Hn. rewrite length_app. lia. }
  destruct (sent_core h1 s now p (mv_inv _ _ _ _ _ _ M1) Hg1 Hsd1 Hpn) as (h' & E & M2). exists h'. split; [exact E|].
  pose proof (moves_trans _ _ _ _ _ _ _ _ _ M0 (moves_trans _ _ _ _ _ _ _ _ _ M1 M2)) as M. by rewrite app_nil_r in M.
Qed.

(** A packet takes the next packet number ([PopPacketNumber]) and is sent. *)
Definition send_packet h p (r now : Z) : outcome (sentPacketHandler Fr C) :=
  '(h, pn) ← PopPacketNumber h (p_EncryptionLevel p) r; SentPacket h (p <| p_PacketNumber := pn |>) now.

Lemma send_packet_run h p r now : sent_inv h → mode_inv h → sendable h p →
  ∃ h', send_packet h p r now = Ret h' ∧ moves h h' (p_Frames p) (held (gives_up h (p_EncryptionLevel p))).
Proof.
  intros Hinv Hm Hsd. pose proof (sd_space _ _ Hsd) as [s Hg]. destruct (PopPacketNumber_run h _ s r Hinv Hg) as [Hpop M1]. unfold send_packet. rewrite Hpop.
  cbn [mbind outcome_bind]. set (s1 := s <| ps_pns := _ |>) in *. set (h1 := set_space h _ s1) in *. set (p1 := p <| p_PacketNumber := _ |>).
  assert (getPacketNumberSpace h1 (p_EncryptionLevel p1) = Some s1) as Hg1 by (unfold h1, p1; cbn [p_EncryptionLevel update]; by destruct (p_EncryptionLevel p)).
  assert (sendable h1 p1) as Hsd1.
  { destruct Hsd as [_ Hf Hn Hsz]. split; [by eexists|by destruct Hf| |].
    - pose proof (mv_held _ _ _ _ _ _ M1) as Hp. rewrite !app_nil_r in Hp. by rewrite length_app, <- (probes_perm _ _ _ Hp), <- length_app.
    - unfold h1. destruct (p_EncryptionLevel p); exact Hsz. }
  destruct (split_inv_of probed cb h _ s Hinv Hg) as [size Hs]. pose proof (sp_next _ _ (sl_space _ _ _ _ _ _ _ Hs)). destruct (pns_Pop_spec (ps_pns s) r) as [_ P2].
  destruct (SentPacket_run h1 s1 p1 now (mv_inv _ _ _ _ _ _ M1) (mv_mode _ _ _ _ _ _ M1 Hm) Hg1 Hsd1) as (h' & E & M2).
  { unfold s1, p1. cbn [p_PacketNumber ps_history ps_pns update]. lia. }
  exists h'. split; [exact E|]. pose proof (moves_trans _ _ _ _ _ _ _ _ _ M1 M2) as M. cbn [app] in M.
  assert (held (gives_up h1 (p_EncryptionLevel p1)) = held (gives_up h (p_EncryptionLevel p))) as <-; [|exact M].
  unfold gives_up, h1, p1. cbn [p_EncryptionLevel update]. destruct (p_EncryptionLevel p); try done; by rewrite !bool_decide_false by (by intros [_ ?]).
Qed.

(** ** The timer fires *)

Lemma loss_space h t enc : getLossTimeAndSpace h = (t, enc) → t ≠ 0 → is_Some (getPacketNumberSpace h enc).
Proof.
  unfold getLossTimeAndSpace, before_or_zero. destruct (sp_initialPackets h) as [si|] eqn:Ei, (sp_handshakePackets h) as [sh|] eqn:Eh; cbn;
    repeat case_match; intros [= <- <-]; cbn; rewrite ?Ei, ?Eh; done.
Qed.

Lemma pto_space h now t e : sent_inv h → mode_inv h → level_known h → getPTOTimeAndSpace h now = Some (t, e) →
  ∃ lv, e = Some lv ∧ is_Some (getPacketNumberSpace h lv) ∧ lv ≠ Encryption0RTT.
Proof.
  intros [H1 H2 H3 _ _ _] Hm Hl. unfold getPTOTimeAndSpace. destruct (_ && _) eqn:Ec.
  - destruct (sp_peerCompletedAddressValidation h) eqn:Ep; [done|]. unfold mode_inv in Hm. rewrite Ep in Hm.
    destruct (sp_initialPackets h) as [si|] eqn:Ei; intros [= <- <-]; eexists; (split; [done|]); cbn; rewrite ?Ei; [done|]. split; [|done].
    destruct (sp_handshakePackets h); [done|]. by discriminate Hm; right.
  - set (best1 := match sp_initialPackets h with Some s => _ | None => _ end). set (best2 := match sp_handshakePackets h with Some s => _ | None => _ end).
    assert (∀ lv, best1.2 = Some lv → is_Some (getPacketNumberSpace h lv) ∧ lv ≠ Encryption0RTT) as B1.
    { intros lv. unfold best1. destruct (sp_initialPackets h) as [si|] eqn:Ei; cbn [snd]; [|done]. intros [= <-]. cbn. by rewrite Ei. }
    assert (∀ lv, best2.2 = Some lv → is_Some (getPacketNumberSpace h lv) ∧ lv ≠ Encryption0RTT) as B2.
    { intros lv. unfold best2. destruct (sp_handshakePackets h) as [sh|] eqn:Eh; [|apply B1]. destruct (_ =? 0); [apply B1|]. destruct (before_or_zero _ _); [|apply B1].
      intros [= <-]. cbn. by rewrite Eh. }
    assert (best2.2 = None → sp_initialPackets h = None ∧ ¬ last_set (sp_handshakePackets h) ∧ best2.1 = 0) as N2.
    { unfold best2, best1, before_or_zero. destruct (sp_initialPackets h), (sp_handshakePackets h) as [sh|]; cbn; [|done| |intros _; split_and!; [done|by intros []|done]].
      - destruct (ps_lastAckElicitingPacketTime sh =? 0); [done|]. by destruct (_ || _).
      - destruct (ps_lastAckElicitingPacketTime sh =? 0) eqn:El; [|done]. cbn. intros _. split_and!; [done|lia|done]. }
    clearbody best2. clear best1 B1.
    assert (best2.2 = None → sp_handshakeConfirmed h = true ∧ ps_lastAckElicitingPacketTime (sp_appDataPackets h) ≠ 0 ∧ best2.1 = 0) as Hd.
    { intros (Ei & Eh & ?)%N2. assert (sp_handshakeConfirmed h = true) as Hcf.
      { destruct (sp_handshakeConfirmed h); [done|]. cbn in Ec. apply negb_false_iff in Ec. unfold hasOutstandingCryptoPackets in Ec. rewrite Ei in Ec. cbn in Ec.
        destruct (sp_handshakePackets h) as [sh|] eqn:E; [|done]. cbn in *. exfalso. apply Eh. intros E0.
        destruct (HasOutstandingPackets (ps_history sh)) eqn:Eo; [|done]. pose proof (outstanding_last cb sh H2 Eo). lia. }
      split_and!; [done| |done]. destruct (Hl Hcf) as [[? Hx]|[Hx|Hx]]; [congruence|done|exact Hx]. }
    destruct (sp_handshakeConfirmed h && _) eqn:Eb; [destruct (before_or_zero _ best2.1) eqn:Ez|]; intros [= E].
    + subst. eexists. split; [done|]. by cbn.
    + destruct best2 as [tb [lv|]]; [injection E as <- <-; eexists; split; [done|by apply B2]|]. destruct (Hd eq_refl) as (_ & _ & E0). cbn in E0. by rewrite E0 in Ez.
    + destruct best2 as [tb [lv|]]; [injection E as <- <-; eexists; split; [done|by apply B2]|]. destruct (Hd eq_refl) as (E1 & E2 & E0). rewrite E1 in Eb. cbn in Eb. lia.
Qed.

(** The timer fires: packets are declared lost or probes asked for; there is always a space to do it in. *)
Lemma OnLossDetectionTimeout_run fe h now r : sent_inv h → mode_inv h → timer_inv h → sp_alarm h ≠ 0 →
  ∃ h' fs, OnLossDetectionTimeout fe h now r = Ret (h', FrameLost_of fs, None) ∧ moves h h' [] fs.
Proof.
  intros Hinv Hm [_ Hk] Ha. specialize (Hk Ha). unfold OnLossDetectionTimeout, loss_timeout. destruct (getLossTimeAndSpace h) as [lt le] eqn:El.
  destruct (lt =? 0) eqn:Et; cbn [negb].
  2: { destruct (loss_space h lt le El ltac:(lia)) as [s Hg]. destruct (split_inv_of probed cb h le s Hinv Hg) as [size Hs].
    destruct (detectLost_run probed cb fe h le s size 0 now Hs) as (h1 & s1 & lost & -> & Hs1 & Hheld & Ho & Hmo & _ & _). cbn [mbind outcome_bind].
    destruct (timer_alarm h1 now) as [a Ea]. exists (setLossDetectionTimer h1 now), (held lost). split; [done|].
    pose proof (split_inv_join _ _ _ _ _ _ Hs1) as Hinv1.
    apply (others_moves probed cb h _ le s s1 now); [rewrite Ea; by apply sent_inv_alarm|left; by eexists|done|rewrite Ea| |rewrite Ea|by rewrite app_nil_r].
    - destruct le; apply (sl_get _ _ _ _ _ _ _ Hs1).
    - rewrite Ea. by destruct le.
    - by apply (mode_keeps h h1). }
  assert (∀ n m md, moves h (setLossDetectionTimer (h <| sp_ptoCount := n |> <| sp_numProbesToSend := m |> <| sp_ptoMode := md |>) now) [] []) as Hmode.
  { intros n m md. apply moves_timer; [by apply (sent_inv_core probed cb h)|done|by left|by rewrite app_nil_r]. }
  destruct (_ && negb _) eqn:Ep.
  { apply andb_true_iff in Ep as [_ Ep%negb_true_iff]. unfold mode_inv in Hm. rewrite Ep in Hm. set (h1 := h <| sp_ptoCount ::= _ |> <| sp_numProbesToSend ::= _ |>).
    change (sp_initialPackets h1) with (sp_initialPackets h). change (sp_handshakePackets h1) with (sp_handshakePackets h).
    destruct (sp_initialPackets h); [|destruct (sp_handshakePackets h); [|by discriminate Hm; right]]; cbn [mbind outcome_bind]; eexists _, []; (split; [reflexivity|]);
      exact (Hmode (u32 (sp_ptoCount h + 1)) (sp_numProbesToSend h + 1) _). }
  destruct (getPTOTimeAndSpace h now) as [[t e]|] eqn:Epto.
  2: { cbn [mbind outcome_bind]. eexists _, []. split; [reflexivity|]. apply moves_timer; [done|done|by left|by rewrite app_nil_r]. }
  destruct (pto_space h now t e Hinv Hm Hk Epto) as (lv & -> & [s Hg] & Hlv). rewrite (proj2 (space_get h lv s) Hg). cbn [mbind outcome_bind].
  destruct (negb (HasOutstandingPackets (ps_history s)) && _); [cbn [mbind outcome_bind]; eexists _, []; split; [reflexivity|]; apply moves_timer; [done|done|by left|by rewrite app_nil_r]|].
  destruct lv; [| |done|]; cbn [mbind outcome_bind].
  1,2: eexists _, []; (split; [reflexivity|]); exact (Hmode (u32 (sp_ptoCount h + 1)) (sp_numProbesToSend h + 2) _).
  set (h1 := h <| sp_ptoCount ::= _ |> <| sp_numProbesToSend ::= _ |>). assert (sent_inv h1) as Hinv1 by (by apply (sent_inv_core probed cb h)).
  destruct (PopPacketNumber_run h1 Encryption1RTT (sp_appDataPackets h) r Hinv1 eq_refl) as [-> M]. cbn [mbind outcome_bind]. eexists _, []. split; [reflexivity|].
  apply moves_timer; [refine (sent_inv_core probed cb _ _ _ _ (mv_inv _ _ _ _ _ _ M)); done|done|by left|]. by rewrite app_nil_r.
Qed.

(** ** After a Retry *)

Lemma iterate_retry l : ∀ first ev, Forall packet_ok l → ∃ first' l', Iterate retry_callback (first, ev) l = Ret (first', ev ++ FrameLost_of (held l), l', None).
Proof.
  induction l as [|p l IH]; intros first ev Hl; cbn [Iterate].
  { do 2 eexists. cbn. by rewrite app_nil_r. }
  apply Forall_cons in Hl as [Hp Hl]. set (f1 := if first =? 0 then p_SendTime p else first).
  assert (∃ p', retry_callback (first, ev) p = Ret (f1, ev ++ FrameLost_of (p_Frames p), Some p', true, None)) as [p' ->].
  { unfold retry_callback. fold f1. destruct (waits p) eqn:Ew.
    - destruct (po_waits p Hp Ew) as [Hne Hfs]. unfold waits in Ew. destruct (p_declaredLost p), (p_skippedPacket p); try done. cbn [orb]. rewrite queue_frames_run by done. by eexists.
    - rewrite (po_done p Hp Ew). unfold waits in Ew. eexists. destruct (p_declaredLost p), (p_skippedPacket p); try done; cbn; by rewrite app_nil_r. }
  cbn [mbind outcome_bind]. destruct (IH f1 (ev ++ FrameLost_of (p_Frames p)) Hl) as (f' & l' & ->). cbn [mbind outcome_bind]. do 2 eexists.
  unfold held, FrameLost_of. cbn [mbind list_bind]. by rewrite fmap_app, app_assoc.
Qed.

Lemma new_space_inv pn r : 0 ≤ pn → space_inv (newPacketNumberSpace pn false r).
Proof. intros. split; try done; [constructor|by intros He%Exists_nil|]. cbn. unfold InvalidPacketNumber. lia. Qed.

Lemma ResetForRetry_run h now : sent_inv h → is_Some (sp_initialPackets h) → packets_of (sp_handshakePackets h) = [] →
  ∃ h', ResetForRetry h now = Ret (h', FrameLost_of (held (all_packets h))) ∧ moves h h' [] (held (all_packets h)).
Proof.
  intros Hinv [s Hi] Hh. pose proof Hinv as [H1 H2 H3 H4 (size & Ha & _) H6]. rewrite Hi in H1. unfold ResetForRetry. set (h1 := h <| sp_bytesInFlight := 0 |>).
  rewrite (proj2 (space_get h1 EncryptionInitial s)) by exact Hi. cbn [mbind outcome_bind]. destruct (iterate_retry (packets s) 0 [] (sp_ok _ _ H1)) as (f1 & l1 & E1). unfold packets in E1 at 1. rewrite E1. cbn [mbind outcome_bind].
  change (sp_appDataPackets h1) with (sp_appDataPackets h). destruct (iterate_retry (packets (sp_appDataPackets h)) 0 [] (sp_ok _ _ H3)) as (f2 & l2 & E2). unfold packets in E2 at 1. rewrite E2.
  cbn [mbind outcome_bind app].
  assert (FrameLost_of (held (packets s)) ++ FrameLost_of (held (packets (sp_appDataPackets h))) = FrameLost_of (held (all_packets h))) as ->.
  { unfold all_packets. rewrite Hi, Hh, !held_app. unfold FrameLost_of. by rewrite !fmap_app. }
  eexists. split; [reflexivity|]. match goal with |- moves h ?x _ _ => set (h' := x) end.
  assert (∃ pn1 pn2, 0 ≤ pn1 ∧ 0 ≤ pn2 ∧ sp_initialPackets h' = Some (newPacketNumberSpace pn1 false 0) ∧ sp_appDataPackets h' = newPacketNumberSpace pn2 false 0 ∧
    sp_handshakePackets h' = sp_handshakePackets h ∧ sp_bytesInFlight h' = 0 ∧ sp_congestion h' = sp_congestion h ∧ sp_alarm h' = 0 ∧ keeps h h')
    as (pn1 & pn2 & P1 & P2 & I1 & I3 & I2 & I4 & I5 & I6 & I7).
  { exists (pns_Pop (ps_pns s) 0).2, (pns_Pop (ps_pns (sp_appDataPackets h)) 0).2. destruct (pns_Pop_spec (ps_pns s) 0) as [E0 _]. destruct (pns_Pop_spec (ps_pns (sp_appDataPackets h)) 0) as [E _].
    pose proof (sp_next _ _ H1). pose proof (sp_next _ _ H3). split; [lia|]. split; [lia|]. clear. unfold h', h1. destruct (_ =? 0); by split_and!. }
  clearbody h'. assert (all_packets h' = []) as Hall by (unfold all_packets; by rewrite I1, I3, I2, Hh).
  split.
  - split; rewrite ?I1, ?I2, ?I3, ?I4, ?Hall; try done; [by apply new_space_inv..|exists size; by rewrite I5|cbn; lia].
  - intros _. split; [|by rewrite I6]. intros _ Hn. exfalso. revert Hn. unfold needs_timer, hasOutstandingPackets, hasOutstandingCryptoPackets. rewrite I1, I2, I3. cbn.
    destruct (sp_handshakePackets h) as [x|]; cbn in *; [|by rewrite andb_false_r]. unfold HasOutstandingPackets, FirstOutstanding. unfold packets in Hh. rewrite Hh. cbn. by rewrite andb_false_r.
  - destruct I7 as [K1 K2]. unfold mode_inv. rewrite K1, I2. auto.
  - by rewrite Hall, app_nil_r.
Qed.
End Ops.
