(* ===== verification/QuicSentSystem.v ===== *)
(** * Sent packets: runs

    The operations of the handler of sent packets in any order, as the connection may
    call them, with a ledger of the frames: what was sent, what the acknowledgments
    named, what was given up with dropped keys, and the callbacks that were called. *)

From stdpp Require Import base list numbers strings gmap sorting.
From Stdlib Require Import ZArith Lia Floats.SpecFloat.
From S2P Require Import Prelude Monitor FloatExact LinkedList QuicProtocol QuicFrames QuicAck QuicRtt QuicFlowControl QuicCongestion QuicCongestionTheorems QuicReceived QuicReceivedTheorems QuicSent QuicSentHistory QuicSentTheorems QuicSentRuns QuicSentOps.

Section System.
Context {Fr C : Type} `{Alg : SendAlgorithm C} `{Laws : !SendAlgorithmLaws C} (probed : Fr → option Z) (cb : Fr → bool) (FecEnable : bool).
Implicit Types (p : Packet Fr) (h : sentPacketHandler Fr C) (s : packetNumberSpace Fr).

(** ** Operations *)

Inductive sent_op :=
| OpSend p (r : Z)
| OpAck (ack : AckFrame) (enc : EncryptionLevel) (rcvTime : Z)
| OpTimeout (r : Z)
| OpProbe (enc : EncryptionLevel)
| OpDrop (enc : EncryptionLevel)
| OpBytes (n : Z)
| OpPacket (enc : EncryptionLevel)
| OpConfirmed
| OpRetry.

Definition plain h : outcome (sentPacketHandler Fr C * list (frame_event Fr) * option go_error) := Ret (h, [], None).

Definition sent_apply h (op : sent_op) (now : Z) : outcome (sentPacketHandler Fr C * list (frame_event Fr) * option go_error) :=
  match op with
  | OpSend p r => h ← send_packet h p r now; plain h
  | OpAck ack enc rcvTime => '(h, ev, _, err) ← ReceivedAck probed FecEnable h ack enc rcvTime now; Ret (h, ev, err)
  | OpTimeout r => OnLossDetectionTimeout FecEnable h now r
  | OpProbe enc => '(h, ev, _) ← QueueProbePacket h enc; Ret (h, ev, None)
  | OpDrop enc => h ← DropPackets h enc now; plain h
  | OpBytes n => plain (sent_ReceivedBytes h n now)
  | OpPacket enc => plain (sent_ReceivedPacket h enc now)
  | OpConfirmed => plain (SetHandshakeConfirmed h now)
  | OpRetry => '(h, ev) ← ResetForRetry h now; Ret (h, ev, None)
  end.

(** What the connection sees to before it calls an operation: the keys of the level
    are there, an acknowledgment was parsed, the timer fires only when it is set, a
    Retry is accepted only before the Handshake. *)
Definition may h (op : sent_op) : Prop :=
  match op with
  | OpSend p _ => sendable probed cb h p
  | OpAck ack enc _ => is_Some (getPacketNumberSpace h enc) ∧ ranges_ok (ack_AckRanges ack)
  | OpTimeout _ => sp_alarm h ≠ 0
  | OpProbe enc => is_Some (getPacketNumberSpace h enc)
  | OpDrop enc => is_Some (getPacketNumberSpace h enc) ∧ enc ≠ Encryption1RTT
  | OpBytes _ | OpPacket _ | OpConfirmed => True
  | OpRetry => is_Some (sp_initialPackets h) ∧ packets_of (sp_handshakePackets h) = []
  end.

(** ** The ledger *)

Record ledger := mk_ledger { lg_sent : list Fr; lg_acked : list Fr; lg_dropped : list Fr; lg_events : list (frame_event Fr) }.

Definition op_sent (op : sent_op) : list (Frame Fr) := match op with OpSend p _ => p_Frames p | _ => [] end.

(** The frames of the packets that an acknowledgment names. *)
Definition op_acked h (op : sent_op) : list (Frame Fr) :=
  match op with
  | OpAck ack enc _ => match getPacketNumberSpace h enc with Some s => held (named (ack_AckRanges ack) (packets s)) | None => [] end
  | _ => []
  end.

(** The frames that are given up with the keys of a level. *)
Definition op_dropped h (op : sent_op) : list (Frame Fr) :=
  match op with
  | OpSend p _ => held (gives_up h (p_EncryptionLevel p))
  | OpDrop enc => if decide (sp_perspective h = PerspectiveClient ∧ enc = EncryptionInitial) then [] else held (dropped_packets h enc)
  | _ => []
  end.

Definition ledger_step h (op : sent_op) (ev : list (frame_event Fr)) (g : ledger) : ledger := {|
  lg_sent := lg_sent g ++ (fr_Frame <$> op_sent op);
  lg_acked := lg_acked g ++ (fr_Frame <$> op_acked h op);
  lg_dropped := lg_dropped g ++ (fr_Frame <$> op_dropped h op);
  lg_events := lg_events g ++ ev;
|}.

(** A run from a new handler; an error closes the connection and ends it. *)
Inductive sent_reach : sentPacketHandler Fr C → ledger → Prop :=
| reach_new pn rtt pers size c : 0 ≤ pn → alg_ok size c → sent_reach (newSentPacketHandler pn rtt pers c) (mk_ledger [] [] [] [])
| reach_op h g op now h' ev : sent_reach h g → may h op → sent_apply h op now = Ret (h', ev, None) → sent_reach h' (ledger_step h op ev g).

Definition lost_frames (ev : list (frame_event Fr)) : list Fr := omap (λ e, match e with FrameLost f => Some f | FrameAcked _ => None end) ev.
Definition acked_frames (ev : list (frame_event Fr)) : list Fr := omap (λ e, match e with FrameAcked f => Some f | FrameLost _ => None end) ev.

(** ** Lemmas *)

Lemma events_of (a l : list (Frame Fr)) :
  acked_frames (FrameAcked_of cb a ++ FrameLost_of l) = filter (λ f, cb f = true) (fr_Frame <$> a) ∧
  lost_frames (FrameAcked_of cb a ++ FrameLost_of l) = fr_Frame <$> l.
Proof.
  unfold acked_frames, lost_frames, FrameAcked_of, FrameLost_of. rewrite !omap_app.
  assert (∀ x : list Fr, omap (λ e, match e with FrameAcked f => Some f | FrameLost _ => None end) (FrameAcked <$> x) = x) as ->
    by (intros x; induction x as [|y x IH]; cbn; [done|by f_equal]).
  assert (∀ x : list Fr, omap (λ e, match e with FrameLost f => Some f | FrameAcked _ => None end) (FrameAcked <$> x) = []) as ->
    by (intros x; induction x as [|y x IH]; cbn; [done|exact IH]).
  split.
  - assert (omap (λ e, match e with FrameAcked f => Some f | FrameLost _ => None end) ((λ f : Frame Fr, FrameLost (fr_Frame f)) <$> l) = []) as ->; [|by rewrite app_nil_r].
    induction l as [|y l IH]; cbn; [done|exact IH].
  - cbn [app]. induction l as [|y l IH]; cbn; [done|by f_equal].
Qed.

(** Every operation returns; what it does to the frames. *)
Lemma sent_apply_run h op now : sent_inv probed cb h → mode_inv h → timer_inv h → may h op →
  ∃ h' ev err, sent_apply h op now = Ret (h', ev, err) ∧
    (err = None → ∃ lost, moves probed cb h h' (op_sent op) (op_acked h op ++ lost ++ op_dropped h op) ∧ ev = FrameAcked_of cb (op_acked h op) ++ FrameLost_of lost) ∧
    (err ≠ None → ∃ ack enc t, op = OpAck ack enc t).
Proof.
  intros Hinv Hm Ht Hmay. destruct op as [p r|ack enc t|r|enc|enc|n|enc| |]; cbn [sent_apply may op_sent op_acked op_dropped app] in *.
  - destruct (send_packet_run probed cb h p r now Hinv Hm Hmay) as (h' & -> & M). cbn. do 3 eexists. split; [reflexivity|]. split; [|done]. intros _. by exists [].
  - destruct Hmay as [[s Hg] Hok]. destruct (ReceivedAck_run probed cb FecEnable h enc s ack t now Hinv Hg Hok) as (h' & ev & b & err & -> & _ & Hres). cbn [mbind outcome_bind].
    do 3 eexists. split; [reflexivity|]. split; [|intros _; by do 3 eexists]. intros He. destruct (Hres He) as (s' & lost & M & _ & _ & -> & _). exists (held lost).
    rewrite Hg, app_nil_r. done.
  - destruct (OnLossDetectionTimeout_run probed cb FecEnable h now r Hinv Hm Ht Hmay) as (h' & fs & -> & M). do 3 eexists. split; [reflexivity|]. split; [|done].
    intros _. exists fs. by rewrite app_nil_r.
  - destruct Hmay as [s Hg]. destruct (QueueProbePacket_run probed cb h enc s Hinv Hg) as (h' & b & fs & -> & M & _). cbn [mbind outcome_bind].
    do 3 eexists. split; [reflexivity|]. split; [|done]. intros _. exists fs. by rewrite app_nil_r.
  - destruct Hmay as [[s Hg] He]. unfold DropPackets. destruct (decide _); cbn [mbind outcome_bind].
    + do 3 eexists. split; [reflexivity|]. split; [|done]. intros _. exists []. split; [by apply moves_refl|done].
    + destruct (dropPackets_run probed cb h enc s now Hinv Hg He) as (h' & -> & M & _). cbn [mbind outcome_bind]. do 3 eexists. split; [reflexivity|]. split; [|done].
      intros _. exists []. split; [by apply M|done].
  - do 3 eexists. split; [reflexivity|]. split; [|done]. intros _. exists []. split; [by apply ReceivedBytes_run|done].
  - do 3 eexists. split; [reflexivity|]. split; [|done]. intros _. exists []. split; [by apply ReceivedPacket_run|done].
  - do 3 eexists. split; [reflexivity|]. split; [|done]. intros _. exists []. split; [by apply SetHandshakeConfirmed_run|done].
  - destruct Hmay as [Hi Hh]. destruct (ResetForRetry_run probed cb h now Hinv Hi Hh) as (h' & -> & M). cbn [mbind outcome_bind].
    do 3 eexists. split; [reflexivity|]. split; [|done]. intros _. eexists. rewrite app_nil_r. done.
Qed.

Lemma new_handler pn rtt pers size c : 0 ≤ pn → alg_ok size c → sent_inv probed cb (newSentPacketHandler pn rtt pers c) ∧
  mode_inv (newSentPacketHandler (Fr := Fr) pn rtt pers c) ∧ timer_inv (newSentPacketHandler (Fr := Fr) pn rtt pers c).
Proof.
  intros Hpn Hc. split; [|split].
  - split; try done; try (by apply new_space_inv); [exists size; done|cbn; lia].
  - intros [Hp|Hp]; [|done]. cbn in *. by rewrite Hp.
  - split; [|done]. intros _ Hn. exfalso. revert Hn. unfold needs_timer. done.
Qed.

(** What every reached state satisfies. *)
Record accounted h (g : ledger) : Prop := {
  ac_inv : sent_inv probed cb h;
  ac_mode : mode_inv h;
  ac_timer : timer_inv h;
  ac_frames : lg_sent g ≡ₚ (fr_Frame <$> held (all_packets h)) ++ lg_acked g ++ lost_frames (lg_events g) ++ lg_dropped g;
  ac_acked : acked_frames (lg_events g) = filter (λ f, cb f = true) (lg_acked g);
}.

Lemma accounted_reach h g : sent_reach h g → accounted h g.
Proof.
  induction 1 as [pn rtt pers size c Hpn Hc|h g op now h' ev _ [I M T F A] Hmay E].
  - destruct (new_handler pn rtt pers size c Hpn Hc) as (? & ? & ?). by split.
  - destruct (sent_apply_run h op now I M T Hmay) as (h2 & ev2 & err & E2 & Hres & _). rewrite E in E2. injection E2 as <- <- <-.
    destruct (Hres eq_refl) as (lost & [I' T' M' P'] & ->). destruct (events_of (op_acked h op) lost) as [Ea El].
    split; [done|auto|auto| |].
    + cbn [ledger_step lg_sent lg_acked lg_dropped lg_events]. unfold lost_frames in *. rewrite omap_app, El.
      assert ((fr_Frame <$> held (all_packets h)) ++ (fr_Frame <$> op_sent op) ≡ₚ
        (fr_Frame <$> held (all_packets h')) ++ (fr_Frame <$> op_acked h op) ++ (fr_Frame <$> lost) ++ (fr_Frame <$> op_dropped h op)) as P2 by (rewrite <- !fmap_app; by apply fmap_Permutation).
      rewrite F, (Permutation_app_comm _ (fr_Frame <$> op_sent op)), app_assoc, (Permutation_app_comm (fr_Frame <$> op_sent op)), P2, <- !app_assoc. clear.
      f_equiv. solve_Permutation.
    + cbn [ledger_step lg_acked lg_events]. unfold acked_frames in *. by rewrite omap_app, A, Ea, filter_app.
Qed.

Definition total_length (l : list (Packet Fr)) : Z := foldr (λ p n, p_Length p + n) 0 l.

(** The packets that count as in flight are those that hold frames. *)
Lemma in_flight_total (l : list (Packet Fr)) : Forall packet_ok l → in_flight l = total_length (filter (λ p, p_Frames p ≠ []) l).
Proof.
  induction 1 as [|p l Hp _ IH]; [done|]. cbn [in_flight]. unfold flight. rewrite (po_flight p Hp), IH. destruct (waits p) eqn:Ew.
  - rewrite filter_cons_True by apply (po_waits p Hp Ew). done.
  - rewrite filter_cons_False by (intros Hn; by apply Hn, (po_done p Hp)). done.
Qed.

(** C19. Whatever operations the connection calls, in any order and at any times, no
    operation panics, and only an acknowledgment can be refused.  Every frame that was
    sent is held by exactly one packet, or was named by an acknowledgment, or was reported
    lost, once, or was given up with the keys of its level; the frames whose
    acknowledgment was reported are those that were named and have a callback.  The bytes in flight are
    the lengths of the packets that hold frames. *)
Theorem sent_packets_accounted h g : sent_reach h g →
  lg_sent g ≡ₚ (fr_Frame <$> held (all_packets h)) ++ lg_acked g ++ lost_frames (lg_events g) ++ lg_dropped g ∧
  acked_frames (lg_events g) = filter (λ f, cb f = true) (lg_acked g) ∧
  sp_bytesInFlight h = total_length (filter (λ p, p_Frames p ≠ []) (all_packets h)) ∧
  ∀ op now, may h op → ∃ h' ev err, sent_apply h op now = Ret (h', ev, err) ∧ (err ≠ None → ∃ ack enc t, op = OpAck ack enc t).
Proof.
  intros [I M T F A]%accounted_reach. split_and!; [done|done| |].
  - rewrite (se_flight _ _ _ I). apply in_flight_total. by apply (sent_packets_ok probed cb).
  - intros op now Hmay. destruct (sent_apply_run h op now I M T Hmay) as (h' & ev & err & E & _ & Herr). eauto.
Qed.

(** C20. An acknowledgment is refused exactly when it names a packet number that was
    not sent yet, or one that was skipped and whose mark is still in the history of the space
    ([DeleteOldPackets] takes the mark out when it is older than three probe timeouts; such a
    number is accepted then like one that was acknowledged before).  Otherwise all packets that it names are taken
    out of their packet number space, and no others but packets that are declared lost;
    the callbacks of their frames are called, first those for the acknowledged frames,
    then those for the lost ones; the other spaces stay as they are. *)
Theorem ack_processed h g enc s ack t now : sent_reach h g → getPacketNumberSpace h enc = Some s → ranges_ok (ack_AckRanges ack) →
  let N := named (ack_AckRanges ack) (packets s) in
  ∃ h' ev b err, ReceivedAck probed FecEnable h ack enc t now = Ret (h', ev, b, err) ∧
    (err = None ↔ (∀ pn, acked (ack_AckRanges ack) pn → pn ≤ ps_largestSent s) ∧ Forall (λ p, p_skippedPacket p = false) N) ∧
    (err = None → ∃ s' lost, getPacketNumberSpace h' enc = Some s' ∧ same_others h h' enc ∧ lost `sublist_of` packets s ∧
      held (all_packets h) ≡ₚ held (all_packets h') ++ held N ++ held lost ∧ ev = FrameAcked_of cb (held N) ++ FrameLost_of (held lost) ∧
      ∀ p, p ∈ packets s' → ¬ acked (ack_AckRanges ack) (p_PacketNumber p)).
Proof.
  intros [I M T F A]%accounted_reach Hg Hok N. destruct (ReceivedAck_run probed cb FecEnable h enc s ack t now I Hg Hok) as (h' & ev & b & err & E & Herr & Hres).
  do 4 eexists. split; [exact E|]. split; [exact Herr|]. intros He. destruct (Hres He) as (s' & lost & Hmv & Hg' & Ho & -> & Hgone & Hsub).
  exists s', lost. split_and!; try done. pose proof (mv_held _ _ _ _ _ _ Hmv) as Hp. by rewrite app_nil_r in Hp.
Qed.

(** A timeout without packets to declare lost asks for two probes. *)
Lemma timeout_probes h now r t lv h' ev : (getLossTimeAndSpace h).1 = 0 → sp_peerCompletedAddressValidation h = true →
  getPTOTimeAndSpace h now = Some (t, Some lv) → lv ≠ Encryption0RTT → OnLossDetectionTimeout FecEnable h now r = Ret (h', ev, None) →
  sp_numProbesToSend h' = sp_numProbesToSend h + 2 ∧ sp_ptoMode h' = match lv with EncryptionInitial => SendPTOInitial | EncryptionHandshake => SendPTOHandshake | _ => SendPTOAppData end.
Proof.
  intros Hl Hc Hp Hlv. unfold OnLossDetectionTimeout, loss_timeout. destruct (getLossTimeAndSpace h) as [lt le]. cbn in Hl. subst lt. cbn [Z.eqb negb].
  rewrite Hc, andb_false_r, Hp. unfold space. destruct (getPacketNumberSpace h lv) as [s|]; [|done]. cbn [mbind outcome_bind]. rewrite andb_false_r.
  destruct lv; cbn [mbind outcome_bind]; [| |done|unfold PopPacketNumber, space; cbn [getPacketNumberSpace mbind outcome_bind]; destruct (pns_Pop _ _); cbn [mbind outcome_bind]].
  all: intros [= <- <-]; match goal with |- context [setLossDetectionTimer ?x ?y] => destruct (timer_alarm x y) as [a ->] end; done.
Qed.

(** C21. As long as a packet is outstanding that the timer has to watch, and the server
    may send, the timer is set, unless the exponential back-off has overflowed.  When it
    fires there is a packet number space to act on: no error is returned, and
    when no time for a loss is set and the peer has validated the address, two more
    probe packets are asked for. *)
Theorem loss_timer_live h g : sent_reach h g → backoff_ok h → needs_timer h = true →
  sp_alarm h ≠ 0 ∧ ∀ now r, ∃ h' fs, OnLossDetectionTimeout FecEnable h now r = Ret (h', FrameLost_of fs, None) ∧
    ((getLossTimeAndSpace h).1 = 0 → sp_peerCompletedAddressValidation h = true →
     sp_numProbesToSend h' = sp_numProbesToSend h + 2 ∧ sp_ptoMode h' ∈ [SendPTOInitial; SendPTOHandshake; SendPTOAppData]).
Proof.
  intros [I M T F A]%accounted_reach Hb Hn. assert (sp_alarm h ≠ 0) as Ha by (by apply T). split; [done|]. intros now r.
  destruct (OnLossDetectionTimeout_run probed cb FecEnable h now r I M T Ha) as (h' & fs & E & _). exists h', fs. split; [done|]. intros Hl Hc.
  apply andb_true_iff in Hn as [Hn _]. destruct (pto_time probed cb h now I Hb Hn) as ([t e] & Hp & _).
  destruct (pto_space probed cb h now t e I M (proj2 T Ha) Hp) as (lv & -> & _ & Hlv). destruct (timeout_probes h now r t lv h' _ Hl Hc Hp Hlv E) as [E1 ->].
  split; [done|]. destruct lv; set_solver.
Qed.
End System.

(** ** An example *)

(** A client after its handshake sends two packets, and one of them is acknowledged; the
    frames are numbers, and the controller is the one of the code. *)
Section Example.
#[local] Instance ex_algorithm : SendAlgorithm cubicSender := cubicSender_SendAlgorithm id.
#[local] Instance ex_algorithm_laws : SendAlgorithmLaws cubicSender := cubicSender_laws id.
Local Abbreviation probed := (λ _ : Z, @None Z).
Local Abbreviation cb := (λ f : Z, f <? 12).
Local Abbreviation reach := (sent_reach probed cb false).

Definition ex_new : sentPacketHandler Z cubicSender := newSentPacketHandler 0 NewRTTStats PerspectiveClient (NewCubicSender NewRTTStats 1252 true).

Definition ex_packet (fs : list Z) (t : Z) : Packet Z :=
  mk_packet 0 ((λ f, mk_frame f true (cb f)) <$> fs) InvalidPacketNumber 1200 Encryption1RTT t false false false false.

Definition ex_ack (pn : Z) : AckFrame := {| ack_AckRanges := [{| ar_Smallest := pn; ar_Largest := pn |}]; ack_DelayTime := 0; ack_ECT0 := 0; ack_ECT1 := 0; ack_ECNCE := 0 |}.

Definition ex_ops (pn : Z) : list (sent_op * Z) :=
  [(OpConfirmed, 900); (OpSend (ex_packet [10; 12] (10 ^ 9)) 0, 10 ^ 9); (OpSend (ex_packet [11] (10 ^ 9)) 0, 10 ^ 9);
   (OpAck (ex_ack pn) Encryption1RTT (11 * 10 ^ 8), 11 * 10 ^ 8)].

(** The state and the ledger after operations that return. *)
Fixpoint sent_runs (h : sentPacketHandler Z cubicSender) (g : ledger (Fr := Z)) (ops : list (sent_op * Z)) : sentPacketHandler Z cubicSender * ledger :=
  match ops with
  | [] => (h, g)
  | (op, now) :: ops =>
      match sent_apply probed false h op now with
      | Ret (h', ev, None) => sent_runs h' (ledger_step h op ev g) ops
      | _ => (h, g)
      end
  end.

Definition ex_end (pn : Z) : sentPacketHandler Z cubicSender * ledger := sent_runs ex_new (mk_ledger [] [] [] []) (ex_ops pn).

Lemma ex_fresh fs t : 0 < t → fresh_packet cb (ex_packet fs t).
Proof. intros Ht. split; try done. cbn. induction fs; by constructor. Qed.

Lemma ex_sendable h fs t : 0 < t → probes probed (held (all_packets h)) = [] → sendable probed cb h (ex_packet fs t).
Proof.
  intros Ht Hp. assert (probes probed (p_Frames (ex_packet fs t)) = []) as E by (cbn; induction fs as [|f fs IH]; [done|]; cbn in *; by destruct (f <? 12)).
  split; [done|by apply ex_fresh|rewrite E, Hp; cbn; lia|by rewrite E].
Qed.

Lemma runs_step h g op now : reach h g → may probed cb h op → (if sent_apply probed false h op now is Ret (_, _, None) then true else false) = true →
  reach (sent_runs h g [(op, now)]).1 (sent_runs h g [(op, now)]).2.
Proof.
  intros Hr Hm. cbn [sent_runs]. destruct (sent_apply probed false h op now) as [[[h' ev] [e|]]| |] eqn:E; try done. intros _. cbn. by eapply reach_op.
Qed.

Lemma ex_end_reach pn : pn = 0 ∨ pn = 1 → reach (ex_end pn).1 (ex_end pn).2.
Proof.
  intros Hpn. assert (∃ mds, alg_ok mds (NewCubicSender NewRTTStats 1252 true)) as [mds Hc].
  { exists 1252, 1252. apply NewCubicSender_inv. lia. }
  pose proof (reach_new probed cb false 0 NewRTTStats PerspectiveClient mds _ (Z.le_refl 0) Hc) as R0. fold ex_new in R0.
  pose proof (runs_step _ _ OpConfirmed 900 R0 I eq_refl) as R1.
  pose proof (runs_step _ _ (OpSend (ex_packet [10; 12] (10 ^ 9)) 0) (10 ^ 9) R1 ltac:(apply ex_sendable; vm_compute; reflexivity) ltac:(vm_compute; reflexivity)) as R2.
  pose proof (runs_step _ _ (OpSend (ex_packet [11] (10 ^ 9)) 0) (10 ^ 9) R2 ltac:(apply ex_sendable; vm_compute; reflexivity) ltac:(vm_compute; reflexivity)) as R3.
  assert (∀ h, may probed cb h (OpAck (ex_ack pn) Encryption1RTT (11 * 10 ^ 8))) as Hm.
  { intros h. split; [by eexists|]. split; [done| |repeat constructor]. constructor; [|done]. unfold maxVarInt8. cbn. lia. }
  pose proof (λ E, runs_step _ _ _ (11 * 10 ^ 8) R3 (Hm _) E) as R4. match type of R4 with _ → reach (?x).1 _ => assert (ex_end pn = x) as -> end.
  - destruct Hpn as [->| ->]; vm_compute; reflexivity.
  - apply R4. destruct Hpn as [->| ->]; vm_compute; reflexivity.
Qed.

(** Packet 1 with the frame 11 is acknowledged, packet 0 is held. *)
Lemma sent_packets_accounted_witness : sp_bytesInFlight (ex_end 1).1 = 1200 ∧ acked_frames (lg_events (ex_end 1).2) = [11] ∧
  [10; 12; 11] ≡ₚ (fr_Frame <$> held (all_packets (ex_end 1).1)) ++ [11].
Proof.
  destruct (sent_packets_accounted probed cb false _ _ (ex_end_reach 1 (or_intror eq_refl))) as (F & A & B & _).
  split; [exact B|]. split; [exact A|]. exact F.
Defined.

Lemma ack_processed_witness : ∃ h' ev b, ReceivedAck probed false (ex_end 1).1 (ex_ack 0) Encryption1RTT (12 * 10 ^ 8) (12 * 10 ^ 8) = Ret (h', ev, b, None) ∧
  ev = [FrameAcked 10] ∧ held (all_packets h') = [].
Proof.
  destruct (ack_processed probed cb false _ _ Encryption1RTT (sp_appDataPackets (ex_end 1).1) (ex_ack 0) (12 * 10 ^ 8) (12 * 10 ^ 8) (ex_end_reach 1 (or_intror eq_refl)) eq_refl)
    as (h' & ev & b & err & E & Herr & Hres).
  { split; [done| |repeat constructor]. constructor; [|done]. unfold maxVarInt8. cbn. lia. }
  assert (err = None) as -> by (clear Hres Herr; vm_compute in E; by injection E as <- <- <- <-).
  destruct (Hres eq_refl) as (s' & lost & _ & _ & _ & _ & Hev & _). exists h', ev, b. split; [exact E|].
  clear - E. vm_compute in E. by injection E as <- <- <-.
Defined.

Lemma loss_timer_live_witness : sp_alarm (ex_end 0).1 ≠ 0 ∧ ∃ h' fs, OnLossDetectionTimeout false (ex_end 0).1 (2 * 10 ^ 9) 0 = Ret (h', FrameLost_of fs, None) ∧
  sp_numProbesToSend h' = 2.
Proof.
  destruct (loss_timer_live probed cb false _ _ (ex_end_reach 0 (or_introl eq_refl))) as [Ha Ht].
  { split; vm_compute; done. }
  { vm_compute. reflexivity. }
  split; [exact Ha|]. destruct (Ht (2 * 10 ^ 9) 0) as (h' & fs & E & Hp). exists h', fs. split; [exact E|].
  destruct Hp as [Hp _]; [vm_compute; reflexivity|vm_compute; reflexivity|]. rewrite Hp. vm_compute. reflexivity.
Defined.

(** C24. Without forward error correction the loss timer spins.  After packet 1 was
    acknowledged, 100 ms after packets 0 and 1 were sent, the timer is set to the time
    at which packet 0 is late by nine eighths of the round-trip time.  When it fires
    then, or at any time until another round-trip time has passed, nothing is declared
    lost, nothing is sent and the timer is set to the same time, in the past. *)
Theorem loss_timer_spins now r : 10 ^ 9 + 112500000 ≤ now ≤ 10 ^ 9 + 212500000 →
  sp_alarm (ex_end 1).1 = 10 ^ 9 + 112500000 ∧ OnLossDetectionTimeout false (ex_end 1).1 now r = Ret ((ex_end 1).1, [], None).
Proof.
  intros Hnow. split; [vm_compute; reflexivity|]. set (h := (ex_end 1).1). unfold OnLossDetectionTimeout, loss_timeout.
  assert (getLossTimeAndSpace h = (10 ^ 9 + 112500000, Encryption1RTT)) as -> by (vm_compute; reflexivity). change (negb (10 ^ 9 + 112500000 =? 0)) with true. cbv iota.
  unfold detectLostPackets. change (space h Encryption1RTT) with (Ret (sp_appDataPackets h)). cbn [mbind outcome_bind].
  destruct (loss_delay (sp_rttStats h)) as [maxRTT lossDelay] eqn:Ed. assert (lossDelay = 112500000 ∧ f_to_i64 maxRTT = 100000000) as [-> ->].
  { vm_compute in Ed. injection Ed as <- <-. split; vm_compute; reflexivity. }
  assert (∃ p, sh_packetList (ps_history (sp_appDataPackets h)) = [p] ∧ p_PacketNumber p = 0 ∧ p_SendTime p = 10 ^ 9 ∧ waits p = true) as (p & Hl & Hpn & Hst & Hw)
    by (exists ((ex_packet [10; 12] (10 ^ 9)) <| p_includedInBytesInFlight := true |>); split_and!; vm_compute; reflexivity).
  assert (ps_largestAcked (sp_appDataPackets h) = 1) as Hla by (vm_compute; reflexivity). set (t := now + _).
  assert (is_lost 1 t p = false) as Hlost.
  { unfold is_lost. rewrite Hw, Hpn, Hst. unfold t. change (i64 (i64 (- (112500000)) - 100000000)) with (- 212500000). cbn. apply orb_false_iff. split; [|done]. apply Z.ltb_ge. lia. }
  rewrite Hla, Hl. cbn [Iterate]. assert (p_PacketNumber p ≤ 1) as Hle by (rewrite Hpn; clear; lia).
  rewrite (loss_callback_stays false 1 112500000 t (sp_bytesInFlight h) h 0 [] [] p Hle Hlost). cbn [mbind outcome_bind app]. unfold next_loss. rewrite Hw, Hpn, Hlost, Hst, <- Hl.
  vm_compute. reflexivity.
Qed.

Lemma loss_timer_spins_witness : OnLossDetectionTimeout false (ex_end 1).1 (10 ^ 9 + 200000000) 0 = Ret ((ex_end 1).1, [], None).
Proof. destruct (loss_timer_spins (10 ^ 9 + 200000000) 0) as [_ E]; [lia|exact E]. Defined.
End Example.
