(* ===== verification/QuicMtu.v ===== *)
(** * Path MTU discovery ([mtu_discoverer.go])

    The finder of the path MTU sends Ping frames in probe packets and searches by
    bisection for the largest size that arrives.  The callbacks of a probe's frame are
    functions of its size; the call of [mtuIncreased] is a result of [OnAcked].  Time is
    in nanoseconds and the zero value of [time.Time] is 0; the current time is an
    argument. *)

From stdpp Require Import base list numbers strings gmap.
From Stdlib Require Import ZArith Lia.
From S2P Require Import Prelude QuicRtt QuicCongestion QuicCongestionTheorems.

Definition maxMTUDiff : Z := 20.
Definition mtuProbeDelay : Z := 5.

Record mtuFinder := mk_mtuFinder {
  mf_lastProbeTime : Z;
  mf_probeInFlight : bool;
  mf_current : Z;
  mf_max : Z;
}.

#[global] Instance mtuFinder_fields : Fields mtuFinder := λ f,
  mk_mtuFinder (mf_lastProbeTime f) (mf_probeInFlight f) (mf_current f) (mf_max f).

Definition newMTUDiscoverer (start max now : Z) : mtuFinder :=
  {| mf_lastProbeTime := now; mf_probeInFlight := false; mf_current := start; mf_max := max |}.

Definition mtu_done (f : mtuFinder) : bool := mf_max f - mf_current f <=? maxMTUDiff + 1.

Definition NextProbeTime (f : mtuFinder) (rttStats : RTTStats) : Z :=
  if mf_probeInFlight f || mtu_done f then 0 else mf_lastProbeTime f + i64 (mtuProbeDelay * rtt_smoothedRTT rttStats).

Definition ShouldSendProbe (f : mtuFinder) (rttStats : RTTStats) (now : Z) : bool :=
  if mf_probeInFlight f || mtu_done f then false else negb (now <? NextProbeTime f rttStats).

(** The size of the probe. *)
Definition GetPing (f : mtuFinder) (now : Z) : mtuFinder * Z :=
  (f <| mf_lastProbeTime := now |> <| mf_probeInFlight := true |>, Z.quot (mf_max f + mf_current f) 2).

Definition ping_OnLost (f : mtuFinder) (size : Z) : mtuFinder := f <| mf_probeInFlight := false |> <| mf_max := size |>.

(** The second result is the argument of [mtuIncreased]. *)
Definition ping_OnAcked (f : mtuFinder) (size : Z) : mtuFinder * Z := (f <| mf_probeInFlight := false |> <| mf_current := size |>, size).

(** ** The search *)

(** A probe that is sent, with the round-trip time and the time, and whether it is acknowledged. *)
Record probe := mk_probe { pr_rtt : RTTStats; pr_now : Z; pr_acked : bool }.

(** The probes one after the other, each when it is due; the sizes that were probed, with
    the answers, and the sizes given to [mtuIncreased]. *)
Fixpoint mtu_run (f : mtuFinder) (ps : list probe) : option (mtuFinder * list (Z * bool) * list Z) :=
  match ps with
  | [] => Some (f, [], [])
  | p :: ps =>
      if ShouldSendProbe f (pr_rtt p) (pr_now p) then
        let '(f, size) := GetPing f (pr_now p) in
        let '(f, inc) := if pr_acked p then (let '(f, size) := ping_OnAcked f size in (f, [size])) else (ping_OnLost f size, []) in
        match mtu_run f ps with
        | Some (f, sizes, incs) => Some (f, (size, pr_acked p) :: sizes, inc ++ incs)
        | None => None
        end
      else None
  end.

Lemma probe_due f r now : ShouldSendProbe f r now = true → mf_probeInFlight f = false ∧ maxMTUDiff + 1 < mf_max f - mf_current f.
Proof. unfold ShouldSendProbe, mtu_done. destruct (mf_probeInFlight f); [done|]. destruct (_ <=? _) eqn:E; [done|]. intros _. split; [done|lia]. Qed.

Lemma log2_up_half d : 2 ≤ d → Z.log2_up ((d + 1) / 2) + 1 ≤ Z.log2_up d.
Proof.
  intros Hd. pose proof (Z.log2_up_spec d ltac:(lia)) as [_ Hu]. pose proof (Z.log2_up_pos d ltac:(lia)) as Hp. set (k := Z.log2_up d) in *.
  assert (2 ^ k = 2 * 2 ^ (k - 1)) as E by (rewrite <- Z.pow_succ_r by lia; f_equal; lia).
  assert ((d + 1) / 2 ≤ 2 ^ (k - 1)) as Hh by (assert ((d + 1) / 2 < 2 ^ (k - 1) + 1); [apply Z.div_lt_upper_bound; lia|lia]).
  apply Z.log2_up_le_mono in Hh. rewrite Z.log2_up_pow2 in Hh by lia. lia.
Qed.

(** The size of a probe lies strictly between the bounds and at least halves their distance. *)
Lemma probe_size c m : 0 ≤ c → maxMTUDiff + 1 < m - c →
  let size := Z.quot (m + c) 2 in c < size < m ∧ m - size ≤ (m - c + 1) / 2 ∧ size - c ≤ (m - c + 1) / 2.
Proof.
  intros Hc Hd size. unfold maxMTUDiff, size in *. rewrite Z.quot_div_nonneg by lia.
  pose proof (Z.div_mod (m + c) 2 ltac:(lia)). pose proof (Z.mod_pos_bound (m + c) 2 ltac:(lia)).
  pose proof (Z.div_mod (m - c + 1) 2 ltac:(lia)). pose proof (Z.mod_pos_bound (m - c + 1) 2 ltac:(lia)). lia.
Qed.

(** The answers are those of a path that carries datagrams of up to [path] bytes. *)
Definition answers_of (path : Z) (sizes : list (Z * bool)) : Prop := Forall (λ '(size, ok), ok = (size <=? path)) sizes.

Lemma mtu_run_inv ps : ∀ f f' sizes incs, 0 ≤ mf_current f → mf_current f ≤ mf_max f → mf_max f ≤ 2 ^ 16 → mf_probeInFlight f = false →
  mtu_run f ps = Some (f', sizes, incs) →
  Z.of_nat (length ps) ≤ Z.log2_up (mf_max f - mf_current f) ∧ mf_probeInFlight f' = false ∧
  mf_current f ≤ mf_current f' ≤ mf_max f' ∧ mf_max f' ≤ mf_max f ∧ sizes_grow (mf_current f) (ev_size <$> incs) = Some (mf_current f') ∧
  ∀ path, answers_of path sizes → mf_current f ≤ path → mf_current f' ≤ path ∧ (mf_max f' = mf_max f ∨ path < mf_max f').
Proof.
  induction ps as [|[r now ok] ps IH]; intros f f' sizes incs Hc Hm Hb Hfl; cbn [mtu_run pr_rtt pr_now pr_acked].
  { intros [= <- <- <-]. cbn. pose proof (Z.log2_up_nonneg (mf_max f - mf_current f)). split_and!; try done; auto. }
  destruct (ShouldSendProbe f r now) eqn:Es; [|done]. apply probe_due in Es as [_ Hd]. unfold GetPing.
  pose proof (probe_size (mf_current f) (mf_max f) Hc Hd) as (Hs & Hh1 & Hh2). set (size := Z.quot _ _) in *.
  set (f1 := if ok then f <| mf_lastProbeTime := now |> <| mf_probeInFlight := false |> <| mf_current := size |>
             else f <| mf_lastProbeTime := now |> <| mf_probeInFlight := false |> <| mf_max := size |>).
  assert ((if ok then (let '(f, size) := ping_OnAcked (f <| mf_lastProbeTime := now |> <| mf_probeInFlight := true |>) size in (f, [size]))
    else (ping_OnLost (f <| mf_lastProbeTime := now |> <| mf_probeInFlight := true |>) size, [])) = (f1, if ok then [size] else [])) as -> by (unfold f1; by destruct ok).
  destruct (mtu_run f1 ps) as [[[f2 sizes2] incs2]|] eqn:E; [|done]. intros [= <- <- <-].
  assert (mf_current f1 = (if ok then size else mf_current f) ∧ mf_max f1 = (if ok then mf_max f else size) ∧ mf_probeInFlight f1 = false) as (C1 & M1 & F1) by (unfold f1; by destruct ok).
  assert (mf_max f1 - mf_current f1 ≤ (mf_max f - mf_current f + 1) / 2) as Hhalf by (rewrite C1, M1; destruct ok; lia).
  destruct (IH f1 f2 sizes2 incs2) as (L & F2 & B1 & B2 & G & P); [rewrite ?C1, ?M1; destruct ok; lia..|done|done|].
  pose proof (log2_up_half (mf_max f - mf_current f) ltac:(unfold maxMTUDiff in Hd; lia)). pose proof (Z.log2_up_le_mono _ _ Hhalf).
  rewrite C1 in *. rewrite M1 in *. split_and!; [cbn [length]; lia|done|destruct ok; lia|destruct ok; lia|destruct ok; lia| |].
  - destruct ok; [|done]. cbn [app fmap list_fmap sizes_grow]. rewrite (proj2 (Z.leb_le (mf_current f) size)), (proj2 (Z.leb_le size _)) by lia. exact G.
  - intros path Ha Hp. apply Forall_cons in Ha as [Hok Ha]; cbn in Hok. destruct (P path Ha) as [P1 P2]; [destruct ok; lia|]. split; [done|]. destruct ok; lia.
Qed.

(** C23. The search for the path MTU ends: from a size [start] up to a maximum of
    [max], at most [log2 (max - start)] probes are sent, rounded up, whatever the
    answers.  Until the search is done the next probe is due at some time, so that it does not
    get stuck.  The sizes reported grow, as the congestion controller demands.  On a path
    that carries the sizes up to [path] and no others, the size that is found is at
    most [path] and [max], and less than these by at most [maxMTUDiff + 1] bytes. *)
Theorem mtu_search_ends start max t0 ps f sizes incs : 0 ≤ start ≤ max → max ≤ 2 ^ 16 → mtu_run (newMTUDiscoverer start max t0) ps = Some (f, sizes, incs) →
  Z.of_nat (length ps) ≤ Z.log2_up (max - start) ∧ start ≤ mf_current f ≤ max ∧ sizes_grow start (ev_size <$> incs) = Some (mf_current f) ∧
  (if mtu_done f then ∀ r now, ShouldSendProbe f r now = false
   else ∀ r, ∃ t, ∀ now, t ≤ now → ShouldSendProbe f r now = true) ∧
  ∀ path, answers_of path sizes → start ≤ path → mtu_done f = true → Z.min path max - (maxMTUDiff + 1) ≤ mf_current f ≤ Z.min path max.
Proof.
  intros Hs Hm E. destruct (mtu_run_inv ps (newMTUDiscoverer start max t0) f sizes incs (proj1 Hs) (proj2 Hs) Hm eq_refl E) as (L & F & B1 & B2 & G & P). cbn in L, B1, B2, G, P.
  split_and!; [done|lia|lia|done| |].
  - destruct (mtu_done f) eqn:Ed; [intros r now; unfold ShouldSendProbe; by rewrite Ed, orb_true_r|]. intros r. exists (NextProbeTime f r). intros now Hn.
    unfold ShouldSendProbe. rewrite F, Ed. cbn. apply negb_true_iff, Z.ltb_ge. done.
  - intros path Ha Hp Hd. destruct (P path Ha Hp) as [P1 P2]. unfold mtu_done, maxMTUDiff in *. lia.
Qed.

(** A path of 1400 bytes, from 1252 up to 1452 bytes. *)
Definition ex_probes : list probe := (λ '(t, ok), mk_probe NewRTTStats t ok) <$> [(10, true); (20, false); (30, true); (40, true)].

Lemma mtu_search_ends_witness : ∃ f sizes incs, mtu_run (newMTUDiscoverer 1252 1452 0) ex_probes = Some (f, sizes, incs) ∧
  mtu_done f = true ∧ mf_current f = 1389 ∧ incs = [1352; 1377; 1389] ∧ 1400 - 21 ≤ mf_current f ≤ 1400.
Proof.
  pose proof (mtu_search_ends 1252 1452 0 ex_probes) as H. destruct (mtu_run (newMTUDiscoverer 1252 1452 0) ex_probes) as [[[f sizes] incs]|] eqn:E; [|vm_compute in E; discriminate E].
  exists f, sizes, incs. specialize (H f sizes incs ltac:(lia) ltac:(lia) eq_refl) as (_ & _ & _ & _ & H). specialize (H 1400).
  vm_compute in E. injection E as <- <- <-. split; [reflexivity|]. split; [reflexivity|]. split; [reflexivity|]. split; [reflexivity|].
  apply H; [repeat constructor|lia|reflexivity].
Defined.
