(* ===== verification/QuicParameters.v ===== *)
(** * Transport parameters ([internal/wire/transport_parameters.go])

    The parameters that the peers exchange in the handshake, and those a server keeps
    in a session ticket.  A [time.Duration] is a number of nanoseconds, a nil pointer is
    [None].  The random identifier and bytes of the greased parameter are arguments. *)

From stdpp Require Import base list numbers strings sorting.
From Stdlib Require Import ZArith Lia.
From S2P Require Import Prelude QuicProtocol QuicFrames QuicRtt.

Definition transportParameterMarshalingVersion : Z := 1.

Definition originalDestinationConnectionIDParameterID : Z := 0.
Definition maxIdleTimeoutParameterID : Z := 1.
Definition statelessResetTokenParameterID : Z := 2.
Definition maxUDPPayloadSizeParameterID : Z := 3.
Definition initialMaxDataParameterID : Z := 4.
Definition initialMaxStreamDataBidiLocalParameterID : Z := 5.
Definition initialMaxStreamDataBidiRemoteParameterID : Z := 6.
Definition initialMaxStreamDataUniParameterID : Z := 7.
Definition initialMaxStreamsBidiParameterID : Z := 8.
Definition initialMaxStreamsUniParameterID : Z := 9.
Definition ackDelayExponentParameterID : Z := 10.
Definition maxAckDelayParameterID : Z := 11.
Definition disableActiveMigrationParameterID : Z := 12.
Definition preferredAddressParameterID : Z := 13.
Definition activeConnectionIDLimitParameterID : Z := 14.
Definition initialSourceConnectionIDParameterID : Z := 15.
Definition retrySourceConnectionIDParameterID : Z := 16.
Definition maxDatagramFrameSizeParameterID : Z := 32.

Definition MinRemoteIdleTimeout : Z := 5000 * Millisecond.
Definition MaxAckDelayExponent : Z := 20.
Definition DefaultMaxAckDelay : Z := 25 * Millisecond.
Definition MaxMaxAckDelay : Z := (Z.shiftl 1 14 - 1) * Millisecond.

Record PreferredAddress := {
  pa_IPv4 : list Z;
  pa_IPv4Port : Z;
  pa_IPv6 : list Z;
  pa_IPv6Port : Z;
  pa_ConnectionID : list Z;
  pa_StatelessResetToken : list Z;
}.

Record TransportParameters := mk_parameters {
  tp_InitialMaxStreamDataBidiLocal : Z;
  tp_InitialMaxStreamDataBidiRemote : Z;
  tp_InitialMaxStreamDataUni : Z;
  tp_InitialMaxData : Z;
  tp_MaxAckDelay : Z;
  tp_AckDelayExponent : Z;
  tp_DisableActiveMigration : bool;
  tp_MaxUDPPayloadSize : Z;
  tp_MaxUniStreamNum : Z;
  tp_MaxBidiStreamNum : Z;
  tp_MaxIdleTimeout : Z;
  tp_PreferredAddress : option PreferredAddress;
  tp_OriginalDestinationConnectionID : list Z;
  tp_InitialSourceConnectionID : list Z;
  tp_RetrySourceConnectionID : option (list Z);
  tp_StatelessResetToken : option (list Z);
  tp_ActiveConnectionIDLimit : Z;
  tp_MaxDatagramFrameSize : Z;
}.

#[global] Instance TransportParameters_fields : Fields TransportParameters := λ p,
  mk_parameters (tp_InitialMaxStreamDataBidiLocal p) (tp_InitialMaxStreamDataBidiRemote p) (tp_InitialMaxStreamDataUni p) (tp_InitialMaxData p)
    (tp_MaxAckDelay p) (tp_AckDelayExponent p) (tp_DisableActiveMigration p) (tp_MaxUDPPayloadSize p) (tp_MaxUniStreamNum p) (tp_MaxBidiStreamNum p)
    (tp_MaxIdleTimeout p) (tp_PreferredAddress p) (tp_OriginalDestinationConnectionID p) (tp_InitialSourceConnectionID p)
    (tp_RetrySourceConnectionID p) (tp_StatelessResetToken p) (tp_ActiveConnectionIDLimit p) (tp_MaxDatagramFrameSize p).

(** The zero value. *)
Definition no_parameters : TransportParameters := mk_parameters 0 0 0 0 0 0 false 0 0 0 0 None [] [] None None 0 0.

(** ** Reading *)

(** The value of a numeric parameter is stored. *)
Definition set_numeric (p : TransportParameters) (paramID val : Z) : outcome TransportParameters :=
  if paramID =? initialMaxStreamDataBidiLocalParameterID then Ret (p <| tp_InitialMaxStreamDataBidiLocal := val |>)
  else if paramID =? initialMaxStreamDataBidiRemoteParameterID then Ret (p <| tp_InitialMaxStreamDataBidiRemote := val |>)
  else if paramID =? initialMaxStreamDataUniParameterID then Ret (p <| tp_InitialMaxStreamDataUni := val |>)
  else if paramID =? initialMaxDataParameterID then Ret (p <| tp_InitialMaxData := val |>)
  else if paramID =? initialMaxStreamsBidiParameterID then
    if MaxStreamCount <? val then Err (GoError "initial_max_streams_bidi too large") else Ret (p <| tp_MaxBidiStreamNum := val |>)
  else if paramID =? initialMaxStreamsUniParameterID then
    if MaxStreamCount <? val then Err (GoError "initial_max_streams_uni too large") else Ret (p <| tp_MaxUniStreamNum := val |>)
  else if paramID =? maxIdleTimeoutParameterID then Ret (p <| tp_MaxIdleTimeout := MaxDuration MinRemoteIdleTimeout (i64 (val * Millisecond)) |>)
  else if paramID =? maxUDPPayloadSizeParameterID then
    if val <? 1200 then Err (GoError "invalid value for max_packet_size") else Ret (p <| tp_MaxUDPPayloadSize := val |>)
  else if paramID =? ackDelayExponentParameterID then
    if MaxAckDelayExponent <? val then Err (GoError "invalid value for ack_delay_exponent") else Ret (p <| tp_AckDelayExponent := u8 val |>)
  else if paramID =? maxAckDelayParameterID then
    if Z.quot MaxMaxAckDelay Millisecond <? val then Err (GoError "invalid value for max_ack_delay")
    else Ret (p <| tp_MaxAckDelay := i64 (val * Millisecond) |>)
  else if paramID =? activeConnectionIDLimitParameterID then Ret (p <| tp_ActiveConnectionIDLimit := val |>)
  else if paramID =? maxDatagramFrameSizeParameterID then Ret (p <| tp_MaxDatagramFrameSize := val |>)
  else Err (GoError "TransportParameter BUG: transport parameter not found").

Definition lift {A} (o : outcome A) : reader A := λ r, a ← o; Ret (a, r).

Definition readNumericTransportParameter (p : TransportParameters) (paramID expectedLen : Z) : reader TransportParameters :=
  remainingLen ← ReaderLen;
  val ← (λ r, match quicvarint_Read r with Err _ => Err (GoError "error while reading transport parameter") | res => res end);
  len ← ReaderLen;
  if negb (remainingLen - len =? expectedLen) then rfail (GoError "inconsistent transport parameter length for transport parameter") else
  lift (set_numeric p paramID val).

Definition readPreferredAddress (p : TransportParameters) (expectedLen : Z) : reader TransportParameters :=
  remainingLen ← ReaderLen;
  ipv4 ← ReadFull 4;
  port4 ← BigEndian_ReadUint16;
  ipv6 ← ReadFull 16;
  port6 ← BigEndian_ReadUint16;
  connIDLen ← ReadByte;
  if (connIDLen =? 0) || (MaxConnIDLen <? connIDLen) then rfail (GoError "invalid connection ID length") else
  connID ← ReadConnectionID connIDLen;
  token ← ReadFull 16;
  len ← ReaderLen;
  if negb (remainingLen - len =? expectedLen) then rfail (GoError "expected preferred_address to be longer") else
  mret (p <| tp_PreferredAddress := Some {| pa_IPv4 := ipv4; pa_IPv4Port := port4; pa_IPv6 := ipv6; pa_IPv6Port := port6;
                                            pa_ConnectionID := connID; pa_StatelessResetToken := token |} |>).

(** [ReadConnectionID] with its error ignored; then the connection ID is nil. *)
Definition ReadConnectionID_ (len : Z) : reader (list Z) := λ r,
  match ReadConnectionID len r with Err _ => Ret ([], []) | res => res end.

(** The local variables of [unmarshal]. *)
Record unmarshal_state := mk_unmarshal {
  um_p : TransportParameters;
  um_readOriginalDestinationConnectionID : bool;
  um_readInitialSourceConnectionID : bool;
}.

#[global] Instance unmarshal_state_fields : Fields unmarshal_state := λ s,
  mk_unmarshal (um_p s) (um_readOriginalDestinationConnectionID s) (um_readInitialSourceConnectionID s).

Definition numeric (paramID : Z) : bool :=
  bool_decide (paramID ∈ [maxIdleTimeoutParameterID; maxUDPPayloadSizeParameterID; initialMaxDataParameterID; initialMaxStreamDataBidiLocalParameterID;
    initialMaxStreamDataBidiRemoteParameterID; initialMaxStreamDataUniParameterID; initialMaxStreamsBidiParameterID; initialMaxStreamsUniParameterID;
    maxAckDelayParameterID; activeConnectionIDLimitParameterID; maxDatagramFrameSizeParameterID; ackDelayExponentParameterID]).

(** One parameter, after its identifier and its length. *)
Definition unmarshal_parameter (sentBy : Perspective) (s : unmarshal_state) (paramID paramLen : Z) : reader unmarshal_state :=
  let client := bool_decide (sentBy = PerspectiveClient) in
  if numeric paramID then p ← readNumericTransportParameter (um_p s) paramID paramLen; mret (s <| um_p := p |>)
  else if paramID =? preferredAddressParameterID then
    if client then rfail (GoError "client sent a preferred_address") else
    p ← readPreferredAddress (um_p s) paramLen; mret (s <| um_p := p |>)
  else if paramID =? disableActiveMigrationParameterID then
    if negb (paramLen =? 0) then rfail (GoError "wrong length for disable_active_migration")
    else mret (s <| um_p ::= λ p, p <| tp_DisableActiveMigration := true |> |>)
  else if paramID =? statelessResetTokenParameterID then
    if client then rfail (GoError "client sent a stateless_reset_token") else
    if negb (paramLen =? 16) then rfail (GoError "wrong length for stateless_reset_token") else
    token ← ReadInto 16; mret (s <| um_p ::= λ p, p <| tp_StatelessResetToken := Some token |> |>)
  else if paramID =? originalDestinationConnectionIDParameterID then
    if client then rfail (GoError "client sent an original_destination_connection_id") else
    connID ← ReadConnectionID_ paramLen;
    mret (s <| um_p ::= λ p, p <| tp_OriginalDestinationConnectionID := connID |> |> <| um_readOriginalDestinationConnectionID := true |>)
  else if paramID =? initialSourceConnectionIDParameterID then
    connID ← ReadConnectionID_ paramLen;
    mret (s <| um_p ::= λ p, p <| tp_InitialSourceConnectionID := connID |> |> <| um_readInitialSourceConnectionID := true |>)
  else if paramID =? retrySourceConnectionIDParameterID then
    if client then rfail (GoError "client sent a retry_source_connection_id") else
    connID ← ReadConnectionID_ paramLen; mret (s <| um_p ::= λ p, p <| tp_RetrySourceConnectionID := Some connID |> |>)
  else λ r, Ret (s, drop (Z.to_nat paramLen) r).

(** The loop over the parameters. *)
Fixpoint unmarshal_loop (fuel : nat) (sentBy : Perspective) (s : unmarshal_state) (parameterIDs : list Z) (r : list Z) : outcome (unmarshal_state * list Z) :=
  match r, fuel with
  | [], _ => Ret (s, parameterIDs)
  | _, O => Panic "out of fuel"
  | _, S fuel =>
      '(paramID, r) ← quicvarint_Read r;
      '(paramLen, r) ← quicvarint_Read r;
      if zlen r <? paramLen then Err (GoError "remaining length smaller than parameter length") else
      '(s, r) ← unmarshal_parameter sentBy s paramID paramLen r;
      unmarshal_loop fuel sentBy s (parameterIDs ++ [paramID]) r
  end.

Fixpoint adjacent_equal (l : list Z) : bool :=
  match l with
  | x :: (y :: _) as l => (x =? y) || adjacent_equal l
  | _ => false
  end.

Definition unmarshal (p : TransportParameters) (r : list Z) (sentBy : Perspective) (fromSessionTicket : bool) : outcome TransportParameters :=
  let p := p <| tp_AckDelayExponent := DefaultAckDelayExponent |> <| tp_MaxAckDelay := DefaultMaxAckDelay |> <| tp_MaxDatagramFrameSize := InvalidByteCount |> in
  '(s, parameterIDs) ← unmarshal_loop (length r) sentBy (mk_unmarshal p false false) [] r;
  let p := um_p s in
  p ← (if fromSessionTicket then Ret p else
       if bool_decide (sentBy = PerspectiveServer) && negb (um_readOriginalDestinationConnectionID s)
       then Err (GoError "missing original_destination_connection_id") else
       let p := if tp_MaxUDPPayloadSize p =? 0 then p <| tp_MaxUDPPayloadSize := MaxByteCount |> else p in
       if negb (um_readInitialSourceConnectionID s) then Err (GoError "missing initial_source_connection_id") else Ret p);
  if adjacent_equal (merge_sort Z.le parameterIDs) then Err (GoError "received duplicate transport parameter") else Ret p.

(** The error is a [TransportParameterError] with the message of [unmarshal]. *)
Definition Unmarshal (p : TransportParameters) (data : list Z) (sentBy : Perspective) : outcome TransportParameters := unmarshal p data sentBy false.

(** ** Writing *)

Definition marshalVarintParam (id val : Z) : outcome (list Z) :=
  writes [quicvarint_Write id; (len ← quicvarint_Len val; quicvarint_Write len); quicvarint_Write val].

(** The slice of the last four bytes. *)
Definition last4 (ip : list Z) : outcome (list Z) :=
  if zlen ip <? 4 then Panic "slice bounds out of range" else Ret (drop (length ip - 4) ip).

(** [g] and [randomData] are [rand.Intn(100)] and [rand.Intn(16)] random bytes. *)
Definition Marshal (p : TransportParameters) (pers : Perspective) (g : Z) (randomData : list Z) : outcome (list Z) :=
  let server := bool_decide (pers = PerspectiveServer) in
  writes (
    [quicvarint_Write (27 + 31 * g); quicvarint_Write (zlen randomData); Ret randomData;
     marshalVarintParam initialMaxStreamDataBidiLocalParameterID (u64 (tp_InitialMaxStreamDataBidiLocal p));
     marshalVarintParam initialMaxStreamDataBidiRemoteParameterID (u64 (tp_InitialMaxStreamDataBidiRemote p));
     marshalVarintParam initialMaxStreamDataUniParameterID (u64 (tp_InitialMaxStreamDataUni p));
     marshalVarintParam initialMaxDataParameterID (u64 (tp_InitialMaxData p));
     marshalVarintParam initialMaxStreamsBidiParameterID (u64 (tp_MaxBidiStreamNum p));
     marshalVarintParam initialMaxStreamsUniParameterID (u64 (tp_MaxUniStreamNum p));
     marshalVarintParam maxIdleTimeoutParameterID (u64 (Z.quot (tp_MaxIdleTimeout p) Millisecond));
     marshalVarintParam maxUDPPayloadSizeParameterID MaxPacketBufferSize] ++
    (if negb (tp_MaxAckDelay p =? DefaultMaxAckDelay) then [marshalVarintParam maxAckDelayParameterID (u64 (Z.quot (tp_MaxAckDelay p) Millisecond))] else []) ++
    (if negb (tp_AckDelayExponent p =? DefaultAckDelayExponent) then [marshalVarintParam ackDelayExponentParameterID (tp_AckDelayExponent p)] else []) ++
    (if tp_DisableActiveMigration p then [quicvarint_Write disableActiveMigrationParameterID; quicvarint_Write 0] else []) ++
    (if server then
       match tp_StatelessResetToken p with
       | Some token => [quicvarint_Write statelessResetTokenParameterID; quicvarint_Write 16; Ret token]
       | None => []
       end ++
       [quicvarint_Write originalDestinationConnectionIDParameterID; quicvarint_Write (zlen (tp_OriginalDestinationConnectionID p));
        Ret (tp_OriginalDestinationConnectionID p)] ++
       match tp_PreferredAddress p with
       | Some a => [quicvarint_Write preferredAddressParameterID; quicvarint_Write (4 + 2 + 16 + 2 + 1 + zlen (pa_ConnectionID a) + 16); last4 (pa_IPv4 a);
                    Ret (BigEndian_WriteUint16 (pa_IPv4Port a)); Ret (pa_IPv6 a); Ret (BigEndian_WriteUint16 (pa_IPv6Port a));
                    WriteByte (u8 (zlen (pa_ConnectionID a))); Ret (pa_ConnectionID a); Ret (pa_StatelessResetToken a)]
       | None => []
       end
     else []) ++
    [marshalVarintParam activeConnectionIDLimitParameterID (tp_ActiveConnectionIDLimit p);
     quicvarint_Write initialSourceConnectionIDParameterID; quicvarint_Write (zlen (tp_InitialSourceConnectionID p)); Ret (tp_InitialSourceConnectionID p)] ++
    (if server then
       match tp_RetrySourceConnectionID p with
       | Some c => [quicvarint_Write retrySourceConnectionIDParameterID; quicvarint_Write (zlen c); Ret c]
       | None => []
       end
     else []) ++
    (if negb (tp_MaxDatagramFrameSize p =? InvalidByteCount)
     then [marshalVarintParam maxDatagramFrameSizeParameterID (u64 (tp_MaxDatagramFrameSize p))] else [])).

(** ** Session tickets *)

Definition MarshalForSessionTicket (p : TransportParameters) : outcome (list Z) :=
  writes
    [quicvarint_Write transportParameterMarshalingVersion;
     marshalVarintParam initialMaxStreamDataBidiLocalParameterID (u64 (tp_InitialMaxStreamDataBidiLocal p));
     marshalVarintParam initialMaxStreamDataBidiRemoteParameterID (u64 (tp_InitialMaxStreamDataBidiRemote p));
     marshalVarintParam initialMaxStreamDataUniParameterID (u64 (tp_InitialMaxStreamDataUni p));
     marshalVarintParam initialMaxDataParameterID (u64 (tp_InitialMaxData p));
     marshalVarintParam initialMaxStreamsBidiParameterID (u64 (tp_MaxBidiStreamNum p));
     marshalVarintParam initialMaxStreamsUniParameterID (u64 (tp_MaxUniStreamNum p));
     marshalVarintParam activeConnectionIDLimitParameterID (tp_ActiveConnectionIDLimit p)].

Definition UnmarshalFromSessionTicket (p : TransportParameters) (r : list Z) : outcome TransportParameters :=
  '(version, r) ← quicvarint_Read r;
  if negb (version =? transportParameterMarshalingVersion) then Err (GoError "unknown transport parameter marshaling version") else
  unmarshal p r PerspectiveServer true.

Definition ValidFor0RTT (p saved : TransportParameters) : bool :=
  (tp_InitialMaxStreamDataBidiLocal saved <=? tp_InitialMaxStreamDataBidiLocal p) &&
  (tp_InitialMaxStreamDataBidiRemote saved <=? tp_InitialMaxStreamDataBidiRemote p) &&
  (tp_InitialMaxStreamDataUni saved <=? tp_InitialMaxStreamDataUni p) &&
  (tp_InitialMaxData saved <=? tp_InitialMaxData p) &&
  (tp_MaxBidiStreamNum saved <=? tp_MaxBidiStreamNum p) &&
  (tp_MaxUniStreamNum saved <=? tp_MaxUniStreamNum p) &&
  (tp_ActiveConnectionIDLimit p =? tp_ActiveConnectionIDLimit saved).
