(* ===== verification/QuicParametersTheorems.v ===== *)
(** * Transport parameters survive the handshake

    What a peer marshals the other one unmarshals; all bytes are accepted with
    parameters within their limits, or refused with an error. *)

From stdpp Require Import base list numbers strings sorting.
From Stdlib Require Import ZArith Lia.
From S2P Require Import Prelude QuicProtocol QuicFrames QuicFrameCodec QuicAck QuicFrameTheorems QuicRtt QuicParameters.

(** ** Duplicates *)

Lemma adjacent_sorted l : Sorted Z.le l → adjacent_equal l = false ↔ NoDup l.
Proof.
  intros Hs. apply Sorted_StronglySorted in Hs; [|typeclasses eauto]. induction Hs as [|x l Hs IH Hx]; [by split; [constructor|]|].
  destruct l as [|y l]; [split; [intros _; apply NoDup_singleton|done]|].
  change (adjacent_equal (x :: y :: l)) with ((x =? y) || adjacent_equal (y :: l)). rewrite orb_false_iff, IH, (NoDup_cons x).
  split; intros [H1 H2]; (split; [|done]).
  - intros Hin. apply Forall_cons in Hx as [Hxy _]. apply elem_of_cons in Hin as [->|Hin]; [lia|]. apply StronglySorted_inv in Hs as [_ Hs].
    rewrite Forall_forall in Hs. specialize (Hs x Hin). lia.
  - apply Z.eqb_neq. intros ->. apply H1. left.
Qed.

Lemma sorted_duplicates l : adjacent_equal (merge_sort Z.le l) = false ↔ NoDup l.
Proof. rewrite adjacent_sorted by (apply Sorted_merge_sort; typeclasses eauto). by rewrite merge_sort_Permutation. Qed.

(** ** Runs over parameters that were written *)

(** Selects the case of a parameter. *)
Ltac param_case :=
  cbv [preferredAddressParameterID disableActiveMigrationParameterID statelessResetTokenParameterID originalDestinationConnectionIDParameterID
    initialSourceConnectionIDParameterID retrySourceConnectionIDParameterID]; cbn [Z.eqb Pos.eqb negb];
  try change (bool_decide (PerspectiveServer = PerspectiveClient)) with false; cbv beta iota.

Section Runs.
Variable sentBy : Perspective.

(** What is written by [ws] is read from the state [s] to the state [s'], as the parameters [ids]. *)
Definition reads (ws : list (outcome (list Z))) (ids : list Z) (s s' : unmarshal_state) : Prop :=
  ∃ bs, writes ws = Ret bs ∧ (length ids ≤ length bs)%nat ∧
    ∀ fuel ids0 r, (length ids ≤ fuel)%nat → unmarshal_loop fuel sentBy s ids0 (bs ++ r) = unmarshal_loop (fuel - length ids) sentBy s' (ids0 ++ ids) r.

Lemma reads_nil s : reads [] [] s s.
Proof. exists []. split_and!; [done|cbn; lia|]. intros fuel ids0 r _. cbn. by rewrite app_nil_r, Nat.sub_0_r. Qed.

Lemma reads_app ws1 ws2 ids1 ids2 s1 s2 s3 : reads ws1 ids1 s1 s2 → reads ws2 ids2 s2 s3 → reads (ws1 ++ ws2) (ids1 ++ ids2) s1 s3.
Proof.
  intros (b1 & W1 & L1 & R1) (b2 & W2 & L2 & R2). exists (b1 ++ b2). rewrite writes_app, W1, W2. cbn [mbind outcome_bind]. rewrite !length_app.
  split_and!; [done|lia|]. intros fuel ids0 r Hf. rewrite <- app_assoc, R1, R2 by lia. f_equal; [lia|by rewrite app_assoc].
Qed.

(** Parameters that are sent under a condition, or when they are set. *)
Lemma reads_if (b : bool) ws ids s s' : (b = true → reads ws ids s s') → (b = false → s = s') → reads (if b then ws else []) (if b then ids else []) s s'.
Proof. destruct b; [auto|]. intros _ H. rewrite (H eq_refl). apply reads_nil. Qed.

Lemma reads_option {A} (o : option A) (ws : A → list (outcome (list Z))) id s s' : (∀ x, o = Some x → reads (ws x) [id] s s') → (o = None → s = s') →
  reads (match o with Some x => ws x | None => [] end) (match o with Some _ => [id] | None => [] end) s s'.
Proof. destruct o as [x|]; [auto|]. intros _ H. rewrite (H eq_refl). apply reads_nil. Qed.

(** One parameter: its identifier, its length, its bytes. *)
Lemma reads_one id body s s' ws : is_varint id → is_varint (zlen body) →
  writes ws = Ret body → (∀ r, unmarshal_parameter sentBy s id (zlen body) (body ++ r) = Ret (s', r)) →
  reads (quicvarint_Write id :: quicvarint_Write (zlen body) :: ws) [id] s s'.
Proof.
  intros Hid Hl Hw Hr. destruct (varint_field id Hid) as (bi & W1 & _ & R1). destruct (varint_field (zlen body) Hl) as (bl & W2 & _ & R2).
  assert (bi ≠ []) as Hne. { intros ->. specialize (R1 []). done. }
  exists (bi ++ bl ++ body). cbn [writes]. rewrite W1, W2, Hw. cbn [mbind outcome_bind]. split_and!; [done|destruct bi; [done|cbn; lia]|].
  intros [|fuel] ids0 r Hf; [cbn in Hf; lia|]. rewrite <- !app_assoc.
  assert (∃ x l, bi ++ bl ++ body ++ r = x :: l) as (x & l & E) by (destruct bi as [|x bi]; [done|by exists x, (bi ++ bl ++ body ++ r)]).
  cbn [unmarshal_loop length]. rewrite E, <- E, R1. cbn [mbind outcome_bind]. rewrite R2. cbn [mbind outcome_bind].
  rewrite (proj2 (Z.ltb_ge _ _)) by (rewrite zlen_app; pose proof (zlen_nonneg r); lia). rewrite Hr. cbn [mbind outcome_bind]. by rewrite Nat.sub_1_r.
Qed.

Lemma reads_varint id val s p' : numeric id = true → is_varint id → is_varint val → set_numeric (um_p s) id val = Ret p' →
  reads [marshalVarintParam id val] [id] s (s <| um_p := p' |>).
Proof.
  intros Hn Hid Hv Hp. destruct (varint_field val Hv) as (bv & Wv & Lv & Rv). pose proof (quicvarint_Len_bounds _ _ Lv) as Hb.
  destruct (reads_one id bv s (s <| um_p := p' |>) [quicvarint_Write val] Hid ltac:(unfold maxVarInt8; lia)) as (bs & W & L & R).
  - cbn [writes]. rewrite Wv. cbn. by rewrite app_nil_r.
  - intros r. unfold unmarshal_parameter. rewrite Hn. rewrite (reader_bind_Ret _ _ _ p' r); [done|]. unfold readNumericTransportParameter.
    erewrite reader_bind_Ret by reflexivity. erewrite reader_bind_Ret by (rewrite Rv; reflexivity). erewrite reader_bind_Ret by reflexivity.
    fold (zlen (bv ++ r)). fold (zlen r). rewrite zlen_app. replace (zlen bv + zlen r - zlen r =? zlen bv) with true by (symmetry; apply Z.eqb_eq; lia).
    cbn [negb]. unfold lift. by rewrite Hp.
  - exists bs. split; [|done]. rewrite <- W. unfold marshalVarintParam. cbn [writes]. rewrite Lv. cbn [mbind outcome_bind].
    destruct (quicvarint_Write id); [|done..]. cbn [mbind outcome_bind]. destruct (quicvarint_Write (zlen bv)); [|done..]. cbn [mbind outcome_bind]. rewrite Wv. cbn [mbind outcome_bind].
    by rewrite !app_nil_r.
Qed.

Lemma reads_bytes id body s s' : is_varint id → is_varint (zlen body) → (∀ r, unmarshal_parameter sentBy s id (zlen body) (body ++ r) = Ret (s', r)) →
  reads [quicvarint_Write id; quicvarint_Write (zlen body); Ret body] [id] s s'.
Proof. intros. apply reads_one; try done. cbn. by rewrite app_nil_r. Qed.

Lemma ReadConnectionID_ignored c r : ReadConnectionID_ (zlen c) (c ++ r) = Ret (c, r).
Proof. unfold ReadConnectionID_. by rewrite ReadConnectionID_app. Qed.

Lemma unknown_parameter s id body r : numeric id = false → id ∉ [0; 2; 12; 13; 15; 16] → unmarshal_parameter sentBy s id (zlen body) (body ++ r) = Ret (s, r).
Proof.
  intros Hn Hid. unfold unmarshal_parameter. rewrite Hn. rewrite !not_elem_of_cons in Hid. destruct Hid as (H0 & H1 & H2 & H3 & H4 & H5 & _).
  unfold preferredAddressParameterID, disableActiveMigrationParameterID, statelessResetTokenParameterID, originalDestinationConnectionIDParameterID,
    initialSourceConnectionIDParameterID, retrySourceConnectionIDParameterID.
  rewrite !(proj2 (Z.eqb_neq id _)) by done. unfold zlen. by rewrite Nat2Z.id, drop_app_length.
Qed.

(** The preferred address. *)
Record address_ok (a : PreferredAddress) : Prop := {
  ao_v4 : length (pa_IPv4 a) = 4%nat;
  ao_p4 : uint 16 (pa_IPv4Port a);
  ao_v6 : length (pa_IPv6 a) = 16%nat;
  ao_p6 : uint 16 (pa_IPv6Port a);
  ao_id : 0 < zlen (pa_ConnectionID a) <= MaxConnIDLen;
  ao_token : length (pa_StatelessResetToken a) = 16%nat;
}.

Lemma reads_address a s : sentBy = PerspectiveServer → address_ok a →
  reads [quicvarint_Write preferredAddressParameterID; quicvarint_Write (4 + 2 + 16 + 2 + 1 + zlen (pa_ConnectionID a) + 16); last4 (pa_IPv4 a);
         Ret (BigEndian_WriteUint16 (pa_IPv4Port a)); Ret (pa_IPv6 a); Ret (BigEndian_WriteUint16 (pa_IPv6Port a));
         WriteByte (u8 (zlen (pa_ConnectionID a))); Ret (pa_ConnectionID a); Ret (pa_StatelessResetToken a)]
    [preferredAddressParameterID] s (s <| um_p ::= λ p, p <| tp_PreferredAddress := Some a |> |>).
Proof.
  intros Hsrv [A1 A2 A3 A4 A5 A6]. unfold MaxConnIDLen in A5. set (body := pa_IPv4 a ++ BigEndian_WriteUint16 (pa_IPv4Port a) ++ pa_IPv6 a ++ BigEndian_WriteUint16 (pa_IPv6Port a) ++
    [zlen (pa_ConnectionID a)] ++ pa_ConnectionID a ++ pa_StatelessResetToken a).
  assert (zlen body = 4 + 2 + 16 + 2 + 1 + zlen (pa_ConnectionID a) + 16) as Hl.
  { unfold body, zlen. rewrite !length_app, A1, A3, A6. cbn [length BigEndian_WriteUint16]. lia. }
  rewrite <- Hl. apply (reads_one _ body); [unfold preferredAddressParameterID, maxVarInt8; lia|unfold maxVarInt8; lia| |].
  - cbn [writes]. unfold last4, WriteByte. rewrite (proj2 (Z.ltb_ge (zlen (pa_IPv4 a)) 4)) by (unfold zlen; lia). rewrite A1. cbn [Nat.sub drop mbind outcome_bind].
    rewrite app_nil_r. replace (u8 (zlen (pa_ConnectionID a))) with (zlen (pa_ConnectionID a)) by (symmetry; apply wrap_small; unfold uint; lia). done.
  - intros r. unfold unmarshal_parameter. change (numeric preferredAddressParameterID) with false. cbv beta iota. change (preferredAddressParameterID =? preferredAddressParameterID) with true.
    rewrite Hsrv. cbv beta iota. change (bool_decide (PerspectiveServer = PerspectiveClient)) with false. cbv beta iota. rewrite (reader_bind_Ret _ _ _ ((um_p s) <| tp_PreferredAddress := Some a |>) r); [by destruct s|]. unfold readPreferredAddress.
    erewrite reader_bind_Ret by reflexivity. unfold body. rewrite <- !app_assoc.
    erewrite reader_bind_Ret by (apply ReadFull_app; done). erewrite reader_bind_Ret by apply BigEndian_Uint16. erewrite reader_bind_Ret by (apply ReadFull_app; done).
    erewrite reader_bind_Ret by apply BigEndian_Uint16. erewrite reader_bind_Ret by reflexivity. cbv beta.
    replace ((zlen (pa_ConnectionID a) =? 0) || (MaxConnIDLen <? zlen (pa_ConnectionID a))) with false by (unfold MaxConnIDLen; lia).
    erewrite reader_bind_Ret by apply ReadConnectionID_app. erewrite reader_bind_Ret by (apply ReadFull_app; done). erewrite reader_bind_Ret by reflexivity. cbv beta.
    fold body. match goal with |- context [negb ?b] => replace b with true end.
    + cbn [negb]. unfold mret, reader_ret. rewrite !wrap_small by done. by destruct a.
    + symmetry. apply Z.eqb_eq. rewrite Hl. change (Z.of_nat (length r)) with (zlen r). rewrite !app_assoc. fold body.
      match goal with |- Z.of_nat (length ?x) - _ = _ => replace x with (body ++ r) by (unfold body; by rewrite <- !app_assoc) end.
      change (Z.of_nat (length (body ++ r))) with (zlen (body ++ r)). rewrite zlen_app. lia.
Qed.

Lemma reads_cons_varint id val s p' ws ids s' : numeric id = true → is_varint id → is_varint val → set_numeric (um_p s) id val = Ret p' →
  reads ws ids (s <| um_p := p' |>) s' → reads (marshalVarintParam id val :: ws) (id :: ids) s s'.
Proof. intros H1 H2 H3 H4 H5. exact (reads_app _ ws [id] ids s _ s' (reads_varint id val s p' H1 H2 H3 H4) H5). Qed.

Lemma reads_cons_bytes id body s s1 ws ids s' : is_varint id → is_varint (zlen body) → (∀ r, unmarshal_parameter sentBy s id (zlen body) (body ++ r) = Ret (s1, r)) →
  reads ws ids s1 s' → reads (quicvarint_Write id :: quicvarint_Write (zlen body) :: Ret body :: ws) (id :: ids) s s'.
Proof. intros H1 H2 H3 H4. exact (reads_app _ ws [id] ids s s1 s' (reads_bytes id body s s1 H1 H2 H3) H4). Qed.

Lemma reads_source_id c s : is_varint (zlen c) →
  reads [quicvarint_Write initialSourceConnectionIDParameterID; quicvarint_Write (zlen c); Ret c] [initialSourceConnectionIDParameterID] s
    (s <| um_p ::= λ p, p <| tp_InitialSourceConnectionID := c |> |> <| um_readInitialSourceConnectionID := true |>).
Proof.
  intros Hc. apply reads_bytes; [unfold initialSourceConnectionIDParameterID, maxVarInt8; lia|done|]. intros r. unfold unmarshal_parameter.
  change (numeric initialSourceConnectionIDParameterID) with false. param_case.
  rewrite (reader_bind_Ret _ _ _ _ _ (ReadConnectionID_ignored c r)). done.
Qed.

Lemma reads_migration s : reads [quicvarint_Write disableActiveMigrationParameterID; quicvarint_Write 0] [disableActiveMigrationParameterID] s
  (s <| um_p ::= λ p, p <| tp_DisableActiveMigration := true |> |>).
Proof. apply (reads_one _ [] _ _ []); [unfold disableActiveMigrationParameterID, maxVarInt8; lia|split; [apply zlen_nonneg|done]|done|]. intros r. done. Qed.

Section Server.
Hypothesis Hserver : sentBy = PerspectiveServer.

Lemma reads_token token s : length token = 16%nat →
  reads [quicvarint_Write statelessResetTokenParameterID; quicvarint_Write 16; Ret token] [statelessResetTokenParameterID] s
    (s <| um_p ::= λ p, p <| tp_StatelessResetToken := Some token |> |>).
Proof.
  intros Ht. assert (16 = zlen token) as -> by (unfold zlen; lia). apply reads_bytes; [unfold statelessResetTokenParameterID, maxVarInt8; lia|unfold zlen, maxVarInt8; lia|]. intros r.
  unfold unmarshal_parameter. rewrite Hserver. change (numeric statelessResetTokenParameterID) with false. replace (zlen token) with 16 by (unfold zlen; lia). param_case.
  rewrite (reader_bind_Ret _ _ _ token r); [done|]. unfold ReadInto. rewrite <- Ht, take_app_length, drop_app_length, length_app.
  replace (length token - (length token + length r))%nat with 0%nat by lia. by rewrite app_nil_r.
Qed.

Lemma reads_original c s : is_varint (zlen c) →
  reads [quicvarint_Write originalDestinationConnectionIDParameterID; quicvarint_Write (zlen c); Ret c] [originalDestinationConnectionIDParameterID] s
    (s <| um_p ::= λ p, p <| tp_OriginalDestinationConnectionID := c |> |> <| um_readOriginalDestinationConnectionID := true |>).
Proof.
  intros Hc. apply reads_bytes; [unfold originalDestinationConnectionIDParameterID, maxVarInt8; lia|done|]. intros r. unfold unmarshal_parameter. rewrite Hserver.
  change (numeric originalDestinationConnectionIDParameterID) with false. param_case. rewrite (reader_bind_Ret _ _ _ _ _ (ReadConnectionID_ignored c r)). done.
Qed.

Lemma reads_retry c s : is_varint (zlen c) →
  reads [quicvarint_Write retrySourceConnectionIDParameterID; quicvarint_Write (zlen c); Ret c] [retrySourceConnectionIDParameterID] s
    (s <| um_p ::= λ p, p <| tp_RetrySourceConnectionID := Some c |> |>).
Proof.
  intros Hc. apply reads_bytes; [unfold retrySourceConnectionIDParameterID, maxVarInt8; lia|done|]. intros r. unfold unmarshal_parameter. rewrite Hserver.
  change (numeric retrySourceConnectionIDParameterID) with false. param_case. rewrite (reader_bind_Ret _ _ _ _ _ (ReadConnectionID_ignored c r)). done.
Qed.
End Server.
End Runs.

(** ** The round trip *)

Record parameters_ok (p : TransportParameters) : Prop := {
  ok_bidi_local : is_varint (tp_InitialMaxStreamDataBidiLocal p);
  ok_bidi_remote : is_varint (tp_InitialMaxStreamDataBidiRemote p);
  ok_uni : is_varint (tp_InitialMaxStreamDataUni p);
  ok_data : is_varint (tp_InitialMaxData p);
  ok_bidi_streams : 0 <= tp_MaxBidiStreamNum p <= MaxStreamCount;
  ok_uni_streams : 0 <= tp_MaxUniStreamNum p <= MaxStreamCount;
  ok_idle : 0 <= tp_MaxIdleTimeout p < 2 ^ 63;
  ok_delay : 0 <= tp_MaxAckDelay p <= MaxMaxAckDelay;
  ok_exponent : 0 <= tp_AckDelayExponent p <= MaxAckDelayExponent;
  ok_limit : is_varint (tp_ActiveConnectionIDLimit p);
  ok_original : is_varint (zlen (tp_OriginalDestinationConnectionID p));
  ok_source : is_varint (zlen (tp_InitialSourceConnectionID p));
  ok_retry : if tp_RetrySourceConnectionID p is Some c then is_varint (zlen c) else True;
  ok_token : if tp_StatelessResetToken p is Some t then length t = 16%nat else True;
  ok_address : if tp_PreferredAddress p is Some a then address_ok a else True;
  ok_datagram : tp_MaxDatagramFrameSize p = InvalidByteCount ∨ is_varint (tp_MaxDatagramFrameSize p);
}.

(** What the peer of [pers] sees: durations in whole milliseconds, an idle timeout of at least
    five seconds, the size of the packet buffers, and only a server's own parameters from it. *)
Definition milliseconds (d : Z) : Z := Z.quot d Millisecond * Millisecond.

Definition received_by_peer (pers : Perspective) (p : TransportParameters) : TransportParameters :=
  let p := p <| tp_MaxAckDelay ::= milliseconds |> <| tp_MaxIdleTimeout ::= λ d, Z.max MinRemoteIdleTimeout (milliseconds d) |> <| tp_MaxUDPPayloadSize := MaxPacketBufferSize |> in
  match pers with
  | PerspectiveServer => p
  | PerspectiveClient => p <| tp_PreferredAddress := None |> <| tp_OriginalDestinationConnectionID := [] |> <| tp_RetrySourceConnectionID := None |> <| tp_StatelessResetToken := None |>
  end.

Lemma small_i64 x : 0 <= x < 2 ^ 63 → i64 x = x.
Proof. intros. apply i64_small. lia. Qed.

Lemma milliseconds_bound d : 0 <= d < 2 ^ 63 → 0 <= Z.quot d Millisecond <= d ∧ 0 <= milliseconds d <= d.
Proof.
  unfold milliseconds, Millisecond. intros Hd. rewrite Z.quot_div_nonneg by lia. pose proof (Z.div_mod d 1000000 ltac:(lia)). pose proof (Z.mod_pos_bound d 1000000 ltac:(lia)). lia.
Qed.

(** The numeric parameters with a limit. *)
Lemma limit_ok {A} (limit v : Z) (e x : A) : v <= limit → (if limit <? v then e else x) = x.
Proof. intros Hv. by rewrite (proj2 (Z.ltb_ge limit v)). Qed.

Lemma set_bidi q v : 0 <= v <= MaxStreamCount → set_numeric q initialMaxStreamsBidiParameterID v = Ret (q <| tp_MaxBidiStreamNum := v |>).
Proof. intros [_ Hv]. exact (limit_ok MaxStreamCount v _ _ Hv). Qed.

Lemma set_uni q v : 0 <= v <= MaxStreamCount → set_numeric q initialMaxStreamsUniParameterID v = Ret (q <| tp_MaxUniStreamNum := v |>).
Proof. intros [_ Hv]. exact (limit_ok MaxStreamCount v _ _ Hv). Qed.

Lemma set_idle q d : 0 <= d < 2 ^ 63 → set_numeric q maxIdleTimeoutParameterID (Z.quot d Millisecond) = Ret (q <| tp_MaxIdleTimeout := Z.max MinRemoteIdleTimeout (milliseconds d) |>).
Proof.
  intros Hd. destruct (milliseconds_bound d Hd) as [_ Hm]. transitivity (Ret (q <| tp_MaxIdleTimeout := MaxDuration MinRemoteIdleTimeout (i64 (milliseconds d)) |>)); [reflexivity|].
  rewrite small_i64 by lia. assert (∀ x y, MaxDuration x y = Z.max x y) as -> by (intros x y; unfold MaxDuration; destruct (y <? x) eqn:E; lia). done.
Qed.

Lemma set_delay q d : 0 <= d <= MaxMaxAckDelay → set_numeric q maxAckDelayParameterID (Z.quot d Millisecond) = Ret (q <| tp_MaxAckDelay := milliseconds d |>).
Proof.
  intros [Hd0 Hd]. assert (d < 2 ^ 63) by (change MaxMaxAckDelay with 16383000000 in Hd; lia). destruct (milliseconds_bound d) as [_ Hm]; [lia|].
  transitivity (if Z.quot MaxMaxAckDelay Millisecond <? Z.quot d Millisecond then Err (GoError "invalid value for max_ack_delay") else Ret (q <| tp_MaxAckDelay := i64 (milliseconds d) |>)); [reflexivity|].
  rewrite limit_ok by (apply Z.quot_le_mono; [done|lia]). by rewrite small_i64 by lia.
Qed.

Lemma set_exponent q v : 0 <= v <= MaxAckDelayExponent → set_numeric q ackDelayExponentParameterID v = Ret (q <| tp_AckDelayExponent := v |>).
Proof.
  unfold MaxAckDelayExponent. intros Hv. transitivity (if MaxAckDelayExponent <? v then Err (GoError "invalid value for ack_delay_exponent") else Ret (q <| tp_AckDelayExponent := u8 v |>)); [reflexivity|].
  unfold MaxAckDelayExponent. rewrite limit_ok by lia. by rewrite (wrap_small 8 v) by (unfold uint; lia).
Qed.

Ltac numeric_step :=
  eapply reads_cons_varint; [reflexivity|by unfold maxVarInt8|done || (unfold maxVarInt8 in *; lia)|reflexivity|].

(** The parameters that are always there. *)
Definition fixed_parameters (p : TransportParameters) : TransportParameters :=
  mk_parameters (tp_InitialMaxStreamDataBidiLocal p) (tp_InitialMaxStreamDataBidiRemote p) (tp_InitialMaxStreamDataUni p) (tp_InitialMaxData p)
    DefaultMaxAckDelay DefaultAckDelayExponent false MaxPacketBufferSize (tp_MaxUniStreamNum p) (tp_MaxBidiStreamNum p)
    (Z.max MinRemoteIdleTimeout (milliseconds (tp_MaxIdleTimeout p))) None [] [] None None 0 InvalidByteCount.

Definition fresh_state : unmarshal_state :=
  mk_unmarshal (no_parameters <| tp_AckDelayExponent := DefaultAckDelayExponent |> <| tp_MaxAckDelay := DefaultMaxAckDelay |> <| tp_MaxDatagramFrameSize := InvalidByteCount |>) false false.

Lemma reads_fixed sentBy p g rd ws ids s' : parameters_ok p → 0 <= g < 100 → zlen rd < 16 → reads sentBy ws ids (mk_unmarshal (fixed_parameters p) false false) s' →
  reads sentBy ([quicvarint_Write (27 + 31 * g); quicvarint_Write (zlen rd); Ret rd;
     marshalVarintParam initialMaxStreamDataBidiLocalParameterID (u64 (tp_InitialMaxStreamDataBidiLocal p));
     marshalVarintParam initialMaxStreamDataBidiRemoteParameterID (u64 (tp_InitialMaxStreamDataBidiRemote p));
     marshalVarintParam initialMaxStreamDataUniParameterID (u64 (tp_InitialMaxStreamDataUni p));
     marshalVarintParam initialMaxDataParameterID (u64 (tp_InitialMaxData p));
     marshalVarintParam initialMaxStreamsBidiParameterID (u64 (tp_MaxBidiStreamNum p));
     marshalVarintParam initialMaxStreamsUniParameterID (u64 (tp_MaxUniStreamNum p));
     marshalVarintParam maxIdleTimeoutParameterID (u64 (Z.quot (tp_MaxIdleTimeout p) Millisecond));
     marshalVarintParam maxUDPPayloadSizeParameterID MaxPacketBufferSize] ++ ws) ([27 + 31 * g; 5; 6; 7; 4; 8; 9; 1; 3] ++ ids) fresh_state s'.
Proof.
  intros [P1 P2 P3 P4 P5 P6 P7 _ _ _ _ _ _ _ _ _] Hg Hrd Hrest. pose proof (zlen_nonneg rd). destruct (milliseconds_bound _ P7) as [[M1 M2] M3].
  pose proof (is_stream_count _ P5). pose proof (is_stream_count _ P6).
  assert (is_varint (Z.quot (tp_MaxIdleTimeout p) Millisecond)).
  { split; [lia|]. unfold Millisecond, maxVarInt8. rewrite Z.quot_div_nonneg by lia. apply Z.div_le_upper_bound; lia. }
  rewrite !u64_small by done. cbn [app].
  eapply reads_cons_bytes; [unfold maxVarInt8; lia|unfold maxVarInt8; lia| |].
  { intros r. apply unknown_parameter; [unfold numeric; apply bool_decide_eq_false; rewrite !not_elem_of_cons; cbv [maxIdleTimeoutParameterID maxUDPPayloadSizeParameterID initialMaxDataParameterID
      initialMaxStreamDataBidiLocalParameterID initialMaxStreamDataBidiRemoteParameterID initialMaxStreamDataUniParameterID initialMaxStreamsBidiParameterID initialMaxStreamsUniParameterID
      maxAckDelayParameterID activeConnectionIDLimitParameterID maxDatagramFrameSizeParameterID ackDelayExponentParameterID]; split_and!; lia || apply not_elem_of_nil|].
    rewrite !not_elem_of_cons. split_and!; lia || apply not_elem_of_nil. }
  do 4 numeric_step.
  eapply reads_cons_varint; [reflexivity|by unfold maxVarInt8|done| |].
  { by apply set_bidi. }
  eapply reads_cons_varint; [reflexivity|by unfold maxVarInt8|done| |].
  { by apply set_uni. }
  eapply reads_cons_varint; [reflexivity|by unfold maxVarInt8|done| |].
  { by apply set_idle. }
  numeric_step.
  exact Hrest.
Qed.

Lemma reads_limit_source sentBy v c q b1 b2 : is_varint v → is_varint (zlen c) →
  reads sentBy [marshalVarintParam activeConnectionIDLimitParameterID v; quicvarint_Write initialSourceConnectionIDParameterID; quicvarint_Write (zlen c); Ret c]
    [activeConnectionIDLimitParameterID; initialSourceConnectionIDParameterID] (mk_unmarshal q b1 b2)
    (mk_unmarshal (q <| tp_ActiveConnectionIDLimit := v |> <| tp_InitialSourceConnectionID := c |>) b1 true).
Proof.
  intros Hv Hc. eapply reads_cons_varint; [reflexivity|by unfold maxVarInt8|done|reflexivity|].
  exact (reads_source_id sentBy c (mk_unmarshal (q <| tp_ActiveConnectionIDLimit := v |>) b1 b2) Hc).
Qed.

Lemma if_sublist {A} (b : bool) (l k : list A) : l `sublist_of` k → (if b then l else []) `sublist_of` k.
Proof. destruct b; [done|]. intros _. apply sublist_nil_l. Qed.

Lemma match_sublist {A B} (o : option B) (l : list A) : (match o with Some _ => l | None => [] end) `sublist_of` l.
Proof. destruct o; [done|]. apply sublist_nil_l. Qed.

Lemma Marshal_reads p pers g rd : parameters_ok p → 0 <= g < 100 → zlen rd < 16 →
  ∃ bs ids s', Marshal p pers g rd = Ret bs ∧ (length ids ≤ length bs)%nat ∧ NoDup ids ∧
    (∀ fuel, (length ids ≤ fuel)%nat → unmarshal_loop fuel pers fresh_state [] bs = Ret (s', ids)) ∧ um_p s' = received_by_peer pers p ∧
    (pers = PerspectiveServer → um_readOriginalDestinationConnectionID s' = true) ∧ um_readInitialSourceConnectionID s' = true.
Proof.
  intros Hp Hg Hrd. pose proof Hp as [P1 P2 P3 P4 P5 P6 P7 P8 P9 P10 P11 P12 P13 P14 P15 P16].
  assert (is_varint (Z.quot (tp_MaxAckDelay p) Millisecond)) as Hd.
  { change MaxMaxAckDelay with 16383000000 in P8. unfold Millisecond, maxVarInt8. rewrite Z.quot_div_nonneg by lia. split; [apply Z.div_pos; lia|]. apply Z.div_le_upper_bound; lia. }
  assert (is_varint (tp_AckDelayExponent p)) as He by (unfold MaxAckDelayExponent in P9; unfold maxVarInt8; lia).
  unfold Marshal. cbv zeta. match goal with |- ∃ bs ids s', writes ?ws = _ ∧ _ =>
    assert (∃ ids s', reads pers ws ids fresh_state s' ∧ NoDup ids ∧ um_p s' = received_by_peer pers p ∧
      (pers = PerspectiveServer → um_readOriginalDestinationConnectionID s' = true) ∧ um_readInitialSourceConnectionID s' = true) as (ids & s' & (bs & W & L & R) & Hnd & Hu & Ho & Hi) end.
  { set (server := bool_decide (pers = PerspectiveServer)).
    set (q1 := (fixed_parameters p) <| tp_MaxAckDelay := milliseconds (tp_MaxAckDelay p) |>). set (q2 := q1 <| tp_AckDelayExponent := tp_AckDelayExponent p |>).
    set (q3 := q2 <| tp_DisableActiveMigration := tp_DisableActiveMigration p |>). set (q4 := q3 <| tp_StatelessResetToken := tp_StatelessResetToken p |>).
    set (q5 := q4 <| tp_OriginalDestinationConnectionID := tp_OriginalDestinationConnectionID p |>). set (q6 := q5 <| tp_PreferredAddress := tp_PreferredAddress p |>).
    set (q7 := (if server then q6 else q3) <| tp_ActiveConnectionIDLimit := tp_ActiveConnectionIDLimit p |> <| tp_InitialSourceConnectionID := tp_InitialSourceConnectionID p |>).
    set (q8 := λ c, q7 <| tp_RetrySourceConnectionID := c |>). assert (q8 None = q7) as E8 by (unfold q8, q7; by destruct server).
    eexists _, _. split.
    { apply (reads_fixed pers p g rd); [done|done|done|].
      eapply reads_app; [eapply (reads_if pers _ _ _ _ (mk_unmarshal q1 false false))|].
      { intros _. rewrite u64_small by done. by apply (reads_varint pers _ _ (mk_unmarshal (fixed_parameters p) false false)), set_delay. }
      { intros E%negb_false_iff%Z.eqb_eq. unfold q1. by rewrite E. }
      eapply reads_app; [eapply (reads_if pers _ _ _ _ (mk_unmarshal q2 false false))|].
      { intros _. by apply (reads_varint pers _ _ (mk_unmarshal q1 false false)), set_exponent. }
      { intros E%negb_false_iff%Z.eqb_eq. unfold q2. by rewrite E. }
      eapply reads_app; [eapply (reads_if pers _ _ _ _ (mk_unmarshal q3 false false))|].
      { intros E. unfold q3. rewrite E. apply (reads_migration pers (mk_unmarshal q2 false false)). }
      { intros E. unfold q3. by rewrite E. }
      eapply reads_app; [eapply (reads_if pers _ _ _ _ (mk_unmarshal (if server then q6 else q3) server false))|].
      { intros Hs. rewrite Hs. apply bool_decide_eq_true in Hs.
        eapply reads_app; [eapply (reads_option pers _ _ _ _ (mk_unmarshal q4 false false))|].
        { intros t Et. unfold q4. rewrite Et in P14 |- *. by apply (reads_token pers Hs t (mk_unmarshal q3 false false)). }
        { intros E. unfold q4. by rewrite E. }
        eapply reads_app; [by apply (reads_original pers Hs _ (mk_unmarshal q4 false false))|].
        eapply (reads_option pers _ _ _ _ (mk_unmarshal q6 true false)).
        { intros a Ea. unfold q6. rewrite Ea in P15 |- *. by apply (reads_address pers a (mk_unmarshal q5 true false)). }
        { intros E. unfold q6. by rewrite E. } }
      { intros ->. done. }
      eapply (reads_app pers _ _ _ _ _ (mk_unmarshal q7 server true)); [by apply reads_limit_source|]. rewrite <- E8.
      eapply reads_app; [eapply (reads_if pers _ _ _ _ (mk_unmarshal (q8 (if server then tp_RetrySourceConnectionID p else None)) server true))|].
      { intros Hs. rewrite Hs. apply bool_decide_eq_true in Hs. eapply (reads_option pers _ _ _ _ (mk_unmarshal (q8 (tp_RetrySourceConnectionID p)) true true)).
        - intros c Ec. rewrite Ec in P13 |- *. by apply (reads_retry pers Hs c (mk_unmarshal (q8 None) true true)).
        - by intros ->. }
      { by intros ->. }
      eapply (reads_if pers _ _ _ _ (mk_unmarshal ((q8 (if server then tp_RetrySourceConnectionID p else None)) <| tp_MaxDatagramFrameSize := tp_MaxDatagramFrameSize p |>) server true)).
      { intros Hm%negb_true_iff%Z.eqb_neq. destruct P16 as [P16|P16]; [done|]. rewrite u64_small by done. by apply (reads_varint pers _ _ (mk_unmarshal (q8 _) _ true)). }
      { intros E%negb_false_iff%Z.eqb_eq. rewrite E. unfold q8. by destruct server. } }
    clear P1 P2 P3 P4 P5 P6 P7 P8 P9 P10 P11 P12 P13 P14 P15 P16 Hd He. split.
    { eapply (sublist_NoDup _ ([27 + 31 * g; 5; 6; 7; 4; 8; 9; 1; 3] ++ [11] ++ [10] ++ [12] ++ ([2] ++ [0] ++ [13]) ++ [14; 15] ++ [16] ++ [32])).
      - apply NoDup_cons. split; [cbn [app]; rewrite !elem_of_cons, elem_of_nil; lia|]. apply (bool_decide_unpack _). vm_compute. exact I.
      - repeat first [apply sublist_app|apply if_sublist|apply match_sublist|apply reflexivity]. }
    cbn [um_p um_readOriginalDestinationConnectionID um_readInitialSourceConnectionID]. split_and!; [|intros ->; reflexivity|done].
    destruct pers; reflexivity. }
  exists bs, ids, s'. split_and!; try done. intros fuel Hf. specialize (R fuel [] [] Hf). rewrite app_nil_r in R. rewrite R. cbn [app]. by destruct (fuel - length ids)%nat.
Qed.

(** What is kept in a session ticket. *)
Definition ticket_parameters (p : TransportParameters) : TransportParameters :=
  mk_parameters (tp_InitialMaxStreamDataBidiLocal p) (tp_InitialMaxStreamDataBidiRemote p) (tp_InitialMaxStreamDataUni p) (tp_InitialMaxData p)
    DefaultMaxAckDelay DefaultAckDelayExponent false 0 (tp_MaxUniStreamNum p) (tp_MaxBidiStreamNum p) 0 None [] [] None None (tp_ActiveConnectionIDLimit p) InvalidByteCount.

Lemma ticket_roundtrip p : parameters_ok p →
  ∃ bs, MarshalForSessionTicket p = Ret bs ∧ UnmarshalFromSessionTicket no_parameters bs = Ret (ticket_parameters p).
Proof.
  intros [P1 P2 P3 P4 P5 P6 _ _ _ P10 _ _ _ _ _ _]. pose proof (is_stream_count _ P5). pose proof (is_stream_count _ P6).
  unfold MarshalForSessionTicket. rewrite !u64_small by done.
  match goal with |- ∃ bs, writes (_ :: ?ws) = _ ∧ _ =>
    assert (reads PerspectiveServer ws [5; 6; 7; 4; 8; 9; 14] fresh_state (mk_unmarshal (ticket_parameters p) false false)) as (bs & W & L & R) end.
  { do 4 numeric_step.
    eapply reads_cons_varint; [reflexivity|by unfold maxVarInt8|done|by apply set_bidi|].
    eapply reads_cons_varint; [reflexivity|by unfold maxVarInt8|done|by apply set_uni|].
    numeric_step. apply reads_nil. }
  destruct (varint_field transportParameterMarshalingVersion) as (bv & W1 & _ & R1); [by unfold maxVarInt8|].
  exists (bv ++ bs). split; [etrans; [exact (writes_app [_] _)|]; rewrite W; cbn [writes]; rewrite W1; cbn [mbind outcome_bind]; by rewrite app_nil_r|].
  unfold UnmarshalFromSessionTicket. rewrite R1. cbn [mbind outcome_bind]. rewrite Z.eqb_refl. cbn [negb]. unfold unmarshal. fold fresh_state.
  specialize (R (length bs) [] [] L). rewrite app_nil_r in R. rewrite R. by destruct (length bs - length _)%nat.
Qed.

(** C25. What one peer marshals the other one unmarshals: the parameters are read as they
    were set, with whole milliseconds, an idle timeout of at least five seconds and the
    fixed maximum size of packets, and the parameters only a server may send come only
    from a server; the greased parameter is ignored whatever its random bytes are.  From a
    session ticket a server reads back exactly the seven limits it puts there (the data limits of the
    connection and of the three kinds of streams, the numbers of streams of both types and the limit of
    connection IDs; every other parameter is unset), and with unchanged limits it accepts 0-RTT data. *)
Theorem transport_parameters_roundtrip p pers g rd : parameters_ok p → 0 <= g < 100 → zlen rd < 16 →
  (∃ bs, Marshal p pers g rd = Ret bs ∧ Unmarshal no_parameters bs pers = Ret (received_by_peer pers p)) ∧
  (∃ bs, MarshalForSessionTicket p = Ret bs ∧ UnmarshalFromSessionTicket no_parameters bs = Ret (ticket_parameters p)) ∧
  ValidFor0RTT p (ticket_parameters p) = true.
Proof.
  intros Hp Hg Hrd. split_and!.
  - destruct (Marshal_reads p pers g rd Hp Hg Hrd) as (bs & ids & s' & W & L & Hnd & R & Hu & Ho & Hi). exists bs. split; [done|]. unfold Unmarshal, unmarshal.
    fold fresh_state. rewrite (R (length bs) L). cbn [mbind outcome_bind]. rewrite Hu, Hi. cbn [negb].
    rewrite (proj2 (sorted_duplicates ids) Hnd). destruct pers; [rewrite Ho by done|]; reflexivity.
  - by apply ticket_roundtrip.
  - unfold ValidFor0RTT, ticket_parameters.
    cbn [tp_InitialMaxStreamDataBidiLocal tp_InitialMaxStreamDataBidiRemote tp_InitialMaxStreamDataUni tp_InitialMaxData tp_MaxBidiStreamNum tp_MaxUniStreamNum tp_ActiveConnectionIDLimit].
    by rewrite !Z.leb_refl, Z.eqb_refl.
Qed.

(** The parameters of a server with a preferred address. *)
Definition ex_parameters : TransportParameters :=
  mk_parameters 65536 65536 32768 1048576 26500000 4 true 0 100 100 30000000000
    (Some {| pa_IPv4 := [127; 0; 0; 1]; pa_IPv4Port := 42; pa_IPv6 := replicate 16 7; pa_IPv6Port := 13; pa_ConnectionID := [1; 2; 3; 4]; pa_StatelessResetToken := replicate 16 9 |})
    [222; 173; 190; 239] [202; 254] (Some [1; 1]) (Some (replicate 16 5)) 4 1200.

Lemma ex_parameters_ok : parameters_ok ex_parameters.
Proof. constructor; try (vm_compute; intuition congruence). constructor; vm_compute; intuition congruence. Qed.

(** Reading it in bytes, for a server with every parameter set. *)
Lemma transport_parameters_roundtrip_witness :
  (∃ bs, Marshal ex_parameters PerspectiveServer 7 [1; 2; 3] = Ret bs ∧ Unmarshal no_parameters bs PerspectiveServer = Ret (received_by_peer PerspectiveServer ex_parameters)) ∧
  (∃ bs, MarshalForSessionTicket ex_parameters = Ret bs ∧ UnmarshalFromSessionTicket no_parameters bs = Ret (ticket_parameters ex_parameters)) ∧
  ValidFor0RTT ex_parameters (ticket_parameters ex_parameters) = true.
Proof.
  apply (transport_parameters_roundtrip ex_parameters PerspectiveServer 7 [1; 2; 3]); [exact ex_parameters_ok|lia|by vm_compute].
Defined.

(** The largest idle timeout that can be announced is taken for the smallest one that is
    accepted: in nanoseconds it overflows. *)
Lemma idle_timeout_overflow : set_numeric no_parameters maxIdleTimeoutParameterID maxVarInt8 = Ret (no_parameters <| tp_MaxIdleTimeout := MinRemoteIdleTimeout |>).
Proof. reflexivity. Qed.

(** ** Any bytes *)

(** The limits that every accepted set of parameters respects. *)
Record within_limits (p : TransportParameters) : Prop := {
  wl_bidi_local : is_varint (tp_InitialMaxStreamDataBidiLocal p);
  wl_bidi_remote : is_varint (tp_InitialMaxStreamDataBidiRemote p);
  wl_uni : is_varint (tp_InitialMaxStreamDataUni p);
  wl_data : is_varint (tp_InitialMaxData p);
  wl_bidi_streams : 0 <= tp_MaxBidiStreamNum p <= MaxStreamCount;
  wl_uni_streams : 0 <= tp_MaxUniStreamNum p <= MaxStreamCount;
  wl_idle : tp_MaxIdleTimeout p = 0 ∨ MinRemoteIdleTimeout <= tp_MaxIdleTimeout p;
  wl_delay : 0 <= tp_MaxAckDelay p <= MaxMaxAckDelay;
  wl_exponent : 0 <= tp_AckDelayExponent p <= MaxAckDelayExponent;
  wl_size : tp_MaxUDPPayloadSize p = 0 ∨ 1200 <= tp_MaxUDPPayloadSize p;
  wl_token : if tp_StatelessResetToken p is Some t then length t = 16%nat else True;
  wl_address : if tp_PreferredAddress p is Some a then address_ok a else True;
}.

Lemma set_numeric_limits q id v : within_limits q → is_varint v →
  match set_numeric q id v with Ret q' => within_limits q' | Err _ => True | Panic _ => False end.
Proof.
  intros [W1 W2 W3 W4 W5 W6 W7 W8 W9 W10 W11 W12] [Hv0 Hv]. unfold set_numeric.
  repeat match goal with |- context [if ?b then _ else _] => destruct b eqn:?; [try done|] end; try done;
    (split; [exact W1 || done|exact W2 || done|exact W3 || done|exact W4 || done|exact W5 || (cbn; lia)|exact W6 || (cbn; lia)|exact W7 || right|exact W8 || cbn|exact W9 || cbn|
      exact W10 || (right; cbn; lia)|exact W11|exact W12]).
  - cbn. unfold MaxDuration. destruct (_ <? MinRemoteIdleTimeout) eqn:?; lia.
  - unfold MaxAckDelayExponent in *. rewrite (wrap_small 8 v) by (unfold uint; lia). lia.
  - change (Z.quot MaxMaxAckDelay Millisecond) with 16383 in *. change MaxMaxAckDelay with 16383000000. unfold Millisecond. rewrite small_i64; lia.
Qed.

Lemma parses_connection_id_ n : 0 <= n → parses (ReadConnectionID_ n) (λ _, True).
Proof.
  intros Hn r Hr. unfold ReadConnectionID_. pose proof (parses_connection_id n Hn r Hr) as H. destruct (ReadConnectionID n r) as [[d r']| |]; [by destruct H| |done].
  split; [done|]. exists r. by rewrite app_nil_r.
Qed.

Lemma parses_into n : parses (ReadInto n) (λ d, length d = n).
Proof.
  intros r _. unfold ReadInto. split; [rewrite length_app, length_take, length_replicate; lia|]. exists (take n r). by rewrite take_drop.
Qed.

Lemma parses_numeric q id len : within_limits q → parses (readNumericTransportParameter q id len) within_limits.
Proof.
  intros Hq. unfold readNumericTransportParameter. eapply parses_bind; [apply parses_len|]. intros n _. eapply (parses_bind _ _ (λ i, is_varint i)).
  { intros r Hr. pose proof (parses_varint r Hr) as H. by destruct (quicvarint_Read r) as [[v r']| |]. }
  intros v Hv. eapply parses_bind; [apply parses_len|]. intros m _. parses_step; [apply parses_fail|]. intros r _. unfold lift.
  pose proof (set_numeric_limits q id v Hq Hv) as H. destruct (set_numeric q id v); [|done..]. split; [done|by exists []].
Qed.

Lemma parses_uint16 : parses BigEndian_ReadUint16 (λ i, uint 16 i).
Proof. unfold BigEndian_ReadUint16. repeat parses_step. rewrite Z.shiftl_mul_pow2 by lia. unfold is_byte, uint in *. lia. Qed.

Lemma parses_preferred_address q len : within_limits q → parses (readPreferredAddress q len) within_limits.
Proof.
  intros [W1 W2 W3 W4 W5 W6 W7 W8 W9 W10 W11 W12]. unfold readPreferredAddress. parses_step. eapply parses_bind; [apply parses_full|intros i4 H4; cbn beta].
  eapply parses_bind; [apply parses_uint16|intros p4 Hp4; cbn beta]. eapply parses_bind; [apply parses_full|intros i6 H6; cbn beta].
  eapply parses_bind; [apply parses_uint16|intros p6 Hp6; cbn beta]. eapply parses_bind; [apply parses_byte|intros n Hn; cbn beta]. destruct (_ || _) eqn:E; [apply parses_fail|].
  apply orb_false_iff in E as [E1%Z.eqb_neq E2%Z.ltb_ge]. destruct Hn as [Hn _]. eapply parses_bind; [by apply parses_connection_id|intros c Hc; cbn beta].
  eapply parses_bind; [apply parses_full|intros t Ht; cbn beta]. repeat parses_step. split; try done. split; cbn; try done. rewrite Hc. lia.
Qed.

Lemma parses_parameter sentBy s id len : 0 <= len → within_limits (um_p s) → parses (unmarshal_parameter sentBy s id len) (λ s', within_limits (um_p s')).
Proof.
  intros Hlen Hs. pose proof Hs as [W1 W2 W3 W4 W5 W6 W7 W8 W9 W10 W11 W12]. unfold unmarshal_parameter. cbv zeta.
  repeat match goal with |- parses (if ?b then _ else _) _ => destruct b end; try apply parses_fail.
  - eapply parses_bind; [by apply parses_numeric|]. intros q Hq. by apply parses_ret.
  - eapply parses_bind; [by apply parses_preferred_address|]. intros q Hq. by apply parses_ret.
  - by apply parses_ret.
  - eapply parses_bind; [apply parses_into|]. intros t Ht. by apply parses_ret.
  - eapply parses_bind; [by apply parses_connection_id_|]. intros c _. by apply parses_ret.
  - eapply parses_bind; [by apply parses_connection_id_|]. intros c _. by apply parses_ret.
  - eapply parses_bind; [by apply parses_connection_id_|]. intros c _. by apply parses_ret.
  - intros r _. split; [done|]. exists (take (Z.to_nat len) r). by rewrite take_drop.
Qed.

Lemma unmarshal_loop_total fuel sentBy : ∀ s ids r, packet r → (length r ≤ fuel)%nat → within_limits (um_p s) →
  match unmarshal_loop fuel sentBy s ids r with Ret (s', _) => within_limits (um_p s') | Err _ => True | Panic _ => False end.
Proof.
  induction fuel as [|fuel IH]; intros s ids r Hr Hf Hs; (destruct r as [|b r]; [done|]); [cbn in Hf; lia|]. cbn [unmarshal_loop].
  destruct (quicvarint_Read (b :: r)) as [[id r1]| |] eqn:E1; cbn [mbind outcome_bind]; [|done|by pose proof (parses_varint _ Hr) as H; rewrite E1 in H].
  destruct (quicvarint_Read_range _ _ _ (proj1 Hr) E1) as (_ & b1 & Eb & Hb). rewrite Eb in Hr, Hf. rewrite length_app in Hf. apply packet_suffix in Hr.
  assert (length r1 ≤ fuel)%nat as Hf1 by (destruct b1; [done|cbn in Hf; lia]). clear Hf Eb Hb E1.
  pose proof (parses_varint r1 Hr) as H. destruct (quicvarint_Read r1) as [[len r2]| |]; cbn [mbind outcome_bind]; [|done..].
  destruct H as [[Hlen _] [b2 ->]]. apply packet_suffix in Hr. rewrite length_app in Hf1. destruct (_ <? len); [done|].
  pose proof (parses_parameter sentBy s id len Hlen Hs r2 Hr) as H. destruct (unmarshal_parameter sentBy s id len r2) as [[s' r3]| |]; cbn [mbind outcome_bind]; [|done..].
  destruct H as [Hs' [b3 ->]]. apply packet_suffix in Hr. rewrite length_app in Hf1. apply IH; [done|lia|done].
Qed.

(** Whatever its bytes are, an extension with transport parameters is refused with an error or
    read as parameters within the limits of the protocol, by a loop that ends. *)
Theorem transport_parameters_total bs sentBy : packet bs →
  match Unmarshal no_parameters bs sentBy with Ret p => within_limits p | Err _ => True | Panic _ => False end.
Proof.
  intros Hbs. assert (within_limits (um_p fresh_state)) as Hf by (split; try (vm_compute; intuition congruence); by left).
  pose proof (unmarshal_loop_total (length bs) sentBy fresh_state [] bs Hbs (le_n _) Hf) as H. unfold Unmarshal, unmarshal. fold fresh_state.
  destruct (unmarshal_loop _ _ _ _ _) as [[s ids]| |]; cbn [mbind outcome_bind]; [|done..]. destruct (_ && _); cbn [mbind outcome_bind]; [done|].
  destruct (negb _); cbn [mbind outcome_bind]; [done|]. destruct (adjacent_equal _); [done|]. destruct (tp_MaxUDPPayloadSize _ =? 0) eqn:E; [|done].
  destruct H as [W1 W2 W3 W4 W5 W6 W7 W8 W9 W10 W11 W12]. split; try done. by right.
Qed.
