(* ===== verification/QuicStreamsMap.v ===== *)
(** * The streams of a connection ([streams_map.go], [streams_map_incoming_bidi.go],
    [streams_map_outgoing_bidi.go])

    The maps for unidirectional streams are generated from the same templates as those for
    bidirectional ones; here the type of the streams is an argument.  A stream is named by its
    ID, and what the maps do to streams and to the connection are events.  A call that waits is
    [Blocked]; when it is woken it continues with the next round of its loop.  The counters
    of streams stay below the limit [MaxStreamCount], and those of waiting calls do not wrap. *)

From stdpp Require Import base list numbers strings gmap.
From Stdlib Require Import ZArith Lia.
From S2P Require Import Prelude QuicProtocol QuicFrames QuicParameters.

(** Errors that the maps return. *)
Inductive stream_error :=
| streamError (message : string) (nums : list Z)
| errTooManyOpenStreams
| Err0RTTRejected
| contextError
| otherError (e : go_error)
| formattedError (message : string) (ids : list Z)
| StreamStateError (e : stream_error).

(** Calls of streams and of the connection; a loop over all streams of a map is one event. *)
Inductive streams_event :=
| queueControlFrame (f : Frame)
| createStream (id : Z)
| closeForShutdown (ids : list Z) (e : stream_error)
| updateStreamWindows (ids : list Z) (limit : Z).

(** What a call returns; [BlockedAt] has the place in the queue. *)
Inductive call_result :=
| Returned (stream : option Z)
| Failed (e : stream_error)
| Blocked
| BlockedAt (queuePos : Z).

(** A channel of struct{} with room for one value. *)
Record signal := mk_signal { sg_full : bool; sg_closed : bool }.

Definition make_signal : signal := mk_signal false false.

(** [select { case c <- struct{}{}: default: }] *)
Definition trySend (c : signal) : outcome signal :=
  if sg_closed c then Panic "send on closed channel" else Ret (mk_signal true false).

(** A receive, when it does not block. *)
Definition tryReceive (c : signal) : option signal :=
  if sg_full c || sg_closed c then Some (mk_signal false (sg_closed c)) else None.

Definition closeSignal (c : signal) : outcome signal :=
  if sg_closed c then Panic "close of closed channel" else Ret (mk_signal (sg_full c) true).

(** ** Streams that the peer opens *)

Record streamEntry := mk_entry { en_stream : Z; en_shouldDelete : bool }.

Record incomingStreamsMap := mk_incoming {
  in_newStreamChan : signal;
  in_streams : gmap Z streamEntry;
  in_nextStreamToAccept : Z;
  in_nextStreamToOpen : Z;
  in_maxStream : Z;
  in_maxNumStreams : Z;
  in_closeErr : option stream_error;
}.

#[global] Instance incomingStreamsMap_fields : Fields incomingStreamsMap := λ m,
  mk_incoming (in_newStreamChan m) (in_streams m) (in_nextStreamToAccept m) (in_nextStreamToOpen m) (in_maxStream m) (in_maxNumStreams m) (in_closeErr m).

Definition newIncomingStreamsMap (maxStreams : Z) : incomingStreamsMap :=
  {| in_newStreamChan := make_signal; in_streams := ∅; in_nextStreamToAccept := 1; in_nextStreamToOpen := 1;
     in_maxStream := i64 maxStreams; in_maxNumStreams := maxStreams; in_closeErr := None |}.

Section Incoming.
(** The type of the streams, and who opens them. *)
Variables (stype : StreamType) (pers : Perspective).

Definition deleteStream (m : incomingStreamsMap) (num : Z) : incomingStreamsMap * list streams_event * option stream_error :=
  match in_streams m !! num with
  | None => (m, [], Some (streamError "tried to delete unknown incoming stream %d" [num]))
  | Some e =>
      if in_nextStreamToAccept m <=? num then
        if en_shouldDelete e then (m, [], Some (streamError "tried to delete incoming stream %d multiple times" [num]))
        else (m <| in_streams ::= <[num := mk_entry (en_stream e) true]> |>, [], None)
      else
        let m := m <| in_streams ::= delete num |> in
        let open := Z.of_nat (size (in_streams m)) in
        if open <? in_maxNumStreams m then
          let maxStream := i64 (in_nextStreamToOpen m + i64 (in_maxNumStreams m - open) - 1) in
          if maxStream <=? MaxStreamCount then (m <| in_maxStream := maxStream |>, [queueControlFrame (MaxStreamsFrame stype maxStream)], None)
          else (m, [], None)
        else (m, [], None)
  end.

Definition in_DeleteStream := deleteStream.

(** What a call of [AcceptStream] does before it takes the mutex. *)
Definition AcceptStream_drain (m : incomingStreamsMap) : incomingStreamsMap := m <| in_newStreamChan ::= λ c, default c (tryReceive c) |>.

(** One round of the loop of [AcceptStream]. *)
Definition accept_round (m : incomingStreamsMap) : incomingStreamsMap * list streams_event * call_result :=
  let num := in_nextStreamToAccept m in
  match in_closeErr m with
  | Some e => (m, [], Failed e)
  | None =>
      match in_streams m !! num with
      | None => (m, [], Blocked)
      | Some e =>
          let m := m <| in_nextStreamToAccept := num + 1 |> in
          if en_shouldDelete e then
            let '(m, evs, err) := deleteStream m num in
            (m, evs, match err with Some err => Failed err | None => Returned (Some (en_stream e)) end)
          else (m, [], Returned (Some (en_stream e)))
      end
  end.

(** The call, and what follows when it waits: a value in the channel, or the end of the context. *)
Definition AcceptStream (m : incomingStreamsMap) : incomingStreamsMap * list streams_event * call_result :=
  accept_round (AcceptStream_drain m).

Definition AcceptStream_woken (m : incomingStreamsMap) : option (incomingStreamsMap * list streams_event * call_result) :=
  c ← tryReceive (in_newStreamChan m); Some (accept_round (m <| in_newStreamChan := c |>)).

Definition AcceptStream_cancelled (m : incomingStreamsMap) : incomingStreamsMap * call_result := (m, Failed contextError).

(** The loop that opens the streams up to [num]. *)
Fixpoint open_streams (fuel : nat) (m : incomingStreamsMap) (newNum num : Z) : outcome (incomingStreamsMap * list streams_event) :=
  if num <? newNum then Ret (m, []) else
  match fuel with
  | O => Panic "out of fuel"
  | S fuel =>
      let id := StreamNum_StreamID newNum stype pers in
      c ← trySend (in_newStreamChan m);
      '(m, evs) ← open_streams fuel (m <| in_streams ::= <[newNum := mk_entry id false]> |> <| in_newStreamChan := c |>) (newNum + 1) num;
      Ret (m, createStream id :: evs)
  end.

Definition GetOrOpenStream (m : incomingStreamsMap) (num : Z) : outcome (incomingStreamsMap * list streams_event * call_result) :=
  if in_maxStream m <? num then
    Ret (m, [], Failed (streamError "peer tried to open stream %d (current limit: %d)" [num; in_maxStream m]))
  else if num <? in_nextStreamToOpen m then
    Ret (m, [], Returned (e ← in_streams m !! num; if en_shouldDelete e then None else Some (en_stream e)))
  else
    '(m, evs) ← open_streams (Z.to_nat (num - in_nextStreamToOpen m + 1)) m (in_nextStreamToOpen m) num;
    let m := m <| in_nextStreamToOpen := num + 1 |> in
    Ret (m, evs, Returned (en_stream <$> in_streams m !! num)).

Definition in_CloseWithError (m : incomingStreamsMap) (err : stream_error) : outcome (incomingStreamsMap * list streams_event) :=
  c ← closeSignal (in_newStreamChan m);
  Ret (m <| in_closeErr := Some err |> <| in_newStreamChan := c |>, [closeForShutdown (en_stream <$> (map_to_list (in_streams m)).*2) err]).
End Incoming.

(** ** Streams that the connection opens *)

Record outgoingStreamsMap := mk_outgoing {
  out_streams : gmap Z Z;
  out_openQueue : gmap Z signal;
  out_lowestInQueue : Z;
  out_highestInQueue : Z;
  out_nextStream : Z;
  out_maxStream : Z;
  out_blockedSent : bool;
  out_closeErr : option stream_error;
}.

#[global] Instance outgoingStreamsMap_fields : Fields outgoingStreamsMap := λ m,
  mk_outgoing (out_streams m) (out_openQueue m) (out_lowestInQueue m) (out_highestInQueue m) (out_nextStream m) (out_maxStream m) (out_blockedSent m) (out_closeErr m).

Definition newOutgoingStreamsMap : outgoingStreamsMap :=
  {| out_streams := ∅; out_openQueue := ∅; out_lowestInQueue := 0; out_highestInQueue := 0; out_nextStream := 1;
     out_maxStream := InvalidStreamNum; out_blockedSent := false; out_closeErr := None |}.

Section Outgoing.
Variables (stype : StreamType) (pers : Perspective).

Definition openStream (m : outgoingStreamsMap) : outgoingStreamsMap * list streams_event * Z :=
  let s := StreamNum_StreamID (out_nextStream m) stype pers in
  (m <| out_streams ::= <[out_nextStream m := s]> |> <| out_nextStream ::= λ n, n + 1 |>, [createStream s], s).

Definition maybeSendBlockedFrame (m : outgoingStreamsMap) : outgoingStreamsMap * list streams_event :=
  if out_blockedSent m then (m, []) else
  let streamNum := if out_maxStream m =? InvalidStreamNum then 0 else out_maxStream m in
  (m <| out_blockedSent := true |>, [queueControlFrame (StreamsBlockedFrame stype streamNum)]).

Definition out_OpenStream (m : outgoingStreamsMap) : outgoingStreamsMap * list streams_event * call_result :=
  match out_closeErr m with
  | Some e => (m, [], Failed e)
  | None =>
      if negb (size (out_openQueue m) =? 0)%nat || (out_maxStream m <? out_nextStream m) then
        let '(m, evs) := maybeSendBlockedFrame m in (m, evs, Failed errTooManyOpenStreams)
      else let '(m, evs, s) := openStream m in (m, evs, Returned (Some s))
  end.

(** The loop of [unblockOpenSync] looks for the first call that still waits. *)
Fixpoint unblock_loop (fuel : nat) (q : gmap Z signal) (qp highest : Z) : outcome (gmap Z signal) :=
  if highest <? qp then Ret q else
  match fuel with
  | O => Panic "out of fuel"
  | S fuel =>
      match q !! qp with
      | None => unblock_loop fuel q (qp + 1) highest
      | Some c => c ← trySend c; Ret (<[qp := c]> q)
      end
  end.

Definition unblockOpenSync (m : outgoingStreamsMap) : outcome outgoingStreamsMap :=
  if (size (out_openQueue m) =? 0)%nat then Ret m else
  q ← unblock_loop (Z.to_nat (out_highestInQueue m - out_lowestInQueue m + 1)) (out_openQueue m) (out_lowestInQueue m) (out_highestInQueue m);
  Ret (m <| out_openQueue := q |>).

(** The call up to the point where it waits; [ctxErr] is the result of [ctx.Err()]. *)
Definition out_OpenStreamSync (m : outgoingStreamsMap) (ctxErr : option stream_error) : outgoingStreamsMap * list streams_event * call_result :=
  match out_closeErr m, ctxErr with
  | Some e, _ => (m, [], Failed e)
  | None, Some e => (m, [], Failed e)
  | None, None =>
      if (size (out_openQueue m) =? 0)%nat && (out_nextStream m <=? out_maxStream m) then
        let '(m, evs, s) := openStream m in (m, evs, Returned (Some s))
      else
        let queuePos := out_highestInQueue m in
        let m := m <| out_highestInQueue ::= λ n, n + 1 |> in
        let m := if (size (out_openQueue m) =? 0)%nat then m <| out_lowestInQueue := queuePos |> else m in
        let m := m <| out_openQueue ::= <[queuePos := make_signal]> |> in
        let '(m, evs) := maybeSendBlockedFrame m in
        (m, evs, BlockedAt queuePos)
  end.

(** A waiting call when it receives from its channel, and when its context is done. *)
Definition OpenStreamSync_woken (m : outgoingStreamsMap) (queuePos : Z) : option (outcome (outgoingStreamsMap * list streams_event * call_result)) :=
  c ← out_openQueue m !! queuePos;
  c ← tryReceive c;
  let m := m <| out_openQueue ::= <[queuePos := c]> |> in
  Some match out_closeErr m with
       | Some e => Ret (m, [], Failed e)
       | None =>
           if out_maxStream m <? out_nextStream m then Ret (m, [], BlockedAt queuePos) else
           let '(m, evs, s) := openStream m in
           let m := m <| out_openQueue ::= delete queuePos |> <| out_lowestInQueue := queuePos + 1 |> in
           m ← unblockOpenSync m;
           Ret (m, evs, Returned (Some s))
       end.

Definition OpenStreamSync_cancelled (m : outgoingStreamsMap) (queuePos : Z) : outgoingStreamsMap * call_result :=
  (m <| out_openQueue ::= delete queuePos |>, Failed contextError).

Definition GetStream (m : outgoingStreamsMap) (num : Z) : call_result :=
  if out_nextStream m <=? num then Failed (streamError "peer attempted to open stream %d" [num]) else Returned (out_streams m !! num).

Definition out_DeleteStream (m : outgoingStreamsMap) (num : Z) : outgoingStreamsMap * option stream_error :=
  match out_streams m !! num with
  | None => (m, Some (streamError "tried to delete unknown outgoing stream %d" [num]))
  | Some _ => (m <| out_streams ::= delete num |>, None)
  end.

Definition SetMaxStream (m : outgoingStreamsMap) (num : Z) : outcome (outgoingStreamsMap * list streams_event) :=
  if num <=? out_maxStream m then Ret (m, []) else
  let m := m <| out_maxStream := num |> <| out_blockedSent := false |> in
  let '(m, evs) := if out_maxStream m <? out_nextStream m - 1 + Z.of_nat (size (out_openQueue m)) then maybeSendBlockedFrame m else (m, []) in
  m ← unblockOpenSync m;
  Ret (m, evs).

Definition out_UpdateSendWindow (m : outgoingStreamsMap) (limit : Z) : list streams_event :=
  [updateStreamWindows ((map_to_list (out_streams m)).*2) limit].

(** The channels of the calls that wait are closed. *)
Definition close_all (q : gmap Z signal) : outcome (gmap Z signal) :=
  if bool_decide (map_Forall (λ _ c, sg_closed c = false) q) then Ret ((λ c, mk_signal (sg_full c) true) <$> q) else Panic "close of closed channel".

Definition out_CloseWithError (m : outgoingStreamsMap) (err : stream_error) : outcome (outgoingStreamsMap * list streams_event) :=
  q ← close_all (out_openQueue m);
  Ret (m <| out_closeErr := Some err |> <| out_openQueue := q |>, [closeForShutdown ((map_to_list (out_streams m)).*2) err]).
End Outgoing.

(** ** The maps of a connection *)

Record streamsMap := mk_streamsMap {
  sm_perspective : Perspective;
  sm_maxIncomingBidiStreams : Z;
  sm_maxIncomingUniStreams : Z;
  sm_outgoingBidiStreams : outgoingStreamsMap;
  sm_outgoingUniStreams : outgoingStreamsMap;
  sm_incomingBidiStreams : incomingStreamsMap;
  sm_incomingUniStreams : incomingStreamsMap;
  sm_reset : bool;
}.

#[global] Instance streamsMap_fields : Fields streamsMap := λ m,
  mk_streamsMap (sm_perspective m) (sm_maxIncomingBidiStreams m) (sm_maxIncomingUniStreams m) (sm_outgoingBidiStreams m) (sm_outgoingUniStreams m)
    (sm_incomingBidiStreams m) (sm_incomingUniStreams m) (sm_reset m).

Definition initMaps (m : streamsMap) : streamsMap :=
  m <| sm_outgoingBidiStreams := newOutgoingStreamsMap |> <| sm_incomingBidiStreams := newIncomingStreamsMap (sm_maxIncomingBidiStreams m) |>
    <| sm_outgoingUniStreams := newOutgoingStreamsMap |> <| sm_incomingUniStreams := newIncomingStreamsMap (sm_maxIncomingUniStreams m) |>.

Definition newStreamsMap (maxIncomingBidiStreams maxIncomingUniStreams : Z) (perspective : Perspective) : streamsMap :=
  initMaps (mk_streamsMap perspective maxIncomingBidiStreams maxIncomingUniStreams newOutgoingStreamsMap newOutgoingStreamsMap
    (newIncomingStreamsMap 0) (newIncomingStreamsMap 0) false).

Definition convertStreamError (err : stream_error) (stype : StreamType) (pers : Perspective) : stream_error :=
  match err with
  | streamError message nums => formattedError message ((λ num, StreamNum_StreamID num stype pers) <$> nums)
  | _ => err
  end.

Definition convert_result (r : call_result) (stype : StreamType) (pers : Perspective) : call_result :=
  match r with Failed e => Failed (convertStreamError e stype pers) | _ => r end.

Definition OpenStream (m : streamsMap) : streamsMap * list streams_event * call_result :=
  if sm_reset m then (m, [], Failed Err0RTTRejected) else
  let '(mm, evs, r) := out_OpenStream StreamTypeBidi (sm_perspective m) (sm_outgoingBidiStreams m) in
  (m <| sm_outgoingBidiStreams := mm |>, evs, convert_result r StreamTypeBidi (sm_perspective m)).

Definition OpenStreamSync (m : streamsMap) (ctxErr : option stream_error) : streamsMap * list streams_event * call_result :=
  if sm_reset m then (m, [], Failed Err0RTTRejected) else
  let '(mm, evs, r) := out_OpenStreamSync StreamTypeBidi (sm_perspective m) (sm_outgoingBidiStreams m) ctxErr in
  (m <| sm_outgoingBidiStreams := mm |>, evs, convert_result r StreamTypeBidi (sm_perspective m)).

Definition OpenUniStream (m : streamsMap) : streamsMap * list streams_event * call_result :=
  if sm_reset m then (m, [], Failed Err0RTTRejected) else
  let '(mm, evs, r) := out_OpenStream StreamTypeUni (sm_perspective m) (sm_outgoingUniStreams m) in
  (m <| sm_outgoingUniStreams := mm |>, evs, convert_result r StreamTypeBidi (sm_perspective m)).

Definition OpenUniStreamSync (m : streamsMap) (ctxErr : option stream_error) : streamsMap * list streams_event * call_result :=
  if sm_reset m then (m, [], Failed Err0RTTRejected) else
  let '(mm, evs, r) := out_OpenStreamSync StreamTypeUni (sm_perspective m) (sm_outgoingUniStreams m) ctxErr in
  (m <| sm_outgoingUniStreams := mm |>, evs, convert_result r StreamTypeUni (sm_perspective m)).

Definition AcceptBidiStream (m : streamsMap) : streamsMap * list streams_event * call_result :=
  if sm_reset m then (m, [], Failed Err0RTTRejected) else
  let '(mm, evs, r) := AcceptStream StreamTypeBidi (sm_incomingBidiStreams m) in
  (m <| sm_incomingBidiStreams := mm |>, evs, convert_result r StreamTypeBidi (Opposite (sm_perspective m))).

Definition AcceptUniStream (m : streamsMap) : streamsMap * list streams_event * call_result :=
  if sm_reset m then (m, [], Failed Err0RTTRejected) else
  let '(mm, evs, r) := AcceptStream StreamTypeUni (sm_incomingUniStreams m) in
  (m <| sm_incomingUniStreams := mm |>, evs, convert_result r StreamTypeUni (Opposite (sm_perspective m))).

Definition sm_DeleteStream (m : streamsMap) (id : Z) : streamsMap * list streams_event * option stream_error :=
  let num := StreamID_StreamNum id in
  let own := bool_decide (StreamID_InitiatedBy id = sm_perspective m) in
  let convert stype pers (e : option stream_error) := (λ e, convertStreamError e stype pers) <$> e in
  match StreamID_Type id with
  | StreamTypeUni =>
      if own then
        let '(mm, err) := out_DeleteStream (sm_outgoingUniStreams m) num in
        (m <| sm_outgoingUniStreams := mm |>, [], convert StreamTypeUni (sm_perspective m) err)
      else
        let '(mm, evs, err) := in_DeleteStream StreamTypeUni (sm_incomingUniStreams m) num in
        (m <| sm_incomingUniStreams := mm |>, evs, convert StreamTypeUni (Opposite (sm_perspective m)) err)
  | StreamTypeBidi =>
      if own then
        let '(mm, err) := out_DeleteStream (sm_outgoingBidiStreams m) num in
        (m <| sm_outgoingBidiStreams := mm |>, [], convert StreamTypeBidi (sm_perspective m) err)
      else
        let '(mm, evs, err) := in_DeleteStream StreamTypeBidi (sm_incomingBidiStreams m) num in
        (m <| sm_incomingBidiStreams := mm |>, evs, convert StreamTypeBidi (Opposite (sm_perspective m)) err)
  end.

(** The streams that the peer opens, of a type. *)
Definition openBidi (m : streamsMap) (num : Z) : outcome (streamsMap * list streams_event * call_result) :=
  '(mm, evs, r) ← GetOrOpenStream StreamTypeBidi (Opposite (sm_perspective m)) (sm_incomingBidiStreams m) num;
  Ret (m <| sm_incomingBidiStreams := mm |>, evs, r).

Definition openUni (m : streamsMap) (num : Z) : outcome (streamsMap * list streams_event * call_result) :=
  '(mm, evs, r) ← GetOrOpenStream StreamTypeUni (Opposite (sm_perspective m)) (sm_incomingUniStreams m) num;
  Ret (m <| sm_incomingUniStreams := mm |>, evs, r).

Definition getOrOpenReceiveStream (m : streamsMap) (id : Z) : outcome (streamsMap * list streams_event * call_result) :=
  let num := StreamID_StreamNum id in
  let own := bool_decide (StreamID_InitiatedBy id = sm_perspective m) in
  match StreamID_Type id with
  | StreamTypeUni =>
      if own then Ret (m, [], Failed (formattedError "peer attempted to open receive stream %d" [id])) else
      '(m, evs, r) ← openUni m num;
      Ret (m, evs, convert_result r StreamTypeUni (sm_perspective m))
  | StreamTypeBidi =>
      '(m, evs, r) ← (if own then Ret (m, [], GetStream (sm_outgoingBidiStreams m) num) else openBidi m num);
      Ret (m, evs, convert_result r StreamTypeBidi (StreamID_InitiatedBy id))
  end.

Definition getOrOpenSendStream (m : streamsMap) (id : Z) : outcome (streamsMap * list streams_event * call_result) :=
  let num := StreamID_StreamNum id in
  let own := bool_decide (StreamID_InitiatedBy id = sm_perspective m) in
  match StreamID_Type id with
  | StreamTypeUni =>
      if own then Ret (m, [], convert_result (GetStream (sm_outgoingUniStreams m) num) StreamTypeUni (sm_perspective m))
      else Ret (m, [], Failed (formattedError "peer attempted to open send stream %d" [id]))
  | StreamTypeBidi =>
      '(m, evs, r) ← (if own then Ret (m, [], GetStream (sm_outgoingBidiStreams m) num) else openBidi m num);
      Ret (m, evs, convert_result r StreamTypeBidi (StreamID_InitiatedBy id))
  end.

(** The error becomes a transport error of the connection. *)
Definition state_error (r : call_result) : call_result := match r with Failed e => Failed (StreamStateError e) | _ => r end.

Definition GetOrOpenReceiveStream (m : streamsMap) (id : Z) : outcome (streamsMap * list streams_event * call_result) :=
  '(m, evs, r) ← getOrOpenReceiveStream m id; Ret (m, evs, state_error r).

Definition GetOrOpenSendStream (m : streamsMap) (id : Z) : outcome (streamsMap * list streams_event * call_result) :=
  '(m, evs, r) ← getOrOpenSendStream m id; Ret (m, evs, state_error r).

Definition HandleMaxStreamsFrame (m : streamsMap) (t : StreamType) (num : Z) : outcome (streamsMap * list streams_event) :=
  match t with
  | StreamTypeUni => '(mm, evs) ← SetMaxStream StreamTypeUni (sm_outgoingUniStreams m) num; Ret (m <| sm_outgoingUniStreams := mm |>, evs)
  | StreamTypeBidi => '(mm, evs) ← SetMaxStream StreamTypeBidi (sm_outgoingBidiStreams m) num; Ret (m <| sm_outgoingBidiStreams := mm |>, evs)
  end.

Definition UpdateLimits (m : streamsMap) (p : TransportParameters) : outcome (streamsMap * list streams_event) :=
  let e1 := out_UpdateSendWindow (sm_outgoingBidiStreams m) (tp_InitialMaxStreamDataBidiRemote p) in
  '(bidi, e2) ← SetMaxStream StreamTypeBidi (sm_outgoingBidiStreams m) (tp_MaxBidiStreamNum p);
  let e3 := out_UpdateSendWindow (sm_outgoingUniStreams m) (tp_InitialMaxStreamDataUni p) in
  '(uni, e4) ← SetMaxStream StreamTypeUni (sm_outgoingUniStreams m) (tp_MaxUniStreamNum p);
  Ret (m <| sm_outgoingBidiStreams := bidi |> <| sm_outgoingUniStreams := uni |>, e1 ++ e2 ++ e3 ++ e4).

Definition CloseWithError (m : streamsMap) (err : stream_error) : outcome (streamsMap * list streams_event) :=
  '(ob, e1) ← out_CloseWithError (sm_outgoingBidiStreams m) err;
  '(ou, e2) ← out_CloseWithError (sm_outgoingUniStreams m) err;
  '(ib, e3) ← in_CloseWithError (sm_incomingBidiStreams m) err;
  '(iu, e4) ← in_CloseWithError (sm_incomingUniStreams m) err;
  Ret (m <| sm_outgoingBidiStreams := ob |> <| sm_outgoingUniStreams := ou |> <| sm_incomingBidiStreams := ib |> <| sm_incomingUniStreams := iu |>,
       e1 ++ e2 ++ e3 ++ e4).

Definition ResetFor0RTT (m : streamsMap) : outcome (streamsMap * list streams_event) :=
  '(m, evs) ← CloseWithError (m <| sm_reset := true |>) Err0RTTRejected;
  Ret (initMaps m, evs).

Definition UseResetMaps (m : streamsMap) : streamsMap := m <| sm_reset := false |>.
