(* ===== verification/QuicStreamsMapTheorems.v ===== *)
(** * Streams are opened within limits, in order, and none is forgotten

    The outgoing map of one endpoint and the incoming map of the other, with the MAX_STREAMS frames
    and the frames of streams between them, in any interleaving. *)

From stdpp Require Import base list numbers strings gmap.
From Stdlib Require Import ZArith Lia.
From S2P Require Import Prelude QuicProtocol QuicFrames QuicStreamsMap.

Section Streams.
(** The type of the streams, and who opens them. *)
Variables (stype : StreamType) (pers : Perspective).

Definition id_of (num : Z) : Z := StreamNum_StreamID num stype pers.

(** ** The incoming map *)

Definition open_now (m : incomingStreamsMap) : Z := Z.of_nat (size (in_streams m)).

(** The limit that the map could announce. *)
Definition full_limit (m : incomingStreamsMap) : Z := in_nextStreamToOpen m - 1 + in_maxNumStreams m - open_now m.

Record incoming_ok (m : incomingStreamsMap) : Prop := {
  io_order : 1 <= in_nextStreamToAccept m <= in_nextStreamToOpen m;
  io_limit : in_nextStreamToOpen m - 1 <= in_maxStream m <= MaxStreamCount;
  io_number : in_maxNumStreams m <= MaxStreamCount;
  io_room : in_maxStream m <= full_limit m;
  io_full : in_maxStream m = full_limit m ∨ MaxStreamCount < full_limit m;
  io_entry : ∀ num e, in_streams m !! num = Some e → 1 <= num < in_nextStreamToOpen m ∧ en_stream e = id_of num;
  io_waiting : ∀ num, in_nextStreamToAccept m <= num < in_nextStreamToOpen m → is_Some (in_streams m !! num);
  io_open : sg_closed (in_newStreamChan m) = false;
  io_error : in_closeErr m = None;
}.

Lemma max_count : MaxStreamCount = 2 ^ 60.
Proof. done. Qed.

Lemma new_incoming_ok maxStreams : 0 <= maxStreams <= MaxStreamCount → incoming_ok (newIncomingStreamsMap maxStreams).
Proof.
  intros Hm. assert (i64 maxStreams = maxStreams) as E by (apply i64_small; rewrite max_count in Hm; lia).
  split; unfold full_limit, open_now; cbn; rewrite ?map_size_empty, ?E; try done; try lia.
Qed.

(** What the removal of a stream does. *)
Inductive deleted (m : incomingStreamsMap) (num : Z) : incomingStreamsMap → list streams_event → option stream_error → Prop :=
| deleted_error e : in_streams m !! num = None ∨ in_nextStreamToAccept m <= num → deleted m num m [] (Some e)
| deleted_later e : in_streams m !! num = Some e → in_nextStreamToAccept m <= num →
    deleted m num (m <| in_streams ::= <[num := mk_entry (en_stream e) true]> |>) [] None
| deleted_now e m' : in_streams m !! num = Some e → num < in_nextStreamToAccept m → m' = m <| in_streams ::= delete num |> → full_limit m' <= MaxStreamCount →
    deleted m num (m' <| in_maxStream := full_limit m' |>) [queueControlFrame (MaxStreamsFrame stype (full_limit m'))] None
| deleted_at_limit e m' : in_streams m !! num = Some e → num < in_nextStreamToAccept m → m' = m <| in_streams ::= delete num |> → MaxStreamCount < full_limit m' →
    deleted m num m' [] None.

Lemma open_now_delete m num e : in_streams m !! num = Some e → open_now (m <| in_streams ::= delete num |>) = open_now m - 1 ∧ 0 < open_now m.
Proof.
  intros H. unfold open_now. cbn. rewrite map_size_delete_Some by done. assert (size (in_streams m) ≠ 0%nat); [|lia].
  intros E. apply map_size_empty_inv in E. by rewrite E, lookup_empty in H.
Qed.

Lemma full_limit_delete m num e : in_streams m !! num = Some e → full_limit (m <| in_streams ::= delete num |>) = full_limit m + 1.
Proof.
  intros H. destruct (open_now_delete m num e H) as [E _]. unfold full_limit. rewrite E.
  transitivity (in_nextStreamToOpen m - 1 + in_maxNumStreams m - (open_now m - 1)); [reflexivity|lia].
Qed.

Lemma deleteStream_cases m num m' evs err : incoming_ok m → deleteStream stype m num = (m', evs, err) → deleted m num m' evs err.
Proof.
  intros Hm. unfold deleteStream. destruct (in_streams m !! num) as [e|] eqn:E; [|intros [= <- <- <-]; constructor; by left].
  destruct (Z.leb_spec (in_nextStreamToAccept m) num); [destruct (en_shouldDelete e)|]; [intros [= <- <- <-]; constructor; by right|intros [= <- <- <-]; by constructor|].
  destruct (open_now_delete m num e E) as [Es Hp]. destruct Hm as [M1 M2 M3 M4 M5 _ _ _ _]. set (m1 := m <| in_streams ::= delete num |>) in *.
  fold (open_now m1). cbn zeta. change (in_maxNumStreams m1) with (in_maxNumStreams m). change (in_nextStreamToOpen m1) with (in_nextStreamToOpen m).
  unfold full_limit in *. rewrite (proj2 (Z.ltb_lt _ _)) by lia. rewrite max_count in *.
  rewrite (i64_small (in_maxNumStreams m - open_now m1)), i64_small by lia.
  assert (in_nextStreamToOpen m + (in_maxNumStreams m - open_now m1) - 1 = full_limit m1) as -> by (unfold full_limit; cbn -[open_now]; lia).
  destruct (Z.leb_spec (full_limit m1) (2 ^ 60)); intros [= <- <- <-]; [apply (deleted_now m num e m1)|apply (deleted_at_limit m num e m1)]; by rewrite ?max_count.
Qed.

(** Entries and limits survive a removal. *)
Lemma deleted_ok m num m' evs err : incoming_ok m → deleted m num m' evs err → incoming_ok m'.
Proof.
  intros Hm H. pose proof Hm as [M1 M2 M3 M4 M5 M6 M7 M8 M9]. destruct H as [e|e He Hn|e m' He Hn -> Hl|e m' He Hn -> Hl]; [done| | |].
  - assert (open_now (m <| in_streams ::= <[num := mk_entry (en_stream e) true]> |>) = open_now m) as Eo by (unfold open_now; cbn; by rewrite map_size_insert_Some by eauto).
    split; unfold full_limit in *; rewrite ?Eo; try done.
    + intros n x. cbn. rewrite lookup_insert. destruct (decide (num = n)) as [->|]; [|by apply M6]. intros [= <-]. exact (M6 n e He).
    + intros n Hb. cbn. rewrite lookup_insert. destruct (decide (num = n)); eauto.
  - pose proof (full_limit_delete m num e He) as Ef. set (m1 := m <| in_streams ::= delete num |>) in *. split; try done.
    + change (in_nextStreamToOpen m - 1 <= full_limit m1 <= MaxStreamCount). lia.
    + by left.
    + intros n x Hx. change (delete num (in_streams m) !! n = Some x) in Hx. apply lookup_delete_Some in Hx as [_ Hx]. by apply M6.
    + intros n Hb. change (is_Some (delete num (in_streams m) !! n)). change (in_nextStreamToAccept m <= n < in_nextStreamToOpen m) in Hb.
      rewrite lookup_delete_ne by lia. by apply M7.
  - pose proof (full_limit_delete m num e He) as Ef. set (m1 := m <| in_streams ::= delete num |>) in *. split; try done.
    + change (in_maxStream m <= full_limit m1). lia.
    + by right.
    + intros n x Hx. change (delete num (in_streams m) !! n = Some x) in Hx. apply lookup_delete_Some in Hx as [_ Hx]. by apply M6.
    + intros n Hb. change (is_Some (delete num (in_streams m) !! n)). change (in_nextStreamToAccept m <= n < in_nextStreamToOpen m) in Hb.
      rewrite lookup_delete_ne by lia. by apply M7.
Qed.

Lemma deleted_frame m num m' evs err : incoming_ok m → deleted m num m' evs err →
  in_maxStream m <= in_maxStream m' ∧ in_nextStreamToAccept m' = in_nextStreamToAccept m ∧ in_nextStreamToOpen m' = in_nextStreamToOpen m ∧ in_maxNumStreams m' = in_maxNumStreams m ∧
  in_newStreamChan m' = in_newStreamChan m ∧ (evs = [] ∧ in_maxStream m' = in_maxStream m ∨ evs = [queueControlFrame (MaxStreamsFrame stype (in_maxStream m'))]).
Proof.
  intros [M1 M2 M3 M4 M5 M6 M7 M8 M9] H. destruct H as [e|e He Hn|e m' He Hn -> Hl|e m' He Hn -> Hl]; split_and!; try done; auto.
  pose proof (full_limit_delete m num e He) as Ef. change (in_maxStream m <= full_limit (m <| in_streams ::= delete num |>)). lia.
Qed.

Definition signalled : signal := mk_signal true false.

Lemma open_streams_run fuel : ∀ m newNum num, sg_closed (in_newStreamChan m) = false → newNum <= num + 1 → (Z.to_nat (num - newNum + 1) ≤ fuel)%nat →
  (∀ k, newNum <= k → in_streams m !! k = None) →
  ∃ st evs, open_streams stype pers fuel m newNum num =
      Ret (m <| in_streams := st |> <| in_newStreamChan := if num <? newNum then in_newStreamChan m else signalled |>, evs) ∧
    (∀ k, st !! k = if bool_decide (newNum <= k <= num) then Some (mk_entry (id_of k) false) else in_streams m !! k) ∧
    Z.of_nat (size st) = open_now m + (num - newNum + 1).
Proof.
  induction fuel as [|fuel IH]; intros m newNum num Hc Hn Hf Hnone; cbn [open_streams].
  - rewrite (proj2 (Z.ltb_lt num newNum)) by lia. exists (in_streams m), []. split_and!; [by destruct m| |unfold open_now; lia].
    intros k. by rewrite bool_decide_eq_false_2 by lia.
  - destruct (Z.ltb_spec num newNum) as [Hl|Hl].
    { exists (in_streams m), []. split_and!; [by destruct m| |unfold open_now; lia]. intros k. by rewrite bool_decide_eq_false_2 by lia. }
    unfold trySend. rewrite Hc. cbn [mbind outcome_bind].
    set (m1 := m <| in_streams ::= <[newNum := mk_entry (StreamNum_StreamID newNum stype pers) false]> |> <| in_newStreamChan := mk_signal true false |>).
    destruct (IH m1 (newNum + 1) num) as (st & evs & E & Hst & Hsz); [done|lia|lia| |].
    { intros k Hk. change (<[newNum := mk_entry (id_of newNum) false]> (in_streams m) !! k = None). rewrite lookup_insert_ne by lia. apply Hnone. lia. }
    rewrite E. cbn [mbind outcome_bind]. eexists st, _. split; [f_equal; f_equal; by destruct (num <? newNum + 1)|]. split.
    + intros k. rewrite Hst. change (in_streams m1) with (<[newNum := mk_entry (id_of newNum) false]> (in_streams m)). rewrite lookup_insert.
      destruct (decide (newNum = k)) as [->|]; [by rewrite bool_decide_eq_false_2, bool_decide_eq_true_2 by lia|].
      by rewrite (bool_decide_ext (newNum + 1 <= k <= num) (newNum <= k <= num)) by lia.
    + rewrite Hsz. unfold open_now. change (in_streams m1) with (<[newNum := mk_entry (id_of newNum) false]> (in_streams m)).
      rewrite map_size_insert_None by (apply Hnone; lia). lia.
Qed.

(** A stream within the limit is found or opened, with all streams below it. *)
Lemma GetOrOpenStream_ok m num : incoming_ok m → 1 <= num <= in_maxStream m →
  ∃ m' evs s, GetOrOpenStream stype pers m num = Ret (m', evs, Returned s) ∧ incoming_ok m' ∧ (∀ x, s = Some x → x = id_of num) ∧
    in_nextStreamToAccept m' = in_nextStreamToAccept m ∧ in_nextStreamToOpen m' = Z.max (in_nextStreamToOpen m) (num + 1) ∧ in_maxStream m' = in_maxStream m ∧ in_maxNumStreams m' = in_maxNumStreams m ∧
    (in_newStreamChan m' = in_newStreamChan m ∧ in_nextStreamToOpen m' = in_nextStreamToOpen m ∨ sg_full (in_newStreamChan m') = true).
Proof.
  intros Hm Hn. pose proof Hm as [M1 M2 M3 M4 M5 M6 M7 M8 M9]. unfold GetOrOpenStream. rewrite (proj2 (Z.ltb_ge _ _)) by lia.
  destruct (Z.ltb_spec num (in_nextStreamToOpen m)) as [Hl|Hl].
  { eexists m, [], _. split; [done|]. split_and!; try done; [|lia|by left]. intros x. destruct (in_streams m !! num) as [e|] eqn:E; [|done]. cbn.
    destruct (M6 num e E) as (_ & Hid). destruct (en_shouldDelete e); [done|]. by intros [= <-]. }
  destruct (open_streams_run (Z.to_nat (num - in_nextStreamToOpen m + 1)) m (in_nextStreamToOpen m) num) as (st & evs & E & Hst & Hsz); [done|lia|done| |].
  { intros k Hk. destruct (in_streams m !! k) as [e|] eqn:Ek; [|done]. destruct (M6 k e Ek). lia. }
  rewrite E, (proj2 (Z.ltb_ge _ _)) by lia. cbn [mbind outcome_bind]. set (m1 := m <| in_streams := st |> <| in_newStreamChan := signalled |> <| in_nextStreamToOpen := num + 1 |>).
  eexists m1, evs, _. split; [done|]. assert (full_limit m1 = full_limit m) as Ef.
  { unfold full_limit, open_now at 1. change (in_streams m1) with st. change (in_nextStreamToOpen m1) with (num + 1). change (in_maxNumStreams m1) with (in_maxNumStreams m). lia. }
  split_and!; try done; [| |change (num + 1 = Z.max (in_nextStreamToOpen m) (num + 1)); lia|by right].
  - split; try done; rewrite ?Ef; try done; cbn -[open_now full_limit]; try lia.
    + intros k e. rewrite Hst. destruct (bool_decide_reflect (in_nextStreamToOpen m <= k <= num)).
      * intros [= <-]. cbn. split_and!; done || lia.
      * intros He. destruct (M6 k e He) as (? & ?). split_and!; done || lia.
    + intros k Hk. rewrite Hst. destruct (bool_decide_reflect (in_nextStreamToOpen m <= k <= num)); [by eexists|]. apply M7. lia.
  - intros x. change (in_streams m1) with st. rewrite Hst, bool_decide_eq_true_2 by lia. cbn. by intros [= <-].
Qed.

Lemma accepted_ok m : incoming_ok m → in_nextStreamToAccept m < in_nextStreamToOpen m → incoming_ok (m <| in_nextStreamToAccept := in_nextStreamToAccept m + 1 |>).
Proof.
  intros [M1 M2 M3 M4 M5 M6 M7 M8 M9] Ha. split; try done; [cbn; lia|]. intros n. cbn. intros Hn. apply M7. lia.
Qed.

(** The next stream is accepted as soon as it is open. *)
Lemma accept_round_ok m : incoming_ok m → in_nextStreamToAccept m < in_nextStreamToOpen m →
  ∃ m' evs, accept_round stype m = (m', evs, Returned (Some (id_of (in_nextStreamToAccept m)))) ∧ incoming_ok m' ∧
    in_maxStream m <= in_maxStream m' ∧ in_nextStreamToAccept m' = in_nextStreamToAccept m + 1 ∧ in_nextStreamToOpen m' = in_nextStreamToOpen m ∧ in_maxNumStreams m' = in_maxNumStreams m ∧
    in_newStreamChan m' = in_newStreamChan m ∧ (evs = [] ∧ in_maxStream m' = in_maxStream m ∨ evs = [queueControlFrame (MaxStreamsFrame stype (in_maxStream m'))]).
Proof.
  intros Hm Ha. pose proof Hm as [M1 M2 M3 M4 M5 M6 M7 M8 M9]. unfold accept_round. rewrite M9. destruct (M7 (in_nextStreamToAccept m)) as [e He]; [lia|]. rewrite He.
  destruct (M6 _ _ He) as [_ Hid]. rewrite Hid. set (m1 := m <| in_nextStreamToAccept := in_nextStreamToAccept m + 1 |>). pose proof (accepted_ok m Hm Ha : incoming_ok m1) as Hm1.
  cbn zeta. destruct (en_shouldDelete e); [|eexists m1, []; split_and!; try done; by left].
  destruct (deleteStream stype m1 (in_nextStreamToAccept m)) as [[m2 evs] err] eqn:E. apply deleteStream_cases in E; [|done].
  pose proof (deleted_ok _ _ _ _ _ Hm1 E) as Hm2. destruct (deleted_frame _ _ _ _ _ Hm1 E) as (F1 & F2 & F3 & F4 & F5 & F6).
  assert (err = None) as ->; [|exists m2, evs; by split_and!].
  inversion E as [e' [Hn|Hn]| | |]; subst; try done.
  - change (in_streams m !! in_nextStreamToAccept m = None) in Hn. by rewrite He in Hn.
  - cbn in Hn. lia.
Qed.

(** ** The outgoing map *)

Record outgoing_ok (m : outgoingStreamsMap) : Prop := {
  oo_next : 1 <= out_nextStream m;
  oo_limit : out_nextStream m - 1 <= Z.max 0 (out_maxStream m);
  oo_queue : ∀ k c, out_openQueue m !! k = Some c → out_lowestInQueue m <= k < out_highestInQueue m ∧ sg_closed c = false;
  oo_first : ∀ k c, out_openQueue m !! k = Some c → sg_full c = true → ∀ j, is_Some (out_openQueue m !! j) → k <= j;
  oo_streams : ∀ n s, out_streams m !! n = Some s → 1 <= n < out_nextStream m ∧ s = id_of n;
  oo_error : out_closeErr m = None;
}.

(** When a stream could be opened, one of the calls that wait can continue. *)
Definition out_live (m : outgoingStreamsMap) : Prop :=
  out_nextStream m <= out_maxStream m → out_openQueue m ≠ ∅ → ∃ k, out_openQueue m !! k = Some signalled.

Lemma new_outgoing_ok : outgoing_ok newOutgoingStreamsMap ∧ out_live newOutgoingStreamsMap.
Proof. split; [by split|]. intros H. by destruct H. Qed.

Lemma blocked_ok m b : outgoing_ok m → outgoing_ok (m <| out_blockedSent := b |>).
Proof. intros [O1 O2 O3 O4 O5 O6]. by split. Qed.

Lemma maybeSendBlockedFrame_spec m : ∃ b evs, maybeSendBlockedFrame stype m = (m <| out_blockedSent := b |>, evs).
Proof. unfold maybeSendBlockedFrame. destruct (out_blockedSent m) eqn:E; [|by eexists true, _]. exists true, []. rewrite <- E. by destruct m. Qed.

Lemma empty_queue m : (size (out_openQueue m) =? 0)%nat = bool_decide (out_openQueue m = ∅).
Proof.
  destruct (Nat.eqb_spec (size (out_openQueue m)) 0) as [E|E]; symmetry; [by apply bool_decide_eq_true, map_size_empty_inv|].
  apply bool_decide_eq_false. intros Eq. apply E. by rewrite Eq, map_size_empty.
Qed.

Lemma unblock_loop_run fuel : ∀ (q : gmap Z signal) qp highest, (Z.to_nat (highest - qp + 1) ≤ fuel)%nat → (∀ k c, q !! k = Some c → qp <= k < highest ∧ sg_closed c = false) →
  ∃ q', unblock_loop fuel q qp highest = Ret q' ∧ (q = ∅ ∧ q' = ∅ ∨ ∃ k, is_Some (q !! k) ∧ (∀ j, is_Some (q !! j) → k <= j) ∧ q' = <[k := signalled]> q).
Proof.
  assert (∀ (q : gmap Z signal) qp highest, highest < qp → (∀ k c, q !! k = Some c → qp <= k < highest ∧ sg_closed c = false) → q = ∅) as Hempty.
  { intros q qp highest Hh Hq. apply map_empty. intros k. destruct (q !! k) as [c|] eqn:E; [|done]. destruct (Hq k c E). lia. }
  induction fuel as [|fuel IH]; intros q qp highest Hf Hq; cbn [unblock_loop]; (destruct (Z.ltb_spec highest qp) as [Hl|Hl]; [rewrite (Hempty q qp highest Hl Hq); eexists; split; [done|by left]|]); [lia|].
  destruct (q !! qp) as [c|] eqn:E.
  - unfold trySend. rewrite (proj2 (Hq qp c E)). eexists. split; [done|]. right. exists qp. split_and!; [eauto|intros j [d Hd]; destruct (Hq j d Hd); lia|done].
  - apply IH; [lia|]. intros k d Hd. destruct (Hq k d Hd). split; [|done]. assert (k ≠ qp) by (intros ->; congruence). lia.
Qed.

Lemma unblockOpenSync_ok m : outgoing_ok m →
  ∃ m', unblockOpenSync m = Ret m' ∧ outgoing_ok m' ∧ out_live m' ∧ dom (out_openQueue m') = dom (out_openQueue m) ∧ out_nextStream m' = out_nextStream m ∧ out_maxStream m' = out_maxStream m ∧
    out_highestInQueue m' = out_highestInQueue m.
Proof.
  intros Hm. pose proof Hm as [O1 O2 O3 O4 O5 O6]. unfold unblockOpenSync. rewrite empty_queue. case_bool_decide as Hq; [exists m; split_and!; try done; by intros _ ?|].
  destruct (unblock_loop_run (Z.to_nat (out_highestInQueue m - out_lowestInQueue m + 1)) (out_openQueue m) (out_lowestInQueue m) (out_highestInQueue m)) as (q' & E & [[? _]|(k & Hk & Hmin & ->)]); [lia|done|done|].
  rewrite E. cbn [mbind outcome_bind]. eexists. split; [done|]. assert (∀ j, is_Some (<[k := signalled]> (out_openQueue m) !! j) → is_Some (out_openQueue m !! j)) as Hsome.
  { intros j. rewrite lookup_insert. by destruct (decide (k = j)) as [->|]. }
  split_and!; try done.
  - split; try done; cbn.
    + intros j c. rewrite lookup_insert. destruct (decide (k = j)) as [->|]; [|apply O3]. intros [= <-]. destruct Hk as [d Hd]. by destruct (O3 j d Hd).
    + intros j c. rewrite lookup_insert. destruct (decide (k = j)) as [->|Hne].
      * intros _ _ i Hi. by apply Hmin, Hsome.
      * intros Hj Hfull i Hi. apply (O4 j c Hj Hfull). by apply Hsome.
  - intros _ _. exists k. cbn. by rewrite lookup_insert_eq.
  - cbn. rewrite dom_insert_L. apply elem_of_dom in Hk. by apply subseteq_union_1_L, singleton_subseteq_l.
Qed.

Lemma openStream_ok m : outgoing_ok m → out_nextStream m <= out_maxStream m →
  ∃ m', openStream stype pers m = (m', [createStream (id_of (out_nextStream m))], id_of (out_nextStream m)) ∧ outgoing_ok m' ∧ (out_live m → out_live m') ∧
    out_openQueue m' = out_openQueue m ∧ out_nextStream m' = out_nextStream m + 1 ∧ out_maxStream m' = out_maxStream m ∧ out_highestInQueue m' = out_highestInQueue m.
Proof.
  intros [O1 O2 O3 O4 O5 O6] Hn. eexists. split; [done|]. split_and!; try done.
  - split; try done; cbn; [lia|lia|]. intros n s. rewrite lookup_insert. destruct (decide (out_nextStream m = n)) as [<-|]; [intros [= <-]; split; [lia|done]|].
    intros Hs. destruct (O5 n s Hs). split; [lia|done].
  - intros Hl. unfold out_live in *. cbn. intros Hle. apply Hl. lia.
Qed.

(** How a call that opens streams ends, with the number of the next stream before and after it. *)
Definition call_opens (r : call_result) (n n' : Z) : Prop := r = Returned (Some (id_of n)) ∧ n' = n + 1 ∨ (∀ s, r ≠ Returned s) ∧ n' = n.

Lemma OpenStream_ok m m' evs r : outgoing_ok m → out_OpenStream stype pers m = (m', evs, r) →
  outgoing_ok m' ∧ (out_live m → out_live m') ∧ out_openQueue m' = out_openQueue m ∧ out_maxStream m' = out_maxStream m ∧ call_opens r (out_nextStream m) (out_nextStream m').
Proof.
  intros Hm. pose proof Hm as [O1 O2 O3 O4 O5 O6]. unfold out_OpenStream. rewrite O6, empty_queue. destruct (negb _ || _) eqn:E.
  - destruct (maybeSendBlockedFrame_spec m) as (b & evs' & ->). intros [= <- <- <-]. split_and!; [by apply blocked_ok|done..|by right].
  - apply orb_false_iff in E as [_ E%Z.ltb_ge]. destruct (openStream_ok m Hm E) as (m1 & -> & H1 & H2 & H3 & H4 & H5 & H6). intros [= <- <- <-]. split_and!; try done. by left.
Qed.

Lemma OpenStreamSync_ok m ctxErr m' evs r : outgoing_ok m → out_OpenStreamSync stype pers m ctxErr = (m', evs, r) →
  outgoing_ok m' ∧ (out_live m → out_live m') ∧ out_maxStream m' = out_maxStream m ∧ call_opens r (out_nextStream m) (out_nextStream m') ∧
  match r with
  | BlockedAt pos => dom (out_openQueue m') = {[pos]} ∪ dom (out_openQueue m)
  | _ => out_openQueue m' = out_openQueue m
  end.
Proof.
  intros Hm. pose proof Hm as [O1 O2 O3 O4 O5 O6]. unfold out_OpenStreamSync. rewrite O6, empty_queue. destruct ctxErr as [e|]; [intros [= <- <- <-]; split_and!; try done; by right|].
  destruct (bool_decide (out_openQueue m = ∅) && _) eqn:E.
  { apply andb_true_iff in E as [_ E%Z.leb_le]. destruct (openStream_ok m Hm E) as (m1 & -> & H1 & H2 & H3 & H4 & H5 & H6). intros [= <- <- <-]. split_and!; try done. by left. }
  cbn zeta. set (pos := out_highestInQueue m). set (m1 := m <| out_highestInQueue ::= λ n, n + 1 |>).
  set (m2 := if (size (out_openQueue m1) =? 0)%nat then m1 <| out_lowestInQueue := pos |> else m1).
  destruct (maybeSendBlockedFrame_spec (m2 <| out_openQueue ::= <[pos := make_signal]> |>)) as (b & evs' & ->). intros [= <- <- <-].
  assert (out_openQueue m2 = out_openQueue m ∧ out_nextStream m2 = out_nextStream m ∧ out_maxStream m2 = out_maxStream m ∧ out_streams m2 = out_streams m ∧ out_closeErr m2 = None ∧
    out_highestInQueue m2 = pos + 1 ∧ (out_lowestInQueue m2 = pos ∧ out_openQueue m = ∅ ∨ out_lowestInQueue m2 = out_lowestInQueue m ∧ out_openQueue m ≠ ∅)) as (E1 & E2 & E3 & E4 & E5 & E6 & E7).
  { unfold m2. rewrite empty_queue. change (out_openQueue m1) with (out_openQueue m). case_bool_decide; split_and!; try done; [by left|by right]. }
  assert (out_openQueue m !! pos = None) as Hpos. { destruct (out_openQueue m !! pos) as [c|] eqn:Ec; [|done]. destruct (O3 pos c Ec). unfold pos in *. lia. }
  assert (∀ k c, <[pos := make_signal]> (out_openQueue m) !! k = Some c → k = pos ∧ c = make_signal ∨ k < pos ∧ out_openQueue m !! k = Some c) as Hk.
  { intros k c. rewrite lookup_insert. destruct (decide (pos = k)) as [<-|]; [intros [= <-]; by left|]. intros Hc. right. split; [|done]. apply (O3 k c Hc). }
  split_and!; [| |exact E3|right; split; [done|exact E2]|change (dom (<[pos := make_signal]> (out_openQueue m2)) = {[pos]} ∪ dom (out_openQueue m)); by rewrite E1, dom_insert_L].
  - split; cbn; rewrite ?E1, ?E2, ?E3, ?E4, ?E5, ?E6; try done.
    + intros k c Hc. destruct (Hk k c Hc) as [[-> ->]|[Hlt Hc']]; [split; [destruct E7 as [[-> _]|[-> Hne]]|done]|].
      * lia.
      * apply map_choose in Hne as (j & d & Hd). destruct (O3 j d Hd). unfold pos. lia.
      * destruct E7 as [[_ Hq]|[-> _]]; [by rewrite Hq, lookup_empty in Hc'|]. destruct (O3 k c Hc'). split; [lia|done].
    + intros k c Hc Hfull j [d Hd]. destruct (Hk k c Hc) as [[-> ->]|[Hlt Hc']]; [done|]. destruct (Hk j d Hd) as [[-> _]|[_ Hd']]; [lia|]. apply (O4 k c Hc' Hfull). eauto.
  - intros Hl. unfold out_live in *. cbn. rewrite E1, E2, E3. intros Hle _. apply andb_false_iff in E as [Hq%bool_decide_eq_false|E%Z.leb_gt]; [|lia].
    destruct (Hl Hle Hq) as [k Hk']. exists k. rewrite lookup_insert_ne; [done|]. intros <-. by rewrite Hpos in Hk'.
Qed.

(** A call that waits is woken. *)
Lemma OpenStreamSync_woken_ok m pos c : outgoing_ok m → out_openQueue m !! pos = Some c → sg_full c = true →
  ∃ m' evs r, OpenStreamSync_woken stype pers m pos = Some (Ret (m', evs, r)) ∧ outgoing_ok m' ∧ out_live m' ∧ out_maxStream m' = out_maxStream m ∧
    call_opens r (out_nextStream m) (out_nextStream m') ∧
    (if out_nextStream m <=? out_maxStream m then r = Returned (Some (id_of (out_nextStream m))) ∧ dom (out_openQueue m') = dom (out_openQueue m) ∖ {[pos]}
     else r = BlockedAt pos ∧ dom (out_openQueue m') = dom (out_openQueue m)).
Proof.
  intros Hm Hc Hfull. pose proof Hm as [O1 O2 O3 O4 O5 O6]. unfold OpenStreamSync_woken. rewrite Hc. cbn [mbind option_bind]. unfold tryReceive. rewrite Hfull, (proj2 (O3 pos c Hc)). cbn [mbind option_bind orb].
  set (m1 := m <| out_openQueue ::= <[pos := mk_signal false false]> |>). change (out_closeErr m1) with (out_closeErr m). rewrite O6.
  change (out_maxStream m1) with (out_maxStream m). change (out_nextStream m1) with (out_nextStream m).
  assert (∀ j, is_Some (<[pos := mk_signal false false]> (out_openQueue m) !! j) → is_Some (out_openQueue m !! j)) as Hsome.
  { intros j. rewrite lookup_insert. destruct (decide (pos = j)) as [->|]; [eauto|done]. }
  assert (outgoing_ok m1) as Hm1.
  { split; try done; cbn.
    - intros k d. rewrite lookup_insert. destruct (decide (pos = k)) as [<-|]; [|apply O3]. intros [= <-]. split; [by apply (O3 pos c)|done].
    - intros k d. rewrite lookup_insert. destruct (decide (pos = k)) as [<-|]; [by intros [= <-]|]. intros Hd Hf j Hj. apply (O4 k d Hd Hf). by apply Hsome. }
  assert (dom (out_openQueue m1) = dom (out_openQueue m)) as Hdom.
  { cbn. rewrite dom_insert_L. apply subseteq_union_1_L, singleton_subseteq_l. exact (elem_of_dom_2 _ _ _ Hc). }
  destruct (Z.leb_spec (out_nextStream m) (out_maxStream m)) as [Hle|Hle].
  - rewrite (proj2 (Z.ltb_ge _ _)) by lia. destruct (openStream_ok m1 Hm1 Hle) as (m2 & -> & H1 & H2 & H3 & H4 & H5 & H6). cbv zeta.
    set (m3 := m2 <| out_openQueue ::= delete pos |> <| out_lowestInQueue := pos + 1 |>). assert (outgoing_ok m3) as Hm3.
    { destruct H1 as [Q1 Q2 Q3 Q4 Q5 Q6]. split; try done; cbn.
      - intros k d Hd%lookup_delete_Some. destruct Hd as [Hne Hd]. destruct (Q3 k d Hd) as [Hb ?]. split; [|done].
        assert (pos <= k); [|lia]. apply (O4 pos c Hc Hfull), Hsome. rewrite H3 in Hd. by exists d.
      - intros k d Hd%lookup_delete_Some Hf j [x Hx%lookup_delete_Some]. apply (Q4 k d (proj2 Hd) Hf). destruct Hx. eauto. }
    destruct (unblockOpenSync_ok m3 Hm3) as (m4 & -> & R1 & R2 & R3 & R4 & R5 & R6). eexists m4, _, _. split; [done|].
    assert (out_nextStream m4 = out_nextStream m + 1) as En by (rewrite R4; exact H4). split_and!; [done|done|by rewrite R5; etrans; [exact H5|]|by left|done|].
    rewrite R3. cbn. rewrite dom_delete_L, H3. by rewrite Hdom.
  - rewrite (proj2 (Z.ltb_lt _ _)) by lia. eexists m1, _, _. split; [done|]. split_and!; try done; [|by right]. intros Hle'. cbn in Hle'. lia.
Qed.

Lemma SetMaxStream_ok m n : outgoing_ok m →
  ∃ m' evs, SetMaxStream stype m n = Ret (m', evs) ∧ outgoing_ok m' ∧ (out_live m → out_live m') ∧ dom (out_openQueue m') = dom (out_openQueue m) ∧
    out_nextStream m' = out_nextStream m ∧ out_maxStream m' = Z.max (out_maxStream m) n.
Proof.
  intros Hm. unfold SetMaxStream. destruct (Z.leb_spec n (out_maxStream m)) as [Hn|Hn]; [exists m, []; split_and!; try done; lia|].
  set (m1 := m <| out_maxStream := n |> <| out_blockedSent := false |>). destruct (maybeSendBlockedFrame_spec m1) as (b & evs & Eb).
  assert (∃ b evs, (if out_maxStream m1 <? out_nextStream m1 - 1 + Z.of_nat (size (out_openQueue m1)) then maybeSendBlockedFrame stype m1 else (m1, [])) = (m1 <| out_blockedSent := b |>, evs)) as (b' & evs' & ->).
  { destruct (_ <? _); [by exists b, evs|]. by exists false, []. }
  assert (outgoing_ok (m1 <| out_blockedSent := b' |>)) as Hm2.
  { destruct Hm as [O1 O2 O3 O4 O5 O6]. split; try done. cbn. lia. }
  destruct (unblockOpenSync_ok _ Hm2) as (m3 & E & R1 & R2 & R3 & R4 & R5 & R6). rewrite E. exists m3, evs'. split_and!; try done. rewrite R5. cbn. lia.
Qed.

Lemma OpenStreamSync_cancelled_ok m pos : outgoing_ok m →
  let m' := (OpenStreamSync_cancelled m pos).1 in
  outgoing_ok m' ∧ dom (out_openQueue m') = dom (out_openQueue m) ∖ {[pos]} ∧ ((∀ c, out_openQueue m !! pos = Some c → sg_full c = false) → out_live m → out_live m').
Proof.
  intros Hm. pose proof Hm as [O1 O2 O3 O4 O5 O6]. cbv zeta. unfold OpenStreamSync_cancelled. cbn [fst]. split_and!.
  - split; try done; cbn.
    + intros k c [_ Hc]%lookup_delete_Some. by apply O3.
    + intros k c [_ Hc]%lookup_delete_Some Hf j [d [_ Hd]%lookup_delete_Some]. apply (O4 k c Hc Hf). eauto.
  - cbn. by rewrite dom_delete_L.
  - intros Hpos Hl Hle Hne. cbn in *. destruct (Hl Hle) as [k Hk].
    { intros Hq. rewrite Hq, delete_empty in Hne. done. }
    exists k. rewrite lookup_delete_ne; [done|]. intros ->. by specialize (Hpos _ Hk).
Qed.

Lemma out_DeleteStream_ok m num : outgoing_ok m →
  let m' := (out_DeleteStream m num).1 in
  outgoing_ok m' ∧ (out_live m → out_live m') ∧ out_openQueue m' = out_openQueue m ∧ out_nextStream m' = out_nextStream m ∧ out_maxStream m' = out_maxStream m.
Proof.
  intros Hm. pose proof Hm as [O1 O2 O3 O4 O5 O6]. cbv zeta. unfold out_DeleteStream. destruct (out_streams m !! num); [|done]. cbn [fst]. split_and!; try done.
  split; try done. cbn. intros n s [_ Hs]%lookup_delete_Some. by apply O5.
Qed.

(** ** Both endpoints *)

Record streams_system := mk_system {
  sy_out : outgoingStreamsMap;
  sy_in : incomingStreamsMap;
  sy_limits : list Z;          (* the limits that were announced *)
  sy_waiting : gset Z;         (* the calls of OpenStreamSync that wait *)
  sy_accepting : nat * nat;    (* the calls of AcceptStream before they first take the mutex, and those that wait *)
  sy_opened : list Z;          (* the streams that were opened, in this order *)
  sy_accepted : list Z;        (* the streams that were accepted, in this order *)
}.

(** The stream that a call returns. *)
Definition returned (r : call_result) : list Z := match r with Returned (Some s) => [s] | _ => [] end.

Definition announced (evs : list streams_event) : list Z := omap (λ ev, match ev with queueControlFrame (MaxStreamsFrame _ n) => Some n | _ => None end) evs.

(** The transport parameters announce the first limit. *)
Definition streams_start (maxStreams : Z) : streams_system :=
  mk_system newOutgoingStreamsMap (newIncomingStreamsMap maxStreams) [maxStreams] ∅ (0, 0)%nat [] [].

(** Limits and frames of streams arrive in any order, repeatedly or not at all.  The mutex of a map
    is taken once per step, except that [AcceptStream] empties the channel before it takes the mutex.  Unless [races], a call
    of OpenStreamSync whose context is done has no value in its channel, and there is only one call of AcceptStream at a time. *)
Inductive streams_step (races : bool) : streams_system → streams_system → Prop :=
| step_open o i l w a os acc o' evs r : out_OpenStream stype pers o = (o', evs, r) →
    streams_step races (mk_system o i l w a os acc) (mk_system o' i l w a (os ++ returned r) acc)
| step_open_sync o i l w a os acc ctxErr o' evs r : out_OpenStreamSync stype pers o ctxErr = (o', evs, r) →
    streams_step races (mk_system o i l w a os acc) (mk_system o' i l (match r with BlockedAt pos => {[pos]} ∪ w | _ => w end) a (os ++ returned r) acc)
| step_woken o i l w a os acc pos o' evs r : pos ∈ w → OpenStreamSync_woken stype pers o pos = Some (Ret (o', evs, r)) →
    streams_step races (mk_system o i l w a os acc) (mk_system o' i l (match r with BlockedAt _ => w | _ => w ∖ {[pos]} end) a (os ++ returned r) acc)
| step_cancelled o i l w a os acc pos : pos ∈ w → races = true ∨ (∀ c, out_openQueue o !! pos = Some c → sg_full c = false) →
    streams_step races (mk_system o i l w a os acc) (mk_system (OpenStreamSync_cancelled o pos).1 i l (w ∖ {[pos]}) a os acc)
| step_delete o i l w a os acc num :
    streams_step races (mk_system o i l w a os acc) (mk_system (out_DeleteStream o num).1 i l w a os acc)
| step_limit o i l w a os acc n o' evs : n ∈ l → SetMaxStream stype o n = Ret (o', evs) →
    streams_step races (mk_system o i l w a os acc) (mk_system o' i l w a os acc)
| step_frame o i l w a os acc num i' evs r : 1 <= num < out_nextStream o → GetOrOpenStream stype pers i num = Ret (i', evs, r) →
    streams_step races (mk_system o i l w a os acc) (mk_system o i' l w a os acc)
| step_accept_call o i l w a os acc : races = true ∨ a = (0, 0)%nat →
    streams_step races (mk_system o i l w a os acc) (mk_system o (AcceptStream_drain i) l w (S a.1, a.2) os acc)
| step_accept o i l w e a os acc i' evs r : accept_round stype i = (i', evs, r) →
    streams_step races (mk_system o i l w (S e, a) os acc) (mk_system o i' (l ++ announced evs) w (e, match r with Blocked => S a | _ => a end) os (acc ++ returned r))
| step_accept_woken o i l w e a os acc i' evs r : AcceptStream_woken stype i = Some (i', evs, r) →
    streams_step races (mk_system o i l w (e, S a) os acc) (mk_system o i' (l ++ announced evs) w (e, match r with Blocked => S a | _ => a end) os (acc ++ returned r))
| step_accept_cancelled o i l w e a os acc :
    streams_step races (mk_system o i l w (e, S a) os acc) (mk_system o (AcceptStream_cancelled i).1 l w (e, a) os acc)
| step_close o i l w a os acc num i' evs err : in_DeleteStream stype i num = (i', evs, err) →
    streams_step races (mk_system o i l w a os acc) (mk_system o i' (l ++ announced evs) w a os acc).

Definition streams_reachable (races : bool) (maxStreams : Z) : streams_system → Prop := rtc (streams_step races) (streams_start maxStreams).

Record system_ok (maxStreams : Z) (s : streams_system) : Prop := {
  so_out : outgoing_ok (sy_out s);
  so_in : incoming_ok (sy_in s);
  so_number : in_maxNumStreams (sy_in s) = maxStreams;
  so_limits : ∀ n, n ∈ sy_limits s → n <= in_maxStream (sy_in s);
  so_last : in_maxStream (sy_in s) ∈ sy_limits s;
  so_max : out_maxStream (sy_out s) <= in_maxStream (sy_in s);
  so_seen : in_nextStreamToOpen (sy_in s) <= out_nextStream (sy_out s);
  so_waiting : dom (out_openQueue (sy_out s)) = sy_waiting s;
  so_opened : sy_opened s = id_of <$> seqZ 1 (out_nextStream (sy_out s) - 1);
  so_accepted : sy_accepted s = id_of <$> seqZ 1 (in_nextStreamToAccept (sy_in s) - 1);
}.

Lemma start_ok maxStreams : 0 <= maxStreams <= MaxStreamCount → system_ok maxStreams (streams_start maxStreams).
Proof.
  intros Hm. assert (i64 maxStreams = maxStreams) as E by (apply i64_small; rewrite max_count in Hm; lia).
  split; cbn; rewrite ?E; try done; [by apply new_incoming_ok|intros n ->%list_elem_of_singleton; done|by apply list_elem_of_singleton|unfold InvalidStreamNum; lia].
Qed.

(** The two sides of a step. *)
Lemma out_update k o i l w a os acc o' w' os' : system_ok k (mk_system o i l w a os acc) → outgoing_ok o' → out_maxStream o' <= in_maxStream i →
  out_nextStream o <= out_nextStream o' → dom (out_openQueue o') = w' → os' = id_of <$> seqZ 1 (out_nextStream o' - 1) → system_ok k (mk_system o' i l w' a os' acc).
Proof. intros [S1 S2 S3 S4 S5 S6 S7 S8 S10 S11] H1 H2 H3 H4 H5. split; cbn in *; try done. lia. Qed.

Lemma in_update k o i l w a os acc i' evs a' acc' : system_ok k (mk_system o i l w a os acc) → incoming_ok i' → in_maxNumStreams i' = in_maxNumStreams i →
  in_maxStream i <= in_maxStream i' → in_nextStreamToOpen i' <= out_nextStream o →
  evs = [] ∧ in_maxStream i' = in_maxStream i ∨ evs = [queueControlFrame (MaxStreamsFrame stype (in_maxStream i'))] →
  acc' = id_of <$> seqZ 1 (in_nextStreamToAccept i' - 1) → system_ok k (mk_system o i' (l ++ announced evs) w a' os acc').
Proof.
  intros [S1 S2 S3 S4 S5 S6 S7 S8 S10 S11] H1 H2 H3 H4 H5 H7. split; cbn in *; try done; try lia.
  - intros n [Hn|Hn]%elem_of_app; [specialize (S4 n Hn); lia|]. destruct H5 as [[-> _]| ->]; [by apply elem_of_nil in Hn|]. cbn in Hn. apply list_elem_of_singleton in Hn. lia.
  - apply elem_of_app. destruct H5 as [[_ ->]| ->]; [by left|right]. cbn. by apply list_elem_of_singleton.
Qed.

Lemma ids_next n : 1 <= n → id_of <$> seqZ 1 (n + 1 - 1) = (id_of <$> seqZ 1 (n - 1)) ++ [id_of n].
Proof.
  intros Hn. replace (n + 1 - 1) with (n - 1 + 1) by lia. rewrite seqZ_app, fmap_app by lia. replace (1 + (n - 1)) with n by lia. done.
Qed.

Lemma opened_next r o n' os : 1 <= out_nextStream o → call_opens r (out_nextStream o) n' → os = id_of <$> seqZ 1 (out_nextStream o - 1) →
  out_nextStream o <= n' ∧ os ++ returned r = id_of <$> seqZ 1 (n' - 1).
Proof.
  intros Hn [[-> ->]|[Hr ->]] ->; (split; [lia|]); cbn.
  - by rewrite ids_next.
  - destruct r as [[s|]| | |]; try by rewrite app_nil_r. by destruct (Hr (Some s)).
Qed.

(** One round of [AcceptStream], from a state where its call does not hold a value of the channel. *)
Lemma accept_update k o i l w a os acc i' evs r a' : system_ok k (mk_system o i l w a os acc) → accept_round stype i = (i', evs, r) →
  system_ok k (mk_system o i' (l ++ announced evs) w a' os (acc ++ returned r)) ∧ (r = Blocked → in_nextStreamToOpen i' <= in_nextStreamToAccept i').
Proof.
  intros Hs E. pose proof Hs as [S1 S2 S3 S4 S5 S6 S7 S8 S10 S11]. cbn in *.
  destruct (Z.lt_ge_cases (in_nextStreamToAccept i) (in_nextStreamToOpen i)) as [Hlt|Hge].
  - destruct (accept_round_ok i S2 Hlt) as (i1 & evs1 & E1 & H1 & H2 & H3 & H4 & H5 & H6 & H7). rewrite E1 in E. injection E as <- <- <-.
    split; [|done]. eapply in_update; [exact Hs|try done; try lia..]. rewrite S11, H3. destruct (io_order _ S2). by rewrite ids_next by lia.
  - unfold accept_round in E. rewrite (io_error _ S2) in E. destruct (in_streams i !! in_nextStreamToAccept i) as [e|] eqn:Ee; [destruct (io_entry _ S2 _ _ Ee); lia|].
    injection E as <- <- <-. split; [|done]. eapply in_update; [exact Hs|try done; try lia..]; [by left|]. cbn. by rewrite app_nil_r.
Qed.

Lemma received_ok k o i l w a os acc c a' : system_ok k (mk_system o i l w a os acc) → sg_closed c = false →
  system_ok k (mk_system o (i <| in_newStreamChan := c |>) l w a' os acc).
Proof. intros [S1 [M1 M2 M3 M4 M5 M6 M7 M8 M9] S3 S4 S5 S6 S7 S8 S10 S11] Hc. split; cbn in *; done. Qed.

Lemma receive_closed c c' : tryReceive c = Some c' → sg_closed c' = sg_closed c.
Proof. unfold tryReceive. destruct (_ || _); [by intros [= <-]|done]. Qed.

Lemma frame_within k s num : system_ok k s → 1 <= num < out_nextStream (sy_out s) → num <= in_maxStream (sy_in s).
Proof. intros [[O1 O2 _ _ _ _] _ _ _ _ S6 _ _ _ _] Hn. lia. Qed.

Lemma system_step races k s s' : system_ok k s → streams_step races s s' → system_ok k s'.
Proof.
  intros Hs H. destruct H as [o i l w a os acc o' evs r E|o i l w a os acc ctxErr o' evs r E|o i l w a os acc pos o' evs r Hp E|o i l w a os acc pos Hp _|o i l w a os acc num|
    o i l w a os acc n o' evs Hn E|o i l w a os acc num i' evs r Hn E|o i l w a os acc Ha|o i l w e a os acc i' evs r E|o i l w e a os acc i' evs r E|o i l w e a os acc|o i l w a os acc num i' evs err E];
    pose proof Hs as [S1 S2 S3 S4 S5 S6 S7 S8 S10 S11]; cbn in *.
  - destruct (OpenStream_ok _ _ _ _ S1 E) as (H1 & _ & H3 & H4 & H5). destruct (opened_next r o _ os (oo_next _ S1) H5 S10) as [Hle Hos].
    eapply out_update; [exact Hs|done|by rewrite H4|done|by rewrite H3|done].
  - destruct (OpenStreamSync_ok _ _ _ _ _ S1 E) as (H1 & _ & H3 & H4 & H5). destruct (opened_next r o _ os (oo_next _ S1) H4 S10) as [Hle Hos].
    eapply out_update; [exact Hs|done|by rewrite H3|done| |done]. destruct r; by rewrite H5, S8.
  - rewrite <- S8 in Hp. apply elem_of_dom in Hp as [c Hc]. destruct (sg_full c) eqn:Hf.
    + destruct (OpenStreamSync_woken_ok o pos c S1 Hc Hf) as (o1 & evs1 & r1 & E1 & H1 & _ & H3 & H4 & H5). rewrite E1 in E. injection E as <- <- <-.
      destruct (opened_next r1 o _ os (oo_next _ S1) H4 S10) as [Hle Hos]. eapply out_update; [exact Hs|done|by rewrite H3|done| |done].
      rewrite <- S8. destruct (_ <=? _); by destruct H5 as [-> ->].
    + exfalso. revert E. unfold OpenStreamSync_woken. rewrite Hc. cbn [mbind option_bind]. unfold tryReceive. by rewrite Hf, (proj2 (oo_queue _ S1 _ _ Hc)).
  - destruct (OpenStreamSync_cancelled_ok o pos S1) as (H1 & H2 & _). eapply out_update; [exact Hs|exact H1|done|done|etrans; [exact H2|by rewrite S8]|done].
  - destruct (out_DeleteStream_ok o num S1) as (H1 & _ & H3 & H4 & H5). eapply out_update; [exact Hs|exact H1|by rewrite H5|by rewrite H4|by rewrite H3|by rewrite H4].
  - destruct (SetMaxStream_ok o n S1) as (o1 & evs1 & E1 & H1 & _ & H3 & H4 & H5). rewrite E1 in E. injection E as <- <-. specialize (S4 n Hn).
    eapply out_update; [exact Hs|exact H1|lia|by rewrite H4|by rewrite H3|by rewrite H4].
  - pose proof (frame_within k _ num Hs Hn) as Hb. cbn in Hb. destruct (GetOrOpenStream_ok i num S2) as (i1 & evs1 & s & E1 & H1 & _ & H3 & H4 & H5 & H6 & H7); [lia|].
    rewrite E1 in E. injection E as <- <- <-. rewrite <- (app_nil_r l). eapply (in_update _ _ _ _ _ _ _ _ _ []); [exact Hs|try done; try lia..]; [by left|by rewrite H3].
  - eapply received_ok; [exact Hs|]. destruct (tryReceive _) as [c|] eqn:Ec; cbn; [rewrite (receive_closed _ _ Ec)|]; apply (io_open _ S2).
  - eapply accept_update; [exact Hs|exact E].
  - revert E. unfold AcceptStream_woken. destruct (tryReceive _) as [c|] eqn:Ec; [|done]. cbn. intros [= E]. eapply (accept_update _ _ _ _ _ (0, 0)%nat); [|exact E].
    eapply received_ok; [exact Hs|]. rewrite (receive_closed _ _ Ec). apply (io_open _ S2).
  - by split.
  - unfold in_DeleteStream in E. apply deleteStream_cases in E; [|done]. pose proof (deleted_ok _ _ _ _ _ S2 E) as H1. destruct (deleted_frame _ _ _ _ _ S2 E) as (F1 & F2 & F3 & F4 & F5 & F6).
    eapply in_update; [exact Hs|try done; try lia..]; by rewrite F2.
Qed.

(** While there is one call of AcceptStream at a time, it is woken for a stream that it can accept. *)
Definition in_live (s : streams_system) : Prop :=
  ((sy_accepting s).1 + (sy_accepting s).2 ≤ 1)%nat ∧
  ((sy_accepting s).2 ≠ 0%nat → in_nextStreamToAccept (sy_in s) < in_nextStreamToOpen (sy_in s) → sg_full (in_newStreamChan (sy_in s)) = true).

Lemma in_live_step k s s' : system_ok k s → in_live s → streams_step false s s' → in_live s'.
Proof.
  intros Hs Hl H. destruct H as [o i l w a os acc o' evs r E|o i l w a os acc ctxErr o' evs r E|o i l w a os acc pos o' evs r Hp E|o i l w a os acc pos Hp Hr|o i l w a os acc num|
    o i l w a os acc n o' evs Hn E|o i l w a os acc num i' evs r Hn E|o i l w a os acc Ha|o i l w e a os acc i' evs r E|o i l w e a os acc i' evs r E|o i l w e a os acc|o i l w a os acc num i' evs err E];
    pose proof (so_in _ _ Hs) as S2; try exact Hl; destruct Hl as [Hl1 Hl2]; unfold in_live; cbn [sy_in sy_accepting fst snd] in *.
  - pose proof (frame_within k _ num Hs Hn) as Hb. cbn in Hb. destruct (GetOrOpenStream_ok i num S2) as (i1 & evs1 & s & E1 & _ & _ & H3 & _ & _ & _ & H7); [lia|].
    rewrite E1 in E. injection E as <- <- <-. split; [done|]. rewrite H3. destruct H7 as [[-> ->]|?]; done.
  - destruct Ha as [Ha| ->]; [done|]. split; [cbn; lia|done].
  - assert (e = 0%nat ∧ a = 0%nat) as [-> ->] by lia. destruct (accept_update k o i l w (1, 0)%nat os acc i' evs r (0, 0)%nat Hs E) as [_ Hb].
    destruct r; (split; [lia|]); try done. intros _. specialize (Hb eq_refl). lia.
  - assert (e = 0%nat ∧ a = 0%nat) as [-> ->] by lia. revert E. unfold AcceptStream_woken. destruct (tryReceive _) as [c|] eqn:Ec; [|done]. cbn. intros [= E].
    destruct (accept_update k o _ l w (0, 0)%nat os acc i' evs r (0, 0)%nat (received_ok k o i l w (0, 1)%nat os acc c (0, 0)%nat Hs ltac:(rewrite (receive_closed _ _ Ec); apply (io_open _ S2))) E) as [_ Hb].
    destruct r; (split; [lia|]); try done. intros _. specialize (Hb eq_refl). lia.
  - split; [lia|]. intros Ha. apply Hl2. lia.
  - unfold in_DeleteStream in E. apply deleteStream_cases in E; [|done]. destruct (deleted_frame _ _ _ _ _ S2 E) as (_ & F2 & F3 & _ & F5 & _). by rewrite F2, F3, F5.
Qed.

Lemma live_step k s s' : system_ok k s → out_live (sy_out s) → streams_step false s s' → out_live (sy_out s').
Proof.
  intros Hs Hl H. destruct H as [o i l w a os acc o' evs r E|o i l w a os acc ctxErr o' evs r E|o i l w a os acc pos o' evs r Hp E|o i l w a os acc pos Hp Hr|o i l w a os acc num|
    o i l w a os acc n o' evs Hn E|o i l w a os acc num i' evs r Hn E|o i l w a os acc Ha|o i l w e a os acc i' evs r E|o i l w e a os acc i' evs r E|o i l w e a os acc|o i l w a os acc num i' evs err E];
    pose proof (so_out _ _ Hs) as S1; cbn [sy_out] in *; try done.
  - by apply (OpenStream_ok _ _ _ _ S1 E).
  - by apply (OpenStreamSync_ok _ _ _ _ _ S1 E).
  - pose proof (so_waiting _ _ Hs) as S8. cbn in S8. rewrite <- S8 in Hp. apply elem_of_dom in Hp as [c Hc]. destruct (sg_full c) eqn:Hf.
    + destruct (OpenStreamSync_woken_ok o pos c S1 Hc Hf) as (o1 & evs1 & r1 & E1 & H1 & H2 & _). rewrite E1 in E. by injection E as <- <- <-.
    + exfalso. revert E. unfold OpenStreamSync_woken. rewrite Hc. cbn [mbind option_bind]. unfold tryReceive. by rewrite Hf, (proj2 (oo_queue _ S1 _ _ Hc)).
  - destruct Hr as [Hr|Hr]; [done|]. by apply (OpenStreamSync_cancelled_ok o pos S1).
  - by apply (out_DeleteStream_ok o num S1).
  - destruct (SetMaxStream_ok o n S1) as (o1 & evs1 & E1 & H1 & H2 & _). rewrite E1 in E. injection E as <- <-. by apply H2.
Qed.

Lemma reachable_ok races k s : 0 <= k <= MaxStreamCount → streams_reachable races k s → system_ok k s.
Proof.
  intros Hk H. apply (start_ok k) in Hk. unfold streams_reachable in H. revert Hk. generalize (streams_start k) H. clear H. intros x H.
  induction H as [x|x y z Hxy _ IH]; [done|]. intros Hx. apply IH. by eapply system_step.
Qed.

Lemma reachable_live k s : 0 <= k <= MaxStreamCount → streams_reachable false k s → system_ok k s ∧ out_live (sy_out s) ∧ in_live s.
Proof.
  intros Hk H. assert (system_ok k (streams_start k) ∧ out_live (sy_out (streams_start k)) ∧ in_live (streams_start k)) as Hs.
  { split_and!; [by apply start_ok|apply new_outgoing_ok|]. split; [cbn; lia|done]. }
  unfold streams_reachable in H. revert Hs. generalize (streams_start k) H. clear Hk H. intros x H.
  induction H as [x|x y z Hxy _ IH]; [done|]. intros (Hx & Hl & Hi). apply IH. split_and!; [by eapply system_step|by eapply live_step|by eapply in_live_step].
Qed.
End Streams.

(** C26. Streams are opened in order and within the limits that the peer announced, whatever the order in which frames
    arrive and calls are woken or cancelled.  The peer accepts them in the same order, never has more of them open than its limit, finds
    every stream that a frame belongs to, and nothing panics. *)
Theorem stream_limits_sound stype pers maxStreams s : 0 <= maxStreams <= MaxStreamCount → streams_reachable stype pers true maxStreams s →
  sy_opened s = id_of stype pers <$> seqZ 1 (out_nextStream (sy_out s) - 1) ∧
  sy_accepted s `prefix_of` sy_opened s ∧
  out_nextStream (sy_out s) - 1 <= Z.max 0 (out_maxStream (sy_out s)) ∧
  open_now (sy_in s) <= maxStreams ∧
  (∀ num, 1 <= num < out_nextStream (sy_out s) →
    ∃ i evs str, GetOrOpenStream stype pers (sy_in s) num = Ret (i, evs, Returned str) ∧ (∀ x, str = Some x → x = id_of stype pers num)) ∧
  (∀ n, n ∈ sy_limits s → ∃ o evs, SetMaxStream stype (sy_out s) n = Ret (o, evs)) ∧
  (∀ pos, pos ∈ sy_waiting s → OpenStreamSync_woken stype pers (sy_out s) pos = None ∨ ∃ res, OpenStreamSync_woken stype pers (sy_out s) pos = Some (Ret res)).
Proof.
  intros Hk Hr. pose proof (reachable_ok _ _ _ _ s Hk Hr) as Hs. pose proof Hs as [S1 S2 S3 S4 S5 S6 S7 S8 S10 S11]. pose proof S2 as [M1 M2 _ M4 _ _ _ _ _]. split_and!.
  - done.
  - rewrite S10, S11. set (a := in_nextStreamToAccept (sy_in s)) in *. set (n := out_nextStream (sy_out s)) in *. replace (n - 1) with (a - 1 + (n - a)) by lia.
    rewrite seqZ_app, fmap_app by lia. by apply prefix_app_r.
  - apply S1.
  - unfold full_limit in M4. lia.
  - intros num Hn. pose proof (frame_within _ _ _ s num Hs Hn). destruct (GetOrOpenStream_ok _ _ _ num S2) as (i & evs & str & E & _ & Hx & _); [lia|]. eauto.
  - intros n Hn. destruct (SetMaxStream_ok stype _ _ n S1) as (o & evs & E & _). eauto.
  - intros pos Hp. rewrite <- S8 in Hp. apply elem_of_dom in Hp as [c Hc]. destruct (sg_full c) eqn:Hf.
    + destruct (OpenStreamSync_woken_ok _ _ _ pos c S1 Hc Hf) as (o1 & evs1 & r1 & E1 & _). eauto.
    + left. unfold OpenStreamSync_woken. rewrite Hc. cbn [mbind option_bind]. unfold tryReceive. by rewrite Hf, (proj2 (oo_queue _ _ _ S1 _ _ Hc)).
Qed.

(** ** An example

    One stream is allowed.  The client opens it, and two more calls wait; the server accepts the stream, closes it,
    and allows another one. *)

Definition ex_out1 : outgoingStreamsMap := Eval vm_compute in
  match SetMaxStream StreamTypeBidi newOutgoingStreamsMap 1 with Ret (o, _) => o | _ => newOutgoingStreamsMap end.
Definition ex_out2 : outgoingStreamsMap := Eval vm_compute in (out_OpenStream StreamTypeBidi PerspectiveClient ex_out1).1.1.
Definition ex_out3 : outgoingStreamsMap := Eval vm_compute in (out_OpenStreamSync StreamTypeBidi PerspectiveClient ex_out2 None).1.1.
Definition ex_out4 : outgoingStreamsMap := Eval vm_compute in (out_OpenStreamSync StreamTypeBidi PerspectiveClient ex_out3 None).1.1.
Definition ex_out5 : outgoingStreamsMap := Eval vm_compute in
  match SetMaxStream StreamTypeBidi ex_out4 2 with Ret (o, _) => o | _ => newOutgoingStreamsMap end.
Definition ex_in1 : incomingStreamsMap := Eval vm_compute in
  match GetOrOpenStream StreamTypeBidi PerspectiveClient (newIncomingStreamsMap 1) 1 with Ret (i, _, _) => i | _ => newIncomingStreamsMap 1 end.
Definition ex_in2 : incomingStreamsMap := Eval vm_compute in (AcceptStream StreamTypeBidi ex_in1).1.1.
Definition ex_in3 : incomingStreamsMap := Eval vm_compute in (in_DeleteStream StreamTypeBidi ex_in2 1).1.1.

Definition ex_streams : streams_system := mk_system ex_out5 ex_in3 [1; 2] {[0; 1]} (0, 0)%nat [0] [0].

Lemma ex_streams_reachable races : streams_reachable StreamTypeBidi PerspectiveClient races 1 ex_streams.
Proof.
  eapply rtc_l; [eapply (step_limit StreamTypeBidi PerspectiveClient races newOutgoingStreamsMap (newIncomingStreamsMap 1) [1] ∅ (0, 0)%nat [] [] 1 ex_out1 _); [left|reflexivity]|].
  eapply rtc_l; [apply (step_open StreamTypeBidi PerspectiveClient races ex_out1 (newIncomingStreamsMap 1) [1] ∅ (0, 0)%nat [] [] ex_out2 _ (Returned (Some 0)) eq_refl)|].
  eapply rtc_l; [apply (step_open_sync StreamTypeBidi PerspectiveClient races ex_out2 (newIncomingStreamsMap 1) [1] ∅ (0, 0)%nat [0] [] None ex_out3 _ (BlockedAt 0) eq_refl)|].
  eapply rtc_l; [apply (step_open_sync StreamTypeBidi PerspectiveClient races ex_out3 (newIncomingStreamsMap 1) [1] ({[0]} ∪ ∅) (0, 0)%nat [0] [] None ex_out4 _ (BlockedAt 1) eq_refl)|].
  eapply rtc_l; [eapply (step_frame StreamTypeBidi PerspectiveClient races ex_out4 (newIncomingStreamsMap 1) [1] ({[1]} ∪ ({[0]} ∪ ∅)) (0, 0)%nat [0] [] 1 ex_in1 _ (Returned (Some 0))); [by vm_compute|reflexivity]|].
  eapply rtc_l; [apply (step_accept_call StreamTypeBidi PerspectiveClient races ex_out4 ex_in1 [1] ({[1]} ∪ ({[0]} ∪ ∅)) (0, 0)%nat [0] []); by right|].
  eapply rtc_l; [apply (step_accept StreamTypeBidi PerspectiveClient races ex_out4 (AcceptStream_drain ex_in1) [1] ({[1]} ∪ ({[0]} ∪ ∅)) 0 0 [0] [] ex_in2 _ (Returned (Some 0)) eq_refl)|].
  eapply rtc_l; [apply (step_close StreamTypeBidi PerspectiveClient races ex_out4 ex_in2 [1] ({[1]} ∪ ({[0]} ∪ ∅)) (0, 0)%nat [0] [0] 1 ex_in3 _ None eq_refl)|].
  eapply rtc_l; [eapply (step_limit StreamTypeBidi PerspectiveClient races ex_out4 ex_in3 [1; 2] ({[1]} ∪ ({[0]} ∪ ∅)) (0, 0)%nat [0] [0] 2 ex_out5 _); [right; left|reflexivity]|].
  replace ({[1]} ∪ ({[0]} ∪ ∅) : gset Z) with ({[0; 1]} : gset Z) by (apply (bool_decide_unpack _); by vm_compute). apply rtc_refl.
Qed.

Lemma stream_limits_sound_witness : streams_reachable StreamTypeBidi PerspectiveClient true 1 ex_streams ∧ open_now (sy_in ex_streams) <= 1 ∧ sy_accepted ex_streams `prefix_of` sy_opened ex_streams.
Proof.
  pose proof (ex_streams_reachable true) as Hr. split; [done|]. destruct (stream_limits_sound StreamTypeBidi PerspectiveClient 1 ex_streams) as (_ & H2 & _ & H4 & _); [by vm_compute|done|]. done.
Defined.

(** C27. No call waits in vain, unless a call of OpenStreamSync is cancelled just when it was woken or several calls of AcceptStream run at the
    same time (the runs here have neither; in both cases a wake-up can be lost).  When a stream may be opened the first of the calls of OpenStreamSync that wait
    can open it, and a waiting AcceptStream returns the next stream as soon as it is open.  While calls wait and streams are allowed at all, a
    stream may be opened, or a limit or the first frame of a stream is on its way, or the peer still has streams open; and when it
    closes one that was accepted it announces a larger limit. *)
Theorem stream_opening_live stype pers maxStreams s : 0 < maxStreams <= MaxStreamCount → streams_reachable stype pers false maxStreams s →
  (sy_waiting s ≠ ∅ → out_nextStream (sy_out s) <= out_maxStream (sy_out s) →
    ∃ pos o evs, pos ∈ sy_waiting s ∧ (∀ pos', pos' ∈ sy_waiting s → pos <= pos') ∧
      OpenStreamSync_woken stype pers (sy_out s) pos = Some (Ret (o, evs, Returned (Some (id_of stype pers (out_nextStream (sy_out s))))))) ∧
  ((sy_accepting s).2 ≠ 0%nat → in_nextStreamToAccept (sy_in s) < in_nextStreamToOpen (sy_in s) →
    ∃ i evs, AcceptStream_woken stype (sy_in s) = Some (i, evs, Returned (Some (id_of stype pers (in_nextStreamToAccept (sy_in s)))))) ∧
  (full_limit (sy_in s) < MaxStreamCount →
    (out_nextStream (sy_out s) <= out_maxStream (sy_out s) ∨ (∃ n, n ∈ sy_limits s ∧ out_maxStream (sy_out s) < n) ∨
     in_nextStreamToOpen (sy_in s) < out_nextStream (sy_out s) ∨ in_streams (sy_in s) ≠ ∅) ∧
    (∀ num, is_Some (in_streams (sy_in s) !! num) → num < in_nextStreamToAccept (sy_in s) →
      ∃ i n, in_DeleteStream stype (sy_in s) num = (i, [queueControlFrame (MaxStreamsFrame stype n)], None) ∧ in_maxStream (sy_in s) < n)).
Proof.
  intros Hk Hr. destruct (reachable_live stype pers maxStreams s) as (Hs & Hl & Hil); [lia|done|]. pose proof Hs as [S1 S2 S3 S4 S5 S6 S7 S8 S10 S11]. pose proof S2 as [M1 M2 _ M4 M5 _ _ M8 _].
  split_and!.
  - intros Hw Hle. destruct (Hl Hle) as [pos Hpos]. { intros E. by rewrite E, dom_empty_L in S8. }
    destruct (OpenStreamSync_woken_ok stype pers _ pos signalled S1 Hpos eq_refl) as (o & evs & r & E & _ & _ & _ & _ & Hr'). rewrite (proj2 (Z.leb_le _ _) Hle) in Hr'. destruct Hr' as [-> _].
    exists pos, o, evs. split_and!; [|intros pos' Hp'|done]; rewrite <- S8 in *; [by eapply elem_of_dom_2|]. apply (oo_first _ _ _ S1 pos signalled Hpos eq_refl). by apply elem_of_dom.
  - intros Ha Hlt. pose proof (proj2 Hil Ha Hlt) as S9. unfold AcceptStream_woken, tryReceive. rewrite S9, M8. cbn [orb mbind option_bind].
    pose proof (received_ok stype pers maxStreams (sy_out s) (sy_in s) (sy_limits s) (sy_waiting s) (sy_accepting s) (sy_opened s) (sy_accepted s) (mk_signal false false) (0, 0)%nat) as Hrec.
    destruct s. destruct (Hrec Hs eq_refl) as [_ T2 _ _ _ _ _ _ _ _]. destruct (accept_round_ok stype pers _ T2 Hlt) as (i & evs & E & _). exists i, evs. f_equal. exact E.
  - intros Hf. split.
    + destruct (Z.le_gt_cases (out_nextStream (sy_out s)) (out_maxStream (sy_out s))) as [|H1]; [by left|right].
      destruct (Z.lt_ge_cases (out_maxStream (sy_out s)) (in_maxStream (sy_in s))) as [H2|H2]; [left; by eexists|right].
      destruct (Z.lt_ge_cases (in_nextStreamToOpen (sy_in s)) (out_nextStream (sy_out s))) as [H3|H3]; [by left|right]. intros He.
      destruct M5 as [M5|M5]; [|lia]. unfold full_limit, open_now in M5. rewrite He, map_size_empty in M5. lia.
    + intros num [e He] Hn. destruct (in_DeleteStream stype (sy_in s) num) as [[i evs] err] eqn:E. pose proof (deleteStream_cases stype pers _ _ _ _ _ S2 E) as Hd.
      pose proof (full_limit_delete _ _ _ He) as Hfl. inversion Hd as [e' [?|?]|e' ? ?|e' i' He' Hn' Ei Hl'|e' i' He' Hn' Ei Hl']; subst; try congruence || lia.
      do 2 eexists. split; [done|]. lia.
Qed.

Lemma stream_opening_live_witness :
  ∃ pos o evs, pos ∈ sy_waiting ex_streams ∧ OpenStreamSync_woken StreamTypeBidi PerspectiveClient (sy_out ex_streams) pos = Some (Ret (o, evs, Returned (Some 4))).
Proof.
  destruct (stream_opening_live StreamTypeBidi PerspectiveClient 1 ex_streams) as (H & _); [by vm_compute|exact (ex_streams_reachable false)|].
  destruct H as (pos & o & evs & H1 & _ & H3); [done|by vm_compute|]. exists pos, o, evs. split; [exact H1|exact H3].
Defined.

(** The calls that are left when a woken call is cancelled. *)
Lemma cancelled_waiters stype pers o pos : outgoing_ok stype pers o → out_openQueue o !! pos = Some signalled →
  ∀ pos' c, out_openQueue (OpenStreamSync_cancelled o pos).1 !! pos' = Some c → c = mk_signal false false.
Proof.
  intros [_ _ O3 O4 _ _] Hpos pos' c Hc. cbn in Hc. apply lookup_delete_Some in Hc as [Hne Hc]. destruct (O3 pos' c Hc) as [_ Hclosed]. destruct c as [full closed]. cbn in Hclosed. subst closed.
  destruct full; [|done]. pose proof (O4 pos _ Hpos eq_refl pos' (mk_is_Some _ _ Hc)). pose proof (O4 pos' _ Hc eq_refl pos (mk_is_Some _ _ Hpos)). lia.
Qed.

(** C28. A call of OpenStreamSync that is cancelled just when it was woken takes the wake-up with it.  In every state that is reached, when
    a call that was woken for a stream leaves because its context is done and another call waits, the state that results is
    reached too: a stream may be opened in it, but none of the calls that wait continues, OpenStream refuses to open the
    stream since calls wait, a new call of OpenStreamSync waits as well, and this lasts, since frames with a limit that is known already change nothing. *)
Theorem cancelled_call_blocks stype pers maxStreams s pos : 0 <= maxStreams <= MaxStreamCount → streams_reachable stype pers true maxStreams s →
  out_nextStream (sy_out s) <= out_maxStream (sy_out s) → out_openQueue (sy_out s) !! pos = Some signalled → sy_waiting s ≠ {[pos]} →
  let o := (OpenStreamSync_cancelled (sy_out s) pos).1 in
  streams_reachable stype pers true maxStreams (mk_system o (sy_in s) (sy_limits s) (sy_waiting s ∖ {[pos]}) (sy_accepting s) (sy_opened s) (sy_accepted s)) ∧
  out_nextStream o <= out_maxStream o ∧ sy_waiting s ∖ {[pos]} ≠ ∅ ∧
  (∀ pos', pos' ∈ sy_waiting s ∖ {[pos]} → OpenStreamSync_woken stype pers o pos' = None) ∧
  (out_OpenStream stype pers o).2 = Failed errTooManyOpenStreams ∧
  (∃ pos', (out_OpenStreamSync stype pers o None).2 = BlockedAt pos') ∧
  (∀ n, n <= out_maxStream o → SetMaxStream stype o n = Ret (o, [])).
Proof.
  intros Hk Hr Hle Hpos Hother o. pose proof (reachable_ok _ _ _ _ s Hk Hr) as [S1 _ _ _ _ _ _ S8 _ _]. assert (pos ∈ sy_waiting s) as Hin by (rewrite <- S8; by eapply elem_of_dom_2).
  assert (sy_waiting s ∖ {[pos]} ≠ ∅) as Hne.
  { intros E. apply Hother. rewrite (union_difference_singleton_L pos (sy_waiting s) Hin), E. by rewrite union_empty_r_L. }
  assert (dom (out_openQueue o) = sy_waiting s ∖ {[pos]}) as Hdom by (rewrite <- S8; apply dom_delete_L).
  assert (out_openQueue o ≠ ∅) as Hq by (intros E; by rewrite E, dom_empty_L in Hdom).
  split_and!; try done.
  - eapply rtc_r; [exact Hr|]. destruct s. apply step_cancelled; [exact Hin|by left].
  - intros pos' Hp. rewrite <- Hdom in Hp. apply elem_of_dom in Hp as [c Hc]. pose proof (cancelled_waiters stype pers _ pos S1 Hpos pos' c Hc) as ->.
    unfold OpenStreamSync_woken. by rewrite Hc.
  - unfold out_OpenStream. rewrite empty_queue, (bool_decide_eq_false_2 _ Hq). change (out_closeErr o) with (out_closeErr (sy_out s)). rewrite (oo_error _ _ _ S1). cbn [negb orb].
    by destruct (maybeSendBlockedFrame stype o).
  - unfold out_OpenStreamSync. rewrite empty_queue, (bool_decide_eq_false_2 _ Hq). change (out_closeErr o) with (out_closeErr (sy_out s)). rewrite (oo_error _ _ _ S1). cbn [andb].
    cbv zeta. destruct (maybeSendBlockedFrame stype _). by eexists.
  - intros n Hn. unfold SetMaxStream. by rewrite (proj2 (Z.leb_le _ _) Hn).
Qed.

Lemma cancelled_call_blocks_witness :
  OpenStreamSync_woken StreamTypeBidi PerspectiveClient (OpenStreamSync_cancelled ex_out5 0).1 1 = None ∧
  (out_OpenStream StreamTypeBidi PerspectiveClient (OpenStreamSync_cancelled ex_out5 0).1).2 = Failed errTooManyOpenStreams.
Proof.
  destruct (cancelled_call_blocks StreamTypeBidi PerspectiveClient 1 ex_streams 0) as (_ & _ & _ & H4 & H5 & _);
    [by vm_compute|exact (ex_streams_reachable true)|by vm_compute|by vm_compute|by vm_compute|].
  split; [|exact H5]. apply H4. apply (bool_decide_unpack _). by vm_compute.
Defined.

(** A second call of AcceptStream takes the wake-up of the first: it empties the channel and accepts the next stream, and the first call, which
    was on its way to the channel, waits although a further stream can be accepted. *)
Theorem accept_wakeup_taken stype pers m : incoming_ok stype pers m → in_nextStreamToAccept m + 1 < in_nextStreamToOpen m →
  ∃ m' evs, AcceptStream stype m = (m', evs, Returned (Some (id_of stype pers (in_nextStreamToAccept m)))) ∧
    in_nextStreamToAccept m' < in_nextStreamToOpen m' ∧ AcceptStream_woken stype m' = None.
Proof.
  intros Hm Hlt. pose proof (io_open _ _ _ Hm) as Hc. assert (incoming_ok stype pers (AcceptStream_drain m)) as Hd.
  { destruct Hm as [M1 M2 M3 M4 M5 M6 M7 M8 M9]. split; try done. unfold AcceptStream_drain, tryReceive. cbn. by destruct (_ || _). }
  destruct (accept_round_ok stype pers (AcceptStream_drain m) Hd) as (m' & evs & E & _ & _ & H3 & H4 & _ & H6 & _); [change (in_nextStreamToAccept m < in_nextStreamToOpen m); lia|].
  exists m', evs. split; [exact E|]. rewrite H3, H4. split; [exact Hlt|]. unfold AcceptStream_woken. rewrite H6. unfold AcceptStream_drain, tryReceive. cbn.
  destruct (in_newStreamChan m) as [full closed]. cbn in Hc. subst closed. by destruct full.
Qed.

(** ** The maps of a connection *)

Record maps_ok (m : streamsMap) : Prop := {
  mo_out_bidi : outgoing_ok StreamTypeBidi (sm_perspective m) (sm_outgoingBidiStreams m);
  mo_out_uni : outgoing_ok StreamTypeUni (sm_perspective m) (sm_outgoingUniStreams m);
  mo_in_bidi : incoming_ok StreamTypeBidi (Opposite (sm_perspective m)) (sm_incomingBidiStreams m);
  mo_in_uni : incoming_ok StreamTypeUni (Opposite (sm_perspective m)) (sm_incomingUniStreams m);
}.

Lemma new_maps_ok bidi uni pers : 0 <= bidi <= MaxStreamCount → 0 <= uni <= MaxStreamCount → maps_ok (newStreamsMap bidi uni pers).
Proof. intros Hb Hu. split; [apply new_outgoing_ok..|by apply new_incoming_ok|by apply new_incoming_ok]. Qed.

(** A stream's ID says its type, who opened it and its number. *)
Lemma stream_id_parts id : 0 <= id → id_of (StreamID_Type id) (StreamID_InitiatedBy id) (StreamID_StreamNum id) = id ∧ 1 <= StreamID_StreamNum id.
Proof.
  intros Hid. unfold id_of, StreamNum_StreamID, StreamID_Type, StreamID_InitiatedBy, StreamID_StreamNum. rewrite Z.quot_div_nonneg, !Z.rem_mod_nonneg by lia.
  pose proof (Z.div_pos id 4 Hid ltac:(lia)). split; [|lia]. rewrite (proj2 (Z.eqb_neq _ _)) by lia.
  pose proof (Z.mod_pos_bound id 4 ltac:(lia)). pose proof (Z.mod_pos_bound id 2 ltac:(lia)). pose proof (Z.div_mod id 4 ltac:(lia)). pose proof (Z.div_mod id 2 ltac:(lia)).
  destruct (Z.leb_spec 2 (id mod 4)), (Z.eqb_spec (id mod 2) 0); lia.
Qed.

Lemma other_perspective p q : p ≠ q → p = Opposite q.
Proof. by destruct p, q. Qed.

(** A stream that the peer may not use for sending. *)
Definition receive_refused (m : streamsMap) (id : Z) : Prop :=
  let num := StreamID_StreamNum id in
  if bool_decide (StreamID_InitiatedBy id = sm_perspective m)
  then match StreamID_Type id with StreamTypeUni => True | StreamTypeBidi => out_nextStream (sm_outgoingBidiStreams m) <= num end
  else in_maxStream (match StreamID_Type id with StreamTypeUni => sm_incomingUniStreams m | StreamTypeBidi => sm_incomingBidiStreams m end) < num.

Lemma GetOrOpenStream_refused stype pers m num : in_maxStream m < num →
  GetOrOpenStream stype pers m num = Ret (m, [], Failed (streamError "peer tried to open stream %d (current limit: %d)" [num; in_maxStream m])).
Proof. intros H. unfold GetOrOpenStream. by rewrite (proj2 (Z.ltb_lt _ _)). Qed.

(** The stream that is returned for the ID of a received frame is the stream with this ID.  Frames that the peer may not send, on streams it can not send on or
    beyond its limit, are refused with a STREAM_STATE_ERROR and change nothing. *)
Theorem receive_stream_found m id : maps_ok m → 0 <= id →
  ∃ m' evs r, GetOrOpenReceiveStream m id = Ret (m', evs, r) ∧ maps_ok m' ∧
    ((receive_refused m id ∧ m' = m ∧ evs = [] ∧ ∃ e, r = Failed (StreamStateError e)) ∨ (¬ receive_refused m id ∧ ∃ s, r = Returned s ∧ ∀ x, s = Some x → x = id)).
Proof.
  intros Hm Hid. pose proof Hm as [H1 H2 H3 H4]. destruct (stream_id_parts id Hid) as [Eid Hnum]. unfold GetOrOpenReceiveStream, getOrOpenReceiveStream, receive_refused.
  set (num := StreamID_StreamNum id) in *. destruct (bool_decide_reflect (StreamID_InitiatedBy id = sm_perspective m)) as [Hown|Hpeer].
  - rewrite Hown in Eid |- *. destruct (StreamID_Type id); cbn [mbind outcome_bind]; [do 3 eexists; split_and!; [done..|]; left; by eauto|].
    unfold GetStream. destruct (Z.leb_spec (out_nextStream (sm_outgoingBidiStreams m)) num) as [Hn|Hn]; do 3 eexists; (split_and!; [done..|]); [left; by eauto|right; split; [lia|]].
    eexists. split; [done|]. intros x Hx. destruct (oo_streams _ _ _ H1 _ _ Hx) as [_ ->]. done.
  - apply other_perspective in Hpeer. rewrite Hpeer in Eid |- *. unfold openUni, openBidi. destruct (StreamID_Type id).
    + destruct (Z.lt_ge_cases (in_maxStream (sm_incomingUniStreams m)) num) as [Hn|Hn].
      * rewrite GetOrOpenStream_refused by done. cbn [mbind outcome_bind]. do 3 eexists. split_and!; [done| |left; split_and!; try done; [by destruct m|eauto]]. by destruct m.
      * destruct (GetOrOpenStream_ok StreamTypeUni _ _ num H4) as (i & evs & s & -> & Hi & Hs & _); [lia|]. cbn [mbind outcome_bind]. do 3 eexists. split_and!; [done|by split|].
        right. split; [lia|]. eexists. split; [done|]. intros x Hx. rewrite (Hs x Hx). exact Eid.
    + destruct (Z.lt_ge_cases (in_maxStream (sm_incomingBidiStreams m)) num) as [Hn|Hn].
      * rewrite GetOrOpenStream_refused by done. cbn [mbind outcome_bind]. do 3 eexists. split_and!; [done| |left; split_and!; try done; [by destruct m|eauto]]. by destruct m.
      * destruct (GetOrOpenStream_ok StreamTypeBidi _ _ num H3) as (i & evs & s & -> & Hi & Hs & _); [lia|]. cbn [mbind outcome_bind]. do 3 eexists. split_and!; [done|by split|].
        right. split; [lia|]. eexists. split; [done|]. intros x Hx. rewrite (Hs x Hx). exact Eid.
Qed.

Lemma receive_stream_found_witness : ∃ m' evs, GetOrOpenReceiveStream (newStreamsMap 3 0 PerspectiveServer) 8 = Ret (m', evs, Returned (Some 8)).
Proof.
  destruct (receive_stream_found (newStreamsMap 3 0 PerspectiveServer) 8) as (m' & evs & r & E & _ & H); [apply new_maps_ok; by vm_compute|done|].
  exists m', evs. destruct H as [[H _]|[_ (s & -> & Hs)]]; [by vm_compute in H|]. destruct s as [x|]; [by rewrite (Hs x eq_refl) in E|]. vm_compute in E. discriminate E.
Defined.

(** The error for a unidirectional stream beyond the limit names a stream of the endpoint itself: here 3 instead of 2. *)
Lemma refused_stream_misnamed : ∃ m, GetOrOpenReceiveStream (newStreamsMap 0 0 PerspectiveServer) 2 =
  Ret (m, [], Failed (StreamStateError (formattedError "peer tried to open stream %d (current limit: %d)" [3; InvalidStreamID]))).
Proof. eexists. reflexivity. Qed.

(** After the connection was closed every call that waits and every new one returns the error, and all streams are closed. *)
Theorem closed_streams stype pers o i err : outgoing_ok stype pers o → incoming_ok stype pers i →
  (∃ o' evs, out_CloseWithError o err = Ret (o', evs) ∧ evs = [closeForShutdown ((map_to_list (out_streams o)).*2) err] ∧
    (out_OpenStream stype pers o').2 = Failed err ∧ (∀ ctxErr, (out_OpenStreamSync stype pers o' ctxErr).2 = Failed err) ∧
    (∀ pos, is_Some (out_openQueue o !! pos) → ∃ o'', OpenStreamSync_woken stype pers o' pos = Some (Ret (o'', [], Failed err)))) ∧
  (∃ i' evs, in_CloseWithError i err = Ret (i', evs) ∧ (AcceptStream stype i').2 = Failed err ∧ ∃ i'', AcceptStream_woken stype i' = Some (i'', [], Failed err)).
Proof.
  intros [_ _ O3 _ _ _] [_ _ _ _ _ _ _ M8 _]. split.
  - unfold out_CloseWithError, close_all. rewrite bool_decide_eq_true_2 by (intros pos c Hc; exact (proj2 (O3 pos c Hc))). cbn [mbind outcome_bind]. do 2 eexists.
    split_and!; [done..|]. intros pos [c Hc]. unfold OpenStreamSync_woken. cbn. rewrite lookup_fmap, Hc. cbn. unfold tryReceive. cbn. rewrite orb_true_r. eexists. reflexivity.
  - unfold in_CloseWithError, closeSignal. rewrite M8. cbn [mbind outcome_bind]. do 2 eexists. split_and!; [done..|]. unfold AcceptStream_woken, tryReceive. cbn. rewrite orb_true_r. eexists. reflexivity.
Qed.
